(* ===== verification/_CoqProject ===== *)
-Q . S2P
Prelude.v
KString.v
Spinlock.v
Kalloc.v
Kmalloc.v
Proc.v
Sleep.v
Pipe.v
Bytes.v
Bio.v
BlockLayer.v
Log.v
Fs.v
FsFile.v
FsPath.v
FileTree.v
Mkfs.v
Vm.v
VmOps.v
VmSafe.v
File.v
FileSafe.v
FileOps.v
FileStream.v
Syscall.v
Sysfile.v
SysSafe.v
SysRead.v
SysText.v
NetUtil.v
Tcp.v
TcpSafe.v
TcpStream.v
TcpWire.v
TcpHandshake.v
TcpFlaws.v
TcpWitness.v
Fmt.v
Net.v
Ether.v
Arp.v
Ip.v
Udp.v
Stack.v
Loop.v
Sock.v
NetWitness.v
Dns.v
Mutex.v
Grep.v
UserLib.v
Clock.v
