(* ===== verification/Prelude.v ===== *)
(** * Sirpair OS: a verification library for the kernel and its user space

    (The whole development is documented here; see the end of the sitting.) *)

From Stdlib Require Import ZArith Lia.
From stdpp Require Export base list gmap strings.

#[global] Open Scope Z_scope.

(** ** Machine integers

    A C [uint] is a [Z] in [0, 2^32); arithmetic wraps explicitly.  A C [int]
    is a [Z] in [-2^31, 2^31). *)

Definition u32 (x : Z) : Z := x mod 2 ^ 32.
Definition u16 (x : Z) : Z := x mod 2 ^ 16.
Definition u8 (x : Z) : Z := x mod 2 ^ 8.
Definition s32 (x : Z) : Z :=
  let y := u32 x in if y <? 2 ^ 31 then y else y - 2 ^ 32.
Definition s16 (x : Z) : Z :=
  let y := u16 x in if y <? 2 ^ 15 then y else y - 2 ^ 16.

Declare Scope u32_scope.
Delimit Scope u32_scope with u32.
Notation "x +u y" := (u32 (x + y)) (at level 50, left associativity) : u32_scope.
Notation "x -u y" := (u32 (x - y)) (at level 50, left associativity) : u32_scope.
Notation "x *u y" := (u32 (x * y)) (at level 40, left associativity) : u32_scope.
#[global] Open Scope u32_scope.

(** A C truth value. *)
Definition cbool (b : bool) : Z := if b then 1 else 0.

(** ** Kernel computations

    A kernel function is a state transformer that returns a value, panics
    (the [panic] function of console.c never returns) or goes to sleep on a
    channel.  [Slept] is the outcome of a function whose caller's thread would
    give up the processor: the state is the one at the call of [sleep]. *)

Inductive outcome (S A : Type) : Type :=
| Done (a : A) (s : S)
| Panicked (msg : string) (s : S)
| Slept (chan : Z) (s : S).
Arguments Done {S A} a s.
Arguments Panicked {S A} msg s.
Arguments Slept {S A} chan s.

Definition K (S A : Type) : Type := S -> outcome S A.

Definition kret {S A} (a : A) : K S A := fun s => Done a s.
Definition kbind {S A B} (m : K S A) (k : A -> K S B) : K S B := fun s =>
  match m s with
  | Done a s' => k a s'
  | Panicked msg s' => Panicked msg s'
  | Slept c s' => Slept c s'
  end.
Definition kget {S} : K S S := fun s => Done s s.
Definition kput {S} (s : S) : K S unit := fun _ => Done tt s.
Definition kmodify {S} (f : S -> S) : K S unit := fun s => Done tt (f s).
Definition kgets {S A} (f : S -> A) : K S A := fun s => Done (f s) s.
Definition panic {S A} (msg : string) : K S A := fun s => Panicked msg s.
(** What C leaves undefined (an access out of bounds): the theorems that a
    function returns show that it does not get there. *)
Definition ub {S A} (what : string) : K S A := fun s => Panicked what s.
Definition ksleep {S A} (chan : Z) : K S A := fun s => Slept chan s.
Definition kwhen {S} (b : bool) (m : K S unit) : K S unit := if b then m else kret tt.

Declare Scope kmonad_scope.
Delimit Scope kmonad_scope with kmonad.
Notation "x <- m ;; k" := (kbind m (fun x => k))
  (at level 100, m at next level, right associativity) : kmonad_scope.
Notation "m ;; k" := (kbind m (fun _ => k))
  (at level 100, right associativity) : kmonad_scope.
#[global] Open Scope kmonad_scope.

(** Run a computation of a component on its part of a larger state. *)
Definition zoom {S T A} (get : S -> T) (put : T -> S -> S) (m : K T A) : K S A := fun s =>
  match m (get s) with
  | Done a t => Done a (put t s)
  | Panicked msg t => Panicked msg (put t s)
  | Slept c t => Slept c (put t s)
  end.

(** ** Weakest preconditions

    [wp m Q s]: from [s], [m] returns (no panic, no sleep) with [Q]. *)

Definition wp {S A} (m : K S A) (Q : A -> S -> Prop) (s : S) : Prop :=
  match m s with Done a s' => Q a s' | _ => False end.

Section WP.
Context {S A B : Type}.
Implicit Types (s : S) (m : K S A).

Lemma wp_ret (a : A) (Q : A -> S -> Prop) s : Q a s -> wp (kret a) Q s.
Proof. done. Qed.

Lemma wp_bind m (k : A -> K S B) (Q : B -> S -> Prop) s :
  wp m (fun a s' => wp (k a) Q s') s -> wp (kbind m k) Q s.
Proof. unfold wp, kbind. by destruct (m s). Qed.

Lemma wp_mono m (P Q : A -> S -> Prop) s :
  wp m P s -> (forall a s', P a s' -> Q a s') -> wp m Q s.
Proof. unfold wp. destruct (m s); naive_solver. Qed.

Lemma wp_gets (f : S -> A) (Q : A -> S -> Prop) s : Q (f s) s -> wp (kgets f) Q s.
Proof. done. Qed.

Lemma wp_done m (Q : A -> S -> Prop) s :
  wp m Q s <-> exists a s', m s = Done a s' /\ Q a s'.
Proof. unfold wp. destruct (m s); split; [eauto|by intros (?&?&[= <- <-]&?)|done|by intros (?&?&?&?)|done|by intros (?&?&?&?)]. Qed.
End WP.

Lemma wp_get {S} (Q : S -> S -> Prop) s : Q s s -> wp kget Q s.
Proof. done. Qed.
Lemma wp_put {S} (Q : unit -> S -> Prop) (s t : S) : Q tt t -> wp (kput t) Q s.
Proof. done. Qed.
Lemma wp_modify {S} (f : S -> S) (Q : unit -> S -> Prop) s : Q tt (f s) -> wp (kmodify f) Q s.
Proof. done. Qed.
Lemma wp_zoom {S T A} (get : S -> T) put (m : K T A) (Q : A -> S -> Prop) s :
  wp m (fun a t => Q a (put t s)) (get s) -> wp (zoom get put m) Q s.
Proof. unfold wp, zoom. by destruct (m (get s)). Qed.

(** [wlp m Q s]: if [m] returns from [s], then with [Q]. *)
Definition wlp {S A} (m : K S A) (Q : A -> S -> Prop) (s : S) : Prop :=
  match m s with Done a s' => Q a s' | _ => True end.

Section WLP.
Context {S A B : Type}.
Implicit Types (s : S) (m : K S A).

Lemma wlp_ret (a : A) (Q : A -> S -> Prop) s : Q a s -> wlp (kret a) Q s.
Proof. done. Qed.
Lemma wlp_bind m (k : A -> K S B) (Q : B -> S -> Prop) s :
  wlp m (fun a s' => wlp (k a) Q s') s -> wlp (kbind m k) Q s.
Proof. unfold wlp, kbind. by destruct (m s). Qed.
Lemma wlp_mono m (P Q : A -> S -> Prop) s :
  wlp m P s -> (forall a s', P a s' -> Q a s') -> wlp m Q s.
Proof. unfold wlp. destruct (m s); naive_solver. Qed.
Lemma wlp_gets (f : S -> A) (Q : A -> S -> Prop) s : Q (f s) s -> wlp (kgets f) Q s.
Proof. done. Qed.
Lemma wlp_panic msg (Q : A -> S -> Prop) s : wlp (panic msg) Q s.
Proof. done. Qed.
Lemma wlp_elim m (Q : A -> S -> Prop) s a s' : wlp m Q s -> m s = Done a s' -> Q a s'.
Proof. unfold wlp. intros HQ Em. by rewrite Em in HQ. Qed.
Lemma wp_wlp m (Q : A -> S -> Prop) s : wp m Q s -> wlp m Q s.
Proof. unfold wp, wlp. by destruct (m s). Qed.
End WLP.

Lemma wlp_get {S} (Q : S -> S -> Prop) s : Q s s -> wlp kget Q s.
Proof. done. Qed.
Lemma wlp_put {S} (Q : unit -> S -> Prop) (s t : S) : Q tt t -> wlp (kput t) Q s.
Proof. done. Qed.
Lemma wlp_modify {S} (f : S -> S) (Q : unit -> S -> Prop) s : Q tt (f s) -> wlp (kmodify f) Q s.
Proof. done. Qed.
Lemma wlp_zoom {S T A} (get : S -> T) put (m : K T A) (Q : A -> S -> Prop) s :
  wlp m (fun a t => Q a (put t s)) (get s) -> wlp (zoom get put m) Q s.
Proof. unfold wlp, zoom. by destruct (m (get s)). Qed.

Create HintDb kwp.
#[export] Hint Resolve wp_ret wp_gets wp_get wp_put wp_modify : kwp.

(** One symbolic step of a computation under [wp]. *)
Ltac kstep :=
  lazymatch goal with
  | |- wp (kbind _ _) _ _ => apply wp_bind
  | |- wp (kret _) _ _ => apply wp_ret
  | |- wp (kgets _) _ _ => apply wp_gets
  | |- wp kget _ _ => apply wp_get
  | |- wp (kput _) _ _ => apply wp_put
  | |- wp (kmodify _) _ _ => apply wp_modify
  | |- wp (zoom _ _ _) _ _ => apply wp_zoom
  | |- wlp (kbind _ _) _ _ => apply wlp_bind
  | |- wlp (kret _) _ _ => apply wlp_ret
  | |- wlp (kgets _) _ _ => apply wlp_gets
  | |- wlp kget _ _ => apply wlp_get
  | |- wlp (kput _) _ _ => apply wlp_put
  | |- wlp (kmodify _) _ _ => apply wlp_modify
  | |- wlp (panic _) _ _ => apply wlp_panic
  | |- wlp (ub _) _ _ => apply wlp_panic
  | |- wlp (zoom _ _ _) _ _ => apply wlp_zoom
  end.
Ltac ksteps := repeat (kstep; cbn beta).

(** Case analysis on the comparisons of the goal (or of the hypotheses). *)
Ltac zcases :=
  repeat match goal with
  | |- context [?x =? ?y] => destruct (Z.eqb_spec x y)
  | |- context [?x <=? ?y] => destruct (Z.leb_spec x y)
  | |- context [?x <? ?y] => destruct (Z.ltb_spec x y)
  end; cbn [andb orb negb].
Ltac zcases_in H :=
  repeat match type of H with
  | context [?x =? ?y] => destruct (Z.eqb_spec x y)
  | context [?x <=? ?y] => destruct (Z.leb_spec x y)
  | context [?x <? ?y] => destruct (Z.ltb_spec x y)
  end; cbn [andb orb negb] in H.

(** [lia] with division and modulo by constants. *)
Ltac dlia := Z.div_mod_to_equations; lia.

(** ** Arithmetic lemmas *)

Lemma u32_range x : 0 <= u32 x < 2 ^ 32.
Proof. apply Z.mod_pos_bound. lia. Qed.
Lemma u32_small x : 0 <= x < 2 ^ 32 -> u32 x = x.
Proof. apply Z.mod_small. Qed.
Lemma s32_small x : - 2 ^ 31 <= x < 2 ^ 31 -> s32 x = x.
Proof. intros Hx. unfold s32, u32. zcases; dlia. Qed.
Lemma u32_u32 x : u32 (u32 x) = u32 x.
Proof. apply Z.mod_mod. lia. Qed.

#[export] Hint Resolve u32_range : arith.

Lemma pow2_minus_testbit w k i :
  0 <= k <= w -> 0 <= i -> Z.testbit (2 ^ w - 2 ^ k) i = (k <=? i) && (i <? w).
Proof.
  intros Hk Hi.
  replace (2 ^ w - 2 ^ k) with (Z.shiftl (Z.ones (w - k)) k).
  - rewrite Z.shiftl_spec by done.
    destruct (Z.leb_spec k i), (Z.ltb_spec i w); cbn [andb].
    + apply Z.ones_spec_low. lia.
    + apply Z.ones_spec_high. lia.
    + apply Z.testbit_neg_r. lia.
    + lia.
  - rewrite Z.shiftl_mul_pow2, Z.ones_equiv by lia.
    replace (2 ^ w) with (2 ^ (w - k) * 2 ^ k) by (rewrite <- Z.pow_add_r by lia; f_equal; lia). lia.
Qed.

(** Masking with [~(2^k - 1)] rounds a word down to a multiple of [2^k]. *)
Lemma land_mask_up y w k :
  0 <= y < 2 ^ w -> 0 <= k <= w -> Z.land y (2 ^ w - 2 ^ k) = y - y mod 2 ^ k.
Proof.
  intros Hy Hk.
  replace (y - y mod 2 ^ k) with (Z.shiftl (Z.shiftr y k) k).
  - apply Z.bits_inj'. intros i Hi.
    rewrite Z.land_spec, pow2_minus_testbit, Z.shiftl_spec by lia.
    destruct (Z.leb_spec k i), (Z.ltb_spec i w); cbn [andb].
    + rewrite andb_true_r, Z.shiftr_spec by lia. f_equal. lia.
    + rewrite andb_false_r, Z.shiftr_spec by lia. symmetry.
      rewrite <- (Z.mod_small y (2 ^ w)) by done. apply Z.mod_pow2_bits_high. lia.
    + rewrite andb_false_r. symmetry. apply Z.testbit_neg_r. lia.
    + lia.
  - rewrite Z.shiftl_mul_pow2, Z.shiftr_div_pow2 by lia.
    pose proof (Z.div_mod y (2 ^ k)). pose proof (Z.pow_pos_nonneg 2 k). lia.
Qed.

(** ** Lists *)

Lemma filter_ext_in {A} (P Q : A -> Prop) `{!forall x, Decision (P x), !forall x, Decision (Q x)} (l : list A) :
  (forall x, x ∈ l -> P x <-> Q x) -> filter P l = filter Q l.
Proof.
  intros Hpq. induction l as [|a l IH]; [done|]. assert (Ha : P a <-> Q a) by (apply Hpq; left).
  assert (IH' : filter P l = filter Q l) by (apply IH; intros x Hx; apply Hpq; by right).
  destruct (decide (P a)).
  - rewrite !filter_cons_True by tauto. by rewrite IH'.
  - rewrite !filter_cons_False by tauto. exact IH'.
Qed.

Lemma alter_insert {A} (f : A -> A) (i : nat) (l : list A) x : l !! i = Some x -> alter f i l = <[i := f x]> l.
Proof. revert i. induction l as [|y l IH]; intros [|i] Hx; simplify_eq/=; [done|]. f_equal. by apply IH. Qed.

(** ** Sums over tables *)

Definition zsum {A} (f : A -> Z) (l : list A) : Z := foldr (fun x a => f x + a) 0 l.

Section zsum.
Context {A : Type}.
Implicit Types (f : A -> Z) (l : list A).

Lemma zsum_alter f (g : A -> A) l i x : l !! i = Some x -> zsum f (alter g i l) = zsum f l - f x + f (g x).
Proof.
  revert i. induction l as [|y l IH]; intros [|i] Hx; simplify_eq/=; [lia|]. specialize (IH i Hx). cbn [zsum foldr] in *. unfold zsum in *. lia.
Qed.
Lemma zsum_nonneg f l : (forall x, 0 <= f x) -> 0 <= zsum f l.
Proof. intros Hf. induction l as [|y l IH]; simpl; [lia|]. specialize (Hf y). lia. Qed.
Lemma zsum_in f l i x : (forall y, 0 <= f y) -> l !! i = Some x -> f x <= zsum f l.
Proof.
  intros Hf. revert i. induction l as [|y l IH]; intros [|i] Hx; simplify_eq/=.
  - pose proof (zsum_nonneg f l Hf). unfold zsum in *. lia.
  - specialize (IH i Hx). specialize (Hf y). lia.
Qed.
Lemma zsum_0 f l : (forall i x, l !! i = Some x -> f x = 0) -> zsum f l = 0.
Proof.
  induction l as [|y l IH]; intros Hz; [done|]. simpl. rewrite (Hz 0%nat y) by done. apply IH. intros i x Hi. by apply (Hz (S i)).
Qed.
Lemma zsum_pos f l : (forall y, 0 <= f y) -> 1 <= zsum f l -> exists i x, l !! i = Some x /\ 1 <= f x.
Proof.
  intros Hf. induction l as [|y l IH]; simpl; intros Hs; [lia|]. destruct (decide (1 <= f y)) as [Hy|Hy]; [by exists 0%nat, y|].
  destruct IH as (i & x & Hi & Hx); [specialize (Hf y); unfold zsum in *; lia|]. by exists (S i), x.
Qed.
End zsum.

Lemma zsum_insert {A} (f : A -> Z) (l : list A) i x y : l !! i = Some x -> zsum f (<[i := y]> l) = zsum f l - f x + f y.
Proof. intros Hx. rewrite <- (alter_insert (fun _ => y) i l x Hx). by apply zsum_alter. Qed.
