(* ===== verification/KString.v ===== *)
(** * kernel/string.c: memory and string primitives

    Memory is a total map from addresses to bytes; a pointer is an address.
    The string-comparison loops only read, so they take the two strings as
    byte streams ([cstr]): the bytes from a pointer on, or the bytes of a
    buffer followed by its NUL. *)

From Stdlib Require Import ZArith Lia.
From S2P Require Import Prelude.

Definition mem : Type := Z -> Z.
Definition upd (m : mem) (a v : Z) : mem := fun x => if x =? a then v else m x.

(** Bytes read from a pointer on. *)
Definition cstr : Type := nat -> Z.
Definition at_ptr (m : mem) (p : Z) : cstr := fun k => m (p + Z.of_nat k).
Definition of_bytes (l : list Z) : cstr := fun k => nth k l 0.
Definition cdrop (n : nat) (s : cstr) : cstr := fun k => s (n + k)%nat.

(** ** memset *)

(** [rep stosb] and [rep stosl] (include/x86.h). *)
Fixpoint stosb (m : mem) (addr data : Z) (cnt : nat) : mem :=
  match cnt with
  | O => m
  | S c => stosb (upd m addr (Z.land data 255)) (addr + 1) data c
  end.

Definition store32 (m : mem) (a w : Z) : mem :=
  upd (upd (upd (upd m a (Z.land w 255))
    (a + 1) (Z.land (Z.shiftr w 8) 255))
    (a + 2) (Z.land (Z.shiftr w 16) 255))
    (a + 3) (Z.land (Z.shiftr w 24) 255).

Fixpoint stosl (m : mem) (addr data : Z) (cnt : nat) : mem :=
  match cnt with
  | O => m
  | S c => stosl (store32 m addr data) (addr + 4) data c
  end.

Definition memset (m : mem) (dst c n : Z) : mem :=
  if (Z.rem (s32 dst) 4 =? 0) && (n mod 4 =? 0) then
    let c := Z.land c 255 in
    stosl m dst
      (Z.lor (Z.lor (Z.lor (Z.shiftl c 24) (Z.shiftl c 16)) (Z.shiftl c 8)) c)
      (Z.to_nat (n / 4))
  else stosb m dst c (Z.to_nat n).

(** ** memcmp, memmove, memcpy *)

Fixpoint memcmp (s1 s2 : cstr) (n : nat) : Z :=
  match n with
  | O => 0
  | S n' =>
      if negb (s1 0%nat =? s2 0%nat) then s1 0%nat - s2 0%nat
      else memcmp (cdrop 1 s1) (cdrop 1 s2) n'
  end.

(** [cld; rep movsb] *)
Fixpoint movsb_up (m : mem) (s d : Z) (cnt : nat) : mem :=
  match cnt with
  | O => m
  | S c => movsb_up (upd m d (m s)) (s + 1) (d + 1) c
  end.

(** [std; rep movsb; cld] *)
Fixpoint movsb_down (m : mem) (s d : Z) (cnt : nat) : mem :=
  match cnt with
  | O => m
  | S c => movsb_down (upd m d (m s)) (s - 1) (d - 1) c
  end.

Definition memmove (m : mem) (dst src n : Z) : mem :=
  if (n =? 0) || (src =? dst) then m
  else if (src <? dst) && (dst <? src + n) then
    movsb_down m (src + (n - 1)) (dst + (n - 1)) (Z.to_nat n)
  else movsb_up m src dst (Z.to_nat n).

Definition memcpy (m : mem) (dst src n : Z) : mem := memmove m dst src n.

(** ** String loops *)

Fixpoint strncmp (p q : cstr) (n : nat) : Z :=
  match n with
  | O => 0
  | S n' =>
      if negb (p 0%nat =? 0) && (p 0%nat =? q 0%nat)
      then strncmp (cdrop 1 p) (cdrop 1 q) n'
      else u8 (p 0%nat) - u8 (q 0%nat)
  end.

(** The two loops of [strncpy]; the second one pads with zeros. *)
Fixpoint strncpy_pad (m : mem) (s : Z) (n : nat) : mem :=
  match n with
  | O => m
  | S n' => strncpy_pad (upd m s 0) (s + 1) n'
  end.

Fixpoint strncpy_loop (m : mem) (s t : Z) (n : nat) : mem :=
  match n with
  | O => m
  | S n' =>
      let m' := upd m s (m t) in
      if negb (m t =? 0) then strncpy_loop m' (s + 1) (t + 1) n'
      else strncpy_pad m' (s + 1) n'
  end.

Definition strncpy (m : mem) (s t n : Z) : mem := strncpy_loop m s t (Z.to_nat n).

Fixpoint safestrcpy_loop (m : mem) (s t : Z) (n : nat) : mem * Z :=
  match n with
  | O => (m, s)
  | S n' =>
      let m' := upd m s (m t) in
      if negb (m t =? 0) then safestrcpy_loop m' (s + 1) (t + 1) n'
      else (m', s + 1)
  end.

Definition safestrcpy (m : mem) (s t n : Z) : mem :=
  if n <=? 0 then m
  else
    let '(m', s') := safestrcpy_loop m s t (Z.to_nat (n - 1)) in
    upd m' s' 0.

(** The loop of [strlen] from index [n]; [None] when [fuel] is used up before
    a NUL is found. *)
Fixpoint strlen_loop (s : cstr) (n fuel : nat) : option Z :=
  match fuel with
  | O => None
  | S f => if s n =? 0 then Some (Z.of_nat n) else strlen_loop s (S n) f
  end.

Definition strlen (s : cstr) (fuel : nat) : option Z := strlen_loop s 0 fuel.

(** ** Reference behaviour *)

(** The bytes that precede the first NUL among the first [n]. *)
Fixpoint ctake (s : cstr) (n : nat) : list Z :=
  match n with
  | O => []
  | S n' => if s 0%nat =? 0 then [] else s 0%nat :: ctake (cdrop 1 s) n'
  end.

(** The [n] bytes [strncpy] stores: the string, then zeros. *)
Definition strncpy_bytes (t : cstr) (n : nat) : list Z :=
  let l := ctake t n in l ++ replicate (n - length l) 0.

(** The bytes [safestrcpy] leaves in its destination: at most [n-1] bytes of
    the string and a NUL. *)
Definition safestrcpy_bytes (t : cstr) (n : nat) : list Z := ctake t (n - 1) ++ [0].

(** ** Lemmas *)

Lemma upd_same m a v : upd m a v a = v.
Proof. unfold upd. by rewrite Z.eqb_refl. Qed.
Lemma upd_other m a v x : x <> a -> upd m a v x = m x.
Proof. intros H. unfold upd. by apply Z.eqb_neq in H as ->. Qed.

Lemma stosb_spec cnt : forall m a c x,
  stosb m a c cnt x = if (a <=? x) && (x <? a + Z.of_nat cnt) then Z.land c 255 else m x.
Proof.
  induction cnt as [|cnt IH]; intros m a c x; cbn [stosb].
  - zcases; done || lia.
  - rewrite IH. unfold upd. zcases; done || lia.
Qed.

Lemma splat_byte c k :
  0 <= c < 256 -> (k = 0 \/ k = 8 \/ k = 16 \/ k = 24) ->
  Z.land (Z.shiftr (Z.lor (Z.lor (Z.lor (Z.shiftl c 24) (Z.shiftl c 16)) (Z.shiftl c 8)) c) k) 255 = c.
Proof.
  intros Hc Hk.
  assert (Hall : forallb (fun c => forallb (fun k =>
      Z.land (Z.shiftr (Z.lor (Z.lor (Z.lor (Z.shiftl c 24) (Z.shiftl c 16)) (Z.shiftl c 8)) c) k) 255 =? c)
      [0; 8; 16; 24]) (map Z.of_nat (seq 0 256)) = true) by (vm_compute; reflexivity).
  rewrite forallb_forall in Hall.
  specialize (Hall c). rewrite forallb_forall in Hall.
  apply Z.eqb_eq, Hall.
  - apply in_map_iff. exists (Z.to_nat c). split; [lia|]. apply in_seq. lia.
  - simpl. intuition.
Qed.

Lemma stosl_spec cnt : forall m a w c x,
  (forall k, k = 0 \/ k = 8 \/ k = 16 \/ k = 24 -> Z.land (Z.shiftr w k) 255 = c) ->
  stosl m a w cnt x = if (a <=? x) && (x <? a + 4 * Z.of_nat cnt) then c else m x.
Proof.
  induction cnt as [|cnt IH]; intros m a w c x Hw; cbn [stosl].
  - zcases; done || lia.
  - rewrite (IH _ _ _ c) by done. unfold store32.
    pose proof (Hw 0) as H0. rewrite Z.shiftr_0_r in H0.
    rewrite H0, !Hw by auto. unfold upd. zcases; done || lia.
Qed.

(** The word stores of the aligned case write the same bytes as the byte
    stores: [memset] sets exactly the bytes of the destination. *)
Lemma memset_bytes m dst c n x :
  0 <= n ->
  memset m dst c n x = if (dst <=? x) && (x <? dst + n) then Z.land c 255 else m x.
Proof.
  intros Hn. unfold memset.
  destruct (_ && _) eqn:E.
  - apply andb_true_iff in E as [_ E%Z.eqb_eq].
    rewrite (stosl_spec _ _ _ _ (Z.land c 255)).
    + replace (4 * Z.of_nat (Z.to_nat (n / 4))) with n; [done|].
      pose proof (Z.div_mod n 4). pose proof (Z.div_pos n 4). lia.
    + intros k Hk. apply splat_byte; [|done].
      change 255 with (Z.ones 8). rewrite Z.land_ones by lia. apply Z.mod_pos_bound. lia.
  - rewrite stosb_spec. by rewrite Z2Nat.id by lia.
Qed.

Lemma movsb_up_spec cnt : forall m s d x,
  (d <= s \/ s + Z.of_nat cnt <= d) ->
  movsb_up m s d cnt x = if (d <=? x) && (x <? d + Z.of_nat cnt) then m (x - d + s) else m x.
Proof.
  induction cnt as [|cnt IH]; intros m s d x H; cbn [movsb_up].
  - zcases; done || lia.
  - rewrite IH by lia. unfold upd. zcases; try lia; f_equal; lia.
Qed.

Lemma movsb_down_spec cnt : forall m s d x,
  s <= d ->
  movsb_down m s d cnt x = if (d - Z.of_nat cnt <? x) && (x <=? d) then m (x - d + s) else m x.
Proof.
  induction cnt as [|cnt IH]; intros m s d x H; cbn [movsb_down].
  - zcases; done || lia.
  - rewrite IH by lia. unfold upd. zcases; try lia; f_equal; lia.
Qed.

Lemma memmove_bytes m dst src n x :
  0 <= n ->
  memmove m dst src n x = if (dst <=? x) && (x <? dst + n) then m (x - dst + src) else m x.
Proof.
  intros Hn. unfold memmove. destruct (Z.eqb_spec n 0), (Z.eqb_spec src dst); cbn [orb]; subst.
  1-3: zcases; try lia; try done; f_equal; lia.
  destruct (Z.ltb_spec src dst), (Z.ltb_spec dst (src + n)); cbn [andb].
  - rewrite movsb_down_spec, Z2Nat.id by lia. zcases; try lia; try done; f_equal; lia.
  - rewrite movsb_up_spec, Z2Nat.id by lia. done.
  - rewrite movsb_up_spec, Z2Nat.id by lia. done.
  - rewrite movsb_up_spec, Z2Nat.id by lia. done.
Qed.

Lemma memcmp_zero n : forall s1 s2,
  memcmp s1 s2 n = 0 <-> forall k, (k < n)%nat -> s1 k = s2 k.
Proof.
  induction n as [|n IH]; intros s1 s2; cbn [memcmp]; [split; [lia|done]|].
  destruct (Z.eqb_spec (s1 0%nat) (s2 0%nat)) as [E|E]; cbn [negb].
  - rewrite IH. unfold cdrop. split.
    + intros H [|k] Hk; [done|]. apply (H k). lia.
    + intros H k Hk. apply (H (1 + k)%nat). lia.
  - split; [lia|]. intros H. specialize (H 0%nat). lia.
Qed.

Definition byte (x : Z) : Prop := 0 <= x < 256.

Lemma of_bytes_byte l : Forall byte l -> forall k, byte (of_bytes l k).
Proof.
  intros H. induction H as [|x l Hx _ IH]; intros [|k].
  1-2: unfold byte, of_bytes; simpl; lia.
  - done.
  - apply IH.
Qed.

Lemma ctake_length n : forall s, (length (ctake s n) <= n)%nat.
Proof.
  induction n as [|n IH]; intros s; cbn [ctake]; [simpl; lia|].
  destruct (_ =? _); simpl; [lia|]. specialize (IH (cdrop 1 s)). lia.
Qed.

Lemma strncmp_zero n : forall p q,
  (forall k, byte (p k)) -> (forall k, byte (q k)) ->
  strncmp p q n = 0 <-> ctake p n = ctake q n.
Proof.
  induction n as [|n IH]; intros p q Hp Hq; cbn [strncmp ctake]; [done|].
  pose proof (Hp 0%nat). pose proof (Hq 0%nat). unfold byte in *.
  assert (Hu : forall x, 0 <= x < 256 -> u8 x = x) by (intros; apply Z.mod_small; lia).
  destruct (Z.eqb_spec (p 0%nat) (q 0%nat)) as [E|E].
  - rewrite <- E. destruct (Z.eqb_spec (p 0%nat) 0); cbn [negb andb].
    + split; [done|lia].
    + rewrite IH by (intros; apply Hp || apply Hq). split; congruence.
  - rewrite andb_false_r, !Hu by lia. split; [lia|].
    zcases; congruence || lia.
Qed.

Lemma strncpy_pad_spec n : forall m s x,
  strncpy_pad m s n x = if (s <=? x) && (x <? s + Z.of_nat n) then 0 else m x.
Proof.
  induction n as [|n IH]; intros m s x; cbn [strncpy_pad].
  - zcases; done || lia.
  - rewrite IH. unfold upd. zcases; done || lia.
Qed.

(** Bytes of a buffer that holds [l] at address [s]. *)
Definition stores (m m' : mem) (s : Z) (l : list Z) : Prop :=
  (forall k, (k < length l)%nat -> m' (s + Z.of_nat k) = nth k l 0) /\
  (forall x, x < s \/ s + Z.of_nat (length l) <= x -> m' x = m x).

Lemma stores_cons m m' s v l :
  m' s = v -> (forall x, x < s -> m' x = m x) -> stores (upd m s v) m' (s + 1) l -> stores m m' s (v :: l).
Proof.
  intros Hv Hlo [H1 H2]. split.
  - intros [|k] Hk; simpl; [rewrite Z.add_0_r; done|].
    simpl in Hk. replace (s + Z.of_nat (S k)) with (s + 1 + Z.of_nat k) by lia. apply H1. lia.
  - intros x Hx. simpl length in Hx. destruct Hx; [by apply Hlo|].
    rewrite H2 by lia. apply upd_other. lia.
Qed.

Lemma stores_zeros m s n : stores m (strncpy_pad m s n) s (replicate n 0).
Proof.
  split.
  - intros k Hk. rewrite length_replicate in Hk. rewrite strncpy_pad_spec.
    replace ((s <=? s + Z.of_nat k) && (s + Z.of_nat k <? s + Z.of_nat n)) with true by (zcases; lia || done).
    symmetry. apply nth_lookup_Some with (d := 0). apply lookup_replicate_2. lia.
  - intros x Hx. rewrite length_replicate in Hx. rewrite strncpy_pad_spec.
    zcases; done || lia.
Qed.

Lemma ctake_ext n : forall a b, (forall k, (k < n)%nat -> a k = b k) -> ctake a n = ctake b n.
Proof.
  induction n as [|n IH]; intros a b H; cbn [ctake]; [done|].
  rewrite (H 0%nat) by lia. destruct (_ =? _); [done|]. f_equal.
  apply IH. intros k Hk. apply (H (1 + k)%nat). lia.
Qed.

Lemma ctake_ptr_S m p n :
  ctake (at_ptr m p) (S n) = if m p =? 0 then [] else m p :: ctake (at_ptr m (p + 1)) n.
Proof.
  cbn [ctake]. unfold at_ptr at 1 2. rewrite Z.add_0_r. destruct (_ =? _); [done|].
  f_equal. apply ctake_ext. intros k _. unfold cdrop, at_ptr. f_equal. lia.
Qed.

Lemma ctake_upd m p a v n :
  a < p \/ p + Z.of_nat n <= a -> ctake (at_ptr (upd m a v) p) n = ctake (at_ptr m p) n.
Proof.
  intros H. apply ctake_ext. intros k Hk. unfold at_ptr. apply upd_other. lia.
Qed.

Lemma strncpy_loop_below n : forall m s t x, x < s -> strncpy_loop m s t n x = m x.
Proof.
  induction n as [|n IH]; intros m s t x Hx; cbn [strncpy_loop]; [done|].
  destruct (m t =? 0); cbn [negb].
  - rewrite strncpy_pad_spec. zcases; try lia. apply upd_other. lia.
  - rewrite IH by lia. apply upd_other. lia.
Qed.

Lemma strncpy_loop_stores n : forall m s t,
  s + Z.of_nat n <= t \/ t + Z.of_nat n <= s ->
  stores m (strncpy_loop m s t n) s (strncpy_bytes (at_ptr m t) n).
Proof.
  unfold strncpy_bytes.
  induction n as [|n IH]; intros m s t Hd.
  - split; [simpl; lia|done].
  - rewrite ctake_ptr_S. cbn [strncpy_loop]. destruct (Z.eqb_spec (m t) 0) as [E|E]; cbn [negb].
    + simpl. apply stores_cons.
      * rewrite strncpy_pad_spec. zcases; try lia. by rewrite upd_same.
      * intros x Hx. rewrite strncpy_pad_spec. zcases; try lia. apply upd_other. lia.
      * rewrite E. apply stores_zeros.
    + simpl. apply stores_cons.
      * rewrite strncpy_loop_below by lia. apply upd_same.
      * intros x Hx. rewrite strncpy_loop_below by lia. apply upd_other. lia.
      * specialize (IH (upd m s (m t)) (s + 1) (t + 1)). rewrite ctake_upd in IH by lia. apply IH. lia.
Qed.

Lemma safestrcpy_loop_stores n : forall m s t,
  s + Z.of_nat n <= t \/ t + Z.of_nat n < s ->
  let '(m', s') := safestrcpy_loop m s t n in
  stores m (upd m' s' 0) s (ctake (at_ptr m t) n ++ [0]) \/
  (length (ctake (at_ptr m t) n) < n)%nat /\
  stores m (upd m' s' 0) s (ctake (at_ptr m t) n ++ [0; 0]).
Proof.
  induction n as [|n IH]; intros m s t Hd; cbn [safestrcpy_loop].
  - left. simpl. split; simpl.
    + intros [|k] Hk; [|lia]. rewrite Z.add_0_r. apply upd_same.
    + intros x Hx. apply upd_other. lia.
  - rewrite ctake_ptr_S. destruct (Z.eqb_spec (m t) 0) as [E|E]; cbn [negb].
    + right. rewrite E. split; [simpl; lia|]. split; simpl.
      * intros [|[|k]] Hk; [| |lia]; unfold upd; zcases; try lia; done.
      * intros x Hx. unfold upd; zcases; lia || done.
    + specialize (IH (upd m s (m t)) (s + 1) (t + 1)).
      destruct (safestrcpy_loop _ _ _ n) as [m' s'] eqn:El.
      rewrite ctake_upd in IH by lia.
      assert (Hs' : s + 1 <= s' /\ forall x, x < s + 1 -> m' x = upd m s (m t) x).
      { clear -El. revert El. generalize (upd m s (m t)) (s + 1) (t + 1) m' s'.
        induction n as [|n IH]; intros m0 s0 t0 m1 s1; cbn [safestrcpy_loop].
        - intros [= <- <-]. split; [lia|done].
        - destruct (_ =? _); cbn [negb].
          + intros [= <- <-]. split; [lia|]. intros x Hx. apply upd_other. lia.
          + intros [H1 H2]%IH. split; [lia|]. intros x Hx. rewrite H2 by lia. apply upd_other. lia. }
      destruct Hs' as [Hs' Hb].
      destruct IH as [IH|[Hl IH]]; [lia|left|right; split; [simpl; lia|]]; simpl; (apply stores_cons; [| |exact IH]).
      all: intros; rewrite upd_other by lia; rewrite Hb by lia.
      all: try apply upd_same; apply upd_other; lia.
Qed.

Lemma strlen_loop_spec s : forall j n fuel,
  (forall i, (n <= i < n + j)%nat -> s i <> 0) -> s (n + j)%nat = 0 -> (j < fuel)%nat ->
  strlen_loop s n fuel = Some (Z.of_nat (n + j)).
Proof.
  induction j as [|j IH]; intros n fuel Hn H0 Hf; (destruct fuel as [|f]; [lia|]); cbn [strlen_loop].
  - rewrite Nat.add_0_r in *. by rewrite H0.
  - destruct (Z.eqb_spec (s n) 0) as [E|E]; [by apply (Hn n) in E; lia|].
    rewrite (IH (S n) f) by (lia || (intros; apply Hn; lia) || (rewrite <- H0; f_equal; lia)).
    do 2 f_equal. lia.
Qed.

Lemma strlen_ctake s n k :
  length (ctake s n) = k -> (k < n)%nat -> strlen s n = Some (Z.of_nat k).
Proof.
  intros Hk Hn.
  assert (H : (forall i, (i < k)%nat -> s i <> 0) /\ s k = 0).
  { clear -Hk Hn. revert s k Hk Hn. induction n as [|n IH]; intros s k Hk Hn; [lia|].
    cbn [ctake] in Hk. destruct (Z.eqb_spec (s 0%nat) 0) as [E|E]; simpl in Hk.
    - subst k. split; [lia|done].
    - destruct k as [|k]; [lia|]. injection Hk as Hk.
      destruct (IH (cdrop 1 s) k Hk) as [H1 H2]; [lia|]. split; [|exact H2].
      intros [|i] Hi; [done|]. apply (H1 i). lia. }
  destruct H as [H1 H2]. unfold strlen.
  rewrite (strlen_loop_spec s k 0) by (try done; intros; apply H1; lia). done.
Qed.

Lemma ctake_app_nul (l z : list Z) n :
  Forall (fun x => x <> 0) l -> (length l < n)%nat ->
  forall c : cstr, (forall k, (k < length (l ++ 0%Z :: z))%nat -> c k = nth k (l ++ 0 :: z) 0) -> ctake c n = l.
Proof.
  revert n. induction l as [|x l IH]; intros n Hl Hn c Hc; (destruct n as [|n]; [simpl in Hn; lia|]); cbn [ctake].
  - rewrite (Hc 0%nat) by (simpl; lia). done.
  - inversion Hl; subst. rewrite (Hc 0%nat) by (simpl; lia). simpl nth.
    destruct (Z.eqb_spec x 0); [done|]. f_equal. apply IH; [done|simpl in Hn; lia|].
    intros k Hk. unfold cdrop. rewrite (Hc (1 + k)%nat) by (simpl; lia). done.
Qed.

Lemma ctake_nonzero n : forall s, Forall (fun x => x <> 0) (ctake s n).
Proof.
  induction n as [|n IH]; intros s; cbn [ctake]; [constructor|].
  destruct (Z.eqb_spec (s 0%nat) 0); constructor; auto.
Qed.

(** ** Properties *)

(** [memmove] moves the [n] bytes as if through a temporary buffer,
    whichever way the two ranges overlap, and changes nothing else. *)
Theorem memmove_correct m dst src n :
  0 <= n ->
  (forall k, 0 <= k < n -> memmove m dst src n (dst + k) = m (src + k)) /\
  (forall x, x < dst \/ dst + n <= x -> memmove m dst src n x = m x).
Proof.
  intros Hn. split.
  - intros k Hk. rewrite memmove_bytes by done. zcases; try lia. f_equal. lia.
  - intros x Hx. rewrite memmove_bytes by done. zcases; lia || done.
Qed.

Lemma memmove_correct_witness :
  memmove (fun x => x) 3 1 5 7 = 5 /\ memmove (fun x => x) 1 3 5 8 = 8.
Proof.
  split.
  - apply (proj1 (memmove_correct (fun x => x) 3 1 5 ltac:(lia)) 4). lia.
  - apply (proj2 (memmove_correct (fun x => x) 1 3 5 ltac:(lia)) 8). lia.
Defined.

(** [strncmp] returns 0 exactly when the two strings agree up to their
    NUL within the first [n] bytes (what [namecmp] of fs.c relies on). *)
Theorem strncmp_correct p q n :
  (forall k, byte (p k)) -> (forall k, byte (q k)) ->
  strncmp p q n = 0 <-> ctake p n = ctake q n.
Proof. apply strncmp_zero. Qed.

Lemma strncmp_correct_witness :
  ctake (of_bytes [46; 0; 7]) 14 = ctake (of_bytes [46]) 14.
Proof.
  apply (proj1 (strncmp_correct (of_bytes [46; 0; 7]) (of_bytes [46]) 14
    (of_bytes_byte [46; 0; 7] ltac:(repeat constructor; unfold byte; lia))
    (of_bytes_byte [46] ltac:(repeat constructor; unfold byte; lia)))).
  reflexivity.
Defined.

(** [safestrcpy] leaves a NUL-terminated copy of at most [n-1] bytes of
    the source and never writes outside the [n] bytes of the destination. *)
Theorem safestrcpy_correct m s t n :
  0 < n -> s + n <= t \/ t + n <= s ->
  let m' := safestrcpy m s t n in
  ctake (at_ptr m' s) (Z.to_nat n) = ctake (at_ptr m t) (Z.to_nat (n - 1)) /\
  (exists k, 0 <= k < n /\ m' (s + k) = 0) /\
  (forall x, x < s \/ s + n <= x -> m' x = m x).
Proof.
  intros Hn Hd. unfold safestrcpy. destruct (Z.leb_spec n 0); [lia|].
  pose proof (safestrcpy_loop_stores (Z.to_nat (n - 1)) m s t ltac:(lia)) as Hs.
  destruct (safestrcpy_loop _ _ _ _) as [m' s'].
  set (l := ctake (at_ptr m t) (Z.to_nat (n - 1))) in *.
  pose proof (ctake_length (Z.to_nat (n - 1)) (at_ptr m t)) as Hl. fold l in Hl.
  pose proof (ctake_nonzero (Z.to_nat (n - 1)) (at_ptr m t)) as Hnz. fold l in Hnz.
  assert (Hk : forall z, stores m (upd m' s' 0) s (l ++ 0 :: z) ->
    ctake (at_ptr (upd m' s' 0) s) (Z.to_nat n) = l /\
    (exists k, 0 <= k < n /\ upd m' s' 0 (s + k) = 0)).
  { intros z [H1 H2]. split.
    - apply (ctake_app_nul l z); [done|lia|]. intros k Hk. by apply H1.
    - exists (Z.of_nat (length l)). split; [lia|].
      rewrite H1 by (rewrite length_app; simpl; lia).
      by rewrite app_nth2, Nat.sub_diag by lia. }
  destruct Hs as [Hs|[Hlt Hs]].
  - destruct (Hk _ Hs) as [A B]. split_and!; [done|done|].
    intros x Hx. apply Hs. rewrite length_app. simpl. lia.
  - destruct (Hk _ Hs) as [A B]. split_and!; [done|done|].
    intros x Hx. apply Hs. rewrite length_app. simpl. lia.
Qed.

Lemma safestrcpy_correct_witness :
  ctake (at_ptr (safestrcpy (fun x => x) 100 1 4) 100) 4 = [1; 2; 3].
Proof. apply (safestrcpy_correct (fun x => x) 100 1 4); lia. Defined.
