(* ===== verification/Spinlock.v ===== *)
(** * kernel/spinlock.c: spin locks and interrupt masking

    The lock is shared by all processors, so [acquire] and [release] are cut
    into their atomic pieces (the [xchg] on [locked], the write of [cpu]) and
    the machine interleaves the pieces of different processors in any order.
    [pushcli]/[popcli] act on the processor's own [struct cpu]. *)

From Stdlib Require Import ZArith Lia.
From S2P Require Import Prelude.

(** The fields of [struct cpu] the lock code uses, with the interrupt flag of
    the processor's EFLAGS. *)
Record cpu := { ncli : Z; intena : bool; eflags_IF : bool }.

(** [struct spinlock]; [lk_cpu] is the holder ([None] for the null pointer). *)
Record spinlock := { locked : Z; lk_name : string; lk_cpu : option nat; pcs : list Z }.

Definition initlock (name : string) (lk : spinlock) : spinlock :=
  {| locked := 0; lk_name := name; lk_cpu := None; pcs := pcs lk |}.

(** ** Interrupt masking *)

Definition pushcli (c : cpu) : cpu :=
  let eflags := eflags_IF c in
  {| ncli := ncli c + 1;
     intena := if ncli c =? 0 then eflags else intena c;
     eflags_IF := false |}.

Definition popcli : K cpu unit :=
  c <- kget ;;
  if eflags_IF c then panic "popcli - interruptible"
  else
    let c := {| ncli := ncli c - 1; intena := intena c; eflags_IF := false |} in
    kput c ;;
    if ncli c <? 0 then panic "popcli"
    else if (ncli c =? 0) && intena c
    then kput {| ncli := ncli c; intena := intena c; eflags_IF := true |}
    else kret tt.

(** ** The lock *)

Definition holding (me : nat) (lk : spinlock) : bool :=
  negb (locked lk =? 0) && bool_decide (lk_cpu lk = Some me).

(** [getcallerpcs]: follow the saved frame pointers from [ebp], with [rd] the
    word at an address, and fill the ten entries. *)
Fixpoint getcallerpcs_loop (rd : Z -> Z) (ebp : Z) (i : nat) : list Z :=
  match i with
  | O => []
  | S i' =>
      if (ebp =? 0) || (ebp <? 0x80000000) || (ebp =? 0xffffffff)
      then replicate i 0
      else rd (ebp +u 4) :: getcallerpcs_loop rd (rd ebp) i'
  end.
Definition getcallerpcs (rd : Z -> Z) (v : Z) : list Z :=
  getcallerpcs_loop rd (v -u 8) 10.

(** [xchg(&lk->locked, v)]: the old value and the updated lock. *)
Definition xchg_locked (v : Z) (lk : spinlock) : Z * spinlock :=
  (locked lk, {| locked := v; lk_name := lk_name lk; lk_cpu := lk_cpu lk; pcs := pcs lk |}).
Definition set_lk_cpu (o : option nat) (p : list Z) (lk : spinlock) : spinlock :=
  {| locked := locked lk; lk_name := lk_name lk; lk_cpu := o; pcs := p |}.

(** *** The locks of a component

    A component that runs under locks sees of them only whether they are
    held: with mutual exclusion (below) a lock it does not hold is free when
    its [acquire] returns, a second [acquire] by the same processor panics,
    and so does a [release] of a lock that is not held. *)

Class HasLocks (L S : Type) := {
  held : L -> S -> bool;
  set_held : L -> bool -> S -> S;
}.

Definition acquire {L S} `{HasLocks L S} (l : L) : K S unit :=
  s <- kget ;;
  if held l s then panic "acquire" else kput (set_held l true s).
Definition release {L S} `{HasLocks L S} (l : L) : K S unit :=
  s <- kget ;;
  if held l s then kput (set_held l false s) else panic "release".

(** *** The interleaved machine *)

(** Where a processor is in [acquire]/[release]. *)
Inductive pc := Outside | Spinning | Got | Critical | Cleared.

#[global] Instance pc_eq_dec : EqDecision pc.
Proof. solve_decision. Defined.

Record machine := { lock : spinlock; cpus : nat -> cpu; pcof : nat -> pc; crashed : bool }.

Definition fupd {A} (f : nat -> A) (i : nat) (v : A) : nat -> A :=
  fun j => if decide (j = i) then v else f j.

Definition set_machine (m : machine) (l : spinlock) (i : nat) (c : cpu) (p : pc) : machine :=
  {| lock := l; cpus := fupd (cpus m) i c; pcof := fupd (pcof m) i p; crashed := crashed m |}.
Definition crash (m : machine) : machine :=
  {| lock := lock m; cpus := cpus m; pcof := pcof m; crashed := true |}.

(** [acquire], up to the loop: mask interrupts, panic on a recursive
    acquisition. *)
Definition acquire_enter (i : nat) (m : machine) : machine :=
  let m := set_machine m (lock m) i (pushcli (cpus m i)) Spinning in
  if holding i (lock m) then crash m else m.

(** One turn of [while(xchg(&lk->locked, 1) != 0)]. *)
Definition acquire_try (i : nat) (m : machine) : machine :=
  let '(old, l) := xchg_locked 1 (lock m) in
  set_machine m l i (cpus m i) (if old =? 0 then Got else Spinning).

(** Record the holder ([ps] are the recorded return addresses). *)
Definition acquire_record (i : nat) (ps : list Z) (m : machine) : machine :=
  set_machine m (set_lk_cpu (Some i) ps (lock m)) i (cpus m i) Critical.

(** [release] up to the [xchg]. *)
Definition release_clear (i : nat) (m : machine) : machine :=
  if holding i (lock m)
  then set_machine m (set_lk_cpu None (<[0%nat := 0]> (pcs (lock m))) (lock m)) i (cpus m i) Cleared
  else crash m.

(** The [xchg] that frees the lock, then [popcli]. *)
Definition release_store (i : nat) (m : machine) : machine :=
  let '(_, l) := xchg_locked 0 (lock m) in
  match popcli (cpus m i) with
  | Done _ c => set_machine m l i c Outside
  | Panicked _ c | Slept _ c => crash (set_machine m l i c Outside)
  end.

(** A step of processor [i]. *)
Inductive step : machine -> machine -> Prop :=
| step_enter i m : pcof m i = Outside -> step m (acquire_enter i m)
| step_try i m : pcof m i = Spinning -> step m (acquire_try i m)
| step_record i ps m : pcof m i = Got -> step m (acquire_record i ps m)
| step_clear i m : pcof m i = Critical -> step m (release_clear i m)
| step_store i m : pcof m i = Cleared -> step m (release_store i m)
| step_sti i m : pcof m i = Outside -> ncli (cpus m i) = 0 ->
    forall b, step m (set_machine m (lock m) i
      {| ncli := 0; intena := intena (cpus m i); eflags_IF := b |} Outside).

(** Start: the lock free, no processor in it, nothing masked. *)
Definition initial (m : machine) : Prop :=
  locked (lock m) = 0 /\ lk_cpu (lock m) = None /\ crashed m = false /\
  forall i, pcof m i = Outside /\ ncli (cpus m i) = 0.

Definition owns (p : pc) : bool := match p with Got | Critical | Cleared => true | _ => false end.

(** ** The invariant *)

Record lock_inv (m : machine) : Prop := {
  inv_up : crashed m = false;
  inv_locked : locked (lock m) = 0 -> forall i, owns (pcof m i) = false;
  inv_one : forall i j, owns (pcof m i) = true -> owns (pcof m j) = true -> i = j;
  inv_cpu : forall i, lk_cpu (lock m) = Some i <-> pcof m i = Critical;
  inv_ncli : forall i, ncli (cpus m i) = if decide (pcof m i = Outside) then 0 else 1;
  inv_if : forall i, pcof m i <> Outside -> eflags_IF (cpus m i) = false;
}.

Lemma fupd_same {A} (f : nat -> A) i v : fupd f i v i = v.
Proof. unfold fupd. by rewrite decide_True. Qed.
Lemma fupd_other {A} (f : nat -> A) i j v : j <> i -> fupd f i v j = f j.
Proof. intros. unfold fupd. by rewrite decide_False. Qed.

Ltac fupd_cases i :=
  match goal with
  | |- context [fupd _ i _ ?j] => destruct (decide (j = i)) as [->|?];
      [rewrite ?fupd_same in *|rewrite ?fupd_other in * by done]
  end.

Lemma wp_acquire {L S} `{HasLocks L S} (l : L) (Q : unit -> S -> Prop) s :
  held l s = false -> Q tt (set_held l true s) -> wp (acquire l) Q s.
Proof. intros Hh HQ. unfold acquire, wp, kbind, kget. by rewrite Hh. Qed.
Lemma wp_release {L S} `{HasLocks L S} (l : L) (Q : unit -> S -> Prop) s :
  held l s = true -> Q tt (set_held l false s) -> wp (release l) Q s.
Proof. intros Hh HQ. unfold release, wp, kbind, kget. by rewrite Hh. Qed.

Lemma wlp_acquire {L S} `{HasLocks L S} (l : L) (Q : unit -> S -> Prop) s :
  (held l s = false -> Q tt (set_held l true s)) -> wlp (acquire l) Q s.
Proof. intros HQ. unfold acquire, wlp, kbind, kget. destruct (held l s); [done|by apply HQ]. Qed.
Lemma wlp_release {L S} `{HasLocks L S} (l : L) (Q : unit -> S -> Prop) s :
  (held l s = true -> Q tt (set_held l false s)) -> wlp (release l) Q s.
Proof. intros HQ. unfold release, wlp, kbind, kget. destruct (held l s); [by apply HQ|done]. Qed.

Lemma holding_critical m i : lock_inv m -> holding i (lock m) = true <-> pcof m i = Critical.
Proof.
  intros I. unfold holding. rewrite andb_true_iff, bool_decide_eq_true, (inv_cpu m I).
  split; [tauto|]. intros H. split; [|done].
  destruct (Z.eqb_spec (locked (lock m)) 0) as [E|E]; [|done].
  pose proof (inv_locked m I E i) as Ho. by rewrite H in Ho.
Qed.

Lemma popcli_last c :
  ncli c = 1 -> eflags_IF c = false ->
  popcli c = Done tt {| ncli := 0; intena := intena c; eflags_IF := intena c |}.
Proof.
  destruct c as [n a f]; simpl. intros -> ->. unfold popcli, kbind, kget, kput. simpl.
  by destruct a.
Qed.

(** Discharges the fields of [lock_inv] after an update of processor [i],
    whose old position is [Hp]; what the old invariant says of each field is
    left in the context. *)
Ltac inv_fields I i Hp :=
  constructor; simpl;
  [ apply (inv_up _ I)
  | intros Hl j; pose proof (inv_locked _ I) as HL; try (pose proof (HL Hl j); pose proof (HL Hl i))
  | intros j k; pose proof (inv_one _ I j k); pose proof (inv_one _ I i k); pose proof (inv_one _ I j i)
  | intros j; pose proof (inv_cpu _ I j)
  | intros j; pose proof (inv_ncli _ I j)
  | intros j; pose proof (inv_if _ I j) ];
  unfold fupd; repeat destruct (decide (_ = i)); subst; simpl in *; rewrite ?Hp in *; simpl in *;
  try solve [lia | naive_solver].

Lemma inv_enter m i : lock_inv m -> pcof m i = Outside -> lock_inv (acquire_enter i m).
Proof.
  intros I Hp. unfold acquire_enter.
  replace (holding i _) with false; [inv_fields I i Hp|].
  symmetry. apply not_true_iff_false. intros H.
  change (holding i (lock m) = true) in H. apply (holding_critical m i I) in H. congruence.
Qed.

Lemma inv_try m i : lock_inv m -> pcof m i = Spinning -> lock_inv (acquire_try i m).
Proof.
  intros I Hp. unfold acquire_try, xchg_locked. simpl.
  destruct (Z.eqb_spec (locked (lock m)) 0) as [E|E]; [|inv_fields I i Hp].
  pose proof (inv_locked m I E) as Hno.
  inv_fields I i Hp; intros; rewrite Hno in *; done.
Qed.

(** The owner of the lock is the only processor past the [xchg]. *)
Lemma owner_unique m i j :
  lock_inv m -> owns (pcof m i) = true -> j <> i -> owns (pcof m j) = false.
Proof.
  intros I Hi Hj. destruct (owns (pcof m j)) eqn:E; [|done].
  exfalso. apply Hj. by apply (inv_one m I).
Qed.

Lemma inv_record m i ps : lock_inv m -> pcof m i = Got -> lock_inv (acquire_record i ps m).
Proof.
  intros I Hp.
  inv_fields I i Hp. split; [intros [= <-]; done|].
  assert (Ho : owns (pcof m i) = true) by by rewrite Hp.
  intros Hj. pose proof (owner_unique m i j I Ho ltac:(done)) as E. by rewrite Hj in E.
Qed.

Lemma inv_clear m i : lock_inv m -> pcof m i = Critical -> lock_inv (release_clear i m).
Proof.
  intros I Hp. unfold release_clear. rewrite (proj2 (holding_critical m i I) Hp).
  inv_fields I i Hp. split; [done|].
  assert (Ho : owns (pcof m i) = true) by by rewrite Hp.
  intros Hj. pose proof (owner_unique m i j I Ho ltac:(done)) as E. by rewrite Hj in E.
Qed.

Lemma inv_store m i : lock_inv m -> pcof m i = Cleared -> lock_inv (release_store i m).
Proof.
  intros I Hp. assert (Ho : owns (pcof m i) = true) by by rewrite Hp.
  unfold release_store, xchg_locked.
  rewrite popcli_last; [|rewrite (inv_ncli m I), Hp; done|apply (inv_if m I); by rewrite Hp].
  constructor; simpl.
  - apply (inv_up m I).
  - intros _ j. unfold fupd. destruct (decide (j = i)); [done|]. by eapply owner_unique.
  - intros j k. unfold fupd. repeat destruct (decide (_ = i)); simpl; try done. apply (inv_one m I).
  - intros j. rewrite (inv_cpu m I j). unfold fupd. destruct (decide (j = i)); [subst; rewrite Hp|]; done.
  - intros j. unfold fupd. destruct (decide (j = i)); [done|]. apply (inv_ncli m I).
  - intros j. unfold fupd. destruct (decide (j = i)); [done|]. apply (inv_if m I).
Qed.

Lemma inv_step m m' : lock_inv m -> step m m' -> lock_inv m'.
Proof.
  intros I H. destruct H as [| | | | |i m Hp]; eauto using inv_enter, inv_try, inv_record, inv_clear, inv_store.
  inv_fields I i Hp.
Qed.

Lemma inv_initial m : initial m -> lock_inv m.
Proof.
  intros (H1 & H2 & H3 & H4). constructor; try done.
  - intros _ i. by rewrite (proj1 (H4 i)).
  - intros i j. by rewrite (proj1 (H4 i)).
  - intros i. rewrite H2, (proj1 (H4 i)). done.
  - intros i. rewrite decide_True; apply H4.
  - intros i. by rewrite (proj1 (H4 i)).
Qed.

Lemma inv_reachable m m' : initial m -> rtc step m m' -> lock_inv m'.
Proof.
  intros Hi%inv_initial H. induction H; eauto using inv_step.
Qed.

(** Nested masking: [n] more [pushcli]. *)
Definition pushcli_n (n : nat) (c : cpu) : cpu := Nat.iter n pushcli c.
Fixpoint popcli_n (n : nat) : K cpu unit :=
  match n with O => kret tt | S n' => popcli ;; popcli_n n' end.

Lemma pushcli_n_fields n c :
  0 <= ncli c ->
  ncli (pushcli_n n c) = ncli c + Z.of_nat n /\
  (n <> O -> eflags_IF (pushcli_n n c) = false) /\
  (n <> O -> intena (pushcli_n n c) = if ncli c =? 0 then eflags_IF c else intena c).
Proof.
  intros Hc. induction n as [|n IH]; [split_and!; simpl; lia || done|].
  destruct IH as (H1 & H2 & H3). unfold pushcli_n in *. simpl. split_and!; [lia|done|].
  intros _. destruct n as [|n]; [done|].
  rewrite H1. destruct (Z.eqb_spec (ncli c + Z.of_nat (S n)) 0); [lia|]. by apply H3.
Qed.

Lemma popcli_inner c :
  1 < ncli c -> eflags_IF c = false ->
  popcli c = Done tt {| ncli := ncli c - 1; intena := intena c; eflags_IF := false |}.
Proof.
  destruct c as [n a f]; simpl. intros Hn ->. unfold popcli, kbind, kget, kput. simpl.
  zcases; try lia. done.
Qed.

Lemma popcli_n_inner n : forall c,
  Z.of_nat n < ncli c -> eflags_IF c = false ->
  popcli_n n c = Done tt {| ncli := ncli c - Z.of_nat n; intena := intena c; eflags_IF := false |}.
Proof.
  induction n as [|n IH]; intros c Hn Hf.
  - destruct c as [n a f]; simpl in *. subst f. unfold kret. f_equal. f_equal. lia.
  - cbn [popcli_n]. unfold kbind. rewrite popcli_inner by (done || lia).
    rewrite IH by (simpl; done || lia). simpl. do 2 f_equal. lia.
Qed.

(** ** Properties *)

(** C17.  Mutual exclusion: however the processors' steps interleave, at most
    one of them is between the successful [xchg] of [acquire] and the [xchg]
    of [release]; no recursive-acquire, [release] or [popcli] panic occurs,
    and interrupts are off on a processor from entering [acquire] until the
    end of [release]. *)
Theorem spinlock_mutual_exclusion m0 m :
  initial m0 -> rtc step m0 m ->
  crashed m = false /\
  (forall i j, owns (pcof m i) = true -> owns (pcof m j) = true -> i = j) /\
  (forall i, pcof m i <> Outside -> eflags_IF (cpus m i) = false).
Proof.
  intros Hi H. pose proof (inv_reachable _ _ Hi H) as I.
  split_and!; [apply (inv_up m I)|apply (inv_one m I)|apply (inv_if m I)].
Qed.

Definition machine0 : machine :=
  {| lock := initlock "m" {| locked := 7; lk_name := ""; lk_cpu := Some 3%nat; pcs := replicate 10 0 |};
     cpus := fun _ => {| ncli := 0; intena := false; eflags_IF := true |};
     pcof := fun _ => Outside; crashed := false |}.

Lemma spinlock_mutual_exclusion_witness :
  crashed (acquire_try 2 (acquire_enter 2 (acquire_try 1 (acquire_enter 1 machine0)))) = false.
Proof.
  eapply (spinlock_mutual_exclusion machine0).
  - repeat split.
  - eapply rtc_l; [apply (step_enter 1); reflexivity|].
    eapply rtc_l; [apply (step_try 1); reflexivity|].
    eapply rtc_l; [apply (step_enter 2); reflexivity|].
    eapply rtc_l; [apply (step_try 2); reflexivity|].
    apply rtc_refl.
Defined.

(** [pushcli]/[popcli] are matched: [n] of each, nested, return the
    processor to the interrupt state it had, and never panic. *)
Theorem pushcli_popcli_balanced n c :
  0 <= ncli c -> (ncli c <> 0 -> eflags_IF c = false) ->
  exists c', popcli_n n (pushcli_n n c) = Done tt c' /\
    ncli c' = ncli c /\ eflags_IF c' = eflags_IF c.
Proof.
  intros Hc Hf. destruct n as [|n]; [by exists c|].
  destruct (pushcli_n_fields (S n) c Hc) as (H1 & H2 & H3).
  specialize (H2 ltac:(done)). specialize (H3 ltac:(done)).
  assert (Hn : popcli_n (S n) (pushcli_n (S n) c) =
    (popcli_n n ;; popcli) (pushcli_n (S n) c)).
  { clear. generalize (pushcli_n (S n) c). induction n as [|n IH]; intros d.
    - cbn [popcli_n]. unfold kbind, kret. by destruct (popcli d) as [[]| |].
    - cbn [popcli_n] in *. unfold kbind in *. destruct (popcli d) as [[] d'| |]; [|done|done].
      rewrite <- IH. done. }
  rewrite Hn. unfold kbind at 1. rewrite popcli_n_inner by (done || lia).
  rewrite H1, H3. destruct (Z.eqb_spec (ncli c) 0) as [E|E].
  - rewrite popcli_last; [|simpl; lia|done]. eexists. split_and!; [done|simpl; lia|done].
  - rewrite popcli_inner; [|simpl; lia|done]. eexists.
    split_and!; [done|simpl; lia|]. simpl. symmetry. by apply Hf.
Qed.

Lemma pushcli_popcli_balanced_witness :
  exists c', popcli_n 2 (pushcli_n 2 {| ncli := 0; intena := false; eflags_IF := true |}) = Done tt c' /\
    ncli c' = 0 /\ eflags_IF c' = true.
Proof.
  apply (pushcli_popcli_balanced 2 {| ncli := 0; intena := false; eflags_IF := true |}); simpl; [lia|done].
Defined.
