(* ===== verification/Kalloc.v ===== *)
(** * kernel/kalloc.c: the physical page allocator

    The free list is threaded through the pages themselves: [next s v] is the
    word [struct run] overlays on the page at kernel address [v].  [end_] (the
    linker symbol [end]) and [phystop] (set by main.c) are the two values of
    other files the allocator reads. *)

From Stdlib Require Import ZArith Lia.
From S2P Require Import Prelude Spinlock.

Definition KERNBASE : Z := 0x80000000.
Definition PHYSTOP : Z := 0x70000000.
Definition PGSIZE : Z := 4096.
Definition v2p (a : Z) : Z := a -u KERNBASE.
Definition p2v (a : Z) : Z := a +u KERNBASE.
Definition PGROUNDUP (sz : Z) : Z := Z.land (u32 (sz + PGSIZE - 1)) (u32 (Z.lnot (PGSIZE - 1))).
Definition PGROUNDDOWN (a : Z) : Z := Z.land a (u32 (Z.lnot (PGSIZE - 1))).

Inductive pgstate := PAGE_STATE_ALLOC | PAGE_STATE_FREE | PAGE_STATE_UNKNOWN.
#[global] Instance pgstate_eq_dec : EqDecision pgstate.
Proof. solve_decision. Defined.

Definition PAGE_TRACK_SLOTS : Z := PHYSTOP / PGSIZE.

(** [kmem], [page_state], the two shadow copies, and the words of the free
    pages. *)
Record kmem := {
  use_lock : bool;
  kmem_lock : bool;
  freelist : Z;
  nfree : Z;
  freelist_shadow : Z;
  nfree_shadow : Z;
  page_state : Z -> pgstate;
  next : Z -> Z;
}.

#[global] Instance kmem_locks : HasLocks unit kmem := {
  held _ s := kmem_lock s;
  set_held _ b s := {| use_lock := use_lock s; kmem_lock := b; freelist := freelist s;
    nfree := nfree s; freelist_shadow := freelist_shadow s; nfree_shadow := nfree_shadow s;
    page_state := page_state s; next := next s |};
}.

Definition set_list (fl n : Z) (s : kmem) : kmem :=
  {| use_lock := use_lock s; kmem_lock := kmem_lock s; freelist := fl; nfree := n;
     freelist_shadow := freelist_shadow s; nfree_shadow := nfree_shadow s;
     page_state := page_state s; next := next s |}.
(** [kmem_freelist_shadow = kmem.freelist; kmem_nfree_shadow = kmem.nfree] *)
Definition set_shadow (s : kmem) : kmem :=
  {| use_lock := use_lock s; kmem_lock := kmem_lock s; freelist := freelist s; nfree := nfree s;
     freelist_shadow := freelist s; nfree_shadow := nfree s;
     page_state := page_state s; next := next s |}.
Definition zupd {A} (f : Z -> A) (i : Z) (v : A) : Z -> A := fun j => if j =? i then v else f j.
Definition set_page (i : Z) (st : pgstate) (s : kmem) : kmem :=
  {| use_lock := use_lock s; kmem_lock := kmem_lock s; freelist := freelist s; nfree := nfree s;
     freelist_shadow := freelist_shadow s; nfree_shadow := nfree_shadow s;
     page_state := zupd (page_state s) i st; next := next s |}.
Definition set_next (v w : Z) (s : kmem) : kmem :=
  {| use_lock := use_lock s; kmem_lock := kmem_lock s; freelist := freelist s; nfree := nfree s;
     freelist_shadow := freelist_shadow s; nfree_shadow := nfree_shadow s;
     page_state := page_state s; next := zupd (next s) v w |}.
Definition set_use_lock (b : bool) (s : kmem) : kmem :=
  {| use_lock := b; kmem_lock := kmem_lock s; freelist := freelist s; nfree := nfree s;
     freelist_shadow := freelist_shadow s; nfree_shadow := nfree_shadow s;
     page_state := page_state s; next := next s |}.

(** What a page allocator promises its clients (vm.c, proc.c, pipe.c): the
    free pages form a set [F] of page addresses; allocation takes some page of
    the set and fails only when the set is empty; freeing puts a page back,
    and freeing it twice changes nothing. *)
Class PageAllocator (S : Type) (alloc : K S Z) (free : Z -> K S unit) := {
  pa_inv : S -> gset Z -> Prop;
  pa_page : Z -> Prop;
  pa_nonzero : forall v, pa_page v -> v <> 0;
  pa_pages : forall s F v, pa_inv s F -> v ∈ F -> pa_page v;
  pa_alloc : forall s F, pa_inv s F ->
    exists r s', alloc s = Done r s' /\
      ((r = 0 /\ F = ∅ /\ pa_inv s' ∅) \/ (r ∈ F /\ pa_inv s' (F ∖ {[r]})));
  pa_free : forall s F v, pa_inv s F -> pa_page v ->
    exists s', free v s = Done tt s' /\ pa_inv s' ({[v]} ∪ F);
}.

Section Allocator.
Context (end_ phystop : Z).

(** [uint ptop = phystop ? phystop : PHYSTOP] *)
Definition ptop : Z := if phystop =? 0 then PHYSTOP else phystop.

Definition run_ptr_valid (r : Z) : bool :=
  if r =? 0 then true
  else if negb (r mod PGSIZE =? 0) then false
  else if r <? end_ then false
  else if ptop <=? v2p r then false
  else true.

(** Push the page at [v] on the free list. *)
Definition push_run (v : Z) (s : kmem) : kmem :=
  set_list v (nfree s + 1) (set_next v (freelist s) s).

(** The loop of [rebuild_freelist_locked] from [pa] down to [pa_start]. *)
Fixpoint rebuild_loop (fuel : nat) (pa_start pa : Z) (s : kmem) : kmem :=
  match fuel with
  | O => s
  | S f =>
      if pa <? pa_start then s
      else
        let idx := pa / PGSIZE in
        let s' := if (idx <? PAGE_TRACK_SLOTS) && bool_decide (page_state s idx = PAGE_STATE_FREE)
                  then push_run (p2v pa) s else s in
        if pa <? pa_start +u PGSIZE then s' else rebuild_loop f pa_start (pa -u PGSIZE) s'
  end.

Definition rebuild_freelist_locked (s : kmem) : kmem :=
  let pa_start := PGROUNDUP (v2p end_) in
  let pa_end := PGROUNDDOWN (ptop -u 1) in
  set_shadow (rebuild_loop (Z.to_nat (pa_end / PGSIZE - pa_start / PGSIZE + 1)) pa_start pa_end
    (set_list 0 0 s)).

(** [if(!run_ptr_valid(kmem.freelist) && run_ptr_valid(shadow)) ...] *)
Definition restore_from_shadow (s : kmem) : kmem :=
  if negb (run_ptr_valid (freelist s)) && run_ptr_valid (freelist_shadow s)
  then set_list (freelist_shadow s) (nfree_shadow s) s else s.

Definition kfree (v : Z) : K kmem unit :=
  if v =? 0 then kret tt
  else if negb (v mod PGSIZE =? 0) || (v <? end_) || (ptop <=? v2p v) then panic "kfree"
  else
    let idx := v2p v / PGSIZE in
    s <- kget ;;
    if (idx <? PAGE_TRACK_SLOTS) && bool_decide (page_state s idx = PAGE_STATE_FREE) then kret tt
    else
      kwhen (idx <? PAGE_TRACK_SLOTS) (kmodify (set_page idx PAGE_STATE_FREE)) ;;
      (* memset(v, 1, PGSIZE) *)
      kmodify (set_next v 0x01010101) ;;
      kwhen (use_lock s) (acquire tt) ;;
      kmodify restore_from_shadow ;;
      kmodify (push_run v) ;;
      kmodify set_shadow ;;
      kwhen (use_lock s) (release tt).

Definition kfreepages : K kmem Z :=
  s <- kget ;;
  kwhen (use_lock s) (acquire tt) ;;
  count <- kgets nfree ;;
  kwhen (use_lock s) (release tt) ;;
  kret count.

(** One turn of the loop of [kalloc] with [r = kmem.freelist] non-null:
    the page taken, or [None] to go round again. *)
Definition kalloc_turn (s : kmem) : option Z * kmem :=
  let r := freelist s in
  if negb (r mod PGSIZE =? 0) || (r <? end_) || (ptop <=? v2p r) then (None, rebuild_freelist_locked s)
  else
    let nx := next s r in
    if negb (run_ptr_valid nx) then (None, rebuild_freelist_locked s)
    else
      let nidx := v2p nx / PGSIZE in
      if negb (nx =? 0) && ((nidx <? PAGE_TRACK_SLOTS) && negb (bool_decide (page_state s nidx = PAGE_STATE_FREE)))
      then (None, rebuild_freelist_locked s)
      else
        let s := set_list nx (nfree s) s in
        let idx := v2p r / PGSIZE in
        if (idx <? PAGE_TRACK_SLOTS) && negb (bool_decide (page_state s idx = PAGE_STATE_FREE))
        then (None, rebuild_freelist_locked s)
        else
          let s := if idx <? PAGE_TRACK_SLOTS then set_page idx PAGE_STATE_ALLOC s else s in
          let s := if 0 <? nfree s then set_list (freelist s) (nfree s - 1) s else s in
          (Some r, set_shadow s).

(** [while(kmem.freelist)]: the page (0 for none), or [None] when [fuel] turns
    were not enough. *)
Fixpoint kalloc_loop (fuel : nat) (s : kmem) : option (Z * kmem) :=
  if freelist s =? 0 then Some (0, set_shadow s)
  else
    match fuel with
    | O => None
    | S f =>
        match kalloc_turn s with
        | (Some r, s') => Some (r, s')
        | (None, s') => kalloc_loop f s'
        end
    end.

Definition kalloc_fuel (fuel : nat) : K kmem (option Z) :=
  s <- kget ;;
  kwhen (use_lock s) (acquire tt) ;;
  kmodify restore_from_shadow ;;
  kmodify (fun s => if (freelist s =? 0) && (0 <? nfree s) then rebuild_freelist_locked s else s) ;;
  s1 <- kget ;;
  match kalloc_loop fuel s1 with
  | None => kret None
  | Some (r, s2) =>
      kput s2 ;;
      kwhen (use_lock s) (release tt) ;;
      kret (Some r)
  end.

(** Two turns are enough from every state ([kalloc_total] below). *)
Definition kalloc : K kmem Z :=
  o <- kalloc_fuel 2 ;; kret (default 0 o).

(** ** Initialisation *)

(** The E820 map the boot loader leaves at physical 0x8000. *)
Record e820ent := { base_lo : Z; base_hi : Z; len_lo : Z; len_hi : Z; e820_type : Z; e820_acpi : Z }.

Definition e820_entry_covers (pa : Z) (e : e820ent) : bool :=
  if negb (e820_type e =? 1) then false
  else if negb (base_hi e =? 0) then false
  else
    let base := base_lo e in
    let eend := base +u len_lo e in
    if eend <? base then false
    else (base <=? pa) && (pa +u PGSIZE <=? eend).

Definition e820_page_usable (count : Z) (ents : list e820ent) (pa : Z) : bool :=
  if (count =? 0) || (32 <? count) then true
  else existsb (e820_entry_covers pa) (take (Z.to_nat count) ents).

(** [freerange]: free the pages from [p] while [p + PGSIZE <= vend]. *)
Fixpoint freerange_loop (fuel : nat) (p vend : Z) : K kmem unit :=
  match fuel with
  | O => kret tt
  | S f => if p +u PGSIZE <=? vend then kfree p ;; freerange_loop f (p +u PGSIZE) vend else kret tt
  end.
Definition freerange (vstart vend : Z) : K kmem unit :=
  freerange_loop (Z.to_nat ((vend - vstart) / PGSIZE + 1)) (PGROUNDUP vstart) vend.

Definition kinit1 (vstart vend : Z) : K kmem unit :=
  kmodify (fun s =>
    {| use_lock := false; kmem_lock := false; freelist := freelist s; nfree := nfree s;
       freelist_shadow := 0; nfree_shadow := 0;
       page_state := fun i => if (0 <=? i) && (i <? PAGE_TRACK_SLOTS) then PAGE_STATE_UNKNOWN else page_state s i;
       next := next s |}) ;;
  freerange vstart vend.

(** The loop of [kinit2], from [p] down to [pstart]. *)
Fixpoint kinit2_loop (fuel : nat) (count : Z) (ents : list e820ent) (p pstart : Z) : K kmem unit :=
  match fuel with
  | O => kret tt
  | S f =>
      if pstart <=? p then
        (if e820_page_usable count ents (v2p p) then kfree p else kret tt) ;;
        kinit2_loop f count ents (p -u PGSIZE) pstart
      else kret tt
  end.
Definition kinit2 (count : Z) (ents : list e820ent) (vstart vend : Z) : K kmem unit :=
  kinit2_loop (Z.to_nat ((vend - vstart) / PGSIZE + 1)) count ents
    (PGROUNDDOWN (vend -u 1)) (PGROUNDUP vstart) ;;
  kmodify (set_use_lock true).

(** ** Well-formedness *)

Hypothesis Hend : KERNBASE <= end_ < KERNBASE + ptop.
Hypothesis Hptop : ptop <= PHYSTOP.

(** A page the allocator may hand out. *)
Definition page_ok (v : Z) : Prop := v mod PGSIZE = 0 /\ end_ <= v < KERNBASE + ptop.

Definition marked_free (s : kmem) (v : Z) : Prop := page_state s (v2p v / PGSIZE) = PAGE_STATE_FREE.

#[local] Instance page_ok_dec v : Decision (page_ok v).
Proof. unfold page_ok. apply _. Defined.
#[local] Instance marked_free_dec s v : Decision (marked_free s v).
Proof. unfold marked_free. apply _. Defined.

(** The list of pages linked from [p]. *)
Fixpoint chain (nx : Z -> Z) (p : Z) (l : list Z) : Prop :=
  match l with
  | [] => p = 0
  | v :: l' => p = v /\ chain nx (nx v) l'
  end.

(** The allocator's invariant, with its free list [l]: [l] is exactly the set
    of pages marked free, without repetition, and the counter and the shadow
    copies agree with it. *)
Record list_inv (s : kmem) (l : list Z) : Prop := {
  inv_chain : chain (next s) (freelist s) l;
  inv_nodup : NoDup l;
  inv_free : forall v, v ∈ l <-> page_ok v /\ marked_free s v;
  inv_nfree : nfree s = Z.of_nat (length l);
  inv_shadow : freelist_shadow s = freelist s /\ nfree_shadow s = nfree s;
}.
Definition kmem_inv (s : kmem) (l : list Z) : Prop := list_inv s l /\ kmem_lock s = false.

Ltac consts := unfold PAGE_TRACK_SLOTS, PGSIZE, KERNBASE, PHYSTOP in *.

Lemma v2p_ok v : end_ <= v < KERNBASE + ptop -> v2p v = v - KERNBASE.
Proof. intros. unfold v2p. apply u32_small. consts. lia. Qed.

Lemma page_ok_nonzero v : page_ok v -> v <> 0.
Proof. intros [_ ?]. consts. lia. Qed.

Lemma idx_in_range v : page_ok v -> (v2p v / PGSIZE <? PAGE_TRACK_SLOTS) = true.
Proof.
  intros [Hm Hr]. rewrite v2p_ok by done. apply Z.ltb_lt. consts.
  apply Z.div_lt_upper_bound; [lia|]. change (0x70000000 / 4096) with 458752. lia.
Qed.

Lemma idx_inj v w : page_ok v -> page_ok w -> v2p v / PGSIZE = v2p w / PGSIZE -> v = w.
Proof.
  intros [Hv Hv'] [Hw Hw']. rewrite !v2p_ok by done. consts. intros E.
  pose proof (Z.div_mod (v - 0x80000000) 4096). pose proof (Z.div_mod (w - 0x80000000) 4096).
  assert (Hm : forall x, x mod 4096 = 0 -> (x - 0x80000000) mod 4096 = 0).
  { intros x Hx. rewrite Zminus_mod, Hx. reflexivity. }
  rewrite Hm in * by done. lia.
Qed.

Lemma bad_addr_spec v :
  0 <= v < 2 ^ 32 ->
  negb (v mod PGSIZE =? 0) || (v <? end_) || (ptop <=? v2p v) = false <-> page_ok v.
Proof.
  intros Hv. unfold page_ok. rewrite !orb_false_iff, negb_false_iff, Z.eqb_eq, Z.ltb_ge, Z.leb_gt.
  split.
  - intros [[? ?] Hp]. unfold v2p in Hp. rewrite u32_small in Hp by (consts; lia). lia.
  - intros [? ?]. rewrite v2p_ok by done. lia.
Qed.

Lemma run_ptr_valid_spec r :
  0 <= r < 2 ^ 32 -> run_ptr_valid r = true <-> r = 0 \/ page_ok r.
Proof.
  intros Hr. unfold run_ptr_valid. destruct (Z.eqb_spec r 0); [tauto|].
  rewrite <- (bad_addr_spec r Hr).
  destruct (r mod PGSIZE =? 0), (r <? end_), (ptop <=? v2p r); simpl; intuition done.
Qed.

Lemma chain_ext nx nx' l : forall p,
  (forall v, v ∈ l -> nx' v = nx v) -> chain nx p l -> chain nx' p l.
Proof.
  induction l as [|v l IH]; intros p Hx; simpl; [done|].
  intros [-> H]. split; [done|]. rewrite Hx by set_solver. apply IH; [|done].
  intros w Hw. apply Hx. set_solver.
Qed.

(** ** Rebuilding the list *)

Definition page_list (i0 : Z) (n : nat) : list Z := (fun i => p2v (i * PGSIZE)) <$> seqZ i0 (Z.of_nat n).

Lemma p2v_idx i : 0 <= i -> i * PGSIZE < PHYSTOP -> p2v (i * PGSIZE) = i * PGSIZE + KERNBASE.
Proof. intros. unfold p2v. apply u32_small. consts. lia. Qed.

Lemma v2p_p2v_idx i : 0 <= i -> i * PGSIZE < PHYSTOP -> v2p (p2v (i * PGSIZE)) / PGSIZE = i.
Proof.
  intros. rewrite p2v_idx by done. unfold v2p. rewrite u32_small by (consts; lia).
  consts. replace (i * 4096 + 0x80000000 - 0x80000000) with (i * 4096) by lia. apply Z.div_mul. lia.
Qed.

Lemma page_list_S i0 n : page_list i0 (S n) = page_list i0 n ++ [p2v ((i0 + Z.of_nat n) * PGSIZE)].
Proof.
  unfold page_list. rewrite Nat2Z.inj_succ. unfold Z.succ. rewrite seqZ_app by lia.
  rewrite fmap_app. done.
Qed.

Lemma page_list_lt i0 n v :
  0 <= i0 -> (i0 + Z.of_nat n - 1) * PGSIZE < PHYSTOP ->
  v ∈ page_list i0 n -> v < (i0 + Z.of_nat n) * PGSIZE + KERNBASE.
Proof.
  intros H0 H1 [i [-> Hi%elem_of_seqZ]]%list_elem_of_fmap.
  rewrite p2v_idx by (consts; lia). consts. lia.
Qed.

Lemma filter_free_ext s s' (l : list Z) :
  page_state s' = page_state s -> filter (marked_free s') l = filter (marked_free s) l.
Proof. intros E. apply list_filter_iff. intros v. unfold marked_free. by rewrite E. Qed.

Lemma rebuild_loop_spec n : forall i0 s l,
  0 <= i0 -> (i0 + Z.of_nat n - 1) * PGSIZE < PHYSTOP ->
  chain (next s) (freelist s) l ->
  (forall v, v ∈ l -> (i0 + Z.of_nat n) * PGSIZE + KERNBASE <= v) ->
  let s' := rebuild_loop n (i0 * PGSIZE) ((i0 + Z.of_nat n - 1) * PGSIZE) s in
  let fl := filter (marked_free s) (page_list i0 n) in
  chain (next s') (freelist s') (fl ++ l) /\
  nfree s' = nfree s + Z.of_nat (length fl) /\
  page_state s' = page_state s /\ use_lock s' = use_lock s /\ kmem_lock s' = kmem_lock s.
Proof.
  induction n as [|n IH]; intros i0 s l H0 H1 Hc Hl; cbn zeta.
  { simpl. split_and!; [done|lia|done..]. }
  set (pa := (i0 + Z.of_nat (S n) - 1) * PGSIZE) in *.
  assert (Epa : pa = (i0 + Z.of_nat n) * PGSIZE) by (subst pa; f_equal; lia).
  cbn [rebuild_loop].
  destruct (Z.ltb_spec pa (i0 * PGSIZE)); [consts; lia|].
  assert (Hidx : pa / PGSIZE = i0 + Z.of_nat n) by (rewrite Epa; apply Z.div_mul; consts; lia).
  assert (Hv : v2p (p2v pa) / PGSIZE = i0 + Z.of_nat n).
  { rewrite Epa. apply v2p_p2v_idx; [lia|]. consts. lia. }
  rewrite Hidx. replace (i0 + Z.of_nat n <? PAGE_TRACK_SLOTS) with true.
  2:{ symmetry. apply Z.ltb_lt. change PAGE_TRACK_SLOTS with 458752. consts. lia. }
  cbn [andb].
  assert (Hpv : p2v pa = (i0 + Z.of_nat n) * PGSIZE + KERNBASE).
  { rewrite Epa. apply p2v_idx; [lia|]. consts. lia. }
  rewrite page_list_S, filter_app, <- Epa.
  set (b := bool_decide _).
  set (s1 := if b then push_run (p2v pa) s else s).
  assert (Hs1 : page_state s1 = page_state s /\ use_lock s1 = use_lock s /\ kmem_lock s1 = kmem_lock s).
  { subst s1. by destruct b. }
  set (l1 := filter (marked_free s) [p2v pa] ++ l).
  assert (Hb : filter (marked_free s) [p2v pa] = if b then [p2v pa] else []).
  { rewrite filter_cons, filter_nil. subst b.
    case_decide as Hd; unfold marked_free in Hd; rewrite Hv in Hd;
      [by rewrite bool_decide_true|by rewrite bool_decide_false]. }
  assert (Hc1 : chain (next s1) (freelist s1) l1).
  { subst l1 s1. rewrite Hb. destruct b; [|done]. simpl. split; [done|].
    unfold zupd at 2. rewrite Z.eqb_refl. eapply chain_ext; [|exact Hc].
    intros v Hin. apply Hl in Hin. unfold zupd. destruct (Z.eqb_spec v (p2v pa)); [consts; lia|done]. }
  assert (Hn1 : nfree s1 = nfree s + Z.of_nat (length (filter (marked_free s) [p2v pa]))).
  { subst s1. rewrite Hb. destruct b; simpl; lia. }
  assert (Hl1 : forall v, v ∈ l1 -> (i0 + Z.of_nat n) * PGSIZE + KERNBASE <= v).
  { subst l1. rewrite Hb. intros v [Hin|Hin]%elem_of_app.
    - destruct b; [|by apply elem_of_nil in Hin]. apply list_elem_of_singleton in Hin. lia.
    - apply Hl in Hin. consts. lia. }
  destruct (Z.ltb_spec pa (i0 * PGSIZE +u PGSIZE)) as [Hlt|Hge].
  - assert (n = 0%nat) as ->.
    { rewrite u32_small in Hlt by (consts; lia). consts. lia. }
    change (filter (marked_free s) (page_list i0 0)) with (@nil Z). rewrite app_nil_l.
    split_and!; [done|done|apply Hs1..].
  - replace (pa -u PGSIZE) with ((i0 + Z.of_nat n - 1) * PGSIZE).
    2:{ symmetry. rewrite u32_small; rewrite u32_small in Hge by (consts; lia); consts; lia. }
    specialize (IH i0 s1 l1 H0). cbn zeta in IH.
    destruct IH as (A & B & C & D & F); [consts; lia|done..|].
    rewrite (filter_free_ext s s1) in A, B by apply Hs1. destruct Hs1 as (E1 & E2 & E3).
    rewrite length_app. subst l1. rewrite <- app_assoc.
    split_and!; [done|lia|congruence..].
Qed.

Lemma pground_mask : u32 (Z.lnot (PGSIZE - 1)) = 2 ^ 32 - 2 ^ 12.
Proof. reflexivity. Qed.
Lemma pgroundup_spec x : 0 <= x -> x + 4095 < 2 ^ 32 -> PGROUNDUP x = (x + 4095) / 4096 * 4096.
Proof.
  intros. unfold PGROUNDUP. rewrite pground_mask.
  replace (x + PGSIZE - 1) with (x + 4095) by (consts; dlia).
  rewrite u32_small by lia. rewrite land_mask_up by lia. change (2 ^ 12) with 4096. dlia.
Qed.
Lemma pgrounddown_spec x : 0 <= x < 2 ^ 32 -> PGROUNDDOWN x = x / 4096 * 4096.
Proof.
  intros. unfold PGROUNDDOWN. rewrite pground_mask, land_mask_up by lia. change (2 ^ 12) with 4096. dlia.
Qed.

(** The first page index of the allocator and the number of its pages. *)
Definition first_idx : Z := (v2p end_ + 4095) / 4096.
Definition n_pages : nat := Z.to_nat ((ptop - 1) / 4096 - first_idx + 1).

Lemma page_ok_list v : page_ok v <-> v ∈ page_list first_idx n_pages.
Proof.
  unfold page_list. rewrite list_elem_of_fmap.
  pose proof (v2p_ok end_ ltac:(consts; dlia)) as He.
  assert (H0 : 0 <= first_idx) by (unfold first_idx; rewrite He; consts; dlia).
  unfold n_pages, page_ok. split.
  - intros [Hm Hr]. exists ((v - KERNBASE) / 4096).
    assert (Hd : v = (v - KERNBASE) / 4096 * PGSIZE + KERNBASE) by (consts; dlia).
    split; [rewrite p2v_idx by (consts; dlia); done|].
    apply elem_of_seqZ. unfold first_idx in *. rewrite He in *. consts. dlia.
  - intros [i [-> Hi%elem_of_seqZ]]. unfold first_idx in *. rewrite He in *.
    rewrite p2v_idx by (consts; dlia). consts. dlia.
Qed.

Lemma page_list_NoDup : NoDup (page_list first_idx n_pages).
Proof.
  unfold page_list. apply NoDup_fmap_2_strong; [|apply NoDup_seqZ].
  pose proof (v2p_ok end_ ltac:(consts; dlia)) as He.
  intros i j Hi%elem_of_seqZ Hj%elem_of_seqZ. unfold n_pages, first_idx in *. rewrite He in *.
  rewrite !p2v_idx by (consts; dlia). consts. dlia.
Qed.

(** Whatever the list pointers hold, rebuilding restores the invariant. *)
Lemma rebuild_inv s :
  let s' := rebuild_freelist_locked s in
  list_inv s' (filter (marked_free s) (page_list first_idx n_pages)) /\
  page_state s' = page_state s /\ use_lock s' = use_lock s /\ kmem_lock s' = kmem_lock s.
Proof.
  pose proof (v2p_ok end_ ltac:(consts; dlia)) as He.
  assert (Es : PGROUNDUP (v2p end_) = first_idx * PGSIZE).
  { rewrite pgroundup_spec by (rewrite He; consts; dlia). done. }
  assert (Ee : PGROUNDDOWN (ptop -u 1) = (ptop - 1) / 4096 * PGSIZE).
  { rewrite u32_small by (consts; dlia). rewrite pgrounddown_spec by (consts; dlia). done. }
  cbn zeta. unfold rebuild_freelist_locked. rewrite Es, Ee, !Z.div_mul by (consts; dlia).
  destruct (Z.lt_ge_cases ((ptop - 1) / 4096 - first_idx + 1) 0) as [Hneg|Hpos].
  - unfold n_pages. rewrite Z2Nat.nonpos by lia. cbn.
    split_and!; try done. constructor; simpl; try done; [constructor|].
    intros v. split; [set_solver|]. intros [Hv _]. exfalso.
    rewrite page_ok_list in Hv. unfold n_pages in Hv. rewrite Z2Nat.nonpos in Hv by lia.
    by apply elem_of_nil in Hv.
  - fold n_pages.
    pose proof (rebuild_loop_spec n_pages first_idx (set_list 0 0 s) []) as H.
    cbn zeta in H.
    replace ((ptop - 1) / 4096) with (first_idx + Z.of_nat n_pages - 1) by (unfold n_pages; dlia).
    destruct H as (A & B & C & D & F).
    + unfold first_idx. rewrite He. consts. dlia.
    + unfold n_pages. consts. dlia.
    + done.
    + intros v Hv. by apply elem_of_nil in Hv.
    + rewrite (filter_free_ext s) in A, B by done. rewrite app_nil_r in A.
      split_and!; try done. constructor; simpl; try done.
      * apply NoDup_filter, page_list_NoDup.
      * intros v. rewrite list_elem_of_filter, page_ok_list. unfold marked_free. simpl. rewrite C. simpl. tauto.
Qed.

(** ** kalloc *)

(** What a successful turn of the loop has checked. *)
Definition taken (s s' : kmem) (r : Z) : Prop :=
  page_ok r /\ marked_free s r /\
  page_state s' = zupd (page_state s) (v2p r / PGSIZE) PAGE_STATE_ALLOC /\
  kmem_lock s' = kmem_lock s /\ use_lock s' = use_lock s.

Lemma kalloc_turn_spec s :
  0 <= freelist s < 2 ^ 32 ->
  match kalloc_turn s with
  | (Some r, s') => r = freelist s /\ taken s s' r
  | (None, s') => exists l, list_inv s' l /\ page_state s' = page_state s /\
                    kmem_lock s' = kmem_lock s /\ use_lock s' = use_lock s
  end.
Proof.
  intros Hr. unfold kalloc_turn.
  destruct (_ || _ || _) eqn:Eb.
  { destruct (rebuild_inv s) as (?&?&?&?). eauto 10. }
  apply bad_addr_spec in Eb; [|done].
  destruct (run_ptr_valid _); cbn [negb].
  2:{ destruct (rebuild_inv s) as (?&?&?&?). eauto 10. }
  destruct (_ && (_ && _)).
  { destruct (rebuild_inv s) as (?&?&?&?). eauto 10. }
  rewrite idx_in_range by done. cbn [andb].
  case_bool_decide as Ef; cbn [negb].
  2:{ destruct (rebuild_inv (set_list (next s (freelist s)) (nfree s) s)) as (?&?&?&?). eauto 10. }
  split; [done|]. unfold taken. simpl in *. split_and!; try done; by destruct (0 <? _).
Qed.

Lemma kalloc_turn_inv s v l :
  list_inv s (v :: l) ->
  exists s', kalloc_turn s = (Some v, s') /\ list_inv s' l.
Proof.
  intros [Hc Hn Hf Hcnt Hs]. simpl in Hc. destruct Hc as [Ev Hc].
  assert (Hv : page_ok v /\ marked_free s v) by (apply Hf; left).
  destruct Hv as [Hok Hm].
  assert (Hu : forall w, page_ok w -> 0 <= w < 2 ^ 32) by (intros w [_ ?]; consts; lia).
  unfold kalloc_turn. rewrite Ev.
  rewrite (proj2 (bad_addr_spec v (Hu v Hok)) Hok).
  assert (Hnx : next s v = 0 /\ l = [] \/ exists w l', l = w :: l' /\ next s v = w /\ page_ok w /\ marked_free s w).
  { destruct l as [|w l']; simpl in Hc; [left; done|right]. destruct Hc as [-> Hc].
    exists w, l'. split_and!; try done; apply Hf; right; left. }
  assert (Hvalid : run_ptr_valid (next s v) = true).
  { apply run_ptr_valid_spec; destruct Hnx as [[-> _]|(w & l' & -> & -> & Hw & _)]; auto; lia. }
  rewrite Hvalid. cbn [negb].
  replace (negb (next s v =? 0) && _) with false.
  2:{ symmetry. destruct Hnx as [[-> _]|(w & l' & -> & -> & Hw & Hm')]; [done|].
      rewrite idx_in_range by done. unfold marked_free in Hm'. rewrite Hm'.
      rewrite bool_decide_true by done. by rewrite !andb_false_r. }
  rewrite idx_in_range by done. cbn [andb]. simpl page_state.
  unfold marked_free in Hm. rewrite Hm. rewrite bool_decide_true by done. cbn [negb].
  destruct (Z.ltb_spec 0 (nfree (set_page (v2p v / PGSIZE) PAGE_STATE_ALLOC (set_list (next s v) (nfree s) s))));
    simpl in *; [|lia].
  eexists. split; [done|]. apply NoDup_cons in Hn as [Hvl Hn]. constructor; simpl; try done; [|lia].
  intros w. unfold marked_free. simpl. unfold zupd.
  destruct (Z.eqb_spec (v2p w / PGSIZE) (v2p v / PGSIZE)) as [E|E].
  - split; [intros Hw; exfalso|naive_solver].
    assert (page_ok w) by (apply Hf; by right).
    assert (w = v) as -> by (apply idx_inj; done). done.
  - rewrite <- (Hf w). split; [by right|]. intros [->|?]%elem_of_cons; done.
Qed.

Definition u32_ptrs (s : kmem) : Prop :=
  0 <= freelist s < 2 ^ 32 /\ 0 <= freelist_shadow s < 2 ^ 32.

Lemma list_inv_u32 s l : list_inv s l -> 0 <= freelist s < 2 ^ 32.
Proof.
  intros [Hc _ Hf _ _]. destruct l as [|v l]; simpl in Hc; [lia|]. destruct Hc as [-> _].
  assert (Hv : page_ok v) by (apply Hf; left). destruct Hv as [_ ?]. consts. lia.
Qed.

(** From any state, at most two turns of the loop are needed. *)
Lemma kalloc_loop_total s :
  0 <= freelist s < 2 ^ 32 ->
  exists r s', kalloc_loop 2 s = Some (r, s') /\
    (r = 0 /\ page_state s' = page_state s /\ kmem_lock s' = kmem_lock s /\ use_lock s' = use_lock s \/
     taken s s' r).
Proof.
  intros Hr. cbn [kalloc_loop]. destruct (freelist s =? 0); [by eauto 10|].
  pose proof (kalloc_turn_spec s Hr) as Ht.
  destruct (kalloc_turn s) as [[r|] s1]; [destruct Ht as [_ Ht]; eauto 10|].
  destruct Ht as (l & Hl & Hp & Hk & Hu).
  destruct (freelist s1 =? 0) eqn:E0; [eexists 0, _; split; [done|]; left; by rewrite <- Hp|].
  destruct l as [|v l]; [destruct Hl as [Hc _ _ _ _]; simpl in Hc; by rewrite Hc in E0|].
  pose proof (kalloc_turn_spec s1 (list_inv_u32 _ _ Hl)) as Ht1.
  destruct (kalloc_turn_inv s1 v l Hl) as (s2 & Et & _). rewrite Et in Ht1 |- *.
  destruct Ht1 as [_ (A & B & C & D & F)]. exists v, s2. split; [done|]. right.
  unfold taken, marked_free in *. rewrite <- Hp. split_and!; congruence || done.
Qed.

Lemma restore_u32 s : u32_ptrs s -> 0 <= freelist (restore_from_shadow s) < 2 ^ 32.
Proof. intros [? ?]. unfold restore_from_shadow. by destruct (_ && _). Qed.

Lemma restore_frame s :
  page_state (restore_from_shadow s) = page_state s /\
  kmem_lock (restore_from_shadow s) = kmem_lock s /\ use_lock (restore_from_shadow s) = use_lock s.
Proof. unfold restore_from_shadow. by destruct (_ && _). Qed.

(** The state in which the loop of [kalloc] starts. *)
Definition kalloc_entry (s : kmem) : kmem :=
  let s := restore_from_shadow (if use_lock s then set_held tt true s else s) in
  if (freelist s =? 0) && (0 <? nfree s) then rebuild_freelist_locked s else s.

Lemma kalloc_fuel_run n s :
  kmem_lock s = false ->
  kalloc_fuel n s =
    match kalloc_loop n (kalloc_entry s) with
    | None => Done None (kalloc_entry s)
    | Some (r, s2) =>
        (kwhen (use_lock s) (release tt) ;; kret (Some r)) s2
    end.
Proof.
  intros Hk. unfold kalloc_fuel, kalloc_entry, kwhen, kbind, kget, kput, kmodify, kret, acquire, kbind, kget, kput.
  destruct (use_lock s) eqn:Eu; simpl; [rewrite Hk|]; by destruct (kalloc_loop _ _) as [[? ?]|].
Qed.

Lemma kalloc_entry_frame s :
  u32_ptrs s ->
  0 <= freelist (kalloc_entry s) < 2 ^ 32 /\ page_state (kalloc_entry s) = page_state s /\
  use_lock (kalloc_entry s) = use_lock s /\
  kmem_lock (kalloc_entry s) = (if use_lock s then true else kmem_lock s).
Proof.
  intros Hu. unfold kalloc_entry. cbn zeta.
  set (s0 := if use_lock s then set_held tt true s else s).
  assert (H0 : u32_ptrs s0 /\ page_state s0 = page_state s /\ use_lock s0 = use_lock s /\
    kmem_lock s0 = (if use_lock s then true else kmem_lock s)).
  { subst s0. destruct (use_lock s) eqn:E; simpl; rewrite ?E; done. }
  destruct H0 as (Hu0 & Hp & Hul & Hk). destruct (restore_frame s0) as (A & B & C).
  destruct (_ && _).
  - destruct (rebuild_inv (restore_from_shadow s0)) as (Hi & D & E & F).
    split_and!; [apply (list_inv_u32 _ _ Hi)..|congruence|congruence|congruence].
  - split_and!; [apply (restore_u32 s0 Hu0)..|congruence|congruence|congruence].
Qed.

Lemma kalloc_total s :
  u32_ptrs s -> kmem_lock s = false ->
  exists r s', kalloc_fuel 2 s = Done (Some r) s' /\ kmem_lock s' = false /\
    (r = 0 /\ page_state s' = page_state s \/
     page_ok r /\ marked_free s r /\
     page_state s' = zupd (page_state s) (v2p r / PGSIZE) PAGE_STATE_ALLOC).
Proof.
  intros Hu Hk. rewrite kalloc_fuel_run by done.
  destruct (kalloc_entry_frame s Hu) as (Hr & Hp & Hul & Hlk).
  destruct (kalloc_loop_total _ Hr) as (r & s2 & El & Hcase). rewrite El.
  assert (Hfin : exists s', (kwhen (use_lock s) (release tt) ;; kret (Some r)) s2 = Done (Some r) s' /\
    kmem_lock s' = false /\ page_state s' = page_state s2).
  { assert (Hk2 : kmem_lock s2 = if use_lock s then true else false).
    { rewrite Hk in Hlk. destruct Hcase as [(_ & _ & -> & _)|(_ & _ & _ & -> & _)]; done. }
    unfold kwhen, release, kbind, kget, kput, kret. destruct (use_lock s); simpl; rewrite ?Hk2; eauto. }
  destruct Hfin as (s' & E1 & E2 & E3). exists r, s'. split_and!; [done|done|].
  destruct Hcase as [(-> & A & _)|(A & B & C & _)]; [left; split; congruence|right].
  unfold marked_free in *. rewrite Hp in *. split_and!; congruence || done.
Qed.

Lemma set_held_inv b s l : list_inv s l -> list_inv (set_held tt b s) l.
Proof. intros [? ? ? ? ?]. by constructor. Qed.

Lemma restore_inv s l : list_inv s l -> restore_from_shadow s = s.
Proof.
  intros Hl. unfold restore_from_shadow.
  replace (run_ptr_valid (freelist s)) with true; [done|]. symmetry.
  apply run_ptr_valid_spec; [by eapply list_inv_u32|].
  destruct Hl as [Hc _ Hf _ _]. destruct l as [|v l]; simpl in Hc; [by left|right].
  destruct Hc as [-> _]. apply Hf. left.
Qed.

Lemma kalloc_entry_inv s l : list_inv s l -> list_inv (kalloc_entry s) l.
Proof.
  intros Hl. unfold kalloc_entry. cbn zeta.
  assert (Hl0 : list_inv (if use_lock s then set_held tt true s else s) l).
  { destruct (use_lock s); [by apply set_held_inv|done]. }
  rewrite (restore_inv _ l Hl0).
  destruct (_ && _) eqn:E; [|done]. exfalso.
  apply andb_true_iff in E as [E1%Z.eqb_eq E2%Z.ltb_lt].
  destruct Hl0 as [Hc _ Hf Hn _]. destruct l as [|v l]; simpl in *; [lia|].
  destruct Hc as [Hv _]. apply (page_ok_nonzero v); [apply Hf; left|congruence].
Qed.

Lemma kalloc_inv s l :
  kmem_inv s l ->
  exists s', kalloc s = Done (match l with [] => 0 | v :: _ => v end) s' /\ kmem_inv s' (tail l).
Proof.
  intros [Hl Hk]. unfold kalloc, kbind at 1. rewrite kalloc_fuel_run by done.
  pose proof (kalloc_entry_inv s l Hl) as He.
  assert (Hu : u32_ptrs s).
  { split; [by eapply list_inv_u32|]. rewrite (proj1 (inv_shadow s l Hl)). by eapply list_inv_u32. }
  destruct (kalloc_entry_frame s Hu) as (_ & _ & Hul & Hlk). rewrite Hk in Hlk.
  assert (Hrun : exists s2, kalloc_loop 2 (kalloc_entry s) = Some (match l with [] => 0 | v :: _ => v end, s2) /\
    list_inv s2 (tail l) /\ kmem_lock s2 = kmem_lock (kalloc_entry s)).
  { cbn [kalloc_loop]. destruct l as [|v l].
    - pose proof (inv_chain _ _ He) as Hc. simpl in Hc. rewrite Hc. simpl. eexists. split; [done|].
      split; [|done]. destruct He as [? ? ? ? ?]. by constructor.
    - pose proof (inv_chain _ _ He) as [Hv _].
      assert (Hok : page_ok v) by (apply (inv_free _ _ He); left).
      rewrite Hv. destruct (Z.eqb_spec v 0); [by apply page_ok_nonzero in Hok|].
      destruct (kalloc_turn_inv _ v l He) as (s2 & Et & Hl2).
      pose proof (kalloc_turn_spec _ (list_inv_u32 _ _ He)) as Ht. rewrite Et in Ht |- *.
      destruct Ht as [_ (_ & _ & _ & Hlock & _)]. eauto. }
  destruct Hrun as (s2 & E2 & Hl2 & Hk2). rewrite E2.
  rewrite Hlk in Hk2. unfold kwhen, release, kbind, kget, kput, kret.
  destruct (use_lock s); simpl; rewrite ?Hk2; simpl.
  - eexists. split; [done|]. split; [by apply (set_held_inv false)|done].
  - eexists. split; [done|]. done.
Qed.

(** ** kfree *)

Lemma kfree_inv s l v :
  kmem_inv s l -> page_ok v ->
  exists s', kfree v s = Done tt s' /\ kmem_inv s' (if decide (v ∈ l) then l else v :: l).
Proof.
  intros [Hl Hk] Hv. pose proof (page_ok_nonzero v Hv) as Hnz.
  assert (Hu : 0 <= v < 2 ^ 32) by (destruct Hv as [_ ?]; consts; lia).
  unfold kfree. apply Z.eqb_neq in Hnz as ->.
  rewrite (proj2 (bad_addr_spec v Hu) Hv), idx_in_range by done. cbn [andb].
  unfold kbind at 1, kget at 1. case_bool_decide as Ef.
  - exists s. split; [done|]. rewrite decide_True; [done|]. by apply (inv_free s l Hl).
  - assert (Hni : v ∉ l) by (intros Hin%(inv_free s l Hl); naive_solver).
    rewrite decide_False by done. cbn [kwhen].
    set (s1 := set_next v 0x01010101 (set_page (v2p v / PGSIZE) PAGE_STATE_FREE s)).
    assert (Hpush : forall s2, chain (next s2) (freelist s2) l -> nfree s2 = Z.of_nat (length l) ->
      page_state s2 = zupd (page_state s) (v2p v / PGSIZE) PAGE_STATE_FREE ->
      list_inv (set_shadow (push_run v s2)) (v :: l)).
    { intros s2 Hc2 Hn2 Hp2. constructor; simpl; try done.
      - split; [done|]. unfold zupd at 2. rewrite Z.eqb_refl. eapply chain_ext; [|exact Hc2].
        intros w Hw. unfold zupd. destruct (Z.eqb_spec w v) as [->|]; done.
      - constructor; [done|]. apply (inv_nodup s l Hl).
      - intros w. rewrite elem_of_cons, (inv_free s l Hl). unfold marked_free. simpl. rewrite Hp2. unfold zupd.
        destruct (Z.eqb_spec (v2p w / PGSIZE) (v2p v / PGSIZE)) as [E|E].
        + split; [naive_solver|]. intros [Hw _]. left. by apply idx_inj.
        + split; [intros [->|?]; done|]. intros [? ?]. by right.
      - lia. }
    assert (Hc1 : chain (next s1) (freelist s1) l).
    { eapply chain_ext; [|apply (inv_chain s l Hl)]. intros w Hw. simpl. unfold zupd.
      destruct (Z.eqb_spec w v) as [->|]; done. }
    assert (Hr : forall b, restore_from_shadow (if b : bool then set_held tt true s1 else s1) =
                           (if b then set_held tt true s1 else s1)).
    { intros b. unfold restore_from_shadow. replace (run_ptr_valid _) with true; [done|]. symmetry.
      replace (freelist _) with (freelist s) by by destruct b.
      apply run_ptr_valid_spec; [by eapply list_inv_u32|].
      pose proof (inv_chain s l Hl) as Hc. destruct l as [|w l]; simpl in Hc; [by left|right].
      destruct Hc as [-> _]. apply (inv_free s _ Hl). left. }
    assert (Ha : acquire tt s1 = Done tt (set_held tt true s1)).
    { unfold acquire, kbind, kget, kput. simpl. by rewrite Hk. }
    assert (Hrel : forall s2 : kmem, kmem_lock s2 = true -> release tt s2 = Done tt (set_held tt false s2)).
    { intros s2 E. unfold release, kbind, kget, kput. simpl. by rewrite E. }
    pose proof (Hr (use_lock s)) as Hrs. unfold kwhen, kbind, kmodify, kret. fold s1.
    destruct (use_lock s).
    + rewrite Ha, Hrs, Hrel by done. eexists. split; [done|].
      split; [|done]. apply (set_held_inv false). apply Hpush; [done|apply (inv_nfree s l Hl)|done].
    + rewrite Hrs. eexists. split; [done|]. split; [|done].
      apply Hpush; [done|apply (inv_nfree s l Hl)|done].
Qed.

(** ** The set of free pages *)

Definition free_set (s : kmem) (F : gset Z) : Prop := exists l, kmem_inv s l /\ F = list_to_set l.

Lemma free_set_pages s F v : free_set s F -> v ∈ F -> page_ok v.
Proof. intros (l & [Hl _] & ->) Hv%elem_of_list_to_set. by apply (inv_free s l Hl). Qed.

Lemma free_set_kalloc s F :
  free_set s F ->
  exists r s', kalloc s = Done r s' /\
    ((r = 0 /\ F = ∅ /\ free_set s' ∅) \/ (r ∈ F /\ free_set s' (F ∖ {[r]}))).
Proof.
  intros (l & Hi & ->). destruct (kalloc_inv s l Hi) as (s' & E & Hi').
  destruct l as [|v l]; eexists _, s'; (split; [exact E|]).
  - left. split_and!; [done..|]. by exists [].
  - right. split; [set_solver|]. exists l. split; [done|].
    destruct Hi as [Hl _]. pose proof (inv_nodup _ _ Hl) as [Hv _]%NoDup_cons. simpl. set_solver.
Qed.

Lemma free_set_kfree s F v :
  free_set s F -> page_ok v -> exists s', kfree v s = Done tt s' /\ free_set s' ({[v]} ∪ F).
Proof.
  intros (l & Hi & ->) Hv. destruct (kfree_inv s l v Hi Hv) as (s' & E & Hi').
  exists s'. split; [done|]. destruct (decide (v ∈ l)).
  - exists l. split; [done|]. set_solver.
  - by exists (v :: l).
Qed.

#[global] Instance kmem_page_allocator : PageAllocator kmem kalloc kfree := {
  pa_inv := free_set;
  pa_page := page_ok;
  pa_nonzero := page_ok_nonzero;
  pa_pages := free_set_pages;
  pa_alloc := free_set_kalloc;
  pa_free := free_set_kfree;
}.

(** ** Initialisation *)

Lemma freerange_loop_spec n : forall p vend s F,
  p mod PGSIZE = 0 -> end_ <= p -> p < KERNBASE + ptop + PGSIZE -> vend <= KERNBASE + ptop ->
  vend - p < Z.of_nat n * PGSIZE -> free_set s F ->
  exists s' F', freerange_loop n p vend s = Done tt s' /\ free_set s' F' /\
    forall v, v ∈ F' <-> v ∈ F \/ (v mod PGSIZE = 0 /\ p <= v /\ v + PGSIZE <= vend).
Proof.
  induction n as [|n IH]; intros p vend s F Hm Hp Hp' Hv Hn HF.
  - exists s, F. split_and!; [done..|]. intros v. consts. split; [tauto|]. intros [?|?]; [done|lia].
  - cbn [freerange_loop]. rewrite u32_small by (consts; lia).
    destruct (Z.leb_spec (p + PGSIZE) vend).
    + destruct (free_set_kfree s F p HF) as (s1 & E1 & HF1); [split; [done|consts; lia]|].
      unfold kbind. rewrite E1.
      destruct (IH (p + PGSIZE) vend s1 ({[p]} ∪ F)) as (s' & F' & E' & HF' & Hc); try (consts; lia); [|done|].
      { consts. rewrite Z.add_mod, Hm by lia. reflexivity. }
      exists s', F'. split_and!; [done..|]. intros v. rewrite Hc, elem_of_union, elem_of_singleton.
      consts. split; [intros [[->|?]|?]; [right; lia|tauto|right; lia]|].
      intros [?|(Hvm & Hge & Hle)]; [tauto|]. destruct (decide (v = p)); [tauto|]. right.
      split_and!; [done| |done]. dlia.
    + exists s, F. split_and!; [done..|]. intros v. split; [tauto|]. intros [?|?]; [done|lia].
Qed.

Lemma kinit2_loop_spec n : forall count ents p pstart s F,
  p mod PGSIZE = 0 -> pstart mod PGSIZE = 0 -> end_ <= pstart ->
  0 <= p < KERNBASE + ptop -> p - pstart < Z.of_nat n * PGSIZE -> free_set s F ->
  exists s' F', kinit2_loop n count ents p pstart s = Done tt s' /\ free_set s' F' /\
    forall v, v ∈ F' <-> v ∈ F \/ (v mod PGSIZE = 0 /\ pstart <= v <= p /\ e820_page_usable count ents (v2p v) = true).
Proof.
  induction n as [|n IH]; intros count ents p pstart s F Hm Hms Hs Hp Hn HF.
  - exists s, F. split_and!; [done..|]. intros v. consts. split; [tauto|]. intros [?|?]; [done|lia].
  - cbn [kinit2_loop]. destruct (Z.leb_spec pstart p).
    2:{ exists s, F. split_and!; [done..|]. intros v. split; [tauto|]. intros [?|?]; [done|lia]. }
    rewrite u32_small by (consts; lia).
    assert (Hstep : exists s1 F1, (if e820_page_usable count ents (v2p p) then kfree p else kret tt) s = Done tt s1 /\
      free_set s1 F1 /\ forall v, v ∈ F1 <-> v ∈ F \/ (v = p /\ e820_page_usable count ents (v2p p) = true)).
    { destruct (e820_page_usable _ _ _).
      - destruct (free_set_kfree s F p HF) as (s1 & E1 & HF1); [split; [done|consts; lia]|].
        exists s1, ({[p]} ∪ F). split_and!; [done..|]. set_solver.
      - exists s, F. split_and!; [done..|]. naive_solver. }
    destruct Hstep as (s1 & F1 & E1 & HF1 & Hc1). unfold kbind. rewrite E1.
    destruct (IH count ents (p - PGSIZE) pstart s1 F1) as (s' & F' & E' & HF' & Hc); try (consts; lia); try done.
    { consts. rewrite Zminus_mod, Hm. reflexivity. }
    exists s', F'. split_and!; [done..|]. intros v. rewrite Hc, Hc1.
    consts. split.
    + intros [[?|[-> ?]]|(? & ? & ?)]; [tauto|right; split_and!; done || lia|right; split_and!; done || lia].
    + intros [?|(Hvm & Hr & He)]; [tauto|]. destruct (decide (v = p)) as [->|]; [tauto|]. right.
      split_and!; [done|lia| |done]. dlia.
Qed.

Definition bss : kmem :=
  {| use_lock := false; kmem_lock := false; freelist := 0; nfree := 0; freelist_shadow := 0;
     nfree_shadow := 0; page_state := fun _ => PAGE_STATE_ALLOC; next := fun _ => 0 |}.

Lemma pgroundup_addr x : end_ <= x <= KERNBASE + ptop -> PGROUNDUP x = (x + 4095) / 4096 * 4096.
Proof. intros Hx. apply pgroundup_spec; consts; lia. Qed.

Lemma kinit1_spec vs ve :
  end_ <= vs -> vs <= ve <= KERNBASE + ptop ->
  exists s' F, kinit1 vs ve bss = Done tt s' /\ free_set s' F /\
    forall v, v ∈ F <-> v mod PGSIZE = 0 /\ vs <= v /\ v + PGSIZE <= ve.
Proof.
  intros H1 H2. unfold kinit1, freerange. rewrite pgroundup_addr by lia.
  unfold kbind, kmodify.
  match goal with |- context [freerange_loop _ _ _ ?x] => set (s1 := x) end.
  assert (HF1 : free_set s1 ∅).
  { exists []. split; [|done]. split; [|done]. constructor; simpl; try done; [constructor|].
    intros v. split; [by intros ?%elem_of_nil|]. intros [Hv Hf].
    unfold marked_free in Hf. simpl in Hf. pose proof (idx_in_range v Hv) as Hi.
    rewrite Hi in Hf. rewrite v2p_ok in Hf by apply Hv. destruct Hv as [_ Hv].
    destruct (Z.leb_spec 0 ((v - KERNBASE) / PGSIZE)); [done|]. consts. dlia. }
  destruct (freerange_loop_spec (Z.to_nat ((ve - vs) / PGSIZE + 1)) ((vs + 4095) / 4096 * 4096) ve s1 ∅)
    as (s2 & F2 & E2 & HF2 & Hc2); try (consts; dlia); [done|].
  exists s2, F2. split_and!; [done..|]. intros v. rewrite Hc2. consts. split.
  - intros [?%not_elem_of_empty|?]; [done|]. dlia.
  - intros ?. right. split_and!; [lia| |lia]. dlia.
Qed.

Lemma kinit2_spec count ents vs ve s F :
  end_ <= vs -> vs < ve <= KERNBASE + ptop -> free_set s F ->
  exists s' F', kinit2 count ents vs ve s = Done tt s' /\ free_set s' F' /\ use_lock s' = true /\
    forall v, v ∈ F' <-> v ∈ F \/
      (v mod PGSIZE = 0 /\ vs <= v < ve /\ e820_page_usable count ents (v2p v) = true).
Proof.
  intros H1 H2 HF. unfold kinit2. rewrite pgroundup_addr by lia.
  rewrite u32_small by (consts; lia). rewrite pgrounddown_spec by (consts; lia).
  destruct (kinit2_loop_spec (Z.to_nat ((ve - vs) / PGSIZE + 1)) count ents
    ((ve - 1) / 4096 * 4096) ((vs + 4095) / 4096 * 4096) s F)
    as (s2 & F2 & E2 & HF2 & Hc2); try (consts; dlia); [done|].
  unfold kbind. rewrite E2. exists (set_use_lock true s2), F2. split_and!; [done| |done|].
  - destruct HF2 as (l & [Hl Hk] & ->). exists l. split; [|done]. split; [|done].
    destruct Hl as [? ? ? ? ?]. by constructor.
  - intros v. rewrite Hc2. consts. split; (intros [?|(? & ? & ?)]; [tauto|right; split; [done|split; [|done]]]); dlia.
Qed.

End Allocator.

(** ** Properties *)

(** From {e any} state of the list pointers, the counters and the words
    of the pages (corrupted ones included), [kalloc] returns after at most two
    turns of its loop, and what it returns is 0 or a page-aligned address in
    the allocator's range whose page was marked free and is now marked
    allocated: it never hands out a page that is in use. *)
Theorem kalloc_never_hands_out_used_page end_ phystop s :
  KERNBASE <= end_ < KERNBASE + ptop phystop -> ptop phystop <= PHYSTOP ->
  u32_ptrs s -> kmem_lock s = false ->
  exists r s', kalloc_fuel end_ phystop 2 s = Done (Some r) s' /\ kmem_lock s' = false /\
    (r = 0 /\ page_state s' = page_state s \/
     page_ok end_ phystop r /\ page_state s (v2p r / PGSIZE) = PAGE_STATE_FREE /\
     page_state s' = zupd (page_state s) (v2p r / PGSIZE) PAGE_STATE_ALLOC).
Proof. intros. by apply kalloc_total. Qed.

(** A corrupted state: the list head is not a page, the shadow neither. *)
Definition corrupt : kmem :=
  {| use_lock := true; kmem_lock := false; freelist := 0x123; nfree := 7; freelist_shadow := 0x80100001;
     nfree_shadow := 9; next := fun _ => 0xdeadbeef;
     page_state := fun i => if i =? 0x102 then PAGE_STATE_FREE else PAGE_STATE_ALLOC |}.

Lemma kalloc_never_hands_out_used_page_witness :
  exists r s', kalloc_fuel 0x80100800 0x200000 2 corrupt = Done (Some r) s' /\ kmem_lock s' = false /\
    (r = 0 /\ page_state s' = page_state corrupt \/
     page_ok 0x80100800 0x200000 r /\ page_state corrupt (v2p r / PGSIZE) = PAGE_STATE_FREE /\
     page_state s' = zupd (page_state corrupt) (v2p r / PGSIZE) PAGE_STATE_ALLOC).
Proof.
  apply (kalloc_never_hands_out_used_page 0x80100800 0x200000 corrupt).
  - split; vm_compute; congruence.
  - vm_compute; congruence.
  - split; vm_compute; split; congruence.
  - reflexivity.
Defined.

Example kalloc_recovers :
  match kalloc 0x80100800 0x200000 corrupt with Done r _ => r | _ => -1 end = 0x80102000.
Proof. vm_compute. reflexivity. Qed.

(** C12.  Against the set of free pages: [kalloc] takes one page out of the set
    and returns 0 exactly when it is empty; [kfree] of a page of the range
    adds it, and freeing a page that is already free changes nothing. *)
Theorem kalloc_kfree_refine_set end_ phystop s F :
  KERNBASE <= end_ < KERNBASE + ptop phystop -> ptop phystop <= PHYSTOP ->
  free_set end_ phystop s F ->
  (exists r s', kalloc end_ phystop s = Done r s' /\
    ((r = 0 /\ F = ∅ /\ free_set end_ phystop s' ∅) \/
     (r ∈ F /\ free_set end_ phystop s' (F ∖ {[r]})))) /\
  (forall v, page_ok end_ phystop v ->
    exists s', kfree end_ phystop v s = Done tt s' /\ free_set end_ phystop s' ({[v]} ∪ F)).
Proof. intros. split; [by apply free_set_kalloc|intros; by apply free_set_kfree]. Qed.

(** Boot: after [kinit1] and [kinit2] the free pages are exactly the pages
    of the first range and the pages of the second one that the E820 map
    reports usable, and the allocator's lock is in use from then on. *)
Theorem kinit_frees_usable_pages end_ phystop vs1 ve1 vs2 ve2 count ents :
  KERNBASE <= end_ < KERNBASE + ptop phystop -> ptop phystop <= PHYSTOP ->
  end_ <= vs1 -> vs1 <= ve1 <= KERNBASE + ptop phystop ->
  end_ <= vs2 -> vs2 < ve2 <= KERNBASE + ptop phystop ->
  exists s F, (kinit1 end_ phystop vs1 ve1 ;; kinit2 end_ phystop count ents vs2 ve2) bss = Done tt s /\
    free_set end_ phystop s F /\ use_lock s = true /\
    forall v, v ∈ F <-> v mod PGSIZE = 0 /\
      ((vs1 <= v /\ v + PGSIZE <= ve1) \/
       (vs2 <= v < ve2 /\ e820_page_usable count ents (v2p v) = true)).
Proof.
  intros He Hp H1 H2 H3 H4.
  destruct (kinit1_spec end_ phystop He Hp vs1 ve1 H1 H2) as (s1 & F1 & E1 & HF1 & Hc1).
  destruct (kinit2_spec end_ phystop He Hp count ents vs2 ve2 s1 F1 H3 H4 HF1) as (s2 & F2 & E2 & HF2 & Hu & Hc2).
  exists s2, F2. unfold kbind. rewrite E1. split_and!; [done..|]. intros v. rewrite Hc2, Hc1. tauto.
Qed.

Lemma kinit_frees_usable_pages_witness :
  exists s F, (kinit1 0x80100800 0x400000 0x80100800 0x80200000 ;;
               kinit2 0x80100800 0x400000 0 [] 0x80200000 0x80400000) bss = Done tt s /\
    free_set 0x80100800 0x400000 s F /\ use_lock s = true /\
    forall v, v ∈ F <-> v mod PGSIZE = 0 /\
      ((0x80100800 <= v /\ v + PGSIZE <= 0x80200000) \/
       (0x80200000 <= v < 0x80400000 /\ e820_page_usable 0 [] (v2p v) = true)).
Proof.
  apply (kinit_frees_usable_pages 0x80100800 0x400000 0x80100800 0x80200000 0x80200000 0x80400000 0 []);
    first [vm_compute; split; congruence | vm_compute; congruence].
Defined.

Lemma kalloc_kfree_refine_set_witness :
  exists r s', kalloc 0x80100800 0x200000 bss = Done r s' /\ r = 0.
Proof.
  destruct (kalloc_kfree_refine_set 0x80100800 0x200000 bss ∅) as [(r & s' & E & [(-> & _)|[H%not_elem_of_empty _]]) _].
  - vm_compute; split; congruence.
  - vm_compute; congruence.
  - exists []. split; [|reflexivity]. split; [|reflexivity]. constructor; simpl; try reflexivity.
    + constructor.
    + intros v. split; [intros H%elem_of_nil; destruct H|]. intros [_ H]. discriminate H.
    + split; reflexivity.
  - exists 0, s'. split; [exact E|reflexivity].
  - destruct H.
Defined.
