(* ===== verification/Kmalloc.v ===== *)
(** * kernel/kmalloc.c: the kernel heap

    A best-fit allocator over a static arena.  [arena] is the address of
    [km_arena]; [hdr s a] is the [struct km_hdr] stored at address [a]. *)

From Stdlib Require Import ZArith Lia.
From S2P Require Import Prelude Spinlock.

Definition KM_ARENA_BYTES : Z := 512 * 1024.
Definition KM_HDR : Z := 12. (* sizeof(struct km_hdr) *)
Definition KM_MAGIC_FREE : Z := 0x4b4d4652.
Definition KM_MAGIC_ALLOC : Z := 0x4b4d414c.

Record km_hdr := { h_next : Z; h_size : Z; h_magic : Z }.

Record kheap := { km_inited : bool; km_lock : bool; km_freelist : Z; hdr : Z -> km_hdr }.

#[global] Instance kheap_locks : HasLocks unit kheap := {
  held _ s := km_lock s;
  set_held _ b s := {| km_inited := km_inited s; km_lock := b; km_freelist := km_freelist s; hdr := hdr s |};
}.

Definition set_hdr (a : Z) (h : km_hdr) (s : kheap) : kheap :=
  {| km_inited := km_inited s; km_lock := km_lock s; km_freelist := km_freelist s;
     hdr := fun x => if x =? a then h else hdr s x |}.
Definition set_freelist (a : Z) (s : kheap) : kheap :=
  {| km_inited := km_inited s; km_lock := km_lock s; km_freelist := a; hdr := hdr s |}.
Definition set_next (a n : Z) (s : kheap) : kheap :=
  set_hdr a {| h_next := n; h_size := h_size (hdr s a); h_magic := h_magic (hdr s a) |} s.
Definition set_size (a n : Z) (s : kheap) : kheap :=
  set_hdr a {| h_next := h_next (hdr s a); h_size := n; h_magic := h_magic (hdr s a) |} s.
Definition set_magic (a n : Z) (s : kheap) : kheap :=
  set_hdr a {| h_next := h_next (hdr s a); h_size := h_size (hdr s a); h_magic := n |} s.

(** No list in the arena is longer than the number of headers that fit. *)
Definition KM_FUEL : nat := Z.to_nat (KM_ARENA_BYTES / KM_HDR + 1).
#[global] Arguments KM_FUEL : simpl never.

Section Heap.
Context (arena : Z).

Definition km_block_in_arena (p : Z) : bool := (arena <=? p) && (p <? arena + KM_ARENA_BYTES).

Definition kmalloc_init : K kheap unit :=
  s <- kget ;;
  if km_inited s then kret tt
  else kput {| km_inited := true; km_lock := false; km_freelist := arena;
               hdr := fun x => if x =? arena
                 then {| h_next := 0; h_size := KM_ARENA_BYTES - KM_HDR; h_magic := KM_MAGIC_FREE |}
                 else hdr s x |}.

(** The scan of [km_coalesce] from [p]: the state after the first merge, or
    [None] when the end of the list is reached. *)
Fixpoint coalesce_scan (fuel : nat) (p : Z) (s : kheap) : option kheap :=
  match fuel with
  | O => None
  | S f =>
      if p =? 0 then None
      else
        let nx := h_next (hdr s p) in
        if negb (nx =? 0) && (p + KM_HDR + h_size (hdr s p) =? nx)
        then Some (set_magic p KM_MAGIC_FREE
               (set_next p (h_next (hdr s nx))
                 (set_size p (h_size (hdr s p) +u (KM_HDR + h_size (hdr s nx))) s)))
        else coalesce_scan f nx s
  end.

(** [goto again] after each merge. *)
Fixpoint km_coalesce (fuel : nat) (s : kheap) : kheap :=
  match fuel with
  | O => s
  | S f =>
      match coalesce_scan KM_FUEL (km_freelist s) s with
      | Some s' => km_coalesce f s'
      | None => s
      end
  end.

(** The best-fit loop: the chosen block and its predecessor (0 for none). *)
Fixpoint find_best (fuel : nat) (s : kheap) (need p prev best bestprev : Z) : Z * Z :=
  match fuel with
  | O => (best, bestprev)
  | S f =>
      if p =? 0 then (best, bestprev)
      else
        let sz := h_size (hdr s p) in
        if (need <=? sz) && ((best =? 0) || (sz <? h_size (hdr s best)))
        then find_best f s need (h_next (hdr s p)) p p prev
        else find_best f s need (h_next (hdr s p)) p best bestprev
  end.

Definition round8 (n : Z) : Z := Z.land (n +u 7) (u32 (Z.lnot 7)).

(** Unlink [best] and split it when the rest is worth a block. *)
Definition take_block (need best bestprev : Z) (s : kheap) : kheap :=
  let s := if negb (bestprev =? 0) then set_next bestprev (h_next (hdr s best)) s
           else set_freelist (h_next (hdr s best)) s in
  let bsz := h_size (hdr s best) in
  let s :=
    if need +u KM_HDR +u 16 <=? bsz then
      let rest := best + KM_HDR + need in
      let s := set_hdr rest {| h_next := km_freelist s; h_size := bsz -u need -u KM_HDR;
                               h_magic := KM_MAGIC_FREE |} s in
      set_size best need (set_freelist rest s)
    else s in
  set_next best 0 (set_magic best KM_MAGIC_ALLOC s).

Definition kmalloc (nbytes : Z) : K kheap Z :=
  kmalloc_init ;;
  if nbytes =? 0 then kret 0
  else
    let need := round8 nbytes in
    acquire tt ;;
    s <- kget ;;
    let '(best, bestprev) := find_best KM_FUEL s need (km_freelist s) 0 0 0 in
    if best =? 0 then release tt ;; kret 0
    else
      kmodify (take_block need best bestprev) ;;
      release tt ;;
      kret (best + KM_HDR).

Definition kmfree (ap : Z) : K kheap unit :=
  if ap =? 0 then kret tt
  else
    let h := ap - KM_HDR in
    if negb (km_block_in_arena h) || negb (km_block_in_arena ap) then panic "kmfree"
    else
      s <- kget ;;
      if negb (h_magic (hdr s h) =? KM_MAGIC_ALLOC) then kret tt
      else
        acquire tt ;;
        kmodify (set_magic h KM_MAGIC_FREE) ;;
        kmodify (fun s => set_next h (km_freelist s) s) ;;
        kmodify (set_freelist h) ;;
        kmodify (km_coalesce KM_FUEL) ;;
        release tt.

(** ** The invariant *)

Hypothesis Harena : 0 < arena /\ arena + KM_ARENA_BYTES < 2 ^ 32.

(** Blocks [(address, size)] that tile the addresses from [p] to [e]. *)
Fixpoint tile (p : Z) (bs : list (Z * Z)) (e : Z) : Prop :=
  match bs with
  | [] => p = e
  | (a, sz) :: r => a = p /\ 0 < sz /\ tile (p + KM_HDR + sz) r e
  end.

Fixpoint chain (s : kheap) (p : Z) (l : list Z) : Prop :=
  match l with
  | [] => p = 0
  | v :: l' => p = v /\ chain s (h_next (hdr s v)) l'
  end.

(** [bs]: all the blocks of the arena, in address order; [fl]: the addresses
    of the free ones, in the order of the free list. *)
Record heap_inv (s : kheap) (bs : list (Z * Z)) (fl : list Z) : Prop := {
  kinv_init : km_inited s = true;
  kinv_tile : tile arena bs (arena + KM_ARENA_BYTES);
  kinv_chain : chain s (km_freelist s) fl;
  kinv_nodup : NoDup fl;
  kinv_fl : forall a, a ∈ fl -> exists sz, (a, sz) ∈ bs;
  kinv_size : forall a sz, (a, sz) ∈ bs -> h_size (hdr s a) = sz;
  kinv_magic : forall a sz, (a, sz) ∈ bs ->
    h_magic (hdr s a) = if decide (a ∈ fl) then KM_MAGIC_FREE else KM_MAGIC_ALLOC;
}.

Definition km_inv (s : kheap) (bs : list (Z * Z)) (fl : list Z) : Prop :=
  heap_inv s bs fl /\ km_lock s = false.

(** The blocks handed out. *)
Definition allocated (bs : list (Z * Z)) (fl : list Z) : list (Z * Z) :=
  filter (fun b => b.1 ∉ fl) bs.

Lemma tile_le bs : forall p e, tile p bs e -> p + KM_HDR * Z.of_nat (length bs) <= e.
Proof.
  induction bs as [|[a sz] bs IH]; intros p e; simpl.
  - intros ->. lia.
  - intros (-> & Hs & Ht%IH). unfold KM_HDR in *. lia.
Qed.

Lemma tile_app l1 l2 : forall p e, tile p (l1 ++ l2) e <-> exists q, tile p l1 q /\ tile q l2 e.
Proof.
  induction l1 as [|[a sz] l1 IH]; intros p e; simpl.
  - split; [eauto|]. by intros (q & -> & ?).
  - split.
    + intros (-> & Hs & (q & H1 & H2)%IH). eauto.
    + intros (q & (-> & Hs & H1) & H2). split_and!; [done..|]. apply IH. eauto.
Qed.

Lemma tile_in bs p e a sz :
  tile p bs e -> (a, sz) ∈ bs -> p <= a /\ 0 < sz /\ a + KM_HDR + sz <= e.
Proof.
  intros Ht (l1 & l2 & ->)%list_elem_of_split. apply tile_app in Ht as (q & H1 & H2).
  simpl in H2. destruct H2 as (-> & Hs & H2). apply tile_le in H1, H2. unfold KM_HDR in *. lia.
Qed.

(** Two blocks of a tiling are the same or do not overlap. *)
Lemma tile_disjoint bs p e a sz a' sz' :
  tile p bs e -> (a, sz) ∈ bs -> (a', sz') ∈ bs ->
  (a = a' /\ sz = sz') \/ a + KM_HDR + sz <= a' \/ a' + KM_HDR + sz' <= a.
Proof.
  intros Ht (l1 & l2 & ->)%list_elem_of_split Hin.
  apply tile_app in Ht as (q & H1 & H2). simpl in H2. destruct H2 as (-> & Hs & H2).
  apply elem_of_app in Hin as [Hin|[Heq|Hin]%elem_of_cons].
  - right; right. pose proof (tile_in _ _ _ _ _ H1 Hin). lia.
  - left. by injection Heq as -> ->.
  - right; left. pose proof (tile_in _ _ _ _ _ H2 Hin). lia.
Qed.

Lemma tile_fun bs p e a sz sz' : tile p bs e -> (a, sz) ∈ bs -> (a, sz') ∈ bs -> sz = sz'.
Proof.
  intros Ht H1 H2. pose proof (tile_in _ _ _ _ _ Ht H1). pose proof (tile_in _ _ _ _ _ Ht H2).
  destruct (tile_disjoint _ _ _ _ _ _ _ Ht H1 H2) as [[_ ?]|?]; [done|]. unfold KM_HDR in *. lia.
Qed.

Lemma km_chain_ext s s' l : forall p,
  (forall v, v ∈ l -> h_next (hdr s' v) = h_next (hdr s v)) -> chain s p l -> chain s' p l.
Proof.
  induction l as [|v l IH]; intros p Hx; simpl; [done|].
  intros [-> H]. split; [done|]. rewrite Hx by left. apply IH; [|done].
  intros w Hw. apply Hx. by right.
Qed.

Lemma fl_length s bs fl : heap_inv s bs fl -> (length fl < KM_FUEL)%nat.
Proof.
  intros I. assert (Hl : (length fl <= length bs)%nat).
  { transitivity (length (bs.*1)); [|by rewrite length_fmap].
    apply submseteq_length, NoDup_submseteq; [apply (kinv_nodup _ _ _ I)|].
    intros a (sz & Ha)%(kinv_fl _ _ _ I). apply list_elem_of_fmap. by exists (a, sz). }
  pose proof (tile_le _ _ _ (kinv_tile _ _ _ I)) as Ht. unfold KM_HDR in Ht.
  unfold KM_FUEL, KM_ARENA_BYTES, KM_HDR in *. change (512 * 1024 / 12 + 1) with 43691. lia.
Qed.

(** ** The best-fit search *)

(** Every free block of [l] that fits is at least as large as [best]. *)
Definition best_of (s : kheap) (need best : Z) (l : list Z) : Prop :=
  if best =? 0 then forall v, v ∈ l -> h_size (hdr s v) < need
  else need <= h_size (hdr s best) /\
       forall v, v ∈ l -> need <= h_size (hdr s v) -> h_size (hdr s best) <= h_size (hdr s v).

(** [bp] precedes [b] on the list [l] ([bp] is 0 at the head). *)
Definition prev_in (l : list Z) (b bp : Z) : Prop :=
  (bp = 0 /\ exists l2, l = b :: l2) \/ exists l1 l2, l = l1 ++ bp :: b :: l2.

Lemma prev_in_app l l' b bp : prev_in l b bp -> prev_in (l ++ l') b bp.
Proof.
  intros [[-> (l2 & ->)]|(l1 & l2 & ->)]; [left; split; [done|]; by eexists|right].
  exists l1, (l2 ++ l'). by rewrite <- app_assoc.
Qed.

Lemma find_best_spec s need l : forall fuel done p prev best bestprev,
  (length l < fuel)%nat -> chain s p l ->
  Forall (fun v => v <> 0) (done ++ l) ->
  (done = [] /\ prev = 0 \/ exists d, done = d ++ [prev]) ->
  best_of s need best done -> (best <> 0 -> prev_in done best bestprev) ->
  let '(b, bp) := find_best fuel s need p prev best bestprev in
  best_of s need b (done ++ l) /\ (b <> 0 -> prev_in (done ++ l) b bp).
Proof.
  induction l as [|v l IH]; intros fuel dn p prev best bestprev Hf Hc Hnz Hprev Hb Hbp;
    (destruct fuel as [|fuel]; [simpl in Hf; lia|]); cbn [find_best]; simpl in Hc.
  - subst p. simpl. by rewrite app_nil_r.
  - destruct Hc as [-> Hc].
    assert (Hv : v <> 0).
    { rewrite Forall_app in Hnz. destruct Hnz as [_ Hnz]. by inversion Hnz. }
    apply Z.eqb_neq in Hv as Hv'. rewrite Hv'.
    assert (Happ : dn ++ v :: l = (dn ++ [v]) ++ l) by by rewrite <- app_assoc.
    simpl in Hf. rewrite Happ in *.
    set (c := (need <=? _) && _).
    assert (Hpv : prev_in (dn ++ [v]) v prev).
    { destruct Hprev as [[-> ->]|(d & ->)]; [left; split; [done|]; by eexists|right].
      exists d, []. by rewrite <- app_assoc. }
    destruct c eqn:Ec; subst c.
    + apply andb_true_iff in Ec as [E1%Z.leb_le E2].
      apply IH; try done; try lia; [right; by exists dn|].
      unfold best_of in *. rewrite Hv'. split; [done|].
      intros w [Hw|Hw]%elem_of_app Hfit; [|apply list_elem_of_singleton in Hw as ->; lia].
      destruct (Z.eqb_spec best 0) as [Eb|Eb]; [specialize (Hb w Hw); lia|].
      cbn [orb] in E2. apply Z.ltb_lt in E2. destruct Hb as [_ Hb]. specialize (Hb w Hw Hfit). lia.
    + apply IH; try done; try lia; [right; by exists dn| |intros ?; apply prev_in_app; auto].
      unfold best_of in *. destruct (Z.eqb_spec best 0) as [Eb|Eb].
      * intros w [Hw|Hw]%elem_of_app; [auto|apply list_elem_of_singleton in Hw as ->].
        cbn [orb] in Ec. rewrite andb_true_r in Ec. apply Z.leb_gt in Ec. lia.
      * destruct Hb as [Hb1 Hb2]. split; [done|].
        intros w [Hw|Hw]%elem_of_app Hfit; [auto|apply list_elem_of_singleton in Hw as ->].
        apply Z.leb_le in Hfit. rewrite Hfit in Ec. cbn [orb andb] in Ec. apply Z.ltb_ge in Ec. lia.
Qed.

Lemma round8_spec n : 0 < n <= 2 ^ 32 - 8 -> n <= round8 n < 2 ^ 32 /\ 0 < round8 n.
Proof.
  intros Hn. unfold round8. change (u32 (Z.lnot 7)) with (2 ^ 32 - 2 ^ 3).
  rewrite (u32_small (n + 7)) by lia. rewrite land_mask_up by lia. change (2 ^ 3) with 8. dlia.
Qed.

Lemma in_arena s bs fl a sz :
  heap_inv s bs fl -> (a, sz) ∈ bs ->
  arena <= a /\ 0 < sz /\ a + KM_HDR + sz <= arena + KM_ARENA_BYTES /\ a <> 0.
Proof.
  intros I Hin. pose proof (tile_in _ _ _ _ _ (kinv_tile _ _ _ I) Hin). lia.
Qed.

Lemma fl_nonzero s bs fl : heap_inv s bs fl -> Forall (fun v => v <> 0) fl.
Proof.
  intros I. apply Forall_forall. intros v Hv.
  apply (kinv_fl _ _ _ I) in Hv as (sz & Hv). apply (in_arena _ _ _ _ _ I) in Hv. tauto.
Qed.

(** ** Taking a block *)

Lemma chain_unlink s bp b l1 l2 : forall p,
  chain s p (l1 ++ bp :: b :: l2) -> NoDup (l1 ++ bp :: b :: l2) ->
  chain (set_next bp (h_next (hdr s b)) s) p (l1 ++ bp :: l2).
Proof.
  induction l1 as [|v l1 IH]; intros p; simpl.
  - intros (-> & Hb & Hc) Hnd. rewrite Z.eqb_refl. split; [done|]. simpl.
    eapply km_chain_ext; [|exact Hc]. intros w Hw. simpl.
    destruct (Z.eqb_spec w bp) as [->|]; [|done].
    apply NoDup_cons in Hnd as [Hnd _]. exfalso. apply Hnd. by right.
  - intros [-> Hc] [Hv Hnd]%NoDup_cons. split; [done|].
    destruct (Z.eqb_spec v bp) as [->|]; [exfalso; apply Hv; set_solver|]. by apply IH.
Qed.

(** The effect of a taken block on the two lists. *)
Definition split_blocks (bs : list (Z * Z)) (b bsz need : Z) (bs' : list (Z * Z)) (rest : list Z) : Prop :=
  exists l1 l2, bs = l1 ++ (b, bsz) :: l2 /\
    ((bs' = bs /\ rest = [] /\ need <= bsz) \/
     (bs' = l1 ++ (b, need) :: (b + KM_HDR + need, bsz - need - KM_HDR) :: l2 /\
      rest = [b + KM_HDR + need] /\ need + KM_HDR + 16 <= bsz)).

Definition unlink (b bp : Z) (s : kheap) : kheap :=
  if negb (bp =? 0) then set_next bp (h_next (hdr s b)) s else set_freelist (h_next (hdr s b)) s.

(** What is left of the invariant once [b] is off the free list [l1 ++ l2]. *)
Record unlinked (s : kheap) (bs : list (Z * Z)) (b bsz : Z) (l : list Z) : Prop := {
  un_init : km_inited s = true;
  un_tile : tile arena bs (arena + KM_ARENA_BYTES);
  un_in : (b, bsz) ∈ bs;
  un_chain : chain s (km_freelist s) l;
  un_nodup : NoDup l;
  un_notin : b ∉ l;
  un_fl : forall a, a ∈ l -> exists sz, (a, sz) ∈ bs;
  un_size : forall a sz, (a, sz) ∈ bs -> h_size (hdr s a) = sz;
  un_magic : forall a sz, (a, sz) ∈ bs -> a <> b ->
    h_magic (hdr s a) = if decide (a ∈ l) then KM_MAGIC_FREE else KM_MAGIC_ALLOC;
}.

Lemma unlink_spec s bs fl b bp bsz :
  heap_inv s bs fl -> (b, bsz) ∈ bs -> prev_in fl b bp ->
  km_lock (unlink b bp s) = km_lock s /\
  exists l1 l2, fl = l1 ++ b :: l2 /\ unlinked (unlink b bp s) bs b bsz (l1 ++ l2).
Proof.
  intros I Hb Hpi.
  assert (Hun : exists l1 l2, fl = l1 ++ b :: l2 /\ chain (unlink b bp s) (km_freelist (unlink b bp s)) (l1 ++ l2)).
  { pose proof (kinv_chain _ _ _ I) as Hc. pose proof (kinv_nodup _ _ _ I) as Hnd.
    pose proof (fl_nonzero _ _ _ I) as Hnz. unfold unlink.
    destruct Hpi as [[-> (l2 & ->)]|(l1 & l2 & ->)].
    - exists [], l2. split; [done|]. simpl in *. destruct Hc as [_ Hc]. eapply km_chain_ext; [|exact Hc]. done.
    - exists (l1 ++ [bp]), l2. rewrite <- !app_assoc. split; [done|]. simpl.
      assert (bp <> 0) as E%Z.eqb_neq.
      { rewrite Forall_app in Hnz. destruct Hnz as [_ Hnz]. by inversion Hnz. }
      rewrite E. simpl. by apply chain_unlink. }
  assert (H1 : forall x, h_size (hdr (unlink b bp s) x) = h_size (hdr s x) /\
                         h_magic (hdr (unlink b bp s) x) = h_magic (hdr s x)).
  { intros x. unfold unlink. destruct (negb _); simpl; [|done]. destruct (Z.eqb_spec x bp) as [->|]; done. }
  split; [unfold unlink; by destruct (negb _)|].
  destruct Hun as (l1 & l2 & -> & Hc). exists l1, l2. split; [done|].
  pose proof (kinv_nodup _ _ _ I) as Hnd. rewrite <- Permutation_middle in Hnd.
  apply NoDup_cons in Hnd as [Hb12 Hnd].
  constructor; try done.
  - unfold unlink. destruct (negb _); apply (kinv_init _ _ _ I).
  - apply (kinv_tile _ _ _ I).
  - intros a Ha. apply (kinv_fl _ _ _ I). set_solver.
  - intros a sz Hin. rewrite (proj1 (H1 a)). by apply (kinv_size _ _ _ I).
  - intros a sz Hin Hab. rewrite (proj2 (H1 a)), (kinv_magic _ _ _ I a sz Hin).
    destruct (decide (a ∈ l1 ++ b :: l2)), (decide (a ∈ l1 ++ l2)); try done; exfalso; set_solver.
Qed.

Definition mark_alloc (b : Z) (s : kheap) : kheap := set_next b 0 (set_magic b KM_MAGIC_ALLOC s).

Lemma mark_alloc_hdr b s x :
  hdr (mark_alloc b s) x = if x =? b then {| h_next := 0; h_size := h_size (hdr s b); h_magic := KM_MAGIC_ALLOC |}
                           else hdr s x.
Proof. unfold mark_alloc. simpl. rewrite Z.eqb_refl. by destruct (x =? b). Qed.

(** The whole block is handed out. *)
Lemma take_whole s bs b bsz l : unlinked s bs b bsz l -> heap_inv (mark_alloc b s) bs l.
Proof.
  intros U. constructor.
  - apply (un_init _ _ _ _ _ U).
  - apply (un_tile _ _ _ _ _ U).
  - eapply km_chain_ext; [|apply (un_chain _ _ _ _ _ U)]. intros v Hv. rewrite mark_alloc_hdr.
    destruct (Z.eqb_spec v b) as [->|]; [by apply (un_notin _ _ _ _ _ U) in Hv|done].
  - apply (un_nodup _ _ _ _ _ U).
  - apply (un_fl _ _ _ _ _ U).
  - intros a sz Hin. rewrite mark_alloc_hdr. destruct (Z.eqb_spec a b) as [->|]; by apply (un_size _ _ _ _ _ U).
  - intros a sz Hin. rewrite mark_alloc_hdr. destruct (Z.eqb_spec a b) as [->|].
    + by rewrite decide_False by apply (un_notin _ _ _ _ _ U).
    + by apply (un_magic _ _ _ _ _ U _ sz).
Qed.

Definition split_block (b need bsz : Z) (s : kheap) : kheap :=
  let rest := b + KM_HDR + need in
  set_size b need (set_freelist rest
    (set_hdr rest {| h_next := km_freelist s; h_size := bsz - need - KM_HDR; h_magic := KM_MAGIC_FREE |} s)).

Lemma split_block_hdr b need bsz s x :
  0 < need ->
  hdr (split_block b need bsz s) x =
    if x =? b then {| h_next := h_next (hdr s b); h_size := need; h_magic := h_magic (hdr s b) |}
    else if x =? b + KM_HDR + need
    then {| h_next := km_freelist s; h_size := bsz - need - KM_HDR; h_magic := KM_MAGIC_FREE |}
    else hdr s x.
Proof.
  intros Hn. unfold split_block. simpl.
  destruct (Z.eqb_spec b (b + KM_HDR + need)); [unfold KM_HDR in *; lia|]. by destruct (x =? b).
Qed.

(** Blocks other than the split one stay clear of the new header. *)
Lemma split_others s k1 k2 b bsz need l a sz :
  unlinked s (k1 ++ (b, bsz) :: k2) b bsz l -> 0 < need -> need + KM_HDR + 16 <= bsz ->
  (a, sz) ∈ k1 ++ k2 -> a <> b /\ a <> b + KM_HDR + need.
Proof.
  intros U Hn Hs Hin. pose proof (un_tile _ _ _ _ _ U) as Ht.
  apply tile_app in Ht as (q & Ht1 & Ht2). simpl in Ht2. destruct Ht2 as (-> & _ & Ht2).
  apply elem_of_app in Hin as [Hin|Hin].
  - pose proof (tile_in _ _ _ _ _ Ht1 Hin). unfold KM_HDR in *. lia.
  - pose proof (tile_in _ _ _ _ _ Ht2 Hin). unfold KM_HDR in *. lia.
Qed.

(** The block is split; its front part is what gets handed out. *)
Lemma take_split s k1 k2 b bsz need l :
  unlinked s (k1 ++ (b, bsz) :: k2) b bsz l -> 0 < need -> need + KM_HDR + 16 <= bsz ->
  let rest := b + KM_HDR + need in
  unlinked (split_block b need bsz s) (k1 ++ (b, need) :: (rest, bsz - need - KM_HDR) :: k2) b need (rest :: l).
Proof.
  intros U Hn Hs rest.
  assert (Hrb : rest <> b) by (unfold rest, KM_HDR; lia).
  assert (Ho : forall a sz, (a, sz) ∈ k1 ++ k2 -> a <> b /\ a <> rest) by (intros; by eapply split_others).
  assert (Hl : forall a, a ∈ l -> a <> b /\ a <> rest).
  { intros a Ha. destruct (un_fl _ _ _ _ _ U a Ha) as (sz & Hin).
    assert (a <> b) by (intros ->; by apply (un_notin _ _ _ _ _ U) in Ha).
    apply (Ho a sz). set_solver. }
  assert (Hcase : forall a sz, (a, sz) ∈ k1 ++ (b, need) :: (rest, bsz - need - KM_HDR) :: k2 ->
    (a = b /\ sz = need) \/ (a = rest /\ sz = bsz - need - KM_HDR) \/
    ((a, sz) ∈ k1 ++ k2 /\ (a, sz) ∈ k1 ++ (b, bsz) :: k2)) by set_solver.
  constructor.
  - apply (un_init _ _ _ _ _ U).
  - pose proof (un_tile _ _ _ _ _ U) as (q & Ht1 & Ht2)%tile_app. apply tile_app. exists q. split; [done|].
    simpl in *. destruct Ht2 as (-> & _ & Ht2). split_and!; [done|lia|done|lia|].
    unfold rest. by replace (q + KM_HDR + need + KM_HDR + (bsz - need - KM_HDR)) with (q + KM_HDR + bsz) by lia.
  - set_solver.
  - split; [done|]. rewrite split_block_hdr by done. fold rest. rewrite Z.eqb_refl.
    destruct (Z.eqb_spec rest b); [done|]. eapply km_chain_ext; [|apply (un_chain _ _ _ _ _ U)].
    intros v [??]%Hl. rewrite split_block_hdr by done. fold rest. zcases; done.
  - constructor; [intros [??]%Hl; done|apply (un_nodup _ _ _ _ _ U)].
  - intros [?|?%(un_notin _ _ _ _ _ U)]%elem_of_cons; done.
  - intros a [->|Ha]%elem_of_cons; [exists (bsz - need - KM_HDR); set_solver|].
    destruct (Hl a Ha) as [Hab _]. destruct (un_fl _ _ _ _ _ U a Ha) as (sz & Hin). exists sz. set_solver.
  - intros a sz Hin. rewrite split_block_hdr by done. fold rest.
    destruct (Hcase a sz Hin) as [[-> ->]|[[-> ->]|[[??]%Ho Hin']]]; zcases; try done.
    by apply (un_size _ _ _ _ _ U).
  - intros a sz Hin Hab. rewrite split_block_hdr by done. fold rest.
    destruct (Hcase a sz Hin) as [[-> ->]|[[-> ->]|[[? Har]%Ho Hin']]]; zcases; try done.
    + by rewrite decide_True by left.
    + rewrite (un_magic _ _ _ _ _ U a sz Hin' Hab).
      destruct (decide (a ∈ l)), (decide (a ∈ rest :: l)); try done; exfalso; set_solver.
Qed.

Lemma take_block_inv s bs fl need b bp bsz :
  heap_inv s bs fl -> (b, bsz) ∈ bs -> prev_in fl b bp -> 0 < need <= bsz ->
  let s' := take_block need b bp s in
  km_lock s' = km_lock s /\
  exists bs' rest l1 l2, fl = l1 ++ b :: l2 /\ split_blocks bs b bsz need bs' rest /\
    heap_inv s' bs' (rest ++ l1 ++ l2).
Proof.
  intros I Hb Hpi Hn. cbn zeta.
  pose proof (in_arena _ _ _ _ _ I Hb) as (Hba & Hbs & Hbe & Hb0).
  destruct (unlink_spec _ _ _ _ _ _ I Hb Hpi) as (Hlk & l1 & l2 & Efl & U).
  unfold take_block. fold (unlink b bp s). cbn zeta.
  rewrite (un_size _ _ _ _ _ U b bsz Hb).
  rewrite (u32_small (need + KM_HDR)), (u32_small (need + KM_HDR + 16)) by (unfold KM_HDR, KM_ARENA_BYTES in *; lia).
  destruct (list_elem_of_split _ _ Hb) as (k1 & k2 & Ebs).
  destruct (Z.leb_spec (need + KM_HDR + 16) bsz) as [Hsp|Hsp].
  - rewrite (u32_small (bsz - need)), (u32_small (bsz - need - KM_HDR)) by (unfold KM_HDR, KM_ARENA_BYTES in *; lia).
    split; [done|]. eexists _, [_], l1, l2. split; [done|]. split; [exists k1, k2; split; [done|]; right; done|].
    rewrite Ebs in U. apply (take_split _ _ _ _ _ need) in U; [|lia..]. by eapply take_whole.
  - split; [done|]. exists bs, [], l1, l2. split; [done|].
    split; [exists k1, k2; split; [done|]; left; split_and!; done || lia|]. by eapply take_whole.
Qed.

(** ** kmalloc *)

Lemma find_best_inv s bs fl need :
  heap_inv s bs fl ->
  let '(b, bp) := find_best KM_FUEL s need (km_freelist s) 0 0 0 in
  best_of s need b fl /\ (b <> 0 -> prev_in fl b bp).
Proof.
  intros I.
  pose proof (find_best_spec s need fl KM_FUEL [] (km_freelist s) 0 0 0 (fl_length _ _ _ I)
    (kinv_chain _ _ _ I) (fl_nonzero _ _ _ I) (or_introl (conj eq_refl eq_refl))) as H.
  apply H; [|done]. unfold best_of. simpl. intros v Hv. by apply elem_of_nil in Hv.
Qed.

Lemma prev_in_elem l b bp : prev_in l b bp -> b ∈ l.
Proof. intros [[_ (l2 & ->)]|(l1 & l2 & ->)]; set_solver. Qed.

Lemma km_set_held_inv b s bs fl : heap_inv s bs fl -> heap_inv (set_held tt b s) bs fl.
Proof.
  intros [H1 H2 H3 H4 H5 H6 H7]. constructor; try done. by eapply km_chain_ext; [|exact H3].
Qed.

(** The blocks handed out after [b] was taken. *)
Lemma allocated_take bs b bsz need bs' rest l1 l2 :
  tile arena bs (arena + KM_ARENA_BYTES) -> NoDup (l1 ++ b :: l2) ->
  (forall a, a ∈ l1 ++ b :: l2 -> exists sz, (a, sz) ∈ bs) ->
  split_blocks bs b bsz need bs' rest -> 0 < need ->
  exists sz, need <= sz /\ (b, sz) ∈ bs' /\
    forall x, x ∈ allocated bs' (rest ++ l1 ++ l2) <-> x = (b, sz) \/ x ∈ allocated bs (l1 ++ b :: l2).
Proof.
  intros Ht Hnd Hfl (k1 & k2 & Ebs & Hsp) Hn.
  assert (Hbfl : b ∉ l1 ++ l2) by (rewrite <- Permutation_middle in Hnd; by apply NoDup_cons in Hnd as [? _]).
  assert (Hok : forall a sz, (a, sz) ∈ k1 ++ k2 -> a <> b /\ (a < b \/ b + KM_HDR + bsz <= a)).
  { intros a sz Hin. subst bs. apply tile_app in Ht as (q & Ht1 & Ht2). simpl in Ht2. destruct Ht2 as (-> & ? & Ht2).
    apply elem_of_app in Hin as [Hin|Hin];
      [pose proof (tile_in _ _ _ _ _ Ht1 Hin)|pose proof (tile_in _ _ _ _ _ Ht2 Hin)]; unfold KM_HDR in *; lia. }
  unfold allocated.
  destruct Hsp as [(-> & -> & Hle)|(-> & -> & Hle)].
  - exists bsz. split; [done|]. split; [subst; set_solver|]. intros [a sz].
    rewrite !list_elem_of_filter. simpl. subst bs.
    assert (Hab : forall sz', (b, sz') ∈ k1 ++ (b, bsz) :: k2 -> sz' = bsz).
    { intros sz' Hin. assert (Hc : sz' = bsz \/ (b, sz') ∈ k1 ++ k2) by set_solver.
      destruct Hc as [|[??]%Hok]; done. }
    split.
    + intros [Hni Hin]. destruct (decide (a = b)) as [->|Hne]; [left; by rewrite (Hab sz)|right].
      split; [set_solver|done].
    + intros [[= -> ->]|[Hni Hin]]; split; set_solver.
  - exists need. split; [done|]. split; [set_solver|]. intros [a sz].
    set (r := b + KM_HDR + need) in *.
    assert (Hrb : r <> b) by (unfold r, KM_HDR; lia).
    assert (Hr : forall sz', (r, sz') ∉ k1 ++ k2) by (intros sz' [_ ?]%Hok; unfold r, KM_HDR in *; lia).
    rewrite !list_elem_of_filter. simpl. subst bs. split.
    + intros [Hni Hin].
      assert (Hc : (a = b /\ sz = need) \/ a = r \/ (a, sz) ∈ k1 ++ k2) by set_solver.
      destruct Hc as [[-> ->]|[->|Hin']]; [by left|set_solver|right].
      destruct (Hok a sz Hin') as [? _]. split; set_solver.
    + intros [[= -> ->]|[Hni Hin]].
      * split; [|set_solver]. intros [?|?]%elem_of_cons; done.
      * assert (Hin' : (a, sz) ∈ k1 ++ k2) by set_solver.
        split; [|set_solver]. intros [->|Ha]%elem_of_cons; [by apply Hr in Hin'|set_solver].
Qed.

Lemma kmalloc_spec s bs fl nbytes :
  km_inv s bs fl -> 0 < nbytes <= 2 ^ 32 - 8 ->
  wp (kmalloc nbytes) (fun p s' =>
    (p = 0 /\ km_inv s' bs fl /\ forall a, a ∈ fl -> h_size (hdr s a) < round8 nbytes) \/
    exists bs' fl' sz, km_inv s' bs' fl' /\ nbytes <= sz /\ (p - KM_HDR, sz) ∈ bs' /\ p - KM_HDR ∈ fl /\
      forall x, x ∈ allocated bs' fl' <-> x = (p - KM_HDR, sz) \/ x ∈ allocated bs fl) s.
Proof.
  intros [I Hk] Hn. destruct (round8_spec nbytes Hn) as [Hr Hr0].
  unfold kmalloc, kmalloc_init. ksteps. rewrite (kinv_init _ _ _ I). ksteps.
  destruct (Z.eqb_spec nbytes 0); [lia|]. ksteps. apply wp_acquire; [done|].
  set (s1 := set_held tt true s). pose proof (km_set_held_inv true _ _ _ I) as I1. fold s1 in I1. ksteps.
  pose proof (find_best_inv s1 bs fl (round8 nbytes) I1) as Hf.
  destruct (find_best _ _ _ _ _ _ _) as [b bp]. destruct Hf as [Hbest Hprev].
  destruct (Z.eqb_spec b 0) as [->|Hb0]; ksteps.
  - apply wp_release; [done|]. ksteps. left.
    split_and!; [done|split; [by apply (km_set_held_inv false)|done]|]. apply Hbest.
  - specialize (Hprev Hb0).
    destruct (kinv_fl _ _ _ I1 b (prev_in_elem _ _ _ Hprev)) as (bsz & Hin).
    unfold best_of in Hbest. apply Z.eqb_neq in Hb0 as Eb. rewrite Eb in Hbest.
    destruct Hbest as [Hfit _]. rewrite (kinv_size _ _ _ I1 b bsz Hin) in Hfit.
    destruct (take_block_inv s1 bs fl (round8 nbytes) b bp bsz I1 Hin Hprev ltac:(lia))
      as (Hlk & bs' & rest & l1 & l2 & -> & Hsp & I2).
    destruct (allocated_take bs b bsz (round8 nbytes) bs' rest l1 l2 (kinv_tile _ _ _ I1)
      (kinv_nodup _ _ _ I1) (kinv_fl _ _ _ I1) Hsp Hr0) as (sz & Hsz & Hin' & Hal).
    apply wp_release; [done|]. ksteps. right. exists bs', (rest ++ l1 ++ l2), sz.
    replace (b + KM_HDR - KM_HDR) with b by lia.
    pose proof (in_arena _ _ _ _ _ I1 Hin). unfold KM_HDR in *.
    split_and!; [split; [by apply (km_set_held_inv false)|done]|lia|done|set_solver|done].
Qed.

(** ** Merging *)

Definition merge (p nx : Z) (s : kheap) : kheap :=
  set_magic p KM_MAGIC_FREE
    (set_next p (h_next (hdr s nx)) (set_size p (h_size (hdr s p) +u (KM_HDR + h_size (hdr s nx))) s)).

Lemma merge_hdr p nx s x :
  hdr (merge p nx s) x =
    if x =? p then {| h_next := h_next (hdr s nx); h_size := h_size (hdr s p) +u (KM_HDR + h_size (hdr s nx));
                      h_magic := KM_MAGIC_FREE |} else hdr s x.
Proof. unfold merge. simpl. rewrite Z.eqb_refl. by destruct (x =? p). Qed.

Lemma scan_spec s l : forall fuel q,
  chain s q l -> Forall (fun v => v <> 0) l -> (length l < fuel)%nat ->
  match coalesce_scan fuel q s with
  | None => forall l1 p nx l2, l = l1 ++ p :: nx :: l2 -> p + KM_HDR + h_size (hdr s p) <> nx
  | Some s' => exists l1 p nx l2, l = l1 ++ p :: nx :: l2 /\ p + KM_HDR + h_size (hdr s p) = nx /\ s' = merge p nx s
  end.
Proof.
  induction l as [|v l IH]; intros [|fuel] q Hc Hnz Hf; simpl in Hf; try lia; cbn [coalesce_scan]; simpl in Hc.
  - subst q. simpl. by intros [|? [|? ?]] * ?.
  - destruct Hc as [-> Hc]. apply Forall_cons in Hnz as [Hv Hnz].
    apply Z.eqb_neq in Hv as ->. destruct l as [|w l]; simpl in Hc, Hf.
    + rewrite Hc. simpl. destruct fuel; simpl; by intros [|? [|? ?]] * ?.
    + destruct Hc as [Hw Hc]. rewrite Hw. apply Forall_cons in Hnz as Hnz'. destruct Hnz' as [Hw0%Z.eqb_neq _].
      rewrite Hw0. cbn [negb andb]. destruct (Z.eqb_spec (v + KM_HDR + h_size (hdr s v)) w) as [E|E].
      * exists [], v, w, l. split_and!; [done..|]. unfold merge. simpl. rewrite ?Z.eqb_refl. by destruct (w =? v).
      * specialize (IH fuel w). simpl in IH. specialize (IH (conj eq_refl Hc) Hnz ltac:(lia)).
        destruct (coalesce_scan fuel w s) as [s'|].
        -- destruct IH as (l1 & p & nx & l2 & -> & ?). by exists (v :: l1), p, nx, l2.
        -- intros [|x l1] p nx l2 Heq; simplify_eq/=; [done|]. by apply (IH l1 p nx l2).
Qed.

Lemma chain_merge s p nx l1 l2 : forall q,
  chain s q (l1 ++ p :: nx :: l2) -> NoDup (l1 ++ p :: nx :: l2) ->
  chain (merge p nx s) q (l1 ++ p :: l2).
Proof.
  intros q Hc Hnd. apply (km_chain_ext (set_next p (h_next (hdr s nx)) s)); [|by apply chain_unlink].
  intros v _. rewrite merge_hdr. simpl. by destruct (v =? p).
Qed.

(** A contiguous pair of list neighbours is a pair of neighbouring blocks. *)
Lemma merge_blocks s bs l1 p nx l2 :
  heap_inv s bs (l1 ++ p :: nx :: l2) -> p + KM_HDR + h_size (hdr s p) = nx ->
  exists k1 sz sz' k2, bs = k1 ++ (p, sz) :: (nx, sz') :: k2 /\
    forall a z, (a, z) ∈ k1 ++ k2 -> a <> p /\ a <> nx.
Proof.
  intros I Hadj. destruct (kinv_fl _ _ _ I p) as (sz & Hp); [set_solver|].
  destruct (kinv_fl _ _ _ I nx) as (sz' & Hn); [set_solver|].
  rewrite (kinv_size _ _ _ I _ _ Hp) in Hadj. subst nx.
  pose proof (kinv_tile _ _ _ I) as Ht.
  apply list_elem_of_split in Hp as (k1 & k2 & ->). pose proof Ht as Ht'.
  apply tile_app in Ht' as (q & Ht1 & Ht2). simpl in Ht2. destruct Ht2 as (-> & Hs & Ht2).
  destruct k2 as [|[a z] k2].
  { exfalso. apply elem_of_app in Hn as [Hn|Hn]; [|apply list_elem_of_singleton in Hn as [= ? ?]];
      [pose proof (tile_in _ _ _ _ _ Ht1 Hn)|]; unfold KM_HDR in *; lia. }
  simpl in Ht2. destruct Ht2 as (-> & Hz & Ht2). exists k1, sz, z, k2. split; [done|].
  intros a w [Ha|Ha]%elem_of_app;
    [pose proof (tile_in _ _ _ _ _ Ht1 Ha)|pose proof (tile_in _ _ _ _ _ Ht2 Ha)]; unfold KM_HDR in *; lia.
Qed.

Lemma merge_inv s bs l1 p nx l2 :
  heap_inv s bs (l1 ++ p :: nx :: l2) -> p + KM_HDR + h_size (hdr s p) = nx ->
  exists bs', heap_inv (merge p nx s) bs' (l1 ++ p :: l2) /\
    allocated bs' (l1 ++ p :: l2) = allocated bs (l1 ++ p :: nx :: l2).
Proof.
  intros I Hadj. destruct (merge_blocks _ _ _ _ _ _ I Hadj) as (k1 & sz & sz' & k2 & -> & Ho).
  pose proof (kinv_nodup _ _ _ I) as Hnd.
  assert (Hsz : h_size (hdr s p) = sz) by (apply (kinv_size _ _ _ I); set_solver).
  assert (Hsz' : h_size (hdr s nx) = sz') by (apply (kinv_size _ _ _ I); set_solver).
  pose proof (kinv_tile _ _ _ I) as (q & Ht1 & Ht2)%tile_app. simpl in Ht2. destruct Ht2 as (-> & ? & Hnx & ? & Ht2).
  pose proof (tile_le _ _ _ Ht1). pose proof (tile_le _ _ _ Ht2).
  exists (k1 ++ (q, sz + (KM_HDR + sz')) :: k2).
  assert (Hmem : forall a z, (a, z) ∈ k1 ++ (q, sz + (KM_HDR + sz')) :: k2 ->
    (a = q /\ z = sz + (KM_HDR + sz')) \/ (a, z) ∈ k1 ++ k2) by set_solver.
  assert (Hfl : forall a z, (a, z) ∈ k1 ++ k2 -> (a ∈ l1 ++ q :: l2 <-> a ∈ l1 ++ q :: nx :: l2)).
  { intros a z [? ?]%Ho. set_solver. }
  split; [constructor|].
  - apply (kinv_init _ _ _ I).
  - apply tile_app. exists q. split; [done|]. simpl. split_and!; [done|unfold KM_HDR; lia|].
    by replace (q + KM_HDR + (sz + (KM_HDR + sz'))) with (q + KM_HDR + sz + KM_HDR + sz') by lia.
  - apply chain_merge; [apply (kinv_chain _ _ _ I)|done].
  - eapply sublist_NoDup; [exact Hnd|]. apply sublist_app; [done|]. by do 2 constructor.
  - intros a Ha. destruct (kinv_fl _ _ _ I a) as (z & Hz); [set_solver|].
    destruct (decide (a = q)) as [->|]; [exists (sz + (KM_HDR + sz')); set_solver|].
    assert (a <> nx). { intros ->. clear -Hnd Ha n. rewrite (Permutation_app_comm l1) in Hnd. simpl in Hnd.
      rewrite !NoDup_cons in Hnd. set_solver. }
    exists z. set_solver.
  - intros a z [[-> ->]|Hin]%Hmem; rewrite merge_hdr.
    + rewrite Z.eqb_refl. simpl. rewrite Hsz, Hsz'. apply u32_small. unfold KM_HDR in *. lia.
    + destruct (Ho a z Hin) as [Hq%Z.eqb_neq _]. rewrite Hq. apply (kinv_size _ _ _ I). set_solver.
  - intros a z [[-> ->]|Hin]%Hmem; rewrite merge_hdr.
    + rewrite Z.eqb_refl, decide_True; [done|set_solver].
    + destruct (Ho a z Hin) as [Hq%Z.eqb_neq _]. rewrite Hq, (kinv_magic _ _ _ I a z) by set_solver.
      apply decide_ext. symmetry. by eapply Hfl.
  - assert (q ∈ l1 ++ q :: l2 /\ q ∈ l1 ++ q :: nx :: l2 /\ nx ∈ l1 ++ q :: nx :: l2) as (Hq1 & Hq2 & Hn2).
    { rewrite !elem_of_app, !elem_of_cons. tauto. }
    unfold allocated. rewrite !filter_app. rewrite !filter_cons_False by (simpl; tauto).
    f_equal; apply filter_ext_in; intros [a z] Hin; simpl; (rewrite (Hfl a z); [done|]);
      rewrite elem_of_app; tauto.
Qed.

Lemma coalesce_inv fuel : forall s bs fl,
  heap_inv s bs fl -> (length fl < fuel)%nat ->
  let s' := km_coalesce fuel s in
  km_lock s' = km_lock s /\ coalesce_scan KM_FUEL (km_freelist s') s' = None /\
  exists bs' fl', heap_inv s' bs' fl' /\ allocated bs' fl' = allocated bs fl.
Proof.
  induction fuel as [|fuel IH]; intros s bs fl I Hf; [lia|]. cbn [km_coalesce].
  pose proof (scan_spec s fl KM_FUEL _ (kinv_chain _ _ _ I) (fl_nonzero _ _ _ I) (fl_length _ _ _ I)) as Hs.
  destruct (coalesce_scan KM_FUEL (km_freelist s) s) as [s'|] eqn:E; [|by eauto 10].
  destruct Hs as (l1 & p & nx & l2 & -> & Hadj & ->).
  destruct (merge_inv _ _ _ _ _ _ I Hadj) as (bs1 & I1 & Hal).
  destruct (IH _ _ _ I1) as (Hlk & Hfix & bs' & fl' & I' & Hal').
  { rewrite length_app in Hf |- *. simpl in Hf |- *. lia. }
  split; [exact Hlk|]. split; [exact Hfix|]. exists bs', fl'. by rewrite Hal', Hal.
Qed.

Lemma scan_magic fuel : forall q s s' x,
  coalesce_scan fuel q s = Some s' -> h_magic (hdr s x) = KM_MAGIC_FREE -> h_magic (hdr s' x) = KM_MAGIC_FREE.
Proof.
  induction fuel as [|fuel IH]; intros q s s' x; [done|]. cbn [coalesce_scan]. cbn zeta.
  destruct (q =? 0); [done|]. destruct (negb _ && _); [|by apply IH].
  intros [= <-] Hm. simpl. destruct (x =? q); done.
Qed.

Lemma coalesce_magic fuel : forall s x,
  h_magic (hdr s x) = KM_MAGIC_FREE -> h_magic (hdr (km_coalesce fuel s) x) = KM_MAGIC_FREE.
Proof.
  induction fuel as [|fuel IH]; intros s x Hm; cbn [km_coalesce]; [done|].
  destruct (coalesce_scan _ _ _) eqn:E; [|done]. eauto using scan_magic.
Qed.

Lemma scan_set_held b fuel : forall q s,
  coalesce_scan fuel q s = None -> coalesce_scan fuel q (set_held tt b s) = None.
Proof.
  induction fuel as [|fuel IH]; intros q s; [done|]. cbn [coalesce_scan]. cbn zeta. simpl.
  destruct (q =? 0); [done|]. destruct (negb _ && _); [done|apply IH].
Qed.

(** ** kmfree *)

(** The block goes to the head of the free list. *)
Definition free_block (h : Z) (s : kheap) : kheap :=
  set_freelist h (set_next h (km_freelist s) (set_magic h KM_MAGIC_FREE s)).

Lemma free_block_inv s bs fl h sz :
  heap_inv s bs fl -> (h, sz) ∈ allocated bs fl ->
  heap_inv (free_block h s) bs (h :: fl) /\
  allocated bs (h :: fl) = filter (fun x => x <> (h, sz)) (allocated bs fl).
Proof.
  intros I [Hnf Hin]%list_elem_of_filter. simpl in Hnf. split; [constructor|].
  - apply (kinv_init _ _ _ I).
  - apply (kinv_tile _ _ _ I).
  - split; [done|]. simpl. rewrite !Z.eqb_refl. simpl.
    eapply km_chain_ext; [|apply (kinv_chain _ _ _ I)]. intros v Hv. simpl.
    destruct (Z.eqb_spec v h) as [->|]; done.
  - constructor; [done|apply (kinv_nodup _ _ _ I)].
  - intros a [->|Ha]%elem_of_cons; [by exists sz|by apply (kinv_fl _ _ _ I)].
  - intros a z Ha. simpl. rewrite Z.eqb_refl. destruct (Z.eqb_spec a h) as [->|]; simpl; by apply (kinv_size _ _ _ I).
  - intros a z Ha. simpl. rewrite Z.eqb_refl. destruct (Z.eqb_spec a h) as [->|Hah]; simpl.
    + by rewrite decide_True by left.
    + rewrite (kinv_magic _ _ _ I a z Ha). apply decide_ext. rewrite elem_of_cons. tauto.
  - unfold allocated. rewrite list_filter_filter. apply filter_ext_in. intros [a z] Ha. simpl.
    split; [set_solver|]. intros [Hne Hnfl] [->|]%elem_of_cons; [|done]. apply Hne. f_equal.
    eapply (tile_fun bs _ _ h); [apply (kinv_tile _ _ _ I)|done..].
Qed.

Lemma kmfree_spec s bs fl h sz :
  km_inv s bs fl -> (h, sz) ∈ allocated bs fl ->
  wp (kmfree (h + KM_HDR)) (fun _ s' => exists bs' fl', km_inv s' bs' fl' /\
    allocated bs' fl' = filter (fun x => x <> (h, sz)) (allocated bs fl) /\
    coalesce_scan KM_FUEL (km_freelist s') s' = None /\ h_magic (hdr s' h) = KM_MAGIC_FREE) s.
Proof.
  intros [I Hk] Hal. pose proof Hal as [Hnf Hin]%list_elem_of_filter. simpl in Hnf.
  pose proof (in_arena _ _ _ _ _ I Hin) as (Ha & Hs & He & H0).
  unfold kmfree, km_block_in_arena. replace (h + KM_HDR - KM_HDR) with h by lia.
  destruct (Z.eqb_spec (h + KM_HDR) 0); [unfold KM_HDR in *; lia|].
  zcases; try (unfold KM_HDR in *; lia).
  ksteps. rewrite (kinv_magic _ _ _ I _ _ Hin), decide_False by done. simpl negb. cbn iota.
  ksteps. apply wp_acquire; [done|]. ksteps.
  destruct (free_block_inv _ _ _ _ _ (km_set_held_inv true _ _ _ I) Hal) as [I1 E1].
  fold (free_block h (set_held tt true s)).
  destruct (coalesce_inv KM_FUEL _ _ _ I1 (fl_length _ _ _ I1)) as (Hlk & Hfix & bs' & fl' & I2 & E2).
  apply wp_release; [done|]. exists bs', fl'.
  split_and!; [split; [by apply (km_set_held_inv false)|done]|by rewrite E2, E1|by rewrite scan_set_held|].
  apply coalesce_magic. simpl. by rewrite !Z.eqb_refl.
Qed.

Lemma init_inv s : km_inited s = false ->
  wp kmalloc_init (fun _ s' => km_inv s' [(arena, KM_ARENA_BYTES - KM_HDR)] [arena]) s.
Proof.
  intros Hi. unfold kmalloc_init. ksteps. rewrite Hi. ksteps. split; [|done]. constructor; simpl.
  - done.
  - unfold KM_HDR, KM_ARENA_BYTES. lia.
  - by rewrite Z.eqb_refl.
  - repeat constructor. set_solver.
  - intros a ->%list_elem_of_singleton. eexists. by left.
  - intros a sz [= -> ->]%list_elem_of_singleton. by rewrite Z.eqb_refl.
  - intros a sz [= -> ->]%list_elem_of_singleton. by rewrite Z.eqb_refl, decide_True by left.
Qed.

Lemma kmfree_not_alloc s bs fl h sz s' :
  heap_inv s bs fl -> (h, sz) ∈ allocated bs fl -> h_magic (hdr s' h) <> KM_MAGIC_ALLOC ->
  kmfree (h + KM_HDR) s' = Done tt s'.
Proof.
  intros I [_ Hin]%list_elem_of_filter Hm.
  pose proof (in_arena _ _ _ _ _ I Hin). unfold kmfree, km_block_in_arena.
  replace (h + KM_HDR - KM_HDR) with h by lia.
  destruct (Z.eqb_spec (h + KM_HDR) 0); [done|]. zcases; try (unfold KM_HDR in *; lia).
  unfold kbind, kget. by apply Z.eqb_neq in Hm as ->.
Qed.

Lemma take_block_lock need b bp s : km_lock (take_block need b bp s) = km_lock s.
Proof. unfold take_block. simpl. by destruct (negb _); simpl; destruct (_ <=? _). Qed.

(** ** Properties *)

(** C39.  Allocation: a [kmalloc] of a size that does not overflow returns
    either 0, when no free block is large enough, or the address of a block
    inside the arena of at least the requested size that overlaps no block
    handed out before, header included; the heap stays well formed and the
    blocks handed out are the old ones and the new one. *)
Theorem kmalloc_correct s bs fl nbytes :
  km_inv s bs fl -> 0 < nbytes <= 2 ^ 32 - 8 ->
  exists p s', kmalloc nbytes s = Done p s' /\
    ((p = 0 /\ km_inv s' bs fl /\ forall a, a ∈ fl -> h_size (hdr s a) < round8 nbytes) \/
     exists bs' fl' sz, km_inv s' bs' fl' /\ nbytes <= sz /\
       arena + KM_HDR <= p /\ p + sz <= arena + KM_ARENA_BYTES /\
       (forall a z, (a, z) ∈ allocated bs fl -> p + sz <= a \/ a + KM_HDR + z <= p - KM_HDR) /\
       (forall x, x ∈ allocated bs' fl' <-> x = (p - KM_HDR, sz) \/ x ∈ allocated bs fl)).
Proof.
  intros Hi Hn. pose proof (kmalloc_spec _ _ _ _ Hi Hn) as (p & s' & E & H)%wp_done. exists p, s'.
  split; [done|]. destruct H as [H|(bs' & fl' & sz & [I' Hk] & Hsz & Hin & Hp & Hal)]; [by left|right].
  exists bs', fl', sz. pose proof (in_arena _ _ _ _ _ I' Hin) as (? & ? & ? & _).
  split_and!; [by split|done|lia|lia| |done]. intros a z Ha.
  assert (Ha' : (a, z) ∈ allocated bs' fl') by (apply Hal; by right).
  apply list_elem_of_filter in Ha' as [_ Hin'].
  destruct (tile_disjoint _ _ _ _ _ _ _ (kinv_tile _ _ _ I') Hin Hin') as [[Heq Hz]|Hd]; [|lia].
  exfalso. apply list_elem_of_filter in Ha as [Hnfl _]. simpl in Hnfl. by subst a.
Qed.

(** Release: [kmfree] of a block that is handed out returns, takes
    exactly that block off the blocks handed out and keeps the heap well
    formed (free neighbours on the list are merged); a second [kmfree] of the
    same pointer is ignored; a pointer outside the arena panics. *)
Theorem kmfree_correct s bs fl h sz :
  km_inv s bs fl -> (h, sz) ∈ allocated bs fl ->
  (exists s' bs' fl', kmfree (h + KM_HDR) s = Done tt s' /\ km_inv s' bs' fl' /\
    allocated bs' fl' = filter (fun x => x <> (h, sz)) (allocated bs fl) /\
    coalesce_scan KM_FUEL (km_freelist s') s' = None /\
    kmfree (h + KM_HDR) s' = Done tt s') /\
  (forall p, p <> 0 -> km_block_in_arena p = false -> kmfree p s = Panicked "kmfree" s).
Proof.
  intros Hi Hal. split.
  - pose proof (kmfree_spec _ _ _ _ _ Hi Hal) as ([] & s' & E & bs' & fl' & H1 & H2 & H3 & H4)%wp_done.
    exists s', bs', fl'. split_and!; try done. eapply kmfree_not_alloc; [apply Hi|exact Hal|]. by rewrite H4.
  - intros p Hp Hb. unfold kmfree. apply Z.eqb_neq in Hp as ->. rewrite Hb. by destruct (negb _).
Qed.


(** The rounding of the request wraps: a [kmalloc] of one of the seven
    largest sizes on a fresh heap returns a non-null pointer to a block of
    size 0 instead of failing. *)
Theorem kmalloc_rounding_overflow s nbytes :
  km_inited s = false -> 2 ^ 32 - 8 < nbytes < 2 ^ 32 ->
  exists s', kmalloc nbytes s = Done (arena + KM_HDR) s' /\ h_size (hdr s' arena) = 0.
Proof.
  intros Hi Hn.
  assert (Hr : round8 nbytes = 0).
  { unfold round8. change (u32 (Z.lnot 7)) with (2 ^ 32 - 2 ^ 3).
    rewrite land_mask_up by (try apply u32_range; lia). unfold u32. change (2 ^ 3) with 8. dlia. }
  enough (wp (kmalloc nbytes) (fun p s' => p = arena + KM_HDR /\ h_size (hdr s' arena) = 0) s) as H.
  { apply wp_done in H as (p & s' & ? & -> & ?). eauto. }
  unfold kmalloc. ksteps. eapply wp_mono; [by apply init_inv|]. intros _ s1 [I Hk]. cbn beta.
  destruct (Z.eqb_spec nbytes 0); [lia|]. rewrite Hr. ksteps. apply wp_acquire; [done|]. ksteps.
  apply (km_set_held_inv true) in I. set (s2 := set_held tt true s1) in *.
  pose proof (find_best_inv s2 _ _ 0 I) as Hf. destruct (find_best _ _ _ _ _ _ _) as [b bp].
  destruct Hf as [Hb Hbp]. pose proof (kinv_size _ _ _ I arena _ (list_elem_of_here _ _)) as Hsz.
  destruct (Z.eqb_spec b 0) as [->|Hb0].
  { specialize (Hb arena (list_elem_of_here _ _)). rewrite Hsz in Hb. by unfold KM_ARENA_BYTES, KM_HDR in Hb. }
  specialize (Hbp Hb0). destruct Hbp as [[-> (l2 & [= <- _])]|([|? [|? ?]] & ? & ?)]; [|done..].
  ksteps. apply wp_release; [exact (take_block_lock 0 arena 0 s2)|]. ksteps. split; [done|]. clearbody s2.
  unfold take_block. simpl. rewrite Hsz. simpl. by rewrite !Z.eqb_refl.
Qed.
End Heap.

(** ** Witnesses *)

Definition arena0 : Z := 0x80200000.
Definition heap0 : kheap :=
  {| km_inited := false; km_lock := false; km_freelist := 0;
     hdr := fun _ => {| h_next := 0; h_size := 0; h_magic := 0 |} |}.
Definition fresh_heap : kheap :=
  match kmalloc_init arena0 heap0 with Done _ s | Panicked _ s | Slept _ s => s end.
(** The arena is one block, handed out. *)
Definition full_heap : kheap :=
  {| km_inited := true; km_lock := false; km_freelist := 0;
     hdr := fun _ => {| h_next := 0; h_size := KM_ARENA_BYTES - KM_HDR; h_magic := KM_MAGIC_ALLOC |} |}.

Lemma fresh_heap_inv : km_inv arena0 fresh_heap [(arena0, KM_ARENA_BYTES - KM_HDR)] [arena0].
Proof. exact (init_inv arena0 ltac:(done) heap0 eq_refl). Qed.

Lemma full_heap_inv : km_inv arena0 full_heap [(arena0, KM_ARENA_BYTES - KM_HDR)] [].
Proof.
  split; [constructor; try done|done].
  - apply NoDup_nil_2.
  - intros a Ha. by apply elem_of_nil in Ha.
  - by intros a sz [= -> ->]%list_elem_of_singleton.
Qed.

Lemma kmalloc_correct_witness :
  exists p s', kmalloc arena0 100 fresh_heap = Done p s'.
Proof.
  destruct (kmalloc_correct arena0 ltac:(done) fresh_heap _ _ 100 fresh_heap_inv ltac:(lia))
    as (p & s' & E & _). by exists p, s'.
Defined.

Lemma kmfree_correct_witness :
  exists s', kmfree arena0 (arena0 + KM_HDR) full_heap = Done tt s'.
Proof.
  destruct (kmfree_correct arena0 ltac:(done) full_heap _ _ arena0 (KM_ARENA_BYTES - KM_HDR) full_heap_inv)
    as ((s' & _ & _ & E & _) & _).
  - apply list_elem_of_filter. split; [apply not_elem_of_nil|apply list_elem_of_here].
  - by exists s'.
Defined.

Lemma kmalloc_rounding_overflow_witness :
  exists s', kmalloc arena0 (2 ^ 32 - 1) heap0 = Done (arena0 + KM_HDR) s' /\ h_size (hdr s' arena0) = 0.
Proof. apply (kmalloc_rounding_overflow arena0 ltac:(done) heap0 (2 ^ 32 - 1)); [done|lia]. Defined.
