(* ===== verification/Proc.v ===== *)
(** * kernel/proc.c: processes, scheduling, sleep and wakeup

    The process table, the per-processor [proc] variables and the lock state
    are one record [kern]; the services of other files (page allocator,
    virtual memory, files, inodes, log) act on an environment [E] the process
    code cannot see into and are gathered in the class [KernelServices].  A
    call of [swtch] ends a computation: what the process does when it is
    scheduled again is a computation of its own ([sleep_resume],
    [yield_resume], [forkret], or a further turn of [wait]). *)

From Stdlib Require Import ZArith Lia.
From S2P Require Import Prelude KString Spinlock Kalloc.

Definition NPROC : nat := 64.
Definition NOFILE : nat := 16.
Definition NCPU : nat := 8.
Definition KSTACKSIZE : Z := 4096.
Definition PTE_P : Z := 0x001.
Definition PTE_ADDR (pte : Z) : Z := Z.land pte (u32 (Z.lnot 0xFFF)).
Definition PDX (va : Z) : Z := Z.land (Z.shiftr va 22) 0x3FF.
Definition SEG_UCODE : Z := 4.
Definition SEG_UDATA : Z := 5.
Definition DPL_USER : Z := 3.
Definition FL_IF : Z := 0x200.

Inductive procstate := UNUSED | EMBRYO | SLEEPING | RUNNABLE | RUNNING | ZOMBIE.
#[global] Instance procstate_eq_dec : EqDecision procstate.
Proof. solve_decision. Defined.

(** [struct trapframe] (the padding left out) and [struct context]. *)
Record trapframe := {
  tf_edi : Z; tf_esi : Z; tf_ebp : Z; tf_oesp : Z; tf_ebx : Z; tf_edx : Z; tf_ecx : Z; tf_eax : Z;
  tf_gs : Z; tf_fs : Z; tf_es : Z; tf_ds : Z; tf_trapno : Z;
  tf_err : Z; tf_eip : Z; tf_cs : Z; tf_eflags : Z; tf_esp : Z; tf_ss : Z;
}.
Record context := { ctx_edi : Z; ctx_esi : Z; ctx_ebx : Z; ctx_ebp : Z; ctx_eip : Z }.

(** [struct proc].  [parent] is an index of the table ([None] for the null
    pointer); [tf] and [context] hold the pointers, [tfv] and [ctxv] what they
    point to; [p_ret] is the word [allocproc] puts above the context. *)
Record proc := {
  sz : Z; pgdir : Z; kstack : Z; state : procstate; pid : Z; parent : option nat;
  tf : Z; tfv : trapframe; context_ : Z; ctxv : context; p_ret : Z;
  chan : Z; killed : bool; ofile : list Z; cwd : Z; name : list Z; cpuid : nat;
}.

(** Field updates. *)
Definition set_state (st : procstate) (p : proc) : proc :=
  {| sz := sz p; pgdir := pgdir p; kstack := kstack p; state := st; pid := pid p; parent := parent p;
     tf := tf p; tfv := tfv p; context_ := context_ p; ctxv := ctxv p; p_ret := p_ret p;
     chan := chan p; killed := killed p; ofile := ofile p; cwd := cwd p; name := name p; cpuid := cpuid p |}.
Definition set_pid (v : Z) (p : proc) : proc :=
  {| sz := sz p; pgdir := pgdir p; kstack := kstack p; state := state p; pid := v; parent := parent p;
     tf := tf p; tfv := tfv p; context_ := context_ p; ctxv := ctxv p; p_ret := p_ret p;
     chan := chan p; killed := killed p; ofile := ofile p; cwd := cwd p; name := name p; cpuid := cpuid p |}.
Definition set_kstack (v : Z) (p : proc) : proc :=
  {| sz := sz p; pgdir := pgdir p; kstack := v; state := state p; pid := pid p; parent := parent p;
     tf := tf p; tfv := tfv p; context_ := context_ p; ctxv := ctxv p; p_ret := p_ret p;
     chan := chan p; killed := killed p; ofile := ofile p; cwd := cwd p; name := name p; cpuid := cpuid p |}.
Definition set_frames (t c r : Z) (v : context) (p : proc) : proc :=
  {| sz := sz p; pgdir := pgdir p; kstack := kstack p; state := state p; pid := pid p; parent := parent p;
     tf := t; tfv := tfv p; context_ := c; ctxv := v; p_ret := r;
     chan := chan p; killed := killed p; ofile := ofile p; cwd := cwd p; name := name p; cpuid := cpuid p |}.
Definition set_vm (s d : Z) (p : proc) : proc :=
  {| sz := s; pgdir := d; kstack := kstack p; state := state p; pid := pid p; parent := parent p;
     tf := tf p; tfv := tfv p; context_ := context_ p; ctxv := ctxv p; p_ret := p_ret p;
     chan := chan p; killed := killed p; ofile := ofile p; cwd := cwd p; name := name p; cpuid := cpuid p |}.
Definition set_tfv (v : trapframe) (p : proc) : proc :=
  {| sz := sz p; pgdir := pgdir p; kstack := kstack p; state := state p; pid := pid p; parent := parent p;
     tf := tf p; tfv := v; context_ := context_ p; ctxv := ctxv p; p_ret := p_ret p;
     chan := chan p; killed := killed p; ofile := ofile p; cwd := cwd p; name := name p; cpuid := cpuid p |}.
Definition set_parent (v : option nat) (p : proc) : proc :=
  {| sz := sz p; pgdir := pgdir p; kstack := kstack p; state := state p; pid := pid p; parent := v;
     tf := tf p; tfv := tfv p; context_ := context_ p; ctxv := ctxv p; p_ret := p_ret p;
     chan := chan p; killed := killed p; ofile := ofile p; cwd := cwd p; name := name p; cpuid := cpuid p |}.
Definition set_chan (v : Z) (p : proc) : proc :=
  {| sz := sz p; pgdir := pgdir p; kstack := kstack p; state := state p; pid := pid p; parent := parent p;
     tf := tf p; tfv := tfv p; context_ := context_ p; ctxv := ctxv p; p_ret := p_ret p;
     chan := v; killed := killed p; ofile := ofile p; cwd := cwd p; name := name p; cpuid := cpuid p |}.
Definition set_killed (v : bool) (p : proc) : proc :=
  {| sz := sz p; pgdir := pgdir p; kstack := kstack p; state := state p; pid := pid p; parent := parent p;
     tf := tf p; tfv := tfv p; context_ := context_ p; ctxv := ctxv p; p_ret := p_ret p;
     chan := chan p; killed := v; ofile := ofile p; cwd := cwd p; name := name p; cpuid := cpuid p |}.
Definition set_ofile (v : list Z) (p : proc) : proc :=
  {| sz := sz p; pgdir := pgdir p; kstack := kstack p; state := state p; pid := pid p; parent := parent p;
     tf := tf p; tfv := tfv p; context_ := context_ p; ctxv := ctxv p; p_ret := p_ret p;
     chan := chan p; killed := killed p; ofile := v; cwd := cwd p; name := name p; cpuid := cpuid p |}.
Definition set_cwd (v : Z) (p : proc) : proc :=
  {| sz := sz p; pgdir := pgdir p; kstack := kstack p; state := state p; pid := pid p; parent := parent p;
     tf := tf p; tfv := tfv p; context_ := context_ p; ctxv := ctxv p; p_ret := p_ret p;
     chan := chan p; killed := killed p; ofile := ofile p; cwd := v; name := name p; cpuid := cpuid p |}.
Definition set_name (v : list Z) (p : proc) : proc :=
  {| sz := sz p; pgdir := pgdir p; kstack := kstack p; state := state p; pid := pid p; parent := parent p;
     tf := tf p; tfv := tfv p; context_ := context_ p; ctxv := ctxv p; p_ret := p_ret p;
     chan := chan p; killed := killed p; ofile := ofile p; cwd := cwd p; name := v; cpuid := cpuid p |}.
Definition set_cpuid (v : nat) (p : proc) : proc :=
  {| sz := sz p; pgdir := pgdir p; kstack := kstack p; state := state p; pid := pid p; parent := parent p;
     tf := tf p; tfv := tfv p; context_ := context_ p; ctxv := ctxv p; p_ret := p_ret p;
     chan := chan p; killed := killed p; ofile := ofile p; cwd := cwd p; name := name p; cpuid := v |}.

(** [safestrcpy(p->name, src, 16)]: the bytes past the copied ones stay. *)
Definition name_copy (src old : list Z) : list Z :=
  let b := safestrcpy_bytes (of_bytes src) 16 in b ++ drop (length b) old.

(** ** The user halves of page directories

    [pde d i] reads [d[i]]. *)

Definition user_pdes : list Z := seqZ 0 (PDX KERNBASE).

Definition share_user_pt (pde : Z -> Z -> Z) (a b : Z) : bool :=
  if (a =? 0) || (b =? 0) then false
  else existsb (fun i =>
         let pa := pde a i in let pb := pde b i in
         negb (Z.land pa PTE_P =? 0) && negb (Z.land pb PTE_P =? 0) &&
         negb (PTE_ADDR pa =? 0) && (PTE_ADDR pa =? PTE_ADDR pb)) user_pdes.

Definition pgdir_maps_pt (pde : Z -> Z -> Z) (d pde_pa : Z) : bool :=
  existsb (fun i => negb (Z.land (pde d i) PTE_P =? 0) && (PTE_ADDR (pde d i) =? pde_pa)) user_pdes.

(** Some process of the table [l] other than the owner maps [pde_pa]. *)
Definition user_pt_shared (pde : Z -> Z -> Z) (l : list proc) (owner pde_pa : Z) : bool :=
  if (owner =? 0) || (pde_pa =? 0) then false
  else existsb (fun p => negb (bool_decide (state p = UNUSED) || (pgdir p =? 0) || (pgdir p =? owner)) &&
                         pgdir_maps_pt pde (pgdir p) pde_pa) l.

(** The services of the rest of the kernel. *)
Class KernelServices (E : Type) := {
  e_kalloc : K E Z;
  e_kfree : Z -> K E unit;
  e_setupkvm : K E Z;
  e_inituvm : Z -> K E unit;          (* inituvm(pgdir, initcode) *)
  e_allocuvm : Z -> Z -> Z -> K E Z;  (* allocuvm_nolock(pgdir, oldsz, newsz) *)
  e_deallocuvm : Z -> Z -> Z -> K E Z;
  e_copyuvm : Z -> Z -> K E Z;
  e_freevm : Z -> K E unit;
  e_pde : E -> Z -> Z -> Z;           (* pgdir[i] *)
  e_filedup : Z -> K E Z;
  e_fileclose : Z -> K E unit;
  e_idup : Z -> K E Z;
  e_iput : Z -> K E unit;
  e_namei_root : K E Z;
  e_begin_trans : K E unit;
  e_commit_trans : K E unit;
}.

(** A processor: its lock bookkeeping and its [proc] variable. *)
Record core := { c_cpu : cpu; c_proc : option nat }.

Record kern (E : Type) := {
  procs : list proc;
  locks : Z -> bool;
  me : nat;                (* the processor that executes *)
  cores : nat -> core;
  nextpid : Z;
  initproc : option nat;
  console_fgpid : Z;
  reboot_request : Z;
  env : E;
}.
Arguments procs {E}. Arguments locks {E}. Arguments me {E}. Arguments cores {E}. Arguments nextpid {E}.
Arguments initproc {E}. Arguments console_fgpid {E}. Arguments reboot_request {E}. Arguments env {E}.

Section Proc.
Context {E : Type} `{KernelServices E}.
Context (ptable forkret_ trapret_ : Z). (* addresses: ptable, forkret, trapret *)

Abbreviation kern := (kern E).
Implicit Types (s : kern).

Definition upd_procs (f : list proc -> list proc) (s : kern) : kern :=
  {| procs := f (procs s); locks := locks s; me := me s; cores := cores s; nextpid := nextpid s;
     initproc := initproc s; console_fgpid := console_fgpid s; reboot_request := reboot_request s; env := env s |}.
Definition upd_core (f : core -> core) (s : kern) : kern :=
  {| procs := procs s; locks := locks s; me := me s; cores := fupd (cores s) (me s) (f (cores s (me s)));
     nextpid := nextpid s; initproc := initproc s; console_fgpid := console_fgpid s;
     reboot_request := reboot_request s; env := env s |}.
Definition set_nextpid (v : Z) (s : kern) : kern :=
  {| procs := procs s; locks := locks s; me := me s; cores := cores s; nextpid := v;
     initproc := initproc s; console_fgpid := console_fgpid s; reboot_request := reboot_request s; env := env s |}.
Definition set_initproc (v : option nat) (s : kern) : kern :=
  {| procs := procs s; locks := locks s; me := me s; cores := cores s; nextpid := nextpid s;
     initproc := v; console_fgpid := console_fgpid s; reboot_request := reboot_request s; env := env s |}.
Definition set_fgpid (v : Z) (s : kern) : kern :=
  {| procs := procs s; locks := locks s; me := me s; cores := cores s; nextpid := nextpid s;
     initproc := initproc s; console_fgpid := v; reboot_request := reboot_request s; env := env s |}.
Definition set_env (e : E) (s : kern) : kern :=
  {| procs := procs s; locks := locks s; me := me s; cores := cores s; nextpid := nextpid s;
     initproc := initproc s; console_fgpid := console_fgpid s; reboot_request := reboot_request s; env := e |}.

(** The locks by address; taking and releasing one masks and unmasks the
    interrupts of the executing processor. *)
#[global] Instance kern_locks : HasLocks Z kern := {
  held l s := locks s l;
  set_held l b s :=
    let c := c_cpu (cores s (me s)) in
    let c' := if b then pushcli c else match popcli c with Done _ c' | Panicked _ c' | Slept _ c' => c' end in
    {| procs := procs s; locks := zupd (locks s) l b; me := me s;
       cores := fupd (cores s) (me s) {| c_cpu := c'; c_proc := c_proc (cores s (me s)) |};
       nextpid := nextpid s; initproc := initproc s; console_fgpid := console_fgpid s;
       reboot_request := reboot_request s; env := env s |};
}.

(** [&ptable.lock] is the first member of [ptable]; [&ptable.proc[i]] (a
    [struct spinlock] is 52 bytes, a [struct proc] 128). *)
Definition ptable_lock : Z := ptable.
Definition proc_addr (o : option nat) : Z :=
  match o with Some i => ptable + 52 + 128 * Z.of_nat i | None => 0 end.

Definition call {A} (m : K E A) : K kern A := zoom env set_env m.
Definition upd_proc (i : nat) (f : proc -> proc) : K kern unit := kmodify (upd_procs (alter f i)).
Definition null_proc : proc :=
  {| sz := 0; pgdir := 0; kstack := 0; state := UNUSED; pid := 0; parent := None;
     tf := 0; tfv := {| tf_edi := 0; tf_esi := 0; tf_ebp := 0; tf_oesp := 0; tf_ebx := 0; tf_edx := 0;
       tf_ecx := 0; tf_eax := 0; tf_gs := 0; tf_fs := 0; tf_es := 0; tf_ds := 0; tf_trapno := 0; tf_err := 0;
       tf_eip := 0; tf_cs := 0; tf_eflags := 0; tf_esp := 0; tf_ss := 0 |};
     context_ := 0; ctxv := {| ctx_edi := 0; ctx_esi := 0; ctx_ebx := 0; ctx_ebp := 0; ctx_eip := 0 |};
     p_ret := 0; chan := 0; killed := false; ofile := replicate NOFILE 0; cwd := 0;
     name := replicate 16 0; cpuid := 0 |}.
Definition getp (s : kern) (i : nat) : proc := default null_proc (procs s !! i).

(** The variable [proc] of the executing processor; [cur] is the index a use
    of [proc->...] needs. *)
Definition proc_ (s : kern) : option nat := c_proc (cores s (me s)).
Definition cur : K kern nat :=
  s <- kget ;; match proc_ s with Some i => kret i | None => panic "null proc" end.

(** ** Shared page tables *)

Definition pgdir_share_user_pt (e : E) (a b : Z) : bool := share_user_pt (e_pde e) a b.

Definition pgdir_user_pt_shared_with_other (owner pde_pa : Z) (s : kern) : bool :=
  user_pt_shared (e_pde (env s)) (procs s) owner pde_pa.

Definition proc_user_pt_page_in_use (pde_pa : Z) (s : kern) : bool :=
  if pde_pa =? 0 then false
  else existsb (fun p => negb (bool_decide (state p = UNUSED) || (pgdir p =? 0)) &&
                         pgdir_maps_pt (e_pde (env s)) (pgdir p) pde_pa) (procs s).

(** ** Creating processes *)

Definition find_unused (l : list proc) : option nat := fst <$> list_find (fun p => state p = UNUSED) l.

Definition allocproc : K kern (option nat) :=
  acquire ptable_lock ;;
  s <- kget ;;
  match find_unused (procs s) with
  | None => release ptable_lock ;; kret None
  | Some i =>
      upd_proc i (set_state EMBRYO) ;;
      upd_proc i (set_pid (nextpid s)) ;;
      kmodify (set_nextpid (s32 (nextpid s + 1))) ;;
      release ptable_lock ;;
      ks <- call e_kalloc ;;
      upd_proc i (set_kstack ks) ;;
      if ks =? 0 then upd_proc i (set_state UNUSED) ;; kret None
      else
        let sp := ks + KSTACKSIZE - 76 in   (* the trap frame *)
        let sp' := sp - 4 - 20 in           (* trapret, the context *)
        upd_proc i (set_frames sp sp' trapret_
          {| ctx_edi := 0; ctx_esi := 0; ctx_ebx := 0; ctx_ebp := 0; ctx_eip := forkret_ |}) ;;
        kret (Some i)
  end.

Definition userinit : K kern unit :=
  o <- allocproc ;;
  kmodify (set_initproc o) ;;
  match o with
  | None => panic "null proc"
  | Some i =>
      d <- call e_setupkvm ;;
      upd_proc i (fun p => set_vm (sz p) d p) ;;
      if d =? 0 then panic "userinit: out of memory?"
      else
        call (e_inituvm d) ;;
        upd_proc i (set_vm PGSIZE d) ;;
        let uds := Z.lor (Z.shiftl SEG_UDATA 3) DPL_USER in
        upd_proc i (set_tfv {| tf_edi := 0; tf_esi := 0; tf_ebp := 0; tf_oesp := 0; tf_ebx := 0; tf_edx := 0;
          tf_ecx := 0; tf_eax := 0; tf_gs := 0; tf_fs := 0; tf_es := uds; tf_ds := uds; tf_trapno := 0; tf_err := 0;
          tf_eip := 0; tf_cs := Z.lor (Z.shiftl SEG_UCODE 3) DPL_USER; tf_eflags := FL_IF; tf_esp := PGSIZE;
          tf_ss := uds |}) ;;
        upd_proc i (fun p => set_name (name_copy [105; 110; 105; 116; 99; 111; 100; 101; 0] (name p)) p) ;;
        c <- call e_namei_root ;;
        upd_proc i (set_cwd c) ;;
        upd_proc i (set_state RUNNABLE)
  end.

(** [growproc(n)]; the lock around it belongs to vm.c and [switchuvm] only
    reloads the processor's registers. *)
Definition growproc (n : Z) : K kern Z :=
  i <- cur ;;
  s <- kget ;;
  let p := getp s i in
  let commit sz' := upd_proc i (fun p => set_vm sz' (pgdir p) p) ;; kret 0 in
  if 0 <? n then
    let newsz := sz p +u n in
    if (newsz <? sz p) || (KERNBASE <=? newsz) then kret (-1)
    else
      sz' <- call (e_allocuvm (pgdir p) (sz p) newsz) ;;
      if sz' =? 0 then kret (-1) else commit sz'
  else if n <? 0 then
    if n =? - 2 ^ 31 then kret (-1)
    else if sz p <=? - n then kret (-1)
    else
      sz' <- call (e_deallocuvm (pgdir p) (sz p) (sz p - - n)) ;;
      commit sz'
  else commit (sz p).

Fixpoint dup_files (i : nat) (fds : list nat) (parent_files : list Z) : K kern unit :=
  match fds with
  | [] => kret tt
  | fd :: fds' =>
      let f := default 0 (parent_files !! fd) in
      (if f =? 0 then kret tt
       else g <- call (e_filedup f) ;; upd_proc i (fun p => set_ofile (<[fd := g]> (ofile p)) p)) ;;
      dup_files i fds' parent_files
  end.

(** [fork] once it has the entry [np]. *)
Definition fork_into (np : nat) : K kern Z :=
  me <- cur ;;
  s <- kget ;;
  let p := getp s me in
  d <- call (e_copyuvm (pgdir p) (sz p)) ;;
  upd_proc np (fun q => set_vm (sz q) d q) ;;
  s <- kget ;;
  let undo :=
    call (e_kfree (kstack (getp s np))) ;;
    upd_proc np (set_kstack 0) ;;
    upd_proc np (set_state UNUSED) ;;
    kret (-1) in
  if d =? 0 then undo
  else if d =? pgdir p then undo
  else if pgdir_share_user_pt (env s) (pgdir p) d then
    call (e_freevm d) ;;
    upd_proc np (fun q => set_vm (sz q) 0 q) ;;
    undo
  else
    upd_proc np (set_vm (sz p) d) ;;
    upd_proc np (set_parent (Some me)) ;;
    upd_proc np (set_tfv {| tf_edi := tf_edi (tfv p); tf_esi := tf_esi (tfv p); tf_ebp := tf_ebp (tfv p);
      tf_oesp := tf_oesp (tfv p); tf_ebx := tf_ebx (tfv p); tf_edx := tf_edx (tfv p); tf_ecx := tf_ecx (tfv p);
      tf_eax := 0; tf_gs := tf_gs (tfv p); tf_fs := tf_fs (tfv p); tf_es := tf_es (tfv p);
      tf_ds := tf_ds (tfv p); tf_trapno := tf_trapno (tfv p); tf_err := tf_err (tfv p);
      tf_eip := tf_eip (tfv p); tf_cs := tf_cs (tfv p); tf_eflags := tf_eflags (tfv p);
      tf_esp := tf_esp (tfv p); tf_ss := tf_ss (tfv p) |}) ;;
    dup_files np (seq 0 NOFILE) (ofile p) ;;
    c <- call (e_idup (cwd p)) ;;
    upd_proc np (set_cwd c) ;;
    s <- kget ;;
    let pid_ := pid (getp s np) in
    upd_proc np (set_state RUNNABLE) ;;
    upd_proc np (fun q => set_name (name_copy (name p) (name q)) q) ;;
    kret pid_.

Definition fork : K kern Z :=
  o <- allocproc ;;
  match o with None => kret (-1) | Some np => fork_into np end.

(** ** Switching *)

(** What [scheduler] does after a process has given the processor up:
    [switchkvm] and [proc = 0], then the end of its round. *)
Definition swtch_to_scheduler : K kern unit :=
  kmodify (upd_core (fun c => {| c_cpu := c_cpu c; c_proc := None |})) ;;
  release ptable_lock.

(** [sched], up to the [swtch]. *)
Definition sched : K kern unit :=
  s <- kget ;;
  let c := c_cpu (cores s (me s)) in
  if negb (held ptable_lock s) then panic "sched ptable.lock"
  else if negb (ncli c =? 1) then panic "sched locks"
  else
    i <- cur ;;
    if bool_decide (state (getp s i) = RUNNING) then panic "sched running"
    else if eflags_IF c then panic "sched interruptible"
    else swtch_to_scheduler.

(** One turn of the loop of [scheduler], for the entry [i] of the table: the
    state returned with [true] is the one in which the process runs. *)
Definition scheduler_turn (i : nat) : K kern bool :=
  acquire ptable_lock ;;
  s <- kget ;;
  if bool_decide (state (getp s i) = RUNNABLE) then
    kmodify (upd_core (fun c => {| c_cpu := c_cpu c; c_proc := Some i |})) ;;
    upd_proc i (set_cpuid (me s)) ;;
    upd_proc i (set_state RUNNING) ;;
    kret true
  else release ptable_lock ;; kret false.

Definition forkret : K kern unit := release ptable_lock.

Definition yield_enter : K kern unit :=
  acquire ptable_lock ;;
  i <- cur ;;
  upd_proc i (set_state RUNNABLE) ;;
  sched.
Definition yield_resume : K kern unit := release ptable_lock.

(** ** Sleep and wakeup *)

Definition wakeup1_proc (ch : Z) (p : proc) : proc :=
  if bool_decide (state p = SLEEPING) && (chan p =? ch) then set_state RUNNABLE p else p.
Definition wakeup1 (ch : Z) : K kern unit := kmodify (upd_procs (fmap (wakeup1_proc ch))).

Definition wakeup (ch : Z) : K kern unit :=
  acquire ptable_lock ;; wakeup1 ch ;; release ptable_lock.

Definition sleep_enter (ch lk : Z) : K kern unit :=
  s <- kget ;;
  match proc_ s with
  | None => panic "sleep"
  | Some i =>
      if lk =? 0 then panic "sleep without lk"
      else
        (if negb (lk =? ptable_lock) then acquire ptable_lock ;; release lk else kret tt) ;;
        upd_proc i (set_chan ch) ;;
        upd_proc i (set_state SLEEPING) ;;
        sched
  end.

(** The rest of [sleep], entered from the scheduler with [ptable.lock] held. *)
Definition sleep_resume (lk : Z) : K kern unit :=
  i <- cur ;;
  upd_proc i (set_chan 0) ;;
  if negb (lk =? ptable_lock) then release ptable_lock ;; acquire lk else kret tt.

(** ** Exit, wait, kill *)

Fixpoint close_files (i : nat) (fds : list nat) : K kern unit :=
  match fds with
  | [] => kret tt
  | fd :: fds' =>
      s <- kget ;;
      let f := default 0 (ofile (getp s i) !! fd) in
      (if f =? 0 then kret tt
       else call (e_fileclose f) ;; upd_proc i (fun p => set_ofile (<[fd := 0]> (ofile p)) p)) ;;
      close_files i fds'
  end.

(** Pass the children of [i] to init. *)
Fixpoint reparent (i : nat) (js : list nat) : K kern unit :=
  match js with
  | [] => kret tt
  | j :: js' =>
      s <- kget ;;
      (if bool_decide (parent (getp s j) = Some i) then
         upd_proc j (set_parent (initproc s)) ;;
         if bool_decide (state (getp s j) = ZOMBIE) then wakeup1 (proc_addr (initproc s)) else kret tt
       else kret tt) ;;
      reparent i js'
  end.

Definition exit : K kern unit :=
  i <- cur ;;
  s <- kget ;;
  if bool_decide (initproc s = Some i) then panic "init exiting"
  else
    close_files i (seq 0 NOFILE) ;;
    call e_begin_trans ;;
    s <- kget ;;
    call (e_iput (cwd (getp s i))) ;;
    call e_commit_trans ;;
    upd_proc i (set_cwd 0) ;;
    acquire ptable_lock ;;
    s <- kget ;;
    wakeup1 (proc_addr (parent (getp s i))) ;;
    reparent i (seq 0 NPROC) ;;
    upd_proc i (set_state ZOMBIE) ;;
    sched.

(** The page directory of a zombie that may be freed, 0 for none. *)
Definition reapable_pgdir (e : E) (mine z : Z) : Z :=
  let z := if z =? mine then 0 else z in
  let z := if negb (z =? 0) && pgdir_share_user_pt e mine z then 0 else z in
  if negb (z =? 0) && (negb (z mod PGSIZE =? 0) || (z <? KERNBASE)) then 0 else z.

Definition reap (i j : nat) : K kern Z :=
  s <- kget ;;
  let p := getp s j in
  call (e_kfree (kstack p)) ;;
  upd_proc j (set_kstack 0) ;;
  s <- kget ;;
  let z := reapable_pgdir (env s) (pgdir (getp s i)) (pgdir p) in
  (if z =? 0 then kret tt else call (e_freevm z)) ;;
  upd_proc j (fun q => set_vm (sz q) 0 q) ;;
  upd_proc j (set_state UNUSED) ;;
  upd_proc j (set_pid 0) ;;
  upd_proc j (set_parent None) ;;
  upd_proc j (fun q => set_name (<[0%nat := 0]> (name q)) q) ;;
  upd_proc j (set_killed false) ;;
  release ptable_lock ;;
  kret (pid p).

Definition zombie_child (i : nat) (p : proc) : Prop := parent p = Some i /\ state p = ZOMBIE.

Inductive wait_result := Returned (r : Z) | Sleeping.

(** One turn of the loop of [wait], entered with [ptable.lock] held: it
    returns, or the process has gone to sleep on its own address. *)
Definition wait_turn : K kern wait_result :=
  i <- cur ;;
  s <- kget ;;
  match list_find (fun p => bool_decide (zombie_child i p)) (procs s) with
  | Some (j, _) => r <- reap i j ;; kret (Returned r)
  | None =>
      if negb (existsb (fun p => bool_decide (parent p = Some i)) (procs s)) || killed (getp s i)
      then release ptable_lock ;; kret (Returned (-1))
      else sleep_enter (proc_addr (Some i)) ptable_lock ;; kret Sleeping
  end.
Definition wait : K kern wait_result := acquire ptable_lock ;; wait_turn.

Definition kill (pid_ : Z) : K kern Z :=
  acquire ptable_lock ;;
  s <- kget ;;
  match list_find (fun p => pid p = pid_) (procs s) with
  | Some (i, p) =>
      upd_proc i (set_killed true) ;;
      (if bool_decide (state p = SLEEPING) then upd_proc i (set_state RUNNABLE) else kret tt) ;;
      release ptable_lock ;;
      kret 0
  | None => release ptable_lock ;; kret (-1)
  end.

Definition setfgpid (pid_ : Z) : K kern unit :=
  acquire ptable_lock ;; kmodify (set_fgpid pid_) ;; release ptable_lock.
Definition killfgproc : K kern Z :=
  acquire ptable_lock ;;
  s <- kget ;;
  release ptable_lock ;;
  if 0 <? console_fgpid s then kill (console_fgpid s) else kret (-1).
Definition proc_is_killed_current : K kern Z :=
  s <- kget ;;
  kret (match proc_ s with Some i => cbool (killed (getp s i)) | None => 0 end).
Definition rebooting (s : kern) : bool := negb (reboot_request s =? 0).

(** ** Listing *)

Record pinfo := { pi_pid : Z; pi_ppid : Z; pi_state : procstate; pi_cpu : nat; pi_sz : Z; pi_name : list Z }.

Fixpoint getprocs_loop (s : kern) (l : list proc) (max : nat) (old : list (list Z)) : list pinfo :=
  match l, max with
  | p :: l', S m =>
      if bool_decide (state p = UNUSED) then getprocs_loop s l' max old
      else {| pi_pid := pid p; pi_ppid := match parent p with Some q => pid (getp s q) | None => 0 end;
              pi_state := state p; pi_cpu := cpuid p; pi_sz := sz p;
              pi_name := name_copy (name p) (default (replicate 16 0) (head old)) |}
           :: getprocs_loop s l' m (tail old)
  | _, _ => []
  end.

(** [old]: the name bytes the caller's array held before. *)
Definition getprocs (max : nat) (old : list (list Z)) : K kern (list pinfo) :=
  acquire ptable_lock ;;
  s <- kget ;;
  release ptable_lock ;;
  kret (getprocs_loop s (procs s) max old).

(** ** The machine

    Processors interleave at the granularity of the calls below: everything a
    call does to the table happens under [ptable.lock], except for writes to
    the caller's own entry and to the [EMBRYO] entry a [fork] has reserved
    ([pend] holds it between the two halves of [fork]). *)

Record machine := { kst : kern; pend : nat -> option nat }.

Definition on (c : nat) (s : kern) : kern :=
  {| procs := procs s; locks := locks s; me := c; cores := cores s; nextpid := nextpid s;
     initproc := initproc s; console_fgpid := console_fgpid s; reboot_request := reboot_request s; env := env s |}.

(** How a process continues when it is scheduled. *)
Inductive resume := AfterFork | AfterYield | AfterSleep (lk : Z) | AfterWait.
Definition resume_at (r : resume) : K kern unit :=
  match r with
  | AfterFork => forkret
  | AfterYield => yield_resume
  | AfterSleep lk => sleep_resume lk
  | AfterWait => sleep_resume ptable_lock ;; _ <- wait_turn ;; kret tt
  end.
(** A [sleep] on [ptable.lock] itself is the one of [wait]. *)
Definition resume_ok (r : resume) : Prop := match r with AfterSleep lk => lk <> ptable_lock | _ => True end.
Definition schedule (i : nat) (r : resume) : K kern unit :=
  b <- scheduler_turn i ;; if b : bool then resume_at r else kret tt.

Definition ncli_of (s : kern) (c : nat) : Z := ncli (c_cpu (cores s c)).
Definition running (s : kern) (c : nat) : option nat := c_proc (cores s c).

Inductive mstep : machine -> machine -> Prop :=
| m_schedule c i r s s' pd : running s c = None -> resume_ok r ->
    schedule i r (on c s) = Done tt s' -> mstep {| kst := s; pend := pd |} {| kst := s'; pend := pd |}
| m_yield c s s' pd : pd c = None -> ncli_of s c = 0 ->
    yield_enter (on c s) = Done tt s' -> mstep {| kst := s; pend := pd |} {| kst := s'; pend := pd |}
| m_sleep c ch lk s s' pd : pd c = None -> lk <> ptable_lock -> (forall j, ch <> proc_addr (Some j)) ->
    sleep_enter ch lk (on c s) = Done tt s' -> mstep {| kst := s; pend := pd |} {| kst := s'; pend := pd |}
| m_wakeup c ch s s' pd :
    wakeup ch (on c s) = Done tt s' -> mstep {| kst := s; pend := pd |} {| kst := s'; pend := pd |}
| m_kill c p r s s' pd :
    kill p (on c s) = Done r s' -> mstep {| kst := s; pend := pd |} {| kst := s'; pend := pd |}
| m_exit c s s' pd : pd c = None -> ncli_of s c = 0 ->
    exit (on c s) = Done tt s' -> mstep {| kst := s; pend := pd |} {| kst := s'; pend := pd |}
| m_wait c r s s' pd : pd c = None -> ncli_of s c = 0 ->
    wait (on c s) = Done r s' -> mstep {| kst := s; pend := pd |} {| kst := s'; pend := pd |}
| m_alloc c o s s' pd : pd c = None -> running s c <> None -> nextpid s < 2 ^ 31 - 1 ->
    allocproc (on c s) = Done o s' -> mstep {| kst := s; pend := pd |} {| kst := s'; pend := fupd pd c o |}
| m_fork c np r s s' pd : pd c = Some np ->
    fork_into np (on c s) = Done r s' -> mstep {| kst := s; pend := pd |} {| kst := s'; pend := fupd pd c None |}
| m_lock c l s s' pd : l <> ptable_lock -> running s c <> None ->
    acquire l (on c s) = Done tt s' -> mstep {| kst := s; pend := pd |} {| kst := s'; pend := pd |}
| m_unlock c l s s' pd : l <> ptable_lock -> running s c <> None -> 0 < ncli_of s c ->
    release l (on c s) = Done tt s' -> mstep {| kst := s; pend := pd |} {| kst := s'; pend := pd |}.

(** ** The invariant *)

(** An entry that stands for a process of its own. *)
Definition live (st : procstate) : bool := match st with UNUSED => false | _ => true end.
(** A process that has been started and has not exited. *)
Definition alive (st : procstate) : bool :=
  match st with SLEEPING | RUNNABLE | RUNNING => true | _ => false end.
Definition started (st : procstate) : bool :=
  match st with SLEEPING | RUNNABLE | RUNNING | ZOMBIE => true | _ => false end.

Record table_inv (l : list proc) (run : nat -> option nat) (next : Z) (init : option nat)
    (pd : nat -> option nat) : Prop := {
  ti_len : length l = NPROC;
  ti_pid : forall i p, l !! i = Some p -> live (state p) = true -> 0 < pid p < next;
  ti_uniq : forall i j p q, l !! i = Some p -> l !! j = Some q -> live (state p) = true ->
    live (state q) = true -> pid p = pid q -> i = j;
  ti_run : forall c i, run c = Some i -> exists p, l !! i = Some p /\ state p = RUNNING;
  ti_run1 : forall c d i, run c = Some i -> run d = Some i -> c = d;
  ti_running : forall i p, l !! i = Some p -> state p = RUNNING -> exists c, run c = Some i;
  ti_init : exists i p, init = Some i /\ l !! i = Some p /\ alive (state p) = true;
  ti_parent : forall i p, l !! i = Some p -> started (state p) = true -> init = Some i \/
    exists j q, parent p = Some j /\ l !! j = Some q /\ alive (state q) = true;
  ti_self : forall i p, l !! i = Some p -> started (state p) = true ->
    parent p <> Some i /\ (init = Some i -> parent p = None);
  ti_pend : forall c i, pd c = Some i -> exists p, l !! i = Some p /\ state p = EMBRYO;
  ti_pend1 : forall c d i, pd c = Some i -> pd d = Some i -> c = d;
  ti_pendrun : forall c i, pd c = Some i -> run c <> None;
}.

Definition sleeping_on (ch : Z) (p : proc) : Prop := state p = SLEEPING /\ chan p = ch.

(** A process asleep in [wait] has no zombie child to collect. *)
Definition wait_ok (l : list proc) : Prop :=
  forall i p j q, l !! i = Some p -> l !! j = Some q -> parent q = Some i -> state q = ZOMBIE ->
    ~ sleeping_on (proc_addr (Some i)) p.

Definition tinv (l : list proc) (run : nat -> option nat) (next : Z) (init : option nat) (pd : nat -> option nat) : Prop :=
  table_inv l run next init pd /\ wait_ok l.

Definition cpu_ok (c : cpu) : Prop := 0 <= ncli c /\ (ncli c <> 0 -> eflags_IF c = false).

Record mach_inv (m : machine) : Prop := {
  mi_lock : locks (kst m) ptable_lock = false;
  mi_cpu : forall c, cpu_ok (c_cpu (cores (kst m) c));
  mi_table : tinv (procs (kst m)) (running (kst m)) (nextpid (kst m)) (initproc (kst m)) (pend m);
}.

(** *** Updates of the table *)

(** An entry may be woken, and its fields outside [key] may change. *)
Definition woken (p p' : proc) : Prop :=
  pid p' = pid p /\ parent p' = parent p /\
  (state p' = state p \/ (state p = SLEEPING /\ state p' = RUNNABLE)) /\
  (state p' = SLEEPING -> chan p' = chan p).

Lemma woken_refl p : woken p p.
Proof. split_and!; auto. Qed.

(** ... and, besides, be passed from [k] to init. *)
Definition adopted (k : nat) (init : option nat) (p p' : proc) : Prop :=
  pid p' = pid p /\ (parent p' = parent p \/ (parent p = Some k /\ parent p' = init)) /\
  (state p' = state p \/ (state p = SLEEPING /\ state p' = RUNNABLE)) /\
  (state p' = SLEEPING -> chan p' = chan p).

Lemma woken_adopted k init p p' : woken p p' -> adopted k init p p'.
Proof. intros (? & ? & ? & ?). by split_and!; [|left|..]. Qed.

Lemma table_inv_adopted k l l' run next init pd :
  Forall2 (adopted k init) l l' -> table_inv l run next init pd -> table_inv l' run next init pd.
Proof.
  intros F [H1 H2 H3 H4 H5 H6 H7 H8 Hslf H9 H10 H11].
  assert (Fr : forall i p', l' !! i = Some p' -> exists p, l !! i = Some p /\ adopted k init p p').
  { intros i p' Hp. destruct (Forall2_lookup_r _ _ _ _ _ F Hp) as (p & ? & ?). eauto. }
  assert (Fl : forall i p, l !! i = Some p -> exists p', l' !! i = Some p' /\ adopted k init p p').
  { intros i p Hp. destruct (Forall2_lookup_l _ _ _ _ _ F Hp) as (p' & ? & ?). eauto. }
  assert (Hst : forall p p', adopted k init p p' -> live (state p') = live (state p) /\ alive (state p') = alive (state p) /\
    started (state p') = started (state p)).
  { intros p p' (_ & _ & [->|[-> ->]] & _); done. }
  constructor; try done.
  - by rewrite <- (Forall2_length _ _ _ F).
  - intros i p' (p & Hp & Hw)%Fr Hl. destruct (Hst _ _ Hw) as (E1 & _). destruct Hw as (-> & _).
    apply (H2 i); [done|congruence].
  - intros i j p' q' (p & Hp & Hw)%Fr (q & Hq & Hw')%Fr Hl Hl' He.
    destruct (Hst _ _ Hw) as (E1 & _), (Hst _ _ Hw') as (E2 & _).
    destruct Hw as (Ep & _), Hw' as (Eq & _). apply (H3 i j p q); congruence.
  - intros c i (p & Hp & Hr)%H4. destruct (Fl _ _ Hp) as (p' & Hp' & _ & _ & [?|[? ?]] & _); [|congruence].
    exists p'. split; [done|congruence].
  - intros i p' (p & Hp & Hw)%Fr Hr. apply (H6 i p); [done|]. destruct Hw as (_ & _ & [?|[? ?]] & _); congruence.
  - destruct H7 as (i & p & Hi & Hp & Ha). destruct (Fl _ _ Hp) as (p' & Hp' & Hw). exists i, p'.
    split_and!; [done..|]. destruct (Hst _ _ Hw) as (_ & Ea & _). congruence.
  - intros i p' (p & Hp & Hw)%Fr Hs. destruct (Hst _ _ Hw) as (_ & _ & E3).
    destruct (H8 i p Hp) as [?|(j & q & Hq & Hj & Ha)]; [congruence|by left|right].
    assert (Hx : forall j q, l !! j = Some q -> alive (state q) = true ->
      exists q', l' !! j = Some q' /\ alive (state q') = true).
    { intros j0 q0 Hq0 Ha0. destruct (Fl _ _ Hq0) as (q' & Hq' & Hw'). destruct (Hst _ _ Hw') as (_ & E2 & _).
      exists q'. split; [done|congruence]. }
    destruct Hw as (_ & [Ep|[_ Ep]] & _).
    + destruct (Hx _ _ Hj Ha) as (q' & ? & ?). exists j, q'. split_and!; [congruence|done..].
    + destruct H7 as (i0 & p0 & Hi & Hp0 & Ha0). destruct (Hx _ _ Hp0 Ha0) as (q' & ? & ?).
      exists i0, q'. split_and!; [congruence|done..].
  - intros i p' (p & Hp & Hw)%Fr Hs. destruct (Hst _ _ Hw) as (_ & _ & E3).
    destruct (Hslf i p Hp ltac:(congruence)) as [Hs1 Hs2].
    destruct Hw as (_ & [->|[Hk ->]] & _); [done|]. split; intros Hini; specialize (Hs2 Hini); congruence.
  - intros c i (p & Hp & He)%H9. destruct (Fl _ _ Hp) as (p' & Hp' & _ & _ & [?|[? ?]] & _); [|congruence].
    exists p'. split; [done|congruence].
Qed.

Lemma tinv_woken l l' run next init pd :
  Forall2 woken l l' -> tinv l run next init pd -> tinv l' run next init pd.
Proof.
  intros F [T W]. split.
  - revert T. apply (table_inv_adopted 0). eapply Forall2_impl; [exact F|]. apply woken_adopted.
  - intros i p' j q' Hi Hj Hpar Hz [Hs Hc].
    destruct (Forall2_lookup_r _ _ _ _ _ F Hi) as (p & Hp & _ & _ & Hps & Hpc).
    destruct (Forall2_lookup_r _ _ _ _ _ F Hj) as (q & Hq & _ & Hqp & Hqs & _).
    apply (W i p j q Hp Hq); [congruence|destruct Hqs as [?|[? ?]]; congruence|].
    split; [destruct Hps as [?|[? ?]]; congruence|]. rewrite <- Hpc; done.
Qed.

Lemma wait_ok_insert l i p p' :
  l !! i = Some p -> wait_ok l ->
  (state p' = SLEEPING -> (state p = SLEEPING /\ chan p' = chan p) \/ (chan p' = proc_addr (Some i) ->
     forall j q, l !! j = Some q -> parent q = Some i -> state q <> ZOMBIE)) ->
  (state p' = ZOMBIE -> (state p = ZOMBIE /\ parent p' = parent p) \/
     forall k r, parent p' = Some k -> l !! k = Some r -> ~ sleeping_on (proc_addr (Some k)) r) ->
  wait_ok (<[i := p']> l).
Proof.
  intros Hi W H1 H2 k r j q Hk Hj Hpar Hz [Hs Hc].
  apply list_lookup_insert_Some in Hk as [(<- & <- & _)|(Hk' & Hk)];
    apply list_lookup_insert_Some in Hj as [(<- & <- & _)|(Hj' & Hj)]; [congruence| | |by apply (W k r j q); [..|split]].
  - destruct (H1 Hs) as [[? ?]|Hno]; [apply (W i p j q); [done..|split; congruence]|by eapply Hno].
  - destruct (H2 Hz) as [[? ?]|Hno]; [apply (W k r i p); [done|done|congruence|done|by split]|by apply (Hno k r); [..|split]].
Qed.

(** One entry is replaced. *)
Lemma table_inv_insert l run next init pd i p p' run' next' pd' :
  table_inv l run next init pd -> l !! i = Some p -> next <= next' ->
  (live (state p') = true -> (live (state p) = true /\ pid p' = pid p) \/ (pid p' = next /\ 0 < next < next')) ->
  (forall c j, j <> i -> run' c = Some j <-> run c = Some j) ->
  (forall c, run' c = Some i -> state p' = RUNNING) ->
  (forall c d, run' c = Some i -> run' d = Some i -> c = d) ->
  (state p' = RUNNING -> exists c, run' c = Some i) ->
  ((alive (state p) = true -> alive (state p') = true) \/
    (init <> Some i /\ parent p' <> Some i /\
     forall j q, l !! j = Some q -> started (state q) = true -> parent q <> Some i)) ->
  (started (state p') = true -> (started (state p) = true /\ parent p' = parent p) \/
     started (state p) = false /\ exists j q, j <> i /\ parent p' = Some j /\ l !! j = Some q /\ alive (state q) = true) ->
  (forall c j, pd' c = Some j -> (pd c = Some j /\ j <> i) \/ (j = i /\ state p' = EMBRYO)) ->
  (forall c d, pd' c = Some i -> pd' d = Some i -> c = d) ->
  (forall c j, pd' c = Some j -> run' c <> None) ->
  table_inv (<[i := p']> l) run' next' init pd'.
Proof.
  intros [H1 H2 H3 H4 H5 H6 H7 H8 Hslf H9 H10 H11] Hi Hnn Hlive Hrun Hr1 Hr2 Hr3 Hal Hst Hpd1 Hpd2 Hpd3.
  pose proof (lookup_lt_Some _ _ _ Hi) as Hlt.
  assert (Hlk : forall j q, <[i := p']> l !! j = Some q -> (j = i /\ q = p') \/ (j <> i /\ l !! j = Some q)).
  { intros j q [(-> & -> & _)|(? & ?)]%list_lookup_insert_Some; auto. }
  assert (Hself : <[i := p']> l !! i = Some p') by by apply list_lookup_insert_eq.
  assert (Hoth : forall j q, j <> i -> l !! j = Some q -> <[i := p']> l !! j = Some q).
  { intros j q ? ?. by rewrite list_lookup_insert_ne. }
  assert (Hpidlt : forall j q, l !! j = Some q -> live (state q) = true -> pid q < next) by (intros j q Hq Hl; apply (H2 j q Hq Hl)).
  constructor.
  - by rewrite length_insert.
  - intros j q [[-> ->]|[? Hq]]%Hlk Hl; [|specialize (H2 j q Hq Hl); lia].
    destruct (Hlive Hl) as [[Hl' ->]|[-> ?]]; [specialize (H2 i p Hi Hl'); lia|lia].
  - intros j k q r [[-> ->]|[? Hq]]%Hlk [[-> ->]|[? Hr]]%Hlk Hl Hl' He; [done| | |by apply (H3 j k q r)].
    + destruct (Hlive Hl) as [[Hl0 Ep]|[Ep ?]]; [apply (H3 i k p r); congruence|].
      specialize (Hpidlt k r Hr Hl'). lia.
    + destruct (Hlive Hl') as [[Hl0 Ep]|[Ep ?]]; [apply (H3 j i q p); congruence|].
      specialize (Hpidlt j q Hq Hl). lia.
  - intros c j Hc. destruct (decide (j = i)) as [->|Hj]; [eauto|].
    apply Hrun in Hc as (q & Hq & Hs)%H4; [|done]. eauto.
  - intros c d j Hc Hd. destruct (decide (j = i)) as [->|Hj]; [eauto|]. apply Hrun in Hc, Hd; eauto.
  - intros j q [[-> ->]|[Hj Hq]]%Hlk Hs; [by apply Hr3|]. destruct (H6 j q Hq Hs) as (c & Hc). exists c. by apply Hrun.
  - destruct H7 as (k & q & Hk & Hq & Ha). destruct (decide (k = i)) as [->|Hk'].
    + exists i, p'. split_and!; [done..|]. destruct Hal as [Hal|(? & _)]; [|congruence].
      apply Hal. congruence.
    + exists k, q. eauto.
  - assert (Hpar : forall j q, l !! j = Some q -> alive (state q) = true ->
      (forall k, Some j = Some k -> k = i -> alive (state p') = true) ->
      exists k r, Some j = Some k /\ <[i := p']> l !! k = Some r /\ alive (state r) = true).
    { intros j q Hq Ha Hsame. destruct (decide (j = i)) as [->|]; [exists i, p'|exists j, q]; eauto. }
    intros j q [[-> ->]|[Hj Hq]]%Hlk Hs.
    + destruct (Hst Hs) as [[Hs0 Epar]|(_ & k & r & Hk & Epar & Hr & Ha)]; [|right; exists k, r; eauto].
      destruct (H8 i p Hi Hs0) as [?|(k & r & Ek & Hr & Ha)]; [by left|right].
      rewrite Epar, Ek. apply (Hpar k r Hr Ha). intros k' [= <-] ->.
      destruct Hal as [Hal|(_ & Hne & _)]; [apply Hal; congruence|congruence].
    + destruct (H8 j q Hq Hs) as [?|(k & r & Ek & Hr & Ha)]; [by left|right].
      rewrite Ek. apply (Hpar k r Hr Ha). intros k' [= <-] ->.
      destruct Hal as [Hal|(_ & _ & Hne)]; [apply Hal; congruence|by destruct (Hne j q Hq Hs)].
  - intros j q [[-> ->]|[Hj Hq]]%Hlk Hs; [|by apply Hslf].
    destruct (Hst Hs) as [[Hs0 Epar]|(Hns & k & r & Hk & Epar & _)]; [rewrite Epar; by apply Hslf|].
    split; [congruence|]. intros Hini. destruct H7 as (i0 & p0 & Hi0 & Hp0 & Ha0).
    assert (p0 = p) as -> by congruence. by destruct (state p).
  - intros c j [[Hc Hj]|[-> He]]%Hpd1; [destruct (H9 c j Hc) as (q & ? & ?); eauto|eauto].
  - intros c d j Hc Hd. destruct (decide (j = i)) as [->|Hj]; [eauto|].
    destruct (Hpd1 c j Hc) as [[? _]|[? _]], (Hpd1 d j Hd) as [[? _]|[? _]]; naive_solver.
  - intros c j Hc. eauto.
Qed.

(** *** Symbolic execution of the calls *)

(** In the middle of a call: [ptable.lock] is held iff [b]. *)
Record mid (b : bool) (s : kern) (l : list proc) (run : nat -> option nat) (next : Z) (init : option nat) : Prop := {
  md_lock : locks s ptable_lock = b;
  md_cpu : forall c, cpu_ok (c_cpu (cores s c));
  md_ncli : b = true -> 0 < ncli_of s (me s);
  md_procs : procs s = l;
  md_run : forall c, running s c = run c;
  md_next : nextpid s = next;
  md_init : initproc s = init;
}.

Lemma cpu_ok_push c : cpu_ok c -> cpu_ok (pushcli c) /\ 0 < ncli (pushcli c).
Proof. intros [? ?]. split; [split; [simpl; lia|done]|simpl; lia]. Qed.

Lemma cpu_ok_pop c :
  cpu_ok c -> 0 < ncli c ->
  exists c', popcli c = Done tt c' /\ cpu_ok c' /\ ncli c' = ncli c - 1.
Proof.
  intros [H1 H2] Hn. specialize (H2 ltac:(lia)). destruct (decide (ncli c = 1)) as [E1|E1].
  - rewrite popcli_last by done. eexists. split; [done|]. simpl. split; [split; simpl; lia|lia].
  - rewrite popcli_inner by (done || lia). eexists. split; [done|]. simpl. split; [split; simpl; [lia|done]|lia].
Qed.

Lemma mid_start c m : mach_inv m -> mid false (on c (kst m)) (procs (kst m)) (running (kst m)) (nextpid (kst m)) (initproc (kst m)).
Proof. intros [H1 H2 H3]. by constructor. Qed.

Lemma running_set_held l b s c : running (set_held l b s) c = running s c.
Proof. unfold running. simpl. unfold fupd. by destruct (decide (c = me s)) as [->|]. Qed.

Lemma mid_acquire s l run next init :
  mid false s l run next init -> mid true (set_held ptable_lock true s) l run next init.
Proof.
  intros [H1 H2 H3 H4 H5 H6 H7]. destruct (cpu_ok_push _ (H2 (me s))) as [Hc Hn].
  constructor; simpl; try done.
  - unfold zupd. by rewrite Z.eqb_refl.
  - intros c. unfold fupd. destruct (decide (c = me s)); [done|apply H2].
  - intros _. unfold ncli_of. simpl. by rewrite fupd_same.
  - intros c. rewrite <- H5. apply running_set_held.
Qed.

Lemma mid_release s l run next init :
  mid true s l run next init -> mid false (set_held ptable_lock false s) l run next init.
Proof.
  intros [H1 H2 H3 H4 H5 H6 H7]. destruct (cpu_ok_pop _ (H2 (me s)) (H3 eq_refl)) as (c' & Ec & Hc & _).
  constructor; simpl; try done.
  - unfold zupd. by rewrite Z.eqb_refl.
  - intros c. unfold fupd. rewrite Ec. destruct (decide (c = me s)); [done|apply H2].
  - intros c. rewrite <- H5. apply running_set_held.
Qed.

Lemma mid_other b v s l run next init lk :
  lk <> ptable_lock -> (b = true -> v = true \/ 1 < ncli_of s (me s)) -> (v = false -> 0 < ncli_of s (me s)) ->
  mid b s l run next init -> mid b (set_held lk v s) l run next init.
Proof.
  intros Hlk Hb Hv [H1 H2 H3 H4 H5 H6 H7]. constructor; simpl; try done.
  - unfold zupd. destruct (Z.eqb_spec ptable_lock lk); congruence.
  - intros c. unfold fupd. destruct (decide (c = me s)) as [->|]; [|apply H2]. simpl.
    destruct v; [by apply cpu_ok_push|].
    destruct (cpu_ok_pop _ (H2 (me s)) (Hv eq_refl)) as (c' & -> & Hc & _). done.
  - intros Eb. unfold ncli_of. simpl. rewrite fupd_same. simpl. destruct v.
    + destruct (H2 (me s)). simpl. lia.
    + destruct (cpu_ok_pop _ (H2 (me s)) (Hv eq_refl)) as (c' & -> & _ & ->).
      unfold ncli_of in Hb. destruct (Hb Eb); [done|lia].
  - intros c. rewrite <- H5. apply running_set_held.
Qed.

Lemma mid_upd b s l run next init f :
  mid b s l run next init -> mid b (upd_procs f s) (f l) run next init.
Proof. intros [H1 H2 H3 H4 H5 H6 H7]. constructor; simpl; try done. congruence. Qed.

Lemma mid_env b s l run next init e : mid b s l run next init -> mid b (set_env e s) l run next init.
Proof. by intros [H1 H2 H3 H4 H5 H6 H7]. Qed.

Lemma mid_core b s l run next init o :
  mid b s l run next init ->
  mid b (upd_core (fun c => {| c_cpu := c_cpu c; c_proc := o |}) s) l (fupd run (me s) o) next init.
Proof.
  intros [H1 H2 H3 H4 H5 H6 H7]. constructor; simpl; try done.
  - intros c. unfold fupd. destruct (decide (c = me s)) as [->|]; apply H2.
  - unfold ncli_of. simpl. by rewrite fupd_same.
  - intros c. unfold running. simpl. unfold fupd. destruct (decide (c = me s)); [done|apply H5].
Qed.

Lemma mid_next b s l run next init v : mid b s l run next init -> mid b (set_nextpid v s) l run v init.
Proof. by intros [H1 H2 H3 H4 H5 H6 H7]. Qed.

Lemma mid_init b s l run next init o : mid b s l run next init -> mid b (set_initproc o s) l run next o.
Proof. by intros [H1 H2 H3 H4 H5 H6 H7]. Qed.

Create HintDb kmid.
#[local] Hint Resolve mid_acquire mid_release mid_upd mid_env mid_core mid_next : kmid.

Lemma table_inv_ext l run run' next init pd pd' :
  (forall c, run c = run' c) -> (forall c, pd c = pd' c) ->
  table_inv l run next init pd -> table_inv l run' next init pd'.
Proof.
  intros Hr Hd [H1 H2 H3 H4 H5 H6 H7 H8 Hslf H9 H10 H11]. constructor; try done.
  - intros c i. rewrite <- Hr. apply H4.
  - intros c d i. rewrite <- !Hr. apply H5.
  - intros i p Hi Hs. destruct (H6 i p Hi Hs) as (c & Hc). exists c. by rewrite <- Hr.
  - intros c i. rewrite <- Hd. apply H9.
  - intros c d i. rewrite <- !Hd. apply H10.
  - intros c i. rewrite <- Hd, <- Hr. apply H11.
Qed.

Lemma mid_end s l run next init pd :
  mid false s l run next init -> tinv l run next init pd -> mach_inv {| kst := s; pend := pd |}.
Proof.
  intros [H1 H2 H3 H4 H5 H6 H7] [Ht Hw]. constructor; simpl; try done. subst. split; [|done].
  by apply (table_inv_ext _ run _ _ _ pd).
Qed.

Lemma getp_lookup s i p : procs s !! i = Some p -> getp s i = p.
Proof. intros Hi. unfold getp. by rewrite Hi. Qed.

Lemma wakeup1_woken ch l : Forall2 woken l (wakeup1_proc ch <$> l).
Proof.
  induction l as [|p l IH]; constructor; [|done]. unfold wakeup1_proc.
  case_bool_decide; simpl; [|apply woken_refl]. destruct (_ =? _); [|apply woken_refl].
  split_and!; simpl; auto.
Qed.

Lemma insert_woken (l : list proc) (i : nat) p p' : l !! i = Some p -> woken p p' -> Forall2 woken l (<[i := p']> l).
Proof.
  intros Hi Hw. apply Forall2_same_length_lookup. rewrite length_insert. split; [done|].
  intros j x y Hx [(-> & -> & _)|(? & ?)]%list_lookup_insert_Some; [congruence|].
  simplify_eq. apply woken_refl.
Qed.

Lemma wlp_call {A} (m : K E A) (Q : A -> kern -> Prop) s :
  (forall a e, Q a (set_env e s)) -> wlp (call m) Q s.
Proof. intros HQ. apply wlp_zoom. unfold wlp. destruct (m (env s)); auto. Qed.

Lemma wlp_cur (Q : nat -> kern -> Prop) s :
  (forall i, running s (me s) = Some i -> Q i s) -> wlp cur Q s.
Proof. intros HQ. unfold cur. ksteps. unfold proc_. unfold running in HQ. destruct (c_proc _); [by apply HQ|done]. Qed.

(** Steps of the calls of this file. *)
Ltac pstep :=
  lazymatch goal with
  | |- wlp (acquire _) _ _ => apply wlp_acquire; intros ?
  | |- wlp (release _) _ _ => apply wlp_release; intros ?
  | |- wlp (call _) _ _ => apply wlp_call; intros ? ?
  | |- wlp (upd_proc _ _) _ _ => apply wlp_modify
  | |- wlp (wakeup1 _) _ _ => apply wlp_modify
  | |- _ => kstep
  end; cbn beta.
Ltac psteps := repeat pstep.

Lemma inv_wakeup c ch s pd :
  mach_inv {| kst := s; pend := pd |} ->
  wlp (wakeup ch) (fun _ s' => mach_inv {| kst := s'; pend := pd |}) (on c s).
Proof.
  intros I. pose proof (mid_start c _ I) as M. unfold wakeup. psteps.
  eapply mid_end; [eauto with kmid|]. eapply tinv_woken; [apply wakeup1_woken|apply (mi_table _ I)].
Qed.

Lemma inv_kill c p s pd :
  mach_inv {| kst := s; pend := pd |} ->
  wlp (kill p) (fun _ s' => mach_inv {| kst := s'; pend := pd |}) (on c s).
Proof.
  intros I. pose proof (mid_start c _ I) as M. unfold kill. psteps.
  destruct (list_find _ _) as [[i q]|] eqn:Ef; psteps; [|eapply mid_end; [eauto with kmid|apply (mi_table _ I)]].
  apply list_find_Some in Ef as (Hq & _ & _). cbn [procs set_held kern_locks on] in Hq.
  case_bool_decide as Hs; psteps.
  - eapply mid_end; [eauto with kmid|].
    eapply tinv_woken; [|apply (mi_table _ I)]. cbn [kst].
    rewrite (alter_insert _ _ _ _ Hq). erewrite (alter_insert _ _ _ (set_killed true q)).
    2:{ apply list_lookup_insert_eq. by eapply lookup_lt_Some. }
    rewrite list_insert_insert_eq. apply (insert_woken _ _ q); [done|]. split_and!; simpl; auto.
  - eapply mid_end; [eauto with kmid|].
    eapply tinv_woken; [|apply (mi_table _ I)]. cbn [kst].
    rewrite (alter_insert _ _ _ _ Hq). apply (insert_woken _ _ q); [done|]. split_and!; simpl; auto.
Qed.

(** A process leaves the processor [c]. *)
Lemma tinv_leave l run next init pd c i p p' :
  tinv l run next init pd -> run c = Some i -> l !! i = Some p -> pd c = None ->
  pid p' = pid p -> parent p' = parent p ->
  (state p' = RUNNABLE \/
   (state p' = SLEEPING /\ (chan p' = proc_addr (Some i) ->
      forall j q, l !! j = Some q -> parent q = Some i -> state q <> ZOMBIE)) \/
   (state p' = ZOMBIE /\ init <> Some i /\ parent p <> Some i /\
    (forall j q, l !! j = Some q -> started (state q) = true -> parent q <> Some i) /\
    (forall k r, parent p = Some k -> l !! k = Some r -> ~ sleeping_on (proc_addr (Some k)) r))) ->
  tinv (<[i := p']> l) (fupd run c None) next init pd.
Proof.
  intros [T W] Hc Hi Hpd Hpid Hpar Hst. split.
  2:{ eapply wait_ok_insert; [done..| |]; destruct Hst as [->|[(-> & Hz)|(-> & _ & _ & _ & Hz)]]; try done; auto.
      intros _. right. by rewrite Hpar. }
  destruct (ti_run _ _ _ _ _ T c i Hc) as (p0 & Hi' & Hrun). simplify_eq.
  assert (Hno : forall d, fupd run c None d <> Some i).
  { intros d. unfold fupd. destruct (decide (d = c)); [done|]. intros Hd.
    by pose proof (ti_run1 _ _ _ _ _ T c d i Hc Hd). }
  assert (Hs : live (state p') = true /\ started (state p') = true /\ state p' <> RUNNING).
  { destruct Hst as [->|[(-> & _)|(-> & _)]]; done. }
  eapply table_inv_insert; eauto; try lia.
  - intros _. left. by rewrite Hrun.
  - intros d j Hj. unfold fupd. destruct (decide (d = c)) as [->|]; [|done].
    rewrite Hc. split; [done|congruence].
  - intros d Hd. by apply Hno in Hd.
  - intros d e Hd. by apply Hno in Hd.
  - tauto.
  - destruct Hst as [->|[(-> & _)|(-> & Hz)]]; [by left|by left|right]. rewrite Hpar. tauto.
  - intros _. left. by rewrite Hrun.
  - intros d j Hd. left. split; [done|]. intros ->.
    destruct (ti_pend _ _ _ _ _ T d i Hd) as (q & ? & ?). congruence.
  - intros d e Hd He. by apply (ti_pend1 _ _ _ _ _ T d e i).
  - intros d j Hd. unfold fupd. destruct (decide (d = c)) as [->|]; [congruence|].
    by apply (ti_pendrun _ _ _ _ _ T d j).
Qed.

(** The scheduler of the idle processor [c] picks [i]. *)
Lemma tinv_pick l run next init pd c i p p' :
  tinv l run next init pd -> run c = None -> l !! i = Some p -> state p = RUNNABLE ->
  pid p' = pid p -> parent p' = parent p -> state p' = RUNNING ->
  tinv (<[i := p']> l) (fupd run c (Some i)) next init pd.
Proof.
  intros [T W] Hc Hi Hst Hpid Hpar Hst'. split; [|by eapply wait_ok_insert; [done..| |]; rewrite Hst'].
  assert (Hno : forall d, run d <> Some i).
  { intros d (q & ? & ?)%(ti_run _ _ _ _ _ T). congruence. }
  eapply table_inv_insert; eauto; rewrite ?Hst, ?Hst'; try lia; auto.
  - intros d j Hj. unfold fupd. destruct (decide (d = c)) as [->|]; [|done].
    rewrite Hc. split; [congruence|done].
  - intros d e. unfold fupd. repeat destruct (decide (_ = c)); try congruence; intros ??; by destruct (Hno d) || destruct (Hno e).
  - intros _. exists c. by rewrite fupd_same.
  - intros d j Hd. left. split; [done|]. intros ->.
    destruct (ti_pend _ _ _ _ _ T d i Hd) as (q & ? & ?). congruence.
  - intros d e Hd He. by apply (ti_pend1 _ _ _ _ _ T d e i).
  - intros d j Hd. unfold fupd. destruct (decide (d = c)) as [->|]; [done|].
    by apply (ti_pendrun _ _ _ _ _ T d j).
Qed.

Lemma wlp_sched (Q : unit -> kern -> Prop) s l run next init :
  mid true s l run next init ->
  (forall s', mid false s' l (fupd run (me s) None) next init -> Q tt s') -> wlp sched Q s.
Proof.
  intros M HQ. unfold sched, swtch_to_scheduler. ksteps. destruct (negb _); [done|].
  destruct (negb _); [done|]. psteps. apply wlp_cur. intros i _.
  case_bool_decide; [done|]. destruct (eflags_IF _); [done|]. psteps. apply HQ.
  eauto with kmid.
Qed.

Lemma inv_yield c s pd :
  mach_inv {| kst := s; pend := pd |} -> pd c = None ->
  wlp yield_enter (fun _ s' => mach_inv {| kst := s'; pend := pd |}) (on c s).
Proof.
  intros I Hpd. pose proof (mid_start c _ I) as M. unfold yield_enter. psteps. apply wlp_cur. intros i Hi.
  psteps. eapply wlp_sched; [eauto with kmid|]. intros s' M'. eapply mid_end; [exact M'|]. cbn [kst me set_held kern_locks upd_procs on].
  rewrite running_set_held in Hi. change (running s c = Some i) in Hi.
  destruct (ti_run _ _ _ _ _ (proj1 (mi_table _ I)) c i Hi) as (p & Hp & _). cbn [kst] in Hp. rewrite (alter_insert _ _ _ _ Hp).
  eapply tinv_leave; [apply (mi_table _ I)|done..|]. by left.
Qed.

Lemma wlp_sched_ncli (Q : unit -> kern -> Prop) s : ncli_of s (me s) <> 1 -> wlp sched Q s.
Proof.
  intros Hn. unfold sched. ksteps. destruct (negb _); [done|].
  apply Z.eqb_neq in Hn. unfold ncli_of in Hn. by rewrite Hn.
Qed.

Lemma ncli_set_held l b s :
  cpu_ok (c_cpu (cores s (me s))) -> (b = false -> 0 < ncli_of s (me s)) ->
  ncli_of (set_held l b s) (me s) = ncli_of s (me s) + if b then 1 else -1.
Proof.
  intros Hc Hb. unfold ncli_of in *. simpl. rewrite fupd_same. simpl. destruct b; [done|].
  destruct (cpu_ok_pop _ Hc (Hb eq_refl)) as (c' & -> & _ & ->). lia.
Qed.

(** The body of [sleep], from the table lock being held. *)
Lemma inv_sleep_locked s l run next init pd i ch p :
  mid true s l run next init -> tinv l run next init pd -> pd (me s) = None ->
  run (me s) = Some i -> l !! i = Some p ->
  (ch = proc_addr (Some i) -> forall j q, l !! j = Some q -> parent q = Some i -> state q <> ZOMBIE) ->
  wlp (upd_proc i (set_chan ch) ;; upd_proc i (set_state SLEEPING) ;; sched)
    (fun _ s' => mach_inv {| kst := s'; pend := pd |}) s.
Proof.
  intros M T Hpd Hi Hp Hz. psteps. eapply wlp_sched; [eauto with kmid|]. intros s' M'.
  eapply mid_end; [exact M'|]. cbn [me upd_procs].
  rewrite (alter_insert _ _ _ _ Hp). erewrite (alter_insert _ _ _ (set_chan ch p)).
  2:{ apply list_lookup_insert_eq. by eapply lookup_lt_Some. }
  rewrite list_insert_insert_eq. eapply tinv_leave; [done..|]. right. left. done.
Qed.

Lemma inv_sleep c ch lk s pd :
  mach_inv {| kst := s; pend := pd |} -> pd c = None -> lk <> ptable_lock ->
  (forall j, ch <> proc_addr (Some j)) ->
  wlp (sleep_enter ch lk) (fun _ s' => mach_inv {| kst := s'; pend := pd |}) (on c s).
Proof.
  intros I Hpd Hlk Hch. pose proof (mid_start c _ I) as M. unfold sleep_enter. apply wlp_bind, wlp_get.
  unfold proc_. destruct (c_proc _) as [i|] eqn:Hi; [|done]. change (running s c = Some i) in Hi.
  destruct (lk =? 0); [done|]. apply Z.eqb_neq in Hlk as Hlk'. rewrite Hlk'. cbn [negb].
  apply wlp_bind, wlp_bind. pstep. pstep.
  set (s1 := set_held ptable_lock true (on c s)).
  assert (M1 : mid true s1 (procs s) (running s) (nextpid s) (initproc s)) by by apply mid_acquire.
  assert (En : ncli_of s1 c = ncli_of s c + 1).
  { apply (ncli_set_held ptable_lock true (on c s)); [apply (mi_cpu _ I)|done]. }
  pose proof (proj1 (mi_cpu _ I c)) as Hge. cbn [kst] in Hge. change (0 <= ncli_of s c) in Hge.
  destruct (ti_run _ _ _ _ _ (proj1 (mi_table _ I)) c i Hi) as (p & Hp & _). cbn [kst] in Hp.
  destruct (decide (ncli_of s c = 0)) as [E0|E0].
  - psteps. apply wlp_sched_ncli. cbn [me upd_procs].
    change (ncli_of (set_held lk false s1) c <> 1).
    pose proof (ncli_set_held lk false s1 (md_cpu _ _ _ _ _ _ M1 c)) as Hn. change (me s1) with c in Hn. lia.
  - eapply (inv_sleep_locked (set_held lk false s1)); [|apply (mi_table _ I)|done..|intros ?; by destruct (Hch i)].
    apply mid_other; [done| | |done]; intros; [right|]; change (me s1) with c; lia.
Qed.

(** *** Wait *)

Lemma tinv_reap l run next init pd j p p' :
  tinv l run next init pd -> l !! j = Some p -> state p = ZOMBIE -> state p' = UNUSED ->
  tinv (<[j := p']> l) run next init pd.
Proof.
  intros [T W] Hj Hz Hu. split; [|by eapply wait_ok_insert; [done..| |]; rewrite Hu].
  assert (Hno : forall d, run d <> Some j).
  { intros d (q & ? & ?)%(ti_run _ _ _ _ _ T). congruence. }
  eapply table_inv_insert; eauto; rewrite ?Hz, ?Hu; try lia; try done; auto.
  - intros d Hd. by apply Hno in Hd.
  - intros d e Hd. by apply Hno in Hd.
  - intros d k Hd. left. split; [done|]. intros ->.
    destruct (ti_pend _ _ _ _ _ T d j Hd) as (q & ? & ?). congruence.
  - intros d e Hd He. by apply (ti_pend1 _ _ _ _ _ T d e j).
  - apply (ti_pendrun _ _ _ _ _ T).
Qed.

(** The same entry again and again. *)
Lemma lookup_alter_self (f : proc -> proc) (i : nat) (l : list proc) p :
  l !! i = Some p -> alter f i l !! i = Some (f p).
Proof. intros Hi. by rewrite list_lookup_alter_eq, Hi. Qed.

Lemma mid_upd_proc b s l run next init i f p :
  l !! i = Some p -> mid b s l run next init -> mid b (upd_procs (alter f i) s) (<[i := f p]> l) run next init.
Proof. intros Hi M. rewrite <- (alter_insert _ _ _ _ Hi). by apply mid_upd. Qed.

Lemma mid_upd_again b s l run next init i f p q :
  l !! i = Some q -> mid b s (<[i := p]> l) run next init -> mid b (upd_procs (alter f i) s) (<[i := f p]> l) run next init.
Proof.
  intros Hi M. rewrite <- (list_insert_insert_eq l i (f p) p). eapply mid_upd_proc; [|done].
  apply list_lookup_insert_eq. by eapply lookup_lt_Some.
Qed.

Lemma inv_reap i j s l run next init pd p :
  mid true s l run next init -> tinv l run next init pd -> l !! j = Some p -> state p = ZOMBIE ->
  wlp (reap i j) (fun _ s' => mach_inv {| kst := s'; pend := pd |}) s.
Proof.
  intros M T Hj Hz. unfold reap. psteps.
  match goal with |- context [if ?z =? 0 then _ else _] => set (zp := z) end.
  match goal with |- wlp _ ?Q ?s0 => assert (Hk : forall t, mid true t (<[j := set_kstack 0 p]> l) run next init -> Q tt t) end.
  { intros t Mt. cbn beta. psteps. eapply mid_end.
    - apply mid_release. repeat (eapply mid_upd_again; [exact Hj|]). exact Mt.
    - by eapply tinv_reap. }
  destruct (zp =? 0); [apply wlp_ret|apply wlp_call; intros ? ?]; apply Hk; [|apply mid_env]; (eapply mid_upd_proc; [exact Hj|by apply mid_env]).
Qed.

Lemma inv_wait_turn s l run next init pd :
  mid true s l run next init -> tinv l run next init pd -> pd (me s) = None ->
  wlp wait_turn (fun _ s' => mach_inv {| kst := s'; pend := pd |}) s.
Proof.
  intros M T Hpd. unfold wait_turn. apply wlp_bind, wlp_cur. intros i Hi. psteps.
  rewrite (md_procs _ _ _ _ _ _ M), (md_run _ _ _ _ _ _ M) in *.
  destruct (list_find _ _) as [[j p]|] eqn:Ef.
  - apply list_find_Some in Ef as (Hj & [_ Hz]%bool_decide_unpack & _).
    psteps. by eapply wlp_mono; [eapply inv_reap|].
  - destruct (negb _ || _); psteps.
    { eapply mid_end; [by apply mid_release|done]. }
    eapply wlp_mono; [|intros ?? Hm; psteps; exact Hm].
    unfold sleep_enter. apply wlp_bind, wlp_get.
    destruct (proc_ s) as [i'|] eqn:Hi'; [|done].
    assert (i' = i) as ->.
    { pose proof (md_run _ _ _ _ _ _ M (me s)) as Hr. unfold running, proc_ in *. congruence. }
    destruct (ptable_lock =? 0); [done|]. rewrite Z.eqb_refl. cbn [negb]. apply wlp_bind, wlp_ret.
    destruct (ti_run _ _ _ _ _ (proj1 T) _ _ Hi) as (p & Hp & _). eapply inv_sleep_locked; [done..|].
    intros _ j q Hj Hpar Hz. apply list_find_None in Ef. rewrite Forall_forall in Ef.
    apply (Ef q); [by eapply list_elem_of_lookup_2|]. apply bool_decide_pack. done.
Qed.

Lemma inv_wait c s pd :
  mach_inv {| kst := s; pend := pd |} -> pd c = None ->
  wlp wait (fun _ s' => mach_inv {| kst := s'; pend := pd |}) (on c s).
Proof.
  intros I Hpd. pose proof (mid_start c _ I) as M. unfold wait. psteps.
  by eapply inv_wait_turn; [apply mid_acquire, M|apply (mi_table _ I)|].
Qed.

(** *** Scheduling *)

Lemma inv_resume s l run next init pd r :
  mid true s l run next init -> tinv l run next init pd -> pd (me s) = None -> resume_ok r ->
  wlp (resume_at r) (fun _ s' => mach_inv {| kst := s'; pend := pd |}) s.
Proof.
  intros M T Hpd Hr.
  assert (Hchan : forall i, running s (me s) = Some i -> mid true (upd_procs (alter (set_chan 0) i) s)
    (alter (set_chan 0) i l) run next init /\ tinv (alter (set_chan 0) i l) run next init pd).
  { intros i Hi. rewrite (md_run _ _ _ _ _ _ M) in Hi. split; [by apply mid_upd|].
    destruct (ti_run _ _ _ _ _ (proj1 T) _ _ Hi) as (p & Hp & Hrun). rewrite (alter_insert _ _ _ _ Hp).
    eapply tinv_woken; [|exact T]. apply (insert_woken _ _ p); [done|]. split_and!; simpl; auto. congruence. }
  destruct r as [| |lk|]; simpl resume_at.
  - unfold forkret. psteps. eauto using mid_end, mid_release.
  - unfold yield_resume. psteps. eauto using mid_end, mid_release.
  - unfold sleep_resume. apply wlp_bind, wlp_cur. intros i [M1 T1]%Hchan. psteps.
    destruct (Z.eqb_spec lk ptable_lock) as [->|Hlk]; cbn [negb]; psteps; [done|].
    eapply mid_end; [|exact T1]. apply mid_other; [done..|]. by apply mid_release.
  - unfold sleep_resume. apply wlp_bind, wlp_bind, wlp_cur. intros i [M1 T1]%Hchan. psteps.
    rewrite Z.eqb_refl. cbn [negb]. psteps. eapply wlp_mono; [by eapply inv_wait_turn|done].
Qed.

Lemma inv_schedule c i r s pd :
  mach_inv {| kst := s; pend := pd |} -> running s c = None -> resume_ok r ->
  wlp (schedule i r) (fun _ s' => mach_inv {| kst := s'; pend := pd |}) (on c s).
Proof.
  intros I Hc Hr. pose proof (mid_start c _ I) as M. cbn [kst] in M. pose proof (mi_table _ I) as T. cbn [kst pend] in T.
  unfold schedule, scheduler_turn. psteps. apply mid_acquire in M.
  case_bool_decide as Hrun; psteps; [|by eapply mid_end; [apply mid_release|]].
  unfold getp in Hrun. cbn [procs set_held kern_locks on] in Hrun.
  destruct (procs s !! i) as [p|] eqn:Hp; simpl in Hrun; [|done].
  eapply inv_resume; [| | |done].
  - eapply mid_upd_again; [exact Hp|]. eapply mid_upd_proc; [exact Hp|]. apply mid_core, M.
  - by eapply tinv_pick.
  - cbn [me upd_procs upd_core set_held kern_locks on]. destruct (pd c) eqn:Hpd; [|done].
    by apply (ti_pendrun _ _ _ _ _ (proj1 T)) in Hpd.
Qed.

Lemma wlp_close_files b i fds : forall s l run next init p,
  mid b s l run next init -> l !! i = Some p ->
  wlp (close_files i fds) (fun _ s' => exists o, me s' = me s /\
    mid b s' (<[i := set_ofile o p]> l) run next init) s.
Proof.
  induction fds as [|fd fds IH]; intros s l run next init p M Hi; cbn [close_files].
  - psteps. exists (ofile p). replace (set_ofile (ofile p) p) with p by by destruct p. by rewrite list_insert_id.
  - apply wlp_bind, wlp_get. apply wlp_bind. destruct (_ =? 0); psteps; [by apply IH|].
    eapply wlp_mono; [eapply IH; [eapply mid_upd_proc; [exact Hi|by apply mid_env]|]|].
    { apply list_lookup_insert_eq. by eapply lookup_lt_Some. }
    intros _ s' (o & Hm & M'). exists o. rewrite list_insert_insert_eq in M'. done.
Qed.

Lemma wlp_dup_files b i pf fds : forall s l run next init p,
  mid b s l run next init -> l !! i = Some p ->
  wlp (dup_files i fds pf) (fun _ s' => exists o, me s' = me s /\
    mid b s' (<[i := set_ofile o p]> l) run next init) s.
Proof.
  induction fds as [|fd fds IH]; intros s l run next init p M Hi; cbn [dup_files].
  - psteps. exists (ofile p). replace (set_ofile (ofile p) p) with p by by destruct p. by rewrite list_insert_id.
  - apply wlp_bind. destruct (_ =? 0); psteps; [by apply IH|].
    eapply wlp_mono; [eapply IH; [eapply mid_upd_proc; [exact Hi|by apply mid_env]|]|].
    { apply list_lookup_insert_eq. by eapply lookup_lt_Some. }
    intros _ s' (o & Hm & M'). exists o. rewrite list_insert_insert_eq in M'. done.
Qed.

Lemma adopted_trans k init p q r : init <> Some k -> adopted k init p q -> adopted k init q r -> adopted k init p r.
Proof.
  intros Hk (E1 & E2 & E3 & E4) (F1 & F2 & F3 & F4). split_and!; [congruence| | |].
  - destruct E2 as [E2|[? E2]], F2 as [F2|[? F2]]; rewrite ?E2 in *; auto; right; split; congruence.
  - destruct E3 as [E3|[? E3]], F3 as [F3|[? F3]]; rewrite ?E3 in *; auto; try congruence; right; split; congruence.
  - intros Hr. assert (state q = SLEEPING) by (destruct F3 as [?|[? ?]]; congruence). rewrite F4, E4; done.
Qed.

Lemma adopted_sleeping k init p p' ch : adopted k init p p' -> sleeping_on ch p' -> sleeping_on ch p.
Proof.
  intros (_ & _ & Hs & Hc) [H1 H2]. specialize (Hc H1). split; [|congruence]. destruct Hs as [?|[? ?]]; congruence.
Qed.

Lemma adopted_list_trans k init l1 l2 l3 :
  init <> Some k -> Forall2 (adopted k init) l1 l2 -> Forall2 (adopted k init) l2 l3 -> Forall2 (adopted k init) l1 l3.
Proof.
  intros Hk F1. revert l3. induction F1 as [|p q l1 l2 Hpq F1 IH]; intros l3 F2; inversion F2; subst; constructor; eauto.
  by eapply adopted_trans.
Qed.

Lemma wakeup1_adopted k init ch l : Forall2 (adopted k init) l (wakeup1_proc ch <$> l).
Proof. eapply Forall2_impl; [apply wakeup1_woken|apply woken_adopted]. Qed.

Lemma adopted_refl k init l : Forall2 (adopted k init) l l.
Proof. induction l; constructor; [apply woken_adopted, woken_refl|done]. Qed.

Lemma parent_wakeup1 ch p : parent (wakeup1_proc ch p) = parent p.
Proof. unfold wakeup1_proc. by destruct (_ && _). Qed.

Lemma wakeup1_sleeping ch ch' (l : list proc) (j : nat) p :
  (wakeup1_proc ch <$> l) !! j = Some p -> sleeping_on ch' p -> ch' <> ch /\ exists q, l !! j = Some q /\ sleeping_on ch' q.
Proof.
  intros Hp Hs. rewrite list_lookup_fmap in Hp. apply fmap_Some in Hp as (q & Hq & ->).
  unfold wakeup1_proc in Hs. case_bool_decide as Hst; simpl in Hs.
  - destruct (Z.eqb_spec (chan q) ch); [by destruct Hs|]. split; [|by eauto]. intros ->. by destruct Hs.
  - by destruct Hs.
Qed.

(** A zombie is passed to init, and init is woken. *)
Lemma wait_ok_adopt (l : list proc) (j : nat) p init :
  l !! j = Some p -> wait_ok l -> wait_ok (wakeup1_proc (proc_addr init) <$> <[j := set_parent init p]> l).
Proof.
  intros Hj W k r j' q Hk Hj' Hpar Hz Hs.
  destruct (wakeup1_sleeping _ _ _ _ _ Hk Hs) as (Hne & r0 & Hr0 & Hs0).
  rewrite list_lookup_fmap in Hj'. apply fmap_Some in Hj' as (q0 & Hq0 & ->).
  assert (parent q0 = Some k /\ state q0 = ZOMBIE) as [Hp0 Hz0].
  { unfold wakeup1_proc in Hpar, Hz. by destruct (_ && _). }
  assert (exists r1, l !! k = Some r1 /\ sleeping_on (proc_addr (Some k)) r1) as (r1 & Hr1 & Hs1).
  { apply list_lookup_insert_Some in Hr0 as [(<- & <- & _)|(? & ?)]; eauto. }
  apply list_lookup_insert_Some in Hq0 as [(<- & <- & _)|(? & Hq0)].
  - simpl in Hp0. congruence.
  - by apply (W k r1 j' q0).
Qed.

(** After [reparent i js] no entry of [js] has [i] for its parent. *)
Lemma wlp_reparent i js : forall s l run next init,
  mid true s l run next init -> init <> Some i ->
  wlp (reparent i js) (fun _ s' => exists l', me s' = me s /\ mid true s' l' run next init /\
    Forall2 (adopted i init) l l' /\ (wait_ok l -> wait_ok l') /\
    forall j q, j ∈ js -> l' !! j = Some q -> parent q <> Some i) s.
Proof.
  induction js as [|j js IH]; intros s l run next init M Hi; cbn [reparent].
  - psteps. exists l. split_and!; [done..|apply adopted_refl|done|]. intros j q Hj. by apply elem_of_nil in Hj.
  - psteps. rewrite (md_init _ _ _ _ _ _ M). unfold getp. rewrite (md_procs _ _ _ _ _ _ M).
    assert (Hk : forall t l1, me t = me s -> mid true t l1 run next init -> Forall2 (adopted i init) l l1 ->
      (wait_ok l -> wait_ok l1) -> (forall q, l1 !! j = Some q -> parent q <> Some i) ->
      wlp (reparent i js) (fun _ s' => exists l', me s' = me s /\ mid true s' l' run next init /\
        Forall2 (adopted i init) l l' /\ (wait_ok l -> wait_ok l') /\ forall j0 q, j0 ∈ j :: js -> l' !! j0 = Some q -> parent q <> Some i) t).
    { intros t l1 Hm M1 F1 W1 Hj. eapply wlp_mono; [by eapply IH|]. intros _ s' (l' & Hm' & M' & F' & W' & Hn).
      exists l'. split_and!; [congruence|done|by eapply adopted_list_trans|auto|].
      intros k q [->|Hin]%elem_of_cons Hq; [|by eapply Hn].
      destruct (Forall2_lookup_r _ _ _ _ _ F' Hq) as (q1 & Hq1 & _ & [E1|[E1 _]] & _);
        [rewrite E1; by apply Hj|by apply Hj in Hq1]. }
    destruct (l !! j) as [p|] eqn:Hp; simpl.
    2:{ cbn. psteps. eapply Hk; [done|exact M|apply adopted_refl|done|]. intros q Hq. congruence. }
    case_bool_decide as Hpar; psteps.
    2:{ eapply Hk; [done|exact M|apply adopted_refl|done|]. intros q Hq. congruence. }
    pose proof (mid_upd_proc _ _ _ _ _ _ _ (set_parent init) _ Hp M) as M1.
    assert (F1 : Forall2 (adopted i init) l (<[j := set_parent init p]> l)).
    { apply Forall2_same_length_lookup. rewrite length_insert. split; [done|].
      intros k x y Hx [(<- & <- & _)|(? & ?)]%list_lookup_insert_Some.
      - simplify_eq. split_and!; simpl; auto.
      - simplify_eq. apply woken_adopted, woken_refl. }
    assert (Hj1 : forall q, <[j := set_parent init p]> l !! j = Some q -> parent q <> Some i).
    { intros q Hq. rewrite list_lookup_insert_eq in Hq by (by eapply lookup_lt_Some). by simplify_eq. }
    case_bool_decide; psteps.
    2:{ eapply Hk; [done|exact M1|done| |done]. intros W. eapply wait_ok_insert; [done..|by left|done]. }
    eapply Hk; [done|apply mid_upd, M1|by eapply adopted_list_trans; [|exact F1|apply wakeup1_adopted]|
      by apply wait_ok_adopt|].
    intros q Hq. rewrite list_lookup_fmap in Hq. apply fmap_Some in Hq as (q0 & Hq0 & ->).
    unfold wakeup1_proc. destruct (_ && _); cbn [parent set_state]; by apply Hj1.
Qed.

Lemma inv_exit c s pd :
  mach_inv {| kst := s; pend := pd |} -> pd c = None ->
  wlp exit (fun _ s' => mach_inv {| kst := s'; pend := pd |}) (on c s).
Proof.
  intros I Hpd. pose proof (mid_start c _ I) as M. cbn [kst] in M. pose proof (mi_table _ I) as T. cbn [kst pend] in T.
  unfold exit. apply wlp_bind, wlp_cur. intros i Hi. change (running s c = Some i) in Hi. apply wlp_bind, wlp_get.
  case_bool_decide as Hin; [done|]. change (initproc s <> Some i) in Hin.
  destruct (ti_run _ _ _ _ _ (proj1 T) c i Hi) as (p & Hp & Hrun).
  apply wlp_bind. eapply wlp_mono; [by eapply wlp_close_files|].
  intros _ s1 (o1 & Hm1 & M1). psteps.
  eapply wlp_mono; [eapply wlp_reparent; [apply mid_upd, mid_acquire;
    (eapply mid_upd_again; [exact Hp|]); do 3 apply mid_env; exact M1|exact Hin]|].
  intros _ s2 (l2 & Hm2 & M2 & F2 & W2 & Hno). psteps. eapply wlp_sched; [apply mid_upd, M2|]. intros s' M'.
  eapply mid_end; [exact M'|].
  match type of F2 with Forall2 _ (wakeup1_proc ?ch <$> ?l1) _ => set (pch := ch) in *; set (lx := l1) in * end.
  assert (Tw : tinv (wakeup1_proc pch <$> lx) (running s) (nextpid s) (initproc s) pd).
  { eapply tinv_woken; [apply wakeup1_woken|]. eapply tinv_woken; [|exact T]. apply (insert_woken _ _ p); [done|].
    split_and!; simpl; auto. }
  assert (T2 : tinv l2 (running s) (nextpid s) (initproc s) pd).
  { split; [eapply table_inv_adopted; [exact F2|apply Tw]|apply W2, Tw]. }
  assert (Hme : me s2 = c) by (rewrite Hm2; exact Hm1). cbn [me upd_procs]. rewrite Hme.
  destruct (ti_run _ _ _ _ _ (proj1 T2) c i Hi) as (q & Hq & _). rewrite (alter_insert _ _ _ _ Hq).
  assert (Hall : forall j r, l2 !! j = Some r -> parent r <> Some i).
  { intros j r Hr. apply (Hno j); [|done]. apply elem_of_seq.
    apply lookup_lt_Some in Hr. rewrite (ti_len _ _ _ _ _ (proj1 T2)) in Hr. lia. }
  eapply tinv_leave; [exact T2|done..|]. right; right.
  split_and!; [done..|by eapply Hall|intros j r Hr _; by eapply Hall|].
  intros k r Hpar Hr Hs. destruct (Forall2_lookup_r _ _ _ _ _ F2 Hr) as (r1 & Hr1 & Ha).
  apply (adopted_sleeping _ _ _ _ _ Ha) in Hs. destruct (wakeup1_sleeping _ _ _ _ _ Hr1 Hs) as (Hne & _).
  apply Hne. rewrite <- Hpar. unfold pch. f_equal.
  assert (Hlen : (i < length (procs s))%nat) by by eapply lookup_lt_Some.
  destruct (Forall2_lookup_r _ _ _ _ _ F2 Hq) as (q1 & Hq1 & _ & Hqp & _).
  rewrite list_lookup_fmap in Hq1. unfold lx in Hq1. rewrite list_lookup_insert_eq in Hq1 by done.
  injection Hq1 as <-. rewrite (parent_wakeup1 pch (set_cwd 0 (set_ofile o1 p))) in Hqp. simpl in Hqp.
  erewrite getp_lookup; [|cbn; rewrite (md_procs _ _ _ _ _ _ M1); apply lookup_alter_self;
    by apply list_lookup_insert_eq]. simpl.
  destruct (ti_self _ _ _ _ _ (proj1 T) i p Hp) as [Hslf _]; [by rewrite Hrun|].
  destruct Hqp as [->|[? _]]; [done|congruence].
Qed.

(** *** Creation *)

Lemma tinv_alloc l run next init pd c i p p' next' o :
  tinv l run next init pd -> l !! i = Some p -> state p = UNUSED -> pd c = None -> run c <> None ->
  0 < next -> next' = next + 1 ->
  (state p' = EMBRYO /\ pid p' = next /\ o = Some i) \/ (state p' = UNUSED /\ o = None) ->
  tinv (<[i := p']> l) run next' init (fupd pd c o).
Proof.
  intros [T W] Hi Hu Hpd Hrc Hn -> Hp'.
  split; [|by eapply wait_ok_insert; [done..| |]; destruct Hp' as [(-> & _)|(-> & _)]].
  assert (Hno : forall d, run d <> Some i).
  { intros d (q & ? & ?)%(ti_run _ _ _ _ _ T). congruence. }
  assert (Hnp : forall d, pd d <> Some i).
  { intros d (q & ? & ?)%(ti_pend _ _ _ _ _ T). congruence. }
  eapply table_inv_insert; eauto; try lia; rewrite ?Hu.
  - intros Hl. right. destruct Hp' as [(_ & -> & _)|(E0 & _)]; [lia|by rewrite E0 in Hl].
  - intros d Hd. by apply Hno in Hd.
  - intros d e Hd. by apply Hno in Hd.
  - destruct Hp' as [(-> & _)|(-> & _)]; done.
  - by left.
  - destruct Hp' as [(-> & _)|(-> & _)]; done.
  - intros d j. unfold fupd. destruct (decide (d = c)) as [->|].
    + intros ->. right. destruct Hp' as [(? & _ & [= ->])|(_ & ?)]; done.
    + intros Hd. left. split; [done|]. intros ->. by apply Hnp in Hd.
  - intros d e. unfold fupd. repeat destruct (decide (_ = c)); try congruence; intros ??; by destruct (Hnp d) || destruct (Hnp e).
  - intros d j. unfold fupd. destruct (decide (d = c)) as [->|]; [done|]. apply (ti_pendrun _ _ _ _ _ T).
Qed.

Lemma next_pos l run next init pd : table_inv l run next init pd -> 0 < next.
Proof.
  intros T. destruct (ti_init _ _ _ _ _ T) as (i & p & _ & Hp & Ha).
  assert (live (state p) = true) by by destruct (state p).
  pose proof (ti_pid _ _ _ _ _ T i p Hp ltac:(done)). lia.
Qed.

Lemma inv_alloc c s pd :
  mach_inv {| kst := s; pend := pd |} -> pd c = None -> running s c <> None -> nextpid s < 2 ^ 31 - 1 ->
  wlp allocproc (fun o s' => mach_inv {| kst := s'; pend := fupd pd c o |}) (on c s).
Proof.
  intros I Hpd Hrc Hov. pose proof (mid_start c _ I) as M. cbn [kst] in M. pose proof (mi_table _ I) as T. cbn [kst pend] in T.
  pose proof (next_pos _ _ _ _ _ (proj1 T)) as Hpos.
  assert (Hs32 : s32 (nextpid s + 1) = nextpid s + 1).
  { unfold s32. rewrite u32_small by lia. destruct (Z.ltb_spec (nextpid s + 1) (2 ^ 31)); lia. }
  unfold allocproc, find_unused. psteps. cbn [procs nextpid set_held kern_locks on].
  destruct (list_find _ _) as [[i p]|] eqn:Ef; simpl.
  - apply list_find_Some in Ef as (Hp & Hu & _). psteps. rewrite Hs32.
    match goal with |- wlp _ _ ?t => assert (M1 : exists q, pid q = nextpid s /\ state q = EMBRYO /\
      mid false t (<[i := q]> (procs s)) (running s) (nextpid s + 1) (initproc s)) end.
    { eexists. split_and!; cycle 2.
      - eapply mid_upd_again; [exact Hp|]. apply mid_env, mid_release. eapply mid_next.
        eapply mid_upd_again; [exact Hp|]. eapply mid_upd_proc; [exact Hp|]. exact (mid_acquire _ _ _ _ _ M).
      - done.
      - done. }
    destruct M1 as (q & Hq1 & Hq2 & M1).
    match goal with |- context [if ?b then _ else _] => destruct b end; psteps.
    + eapply mid_end; [eapply mid_upd_again; [exact Hp|exact M1]|]. eapply tinv_alloc; eauto.
    + eapply mid_end; [eapply mid_upd_again; [exact Hp|exact M1]|]. eapply tinv_alloc; eauto.
  - psteps. eapply mid_end; [exact (mid_release _ _ _ _ _ (mid_acquire _ _ _ _ _ M))|]. split; [|apply T]. apply (table_inv_ext _ (running s) _ _ _ pd); try done; [|apply T].
    intros d. unfold fupd. by destruct (decide (d = c)) as [->|].
Qed.

Lemma tinv_fork l run next init pd c i j p p' q :
  tinv l run next init pd -> pd c = Some i -> l !! i = Some p ->
  (state p' = UNUSED \/ (state p' = RUNNABLE /\ pid p' = pid p /\ parent p' = Some j)) ->
  l !! j = Some q -> state q = RUNNING ->
  tinv (<[i := p']> l) run next init (fupd pd c None).
Proof.
  intros [T W] Hpd Hi Hp' Hj Hr.
  split; [|by eapply wait_ok_insert; [done..| |]; destruct Hp' as [->|(-> & _)]].
  destruct (ti_pend _ _ _ _ _ T c i Hpd) as (p0 & Hi' & He). simplify_eq.
  assert (Hno : forall d, run d <> Some i).
  { intros d (r & ? & ?)%(ti_run _ _ _ _ _ T). congruence. }
  assert (Hnp : forall d, fupd pd c None d <> Some i).
  { intros d. unfold fupd. destruct (decide (d = c)) as [->|Hd]; [done|]. intros Hdi.
    apply Hd. by apply (ti_pend1 _ _ _ _ _ T d c i). }
  eapply table_inv_insert; eauto; try lia; rewrite ?He.
  - destruct Hp' as [->|(-> & -> & _)]; [done|]. auto.
  - intros d Hd. by apply Hno in Hd.
  - intros d e Hd. by apply Hno in Hd.
  - destruct Hp' as [->|(-> & _)]; done.
  - by left.
  - destruct Hp' as [->|(-> & _ & Hpar)]; [done|]. intros _. right. split; [done|]. exists j, q.
    split_and!; [congruence|done..|]. by rewrite Hr.
  - intros d k Hd. left. split; [|intros ->; by apply Hnp in Hd].
    unfold fupd in Hd. by destruct (decide (d = c)).
  - intros d e Hd. by apply Hnp in Hd.
  - intros d k. unfold fupd. destruct (decide (d = c)); [done|]. apply (ti_pendrun _ _ _ _ _ T).
Qed.

Lemma inv_fork c np s pd :
  mach_inv {| kst := s; pend := pd |} -> pd c = Some np ->
  wlp (fork_into np) (fun _ s' => mach_inv {| kst := s'; pend := fupd pd c None |}) (on c s).
Proof.
  intros I Hpd. pose proof (mid_start c _ I) as M. cbn [kst] in M. pose proof (mi_table _ I) as T. cbn [kst pend] in T.
  unfold fork_into. apply wlp_bind, wlp_cur. intros i Hi. change (running s c = Some i) in Hi. psteps.
  destruct (ti_run _ _ _ _ _ (proj1 T) c i Hi) as (q & Hq & Hr).
  destruct (ti_pend _ _ _ _ _ (proj1 T) c np Hpd) as (p & Hp & He).
  assert (Hfail : forall t x ks, mid false t (<[np := x]> (procs s)) (running s) (nextpid s) (initproc s) ->
    wlp (call (e_kfree ks) ;; upd_proc np (set_kstack 0) ;; upd_proc np (set_state UNUSED) ;; kret (-1))
      (fun _ s' => mach_inv {| kst := s'; pend := fupd pd c None |}) t).
  { intros t x ks Mt. psteps. eapply mid_end.
    - do 2 (eapply mid_upd_again; [exact Hp|]). apply mid_env, Mt.
    - eapply (tinv_fork _ _ _ _ _ _ _ i); eauto. }
  assert (M1 : forall d e0, mid false (upd_procs (alter (fun q => set_vm (sz q) d q) np) (set_env e0 (on c s)))
    (<[np := set_vm (sz p) d p]> (procs s)) (running s) (nextpid s) (initproc s)).
  { intros d e0. apply (mid_upd_proc _ _ _ _ _ _ _ (fun q => set_vm (sz q) d q) _ Hp). by apply mid_env. }
  destruct (_ =? 0); [eapply Hfail, M1|]. destruct (_ =? _); [eapply Hfail, M1|].
  destruct (pgdir_share_user_pt _ _ _).
  { apply wlp_bind. pstep. apply wlp_bind. pstep. eapply Hfail. eapply mid_upd_again; [exact Hp|]. apply mid_env, M1. }
  psteps. eapply wlp_mono; [eapply wlp_dup_files|].
  { do 3 (eapply mid_upd_again; [exact Hp|]). apply M1. }
  { apply list_lookup_insert_eq. by eapply lookup_lt_Some. }
  intros _ s' (o & Hm & M'). rewrite list_insert_insert_eq in M'. psteps.
  eapply mid_end.
  - do 3 (eapply mid_upd_again; [exact Hp|]). apply mid_env, M'.
  - eapply (tinv_fork _ _ _ _ _ _ _ i); eauto.
Qed.

(** What the entry returned by [allocproc] looks like. *)
Lemma wlp_allocproc s l run next init :
  mid false s l run next init ->
  wlp allocproc (fun o s' => match o with
    | None => True
    | Some np => me s' = me s /\ exists q q', l !! np = Some q /\ state q = UNUSED /\
        mid false s' (<[np := q']> l) run (s32 (next + 1)) init /\
        state q' = EMBRYO /\ pid q' = next /\ kstack q' <> 0 /\ ctx_eip (ctxv q') = forkret_ /\
        killed q' = killed q /\ name q' = name q
    end) s.
Proof.
  intros M. unfold allocproc, find_unused. psteps.
  change (procs (set_held ptable_lock true s)) with (procs s). change (nextpid (set_held ptable_lock true s)) with (nextpid s).
  rewrite (md_procs _ _ _ _ _ _ M), (md_next _ _ _ _ _ _ M).
  destruct (list_find _ _) as [[i p]|] eqn:Ef; simpl; psteps; [|done].
  apply list_find_Some in Ef as (Hp & Hu & _).
  match goal with |- context [if ?z =? 0 then _ else _] => destruct (Z.eqb_spec z 0) as [Hz|Hz] end; psteps; [done|].
  split; [done|]. exists p. eexists. split_and!; [done|done|..]; cycle 1.
  all: cycle -1.
  { do 2 (eapply mid_upd_again; [exact Hp|]). apply mid_env, mid_release. eapply mid_next.
    eapply mid_upd_again; [exact Hp|]. eapply mid_upd_proc; [exact Hp|]. exact (mid_acquire _ _ _ _ _ M). }
  all: done.
Qed.

Lemma wlp_fork s l run next init i p :
  mid false s l run next init -> run (me s) = Some i -> l !! i = Some p -> state p = RUNNING ->
  wlp fork (fun r s' => r = -1 \/ exists np q q', l !! np = Some q /\ state q = UNUSED /\
    procs s' = <[np := q']> l /\ r = next /\
    state q' = RUNNABLE /\ pid q' = next /\ parent q' = Some i /\ sz q' = sz p /\
    pgdir q' <> 0 /\ pgdir q' <> pgdir p /\ tf_eax (tfv q') = 0 /\
    tf_eip (tfv q') = tf_eip (tfv p) /\ tf_esp (tfv q') = tf_esp (tfv p) /\ ctx_eip (ctxv q') = forkret_ /\
    killed q' = killed q /\ name q' = name_copy (name p) (name q)) s.
Proof.
  intros M Hr Hi Hrun. unfold fork. apply wlp_bind. eapply wlp_mono; [by eapply wlp_allocproc|].
  intros [np|] s1; [|intros _; apply wlp_ret; by left].
  intros (Hm & q & q1 & Hq & Hu & M1 & E1 & E2 & E3 & E4 & E5 & E6).
  assert (Hne : np <> i) by congruence. assert (Hlt : (np < length l)%nat) by by eapply lookup_lt_Some.
  unfold fork_into. apply wlp_bind, wlp_cur. intros i'. rewrite (md_run _ _ _ _ _ _ M1), Hm, Hr. intros [= <-].
  psteps. assert (Hp1 : getp s1 i = p).
  { apply getp_lookup. rewrite (md_procs _ _ _ _ _ _ M1). by rewrite list_lookup_insert_ne. }
  rewrite Hp1. destruct (Z.eqb_spec a 0); [psteps; by left|]. destruct (Z.eqb_spec a (pgdir p)); [psteps; by left|].
  destruct (pgdir_share_user_pt _ _ _); psteps; [by left|].
  eapply wlp_mono; [eapply wlp_dup_files|].
  { do 4 (eapply mid_upd_again; [exact Hq|]). apply mid_env, M1. }
  { by apply list_lookup_insert_eq. }
  intros _ s' (o & Hm' & M'). rewrite list_insert_insert_eq in M'. psteps. right.
  exists np, q. eexists. split; [done|]. split; [done|]. split.
  { apply (md_procs false _ _ run (s32 (next + 1)) init). do 3 (eapply mid_upd_again; [exact Hq|]). apply mid_env, M'. }
  split.
  { match goal with |- pid (getp ?t np) = _ => assert (Mt : mid false t
      (<[np := set_cwd a0 (set_ofile o _)]> l) run (s32 (next + 1)) init)
      by (eapply mid_upd_again; [exact Hq|]; apply mid_env, M') end.
    erewrite getp_lookup; [|rewrite (md_procs _ _ _ _ _ _ Mt); by apply list_lookup_insert_eq]. done. }
  simpl. rewrite E2, E4, E5, E6. split_and!; done.
Qed.

Lemma inv_mstep m m' : mach_inv m -> mstep m m' -> mach_inv m'.
Proof.
  intros I Hs. destruct Hs as [c i r s s' pd H1 H2 H3|c s s' pd H1 H2 H3|c ch lk s s' pd H1 H2 H3 H4|c ch s s' pd H1|
    c p r s s' pd H1|c s s' pd H1 H2 H3|c r s s' pd H1 H2 H3|c o s s' pd H1 H2 H3 H4|c np r s s' pd H1 H2|
    c l s s' pd H1 H2 H3|c l s s' pd H1 H2 H3 H4].
  - exact (wlp_elim _ _ _ _ _ (inv_schedule c i r s pd I H1 H2) H3).
  - exact (wlp_elim _ _ _ _ _ (inv_yield c s pd I H1) H3).
  - exact (wlp_elim _ _ _ _ _ (inv_sleep c ch lk s pd I H1 H2 H3) H4).
  - exact (wlp_elim _ _ _ _ _ (inv_wakeup c ch s pd I) H1).
  - exact (wlp_elim _ _ _ _ _ (inv_kill c p s pd I) H1).
  - exact (wlp_elim _ _ _ _ _ (inv_exit c s pd I H1) H3).
  - exact (wlp_elim _ _ _ _ _ (inv_wait c s pd I H1) H3).
  - exact (wlp_elim _ _ _ _ _ (inv_alloc c s pd I H1 H2 H3) H4).
  - exact (wlp_elim _ _ _ _ _ (inv_fork c np s pd I H1) H2).
  - apply (wlp_elim (acquire l) (fun _ s' => mach_inv {| kst := s'; pend := pd |}) _ _ _) in H3; [done|].
    psteps. eapply mid_end; [|apply (mi_table _ I)]. apply mid_other; try done. apply (mid_start c _ I).
  - apply (wlp_elim (release l) (fun _ s' => mach_inv {| kst := s'; pend := pd |}) _ _ _) in H4; [done|].
    psteps. eapply mid_end; [|apply (mi_table _ I)]. apply mid_other; try done. apply (mid_start c _ I).
Qed.


(** *** Boot *)

(** The zeroed kernel data, with every processor idle. *)
Definition bss (e : E) : kern :=
  {| procs := replicate NPROC null_proc; locks := fun _ => false; me := 0;
     cores := fun _ => {| c_cpu := {| ncli := 0; intena := false; eflags_IF := false |}; c_proc := None |};
     nextpid := 1; initproc := None; console_fgpid := 0; reboot_request := 0; env := e |}.

Lemma table_inv_boot p :
  state p = RUNNABLE -> pid p = 1 -> parent p = None ->
  tinv (<[0%nat := p]> (replicate NPROC null_proc)) (fun _ => None) 2 (Some 0%nat) (fun _ => None).
Proof.
  intros Hs Hp Hpar.
  assert (Hlk : forall i q, <[0%nat := p]> (replicate NPROC null_proc) !! i = Some q ->
    (i = 0%nat /\ q = p) \/ q = null_proc).
  { intros i q [(<- & <- & _)|(_ & Hq)]%list_lookup_insert_Some; [by left|right].
    by apply lookup_replicate in Hq as [? _]. }
  split; [constructor|]; try done.
  - intros i q [[-> ->]| ->]%Hlk Hl; [lia|done].
  - intros i j q r [[-> ->]| ->]%Hlk [[-> ->]| ->]%Hlk Hl Hl' Heq; done.
  - intros i q [[-> ->]| ->]%Hlk; [congruence|done].
  - exists 0%nat, p. split_and!; [done|done|by rewrite Hs].
  - intros i q [[-> ->]| ->]%Hlk Hst; [by left|done].
  - intros i q [[-> ->]| ->]%Hlk Hst; [|done]. by rewrite Hpar.
  - intros i q j r _ [[-> ->]| ->]%Hlk Hr Hz; [congruence|done].
Qed.

Lemma inv_userinit e : wlp userinit (fun _ s => mach_inv {| kst := s; pend := fun _ => None |}) (bss e).
Proof.
  assert (M : mid false (bss e) (replicate NPROC null_proc) (fun _ => None) 1 None).
  { by constructor. }
  set (l := replicate NPROC null_proc) in *.
  assert (Hp : l !! 0%nat = Some null_proc) by done.
  unfold userinit. apply wlp_bind. unfold allocproc. psteps.
  change (find_unused (procs (set_held ptable_lock true (bss e)))) with (Some 0%nat). cbn iota. psteps.
  match goal with |- wlp _ _ ?t => assert (M1 : exists q, (pid q = 1 /\ parent q = None) /\
      mid false t (<[0%nat := q]> l) (fun _ => None) 2 None) end.
  { eexists. split; cycle 1.
    - eapply mid_upd_again; [exact Hp|]. apply mid_env, mid_release. eapply mid_next.
      eapply mid_upd_again; [exact Hp|]. eapply mid_upd_proc; [exact Hp|]. apply mid_acquire, M.
    - done. }
  destruct M1 as (q & [Hq Hqp] & M1).
  match goal with |- context [if ?b then _ else _] => destruct b end; psteps.
  match goal with |- context [if ?b then _ else _] => destruct b end; psteps.
  eapply mid_end; [|apply table_inv_boot].
  - do 2 (eapply mid_upd_again; [exact Hp|]). apply mid_env. do 3 (eapply mid_upd_again; [exact Hp|]). apply mid_env.
    eapply mid_upd_again; [exact Hp|]. apply mid_env. eapply mid_init. eapply mid_upd_again; [exact Hp|]. exact M1.
  - done.
  - done.
  - done.
Qed.

(** *** Calls that cannot fail *)

Lemma wp_wakeup (Q : unit -> kern -> Prop) s l run next init ch :
  mid false s l run next init ->
  (forall s', mid false s' (wakeup1_proc ch <$> l) run next init -> me s' = me s -> Q tt s') -> wp (wakeup ch) Q s.
Proof.
  intros M HQ. unfold wakeup, wakeup1. ksteps. apply wp_acquire; [apply (md_lock _ _ _ _ _ _ M)|]. ksteps.
  pose proof (mid_upd _ _ _ _ _ _ (fmap (wakeup1_proc ch)) (mid_acquire _ _ _ _ _ M)) as M1.
  apply wp_release; [apply (md_lock _ _ _ _ _ _ M1)|]. apply HQ; [|done]. by apply mid_release.
Qed.

Lemma wp_sched (Q : unit -> kern -> Prop) s l run next init i p :
  mid true s l run next init -> ncli_of s (me s) = 1 -> run (me s) = Some i -> l !! i = Some p -> state p <> RUNNING ->
  (forall s', mid false s' l (fupd run (me s) None) next init -> me s' = me s ->
    (forall lk, lk <> ptable_lock -> locks s' lk = locks s lk) -> Q tt s') -> wp sched Q s.
Proof.
  intros M Hn Hi Hp Hst HQ. unfold sched, cur, proc_. ksteps.
  change (held ptable_lock s) with (locks s ptable_lock). rewrite (md_lock _ _ _ _ _ _ M). cbn [negb].
  unfold ncli_of in Hn. rewrite Hn. cbn [negb Z.eqb Pos.eqb]. ksteps.
  pose proof (md_run _ _ _ _ _ _ M (me s)) as Hr. unfold running in Hr. rewrite Hr, Hi. ksteps.
  rewrite (getp_lookup s i p) by by rewrite (md_procs _ _ _ _ _ _ M). rewrite bool_decide_false by done.
  destruct (md_cpu _ _ _ _ _ _ M (me s)) as [_ Hif]. rewrite Hif by lia.
  unfold swtch_to_scheduler. ksteps. pose proof (mid_core _ _ _ _ _ _ None M) as M1.
  apply wp_release; [apply (md_lock _ _ _ _ _ _ M1)|]. apply HQ; [by apply mid_release|done|].
  intros lk Hlk. simpl. unfold zupd. destruct (Z.eqb_spec lk ptable_lock); done.
Qed.

Lemma wp_sleep_enter (Q : unit -> kern -> Prop) s l run next init i p ch lk :
  mid false s l run next init -> run (me s) = Some i -> l !! i = Some p ->
  lk <> 0 -> lk <> ptable_lock -> locks s lk = true -> ncli_of s (me s) = 1 ->
  (forall s', mid false s' (<[i := set_state SLEEPING (set_chan ch p)]> l) (fupd run (me s) None) next init ->
    me s' = me s -> locks s' lk = false -> Q tt s') -> wp (sleep_enter ch lk) Q s.
Proof.
  intros M Hi Hp H0 Hlk Hheld Hn HQ. unfold sleep_enter, proc_. ksteps.
  pose proof (md_run _ _ _ _ _ _ M (me s)) as Hr. unfold running in Hr. rewrite Hr, Hi.
  apply Z.eqb_neq in H0 as ->. apply Z.eqb_neq in Hlk as Hlk'. rewrite Hlk'. cbn [negb].
  apply wp_bind, wp_bind, wp_acquire; [apply (md_lock _ _ _ _ _ _ M)|].
  set (s1 := set_held ptable_lock true s). assert (M1 : mid true s1 l run next init) by by apply mid_acquire.
  assert (En : ncli_of s1 (me s) = 2).
  { unfold s1. rewrite (ncli_set_held ptable_lock true s); [lia|apply (md_cpu _ _ _ _ _ _ M)|done]. }
  apply wp_release.
  { simpl. unfold zupd. by rewrite Hlk'. }
  set (s2 := set_held lk false s1).
  assert (M2 : mid true s2 l run next init).
  { apply mid_other; [done| | |done]; intros; [right|]; change (me s1) with (me s); lia. }
  assert (En2 : ncli_of s2 (me s) = 1).
  { pose proof (ncli_set_held lk false s1 (md_cpu _ _ _ _ _ _ M1 _)) as Hs. change (me s1) with (me s) in Hs.
    change (ncli_of s2 (me s)) with (ncli_of (set_held lk false s1) (me s)). lia. }
  unfold upd_proc. ksteps.
  eapply (wp_sched _ _ (<[i := set_state SLEEPING (set_chan ch p)]> l) run next init i).
  - eapply mid_upd_again; [exact Hp|]. eapply mid_upd_proc; [exact Hp|done].
  - exact En2.
  - done.
  - apply list_lookup_insert_eq. by eapply lookup_lt_Some.
  - done.
  - intros s' M' Hm' Hl'. apply HQ; [done|done|]. rewrite Hl' by done. simpl. unfold zupd. by rewrite Z.eqb_refl.
Qed.

Lemma inv_reachable_proc e s0 m :
  userinit (bss e) = Done tt s0 -> rtc mstep {| kst := s0; pend := fun _ => None |} m -> mach_inv m.
Proof.
  intros Hb Hs. pose proof (wlp_elim _ _ _ _ _ (inv_userinit e) Hb) as I. simpl in I.
  remember {| kst := s0; pend := fun _ => None |} as m0. clear Heqm0 Hb. induction Hs; eauto using inv_mstep.
Qed.

(** ** Properties *)

(** C11.  Process table safety: in every state reachable from boot, however
    the processors interleave, no two live entries have the same pid, every
    [RUNNING] entry is on exactly one processor and a processor's [proc] is
    [RUNNING]; [ptable.lock] is free between calls. *)
Theorem process_table_safe e s0 m :
  userinit (bss e) = Done tt s0 -> rtc mstep {| kst := s0; pend := fun _ => None |} m ->
  locks (kst m) ptable_lock = false /\
  (forall i j p q, procs (kst m) !! i = Some p -> procs (kst m) !! j = Some q ->
     state p <> UNUSED -> state q <> UNUSED -> pid p = pid q -> i = j) /\
  (forall c d i, running (kst m) c = Some i -> running (kst m) d = Some i -> c = d) /\
  (forall i p, procs (kst m) !! i = Some p -> state p = RUNNING <-> exists c, running (kst m) c = Some i).
Proof.
  intros Hb Hs. pose proof (inv_reachable_proc _ _ _ Hb Hs) as I. pose proof (proj1 (mi_table _ I)) as T.
  split_and!; [apply (mi_lock _ I)| |apply (ti_run1 _ _ _ _ _ T)|].
  - intros i j p q Hp Hq Hup Huq. apply (ti_uniq _ _ _ _ _ T i j p q Hp Hq); [by destruct (state p)|by destruct (state q)].
  - intros i p Hp. split; [by apply (ti_running _ _ _ _ _ T)|]. intros (c & (p' & Hp' & Hr)%(ti_run _ _ _ _ _ T)). congruence.
Qed.

(** No orphan and no lost exit: in every reachable state each process
    that has been started is init or has a parent that has not exited, and a
    parent asleep in [wait] (asleep on its own entry) has no zombie child left
    to collect. *)
Theorem wait_never_misses_exit e s0 m :
  userinit (bss e) = Done tt s0 -> rtc mstep {| kst := s0; pend := fun _ => None |} m ->
  (forall i p, procs (kst m) !! i = Some p -> started (state p) = true -> initproc (kst m) = Some i \/
     exists j q, parent p = Some j /\ procs (kst m) !! j = Some q /\ alive (state q) = true) /\
  (forall i p j q, procs (kst m) !! i = Some p -> procs (kst m) !! j = Some q ->
     parent q = Some i -> state q = ZOMBIE -> ~ sleeping_on (proc_addr (Some i)) p).
Proof.
  intros Hb Hs. pose proof (inv_reachable_proc _ _ _ Hb Hs) as I. destruct (mi_table _ I) as [T W].
  split; [apply (ti_parent _ _ _ _ _ T)|exact W].
Qed.

(** [fork], when it succeeds, returns the new pid and leaves in a free
    entry a [RUNNABLE] child of the caller with its size, registers (but
    [eax] = 0) and name, an address space of its own, and a context that
    starts in [forkret]; every other entry is unchanged. *)
Theorem fork_makes_child m c i p r s' :
  mach_inv m -> running (kst m) c = Some i -> procs (kst m) !! i = Some p ->
  fork (on c (kst m)) = Done r s' -> r <> -1 ->
  exists np q q', procs (kst m) !! np = Some q /\ state q = UNUSED /\
    procs s' = <[np := q']> (procs (kst m)) /\ r = nextpid (kst m) /\
    state q' = RUNNABLE /\ pid q' = r /\ parent q' = Some i /\ sz q' = sz p /\
    pgdir q' <> 0 /\ pgdir q' <> pgdir p /\ tf_eax (tfv q') = 0 /\
    tf_eip (tfv q') = tf_eip (tfv p) /\ tf_esp (tfv q') = tf_esp (tfv p) /\ ctx_eip (ctxv q') = forkret_ /\
    name q' = name_copy (name p) (name q).
Proof.
  intros I Hc Hp Hf Hr. destruct (ti_run _ _ _ _ _ (proj1 (mi_table _ I)) c i Hc) as (p' & Hp' & Hrun). simplify_eq.
  pose proof (wlp_elim _ _ _ _ _ (wlp_fork _ _ _ _ _ i p (mid_start c _ I) Hc Hp Hrun) Hf)
    as [?|(np & q & q' & H1 & H2 & H3 & -> & H5)]; [done|].
  exists np, q, q'. naive_solver.
Qed.

(** [sleep] atomically gives up its lock and sleeps, and a [wakeup] of
    the channel by any processor makes it runnable again and changes no
    process that sleeps on another channel. *)
Theorem sleep_wakeup m c i p ch lk d :
  mach_inv m -> running (kst m) c = Some i -> procs (kst m) !! i = Some p ->
  lk <> 0 -> lk <> ptable_lock -> locks (kst m) lk = true -> ncli_of (kst m) c = 1 ->
  exists s1 s2, sleep_enter ch lk (on c (kst m)) = Done tt s1 /\
    locks s1 lk = false /\ running s1 c = None /\ procs s1 = <[i := set_state SLEEPING (set_chan ch p)]> (procs (kst m)) /\
    wakeup ch (on d s1) = Done tt s2 /\ state (getp s2 i) = RUNNABLE /\
    forall j q, procs s1 !! j = Some q -> ~ sleeping_on ch q -> procs s2 !! j = Some q.
Proof.
  intros I Hc Hp H0 Hlk Hh Hn.
  pose proof (mid_start c _ I) as M.
  pose proof (wp_sleep_enter (fun _ s' => mid false s' (<[i := set_state SLEEPING (set_chan ch p)]> (procs (kst m)))
    (fupd (running (kst m)) c None) (nextpid (kst m)) (initproc (kst m)) /\ locks s' lk = false)
    (on c (kst m)) _ _ _ _ i p ch lk M Hc Hp H0 Hlk Hh Hn (fun s' M' _ L => conj M' L)) as W.
  apply wp_done in W as ([] & s1 & E1 & M1 & L1).
  assert (M1' : mid false (on d s1) (<[i := set_state SLEEPING (set_chan ch p)]> (procs (kst m)))
    (fupd (running (kst m)) c None) (nextpid (kst m)) (initproc (kst m))) by by destruct M1.
  pose proof (wp_wakeup (fun _ s' => procs s' = _) _ _ _ _ _ ch M1' (fun s' M' _ => md_procs _ _ _ _ _ _ M')) as W.
  apply wp_done in W as ([] & s2 & E2 & P2).
  assert (Hlt : (i < length (procs (kst m)))%nat) by by eapply lookup_lt_Some.
  exists s1, s2. rewrite (md_run _ _ _ _ _ _ M1), fupd_same, (md_procs _ _ _ _ _ _ M1).
  split_and!; try done.
  - erewrite getp_lookup; [|rewrite P2, list_lookup_fmap, list_lookup_insert_eq by done; done].
    unfold wakeup1_proc. simpl. by rewrite Z.eqb_refl.
  - intros j q Hq Hns. rewrite P2, list_lookup_fmap, Hq. simpl. unfold wakeup1_proc.
    case_bool_decide as Hs; [|done]. simpl. destruct (Z.eqb_spec (chan q) ch); [|done]. by destruct Hns.
Qed.

(** [kill(0)] is not rejected: it finds the first entry whose pid is 0,
    an unused one, and marks it killed; [allocproc] does not clear the mark,
    so the next process made in that entry is born killed. *)
Theorem kill_zero_poisons_next_fork m c i p ks e :
  mach_inv m -> list_find (fun p => pid p = 0) (procs (kst m)) = Some (i, p) ->
  find_unused (procs (kst m)) = Some i -> e_kalloc (env (kst m)) = Done ks e -> ks <> 0 ->
  exists s1 s2, kill 0 (on c (kst m)) = Done 0 s1 /\
    allocproc s1 = Done (Some i) s2 /\ state (getp s2 i) = EMBRYO /\ killed (getp s2 i) = true.
Proof.
  intros I Hk Hu Ha Hks. pose proof (mid_start c _ I) as M.
  apply list_find_Some in Hk as Hk'. destruct Hk' as (Hp & _).
  assert (Hst : state p = UNUSED /\ forall j q, procs (kst m) !! j = Some q -> (j < i)%nat -> state q <> UNUSED).
  { unfold find_unused in Hu. apply fmap_Some in Hu as ([i' p'] & (Hp' & Hs & Hb)%list_find_Some & [= <-]).
    split; [congruence|]. intros j q Hq Hj. by apply (Hb j q). }
  destruct Hst as [Hst Hbefore].
  enough (wp (kill 0) (fun r s1 => r = 0 /\ wp allocproc (fun o s2 => o = Some i /\ state (getp s2 i) = EMBRYO /\
    killed (getp s2 i) = true) s1) (on c (kst m))) as W.
  { apply wp_done in W as (r & s1 & E1 & -> & W). apply wp_done in W as (o & s2 & E2 & -> & H1 & H2). by exists s1, s2. }
  unfold kill, upd_proc. ksteps. apply wp_acquire; [apply (md_lock _ _ _ _ _ _ M)|]. ksteps.
  change (procs (set_held ptable_lock true (on c (kst m)))) with (procs (kst m)). rewrite Hk. ksteps.
  rewrite bool_decide_false by congruence. ksteps.
  pose proof (mid_upd_proc _ _ _ _ _ _ i (set_killed true) p Hp (mid_acquire _ _ _ _ _ M)) as M1.
  apply wp_release; [apply (md_lock _ _ _ _ _ _ M1)|]. apply mid_release in M1. ksteps. split; [done|].
  set (s1 := set_held ptable_lock false _) in *.
  assert (Hu1 : find_unused (procs s1) = Some i).
  { rewrite (md_procs _ _ _ _ _ _ M1). unfold find_unused.
    assert (Hf : list_find (fun p => state p = UNUSED) (<[i := set_killed true p]> (procs (kst m))) = Some (i, set_killed true p)).
    { apply list_find_Some. split_and!; [apply list_lookup_insert_eq; by eapply lookup_lt_Some|done|].
      intros j q Hq Hj. rewrite list_lookup_insert_ne in Hq by lia. by eapply Hbefore. }
    by rewrite Hf. }
  assert (He1 : env s1 = env (kst m)) by done. clearbody s1.
  unfold allocproc, upd_proc. ksteps. apply wp_acquire; [apply (md_lock _ _ _ _ _ _ M1)|]. ksteps.
  change (procs (set_held ptable_lock true s1)) with (procs s1). rewrite Hu1. ksteps.
  pose proof (mid_acquire _ _ _ _ _ M1) as M2.
  apply wp_release; [apply (md_lock _ _ _ _ _ _ M2)|]. unfold call. ksteps. unfold wp at 1.
  match goal with |- context [e_kalloc (env ?t)] => change (env t) with (env s1) end. rewrite He1, Ha. ksteps.
  apply Z.eqb_neq in Hks as ->. ksteps. split; [done|].
  match goal with |- state (getp ?t i) = _ /\ _ => assert (Mt : exists q, mid false t (<[i := q]> (procs (kst m)))
    (running (kst m)) (s32 (nextpid s1 + 1)) (initproc (kst m)) /\ state q = EMBRYO /\ killed q = true) end.
  { eexists. split.
    - do 2 (eapply mid_upd_again; [exact Hp|]). apply mid_env, mid_release. eapply mid_next.
      do 2 (eapply mid_upd_again; [exact Hp|]). exact M2.
    - done. }
  destruct Mt as (q & Mt & Hq1 & Hq2).
  erewrite getp_lookup; [done|]. rewrite (md_procs _ _ _ _ _ _ Mt). apply list_lookup_insert_eq. by eapply lookup_lt_Some.
Qed.
End Proc.

(** ** Witnesses *)

Module Toy.
(** Services over a counter: pages and page directories are never reused. *)
#[global] Instance services : KernelServices Z := {
  e_kalloc := fun n => Done (0x80400000 + 4096 * n) (n + 1);
  e_kfree _ := kret tt;
  e_setupkvm := fun n => Done (0x80400000 + 4096 * n) (n + 1);
  e_inituvm _ := kret tt;
  e_allocuvm _ _ n := kret n;
  e_deallocuvm _ _ n := kret n;
  e_copyuvm _ _ := fun n => Done (0x80400000 + 4096 * n) (n + 1);
  e_freevm _ := kret tt;
  e_pde _ _ _ := 0;
  e_filedup f := kret f;
  e_fileclose _ := kret tt;
  e_idup i := kret i;
  e_iput _ := kret tt;
  e_namei_root := kret 0x80300000;
  e_begin_trans := kret tt;
  e_commit_trans := kret tt;
}.

Definition ptable0 : Z := 0x80110000.
Definition state_of {A} (o : outcome (kern Z) A) : kern Z :=
  match o with Done _ s | Panicked _ s | Slept _ s => s end.
Definition booted : kern Z := state_of (userinit ptable0 1 2 (bss 0)).
(** init runs on processor 3. *)
Definition init_runs : kern Z := state_of (schedule ptable0 0 (AfterFork) (on 3 booted)).
(** init has reserved an entry, and forked. *)
Definition reserved : kern Z := state_of (allocproc ptable0 1 2 (on 3 init_runs)).
Definition forked : kern Z := state_of (fork_into 1 (on 3 reserved)).
(** It holds the lock 77. *)
Definition locked77 : kern Z := state_of (acquire 77 (on 3 init_runs)).

Definition nopend : nat -> option nat := fun _ => None.

Lemma runs_step : mstep ptable0 1 2 {| kst := booted; pend := nopend |} {| kst := init_runs; pend := nopend |}.
Proof. apply (m_schedule _ _ _ 3 0 AfterFork); [reflexivity|exact I|vm_compute; reflexivity]. Qed.

Lemma boots : userinit ptable0 1 2 (bss 0) = Done tt booted.
Proof. vm_compute. reflexivity. Qed.

Lemma booted_inv : mach_inv ptable0 {| kst := booted; pend := nopend |}.
Proof. exact (wlp_elim _ _ _ _ _ (inv_userinit ptable0 1 2 0) boots). Qed.

Lemma runs_inv : mach_inv ptable0 {| kst := init_runs; pend := nopend |}.
Proof. exact (inv_mstep _ _ _ _ _ booted_inv runs_step). Qed.

Lemma locked_inv : mach_inv ptable0 {| kst := locked77; pend := nopend |}.
Proof. apply (inv_mstep ptable0 1 2 _ _ runs_inv). apply (m_lock _ _ _ 3 77); [done|done|vm_compute; reflexivity]. Qed.
Definition init_entry : proc := Eval vm_compute in getp init_runs 0.
Definition forked_at_once : kern Z := state_of (fork ptable0 1 2 (on 3 init_runs)).
Definition locked_entry : proc := Eval vm_compute in getp locked77 0.

Lemma runs_on_3 : running init_runs 3 = Some 0%nat.
Proof. vm_compute. reflexivity. Qed.
Lemma runs_entry : procs init_runs !! 0%nat = Some init_entry.
Proof. vm_compute. reflexivity. Qed.
Lemma forks : fork ptable0 1 2 (on 3 init_runs) = Done 2 forked_at_once.
Proof. vm_compute. reflexivity. Qed.
Lemma locked_on_3 : running locked77 3 = Some 0%nat.
Proof. vm_compute. reflexivity. Qed.
Lemma locked_at : procs locked77 !! 0%nat = Some locked_entry.
Proof. vm_compute. reflexivity. Qed.
Lemma locked_held : locks locked77 77 = true.
Proof. vm_compute. reflexivity. Qed.
Lemma locked_ncli : ncli_of locked77 3 = 1.
Proof. vm_compute. reflexivity. Qed.
Lemma runs_pid0 : list_find (fun p => pid p = 0) (procs init_runs) = Some (1%nat, null_proc).
Proof. vm_compute. reflexivity. Qed.
Lemma runs_unused : find_unused (procs init_runs) = Some 1%nat.
Proof. vm_compute. reflexivity. Qed.
Lemma runs_kalloc : e_kalloc (env init_runs) = Done 0x80402000 3.
Proof. vm_compute. reflexivity. Qed.

Lemma reserve_step : mstep ptable0 1 2 {| kst := init_runs; pend := nopend |}
  {| kst := reserved; pend := fupd nopend 3%nat (Some 1%nat) |}.
Proof. apply (m_alloc _ _ _ 3 (Some 1%nat)); [done|done|done|vm_compute; reflexivity]. Qed.

Lemma fork_step : mstep ptable0 1 2 {| kst := reserved; pend := fupd nopend 3%nat (Some 1%nat) |}
  {| kst := forked; pend := fupd (fupd nopend 3%nat (Some 1%nat)) 3%nat None |}.
Proof. apply (m_fork _ _ _ 3 1 2); [done|vm_compute; reflexivity]. Qed.
End Toy.

Lemma process_table_safe_witness :
  let m := {| kst := Toy.forked; pend := fupd (fupd Toy.nopend 3%nat (Some 1%nat)) 3%nat None |} in
  locks (kst m) (ptable_lock Toy.ptable0) = false.
Proof.
  intros m. refine (proj1 (process_table_safe Toy.ptable0 1 2 0 Toy.booted m Toy.boots _)).
  eapply rtc_l; [apply Toy.runs_step|]. eapply rtc_l; [apply Toy.reserve_step|].
  eapply rtc_l; [apply Toy.fork_step|]. apply rtc_refl.
Defined.

Lemma wait_never_misses_exit_witness :
  let m := {| kst := Toy.init_runs; pend := Toy.nopend |} in
  (forall i p, procs (kst m) !! i = Some p -> started (state p) = true -> initproc (kst m) = Some i \/
     exists j q, parent p = Some j /\ procs (kst m) !! j = Some q /\ alive (state q) = true) /\
  initproc (kst m) = Some 0%nat.
Proof.
  intros m. split; [|vm_compute; reflexivity].
  refine (proj1 (wait_never_misses_exit Toy.ptable0 1 2 0 Toy.booted m Toy.boots _)).
  eapply rtc_l; [apply Toy.runs_step|]. apply rtc_refl.
Defined.

Lemma fork_makes_child_witness :
  let m := {| kst := Toy.init_runs; pend := Toy.nopend |} in
  exists np q, procs (kst m) !! np = Some q /\ state q = UNUSED.
Proof.
  intros m.
  destruct (fork_makes_child Toy.ptable0 1 2 m 3 0 Toy.init_entry 2 Toy.forked_at_once
    Toy.runs_inv Toy.runs_on_3 Toy.runs_entry Toy.forks ltac:(done)) as (np & q & _ & H1 & H2 & _).
  by exists np, q.
Defined.

Lemma sleep_wakeup_witness :
  let m := {| kst := Toy.locked77; pend := Toy.nopend |} in
  exists s1, sleep_enter Toy.ptable0 5 77 (on 3 (kst m)) = Done tt s1.
Proof.
  intros m.
  destruct (sleep_wakeup Toy.ptable0 m 3 0 Toy.locked_entry 5 77 2 Toy.locked_inv Toy.locked_on_3 Toy.locked_at
    ltac:(done) ltac:(done) Toy.locked_held Toy.locked_ncli) as (s1 & _ & E & _).
  by exists s1.
Defined.

Lemma kill_zero_poisons_next_fork_witness :
  let m := {| kst := Toy.init_runs; pend := Toy.nopend |} in
  exists s1 s2, kill Toy.ptable0 0 (on 3 (kst m)) = Done 0 s1 /\
    allocproc Toy.ptable0 1 2 s1 = Done (Some 1%nat) s2 /\ killed (getp s2 1) = true.
Proof.
  intros m.
  destruct (kill_zero_poisons_next_fork Toy.ptable0 1 2 m 3 1 null_proc 0x80402000 3 Toy.runs_inv
    Toy.runs_pid0 Toy.runs_unused Toy.runs_kalloc ltac:(done)) as (s1 & s2 & E1 & E2 & _ & E3).
  by exists s1, s2.
Defined.
