(* ===== verification/Sleep.v ===== *)
(** * Sleep and wakeup under every interleaving

    [sleep] and [wakeup] of proc.c cut into their atomic pieces, run by any
    number of threads that share a condition, the lock [lk] that protects it
    and a channel.  A sleeper is the kernel's usual

      acquire(lk); while(!cond) sleep(chan, lk); cond = 0; release(lk)

    and a waker [acquire(lk); cond = 1; wakeup(chan); release(lk)] (pipes, the
    log, buffers and ticks all follow it). *)

From Stdlib Require Import ZArith Lia.
From S2P Require Import Prelude Spinlock Proc.

Section Sleep.
Context (ch : Z).

(** Where a thread is; between the pieces of [sleep] and [wakeup]. *)
Inductive at_ :=
| Idle
| S_test    (* holds lk, about to test the condition *)
| S_commit  (* the condition was false: in sleep, before acquire(&ptable.lock) *)
| S_ptable  (* ... before release(lk) *)
| S_free    (* ... before the writes to proc->chan and proc->state *)
| S_marked  (* ... before sched *)
| S_asleep  (* switched away *)
| S_back    (* scheduled again, before acquire(lk) *)
| W_set     (* holds lk, about to set the condition *)
| W_call    (* ... set; in wakeup, before acquire(&ptable.lock) *)
| W_scan    (* ... before wakeup1 *)
| W_done    (* ... before release(&ptable.lock) *)
| W_leave.  (* out of wakeup, before release(lk) *)

#[global] Instance at_eq_dec : EqDecision at_.
Proof. solve_decision. Defined.

Record sys := { cond : bool; lk : option nat; pt : option nat; pos : nat -> at_; ps : nat -> proc }.

Definition goto (t : nat) (a : at_) (s : sys) : sys :=
  {| cond := cond s; lk := lk s; pt := pt s; pos := fupd (pos s) t a; ps := ps s |}.
Definition set_cond (b : bool) (s : sys) : sys :=
  {| cond := b; lk := lk s; pt := pt s; pos := pos s; ps := ps s |}.
Definition set_lk (o : option nat) (s : sys) : sys :=
  {| cond := cond s; lk := o; pt := pt s; pos := pos s; ps := ps s |}.
Definition set_pt (o : option nat) (s : sys) : sys :=
  {| cond := cond s; lk := lk s; pt := o; pos := pos s; ps := ps s |}.
Definition set_ps (f : nat -> proc) (s : sys) : sys :=
  {| cond := cond s; lk := lk s; pt := pt s; pos := pos s; ps := f |}.

(** [proc->chan = chan; proc->state = SLEEPING] *)
Definition sleep_mark (t : nat) (s : sys) : sys :=
  set_ps (fupd (ps s) t (set_state SLEEPING (set_chan ch (ps s t)))) s.
(** [wakeup1(chan)] *)
Definition wakeup_scan (s : sys) : sys := set_ps (fun t => wakeup1_proc ch (ps s t)) s.
(** The scheduler runs the thread again, and [sleep] tidies up. *)
Definition sleep_tidy (t : nat) (s : sys) : sys :=
  set_ps (fupd (ps s) t (set_chan 0 (set_state RUNNING (ps s t)))) s.

Inductive sstep : sys -> sys -> Prop :=
| s_enter t s : pos s t = Idle -> lk s = None -> sstep s (goto t S_test (set_lk (Some t) s))
| s_consume t s : pos s t = S_test -> cond s = true -> sstep s (goto t Idle (set_lk None (set_cond false s)))
| s_commit t s : pos s t = S_test -> cond s = false -> sstep s (goto t S_commit s)
| s_ptable t s : pos s t = S_commit -> pt s = None -> sstep s (goto t S_ptable (set_pt (Some t) s))
| s_free t s : pos s t = S_ptable -> sstep s (goto t S_free (set_lk None s))
| s_mark t s : pos s t = S_free -> sstep s (goto t S_marked (sleep_mark t s))
| s_swtch t s : pos s t = S_marked -> sstep s (goto t S_asleep (set_pt None s))
| s_sched t s : pos s t = S_asleep -> state (ps s t) = RUNNABLE -> pt s = None -> sstep s (goto t S_back (sleep_tidy t s))
| s_back t s : pos s t = S_back -> lk s = None -> sstep s (goto t S_test (set_lk (Some t) s))
| w_enter t s : pos s t = Idle -> lk s = None -> sstep s (goto t W_set (set_lk (Some t) s))
| w_set t s : pos s t = W_set -> sstep s (goto t W_call (set_cond true s))
| w_ptable t s : pos s t = W_call -> pt s = None -> sstep s (goto t W_scan (set_pt (Some t) s))
| w_scan t s : pos s t = W_scan -> sstep s (goto t W_done (wakeup_scan s))
| w_done t s : pos s t = W_done -> sstep s (goto t W_leave (set_pt None s))
| w_leave t s : pos s t = W_leave -> sstep s (goto t Idle (set_lk None s)).

Definition start (s : sys) : Prop :=
  lk s = None /\ pt s = None /\ forall t, pos s t = Idle /\ state (ps s t) = RUNNING.

(** Positions at which a thread holds the two locks. *)
Definition has_lk (a : at_) : bool :=
  match a with S_test | S_commit | S_ptable | W_set | W_call | W_scan | W_done | W_leave => true | _ => false end.
Definition has_pt (a : at_) : bool :=
  match a with S_ptable | S_free | S_marked | W_scan | W_done => true | _ => false end.
(** ... is bound to sleep, and has let go of [lk]. *)
Definition going (a : at_) : bool := match a with S_free | S_marked => true | _ => false end.
(** ... has set the condition and not yet woken the sleepers. *)
Definition waking (a : at_) : bool := match a with W_call | W_scan => true | _ => false end.

Definition asleep (s : sys) (t : nat) : Prop := pos s t = S_asleep /\ sleeping_on ch (ps s t).

Record sinv (s : sys) : Prop := {
  si_lk : forall t, has_lk (pos s t) = true <-> lk s = Some t;
  si_pt : forall t, has_pt (pos s t) = true <-> pt s = Some t;
  si_commit : forall t, pos s t = S_commit \/ pos s t = S_ptable -> cond s = false;
  si_state : forall t, match pos s t with
    | S_marked => sleeping_on ch (ps s t)
    | S_asleep => sleeping_on ch (ps s t) \/ state (ps s t) = RUNNABLE
    | _ => state (ps s t) = RUNNING end;
  si_wake : cond s = true -> forall t, going (pos s t) = true \/ asleep s t ->
    exists w, waking (pos s w) = true;
}.

(** A lock's owner is the thread at a position of [P]. *)
Definition own (P : at_ -> bool) (o : option nat) (f : nat -> at_) : Prop :=
  forall t, P (f t) = true <-> o = Some t.

Lemma own_keep P o f t a : own P o f -> P a = P (f t) -> own P o (fupd f t a).
Proof. intros H Ha u. unfold fupd. destruct (decide (u = t)) as [->|]; [rewrite Ha|]; apply H. Qed.
Lemma own_take P f t a : own P None f -> P a = true -> own P (Some t) (fupd f t a).
Proof.
  intros H Ha u. unfold fupd. destruct (decide (u = t)) as [->|]; [by rewrite Ha|].
  split; [intros E%H; done|congruence].
Qed.
Lemma own_drop P o f t a : own P o f -> P (f t) = true -> P a = false -> own P None (fupd f t a).
Proof.
  intros H Ht Ha u. unfold fupd. destruct (decide (u = t)) as [->|]; [by rewrite Ha|].
  apply H in Ht. split; [intros E%H; congruence|done].
Qed.
Lemma own_one P o f t u : own P o f -> P (f t) = true -> P (f u) = true -> t = u.
Proof. intros H Ht%H Hu%H. congruence. Qed.

Ltac owns I Hp Hn :=
  first [ apply own_keep; [exact I|by rewrite Hp]
        | apply own_take; [intros u; rewrite <- Hn; apply I|done]
        | eapply own_drop; [exact I|by rewrite Hp|done] ].

Lemma sinv_locks s s' : sinv s -> sstep s s' -> own has_lk (lk s') (pos s') /\ own has_pt (pt s') (pos s').
Proof.
  intros I H. destruct H as [t s Hp Hl|t s Hp Hc|t s Hp Hc|t s Hp Hq|t s Hp|t s Hp|t s Hp|t s Hp Hs Hq|t s Hp Hl|
    t s Hp Hl|t s Hp|t s Hp Hq|t s Hp|t s Hp|t s Hp]; cbn [lk pt pos goto set_lk set_pt set_cond set_ps sleep_mark sleep_tidy wakeup_scan];
    (split; [owns (si_lk s I) Hp Hl|owns (si_pt s I) Hp Hq]).
Qed.

(** Only a holder of [lk] can be about to sleep, so [cond] is still false. *)
Lemma sinv_commit s s' : sinv s -> sstep s s' ->
  forall u, pos s' u = S_commit \/ pos s' u = S_ptable -> cond s' = false.
Proof.
  intros I H u Hu. destruct H as [t s Hp Hl|t s Hp Hc|t s Hp Hc|t s Hp Hq|t s Hp|t s Hp|t s Hp|t s Hp Hs Hq|t s Hp Hl|
    t s Hp Hl|t s Hp|t s Hp Hq|t s Hp|t s Hp|t s Hp]; simpl in *; unfold fupd in Hu;
    destruct (decide (u = t)) as [->|Hut]; try done; try (by destruct Hu); try (by apply (si_commit s I u));
    try (by apply (si_commit s I t); auto).
  exfalso. apply Hut. apply (own_one has_lk (lk s) (pos s)); [exact (si_lk s I)|..|by rewrite Hp].
  by destruct Hu as [->| ->].
Qed.

Lemma sinv_state s s' : sinv s -> sstep s s' -> forall u, match pos s' u with
    | S_marked => sleeping_on ch (ps s' u)
    | S_asleep => sleeping_on ch (ps s' u) \/ state (ps s' u) = RUNNABLE
    | _ => state (ps s' u) = RUNNING end.
Proof.
  intros I H u. destruct H as [t s Hp Hl|t s Hp Hc|t s Hp Hc|t s Hp Hq|t s Hp|t s Hp|t s Hp|t s Hp Hs Hq|t s Hp Hl|
    t s Hp Hl|t s Hp|t s Hp Hq|t s Hp|t s Hp|t s Hp]; simpl; unfold fupd;
    pose proof (si_state s I u) as Hu; pose proof (si_state s I t) as Ht;
    destruct (decide (u = t)) as [->|Hut]; rewrite ?Hp in *; auto; try (by split).
  all: unfold wakeup1_proc.
  - by rewrite bool_decide_false by congruence.
  - pose proof (own_one has_pt (pt s) (pos s) u t (si_pt s I)) as Ho. rewrite Hp in Ho.
    destruct (pos s u); try (rewrite bool_decide_false by congruence; done); [by specialize (Ho eq_refl eq_refl)|].
    right. case_bool_decide as Hb; [|by destruct Hu as [[? ?]|?]]. destruct (Z.eqb_spec (chan (ps s u)) ch); [done|].
    destruct Hu as [[? ?]|?]; [done|congruence].
Qed.

Lemma sinv_wake s s' : sinv s -> sstep s s' -> cond s' = true ->
  forall u, going (pos s' u) = true \/ asleep s' u -> exists w, waking (pos s' w) = true.
Proof.
  intros I H Hc' u Hu.
  (* the wakers of the old state are still there *)
  assert (Hold : forall t a, waking (pos s t) = false \/ waking a = true -> cond s = true ->
    going (pos s u) = true \/ asleep s u -> exists w, waking (fupd (pos s) t a w) = true).
  { intros t a Ht Hc Hs. destruct (si_wake s I Hc u Hs) as (w & Hw). exists w. unfold fupd.
    destruct (decide (w = t)) as [->|]; [|done]. destruct Ht; congruence. }
  assert (Hu0 : forall t a, pos s' = fupd (pos s) t a -> (u <> t -> ps s' u = ps s u) ->
    going a = false \/ going (pos s t) = true -> a <> S_asleep \/ going (pos s t) = true ->
    going (pos s u) = true \/ asleep s u).
  { intros t a Hps Heq Hg1 Hg2. unfold asleep in *. rewrite Hps in Hu. unfold fupd in Hu.
    destruct (decide (u = t)) as [->|Hne]; [|rewrite Heq in Hu by done; done].
    left. destruct Hu as [Hu|[Hu _]], Hg1, Hg2; congruence. }
  destruct H as [t s Hp Hl|t s Hp Hc|t s Hp Hc|t s Hp Hq|t s Hp|t s Hp|t s Hp|t s Hp Hs Hq|t s Hp Hl|
    t s Hp Hl|t s Hp|t s Hp Hq|t s Hp|t s Hp|t s Hp]; simpl pos; simpl in Hc'; try discriminate.
  all: try (apply Hold; [by rewrite Hp; auto|done|];
    eapply Hu0; [reflexivity|intros; simpl; by rewrite ?fupd_other|by rewrite Hp; auto..]).
  - pose proof (si_commit s I t (or_intror Hp)). congruence.
  - exists t. by rewrite fupd_same.
  - exfalso. destruct Hu as [Hu|[_ [Hs Hch]]]; simpl in *.
    + unfold fupd in Hu. destruct (decide (u = t)) as [->|Hne]; [done|]. apply Hne.
      apply (own_one has_pt (pt s) (pos s)); [exact (si_pt s I)|by destruct (pos s u)|by rewrite Hp].
    + unfold wakeup1_proc in Hs, Hch. case_bool_decide; simpl in *; [|done].
      by destruct (Z.eqb_spec (chan (ps s u)) ch).
Qed.

Lemma sinv_step s s' : sinv s -> sstep s s' -> sinv s'.
Proof.
  intros I H. destruct (sinv_locks _ _ I H). constructor;
    [done|done|by eapply sinv_commit|by eapply sinv_state|by eapply sinv_wake].
Qed.

Lemma sinv_start s : start s -> sinv s.
Proof.
  intros (H1 & H2 & H3). constructor.
  - intros t. rewrite (proj1 (H3 t)), H1. done.
  - intros t. rewrite (proj1 (H3 t)), H2. done.
  - intros t. rewrite (proj1 (H3 t)). by intros [].
  - intros t. rewrite (proj1 (H3 t)). apply H3.
  - intros _ t. unfold asleep. rewrite (proj1 (H3 t)). by intros [|[]].
Qed.

(** C16.  No lost wakeup: in every reachable state, if the condition holds
    while a thread is asleep on the channel (or past releasing its lock on the
    way to sleep), then some waker has set the condition and is still to run
    [wakeup1]; so once the wakers are done, nobody sleeps with the condition
    true.  At most one thread holds [lk] at a time. *)
Theorem no_lost_wakeup s0 s :
  start s0 -> rtc sstep s0 s ->
  (forall t, cond s = true -> going (pos s t) = true \/ asleep s t -> exists w, waking (pos s w) = true) /\
  (forall t u, has_lk (pos s t) = true -> has_lk (pos s u) = true -> t = u).
Proof.
  intros H0 H. assert (I : sinv s) by (apply sinv_start in H0; induction H; eauto using sinv_step).
  split; [intros t Hc; by apply (si_wake s I)|].
  intros t u. apply (own_one has_lk (lk s) (pos s)). exact (si_lk s I).
Qed.
End Sleep.

Definition sys0 : sys :=
  {| cond := false; lk := None; pt := None; pos := fun _ => Idle; ps := fun _ => set_state RUNNING null_proc |}.
(** Thread 1 falls asleep. *)
Definition sys_asleep : sys :=
  goto 1 S_asleep (set_pt None (goto 1 S_marked (sleep_mark 7 1 (goto 1 S_free (set_lk None
    (goto 1 S_ptable (set_pt (Some 1%nat) (goto 1 S_commit (goto 1 S_test (set_lk (Some 1%nat) sys0)))))))))).

Lemma no_lost_wakeup_witness :
  asleep 7 sys_asleep 1 /\ forall t u, has_lk (pos sys_asleep t) = true -> has_lk (pos sys_asleep u) = true -> t = u.
Proof.
  split; [done|]. refine (proj2 (no_lost_wakeup 7 sys0 sys_asleep _ _)); [done|].
  eapply rtc_l; [by apply (s_enter 7 1)|]. eapply rtc_l; [by apply (s_commit 7 1)|].
  eapply rtc_l; [by apply (s_ptable 7 1)|]. eapply rtc_l; [by apply (s_free 7 1)|].
  eapply rtc_l; [by apply (s_mark 7 1)|]. eapply rtc_l; [by apply (s_swtch 7 1)|]. apply rtc_refl.
Defined.
