(* ===== verification/Pipe.v ===== *)
(** * kernel/pipe.c: pipes

    [pipewrite] and [piperead] are cut at their calls of [sleep]: a segment
    runs under [p->lock] from an [acquire] (or the return of [sleep]) to the
    next [sleep] or to the return.  What a pipe needs of the scheduler is the
    interface [SleepQueue]; the process table of proc.c implements it. *)

From Stdlib Require Import ZArith Lia.
From S2P Require Import Prelude Spinlock Proc.

(** Who sleeps on which channel, and what sleep and wakeup do to it. *)
Class SleepQueue (Q : Type) := {
  sq_on : Q -> nat -> Z -> Prop;
  sq_sleep : nat -> Z -> Q -> Q;
  sq_wakeup : Z -> Q -> Q;
  sq_wakeup_spec q t c c' : sq_on (sq_wakeup c q) t c' <-> sq_on q t c' /\ c' <> c;
  sq_sleep_spec q t c u c' : sq_on (sq_sleep t c q) u c' <-> (u = t /\ c' = c) \/ (u <> t /\ sq_on q u c');
}.

Definition PIPESIZE : Z := 512.

Record pipe := {
  p_lock : bool;
  data : list Z;
  nread : Z;
  nwrite : Z;
  readopen : bool;
  writeopen : bool;
}.

(** The pipe and the sleepers. *)
Record pworld (Q : Type) := { pp : pipe; queue : Q }.
Arguments pp {Q}. Arguments queue {Q}.

(** A segment returns, or sleeps with something left to do. *)
Inductive segment (A B : Type) := Return (a : A) | Wait (b : B).
Arguments Return {A B}. Arguments Wait {A B}.

Section Pipe.
Context {Q : Type} `{SleepQueue Q}.
Context (p_addr : Z). (* the address of the struct pipe *)

Abbreviation pworld := (pworld Q).

(** [&p->nread] and [&p->nwrite]. *)
Definition nread_chan : Z := p_addr + 564.
Definition nwrite_chan : Z := p_addr + 568.

Definition upd_pipe (f : pipe -> pipe) (w : pworld) : pworld := {| pp := f (pp w); queue := queue w |}.

#[global] Instance pipe_locks : HasLocks unit pworld := {
  held _ w := p_lock (pp w);
  set_held _ b w := upd_pipe (fun p => {| p_lock := b; data := data p; nread := nread p; nwrite := nwrite p;
    readopen := readopen p; writeopen := writeopen p |}) w;
}.

Definition wakeup (c : Z) : K pworld unit := kmodify (fun w => {| pp := pp w; queue := sq_wakeup c (queue w) |}).
(** [sleep(chan, &p->lock)] by the thread [t], up to the switch. *)
Definition sleep (t : nat) (c : Z) : K pworld unit :=
  release tt ;; kmodify (fun w => {| pp := pp w; queue := sq_sleep t c (queue w) |}).

Definition set_open (r w : bool) (p : pipe) : pipe :=
  {| p_lock := p_lock p; data := data p; nread := nread p; nwrite := nwrite p; readopen := r; writeopen := w |}.

(** The fields [pipealloc] sets up. *)
Definition pipe_init (p : pipe) : pipe :=
  {| p_lock := false; data := data p; nread := 0; nwrite := 0; readopen := true; writeopen := true |}.

(** Returns whether the pipe's page is to be freed ([kfree((char* )p)]). *)
Definition pipeclose (writable : bool) : K pworld bool :=
  acquire tt ;;
  (if writable then
     kmodify (upd_pipe (fun p => set_open (readopen p) false p)) ;; wakeup nread_chan
   else
     kmodify (upd_pipe (fun p => set_open false (writeopen p) p)) ;; wakeup nwrite_chan) ;;
  w <- kget ;;
  release tt ;;
  kret (negb (readopen (pp w)) && negb (writeopen (pp w))).

(** [p->data[p->nwrite++ % PIPESIZE] = b] *)
Definition put (b : Z) (p : pipe) : pipe :=
  {| p_lock := p_lock p; data := <[Z.to_nat (nwrite p mod PIPESIZE) := b]> (data p);
     nread := nread p; nwrite := nwrite p +u 1; readopen := readopen p; writeopen := writeopen p |}.
(** [p->data[p->nread++ % PIPESIZE]] *)
Definition next_byte (p : pipe) : Z := nth (Z.to_nat (nread p mod PIPESIZE)) (data p) 0.
Definition skip (p : pipe) : pipe :=
  {| p_lock := p_lock p; data := data p; nread := nread p +u 1; nwrite := nwrite p;
     readopen := readopen p; writeopen := writeopen p |}.

Definition full (p : pipe) : bool := nwrite p =? nread p +u PIPESIZE.

(** The loop of [pipewrite] with the bytes [bs] left, the lock held; [n] is
    the requested count. *)
Fixpoint pipewrite_loop (t : nat) (killed : bool) (n : Z) (bs : list Z) : K pworld (segment Z (list Z)) :=
  match bs with
  | [] => wakeup nread_chan ;; release tt ;; kret (Return n)
  | b :: bs' =>
      w <- kget ;;
      if full (pp w) then
        if negb (readopen (pp w)) || killed then release tt ;; kret (Return (-1))
        else wakeup nread_chan ;; sleep t nwrite_chan ;; kret (Wait bs)
      else kmodify (upd_pipe (put b)) ;; pipewrite_loop t killed n bs'
  end.
(** From the call, or from the wake-up. *)
Definition pipewrite (t : nat) (killed : bool) (n : Z) (bs : list Z) : K pworld (segment Z (list Z)) :=
  acquire tt ;; pipewrite_loop t killed n bs.

Fixpoint piperead_loop (n : nat) : K pworld (list Z) :=
  match n with
  | O => kret []
  | S n' =>
      w <- kget ;;
      if nread (pp w) =? nwrite (pp w) then kret []
      else
        let b := next_byte (pp w) in
        kmodify (upd_pipe skip) ;;
        r <- piperead_loop n' ;;
        kret (b :: r)
  end.

(** Returns the bytes read ([None] for -1), or waits. *)
Definition piperead (t : nat) (killed : bool) (n : nat) : K pworld (segment (option (list Z)) unit) :=
  acquire tt ;;
  w <- kget ;;
  if (nread (pp w) =? nwrite (pp w)) && writeopen (pp w) then
    if killed then release tt ;; kret (Return None)
    else sleep t nread_chan ;; kret (Wait tt)
  else
    bs <- piperead_loop n ;;
    wakeup nwrite_chan ;;
    release tt ;;
    kret (Return (Some bs)).

Definition pipecanread : K pworld Z :=
  acquire tt ;;
  w <- kget ;;
  release tt ;;
  kret (if negb (nwrite (pp w) =? nread (pp w)) then 1 else if negb (writeopen (pp w)) then 1 else 0).

Definition pipecanwrite : K pworld Z :=
  acquire tt ;;
  w <- kget ;;
  release tt ;;
  kret (if nwrite (pp w) <? nread (pp w) +u PIPESIZE then 1 else 0).

(** ** The machine: any number of threads use the pipe

    [wrote] and [got] collect the bytes put into and taken out of the pipe. *)

Inductive job := Free | Writing (n : Z) (bs : list Z) | Reading (n : nat).

Record psys := { pw : pworld; jobs : nat -> job; wrote : list Z; got : list Z }.

(** The job of [t] after a segment. *)
Definition after_write (n : Z) (r : segment Z (list Z)) : job := match r with Return _ => Free | Wait bs => Writing n bs end.
Definition after_read (n : nat) (r : segment (option (list Z)) unit) : job := match r with Return _ => Free | Wait _ => Reading n end.
Definition read_bytes (r : segment (option (list Z)) unit) : list Z := match r with Return (Some bs) => bs | _ => [] end.
(** Of the bytes offered, those that went into the pipe between [p] and [p']. *)
Definition put_bytes (p p' : pipe) (bs : list Z) : list Z := take (Z.to_nat (nwrite p' -u nwrite p)) bs.

(** A thread that holds an end open starts a call, or goes on with it once it
    is not asleep; an end is closed when no call on it is under way.  Killed
    processes are left out here. *)
Inductive pstep : psys -> psys -> Prop :=
| p_write t n bs s w' r : jobs s t = Free -> writeopen (pp (pw s)) = true ->
    Z.of_nat (length bs) = n -> n < 2 ^ 31 ->
    pipewrite t false n bs (pw s) = Done r w' ->
    pstep s {| pw := w'; jobs := fupd (jobs s) t (after_write n r);
               wrote := wrote s ++ put_bytes (pp (pw s)) (pp w') bs; got := got s |}
| p_write_more t n bs s w' r : jobs s t = Writing n bs -> ~ sq_on (queue (pw s)) t nwrite_chan ->
    pipewrite t false n bs (pw s) = Done r w' ->
    pstep s {| pw := w'; jobs := fupd (jobs s) t (after_write n r);
               wrote := wrote s ++ put_bytes (pp (pw s)) (pp w') bs; got := got s |}
| p_read t n s w' r : jobs s t = Free -> readopen (pp (pw s)) = true ->
    piperead t false n (pw s) = Done r w' ->
    pstep s {| pw := w'; jobs := fupd (jobs s) t (after_read n r); wrote := wrote s; got := got s ++ read_bytes r |}
| p_read_more t n s w' r : jobs s t = Reading n -> ~ sq_on (queue (pw s)) t nread_chan ->
    piperead t false n (pw s) = Done r w' ->
    pstep s {| pw := w'; jobs := fupd (jobs s) t (after_read n r); wrote := wrote s; got := got s ++ read_bytes r |}
| p_close_read s w' r : (forall t n, jobs s t <> Reading n) -> pipeclose false (pw s) = Done r w' ->
    pstep s {| pw := w'; jobs := jobs s; wrote := wrote s; got := got s |}
| p_close_write s w' r : (forall t n bs, jobs s t <> Writing n bs) -> pipeclose true (pw s) = Done r w' ->
    pstep s {| pw := w'; jobs := jobs s; wrote := wrote s; got := got s |}.

(** ** Contents *)

Definition count (p : pipe) : Z := nwrite p -u nread p.
Definition nth_byte (p : pipe) (k : Z) : Z := nth (Z.to_nat ((nread p + k) mod PIPESIZE)) (data p) 0.
Definition contents (p : pipe) : list Z := nth_byte p <$> seqZ 0 (count p).

Record pipe_ok (p : pipe) : Prop := {
  po_len : length (data p) = Z.to_nat PIPESIZE;
  po_count : count p <= PIPESIZE;
  po_nread : 0 <= nread p < 2 ^ 32;
  po_nwrite : 0 <= nwrite p < 2 ^ 32;
}.

Record pinv (s : psys) : Prop := {
  pv_lock : p_lock (pp (pw s)) = false;
  pv_ok : pipe_ok (pp (pw s));
  pv_fifo : wrote s = got s ++ contents (pp (pw s));
  pv_writing : forall t n bs, jobs s t = Writing n bs -> bs <> [] /\ Z.of_nat (length bs) < 2 ^ 31;
  pv_on_nwrite : forall t, sq_on (queue (pw s)) t nwrite_chan ->
    (exists n bs, jobs s t = Writing n bs) /\ full (pp (pw s)) = true /\ readopen (pp (pw s)) = true;
  pv_on_nread : forall t, sq_on (queue (pw s)) t nread_chan ->
    (exists n, jobs s t = Reading n) /\ count (pp (pw s)) = 0 /\ writeopen (pp (pw s)) = true;
  pv_reading : forall t n, jobs s t = Reading n -> readopen (pp (pw s)) = true;
}.

Lemma full_count p : pipe_ok p -> full p = true <-> count p = PIPESIZE.
Proof.
  intros [_ H1 H2 H3]. unfold full, count, PIPESIZE, u32 in *. rewrite Z.eqb_eq. dlia.
Qed.

Lemma count_put b p : pipe_ok p -> full p = false -> count (put b p) = count p + 1.
Proof.
  intros Ho Hf. assert (count p <> PIPESIZE) by (intros E%full_count; congruence).
  destruct Ho as [_ H1 H2 H3]. unfold count, put, PIPESIZE, u32 in *. simpl. dlia.
Qed.

Lemma put_ok b p : pipe_ok p -> full p = false -> pipe_ok (put b p).
Proof.
  intros Ho Hf. pose proof (count_put b p Ho Hf) as Hc.
  assert (count p <> PIPESIZE) by (intros E%full_count; congruence).
  destruct Ho as [Hl H1 H2 H3]. constructor; simpl.
  - by rewrite length_insert.
  - lia.
  - done.
  - apply u32_range.
Qed.

(** The byte lands behind the ones buffered, and moves none of them. *)
Lemma contents_put b p : pipe_ok p -> full p = false -> contents (put b p) = contents p ++ [b].
Proof.
  intros Ho Hf. pose proof (count_put b p Ho Hf) as Hc.
  assert (Hne : count p <> PIPESIZE) by (intros E%full_count; congruence).
  destruct Ho as [Hl H1 H2 H3]. assert (Hpos : 0 <= count p) by apply u32_range.
  assert (Hidx : nwrite p mod PIPESIZE = (nread p + count p) mod PIPESIZE).
  { unfold count, u32, PIPESIZE in *. dlia. }
  unfold contents. rewrite Hc, seqZ_app, fmap_app by lia. f_equal.
  - apply list_fmap_ext. intros j k Hk. apply lookup_seqZ in Hk as [-> Hk].
    unfold nth_byte. cbn [nread data put]. rewrite Hidx.
    rewrite !nth_lookup, list_lookup_insert_ne; [done|].
    unfold PIPESIZE in *. intros E%Z2Nat.inj; dlia.
  - unfold nth_byte. simpl. rewrite Hidx. f_equal.
    rewrite nth_lookup, list_lookup_insert_eq; [done|]. rewrite Hl. unfold PIPESIZE. dlia.
Qed.

Lemma count_skip p : pipe_ok p -> count p <> 0 -> count (skip p) = count p - 1.
Proof. intros [_ H1 H2 H3] Hc. unfold count, skip, PIPESIZE, u32 in *. simpl. dlia. Qed.

Lemma skip_ok p : pipe_ok p -> count p <> 0 -> pipe_ok (skip p).
Proof.
  intros Ho Hc. pose proof (count_skip p Ho Hc). destruct Ho as [Hl H1 H2 H3].
  constructor; [done|lia|apply u32_range|done].
Qed.

Lemma contents_skip p : pipe_ok p -> count p <> 0 -> contents p = next_byte p :: contents (skip p).
Proof.
  intros Ho Hc. pose proof (count_skip p Ho Hc) as Hs. destruct Ho as [Hl H1 H2 H3].
  assert (Hpos : 0 <= count p) by apply u32_range.
  unfold contents. rewrite Hs, (seqZ_cons 0) by lia. cbn [fmap list_fmap]. f_equal.
  - unfold nth_byte, next_byte. by rewrite Z.add_0_r.
  - replace (Z.succ 0) with (1 + 0) by lia. replace (Z.pred (count p)) with (count p - 1) by lia.
    rewrite <- (fmap_add_seqZ 1 0), <- list_fmap_compose. apply list_fmap_ext. intros j k _.
    unfold nth_byte. cbn [nread data skip compose]. f_equal. f_equal. unfold PIPESIZE, u32. simpl. dlia.
Qed.

Lemma empty_count p : pipe_ok p -> (nread p =? nwrite p) = true <-> count p = 0.
Proof. intros [_ H1 H2 H3]. unfold count, u32. rewrite Z.eqb_eq. dlia. Qed.

(** ** The segments *)

Definition same_ends (p p' : pipe) : Prop := readopen p' = readopen p /\ writeopen p' = writeopen p.

(** How a write segment with the bytes [bs] can end: [bs1] went in, [bs2] is left. *)
Definition write_end (t : nat) (n : Z) (bs1 bs2 : list Z) (w : pworld) (r : segment Z (list Z)) (w' : pworld) : Prop :=
  pipe_ok (pp w') /\ p_lock (pp w') = false /\ same_ends (pp w) (pp w') /\
  contents (pp w') = contents (pp w) ++ bs1 /\ nwrite (pp w') = nwrite (pp w) +u Z.of_nat (length bs1) /\
  ((r = Return n /\ bs2 = [] /\ queue w' = sq_wakeup nread_chan (queue w)) \/
   (bs2 <> [] /\ full (pp w') = true /\
     ((r = Return (-1) /\ readopen (pp w) = false /\ queue w' = queue w) \/
      (r = Wait bs2 /\ readopen (pp w) = true /\ queue w' = sq_sleep t nwrite_chan (sq_wakeup nread_chan (queue w)))))).

Lemma wp_pipewrite_loop t n bs : forall w,
  pipe_ok (pp w) -> p_lock (pp w) = true ->
  wp (pipewrite_loop t false n bs) (fun r w' => exists bs1 bs2, bs = bs1 ++ bs2 /\ write_end t n bs1 bs2 w r w') w.
Proof.
  induction bs as [|b bs IH]; intros w Ho Hk; cbn [pipewrite_loop].
  - unfold wakeup. ksteps. apply wp_release; [done|]. ksteps. exists [], []. split; [done|].
    unfold write_end. simpl. rewrite app_nil_r, Z.add_0_r, u32_small by apply (po_nwrite _ Ho).
    split_and!; try done; [|by left]. by destruct Ho.
  - ksteps. destruct (full (pp w)) eqn:Hf.
    + destruct (readopen (pp w)) eqn:Hr; cbn [negb orb]; unfold wakeup, sleep; ksteps; (apply wp_release; [done|]); ksteps;
        exists [], (b :: bs); (split; [done|]); unfold write_end; simpl;
        rewrite app_nil_r, Z.add_0_r, u32_small by apply (po_nwrite _ Ho);
        (split_and!; try done; [by destruct Ho|]); right; (split_and!; [done|done|]); [right|left]; done.
    + ksteps. eapply wp_mono; [apply IH; [by apply put_ok|done]|].
      intros r w' (bs1 & bs2 & -> & Hw). exists (b :: bs1), bs2. split; [done|].
      unfold write_end in *. destruct Hw as (H1 & H2 & H3 & H4 & H5 & H6). cbn [pp queue upd_pipe] in *.
      rewrite contents_put in H4 by done. rewrite <- app_assoc in H4. split_and!; try done.
      rewrite H5. simpl. unfold u32. dlia.
Qed.

Lemma wp_piperead_loop n : forall w, pipe_ok (pp w) ->
  wp (piperead_loop n) (fun bs w' => pipe_ok (pp w') /\ p_lock (pp w') = p_lock (pp w) /\ same_ends (pp w) (pp w') /\
    queue w' = queue w /\ contents (pp w) = bs ++ contents (pp w') /\
    (length bs = n \/ (count (pp w') = 0 /\ (length bs < n)%nat))) w.
Proof.
  induction n as [|n IH]; intros w Ho; cbn [piperead_loop]; ksteps; [by split_and!; auto|].
  destruct (nread (pp w) =? nwrite (pp w)) eqn:He.
  - ksteps. split_and!; try done. right. split; [by apply empty_count|simpl; lia].
  - assert (Hc : count (pp w) <> 0) by (intros E%empty_count; congruence).
    ksteps. eapply wp_mono; [apply IH; by apply skip_ok|].
    intros bs w' (H1 & H2 & H3 & H4 & H5 & H6). ksteps. split_and!; try done.
    + cbn [pp upd_pipe] in H5. by rewrite (contents_skip (pp w)), H5.
    + simpl. destruct H6 as [->|[? ?]]; [by left|right; split; [done|lia]].
Qed.

Lemma contents_length p : Z.of_nat (length (contents p)) = count p.
Proof. unfold contents. rewrite length_fmap, length_seqZ. pose proof (u32_range (nwrite p - nread p)). unfold count. lia. Qed.

Lemma chans_differ : nread_chan <> nwrite_chan.
Proof. unfold nread_chan, nwrite_chan. lia. Qed.

Lemma put_bytes_end t n bs1 bs2 w r w' :
  Z.of_nat (length (bs1 ++ bs2)) < 2 ^ 31 -> pipe_ok (pp w) -> write_end t n bs1 bs2 w r w' ->
  put_bytes (pp w) (pp w') (bs1 ++ bs2) = bs1.
Proof.
  intros Hl Ho (_ & _ & _ & _ & Hn & _). unfold put_bytes. rewrite Hn. rewrite length_app in Hl.
  replace (Z.to_nat _) with (length bs1); [by rewrite take_app_length|].
  destruct Ho as [_ _ _ H3]. unfold u32. dlia.
Qed.

Lemma pinv_write t n bs s w' r :
  pinv s -> (jobs s t = Free \/ (jobs s t = Writing n bs /\ ~ sq_on (queue (pw s)) t nwrite_chan)) ->
  Z.of_nat (length bs) < 2 ^ 31 ->
  pipewrite t false n bs (pw s) = Done r w' ->
  pinv {| pw := w'; jobs := fupd (jobs s) t (after_write n r);
          wrote := wrote s ++ put_bytes (pp (pw s)) (pp w') bs; got := got s |}.
Proof.
  intros I Hj Hlen Hw.
  assert (W : wp (pipewrite t false n bs) (fun r w' => exists bs1 bs2, bs = bs1 ++ bs2 /\
    write_end t n bs1 bs2 (pw s) r w') (pw s)).
  { unfold pipewrite. ksteps. apply wp_acquire; [apply (pv_lock _ I)|].
    eapply wp_mono; [apply (wp_pipewrite_loop t n bs (set_held tt true (pw s))); [|done]; by destruct (pv_ok _ I)|].
    intros r0 w0 Hx. exact Hx. }
  unfold wp in W. rewrite Hw in W. destruct W as (bs1 & bs2 & -> & We).
  pose proof (put_bytes_end _ _ _ _ _ _ _ Hlen (pv_ok _ I) We) as Hpb.
  destruct We as (H1 & H2 & [H3 H3'] & H4 & _ & H6).
  assert (Hns : ~ sq_on (queue (pw s)) t nwrite_chan /\ ~ sq_on (queue (pw s)) t nread_chan).
  { split; intros Hs.
    - destruct (pv_on_nwrite _ I t Hs) as ((? & ? & ?) & _). destruct Hj as [?|[? ?]]; [congruence|done].
    - destruct (pv_on_nread _ I t Hs) as ((? & ?) & _). destruct Hj as [?|[? ?]]; congruence. }
  assert (Hfull : full (pp (pw s)) = true -> full (pp w') = true).
  { intros Hf%full_count; [|apply (pv_ok _ I)]. apply full_count; [done|].
    pose proof (contents_length (pp w')) as L. rewrite H4, length_app in L.
    pose proof (contents_length (pp (pw s))). pose proof (po_count _ H1). lia. }
  assert (Hothers : forall u, u <> t -> sq_on (queue (pw s)) u nwrite_chan ->
    (exists n0 bs, fupd (jobs s) t (after_write n r) u = Writing n0 bs) /\ full (pp w') = true /\ readopen (pp w') = true).
  { intros u Hu (Hjob & Hf & Hr)%(pv_on_nwrite _ I). rewrite fupd_other by done. split_and!; [done|auto|congruence]. }
  constructor; cbn [pw jobs wrote got].
  - done.
  - done.
  - by rewrite Hpb, H4, (pv_fifo _ I), app_assoc.
  - intros u n0 bs. unfold fupd. destruct (decide (u = t)) as [->|]; [|apply (pv_writing _ I)].
    destruct H6 as [(-> & _)|(Hne & _ & [(-> & _)|(-> & _)])]; simpl; try done. intros [= <- <-]. split; [done|].
    rewrite length_app in Hlen. lia.
  - intros u. destruct H6 as [(-> & _ & ->)|(_ & Hf & [(-> & _ & ->)|(-> & Hr & ->)])].
    + intros [Hs _]%sq_wakeup_spec. apply Hothers; [|done]. intros ->. tauto.
    + intros Hs. apply Hothers; [|done]. intros ->. tauto.
    + intros [[-> _]|[Hu [Hs _]%sq_wakeup_spec]]%sq_sleep_spec; [|by apply Hothers].
      rewrite fupd_same. split_and!; [by eexists _, _|done|congruence].
  - intros u. destruct H6 as [(-> & _ & ->)|(_ & Hf & [(-> & Hr & ->)|(-> & Hr & ->)])].
    + by intros [_ Hs]%sq_wakeup_spec.
    + intros ((n0 & Hjob) & _)%(pv_on_nread _ I). apply (pv_reading _ I) in Hjob. congruence.
    + intros [[_ E]|[_ [_ Hs]%sq_wakeup_spec]]%sq_sleep_spec; [|done]. by destruct chans_differ.
  - intros u n0. unfold fupd. destruct (decide (u = t)) as [->|]; [by destruct r|].
    rewrite H3. apply (pv_reading _ I).
Qed.

(** How a read segment can end. *)
Definition read_end (t : nat) (w : pworld) (r : segment (option (list Z)) unit) (w' : pworld) : Prop :=
  pipe_ok (pp w') /\ p_lock (pp w') = false /\ same_ends (pp w) (pp w') /\
  contents (pp w) = read_bytes r ++ contents (pp w') /\
  ((r = Wait tt /\ count (pp w) = 0 /\ writeopen (pp w) = true /\ queue w' = sq_sleep t nread_chan (queue w)) \/
   (exists bs, r = Return (Some bs) /\ queue w' = sq_wakeup nwrite_chan (queue w) /\
      (count (pp w) <> 0 \/ writeopen (pp w) = false))).

Lemma wp_piperead t n w : pipe_ok (pp w) -> p_lock (pp w) = false -> wp (piperead t false n) (read_end t w) w.
Proof.
  intros Ho Hk. unfold piperead. ksteps. apply wp_acquire; [done|]. ksteps. set (w1 := set_held tt true w).
  assert (Ho1 : pipe_ok (pp w1)) by by destruct Ho.
  assert (Hempty : count (pp w) = 0 -> (nread (pp w1) =? nwrite (pp w1)) = true) by (intros; by apply (empty_count _ Ho1)).
  destruct ((nread (pp w1) =? nwrite (pp w1)) && writeopen (pp w1)) eqn:He.
  - apply andb_true_iff in He as [He%empty_count Hwo]; [|done]. unfold sleep. ksteps. apply wp_release; [done|].
    ksteps. unfold read_end. split_and!; try done; [by destruct Ho|by left].
  - ksteps. eapply wp_mono; [by apply wp_piperead_loop|]. intros bs w2 (H1 & H2 & H3 & H4 & H5 & _).
    unfold wakeup. ksteps. apply wp_release; [exact H2|]. ksteps. unfold read_end.
    split_and!; try done; [by destruct H1|]. right. exists bs. split; [done|]. simpl. rewrite H4. split; [done|].
    apply andb_false_iff in He as [He|He]; [left|by right]. intros E%Hempty. congruence.
Qed.

Lemma pinv_read t n s w' r :
  pinv s -> (jobs s t = Free /\ readopen (pp (pw s)) = true) \/
    (jobs s t = Reading n /\ ~ sq_on (queue (pw s)) t nread_chan) ->
  piperead t false n (pw s) = Done r w' ->
  pinv {| pw := w'; jobs := fupd (jobs s) t (after_read n r); wrote := wrote s; got := got s ++ read_bytes r |}.
Proof.
  intros I Hj Hw.
  assert (Hro : readopen (pp (pw s)) = true).
  { destruct Hj as [[_ ?]|[Hj _]]; [done|]. by apply (pv_reading _ I) in Hj. }
  assert (Hns : ~ sq_on (queue (pw s)) t nwrite_chan).
  { intros Hs. destruct (pv_on_nwrite _ I t Hs) as ((? & ? & ?) & _). destruct Hj as [[? _]|[? ?]]; congruence. }
  pose proof (wp_piperead t n (pw s) (pv_ok _ I) (pv_lock _ I)) as W. unfold wp in W. rewrite Hw in W.
  destruct W as (H1 & H2 & [H3 H3'] & H4 & H5).
  constructor; cbn [pw jobs wrote got].
  - done.
  - done.
  - by rewrite (pv_fifo _ I), H4, app_assoc.
  - intros u n0 bs. unfold fupd. destruct (decide (u = t)) as [->|]; [by destruct r|apply (pv_writing _ I)].
  - intros u. destruct H5 as [(-> & Hc & Hwo & ->)|(bs & -> & -> & _)]; [|by intros [_ ?]%sq_wakeup_spec].
    intros [[_ E]|[Hu Hs]]%sq_sleep_spec; [by destruct chans_differ|].
    rewrite fupd_other by done. destruct (pv_on_nwrite _ I u Hs) as (Hjob & Hf & Hr).
    exfalso. apply full_count in Hf; [|apply (pv_ok _ I)]. unfold PIPESIZE in Hf. lia.
  - intros u. destruct H5 as [(-> & Hc & Hwo & ->)|(bs & -> & -> & Hne)].
    + simpl in H4. pose proof (contents_length (pp w')) as L. rewrite <- H4, contents_length in L.
      intros [[-> _]|[Hu Hs]]%sq_sleep_spec.
      * rewrite fupd_same. split_and!; [by eexists|lia|congruence].
      * rewrite fupd_other by done. destruct (pv_on_nread _ I u Hs) as (Hjob & _ & _). split_and!; [done|lia|congruence].
    + intros [Hs _]%sq_wakeup_spec. destruct (pv_on_nread _ I u Hs) as (_ & Hc & Hwo). destruct Hne; congruence.
  - intros u n0. rewrite H3. done.
Qed.

Lemma contents_ends p r w : contents (set_open r w p) = contents p.
Proof. done. Qed.

Lemma pinv_close b s w' r :
  pinv s -> (b = false -> forall t n, jobs s t <> Reading n) -> (b = true -> forall t n bs, jobs s t <> Writing n bs) ->
  pipeclose b (pw s) = Done r w' -> pinv {| pw := w'; jobs := jobs s; wrote := wrote s; got := got s |}.
Proof.
  intros I Hr Hwr Hc. destruct (pv_ok _ I).
  assert (W : wp (pipeclose b) (fun _ w' => p_lock (pp w') = false /\ pipe_ok (pp w') /\
    contents (pp w') = contents (pp (pw s)) /\
    queue w' = sq_wakeup (if b then nread_chan else nwrite_chan) (queue (pw s)) /\ full (pp w') = full (pp (pw s)) /\
    count (pp w') = count (pp (pw s)) /\ readopen (pp w') = (if b then readopen (pp (pw s)) else false) /\
    writeopen (pp w') = (if b then false else writeopen (pp (pw s)))) (pw s)).
  { unfold pipeclose, wakeup. ksteps. apply wp_acquire; [apply (pv_lock _ I)|]. destruct b; ksteps; (apply wp_release; [done|]); ksteps;
      split_and!; done. }
  unfold wp in W. rewrite Hc in W. destruct W as (H1 & H2 & H3 & H4 & H5 & H6 & H7 & H8).
  constructor; cbn [pw jobs wrote got]; try done.
  - rewrite H3. apply (pv_fifo _ I).
  - apply (pv_writing _ I).
  - intros u. rewrite H4. intros [Hs Hne]%sq_wakeup_spec. destruct b; [|done].
    destruct (pv_on_nwrite _ I u Hs) as (Hj & Hf & Ho). split_and!; [done|congruence..].
  - intros u. rewrite H4. intros [Hs Hne]%sq_wakeup_spec. destruct b; [done|].
    destruct (pv_on_nread _ I u Hs) as (Hj & Hf & Ho). split_and!; [done|congruence..].
  - intros u n Hj. rewrite H7. destruct b; [by apply (pv_reading _ I) in Hj|]. by apply Hr in Hj.
Qed.

Lemma pinv_step s s' : pinv s -> pstep s s' -> pinv s'.
Proof.
  intros I Hs. destruct Hs.
  - eapply pinv_write; eauto. lia.
  - eapply pinv_write; eauto. by apply (pv_writing _ I t n bs).
  - eapply pinv_read; eauto.
  - eapply pinv_read; eauto.
  - by eapply (pinv_close false).
  - by eapply (pinv_close true).
Qed.

(** A new pipe, nobody using it. *)
Definition fresh (p : pipe) (q : Q) : psys :=
  {| pw := {| pp := pipe_init p; queue := q |}; jobs := fun _ => Free; wrote := []; got := [] |}.

Lemma pinv_fresh p q :
  length (data p) = 512%nat -> (forall t, ~ sq_on q t nread_chan /\ ~ sq_on q t nwrite_chan) -> pinv (fresh p q).
Proof.
  intros Hl Hq. constructor; simpl; try done.
  - intros t Hs. by destruct (Hq t).
  - intros t Hs. by destruct (Hq t).
Qed.

Lemma pinv_reachable p q s :
  length (data p) = 512%nat -> (forall t, ~ sq_on q t nread_chan /\ ~ sq_on q t nwrite_chan) ->
  rtc pstep (fresh p q) s -> pinv s.
Proof. intros Hl Hq H0. pose proof (pinv_fresh p q Hl Hq) as I. induction H0; eauto using pinv_step. Qed.

(** A killed writer with more bytes than there is room for. *)
Lemma wp_pipewrite_killed t n bs : forall w,
  pipe_ok (pp w) -> p_lock (pp w) = true -> PIPESIZE - count (pp w) < Z.of_nat (length bs) ->
  wp (pipewrite_loop t true n bs) (fun r w' => r = Return (-1) /\ queue w' = queue w /\
    contents (pp w') = contents (pp w) ++ take (Z.to_nat (PIPESIZE - count (pp w))) bs) w.
Proof.
  induction bs as [|b bs IH]; intros w Ho Hk Hl; cbn [pipewrite_loop].
  - pose proof (po_count _ Ho). simpl in Hl. lia.
  - ksteps. destruct (full (pp w)) eqn:Hf.
    + rewrite orb_true_r. ksteps. apply wp_release; [done|]. ksteps. split_and!; [done|done|].
      apply full_count in Hf; [|done]. rewrite Hf, Z.sub_diag. simpl. by rewrite app_nil_r.
    + ksteps. pose proof (count_put b _ Ho Hf) as Hc. pose proof (put_ok b _ Ho Hf) as Ho'.
      assert (Hne : count (pp w) <> PIPESIZE) by (intros E%full_count; [congruence|done]).
      pose proof (po_count _ Ho).
      eapply wp_mono; [apply IH; [done|done|]|].
      { cbn [pp upd_pipe]. rewrite Hc. simpl in Hl. lia. }
      intros r w' (-> & H1 & H2). split_and!; [done|done|]. cbn [pp upd_pipe] in H2.
      rewrite H2, Hc, contents_put, <- app_assoc by done.
      replace (Z.to_nat (PIPESIZE - count (pp w))) with (S (Z.to_nat (PIPESIZE - (count (pp w) + 1)))) by lia. done.
Qed.

(** ** Properties *)

(** C18.  A pipe is a FIFO: whatever readers and writers do, in any
    interleaving, the bytes written so far are the bytes read so far followed
    by the at most 512 bytes in the buffer, across the wrap-around of the
    32-bit counters. *)
Theorem pipe_fifo p q s :
  length (data p) = 512%nat -> (forall t, ~ sq_on q t nread_chan /\ ~ sq_on q t nwrite_chan) ->
  rtc pstep (fresh p q) s ->
  wrote s = got s ++ contents (pp (pw s)) /\ Z.of_nat (length (contents (pp (pw s)))) <= PIPESIZE.
Proof.
  intros Hl Hq H0. pose proof (pinv_reachable _ _ _ Hl Hq H0) as I. split; [apply (pv_fifo _ I)|].
  rewrite contents_length. apply (po_count _ (pv_ok _ I)).
Qed.

(** No reader or writer is left asleep without reason: a thread asleep in
    [pipewrite] sleeps on a full pipe whose read end is open, one asleep in
    [piperead] on an empty pipe whose write end is open (no process using the
    pipe being killed). *)
Theorem pipe_sleepers_justified p q s t :
  length (data p) = 512%nat -> (forall t, ~ sq_on q t nread_chan /\ ~ sq_on q t nwrite_chan) ->
  rtc pstep (fresh p q) s ->
  (sq_on (queue (pw s)) t nwrite_chan ->
    Z.of_nat (length (contents (pp (pw s)))) = PIPESIZE /\ readopen (pp (pw s)) = true) /\
  (sq_on (queue (pw s)) t nread_chan -> contents (pp (pw s)) = [] /\ writeopen (pp (pw s)) = true).
Proof.
  intros Hl Hq H0. pose proof (pinv_reachable _ _ _ Hl Hq H0) as I. split.
  - intros (_ & Hf & Hr)%(pv_on_nwrite _ I). split; [|done]. rewrite contents_length. by apply full_count; [apply (pv_ok _ I)|].
  - intros (_ & Hc & Hw)%(pv_on_nread _ I). split; [|done]. apply length_zero_iff_nil.
    pose proof (contents_length (pp (pw s))). lia.
Qed.

(** The reason for that proviso: a killed writer that fills the pipe
    returns -1 without waking the reader, which stays asleep on a pipe with
    512 bytes in it. *)
Theorem killed_writer_strands_reader t u n bs w r w' :
  pipe_ok (pp w) -> p_lock (pp w) = false -> count (pp w) = 0 -> sq_on (queue w) t nread_chan ->
  (512 < length bs)%nat -> pipewrite u true n bs w = Done r w' ->
  r = Return (-1) /\ sq_on (queue w') t nread_chan /\ contents (pp w') = take 512 bs.
Proof.
  intros Ho Hk Hc Hs Hl Hw.
  assert (W : wp (pipewrite u true n bs) (fun r w' => r = Return (-1) /\ queue w' = queue w /\
    contents (pp w') = contents (pp w) ++ take (Z.to_nat (PIPESIZE - count (pp w))) bs) w).
  { unfold pipewrite. ksteps. apply wp_acquire; [done|].
    eapply wp_mono; [apply (wp_pipewrite_killed u n bs (set_held tt true w)); [by destruct Ho|done|]|].
    - change (count (pp (set_held tt true w))) with (count (pp w)). unfold PIPESIZE. lia.
    - intros r0 w0 Hx. exact Hx. }
  unfold wp in W. rewrite Hw in W. destruct W as (-> & -> & ->). split_and!; [done|done|].
  rewrite Hc. replace (contents (pp w)) with (@nil Z); [done|].
  symmetry. apply length_zero_iff_nil. pose proof (contents_length (pp w)). lia.
Qed.

(** [pipecanread] is exact: it returns 1 when [piperead] would not
    block, 0 when it would. *)
Theorem pipecanread_correct w t :
  pipe_ok (pp w) -> p_lock (pp w) = false ->
  exists r w1, pipecanread w = Done r w1 /\ pp w1 = pp w /\
    (r = 1 <-> exists bs w2, piperead t false 1 w = Done (Return (Some bs)) w2).
Proof.
  intros Ho Hk.
  pose proof (wp_piperead t 1 w Ho Hk) as W. apply wp_done in W as (rr & w2 & E2 & _ & _ & _ & _ & Hr).
  assert (W : wp pipecanread (fun r w1 => pp w1 = pp w /\
    r = (if negb (nwrite (pp w) =? nread (pp w)) then 1 else if negb (writeopen (pp w)) then 1 else 0)) w).
  { unfold pipecanread. ksteps. apply wp_acquire; [done|]. ksteps. apply wp_release; [done|]. ksteps. split; [|done].
    simpl. destruct (pp w). simpl in Hk. by subst. }
  apply wp_done in W as (r & w1 & E1 & H1 & ->). eexists. exists w1. split_and!; [exact E1|done|].
  rewrite Z.eqb_sym. pose proof (empty_count (pp w) Ho) as He. rewrite E2.
  destruct Hr as [(-> & Hc & Hwo & _)|(bs & -> & _ & Hne)].
  - apply He in Hc as ->. rewrite Hwo. simpl. split; [done|]. by intros (? & ? & ?).
  - split; [eauto|]. intros _. destruct (nread (pp w) =? nwrite (pp w)); [|done].
    destruct Hne as [Hne|Hwo]; [by destruct Hne; apply He|by rewrite Hwo].
Qed.

(** [pipecanwrite] is not: when [nread + PIPESIZE] wraps around (once in
    every 4 GB) it says no for an empty pipe, to which [pipewrite] would write
    at once. *)
Theorem pipecanwrite_wraps w :
  pipe_ok (pp w) -> p_lock (pp w) = false -> nread (pp w) = nwrite (pp w) -> 2 ^ 32 - PIPESIZE <= nread (pp w) ->
  (exists w1, pipecanwrite w = Done 0 w1) /\
  forall t b, exists w2, pipewrite t false 1 [b] w = Done (Return 1) w2.
Proof.
  intros Ho Hk He Hw. destruct Ho as [Hl Hc Hn Hn']. split.
  - assert (W : wp pipecanwrite (fun r _ => r = 0) w).
    { unfold pipecanwrite. ksteps. apply wp_acquire; [done|]. ksteps. apply wp_release; [done|]. ksteps.
      simpl. rewrite <- He. unfold u32, PIPESIZE in *. zcases; [dlia|done]. }
    apply wp_done in W as (r & w1 & E1 & ->). eauto.
  - intros t b. assert (W : wp (pipewrite t false 1 [b]) (fun r _ => r = Return 1) w).
    { unfold pipewrite, wakeup. ksteps. apply wp_acquire; [done|]. cbn [pipewrite_loop]. ksteps.
      replace (full (pp (set_held tt true w))) with false.
      - unfold wakeup. ksteps. apply wp_release; [done|]. by ksteps.
      - symmetry. unfold full. simpl. apply Z.eqb_neq. unfold u32, PIPESIZE. dlia. }
    apply wp_done in W as (r & w1 & E1 & ->). eauto.
Qed.
End Pipe.

(** ** The process table is a sleep queue *)

#[global, program] Instance table_sleep_queue : SleepQueue (nat -> proc) := {
  sq_on q t c := sleeping_on c (q t);
  sq_sleep t c q := fupd q t (set_state SLEEPING (set_chan c (q t)));
  sq_wakeup c q := fun t => wakeup1_proc c (q t);
}.
Next Obligation.
  intros q t c c'. cbn beta. unfold wakeup1_proc, sleeping_on. case_bool_decide as Hs; simpl; [|naive_solver].
  destruct (Z.eqb_spec (chan (q t)) c); simpl; naive_solver.
Qed.
Next Obligation.
  intros q t c u c'. cbn beta. unfold fupd, sleeping_on. destruct (decide (u = t)) as [->|]; simpl; naive_solver.
Qed.

(** ** Witnesses *)

Definition pipe0 : pipe :=
  {| p_lock := false; data := replicate 512 0; nread := 0; nwrite := 0; readopen := true; writeopen := true |}.
Definition table0 : nat -> proc := fun _ => null_proc.

(** Thread 1 reads from the empty pipe and sleeps; thread 2 writes [5; 6]. *)
Definition world1 : pworld (nat -> proc) :=
  match piperead 9 1 false 4 {| pp := pipe_init pipe0; queue := table0 |} with Done _ w | Panicked _ w | Slept _ w => w end.
Definition world2 : pworld (nat -> proc) :=
  match pipewrite 9 2 false 2 [5; 6] world1 with Done _ w | Panicked _ w | Slept _ w => w end.
Definition sys1 : psys :=
  {| pw := world1; jobs := fupd (fun _ => Free) 1%nat (Reading 4); wrote := []; got := [] |}.
Definition sys2 : psys :=
  {| pw := world2; jobs := fupd (fupd (fun _ => Free) 1%nat (Reading 4)) 2%nat Free; wrote := [5; 6]; got := [] |}.

Lemma sys1_step : pstep 9 (fresh pipe0 table0) sys1.
Proof. eapply (p_read 9 1 4 (fresh pipe0 table0) world1 (Wait tt)); [done|done|vm_compute; reflexivity]. Qed.
Lemma sys2_step : pstep 9 sys1 sys2.
Proof. eapply (p_write 9 2 2 [5; 6] sys1 world2 (Return 2)); [done|done|done|done|vm_compute; reflexivity]. Qed.
Lemma sys2_reached : rtc (pstep 9) (fresh pipe0 table0) sys2.
Proof. eapply rtc_l; [apply sys1_step|]. eapply rtc_l; [apply sys2_step|]. apply rtc_refl. Qed.
Lemma nobody_asleep t : ~ sq_on table0 t (nread_chan 9) /\ ~ sq_on table0 t (nwrite_chan 9).
Proof. split; by intros []. Qed.

Lemma pipe_fifo_witness : wrote sys2 = got sys2 ++ contents (pp (pw sys2)).
Proof. exact (proj1 (pipe_fifo 9 pipe0 table0 sys2 eq_refl nobody_asleep sys2_reached)). Defined.

Lemma pipe_sleepers_justified_witness :
  sq_on (queue (pw sys1)) 1 (nread_chan 9) /\ contents (pp (pw sys1)) = [].
Proof.
  split; [done|]. apply (pipe_sleepers_justified 9 pipe0 table0 sys1 1 eq_refl nobody_asleep).
  - eapply rtc_l; [apply sys1_step|]. apply rtc_refl.
  - done.
Defined.

Definition stranded : pworld (nat -> proc) :=
  match pipewrite 9 2 true 513 (replicate 513 7) world1 with Done _ w | Panicked _ w | Slept _ w => w end.
Lemma stranded_done : pipewrite 9 2 true 513 (replicate 513 7) world1 = Done (Return (-1)) stranded.
Proof. vm_compute. reflexivity. Qed.
Lemma killed_writer_strands_reader_witness :
  sq_on (queue stranded) 1 (nread_chan 9) /\ contents (pp stranded) = take 512 (replicate 513 7).
Proof.
  refine (proj2 (killed_writer_strands_reader 9 1 2 513 (replicate 513 7) world1 (Return (-1)) stranded
    _ _ _ _ _ stranded_done)); [constructor; vm_compute; done|done|done|done|vm_compute; lia].
Defined.

Lemma pipecanread_correct_witness :
  exists r w1, pipecanread world2 = Done r w1 /\
    (r = 1 <-> exists bs w2, piperead 9 1 false 1 world2 = Done (Return (Some bs)) w2).
Proof.
  destruct (pipecanread_correct 9 world2 1) as (r & w1 & E & _ & Hr); [constructor; vm_compute; done|done|].
  by exists r, w1.
Defined.

Definition world_wrap : pworld (nat -> proc) :=
  {| pp := {| p_lock := false; data := replicate 512 0; nread := 2 ^ 32 - 256; nwrite := 2 ^ 32 - 256;
              readopen := true; writeopen := true |}; queue := table0 |}.
Lemma pipecanwrite_wraps_witness : exists w1, pipecanwrite world_wrap = Done 0 w1.
Proof.
  apply (pipecanwrite_wraps 9 world_wrap); [constructor; vm_compute; done|done|done|vm_compute; done].
Defined.
