(* ===== verification/Bytes.v ===== *)
(** * Bytes and the machine words stored in them

    A memory block is a list of bytes.  [le_enc]/[le_dec] lay an unsigned word
    of [n] bytes out the way an x86 store does; [getn]/[putn] are the load and
    the store at a byte offset; [splice] is [memmove] into the middle of a
    block. *)

From Stdlib Require Import ZArith Lia.
From S2P Require Import Prelude.

Fixpoint le_enc (n : nat) (v : Z) : list Z :=
  match n with O => [] | S n' => v mod 256 :: le_enc n' (v / 256) end.
Definition le_dec (l : list Z) : Z := foldr (fun b acc => b + 256 * acc) 0 l.

(** [bs] written over [d] from offset [off]. *)
Definition splice (off : nat) (bs d : list Z) : list Z := take off d ++ bs ++ drop (off + length bs) d.
(** [n] bytes of [d] from offset [off]. *)
Definition slice (off n : nat) (d : list Z) : list Z := take n (drop off d).

Definition getn (n off : nat) (d : list Z) : Z := le_dec (slice off n d).
Definition putn (n off : nat) (v : Z) (d : list Z) : list Z := splice off (le_enc n v) d.

Definition byte (x : Z) : Prop := 0 <= x < 256.
Definition bytes (l : list Z) : Prop := Forall byte l.

(** ** Words *)

Lemma le_enc_len n v : length (le_enc n v) = n.
Proof. revert v. induction n; simpl; intros; [done|by rewrite IHn]. Qed.

Lemma le_enc_bytes n v : bytes (le_enc n v).
Proof. revert v. induction n; intros v; constructor; [unfold byte; dlia|apply IHn]. Qed.

Lemma pow256 n : 2 ^ (8 * Z.of_nat (S n)) = 256 * 2 ^ (8 * Z.of_nat n).
Proof. replace (8 * Z.of_nat (S n)) with (8 + 8 * Z.of_nat n) by lia. rewrite Z.pow_add_r by lia. done. Qed.

Lemma le_dec_enc n v : le_dec (le_enc n v) = v mod 2 ^ (8 * Z.of_nat n).
Proof.
  revert v. induction n as [|n IH]; intros v; [by rewrite Z.mod_1_r|].
  cbn [le_enc le_dec foldr]. fold (le_dec (le_enc n (v / 256))). rewrite IH, pow256.
  pose proof (Z.pow_pos_nonneg 2 (8 * Z.of_nat n)). rewrite Z.rem_mul_r by lia. done.
Qed.

Lemma le_dec_range l : bytes l -> 0 <= le_dec l < 2 ^ (8 * Z.of_nat (length l)).
Proof.
  induction 1 as [|b l Hb _ IH]; [simpl; lia|].
  cbn [length]. rewrite pow256. change (le_dec (b :: l)) with (b + 256 * le_dec l). unfold byte in Hb. lia.
Qed.

Lemma le_enc_dec l : bytes l -> le_enc (length l) (le_dec l) = l.
Proof.
  induction 1 as [|b l Hb _ IH]; [done|]. cbn [length le_enc].
  change (le_dec (b :: l)) with (b + 256 * le_dec l). unfold byte in Hb.
  replace (b + 256 * le_dec l) with (b + le_dec l * 256) by lia.
  rewrite Z.mod_add, Z.div_add, Z.mod_small, Z.div_small by lia. by rewrite Z.add_0_l, IH.
Qed.

(** ** Blocks *)

Lemma splice_len off bs d : (off + length bs <= length d)%nat -> length (splice off bs d) = length d.
Proof. intros. unfold splice. rewrite !length_app, length_take, length_drop. lia. Qed.

Lemma slice_len off n d : (off + n <= length d)%nat -> length (slice off n d) = n.
Proof. intros. unfold slice. rewrite length_take, length_drop. lia. Qed.

Lemma slice_splice_same off bs d :
  (off + length bs <= length d)%nat -> slice off (length bs) (splice off bs d) = bs.
Proof.
  intros. unfold slice, splice. rewrite drop_app_length' by (rewrite length_take; lia). apply take_app_length.
Qed.

Lemma slice_lookup off n d i : slice off n d !! i = if decide (i < n)%nat then d !! (off + i)%nat else None.
Proof.
  unfold slice. destruct (decide (i < n)%nat).
  - by rewrite lookup_take_lt, lookup_drop.
  - apply lookup_take_ge. lia.
Qed.

Lemma splice_lookup off bs d i : (off + length bs <= length d)%nat ->
  splice off bs d !! i = if decide (off <= i < off + length bs)%nat then bs !! (i - off)%nat else d !! i.
Proof.
  intros Hb. unfold splice. destruct (decide (off <= i < off + length bs)%nat) as [Hi|Hi].
  - rewrite lookup_app_r, length_take, lookup_app_l by (rewrite ?length_take; lia). f_equal. lia.
  - destruct (decide (i < off)%nat) as [Hl|Hl].
    + rewrite lookup_app_l by (rewrite length_take; lia). by rewrite lookup_take_lt.
    + rewrite lookup_app_r, length_take, lookup_app_r, lookup_drop by (rewrite ?length_take; lia). f_equal. lia.
Qed.

Lemma slice_splice_other off bs d off' n :
  (off + length bs <= length d)%nat -> (off' + n <= off \/ off + length bs <= off')%nat ->
  slice off' n (splice off bs d) = slice off' n d.
Proof.
  intros Hb Hd. apply list_eq. intros i. rewrite !slice_lookup, splice_lookup by done.
  destruct (decide (i < n)%nat); [|done]. destruct (decide _); [lia|done].
Qed.

Lemma slice_splice_in off bs d off' n :
  (off + length bs <= length d)%nat -> (off <= off')%nat -> (off' + n <= off + length bs)%nat ->
  slice off' n (splice off bs d) = slice (off' - off) n bs.
Proof.
  intros Hb H1 H2. apply list_eq. intros i. rewrite !slice_lookup, splice_lookup by done.
  destruct (decide (i < n)%nat); [|done]. destruct (decide _); [f_equal; lia|lia].
Qed.

Lemma slice_slice off n off' n' d :
  (off' + n' <= n)%nat -> slice off' n' (slice off n d) = slice (off + off') n' d.
Proof.
  intros H. apply list_eq. intros i. rewrite !slice_lookup.
  destruct (decide (i < n')%nat); [|done]. destruct (decide (off' + i < n)%nat); [f_equal; lia|lia].
Qed.

Lemma splice_slice off n d : (off + n <= length d)%nat -> splice off (slice off n d) d = d.
Proof.
  intros H. apply list_eq. intros i. rewrite splice_lookup, slice_len, slice_lookup by (rewrite ?slice_len; lia).
  destruct (decide _); [|done]. destruct (decide _); [f_equal; lia|lia].
Qed.

Lemma slice_all d : slice 0 (length d) d = d.
Proof. unfold slice. rewrite drop_0. by apply firstn_all. Qed.

Lemma splice_bytes off bs d : bytes bs -> bytes d -> bytes (splice off bs d).
Proof. intros. unfold splice, bytes. rewrite !Forall_app. auto using Forall_take, Forall_drop. Qed.
Lemma slice_bytes off n d : bytes d -> bytes (slice off n d).
Proof. intros. unfold slice, bytes. auto using Forall_take, Forall_drop. Qed.

(** ** Loads and stores *)

Lemma putn_len n off v d : (off + n <= length d)%nat -> length (putn n off v d) = length d.
Proof. intros. apply splice_len. by rewrite le_enc_len. Qed.
Lemma putn_bytes n off v d : bytes d -> bytes (putn n off v d).
Proof. intros. apply splice_bytes; [apply le_enc_bytes|done]. Qed.

Lemma getn_putn_same n off v d :
  (off + n <= length d)%nat -> getn n off (putn n off v d) = v mod 2 ^ (8 * Z.of_nat n).
Proof.
  intros. unfold getn, putn. pose proof (slice_splice_same off (le_enc n v) d) as Hs.
  rewrite le_enc_len in Hs. rewrite Hs by done. apply le_dec_enc.
Qed.

Lemma getn_putn_other n off v d m off' :
  (off + n <= length d)%nat -> (off' + m <= off \/ off + n <= off')%nat ->
  getn m off' (putn n off v d) = getn m off' d.
Proof. intros. unfold getn, putn. rewrite slice_splice_other; rewrite ?le_enc_len; done. Qed.

Lemma getn_range n off d : bytes d -> (off + n <= length d)%nat -> 0 <= getn n off d < 2 ^ (8 * Z.of_nat n).
Proof.
  intros Hb Hl. pose proof (le_dec_range (slice off n d)) as Hr. rewrite slice_len in Hr by done.
  apply Hr. by apply slice_bytes.
Qed.

Create HintDb blocks.
#[export] Hint Resolve splice_bytes slice_bytes putn_bytes le_enc_bytes : blocks.
Create Rewrite HintDb blocks.
#[export] Hint Rewrite splice_len slice_len putn_len le_enc_len using lia : blocks.
