(* ===== verification/Bio.v ===== *)
(** * kernel/bio.c, kernel/disk.c and the sector transfers of kernel/usb.c

    The buffer cache is the array [bcache.buf] with its doubly linked list of
    indices; [HEAD] stands for [&bcache.head].  The USB disk is a function from
    sectors to blocks behind SCSI READ(10)/WRITE(10) commands, with the
    sequence of the sectors written ([writes]) and an oracle of the commands
    that fail ([faults]: [true] for a failure, which transfers nothing; no more
    entries means no more failures).  The driver is in the polled mode in which
    [diskinit] leaves it.  [wakes] records the channels [wakeup] is called on;
    what [wakeup] does to the process table is in the process files. *)

From Stdlib Require Import ZArith Lia.
From S2P Require Import Prelude Spinlock.

Definition NBUF : nat := 10.
Definition HEAD : nat := 10.
Definition BSIZE : nat := 512.
Definition ROOTDEV : Z := 1.
Definition FS_SECTOR_OFFSET : Z := 10000.

Abbreviation block := (list Z).

(** [struct buf]; [prev] and [next] are indices. *)
Record buf := {
  b_busy : bool; b_valid : bool; b_dirty : bool; (* flags *)
  b_dev : Z; b_sector : Z; b_prev : nat; b_next : nat; b_data : block;
}.

Record bcache := {
  bc_lock : bool;
  bufs : list buf;         (* bcache.buf, then bcache.head *)
  usblock : bool;
  usb_ready : bool;        (* usb_inited and msd_found *)
  disk : Z -> block;
  writes : list (Z * block);
  faults : list bool;
  wakes : list Z;
}.

Inductive block_lock := BCACHE | USB.
#[global] Instance bcache_locks : HasLocks block_lock bcache := {
  held l s := match l with BCACHE => bc_lock s | USB => usblock s end;
  set_held l b s :=
    {| bc_lock := match l with BCACHE => b | USB => bc_lock s end; bufs := bufs s;
       usblock := match l with BCACHE => usblock s | USB => b end; usb_ready := usb_ready s;
       disk := disk s; writes := writes s; faults := faults s; wakes := wakes s |};
}.

Definition null_buf : buf :=
  {| b_busy := false; b_valid := false; b_dirty := false; b_dev := 0; b_sector := 0; b_prev := 0; b_next := 0;
     b_data := replicate BSIZE 0 |}.
Definition bufat (s : bcache) (i : nat) : buf := nth i (bufs s) null_buf.
Definition upd_bufs (f : list buf -> list buf) (s : bcache) : bcache :=
  {| bc_lock := bc_lock s; bufs := f (bufs s); usblock := usblock s; usb_ready := usb_ready s;
     disk := disk s; writes := writes s; faults := faults s; wakes := wakes s |}.
Definition upd_buf (i : nat) (f : buf -> buf) : bcache -> bcache := upd_bufs (alter f i).
Definition upd_disk (d : Z -> block) (w : list (Z * block)) (f : list bool) (s : bcache) : bcache :=
  {| bc_lock := bc_lock s; bufs := bufs s; usblock := usblock s; usb_ready := usb_ready s;
     disk := d; writes := w; faults := f; wakes := wakes s |}.

(** The channel of a buffer: its offset in [bcache.buf]. *)
Definition buf_chan (b : nat) : Z := 536 * Z.of_nat b.
Definition bwakeup (chan : Z) (s : bcache) : bcache :=
  {| bc_lock := bc_lock s; bufs := bufs s; usblock := usblock s; usb_ready := usb_ready s;
     disk := disk s; writes := writes s; faults := faults s; wakes := wakes s ++ [chan] |}.

Definition set_flags (busy valid dirty : bool) (b : buf) : buf :=
  {| b_busy := busy; b_valid := valid; b_dirty := dirty; b_dev := b_dev b; b_sector := b_sector b;
     b_prev := b_prev b; b_next := b_next b; b_data := b_data b |}.
Definition set_key (dev sector : Z) (b : buf) : buf :=
  {| b_busy := b_busy b; b_valid := b_valid b; b_dirty := b_dirty b; b_dev := dev; b_sector := sector;
     b_prev := b_prev b; b_next := b_next b; b_data := b_data b |}.
Definition set_bnext (n : nat) (b : buf) : buf :=
  {| b_busy := b_busy b; b_valid := b_valid b; b_dirty := b_dirty b; b_dev := b_dev b; b_sector := b_sector b;
     b_prev := b_prev b; b_next := n; b_data := b_data b |}.
Definition set_bprev (n : nat) (b : buf) : buf :=
  {| b_busy := b_busy b; b_valid := b_valid b; b_dirty := b_dirty b; b_dev := b_dev b; b_sector := b_sector b;
     b_prev := n; b_next := b_next b; b_data := b_data b |}.
Definition set_data (d : block) (b : buf) : buf :=
  {| b_busy := b_busy b; b_valid := b_valid b; b_dirty := b_dirty b; b_dev := b_dev b; b_sector := b_sector b;
     b_prev := b_prev b; b_next := b_next b; b_data := d |}.
Definition set_dirty (d : bool) (b : buf) : buf := set_flags (b_busy b) (b_valid b) d b.
Definition set_valid (b : buf) : buf := set_flags (b_busy b) true (b_dirty b) b.
Definition set_busy (d : bool) (b : buf) : buf := set_flags d (b_valid b) (b_dirty b) b.

(** ** The disk *)

Definition SCSI_READ_10 : Z := 0x28.
Definition SCSI_WRITE_10 : Z := 0x2A.

(** The command block the driver builds. *)
Definition scsi_cmd (op lba : Z) : list Z :=
  [op; 0; Z.land (Z.shiftr lba 24) 0xFF; Z.land (Z.shiftr lba 16) 0xFF; Z.land (Z.shiftr lba 8) 0xFF;
   Z.land lba 0xFF; 0; 0; 1; 0].
(** What the device makes of it: the logical block address of READ(10) and
    WRITE(10) is in bytes 2 to 5, big endian. *)
Definition scsi_lba (cmd : list Z) : Z :=
  nth 2 cmd 0 * 2 ^ 24 + nth 3 cmd 0 * 2 ^ 16 + nth 4 cmd 0 * 2 ^ 8 + nth 5 cmd 0.

(** The device's side of [msd_scsi_command]: the next entry of the oracle
    decides; a successful read returns the sector, a successful write stores
    it. *)
Definition msd_scsi_command (cmd : list Z) (out : block) : K bcache (option block) := fun s =>
  let f := tail (faults s) in
  match faults s with
  | true :: _ => Done None (upd_disk (disk s) (writes s) f s)
  | _ =>
      let lba := scsi_lba cmd in
      if nth 0 cmd 0 =? SCSI_WRITE_10 then
        Done (Some []) (upd_disk (fun x => if x =? lba then out else disk s x) (writes s ++ [(lba, out)]) f s)
      else Done (Some (disk s lba)) (upd_disk (disk s) (writes s) f s)
  end.

(** The retry loops of [usb_read_sector] and [usb_write_sector]. *)
Fixpoint scsi_retry (n : nat) (cmd : list Z) (out : block) : K bcache (option block) :=
  match n with
  | O => kret None
  | S n' =>
      r <- msd_scsi_command cmd out ;;
      match r with Some d => kret (Some d) | None => scsi_retry n' cmd out end
  end.
Definition usb_read_sector (lba : Z) : K bcache (option block) := scsi_retry 10 (scsi_cmd SCSI_READ_10 lba) [].
Definition usb_write_sector (lba : Z) (d : block) : K bcache (option block) :=
  scsi_retry 10 (scsi_cmd SCSI_WRITE_10 lba) d.

(** [usb_rw]: a failed transfer is tried once more after
    [usb_try_recover_disk], which runs without the lock; then the error is
    dropped. *)
Definition usb_again (m : K bcache (option block)) : K bcache (option block) :=
  r <- m ;;
  match r with
  | Some _ => kret r
  | None => release USB ;; acquire USB ;; m
  end.
Definition usb_rw (b : nat) : K bcache unit :=
  acquire USB ;;
  s <- kget ;;
  if negb (usb_ready s) then release USB ;; panic "usb_rw: not init"
  else
    let bf := bufat s b in
    let sector := if b_dev bf =? ROOTDEV then b_sector bf +u FS_SECTOR_OFFSET else b_sector bf in
    if b_dirty bf then
      r <- usb_again (usb_write_sector sector (b_data bf)) ;;
      match r with
      | None => release USB
      | Some _ =>
          kmodify (upd_buf b (set_dirty false)) ;;
          kmodify (upd_buf b set_valid) ;;
          release USB
      end
    else
      r <- usb_again (usb_read_sector sector) ;;
      match r with
      | None => release USB
      | Some d =>
          kmodify (upd_buf b (set_data d)) ;;
          kmodify (upd_buf b set_valid) ;;
          release USB
      end.

Definition diskrw (b : nat) : K bcache unit :=
  s <- kget ;;
  let bf := bufat s b in
  if negb (b_busy bf) then panic "diskrw: buf not busy"
  else if b_valid bf && negb (b_dirty bf) then panic "diskrw: nothing to do"
  else if negb (b_dev bf =? 0) && negb (b_dev bf =? ROOTDEV) then panic "diskrw: invalid device"
  else usb_rw b.

(** ** The cache *)

(** One turn of the loop of [binit]. *)
Definition binit_one (s : bcache) (b : nat) : bcache :=
  let s := upd_buf b (set_bnext (b_next (bufat s HEAD))) s in
  let s := upd_buf b (set_bprev HEAD) s in
  let s := upd_buf b (fun x => set_key (u32 (-1)) (b_sector x) x) s in
  let s := upd_buf (b_next (bufat s HEAD)) (set_bprev b) s in
  upd_buf HEAD (set_bnext b) s.
Definition binit (s : bcache) : bcache :=
  let s := set_held BCACHE false s in
  let s := upd_buf HEAD (set_bprev HEAD) s in
  let s := upd_buf HEAD (set_bnext HEAD) s in
  foldl binit_one s (seq 0 NBUF).

(** The two searches of [bget] over the list, from [i]. *)
Fixpoint scan_next (fuel : nat) (s : bcache) (P : buf -> bool) (i : nat) : option nat :=
  match fuel with
  | O => None
  | S f => if decide (i = HEAD) then None else if P (bufat s i) then Some i else scan_next f s P (b_next (bufat s i))
  end.
Fixpoint scan_prev (fuel : nat) (s : bcache) (P : buf -> bool) (i : nat) : option nat :=
  match fuel with
  | O => None
  | S f => if decide (i = HEAD) then None else if P (bufat s i) then Some i else scan_prev f s P (b_prev (bufat s i))
  end.

Definition BGET_FUEL : nat := S NBUF.

Definition same_key (dev sector : Z) (b : buf) : bool := (b_dev b =? dev) && (b_sector b =? sector).
Definition recyclable (b : buf) : bool := negb (b_busy b) && negb (b_dirty b).

(** A caller that sleeps starts again from [loop] when it is woken. *)
Definition bget (dev sector : Z) : K bcache nat :=
  acquire BCACHE ;;
  s <- kget ;;
  match scan_next BGET_FUEL s (same_key dev sector) (b_next (bufat s HEAD)) with
  | Some b =>
      if negb (b_busy (bufat s b)) then
        kmodify (upd_buf b (set_busy true)) ;;
        release BCACHE ;;
        kret b
      else release BCACHE ;; ksleep (buf_chan b)
  | None =>
      match scan_prev BGET_FUEL s recyclable (b_prev (bufat s HEAD)) with
      | Some b =>
          kmodify (upd_buf b (set_key dev sector)) ;;
          kmodify (upd_buf b (set_flags true false false)) ;;
          release BCACHE ;;
          kret b
      | None => panic "bget: no buffers"
      end
  end.

Definition bread (dev sector : Z) : K bcache nat :=
  b <- bget dev sector ;;
  s <- kget ;;
  (if negb (b_valid (bufat s b)) then diskrw b else kret tt) ;;
  kret b.

Definition bwrite (b : nat) : K bcache unit :=
  s <- kget ;;
  if negb (b_busy (bufat s b)) then panic "bwrite"
  else
    kmodify (upd_buf b (set_dirty true)) ;;
    diskrw b.

(** Move [b] to the front of the list. *)
Definition to_front (b : nat) (s : bcache) : bcache :=
  let s := upd_buf (b_next (bufat s b)) (set_bprev (b_prev (bufat s b))) s in
  let s := upd_buf (b_prev (bufat s b)) (set_bnext (b_next (bufat s b))) s in
  let s := upd_buf b (set_bnext (b_next (bufat s HEAD))) s in
  let s := upd_buf b (set_bprev HEAD) s in
  let s := upd_buf (b_next (bufat s HEAD)) (set_bprev b) s in
  upd_buf HEAD (set_bnext b) s.

Definition brelse (b : nat) : K bcache unit :=
  s <- kget ;;
  if negb (b_busy (bufat s b)) then panic "brelse"
  else
    acquire BCACHE ;;
    kmodify (to_front b) ;;
    kmodify (upd_buf b (set_busy false)) ;;
    kmodify (bwakeup (buf_chan b)) ;;
    release BCACHE.

(** What the callers do with [b->data]. *)
Definition bdata (b : nat) (s : bcache) : block := b_data (bufat s b).
Definition bset (b : nat) (d : block) : bcache -> bcache := upd_buf b (set_data d).

(** ** The list

    [seg nx pv a l z]: from [a] through [l] to [z] along [nx], and back
    along [pv]. *)

Fixpoint seg (nx pv : nat -> nat) (a : nat) (l : list nat) (z : nat) : Prop :=
  match l with
  | [] => nx a = z /\ pv z = a
  | x :: l' => nx a = x /\ pv x = a /\ seg nx pv x l' z
  end.

Lemma seg_ext nx pv nx' pv' l : forall a z,
  (forall x, x = a \/ x ∈ l -> nx' x = nx x) -> (forall x, x = z \/ x ∈ l -> pv' x = pv x) ->
  seg nx pv a l z -> seg nx' pv' a l z.
Proof.
  induction l as [|x l IH]; intros a z Hn Hp; simpl.
  - intros [H1 H2]. split; [rewrite Hn|rewrite Hp]; auto.
  - intros (Hx & Ha & Hs). split_and!.
    + rewrite Hn; auto.
    + rewrite Hp; [done|]. right. apply list_elem_of_here.
    + apply IH; [..|done]; intros y [->|Hy]; [apply Hn|apply Hn|apply Hp|apply Hp]; rewrite ?elem_of_cons; auto.
Qed.

Lemma seg_ends nx pv a l1 b l2 z :
  seg nx pv a (l1 ++ b :: l2) z -> (pv b = a \/ pv b ∈ l1) /\ (nx b = z \/ nx b ∈ l2).
Proof.
  revert a. induction l1 as [|x l1 IH]; intros a; simpl.
  - intros (_ & Hb & Hs). split; [by left|]. destruct l2; simpl in Hs; [by left; destruct Hs|right].
    destruct Hs as (-> & _). by left.
  - intros (_ & _ & [Hp Hn]%IH). split; [|done]. right. rewrite elem_of_cons. destruct Hp; auto.
Qed.

(** Taking [b] out. *)
Lemma seg_unlink nx pv b l2 z l1 : forall a,
  seg nx pv a (l1 ++ b :: l2) z -> NoDup (l1 ++ b :: l2) -> a ∉ l1 ++ b :: l2 -> z ∉ l1 ++ b :: l2 ->
  seg (fupd nx (pv b) (nx b)) (fupd pv (nx b) (pv b)) a (l1 ++ l2) z.
Proof.
  induction l1 as [|x l1 IH]; intros a; simpl.
  - intros (Ha & Hb & Hs) [Hbl Hnd]%NoDup_cons Hna Hnz. rewrite Hb. destruct l2 as [|y l2]; simpl in *.
    + destruct Hs as [Hs1 Hs2]. by rewrite Hs1, !fupd_same.
    + destruct Hs as (Hs1 & Hs2 & Hs3). rewrite Hs1, !fupd_same. split_and!; [done..|].
      apply NoDup_cons in Hnd as [Hy Hnd].
      eapply seg_ext; [..|exact Hs3]; intros w Hw; apply fupd_other; [|]; set_solver.
  - intros (Ha & Hx & Hs) [Hxl Hnd]%NoDup_cons Hna Hnz.
    destruct (seg_ends _ _ _ _ _ _ _ Hs) as [Hp Hn].
    rewrite not_elem_of_cons, not_elem_of_app, not_elem_of_cons in Hna, Hnz.
    rewrite not_elem_of_app, not_elem_of_cons in Hxl.
    split_and!; [rewrite fupd_other; [done|]; intros ->; destruct Hp as [Hp|Hp]; [|tauto]; rewrite Hp in *; tauto
                |rewrite fupd_other; [done|]; intros ->; destruct Hn as [Hn|Hn]; [|tauto]; rewrite Hn in *; tauto|].
    apply IH; [done|done|rewrite not_elem_of_app, not_elem_of_cons; tauto..].
Qed.

(** Putting [b] in behind [h]. *)
Lemma seg_insert nx pv b h l :
  seg nx pv h l h -> NoDup l -> b ∉ l -> b <> h -> h ∉ l ->
  seg (fupd (fupd nx b (nx h)) h b) (fupd (fupd pv b h) (nx h) b) h (b :: l) h.
Proof.
  intros Hs Hnd Hb Hbh Hh. assert (Hnb : nx h <> b) by (destruct l; simpl in Hs; set_solver).
  cbn [seg]. rewrite fupd_same, (fupd_other _ _ b), fupd_same by done. split_and!; [done..|].
  destruct l as [|x l]; simpl in *.
  - destruct Hs as [H1 H2]. by rewrite H1, (fupd_other _ _ b), !fupd_same.
  - destruct Hs as (H1 & H2 & H3). rewrite H1 in *. apply NoDup_cons in Hnd as [Hx Hnd].
    rewrite (fupd_other _ _ b), !fupd_same by done. split_and!; [done..|].
    eapply seg_ext; [..|exact H3]; intros w Hw; rewrite !fupd_other; set_solver.
Qed.

Definition nx (s : bcache) (i : nat) : nat := b_next (bufat s i).
Definition pv (s : bcache) (i : nat) : nat := b_prev (bufat s i).

(** [l]: the buffers from the most to the least recently used. *)
Record mru (s : bcache) (l : list nat) : Prop := {
  mru_len : length (bufs s) = S NBUF;
  mru_seg : seg (nx s) (pv s) HEAD l HEAD;
  mru_perm : (l ≡ₚ seq 0 NBUF);
}.

Lemma bufat_upd s i j f : (i < length (bufs s))%nat ->
  bufat (upd_buf i f s) j = if decide (j = i) then f (bufat s i) else bufat s j.
Proof.
  intros Hi. unfold bufat, upd_buf, upd_bufs. cbn [bufs].
  rewrite !nth_lookup. destruct (decide (j = i)) as [->|Hne].
  - rewrite list_lookup_alter_eq. destruct (bufs s !! i) eqn:E; [done|]. apply lookup_ge_None in E. lia.
  - by rewrite list_lookup_alter_ne.
Qed.

Lemma upd_buf_len s i f : length (bufs (upd_buf i f s)) = length (bufs s).
Proof. apply length_alter. Qed.

Lemma mru_facts s l : mru s l -> NoDup l /\ (HEAD ∉ l) /\ (forall x, (x ∈ l) <-> (x < NBUF)%nat).
Proof.
  intros [H1 H2 H3]. assert (Hin : forall x, (x ∈ l) <-> (x < NBUF)%nat).
  { intros x. rewrite H3, elem_of_seq. lia. }
  split_and!; [rewrite H3; apply NoDup_seq| |done]. rewrite Hin. unfold HEAD, NBUF. lia.
Qed.

(** ** Buffers without their links *)

Record bcore := { c_busy : bool; c_valid : bool; c_dirty : bool; c_dev : Z; c_sector : Z; c_data : block }.
Definition core (b : buf) : bcore :=
  {| c_busy := b_busy b; c_valid := b_valid b; c_dirty := b_dirty b; c_dev := b_dev b; c_sector := b_sector b;
     c_data := b_data b |}.
Definition cores (s : bcache) : list bcore := core <$> take NBUF (bufs s).

Lemma cores_alter s i f g : (forall x, core (f x) = g (core x)) -> cores (upd_buf i f s) = alter g i (cores s).
Proof.
  intros Hfg. unfold cores, upd_buf, upd_bufs. cbn [bufs]. apply list_eq. intros j.
  destruct (decide (j = i)) as [->|Hne].
  - rewrite list_lookup_alter_eq, !list_lookup_fmap. destruct (decide (i < NBUF)%nat).
    + rewrite !lookup_take_lt, list_lookup_alter_eq by done. destruct (bufs s !! i); simpl; [by rewrite Hfg|done].
    + by rewrite !lookup_take_ge by lia.
  - rewrite list_lookup_alter_ne, !list_lookup_fmap by done. destruct (decide (j < NBUF)%nat).
    + by rewrite !lookup_take_lt, list_lookup_alter_ne.
    + by rewrite !lookup_take_ge by lia.
Qed.

Lemma cores_links s i f : (forall x, core (f x) = core x) -> cores (upd_buf i f s) = cores s.
Proof.
  intros Hf. rewrite (cores_alter _ _ _ id) by done. apply list_eq. intros j.
  destruct (decide (j = i)) as [->|]; [rewrite list_lookup_alter_eq|by rewrite list_lookup_alter_ne].
  by destruct (cores s !! i).
Qed.

Lemma cores_lookup s i : length (bufs s) = S NBUF -> (i < NBUF)%nat -> cores s !! i = Some (core (bufat s i)).
Proof.
  intros Hl Hi. unfold cores, bufat. rewrite list_lookup_fmap, lookup_take_lt, nth_lookup by done.
  destruct (lookup_lt_is_Some_2 (bufs s) i) as [x Hx]; [lia|]. by rewrite Hx.
Qed.

Lemma cores_len s : length (bufs s) = S NBUF -> length (cores s) = NBUF.
Proof. intros Hl. unfold cores. rewrite length_fmap, length_take, Hl. done. Qed.

(** ** Moving a buffer to the front *)

Lemma nx_set_bnext s i n j : (i < length (bufs s))%nat -> nx (upd_buf i (set_bnext n) s) j = fupd (nx s) i n j.
Proof. intros. unfold nx, fupd. rewrite bufat_upd by done. by destruct (decide (j = i)). Qed.
Lemma pv_set_bnext s i n j : (i < length (bufs s))%nat -> pv (upd_buf i (set_bnext n) s) j = pv s j.
Proof. intros. unfold pv. rewrite bufat_upd by done. by destruct (decide (j = i)) as [->|]. Qed.
Lemma pv_set_bprev s i n j : (i < length (bufs s))%nat -> pv (upd_buf i (set_bprev n) s) j = fupd (pv s) i n j.
Proof. intros. unfold pv, fupd. rewrite bufat_upd by done. by destruct (decide (j = i)). Qed.
Lemma nx_set_bprev s i n j : (i < length (bufs s))%nat -> nx (upd_buf i (set_bprev n) s) j = nx s j.
Proof. intros. unfold nx. rewrite bufat_upd by done. by destruct (decide (j = i)) as [->|]. Qed.

(** The links [binit] and [brelse] write to put [b] behind the head. *)
Definition link_front (b : nat) (s : bcache) : bcache :=
  let s := upd_buf b (set_bnext (b_next (bufat s HEAD))) s in
  let s := upd_buf b (set_bprev HEAD) s in
  let s := upd_buf (b_next (bufat s HEAD)) (set_bprev b) s in
  upd_buf HEAD (set_bnext b) s.
Definition unlink (b : nat) (s : bcache) : bcache :=
  let s := upd_buf (b_next (bufat s b)) (set_bprev (b_prev (bufat s b))) s in
  upd_buf (b_prev (bufat s b)) (set_bnext (b_next (bufat s b))) s.

Lemma to_front_split b s : to_front b s = link_front b (unlink b s).
Proof. done. Qed.

Lemma link_front_links b s : length (bufs s) = S NBUF -> (b < NBUF)%nat -> (nx s HEAD <= NBUF)%nat ->
  (forall j, nx (link_front b s) j = fupd (fupd (nx s) b (nx s HEAD)) HEAD b j) /\
  (forall j, pv (link_front b s) j = fupd (fupd (pv s) b HEAD) (nx s HEAD) b j).
Proof.
  intros Hl Hb Hn. unfold link_front. fold (nx s HEAD).
  set (s1 := upd_buf b (set_bnext (nx s HEAD)) s). set (s2 := upd_buf b (set_bprev HEAD) s1).
  assert (L1 : length (bufs s1) = S NBUF) by (unfold s1; by rewrite upd_buf_len).
  assert (L2 : length (bufs s2) = S NBUF) by (unfold s2; by rewrite upd_buf_len).
  assert (Hh : b_next (bufat s2 HEAD) = nx s HEAD).
  { change (nx s2 HEAD = nx s HEAD). unfold s2, s1. rewrite nx_set_bprev, nx_set_bnext, fupd_other;
      rewrite ?upd_buf_len, ?Hl; unfold HEAD, NBUF in *; lia. }
  rewrite Hh. set (s3 := upd_buf (nx s HEAD) (set_bprev b) s2).
  assert (L3 : length (bufs s3) = S NBUF) by (unfold s3; by rewrite upd_buf_len).
  assert (Hhd : (HEAD < S NBUF)%nat) by (unfold HEAD, NBUF; lia).
  assert (Hn1 : forall j, nx s1 j = fupd (nx s) b (nx s HEAD) j) by (intros; apply nx_set_bnext; lia).
  split; intros j.
  - rewrite nx_set_bnext by lia. unfold fupd at 1 2. destruct (decide (j = HEAD)); [done|].
    unfold s3. rewrite nx_set_bprev by lia. unfold s2. rewrite nx_set_bprev by lia. apply Hn1.
  - rewrite pv_set_bnext by lia. unfold s3. rewrite pv_set_bprev by lia. unfold fupd at 1 2.
    destruct (decide (j = nx s HEAD)); [done|]. unfold s2. rewrite pv_set_bprev by lia. unfold fupd.
    destruct (decide (j = b)); [done|]. unfold s1. rewrite pv_set_bnext by lia. done.
Qed.

Lemma unlink_links b s : length (bufs s) = S NBUF -> (nx s b <= NBUF)%nat -> (pv s b <= NBUF)%nat ->
  nx s b <> b ->
  (forall j, nx (unlink b s) j = fupd (nx s) (pv s b) (nx s b) j) /\
  (forall j, pv (unlink b s) j = fupd (pv s) (nx s b) (pv s b) j).
Proof.
  intros Hl Hn Hp Hne. unfold unlink. fold (nx s b) (pv s b).
  set (s1 := upd_buf (nx s b) (set_bprev (pv s b)) s).
  assert (L1 : length (bufs s1) = S NBUF) by (unfold s1; by rewrite upd_buf_len).
  assert (E1 : b_prev (bufat s1 b) = pv s b).
  { change (pv s1 b = pv s b). unfold s1. rewrite pv_set_bprev, fupd_other; [done|congruence|lia]. }
  assert (E2 : b_next (bufat s1 b) = nx s b).
  { change (nx s1 b = nx s b). unfold s1. rewrite nx_set_bprev; [done|lia]. }
  rewrite E1, E2. split; intros j.
  - rewrite nx_set_bnext by lia. unfold fupd. destruct (decide (j = pv s b)); [done|].
    unfold s1. by rewrite nx_set_bprev by lia.
  - rewrite pv_set_bnext by lia. unfold s1. by rewrite pv_set_bprev by lia.
Qed.

(** [brelse] makes [b] the most recently used buffer. *)
Lemma to_front_mru s l1 b l2 : mru s (l1 ++ b :: l2) -> mru (to_front b s) (b :: l1 ++ l2).
Proof.
  intros Hm. destruct (mru_facts _ _ Hm) as (Hnd & Hh & Hin). destruct Hm as [Hl Hs Hp].
  assert (Hb : (b < NBUF)%nat) by (apply Hin; rewrite elem_of_app, elem_of_cons; tauto).
  destruct (seg_ends _ _ _ _ _ _ _ Hs) as [Hpv Hnx].
  assert (Hnd' : NoDup (b :: l1 ++ l2)) by (by rewrite Permutation_middle).
  apply NoDup_cons in Hnd' as [Hbn Hnd'].
  assert (Hnb : nx s b <> b).
  { intros E. rewrite E in Hnx. destruct Hnx as [Hx|Hx]; [unfold HEAD, NBUF in *; lia|]. set_solver. }
  assert (Hnl : (nx s b <= NBUF)%nat).
  { destruct Hnx as [->|Hx]; [done|]. apply Nat.lt_le_incl, Hin. set_solver. }
  assert (Hpl : (pv s b <= NBUF)%nat).
  { destruct Hpv as [->|Hx]; [done|]. apply Nat.lt_le_incl, Hin. set_solver. }
  destruct (unlink_links b s Hl Hnl Hpl Hnb) as [Un Up].
  assert (Hu : seg (nx (unlink b s)) (pv (unlink b s)) HEAD (l1 ++ l2) HEAD).
  { eapply seg_ext; [..|apply (seg_unlink _ _ b l2 HEAD l1 HEAD Hs Hnd Hh Hh)]; intros; [apply Un|apply Up]. }
  rewrite to_front_split. set (u := unlink b s) in *.
  assert (Lu : length (bufs u) = S NBUF) by (unfold u, unlink; by rewrite !upd_buf_len).
  assert (Hhl : HEAD ∉ l1 ++ l2) by set_solver.
  assert (Hhn : (nx u HEAD <= NBUF)%nat).
  { destruct (l1 ++ l2) as [|x l] eqn:El; simpl in Hu; destruct Hu as [-> _]; [done|].
    apply Nat.lt_le_incl, Hin. assert (x ∈ l1 ++ l2) by (rewrite El; by left). set_solver. }
  destruct (link_front_links b u Lu Hb Hhn) as [Ln Lp]. split.
  - unfold link_front. by rewrite !upd_buf_len.
  - eapply seg_ext; [intros x _; apply Ln|intros x _; apply Lp|].
    apply seg_insert; [done..| |done]. unfold HEAD, NBUF in *. lia.
  - by rewrite Permutation_middle.
Qed.

Lemma to_front_cores b s : cores (to_front b s) = cores s.
Proof. unfold to_front. by rewrite !cores_links. Qed.

(** ** The searches *)

Definition found (P : nat -> Prop) (l : list nat) (r : option nat) : Prop :=
  match r with Some i => i ∈ l /\ P i | None => forall i, i ∈ l -> ~ P i end.

Lemma scan_next_seg s P l : forall fuel a,
  seg (nx s) (pv s) a l HEAD -> HEAD ∉ l -> (length l < fuel)%nat ->
  found (fun i => P (bufat s i) = true) l (scan_next fuel s P (nx s a)).
Proof.
  induction l as [|x l IH]; intros fuel a; simpl; intros Hs Hh Hf; (destruct fuel as [|f]; [lia|]); simpl.
  - destruct Hs as [-> _]. rewrite decide_True by done. by intros i Hi%elem_of_nil.
  - destruct Hs as (-> & _ & Hs). rewrite decide_False by set_solver.
    destruct (P (bufat s x)) eqn:Ep; simpl; [set_solver|].
    specialize (IH f x Hs). fold (nx s x). destruct (scan_next f s P (nx s x)) as [i|]; simpl in *.
    + destruct IH as [IH1 IH2]; [set_solver|lia|]. set_solver.
    + intros i [->|Hi]%elem_of_cons; [congruence|]. apply IH; [set_solver|lia|done].
Qed.

Lemma scan_prev_seg s P l : forall fuel z,
  seg (nx s) (pv s) HEAD l z -> HEAD ∉ l -> (length l < fuel)%nat ->
  found (fun i => P (bufat s i) = true) l (scan_prev fuel s P (pv s z)).
Proof.
  induction l as [|x l IH] using rev_ind; intros fuel z Hs Hh Hf; (destruct fuel as [|f]; [lia|]); simpl.
  - destruct Hs as [_ ->]. rewrite decide_True by done. by intros i Hi%elem_of_nil.
  - rewrite length_app in Hf. simpl in Hf. assert (Hz : pv s z = x /\ seg (nx s) (pv s) HEAD l x).
    { clear -Hs. revert Hs. generalize HEAD. induction l as [|y l IHl]; intros a; simpl; [naive_solver|].
      intros (? & ? & [? ?]%IHl). done. }
    destruct Hz as [-> Hs']. rewrite decide_False by set_solver.
    destruct (P (bufat s x)) eqn:Ep; simpl; [set_solver|].
    specialize (IH f x Hs'). fold (pv s x). destruct (scan_prev f s P (pv s x)) as [i|]; simpl in *.
    + destruct IH as [IH1 IH2]; [set_solver|lia|]. set_solver.
    + intros i [Hi|Hi%list_elem_of_singleton]%elem_of_app; [apply IH; [set_solver|lia|done]|congruence].
Qed.

Lemma mru_length s l : mru s l -> length l = NBUF.
Proof. intros [_ _ ->]. done. Qed.

Lemma scan_next_mru s l P : mru s l ->
  found (fun i => P (bufat s i) = true) (seq 0 NBUF) (scan_next BGET_FUEL s P (b_next (bufat s HEAD))).
Proof.
  intros Hm. destruct (mru_facts _ _ Hm) as (_ & Hh & Hin). pose proof (mru_length _ _ Hm) as Hl.
  pose proof (scan_next_seg s P l BGET_FUEL HEAD (mru_seg _ _ Hm) Hh) as Hs.
  unfold found in *. fold (nx s HEAD). rewrite Hl in Hs. specialize (Hs (Nat.lt_succ_diag_r NBUF)).
  destruct (scan_next _ _ _ _); rewrite ?(mru_perm _ _ Hm) in Hs; [done|]. intros i Hi. apply Hs.
  by rewrite (mru_perm _ _ Hm).
Qed.

Lemma scan_prev_mru s l P : mru s l ->
  found (fun i => P (bufat s i) = true) (seq 0 NBUF) (scan_prev BGET_FUEL s P (b_prev (bufat s HEAD))).
Proof.
  intros Hm. destruct (mru_facts _ _ Hm) as (_ & Hh & Hin). pose proof (mru_length _ _ Hm) as Hl.
  pose proof (scan_prev_seg s P l BGET_FUEL HEAD (mru_seg _ _ Hm) Hh) as Hs.
  unfold found in *. fold (pv s HEAD). rewrite Hl in Hs. specialize (Hs (Nat.lt_succ_diag_r NBUF)).
  destruct (scan_prev _ _ _ _); rewrite ?(mru_perm _ _ Hm) in Hs; [done|]. intros i Hi. apply Hs.
  by rewrite (mru_perm _ _ Hm).
Qed.

(** ** Coherence

    Of the cores [c] and the disk [d]: a sector of the root device is in at
    most one buffer, a buffer in use holds valid data, and a buffer that is
    neither in use nor dirty agrees with the disk. *)

Definition SECTORS : Z := 2 ^ 32 - FS_SECTOR_OFFSET.
Definition lba (k : Z) : Z := k + FS_SECTOR_OFFSET.
Definition wfblock (b : block) : Prop := length b = BSIZE /\ Forall (fun x => 0 <= x < 256) b.
Definition keyed (k : Z) (x : bcore) : Prop := c_dev x = ROOTDEV /\ c_sector x = k.
#[global] Instance keyed_dec k x : Decision (keyed k x).
Proof. unfold keyed. apply _. Defined.

Record coh (c : list bcore) (d : Z -> block) : Prop := {
  coh_keys i j x y k : c !! i = Some x -> c !! j = Some y -> keyed k x -> keyed k y -> i = j;
  coh_dev i x : c !! i = Some x ->
    (c_dev x = ROOTDEV /\ 0 <= c_sector x < SECTORS) \/
    (c_dev x = u32 (-1) /\ c_busy x = false /\ c_valid x = false /\ c_dirty x = false);
  coh_valid i x : c !! i = Some x -> c_busy x = true \/ c_dirty x = true -> c_valid x = true;
  coh_clean i x : c !! i = Some x -> c_busy x = false -> c_dirty x = false -> c_valid x = true ->
    c_data x = d (lba (c_sector x));
  coh_data i x : c !! i = Some x -> c_valid x = true -> wfblock (c_data x);
  coh_disk k : wfblock (d k);
}.

(** The contents of sector [k] of the root device as its readers see them. *)
Definition view (c : list bcore) (d : Z -> block) (k : Z) : block :=
  match list_find (keyed k) c with
  | Some (_, x) => if c_valid x then c_data x else d (lba k)
  | None => d (lba k)
  end.
(** The sectors whose buffer is busy, and those whose buffer is dirty. *)
Definition held_set (c : list bcore) : gset Z := list_to_set (c_sector <$> filter (fun x => c_busy x = true) c).
Definition dirty_set (c : list bcore) : gset Z := list_to_set (c_sector <$> filter (fun x => c_dirty x = true) c).

Lemma view_hit c d k i x : coh c d -> c !! i = Some x -> keyed k x ->
  view c d k = if c_valid x then c_data x else d (lba k).
Proof.
  intros Hc Hi Hk. unfold view. destruct (list_find (keyed k) c) as [[j y]|] eqn:E.
  - apply list_find_Some in E as (Hj & Hy & _). assert (i = j) as -> by (eapply coh_keys; eauto).
    rewrite Hi in Hj. by injection Hj as ->.
  - apply list_find_None in E. rewrite Forall_lookup in E. by destruct (E i x Hi).
Qed.

Lemma view_miss c d k : (forall i x, c !! i = Some x -> ~ keyed k x) -> view c d k = d (lba k).
Proof.
  intros Hn. unfold view. destruct (list_find (keyed k) c) as [[j y]|] eqn:E; [|done].
  apply list_find_Some in E as (Hj & Hy & _). by destruct (Hn j y).
Qed.

Lemma elem_of_held c k : k ∈ held_set c <-> exists i x, c !! i = Some x /\ c_busy x = true /\ c_sector x = k.
Proof.
  unfold held_set. rewrite elem_of_list_to_set, list_elem_of_fmap. split.
  - intros (x & -> & [Hb Hx]%list_elem_of_filter). apply list_elem_of_lookup in Hx as [i Hi]. eauto.
  - intros (i & x & Hi & Hb & <-). exists x. split; [done|]. apply list_elem_of_filter. split; [done|].
    by eapply list_elem_of_lookup_2.
Qed.
Lemma elem_of_dirty c k : k ∈ dirty_set c <-> exists i x, c !! i = Some x /\ c_dirty x = true /\ c_sector x = k.
Proof.
  unfold dirty_set. rewrite elem_of_list_to_set, list_elem_of_fmap. split.
  - intros (x & -> & [Hb Hx]%list_elem_of_filter). apply list_elem_of_lookup in Hx as [i Hi]. eauto.
  - intros (i & x & Hi & Hb & <-). exists x. split; [done|]. apply list_elem_of_filter. split; [done|].
    by eapply list_elem_of_lookup_2.
Qed.

Lemma dirty_mem c d b x : coh c d -> c !! b = Some x -> c_dev x = ROOTDEV ->
  c_sector x ∈ dirty_set c <-> c_dirty x = true.
Proof.
  intros Hc Hx Kx. rewrite elem_of_dirty. split; [|eauto]. intros (i & z & Hz & Dz & Kz).
  assert (i = b) as ->; [|congruence]. apply (coh_keys _ _ Hc i b z x (c_sector x) Hz Hx); [|by split].
  split; [|done]. destruct (coh_dev _ _ Hc i z Hz) as [[? _]|(_ & _ & _ & ?)]; [done|congruence].
Qed.

Lemma view_wf c d k : coh c d -> wfblock (view c d k).
Proof.
  intros Hc. unfold view. destruct (list_find (keyed k) c) as [[i x]|] eqn:E; [|by eapply coh_disk].
  apply list_find_Some in E as (Hi & _). destruct (c_valid x) eqn:Ev; [by eapply coh_data|by eapply coh_disk].
Qed.

(** When every buffer is busy or dirty, [NBUF] sectors are in use. *)
Lemma in_use_full c d : coh c d -> length c = NBUF ->
  (forall i x, c !! i = Some x -> c_busy x = true \/ c_dirty x = true) -> size (held_set c ∪ dirty_set c) = NBUF.
Proof.
  intros Hc Hl Hall. assert (Hset : held_set c ∪ dirty_set c = list_to_set (c_sector <$> c)).
  { apply set_eq. intros k. rewrite elem_of_union, elem_of_held, elem_of_dirty, elem_of_list_to_set, list_elem_of_fmap.
    split; [intros [(i & x & Hi & _ & <-)|(i & x & Hi & _ & <-)]; exists x; split; [done|by eapply list_elem_of_lookup_2|done|by eapply list_elem_of_lookup_2]|].
    intros (x & -> & [i Hi]%list_elem_of_lookup). destruct (Hall i x Hi); [left|right]; eauto. }
  rewrite Hset, size_list_to_set, length_fmap; [done|].
  apply NoDup_fmap_2_strong.
  - intros x y [i Hi]%list_elem_of_lookup [j Hj]%list_elem_of_lookup E.
    assert (i = j); [|naive_solver]. apply (coh_keys _ _ Hc i j x y (c_sector x)); [done|done|split; [|done]|split; [|done]].
    + destruct (coh_dev _ _ Hc i x Hi) as [[? _]|(_ & ? & _ & ?)]; [done|]. destruct (Hall i x Hi); congruence.
    + destruct (coh_dev _ _ Hc j y Hj) as [[? _]|(_ & ? & _ & ?)]; [done|]. destruct (Hall j y Hj); congruence.
  - apply NoDup_alt. intros i j x Hi Hj.
    assert (Hr : c_dev x = ROOTDEV).
    { destruct (coh_dev _ _ Hc i x Hi) as [[? _]|(_ & ? & _ & ?)]; [done|]. destruct (Hall i x Hi); congruence. }
    by apply (coh_keys _ _ Hc i j x x (c_sector x)).
Qed.

(** *** Changing one buffer *)

Section update.
Context (c : list bcore) (d : Z -> block) (b : nat) (x y : bcore).
Hypotheses (Hc : coh c d) (Hb : c !! b = Some x) (Hdx : c_dev x = ROOTDEV) (Hdy : c_dev y = ROOTDEV)
  (Hk : c_sector y = c_sector x).

Lemma key_other i z : i <> b -> c !! i = Some z -> c_dev z = ROOTDEV -> c_sector z <> c_sector x.
Proof. intros Hne Hi Hd E. apply Hne. by apply (coh_keys _ _ Hc i b z x (c_sector x)). Qed.

Lemma insert_cases i z : <[b:=y]> c !! i = Some z -> (i = b /\ z = y) \/ (i <> b /\ c !! i = Some z).
Proof. intros [(<- & <- & _)|[? ?]]%list_lookup_insert_Some; auto. Qed.
Lemma insert_hit : <[b:=y]> c !! b = Some y.
Proof. apply list_lookup_insert_eq. by eapply lookup_lt_Some. Qed.

Lemma coh_upd (d' : Z -> block) :
  (forall k, wfblock (d' k)) -> (forall k, k <> lba (c_sector x) -> d' k = d k) ->
  (c_busy y = true \/ c_dirty y = true -> c_valid y = true) ->
  (c_busy y = false -> c_dirty y = false -> c_valid y = true -> c_data y = d' (lba (c_sector x))) ->
  (c_valid y = true -> wfblock (c_data y)) -> coh (<[b:=y]> c) d'.
Proof.
  intros Hwf Hd Hv Hcl Hdt. split.
  - intros i j z w k [[-> ->]|[Hi Hz]]%insert_cases [[-> ->]|[Hj Hw]]%insert_cases [Kz1 Kz2] [Kw1 Kw2]; try done.
    + exfalso. apply (key_other j w); [done|done|done|congruence].
    + exfalso. apply (key_other i z); [done|done|done|congruence].
    + by apply (coh_keys _ _ Hc i j z w k).
  - intros i z [[-> ->]|[Hi Hz]]%insert_cases; [|by apply (coh_dev _ _ Hc i)].
    left. rewrite Hk. destruct (coh_dev _ _ Hc b x Hb) as [[_ ?]|(Hx & _)]; [done|]. by rewrite Hdx in Hx.
  - intros i z [[-> ->]|[Hi Hz]]%insert_cases; [done|by apply (coh_valid _ _ Hc i)].
  - intros i z [[-> ->]|[Hi Hz]]%insert_cases; [by rewrite Hk|]. intros Hb1 Hd1 Hv1.
    rewrite Hd; [by apply (coh_clean _ _ Hc i)|]. intros E. apply (key_other i z Hi Hz).
    + destruct (coh_dev _ _ Hc i z Hz) as [[? _]|(_ & _ & ? & _)]; congruence.
    + unfold lba in E. lia.
  - intros i z [[-> ->]|[Hi Hz]]%insert_cases; [done|by apply (coh_data _ _ Hc i)].
  - done.
Qed.

Lemma view_upd (d' : Z -> block) k : coh (<[b:=y]> c) d' -> (forall k, k <> lba (c_sector x) -> d' k = d k) ->
  view (<[b:=y]> c) d' k = if decide (k = c_sector x) then (if c_valid y then c_data y else d' (lba k)) else view c d k.
Proof.
  intros Hc' Hd. destruct (decide (k = c_sector x)) as [->|Hne].
  - by apply (view_hit _ _ _ b y Hc' insert_hit).
  - assert (Hdk : d' (lba k) = d (lba k)) by (apply Hd; unfold lba; lia).
    destruct (list_find (keyed k) c) as [[i z]|] eqn:E.
    + apply list_find_Some in E as (Hi & Hz & _). assert (Hib : i <> b).
      { intros ->. rewrite Hb in Hi. injection Hi as <-. destruct Hz as [_ Hz]. congruence. }
      rewrite (view_hit c d k i z), (view_hit _ d' k i z); [by rewrite Hdk|done| |done..].
      by rewrite list_lookup_insert_ne.
    + apply list_find_None in E. rewrite Forall_lookup in E. rewrite !view_miss; [done|by apply E|].
      intros i z [[-> ->]|[Hi Hz]]%insert_cases; [|by apply (E i)]. intros [_ Hz]. congruence.
Qed.

Lemma held_upd :
  held_set (<[b:=y]> c) = if c_busy y then {[c_sector x]} ∪ held_set c else held_set c ∖ {[c_sector x]}.
Proof.
  apply set_eq. intros k. rewrite elem_of_held.
  assert (Hh : (exists i z, <[b:=y]> c !! i = Some z /\ c_busy z = true /\ c_sector z = k) <->
    (c_busy y = true /\ k = c_sector x) \/ (k ∈ held_set c /\ k <> c_sector x)).
  { split.
    - intros (i & z & [[-> ->]|[Hi Hz]]%insert_cases & Hbz & <-); [left; auto|right].
      split; [apply elem_of_held; eauto|]. apply (key_other i z Hi Hz).
      destruct (coh_dev _ _ Hc i z Hz) as [[? _]|(_ & ? & _)]; congruence.
    - intros [[Hy ->]|[(i & z & Hz & Hbz & <-)%elem_of_held Hne]]; [exists b, y; auto using insert_hit|].
      exists i, z. rewrite list_lookup_insert_ne; [done|]. intros <-. rewrite Hb in Hz. congruence. }
  rewrite Hh. destruct (c_busy y).
  - rewrite elem_of_union, elem_of_singleton. destruct (decide (k = c_sector x)); naive_solver.
  - rewrite elem_of_difference, elem_of_singleton. naive_solver.
Qed.

Lemma dirty_upd :
  dirty_set (<[b:=y]> c) = if c_dirty y then {[c_sector x]} ∪ dirty_set c else dirty_set c ∖ {[c_sector x]}.
Proof.
  apply set_eq. intros k. rewrite elem_of_dirty.
  assert (Hh : (exists i z, <[b:=y]> c !! i = Some z /\ c_dirty z = true /\ c_sector z = k) <->
    (c_dirty y = true /\ k = c_sector x) \/ (k ∈ dirty_set c /\ k <> c_sector x)).
  { split.
    - intros (i & z & [[-> ->]|[Hi Hz]]%insert_cases & Hbz & <-); [left; auto|right].
      split; [apply elem_of_dirty; eauto|]. apply (key_other i z Hi Hz).
      destruct (coh_dev _ _ Hc i z Hz) as [[? _]|(_ & _ & _ & ?)]; congruence.
    - intros [[Hy ->]|[(i & z & Hz & Hbz & <-)%elem_of_dirty Hne]]; [exists b, y; auto using insert_hit|].
      exists i, z. rewrite list_lookup_insert_ne; [done|]. intros <-. rewrite Hb in Hz. congruence. }
  rewrite Hh. destruct (c_dirty y).
  - rewrite elem_of_union, elem_of_singleton. destruct (decide (k = c_sector x)); naive_solver.
  - rewrite elem_of_difference, elem_of_singleton. naive_solver.
Qed.
End update.

(** *** Taking a buffer for another sector *)

Section recycle.
Context (c : list bcore) (d : Z -> block) (b : nat) (x : bcore) (k : Z).
Hypotheses (Hc : coh c d) (Hb : c !! b = Some x) (Hbusy : c_busy x = false) (Hdirty : c_dirty x = false)
  (Hmiss : forall i z, c !! i = Some z -> ~ keyed k z) (Hrange : 0 <= k < SECTORS).

Definition fresh_core : bcore :=
  {| c_busy := true; c_valid := true; c_dirty := false; c_dev := ROOTDEV; c_sector := k; c_data := d (lba k) |}.

Lemma recycle_cases i z :
  <[b:=fresh_core]> c !! i = Some z -> (i = b /\ z = fresh_core) \/ (i <> b /\ c !! i = Some z).
Proof. intros [(<- & <- & _)|[? ?]]%list_lookup_insert_Some; auto. Qed.
Lemma recycle_hit : <[b:=fresh_core]> c !! b = Some fresh_core.
Proof. apply list_lookup_insert_eq. by eapply lookup_lt_Some. Qed.

Lemma coh_recycle : coh (<[b:=fresh_core]> c) d.
Proof.
  split.
  - intros i j z w k' [[-> ->]|[Hi Hz]]%recycle_cases [[-> ->]|[Hj Hw]]%recycle_cases Kz Kw; try done.
    + destruct (Hmiss j w Hw). by destruct Kz as [_ <-].
    + destruct (Hmiss i z Hz). by destruct Kw as [_ <-].
    + by apply (coh_keys _ _ Hc i j z w k').
  - intros i z [[-> ->]|[Hi Hz]]%recycle_cases; [left; done|by apply (coh_dev _ _ Hc i)].
  - intros i z [[-> ->]|[Hi Hz]]%recycle_cases; [done|by apply (coh_valid _ _ Hc i)].
  - intros i z [[-> ->]|[Hi Hz]]%recycle_cases; [done|by apply (coh_clean _ _ Hc i)].
  - intros i z [[-> ->]|[Hi Hz]]%recycle_cases; [intros; by eapply coh_disk|by apply (coh_data _ _ Hc i)].
  - by eapply coh_disk.
Qed.

Lemma view_recycle k' : view (<[b:=fresh_core]> c) d k' = view c d k'.
Proof.
  destruct (decide (k' = k)) as [->|Hne].
  { by rewrite (view_hit _ _ _ _ _ coh_recycle recycle_hit), view_miss by done. }
  destruct (list_find (keyed k') c) as [[i z]|] eqn:E.
  - apply list_find_Some in E as (Hi & Hz & _). rewrite (view_hit c d k' i z) by done.
    destruct (decide (i = b)) as [->|Hib].
    + rewrite Hb in Hi. injection Hi as <-. rewrite view_miss.
      * destruct (c_valid x) eqn:Ev; [|done]. destruct Hz as [_ <-]. symmetry. by apply (coh_clean _ _ Hc b).
      * intros i z [[-> ->]|[Hi Hz']]%recycle_cases; [by intros [_ ?]|]. intros Kz. apply Hi.
        by apply (coh_keys _ _ Hc i b z x k').
    + apply (view_hit _ _ _ i z coh_recycle); [|done]. by rewrite list_lookup_insert_ne.
  - apply list_find_None in E. rewrite Forall_lookup in E. rewrite !view_miss; [done|by apply E|].
    intros i z [[-> ->]|[Hi Hz]]%recycle_cases; [by intros [_ ?]|by apply (E i)].
Qed.

Lemma held_recycle : held_set (<[b:=fresh_core]> c) = {[k]} ∪ held_set c.
Proof.
  apply set_eq. intros k'. rewrite elem_of_union, elem_of_singleton, !elem_of_held. split.
  - intros (i & z & [[-> ->]|[Hi Hz]]%recycle_cases & Hbz & <-); [by left|right; eauto].
  - intros [->|(i & z & Hz & Hbz & <-)]; [exists b, fresh_core; by rewrite recycle_hit|].
    exists i, z. rewrite list_lookup_insert_ne; [done|]. intros <-. congruence.
Qed.

Lemma dirty_recycle : dirty_set (<[b:=fresh_core]> c) = dirty_set c.
Proof.
  apply set_eq. intros k'. rewrite !elem_of_dirty. split.
  - intros (i & z & [[-> ->]|[Hi Hz]]%recycle_cases & Hbz & <-); [done|eauto].
  - intros (i & z & Hz & Hbz & <-). exists i, z. rewrite list_lookup_insert_ne; [done|]. intros <-. congruence.
Qed.
End recycle.

(** ** The disk transfers *)

Lemma scsi_lba_cmd op v : 0 <= v < 2 ^ 32 -> scsi_lba (scsi_cmd op v) = v.
Proof.
  intros Hv. unfold scsi_lba, scsi_cmd. cbn [nth]. change 255 with (Z.ones 8).
  rewrite !Z.land_ones, !Z.shiftr_div_pow2 by lia. dlia.
Qed.

Lemma u32_lba k : 0 <= k < SECTORS -> (k +u FS_SECTOR_OFFSET) = lba k.
Proof. intros Hk. unfold SECTORS, FS_SECTOR_OFFSET, lba in *. apply u32_small. unfold FS_SECTOR_OFFSET. lia. Qed.

Definition disk_upd (d : Z -> block) (a : Z) (v : block) : Z -> block := fun x => if x =? a then v else d x.

(** The list is as [l] says, no lock is held, the disk is there and works. *)
Record sane (s : bcache) (l : list nat) : Prop := {
  sane_mru : mru s l;
  sane_bc : bc_lock s = false;
  sane_usb : usblock s = false;
  sane_ready : usb_ready s = true;
  sane_faults : faults s = [];
}.

Lemma mru_ext s s' l : length (bufs s') = length (bufs s) ->
  (forall i, nx s' i = nx s i) -> (forall i, pv s' i = pv s i) -> mru s l -> mru s' l.
Proof.
  intros Hl Hn Hp [H1 H2 H3]. split; [congruence| |done]. eapply seg_ext; [intros; apply Hn|intros; apply Hp|done].
Qed.

Lemma mru_upd s l b f : (forall x, b_next (f x) = b_next x) -> (forall x, b_prev (f x) = b_prev x) ->
  (b < NBUF)%nat -> mru s l -> mru (upd_buf b f s) l.
Proof.
  intros Hfn Hfp Hb Hm. pose proof (mru_len _ _ Hm) as Hl.
  apply (mru_ext s); [apply upd_buf_len|..|done]; intros i; unfold nx, pv;
    rewrite bufat_upd by lia; destruct (decide (i = b)) as [->|]; auto.
Qed.

Lemma sane_upd s l b f : (forall x, b_next (f x) = b_next x) -> (forall x, b_prev (f x) = b_prev x) ->
  (b < NBUF)%nat -> sane s l -> sane (upd_buf b f s) l.
Proof. intros Hfn Hfp Hb [H1 H2 H3 H4 H5]. split; [by apply mru_upd|done..]. Qed.

Lemma usb_rw_write s l b k :
  sane s l -> b_dirty (bufat s b) = true -> b_dev (bufat s b) = ROOTDEV -> b_sector (bufat s b) = k -> 0 <= k < SECTORS ->
  usb_rw b s = Done tt (upd_buf b set_valid (upd_buf b (set_dirty false)
    (upd_disk (disk_upd (disk s) (lba k) (bdata b s)) (writes s ++ [(lba k, bdata b s)]) [] s))).
Proof.
  intros [_ Hbc Hu Hr Hf] Hd Hdev Hk Hrange. destruct s as [bl bs ul ur dk ws fs wk]. simpl in *. subst.
  unfold usb_rw, acquire, release, kbind, kget, kput, kret. cbn [held set_held bcache_locks usblock usb_ready negb].
  unfold bdata, bufat in *. cbn [bufs] in *. rewrite Hd, Hdev, Z.eqb_refl, (u32_lba _ Hrange).
  unfold usb_again, usb_write_sector, scsi_retry, msd_scsi_command, kbind, kret.
  cbn [faults head default tail]. rewrite scsi_lba_cmd; [done|]. unfold lba, SECTORS, FS_SECTOR_OFFSET in *. lia.
Qed.

Lemma usb_rw_read s l b k :
  sane s l -> b_dirty (bufat s b) = false -> b_dev (bufat s b) = ROOTDEV -> b_sector (bufat s b) = k -> 0 <= k < SECTORS ->
  usb_rw b s = Done tt (upd_buf b set_valid (upd_buf b (set_data (disk s (lba k))) s)).
Proof.
  intros [_ Hbc Hu Hr Hf] Hd Hdev Hk Hrange. destruct s as [bl bs ul ur dk ws fs wk]. simpl in *. subst.
  unfold usb_rw, acquire, release, kbind, kget, kput, kret. cbn [held set_held bcache_locks usblock usb_ready negb].
  unfold bdata, bufat in *. cbn [bufs] in *. rewrite Hd, Hdev, Z.eqb_refl, (u32_lba _ Hrange).
  unfold usb_again, usb_read_sector, scsi_retry, msd_scsi_command, kbind, kret.
  cbn [faults head default tail]. rewrite scsi_lba_cmd; [done|]. unfold lba, SECTORS, FS_SECTOR_OFFSET in *. lia.
Qed.

(** [b] is a buffer of sector [k] its caller has locked. *)
Definition locked (s : bcache) (b : nat) (k : Z) : Prop :=
  (b < NBUF)%nat /\ b_busy (bufat s b) = true /\ b_dev (bufat s b) = ROOTDEV /\ b_sector (bufat s b) = k /\
  0 <= k < SECTORS.

Definition cinv (s : bcache) : Prop := (exists l, sane s l) /\ coh (cores s) (disk s).

(** ** Specifications of the operations *)

Definition vw (s : bcache) (k : Z) : block := view (cores s) (disk s) k.
Definition hset (s : bcache) : gset Z := held_set (cores s).
Definition dset (s : bcache) : gset Z := dirty_set (cores s).

Lemma same_key_keyed k x : same_key ROOTDEV k x = true <-> keyed k (core x).
Proof. unfold same_key, keyed. rewrite andb_true_iff, !Z.eqb_eq. done. Qed.

Lemma cores_inv s i x : length (bufs s) = S NBUF -> cores s !! i = Some x -> (i < NBUF)%nat /\ x = core (bufat s i).
Proof.
  intros Hl Hi. assert (Hil : (i < NBUF)%nat) by (apply lookup_lt_Some in Hi; by rewrite cores_len in Hi).
  rewrite cores_lookup in Hi by done. by injection Hi as <-.
Qed.

Lemma not_held_not_busy s b k : length (bufs s) = S NBUF -> (b < NBUF)%nat ->
  k ∉ hset s -> keyed k (core (bufat s b)) -> b_busy (bufat s b) = false.
Proof.
  intros Hl Hb Hk Hkey. destruct (b_busy (bufat s b)) eqn:E; [|done]. destruct Hk. apply elem_of_held.
  exists b, (core (bufat s b)). rewrite cores_lookup by done. by destruct Hkey as [_ <-].
Qed.

(** There is room for one more sector, so some buffer can be recycled. *)
Lemma some_recyclable s k : length (bufs s) = S NBUF -> coh (cores s) (disk s) ->
  (size ({[k]} ∪ (hset s ∪ dset s)) <= NBUF)%nat -> k ∉ hset s ->
  (forall i x, cores s !! i = Some x -> ~ keyed k x) ->
  ~ (forall i, i ∈ seq 0 NBUF -> recyclable (bufat s i) <> true).
Proof.
  intros Hl Hc Hsz Hk Hmiss Hp. assert (Hfull : size (hset s ∪ dset s) = NBUF).
  { apply (in_use_full _ (disk s) Hc (cores_len _ Hl)). intros i x [Hil ->]%cores_inv; [|done].
    specialize (Hp i). unfold recyclable in Hp. simpl.
    destruct (b_busy (bufat s i)); [by left|]. destruct (b_dirty (bufat s i)); [by right|].
    destruct Hp; [apply elem_of_seq; lia|done]. }
  rewrite size_union in Hsz; [rewrite size_singleton, Hfull in Hsz; lia|].
  assert (k ∉ dset s); [|set_solver]. intros (i & x & Hi & Hd & <-)%elem_of_dirty.
  apply (Hmiss i x Hi). destruct (coh_dev _ _ Hc i x Hi) as [[? _]|(_ & _ & _ & ?)]; [done|congruence].
Qed.

Lemma bget_cases s l k : coh (cores s) (disk s) -> sane s l -> k ∉ hset s ->
  (size ({[k]} ∪ (hset s ∪ dset s)) <= NBUF)%nat ->
  (exists b, (b < NBUF)%nat /\ keyed k (core (bufat s b)) /\ b_busy (bufat s b) = false /\
     bget ROOTDEV k s = Done b (upd_buf b (set_busy true) s)) \/
  ((forall i x, cores s !! i = Some x -> ~ keyed k x) /\
   exists b, (b < NBUF)%nat /\ b_busy (bufat s b) = false /\ b_dirty (bufat s b) = false /\
     bget ROOTDEV k s = Done b (upd_buf b (set_flags true false false) (upd_buf b (set_key ROOTDEV k) s))).
Proof.
  intros Hc Hs Hk Hsz. pose proof (sane_mru _ _ Hs) as Hm. pose proof (mru_len _ _ Hm) as Hl.
  pose proof (scan_next_mru s l (same_key ROOTDEV k) Hm) as Hn. pose proof (scan_prev_mru s l recyclable Hm) as Hp.
  unfold bget, acquire, release, kbind, kget, kput, kmodify, kret, ksleep, panic, found in *.
  change (held BCACHE s) with (bc_lock s). rewrite (sane_bc _ _ Hs).
  change (scan_next BGET_FUEL (set_held BCACHE true s)) with (scan_next BGET_FUEL s).
  change (scan_prev BGET_FUEL (set_held BCACHE true s)) with (scan_prev BGET_FUEL s).
  change (bufat (set_held BCACHE true s)) with (bufat s).
  destruct (scan_next _ _ _ _) as [b|].
  - destruct Hn as [Hb Hkey]. apply elem_of_seq in Hb. apply same_key_keyed in Hkey. left. exists b.
    assert (Hnb : b_busy (bufat s b) = false) by (eapply not_held_not_busy; eauto; lia).
    rewrite Hnb. cbn [negb]. change (held BCACHE (upd_buf b (set_busy true) (set_held BCACHE true s))) with true.
    split_and!; [lia|done..|]. destruct Hs as [_ Hbc _ _ _]. destruct s; simpl in *; by subst.
  - right. assert (Hmiss : forall i x, cores s !! i = Some x -> ~ keyed k x).
    { intros i x [Hil ->]%cores_inv; [|done]. rewrite <- same_key_keyed. apply Hn, elem_of_seq. lia. }
    split; [done|]. destruct (scan_prev _ _ _ _) as [b|]; [|by destruct (some_recyclable s k)].
    destruct Hp as [Hb Hr]. apply elem_of_seq in Hb. unfold recyclable in Hr. apply andb_true_iff in Hr as [Hr1 Hr2].
    exists b. rewrite negb_true_iff in Hr1, Hr2.
    change (held BCACHE (upd_buf b (set_flags true false false) (upd_buf b (set_key ROOTDEV k) (set_held BCACHE true s)))) with true.
    split_and!; [lia|done..|]. destruct Hs as [_ Hbc _ _ _]. destruct s; simpl in *; by subst.
Qed.

Lemma cores_upd s b f : length (bufs s) = S NBUF -> (b < NBUF)%nat ->
  cores (upd_buf b f s) = <[b := core (f (bufat s b))]> (cores s).
Proof.
  intros Hl Hb. apply list_eq. intros i. destruct (decide (i = b)) as [->|Hne].
  - rewrite list_lookup_insert_eq by (by rewrite cores_len). rewrite cores_lookup by (by rewrite ?upd_buf_len).
    rewrite bufat_upd by lia. by rewrite decide_True.
  - rewrite list_lookup_insert_ne by done. unfold cores, upd_buf, upd_bufs. cbn [bufs].
    rewrite !list_lookup_fmap. destruct (decide (i < NBUF)%nat); [|by rewrite !lookup_take_ge by lia].
    by rewrite !lookup_take_lt, list_lookup_alter_ne.
Qed.

Lemma cores_upd2 s b f g : length (bufs s) = S NBUF -> (b < NBUF)%nat ->
  cores (upd_buf b g (upd_buf b f s)) = <[b := core (g (f (bufat s b)))]> (cores s).
Proof.
  intros Hl Hb. rewrite !cores_upd, list_insert_insert_eq by (by rewrite ?upd_buf_len).
  rewrite bufat_upd by lia. by rewrite decide_True.
Qed.

(** The effect of [bread] of sector [k]: nothing but the lock on the buffer it
    returns. *)
Record bread_post (s : bcache) (k : Z) (b : nat) (s' : bcache) : Prop := {
  bread_inv : cinv s';
  bread_locked : locked s' b k;
  bread_held : hset s' = {[k]} ∪ hset s;
  bread_dirty : dset s' = dset s;
  bread_view k' : vw s' k' = vw s k';
  bread_disk : disk s' = disk s;
  bread_writes : writes s' = writes s;
  bread_others b' k' : locked s b' k' -> locked s' b' k';
}.

Lemma locked_core s s' b k : length (bufs s) = S NBUF -> length (bufs s') = S NBUF ->
  cores s' !! b = cores s !! b -> locked s b k -> locked s' b k.
Proof.
  intros Hl Hl' Hc (H1 & H2 & H3 & H4 & H5). rewrite !cores_lookup in Hc by done. injection Hc as Hc1 Hc2 Hc3 Hc4 Hc5 _.
  unfold locked. rewrite Hc1, Hc4, Hc5. done.
Qed.

(** A state that differs from [s] in the core of one buffer. *)
Record one_core (s s' : bcache) (b : nat) (y : bcore) : Prop := {
  oc_sane : exists l, sane s' l;
  oc_cores : cores s' = <[b:=y]> (cores s);
  oc_len : (b < NBUF)%nat;
}.

Lemma one_core_others s s' b y b' k : (exists l, sane s l) -> one_core s s' b y -> b_busy (bufat s b) = false ->
  locked s b' k -> locked s' b' k.
Proof.
  intros [l Hs] [[l' Hs'] Hc Hb] Hnb Hlk. assert (b' <> b) by (intros ->; destruct Hlk as (_ & ? & _); congruence).
  eapply locked_core; [apply (mru_len _ _ (sane_mru _ _ Hs))|apply (mru_len _ _ (sane_mru _ _ Hs'))| |done].
  rewrite Hc. by rewrite list_lookup_insert_ne.
Qed.

Lemma one_core_locked s s' b y k : (exists l, sane s l) -> one_core s s' b y -> c_busy y = true -> keyed k y ->
  0 <= k < SECTORS -> locked s' b k.
Proof.
  intros [l Hs] [[l' Hs'] Hc Hb] Hbusy [Hk1 Hk2] Hr. pose proof (mru_len _ _ (sane_mru _ _ Hs)) as Hl.
  assert (Hy : cores s' !! b = Some y) by (rewrite Hc; apply list_lookup_insert_eq; by rewrite cores_len).
  apply cores_inv in Hy as [_ ->]; [done|]. apply (mru_len _ _ (sane_mru _ _ Hs')).
Qed.

Lemma bread_post_hit s s' k b y : cinv s -> one_core s s' b y -> keyed k (core (bufat s b)) ->
  b_busy (bufat s b) = false -> 0 <= k < SECTORS -> disk s' = disk s -> writes s' = writes s ->
  c_busy y = true -> c_valid y = true -> c_dirty y = b_dirty (bufat s b) -> keyed k y ->
  c_data y = (if b_valid (bufat s b) then b_data (bufat s b) else disk s (lba k)) -> bread_post s k b s'.
Proof.
  intros [[l Hs] Hc] Ho [K1 K2] Hnb Hr Hd Hw Y1 Y2 Y3 [Y4 Y5] Y6. pose proof (mru_len _ _ (sane_mru _ _ Hs)) as Hl.
  pose proof (cores_lookup s b Hl (oc_len _ _ _ _ Ho)) as Hx.
  assert (Hk : c_sector y = c_sector (core (bufat s b))) by congruence.
  assert (Hc' : coh (cores s') (disk s')).
  { rewrite Hd, (oc_cores _ _ _ _ Ho). apply (coh_upd _ _ _ _ _ Hc Hx K1 Y4 Hk); [by eapply coh_disk|done|done|congruence|].
    intros _. rewrite Y6. destruct (b_valid (bufat s b)) eqn:E; [exact (coh_data _ _ Hc b _ Hx E)|by eapply coh_disk]. }
  split; [by split; [apply Ho|]|by eapply one_core_locked; eauto; split| | | |done|done|].
  - unfold hset. rewrite (oc_cores _ _ _ _ Ho), (held_upd _ _ _ _ _ Hc Hx K1 Hk), Y1. by rewrite K2.
  - unfold dset. rewrite (oc_cores _ _ _ _ Ho), (dirty_upd _ _ _ _ _ Hc Hx K1 Hk), Y3.
    pose proof (dirty_mem _ _ _ _ Hc Hx K1) as Hdm. simpl in Hdm. rewrite K2.
    destruct (b_dirty (bufat s b)); set_solver.
  - intros k'. unfold vw. rewrite Hd, (oc_cores _ _ _ _ Ho) in *.
    rewrite (view_upd _ _ _ _ _ Hc Hx Y4 Hk _ k' Hc') by done. rewrite K2.
    destruct (decide (k' = k)) as [->|]; [|done]. rewrite Y2, Y6. symmetry. by apply (view_hit _ _ _ b (core (bufat s b))).
  - intros b' k'. eapply one_core_others; eauto.
Qed.

Lemma bread_post_miss s s' k b : cinv s -> one_core s s' b (fresh_core (disk s) k) ->
  b_busy (bufat s b) = false -> b_dirty (bufat s b) = false -> (forall i x, cores s !! i = Some x -> ~ keyed k x) ->
  0 <= k < SECTORS -> disk s' = disk s -> writes s' = writes s -> bread_post s k b s'.
Proof.
  intros [[l Hs] Hc] Ho Hnb Hnd Hmiss Hr Hd Hw. pose proof (mru_len _ _ (sane_mru _ _ Hs)) as Hl.
  pose proof (cores_lookup s b Hl (oc_len _ _ _ _ Ho)) as Hx. pose proof (oc_cores _ _ _ _ Ho) as Ec.
  assert (Hc' : coh (cores s') (disk s')) by (rewrite Hd, Ec; by apply coh_recycle).
  split; [by split; [apply Ho|]|by eapply one_core_locked; eauto; split| | | |done|done|].
  - unfold hset. rewrite Ec. by eapply held_recycle.
  - unfold dset. rewrite Ec. by eapply dirty_recycle.
  - intros k'. unfold vw. rewrite Hd, Ec. by eapply view_recycle.
  - intros b' k'. eapply one_core_others; eauto.
Qed.

Lemma diskrw_busy b s : b_busy (bufat s b) = true -> (b_valid (bufat s b) = false \/ b_dirty (bufat s b) = true) ->
  b_dev (bufat s b) = ROOTDEV -> diskrw b s = usb_rw b s.
Proof.
  intros Hb Hv Hd. unfold diskrw, kbind, kget. rewrite Hb, Hd. cbn [negb].
  destruct (b_valid (bufat s b)), (b_dirty (bufat s b)); cbn [negb andb]; try done. naive_solver.
Qed.

Lemma bread_spec s k : cinv s -> 0 <= k < SECTORS -> k ∉ hset s -> (size ({[k]} ∪ (hset s ∪ dset s)) <= NBUF)%nat ->
  wp (bread ROOTDEV k) (fun b s' => bread_post s k b s') s.
Proof.
  intros Hi Hr Hk Hsz. pose proof Hi as [[l Hs] Hc]. pose proof (mru_len _ _ (sane_mru _ _ Hs)) as Hl.
  unfold bread, wp, kbind.
  destruct (bget_cases s l k Hc Hs Hk Hsz) as [(b & Hb & [K1 K2] & Hnb & ->)|(Hmiss & b & Hb & Hnb & Hnd & ->)];
    pose proof (cores_lookup s b Hl Hb) as Hx.
  - set (s1 := upd_buf b (set_busy true) s).
    assert (Hb1 : bufat s1 b = set_busy true (bufat s b)) by (unfold s1; rewrite bufat_upd by lia; by rewrite decide_True).
    assert (Hs1 : sane s1 l) by (by apply sane_upd).
    cbv beta iota delta [kget]. rewrite Hb1. cbn [set_busy set_flags b_valid].
    destruct (b_valid (bufat s b)) eqn:Ev; cbn [negb].
    + cbv beta iota delta [kret]. apply (bread_post_hit s s1 k b (core (set_busy true (bufat s b)))); try done; [|by rewrite Ev].
      split; [by exists l|unfold s1; by rewrite cores_upd|done].
    + assert (Hnd : b_dirty (bufat s b) = false).
      { destruct (b_dirty (bufat s b)) eqn:Ed; [|done]. pose proof (coh_valid _ _ Hc b _ Hx (or_intror Ed)) as Hv. simpl in Hv. congruence. }
      rewrite diskrw_busy, (usb_rw_read s1 l b k) by (rewrite ?Hb1; auto).
      cbv beta iota delta [kret]. change (disk s1) with (disk s). 
      apply (bread_post_hit s _ k b (core (set_valid (set_data (disk s (lba k)) (set_busy true (bufat s b)))))); try done; [|by rewrite Ev].
      split; [exists l; by repeat apply sane_upd| |done]. unfold s1.
      rewrite cores_upd2, cores_upd, list_insert_insert_eq by (by rewrite ?upd_buf_len). by rewrite bufat_upd, decide_True by lia.
  - set (s1 := upd_buf b _ _).
    assert (Hb1 : bufat s1 b = set_flags true false false (set_key ROOTDEV k (bufat s b))).
    { unfold s1. rewrite !bufat_upd by (rewrite ?upd_buf_len; lia). by rewrite !decide_True. }
    assert (Hs1 : sane s1 l) by (by repeat apply sane_upd).
    cbv beta iota delta [kget]. rewrite Hb1. cbn [set_flags b_valid negb].
    rewrite diskrw_busy, (usb_rw_read s1 l b k) by (rewrite ?Hb1; auto).
    cbv beta iota delta [kret]. change (disk s1) with (disk s). eapply bread_post_miss; eauto.
    split; [exists l; by repeat apply sane_upd| |done]. unfold s1.
    rewrite cores_upd2, cores_upd2, list_insert_insert_eq by (by rewrite ?upd_buf_len).
    by rewrite !bufat_upd, !decide_True by (rewrite ?upd_buf_len; lia).
Qed.

Lemma cinv_len s : cinv s -> length (bufs s) = S NBUF.
Proof. intros [[l Hs] _]. apply (mru_len _ _ (sane_mru _ _ Hs)). Qed.

Lemma locked_lookup s b k : cinv s -> locked s b k -> cores s !! b = Some (core (bufat s b)).
Proof. intros Hi (Hb & _). by apply cores_lookup; [apply cinv_len|]. Qed.

Lemma locked_valid s b k : cinv s -> locked s b k -> b_valid (bufat s b) = true.
Proof.
  intros Hi Hlk. pose proof (locked_lookup _ _ _ Hi Hlk) as Hx. destruct Hi as [_ Hc], Hlk as (_ & Hb & _).
  exact (coh_valid _ _ Hc b _ Hx (or_introl Hb)).
Qed.

Lemma locked_view s b k : cinv s -> locked s b k -> bdata b s = vw s k.
Proof.
  intros Hi Hlk. pose proof (locked_lookup _ _ _ Hi Hlk) as Hx. pose proof (locked_valid _ _ _ Hi Hlk) as Hv.
  destruct Hi as [_ Hc], Hlk as (_ & _ & Hd & Hk & _). unfold vw. erewrite view_hit; [|done|exact Hx|by split].
  simpl. by rewrite Hv.
Qed.

Lemma vw_wf s k : cinv s -> wfblock (vw s k).
Proof. intros [_ Hc]. by apply view_wf. Qed.

Lemma locked_hset s b k : cinv s -> locked s b k -> k ∈ hset s.
Proof.
  intros Hi Hlk. pose proof (locked_lookup _ _ _ Hi Hlk) as Hx. destruct Hlk as (_ & Hb & _ & Hk & _).
  apply elem_of_held. eauto.
Qed.

Lemma locked_unique s b b' k : cinv s -> locked s b k -> locked s b' k -> b = b'.
Proof.
  intros Hi H1 H2. pose proof (locked_lookup _ _ _ Hi H1) as Hx. pose proof (locked_lookup _ _ _ Hi H2) as Hy.
  destruct Hi as [_ Hc], H1 as (_ & _ & D1 & K1 & _), H2 as (_ & _ & D2 & K2 & _).
  by apply (coh_keys _ _ Hc b b' _ _ k Hx Hy).
Qed.

Lemma locked_inj s b k k' : locked s b k -> locked s b k' -> k = k'.
Proof. intros (_ & _ & _ & <- & _) (_ & _ & _ & <- & _). done. Qed.

(** Changing a locked buffer of sector [k]. *)
Record locked_post (s : bcache) (b : nat) (k : Z) (y : bcore) (s' : bcache) : Prop := {
  lp_inv : cinv s';
  lp_held : hset s' = if c_busy y then hset s else hset s ∖ {[k]};
  lp_dirty : dset s' = if c_dirty y then {[k]} ∪ dset s else dset s ∖ {[k]};
  lp_view k' : vw s' k' = if decide (k' = k) then c_data y else vw s k';
  lp_locked b' k' : (c_busy y = true \/ b' <> b) -> locked s b' k' -> locked s' b' k';
}.

Lemma upd_locked s s' b k y : cinv s -> locked s b k -> one_core s s' b y -> keyed k y -> c_valid y = true ->
  (forall k, wfblock (disk s' k)) -> (forall k', k' <> lba k -> disk s' k' = disk s k') ->
  (c_busy y = false -> c_dirty y = false -> c_data y = disk s' (lba k)) -> wfblock (c_data y) ->
  locked_post s b k y s'.
Proof.
  intros Hi Hlk Ho [Y1 Y2] Hv Hwf Hd Hcl Hdt. pose proof (locked_lookup _ _ _ Hi Hlk) as Hx.
  pose proof (locked_hset _ _ _ Hi Hlk) as Hh. pose proof (oc_cores _ _ _ _ Ho) as Ec.
  pose proof Hi as [[l Hs] Hc]. pose proof Hlk as (Hb & Hbusy & K1 & K2 & Hr).
  assert (Hk : c_sector y = c_sector (core (bufat s b))) by (simpl; congruence).
  assert (Hc' : coh (cores s') (disk s')).
  { rewrite Ec. apply (coh_upd _ _ _ _ _ Hc Hx K1 Y1 Hk); simpl; rewrite ?K2; auto. }
  split.
  - split; [apply Ho|done].
  - unfold hset. rewrite Ec, (held_upd _ _ _ _ _ Hc Hx K1 Hk). simpl. rewrite K2. unfold hset in Hh.
    destruct (c_busy y); [set_solver|done].
  - unfold dset. rewrite Ec, (dirty_upd _ _ _ _ _ Hc Hx K1 Hk). simpl. by rewrite K2.
  - intros k'. unfold vw. rewrite Ec in *. rewrite (view_upd _ _ _ _ _ Hc Hx Y1 Hk _ k' Hc'); simpl; rewrite K2; [|done].
    by rewrite Hv.
  - intros b' k' Hor Hlk'. destruct (decide (b' = b)) as [->|Hne].
    + assert (k' = k) as -> by (by eapply locked_inj). eapply one_core_locked; eauto; [|by split].
      destruct Hor; done.
    + destruct (oc_sane _ _ _ _ Ho) as [l' Hs']. eapply locked_core; [by apply cinv_len| |..|exact Hlk'].
      * apply (mru_len _ _ (sane_mru _ _ Hs')).
      * rewrite Ec. by rewrite list_lookup_insert_ne.
Qed.

(** Writing to the data of a locked buffer. *)
Lemma bset_spec s b k d : cinv s -> locked s b k -> wfblock d ->
  locked_post s b k (core (set_data d (bufat s b))) (bset b d s).
Proof.
  intros Hi Hlk Hd. pose proof (cinv_len _ Hi) as Hl. pose proof (locked_valid _ _ _ Hi Hlk) as Hv.
  pose proof Hi as [[l Hs] Hc]. pose proof Hlk as (Hb & Hbusy & K1 & K2 & Hr).
  apply upd_locked; [done..| |by split|done|by apply (coh_disk _ _ Hc)|done|simpl; congruence|done].
  split; [exists l; by apply sane_upd|by apply cores_upd|done].
Qed.

(** [b->flags |= B_DIRTY]. *)
Definition bpin (b : nat) : bcache -> bcache := upd_buf b (set_dirty true).
Lemma bpin_spec s b k : cinv s -> locked s b k ->
  locked_post s b k (core (set_dirty true (bufat s b))) (bpin b s).
Proof.
  intros Hi Hlk. pose proof (cinv_len _ Hi) as Hl. pose proof (locked_valid _ _ _ Hi Hlk) as Hv.
  pose proof (locked_view _ _ _ Hi Hlk) as Hw.
  pose proof Hi as [[l Hs] Hc]. pose proof Hlk as (Hb & Hbusy & K1 & K2 & Hr).
  apply upd_locked; [done..| |by split|done|by apply (coh_disk _ _ Hc)|done|done|].
  - split; [exists l; by apply sane_upd|by apply cores_upd|done].
  - change (wfblock (bdata b s)). rewrite Hw. by apply vw_wf.
Qed.

Lemma bwrite_spec s b k : cinv s -> locked s b k ->
  wp (bwrite b) (fun _ s' => locked_post s b k (core (set_dirty false (bufat s b))) s' /\
    disk s' = disk_upd (disk s) (lba k) (vw s k) /\ writes s' = writes s ++ [(lba k, vw s k)]) s.
Proof.
  intros Hi Hlk. pose proof (cinv_len _ Hi) as Hl. pose proof (locked_valid _ _ _ Hi Hlk) as Hv.
  pose proof (locked_view _ _ _ Hi Hlk) as Hw. pose proof (vw_wf s k Hi) as Hwf.
  pose proof Hi as [[l Hs] Hc]. pose proof Hlk as (Hb & Hbusy & K1 & K2 & Hr).
  unfold wp, bwrite, kbind, kget, kmodify. rewrite Hbusy. cbn [negb]. set (s1 := upd_buf b (set_dirty true) s).
  assert (Hb1 : bufat s1 b = set_dirty true (bufat s b)) by (unfold s1; rewrite bufat_upd by lia; by rewrite decide_True).
  assert (Hs1 : sane s1 l) by (by apply sane_upd).
  assert (Hd1 : bdata b s1 = vw s k) by (unfold bdata; by rewrite Hb1).
  rewrite diskrw_busy, (usb_rw_write s1 l b k) by (rewrite ?Hb1; auto). rewrite Hd1.
  change (disk s1) with (disk s). change (writes s1) with (writes s). set (s2 := upd_disk _ _ _ _).
  assert (Hs2 : sane s2 l) by (destruct Hs1 as [M1 M2 M3 M4 M5]; split; [by apply (mru_ext s1)|done..]).
  split; [|done]. apply upd_locked; try done.
  - split; [exists l; by repeat apply sane_upd| |done].
    rewrite cores_upd2 by (apply (mru_len _ _ (sane_mru _ _ Hs2)) || done). change (cores s2) with (cores s1). change (bufat s2 b) with (bufat s1 b).
    unfold s1 at 2. rewrite Hb1, cores_upd, list_insert_insert_eq by done. f_equal. unfold core; simpl. by rewrite Hv.
  - intros k'. cbn. unfold disk_upd. destruct (k' =? lba k); [done|by apply (coh_disk _ _ Hc)].
  - intros k' Hne. cbn. unfold disk_upd. by rewrite (proj2 (Z.eqb_neq _ _)).
  - intros Hbf. simpl in Hbf. congruence.
  - change (wfblock (bdata b s)). by rewrite Hw.
Qed.

Lemma to_front_sane s l b : sane s l -> (b < NBUF)%nat -> exists l', sane (to_front b s) l'.
Proof.
  intros Hs Hb. pose proof (sane_mru _ _ Hs) as Hm. destruct (mru_facts _ _ Hm) as (_ & _ & Hin).
  destruct (list_elem_of_split l b) as (l1 & l2 & ->); [by apply Hin|]. exists (b :: l1 ++ l2).
  destruct Hs. split; [by apply to_front_mru|done..].
Qed.

Lemma brelse_spec s b k : cinv s -> locked s b k -> (k ∈ dset s \/ vw s k = disk s (lba k)) ->
  wp (brelse b) (fun _ s' => locked_post s b k (core (set_busy false (bufat s b))) s' /\
    disk s' = disk s /\ writes s' = writes s /\ wakes s' = wakes s ++ [buf_chan b]) s.
Proof.
  intros Hi Hlk Hor. pose proof (cinv_len _ Hi) as Hl. pose proof (locked_valid _ _ _ Hi Hlk) as Hv.
  pose proof (locked_view _ _ _ Hi Hlk) as Hw. pose proof (locked_lookup _ _ _ Hi Hlk) as Hx.
  pose proof Hi as [[l Hs] Hc]. pose proof Hlk as (Hb & Hbusy & K1 & K2 & Hr).
  destruct (to_front_sane s l b Hs Hb) as [l' Hf].
  assert (Hlf : length (bufs (to_front b s)) = S NBUF) by apply (mru_len _ _ (sane_mru _ _ Hf)).
  assert (Hcb : core (bufat (to_front b s) b) = core (bufat s b)).
  { pose proof (cores_lookup (to_front b s) b Hlf Hb) as E. rewrite to_front_cores, Hx in E. by apply (inj Some) in E. }
  unfold wp, brelse, kbind, kget, kmodify. rewrite Hbusy. cbn [negb].
  unfold acquire, release, kbind, kget, kput. change (held BCACHE s) with (bc_lock s). rewrite (sane_bc _ _ Hs).
  change (held BCACHE (bwakeup _ _)) with true. cbv iota beta.
  split; [|done]. apply upd_locked; try done.
  - split; [exists l'| |done].
    + assert (Hs' : sane (upd_buf b (set_busy false) (to_front b s)) l') by (by apply sane_upd).
      destruct Hs' as [M1 M2 M3 M4 M5]. split; [by eapply mru_ext; [..|exact M1]|done..].
    + change (cores (upd_buf b (set_busy false) (to_front b s)) = <[b:=core (set_busy false (bufat s b))]> (cores s)).
      rewrite cores_upd, to_front_cores by done. f_equal. injection Hcb as E1 E2 E3 E4 E5 E6.
      unfold core; simpl. congruence.
  - by apply (coh_disk _ _ Hc).
  - intros _ Hnd. simpl in *. destruct Hor as [Hin|He]; [|change (bdata b s = disk s (lba k)); by rewrite Hw].
    rewrite <- K2 in Hin. apply (dirty_mem _ _ _ _ Hc Hx K1) in Hin. simpl in Hin. congruence.
  - change (wfblock (bdata b s)). rewrite Hw. by apply vw_wf.
Qed.

(** *** The same as effects on the abstract state *)

Record cpost (s' : bcache) (H D : gset Z) (V dk : Z -> block) (w : list (Z * block)) : Prop := {
  cp_inv : cinv s';
  cp_held : hset s' = H;
  cp_dirty : dset s' = D;
  cp_view k : vw s' k = V k;
  cp_disk : disk s' = dk;
  cp_writes : writes s' = w;
}.
(** The buffers of the sectors in [P] stay locked. *)
Definition keeps (s s' : bcache) (P : Z -> Prop) : Prop := forall b k, P k -> locked s b k -> locked s' b k.

Lemma clean_view s k : cinv s -> k ∉ hset s -> k ∉ dset s -> vw s k = disk s (lba k).
Proof.
  intros [_ Hc] Hh Hd. unfold vw, view. destruct (list_find (keyed k) (cores s)) as [[i x]|] eqn:E; [|done].
  apply list_find_Some in E as (Hi & [Hr Hk] & _). destruct (c_valid x) eqn:Ev; [|done]. rewrite <- Hk.
  apply (coh_clean _ _ Hc i); [done|..|done]; apply not_true_is_false; intros Ht; [apply Hh, elem_of_held|apply Hd, elem_of_dirty]; eauto.
Qed.

Lemma locked_dirty s b k : cinv s -> locked s b k -> k ∈ dset s <-> b_dirty (bufat s b) = true.
Proof.
  intros Hi Hlk. pose proof (locked_lookup _ _ _ Hi Hlk) as Hx. destruct Hi as [_ Hc], Hlk as (_ & _ & Hd & Hk & _).
  rewrite <- Hk. apply (dirty_mem _ _ _ _ Hc Hx Hd).
Qed.

Lemma keep_dirty s b k : cinv s -> locked s b k ->
  (if b_dirty (bufat s b) then {[k]} ∪ dset s else dset s ∖ {[k]}) = dset s.
Proof. intros Hi Hlk. pose proof (locked_dirty s b k Hi Hlk). destruct (b_dirty (bufat s b)); set_solver. Qed.

Lemma locked_key_ne s b b' k k' : cinv s -> locked s b k -> locked s b' k' -> k' <> k -> b' <> b.
Proof. intros Hi H1 H2 Hne ->. by destruct Hne; eapply locked_inj. Qed.

Lemma wp_bread s k : cinv s -> 0 <= k < SECTORS -> k ∉ hset s -> (size ({[k]} ∪ (hset s ∪ dset s)) <= NBUF)%nat ->
  wp (bread ROOTDEV k) (fun b s' => cpost s' ({[k]} ∪ hset s) (dset s) (vw s) (disk s) (writes s) /\
    locked s' b k /\ keeps s s' (fun _ => True)) s.
Proof.
  intros Hi Hr Hk Hsz. eapply wp_mono; [by apply bread_spec|]. intros b s' [H1 H2 H3 H4 H5 H6 H7 H8].
  split_and!; [by split|done|]. intros b' k' _. apply H8.
Qed.

Lemma bset_post s b k d : cinv s -> locked s b k -> wfblock d ->
  cpost (bset b d s) (hset s) (dset s) (fun k' => if decide (k' = k) then d else vw s k') (disk s) (writes s) /\
  keeps s (bset b d s) (fun _ => True).
Proof.
  intros Hi Hlk Hd. destruct (bset_spec s b k d Hi Hlk Hd) as [I H D V L]. pose proof Hlk as (_ & Hb & _).
  simpl in H, D. rewrite Hb in H. rewrite (keep_dirty s b k) in D by done.
  split; [by split|]. intros b' k' _. apply L. by left.
Qed.

Lemma bpin_post s b k : cinv s -> locked s b k ->
  cpost (bpin b s) (hset s) ({[k]} ∪ dset s) (vw s) (disk s) (writes s) /\ keeps s (bpin b s) (fun _ => True).
Proof.
  intros Hi Hlk. destruct (bpin_spec s b k Hi Hlk) as [I H D V L]. pose proof Hlk as (_ & Hb & _).
  simpl in H, D. rewrite Hb in H. split; [split; try done|intros b' k' _; apply L; by left].
  intros k'. rewrite V. destruct (decide (k' = k)) as [->|]; [|done]. by apply locked_view.
Qed.

Lemma wp_bwrite s b k : cinv s -> locked s b k ->
  wp (bwrite b) (fun _ s' => cpost s' (hset s) (dset s ∖ {[k]}) (vw s) (disk_upd (disk s) (lba k) (vw s k))
    (writes s ++ [(lba k, vw s k)]) /\ keeps s s' (fun _ => True)) s.
Proof.
  intros Hi Hlk. eapply wp_mono; [by apply bwrite_spec|]. intros _ s' ([I H D V L] & Hd & Hw). pose proof Hlk as (_ & Hb & _).
  simpl in H, D. rewrite Hb in H. split; [split; try done|intros b' k' _; apply L; by left].
  intros k'. rewrite V. destruct (decide (k' = k)) as [->|]; [|done]. by apply locked_view.
Qed.

Lemma wp_brelse s b k : cinv s -> locked s b k -> (k ∈ dset s \/ vw s k = disk s (lba k)) ->
  wp (brelse b) (fun _ s' => cpost s' (hset s ∖ {[k]}) (dset s) (vw s) (disk s) (writes s) /\
    keeps s s' (fun k' => k' <> k)) s.
Proof.
  intros Hi Hlk Hor. eapply wp_mono; [by apply brelse_spec|]. intros _ s' ([I H D V L] & Hd & Hw & _).
  simpl in H, D. rewrite (keep_dirty s b k) in D by done. split; [split; try done|].
  - intros k'. rewrite V. destruct (decide (k' = k)) as [->|]; [|done]. by apply locked_view.
  - intros b' k' Hne Hlk'. apply L; [|done]. right. exact (locked_key_ne s b b' k k' Hi Hlk Hlk' Hne).
Qed.

(** ** Start and errors *)

(** The cache as the loader leaves it. *)
Definition zeroed (s : bcache) : Prop := bufs s = replicate (S NBUF) null_buf.

Lemma binit_bufs s : zeroed s -> bufs (binit s) =
  foldr (fun i l => {| b_busy := false; b_valid := false; b_dirty := false; b_dev := u32 (-1); b_sector := 0;
    b_prev := (if decide (i = 9) then HEAD else S i)%nat; b_next := (if decide (i = 0) then HEAD else Nat.pred i)%nat;
    b_data := replicate BSIZE 0 |} :: l)
    [{| b_busy := false; b_valid := false; b_dirty := false; b_dev := 0; b_sector := 0; b_prev := 0; b_next := 9;
        b_data := replicate BSIZE 0 |}] (seq 0 NBUF).
Proof. intros Hz. destruct s. unfold zeroed in Hz. simpl in Hz. subst. vm_compute. done. Qed.

Lemma binit_mru s : zeroed s -> mru (binit s) (rev (seq 0 NBUF)).
Proof.
  intros Hz. pose proof (binit_bufs s Hz) as Hb. split.
  - by rewrite Hb.
  - unfold nx, pv, bufat. rewrite Hb. vm_compute. tauto.
  - symmetry. apply Permutation_rev.
Qed.

Lemma binit_cinv s : zeroed s -> usblock s = false -> usb_ready s = true -> faults s = [] ->
  (forall k, wfblock (disk s k)) -> cinv (binit s).
Proof.
  intros Hz Hu Hr Hf Hd. split; [exists (rev (seq 0 NBUF)); split; [by apply binit_mru|done..]|].
  assert (Hc : forall i x, cores (binit s) !! i = Some x ->
    c_dev x = u32 (-1) /\ c_busy x = false /\ c_valid x = false /\ c_dirty x = false).
  { assert (Hall : forallb (fun x => (c_dev x =? u32 (-1)) && negb (c_busy x) && negb (c_valid x) && negb (c_dirty x))
      (cores (binit s)) = true) by (unfold cores; rewrite (binit_bufs s Hz); vm_compute; done).
    intros i x Hx%list_elem_of_lookup_2. rewrite forallb_forall in Hall. specialize (Hall x).
    rewrite list_elem_of_In in Hx. specialize (Hall Hx).
    rewrite !andb_true_iff, !negb_true_iff, Z.eqb_eq in Hall. tauto. }
  split.
  - intros i j x y k Hi _ [Kx _]. apply Hc in Hi as [Hi _]. by rewrite Hi in Kx.
  - intros i x Hi. right. by eapply Hc.
  - intros i x (_ & -> & _ & ->)%Hc. naive_solver.
  - intros i x (_ & _ & -> & _)%Hc. done.
  - intros i x (_ & _ & -> & _)%Hc. done.
  - done.
Qed.

Lemma scsi_retry_fails n cmd out : forall s f, faults s = replicate n true ++ f ->
  scsi_retry n cmd out s = Done None (upd_disk (disk s) (writes s) f s).
Proof.
  induction n as [|n IH]; intros s f Hf; simpl in *.
  - unfold kret. f_equal. destruct s; simpl in *; by subst.
  - unfold kbind, msd_scsi_command. rewrite Hf. cbn [tail]. by rewrite (IH _ f).
Qed.

Lemma scsi_retry_reads n m lba f : forall s, (m < n)%nat -> 0 <= lba < 2 ^ 32 ->
  faults s = replicate m true ++ f -> head f <> Some true ->
  scsi_retry n (scsi_cmd SCSI_READ_10 lba) [] s = Done (Some (disk s lba)) (upd_disk (disk s) (writes s) (tail f) s).
Proof.
  revert m. induction n as [|n IH]; intros m s Hm Hl Hf Hh; [lia|]. cbn [scsi_retry]. unfold kbind, msd_scsi_command.
  rewrite Hf. destruct m as [|m]; cbn [replicate app tail].
  - destruct f as [|[] f]; [|by destruct Hh|];
      change (nth 0 (scsi_cmd SCSI_READ_10 lba) 0 =? SCSI_WRITE_10) with false; cbv iota zeta;
      by rewrite scsi_lba_cmd.
  - rewrite (IH m _); [done|lia|done|done|done].
Qed.

(** The driver's lock is free and the device is there. *)
Definition usb_idle (s : bcache) : Prop := usblock s = false /\ usb_ready s = true.

(** Both attempts of a read fail: [usb_rw] returns with the buffer as it is. *)
Lemma usb_rw_read_fails s b f : usb_idle s -> b_dirty (bufat s b) = false ->
  faults s = replicate 20 true ++ f -> usb_rw b s = Done tt (upd_disk (disk s) (writes s) f s).
Proof.
  intros [Hu Hr] Hd Hf. change (replicate 20 true ++ f) with (replicate 10 true ++ (replicate 10 true ++ f)) in Hf.
  unfold usb_rw, acquire, release, kbind, kget, kput. change (held USB s) with (usblock s). rewrite Hu.
  change (usb_ready (set_held USB true s)) with (usb_ready s). rewrite Hr. cbn [negb].
  change (bufat (set_held USB true s)) with (bufat s). rewrite Hd.
  unfold usb_again, kbind, usb_read_sector. rewrite (scsi_retry_fails 10 _ _ _ (replicate 10 true ++ f)) by exact Hf.
  unfold release, acquire, kbind, kget, kput. cbn [held set_held bcache_locks usblock upd_disk].
  rewrite (scsi_retry_fails 10 _ _ _ f) by done. cbn [held set_held bcache_locks usblock upd_disk].
  destruct s; simpl in *; by subst.
Qed.

(** Fewer than twenty failures in a row: the sector arrives. *)
Lemma usb_rw_read_retries s b k m f : usb_idle s -> b_dirty (bufat s b) = false ->
  b_dev (bufat s b) = ROOTDEV -> b_sector (bufat s b) = k -> 0 <= k < SECTORS ->
  faults s = replicate m true ++ f -> (m < 20)%nat -> head f <> Some true ->
  usb_rw b s = Done tt (upd_buf b set_valid (upd_buf b (set_data (disk s (lba k)))
    (upd_disk (disk s) (writes s) (tail f) s))).
Proof.
  intros [Hu Hr] Hd Hdev Hk Hrange Hf Hm Hh. assert (Hl : 0 <= lba k < 2 ^ 32) by (unfold lba, SECTORS, FS_SECTOR_OFFSET in *; lia).
  unfold usb_rw, acquire, release, kbind, kget, kput. change (held USB s) with (usblock s). rewrite Hu.
  change (usb_ready (set_held USB true s)) with (usb_ready s). rewrite Hr. cbn [negb].
  change (bufat (set_held USB true s)) with (bufat s). rewrite Hd, Hdev, Z.eqb_refl, Hk, u32_lba by done.
  unfold usb_again, kbind, usb_read_sector, kmodify. destruct (decide (m < 10)%nat) as [Hm'|Hm'].
  - rewrite (scsi_retry_reads 10 m (lba k) f) by done. unfold kret.
    cbn [held set_held bcache_locks usblock upd_disk upd_buf upd_bufs]. destruct s; simpl in *; by subst.
  - replace m with (10 + (m - 10))%nat in Hf by lia. rewrite replicate_add, <- app_assoc in Hf.
    rewrite (scsi_retry_fails 10 _ _ _ (replicate (m - 10) true ++ f)) by exact Hf. unfold release, acquire, kbind, kget, kput.
    cbn [held set_held bcache_locks usblock upd_disk].
    rewrite (scsi_retry_reads 10 (m - 10) (lba k) f) by (done || lia).
    cbn [held set_held bcache_locks usblock upd_disk upd_buf upd_bufs]. destruct s; simpl in *; by subst.
Qed.

(** ** Theorems *)

(** C37. [bread] of a sector that its caller has not locked, with a buffer to
    spare, returns a locked buffer with the current contents of the sector:
    it changes no other sector, no disk block and no other locked buffer, and
    keeps the cache coherent (one buffer per sector, clean buffers equal to
    the disk). *)
Theorem bread_coherent (s : bcache) (k : Z) :
  cinv s -> 0 <= k < SECTORS -> k ∉ hset s -> (size ({[k]} ∪ (hset s ∪ dset s)) <= NBUF)%nat ->
  wp (bread ROOTDEV k) (fun b s' =>
    cinv s' /\ locked s' b k /\ bdata b s' = vw s k /\ hset s' = {[k]} ∪ hset s /\ dset s' = dset s /\
    (forall k', vw s' k' = vw s k') /\ disk s' = disk s /\ (forall b' k', locked s b' k' -> locked s' b' k')) s.
Proof.
  intros Hi Hr Hk Hsz. eapply wp_mono; [by apply bread_spec|]. intros b s' [H1 H2 H3 H4 H5 H6 H7 H8].
  split_and!; try done. rewrite (locked_view _ _ _ H1 H2). apply H5.
Qed.

(** A client that overwrites sector [k], and one that reads it. *)
Definition put_sector (k : Z) (d : block) : K bcache unit :=
  b <- bread ROOTDEV k ;; kmodify (bset b d) ;; bwrite b ;; brelse b.
Definition get_sector (k : Z) : K bcache block :=
  b <- bread ROOTDEV k ;; d <- kgets (bdata b) ;; brelse b ;; kret d.

Lemma put_sector_spec s k d : cinv s -> wfblock d -> 0 <= k < SECTORS -> k ∉ hset s ->
  (size ({[k]} ∪ (hset s ∪ dset s)) <= NBUF)%nat ->
  wp (put_sector k d) (fun _ s' => cinv s' /\ disk s' = disk_upd (disk s) (lba k) d /\ hset s' = hset s /\
    dset s' = dset s ∖ {[k]} /\ (forall k', vw s' k' = if decide (k' = k) then d else vw s k')) s.
Proof.
  intros Hi Hd Hr Hk Hsz. unfold put_sector. kstep. eapply wp_mono; [by apply wp_bread|].
  intros b s1 ([I1 H1 D1 V1 K1 W1] & L1 & _). kstep. kstep.
  destruct (bset_post s1 b k d I1 L1 Hd) as [[I2 H2 D2 V2 K2 W2] L2]. pose proof (L2 b k I L1) as L2'.
  kstep. eapply wp_mono; [by apply wp_bwrite|]. intros _ s3 ([I3 H3 D3 V3 K3 W3] & L3).
  assert (Vk : vw (bset b d s1) k = d) by (rewrite V2; by rewrite decide_True).
  eapply wp_mono; [apply (wp_brelse s3 b k); [done|by apply L3|]|].
  { right. rewrite V3, K3. unfold disk_upd. by rewrite Z.eqb_refl. }
  intros _ s4 ([I4 H4 D4 V4 K4 W4] & _).
  split_and!; [done|rewrite K4, K3, K2, K1, Vk; done|rewrite H4, H3, H2, H1; set_solver|congruence|].
  intros k'. rewrite V4, V3, V2. by destruct (decide (k' = k)).
Qed.

Lemma get_sector_spec s k : cinv s -> 0 <= k < SECTORS -> k ∉ hset s ->
  (size ({[k]} ∪ (hset s ∪ dset s)) <= NBUF)%nat -> (k ∈ dset s \/ vw s k = disk s (lba k)) ->
  wp (get_sector k) (fun r s' => r = vw s k /\ cinv s' /\ hset s' = hset s /\ disk s' = disk s) s.
Proof.
  intros Hi Hr Hk Hsz Hor. unfold get_sector. kstep. eapply wp_mono; [by apply wp_bread|].
  intros b s1 ([I1 H1 D1 V1 K1 W1] & L1 & _). ksteps. eapply wp_mono.
  { apply (wp_brelse s1 b k); [done..|]. by rewrite D1, V1, K1. }
  intros _ s2 ([I2 H2 D2 V2 K2 W2] & _). kstep. split_and!; [by rewrite (locked_view _ _ _ I1 L1)|done| |congruence].
  rewrite H2, H1. set_solver.
Qed.

Lemma size_just (k : Z) (X Y : gset Z) : X = ∅ -> Y = ∅ -> (size ({[k]} ∪ (X ∪ Y)) <= NBUF)%nat.
Proof. intros -> ->. rewrite !union_empty_r_L, size_singleton. unfold NBUF. lia. Qed.

Lemma fresh_sets s : zeroed s -> hset (binit s) = ∅ /\ dset (binit s) = ∅ /\ forall k, vw (binit s) k = disk s (lba k).
Proof.
  intros Hz. unfold hset, dset, vw, cores. rewrite (binit_bufs s Hz). split_and!; [done..|]. intros k. by vm_compute.
Qed.

(** What is written with [bwrite] is read back by the next [bread], from
    the cache or, after a restart with the disk as it was left, from the
    disk. *)
Theorem bwrite_bread_roundtrip (s : bcache) (k : Z) (d : block) :
  cinv s -> wfblock d -> 0 <= k < SECTORS -> hset s = ∅ -> dset s = ∅ ->
  wp (put_sector k d) (fun _ s' =>
    wp (get_sector k) (fun r _ => r = d) s' /\
    forall s0, zeroed s0 -> usb_idle s0 -> faults s0 = [] -> disk s0 = disk s' ->
      wp (get_sector k) (fun r _ => r = d) (binit s0)) s.
Proof.
  intros Hi Hd Hr Hh Hds. eapply wp_mono.
  { apply put_sector_spec; [done..|rewrite Hh; apply not_elem_of_empty|by apply size_just]. }
  intros _ s1 (I1 & K1 & H1 & D1 & V1).
  assert (Kd : disk s1 (lba k) = d) by (rewrite K1; unfold disk_upd; by rewrite Z.eqb_refl).
  split.
  - eapply wp_mono; [apply get_sector_spec; [done|done|rewrite H1, Hh; apply not_elem_of_empty| |]|].
    + apply size_just; [congruence|]. rewrite D1, Hds. set_solver.
    + right. rewrite V1, Kd. by rewrite decide_True.
    + intros r s2 (-> & _). rewrite V1. by rewrite decide_True.
  - intros s0 Hz [Hu Hrd] Hf Hdk. destruct (fresh_sets s0 Hz) as (Eh & Ed & Ev).
    assert (I0 : cinv (binit s0)).
    { apply binit_cinv; [done..|]. rewrite Hdk. destruct I1 as [_ C1]. apply (coh_disk _ _ C1). }
    eapply wp_mono; [apply get_sector_spec; [done|done|rewrite Eh; apply not_elem_of_empty|by apply size_just|]|].
    + right. by rewrite Ev.
    + intros r s2 (-> & _). rewrite Ev, Hdk. done.
Qed.

(** Every command of both attempts fails, the sector is not cached and the
    buffer [b] is the one to recycle. *)
Definition doomed_read (s : bcache) (k : Z) (b : nat) (f : list bool) : Prop :=
  usb_idle s /\ bc_lock s = false /\ faults s = replicate 20 true ++ f /\ (b < length (bufs s))%nat /\
  scan_next BGET_FUEL s (same_key ROOTDEV k) (b_next (bufat s HEAD)) = None /\
  scan_prev BGET_FUEL s recyclable (b_prev (bufat s HEAD)) = Some b.

(** When the disk fails, [bread] does not say so: it returns the recycled
    buffer under the sector asked for with the bytes of the sector it held
    before, B_VALID clear. *)
Theorem bread_ignores_disk_errors (s : bcache) (k : Z) (b : nat) (f : list bool) :
  doomed_read s k b f ->
  exists s', bread ROOTDEV k s = Done b s' /\ bdata b s' = bdata b s /\ b_valid (bufat s' b) = false /\
    b_busy (bufat s' b) = true /\ b_sector (bufat s' b) = k.
Proof.
  intros (Hidle & Hbc & Hf & Hb & Hn & Hp). unfold bread, bget, acquire, release, kbind, kget, kput, kmodify, kret.
  change (held BCACHE s) with (bc_lock s). rewrite Hbc.
  change (scan_next BGET_FUEL (set_held BCACHE true s)) with (scan_next BGET_FUEL s).
  change (scan_prev BGET_FUEL (set_held BCACHE true s)) with (scan_prev BGET_FUEL s).
  change (bufat (set_held BCACHE true s)) with (bufat s). rewrite Hn, Hp.
  change (held BCACHE (upd_buf b (set_flags true false false) (upd_buf b (set_key ROOTDEV k) (set_held BCACHE true s)))) with true.
  cbv iota beta. set (s1 := set_held BCACHE false _).
  assert (Hb1 : bufat s1 b = set_flags true false false (set_key ROOTDEV k (bufat s b))).
  { unfold s1. change (bufat (set_held BCACHE false ?x)) with (bufat x).
    rewrite !bufat_upd by (rewrite ?upd_buf_len; done). by rewrite !decide_True. }
  rewrite Hb1. cbn [b_valid set_flags negb]. rewrite diskrw_busy, (usb_rw_read_fails s1 b f) by (rewrite ?Hb1; auto).
  eexists. split; [done|]. unfold bdata. change (bufat (upd_disk (disk s1) (writes s1) f s1)) with (bufat s1).
  by rewrite Hb1.
Qed.

(** A read that fails fewer than twenty times in a row is retried until
    it succeeds: ten times, then ten times more after the recovery of the
    disk; the buffer is then valid and holds the sector. *)
Theorem disk_read_is_retried (s : bcache) (b : nat) (k : Z) (m : nat) (f : list bool) :
  usb_idle s -> (b < length (bufs s))%nat -> b_busy (bufat s b) = true -> b_valid (bufat s b) = false ->
  b_dirty (bufat s b) = false -> b_dev (bufat s b) = ROOTDEV -> b_sector (bufat s b) = k -> 0 <= k < SECTORS ->
  faults s = replicate m true ++ false :: f -> (m < 20)%nat ->
  wp (diskrw b) (fun _ s' => bdata b s' = disk s (lba k) /\ b_valid (bufat s' b) = true /\ usb_idle s' /\ faults s' = f) s.
Proof.
  intros Hidle Hb Hbusy Hv Hd Hdev Hk Hr Hf Hm. unfold wp.
  rewrite diskrw_busy, (usb_rw_read_retries s b k m (false :: f)) by auto.
  set (s1 := upd_disk _ _ _ s). assert (Hb1 : (b < length (bufs s1))%nat) by done.
  unfold bdata. rewrite !bufat_upd by (by rewrite ?upd_buf_len). by rewrite !decide_True.
Qed.

(** ** Witnesses *)

Module BioWitness.
Definition s0 : bcache :=
  {| bc_lock := false; bufs := replicate (S NBUF) null_buf; usblock := false; usb_ready := true;
     disk := fun x => replicate BSIZE (x mod 256); writes := []; faults := []; wakes := [] |}.
Definition boot : bcache := binit s0.

Lemma wf_replicate x : 0 <= x < 256 -> wfblock (replicate BSIZE x).
Proof. intros Hx. split; [apply length_replicate|by apply Forall_replicate]. Qed.
Lemma s0_zeroed : zeroed s0.
Proof. done. Qed.
Lemma boot_cinv : cinv boot.
Proof. apply binit_cinv; [done..|]. intros k. apply wf_replicate. dlia. Qed.
Lemma boot_sets : hset boot = ∅ /\ dset boot = ∅.
Proof. destruct (fresh_sets s0 s0_zeroed) as (H1 & H2 & _). done. Qed.
Lemma boot_not_held k : k ∉ hset boot.
Proof. rewrite (proj1 boot_sets). apply not_elem_of_empty. Qed.

(** Ten sectors, from sector 3 on, are in the cache, and the disk then fails. *)
Definition cached : bcache :=
  foldl (fun s k => match (b <- bread ROOTDEV k ;; brelse b) s with Done _ s' => s' | _ => s end) boot (seqZ 3 10).
Definition failing : bcache := upd_disk (disk cached) [] (replicate 20 true) cached.
Definition fetching : bcache :=
  upd_disk (disk boot) [] (replicate 19 true ++ [false]) (upd_buf 0 (set_flags true false false) (upd_buf 0 (set_key ROOTDEV 5) boot)).

Lemma failing_doomed : doomed_read failing 40 0 [].
Proof. split_and!; [done..|vm_compute; lia| |]; vm_compute; reflexivity. Qed.
End BioWitness.

Lemma bread_coherent_witness :
  wp (bread ROOTDEV 3) (fun b s' => bdata b s' = vw BioWitness.boot 3 /\ hset s' = {[3]} ∪ hset BioWitness.boot) BioWitness.boot.
Proof.
  refine (wp_mono _ _ _ _ (bread_coherent BioWitness.boot 3 BioWitness.boot_cinv _ (BioWitness.boot_not_held 3) _) _).
  - unfold SECTORS, FS_SECTOR_OFFSET. lia.
  - apply size_just; apply BioWitness.boot_sets.
  - intros b s' (_ & _ & H3 & H4 & _). by split.
Defined.

Lemma bwrite_bread_roundtrip_witness :
  wp (put_sector 4 (replicate BSIZE 9)) (fun _ s' => wp (get_sector 4) (fun r _ => r = replicate BSIZE 9) s') BioWitness.boot.
Proof.
  refine (wp_mono _ _ _ _ (bwrite_bread_roundtrip BioWitness.boot 4 (replicate BSIZE 9) BioWitness.boot_cinv _ _
    (proj1 BioWitness.boot_sets) (proj2 BioWitness.boot_sets)) _).
  - apply BioWitness.wf_replicate. lia.
  - unfold SECTORS, FS_SECTOR_OFFSET. lia.
  - intros _ s' [H1 _]. exact H1.
Defined.

Lemma bread_ignores_disk_errors_witness :
  b_sector (bufat BioWitness.failing 0) = 3 /\
  exists s', bread ROOTDEV 40 BioWitness.failing = Done 0%nat s' /\ bdata 0 s' = bdata 0 BioWitness.failing /\
    b_valid (bufat s' 0) = false /\ b_busy (bufat s' 0) = true /\ b_sector (bufat s' 0) = 40.
Proof. split; [vm_compute; reflexivity|]. exact (bread_ignores_disk_errors BioWitness.failing 40 0 [] BioWitness.failing_doomed). Defined.

Lemma disk_read_is_retried_witness :
  wp (diskrw 0) (fun _ s' => bdata 0 s' = disk BioWitness.fetching (lba 5) /\ b_valid (bufat s' 0) = true /\
    usb_idle s' /\ faults s' = []) BioWitness.fetching.
Proof.
  refine (disk_read_is_retried BioWitness.fetching 0 5 19 [] _ _ _ _ _ _ _ _ _ _).
  - done.
  - vm_compute. lia.
  - vm_compute. reflexivity.
  - vm_compute. reflexivity.
  - vm_compute. reflexivity.
  - vm_compute. reflexivity.
  - vm_compute. reflexivity.
  - unfold SECTORS, FS_SECTOR_OFFSET. lia.
  - done.
  - lia.
Defined.
