(* ===== verification/BlockLayer.v ===== *)
(** * The interface between fs.c and the block layer below it

    fs.c reads and writes blocks with [bread], [log_write] and [brelse] and
    through [b->data].  [BlockOps] names these operations, [BlockLaws] states
    what they promise: a contents [bl_view] for each sector, changed only by
    writing to a buffer, as long as buffers and log blocks last.  The laws hold
    of the buffer cache of bio.c with the log of log.c (see the log's file). *)

From Stdlib Require Import ZArith Lia.
From S2P Require Import Prelude Bio.

Class BlockOps (B : Type) := {
  bl_bread : Z -> Z -> K B nat;
  bl_brelse : nat -> K B unit;
  bl_log_write : nat -> K B unit;
  bl_data : nat -> B -> block;
  bl_put : nat -> block -> B -> B;
}.

(** The most blocks a transaction may log before the next [log_write]. *)
Definition MAXTXN : nat := 9.

Section spec.
Context {B : Type} `{BlockOps B}.

(** What the client knows of a state: its invariant, whether a transaction is
    open, the contents of the sectors, the sectors of the buffers it holds and
    those it has logged, the sectors that exist, which buffer is whose, and
    whether what is in the buffer of a sector has been logged. *)
Record block_model := {
  bl_inv : B -> Prop;
  bl_txn : B -> Prop;
  bl_view : B -> Z -> block;
  bl_held : B -> gset Z;
  bl_logged : B -> gset Z;
  bl_limit : B -> Z;
  bl_locked : B -> nat -> Z -> Prop;
  bl_synced : B -> Z -> Prop;
}.

(** From [s] to [s'] with these new held and logged sectors and contents.
    The contents beyond [bl_limit] are the layer's own. *)
Record beff (M : block_model) (s s' : B) (H D : gset Z) (V : Z -> block) : Prop := {
  be_inv : bl_inv M s';
  be_txn : bl_txn M s' <-> bl_txn M s;
  be_held : bl_held M s' = H;
  be_logged : bl_logged M s' = D;
  be_view k : 0 <= k < bl_limit M s -> bl_view M s' k = V k;
  be_limit : bl_limit M s' = bl_limit M s;
}.
(** The buffers of the sectors in [P] stay locked, and what is in them stays
    logged. *)
Definition bkeeps (M : block_model) (s s' : B) (P : Z -> Prop) : Prop :=
  (forall b k, P k -> bl_locked M s b k -> bl_locked M s' b k) /\
  (forall k, P k -> 0 <= k < bl_limit M s -> bl_synced M s k -> bl_synced M s' k).
End spec.
Arguments block_model : clear implicits.

Class BlockLaws (B : Type) `{BlockOps B} (M : block_model B) : Prop := {
  law_bread s k : bl_inv M s -> 0 <= k < bl_limit M s -> k ∉ bl_held M s ->
    (size ({[k]} ∪ (bl_held M s ∪ bl_logged M s)) <= NBUF)%nat ->
    wp (bl_bread ROOTDEV k) (fun b s' => beff M s s' ({[k]} ∪ bl_held M s) (bl_logged M s) (bl_view M s) /\
      bl_locked M s' b k /\ bl_synced M s' k /\ bkeeps M s s' (fun _ => True)) s;
  law_data s b k : bl_inv M s -> bl_locked M s b k -> bl_data b s = bl_view M s k;
  law_held s b k : bl_inv M s -> bl_locked M s b k -> k ∈ bl_held M s /\ 0 <= k < bl_limit M s;
  law_synced s k : bl_inv M s -> 0 <= k < bl_limit M s -> k ∉ bl_held M s -> bl_synced M s k;
  law_wf s k : bl_inv M s -> wfblock (bl_view M s k);
  law_put s b k d : bl_inv M s -> bl_locked M s b k -> wfblock d ->
    beff M s (bl_put b d s) (bl_held M s) (bl_logged M s) (fun k' => if decide (k' = k) then d else bl_view M s k') /\
    bl_locked M (bl_put b d s) b k /\ bkeeps M s (bl_put b d s) (fun k' => k' <> k);
  law_log_write s b k : bl_inv M s -> bl_txn M s -> bl_locked M s b k -> (size (bl_logged M s) < MAXTXN)%nat ->
    (size (bl_held M s ∪ bl_logged M s) < NBUF)%nat ->
    wp (bl_log_write b) (fun _ s' => beff M s s' (bl_held M s) ({[k]} ∪ bl_logged M s) (bl_view M s) /\
      bl_locked M s' b k /\ bl_synced M s' k /\ bkeeps M s s' (fun _ => True)) s;
  law_brelse s b k : bl_inv M s -> bl_locked M s b k -> bl_synced M s k ->
    wp (bl_brelse b) (fun _ s' => beff M s s' (bl_held M s ∖ {[k]}) (bl_logged M s) (bl_view M s) /\
      bkeeps M s s' (fun k' => k' <> k)) s;
}.

(** ** Using the layer *)

Section client.
Context {B : Type} `{HL : BlockLaws B M}.

(** The same for the client. *)
Definition bsame (s s' : B) : Prop :=
  beff M s s' (bl_held M s) (bl_logged M s) (bl_view M s) /\ bkeeps M s s' (fun _ => True).
(** The same but for the contents [d] of sector [k], which is logged. *)
Definition bupd (k : Z) (d : block) (s s' : B) : Prop :=
  beff M s s' (bl_held M s) ({[k]} ∪ bl_logged M s) (fun k' => if decide (k' = k) then d else bl_view M s k') /\
  bkeeps M s s' (fun _ => True).

(** [n] more buffers, and [n] more blocks in the log. *)
Definition room (n : nat) (s : B) : Prop := (size (bl_held M s ∪ bl_logged M s) + n <= NBUF)%nat.
Definition lroom (n : nat) (s : B) : Prop := (size (bl_logged M s) + n <= MAXTXN)%nat.

#[export] Instance bsame_trans : Transitive bsame.
Proof.
  intros a b c [[I1 T1 H1 D1 V1 L1] [K1 S1]] [[I2 T2 H2 D2 V2 L2] [K2 S2]].
  split; [split; try congruence|split].
  - by rewrite T2.
  - intros k Hk. rewrite V2 by (by rewrite L1). by apply V1.
  - auto.
  - intros k _ Hk Hs. apply S2; [done|by rewrite L1|auto].
Qed.

Lemma bsame_refl s : bl_inv M s -> bsame s s.
Proof. intros Hi. split; [by split|]. by split. Qed.
Lemma bsame_inv s s' : bsame s s' -> bl_inv M s'.
Proof. intros [[] _]. done. Qed.
Lemma bsame_view s s' k : bsame s s' -> 0 <= k < bl_limit M s -> bl_view M s' k = bl_view M s k.
Proof. intros [[_ _ _ _ V _] _]. apply V. Qed.
Lemma bsame_held s s' : bsame s s' -> bl_held M s' = bl_held M s.
Proof. by intros [[] _]. Qed.
Lemma bsame_logged s s' : bsame s s' -> bl_logged M s' = bl_logged M s.
Proof. by intros [[] _]. Qed.
Lemma bsame_limit s s' : bsame s s' -> bl_limit M s' = bl_limit M s.
Proof. by intros [[] _]. Qed.
Lemma bsame_txn s s' : bsame s s' -> bl_txn M s' <-> bl_txn M s.
Proof. by intros [[] _]. Qed.
Lemma bsame_room n s s' : bsame s s' -> room n s <-> room n s'.
Proof. intros Hs. unfold room. by rewrite (bsame_held _ _ Hs), (bsame_logged _ _ Hs). Qed.
Lemma bsame_lroom n s s' : bsame s s' -> lroom n s <-> lroom n s'.
Proof. intros Hs. unfold lroom. by rewrite (bsame_logged _ _ Hs). Qed.

Lemma bupd_room k d n s s' : bupd k d s s' -> room (S n) s -> room n s'.
Proof.
  intros [[_ _ Hh Hd _ _] _]. unfold room. rewrite Hh, Hd. intros Hr.
  assert (size (bl_held M s ∪ ({[k]} ∪ bl_logged M s)) <= S (size (bl_held M s ∪ bl_logged M s)))%nat; [|lia].
  replace (bl_held M s ∪ ({[k]} ∪ bl_logged M s)) with ({[k]} ∪ (bl_held M s ∪ bl_logged M s)) by set_solver.
  rewrite size_union_alt, size_singleton. apply le_n_S, subseteq_size. set_solver.
Qed.
Lemma bupd_lroom k d n s s' : bupd k d s s' -> lroom (S n) s -> lroom n s'.
Proof.
  intros [[_ _ _ Hd _ _] _]. unfold lroom. rewrite Hd, size_union_alt, size_singleton.
  assert (size (bl_logged M s ∖ {[k]}) <= size (bl_logged M s))%nat by (apply subseteq_size; set_solver). lia.
Qed.

Lemma room_add k s : room 1 s -> (size ({[k]} ∪ (bl_held M s ∪ bl_logged M s)) <= NBUF)%nat.
Proof.
  unfold room. intros Hr. rewrite size_union_alt, size_singleton.
  assert (size ((bl_held M s ∪ bl_logged M s) ∖ {[k]}) <= size (bl_held M s ∪ bl_logged M s))%nat by (apply subseteq_size; set_solver). lia.
Qed.
Lemma room_weaken n m s : (m <= n)%nat -> room n s -> room m s.
Proof. unfold room. lia. Qed.
Lemma lroom_weaken n m s : (m <= n)%nat -> lroom n s -> lroom m s.
Proof. unfold lroom. lia. Qed.

(** Reading a block and giving it back. *)
Lemma bread_brelse_same s s1 s2 k :
  beff M s s1 ({[k]} ∪ bl_held M s) (bl_logged M s) (bl_view M s) -> bkeeps M s s1 (fun _ => True) ->
  beff M s1 s2 (bl_held M s1 ∖ {[k]}) (bl_logged M s1) (bl_view M s1) -> bkeeps M s1 s2 (fun k' => k' <> k) ->
  bl_inv M s -> 0 <= k < bl_limit M s -> k ∉ bl_held M s -> bsame s s2.
Proof.
  intros [I1 T1 H1 D1 V1 L1] [K1 S1] [I2 T2 H2 D2 V2 L2] [K2 S2] Hi Hk Hn. split; [split|split]; try congruence.
  - by rewrite T2.
  - rewrite H2, H1. set_solver.
  - intros k' Hk'. rewrite V2 by (by rewrite L1). by apply V1.
  - intros b k' _ Hl. apply K2; [|by apply K1]. intros ->. apply Hn. by eapply law_held.
  - intros k' _ Hk' Hs. destruct (decide (k' = k)) as [->|Hne].
    + apply law_synced; [done|congruence|]. rewrite H2. set_solver.
    + apply S2; [done|by rewrite L1|by apply S1].
Qed.

(** Logging new contents of a block and giving it back. *)
Lemma bread_update_brelse s s1 s2 s3 s4 b k d :
  beff M s s1 ({[k]} ∪ bl_held M s) (bl_logged M s) (bl_view M s) -> bkeeps M s s1 (fun _ => True) ->
  s2 = bl_put b d s1 -> bl_locked M s1 b k -> wfblock d ->
  beff M s2 s3 (bl_held M s2) ({[k]} ∪ bl_logged M s2) (bl_view M s2) -> bkeeps M s2 s3 (fun _ => True) ->
  beff M s3 s4 (bl_held M s3 ∖ {[k]}) (bl_logged M s3) (bl_view M s3) -> bkeeps M s3 s4 (fun k' => k' <> k) ->
  bl_inv M s -> 0 <= k < bl_limit M s -> k ∉ bl_held M s -> bupd k d s s4.
Proof.
  intros [I1 T1 H1 D1 V1 L1] [K1 S1] -> Hlk Hd [I3 T3 H3 D3 V3 L3] [K3 S3] [I4 T4 H4 D4 V4 L4] [K4 S4] Hi Hk Hn.
  destruct (law_put s1 b k d I1 Hlk Hd) as ([I2 T2 H2 D2 V2 L2] & _ & K2 & S2). split; [split|split]; try congruence.
  - by rewrite T4, T3, T2.
  - rewrite H4, H3, H2, H1. set_solver.
  - intros k' Hk'. rewrite V4, V3, V2 by congruence. destruct (decide (k' = k)); [done|by apply V1].
  - intros b' k' _ Hl. assert (k' <> k) by (intros ->; apply Hn; by eapply law_held). apply K4, K3, K2, K1; done.
  - intros k' _ Hk' Hs. destruct (decide (k' = k)) as [->|Hne].
    + apply law_synced; [done|congruence|]. rewrite H4. set_solver.
    + apply S4, S3, S2, S1; try done; congruence.
Qed.
End client.
