(* ===== verification/Log.v ===== *)
(** * kernel/log.c: the write-ahead log

    The log's state next to the buffer cache it runs on.  The header block is
    the [struct logheader] of little-endian words at the start of its block.
    The superblock is read with [readsb] of fs.c.  Sector numbers are [int]s
    here and [uint]s in bio.c, as in the source. *)

From Stdlib Require Import ZArith Lia.
From S2P Require Import Prelude Spinlock Bytes Bio BlockLayer.

Definition LOGSIZE : Z := 10.

Record logheader := { lh_n : Z; lh_sector : list Z }.
Record log := {
  lg_lock : bool;
  lg_start : Z;
  lg_size : Z;
  lg_busy : bool;
  lg_dev : Z;
  lg_lh : logheader;
  lg_wakes : nat; (* calls of wakeup(&log) *)
}.
Record blk := { lg : log; bc : bcache }.

Definition upd_lg (f : log -> log) (s : blk) : blk := {| lg := f (lg s); bc := bc s |}.
Definition set_bc (c : bcache) (s : blk) : blk := {| lg := lg s; bc := c |}.
Definition inbc {A} (m : K bcache A) : K blk A := zoom bc set_bc m.

Definition set_lh (h : logheader) (l : log) : log :=
  {| lg_lock := lg_lock l; lg_start := lg_start l; lg_size := lg_size l; lg_busy := lg_busy l; lg_dev := lg_dev l;
     lg_lh := h; lg_wakes := lg_wakes l |}.
Definition set_lh_n (n : Z) : log -> log := fun l => set_lh {| lh_n := n; lh_sector := lh_sector (lg_lh l) |} l.
Definition set_lh_sector (i : nat) (v : Z) : log -> log :=
  fun l => set_lh {| lh_n := lh_n (lg_lh l); lh_sector := <[i:=v]> (lh_sector (lg_lh l)) |} l.
Definition set_lbusy (b : bool) (l : log) : log :=
  {| lg_lock := lg_lock l; lg_start := lg_start l; lg_size := lg_size l; lg_busy := b; lg_dev := lg_dev l;
     lg_lh := lg_lh l; lg_wakes := lg_wakes l |}.
Definition lwakeup (l : log) : log :=
  {| lg_lock := lg_lock l; lg_start := lg_start l; lg_size := lg_size l; lg_busy := lg_busy l; lg_dev := lg_dev l;
     lg_lh := lg_lh l; lg_wakes := S (lg_wakes l) |}.

#[global] Instance log_locks : HasLocks unit blk := {
  held _ s := lg_lock (lg s);
  set_held _ b := upd_lg (fun l => {| lg_lock := b; lg_start := lg_start l; lg_size := lg_size l; lg_busy := lg_busy l;
    lg_dev := lg_dev l; lg_lh := lg_lh l; lg_wakes := lg_wakes l |});
}.

(** The superblock (fs.h) and [readsb] (fs.c). *)
Record superblock := { sb_size : Z; sb_nblocks : Z; sb_ninodes : Z; sb_nlog : Z }.
Definition dec_superblock (d : block) : superblock :=
  {| sb_size := getn 4 0 d; sb_nblocks := getn 4 4 d; sb_ninodes := getn 4 8 d; sb_nlog := getn 4 12 d |}.
Definition readsb (dev : Z) : K bcache superblock :=
  bp <- bread dev 1 ;;
  sb <- kgets (fun s => dec_superblock (bdata bp s)) ;;
  brelse bp ;;
  kret sb.

(** The words of a header block. *)
Definition hdr_n (d : block) : Z := s32 (getn 4 0 d).
Definition hdr_sector (d : block) (i : nat) : Z := s32 (getn 4 (4 + 4 * i) d).
Definition put_header (h : logheader) (d : block) : block :=
  foldl (fun d i => putn 4 (4 + 4 * i) (nth i (lh_sector h) 0) d) (putn 4 0 (lh_n h) d) (seq 0 (Z.to_nat (lh_n h))).

(** The turn of the loop of [install_trans] for the log block [tail]. *)
Definition install_one (dev start home : Z) (tail : nat) : K bcache unit :=
  lbuf <- bread dev (u32 (start + Z.of_nat tail + 1)) ;;
  dbuf <- bread dev (u32 home) ;;
  d <- kgets (bdata lbuf) ;;
  kmodify (bset dbuf d) ;;
  bwrite dbuf ;;
  brelse lbuf ;;
  brelse dbuf.
Fixpoint install_loop (dev start : Z) (homes : list Z) (tail : nat) : K bcache unit :=
  match homes with
  | [] => kret tt
  | home :: rest => install_one dev start home tail ;; install_loop dev start rest (S tail)
  end.
Definition install_trans : K blk unit :=
  s <- kget ;;
  let l := lg s in
  inbc (install_loop (lg_dev l) (lg_start l) (take (Z.to_nat (lh_n (lg_lh l))) (lh_sector (lg_lh l))) 0).

(** The loop of [read_head]; beyond [LOGSIZE] it leaves [log.lh.sector]. *)
Fixpoint read_sectors (d : block) (n i : nat) : K blk unit :=
  match n with
  | O => kret tt
  | S n' =>
      if LOGSIZE <=? Z.of_nat i then ub "read_head: log.lh.sector out of bounds"
      else kmodify (upd_lg (set_lh_sector i (hdr_sector d i))) ;; read_sectors d n' (S i)
  end.
Definition read_head : K blk unit :=
  s <- kget ;;
  b <- inbc (bread (lg_dev (lg s)) (u32 (lg_start (lg s)))) ;;
  d <- kgets (fun s => bdata b (bc s)) ;;
  kmodify (upd_lg (set_lh_n (hdr_n d))) ;;
  read_sectors d (Z.to_nat (hdr_n d)) 0 ;;
  inbc (brelse b).

Definition write_head : K blk unit :=
  s <- kget ;;
  b <- inbc (bread (lg_dev (lg s)) (u32 (lg_start (lg s)))) ;;
  d <- kgets (fun s => bdata b (bc s)) ;;
  inbc (kmodify (bset b (put_header (lg_lh (lg s)) d))) ;;
  inbc (bwrite b) ;;
  inbc (brelse b).

Definition recover_from_log : K blk unit :=
  read_head ;;
  install_trans ;;
  kmodify (upd_lg (set_lh_n 0)) ;;
  write_head.

(** [sizeof(struct logheader)]. *)
Definition LOGHEADER_SIZE : Z := 4 + 4 * LOGSIZE.

Definition initlog : K blk unit :=
  if Z.of_nat BSIZE <=? LOGHEADER_SIZE then panic "initlog: too big logheader"
  else
    kmodify (set_held tt false) ;;
    sb <- inbc (readsb ROOTDEV) ;;
    kmodify (upd_lg (fun l => {| lg_lock := lg_lock l; lg_start := s32 (sb_size sb -u sb_nlog sb); lg_size := s32 (sb_nlog sb);
      lg_busy := lg_busy l; lg_dev := ROOTDEV; lg_lh := lg_lh l; lg_wakes := lg_wakes l |})) ;;
    recover_from_log.

(** The channel [&log]. *)
Definition LOG_CHAN : Z := 0.

(** A caller that sleeps tests [log.busy] again when it is woken. *)
Definition begin_trans : K blk unit :=
  acquire tt ;;
  s <- kget ;;
  if lg_busy (lg s) then release tt ;; ksleep LOG_CHAN
  else kmodify (upd_lg (set_lbusy true)) ;; release tt.

Definition commit_trans : K blk unit :=
  s <- kget ;;
  (if 0 <? lh_n (lg_lh (lg s)) then
     write_head ;;
     install_trans ;;
     kmodify (upd_lg (set_lh_n 0)) ;;
     write_head
   else kret tt) ;;
  acquire tt ;;
  kmodify (upd_lg (set_lbusy false)) ;;
  kmodify (upd_lg lwakeup) ;;
  release tt.

(** The index of the block in the log: its old one (absorption) or [n]. *)
Fixpoint absorb (sectors : list Z) (k : Z) : nat :=
  match sectors with
  | [] => 0
  | x :: l => if u32 x =? k then 0 else S (absorb l k)
  end.

Definition log_write (b : nat) : K blk unit :=
  s <- kget ;;
  let l := lg s in
  let n := lh_n (lg_lh l) in
  if (LOGSIZE <=? n) || (lg_size l - 1 <=? n) then panic "too big a transaction"
  else if negb (lg_busy l) then panic "write outside of trans"
  else
    let bf := bufat (bc s) b in
    let i := absorb (take (Z.to_nat n) (lh_sector (lg_lh l))) (b_sector bf) in
    kmodify (upd_lg (set_lh_sector i (s32 (b_sector bf)))) ;;
    lbuf <- inbc (bread (b_dev bf) (u32 (lg_start l + Z.of_nat i + 1))) ;;
    d <- kgets (fun s => bdata b (bc s)) ;;
    inbc (kmodify (bset lbuf d)) ;;
    inbc (bwrite lbuf) ;;
    inbc (brelse lbuf) ;;
    (if Z.of_nat i =? n then kmodify (upd_lg (set_lh_n (n + 1))) else kret tt) ;;
    inbc (kmodify (bpin b)).

(** ** The header block *)

Lemma s32_u32 x : s32 (u32 x) = s32 x.
Proof. unfold s32. by rewrite u32_u32. Qed.
Lemma u32_s32 x : u32 (s32 x) = u32 x.
Proof. unfold s32, u32. zcases; dlia. Qed.

Definition put_words (f : nat -> Z) (n : nat) (d : block) : block :=
  foldl (fun d i => putn 4 (4 + 4 * i) (f i) d) d (seq 0 n).

Lemma put_words_S f n d : put_words f (S n) d = putn 4 (4 + 4 * n) (f n) (put_words f n d).
Proof. unfold put_words. by rewrite seq_S, foldl_app. Qed.

Lemma put_words_len f n d : (4 + 4 * n <= length d)%nat -> length (put_words f n d) = length d.
Proof.
  induction n as [|n IH]; intros Hl; [done|]. rewrite put_words_S, putn_len; [apply IH; lia|]. rewrite IH; lia.
Qed.
Lemma put_words_bytes f n d : bytes d -> bytes (put_words f n d).
Proof. induction n as [|n IH]; intros Hb; [done|]. rewrite put_words_S. auto with blocks. Qed.

Lemma put_words_first f n d m : (4 + 4 * n <= length d)%nat -> (m <= 4)%nat ->
  getn m 0 (put_words f n d) = getn m 0 d.
Proof.
  induction n as [|n IH]; intros Hl Hm; [done|].
  rewrite put_words_S, getn_putn_other; [apply IH; lia| |lia]. rewrite put_words_len; lia.
Qed.
Lemma put_words_get f n d i : (4 + 4 * n <= length d)%nat -> (i < n)%nat ->
  getn 4 (4 + 4 * i) (put_words f n d) = u32 (f i).
Proof.
  induction n as [|n IH]; intros Hl Hi; [lia|]. rewrite put_words_S. destruct (decide (i = n)) as [->|Hne].
  - rewrite getn_putn_same; [done|]. rewrite put_words_len; lia.
  - rewrite getn_putn_other; [apply IH; lia| |lia]. rewrite put_words_len; lia.
Qed.

(** A header the log can hold. *)
Definition wf_header (h : logheader) : Prop :=
  0 <= lh_n h <= LOGSIZE /\ length (lh_sector h) = Z.to_nat LOGSIZE /\ Forall (fun x => - 2 ^ 31 <= x < 2 ^ 31) (lh_sector h).

Section header.
Context (h : logheader) (d : block) (Hh : wf_header h) (Hd : wfblock d).

Lemma header_fits : (4 + 4 * Z.to_nat (lh_n h) <= length (putn 4 0 (lh_n h) d))%nat.
Proof.
  destruct Hh as ([? ?] & _), Hd as [Hl _]. rewrite putn_len; rewrite Hl; unfold LOGSIZE, BSIZE in *; lia.
Qed.

Lemma put_header_words : put_header h d = put_words (fun i => nth i (lh_sector h) 0) (Z.to_nat (lh_n h)) (putn 4 0 (lh_n h) d).
Proof. done. Qed.

Lemma put_header_wf : wfblock (put_header h d).
Proof.
  destruct Hd as [Hl Hb]. split.
  - rewrite put_header_words, put_words_len by apply header_fits. rewrite putn_len; [done|]. rewrite Hl. unfold BSIZE. lia.
  - rewrite put_header_words. apply put_words_bytes, putn_bytes, Hb.
Qed.

Lemma hdr_n_put : hdr_n (put_header h d) = lh_n h.
Proof.
  unfold hdr_n. rewrite put_header_words, put_words_first by (apply header_fits || lia).
  rewrite getn_putn_same by (rewrite (proj1 Hd); unfold BSIZE; lia). change (2 ^ (8 * Z.of_nat 4)) with (2 ^ 32).
  fold (u32 (lh_n h)). rewrite s32_u32, s32_small; [done|]. destruct Hh as (? & _). unfold LOGSIZE in *. lia.
Qed.

Lemma hdr_sector_put i : (i < Z.to_nat (lh_n h))%nat -> hdr_sector (put_header h d) i = nth i (lh_sector h) 0.
Proof.
  intros Hi. unfold hdr_sector. rewrite put_header_words, put_words_get by (apply header_fits || lia).
  rewrite s32_u32. apply s32_small. destruct Hh as (Hn & Hl & Hf). rewrite Forall_forall in Hf. apply Hf.
  rewrite list_elem_of_In. apply nth_In. rewrite Hl. lia.
Qed.
End header.

(** ** Installing the blocks *)

Lemma size_add (a : Z) (X : gset Z) : (size ({[a]} ∪ X) <= S (size X))%nat.
Proof.
  rewrite size_union_alt, size_singleton. enough (size (X ∖ {[a]}) <= size X)%nat by lia. apply subseteq_size. set_solver.
Qed.
Lemma size_two (a b : Z) (X : gset Z) n : (size (X ∖ {[b]}) <= n)%nat -> (size ({[a]} ∪ ({[b]} ∪ X)) <= S (S n))%nat.
Proof.
  intros Hs. pose proof (size_add a ({[b]} ∪ X)). pose proof (size_add b (X ∖ {[b]})).
  assert (size ({[b]} ∪ X) <= size ({[b]} ∪ X ∖ {[b]}))%nat; [|lia]. apply subseteq_size.
  intros x. destruct (decide (x = b)); set_solver.
Qed.

Lemma install_one_spec s start home tail : cinv s -> hset s = ∅ ->
  0 <= start + Z.of_nat tail + 1 < SECTORS -> 0 <= home < SECTORS -> home <> start + Z.of_nat tail + 1 ->
  start + Z.of_nat tail + 1 ∉ dset s -> (size (dset s ∖ {[home]}) <= NBUF - 2)%nat ->
  wp (install_one ROOTDEV start home tail) (fun _ s' =>
    let L := disk s (lba (start + Z.of_nat tail + 1)) in
    cinv s' /\ hset s' = ∅ /\ dset s' = dset s ∖ {[home]} /\ disk s' = disk_upd (disk s) (lba home) L /\
    writes s' = writes s ++ [(lba home, L)] /\
    (forall k, vw s' k = if decide (k = home) then L else vw s k)) s.
Proof.
  intros Hi Hh Hl Hm Hne Hd Hsz. set (L := start + Z.of_nat tail + 1) in *.
  assert (HU : u32 L = L /\ u32 home = home) by (unfold SECTORS, FS_SECTOR_OFFSET in *; split; apply u32_small; lia).
  destruct HU as [HU1 HU2]. unfold install_one. fold L. rewrite HU1, HU2.
  assert (Hroom : (size ({[L]} ∪ ({[home]} ∪ dset s)) <= NBUF)%nat) by (apply (size_two L) in Hsz; unfold NBUF in *; lia).
  kstep. eapply wp_mono; [apply wp_bread; [done|done|set_solver|]|].
  { etrans; [|exact Hroom]. apply subseteq_size. set_solver. }
  intros lb s1 ([I1 H1 D1 V1 K1 W1] & L1 & _). rewrite Hh, union_empty_r_L in H1.
  kstep. eapply wp_mono; [apply wp_bread; [done|done|set_solver|]|].
  { etrans; [|exact Hroom]. apply subseteq_size. set_solver. }
  intros db s2 ([I2 H2 D2 V2 K2 W2] & L2 & Kp2). pose proof (Kp2 lb L I L1) as L1'.
  ksteps. rewrite (locked_view _ _ _ I2 L1'). assert (VL : vw s2 L = disk s (lba L)).
  { rewrite V2, V1. apply clean_view; set_solver. }
  rewrite VL. destruct (bset_post s2 db home (disk s (lba L)) I2 L2) as [[I3 H3 D3 V3 K3 W3] Kp3].
  { rewrite <- VL. by apply vw_wf. }
  eapply wp_mono; [apply wp_bwrite; [done|by apply Kp3]|]. intros _ s4 ([I4 H4 D4 V4 K4 W4] & Kp4).
  kstep. eapply wp_mono; [apply (wp_brelse s4 lb L); [done|by apply Kp4, Kp3|]|].
  { right. rewrite V4, V3, K4, K3, K2, K1. unfold disk_upd. rewrite decide_False by done.
    rewrite (proj2 (Z.eqb_neq _ _)); [done|]. unfold lba. lia. }
  intros _ s5 ([I5 H5 D5 V5 K5 W5] & Kp5). eapply wp_mono; [apply (wp_brelse s5 db home); [done|by apply Kp5, Kp4, Kp3|]|].
  { right. rewrite V5, V4, V3, K5, K4, decide_True by done. unfold disk_upd. by rewrite Z.eqb_refl, V3, decide_True. }
  intros _ s6 ([I6 H6 D6 V6 K6 W6] & _). cbv zeta. split_and!; [done|rewrite H6, H5, H4, H3, H2, H1; clear; set_solver|congruence| | |].
  - rewrite K6, K5, K4, K3, K2, K1, V3. by rewrite decide_True.
  - rewrite W6, W5, W4, W3, W2, W1, V3. by rewrite decide_True.
  - intros k. rewrite V6, V5, V4, V3. destruct (decide (k = home)); [done|]. by rewrite V2, V1.
Qed.

(** The writes of [install_trans], and a disk after some writes. *)
Fixpoint installs (d : Z -> block) (start : Z) (homes : list Z) (tail : nat) : list (Z * block) :=
  match homes with
  | [] => []
  | h :: r => (lba h, d (lba (start + Z.of_nat tail + 1))) :: installs d start r (S tail)
  end.
Definition apply_writes (d : Z -> block) (w : list (Z * block)) : Z -> block :=
  foldl (fun d x => disk_upd d x.1 x.2) d w.

Lemma installs_ext d d' start homes tail :
  (forall k, start < k -> d' (lba k) = d (lba k)) -> installs d' start homes tail = installs d start homes tail.
Proof.
  intros Hd. revert tail. induction homes as [|h r IH]; intros tail; [done|]. simpl. rewrite IH, Hd by lia. done.
Qed.

Lemma install_loop_spec start homes : forall s tail, cinv s -> hset s = ∅ -> 0 <= start ->
  start + Z.of_nat tail + Z.of_nat (length homes) < SECTORS -> Forall (fun h => 0 <= h < start) homes ->
  (forall k, k ∈ dset s -> k < start) -> (forall h, h ∈ homes -> size (dset s ∖ {[h]}) <= NBUF - 2)%nat ->
  wp (install_loop ROOTDEV start homes tail) (fun _ s' =>
    cinv s' /\ hset s' = ∅ /\ dset s' = dset s ∖ list_to_set homes /\
    disk s' = apply_writes (disk s) (installs (disk s) start homes tail) /\
    writes s' = writes s ++ installs (disk s) start homes tail) s.
Proof.
  induction homes as [|h r IH]; intros s tail Hi Hh Hs Hl Hf Hd Hsz.
  { apply wp_ret. split_and!; [done|done|set_solver|done|by rewrite app_nil_r]. }
  apply Forall_cons in Hf as [Hh0 Hf]. cbn [length] in Hl. cbn [install_loop]. kstep.
  eapply wp_mono; [apply install_one_spec; [done|done|lia|unfold SECTORS, FS_SECTOR_OFFSET in *; lia|lia| |]|].
  { intros E%Hd. lia. }
  { apply Hsz. left. }
  intros _ s1 (I1 & H1 & D1 & K1 & W1 & _).
  assert (Hext : installs (disk s1) start r (S tail) = installs (disk s) start r (S tail)).
  { apply installs_ext. intros k Hk. rewrite K1. unfold disk_upd, lba in *. rewrite (proj2 (Z.eqb_neq _ _)); [done|lia]. }
  eapply wp_mono; [apply IH; [done|done|done|lia|done|..]|].
  - intros k. rewrite D1. intros [? _]%elem_of_difference. auto.
  - intros h' Hh'. rewrite D1. etrans; [|apply (Hsz h'); by right]. apply subseteq_size. set_solver.
  - intros _ s2 (I2 & H2 & D2 & K2 & W2). rewrite Hext in *. split_and!; [done|done| | |].
    + rewrite D2, D1. set_solver.
    + rewrite K2, K1. done.
    + rewrite W2, W1, <- app_assoc. done.
Qed.

(** ** The invariant of the log *)

Definition homes (l : log) : list Z := take (Z.to_nat (lh_n (lg_lh l))) (lh_sector (lg_lh l)).

(** The log of the file system [initlog] found. *)
Record lwf (l : log) : Prop := {
  lw_lock : lg_lock l = false;
  lw_dev : lg_dev l = ROOTDEV;
  lw_start : 0 <= lg_start l;
  lw_size : LOGSIZE <= lg_size l;
  lw_end : lg_start l + lg_size l < 2 ^ 31;
  lw_header : wf_header (lg_lh l);
}.

(** What is in the buffer of sector [k] is in the log, or on the disk if it is
    not logged. *)
Definition synced (s : blk) (k : Z) : Prop :=
  (forall i, homes (lg s) !! i = Some k -> disk (bc s) (lba (lg_start (lg s) + Z.of_nat i + 1)) = vw (bc s) k) /\
  (k ∉ dset (bc s) -> vw (bc s) k = disk (bc s) (lba k)).

Record linv (s : blk) : Prop := {
  li_log : lwf (lg s);
  li_cache : cinv (bc s);
  li_nodup : NoDup (homes (lg s));
  li_homes : Forall (fun k => 0 <= k < lg_start (lg s)) (homes (lg s));
  li_dirty : dset (bc s) = list_to_set (homes (lg s));
  li_held k : k ∈ hset (bc s) -> 0 <= k < lg_start (lg s);
  li_room : (length (homes (lg s)) <= MAXTXN)%nat;
  li_empty : hdr_n (disk (bc s) (lba (lg_start (lg s)))) = 0;
  li_synced k : 0 <= k < lg_start (lg s) -> k ∉ hset (bc s) -> synced s k;
}.

Lemma homes_len l : lwf l -> length (homes l) = Z.to_nat (lh_n (lg_lh l)).
Proof.
  intros Hl. destruct (lw_header _ Hl) as (Hn & He & _). unfold homes. rewrite length_take, He. lia.
Qed.
Lemma linv_n s : linv s -> lh_n (lg_lh (lg s)) = Z.of_nat (size (dset (bc s))).
Proof.
  intros Hi. rewrite (li_dirty _ Hi), size_list_to_set by apply (li_nodup _ Hi).
  rewrite homes_len by apply (li_log _ Hi). destruct (lw_header _ (li_log _ Hi)) as ([? _] & _). lia.
Qed.

Lemma dirty_below s k : linv s -> k ∈ dset (bc s) -> 0 <= k < lg_start (lg s).
Proof.
  intros Hi Hk. rewrite (li_dirty _ Hi), elem_of_list_to_set in Hk. pose proof (li_homes _ Hi) as Hf.
  rewrite Forall_forall in Hf. by apply Hf.
Qed.

Definition log_model : block_model blk := {|
  bl_inv := linv;
  bl_txn s := lg_busy (lg s) = true;
  bl_view s := vw (bc s);
  bl_held s := hset (bc s);
  bl_logged s := dset (bc s);
  bl_limit s := lg_start (lg s);
  bl_locked s := locked (bc s);
  bl_synced := synced;
|}.

#[global] Instance log_ops : BlockOps blk := {
  bl_bread dev k := inbc (bread dev k);
  bl_brelse b := inbc (brelse b);
  bl_log_write := log_write;
  bl_data b s := bdata b (bc s);
  bl_put b d s := set_bc (bset b d (bc s)) s;
}.

(** A step of the cache that leaves the log, its blocks and the logged sectors
    alone. *)
Lemma synced_frame s c k : dset c = dset (bc s) -> vw c k = vw (bc s) k -> disk c = disk (bc s) ->
  synced s k -> synced (set_bc c s) k.
Proof. intros Hd Hv Hk [S1 S2]. unfold synced. cbn [lg bc set_bc]. rewrite Hd, Hv, Hk. done. Qed.

Lemma linv_frame s c H V : linv s -> cpost c H (dset (bc s)) V (disk (bc s)) (writes (bc s)) ->
  (forall k, k ∈ H -> 0 <= k < lg_start (lg s)) ->
  (forall k, 0 <= k < lg_start (lg s) -> k ∉ H -> V k = vw (bc s) k /\ synced s k) ->
  linv (set_bc c s).
Proof.
  intros [L C N Hm D Hh R E S] [I1 H1 D1 V1 K1 W1] Hheld Hsy. split; cbn [lg bc set_bc]; rewrite ?D1, ?K1; try done.
  - intros k. rewrite H1. apply Hheld.
  - intros k Hk. rewrite H1. intros Hnk. destruct (Hsy k Hk Hnk) as [Ev Hs].
    apply synced_frame; [done|by rewrite V1|done|done].
Qed.

Lemma beff_frame s c H D V dk w : linv (set_bc c s) -> cpost c H D V dk w -> beff log_model s (set_bc c s) H D V.
Proof. intros Hi [I1 H1 D1 V1 K1 W1]. split; try done. intros k _. apply V1. Qed.

Lemma below_sectors s k : linv s -> 0 <= k < lg_start (lg s) -> 0 <= k < SECTORS.
Proof.
  intros Hi Hk. pose proof (lw_end _ (li_log _ Hi)). pose proof (lw_size _ (li_log _ Hi)).
  unfold SECTORS, FS_SECTOR_OFFSET, LOGSIZE in *. lia.
Qed.

Lemma log_bread s k : linv s -> 0 <= k < lg_start (lg s) -> k ∉ hset (bc s) ->
  (size ({[k]} ∪ (hset (bc s) ∪ dset (bc s))) <= NBUF)%nat ->
  wp (inbc (bread ROOTDEV k)) (fun b s' =>
    beff log_model s s' ({[k]} ∪ hset (bc s)) (dset (bc s)) (vw (bc s)) /\
    locked (bc s') b k /\ synced s' k /\ bkeeps log_model s s' (fun _ => True)) s.
Proof.
  intros Hi Hr Hk Hsz. apply wp_zoom. eapply wp_mono; [apply wp_bread; [apply Hi|by eapply below_sectors|done|done]|].
  intros b c (P & L1 & Kp). pose proof P as [I1 H1 D1 V1 K1 W1].
  assert (Hsy : forall k', synced s k' -> synced (set_bc c s) k') by (intros k'; apply synced_frame; done).
  split_and!; [eapply beff_frame; [|exact P]|done|by apply Hsy, (li_synced _ Hi)|split; [exact Kp|intros k' _ _; apply Hsy]].
  eapply linv_frame; [done|exact P| |].
  - intros k' [->%elem_of_singleton|Hk']%elem_of_union; [done|by apply (li_held _ Hi)].
  - intros k' Hk' Hn. split; [done|]. apply (li_synced _ Hi); [done|set_solver].
Qed.

Lemma log_put s b k d : linv s -> locked (bc s) b k -> wfblock d ->
  beff log_model s (set_bc (bset b d (bc s)) s) (hset (bc s)) (dset (bc s))
    (fun k' => if decide (k' = k) then d else vw (bc s) k') /\
  locked (bset b d (bc s)) b k /\ bkeeps log_model s (set_bc (bset b d (bc s)) s) (fun k' => k' <> k).
Proof.
  intros Hi Hlk Hd. destruct (bset_post _ b k d (li_cache _ Hi) Hlk Hd) as [P Kp]. pose proof P as [I1 H1 D1 V1 K1 W1].
  assert (Hh : k ∈ hset (bc s)) by (eapply locked_hset; [apply Hi|done]).
  split_and!; [eapply beff_frame; [|exact P]|by apply Kp|split].
  - eapply linv_frame; [done|exact P|by apply (li_held _ Hi)|]. intros k' Hk' Hn.
    cbn beta. rewrite decide_False by (intros ->; done). split; [done|by apply (li_synced _ Hi)].
  - intros b' k' _. by apply Kp.
  - intros k' Hne _. apply synced_frame; [done|rewrite V1; by rewrite decide_False|done].
Qed.

Lemma log_brelse s b k : linv s -> locked (bc s) b k -> synced s k ->
  wp (inbc (brelse b)) (fun _ s' => beff log_model s s' (hset (bc s) ∖ {[k]}) (dset (bc s)) (vw (bc s)) /\
    bkeeps log_model s s' (fun k' => k' <> k)) s.
Proof.
  intros Hi Hlk Hsk. apply wp_zoom. eapply wp_mono.
  { apply (wp_brelse _ b k); [apply Hi|done|]. destruct (decide (k ∈ dset (bc s))); [by left|right; by apply Hsk]. }
  intros _ c (P & Kp). pose proof P as [I1 H1 D1 V1 K1 W1].
  assert (Hsy : forall k', synced s k' -> synced (set_bc c s) k') by (intros k'; apply synced_frame; done).
  split; [eapply beff_frame; [|exact P]|split; [exact Kp|intros k' _ _; apply Hsy]].
  eapply linv_frame; [done|exact P| |].
  - intros k' [Hk' _]%elem_of_difference. by apply (li_held _ Hi).
  - intros k' Hk' Hn. split; [done|]. destruct (decide (k' = k)) as [->|]; [done|].
    apply (li_synced _ Hi); [done|set_solver].
Qed.

(** *** [log_write] *)

Lemma absorb_spec l k : Forall (fun x => 0 <= x < 2 ^ 32) l ->
  (k ∈ l /\ l !! absorb l k = Some k) \/ (k ∉ l /\ absorb l k = length l).
Proof.
  induction 1 as [|x l Hx _ IH]; cbn [absorb]; [right; split; [apply not_elem_of_nil|done]|]. rewrite u32_small by done.
  destruct (Z.eqb_spec x k) as [->|Hne]; [left; split; [left|done]|]. destruct IH as [[IH1 IH2]|[IH1 IH2]].
  - left. split; [by right|done].
  - right. split; [|simpl; by rewrite IH2]. apply not_elem_of_cons. auto.
Qed.

(** The header after [log_write] of sector [k]. *)
Definition log_header (l : log) (k : Z) : log :=
  let n := lh_n (lg_lh l) in
  let i := absorb (homes l) k in
  let l1 := set_lh_sector i (s32 k) l in
  if Z.of_nat i =? n then set_lh_n (n + 1) l1 else l1.

Section log_write.
Context (l : log) (k : Z) (Hl : lwf l) (Hf : Forall (fun x => 0 <= x < lg_start l) (homes l))
  (Hn : NoDup (homes l)) (Hk : 0 <= k < lg_start l) (Hroom : (length (homes l) < MAXTXN)%nat).

Lemma homes_range : Forall (fun x => 0 <= x < 2 ^ 32) (homes l).
Proof. eapply Forall_impl; [exact Hf|]. intros x Hx. pose proof (lw_end _ Hl). pose proof (lw_size _ Hl). unfold LOGSIZE in *. simpl. lia. Qed.

Lemma homes_log_header :
  homes (log_header l k) = (if decide (k ∈ homes l) then homes l else homes l ++ [k]) /\
  homes (log_header l k) !! absorb (homes l) k = Some k /\ (absorb (homes l) k < MAXTXN)%nat.
Proof.
  pose proof (homes_len _ Hl) as Hlen. destruct (lw_header _ Hl) as (Hn0 & Hls & _).
  assert (Hs : s32 k = k) by (apply s32_small; pose proof (lw_end _ Hl); pose proof (lw_size _ Hl); unfold LOGSIZE in *; lia).
  unfold log_header. rewrite Hs. unfold MAXTXN, LOGSIZE in *.
  destruct (absorb_spec (homes l) k homes_range) as [[Hin Hi]|[Hin Hi]].
  - rewrite decide_True by done. pose proof (lookup_lt_Some _ _ _ Hi) as Hlt.
    rewrite (proj2 (Z.eqb_neq _ _)) by lia.
    assert (E : homes (set_lh_sector (absorb (homes l) k) k l) = homes l).
    { unfold homes at 1. cbn. rewrite take_insert_lt by lia. fold (homes l). by apply list_insert_id. }
    rewrite E. split_and!; [done|done|lia].
  - rewrite decide_False by done. rewrite Hi, Hlen, Z2Nat.id, Z.eqb_refl by lia.
    assert (E : homes (set_lh_n (lh_n (lg_lh l) + 1) (set_lh_sector (Z.to_nat (lh_n (lg_lh l))) k l)) = homes l ++ [k]).
    { unfold homes. cbn. replace (Z.to_nat (lh_n (lg_lh l) + 1)) with (S (Z.to_nat (lh_n (lg_lh l)))) by lia.
      rewrite (take_S_r _ _ k) by (apply list_lookup_insert_eq; lia). by rewrite take_insert_ge by lia. }
    rewrite E. split_and!; [done| |lia]. rewrite <- Hlen. by apply list_lookup_middle.
Qed.

Lemma log_header_nodup : NoDup (homes (log_header l k)).
Proof.
  destruct homes_log_header as [-> _]. destruct (decide (k ∈ homes l)); [done|].
  apply NoDup_app. split_and!; [done| |apply NoDup_singleton]. intros x Hx ->%list_elem_of_singleton. done.
Qed.
Lemma log_header_homes : Forall (fun x => 0 <= x < lg_start l) (homes (log_header l k)).
Proof.
  destruct homes_log_header as [-> _]. destruct (decide (k ∈ homes l)); [done|].
  apply Forall_app. split; [done|]. by apply Forall_singleton.
Qed.
Lemma log_header_dirty : list_to_set (homes (log_header l k)) = ({[k]} ∪ list_to_set (homes l) : gset Z).
Proof.
  destruct homes_log_header as [-> _]. destruct (decide (k ∈ homes l)); [|rewrite list_to_set_app_L; set_solver].
  assert (k ∈ (list_to_set (homes l) : gset Z)) by (by apply elem_of_list_to_set). set_solver.
Qed.
Lemma log_header_room : (length (homes (log_header l k)) <= MAXTXN)%nat.
Proof.
  destruct homes_log_header as [-> _]. destruct (decide (k ∈ homes l)); [lia|]. rewrite length_app. simpl. lia.
Qed.
Lemma log_header_wf : lwf (log_header l k).
Proof.
  pose proof (homes_len _ Hl) as Hlen. pose proof Hl as [H1 H2 H3 H4 H5 (H6 & H7 & H8)].
  assert (Hs : -2 ^ 31 <= s32 k < 2 ^ 31) by (unfold s32, u32; zcases; dlia).
  assert (Hw : forall n, 0 <= n <= LOGSIZE -> wf_header {| lh_n := n; lh_sector := <[absorb (homes l) k:=s32 k]> (lh_sector (lg_lh l)) |}).
  { intros n Hn'. split_and!; cbn; [lia|lia|by rewrite length_insert|]. by apply Forall_insert. }
  unfold log_header. destruct (Z.eqb_spec (Z.of_nat (absorb (homes l) k)) (lh_n (lg_lh l))); split; cbn; try done; apply Hw;
    unfold MAXTXN, LOGSIZE in *; lia.
Qed.
(** Only [k] can be at its index. *)
Lemma log_header_other j k' : homes (log_header l k) !! j = Some k' -> k' <> k ->
  j <> absorb (homes l) k /\ homes l !! j = Some k'.
Proof.
  destruct homes_log_header as (E & Hi & _). intros Hj Hne. split; [intros ->; congruence|].
  rewrite E in Hj. destruct (decide (k ∈ homes l)); [done|]. apply lookup_app_Some in Hj as [Hj|[_ Hj]]; [done|].
  apply list_lookup_singleton_Some in Hj as [_ <-]. done.
Qed.
Lemma log_header_fields : lg_start (log_header l k) = lg_start l /\ lg_busy (log_header l k) = lg_busy l.
Proof. unfold log_header. by destruct (_ =? _). Qed.
End log_write.

Lemma log_block_range s i : linv s -> (i < MAXTXN)%nat ->
  let L := lg_start (lg s) + Z.of_nat i + 1 in
  u32 L = L /\ 0 <= L < SECTORS /\ L ∉ hset (bc s) /\ L ∉ dset (bc s).
Proof.
  intros Hi Hm L. pose proof (li_log _ Hi) as [_ _ H3 H4 H5 _].
  unfold MAXTXN, LOGSIZE, SECTORS, FS_SECTOR_OFFSET in *. split_and!; [apply u32_small; lia|lia|lia|..].
  - intros Hh%(li_held _ Hi). lia.
  - intros Hd%(dirty_below _ _ Hi). lia.
Qed.

(** The state of the log and the cache that [log_write] leaves. *)
Lemma linv_logged s c k : linv s -> k ∈ hset (bc s) -> (size (dset (bc s)) < MAXTXN)%nat ->
  cpost c (hset (bc s)) ({[k]} ∪ dset (bc s))
    (fun k' => if decide (k' = lg_start (lg s) + Z.of_nat (absorb (homes (lg s)) k) + 1) then vw (bc s) k else vw (bc s) k')
    (disk_upd (disk (bc s)) (lba (lg_start (lg s) + Z.of_nat (absorb (homes (lg s)) k) + 1)) (vw (bc s) k))
    (writes (bc s) ++ [(lba (lg_start (lg s) + Z.of_nat (absorb (homes (lg s)) k) + 1), vw (bc s) k)]) ->
  let s' := {| lg := log_header (lg s) k; bc := c |} in
  beff log_model s s' (hset (bc s)) ({[k]} ∪ dset (bc s)) (vw (bc s)) /\ synced s' k /\
  (forall k', synced s k' -> 0 <= k' < lg_start (lg s) -> synced s' k').
Proof.
  intros Hi Hkh Hsz P s'. pose proof P as [I1 H1 D1 V1 K1 W1].
  pose proof Hi as [L C N Hm D Hh R E S]. pose proof (Hh _ Hkh) as Hk.
  assert (Hr : (length (homes (lg s)) < MAXTXN)%nat).
  { rewrite D, size_list_to_set in Hsz by done. done. }
  set (i := absorb (homes (lg s)) k) in *.
  destruct (homes_log_header _ k L Hm Hk Hr) as (_ & Hik & _). fold i in Hik.
  destruct (log_header_fields (lg s) k) as [Fs Fb].
  pose proof (log_header_nodup _ k L Hm N Hk Hr) as N'.
  assert (Dk : forall k', 0 <= k' <= lg_start (lg s) -> disk c (lba k') = disk (bc s) (lba k')).
  { intros k' Hk'. rewrite K1. unfold disk_upd, lba. rewrite (proj2 (Z.eqb_neq _ _)); [done|lia]. }
  assert (Vk : forall k', 0 <= k' < lg_start (lg s) -> vw c k' = vw (bc s) k').
  { intros k' Hk'. rewrite V1, decide_False; [done|lia]. }
  assert (Sk : synced s' k).
  { split; cbn [s' lg bc]; [|rewrite D1; set_solver]. intros j Hj. rewrite (NoDup_lookup _ j i k N' Hj Hik), Fs, K1, Vk by done.
    unfold disk_upd. by rewrite Z.eqb_refl. }
  assert (Sy : forall k', synced s k' -> 0 <= k' < lg_start (lg s) -> synced s' k').
  { intros k' [S1 S2] Hk'. destruct (decide (k' = k)) as [->|Hne]; [done|]. split; cbn [s' lg bc].
    - intros j Hj. destruct (log_header_other _ k L Hm Hk Hr j k' Hj Hne) as [Hji Hj']. fold i in Hji.
      rewrite Fs, K1, Vk by done. unfold disk_upd. rewrite (proj2 (Z.eqb_neq _ _)); [by apply S1|unfold lba; lia].
    - rewrite D1, Vk, Dk by lia. intros Hn. apply S2. set_solver. }
  split_and!; [split|done|done]; cbn [log_model bl_inv bl_txn bl_view bl_held bl_logged bl_limit s' lg bc]; rewrite ?Fs, ?Fb; try done.
  - split; cbn [s' lg bc]; rewrite ?Fs; try done.
    + by apply log_header_wf.
    + by apply log_header_homes.
    + rewrite D1, D. symmetry. by apply log_header_dirty.
    + intros k'. rewrite H1. apply Hh.
    + by apply log_header_room.
    + rewrite Dk; [done|lia].
    + intros k' Hk'. rewrite H1. intros Hn. apply Sy; [by apply S|done].
Qed.

Lemma log_log_write s b k : linv s -> lg_busy (lg s) = true -> locked (bc s) b k ->
  (size (dset (bc s)) < MAXTXN)%nat -> (size (hset (bc s) ∪ dset (bc s)) < NBUF)%nat ->
  wp (log_write b) (fun _ s' => beff log_model s s' (hset (bc s)) ({[k]} ∪ dset (bc s)) (vw (bc s)) /\
    locked (bc s') b k /\ synced s' k /\ (forall b' k', locked (bc s) b' k' -> locked (bc s') b' k') /\
    (forall k', synced s k' -> 0 <= k' < lg_start (lg s) -> synced s' k')) s.
Proof.
  intros Hi Hbusy Hlk Hn Hroom. pose proof (li_cache _ Hi) as Hc.
  pose proof (locked_hset _ _ _ Hc Hlk) as Hkh. pose proof (li_held _ Hi _ Hkh) as Hk.
  pose proof Hlk as (_ & _ & Hdev & Hsec & _). pose proof (linv_n _ Hi) as En.
  assert (Hr : (length (homes (lg s)) < MAXTXN)%nat).
  { rewrite (li_dirty _ Hi), size_list_to_set in Hn by apply (li_nodup _ Hi). done. }
  destruct (homes_log_header _ k (li_log _ Hi) (li_homes _ Hi) Hk Hr) as (_ & _ & Hix).
  unfold log_write, inbc. kstep. kstep. rewrite Hbusy. cbn [negb].
  pose proof (lw_size _ (li_log _ Hi)) as Hls. unfold MAXTXN, LOGSIZE in *.
  destruct (Z.leb_spec 10 (lh_n (lg_lh (lg s)))); [lia|]. destruct (Z.leb_spec (lg_size (lg s) - 1) (lh_n (lg_lh (lg s)))); [lia|].
  cbn [orb]. fold (homes (lg s)). rewrite Hsec, Hdev. set (i := absorb (homes (lg s)) k) in *.
  destruct (log_block_range s i Hi Hix) as (HuL & HrL & HhL & HdL). set (L := lg_start (lg s) + Z.of_nat i + 1) in *.
  rewrite HuL. kstep. kstep. kstep. apply wp_zoom. cbn [upd_lg bc].
  eapply wp_mono; [apply wp_bread; [done|done|done|]|].
  { pose proof (size_add L (hset (bc s) ∪ dset (bc s))). lia. }
  intros lb c1 ([I1 H1 D1 V1 K1 W1] & L1 & Kp1). kstep. kstep. cbn [set_bc bc].
  pose proof (Kp1 b k I Hlk) as Lk1. rewrite (locked_view _ _ _ I1 Lk1), V1.
  kstep. kstep. kstep. destruct (bset_post c1 lb L (vw (bc s) k) I1 L1 (vw_wf _ _ Hc)) as [[I2 H2 D2 V2 K2 W2] Kp2].
  kstep. kstep. cbn [set_bc bc]. eapply wp_mono; [apply (wp_bwrite (bset lb (vw (bc s) k) c1) lb L); [done|by apply Kp2]|].
  intros _ c3 ([I3 H3 D3 V3 K3 W3] & Kp3). kstep. kstep. cbn [set_bc bc]. assert (HkL : k <> L) by (unfold L; lia).
  eapply wp_mono; [apply (wp_brelse c3 lb L); [done|by apply Kp3, Kp2|]|].
  { right. rewrite V3, K3. unfold disk_upd. by rewrite Z.eqb_refl. }
  intros _ c4 ([I4 H4 D4 V4 K4 W4] & Kp4). rewrite V2, decide_True in K3, W3 by done.
  assert (Kp : forall b' k', locked (bc s) b' k' -> locked c4 b' k').
  { intros b' k' Hl'. apply Kp4; [|by apply Kp3, Kp2, Kp1]. intros ->. apply HhL. eapply locked_hset; [exact Hc|done]. }
  destruct (bpin_post c4 b k I4 (Kp _ _ Hlk)) as [P5 Kp5].
  assert (P : cpost (bpin b c4) (hset (bc s)) ({[k]} ∪ dset (bc s)) (fun k' => if decide (k' = L) then vw (bc s) k else vw (bc s) k')
    (disk_upd (disk (bc s)) (lba L) (vw (bc s) k)) (writes (bc s) ++ [(lba L, vw (bc s) k)])).
  { destruct P5 as [I5 H5 D5 V5 K5 W5]. split; [done|rewrite H5, H4, H3, H2, H1; clear -HhL; set_solver| | | |].
    - rewrite D5, D4, D3, D2, D1. f_equal. clear -HdL; set_solver.
    - intros k'. rewrite V5, V4, V3, V2. destruct (decide (k' = L)); [done|apply V1].
    - rewrite K5, K4, K3, K2, K1. done.
    - rewrite W5, W4, W3, W2, W1. done. }
  destruct (linv_logged s _ k Hi Hkh Hn P) as (B & Sk & Sy). fold i in B. kstep.
  destruct (Z.of_nat i =? lh_n (lg_lh (lg s))) eqn:Ei.
  - kstep. kstep. kstep. unfold set_bc, upd_lg. cbn [lg bc]. unfold log_header in B, Sk, Sy. fold i in B, Sk, Sy. rewrite Ei in B, Sk, Sy.
    split_and!; [exact B|apply Kp5; auto|exact Sk|intros b' k' ?; apply Kp5; auto|exact Sy].
  - kstep. kstep. kstep. unfold set_bc, upd_lg. cbn [lg bc]. unfold log_header in B, Sk, Sy. fold i in B, Sk, Sy. rewrite Ei in B, Sk, Sy.
    split_and!; [exact B|apply Kp5; auto|exact Sk|intros b' k' ?; apply Kp5; auto|exact Sy].
Qed.

(** The interface's names unfolded to the log's. *)
Ltac logcbn := cbn [log_model bl_inv bl_txn bl_view bl_held bl_logged bl_limit bl_locked bl_synced log_ops bl_bread bl_brelse bl_log_write bl_data bl_put] in *.

(** bio.c and log.c implement the block layer. *)
#[global] Instance log_laws : BlockLaws blk log_model.
Proof.
  split; logcbn.
  - intros s k Hi Hr Hk Hsz. by apply log_bread.
  - intros s b k Hi Hlk. apply locked_view; [apply Hi|done].
  - intros s b k Hi Hlk. assert (k ∈ hset (bc s)) by (eapply locked_hset; [apply Hi|done]). split; [done|by apply (li_held _ Hi)].
  - intros s k Hi Hk Hn. by apply (li_synced _ Hi).
  - intros s k Hi. apply vw_wf, Hi.
  - intros s b k d Hi Hlk Hd. destruct (log_put s b k d Hi Hlk Hd) as (H1 & H2 & H3). done.
  - intros s b k Hi Ht Hlk Hn Hr. eapply wp_mono; [by apply log_log_write|].
    intros _ s' (B & L & S & Kl & Ks). split_and!; [done..|]. split; [intros b' k' _; apply Kl|intros k' _ Hk' Hs; by apply Ks].
  - intros s b k Hi Hlk Hs. by apply log_brelse.
Qed.

(** ** Transactions *)

(** Writing the header: its block gets the words of the header. *)
Lemma write_head_spec s : cinv (bc s) -> hset (bc s) = ∅ -> lg_dev (lg s) = ROOTDEV -> 0 <= lg_start (lg s) < 2 ^ 31 ->
  lg_start (lg s) ∉ dset (bc s) -> (size (dset (bc s)) < NBUF)%nat -> wf_header (lg_lh (lg s)) ->
  let H := put_header (lg_lh (lg s)) (disk (bc s) (lba (lg_start (lg s)))) in
  wp write_head (fun _ s' => lg s' = lg s /\
    cpost (bc s') ∅ (dset (bc s)) (fun k => if decide (k = lg_start (lg s)) then H else vw (bc s) k)
      (disk_upd (disk (bc s)) (lba (lg_start (lg s))) H) (writes (bc s) ++ [(lba (lg_start (lg s)), H)])) s.
Proof.
  intros Hc Hh Hdev Hst Hd Hsz Hw H. unfold write_head, inbc. kstep. kstep. rewrite Hdev, u32_small by lia. kstep. kstep.
  assert (Hr : 0 <= lg_start (lg s) < SECTORS) by (unfold SECTORS, FS_SECTOR_OFFSET; lia).
  eapply wp_mono; [apply wp_bread; [done|done|set_solver|]|].
  { rewrite Hh, union_empty_l_L. pose proof (size_add (lg_start (lg s)) (dset (bc s))). lia. }
  intros b c1 ([I1 H1 D1 V1 K1 W1] & L1 & _). kstep. kstep. cbn [set_bc bc].
  rewrite (locked_view _ _ _ I1 L1), V1, (clean_view (bc s)) by (done || set_solver). fold H.
  assert (HH : wfblock H). { apply put_header_wf; [done|]. destruct Hc as [_ Hc]. by eapply coh_disk. }
  kstep. kstep. kstep. destruct (bset_post c1 b _ H I1 L1 HH) as [[I2 H2 D2 V2 K2 W2] Kp2]. kstep. kstep. cbn [set_bc bc].
  eapply wp_mono; [apply (wp_bwrite (bset b H c1) b (lg_start (lg s))); [done|by apply Kp2]|].
  intros _ c3 ([I3 H3 D3 V3 K3 W3] & Kp3). kstep. cbn [set_bc bc].
  eapply wp_mono; [apply (wp_brelse c3 b (lg_start (lg s))); [done|by apply Kp3, Kp2|]|].
  { right. rewrite V3, K3. unfold disk_upd. by rewrite Z.eqb_refl. }
  intros _ c4 ([I4 H4 D4 V4 K4 W4] & _). rewrite V2, decide_True in K3, W3 by done. split; [done|]. cbn [set_bc bc]. split.
  - done.
  - rewrite H4, H3, H2, H1, Hh. clear. set_solver.
  - rewrite D4, D3, D2, D1. clear -Hd. set_solver.
  - intros k. rewrite V4, V3, V2. by destruct (decide _); [|apply V1].
  - rewrite K4, K3, K2, K1. done.
  - rewrite W4, W3, W2, W1. done.
Qed.

Lemma install_trans_spec s : cinv (bc s) -> hset (bc s) = ∅ -> lwf (lg s) ->
  Forall (fun k => 0 <= k < lg_start (lg s)) (homes (lg s)) ->
  (dset (bc s) = ∅ \/ (dset (bc s) = list_to_set (homes (lg s)) /\ NoDup (homes (lg s)) /\ (length (homes (lg s)) <= MAXTXN)%nat)) ->
  let w := installs (disk (bc s)) (lg_start (lg s)) (homes (lg s)) 0 in
  wp install_trans (fun _ s' => lg s' = lg s /\ cinv (bc s') /\ hset (bc s') = ∅ /\ dset (bc s') = ∅ /\
    disk (bc s') = apply_writes (disk (bc s)) w /\ writes (bc s') = writes (bc s) ++ w) s.
Proof.
  intros Hc Hh Hl Hf Hor w. unfold install_trans, inbc. kstep. kstep. kstep. rewrite (lw_dev _ Hl). fold (homes (lg s)).
  pose proof (homes_len _ Hl) as Hlen. pose proof Hl as [_ _ H3 H4 H5 ((Hn & Hn') & _)].
  eapply wp_mono; [apply install_loop_spec; [done|done|done|unfold SECTORS, FS_SECTOR_OFFSET, LOGSIZE in *; lia|done| |]|].
  - intros k Hk. destruct Hor as [E|[E _]]; rewrite E in Hk; [set_solver|]. apply elem_of_list_to_set in Hk.
    rewrite Forall_forall in Hf. apply Hf in Hk. lia.
  - intros h Hk. destruct Hor as [->|(-> & Hnd & Hm)]; [replace (∅ ∖ {[h]}) with (∅ : gset Z) by set_solver; rewrite size_empty; lia|].
    rewrite size_difference, size_singleton, size_list_to_set by (done || (intros x ->%elem_of_singleton; by apply elem_of_list_to_set)).
    unfold MAXTXN, NBUF in *. lia.
  - intros _ c (I1 & H1 & D1 & K1 & W1). cbn [set_bc lg bc]. split_and!; try done. rewrite D1.
    destruct Hor as [->|(-> & _)]; set_solver.
Qed.

(** *** What the writes of a commit do to the disk *)

Lemma apply_writes_app d w1 w2 : apply_writes d (w1 ++ w2) = apply_writes (apply_writes d w1) w2.
Proof. apply foldl_app. Qed.

Lemma apply_installs_other d0 start homes a : forall tail d, (forall h, h ∈ homes -> a <> lba h) ->
  apply_writes d (installs d0 start homes tail) a = d a.
Proof.
  induction homes as [|h r IH]; intros tail d Ha; [done|]. cbn [installs apply_writes foldl].
  fold (apply_writes (disk_upd d (lba h) (d0 (lba (start + Z.of_nat tail + 1)))) (installs d0 start r (S tail))).
  rewrite IH by (intros h' Hh'; apply Ha; by right). unfold disk_upd.
  rewrite (proj2 (Z.eqb_neq _ _)); [done|]. apply Ha. left.
Qed.

Lemma apply_installs_home d0 start homes k : NoDup homes -> forall tail d i, homes !! i = Some k ->
  apply_writes d (installs d0 start homes tail) (lba k) = d0 (lba (start + Z.of_nat (tail + i) + 1)).
Proof.
  induction 1 as [|h r Hnot Hnd IH]; intros tail d i Hi; [done|]. cbn [installs apply_writes foldl].
  fold (apply_writes (disk_upd d (lba h) (d0 (lba (start + Z.of_nat tail + 1)))) (installs d0 start r (S tail))).
  destruct i as [|i]; simpl in Hi.
  - injection Hi as ->. rewrite apply_installs_other; [unfold disk_upd; rewrite Z.eqb_refl, Nat.add_0_r; done|].
    intros h' Hh' E. assert (h' = k) as -> by (unfold lba in E; lia). done.
  - rewrite (IH (S tail) _ i Hi), Nat.add_succ_comm. done.
Qed.

(** A prefix of the installs only replaces home blocks by their logged
    contents. *)
Lemma apply_installs_prefix d0 start homes w1 w2 : installs d0 start homes 0 = w1 ++ w2 ->
  w1 = installs d0 start (take (length w1) homes) 0.
Proof.
  generalize 0%nat. revert w1. induction homes as [|h r IH]; intros w1 tail E; simpl in E.
  - symmetry in E. apply app_nil in E as [-> _]. done.
  - destruct w1 as [|x w1]; [done|]. simpl in E. injection E as <- E. cbn [length take installs]. f_equal. by apply IH.
Qed.

Lemma lh_reset l : lwf l -> wf_header {| lh_n := 0; lh_sector := lh_sector (lg_lh l) |}.
Proof. intros Hl. destruct (lw_header _ Hl) as (_ & H2 & H3). split_and!; [unfold LOGSIZE; simpl; lia..|done|done]. Qed.
Lemma lwf_reset l : lwf l -> lwf (set_lh_n 0 l).
Proof. intros Hl. pose proof (lh_reset _ Hl). destruct Hl. split; done. Qed.

(** With nothing logged, nothing held and the header cleared, the log is as
    between two transactions. *)
Lemma linv_idle s : lwf (lg s) -> lh_n (lg_lh (lg s)) = 0 -> cinv (bc s) -> hset (bc s) = ∅ -> dset (bc s) = ∅ ->
  hdr_n (disk (bc s) (lba (lg_start (lg s)))) = 0 -> linv s.
Proof.
  intros Hl Hn Hc Hh Hd He. assert (Hz : homes (lg s) = []) by (unfold homes; by rewrite Hn).
  split; [done|done|rewrite Hz; constructor|rewrite Hz; constructor|by rewrite Hd, Hz| |rewrite Hz; unfold MAXTXN; simpl; lia|done|].
  - intros k. rewrite Hh. set_solver.
  - intros k Hk Hn'. split; [intros i; by rewrite Hz|]. intros Hd'. by apply clean_view.
Qed.

(** The sequence of the sector writes of [commit_trans]. *)
Definition commit_header (s : blk) : block := put_header (lg_lh (lg s)) (disk (bc s) (lba (lg_start (lg s)))).
Definition clear_header (s : blk) : block :=
  put_header {| lh_n := 0; lh_sector := lh_sector (lg_lh (lg s)) |} (commit_header s).
Definition commit_writes (s : blk) : list (Z * block) :=
  (lba (lg_start (lg s)), commit_header s) ::
  installs (disk (bc s)) (lg_start (lg s)) (homes (lg s)) 0 ++ [(lba (lg_start (lg s)), clear_header s)].

(** The part of [commit_trans] before the wakeup. *)
Definition commit_body : K blk unit :=
  write_head ;; install_trans ;; kmodify (upd_lg (set_lh_n 0)) ;; write_head.

Lemma commit_body_spec s : linv s -> hset (bc s) = ∅ ->
  wp commit_body (fun _ s' => lg s' = set_lh_n 0 (lg s) /\ cinv (bc s') /\ hset (bc s') = ∅ /\ dset (bc s') = ∅ /\
    writes (bc s') = writes (bc s) ++ commit_writes s /\ disk (bc s') = apply_writes (disk (bc s)) (commit_writes s)) s.
Proof.
  intros Hi Hh. pose proof (li_log _ Hi) as Hl. pose proof Hl as [_ Hdev H3 H4 H5 Hw].
  assert (Hst : 0 <= lg_start (lg s) < 2 ^ 31) by (unfold LOGSIZE in *; lia).
  assert (Hsz : (size (dset (bc s)) <= MAXTXN)%nat).
  { rewrite (li_dirty _ Hi), size_list_to_set by apply (li_nodup _ Hi). apply (li_room _ Hi). }
  unfold commit_body. kstep. eapply wp_mono.
  { apply write_head_spec; [apply Hi|done|done|done| |unfold MAXTXN, NBUF in *; lia|done].
    intros Hd%(dirty_below _ _ Hi). lia. }
  fold (commit_header s). intros _ s1 (E1 & [I1 H1 D1 V1 K1 W1]).
  assert (Hins : installs (disk (bc s1)) (lg_start (lg s)) (homes (lg s)) 0 = installs (disk (bc s)) (lg_start (lg s)) (homes (lg s)) 0).
  { apply installs_ext. intros k Hk. rewrite K1. unfold disk_upd, lba. rewrite (proj2 (Z.eqb_neq _ _)); [done|lia]. }
  kstep. eapply wp_mono.
  { apply install_trans_spec; [done|done|by rewrite E1|rewrite E1; apply Hi|right]. rewrite E1, D1. split_and!; apply Hi. }
  rewrite E1, Hins. intros _ s2 (E2 & I2 & H2 & D2 & K2 & W2). kstep. kstep.
  assert (Kst : disk (bc s2) (lba (lg_start (lg s))) = commit_header s).
  { rewrite K2, apply_installs_other; [rewrite K1; unfold disk_upd; by rewrite Z.eqb_refl|].
    intros h Hin. pose proof (li_homes _ Hi) as Hf. rewrite Forall_forall in Hf. apply Hf in Hin. unfold lba. lia. }
  eapply wp_mono.
  { apply write_head_spec; cbn [upd_lg lg bc set_lh_n set_lh lg_dev lg_start lg_lh]; [done|done|by rewrite E2|by rewrite E2|rewrite D2; set_solver|rewrite D2, size_empty; unfold NBUF; lia|].
    rewrite E2. by apply lh_reset. }
  cbn [upd_lg lg bc set_lh_n set_lh lg_dev lg_start lg_lh]. rewrite E2, Kst. fold (clear_header s).
  intros _ s3 (E3 & [I3 H3' D3 V3 K3 W3]). split_and!; [done|done|done|congruence| |].
  - rewrite W3, W2, W1. unfold commit_writes. by rewrite <- !app_assoc.
  - rewrite K3, K2, K1. unfold commit_writes. cbn [apply_writes foldl]. rewrite foldl_app. done.
Qed.

(** *** The disk after a commit *)

Section commit.
Context (s : blk) (Hi : linv s) (Hh : hset (bc s) = ∅).
Abbreviation st := (lg_start (lg s)).

Lemma home_below h : h ∈ homes (lg s) -> 0 <= h < st.
Proof. intros Hin. pose proof (li_homes _ Hi) as Hf. rewrite Forall_forall in Hf. by apply Hf. Qed.

Lemma unlogged_view k : k ∉ homes (lg s) -> vw (bc s) k = disk (bc s) (lba k).
Proof.
  intros Hn. apply clean_view; [apply Hi|rewrite Hh; set_solver|]. rewrite (li_dirty _ Hi). by rewrite elem_of_list_to_set.
Qed.

(** Installing on any disk [D] gives a home block its new contents. *)
Lemma installed D k : 0 <= k < st ->
  apply_writes D (installs (disk (bc s)) st (homes (lg s)) 0) (lba k) =
  if decide (k ∈ homes (lg s)) then vw (bc s) k else D (lba k).
Proof.
  intros Hk. destruct (decide (k ∈ homes (lg s))) as [[i Hin]%list_elem_of_lookup|Hnot].
  - rewrite (apply_installs_home _ _ _ _ (li_nodup _ Hi) _ _ i Hin). rewrite Nat.add_0_l.
    destruct (li_synced _ Hi k Hk) as [Hs _]; [rewrite Hh; set_solver|]. by apply Hs.
  - apply apply_installs_other. intros h Hin E. apply Hnot. by replace k with h by (unfold lba in E; lia).
Qed.

Lemma installed_log D k : st <= k -> apply_writes D (installs (disk (bc s)) st (homes (lg s)) 0) (lba k) = D (lba k).
Proof. intros Hk. apply apply_installs_other. intros h Hin%home_below E. unfold lba in E. lia. Qed.

Lemma upd_below d v k : k <> st -> disk_upd d (lba st) v (lba k) = d (lba k).
Proof. intros Hk. unfold disk_upd. rewrite (proj2 (Z.eqb_neq _ _)); [done|unfold lba; lia]. Qed.
Lemma upd_at d v : disk_upd d (lba st) v (lba st) = v.
Proof. unfold disk_upd. by rewrite Z.eqb_refl. Qed.

Lemma commit_disk_home k : 0 <= k < st -> apply_writes (disk (bc s)) (commit_writes s) (lba k) = vw (bc s) k.
Proof.
  intros Hk. unfold commit_writes. cbn [apply_writes foldl fst snd]. rewrite foldl_app. cbn [foldl fst snd].
  rewrite upd_below by lia. fold (apply_writes (disk_upd (disk (bc s)) (lba st) (commit_header s)) (installs (disk (bc s)) st (homes (lg s)) 0)).
  rewrite installed by done. destruct (decide _); [done|]. rewrite upd_below by lia. symmetry. by apply unlogged_view.
Qed.

Lemma disk_wf k : wfblock (disk (bc s) k).
Proof. destruct (li_cache _ Hi) as [_ Hc]. by eapply coh_disk. Qed.
Lemma commit_header_wf : wfblock (commit_header s).
Proof. apply put_header_wf; [apply (lw_header _ (li_log _ Hi))|apply disk_wf]. Qed.
Lemma clear_header_n : hdr_n (clear_header s) = 0.
Proof. unfold clear_header. rewrite hdr_n_put; [done|apply lh_reset, Hi|apply commit_header_wf]. Qed.

Lemma commit_disk_header : hdr_n (apply_writes (disk (bc s)) (commit_writes s) (lba st)) = 0.
Proof.
  unfold commit_writes. cbn [apply_writes foldl fst snd]. rewrite foldl_app. cbn [foldl fst snd].
  rewrite upd_at. apply clear_header_n.
Qed.
End commit.

Lemma commit_trans_spec s : linv s -> hset (bc s) = ∅ ->
  wp commit_trans (fun _ s' => linv s' /\ lg_busy (lg s') = false /\ lg_start (lg s') = lg_start (lg s) /\
    hset (bc s') = ∅ /\ dset (bc s') = ∅ /\
    (forall k, 0 <= k < lg_start (lg s) -> vw (bc s') k = vw (bc s) k /\ disk (bc s') (lba k) = vw (bc s) k) /\
    writes (bc s') = writes (bc s) ++ (if 0 <? lh_n (lg_lh (lg s)) then commit_writes s else []) /\
    disk (bc s') = (if 0 <? lh_n (lg_lh (lg s)) then apply_writes (disk (bc s)) (commit_writes s) else disk (bc s))) s.
Proof.
  intros Hi Hh. pose proof (li_log _ Hi) as Hl. unfold commit_trans. kstep. kstep. kstep.
  eapply (wp_mono _ (fun _ s' => linv s' /\ lg_start (lg s') = lg_start (lg s) /\ hset (bc s') = ∅ /\ dset (bc s') = ∅ /\
    (forall k, 0 <= k < lg_start (lg s) -> vw (bc s') k = vw (bc s) k /\ disk (bc s') (lba k) = vw (bc s) k) /\
    writes (bc s') = writes (bc s) ++ (if 0 <? lh_n (lg_lh (lg s)) then commit_writes s else []) /\
    disk (bc s') = (if 0 <? lh_n (lg_lh (lg s)) then apply_writes (disk (bc s)) (commit_writes s) else disk (bc s)))).
  - destruct (Z.ltb_spec 0 (lh_n (lg_lh (lg s)))) as [Hn|Hn].
    + eapply wp_mono; [by apply commit_body_spec|]. intros _ s1 (E & I1 & H1 & D1 & W1 & K1).
      assert (I : linv s1).
      { apply linv_idle; rewrite ?E; try done; [by apply lwf_reset|]. cbn [set_lh_n set_lh lg_start]. rewrite K1. by apply commit_disk_header. }
      split_and!; try done; [by rewrite E|]. intros k Hk. assert (Ek : disk (bc s1) (lba k) = vw (bc s) k) by (rewrite K1; by apply commit_disk_home).
      split; [|done]. rewrite <- Ek. apply clean_view; [done|rewrite H1; set_solver|rewrite D1; set_solver].
    + kstep. assert (D0 : dset (bc s) = ∅).
      { rewrite (li_dirty _ Hi). unfold homes. replace (Z.to_nat _) with 0%nat by lia. done. }
      split_and!; try done; [|by rewrite app_nil_r]. intros k Hk. split; [done|]. symmetry. apply clean_view; [apply Hi|rewrite Hh; set_solver|rewrite D0; set_solver].
  - intros _ s1 (I & Est & H1 & D1 & V1 & W1 & K1). kstep. apply wp_acquire; [apply (lw_lock _ (li_log _ I))|].
    kstep. kstep. kstep. kstep. apply wp_release; [done|]. split; [|done].
    destruct I as [[L1 L2 L3 L4 L5 L6] C N F D Hd R E S]. by split.
Qed.

(** ** Recovery *)

Lemma read_sectors_spec d n : forall i s, (i + n <= Z.to_nat LOGSIZE)%nat -> length (lh_sector (lg_lh (lg s))) = Z.to_nat LOGSIZE ->
  wp (read_sectors d n i) (fun _ s' => bc s' = bc s /\ lg s' = set_lh {| lh_n := lh_n (lg_lh (lg s));
    lh_sector := take i (lh_sector (lg_lh (lg s))) ++ (hdr_sector d <$> seq i n) ++ drop (i + n) (lh_sector (lg_lh (lg s))) |} (lg s)) s.
Proof.
  induction n as [|n IH]; intros i s Hn Hl; cbn [read_sectors].
  - kstep. split; [done|]. simpl. rewrite Nat.add_0_r, take_drop. by destruct s as [[? ? ? ? ? [? ?] ?] ?].
  - destruct (Z.leb_spec LOGSIZE (Z.of_nat i)); [unfold LOGSIZE in *; lia|]. kstep. kstep.
    eapply wp_mono; [apply IH; [lia|cbn; by rewrite length_insert]|]. cbn [upd_lg lg bc set_lh_sector set_lh lg_lh lh_n lh_sector].
    intros _ s' [E1 E2]. split; [done|]. rewrite E2. unfold set_lh. cbn. do 2 f_equal.
    rewrite (take_S_r _ i (hdr_sector d i)) by (apply list_lookup_insert_eq; rewrite Hl; lia).
    rewrite take_insert_ge by lia. rewrite <- app_assoc. do 2 f_equal. simpl. f_equal.
    rewrite <- Nat.add_succ_comm. by rewrite drop_insert_lt by lia.
Qed.

(** The header block [d] as a header. *)
Definition parse_header (d : block) (old : list Z) : logheader :=
  {| lh_n := hdr_n d; lh_sector := (hdr_sector d <$> seq 0 (Z.to_nat (hdr_n d))) ++ drop (Z.to_nat (hdr_n d)) old |}.

Lemma parse_header_wf d old : 0 <= hdr_n d <= LOGSIZE -> length old = Z.to_nat LOGSIZE ->
  Forall (fun x => - 2 ^ 31 <= x < 2 ^ 31) old -> wf_header (parse_header d old).
Proof.
  intros Hn Hl Hf. split_and!; cbn; [lia|lia|rewrite length_app, length_fmap, length_seq, length_drop, Hl; lia|].
  apply Forall_app. split; [|by apply Forall_drop]. apply Forall_fmap, Forall_true. intros i. unfold hdr_sector, s32, u32. simpl. zcases; dlia.
Qed.

Lemma homes_parse l d old : lg_lh l = parse_header d old -> length old = Z.to_nat LOGSIZE ->
  homes l = hdr_sector d <$> seq 0 (Z.to_nat (hdr_n d)).
Proof.
  intros E Hl. unfold homes. rewrite E. cbn. rewrite take_app_length'; [done|]. by rewrite length_fmap, length_seq.
Qed.

Lemma read_head_spec s : cinv (bc s) -> hset (bc s) = ∅ -> dset (bc s) = ∅ -> lg_dev (lg s) = ROOTDEV ->
  0 <= lg_start (lg s) < 2 ^ 31 -> length (lh_sector (lg_lh (lg s))) = Z.to_nat LOGSIZE ->
  let h := disk (bc s) (lba (lg_start (lg s))) in 0 <= hdr_n h <= LOGSIZE ->
  wp read_head (fun _ s' => lg s' = set_lh (parse_header h (lh_sector (lg_lh (lg s)))) (lg s) /\
    cpost (bc s') ∅ ∅ (vw (bc s)) (disk (bc s)) (writes (bc s))) s.
Proof.
  intros Hc Hh Hd Hdev Hst Hl h Hn. unfold read_head, inbc. kstep. kstep. rewrite Hdev, u32_small by lia. kstep. kstep.
  eapply wp_mono; [apply wp_bread; [done|unfold SECTORS, FS_SECTOR_OFFSET; lia|rewrite Hh; set_solver|by apply size_just]|].
  intros b c1 ([I1 H1 D1 V1 K1 W1] & L1 & _). kstep. kstep. cbn [set_bc bc].
  rewrite (locked_view _ _ _ I1 L1), V1, (clean_view (bc s)) by (done || (rewrite ?Hh, ?Hd; set_solver)). fold h. kstep. kstep. kstep.
  eapply wp_mono; [apply read_sectors_spec; [lia|done]|]. cbn [upd_lg set_bc lg bc set_lh_n set_lh lg_lh lh_n lh_sector].
  intros _ s2 [E1 E2]. kstep. rewrite E1. eapply wp_mono; [apply (wp_brelse c1 b (lg_start (lg s))); [done..|]|].
  { right. rewrite V1, K1. apply clean_view; [done|rewrite Hh; set_solver|rewrite Hd; set_solver]. }
  intros _ c3 ([I3 H3 D3 V3 K3 W3] & _). cbn [set_bc lg bc]. split; [rewrite E2; done|].
  split; [done|rewrite H3, H1, Hh; clear; set_solver|congruence|intros k; by rewrite V3|congruence|congruence].
Qed.

(** The sectors of the header are homes below the log. *)
Definition good_header (start : Z) (d : block) : Prop :=
  0 <= hdr_n d <= LOGSIZE /\ Forall (fun k => 0 <= k < start) (hdr_sector d <$> seq 0 (Z.to_nat (hdr_n d))).

Lemma recover_spec s : cinv (bc s) -> hset (bc s) = ∅ -> dset (bc s) = ∅ -> lwf (lg s) ->
  let h := disk (bc s) (lba (lg_start (lg s))) in good_header (lg_start (lg s)) h ->
  wp recover_from_log (fun _ s' => linv s' /\ lg_start (lg s') = lg_start (lg s) /\ lg_busy (lg s') = lg_busy (lg s) /\
    hset (bc s') = ∅ /\ dset (bc s') = ∅ /\
    forall k, 0 <= k < lg_start (lg s) -> vw (bc s') k =
      apply_writes (disk (bc s)) (installs (disk (bc s)) (lg_start (lg s)) (hdr_sector h <$> seq 0 (Z.to_nat (hdr_n h))) 0) (lba k)) s.
Proof.
  intros Hc Hh Hd Hl h [Hn Hg]. pose proof Hl as [L1 Hdev H3 H4 H5 (_ & Hls & Hf)].
  assert (Hst : 0 <= lg_start (lg s) < 2 ^ 31) by (unfold LOGSIZE in *; lia).
  set (ph := parse_header h (lh_sector (lg_lh (lg s)))). assert (Hw : wf_header ph) by (by apply parse_header_wf).
  assert (Hl1 : lwf (set_lh ph (lg s))) by (by split).
  assert (Eh : homes (set_lh ph (lg s)) = hdr_sector h <$> seq 0 (Z.to_nat (hdr_n h))) by (by eapply homes_parse).
  unfold recover_from_log. kstep. eapply wp_mono; [by apply read_head_spec|]. intros _ s1 (E1 & [I1 H1 D1 V1 K1 W1]).
  fold h ph in E1. kstep. eapply wp_mono; [apply install_trans_spec; rewrite ?E1; [done|done|done|by rewrite Eh|by left]|].
  rewrite E1, Eh, K1. cbn [set_lh lg_start]. intros _ s2 (E2 & I2 & H2 & D2 & K2 & W2). kstep. kstep. eapply wp_mono.
  { apply write_head_spec; cbn [upd_lg lg bc set_lh_n set_lh lg_dev lg_start lg_lh]; [done|done|by rewrite E2|by rewrite E2|rewrite D2; set_solver|rewrite D2, size_empty; unfold NBUF; lia|].
    rewrite E2. by apply (lh_reset (set_lh ph (lg s))). }
  cbn [upd_lg lg bc set_lh_n set_lh lg_dev lg_start lg_lh]. rewrite E2. cbn [set_lh lg_start lg_lh].
  intros _ s3 (E3 & [I3 H3' D3 V3 K3 W3]). rewrite D2 in D3. split_and!.
  - apply linv_idle; rewrite ?E3; try done; [by apply (lwf_reset (set_lh ph (lg s)))|]. cbn [set_lh lg_start]. rewrite K3.
    unfold disk_upd. rewrite Z.eqb_refl, hdr_n_put; [done|by apply (lh_reset (set_lh ph (lg s)))|]. destruct I2 as [_ C2]. by eapply coh_disk.
  - by rewrite E3.
  - by rewrite E3.
  - done.
  - done.
  - intros k Hk. rewrite V3, decide_False by lia. rewrite <- K2. apply clean_view; [done|rewrite H2; set_solver|rewrite D2; set_solver].
Qed.

Lemma readsb_spec s : cinv s -> 1 ∉ hset s -> (size ({[1%Z]} ∪ (hset s ∪ dset s)) <= NBUF)%nat -> (1 ∈ dset s \/ vw s 1 = disk s (lba 1)) ->
  wp (readsb ROOTDEV) (fun sb s' => sb = dec_superblock (vw s 1) /\ cpost s' (hset s) (dset s) (vw s) (disk s) (writes s)) s.
Proof.
  intros Hc Hh Hsz Hor. unfold readsb. kstep. eapply wp_mono; [apply wp_bread; [done|unfold SECTORS, FS_SECTOR_OFFSET; lia|done|done]|].
  intros b c1 ([I1 H1 D1 V1 K1 W1] & L1 & _). kstep. kstep. kstep. eapply wp_mono; [apply (wp_brelse c1 b 1); [done|done|by rewrite D1, V1, K1]|].
  intros _ c2 ([I2 H2 D2 V2 K2 W2] & _). kstep. split; [by rewrite (locked_view _ _ _ I1 L1), V1|].
  split; [done|rewrite H2, H1; clear -Hh; set_solver|congruence|intros k; by rewrite V2|congruence|congruence].
Qed.

(** The superblock on disk [d] says that the log is at [start] and has [size]
    blocks. *)
Definition sb_log (d : Z -> block) (start size : Z) : Prop :=
  let sb := dec_superblock (d (lba 1)) in
  (sb_size sb -u sb_nlog sb) = start /\ sb_nlog sb = size /\ 1 < start /\ LOGSIZE <= size /\ start + size < 2 ^ 31.

(** The kernel starts with the disk [d]. *)
Record rebooted (d : Z -> block) (r : blk) : Prop := {
  rb_cache : exists c0, bc r = binit c0 /\ zeroed c0 /\ usb_idle c0 /\ faults c0 = [] /\ disk c0 = d;
  rb_header : lg_lh (lg r) = {| lh_n := 0; lh_sector := replicate (Z.to_nat LOGSIZE) 0 |};
  rb_busy : lg_busy (lg r) = false;
}.

Lemma initlog_spec d r start size : rebooted d r -> (forall k, wfblock (d k)) -> sb_log d start size ->
  good_header start (d (lba start)) ->
  wp initlog (fun _ s' => linv s' /\ lg_start (lg s') = start /\ lg_busy (lg s') = false /\ hset (bc s') = ∅ /\ dset (bc s') = ∅ /\
    forall k, 0 <= k < start -> vw (bc s') k =
      apply_writes d (installs d start (hdr_sector (d (lba start)) <$> seq 0 (Z.to_nat (hdr_n (d (lba start))))) 0) (lba k)) r.
Proof.
  intros [(c0 & Ec & Hz & [Hu Hr] & Hf & Hdk) Hls Hb] Hwf (S1 & S2 & S3 & S4 & S5) Hg.
  destruct (fresh_sets c0 Hz) as (Eh & Ed & Ev).
  assert (Hc : cinv (binit c0)) by (apply binit_cinv; [done..|]; by rewrite Hdk).
  assert (Kb : disk (binit c0) = d) by (by rewrite <- Hdk).
  unfold initlog. change (Z.of_nat BSIZE <=? LOGHEADER_SIZE) with false. cbv iota. unfold inbc. kstep. kstep. kstep. kstep.
  cbn [set_held log_locks upd_lg bc]. rewrite Ec. eapply wp_mono.
  { apply readsb_spec; [done|rewrite Eh; set_solver|by apply size_just|right; by rewrite Ev, Hdk, <- Kb]. }
  rewrite Ev, Hdk. intros sb c1 (-> & [I1 H1 D1 V1 K1 W1]). kstep. kstep. rewrite S1, S2, !s32_small by (unfold LOGSIZE in *; lia).
  eapply wp_mono; [apply recover_spec; cbn [upd_lg set_bc lg bc lg_start]|].
  - done.
  - congruence.
  - congruence.
  - unfold LOGSIZE in *. split; cbn; try done; [lia|]. rewrite Hls. split_and!; cbn; [done|done|done|]. by repeat constructor.
  - by rewrite K1, Kb.
  - cbn [upd_lg set_bc lg bc lg_start lg_busy set_held log_locks]. rewrite K1, Kb. intros _ s2 (I2 & E2 & B2 & H2 & D2 & V2).
    split_and!; try done. by rewrite B2.
Qed.

Lemma prefix_cases {A} (h c : A) I P Q : P ++ Q = h :: I ++ [c] ->
  P = [] \/ (exists P1 P2, P = h :: P1 /\ I = P1 ++ P2) \/ P = h :: I ++ [c].
Proof.
  intros E. destruct P as [|x P]; [by left|]. right. simpl in E. injection E as -> E.
  destruct Q as [|q Q _] using rev_ind; [rewrite app_nil_r in E; right; by f_equal|left].
  rewrite app_assoc in E. apply app_inj_tail in E as [E _]. by exists P, Q.
Qed.

(** *** Atomicity *)

Section crash.
Context (s : blk) (Hi : linv s) (Hh : hset (bc s) = ∅).
Abbreviation st := (lg_start (lg s)).

Lemma apply_wf d w : (forall k, wfblock (d k)) -> Forall (fun x => wfblock x.2) w -> forall k, wfblock (apply_writes d w k).
Proof.
  intros Hd Hw. revert d Hd. induction Hw as [|[a v] w Hv _ IH]; intros d Hd k; [by apply Hd|]. apply IH.
  intros k'. unfold disk_upd. cbn [fst snd]. destruct (k' =? a); [exact Hv|apply Hd].
Qed.
Lemma installs_wf d homes : (forall k, wfblock (d k)) -> forall tail, Forall (fun x => wfblock x.2) (installs d st homes tail).
Proof. intros Hd. induction homes as [|h r IH]; intros tail; constructor; [apply Hd|apply IH]. Qed.
Lemma commit_writes_wf : Forall (fun x => wfblock x.2) (commit_writes s).
Proof.
  constructor; [by apply commit_header_wf|]. apply Forall_app. split; [apply installs_wf; by apply disk_wf|].
  apply Forall_singleton. apply put_header_wf; [apply lh_reset, Hi|by apply commit_header_wf].
Qed.

Lemma empty_good d : hdr_n (d (lba st)) = 0 -> good_header st (d (lba st)).
Proof. intros E. unfold good_header. rewrite E. split; [unfold LOGSIZE; lia|constructor]. Qed.

Lemma commit_header_homes :
  hdr_sector (commit_header s) <$> seq 0 (Z.to_nat (hdr_n (commit_header s))) = homes (lg s).
Proof.
  pose proof (lw_header _ (li_log _ Hi)) as Hw. pose proof (homes_len _ (li_log _ Hi)) as Hl.
  unfold commit_header. rewrite hdr_n_put by (done || by apply disk_wf). rewrite <- Hl.
  apply list_eq. intros i. rewrite list_lookup_fmap. destruct (decide (i < length (homes (lg s)))%nat) as [Hlt|Hge].
  - rewrite lookup_seq_lt by done. simpl. rewrite hdr_sector_put by (done || (by apply disk_wf) || lia).
    unfold homes. rewrite lookup_take_lt by lia. destruct (lookup_lt_is_Some_2 (lh_sector (lg_lh (lg s))) i) as [x Hx].
    { destruct Hw as (Hn & -> & _). lia. }
    rewrite Hx. f_equal. rewrite nth_lookup, Hx. done.
  - rewrite (lookup_ge_None_2 (homes (lg s))) by lia. rewrite lookup_seq_ge by lia. done.
Qed.

Lemma in_take {A} (l : list A) j x : x ∈ take j l -> x ∈ l.
Proof. intros (i & Hx & _)%elem_of_take. by eapply list_elem_of_lookup_2. Qed.

(** The disk after a prefix of the commit that has written the header. *)
Lemma redo j k : 0 <= k < st ->
  let D := apply_writes (disk_upd (disk (bc s)) (lba st) (commit_header s)) (installs (disk (bc s)) st (take j (homes (lg s))) 0) in
  D (lba st) = commit_header s /\ apply_writes D (installs D st (homes (lg s)) 0) (lba k) = vw (bc s) k.
Proof.
  intros Hk D. assert (Hin : forall h, h ∈ take j (homes (lg s)) -> 0 <= h < st).
  { intros h Hh'. apply (home_below s Hi). by eapply in_take. }
  assert (Ht : forall k', st <= k' -> D (lba k') = disk_upd (disk (bc s)) (lba st) (commit_header s) (lba k')).
  { intros k' Hk'. apply apply_installs_other. intros h Hh'%Hin E. unfold lba in E. lia. }
  split; [rewrite Ht by lia; apply upd_at|].
  rewrite (installs_ext (disk (bc s)) D) by (intros k' Hk'; rewrite Ht by lia; apply upd_below; lia).
  rewrite (installed s Hi Hh D k Hk). destruct (decide (k ∈ homes (lg s))) as [|Hn]; [done|].
  unfold D. rewrite apply_installs_other, upd_below by (lia || (intros h Hh' E; apply Hn; eapply in_take; replace k with h by (unfold lba in E; lia); exact Hh')).
  symmetry. by apply unlogged_view.
Qed.
End crash.

(** Recovery from a disk whose header says that nothing is committed. *)
Lemma initlog_empty d r start size : rebooted d r -> (forall k, wfblock (d k)) -> sb_log d start size ->
  hdr_n (d (lba start)) = 0 ->
  wp initlog (fun _ r' => linv r' /\ lg_start (lg r') = start /\ forall k, 0 <= k < start -> vw (bc r') k = d (lba k)) r.
Proof.
  intros Hr Hwf Hsb Hn. eapply wp_mono; [apply (initlog_spec d r start size); [done..|]|].
  { unfold good_header. rewrite Hn. split; [unfold LOGSIZE; lia|constructor]. }
  intros _ r' (I & E & _ & _ & _ & V). split_and!; [done..|]. intros k Hk. rewrite V, Hn by done. done.
Qed.

Lemma sb_prefix s d size : sb_log (disk (bc s)) (lg_start (lg s)) size -> d (lba 1) = disk (bc s) (lba 1) ->
  sb_log d (lg_start (lg s)) size.
Proof. unfold sb_log. by intros ? ->. Qed.

(** The header is written and the first [j] home blocks are installed. *)
Lemma initlog_redo s size j r : linv s -> hset (bc s) = ∅ -> sb_log (disk (bc s)) (lg_start (lg s)) size -> 1 ∉ homes (lg s) ->
  rebooted (apply_writes (disk_upd (disk (bc s)) (lba (lg_start (lg s))) (commit_header s))
    (installs (disk (bc s)) (lg_start (lg s)) (take j (homes (lg s))) 0)) r ->
  wp initlog (fun _ r' => linv r' /\ forall k, 0 <= k < lg_start (lg s) -> vw (bc r') k = vw (bc s) k) r.
Proof.
  intros Hi Hh Hsb H1h. pose proof (disk_wf s Hi) as Hwf. assert (Hst : 1 < lg_start (lg s)) by apply Hsb.
  set (D := apply_writes _ _). intros Hr. pose proof (lw_header _ (li_log _ Hi)) as Hw.
  assert (HD : D (lba (lg_start (lg s))) = commit_header s) by (apply (redo s Hi Hh j 0); lia).
  eapply wp_mono; [apply (initlog_spec D r (lg_start (lg s)) size Hr)|].
  - apply apply_wf; [|by apply installs_wf]. intros k. unfold disk_upd. destruct (_ =? _); [by apply commit_header_wf|done].
  - apply (sb_prefix s); [done|]. unfold D. rewrite apply_installs_other, upd_below; [done|lia|].
    intros h Hin F. apply H1h. eapply in_take. replace 1 with h by (unfold lba in F; lia). exact Hin.
  - rewrite HD. split; [|by rewrite commit_header_homes; [apply (li_homes _ Hi)|]]. unfold commit_header.
    rewrite hdr_n_put; [apply Hw|apply Hw|apply Hwf].
  - rewrite HD, commit_header_homes by done. intros _ r' (I & _ & _ & _ & _ & V). split; [done|]. intros k Hk. rewrite V by done.
    by apply (redo s Hi Hh j k).
Qed.

(** C1. [commit_trans] returns, and it is atomic with respect to crashes:
    whatever prefix of its sector writes reaches the disk before the power
    fails, the next boot's recovery returns and leaves every block of the file
    system as it was before the transaction, or every block as the transaction
    left it. *)
Theorem commit_is_crash_atomic (s : blk) (size : Z) :
  linv s -> hset (bc s) = ∅ -> sb_log (disk (bc s)) (lg_start (lg s)) size -> 1 ∉ dset (bc s) ->
  wp commit_trans (fun _ s' => forall w rest r, writes (bc s') = writes (bc s) ++ w ++ rest ->
    rebooted (apply_writes (disk (bc s)) w) r ->
    wp initlog (fun _ r' => linv r' /\
      ((forall k, 0 <= k < lg_start (lg s) -> vw (bc r') k = disk (bc s) (lba k)) \/
       (forall k, 0 <= k < lg_start (lg s) -> vw (bc r') k = vw (bc s) k))) r) s.
Proof.
  intros Hi Hh Hsb H1. eapply wp_mono; [by apply commit_trans_spec|]. intros _ s' (_ & _ & _ & _ & _ & _ & W & _) w rest r Ew Hr.
  rewrite W in Ew. apply app_inv_head in Ew. pose proof (disk_wf s Hi) as Hwf.
  assert (H1h : 1 ∉ homes (lg s)) by (rewrite <- (elem_of_list_to_set (C := gset Z)), <- (li_dirty _ Hi); done).
  assert (Hst : 1 < lg_start (lg s)) by apply Hsb.
  assert (Hold : w = [] -> wp initlog (fun _ r' => linv r' /\
      ((forall k, 0 <= k < lg_start (lg s) -> vw (bc r') k = disk (bc s) (lba k)) \/
       (forall k, 0 <= k < lg_start (lg s) -> vw (bc r') k = vw (bc s) k))) r).
  { intros ->. eapply wp_mono; [eapply initlog_empty; [exact Hr|done|exact Hsb|apply (li_empty _ Hi)]|].
    intros _ r' (I & _ & V). split; [done|by left]. }
  destruct (0 <? lh_n (lg_lh (lg s))); [|symmetry in Ew; apply app_nil in Ew as [Ew _]; by apply Hold].
  destruct (prefix_cases _ _ _ w rest (eq_sym Ew)) as [Ew'|[(P1 & P2 & -> & E)| ->]]; [by apply Hold| |].
  - cbn [apply_writes foldl fst snd] in Hr. rewrite (apply_installs_prefix _ _ _ _ _ E) in Hr.
    eapply wp_mono; [by eapply initlog_redo|]. intros _ r' [I V]. split; [done|by right].
  - eapply wp_mono; [eapply initlog_empty; [exact Hr|apply apply_wf; [done|by apply commit_writes_wf]| |by apply commit_disk_header]|].
    + apply (sb_prefix s); [exact Hsb|]. rewrite commit_disk_home by (done || lia). by apply unlogged_view.
    + intros _ r' (I & _ & V). split; [done|]. right. intros k Hk. rewrite V by done. by apply commit_disk_home.
Qed.

(** C6. The buffer cache and the log implement the block layer fs.c is
    written against: with room in the cache and in the log, every [bread],
    [log_write] and [brelse] of a sector below the log returns; contents change
    only where the caller writes to a buffer it has locked; and a buffer is
    given back with its contents logged. *)
Theorem log_refines_block_layer : BlockLaws blk log_model.
Proof. exact log_laws. Qed.

(** A log of [LOGSIZE] blocks, as mkfs makes it, holds [LOGSIZE - 1]
    sectors: with that many logged, [log_write] panics, also for a sector that
    is in the log already and needs no new block (absorption). *)
Theorem full_log_panics (s : blk) (b : nat) :
  lg_size (lg s) = LOGSIZE -> lh_n (lg_lh (lg s)) = LOGSIZE - 1 ->
  log_write b s = Panicked "too big a transaction" s.
Proof. intros E1 E2. unfold log_write, kbind, kget. rewrite E1, E2. done. Qed.

Lemma begin_trans_spec s : linv s -> lg_busy (lg s) = false ->
  wp begin_trans (fun _ s' => linv s' /\ lg_busy (lg s') = true /\ bc s' = bc s /\ lg_start (lg s') = lg_start (lg s) /\
    homes (lg s') = homes (lg s) /\ lg_size (lg s') = lg_size (lg s)) s.
Proof.
  intros Hi Hb. unfold begin_trans. kstep. apply wp_acquire; [apply (lw_lock _ (li_log _ Hi))|]. kstep. kstep.
  cbn [set_held log_locks upd_lg lg lg_busy]. rewrite Hb. kstep. kstep. apply wp_release; [done|].
  split; [|done]. destruct Hi as [[L1 L2 L3 L4 L5 L6] C N F D Hd R E S]. by split.
Qed.

(** ** Witnesses *)

(** The state [m] ends in. *)
Definition kfinal {S A} (m : K S A) (s : S) : S := match m s with Done _ s' => s' | _ => s end.
Lemma wp_final {S A} (m : K S A) (Q : S -> Prop) s : wp m (fun _ => Q) s -> Q (kfinal m s).
Proof. unfold wp, kfinal. by destruct (m s). Qed.

Module LogWitness.
Definition sbblk : block := putn 4 0 100 (putn 4 12 10 (replicate BSIZE 0)).
Definition c0 : bcache :=
  {| bc_lock := false; bufs := replicate (S NBUF) null_buf; usblock := false; usb_ready := true;
     disk := fun x => if x =? lba 1 then sbblk else replicate BSIZE 0; writes := []; faults := []; wakes := [] |}.
Definition r0 : blk :=
  {| lg := {| lg_lock := false; lg_start := 0; lg_size := 0; lg_busy := false; lg_dev := 0;
              lg_lh := {| lh_n := 0; lh_sector := replicate (Z.to_nat LOGSIZE) 0 |}; lg_wakes := 0 |};
     bc := binit c0 |}.
(** Boot, and log sector 20. *)
Definition prog : K blk unit :=
  initlog ;; begin_trans ;;
  b <- bl_bread ROOTDEV 20 ;; kmodify (bl_put b (replicate BSIZE 5)) ;; bl_log_write b ;; bl_brelse b.
Definition s1 : blk := kfinal prog r0.

Lemma c0_wf k : wfblock (disk c0 k).
Proof.
  simpl. destruct (k =? lba 1); [|apply BioWitness.wf_replicate; lia]. unfold sbblk.
  split; [vm_compute; reflexivity|]. apply putn_bytes, putn_bytes. apply Forall_replicate. unfold byte. lia.
Qed.
Lemma r0_rebooted : rebooted (disk c0) r0.
Proof. split; [exists c0; by split_and!|done|done]. Qed.
Lemma c0_sb : sb_log (disk c0) 90 10.
Proof. split_and!; vm_compute; done. Qed.

Lemma prog_ok : wp prog (fun _ s => linv s /\ hset (bc s) = ∅ /\ dset (bc s) = {[20]} /\ lg_start (lg s) = 90 /\ vw (bc s) 1 = sbblk) r0.
Proof.
  unfold prog. kstep. eapply wp_mono; [apply (initlog_spec (disk c0) r0 90 10 r0_rebooted c0_wf c0_sb)|].
  { split; [vm_compute; split; discriminate|]. vm_compute. constructor. }
  intros _ a (Ia & Sa & Ba & Ha & Da & Va). specialize (Va 1 ltac:(lia)). kstep. eapply wp_mono; [by apply begin_trans_spec|].
  intros _ b (Ib & Bb & Eb & Sb & _ & _). rewrite <- Eb in *. rewrite Sa in Sb. kstep. eapply wp_mono.
  { apply log_bread; [done|lia|rewrite Ha; set_solver|by apply size_just]. }
  intros n c (Bc & Lc & _ & _). kstep. kstep. destruct Bc as [Ic Tc Hc Dc Vc Mc]. logcbn.
  destruct (log_put c n 20 (replicate BSIZE 5) Ic Lc) as (Bd & Ld & _); [apply BioWitness.wf_replicate; lia|].
  destruct Bd as [Id Td Hd Dd Vd Md]. logcbn. kstep. eapply wp_mono.
  { apply (log_log_write _ n 20); [done|by apply Td, Tc|done|..].
    - rewrite Dd, Dc, Da, size_empty. unfold MAXTXN. lia.
    - rewrite Hd, Hc, Dd, Dc, Da, Ha, !union_empty_r_L, size_singleton. unfold NBUF. lia. }
  intros _ e (Be & Le & Se & _). destruct Be as [Ie Te He De Ve Me]. logcbn. eapply wp_mono.
  { by apply (log_brelse _ n 20). }
  intros _ f (Bf & _). destruct Bf as [If Tf Hf Df Vf Mf]. logcbn. split_and!.
  - done.
  - rewrite Hf, He, Hd, Hc, Ha. set_solver.
  - rewrite Df, De, Dd, Dc, Da. set_solver.
  - congruence.
  - rewrite Vf, Ve, Vd, decide_False, Vc by lia. rewrite Va. vm_compute. reflexivity.
Qed.

Lemma s1_ok : linv s1 /\ hset (bc s1) = ∅ /\ dset (bc s1) = {[20]} /\ lg_start (lg s1) = 90 /\ vw (bc s1) 1 = sbblk.
Proof. exact (wp_final prog _ r0 prog_ok). Qed.
Lemma sb_of s : linv s /\ hset (bc s) = ∅ /\ dset (bc s) = {[20]} /\ lg_start (lg s) = 90 /\ vw (bc s) 1 = sbblk ->
  sb_log (disk (bc s)) (lg_start (lg s)) 10 /\ 1 ∉ dset (bc s).
Proof.
  intros (I & H & D & S & V). split; [|rewrite D; set_solver]. rewrite S. unfold sb_log.
  rewrite <- (clean_view (bc s) 1) by (apply I || (rewrite ?H, ?D; set_solver)). rewrite V. split_and!; vm_compute; done.
Qed.
Lemma s1_sb : sb_log (disk (bc s1)) (lg_start (lg s1)) 10.
Proof. exact (proj1 (sb_of s1 s1_ok)). Qed.
Lemma s1_not1 : 1 ∉ dset (bc s1).
Proof. exact (proj2 (sb_of s1 s1_ok)). Qed.

(** A log with nine sectors. *)
Definition full : blk :=
  upd_lg (fun l => set_lh {| lh_n := 9; lh_sector := seqZ 20 10 |} {| lg_lock := false; lg_start := 90; lg_size := 10;
    lg_busy := true; lg_dev := 1; lg_lh := lg_lh l; lg_wakes := 0 |}) r0.
End LogWitness.

Lemma commit_is_crash_atomic_witness :
  wp commit_trans (fun _ s' => forall w rest r, writes (bc s') = writes (bc LogWitness.s1) ++ w ++ rest ->
    rebooted (apply_writes (disk (bc LogWitness.s1)) w) r ->
    wp initlog (fun _ r' => linv r' /\
      ((forall k, 0 <= k < lg_start (lg LogWitness.s1) -> vw (bc r') k = disk (bc LogWitness.s1) (lba k)) \/
       (forall k, 0 <= k < lg_start (lg LogWitness.s1) -> vw (bc r') k = vw (bc LogWitness.s1) k))) r) LogWitness.s1.
Proof.
  exact (commit_is_crash_atomic LogWitness.s1 10 (proj1 LogWitness.s1_ok) (proj1 (proj2 LogWitness.s1_ok))
    LogWitness.s1_sb LogWitness.s1_not1).
Defined.

Lemma full_log_panics_witness :
  absorb (homes (lg LogWitness.full)) 0 = 9%nat /\ log_write 0 LogWitness.full = Panicked "too big a transaction" LogWitness.full.
Proof. split; [vm_compute; reflexivity|]. exact (full_log_panics LogWitness.full 0 eq_refl eq_refl). Defined.
