(* ===== verification/Fs.v ===== *)
(** * kernel/fs.c: blocks, inodes, directories and paths

    Every function of fs.c over the block layer interface.  A pointer to an
    inode is its index in [icache.inode]; [struct buf] pointers are the block
    layer's handles.  [readi] returns the bytes it would copy out, [writei]
    takes the bytes it copies in.  The device switch [devsw] is a parameter:
    the tables of function pointers the console and the other devices fill
    in. *)

From Stdlib Require Import ZArith Lia.
From S2P Require Import Prelude KString Spinlock Bytes Bio BlockLayer Log.

Definition ROOTINO : Z := 1.
Definition NINODE : nat := 50.
Definition NDEV : Z := 10.
Definition NDIRECT : Z := 11.
Definition NINDIRECT : Z := 128.
Definition NDINDIRECT : Z := NINDIRECT * NINDIRECT.
Definition MAXFILE : Z := NDIRECT + NINDIRECT + NDINDIRECT.
Definition IPB : Z := 8.
Definition BPB : Z := 4096.
Definition DIRSIZ : nat := 14.
Definition T_DIR : Z := 1.
Definition T_FILE : Z := 2.
Definition T_DEV : Z := 3.

Definition NINODEBLOCKS (ninodes : Z) : Z := (ninodes +u (IPB - 1)) / IPB.
Definition IBLOCK (i : Z) : Z := u32 (i / IPB + 2).
Definition BBLOCK (b ninodes : Z) : Z := u32 (b / BPB + NINODEBLOCKS ninodes + 3).

(** [struct inode]. *)
Record inode := {
  i_dev : Z; inum : Z; ref : Z; i_busy : bool; i_valid : bool;
  itype : Z; major : Z; minor : Z; nlink : Z; isize : Z; addrs : list Z;
}.
Definition null_inode : inode :=
  {| i_dev := 0; inum := 0; ref := 0; i_busy := false; i_valid := false; itype := 0; major := 0; minor := 0;
     nlink := 0; isize := 0; addrs := replicate 13 0 |}.

Definition set_ref (r : Z) (i : inode) : inode :=
  {| i_dev := i_dev i; inum := inum i; ref := r; i_busy := i_busy i; i_valid := i_valid i; itype := itype i;
     major := major i; minor := minor i; nlink := nlink i; isize := isize i; addrs := addrs i |}.
Definition set_iflags (busy valid : bool) (i : inode) : inode :=
  {| i_dev := i_dev i; inum := inum i; ref := ref i; i_busy := busy; i_valid := valid; itype := itype i;
     major := major i; minor := minor i; nlink := nlink i; isize := isize i; addrs := addrs i |}.
Definition set_itype (t : Z) (i : inode) : inode :=
  {| i_dev := i_dev i; inum := inum i; ref := ref i; i_busy := i_busy i; i_valid := i_valid i; itype := t;
     major := major i; minor := minor i; nlink := nlink i; isize := isize i; addrs := addrs i |}.
Definition set_isize (n : Z) (i : inode) : inode :=
  {| i_dev := i_dev i; inum := inum i; ref := ref i; i_busy := i_busy i; i_valid := i_valid i; itype := itype i;
     major := major i; minor := minor i; nlink := nlink i; isize := n; addrs := addrs i |}.
Definition set_addr (n : nat) (a : Z) (i : inode) : inode :=
  {| i_dev := i_dev i; inum := inum i; ref := ref i; i_busy := i_busy i; i_valid := i_valid i; itype := itype i;
     major := major i; minor := minor i; nlink := nlink i; isize := isize i; addrs := <[n:=a]> (addrs i) |}.

(** [struct dinode] at offset [off] of a block: what [ilock] reads from it and
    what [iupdate] stores into it. *)
Definition dinode_type (off : nat) (d : block) : Z := s16 (getn 2 off d).
Definition load_dinode (off : nat) (d : block) (i : inode) : inode :=
  {| i_dev := i_dev i; inum := inum i; ref := ref i; i_busy := i_busy i; i_valid := i_valid i;
     itype := dinode_type off d; major := s16 (getn 2 (off + 2) d); minor := s16 (getn 2 (off + 4) d);
     nlink := s16 (getn 2 (off + 6) d); isize := getn 4 (off + 8) d;
     addrs := (fun j => getn 4 (off + 12 + 4 * j) d) <$> seq 0 13 |}.
Definition store_dinode (off : nat) (i : inode) (d : block) : block :=
  let d := putn 2 off (itype i) d in
  let d := putn 2 (off + 2) (major i) d in
  let d := putn 2 (off + 4) (minor i) d in
  let d := putn 2 (off + 6) (nlink i) d in
  let d := putn 4 (off + 8) (isize i) d in
  splice (off + 12) (concat (le_enc 4 <$> addrs i)) d.
(** The offset of inode [i] in its block. *)
Definition dinode_off (i : Z) : nat := Z.to_nat (i mod IPB * 64).

(** Bits of a bitmap block. *)
Definition bmask (bi : Z) : Z := Z.shiftl 1 (bi mod 8).
Definition bit_free (d : block) (bi : Z) : bool := Z.land (nth (Z.to_nat (bi / 8)) d 0) (bmask bi) =? 0.
Definition bit_set (d : block) (bi : Z) : block := <[Z.to_nat (bi / 8) := Z.lor (nth (Z.to_nat (bi / 8)) d 0) (bmask bi)]> d.
Definition bit_clear (d : block) (bi : Z) : block :=
  <[Z.to_nat (bi / 8) := Z.land (nth (Z.to_nat (bi / 8)) d 0) (Z.lnot (bmask bi))]> d.

(** ** Blocks *)

Section blocks.
Context {B : Type} `{BlockOps B}.

Definition rd (bp : nat) : K B block := kgets (bl_data bp).
Definition wr (bp : nat) (d : block) : K B unit := kmodify (bl_put bp d).

Definition fs_readsb (dev : Z) : K B superblock :=
  bp <- bl_bread dev 1 ;;
  d <- rd bp ;;
  bl_brelse bp ;;
  kret (dec_superblock d).

Definition bzero (dev bno : Z) : K B unit :=
  bp <- bl_bread dev bno ;;
  wr bp (replicate BSIZE 0) ;;
  bl_log_write bp ;;
  bl_brelse bp.

(** The inner loop of [balloc] on the bitmap block [d] of the blocks from [b]. *)
Fixpoint find_free (d : block) (b size : Z) (n : nat) (bi : Z) : option Z :=
  match n with
  | O => None
  | S n' =>
      if b + bi <? size then
        if bit_free d bi then Some bi else find_free d b size n' (bi + 1)
      else None
  end.

Fixpoint balloc_loop (fuel : nat) (dev : Z) (sb : superblock) (b : Z) : K B Z :=
  match fuel with
  | O => panic "balloc: out of blocks"
  | S f =>
      if b <? sb_size sb then
        bp <- bl_bread dev (BBLOCK b (sb_ninodes sb)) ;;
        d <- rd bp ;;
        match find_free d b (sb_size sb) (Z.to_nat BPB) 0 with
        | Some bi =>
            wr bp (bit_set d bi) ;;
            bl_log_write bp ;;
            bl_brelse bp ;;
            bzero dev (b + bi) ;;
            kret (b + bi)
        | None => bl_brelse bp ;; balloc_loop f dev sb (b + BPB)
        end
      else panic "balloc: out of blocks"
  end.
(** The loop makes a turn for each bitmap block, so that the fuel lasts. *)
Definition balloc (dev : Z) : K B Z :=
  sb <- fs_readsb dev ;;
  balloc_loop (Z.to_nat (sb_size sb / BPB + 1)) dev sb 0.

Definition bfree (dev b : Z) : K B unit :=
  sb <- fs_readsb dev ;;
  bp <- bl_bread dev (BBLOCK b (sb_ninodes sb)) ;;
  d <- rd bp ;;
  let bi := b mod BPB in
  if bit_free d bi then panic "freeing free block"
  else
    wr bp (bit_clear d bi) ;;
    bl_log_write bp ;;
    bl_brelse bp.

(** [a[n]] of a block of addresses. *)
Definition aref (d : block) (n : Z) : Z := getn 4 (4 * Z.to_nat n) d.
Definition aset (d : block) (n v : Z) : block := putn 4 (4 * Z.to_nat n) v d.
End blocks.

(** ** Inodes *)

Record fs (B : Type) := {
  ic_lock : bool;
  icache : list inode;
  ic_wakes : list nat; (* the inodes wakeup is called on *)
  fblk : B;
}.
Arguments ic_lock {B}. Arguments icache {B}. Arguments ic_wakes {B}. Arguments fblk {B}.

(** An entry of [devsw]. *)
Record devops (B : Type) := {
  d_read : option (nat -> Z -> K (fs B) (Z * list Z));
  d_write : option (nat -> list Z -> Z -> K (fs B) Z);
}.
Arguments d_read {B}. Arguments d_write {B}.

#[global] Instance fs_locks {B} : HasLocks unit (fs B) := {
  held _ s := ic_lock s;
  set_held _ b s := {| ic_lock := b; icache := icache s; ic_wakes := ic_wakes s; fblk := fblk s |};
}.

Section inodes.
Context {B : Type} `{BlockOps B}.
Context (devsw : Z -> devops B).

Abbreviation fs := (fs B).
Definition set_fblk (b : B) (s : fs) : fs := {| ic_lock := ic_lock s; icache := icache s; ic_wakes := ic_wakes s; fblk := b |}.
Definition inblk {A} (m : K B A) : K fs A := zoom fblk set_fblk m.
Definition iat (s : fs) (ip : nat) : inode := nth ip (icache s) null_inode.
Definition upd_inode (ip : nat) (f : inode -> inode) (s : fs) : fs :=
  {| ic_lock := ic_lock s; icache := alter f ip (icache s); ic_wakes := ic_wakes s; fblk := fblk s |}.
Definition iwakeup (ip : nat) (s : fs) : fs :=
  {| ic_lock := ic_lock s; icache := icache s; ic_wakes := ic_wakes s ++ [ip]; fblk := fblk s |}.
(** The channel of an inode: its offset in [icache.inode]. *)
Definition inode_chan (ip : nat) : Z := 80 * Z.of_nat ip.

Definition iinit : fs -> fs := set_held tt false.

(** The loop of [iget]: the entry of the inode, or the first empty one. *)
Fixpoint iget_scan (l : list inode) (dev n : Z) (i : nat) (empty : option nat) : nat + option nat :=
  match l with
  | [] => inr empty
  | x :: r =>
      if (0 <? ref x) && (i_dev x =? dev) && (inum x =? n) then inl i
      else iget_scan r dev n (S i) (match empty with Some _ => empty | None => if ref x =? 0 then Some i else None end)
  end.
Definition recycle (dev n : Z) (i : inode) : inode :=
  {| i_dev := dev; inum := n; ref := 1; i_busy := false; i_valid := false; itype := itype i; major := major i;
     minor := minor i; nlink := nlink i; isize := isize i; addrs := addrs i |}.
Definition iget (dev n : Z) : K fs nat :=
  acquire tt ;;
  s <- kget ;;
  match iget_scan (icache s) dev n 0 None with
  | inl ip =>
      kmodify (upd_inode ip (fun i => set_ref (ref i + 1) i)) ;;
      release tt ;;
      kret ip
  | inr None => panic "iget: no inodes"
  | inr (Some ip) =>
      kmodify (upd_inode ip (recycle dev n)) ;;
      release tt ;;
      kret ip
  end.

(** The loop of [ialloc] from inode [n] on. *)
Fixpoint ialloc_loop (fuel : nat) (dev type : Z) (sb : superblock) (n : Z) : K fs nat :=
  match fuel with
  | O => panic "ialloc: no inodes"
  | S f =>
      if n <? sb_ninodes sb then
        bp <- inblk (bl_bread dev (IBLOCK n)) ;;
        d <- inblk (rd bp) ;;
        if dinode_type (dinode_off n) d =? 0 then
          inblk (wr bp (putn 2 (dinode_off n) type (splice (dinode_off n) (replicate 64 0) d))) ;;
          inblk (bl_log_write bp) ;;
          inblk (bl_brelse bp) ;;
          iget dev n
        else inblk (bl_brelse bp) ;; ialloc_loop f dev type sb (n + 1)
      else panic "ialloc: no inodes"
  end.
Definition ialloc (dev type : Z) : K fs nat :=
  sb <- inblk (fs_readsb dev) ;;
  ialloc_loop (Z.to_nat (sb_ninodes sb)) dev type sb 1.

Definition iupdate (ip : nat) : K fs unit :=
  s <- kget ;;
  let i := iat s ip in
  bp <- inblk (bl_bread (i_dev i) (IBLOCK (inum i))) ;;
  d <- inblk (rd bp) ;;
  inblk (wr bp (store_dinode (dinode_off (inum i)) i d)) ;;
  inblk (bl_log_write bp) ;;
  inblk (bl_brelse bp).

Definition idup (ip : nat) : K fs nat :=
  acquire tt ;;
  kmodify (upd_inode ip (fun i => set_ref (ref i + 1) i)) ;;
  release tt ;;
  kret ip.

(** A caller that sleeps tests I_BUSY again when it is woken. *)
Definition ilock (ip : nat) : K fs unit :=
  s <- kget ;;
  if ref (iat s ip) <? 1 then panic "ilock"
  else
    acquire tt ;;
    if i_busy (iat s ip) then release tt ;; ksleep (inode_chan ip)
    else
      kmodify (upd_inode ip (fun i => set_iflags true (i_valid i) i)) ;;
      release tt ;;
      if i_valid (iat s ip) then kret tt
      else
        bp <- inblk (bl_bread (i_dev (iat s ip)) (IBLOCK (inum (iat s ip)))) ;;
        d <- inblk (rd bp) ;;
        kmodify (upd_inode ip (load_dinode (dinode_off (inum (iat s ip))) d)) ;;
        inblk (bl_brelse bp) ;;
        kmodify (upd_inode ip (fun i => set_iflags (i_busy i) true i)) ;;
        s <- kget ;;
        if itype (iat s ip) =? 0 then panic "ilock: no type" else kret tt.

Definition iunlock (ip : nat) : K fs unit :=
  s <- kget ;;
  if negb (i_busy (iat s ip)) || (ref (iat s ip) <? 1) then panic "iunlock"
  else
    acquire tt ;;
    kmodify (upd_inode ip (fun i => set_iflags false (i_valid i) i)) ;;
    kmodify (iwakeup ip) ;;
    release tt.

(** ** Contents *)

(** A slot of a block of addresses, allocated if it is empty: the common part
    of the two levels of [bmap]. *)
Definition bmap_slot (ip bp : nat) (n : Z) : K fs Z :=
  s <- kget ;;
  d <- inblk (rd bp) ;;
  if aref d n =? 0 then
    addr <- inblk (balloc (i_dev (iat s ip))) ;;
    d <- inblk (rd bp) ;;
    inblk (wr bp (aset d n addr)) ;;
    inblk (bl_log_write bp) ;;
    kret addr
  else kret (aref d n).
(** [ip->addrs[n]], allocated if it is 0. *)
Definition bmap_addr (ip n : nat) : K fs Z :=
  s <- kget ;;
  let addr := nth n (addrs (iat s ip)) 0 in
  if addr =? 0 then
    addr <- inblk (balloc (i_dev (iat s ip))) ;;
    kmodify (upd_inode ip (set_addr n addr)) ;;
    kret addr
  else kret addr.

Definition bmap (ip : nat) (bn : Z) : K fs Z :=
  s <- kget ;;
  let dev := i_dev (iat s ip) in
  if bn <? NDIRECT then bmap_addr ip (Z.to_nat bn)
  else
    let bn := bn - NDIRECT in
    if bn <? NINDIRECT then
      addr <- bmap_addr ip (Z.to_nat NDIRECT) ;;
      bp <- inblk (bl_bread dev addr) ;;
      addr <- bmap_slot ip bp bn ;;
      inblk (bl_brelse bp) ;;
      kret addr
    else
      let bn := bn - NINDIRECT in
      if bn <? NDINDIRECT then
        addr <- bmap_addr ip (Z.to_nat (NDIRECT + 1)) ;;
        dbp <- inblk (bl_bread dev addr) ;;
        addr <- bmap_slot ip dbp (bn / NINDIRECT) ;;
        inblk (bl_brelse dbp) ;;
        bp <- inblk (bl_bread dev addr) ;;
        addr <- bmap_slot ip bp (bn mod NINDIRECT) ;;
        inblk (bl_brelse bp) ;;
        kret addr
      else panic "bmap: out of range".

Definition bmap_read (ip : nat) (bn : Z) : K fs Z :=
  s <- kget ;;
  let i := iat s ip in
  if bn <? NDIRECT then kret (nth (Z.to_nat bn) (addrs i) 0)
  else
    let bn := bn - NDIRECT in
    if bn <? NINDIRECT then
      let addr := nth (Z.to_nat NDIRECT) (addrs i) 0 in
      if addr =? 0 then kret 0
      else
        bp <- inblk (bl_bread (i_dev i) addr) ;;
        d <- inblk (rd bp) ;;
        inblk (bl_brelse bp) ;;
        kret (aref d bn)
    else
      let bn := bn - NINDIRECT in
      if bn <? NDINDIRECT then
        let addr := nth (Z.to_nat (NDIRECT + 1)) (addrs i) 0 in
        if addr =? 0 then kret 0
        else
          dbp <- inblk (bl_bread (i_dev i) addr) ;;
          d <- inblk (rd dbp) ;;
          let addr := aref d (bn / NINDIRECT) in
          if addr =? 0 then inblk (bl_brelse dbp) ;; kret 0
          else
            bp <- inblk (bl_bread (i_dev i) addr) ;;
            d <- inblk (rd bp) ;;
            inblk (bl_brelse bp) ;;
            inblk (bl_brelse dbp) ;;
            kret (aref d (bn mod NINDIRECT))
      else kret 0.

(** The loops of [itrunc]: over the direct addresses, over the slots of an
    indirect block, and over those of the double-indirect block. *)
Fixpoint itrunc_direct (ip : nat) (l : list nat) : K fs unit :=
  match l with
  | [] => kret tt
  | n :: r =>
      s <- kget ;;
      let a := nth n (addrs (iat s ip)) 0 in
      (if a =? 0 then kret tt
       else inblk (bfree (i_dev (iat s ip)) a) ;; kmodify (upd_inode ip (set_addr n 0))) ;;
      itrunc_direct ip r
  end.
Fixpoint itrunc_slots (dev : Z) (bp : nat) (l : list Z) : K B unit :=
  match l with
  | [] => kret tt
  | j :: r =>
      d <- rd bp ;;
      (if aref d j =? 0 then kret tt else bfree dev (aref d j)) ;;
      itrunc_slots dev bp r
  end.
Fixpoint itrunc_dslots (dev : Z) (dbp : nat) (l : list Z) : K B unit :=
  match l with
  | [] => kret tt
  | j :: r =>
      d <- rd dbp ;;
      (if aref d j =? 0 then kret tt
       else
         bp <- bl_bread dev (aref d j) ;;
         itrunc_slots dev bp (seqZ 0 NINDIRECT) ;;
         bl_brelse bp ;;
         d <- rd dbp ;;
         bfree dev (aref d j)) ;;
      itrunc_dslots dev dbp r
  end.
Definition itrunc (ip : nat) : K fs unit :=
  itrunc_direct ip (seq 0 (Z.to_nat NDIRECT)) ;;
  s <- kget ;;
  let dev := i_dev (iat s ip) in
  let a := nth (Z.to_nat NDIRECT) (addrs (iat s ip)) 0 in
  (if a =? 0 then kret tt
   else
     bp <- inblk (bl_bread dev a) ;;
     inblk (itrunc_slots dev bp (seqZ 0 NINDIRECT)) ;;
     inblk (bl_brelse bp) ;;
     inblk (bfree dev a) ;;
     kmodify (upd_inode ip (set_addr (Z.to_nat NDIRECT) 0))) ;;
  s <- kget ;;
  let a := nth (Z.to_nat (NDIRECT + 1)) (addrs (iat s ip)) 0 in
  (if a =? 0 then kret tt
   else
     dbp <- inblk (bl_bread dev a) ;;
     inblk (itrunc_dslots dev dbp (seqZ 0 NINDIRECT)) ;;
     inblk (bl_brelse dbp) ;;
     inblk (bfree dev a) ;;
     kmodify (upd_inode ip (set_addr (Z.to_nat (NDIRECT + 1)) 0))) ;;
  kmodify (upd_inode ip (set_isize 0)) ;;
  iupdate ip.

Definition iput (ip : nat) : K fs unit :=
  acquire tt ;;
  s <- kget ;;
  let i := iat s ip in
  (if (ref i =? 1) && i_valid i && (nlink i =? 0) then
     if i_busy i then panic "iput busy"
     else
       kmodify (upd_inode ip (fun i => set_iflags true (i_valid i) i)) ;;
       release tt ;;
       itrunc ip ;;
       kmodify (upd_inode ip (set_itype 0)) ;;
       iupdate ip ;;
       acquire tt ;;
       kmodify (upd_inode ip (set_iflags false false)) ;;
       kmodify (iwakeup ip)
   else kret tt) ;;
  kmodify (upd_inode ip (fun i => set_ref (ref i - 1) i)) ;;
  release tt.

Definition iunlockput (ip : nat) : K fs unit := iunlock ip ;; iput ip.

(** [struct stat]. *)
Record stat := { st_type : Z; st_dev : Z; st_ino : Z; st_nlink : Z; st_size : Z }.
Definition stati (ip : nat) : K fs stat :=
  kgets (fun s => let i := iat s ip in
    {| st_type := itype i; st_dev := s32 (i_dev i); st_ino := inum i; st_nlink := nlink i; st_size := isize i |}).

(** The number of bytes of one turn of the loops of [readi] and [writei]. *)
Definition chunk (off n tot : Z) : Z := Z.min (n - tot) (512 - off mod 512).

Fixpoint readi_loop (fuel ip : nat) (off n tot : Z) (acc : list Z) : K fs (list Z) :=
  match fuel with
  | O => ub "readi: out of fuel"
  | S f =>
      if tot <? n then
        let m := chunk off n tot in
        addr <- bmap_read ip (off / 512) ;;
        if addr =? 0 then readi_loop f ip (off + m) n (tot + m) (acc ++ replicate (Z.to_nat m) 0)
        else
          s <- kget ;;
          bp <- inblk (bl_bread (i_dev (iat s ip)) addr) ;;
          d <- inblk (rd bp) ;;
          inblk (bl_brelse bp) ;;
          readi_loop f ip (off + m) n (tot + m) (acc ++ slice (Z.to_nat (off mod 512)) (Z.to_nat m) d)
      else kret acc
  end.
(** Enough turns for [n] bytes: all but the first and the last are whole
    blocks. *)
Definition rw_fuel (n : Z) : nat := Z.to_nat (n / 512 + 3).

Definition readi (ip : nat) (off n : Z) : K fs (Z * list Z) :=
  s <- kget ;;
  let i := iat s ip in
  if itype i =? T_DEV then
    if (major i <? 0) || (NDEV <=? major i) then kret (-1, [])
    else match d_read (devsw (major i)) with None => kret (-1, []) | Some f => f ip n end
  else if (isize i <? off) || ((off +u n) <? off) then kret (-1, [])
  else
    let n := if isize i <? (off +u n) then isize i - off else n in
    bs <- readi_loop (rw_fuel n) ip off n 0 [] ;;
    kret (s32 n, bs).

Fixpoint writei_loop (fuel ip : nat) (src : list Z) (off n tot : Z) : K fs Z :=
  match fuel with
  | O => ub "writei: out of fuel"
  | S f =>
      if tot <? n then
        addr <- bmap ip (off / 512) ;;
        s <- kget ;;
        bp <- inblk (bl_bread (i_dev (iat s ip)) addr) ;;
        let m := chunk off n tot in
        d <- inblk (rd bp) ;;
        inblk (wr bp (splice (Z.to_nat (off mod 512)) (slice (Z.to_nat tot) (Z.to_nat m) src) d)) ;;
        inblk (bl_log_write bp) ;;
        inblk (bl_brelse bp) ;;
        writei_loop f ip src (off + m) n (tot + m)
      else kret off
  end.
Definition writei (ip : nat) (src : list Z) (off n : Z) : K fs Z :=
  s <- kget ;;
  let i := iat s ip in
  if itype i =? T_DEV then
    if (major i <? 0) || (NDEV <=? major i) then kret (-1)
    else match d_write (devsw (major i)) with None => kret (-1) | Some f => f ip src n end
  else if (isize i <? off) || ((off +u n) <? off) then kret (-1)
  else if MAXFILE * 512 <? (off +u n) then kret (-1)
  else
    off' <- writei_loop (rw_fuel n) ip src off n 0 ;;
    s <- kget ;;
    (if (0 <? n) && (isize (iat s ip) <? off') then
       kmodify (upd_inode ip (set_isize off')) ;; iupdate ip
     else kret tt) ;;
    kret (s32 n).

(** ** Directories *)

Definition namecmp (s t : list Z) : Z := strncmp (of_bytes s) (of_bytes t) DIRSIZ.

(** [struct dirent] in its 16 bytes. *)
Definition de_inum (de : list Z) : Z := getn 2 0 de.
Definition de_name (de : list Z) : list Z := slice 2 DIRSIZ de.
Definition mk_dirent (name : list Z) (n : Z) : list Z := le_enc 2 n ++ strncpy_bytes (of_bytes name) DIRSIZ.

Fixpoint dirlookup_loop (fuel dp : nat) (name : list Z) (off : Z) : K fs (option (nat * Z)) :=
  match fuel with
  | O => ub "dirlookup: out of fuel"
  | S f =>
      s <- kget ;;
      if off <? isize (iat s dp) then
        r <- readi dp off 16 ;;
        if negb (fst r =? 16) then panic "dirlink read"
        else if de_inum (snd r) =? 0 then dirlookup_loop f dp name (off +u 16)
        else if namecmp name (de_name (snd r)) =? 0 then
          ip <- iget (i_dev (iat s dp)) (de_inum (snd r)) ;;
          kret (Some (ip, off))
        else dirlookup_loop f dp name (off +u 16)
      else kret None
  end.
Definition dir_fuel (size : Z) : nat := Z.to_nat (size / 16 + 2).

(** The inode found with the offset of its entry. *)
Definition dirlookup (dp : nat) (name : list Z) : K fs (option (nat * Z)) :=
  s <- kget ;;
  if negb (itype (iat s dp) =? T_DIR) then panic "dirlookup not DIR"
  else dirlookup_loop (dir_fuel (isize (iat s dp))) dp name 0.

(** The search of [dirlink] for an entry that is not in use. *)
Fixpoint dirlink_slot (fuel dp : nat) (off : Z) : K fs Z :=
  match fuel with
  | O => ub "dirlink: out of fuel"
  | S f =>
      s <- kget ;;
      if off <? isize (iat s dp) then
        r <- readi dp off 16 ;;
        if negb (fst r =? 16) then panic "dirlink read"
        else if de_inum (snd r) =? 0 then kret off
        else dirlink_slot f dp (off + 16)
      else kret off
  end.
Definition dirlink (dp : nat) (name : list Z) (n : Z) : K fs Z :=
  r <- dirlookup dp name ;;
  match r with
  | Some (ip, _) => iput ip ;; kret (-1)
  | None =>
      s <- kget ;;
      off <- dirlink_slot (dir_fuel (isize (iat s dp))) dp 0 ;;
      w <- writei dp (mk_dirent name n) off 16 ;;
      if negb (w =? 16) then panic "dirlink" else kret 0
  end.

(** ** Paths *)

Definition SLASH : Z := 47.

Fixpoint skip_slashes (p : list Z) : list Z :=
  match p with
  | [] => []
  | c :: r => if c =? SLASH then skip_slashes r else p
  end.
(** The bytes up to the next slash or the end of the string, and the rest. *)
Fixpoint take_elem (p : list Z) : list Z * list Z :=
  match p with
  | [] => ([], [])
  | c :: r => if (c =? SLASH) || (c =? 0) then ([], p) else let '(e, q) := take_elem r in (c :: e, q)
  end.
(** [*path] of a string: its NUL may or may not be part of the list. *)
Definition deref (p : list Z) : Z := nth 0 p 0.

(** The rest of the path and the new contents of the buffer [name], or
    nothing when there is no element. *)
Definition skipelem (path name : list Z) : option (list Z * list Z) :=
  let p := skip_slashes path in
  if deref p =? 0 then None
  else
    let '(s, p) := take_elem p in
    let name := if (DIRSIZ <=? length s)%nat then splice 0 (take DIRSIZ s) name
                else <[length s := 0]> (splice 0 s name) in
    Some (skip_slashes p, name).

(** The loop of [namex]; the new contents of [name] is returned with the
    inode. *)
Fixpoint namex_loop (fuel : nat) (path : list Z) (nameiparent : bool) (name : list Z) (ip : nat) : K fs (option nat * list Z) :=
  match fuel with
  | O => ub "namex: out of fuel"
  | S f =>
      match skipelem path name with
      | None =>
          if nameiparent then iput ip ;; kret (None, name)
          else kret (Some ip, name)
      | Some (path, name) =>
          ilock ip ;;
          s <- kget ;;
          if negb (itype (iat s ip) =? T_DIR) then iunlockput ip ;; kret (None, name)
          else if nameiparent && (deref path =? 0) then iunlock ip ;; kret (Some ip, name)
          else
            r <- dirlookup ip name ;;
            match r with
            | None => iunlockput ip ;; kret (None, name)
            | Some (next, _) => iunlockput ip ;; namex_loop f path nameiparent name next
            end
      end
  end.
Definition namex (cwd : nat) (path : list Z) (nameiparent : bool) (name : list Z) : K fs (option nat * list Z) :=
  ip <- (if deref path =? SLASH then iget ROOTDEV ROOTINO else idup cwd) ;;
  namex_loop (S (length path)) path nameiparent name ip.
Definition namei (cwd : nat) (path : list Z) : K fs (option nat) :=
  r <- namex cwd path false (replicate DIRSIZ 0) ;; kret (fst r).
Definition nameiparent (cwd : nat) (path name : list Z) : K fs (option nat * list Z) := namex cwd path true name.
End inodes.

(** ** Statistics *)

Record statfs := { f_bsize : Z; f_blocks : Z; f_bfree : Z; f_bavail : Z; f_files : Z; f_ffree : Z }.

Section statfs.
Context {B : Type} `{BlockOps B}.

(** The two counting loops of [fillstatfs]. *)
Fixpoint count_free (n : nat) (dev : Z) (sb : superblock) (b freeb : Z) : K B Z :=
  match n with
  | O => kret freeb
  | S n' =>
      bp <- bl_bread dev (BBLOCK b (sb_ninodes sb)) ;;
      d <- rd bp ;;
      bl_brelse bp ;;
      count_free n' dev sb (b + 1) (if bit_free d (b mod BPB) then freeb + 1 else freeb)
  end.
Fixpoint count_ifree (n : nat) (dev : Z) (i freei : Z) : K B Z :=
  match n with
  | O => kret freei
  | S n' =>
      bp <- bl_bread dev (IBLOCK i) ;;
      d <- rd bp ;;
      bl_brelse bp ;;
      count_ifree n' dev (i + 1) (if dinode_type (dinode_off i) d =? 0 then freei + 1 else freei)
  end.
Definition fillstatfs (dev : Z) : K B statfs :=
  sb <- fs_readsb dev ;;
  let datastart := sb_size sb -u sb_nlog sb -u sb_nblocks sb in
  freeb <- count_free (Z.to_nat (sb_nblocks sb)) dev sb datastart 0 ;;
  freei <- count_ifree (Z.to_nat (sb_ninodes sb - 1)) dev 1 0 ;;
  kret {| f_bsize := 512; f_blocks := sb_nblocks sb; f_bfree := freeb; f_bavail := freeb;
          f_files := sb_ninodes sb; f_ffree := freei |}.
End statfs.

(** ** Reading and updating a block *)

Section block_specs.
Context {B : Type} `{HL : BlockLaws B M}.

(** [s1] is [s] with the buffer [bp] of sector [k] open. *)
Record opened (s : B) (k : Z) (bp : nat) (s1 : B) : Prop := {
  op_inv : bl_inv M s;
  op_range : 0 <= k < bl_limit M s;
  op_held : k ∉ bl_held M s;
  op_eff : beff M s s1 ({[k]} ∪ bl_held M s) (bl_logged M s) (bl_view M s);
  op_locked : bl_locked M s1 bp k;
  op_synced : bl_synced M s1 k;
  op_keeps : bkeeps M s s1 (fun _ => True);
}.

Lemma wp_open {A} (F : block -> nat -> K B A) Q s k :
  bl_inv M s -> 0 <= k < bl_limit M s -> k ∉ bl_held M s -> room (M := M) 1 s ->
  (forall bp s1, opened s k bp s1 -> wp (F (bl_view M s k) bp) Q s1) ->
  wp (bp <- bl_bread ROOTDEV k ;; d <- rd bp ;; F d bp) Q s.
Proof.
  intros Hi Hk Hn Hr HQ. kstep. eapply wp_mono; [by apply law_bread, room_add|].
  intros bp s1 (B1 & L1 & S1 & K1). pose proof B1 as [I1 T1 H1 D1 V1 M1]. unfold rd. kstep. kstep.
  rewrite (law_data s1 bp k), V1 by done. by apply HQ.
Qed.

Lemma wp_close {A} (rest : K B A) Q s k bp s1 : opened s k bp s1 ->
  (forall s', bsame (M := M) s s' -> wp rest Q s') -> wp (bl_brelse bp ;; rest) Q s1.
Proof.
  intros [Hi Hk Hn B1 L1 S1 K1] HQ. kstep. eapply wp_mono; [apply law_brelse; [apply B1|done..]|].
  intros _ s2 (B2 & K2). apply HQ. by eapply bread_brelse_same.
Qed.

Lemma wp_log_close {A} (rest : K B A) Q s k bp s1 d : opened s k bp s1 -> bl_txn M s -> room (M := M) 2 s -> lroom (M := M) 1 s ->
  wfblock d -> (forall s', bupd (M := M) k d s s' -> wp rest Q s') ->
  wp (wr bp d ;; bl_log_write bp ;; bl_brelse bp ;; rest) Q s1.
Proof.
  intros [Hi Hk Hn B1 L1 S1 K1] Ht Hr Hl Hd HQ. pose proof B1 as [I1 T1 H1 D1 V1 M1]. unfold wr. ksteps.
  destruct (law_put s1 bp k d I1 L1 Hd) as (B2 & L2 & K2). pose proof B2 as [I2 T2 H2 D2 V2 M2].
  eapply wp_mono; [apply (law_log_write _ bp k); [done|by apply T2, T1|done|..]|].
  - rewrite D2, D1. unfold lroom in Hl. lia.
  - rewrite H2, H1, D2, D1, <- union_assoc_L. unfold room in *. pose proof (size_add k (bl_held M s ∪ bl_logged M s)). lia.
  - intros _ s3 (B3 & L3 & S3 & K3). kstep. eapply wp_mono; [by apply (law_brelse _ bp k); [apply B3|..]|].
    intros _ s4 (B4 & K4). apply HQ. by eapply bread_update_brelse.
Qed.

Lemma wp_read {A} (rest : block -> K B A) Q s k :
  bl_inv M s -> 0 <= k < bl_limit M s -> k ∉ bl_held M s -> room (M := M) 1 s ->
  (forall s', bsame (M := M) s s' -> wp (rest (bl_view M s k)) Q s') ->
  wp (bp <- bl_bread ROOTDEV k ;; d <- rd bp ;; bl_brelse bp ;; rest d) Q s.
Proof. intros Hi Hk Hn Hr HQ. apply (wp_open (fun d bp => bl_brelse bp ;; rest d)); [done..|]. intros bp s1 Ho. by eapply wp_close. Qed.

Lemma wp_update {A} (f : block -> block) (rest : K B A) Q s k :
  bl_inv M s -> bl_txn M s -> 0 <= k < bl_limit M s -> k ∉ bl_held M s -> room (M := M) 2 s -> lroom (M := M) 1 s ->
  wfblock (f (bl_view M s k)) ->
  (forall s', bupd (M := M) k (f (bl_view M s k)) s s' -> wp rest Q s') ->
  wp (bp <- bl_bread ROOTDEV k ;; d <- rd bp ;; wr bp (f d) ;; bl_log_write bp ;; bl_brelse bp ;; rest) Q s.
Proof.
  intros Hi Ht Hk Hn Hr Hl Hd HQ. apply (wp_open (fun d bp => wr bp (f d) ;; bl_log_write bp ;; bl_brelse bp ;; rest)); [done..| |].
  - by eapply room_weaken; [|exact Hr]; lia.
  - intros bp s1 Ho. by eapply wp_log_close.
Qed.
End block_specs.

(** ** Bitmaps *)

Lemma bmask_testbit bi n : 0 <= n -> Z.testbit (bmask bi) n = (n =? bi mod 8).
Proof. intros Hn. unfold bmask. rewrite Z.shiftl_1_l, Z.pow2_bits_eqb by dlia. apply Z.eqb_sym. Qed.

(** A bit is free when it is clear. *)
Lemma bit_free_testbit d bi : bit_free d bi = negb (Z.testbit (nth (Z.to_nat (bi / 8)) d 0) (bi mod 8)).
Proof.
  unfold bit_free. set (x := nth _ d 0). destruct (Z.testbit x (bi mod 8)) eqn:E; simpl.
  - apply Z.eqb_neq. intros H0. assert (Hb : Z.testbit (Z.land x (bmask bi)) (bi mod 8) = true).
    { rewrite Z.land_spec, bmask_testbit, E, Z.eqb_refl by dlia. done. }
    by rewrite H0, Z.bits_0 in Hb.
  - apply Z.eqb_eq, Z.bits_inj'. intros n Hn. rewrite Z.land_spec, bmask_testbit, Z.bits_0 by done.
    destruct (Z.eqb_spec n (bi mod 8)) as [->|]; [by rewrite E|by rewrite andb_false_r].
Qed.

Lemma bit_index_eq bi bj : 0 <= bi -> 0 <= bj -> Z.to_nat (bi / 8) = Z.to_nat (bj / 8) -> bi mod 8 = bj mod 8 -> bi = bj.
Proof. intros. assert (bi / 8 = bj / 8) by (apply Z2Nat.inj; dlia). dlia. Qed.

Lemma byte_index (d : block) bi : 0 <= bi < 8 * Z.of_nat (length d) -> (Z.to_nat (bi / 8) < length d)%nat.
Proof. intros. dlia. Qed.

Lemma nth_insert (d : block) i v j : (i < length d)%nat -> nth j (<[i:=v]> d) 0 = if decide (j = i) then v else nth j d 0.
Proof.
  intros Hi. rewrite !nth_lookup. destruct (decide (j = i)) as [->|Hne]; [by rewrite list_lookup_insert_eq|].
  by rewrite list_lookup_insert_ne.
Qed.

Lemma bit_set_spec d bi bj : 0 <= bi < 8 * Z.of_nat (length d) -> 0 <= bj ->
  bit_free (bit_set d bi) bj = if decide (bj = bi) then false else bit_free d bj.
Proof.
  intros Hi Hj. rewrite !bit_free_testbit. unfold bit_set. rewrite nth_insert by (by apply byte_index).
  destruct (decide (Z.to_nat (bj / 8) = Z.to_nat (bi / 8))) as [E|E].
  - rewrite Z.lor_spec, bmask_testbit, E by dlia. destruct (decide (bj = bi)) as [->|Hne].
    + by rewrite Z.eqb_refl, orb_true_r.
    + destruct (Z.eqb_spec (bj mod 8) (bi mod 8)) as [E2|]; [|by rewrite orb_false_r]. exfalso. apply Hne. apply bit_index_eq; lia || done.
  - destruct (decide (bj = bi)) as [->|]; [done|done].
Qed.

Lemma bit_clear_spec d bi bj : 0 <= bi < 8 * Z.of_nat (length d) -> 0 <= bj ->
  bit_free (bit_clear d bi) bj = if decide (bj = bi) then true else bit_free d bj.
Proof.
  intros Hi Hj. rewrite !bit_free_testbit. unfold bit_clear. rewrite nth_insert by (by apply byte_index).
  destruct (decide (Z.to_nat (bj / 8) = Z.to_nat (bi / 8))) as [E|E].
  - rewrite Z.land_spec, Z.lnot_spec, bmask_testbit, E by dlia. destruct (decide (bj = bi)) as [->|Hne].
    + by rewrite Z.eqb_refl, andb_false_r.
    + destruct (Z.eqb_spec (bj mod 8) (bi mod 8)) as [E2|]; [|by rewrite andb_true_r]. exfalso. apply Hne. apply bit_index_eq; lia || done.
  - destruct (decide (bj = bi)) as [->|]; [done|done].
Qed.

Lemma byte_bits x : byte x <-> 0 <= x /\ (forall n, 8 <= n -> Z.testbit x n = false).
Proof.
  unfold byte. split.
  - intros Hx. split; [lia|]. intros n Hn. rewrite <- (Z.mod_small x (2 ^ 8)) by lia. apply Z.mod_pow2_bits_high. lia.
  - intros [H0 Hb]. split; [done|]. enough (E : x = x mod 2 ^ 8) by (rewrite E; dlia).
    apply Z.bits_inj'. intros n Hn. destruct (Z.lt_ge_cases n 8) as [Hl|Hl].
    + by rewrite Z.mod_pow2_bits_low.
    + rewrite Z.mod_pow2_bits_high by lia. by apply Hb.
Qed.

Lemma bit_set_wf d bi : wfblock d -> 0 <= bi -> wfblock (bit_set d bi).
Proof.
  intros [Hl Hd] Hb. split; [unfold bit_set; by rewrite length_insert|]. unfold bit_set.
  apply Forall_insert; [done|]. apply byte_bits.
  assert (Hx : byte (nth (Z.to_nat (bi / 8)) d 0)).
  { rewrite nth_lookup. destruct (d !! _) eqn:E; simpl; [|unfold byte; lia]. rewrite Forall_lookup in Hd. by eapply Hd. }
  apply byte_bits in Hx as [Hx0 Hx]. split.
  - apply Z.lor_nonneg. split; [done|]. unfold bmask. apply Z.shiftl_nonneg. lia.
  - intros n Hn. rewrite Z.lor_spec, bmask_testbit, Hx by lia. simpl. apply Z.eqb_neq. dlia.
Qed.
Lemma bit_clear_wf d bi : wfblock d -> wfblock (bit_clear d bi).
Proof.
  intros [Hl Hd]. split; [unfold bit_clear; by rewrite length_insert|]. unfold bit_clear.
  apply Forall_insert; [done|]. apply byte_bits.
  assert (Hx : byte (nth (Z.to_nat (bi / 8)) d 0)).
  { rewrite nth_lookup. destruct (d !! _) eqn:E; simpl; [|unfold byte; lia]. rewrite Forall_lookup in Hd. by eapply Hd. }
  apply byte_bits in Hx as [Hx0 Hx]. split; [apply Z.land_nonneg; by left|]. intros n Hn. by rewrite Z.land_spec, Hx.
Qed.

(** ** The block allocator *)

Lemma find_free_spec d b size n : forall bi,
  match find_free d b size n bi with
  | Some r => bi <= r < bi + Z.of_nat n /\ b + r < size /\ bit_free d r = true /\ (forall r', bi <= r' < r -> bit_free d r' = false)
  | None => forall r', bi <= r' < bi + Z.of_nat n -> b + r' < size -> bit_free d r' = false
  end.
Proof.
  induction n as [|n IH]; intros bi; cbn [find_free]; [intros; lia|].
  destruct (Z.ltb_spec (b + bi) size) as [Hlt|Hge]; [|intros; lia]. destruct (bit_free d bi) eqn:Ef.
  - split_and!; [lia..|done|]. intros; lia.
  - specialize (IH (bi + 1)). destruct (find_free d b size n (bi + 1)) as [r|].
    + destruct IH as (H1 & H2 & H3 & H4). split_and!; [lia..|done|]. intros r' Hr. destruct (decide (r' = bi)) as [->|]; [done|]. apply H4. lia.
    + intros r' Hr Hs. destruct (decide (r' = bi)) as [->|]; [done|]. apply IH; lia.
Qed.

(** Where things are on the disk: superblock, inodes, bitmap, then data. *)
Record layout (sb : superblock) (limit : Z) : Prop := {
  ly_size : 0 <= sb_size sb < 2 ^ 31;
  ly_inodes : 0 <= sb_ninodes sb < 2 ^ 31;
  ly_limit : NINODEBLOCKS (sb_ninodes sb) + 3 + sb_size sb / BPB < limit;
  ly_end : limit <= sb_size sb;
}.

Lemma nib_val n : 0 <= n < 2 ^ 31 -> NINODEBLOCKS n = (n + 7) / 8.
Proof. intros Hn. unfold NINODEBLOCKS, IPB. rewrite u32_small by lia. done. Qed.
Lemma BBLOCK_val sb limit b : layout sb limit -> 0 <= b < sb_size sb ->
  BBLOCK b (sb_ninodes sb) = b / BPB + NINODEBLOCKS (sb_ninodes sb) + 3 /\ 1 < BBLOCK b (sb_ninodes sb) < limit.
Proof.
  intros [H1 H2 H3 H4] Hb. pose proof (nib_val _ H2) as En. unfold BBLOCK.
  assert (b / BPB <= sb_size sb / BPB) by (unfold BPB; dlia).
  assert (0 <= b / BPB) by (unfold BPB; dlia). assert (0 <= NINODEBLOCKS (sb_ninodes sb)) by (rewrite En; dlia).
  rewrite u32_small by lia. lia.
Qed.
Lemma IBLOCK_val sb limit i : layout sb limit -> 0 <= i < sb_ninodes sb ->
  IBLOCK i = i / IPB + 2 /\ 1 < IBLOCK i < limit /\ IBLOCK i < NINODEBLOCKS (sb_ninodes sb) + 3.
Proof.
  intros [H1 H2 H3 H4] Hi. pose proof (nib_val _ H2) as En. unfold IBLOCK, IPB in *.
  assert (0 <= sb_size sb / BPB) by (unfold BPB; dlia).
  assert (i / 8 < (sb_ninodes sb + 7) / 8) by dlia. assert (0 <= i / 8) by dlia. rewrite u32_small by lia. lia.
Qed.

Section alloc.
Context {B : Type} `{HL : BlockLaws B M}.

(** Block [b] is free. *)
Definition free (s : B) (sb : superblock) (b : Z) : Prop :=
  bit_free (bl_view M s (BBLOCK b (sb_ninodes sb))) (b mod BPB) = true.

(** The superblock is [sb], and the client holds no block of the metadata but
    only blocks that are in use. *)
Record ready (s : B) (sb : superblock) : Prop := {
  rdy_inv : bl_inv M s;
  rdy_sb : dec_superblock (bl_view M s 1) = sb;
  rdy_layout : layout sb (bl_limit M s);
  rdy_held1 : 1 ∉ bl_held M s;
  rdy_heldb b : 0 <= b < sb_size sb -> BBLOCK b (sb_ninodes sb) ∉ bl_held M s;
  rdy_used k : k ∈ bl_held M s -> 0 <= k < sb_size sb /\ ~ free s sb k;
  rdy_meta k : 0 <= k <= NINODEBLOCKS (sb_ninodes sb) + 3 + (sb_size sb - 1) / BPB -> ~ free s sb k;
}.

Lemma limit_gt1 sb limit : layout sb limit -> 1 < limit.
Proof.
  intros [H1 H2 H3 H4]. pose proof (nib_val _ H2) as En. assert (0 <= sb_size sb / BPB) by (unfold BPB; dlia).
  assert (0 <= (sb_ninodes sb + 7) / 8) by dlia. lia.
Qed.

Lemma free_same s s' sb b : bsame (M := M) s s' -> layout sb (bl_limit M s) -> 0 <= b < sb_size sb -> free s' sb b <-> free s sb b.
Proof.
  intros Hs Hl Hb. unfold free. rewrite (bsame_view _ _ _ Hs); [done|]. pose proof (BBLOCK_val _ _ _ Hl Hb). lia.
Qed.

Lemma meta_range sb limit k : layout sb limit -> 0 <= k <= NINODEBLOCKS (sb_ninodes sb) + 3 + (sb_size sb - 1) / BPB -> 0 <= k < sb_size sb.
Proof. intros [H1 H2 H3 H4] Hk. unfold BPB in *. assert ((sb_size sb - 1) / 4096 <= sb_size sb / 4096) by dlia. lia. Qed.

Lemma ready_same s s' sb : bsame (M := M) s s' -> ready s sb -> ready s' sb.
Proof.
  intros Hs [H1 H2 H3 H4 H5 H6 H7]. split.
  - by eapply bsame_inv.
  - rewrite (bsame_view _ _ _ Hs); [done|]. pose proof (limit_gt1 _ _ H3). lia.
  - by rewrite (bsame_limit _ _ Hs).
  - by rewrite (bsame_held _ _ Hs).
  - intros b. rewrite (bsame_held _ _ Hs). apply H5.
  - intros k. rewrite (bsame_held _ _ Hs). intros Hk. destruct (H6 k Hk) as [Hr Hf]. by rewrite (free_same s s').
  - intros k Hk. rewrite (free_same s s'); [by apply H7|done|done|by eapply meta_range].
Qed.

Lemma wp_readsb {A} (rest : superblock -> K B A) Q s sb : ready s sb -> room (M := M) 1 s ->
  (forall s', bsame (M := M) s s' -> wp (rest sb) Q s') -> wp (x <- fs_readsb ROOTDEV ;; rest x) Q s.
Proof.
  intros Hr Hm HQ. pose proof (limit_gt1 _ _ (rdy_layout _ _ Hr)). kstep. unfold fs_readsb. eapply wp_mono.
  { apply (wp_read (fun d => kret (dec_superblock d)) (fun r s' => r = sb /\ bsame (M := M) s s')); [apply Hr|lia|apply Hr|done|].
    intros s' Hs. kstep. split; [apply Hr|done]. }
  intros r s' [-> Hs]. by apply HQ.
Qed.

(** The effect of allocating block [a]. *)
Definition allocated (s s' : B) (sb : superblock) (a : Z) : Prop :=
  let bb := BBLOCK a (sb_ninodes sb) in
  beff M s s' (bl_held M s) ({[a]} ∪ ({[bb]} ∪ bl_logged M s))
    (fun k => if decide (k = a) then replicate BSIZE 0
              else if decide (k = bb) then bit_set (bl_view M s bb) (a mod BPB) else bl_view M s k) /\
  bkeeps M s s' (fun _ => True).

Lemma bupd_same_l k d s s1 s2 : bsame (M := M) s s1 -> 0 <= k < bl_limit M s -> bupd (M := M) k d s1 s2 -> bupd (M := M) k d s s2.
Proof.
  intros [[I1 T1 H1 D1 V1 L1] [K1 S1]] Hk [[I2 T2 H2 D2 V2 L2] [K2 S2]]. split; [split|split]; try congruence.
  - by rewrite T2.
  - intros k' Hk'. rewrite V2 by congruence. destruct (decide (k' = k)); [done|by apply V1].
  - auto.
  - intros k' _ Hk' Hs. apply S2; [done|congruence|auto].
Qed.

Lemma bupd_bupd_allocated s s1 s2 sb a : bupd (M := M) (BBLOCK a (sb_ninodes sb)) (bit_set (bl_view M s (BBLOCK a (sb_ninodes sb))) (a mod BPB)) s s1 ->
  bupd (M := M) a (replicate BSIZE 0) s1 s2 -> allocated s s2 sb a.
Proof.
  intros [[I1 T1 H1 D1 V1 L1] [K1 S1]] [[I2 T2 H2 D2 V2 L2] [K2 S2]]. split; [split|split]; try congruence.
  - by rewrite T2.
  - intros k' Hk'. rewrite V2 by congruence. destruct (decide (k' = a)); [done|by apply V1].
  - auto.
  - intros k' _ Hk' Hs. apply S2; [done|congruence|auto].
Qed.

Lemma wf_zeros : wfblock (replicate BSIZE 0).
Proof. split; [apply length_replicate|by apply Forall_replicate]. Qed.

Lemma wp_bzero s k : bl_inv M s -> bl_txn M s -> 0 <= k < bl_limit M s -> k ∉ bl_held M s -> room (M := M) 2 s -> lroom (M := M) 1 s ->
  wp (bzero ROOTDEV k) (fun _ s' => bupd (M := M) k (replicate BSIZE 0) s s') s.
Proof.
  intros Hi Ht Hk Hn Hr Hl. unfold bzero.
  pose proof (wp_update (fun _ => replicate BSIZE 0) (kret tt) (fun _ s' => bupd (M := M) k (replicate BSIZE 0) s s') s k Hi Ht Hk Hn Hr Hl wf_zeros) as Hw.
  assert (Hu : forall s', bupd (M := M) k (replicate BSIZE 0) s s' -> wp (kret tt) (fun _ s' => bupd (M := M) k (replicate BSIZE 0) s s') s') by done.
  specialize (Hw Hu). unfold wp, kbind, rd, wr, kgets, kmodify, kret in *. destruct (bl_bread ROOTDEV k s) as [bp s1| |]; try done.
  destruct (bl_log_write bp (bl_put bp (replicate BSIZE 0) s1)) as [[] s2| |]; try done. by destruct (bl_brelse bp s2) as [[] s3| |].
Qed.

Section balloc.
Context (s0 : B) (sb : superblock) (a : Z).
Hypotheses (Ha : 0 <= a < bl_limit M s0) (Hfree : free s0 sb a) (Hleast : forall a', 0 <= a' < a -> ~ free s0 sb a').

Lemma BBLOCK_shift b r : 0 <= b -> b mod BPB = 0 -> 0 <= r < BPB ->
  BBLOCK (b + r) (sb_ninodes sb) = BBLOCK b (sb_ninodes sb) /\ (b + r) mod BPB = r.
Proof. intros H1 H2 H3. unfold BBLOCK. unfold BPB in *. replace ((b + r) / 4096) with (b / 4096) by dlia. split; [done|dlia]. Qed.

(** The bitmap block of the blocks from [b] on. *)
Lemma find_free_least s b : bsame (M := M) s0 s -> layout sb (bl_limit M s0) -> 0 <= b <= a -> b mod BPB = 0 ->
  find_free (bl_view M s (BBLOCK b (sb_ninodes sb))) b (sb_size sb) (Z.to_nat BPB) 0 = (if decide (a < b + BPB) then Some (a - b) else None).
Proof.
  intros Hs Hl Hb Hm. pose proof (ly_end _ _ Hl) as Hend. assert (Hbs : 0 <= b < sb_size sb) by lia.
  rewrite (bsame_view _ _ _ Hs) by (pose proof (BBLOCK_val _ _ _ Hl Hbs); lia).
  set (d := bl_view M s0 _). assert (Hd : forall r, 0 <= r < BPB -> bit_free d r = true <-> free s0 sb (b + r)).
  { intros r Hr. unfold free. destruct (BBLOCK_shift b r) as [-> ->]; [lia|done|done|done]. }
  pose proof (find_free_spec d b (sb_size sb) (Z.to_nat BPB) 0) as Hf. rewrite Z2Nat.id in Hf by (unfold BPB; lia).
  destruct (find_free d b (sb_size sb) (Z.to_nat BPB) 0) as [r|]; simpl in Hf.
  - destruct Hf as (H1 & H2 & H3 & H4). apply Hd in H3; [|lia]. assert (r = a - b) as ->.
    { destruct (Z.lt_trichotomy r (a - b)) as [Hlt|[E|Hgt]]; [|done|].
      - exfalso. apply (Hleast (b + r)); [lia|done].
      - assert (bit_free d (a - b) = false) by (apply H4; lia). assert (bit_free d (a - b) = true); [|congruence].
        apply Hd; [lia|]. by replace (b + (a - b)) with a by lia. }
    rewrite decide_True by lia. done.
  - rewrite decide_False; [done|]. intros Hlt. assert (bit_free d (a - b) = false) by (apply Hf; lia).
    assert (bit_free d (a - b) = true); [|congruence]. apply Hd; [lia|]. by replace (b + (a - b)) with a by lia.
Qed.

Lemma wp_balloc_loop fuel : forall b s, bsame (M := M) s0 s -> ready s0 sb -> bl_txn M s0 -> room (M := M) 3 s0 -> lroom (M := M) 2 s0 ->
  0 <= b <= a -> b mod BPB = 0 -> a < b + Z.of_nat fuel * BPB ->
  wp (balloc_loop fuel ROOTDEV sb b) (fun r s' => r = a /\ allocated s0 s' sb a) s.
Proof.
  induction fuel as [|fuel IH]; intros b s Hs Hr Ht Hrm Hlr Hb Hm Hf; [lia|].
  pose proof (rdy_layout _ _ Hr) as Hl. pose proof (ly_end _ _ Hl) as Hend. assert (Hbs : 0 <= b < sb_size sb) by lia.
  destruct (BBLOCK_val _ _ _ Hl Hbs) as [_ HB]. cbn [balloc_loop]. destruct (Z.ltb_spec b (sb_size sb)); [|lia].
  assert (Hrm' : room (M := M) 3 s) by (by apply (bsame_room 3 _ _ Hs)). assert (Hlr' : lroom (M := M) 2 s) by (by apply (bsame_lroom 2 _ _ Hs)).
  assert (Ht' : bl_txn M s) by (by apply (bsame_txn _ _ Hs)).
  eapply (wp_open (fun d bp => match find_free d b (sb_size sb) (Z.to_nat BPB) 0 with
    | Some bi => wr bp (bit_set d bi) ;; bl_log_write bp ;; bl_brelse bp ;; bzero ROOTDEV (b + bi) ;; kret (b + bi)
    | None => bl_brelse bp ;; balloc_loop fuel ROOTDEV sb (b + BPB) end)).
  { by eapply bsame_inv. }
  { rewrite (bsame_limit _ _ Hs). lia. }
  { rewrite (bsame_held _ _ Hs). by apply Hr. }
  { eapply room_weaken; [|exact Hrm']. lia. }
  intros bp s1 Ho. rewrite (find_free_least s b) by done. destruct (decide (a < b + BPB)) as [Hlt|Hge].
  - assert (Hsh : BBLOCK a (sb_ninodes sb) = BBLOCK b (sb_ninodes sb) /\ a mod BPB = a - b).
    { pose proof (BBLOCK_shift b (a - b)) as X. replace (b + (a - b)) with a in X by lia. apply X; lia. }
    destruct Hsh as [Hbb Hmod]. eapply wp_log_close; [exact Ho|done|eapply room_weaken; [|exact Hrm']; lia|eapply lroom_weaken; [|exact Hlr']; lia| |].
    { apply bit_set_wf; [|lia]. apply law_wf. by eapply bsame_inv. }
    intros s2 U. replace (b + (a - b)) with a by lia. pose proof U as [[I2 T2 H2 D2 V2 L2] _]. kstep. eapply wp_mono; [apply wp_bzero|].
    + done.
    + by apply T2.
    + rewrite L2, (bsame_limit _ _ Hs). lia.
    + rewrite H2, (bsame_held _ _ Hs). intros [_ Hu]%(rdy_used _ _ Hr). done.
    + eapply bupd_room; [exact U|done].
    + eapply bupd_lroom; [exact U|done].
    + intros u s3 U3. kstep. split; [done|]. apply (bupd_bupd_allocated s0 s2 s3 sb a); [|done]. rewrite Hbb, Hmod.
      rewrite (bsame_view _ _ _ Hs) in U by lia. by apply (bupd_same_l _ _ s0 s s2 Hs); [lia|].
  - eapply wp_close; [exact Ho|]. intros s2 Hs2. unfold BPB in *. apply IH; [by transitivity s|done|done|done|done|lia|unfold BPB; dlia|unfold BPB; lia].
Qed.

Lemma wp_balloc : ready s0 sb -> bl_txn M s0 -> room (M := M) 3 s0 -> lroom (M := M) 2 s0 ->
  wp (balloc ROOTDEV) (fun r s' => r = a /\ allocated s0 s' sb a) s0.
Proof.
  intros Hr Ht Hrm Hlr. unfold balloc. apply (wp_readsb _ _ _ sb); [done|eapply room_weaken; [|exact Hrm]; lia|].
  intros s' Hs. pose proof (ly_end _ _ (rdy_layout _ _ Hr)). apply wp_balloc_loop; try done; [lia|]. unfold BPB. dlia.
Qed.
End balloc.

Lemma block_meta sb limit b : layout sb limit -> 0 <= b < sb_size sb ->
  0 <= BBLOCK b (sb_ninodes sb) <= NINODEBLOCKS (sb_ninodes sb) + 3 + (sb_size sb - 1) / BPB.
Proof. intros Hl Hb. destruct (BBLOCK_val _ _ _ Hl Hb) as [E ?]. unfold BPB in *. assert (b / 4096 <= (sb_size sb - 1) / 4096) by dlia. lia. Qed.

Lemma BBLOCK_inj sb limit a b : layout sb limit -> 0 <= a < sb_size sb -> 0 <= b < sb_size sb ->
  BBLOCK a (sb_ninodes sb) = BBLOCK b (sb_ninodes sb) -> a mod BPB = b mod BPB -> a = b.
Proof.
  intros Hl Ha Hb E1 E2. destruct (BBLOCK_val _ _ _ Hl Ha) as [Ea _]. destruct (BBLOCK_val _ _ _ Hl Hb) as [Eb _].
  unfold BPB in *. assert (a / 4096 = b / 4096) by lia. dlia.
Qed.

Lemma mod_in_block b : 0 <= b mod BPB < 8 * Z.of_nat BSIZE.
Proof. unfold BPB, BSIZE. dlia. Qed.

(** What the bitmap says after bit [a] is changed to [v]. *)
Lemma free_upd s s' sb a (v : bool) d : layout sb (bl_limit M s) -> bl_inv M s -> 0 <= a < sb_size sb ->
  bl_limit M s' = bl_limit M s ->
  (forall b, 0 <= b < sb_size sb -> bl_view M s' (BBLOCK b (sb_ninodes sb)) =
    if decide (BBLOCK b (sb_ninodes sb) = BBLOCK a (sb_ninodes sb)) then d else bl_view M s (BBLOCK b (sb_ninodes sb))) ->
  (forall j, 0 <= j -> bit_free d j = if decide (j = a mod BPB) then v else bit_free (bl_view M s (BBLOCK a (sb_ninodes sb))) j) ->
  forall b, 0 <= b < sb_size sb -> free s' sb b <-> if decide (b = a) then v = true else free s sb b.
Proof.
  intros Hl Hi Ha Hlim Hv Hd b Hb. unfold free. rewrite (Hv b Hb). pose proof (mod_in_block b).
  destruct (decide (BBLOCK b (sb_ninodes sb) = BBLOCK a (sb_ninodes sb))) as [E|E].
  - rewrite Hd by lia. destruct (decide (b = a)) as [->|Hne].
    + by rewrite decide_True.
    + rewrite decide_False; [by rewrite E|]. intros Em. apply Hne. by eapply BBLOCK_inj.
  - rewrite (decide_False (P := b = a)) by (intros ->; done). done.
Qed.

Lemma allocated_free s s' sb a : ready s sb -> free s sb a -> 0 <= a < bl_limit M s -> allocated s s' sb a ->
  forall b, 0 <= b < sb_size sb -> free s' sb b <-> free s sb b /\ b <> a.
Proof.
  intros Hr Hf Ha [[I1 T1 H1 D1 V1 L1] _] b Hb. pose proof (rdy_layout _ _ Hr) as Hl. pose proof (ly_end _ _ Hl).
  assert (Hd := proj1 (law_wf s (BBLOCK a (sb_ninodes sb)) (rdy_inv _ _ Hr))).
  rewrite (free_upd s s' sb a false (bit_set (bl_view M s (BBLOCK a (sb_ninodes sb))) (a mod BPB)) Hl (rdy_inv _ _ Hr)); [|lia|done| | |done].
  - destruct (decide (b = a)) as [->|]; naive_solver.
  - intros b' Hb'. rewrite V1 by (pose proof (BBLOCK_val _ _ _ Hl Hb'); lia). rewrite decide_False; [done|].
    intros E. apply (rdy_meta _ _ Hr a); [|done]. rewrite <- E. by eapply block_meta.
  - intros j Hj. apply bit_set_spec; [|done]. rewrite Hd. apply mod_in_block.
Qed.

(** [bfree] of a block in use. *)
Lemma wp_bfree s sb a : ready s sb -> bl_txn M s -> room (M := M) 2 s -> lroom (M := M) 1 s -> 0 <= a < sb_size sb -> ~ free s sb a ->
  wp (bfree ROOTDEV a) (fun _ s' => bupd (M := M) (BBLOCK a (sb_ninodes sb)) (bit_clear (bl_view M s (BBLOCK a (sb_ninodes sb))) (a mod BPB)) s s') s.
Proof.
  intros Hr Ht Hrm Hlr Ha Hn. pose proof (rdy_layout _ _ Hr) as Hl. destruct (BBLOCK_val _ _ _ Hl Ha) as [_ HB]. unfold bfree.
  apply (wp_readsb _ _ _ sb); [done|eapply room_weaken; [|exact Hrm]; lia|]. intros s1 Hs. pose proof (ready_same _ _ _ Hs Hr) as Hr1.
  assert (Hrm1 : room (M := M) 2 s1) by (by apply (bsame_room 2 _ _ Hs)).
  eapply (wp_open (fun d bp => if bit_free d (a mod BPB) then panic "freeing free block" else
    wr bp (bit_clear d (a mod BPB)) ;; bl_log_write bp ;; bl_brelse bp)); [apply Hr1|rewrite (bsame_limit _ _ Hs); lia|by apply Hr1|by eapply room_weaken; [|exact Hrm1]; lia|].
  intros bp s2 Ho. rewrite (bsame_view _ _ _ Hs) by lia. unfold free in Hn. destruct (bit_free _ (a mod BPB)); [done|].
  set (d := bit_clear _ _). assert (Hw : wfblock d) by (apply bit_clear_wf, law_wf, Hr).
  pose proof (wp_log_close (kret tt) (fun _ s' => bupd (M := M) (BBLOCK a (sb_ninodes sb)) d s s') s1 _ bp s2 d Ho) as Hc.
  enough (Hx : wp (wr bp d ;; bl_log_write bp ;; bl_brelse bp ;; kret tt) (fun _ s' => bupd (M := M) (BBLOCK a (sb_ninodes sb)) d s s') s2).
  { unfold wp, kbind, wr, kmodify, kret in *. destruct (bl_log_write _ _) as [[] ?| |]; try done. by destruct (bl_brelse _ _) as [[] ?| |]. }
  apply Hc; [by apply (bsame_txn _ _ Hs)|done|by apply (bsame_lroom 1 _ _ Hs)|done|]. intros s3 U. kstep. by apply (bupd_same_l _ _ s s1 s3 Hs); [lia|].
Qed.

Lemma bfree_double s sb a : ready s sb -> room (M := M) 2 s -> 0 <= a < sb_size sb -> free s sb a ->
  exists s', bfree ROOTDEV a s = Panicked "freeing free block" s'.
Proof.
  intros Hr Hrm Ha Hf. pose proof (rdy_layout _ _ Hr) as Hl. destruct (BBLOCK_val _ _ _ Hl Ha) as [_ HB].
  pose proof (wp_readsb kret (fun x s' => x = sb /\ bsame (M := M) s s') s sb Hr (room_weaken 2 1 s ltac:(lia) Hrm)) as Hw.
  specialize (Hw (fun s' Hs => conj eq_refl Hs)). unfold bfree, wp, kbind, kret in *. destruct (fs_readsb ROOTDEV s) as [x s1| |]; [|done|done].
  destruct Hw as [-> Hs]. pose proof (ready_same _ _ _ Hs Hr) as Hr1.
  pose proof (wp_open (fun d bp => kret d) (fun d s' => d = bl_view M s1 (BBLOCK a (sb_ninodes sb))) s1 (BBLOCK a (sb_ninodes sb))) as Ho.
  unfold wp, kbind, kret, rd, kgets in *. destruct (bl_bread ROOTDEV (BBLOCK a (sb_ninodes sb)) s1) as [bp s2| |].
  - rewrite Ho; [|apply Hr1|rewrite (bsame_limit _ _ Hs); lia|by apply Hr1|by apply (bsame_room 1 _ _ Hs); eapply room_weaken; [|exact Hrm]; lia|done].
    rewrite (bsame_view _ _ _ Hs) by lia. unfold free in Hf. rewrite Hf. by eexists.
  - destruct Ho; [apply Hr1|rewrite (bsame_limit _ _ Hs); lia|by apply Hr1|by apply (bsame_room 1 _ _ Hs); eapply room_weaken; [|exact Hrm]; lia|done].
  - destruct Ho; [apply Hr1|rewrite (bsame_limit _ _ Hs); lia|by apply Hr1|by apply (bsame_room 1 _ _ Hs); eapply room_weaken; [|exact Hrm]; lia|done].
Qed.

Lemma freed_free s s' sb a : ready s sb -> 0 <= a < sb_size sb ->
  bupd (M := M) (BBLOCK a (sb_ninodes sb)) (bit_clear (bl_view M s (BBLOCK a (sb_ninodes sb))) (a mod BPB)) s s' ->
  forall b, 0 <= b < sb_size sb -> free s' sb b <-> free s sb b \/ b = a.
Proof.
  intros Hr Ha [[I1 T1 H1 D1 V1 L1] _] b Hb. pose proof (rdy_layout _ _ Hr) as Hl.
  assert (Hd := proj1 (law_wf s (BBLOCK a (sb_ninodes sb)) (rdy_inv _ _ Hr))).
  rewrite (free_upd s s' sb a true (bit_clear (bl_view M s (BBLOCK a (sb_ninodes sb))) (a mod BPB)) Hl (rdy_inv _ _ Hr)); [|lia|done| | |done].
  - destruct (decide (b = a)) as [->|]; naive_solver.
  - intros b' Hb'. by rewrite V1 by (pose proof (BBLOCK_val _ _ _ Hl Hb'); lia).
  - intros j Hj. apply bit_clear_spec; [|done]. rewrite Hd. apply mod_in_block.
Qed.
End alloc.

(** ** Claims *)

Section claims.
Context {B : Type} `{HL : BlockLaws B M}.

(** [balloc] returns the first free block of the bitmap: it is marked as in
    use, it is zeroed, and nothing else changes, neither the state of another
    block nor the contents of a block other than that and the one of the
    bitmap. *)
Theorem balloc_correct s sb a : ready (M := M) s sb -> bl_txn M s -> room (M := M) 3 s -> lroom (M := M) 2 s ->
  0 <= a < bl_limit M s -> free (M := M) s sb a -> (forall b, 0 <= b < a -> ~ free (M := M) s sb b) ->
  wp (balloc ROOTDEV) (fun r s' => r = a /\ bl_view M s' a = replicate BSIZE 0 /\
    (forall b, 0 <= b < sb_size sb -> free (M := M) s' sb b <-> free (M := M) s sb b /\ b <> a) /\
    (forall k, 0 <= k < bl_limit M s -> k <> a -> k <> BBLOCK a (sb_ninodes sb) -> bl_view M s' k = bl_view M s k)) s.
Proof.
  intros Hr Ht Hrm Hlr Ha Hf Hleast. eapply wp_mono; [eapply wp_balloc; eauto|]. intros r s' [-> Al].
  split; [done|]. destruct (proj1 Al) as [_ _ _ _ V _]. split; [by rewrite V, decide_True by done|]. split; [by eapply allocated_free|].
  intros k Hk H1 H2. by rewrite V, !decide_False by done.
Qed.

(** [bfree] frees a block that is in use, changing neither another block's
    state nor any contents but the bitmap's, and panics on one that is free
    already. *)
Theorem bfree_correct s sb a : ready (M := M) s sb -> bl_txn M s -> room (M := M) 2 s -> lroom (M := M) 1 s -> 0 <= a < sb_size sb ->
  (free (M := M) s sb a -> exists s', bfree ROOTDEV a s = Panicked "freeing free block" s') /\
  (~ free (M := M) s sb a -> wp (bfree ROOTDEV a) (fun _ s' =>
    (forall b, 0 <= b < sb_size sb -> free (M := M) s' sb b <-> free (M := M) s sb b \/ b = a) /\
    (forall k, 0 <= k < bl_limit M s -> k <> BBLOCK a (sb_ninodes sb) -> bl_view M s' k = bl_view M s k)) s).
Proof.
  intros Hr Ht Hrm Hlr Ha. split; [by apply bfree_double|]. intros Hn. eapply wp_mono; [by apply wp_bfree|].
  intros ? s' U. split; [by eapply freed_free|]. intros k Hk Hne. destruct (proj1 U) as [_ _ _ _ V _]. by rewrite V, decide_False by done.
Qed.
End claims.

(** ** A file system on a small disk *)

Module FsWitness.
(** 100 blocks, of which the last ten are the log, 16 inodes, and blocks 0 to
    59 in use. *)
Definition sbblk : block := putn 4 0 100 (putn 4 4 84 (putn 4 8 16 (putn 4 12 10 (replicate BSIZE 0)))).
Definition bitmap (n : Z) : block := fold_left bit_set (seqZ 0 n) (replicate BSIZE 0).
Definition sb : superblock := {| sb_size := 100; sb_nblocks := 84; sb_ninodes := 16; sb_nlog := 10 |}.
(** The blocks of a disk with these contents. *)
Definition mkdisk (f : Z -> block) (x : Z) : block :=
  if x =? lba 1 then sbblk else if x =? lba 5 then bitmap 60 else if (lba 20 <=? x) && (x <? lba 60) then f (x - lba 0) else replicate BSIZE 0.

Section boot.
Context (f : Z -> block) (Hf : forall k, wfblock (f k)).
Definition cache0 : bcache :=
  {| bc_lock := false; bufs := replicate (S NBUF) null_buf; usblock := false; usb_ready := true;
     disk := mkdisk f; writes := []; faults := []; wakes := [] |}.
Definition kernel0 : blk :=
  {| lg := {| lg_lock := false; lg_start := 0; lg_size := 0; lg_busy := false; lg_dev := 0;
              lg_lh := {| lh_n := 0; lh_sector := replicate (Z.to_nat LOGSIZE) 0 |}; lg_wakes := 0 |};
     bc := binit cache0 |}.
(** Boot, and begin a transaction. *)
Definition booted : blk := kfinal (initlog ;; begin_trans) kernel0.

Lemma mkdisk_wf k : wfblock (mkdisk f k).
Proof.
  unfold mkdisk. repeat case_match; try done; try apply wf_zeros.
  - split; [vm_compute; reflexivity|]. repeat apply putn_bytes. apply wf_zeros.
  - apply (bool_decide_unpack (wfblock (bitmap 60))). vm_compute. done.
Qed.
Definition boot_state (s : blk) : Prop :=
  linv s /\ lg_busy (lg s) = true /\ hset (bc s) = ∅ /\ dset (bc s) = ∅ /\ lg_start (lg s) = 90 /\
  forall k, 0 <= k < 90 -> vw (bc s) k = mkdisk f (lba k).
Lemma header_empty : mkdisk f (lba 90) = replicate BSIZE 0.
Proof. done. Qed.
Lemma boot_ok : wp (initlog ;; begin_trans) (fun _ s => boot_state s) kernel0.
Proof.
  kstep. eapply wp_mono; [apply (initlog_spec (mkdisk f) kernel0 90 10)|].
  - split; [exists cache0; by split_and!|done|done].
  - apply mkdisk_wf.
  - change (sb_log (mkdisk f) 90 10) with (sb_log (fun _ => sbblk) 90 10). split_and!; vm_compute; done.
  - rewrite header_empty. split; [vm_compute; split; discriminate|]. vm_compute. constructor.
  - intros _ s (I & S & Bz & H & D & V). rewrite header_empty in V. eapply wp_mono; [by apply begin_trans_spec|].
    intros _ s' (I' & B' & E' & S' & _ & _). unfold boot_state. rewrite E', S'. split_and!; try done.
Qed.
Lemma booted_ok : boot_state booted.
Proof. exact (wp_final _ _ kernel0 boot_ok). Qed.

Lemma boot_free s b : boot_state s -> 0 <= b < 100 -> free (M := log_model) s sb b <-> 60 <= b.
Proof.
  intros (_ & _ & _ & _ & _ & V) Hb. unfold free. cbn [bl_view log_model].
  assert (BBLOCK b (sb_ninodes sb) = 5 /\ b mod BPB = b) as [-> ->].
  { unfold BBLOCK, BPB, sb. cbn [sb_ninodes]. change (NINODEBLOCKS 16) with 2. rewrite u32_small; dlia. }
  rewrite V by lia. change (mkdisk f (lba 5)) with (bitmap 60).
  assert (Hc : forallb (fun b => eqb (bit_free (bitmap 60) b) (60 <=? b)) (seqZ 0 100) = true) by (vm_compute; reflexivity).
  rewrite forallb_forall in Hc. specialize (Hc b). rewrite eqb_true_iff in Hc. rewrite Hc; [apply Z.leb_le|].
  apply list_elem_of_In, elem_of_seqZ. lia.
Qed.
Lemma boot_ready s : boot_state s -> ready (M := log_model) s sb.
Proof.
  clear Hf. intros Hb. pose proof Hb as (I & T & H & D & L & V). split; cbn [bl_inv bl_view bl_limit bl_held log_model]; rewrite ?H.
  - done.
  - rewrite V by lia. vm_compute. reflexivity.
  - rewrite L. split; vm_compute; split || idtac; congruence.
  - set_solver.
  - set_solver.
  - set_solver.
  - intros k Hk. change (NINODEBLOCKS (sb_ninodes sb) + 3 + (sb_size sb - 1) / BPB) with 5 in Hk. rewrite boot_free by (done || lia). lia.
Qed.
Lemma boot_room n s : boot_state s -> (n <= 9)%nat -> room (M := log_model) n s /\ lroom (M := log_model) n s.
Proof.
  intros (I & T & H & D & L & V) Hn. unfold room, lroom. cbn [bl_held bl_logged log_model]. rewrite H, D, union_empty_l_L, size_empty.
  unfold NBUF, MAXTXN. lia.
Qed.
End boot.
End FsWitness.

Lemma balloc_correct_witness : wp (balloc ROOTDEV) (fun r s' => r = 60 /\ bl_view log_model s' 60 = replicate BSIZE 0) (FsWitness.booted (fun _ => replicate BSIZE 7)).
Proof.
  pose proof (FsWitness.booted_ok (fun _ => replicate BSIZE 7) (fun _ => BioWitness.wf_replicate 7 ltac:(lia))) as Hb.
  set (s := FsWitness.booted _) in *. clearbody s. destruct (FsWitness.boot_room _ 3 s Hb ltac:(lia)) as [Hr Hl].
  eapply wp_mono; [apply (balloc_correct s FsWitness.sb 60 (FsWitness.boot_ready _ s Hb))|].
  - apply Hb.
  - done.
  - eapply lroom_weaken; [|exact Hl]. lia.
  - destruct Hb as (_ & _ & _ & _ & L & _). cbn [bl_limit log_model]. rewrite L. lia.
  - rewrite (FsWitness.boot_free _ _ _ Hb); lia.
  - intros b Hlt. rewrite (FsWitness.boot_free _ _ _ Hb); lia.
  - intros r s' (H1 & H2 & _). by split.
Defined.

Lemma bfree_correct_witness :
  wp (bfree ROOTDEV 59) (fun _ s' => free (M := log_model) s' FsWitness.sb 59) (FsWitness.booted (fun _ => replicate BSIZE 7)) /\
  exists s', bfree ROOTDEV 60 (FsWitness.booted (fun _ => replicate BSIZE 7)) = Panicked "freeing free block" s'.
Proof.
  pose proof (FsWitness.booted_ok (fun _ => replicate BSIZE 7) (fun _ => BioWitness.wf_replicate 7 ltac:(lia))) as Hb.
  set (s := FsWitness.booted _) in *. clearbody s. destruct (FsWitness.boot_room _ 2 s Hb ltac:(lia)) as [Hr Hl].
  pose proof (lroom_weaken (M := log_model) 2 1 s ltac:(lia) Hl) as Hl1. pose proof (fun a => bfree_correct s FsWitness.sb a (FsWitness.boot_ready _ s Hb)) as Hc.
  assert (T : bl_txn log_model s) by apply Hb. split.
  - destruct (Hc 59 T Hr Hl1 ltac:(split; done)) as [_ Hw]. eapply wp_mono.
    + apply Hw. rewrite (FsWitness.boot_free _ _ _ Hb); lia.
    + intros ? s' [Hfr _]. apply Hfr; [split; done|by right].
  - destruct (Hc 60 T Hr Hl1 ltac:(split; done)) as [Hw _]. apply Hw. rewrite (FsWitness.boot_free _ _ _ Hb); lia.
Defined.
