(* ===== verification/FsFile.v ===== *)
(** * Inodes and file contents (kernel/fs.c)

    The disk form of an inode, the map from the blocks of a file to the blocks
    of the disk, and [readi] and [writei] over it. *)

From Stdlib Require Import ZArith Lia.
From S2P Require Import Prelude KString Spinlock Bytes Bio BlockLayer Log Fs.

(** ** The disk form of an inode *)

Record wf_inode (i : inode) : Prop := {
  wi_type : - 2 ^ 15 <= itype i < 2 ^ 15;
  wi_major : - 2 ^ 15 <= major i < 2 ^ 15;
  wi_minor : - 2 ^ 15 <= minor i < 2 ^ 15;
  wi_nlink : - 2 ^ 15 <= nlink i < 2 ^ 15;
  wi_size : 0 <= isize i < 2 ^ 32;
  wi_len : length (addrs i) = 13%nat;
  wi_addrs : Forall (fun a => 0 <= a < 2 ^ 32) (addrs i);
}.

Lemma s16_mod x : - 2 ^ 15 <= x < 2 ^ 15 -> s16 (x mod 2 ^ (8 * Z.of_nat 2)) = x.
Proof. intros Hx. change (2 ^ (8 * Z.of_nat 2)) with (2 ^ 16). unfold s16, u16. zcases; dlia. Qed.

Lemma concat_words_len l : length (concat (le_enc 4 <$> l)) = (4 * length l)%nat.
Proof. induction l as [|x l IH]; [done|]. cbn [concat fmap list_fmap length]. rewrite length_app, IH, le_enc_len. lia. Qed.

Lemma concat_words_slice l : forall j x, l !! j = Some x -> slice (4 * j) 4 (concat (le_enc 4 <$> l)) = le_enc 4 x.
Proof.
  induction l as [|y l IH]; intros j x Hj; [done|]. cbn [concat fmap list_fmap]. unfold slice. destruct j as [|j]; simpl in Hj.
  - injection Hj as ->. rewrite Nat.mul_0_r, drop_0, take_app_le by (rewrite le_enc_len; lia). apply take_ge. rewrite le_enc_len. lia.
  - rewrite <- (IH j x Hj). unfold slice. f_equal. rewrite drop_app_ge by (rewrite le_enc_len; lia). f_equal. rewrite le_enc_len. lia.
Qed.

Lemma concat_words_bytes l : bytes (concat (le_enc 4 <$> l)).
Proof. unfold bytes. apply Forall_concat, Forall_fmap, Forall_true. intros x. apply le_enc_bytes. Qed.

(** The words of [store_dinode] before the addresses. *)
Definition store_head (off : nat) (i : inode) (d : block) : block :=
  putn 4 (off + 8) (isize i) (putn 2 (off + 6) (nlink i) (putn 2 (off + 4) (minor i) (putn 2 (off + 2) (major i) (putn 2 off (itype i) d)))).

Lemma store_dinode_eq off i d : store_dinode off i d = splice (off + 12) (concat (le_enc 4 <$> addrs i)) (store_head off i d).
Proof. done. Qed.

Lemma s32_id x : - 2 ^ 31 <= x < 2 ^ 31 -> s32 x = x.
Proof. intros Hx. unfold s32, u32. cbv zeta. zcases; dlia. Qed.

(** Bounds on the length of a block with some words stored into it. *)
Ltac plen := repeat match goal with |- context [length (putn ?n ?o ?v ?x)] => rewrite (putn_len n o v x) by plen end; lia.

Section dinode.
Context (off : nat) (i : inode) (d : block).
Hypotheses (Hoff : (off + 64 <= length d)%nat) (Hw : wf_inode i).

Lemma store_head_len : length (store_head off i d) = length d.
Proof. unfold store_head. by plen. Qed.

Lemma addrs_fit : (off + 12 + length (concat (le_enc 4 <$> addrs i)) <= length (store_head off i d))%nat.
Proof. rewrite concat_words_len, store_head_len, (wi_len _ Hw). lia. Qed.

Lemma store_dinode_len : length (store_dinode off i d) = length d.
Proof. rewrite store_dinode_eq, splice_len; [apply store_head_len|apply addrs_fit]. Qed.

(** A field before the addresses. *)
Lemma get_head n o : (n + o <= off + 12)%nat -> getn n o (store_dinode off i d) = getn n o (store_head off i d).
Proof. intros Ho. rewrite store_dinode_eq. unfold getn. rewrite slice_splice_other; [done|apply addrs_fit|lia]. Qed.

Lemma load_store_dinode j : load_dinode off (store_dinode off i d) j =
  {| i_dev := i_dev j; inum := inum j; ref := ref j; i_busy := i_busy j; i_valid := i_valid j; itype := itype i;
     major := major i; minor := minor i; nlink := nlink i; isize := isize i; addrs := addrs i |}.
Proof.
  unfold load_dinode, dinode_type. rewrite !get_head by lia. unfold store_head.
  pose proof Hw as [W1 W2 W3 W4 W5 W6 W7].
  f_equal.
  - do 4 rewrite getn_putn_other by plen. rewrite getn_putn_same by lia. by apply s16_mod.
  - do 3 rewrite getn_putn_other by plen.
    rewrite getn_putn_same by plen. by apply s16_mod.
  - do 2 rewrite getn_putn_other by plen.
    rewrite getn_putn_same by plen. by apply s16_mod.
  - rewrite getn_putn_other by plen.
    rewrite getn_putn_same by plen. by apply s16_mod.
  - rewrite getn_putn_same by plen. apply Z.mod_small. done.
  - apply list_eq. intros n. rewrite list_lookup_fmap. destruct (decide (n < 13)%nat) as [Hn|Hn].
    + rewrite lookup_seq_lt by done. simpl. destruct (lookup_lt_is_Some_2 (addrs i) n) as [x Hx]; [lia|]. rewrite Hx. f_equal.
      rewrite store_dinode_eq. unfold getn. pose proof addrs_fit. rewrite slice_splice_in; [|done|lia|rewrite concat_words_len, W6; lia].
      replace (off + 12 + (n + (n + (n + (n + 0)))) - (off + 12))%nat with (4 * n)%nat by lia.
      rewrite (concat_words_slice _ _ x Hx), le_dec_enc. apply Z.mod_small. rewrite Forall_lookup in W7. apply (W7 n x Hx).
    + rewrite lookup_ge_None_2 by (rewrite length_seq; lia). rewrite lookup_ge_None_2 by lia. done.
Qed.

Lemma store_head_other n o : (n + o <= off \/ off + 64 <= o)%nat -> getn n o (store_head off i d) = getn n o d.
Proof. intros Ho. unfold store_head. do 5 (rewrite getn_putn_other by plen). done. Qed.

Lemma get_store_other n o : (n + o <= off \/ off + 64 <= o)%nat -> getn n o (store_dinode off i d) = getn n o d.
Proof.
  intros Ho. rewrite store_dinode_eq. unfold getn at 1. pose proof addrs_fit. rewrite slice_splice_other; [|done|].
  - by apply store_head_other.
  - rewrite concat_words_len, (wi_len _ Hw). lia.
Qed.

(** The other inodes of the block are as before. *)
Lemma load_store_other off' j : (off' + 64 <= off \/ off + 64 <= off')%nat ->
  load_dinode off' (store_dinode off i d) j = load_dinode off' d j.
Proof.
  intros Ho. unfold load_dinode, dinode_type. rewrite !get_store_other by lia. f_equal.
  apply list_fmap_ext. intros n x [-> Hx]%lookup_seq. rewrite get_store_other by lia. done.
Qed.
End dinode.

Lemma store_dinode_wf off i d : (off + 64 <= BSIZE)%nat -> wf_inode i -> wfblock d -> wfblock (store_dinode off i d).
Proof.
  intros Ho Hw [Hl Hb]. split; [by rewrite store_dinode_len by (rewrite ?Hl; done)|].
  rewrite store_dinode_eq. apply splice_bytes; [apply concat_words_bytes|]. unfold store_head. by repeat apply putn_bytes.
Qed.

Lemma dinode_off_fits n : (dinode_off n + 64 <= BSIZE)%nat.
Proof. unfold dinode_off, IPB, BSIZE. dlia. Qed.

(** ** Blocks from the inode layer *)

Section file.
Context {B : Type} `{HL : BlockLaws B M}.
Abbreviation fs := (fs B).
Implicit Types s : fs.

Lemma wp_inblk {A} (m : K B A) (Q : A -> fs -> Prop) s :
  wp m (fun a b => Q a (set_fblk b s)) (fblk s) -> wp (inblk m) Q s.
Proof. apply wp_zoom. Qed.

Lemma wp_ret_r {A} (m : K fs A) Q s : wp (x <- m ;; kret x) Q s -> wp m Q s.
Proof. unfold wp, kbind. by destruct (m s). Qed.
Lemma wp_fbread {A} (F : nat -> K fs A) Q s k :
  bl_inv M (fblk s) -> 0 <= k < bl_limit M (fblk s) -> k ∉ bl_held M (fblk s) -> room (M := M) 1 (fblk s) ->
  (forall bp b1, opened (M := M) (fblk s) k bp b1 -> wp (F bp) Q (set_fblk b1 s)) ->
  wp (bp <- inblk (bl_bread ROOTDEV k) ;; F bp) Q s.
Proof.
  intros Hi Hk Hn Hr HQ. kstep. apply wp_inblk. eapply wp_mono; [by apply law_bread, room_add|].
  intros bp b1 (B1 & L1 & S1 & K1). by apply HQ.
Qed.
Lemma wp_frd {A} (F : block -> K fs A) Q s k bp b1 : opened (M := M) (fblk s) k bp b1 ->
  wp (F (bl_view M (fblk s) k)) Q (set_fblk b1 s) -> wp (d <- inblk (rd bp) ;; F d) Q (set_fblk b1 s).
Proof.
  intros [Hi Hk Hn [I1 T1 H1 D1 V1 M1] L1 S1 K1] HQ. kstep. apply wp_inblk, wp_gets.
  cbn [fblk set_fblk]. rewrite (law_data b1 bp k), V1 by done. exact HQ.
Qed.
Lemma wp_fopen {A} (F : block -> nat -> K fs A) Q s k :
  bl_inv M (fblk s) -> 0 <= k < bl_limit M (fblk s) -> k ∉ bl_held M (fblk s) -> room (M := M) 1 (fblk s) ->
  (forall bp b1, opened (M := M) (fblk s) k bp b1 -> wp (F (bl_view M (fblk s) k) bp) Q (set_fblk b1 s)) ->
  wp (bp <- inblk (bl_bread ROOTDEV k) ;; d <- inblk (rd bp) ;; F d bp) Q s.
Proof.
  intros Hi Hk Hn Hr HQ. apply (wp_fbread (fun bp => d <- inblk (rd bp) ;; F d bp)); [done..|].
  intros bp b1 Ho. apply (wp_frd (fun d => F d bp) Q s k); auto.
Qed.

Lemma wp_fclose {A} (rest : K fs A) Q s k bp b1 : opened (M := M) (fblk s) k bp b1 ->
  (forall b, bsame (M := M) (fblk s) b -> wp rest Q (set_fblk b s)) -> wp (inblk (bl_brelse bp) ;; rest) Q (set_fblk b1 s).
Proof.
  intros [Hi Hk Hn B1 L1 S1 K1] HQ. kstep. apply wp_inblk. eapply wp_mono; [apply law_brelse; [apply B1|done..]|].
  intros _ b2 (B2 & K2). apply (HQ b2). by eapply bread_brelse_same.
Qed.

Lemma wp_flog_close {A} (rest : K fs A) Q s k bp b1 d : opened (M := M) (fblk s) k bp b1 -> bl_txn M (fblk s) ->
  room (M := M) 2 (fblk s) -> lroom (M := M) 1 (fblk s) -> wfblock d ->
  (forall b, bupd (M := M) k d (fblk s) b -> wp rest Q (set_fblk b s)) ->
  wp (inblk (wr bp d) ;; inblk (bl_log_write bp) ;; inblk (bl_brelse bp) ;; rest) Q (set_fblk b1 s).
Proof.
  intros Ho Ht Hr Hl Hd HQ. kstep. apply wp_inblk, wp_modify. kstep. apply wp_inblk. cbn [fblk set_fblk].
  pose proof (wp_log_close (kret tt) (fun _ b => wp rest Q (set_fblk b s)) (fblk s) k bp b1 d Ho Ht Hr Hl Hd HQ) as Hw.
  unfold wr in Hw. apply wp_done in Hw as (u & b & Hw & HQb). unfold kbind, kmodify, kret in Hw.
  destruct (bl_log_write bp (bl_put bp d b1)) as [[] b2| |] eqn:E2; try done.
  destruct (bl_brelse bp b2) as [[] b3| |] eqn:E3; try done. injection Hw as _ ->.
  apply wp_done. exists tt, b2. split; [done|]. kstep. apply wp_inblk, wp_done. exists tt, b. done.
Qed.

(** A block is read and given back. *)
Lemma wp_fread {A} (rest : block -> K fs A) Q s k :
  bl_inv M (fblk s) -> 0 <= k < bl_limit M (fblk s) -> k ∉ bl_held M (fblk s) -> room (M := M) 1 (fblk s) ->
  (forall b, bsame (M := M) (fblk s) b -> wp (rest (bl_view M (fblk s) k)) Q (set_fblk b s)) ->
  wp (bp <- inblk (bl_bread ROOTDEV k) ;; d <- inblk (rd bp) ;; inblk (bl_brelse bp) ;; rest d) Q s.
Proof. intros Hi Hk Hn Hr HQ. apply (wp_fopen (fun d bp => inblk (bl_brelse bp) ;; rest d)); [done..|]. intros bp b1 Ho. by eapply wp_fclose. Qed.

(** A block is changed, logged and given back. *)
Lemma wp_fupdate {A} (f : block -> block) (rest : K fs A) Q s k :
  bl_inv M (fblk s) -> bl_txn M (fblk s) -> 0 <= k < bl_limit M (fblk s) -> k ∉ bl_held M (fblk s) ->
  room (M := M) 2 (fblk s) -> lroom (M := M) 1 (fblk s) -> wfblock (f (bl_view M (fblk s) k)) ->
  (forall b, bupd (M := M) k (f (bl_view M (fblk s) k)) (fblk s) b -> wp rest Q (set_fblk b s)) ->
  wp (bp <- inblk (bl_bread ROOTDEV k) ;; d <- inblk (rd bp) ;; inblk (wr bp (f d)) ;; inblk (bl_log_write bp) ;;
      inblk (bl_brelse bp) ;; rest) Q s.
Proof.
  intros Hi Ht Hk Hn Hr Hl Hd HQ.
  apply (wp_fopen (fun d bp => inblk (wr bp (f d)) ;; inblk (bl_log_write bp) ;; inblk (bl_brelse bp) ;; rest)); [done..| |].
  - by eapply room_weaken; [|exact Hr]; lia.
  - intros bp b1 Ho. by eapply wp_flog_close.
Qed.

Lemma iat_upd s ip jp f : (ip < length (icache s))%nat -> iat (upd_inode ip f s) jp = if decide (jp = ip) then f (iat s ip) else iat s jp.
Proof.
  intros Hi. unfold iat, upd_inode. cbn [icache]. rewrite !nth_lookup. destruct (decide (jp = ip)) as [->|Hne].
  - rewrite list_lookup_alter_eq. destruct (lookup_lt_is_Some_2 (icache s) ip Hi) as [x ->]. done.
  - by rewrite list_lookup_alter_ne.
Qed.

(** ** [iupdate] and [ilock] *)

(** The inode at [ip] is inode [n] of the root device, a block of which its
    disk form is in. *)
Record inode_at s (ip : nat) (n : Z) : Prop := {
  ia_slot : (ip < length (icache s))%nat;
  ia_dev : i_dev (iat s ip) = ROOTDEV;
  ia_inum : inum (iat s ip) = n;
  ia_block : 0 <= IBLOCK n < bl_limit M (fblk s);
}.

Lemma wp_iupdate s ip n : inode_at s ip n -> wf_inode (iat s ip) -> bl_inv M (fblk s) -> bl_txn M (fblk s) ->
  IBLOCK n ∉ bl_held M (fblk s) -> room (M := M) 2 (fblk s) -> lroom (M := M) 1 (fblk s) ->
  wp (iupdate ip) (fun _ s' => exists b, s' = set_fblk b s /\
    bupd (M := M) (IBLOCK n) (store_dinode (dinode_off n) (iat s ip) (bl_view M (fblk s) (IBLOCK n))) (fblk s) b) s.
Proof.
  intros [H1 H2 H3 H4] Hw Hi Ht Hn Hr Hl. unfold iupdate. kstep. kstep. rewrite H2, H3.
  pose proof (wp_fupdate (store_dinode (dinode_off n) (iat s ip)) (kret tt) (fun _ s' => exists b, s' = set_fblk b s /\
    bupd (M := M) (IBLOCK n) (store_dinode (dinode_off n) (iat s ip) (bl_view M (fblk s) (IBLOCK n))) (fblk s) b) s (IBLOCK n)) as Hu.
  enough (Hx : wp (bp <- inblk (bl_bread ROOTDEV (IBLOCK n)) ;; d <- inblk (rd bp) ;; inblk (wr bp (store_dinode (dinode_off n) (iat s ip) d)) ;;
     inblk (bl_log_write bp) ;; inblk (bl_brelse bp) ;; kret tt) (fun _ s' => exists b, s' = set_fblk b s /\
    bupd (M := M) (IBLOCK n) (store_dinode (dinode_off n) (iat s ip) (bl_view M (fblk s) (IBLOCK n))) (fblk s) b) s).
  { unfold wp, kbind, kret in *. destruct (inblk (bl_bread _ _) s) as [bp s1| |]; try done. destruct (inblk (rd bp) s1) as [d s2| |]; try done.
    destruct (inblk (wr bp _) s2) as [? s3| |]; try done. destruct (inblk (bl_log_write bp) s3) as [? s4| |]; try done.
    by destruct (inblk (bl_brelse bp) s4). }
  apply Hu; try done; [apply store_dinode_wf; [apply dinode_off_fits|done|by apply law_wf]|]. intros b U. kstep. eauto.
Qed.

(** The fields [ilock] reads from the disk. *)
Definition dfields (i : inode) : Z * Z * Z * Z * Z * list Z := (itype i, major i, minor i, nlink i, isize i, addrs i).

Lemma wp_ilock_load s ip n : inode_at s ip n -> ic_lock s = false -> 1 <= ref (iat s ip) -> i_busy (iat s ip) = false ->
  i_valid (iat s ip) = false -> bl_inv M (fblk s) -> IBLOCK n ∉ bl_held M (fblk s) -> room (M := M) 1 (fblk s) ->
  let i := load_dinode (dinode_off n) (bl_view M (fblk s) (IBLOCK n)) (iat s ip) in itype i <> 0 ->
  wp (ilock ip) (fun _ s' => bsame (M := M) (fblk s) (fblk s') /\ iat s' ip = set_iflags true true i /\
    (forall jp, jp <> ip -> iat s' jp = iat s jp) /\ ic_lock s' = false /\ length (icache s') = length (icache s)) s.
Proof.
  intros [H1 H2 H3 H4] Hlk Href Hb Hv Hi Hn Hr i Hty. unfold ilock. kstep. kstep. destruct (Z.ltb_spec (ref (iat s ip)) 1); [lia|].
  kstep. apply wp_acquire; [done|]. rewrite Hb, Hv, H2, H3. kstep. kstep. kstep. apply wp_release; [done|].
  set (s1 := upd_inode ip (fun i => set_iflags true (i_valid i) i) s).
  match goal with |- wp _ _ ?x => change x with (set_held tt false (set_held tt true s1)) end.
  replace (set_held tt false (set_held tt true s1)) with s1 by (unfold s1, upd_inode; rewrite <- Hlk at 1; by destruct s).
  apply (wp_fopen (fun d bp => kmodify (upd_inode ip (load_dinode (dinode_off n) d)) ;; inblk (bl_brelse bp) ;; _)); [done..|].
  intros bp b1 Ho. kstep. kstep. set (s2 := upd_inode ip (load_dinode (dinode_off n) (bl_view M (fblk s) (IBLOCK n))) s1).
  match goal with |- wp _ _ ?x => change x with (set_fblk b1 s2) end.
  eapply wp_fclose; [exact Ho|]. intros b Hs. kstep. kstep. kstep. kstep.
  assert (L2 : (ip < length (icache (set_fblk b s2)))%nat) by (cbn [icache s2 s1 set_fblk upd_inode]; by rewrite !length_alter).
  assert (E1 : forall jp, iat (set_fblk b s2) jp = if decide (jp = ip) then load_dinode (dinode_off n) (bl_view M (fblk s) (IBLOCK n)) (set_iflags true (i_valid (iat s ip)) (iat s ip)) else iat s jp).
  { intros jp. change (iat (set_fblk b s2) jp) with (iat s2 jp). unfold s2. rewrite iat_upd by (cbn [icache s1 upd_inode]; by rewrite length_alter).
    case_decide; [|by unfold s1; rewrite iat_upd, decide_False by done]. unfold s1. by rewrite iat_upd, decide_True by done. }
  rewrite (iat_upd _ ip ip), decide_True, E1, decide_True by done.
  replace (itype _ =? 0) with false by (symmetry; apply Z.eqb_neq; exact Hty). kstep.
  split; [exact Hs|]. split; [by rewrite iat_upd, decide_True, E1, decide_True by done|].
  split; [intros jp Hj; by rewrite iat_upd, decide_False, E1, decide_False by done|].
  split; [done|]. cbn [icache s2 s1 set_fblk upd_inode]. by rewrite !length_alter.
Qed.

(** ** Where a file's blocks are *)

(** Slot [n] of the block of addresses at [a], if there is one. *)
Definition slot (V : Z -> block) (a n : Z) : Z := if a =? 0 then 0 else aref (V a) n.
Definition ind_of (i : inode) : Z := nth (Z.to_nat NDIRECT) (addrs i) 0.
Definition dind_of (i : inode) : Z := nth (Z.to_nat (NDIRECT + 1)) (addrs i) 0.

(** The blocks of addresses block [bn] of a file is reached through, and where
    it is; 0 where there is none. *)
Definition bpath (V : Z -> block) (i : inode) (bn : Z) : list Z :=
  if bn <? NDIRECT then []
  else if bn <? NDIRECT + NINDIRECT then [ind_of i]
  else if bn <? MAXFILE then [dind_of i; slot V (dind_of i) ((bn - NDIRECT - NINDIRECT) / NINDIRECT)]
  else [].
Definition baddr (V : Z -> block) (i : inode) (bn : Z) : Z :=
  if bn <? NDIRECT then nth (Z.to_nat bn) (addrs i) 0
  else if bn <? NDIRECT + NINDIRECT then slot V (ind_of i) (bn - NDIRECT)
  else if bn <? MAXFILE then
    let x := bn - NDIRECT - NINDIRECT in slot V (slot V (dind_of i) (x / NINDIRECT)) (x mod NINDIRECT)
  else 0.

(** The addresses on the way are of blocks of the device nobody holds, and a
    block of addresses is not its own parent. *)
Definition usable (s : B) (a : Z) : Prop := a = 0 \/ 0 <= a < bl_limit M s /\ a ∉ bl_held M s.
Record reachable (s : B) (i : inode) (bn : Z) : Prop := {
  re_path : Forall (usable s) (bpath (bl_view M s) i bn);
  re_addr : usable s (baddr (bl_view M s) i bn);
  re_nodup : NoDup (filter (fun a => a <> 0) (bpath (bl_view M s) i bn));
}.

Lemma opened_same (s : B) k bp (s1 s2 : B) : opened (M := M) s k bp s1 -> bsame (M := M) s1 s2 -> opened (M := M) s k bp s2.
Proof.
  intros [Hi Hk Hn [I1 T1 H1 D1 V1 L1] Hl Hs [K1 S1]] [[I2 T2 H2 D2 V2 L2] [K2 S2]].
  split; [done..|split; try congruence| | |split].
  - by rewrite T2.
  - intros k' Hk'. rewrite V2 by (by rewrite L1). by apply V1.
  - by apply K2.
  - apply S2; [done|by rewrite L1|done].
  - auto.
  - intros k' _ Hk' Hs'. apply S2; [done|by rewrite L1|auto].
Qed.

Lemma opened_room n (s : B) k bp (s1 : B) : opened (M := M) s k bp s1 -> room (M := M) (S n) s -> room (M := M) n s1.
Proof.
  intros [_ _ _ [_ _ H1 D1 _ _] _ _ _]. unfold room. rewrite H1, D1, <- union_assoc_L, (size_union_alt {[k]}), size_singleton.
  pose proof (subseteq_size ((bl_held M s ∪ bl_logged M s) ∖ {[k]}) (bl_held M s ∪ bl_logged M s) ltac:(clear; set_solver)). lia.
Qed.

(** The post-condition of a lookup: nothing the client sees has changed. *)
Definition bres (s : fs) (a : Z) : Z -> fs -> Prop :=
  fun r s' => r = a /\ exists b, s' = set_fblk b s /\ bsame (M := M) (fblk s) b.

Lemma wp_bmap_read s ip bn : i_dev (iat s ip) = ROOTDEV -> bl_inv M (fblk s) -> room (M := M) 2 (fblk s) ->
  reachable (fblk s) (iat s ip) bn ->
  wp (bmap_read ip bn) (bres s (baddr (bl_view M (fblk s)) (iat s ip) bn)) s.
Proof.
  intros Hd Hi Hr [Hp Ha Hnd]. unfold bmap_read. kstep. kstep. rewrite Hd.
  pose proof (room_weaken (M := M) 2 1 (fblk s) ltac:(lia) Hr) as Hr1.
  unfold bpath, baddr in *. fold (ind_of (iat s ip)) (dind_of (iat s ip)).
  assert (Hs0 : bsame (M := M) (fblk s) (fblk s)) by by apply bsame_refl.
  assert (E0 : s = set_fblk (fblk s) s) by by destruct s.
  destruct (Z.ltb_spec bn NDIRECT) as [H1|H1]; [kstep; split; eauto|].
  replace (bn - NDIRECT <? NINDIRECT) with (bn <? NDIRECT + NINDIRECT) by (apply eq_true_iff_eq; rewrite !Z.ltb_lt; lia).
  destruct (Z.ltb_spec bn (NDIRECT + NINDIRECT)) as [H2|H2].
  { unfold slot in *. rewrite Forall_singleton in Hp. destruct (Z.eqb_spec (ind_of (iat s ip)) 0) as [E|E]; [kstep; split; eauto|].
    destruct Hp as [?|[Hp1 Hp2]]; [done|]. apply (wp_fread (fun d => kret (aref d (bn - NDIRECT)))); [done..|].
    intros b Hb. kstep. split; eauto. }
  replace (bn - NDIRECT - NINDIRECT <? NDINDIRECT) with (bn <? MAXFILE) by (apply eq_true_iff_eq; rewrite !Z.ltb_lt; unfold MAXFILE; lia).
  destruct (Z.ltb_spec bn MAXFILE) as [H3|H3]; [|kstep; split; eauto].
  set (x := bn - NDIRECT - NINDIRECT) in *. apply Forall_cons in Hp as [Hp Hq]. rewrite Forall_singleton in Hq.
  set (D := dind_of (iat s ip)) in *. unfold slot in Hq, Hnd |- * at 2.
  destruct (Z.eqb_spec D 0) as [E|E]; [kstep; split; eauto|].
  destruct Hp as [?|[Hp1 Hp2]]; [done|]. set (a := aref (bl_view M (fblk s) D) (x / NINDIRECT)) in *.
  apply (wp_fopen (fun d dbp => if aref d (x / NINDIRECT) =? 0 then inblk (bl_brelse dbp) ;; kret 0 else _)); [done..|].
  intros dbp b1 Ho. fold a. unfold slot. destruct (Z.eqb_spec a 0) as [Ea|Ea].
  { eapply wp_fclose; [exact Ho|]. intros b Hb. kstep. split; eauto. }
  destruct Hq as [?|[Hq1 Hq2]]; [done|]. pose proof Ho as [_ _ _ [I1 T1 Hh1 D1 V1 L1] _ _ _].
  assert (HaD : a <> D).
  { intros Hx. rewrite !filter_cons_True in Hnd by done. apply NoDup_cons in Hnd as [Hnd _]. rewrite Hx in Hnd. apply Hnd. left. }
  apply (wp_fread (fun d => inblk (bl_brelse dbp) ;; kret (aref d (x mod NINDIRECT)))).
  - done.
  - cbn [fblk set_fblk]. by rewrite L1.
  - cbn [fblk set_fblk]. rewrite Hh1. rewrite elem_of_union, elem_of_singleton. tauto.
  - eapply opened_room; [exact Ho|done].
  - cbn [fblk set_fblk]. intros b2 Hb2. rewrite V1 by done.
    match goal with |- wp _ _ ?y => change y with (set_fblk b2 s) end.
    eapply wp_fclose; [by eapply opened_same|]. intros b Hb. kstep. split; eauto.
Qed.

Lemma wp_bmap_slot {A} (F : Z -> K fs A) Q s ip k bp b1 n : opened (M := M) (fblk s) k bp b1 ->
  aref (bl_view M (fblk s) k) n <> 0 -> wp (F (aref (bl_view M (fblk s) k) n)) Q (set_fblk b1 s) ->
  wp (a <- bmap_slot ip bp n ;; F a) Q (set_fblk b1 s).
Proof.
  intros Ho Hne HQ. kstep. unfold bmap_slot. kstep. kstep. eapply wp_frd; [exact Ho|].
  destruct (Z.eqb_spec (aref (bl_view M (fblk s) k) n) 0); [done|]. by kstep.
Qed.
Lemma wp_bmap_addr {A} (F : Z -> K fs A) Q s ip n : nth n (addrs (iat s ip)) 0 <> 0 ->
  wp (F (nth n (addrs (iat s ip)) 0)) Q s -> wp (a <- bmap_addr ip n ;; F a) Q s.
Proof. intros Hne HQ. kstep. unfold bmap_addr. kstep. kstep. destruct (Z.eqb_spec (nth n (addrs (iat s ip)) 0) 0); [done|]. by kstep. Qed.

(** One level of address blocks, all of them present. *)
Lemma wp_bmap_level {A} (F : Z -> K fs A) Q s ip a n : bl_inv M (fblk s) -> room (M := M) 1 (fblk s) -> usable (fblk s) a ->
  slot (bl_view M (fblk s)) a n <> 0 ->
  (forall b, bsame (M := M) (fblk s) b -> wp (F (slot (bl_view M (fblk s)) a n)) Q (set_fblk b s)) ->
  wp (bp <- inblk (bl_bread ROOTDEV a) ;; r <- bmap_slot ip bp n ;; inblk (bl_brelse bp) ;; F r) Q s.
Proof.
  unfold slot. intros Hi Hr Hu Hne HQ. destruct (Z.eqb_spec a 0); [done|]. destruct Hu as [?|[Ha Hn]]; [done|].
  apply (wp_fbread (fun bp => r <- bmap_slot ip bp n ;; inblk (bl_brelse bp) ;; F r)); [done..|]. intros bp b1 Ho.
  apply (wp_bmap_slot (fun r => inblk (bl_brelse bp) ;; F r) Q s ip a bp b1 n); [done..|]. by eapply wp_fclose.
Qed.

Lemma wp_bmap_mapped s ip bn : i_dev (iat s ip) = ROOTDEV -> bl_inv M (fblk s) -> room (M := M) 1 (fblk s) ->
  reachable (fblk s) (iat s ip) bn -> baddr (bl_view M (fblk s)) (iat s ip) bn <> 0 ->
  wp (bmap ip bn) (bres s (baddr (bl_view M (fblk s)) (iat s ip) bn)) s.
Proof.
  intros Hd Hi Hr [Hp Ha Hnd] Hne. unfold bmap. kstep. kstep. rewrite Hd.
  unfold bpath, baddr in *. assert (Hs0 : bsame (M := M) (fblk s) (fblk s)) by by apply bsame_refl.
  assert (E0 : s = set_fblk (fblk s) s) by by destruct s.
  destruct (Z.ltb_spec bn NDIRECT) as [H1|H1].
  { apply wp_ret_r, wp_bmap_addr; [done|]. kstep. split; eauto. }
  replace (bn - NDIRECT <? NINDIRECT) with (bn <? NDIRECT + NINDIRECT) by (apply eq_true_iff_eq; rewrite !Z.ltb_lt; lia).
  destruct (Z.ltb_spec bn (NDIRECT + NINDIRECT)) as [H2|H2].
  { rewrite Forall_singleton in Hp. apply wp_bmap_addr; [intros E; apply Hne; unfold slot, ind_of; by rewrite E|].
    apply wp_bmap_level; [done..|]. intros b Hb. kstep. split; eauto. }
  replace (bn - NDIRECT - NINDIRECT <? NDINDIRECT) with (bn <? MAXFILE) by (apply eq_true_iff_eq; rewrite !Z.ltb_lt; unfold MAXFILE; lia).
  destruct (Z.ltb_spec bn MAXFILE) as [H3|H3]; [|done].
  set (x := bn - NDIRECT - NINDIRECT) in *. apply Forall_cons in Hp as [Hp Hq]. rewrite Forall_singleton in Hq.
  assert (Hne1 : slot (bl_view M (fblk s)) (dind_of (iat s ip)) (x / NINDIRECT) <> 0) by (intros E; apply Hne; unfold slot at 1; by rewrite E).
  apply wp_bmap_addr; [intros E; apply Hne1; unfold slot, dind_of; by rewrite E|].
  apply wp_bmap_level; [done..|]. intros b Hb. fold (dind_of (iat s ip)).
  set (a := slot _ (dind_of _) _) in *.
  assert (Ev : slot (bl_view M b) a (x mod NINDIRECT) = slot (bl_view M (fblk s)) a (x mod NINDIRECT)).
  { unfold slot. destruct (a =? 0) eqn:E; [done|]. destruct Hq as [Hq|[Hq _]]; [by rewrite Hq in E|]. by rewrite (bsame_view _ _ _ Hb). }
  apply (wp_bmap_level kret); cbn [fblk set_fblk].
  - by eapply bsame_inv.
  - by rewrite <- bsame_room.
  - destruct Hq as [?|[]]; [by left|]. right. by rewrite (bsame_limit _ _ Hb), (bsame_held _ _ Hb).
  - by rewrite Ev.
  - rewrite Ev. intros b2 Hb2. kstep. split; [done|]. exists b2. split; [done|]. by etransitivity.
Qed.

(** ** Reading *)

(** Byte [o] of a file, which is 0 in a hole. *)
Definition fbyte (V : Z -> block) (i : inode) (o : Z) : Z :=
  if baddr V i (o / 512) =? 0 then 0 else nth (Z.to_nat (o mod 512)) (V (baddr V i (o / 512))) 0.
Definition fbytes (V : Z -> block) (i : inode) (off n : Z) : list Z := fbyte V i <$> seqZ off n.

Lemma slot_same (s s' : B) a n : bsame (M := M) s s' -> usable s a -> slot (bl_view M s') a n = slot (bl_view M s) a n.
Proof.
  intros Hs Hu. unfold slot. destruct (Z.eqb_spec a 0); [done|]. destruct Hu as [?|[? _]]; [done|]. by rewrite (bsame_view _ _ _ Hs).
Qed.
Lemma usable_same (s s' : B) a : bsame (M := M) s s' -> usable s' a <-> usable s a.
Proof. intros Hs. unfold usable. by rewrite (bsame_limit _ _ Hs), (bsame_held _ _ Hs). Qed.
Lemma bpath_same (s s' : B) i bn : bsame (M := M) s s' -> reachable s i bn ->
  bpath (bl_view M s') i bn = bpath (bl_view M s) i bn /\ baddr (bl_view M s') i bn = baddr (bl_view M s) i bn.
Proof.
  intros Hs [Hp _ _]. unfold bpath, baddr in *. repeat case_match; try done.
  - rewrite Forall_singleton in Hp. by rewrite (slot_same s s').
  - rewrite Forall_cons, Forall_singleton in Hp. destruct Hp as [Hp Hq]. 
    rewrite (slot_same s s' (dind_of i)) by done. by rewrite (slot_same s s').
Qed.
Lemma reachable_same (s s' : B) i bn : bsame (M := M) s s' -> reachable s i bn -> reachable s' i bn.
Proof.
  intros Hs Hr. destruct (bpath_same s s' i bn Hs Hr) as [Ep Ea]. destruct Hr as [Hp Ha Hn].
  split; rewrite ?Ep, ?Ea; [|by apply (usable_same s s')|done]. eapply Forall_impl; [exact Hp|]. intros a. by apply usable_same.
Qed.
Lemma fbyte_same (s s' : B) i o : bsame (M := M) s s' -> reachable s i (o / 512) -> fbyte (bl_view M s') i o = fbyte (bl_view M s) i o.
Proof.
  intros Hs Hr. unfold fbyte. destruct (bpath_same s s' i _ Hs Hr) as [_ ->]. destruct (Z.eqb_spec (baddr (bl_view M s) i (o / 512)) 0); [done|].
  destruct Hr as [_ [?|[Ha _]] _]; [done|]. by rewrite (bsame_view _ _ _ Hs).
Qed.
Lemma fbytes_same (s s' : B) i off n : bsame (M := M) s s' -> (forall o, off <= o < off + n -> reachable s i (o / 512)) ->
  fbytes (bl_view M s') i off n = fbytes (bl_view M s) i off n.
Proof. intros Hs Hr. apply list_fmap_ext. intros j o [? ?]%lookup_seqZ. apply fbyte_same; [done|]. apply Hr. lia. Qed.

Lemma fbytes_app V i off n m : 0 <= n -> 0 <= m -> fbytes V i off (n + m) = fbytes V i off n ++ fbytes V i (off + n) m.
Proof. intros Hn Hm. unfold fbytes. by rewrite seqZ_app, fmap_app by lia. Qed.

(** The part of a file that lies in one block. *)
Lemma fbytes_block V i off m : 0 <= off -> 0 <= m -> off mod 512 + m <= 512 -> length (V (baddr V i (off / 512))) = 512%nat ->
  fbytes V i off m = if baddr V i (off / 512) =? 0 then replicate (Z.to_nat m) 0
                     else slice (Z.to_nat (off mod 512)) (Z.to_nat m) (V (baddr V i (off / 512))).
Proof.
  intros Ho Hm Hb Hl. apply list_eq_same_length with (n := Z.to_nat m); [..|].
  - by destruct (_ =? 0); [rewrite length_replicate|rewrite slice_len by (rewrite Hl; dlia)].
  - unfold fbytes. by rewrite length_fmap, length_seqZ.
  - intros j x y Hj Hx Hy. unfold fbytes in Hx. rewrite list_lookup_fmap, fmap_Some in Hx. destruct Hx as (o & Hx & ->).
    apply lookup_seqZ in Hx as [-> _]. unfold fbyte.
    replace ((off + Z.of_nat j) / 512) with (off / 512) by dlia. replace ((off + Z.of_nat j) mod 512) with (off mod 512 + Z.of_nat j) by dlia.
    destruct (_ =? 0); [by apply lookup_replicate in Hy as [-> _]|]. unfold slice in Hy. rewrite lookup_take_lt, lookup_drop in Hy by done.
    rewrite Z2Nat.inj_add, Nat2Z.id, nth_lookup, Hy by dlia. done.
Qed.

Definition rw_turns (fuel : nat) (off r : Z) : Prop :=
  1 <= Z.of_nat fuel /\ (0 < r -> (off + r + 511) / 512 - off / 512 < Z.of_nat fuel).

Lemma rw_turns_next fuel off r m : rw_turns (S fuel) off r -> 0 <= off -> 0 < r -> m = Z.min r (512 - off mod 512) -> rw_turns fuel (off + m) (r - m).
Proof. unfold rw_turns. intros [H1 H2] Ho Hr ->. specialize (H2 Hr). dlia. Qed.
Lemma rw_turns_fuel off n : 0 <= off -> 0 <= n -> rw_turns (rw_fuel n) off n.
Proof. unfold rw_turns, rw_fuel. intros. dlia. Qed.

Lemma wp_readi_loop s ip n fuel : forall b off tot acc, bl_inv M (fblk s) -> bsame (M := M) (fblk s) b ->
  i_dev (iat s ip) = ROOTDEV -> room (M := M) 2 (fblk s) -> 0 <= off -> 0 <= n - tot -> rw_turns fuel off (n - tot) ->
  (forall o, off <= o < off + (n - tot) -> reachable (fblk s) (iat s ip) (o / 512)) ->
  wp (readi_loop fuel ip off n tot acc) (fun r s' => r = acc ++ fbytes (bl_view M (fblk s)) (iat s ip) off (n - tot) /\
    exists b, s' = set_fblk b s /\ bsame (M := M) (fblk s) b) (set_fblk b s).
Proof.
  induction fuel as [|fuel IH]; intros b off tot acc HI Hs Hd Hr Ho Hn Ht Hre; [destruct Ht; lia|]. cbn [readi_loop].
  destruct (Z.ltb_spec tot n) as [Hlt|Hge].
  2: { kstep. split; [|eauto]. replace (n - tot) with 0 by lia. unfold fbytes. cbn [seqZ fmap list_fmap seq Z.to_nat]. by rewrite app_nil_r. }
  set (V := bl_view M (fblk s)). set (i := iat s ip) in *. set (m := chunk off n tot).
  assert (Hm : m = Z.min (n - tot) (512 - off mod 512)) by done. assert (Hm0 : 0 < m) by dlia.
  assert (Hre0 : reachable (fblk s) i (off / 512)) by (apply Hre; lia).
  assert (Hnext : fbytes V i off (n - tot) = fbytes V i off m ++ fbytes V i (off + m) (n - (tot + m))).
  { rewrite <- fbytes_app by lia. f_equal. lia. }
  assert (Hi : bl_inv M b) by by eapply bsame_inv.
  assert (Ht' : rw_turns fuel (off + m) (n - (tot + m))).
  { replace (n - (tot + m)) with (n - tot - m) by lia. eapply rw_turns_next; eauto; lia. }
  pose proof (fbytes_block V i off m Ho ltac:(lia) ltac:(dlia) (proj1 (law_wf _ _ HI))) as Hfb.
  destruct (bpath_same _ _ _ _ Hs Hre0) as [_ Ea].
  kstep. eapply wp_mono; [apply wp_bmap_read; [done|done|by rewrite <- (bsame_room _ _ b Hs)|by eapply reachable_same]|].
  intros a s1 (-> & b1 & -> & Hs1). cbn [fblk set_fblk] in *. change (iat (set_fblk b s) ip) with i. rewrite Ea.
  assert (Hs1' : bsame (M := M) (fblk s) b1) by by etransitivity. rewrite Hnext, app_assoc. fold V in Ea |- *.
  destruct (Z.eqb_spec (baddr V i (off / 512)) 0) as [E|E].
  - rewrite Hfb. apply IH; auto; [lia..|intros; apply Hre; lia].
  - kstep. kstep. change (iat (set_fblk b1 (set_fblk b s)) ip) with i. rewrite Hd.
    destruct (re_addr _ _ _ Hre0) as [?|[Ha Hn0]]; [done|].
    apply (wp_fread (fun d => readi_loop fuel ip (off + m) n (tot + m) (acc ++ slice (Z.to_nat (off mod 512)) (Z.to_nat m) d)));
      cbn [fblk set_fblk].
    + by eapply bsame_inv.
    + by rewrite (bsame_limit _ _ Hs1').
    + by rewrite (bsame_held _ _ Hs1').
    + eapply room_weaken; [|by rewrite <- (bsame_room _ _ _ Hs1')]. lia.
    + intros b2 Hs2. rewrite (bsame_view _ _ _ Hs1') by done. rewrite Hfb.
      apply IH; auto; [by etransitivity|lia..|intros; apply Hre; lia].
Qed.

Context (devsw : Z -> devops B).

(** A read of [n] bytes at [off], neither past the end nor wrapping. *)
Lemma wp_readi s ip off n : itype (iat s ip) <> T_DEV -> i_dev (iat s ip) = ROOTDEV -> bl_inv M (fblk s) ->
  room (M := M) 2 (fblk s) -> 0 <= off <= isize (iat s ip) -> 0 <= n -> off + n < 2 ^ 32 -> isize (iat s ip) < 2 ^ 31 ->
  let n' := Z.min n (isize (iat s ip) - off) in
  (forall o, off <= o < off + n' -> reachable (fblk s) (iat s ip) (o / 512)) ->
  wp (readi devsw ip off n) (fun r s' => r = (n', fbytes (bl_view M (fblk s)) (iat s ip) off n') /\
    exists b, s' = set_fblk b s /\ bsame (M := M) (fblk s) b) s.
Proof.
  intros Hty Hd Hi Hr Ho Hn Hw Hz n' Hre. unfold readi. kstep. kstep. rewrite (proj2 (Z.eqb_neq _ _)) by done.
  assert (Hu : (off +u n) = off + n) by (unfold u32; rewrite Z.mod_small; lia). rewrite Hu.
  destruct (Z.ltb_spec (isize (iat s ip)) off); [lia|]. destruct (Z.ltb_spec (off + n) off); [lia|]. cbn [orb].
  replace (if isize (iat s ip) <? off + n then _ else _) with n' by (unfold n'; zcases; lia).
  kstep. assert (E0 : s = set_fblk (fblk s) s) by by destruct s.
  match goal with |- wp ?m ?Q _ => enough (Hx : wp m Q (set_fblk (fblk s) s)) by by rewrite <- E0 in Hx end.
  eapply wp_mono; [apply (wp_readi_loop s); [done|by apply bsame_refl|done|done|..]|].
  - lia.
  - unfold n'. lia.
  - rewrite Z.sub_0_r. apply rw_turns_fuel; unfold n'; lia.
  - intros o Hoo. apply Hre. unfold n' in *. lia.
  - intros r s' (-> & b & -> & Hs). kstep. split; [|eauto]. rewrite Z.sub_0_r. rewrite s32_id by (unfold n'; lia). done.
Qed.

(** ** Writing *)

(** The blocks of bytes [off] to [off + r] of the file are there, are distinct,
    and none of them is a block of addresses of the others. *)
Record separate (s : B) (i : inode) (off r : Z) : Prop := {
  sep_reach o : off <= o < off + r -> reachable s i (o / 512);
  sep_mapped o : off <= o < off + r -> baddr (bl_view M s) i (o / 512) <> 0;
  sep_inj o o' : off <= o < off + r -> off <= o' < off + r ->
    baddr (bl_view M s) i (o / 512) = baddr (bl_view M s) i (o' / 512) -> o / 512 = o' / 512;
  sep_path o o' : off <= o < off + r -> off <= o' < off + r -> baddr (bl_view M s) i (o / 512) ∉ bpath (bl_view M s) i (o' / 512);
}.
(** The number of blocks bytes [off] to [off + r] are in. *)
Definition nblk (off r : Z) : nat := if r <=? 0 then 0 else Z.to_nat ((off + r - 1) / 512 - off / 512 + 1).

(** The contents [V'] is [V] with [src] written there. *)
Record wrote (i : inode) (off : Z) (src : list Z) (lim : Z) (V V' : Z -> block) : Prop := {
  wr_bytes o : off <= o < off + Z.of_nat (length src) ->
    nth (Z.to_nat (o mod 512)) (V' (baddr V i (o / 512))) 0 = nth (Z.to_nat (o - off)) src 0;
  wr_frame k j : 0 <= k < lim ->
    (forall o, off <= o < off + Z.of_nat (length src) -> ~ (k = baddr V i (o / 512) /\ j = Z.to_nat (o mod 512))) ->
    nth j (V' k) 0 = nth j (V k) 0;
}.

Lemma bpath_view V V' i bn : (forall a, a ∈ bpath V i bn -> V' a = V a) ->
  bpath V' i bn = bpath V i bn /\ baddr V' i bn = baddr V i bn.
Proof.
  intros Hv. assert (Hs : forall a n, a ∈ bpath V i bn -> slot V' a n = slot V a n) by (intros a n Ha; unfold slot; destruct (a =? 0); [done|by rewrite Hv]).
  unfold bpath, baddr in *. case_match; [done|]. case_match; [by rewrite Hs by left|]. case_match; [|done].
  rewrite (Hs (dind_of i)) by left. by rewrite Hs by (right; left).
Qed.

Lemma wrote_step V V1 V' i off src m lim : 0 <= off -> (0 < m <= length src)%nat -> off mod 512 + Z.of_nat m <= 512 ->
  let a := baddr V i (off / 512) in length (V a) = 512%nat -> 0 <= a < lim ->
  (forall k, 0 <= k < lim -> V1 k = if decide (k = a) then splice (Z.to_nat (off mod 512)) (take m src) (V a) else V k) ->
  (forall o, off <= o < off + Z.of_nat (length src) -> baddr V1 i (o / 512) = baddr V i (o / 512)) ->
  (forall o, off <= o < off + Z.of_nat (length src) -> a = baddr V i (o / 512) -> off / 512 = o / 512) ->
  wrote i (off + Z.of_nat m) (drop m src) lim V1 V' -> wrote i off src lim V V'.
Proof.
  intros Ho Hm Hb a Hl Ha HV1 Hbe Hinj [Wb Wf]. rewrite length_drop in Wb, Wf.
  assert (HVa : forall j, nth j (V1 a) 0 = if decide (Z.to_nat (off mod 512) <= j < Z.to_nat (off mod 512) + m)%nat
    then nth (j - Z.to_nat (off mod 512)) src 0 else nth j (V a) 0).
  { intros j. rewrite HV1, decide_True by done. rewrite !nth_lookup, splice_lookup, length_take, Nat.min_l by (rewrite ?length_take, ?Hl; dlia).
    case_decide; [|done]. by rewrite lookup_take_lt by lia. }
  split.
  - intros o Hoo. destruct (decide (o < off + Z.of_nat m)) as [Hlt|Hge].
    + assert (E : o / 512 = off / 512 /\ o mod 512 = off mod 512 + (o - off)) by dlia. destruct E as [E1 E2]. rewrite E1. fold a. rewrite Wf.
      * rewrite HVa, decide_True by (rewrite E2; dlia). f_equal. rewrite E2. dlia.
      * done.
      * intros o' Ho' [Hk Hj]. rewrite Hbe in Hk by lia. apply Hinj in Hk; [|lia]. assert (o mod 512 = o' mod 512) by dlia. dlia.
    + rewrite <- Hbe by done. rewrite Wb by lia. rewrite nth_lookup, lookup_drop, <- nth_lookup. f_equal. lia.
  - intros k j Hk Hno. rewrite Wf by (first [done|intros o Hoo; rewrite Hbe by lia; apply Hno; lia]).
    destruct (decide (k = a)) as [->|Hne]; [|by rewrite HV1, decide_False by done]. rewrite HVa. case_decide as Hj; [|done].
    exfalso. apply (Hno (off + (Z.of_nat j - off mod 512))); [dlia|]. split; [unfold a; f_equal; dlia|dlia].
Qed.


(** After a block that no path goes through has changed. *)
Lemma separate_upd (s s' : B) i off r a d : bl_held M s' = bl_held M s -> bl_limit M s' = bl_limit M s -> 0 <= a < bl_limit M s ->
  (forall k, 0 <= k < bl_limit M s -> bl_view M s' k = if decide (k = a) then d else bl_view M s k) ->
  (forall o, off <= o < off + r -> a ∉ bpath (bl_view M s) i (o / 512)) -> separate s i off r ->
  separate s' i off r /\ forall o, off <= o < off + r -> baddr (bl_view M s') i (o / 512) = baddr (bl_view M s) i (o / 512).
Proof.
  intros Hh Hli Ha Hv Hp [S1 S2 S3 S4].
  assert (E : forall o, off <= o < off + r -> bpath (bl_view M s') i (o / 512) = bpath (bl_view M s) i (o / 512) /\
    baddr (bl_view M s') i (o / 512) = baddr (bl_view M s) i (o / 512)).
  { intros o Ho. apply bpath_view. intros x Hx. destruct (proj1 (Forall_forall _ _) (re_path _ _ _ (S1 o Ho)) x Hx) as [->|[Hr _]];
      rewrite Hv by lia; case_decide as Ex; try done; rewrite Ex in Hx; by apply Hp in Hx. }
  assert (U : forall x, usable s x -> usable s' x) by (intros x; unfold usable; by rewrite Hh, Hli).
  split; [split|intros; by apply E].
  - intros o Ho. destruct (E o Ho) as [E1 E2], (S1 o Ho) as [R1 R2 R3]. split; rewrite ?E1, ?E2; auto. eapply Forall_impl; eauto.
  - intros o Ho. rewrite (proj2 (E o Ho)). auto.
  - intros o o' Ho Ho'. rewrite (proj2 (E o Ho)), (proj2 (E o' Ho')). auto.
  - intros o o' Ho Ho'. rewrite (proj2 (E o Ho)), (proj1 (E o' Ho')). auto.
Qed.

Lemma separate_weaken (s : B) i off r off' r' : off <= off' -> off' + r' <= off + r -> separate s i off r -> separate s i off' r'.
Proof. intros H1 H2 [S1 S2 S3 S4]. split; intros; [apply S1|apply S2|apply S3|apply S4]; auto; lia. Qed.

Lemma nblk_next off r m : 0 <= off -> 0 < r -> m = Z.min r (512 - off mod 512) -> nblk off r = S (nblk (off + m) (r - m)).
Proof. unfold nblk. intros Ho Hr Hm. destruct (Z.leb_spec r 0); [lia|]. destruct (Z.leb_spec (r - m) 0); dlia. Qed.

(** What a write of a file leaves as it was. *)
Record kept (s s' : B) (nb : nat) : Prop := {
  kp_inv : bl_inv M s';
  kp_txn : bl_txn M s';
  kp_held : bl_held M s' = bl_held M s;
  kp_limit : bl_limit M s' = bl_limit M s;
  kp_room n : room (M := M) (nb + n) s -> room (M := M) n s';
}.

Lemma slice_take (l : list Z) t k m : (m <= k)%nat -> take m (slice t k l) = slice t m l.
Proof. intros Hm. unfold slice. by rewrite take_take, Nat.min_l. Qed.
Lemma slice_drop (l : list Z) t k m : (m <= k)%nat -> drop m (slice t k l) = slice (t + m) (k - m) l.
Proof. intros Hm. unfold slice. rewrite skipn_firstn_comm, drop_drop. done. Qed.

(** One turn of the loop: [bs] is written into the block of offset [off]. *)
Record turned (s : B) (i : inode) (off r : Z) (bs : list Z) (s' : B) : Prop := {
  tn_kept : kept s s' 1;
  tn_lroom n : lroom (M := M) (S n) s -> lroom (M := M) n s';
  tn_view k : 0 <= k < bl_limit M s -> bl_view M s' k =
    if decide (k = baddr (bl_view M s) i (off / 512)) then splice (Z.to_nat (off mod 512)) bs (bl_view M s k) else bl_view M s k;
  tn_sep : separate s' i off r;
  tn_addr o : off <= o < off + r -> baddr (bl_view M s') i (o / 512) = baddr (bl_view M s) i (o / 512);
}.
Lemma wp_write_turn {A} (rest : K fs A) Q s ip off r bs : i_dev (iat s ip) = ROOTDEV -> bl_inv M (fblk s) -> bl_txn M (fblk s) ->
  0 <= off -> 0 < r -> off mod 512 + Z.of_nat (length bs) <= 512 -> bytes bs -> separate (fblk s) (iat s ip) off r ->
  room (M := M) 2 (fblk s) -> lroom (M := M) 1 (fblk s) ->
  (forall b, turned (fblk s) (iat s ip) off r bs b -> wp rest Q (set_fblk b s)) ->
  wp (addr <- bmap ip (off / 512) ;; s <- kget ;; bp <- inblk (bl_bread (i_dev (iat s ip)) addr) ;; d <- inblk (rd bp) ;;
      inblk (wr bp (splice (Z.to_nat (off mod 512)) bs d)) ;; inblk (bl_log_write bp) ;; inblk (bl_brelse bp) ;; rest) Q s.
Proof.
  intros Hd Hi Ht Ho Hr0 Hbl Hby Hsep Hr Hlr HQ. set (i := iat s ip) in *.
  pose proof (sep_reach _ _ _ _ Hsep off ltac:(lia)) as Hre. pose proof (sep_mapped _ _ _ _ Hsep off ltac:(lia)) as Hma.
  set (V := bl_view M (fblk s)) in *. set (a := baddr V i (off / 512)) in *.
  destruct (re_addr _ _ _ Hre) as [?|[Ha Hah]]; [done|]. fold V in Ha, Hah. fold a in Ha, Hah.
  kstep. eapply wp_mono; [apply wp_bmap_mapped; [done..| |done|done]; eapply room_weaken; [|exact Hr]; lia|].
  intros r' s1 (-> & b1 & -> & Hs1). fold i V. fold a. kstep. kstep. change (iat (set_fblk b1 s) ip) with i. rewrite Hd.
  apply (wp_fupdate (splice (Z.to_nat (off mod 512)) bs)); cbn [fblk set_fblk];
    rewrite ?(bsame_limit _ _ Hs1), ?(bsame_held _ _ Hs1), <- ?(bsame_room _ _ _ Hs1), <- ?(bsame_lroom _ _ _ Hs1); try done.
  - by eapply bsame_inv.
  - by apply (bsame_txn _ _ Hs1).
  - destruct (law_wf b1 a (bsame_inv _ _ Hs1)) as [W1 W2]. split; [|by apply splice_bytes].
    rewrite splice_len; [done|]. rewrite W1. unfold BSIZE. dlia.
  - intros b2 U. rewrite (bsame_view _ _ _ Hs1) in U by done. apply (HQ b2).
    assert (Hv2 : forall k, 0 <= k < bl_limit M (fblk s) -> bl_view M b2 k = if decide (k = a) then splice (Z.to_nat (off mod 512)) bs (V a) else V k).
    { intros k Hk. destruct U as [[_ _ _ _ Hv _] _]. rewrite Hv by (by rewrite (bsame_limit _ _ Hs1)). case_decide; [done|]. by apply bsame_view. }
    destruct (proj1 U) as [I2 T2 H2 D2 _ L2]. rewrite (bsame_held _ _ Hs1) in H2. rewrite (bsame_limit _ _ Hs1) in L2. rewrite (bsame_txn _ _ Hs1) in T2.
    destruct (separate_upd (fblk s) b2 i off r a (splice (Z.to_nat (off mod 512)) bs (V a))) as [Hsep2 Hba]; try done.
    { intros o Ho'. apply (sep_path _ _ _ _ Hsep); [lia|done]. }
    split; try done; [split; try done; [by apply T2|]| |].
    + intros k Hk. eapply bupd_room; [exact U|]. by rewrite <- (bsame_room _ _ _ Hs1).
    + intros k Hk. eapply bupd_lroom; [exact U|]. by rewrite <- (bsame_lroom _ _ _ Hs1).
    + intros k Hk. rewrite Hv2 by done. fold V a. case_decide as E; [by rewrite E|done].
Qed.

Lemma wp_writei_loop src n ip fuel : forall s off tot, i_dev (iat s ip) = ROOTDEV -> bl_inv M (fblk s) -> bl_txn M (fblk s) ->
  0 <= off -> 0 <= tot <= n -> n <= Z.of_nat (length src) -> bytes src -> rw_turns fuel off (n - tot) ->
  separate (fblk s) (iat s ip) off (n - tot) -> room (M := M) (nblk off (n - tot) + 1) (fblk s) -> lroom (M := M) (nblk off (n - tot)) (fblk s) ->
  wp (writei_loop fuel ip src off n tot) (fun r s' => r = off + (n - tot) /\ exists b, s' = set_fblk b s /\
    kept (fblk s) b (nblk off (n - tot)) /\
    wrote (iat s ip) off (slice (Z.to_nat tot) (Z.to_nat (n - tot)) src) (bl_limit M (fblk s)) (bl_view M (fblk s)) (bl_view M b)) s.
Proof.
  induction fuel as [|fuel IH]; intros s off tot Hd Hi Ht Ho Hn Hl Hb Hf Hsep Hr Hlr; [destruct Hf; lia|]. cbn [writei_loop].
  destruct (Z.ltb_spec tot n) as [Hlt|Hge].
  2: { kstep. assert (n = tot) as -> by lia. rewrite Z.sub_diag. split; [lia|]. exists (fblk s). split; [by destruct s|]. split; [by split|].
       split; [|done]. intros o. unfold slice. cbn [Z.to_nat]. rewrite take_0. cbn [length]. lia. }
  set (m := chunk off n tot). assert (Hm : m = Z.min (n - tot) (512 - off mod 512)) by done. assert (Hm0 : 0 < m) by dlia.
  pose proof (nblk_next off (n - tot) m Ho ltac:(lia) Hm) as Hnb. rewrite Hnb in Hr, Hlr |- *.
  assert (Enext : n - (tot + m) = n - tot - m) by lia.
  apply (wp_write_turn (writei_loop fuel ip src (off + m) n (tot + m)) _ s ip off (n - tot)); try done; try lia.
  { rewrite slice_len by lia. dlia. }
  { by apply slice_bytes. }
  { eapply room_weaken; [|exact Hr]. lia. }
  { eapply lroom_weaken; [|exact Hlr]. lia. }
  intros b2 [[I2 T2 H2 L2 R2] LR2 V2 S2 A2]. eapply wp_mono.
  - apply (IH (set_fblk b2 s) (off + m) (tot + m)); rewrite ?Enext; cbn [fblk set_fblk]; try done; try lia.
    + eapply rw_turns_next; eauto; lia.
    + eapply separate_weaken; [..|exact S2]; lia.
    + apply R2. exact Hr.
    + by apply LR2.
  - rewrite Enext. cbn [fblk set_fblk]. change (iat (set_fblk b2 s) ip) with (iat s ip). rewrite L2.
    intros r s' (-> & b & -> & [K1 K2 K3 K4 K5] & W). split; [lia|]. exists b. split; [done|].
    split; [split; try done; try congruence; intros k Hk; apply K5, R2; exact Hk|].
    destruct (re_addr _ _ _ (sep_reach _ _ _ _ Hsep off ltac:(lia))) as [Hx|[Ha _]]; [by apply (sep_mapped _ _ _ _ Hsep off) in Hx; [|lia]|].
    eapply (wrote_step _ (bl_view M b2) _ _ off _ (Z.to_nat m)); rewrite ?slice_len by lia; try done; try lia.
    + apply (law_wf (fblk s)); done.
    + intros k Hk. rewrite V2, slice_take by (done || lia). case_decide as E; [by rewrite E|done].
    + intros o Hoo. apply A2. lia.
    + intros o Hoo. apply (sep_inj _ _ _ _ Hsep); lia.
    + rewrite slice_drop, Z2Nat.id by lia. replace (Z.to_nat tot + Z.to_nat m)%nat with (Z.to_nat (tot + m)) by lia.
      replace (Z.to_nat (n - tot) - Z.to_nat m)%nat with (Z.to_nat (n - tot - m)) by lia. exact W.
Qed.

(** A write that does not reach past the end of the file. *)
Lemma wp_writei_inside s ip src off n : itype (iat s ip) <> T_DEV -> i_dev (iat s ip) = ROOTDEV -> bl_inv M (fblk s) -> bl_txn M (fblk s) ->
  0 <= off -> 0 <= n <= Z.of_nat (length src) -> bytes src -> off + n <= isize (iat s ip) -> isize (iat s ip) <= MAXFILE * 512 ->
  separate (fblk s) (iat s ip) off n -> room (M := M) (nblk off n + 1) (fblk s) -> lroom (M := M) (nblk off n) (fblk s) ->
  wp (writei devsw ip src off n) (fun r s' => r = n /\ exists b, s' = set_fblk b s /\ kept (fblk s) b (nblk off n) /\
    wrote (iat s ip) off (take (Z.to_nat n) src) (bl_limit M (fblk s)) (bl_view M (fblk s)) (bl_view M b)) s.
Proof.
  intros Hty Hd Hi Ht Ho Hn Hb Hsz Hmax Hsep Hr Hl. unfold writei. kstep. kstep. rewrite (proj2 (Z.eqb_neq _ _)) by done.
  assert (Hm : MAXFILE * 512 < 2 ^ 31) by done.
  assert (Hu : (off +u n) = off + n) by (unfold u32; rewrite Z.mod_small; lia). rewrite Hu.
  destruct (Z.ltb_spec (isize (iat s ip)) off); [lia|]. destruct (Z.ltb_spec (off + n) off); [lia|]. cbn [orb].
  destruct (Z.ltb_spec (MAXFILE * 512) (off + n)); [lia|].
  kstep. eapply wp_mono; [apply (wp_writei_loop src n ip _ s off 0); rewrite ?Z.sub_0_r; try done; try lia; apply rw_turns_fuel; lia|].
  rewrite Z.sub_0_r. intros r s' (-> & b & -> & K & W). kstep. kstep.
  change (isize (iat (set_fblk b s) ip)) with (isize (iat s ip)). destruct (Z.ltb_spec (isize (iat s ip)) (off + n)); [lia|].
  rewrite andb_false_r. kstep. kstep. kstep. split; [apply s32_id; lia|]. eauto.
Qed.

(** What has been written is found through the same addresses. *)
Lemma wrote_separate (s s' : B) i off src nb : bl_inv M s -> kept s s' nb -> separate s i off (Z.of_nat (length src)) ->
  wrote i off src (bl_limit M s) (bl_view M s) (bl_view M s') ->
  separate s' i off (Z.of_nat (length src)) /\ fbytes (bl_view M s') i off (Z.of_nat (length src)) = src.
Proof.
  intros Hi [I' _ H' L' _] Hsep [Wb Wf]. pose proof Hsep as [S1 S2 S3 S4]. set (r := Z.of_nat (length src)) in *.
  assert (Hv : forall x, 0 <= x < bl_limit M s -> (forall o, off <= o < off + r -> x <> baddr (bl_view M s) i (o / 512)) -> bl_view M s' x = bl_view M s x).
  { intros x Hx Hne. apply (nth_ext _ _ 0 0); [by rewrite (proj1 (law_wf s' x I')), (proj1 (law_wf s x Hi))|].
    intros j _. apply Wf; [done|]. intros o Ho [E _]. by apply (Hne o Ho). }
  assert (E : forall o, off <= o < off + r -> bpath (bl_view M s') i (o / 512) = bpath (bl_view M s) i (o / 512) /\
    baddr (bl_view M s') i (o / 512) = baddr (bl_view M s) i (o / 512)).
  { intros o Ho. apply bpath_view. intros x Hx.
    assert (Hne : forall o', off <= o' < off + r -> x <> baddr (bl_view M s) i (o' / 512)) by (intros o' Ho' ->; by apply (S4 o' o) in Hx).
    destruct (proj1 (Forall_forall _ _) (re_path _ _ _ (S1 o Ho)) x Hx) as [->|[Hr _]]; [|by apply Hv].
    apply Hv; [|done]. destruct (re_addr _ _ _ (S1 o Ho)) as [?|[? _]]; [by apply S2 in Ho|lia]. }
  assert (U : forall x, usable s x -> usable s' x) by (intros x; unfold usable; by rewrite H', L').
  split; [split|].
  - intros o Ho. destruct (E o Ho) as [E1 E2], (S1 o Ho) as [R1 R2 R3]. split; rewrite ?E1, ?E2; auto. eapply Forall_impl; eauto.
  - intros o Ho. rewrite (proj2 (E o Ho)). auto.
  - intros o o' Ho Ho'. rewrite (proj2 (E o Ho)), (proj2 (E o' Ho')). auto.
  - intros o o' Ho Ho'. rewrite (proj2 (E o Ho)), (proj1 (E o' Ho')). auto.
  - unfold fbytes. apply (nth_ext _ _ 0 0); [rewrite length_fmap, length_seqZ; lia|].
    rewrite length_fmap, length_seqZ. intros j Hj. rewrite (nth_lookup (_ <$> _)), list_lookup_fmap, lookup_seqZ_lt by lia. cbn [fmap option_fmap option_map default].
    unfold fbyte. rewrite (proj2 (E (off + Z.of_nat j) ltac:(lia))). rewrite (proj2 (Z.eqb_neq _ _)) by (apply S2; lia).
    rewrite Wb by lia. unfold id. f_equal. lia.
Qed.

(** ** Claims *)

(** [iupdate] stores an inode so that [ilock] finds it again: whatever
    inode [j] the slot of the cache held in between, [ilock] restores the
    type, the device numbers, the link count, the size and the addresses,
    and no other inode of the disk has changed. *)
Theorem iupdate_ilock_roundtrip s ip n j : inode_at s ip n -> wf_inode (iat s ip) -> itype (iat s ip) <> 0 -> ic_lock s = false ->
  0 <= n < 2 ^ 32 -> bl_inv M (fblk s) -> bl_txn M (fblk s) -> IBLOCK n ∉ bl_held M (fblk s) -> room (M := M) 2 (fblk s) -> lroom (M := M) 1 (fblk s) ->
  wp (iupdate ip ;; kmodify (upd_inode ip (fun _ => recycle ROOTDEV n j)) ;; ilock ip)
    (fun _ s' => dfields (iat s' ip) = dfields (iat s ip) /\ i_busy (iat s' ip) = true /\ i_valid (iat s' ip) = true /\
      forall m i, 0 <= m < 2 ^ 32 -> m <> n -> 0 <= IBLOCK m < bl_limit M (fblk s) ->
        load_dinode (dinode_off m) (bl_view M (fblk s') (IBLOCK m)) i = load_dinode (dinode_off m) (bl_view M (fblk s) (IBLOCK m)) i) s.
Proof.
  clear devsw. intros Hia Hw Hty Hlk Hn0 Hi Ht Hn Hr Hl. kstep. eapply wp_mono; [by apply wp_iupdate|]. intros _ s' (b & -> & U).
  pose proof (bupd_room _ _ 1 _ _ U Hr) as Hr1. destruct Hia as [A1 A2 A3 A4]. pose proof (law_wf (fblk s) (IBLOCK n) Hi) as Hwf.
  destruct (proj1 U) as [I1 T1 H1 D1 V1 L1]. kstep. kstep. set (s1 := upd_inode ip _ _).
  assert (E1 : iat s1 ip = recycle ROOTDEV n j) by (unfold s1; by rewrite iat_upd, decide_True by done).
  assert (EV : bl_view M (fblk s1) (IBLOCK n) = store_dinode (dinode_off n) (iat s ip) (bl_view M (fblk s) (IBLOCK n))).
  { change (fblk s1) with b. by rewrite V1, decide_True by done. }
  assert (EL : load_dinode (dinode_off n) (bl_view M (fblk s1) (IBLOCK n)) (iat s1 ip) =
    load_dinode (dinode_off n) (store_dinode (dinode_off n) (iat s ip) (bl_view M (fblk s) (IBLOCK n))) (iat s1 ip)) by by rewrite EV.
  assert (Hfit : (dinode_off n + 64 <= length (bl_view M (fblk s) (IBLOCK n)))%nat) by (rewrite (proj1 Hwf); apply dinode_off_fits).
  rewrite load_store_dinode in EL by done.
  eapply wp_mono; [apply (wp_ilock_load s1 ip n); try done|].
  - split; [unfold s1; cbn [icache upd_inode set_fblk]; by rewrite length_alter|by rewrite E1..|]. change (fblk s1) with b. by rewrite L1.
  - by rewrite E1.
  - by rewrite E1.
  - by rewrite E1.
  - change (fblk s1) with b. by rewrite H1.
  - by rewrite EL.
  - intros _ s' (Hs & Es & _). rewrite Es, EL. split_and!; try done. intros m i Hm0 Hm Hbl.
    rewrite (bsame_view _ _ _ Hs) by (change (fblk s1) with b; by rewrite L1). change (fblk s1) with b. rewrite V1 by done.
    case_decide as Eb; [|done]. rewrite Eb. apply load_store_other; [done..|].
    unfold IBLOCK, dinode_off, IPB, u32 in *. rewrite !Z.mod_small in Eb by dlia. assert (m mod 8 <> n mod 8) by dlia. dlia.
Qed.

(** [bmap] and [bmap_read] agree: a block of a file that is there is found
    at the same place by both, whether its address is in the inode, in the
    indirect block or in a block of the double-indirect block, and neither
    changes anything but the cache. *)
Theorem bmap_agrees_with_bmap_read s ip bn : i_dev (iat s ip) = ROOTDEV -> bl_inv M (fblk s) -> room (M := M) 2 (fblk s) ->
  reachable (fblk s) (iat s ip) bn -> baddr (bl_view M (fblk s)) (iat s ip) bn <> 0 ->
  exists a, a <> 0 /\ wp (bmap ip bn) (bres s a) s /\ wp (bmap_read ip bn) (bres s a) s.
Proof.
  clear devsw. intros Hd Hi Hr Hre Hne. exists (baddr (bl_view M (fblk s)) (iat s ip) bn). split_and!; [done| |by apply wp_bmap_read].
  apply wp_bmap_mapped; try done. by eapply room_weaken; [|exact Hr]; lia.
Qed.

(** [readi] reads the file: at an offset past the end, or when the end of
    the range wraps around, it fails and changes nothing; otherwise it
    returns, after as many turns of its loop as there are blocks, the bytes of
    the file from [off] up to [off + n] or the end of the file, with zeros for
    blocks that are not there, and leaves all the blocks as they were. *)
Theorem readi_correct s ip off n : itype (iat s ip) <> T_DEV -> i_dev (iat s ip) = ROOTDEV -> bl_inv M (fblk s) ->
  room (M := M) 2 (fblk s) -> 0 <= off < 2 ^ 32 -> 0 <= n < 2 ^ 32 -> 0 <= isize (iat s ip) <= MAXFILE * 512 ->
  (forall o, 0 <= o < isize (iat s ip) -> reachable (fblk s) (iat s ip) (o / 512)) ->
  if (isize (iat s ip) <? off) || (2 ^ 32 <=? off + n) then readi devsw ip off n s = Done (-1, []) s
  else let n' := Z.min n (isize (iat s ip) - off) in
    wp (readi devsw ip off n) (fun r s' => r = (n', fbytes (bl_view M (fblk s)) (iat s ip) off n') /\
      exists b, s' = set_fblk b s /\ bsame (M := M) (fblk s) b) s.
Proof.
  intros Hty Hd Hi Hr Ho Hn Hz Hre. assert (Hm : MAXFILE * 512 < 2 ^ 31) by done.
  destruct (Z.ltb_spec (isize (iat s ip)) off) as [H1|H1]; [|destruct (Z.leb_spec (2 ^ 32) (off + n)) as [H2|H2]]; cbn [orb].
  - unfold readi, kbind, kget. rewrite (proj2 (Z.eqb_neq _ _)) by done. by rewrite (proj2 (Z.ltb_lt _ _)).
  - unfold readi, kbind, kget. rewrite (proj2 (Z.eqb_neq _ _)) by done. rewrite (proj2 (Z.ltb_ge _ _)) by done.
    rewrite (proj2 (Z.ltb_lt (_ +u _) _)); [done|]. unfold u32. replace (off + n) with (off + n - 2 ^ 32 + 1 * 2 ^ 32) by lia.
    rewrite Z.mod_add, Z.mod_small; lia.
  - apply wp_readi; try done; try lia. intros o Hoo. apply Hre. lia.
Qed.

End file.

(** ** A file on a small disk *)

Module FileWitness.
Import FsWitness.
(** The blocks of addresses of a file: its indirect block 41, its
    double-indirect block 43 and the first block 44 of that. *)
Definition blocks (k : Z) : block :=
  if k =? 41 then aset (replicate BSIZE 0) 0 42
  else if k =? 43 then aset (replicate BSIZE 0) 0 44
  else if k =? 44 then aset (replicate BSIZE 0) 0 45
  else replicate BSIZE (k mod 256).
Definition node : inode :=
  {| i_dev := ROOTDEV; inum := 3; ref := 1; i_busy := false; i_valid := true; itype := 2; major := 0; minor := 0;
     nlink := 1; isize := 6000; addrs := [40; 0; 0; 0; 0; 0; 0; 0; 0; 0; 50; 41; 43] |}.
Definition st (b : blk) : fs blk := {| ic_lock := false; icache := [node]; ic_wakes := []; fblk := b |}.
Definition D (k : Z) : block := mkdisk blocks (lba k).

Lemma blocks_wf k : wfblock (blocks k).
Proof.
  unfold blocks. do 3 (case_match; [apply (bool_decide_unpack (wfblock _)); vm_compute; done|]). apply BioWitness.wf_replicate. dlia.
Qed.
Definition b0 : blk := booted blocks.
Lemma b0_ok : boot_state blocks b0.
Proof. exact (booted_ok blocks blocks_wf). Qed.

(** What is to be checked of a path: addresses of the disk, none twice. *)
Definition path_ok (bn : Z) : bool :=
  forallb (fun a => (0 <=? a) && (a <? 90)) (baddr D node bn :: bpath D node bn) && bool_decide (NoDup (filter (fun a => a <> 0) (bpath D node bn))).

Lemma view_path b bn : boot_state blocks b -> path_ok bn = true ->
  bpath (vw (bc b)) node bn = bpath D node bn /\ baddr (vw (bc b)) node bn = baddr D node bn.
Proof.
  intros (_ & _ & _ & _ & _ & V) Hp. apply andb_prop in Hp as [Hp _]. apply bpath_view. intros a Ha. apply V.
  rewrite forallb_forall in Hp. specialize (Hp a). rewrite andb_true_iff, Z.leb_le, Z.ltb_lt in Hp. apply Hp. right. by apply list_elem_of_In.
Qed.
Lemma node_reachable b bn : boot_state blocks b -> path_ok bn = true -> reachable (M := log_model) b node bn.
Proof.
  intros Hb Hp. destruct (view_path b bn Hb Hp) as [E1 E2]. destruct Hb as (_ & _ & H & _ & L & _).
  assert (U : forall a, (0 <=? a) && (a <? 90) = true -> usable (M := log_model) b a).
  { intros a Ha. rewrite andb_true_iff, Z.leb_le, Z.ltb_lt in Ha. right. cbn [bl_limit bl_held log_model]. rewrite H, L. set_solver. }
  apply andb_prop in Hp as [Hp Hn]. cbn [forallb] in Hp. apply andb_prop in Hp as [Ha Hp].
  split; cbn [bl_view log_model]; rewrite ?E1, ?E2; [|by apply U|by apply bool_decide_eq_true in Hn].
  apply Forall_forall. intros a Hin. apply U. rewrite forallb_forall in Hp. apply Hp. by apply list_elem_of_In.
Qed.
Lemma paths_ok : forallb path_ok (seqZ 0 12 ++ [139]) = true.
Proof. vm_compute. reflexivity. Qed.
Lemma path_ok_small bn : 0 <= bn < 12 -> path_ok bn = true.
Proof. intros Hb. pose proof paths_ok as Hp. rewrite forallb_app in Hp. apply andb_prop in Hp as [Hp _]. rewrite forallb_forall in Hp. apply Hp, list_elem_of_In, elem_of_seqZ. lia. Qed.
Lemma view_byte b o : boot_state blocks b -> path_ok (o / 512) = true -> fbyte (vw (bc b)) node o = fbyte D node o.
Proof.
  intros Hb Hp. unfold fbyte. destruct (view_path b (o / 512) Hb Hp) as [_ ->]. destruct (_ =? 0); [done|].
  destruct Hb as (_ & _ & _ & _ & _ & V). rewrite V; [done|]. apply andb_prop in Hp as [Hp _]. cbn [forallb] in Hp.
  apply andb_prop in Hp as [Hp _]. by rewrite andb_true_iff, Z.leb_le, Z.ltb_lt in Hp.
Qed.
Lemma node_separate b : boot_state blocks b -> separate (M := log_model) b node 5630 4.
Proof.
  intros Hb. assert (Hq : forall o, 5630 <= o < 5630 + 4 -> 0 <= o / 512 < 12 /\ (o / 512 = 10 \/ o / 512 = 11)) by (intros; dlia).
  assert (E : forall o, 5630 <= o < 5630 + 4 -> bpath (vw (bc b)) node (o / 512) = bpath D node (o / 512) /\ baddr (vw (bc b)) node (o / 512) = baddr D node (o / 512)).
  { intros o Ho. apply view_path; [done|]. apply path_ok_small, Hq, Ho. }
  split; cbn [bl_view log_model].
  - intros o Ho. apply node_reachable; [done|]. apply path_ok_small, Hq, Ho.
  - intros o Ho. rewrite (proj2 (E o Ho)). destruct (Hq o Ho) as [_ [-> | ->]]; vm_compute; discriminate.
  - intros o o' Ho Ho'. rewrite (proj2 (E o Ho)), (proj2 (E o' Ho')).
    destruct (Hq o Ho) as [_ [-> | ->]], (Hq o' Ho') as [_ [-> | ->]]; vm_compute; congruence.
  - intros o o' Ho Ho'. rewrite (proj2 (E o Ho)), (proj1 (E o' Ho')).
    apply (bool_decide_unpack (_ ∉ _)). destruct (Hq o Ho) as [_ [-> | ->]], (Hq o' Ho') as [_ [-> | ->]]; vm_compute; exact I.
Qed.
Definition devsw : Z -> devops blk := fun _ => {| d_read := None; d_write := None |}.
End FileWitness.

Lemma bmap_agrees_with_bmap_read_witness :
  exists a, a <> 0 /\ wp (bmap 0 139) (bres (M := log_model) (FileWitness.st FileWitness.b0) a) (FileWitness.st FileWitness.b0) /\
    wp (bmap_read 0 139) (bres (M := log_model) (FileWitness.st FileWitness.b0) a) (FileWitness.st FileWitness.b0).
Proof.
  pose proof FileWitness.b0_ok as Hb. set (b := FileWitness.b0) in *. clearbody b.
  apply (bmap_agrees_with_bmap_read (M := log_model)).
  - reflexivity.
  - apply Hb.
  - exact (proj1 (FsWitness.boot_room FileWitness.blocks 2 b Hb ltac:(lia))).
  - by apply FileWitness.node_reachable.
  - change (baddr (vw (bc b)) FileWitness.node 139 <> 0). rewrite (proj2 (FileWitness.view_path b 139 Hb eq_refl)). vm_compute. discriminate.
Defined.

Lemma readi_correct_witness :
  wp (readi FileWitness.devsw 0 5630 4) (fun r s' => r = (4, [50; 50; 42; 42])) (FileWitness.st FileWitness.b0) /\
  readi FileWitness.devsw 0 6001 4 (FileWitness.st FileWitness.b0) = Done (-1, []) (FileWitness.st FileWitness.b0).
Proof.
  pose proof FileWitness.b0_ok as Hb. set (b := FileWitness.b0) in *. clearbody b.
  assert (Hre : forall o, 0 <= o < 6000 -> reachable (M := log_model) b FileWitness.node (o / 512)).
  { intros o Ho. apply FileWitness.node_reachable; [done|]. apply FileWitness.path_ok_small. dlia. }
  assert (Hr : room (M := log_model) 2 b) by exact (proj1 (FsWitness.boot_room FileWitness.blocks 2 b Hb ltac:(lia))).
  pose proof (fun off n (H1 : 0 <= off < 2 ^ 32) (H2 : 0 <= n < 2 ^ 32) => readi_correct (M := log_model) FileWitness.devsw (FileWitness.st b) 0 off n ltac:(done) eq_refl (proj1 Hb) Hr H1 H2 ltac:(split; done) Hre) as Hc.
  pose proof (Hc 5630 4 ltac:(split; done) ltac:(split; done)) as C1. pose proof (Hc 6001 4 ltac:(split; done) ltac:(split; done)) as C2.
  change (isize (iat (FileWitness.st b) 0)) with 6000 in C1, C2.
  replace ((6000 <? 5630) || (2 ^ 32 <=? 5630 + 4)) with false in C1 by reflexivity.
  replace ((6000 <? 6001) || (2 ^ 32 <=? 6001 + 4)) with true in C2 by reflexivity.
  split; [|exact C2]. eapply wp_mono; [exact C1|]. intros r s' [-> _]. f_equal.
  change (iat (FileWitness.st b) 0) with FileWitness.node. cbn [bl_view log_model fblk FileWitness.st].
  change (Z.min 4 (6000 - 5630)) with 4. unfold fbytes.
  transitivity (fbyte FileWitness.D FileWitness.node <$> seqZ 5630 4); [|vm_compute; reflexivity].
  apply list_fmap_ext. intros j o [-> Hj]%lookup_seqZ. apply FileWitness.view_byte; [done|]. apply FileWitness.path_ok_small. dlia.
Defined.

Lemma iupdate_ilock_roundtrip_witness :
  wp (iupdate 0 ;; kmodify (upd_inode 0 (fun _ => recycle ROOTDEV 3 null_inode)) ;; ilock 0)
    (fun _ s' => dfields (iat s' 0) = dfields FileWitness.node) (FileWitness.st FileWitness.b0).
Proof.
  pose proof FileWitness.b0_ok as Hb. set (b := FileWitness.b0) in *. clearbody b.
  destruct (FsWitness.boot_room FileWitness.blocks 2 b Hb ltac:(lia)) as [Hr Hl].
  pose proof (lroom_weaken (M := log_model) 2 1 b ltac:(lia) Hl) as Hl1. pose proof Hb as (I & T & H & _ & L & _).
  eapply wp_mono; [apply (iupdate_ilock_roundtrip (M := log_model) (FileWitness.st b) 0 3 null_inode)|]; try done.
  - split; [cbn; lia|done|done|]. cbn [bl_limit log_model fblk FileWitness.st]. rewrite L. split; done.
  - split; try done. repeat constructor; done.
  - cbn [bl_held log_model fblk FileWitness.st]. rewrite H. set_solver.
  - intros ? s' [E _]. exact E.
Defined.

