(* ===== verification/FsPath.v ===== *)
(** * Paths and the inode cache of kernel/fs.c

    The path walk of [namex] against a reference that splits the path at its
    slashes and walks the list of names, and the invariant of the inode cache:
    an inode has at most one slot. *)

From Stdlib Require Import ZArith Lia.
From S2P Require Import Prelude KString Spinlock Bytes Bio BlockLayer Log Fs FsFile.

(** ** Path elements *)

(** The reference: cut at every slash, drop the empty pieces. *)
Fixpoint split_slash (p : list Z) : list (list Z) :=
  match p with
  | [] => [[]]
  | c :: r =>
      if c =? SLASH then [] :: split_slash r
      else match split_slash r with [] => [[c]] | w :: ws => (c :: w) :: ws end
  end.
Definition elems (p : list Z) : list (list Z) := filter (fun w => w <> []) (split_slash p).

Lemma split_cons c r : c <> SLASH -> exists w ws, split_slash r = w :: ws /\ split_slash (c :: r) = (c :: w) :: ws.
Proof.
  intros Hc. cbn [split_slash]. rewrite (proj2 (Z.eqb_neq _ _)) by done. destruct (split_slash r) as [|w ws] eqn:E; [|eauto].
  destruct r as [|x r]; [done|]. cbn [split_slash] in E. repeat case_match; done.
Qed.

Lemma elems_slash r : elems (SLASH :: r) = elems r.
Proof. unfold elems. cbn [split_slash]. rewrite Z.eqb_refl, filter_cons_False; [done|]. intros H. by apply H. Qed.

Lemma elems_skip p : elems (skip_slashes p) = elems p.
Proof. induction p as [|c r IH]; [done|]. cbn [skip_slashes]. destruct (Z.eqb_spec c SLASH) as [->|]; [by rewrite IH, elems_slash|done]. Qed.

Lemma skip_slashes_spec p : (length (skip_slashes p) <= length p)%nat /\ (forall c r, skip_slashes p = c :: r -> c <> SLASH) /\
  (Forall (fun c => c <> 0) p -> Forall (fun c => c <> 0) (skip_slashes p)).
Proof.
  induction p as [|c r IH]; [done|]. cbn [skip_slashes]. destruct (Z.eqb_spec c SLASH) as [->|Hc].
  - destruct IH as (H1 & H2 & H3). split_and!; [cbn [length]; lia|done|]. intros [_ H]%Forall_cons. auto.
  - split_and!; [lia| |done]. intros c' r' [= <- <-]. done.
Qed.

Lemma take_elem_spec p : Forall (fun c => c <> 0) p -> let '(e, q) := take_elem p in
  p = e ++ q /\ (exists ws, split_slash p = e :: ws /\ elems q = filter (fun w => w <> []) ws) /\
  (match q with [] => True | c :: _ => c = SLASH end).
Proof.
  induction p as [|c r IH]; intros Hz; cbn [take_elem]; [by split_and!; [|exists []|]|]. apply Forall_cons in Hz as [Hc Hz].
  specialize (IH Hz). rewrite (proj2 (Z.eqb_neq c 0)), orb_false_r by done. destruct (Z.eqb_spec c SLASH) as [->|Hs].
  - split_and!; [done| |done]. exists (split_slash r). split; [done|]. by rewrite elems_slash.
  - destruct (take_elem r) as [e q]. destruct IH as (-> & (ws & E1 & E2) & E3). split_and!; [done| |done].
    exists ws. split; [|done]. destruct (split_cons c (e ++ q) Hs) as (w' & ws' & E & ->). rewrite E in E1. by injection E1 as -> ->.
Qed.

Lemma ctake_nonul w n : Forall (fun c => c <> 0) w -> ctake (of_bytes w) n = take n w.
Proof.
  revert w. induction n as [|n IH]; intros w Hw; [done|]. cbn [ctake]. destruct w as [|c w]; [done|].
  apply Forall_cons in Hw as [Hc Hw]. change (of_bytes (c :: w) 0%nat) with c. rewrite (proj2 (Z.eqb_neq c 0)) by done.
  cbn [take]. f_equal. rewrite <- IH by done. done.
Qed.
Lemma ctake_nul w r n : Forall (fun c => c <> 0) w -> ctake (of_bytes (w ++ 0 :: r)) n = take n w.
Proof.
  revert w. induction n as [|n IH]; intros w Hw; [done|]. cbn [ctake]. destruct w as [|c w]; [done|].
  apply Forall_cons in Hw as [Hc Hw]. change (of_bytes ((c :: w) ++ 0 :: r) 0%nat) with c. rewrite (proj2 (Z.eqb_neq c 0)) by done.
  cbn [take]. f_equal. rewrite <- IH by done. done.
Qed.

Lemma no_slash_head p : p <> [] -> (forall c r, p = c :: r -> c <> SLASH) -> elems p <> [].
Proof.
  destruct p as [|c r]; [done|]. intros _ H. specialize (H c r eq_refl). destruct (split_cons c r H) as (w & ws & _ & E).
  unfold elems. by rewrite E, filter_cons_True.
Qed.

Definition nonul (p : list Z) : Prop := Forall (fun c => c <> 0) p.
Lemma deref_nul p : nonul p -> (deref p =? 0) = bool_decide (p = []).
Proof. intros Hp. destruct p as [|c r]; [done|]. apply Forall_cons in Hp as [Hc _]. cbn [deref nth]. by rewrite (proj2 (Z.eqb_neq c 0)). Qed.

Lemma skipelem_elems path name : nonul path -> length name = DIRSIZ ->
  match skipelem path name with
  | None => elems path = []
  | Some (rest, name') => exists w, elems path = w :: elems rest /\ nonul w /\ ctake (of_bytes name') DIRSIZ = take DIRSIZ w /\
      length name' = DIRSIZ /\ (length rest < length path)%nat /\ nonul rest /\ (deref rest =? 0) = bool_decide (elems rest = [])
  end.
Proof.
  intros Hp Hn. unfold skipelem. rewrite <- elems_skip. destruct (skip_slashes_spec path) as (L1 & S1 & Z1). specialize (Z1 Hp).
  rewrite deref_nul by done. case_bool_decide as E; [by rewrite E|].
  pose proof (take_elem_spec (skip_slashes path) Z1) as Ht. destruct (take_elem (skip_slashes path)) as [e q].
  destruct Ht as (Ep & (ws & E1 & E2) & Hq). rewrite Ep in Z1. apply Forall_app in Z1 as [Ze Zq].
  assert (He : e <> []).
  { intros ->. destruct q as [|c q]; [done|]. rewrite Ep in S1. cbn [app] in S1. by apply (S1 c q). }
  destruct (skip_slashes_spec q) as (L2 & S2 & Z2). specialize (Z2 Zq).
  assert (Hlen : (length e + length q <= length path)%nat) by (rewrite Ep, length_app in L1; lia).
  assert (0 < length e)%nat by (destruct e; [done|cbn [length]; lia]).
  exists e. rewrite (elems_skip q). split; [unfold elems at 1; rewrite E1, filter_cons_True by done; by rewrite E2|].
  split; [done|]. split; [|split; [|split; [lia|split; [done|]]]].
  - destruct (Nat.leb_spec DIRSIZ (length e)) as [Hle|Hlt].
    + unfold splice. rewrite take_0, length_take, Nat.min_l, drop_ge, app_nil_r by lia. cbn [app].
      rewrite ctake_nonul by by apply Forall_take. by rewrite take_take, Nat.min_id.
    + unfold splice. rewrite take_0. cbn [app Nat.add]. destruct (drop (length e) name) as [|x r] eqn:Ed.
      { apply (f_equal length) in Ed. rewrite length_drop in Ed. cbn [length] in Ed. lia. }
      rewrite insert_app_r_alt, Nat.sub_diag by lia. change (<[0%nat:=0]> (x :: r)) with (0 :: r). by rewrite ctake_nul.
  - destruct (DIRSIZ <=? length e)%nat eqn:El; rewrite ?length_insert, splice_len; try done.
    + rewrite length_take, Hn. lia.
    + apply Nat.leb_gt in El. lia.
  - rewrite deref_nul by done. rewrite <- (elems_skip q). apply bool_decide_ext. split; [by intros ->|].
    intros Ee. destruct (decide (skip_slashes q = [])); [done|]. exfalso. by eapply no_slash_head.
Qed.

Lemma strncmp_ctake n : forall p p' q, ctake p n = ctake p' n -> strncmp p q n = strncmp p' q n.
Proof.
  induction n as [|n IH]; intros p p' q; cbn [ctake strncmp]; [done|].
  destruct (Z.eqb_spec (p 0%nat) 0) as [E|E], (Z.eqb_spec (p' 0%nat) 0) as [E'|E']; intros Hc; try done; cbn [negb andb].
  - by rewrite E, E'.
  - injection Hc as Hc1 Hc2. rewrite Hc1. destruct (_ =? _); [by apply IH|done].
Qed.

(** ** The walk *)

Section walk.
Context {B : Type} `{BlockOps B} (devsw : Z -> devops B).
Notation fs := (fs B).
Implicit Types s : fs.

Lemma dirlookup_loop_name fuel dp a b : (forall t, namecmp a t = namecmp b t) -> forall off s,
  dirlookup_loop devsw fuel dp a off s = dirlookup_loop devsw fuel dp b off s.
Proof.
  intros Hab. induction fuel as [|fuel IH]; intros off s; cbn [dirlookup_loop]; [done|]. unfold kbind, kget.
  destruct (off <? _); [|done]. destruct (readi devsw dp off 16 s) as [r s'| |]; [|done..].
  destruct (negb _); [done|]. destruct (_ =? 0); [by rewrite IH|]. rewrite Hab. destruct (_ =? 0); [done|]. by rewrite IH.
Qed.
Lemma dirlookup_name dp a b s : ctake (of_bytes a) DIRSIZ = ctake (of_bytes b) DIRSIZ -> dirlookup devsw dp a s = dirlookup devsw dp b s.
Proof.
  intros Hc. unfold dirlookup, kbind, kget. destruct (negb _); [done|]. apply dirlookup_loop_name.
  intros t. unfold namecmp. by apply strncmp_ctake.
Qed.

(** The reference: one directory for each name of the list. *)
Fixpoint walk (parent : bool) (ns : list (list Z)) (ip : nat) : K fs (option nat) :=
  match ns with
  | [] => if parent then iput ip ;; kret None else kret (Some ip)
  | w :: ws =>
      ilock ip ;;
      s <- kget ;;
      if negb (itype (iat s ip) =? T_DIR) then iunlockput ip ;; kret None
      else if parent && bool_decide (ws = []) then iunlock ip ;; kret (Some ip)
      else
        r <- dirlookup devsw ip w ;;
        match r with
        | None => iunlockput ip ;; kret None
        | Some (next, _) => iunlockput ip ;; walk parent ws next
        end
  end.

Lemma namex_loop_walk parent fuel : forall path name ip s, (length path < fuel)%nat -> nonul path -> length name = DIRSIZ ->
  (r <- namex_loop devsw fuel path parent name ip ;; kret (fst r)) s = walk parent (elems path) ip s.
Proof.
  induction fuel as [|fuel IH]; intros path name ip s Hf Hp Hn; [lia|]. cbn [namex_loop].
  pose proof (skipelem_elems path name Hp Hn) as Hs. destruct (skipelem path name) as [[rest name']|].
  2: { rewrite Hs. cbn [walk]. destruct parent; [|done]. unfold kbind, kret. by destruct (iput ip s). }
  destruct Hs as (w & -> & Hw & Hc & Hl & Hlt & Hr & Hd). cbn [walk]. unfold kbind, kget, kret in *.
  destruct (ilock ip s) as [[] s1| |]; [|done..]. destruct (negb _); [by destruct (iunlockput ip s1)|]. rewrite Hd.
  destruct (parent && _); [by destruct (iunlock ip s1)|].
  rewrite (dirlookup_name ip name' w) by by rewrite Hc, ctake_nonul.
  destruct (dirlookup devsw ip w s1) as [[[next o]|] s2| |]; [..|done|done]; destruct (iunlockput ip s2) as [[] s3| |]; [|done..].
  apply IH; [lia|done|done].
Qed.

(** The element [nameiparent] leaves in the buffer. *)
Lemma namex_loop_last fuel : forall path name ip s r nm s', nonul path -> length name = DIRSIZ ->
  namex_loop devsw fuel path true name ip s = Done (Some r, nm) s' ->
  exists w, last (elems path) = Some w /\ ctake (of_bytes nm) DIRSIZ = take DIRSIZ w.
Proof.
  induction fuel as [|fuel IH]; intros path name ip s r nm s' Hp Hn; cbn [namex_loop]; [done|].
  pose proof (skipelem_elems path name Hp Hn) as Hs. destruct (skipelem path name) as [[rest name']|].
  2: { unfold kbind, kret. by destruct (iput ip s). }
  destruct Hs as (w & -> & Hw & Hc & Hl & Hlt & Hr & Hd). unfold kbind, kget, kret in *.
  destruct (ilock ip s) as [[] s1| |]; [|done..]. destruct (negb _); [by destruct (iunlockput ip s1)|]. rewrite Hd. cbn [andb].
  case_bool_decide as Ee.
  { destruct (iunlock ip s1) as [[] s2| |]; [|done..]. intros [= <- <- <-]. exists w. by rewrite Ee. }
  destruct (dirlookup devsw ip name' s1) as [[[next o]|] s2| |]; [..|done|done]; destruct (iunlockput ip s2) as [[] s3| |]; [|done..].
  intros E. apply IH in E; [|done..]. destruct E as (w' & E & ?). exists w'. split; [|done].
  destruct (elems rest); [done|]. exact E.
Qed.

(** C19. The path walk of [namex] follows the path's elements: for a path of any
    length it terminates its loop and does what walking the list of the
    non-empty pieces between the slashes does, from the root directory for a
    path that starts with a slash and from the current directory otherwise,
    names being compared by their first 14 bytes; and when [nameiparent]
    returns a directory, the buffer holds the last element. *)
Theorem namex_walks_the_path cwd path parent name s : nonul path -> length name = DIRSIZ ->
  (r <- namex devsw cwd path parent name ;; kret (fst r)) s =
    (ip <- (if deref path =? SLASH then iget ROOTDEV ROOTINO else idup cwd) ;; walk parent (elems path) ip) s /\
  (forall r nm s', nameiparent devsw cwd path name s = Done (Some r, nm) s' ->
    exists w, last (elems path) = Some w /\ ctake (of_bytes nm) DIRSIZ = take DIRSIZ w).
Proof.
  intros Hp Hn. split.
  - unfold namex. pose proof (fun ip s => namex_loop_walk parent (S (length path)) path name ip s ltac:(lia) Hp Hn) as Hw.
    unfold kbind, kret in *. destruct (_ : K fs nat) as [ip s1| |]; [apply Hw|done..].
  - intros r nm s'. unfold nameiparent, namex, kbind. destruct (_ : K fs nat) as [ip s1| |]; [|done..].
    by apply namex_loop_last.
Qed.
End walk.

(** ** One slot per inode *)

Section unique.
Context {B : Type} `{BlockOps B}.
Notation fs := (fs B).
Implicit Types s : fs.

Definition ikey (x : inode) : Z * Z := (i_dev x, inum x).
Definition uniq s : Prop := forall i j x y, icache s !! i = Some x -> icache s !! j = Some y ->
  0 < ref x -> 0 < ref y -> ikey x = ikey y -> i = j.

(** The state a computation ends in, however it ends. *)
Definition fin {S A} (o : outcome S A) : S := match o with Done _ s | Panicked _ s | Slept _ s => s end.
Class Keeps {A} (m : K fs A) : Prop := keeps_uniq s : uniq s -> uniq (fin (m s)).

#[export] Instance keeps_ret {A} (a : A) : Keeps (kret a).
Proof. by intros s. Qed.
#[export] Instance keeps_get : Keeps kget.
Proof. by intros s. Qed.
#[export] Instance keeps_gets {A} (f : fs -> A) : Keeps (kgets f).
Proof. by intros s. Qed.
#[export] Instance keeps_panic {A} msg : Keeps (A := A) (panic msg).
Proof. by intros s. Qed.
#[export] Instance keeps_ub {A} msg : Keeps (A := A) (ub msg).
Proof. by intros s. Qed.
#[export] Instance keeps_sleep {A} c : Keeps (A := A) (ksleep c).
Proof. by intros s. Qed.
#[export] Instance keeps_bind {A C} (m : K fs A) (k : A -> K fs C) : Keeps m -> (forall a, Keeps (k a)) -> Keeps (kbind m k).
Proof. intros Hm Hk s Hs. specialize (Hm s Hs). unfold kbind. destruct (m s) as [a s'| |]; cbn [fin] in *; [by apply Hk|done..]. Qed.
#[export] Instance keeps_inblk {A} (m : K B A) : Keeps (inblk m).
Proof. intros s Hs. unfold inblk, zoom. by destruct (m (fblk s)). Qed.
#[export] Instance keeps_acquire l : Keeps (acquire (S := fs) l).
Proof. intros s Hs. unfold acquire, kbind, kget. by destruct (held l s). Qed.
#[export] Instance keeps_release l : Keeps (release (S := fs) l).
Proof. intros s Hs. unfold release, kbind, kget. by destruct (held l s). Qed.
#[export] Instance keeps_wakeup ip : Keeps (kmodify (iwakeup ip)).
Proof. by intros s. Qed.

(** A change of an entry that leaves its key and does not raise its count. *)
Lemma keeps_upd ip f : (forall x, ikey (f x) = ikey x /\ ref (f x) <= ref x) -> Keeps (kmodify (upd_inode ip f)).
Proof.
  intros Hf s Hs i j x y. cbn [fin kmodify upd_inode icache]. rewrite !list_lookup_alter.
  assert (Hb : forall k z, (if decide (ip = k) then f <$> icache s !! ip else icache s !! k) = Some z ->
    exists z', icache s !! k = Some z' /\ ikey z' = ikey z /\ ref z <= ref z').
  { intros k z. case_decide as Ek; [rewrite <- Ek|eauto with lia]. intros (z' & E & ->)%fmap_Some. destruct (Hf z'). eauto. }
  intros (x' & Ex & Kx & Rx)%Hb (y' & Ey & Ky & Ry)%Hb Hx Hy Hk. apply (Hs i j x' y'); [done|done|lia|lia|congruence].
Qed.

Lemma iget_scan_spec dev n l : forall i e, match iget_scan l dev n i e with
  | inl k => exists x, (i <= k)%nat /\ l !! (k - i)%nat = Some x /\ 0 < ref x /\ ikey x = (dev, n)
  | inr o => (forall k x, l !! k = Some x -> 0 < ref x -> ikey x <> (dev, n)) /\
      match o with
      | Some k => e = Some k \/ e = None /\ exists x, (i <= k)%nat /\ l !! (k - i)%nat = Some x /\ ref x = 0
      | None => e = None /\ forall k x, l !! k = Some x -> ref x <> 0
      end
  end.
Proof.
  induction l as [|x l IH]; intros i e; cbn [iget_scan]; [split; [done|]; destruct e; [by left|done]|].
  destruct ((0 <? ref x) && (i_dev x =? dev) && (inum x =? n)) eqn:E.
  - rewrite !andb_true_iff, Z.ltb_lt, !Z.eqb_eq in E. exists x. rewrite Nat.sub_diag. unfold ikey. split_and!; [lia|done|lia|].
    destruct E as [[_ ->] ->]. done.
  - assert (Hx : 0 < ref x -> ikey x <> (dev, n)).
    { intros Hr [= E1 E2]. rewrite (proj2 (Z.ltb_lt _ _)), E1, E2, !Z.eqb_refl in E by done. done. }
    set (e' := match e with Some _ => e | None => _ end). specialize (IH (S i) e').
    destruct (iget_scan l dev n (S i) e') as [k|o].
    + destruct IH as (z & H1 & H2 & H3). exists z. replace (k - i)%nat with (S (k - S i)) by lia. split_and!; [lia|done|by destruct H3..].
    + destruct IH as [H1 H2]. split; [intros [|k] z Hz; [injection Hz as <-; done|by apply (H1 k)]|].
      destruct o as [k|].
      * destruct H2 as [H2|(H2 & z & H3 & H4 & H5)]; unfold e' in H2.
        -- destruct e; [by left|]. right. split; [done|]. destruct (Z.eqb_spec (ref x) 0); [|done]. injection H2 as <-. exists x.
           rewrite Nat.sub_diag. split_and!; [lia|done|done].
        -- destruct e; [done|]. right. split; [done|]. exists z. replace (k - i)%nat with (S (k - S i)) by lia. split_and!; [lia|done|done].
      * destruct H2 as [H2 H3]. unfold e' in H2. destruct e; [done|]. split; [done|]. destruct (Z.eqb_spec (ref x) 0); [done|].
        intros [|k] z Hz; [injection Hz as <-; done|by apply (H3 k)].
Qed.

(** An entry that takes a key no entry in use has. *)
Lemma uniq_alter (l : list inode) ip f i j x y :
  (forall i j x y, l !! i = Some x -> l !! j = Some y -> 0 < ref x -> 0 < ref y -> ikey x = ikey y -> i = j) ->
  (forall k z x, l !! ip = Some x -> l !! k = Some z -> 0 < ref z -> ikey z = ikey (f x) -> k = ip) ->
  alter f ip l !! i = Some x -> alter f ip l !! j = Some y -> 0 < ref x -> 0 < ref y -> ikey x = ikey y -> i = j.
Proof.
  intros Hu Hk. rewrite !list_lookup_alter. intros Ex Ey Hx Hy Hxy. destruct (decide (ip = i)) as [<-|Hi], (decide (ip = j)) as [<-|Hj].
  - done.
  - apply fmap_Some in Ex as (x' & Ex & ->). symmetry. by apply (Hk j y x').
  - apply fmap_Some in Ey as (y' & Ey & ->). by apply (Hk i x y').
  - by apply (Hu i j x y).
Qed.

#[export] Instance keeps_iget dev n : Keeps (iget dev n).
Proof.
  apply keeps_bind; [apply _|]. intros _ s Hs. unfold kbind, kget. pose proof (iget_scan_spec dev n (icache s) 0 None) as Hc.
  destruct (iget_scan (icache s) dev n 0 None) as [ip|[ip|]]; [..|done].
  - destruct Hc as (x & _ & Hx & Hr & Hk). rewrite Nat.sub_0_r in Hx. apply (keeps_bind (release tt) (fun _ => kret ip) _ _).
    intros i j y z. cbn [upd_inode icache]. apply uniq_alter; [apply Hs|]. intros k w x' Hx' Hw Hrw Hkw. rewrite Hx in Hx'. injection Hx' as <-.
    by apply (Hs k ip w x).
  - destruct Hc as (Hn & [?|(_ & x & _ & Hx & Hr)]); [done|]. rewrite Nat.sub_0_r in Hx. apply (keeps_bind (release tt) (fun _ => kret ip) _ _).
    intros i j y z. cbn [upd_inode icache]. apply uniq_alter; [apply Hs|]. intros k w x' Hx' Hw Hrw Hkw. by destruct (Hn k w Hw Hrw).
Qed.

Lemma idup_keeps ip s : (forall x, icache s !! ip = Some x -> 0 < ref x) -> uniq s -> uniq (fin (idup ip s)).
Proof.
  intros Hp Hs. unfold idup, acquire, kbind, kget. destruct (held tt s); [done|]. cbn [kput kmodify].
  apply (keeps_bind (release tt) (fun _ => kret ip) _ _).
  intros i j y z. cbn [upd_inode icache]. apply uniq_alter; [apply Hs|]. intros k w x Hx Hw Hrw Hkw. apply (Hs k ip w x); auto.
Qed.
End unique.

#[export] Hint Extern 2 (Keeps (kmodify (upd_inode _ _))) => (apply keeps_upd; intros ?; split; [done|cbn; lia]) : typeclass_instances.
#[export] Hint Extern 3 (Keeps (if ?b then _ else _)) => destruct b : typeclass_instances.
#[export] Hint Extern 3 (Keeps (match ?x with _ => _ end)) => destruct x : typeclass_instances.

Section keeps.
Context {B : Type} `{BlockOps B}.

#[export] Instance keeps_ilock ip : Keeps (B := B) (ilock ip).
Proof. unfold ilock. apply _. Qed.
#[export] Instance keeps_iunlock ip : Keeps (B := B) (iunlock ip).
Proof. unfold iunlock. apply _. Qed.
#[export] Instance keeps_iupdate ip : Keeps (B := B) (iupdate ip).
Proof. unfold iupdate. apply _. Qed.
#[export] Instance keeps_ialloc dev type : Keeps (B := B) (ialloc dev type).
Proof.
  unfold ialloc. apply keeps_bind; [apply _|]. intros sb. generalize 1. induction (Z.to_nat (sb_ninodes sb)); intros z; cbn [ialloc_loop]; apply _.
Qed.
#[export] Instance keeps_bmap ip bn : Keeps (B := B) (bmap ip bn).
Proof. unfold bmap, bmap_addr, bmap_slot. apply _. Qed.
#[export] Instance keeps_bmap_read ip bn : Keeps (B := B) (bmap_read ip bn).
Proof. unfold bmap_read. apply _. Qed.
#[export] Instance keeps_itrunc ip : Keeps (B := B) (itrunc ip).
Proof.
  assert (Hd : forall l, Keeps (B := B) (itrunc_direct ip l)) by (induction l; cbn [itrunc_direct]; apply _).
  unfold itrunc. apply _.
Qed.
#[export] Instance keeps_iput ip : Keeps (B := B) (iput ip).
Proof. unfold iput. apply _. Qed.
#[export] Instance keeps_iunlockput ip : Keeps (B := B) (iunlockput ip).
Proof. unfold iunlockput. apply _. Qed.

Context (devsw : Z -> devops B).
Hypothesis Hread : forall d f ip n, d_read (devsw d) = Some f -> Keeps (B := B) (f ip n).
Hypothesis Hwrite : forall d f ip src n, d_write (devsw d) = Some f -> Keeps (B := B) (f ip src n).

#[export] Instance keeps_readi ip off n : Keeps (B := B) (readi devsw ip off n).
Proof using Hread.
  assert (Hl : forall fuel off n tot acc, Keeps (B := B) (readi_loop fuel ip off n tot acc)) by (induction fuel; intros; cbn [readi_loop]; apply _).
  unfold readi. apply keeps_bind; [apply _|]. intros s. destruct (_ =? T_DEV); [|apply _]. destruct (_ || _); [apply _|].
  destruct (d_read _) eqn:E; [by eapply Hread|apply _].
Qed.
#[export] Instance keeps_writei ip src off n : Keeps (B := B) (writei devsw ip src off n).
Proof using Hwrite.
  assert (Hl : forall fuel off n tot, Keeps (B := B) (writei_loop fuel ip src off n tot)) by (induction fuel; intros; cbn [writei_loop]; apply _).
  unfold writei. apply keeps_bind; [apply _|]. intros s. destruct (_ =? T_DEV); [|apply _]. destruct (_ || _); [apply _|].
  destruct (d_write _) eqn:E; [by eapply Hwrite|apply _].
Qed.
#[export] Instance keeps_dirlookup dp name : Keeps (B := B) (dirlookup devsw dp name).
Proof using Hread.
  assert (Hl : forall fuel off, Keeps (B := B) (dirlookup_loop devsw fuel dp name off)) by (induction fuel; intros; cbn [dirlookup_loop]; apply _).
  unfold dirlookup. apply _.
Qed.
#[export] Instance keeps_dirlink dp name n : Keeps (B := B) (dirlink devsw dp name n).
Proof using Hread Hwrite.
  assert (Hl : forall fuel off, Keeps (B := B) (dirlink_slot devsw fuel dp off)) by (induction fuel; intros; cbn [dirlink_slot]; apply _).
  unfold dirlink. apply _.
Qed.
Lemma keeps_namex_loop fuel : forall path parent name ip, Keeps (B := B) (namex_loop devsw fuel path parent name ip).
Proof using Hread. induction fuel; intros; cbn [namex_loop]; apply _. Qed.

(** The operations of the inode layer. *)
Inductive fsop :=
| Iget (dev n : Z) | Idup (ip : nat) | Ilock (ip : nat) | Iunlock (ip : nat) | Iput (ip : nat) | Iunlockput (ip : nat)
| Iupdate (ip : nat) | Ialloc (dev type : Z) | Itrunc (ip : nat)
| Readi (ip : nat) (off n : Z) | Writei (ip : nat) (src : list Z) (off n : Z)
| Dirlookup (dp : nat) (name : list Z) | Dirlink (dp : nat) (name : list Z) (n : Z)
| Namex (cwd : nat) (path : list Z) (parent : bool) (name : list Z).
Definition exec (o : fsop) (s : fs B) : fs B :=
  match o with
  | Iget dev n => fin (iget dev n s)
  | Idup ip => fin (idup ip s)
  | Ilock ip => fin (ilock ip s)
  | Iunlock ip => fin (iunlock ip s)
  | Iput ip => fin (iput ip s)
  | Iunlockput ip => fin (iunlockput ip s)
  | Iupdate ip => fin (iupdate ip s)
  | Ialloc dev type => fin (ialloc dev type s)
  | Itrunc ip => fin (itrunc ip s)
  | Readi ip off n => fin (readi devsw ip off n s)
  | Writei ip src off n => fin (writei devsw ip src off n s)
  | Dirlookup dp name => fin (dirlookup devsw dp name s)
  | Dirlink dp name n => fin (dirlink devsw dp name n s)
  | Namex cwd path parent name => fin (namex devsw cwd path parent name s)
  end.
(** A reference is duplicated only where there is one. *)
Definition live (ip : nat) (s : fs B) : Prop := exists x, icache s !! ip = Some x /\ 0 < ref x.
Definition legal (o : fsop) (s : fs B) : Prop :=
  match o with Idup ip | Namex ip _ _ _ => live ip s | _ => True end.

(** The states the operations reach, completed, asleep or interleaved, from
    an empty cache. *)
Inductive ireach : fs B -> Prop :=
| ireach_init s : Forall (fun x => ref x = 0) (icache s) -> ireach (iinit s)
| ireach_step s o : ireach s -> legal o s -> ireach (exec o s).

(** The inode cache never holds an inode twice: in every state that the
    operations of the inode layer reach, two entries in use are of different
    inodes, whether an operation completed, went to sleep or panicked. *)
Theorem inode_cache_unique s : ireach s -> forall i j x y, icache s !! i = Some x -> icache s !! j = Some y ->
  0 < ref x -> 0 < ref y -> i_dev x = i_dev y -> inum x = inum y -> i = j.
Proof using Hread Hwrite.
  intros Hr. assert (Hu : uniq s).
  { induction Hr as [s Hz|s o Hr IH Hl].
    - intros i j x y Hx _ H0 _. rewrite Forall_lookup in Hz. specialize (Hz i x Hx). lia.
    - destruct o; cbn [exec]; try (apply keeps_uniq; exact IH).
      + apply idup_keeps; [|done]. intros x Hx. destruct Hl as (y & Hy & ?). rewrite Hy in Hx. by injection Hx as <-.
      + destruct Hl as (y & Hy & ?). unfold namex. destruct (deref path =? SLASH).
        * pose proof keeps_namex_loop. by apply (keeps_bind _ _ _ _).
        * unfold kbind. pose proof (idup_keeps cwd s ltac:(intros x Hx; by simplify_eq) IH) as Hd.
          destruct (idup cwd s) as [ip s1| |]; cbn [fin] in *; [|done..]. by apply keeps_namex_loop. }
  intros i j x y Hi Hj Hx Hy H1 H2. apply (Hu i j x y); try done. unfold ikey. congruence.
Qed.
End keeps.

Lemma namex_walks_the_path_witness :
  (r <- namex FileWitness.devsw 0 [47; 97; 47; 47; 98; 98] false (replicate DIRSIZ 0) ;; kret (fst r)) (FileWitness.st FileWitness.b0) =
  (ip <- iget ROOTDEV ROOTINO ;; walk FileWitness.devsw false [[97]; [98; 98]] ip) (FileWitness.st FileWitness.b0).
Proof.
  exact (proj1 (namex_walks_the_path FileWitness.devsw 0 [47; 97; 47; 47; 98; 98] false (replicate DIRSIZ 0) (FileWitness.st FileWitness.b0)
    ltac:(repeat constructor; done) eq_refl)).
Defined.

(** Two calls of [iget] for one inode. *)
Module CacheWitness.
Definition s0 (b : blk) : fs blk := {| ic_lock := false; icache := replicate NINODE null_inode; ic_wakes := []; fblk := b |}.
Definition s2 (b : blk) : fs blk := exec FileWitness.devsw (Iget ROOTDEV 5) (exec FileWitness.devsw (Iget ROOTDEV 5) (iinit (s0 b))).
Lemma s2_reach b : ireach FileWitness.devsw (s2 b).
Proof.
  exact (ireach_step _ _ (Iget ROOTDEV 5) (ireach_step _ (iinit (s0 b)) (Iget ROOTDEV 5)
    (ireach_init _ (s0 b) (Forall_replicate (fun x => ref x = 0) NINODE null_inode eq_refl)) I) I).
Qed.
End CacheWitness.

Lemma inode_cache_unique_witness : ireach FileWitness.devsw (CacheWitness.s2 FileWitness.b0) /\ forall i j x y,
  icache (CacheWitness.s2 FileWitness.b0) !! i = Some x -> icache (CacheWitness.s2 FileWitness.b0) !! j = Some y ->
  0 < ref x -> 0 < ref y -> i_dev x = i_dev y -> inum x = inum y -> i = j.
Proof.
  split; [apply CacheWitness.s2_reach|].
  exact (inode_cache_unique FileWitness.devsw (fun d f ip n H => ltac:(discriminate H)) (fun d f ip src n H => ltac:(discriminate H))
    (CacheWitness.s2 FileWitness.b0) (CacheWitness.s2_reach FileWitness.b0)).
Defined.
