(* ===== verification/FileTree.v ===== *)
(** * The blocks of the files of a disk

    The places an address can be at in a file system (include/fs.h): in an
    inode, in an indirect block, in a double-indirect block or in one of its
    blocks.  A disk is a forest when no block has two places; allocating a
    block and writing one keep that, and change the contents of one file. *)

From Stdlib Require Import ZArith Lia.
From S2P Require Import Prelude KString Spinlock Bytes Bio BlockLayer Log Fs FsFile.

(** ** Places *)

Inductive pos :=
| Direct (k : Z) | Ind | Dind | ISlot (k : Z) | Child (j : Z) | DSlot (j k : Z).
#[export] Instance pos_eq : EqDecision pos.
Proof. solve_decision. Defined.

Definition valid (p : pos) : Prop :=
  match p with
  | Direct k => 0 <= k < NDIRECT
  | Ind | Dind => True
  | ISlot k | Child k => 0 <= k < NINDIRECT
  | DSlot j k => 0 <= j < NINDIRECT /\ 0 <= k < NINDIRECT
  end.
(** The address there, 0 if there is none. *)
Definition at_pos (V : Z -> block) (i : inode) (p : pos) : Z :=
  match p with
  | Direct k => nth (Z.to_nat k) (addrs i) 0
  | Ind => ind_of i
  | Dind => dind_of i
  | ISlot k => slot V (ind_of i) k
  | Child j => slot V (dind_of i) j
  | DSlot j k => slot V (slot V (dind_of i) j) k
  end.
(** The place of the block an address is in, and its index there. *)
Definition parent (p : pos) : option (pos * Z) :=
  match p with
  | Direct _ | Ind | Dind => None
  | ISlot k => Some (Ind, k)
  | Child j => Some (Dind, j)
  | DSlot j k => Some (Child j, k)
  end.
Definition root_index (p : pos) : nat :=
  match p with Direct k => Z.to_nat k | Ind => Z.to_nat NDIRECT | _ => Z.to_nat (NDIRECT + 1) end.
(** The place of block [bn] of a file. *)
Definition data_pos (bn : Z) : pos :=
  if bn <? NDIRECT then Direct bn
  else if bn <? NDIRECT + NINDIRECT then ISlot (bn - NDIRECT)
  else DSlot ((bn - NDIRECT - NINDIRECT) / NINDIRECT) ((bn - NDIRECT - NINDIRECT) mod NINDIRECT).
(** Places of blocks of addresses. *)
Definition inner (p : pos) : bool := match p with Ind | Dind | Child _ => true | _ => false end.

(** [x] stored at place [p]. *)
Definition vset (V : Z -> block) (a : Z) (d : block) : Z -> block := fun k => if decide (k = a) then d else V k.
Definition put_blocks (V : Z -> block) (i : inode) (p : pos) (x : Z) : Z -> block :=
  match parent p with None => V | Some (q, k) => let a := at_pos V i q in vset V a (aset (V a) k x) end.
Definition put_inode (i : inode) (p : pos) (x : Z) : inode :=
  match parent p with None => set_addr (root_index p) x i | Some _ => i end.

Ltac unbound := unfold MAXFILE in *; unfold NDINDIRECT in *; unfold NDIRECT, NINDIRECT in *.

Lemma data_pos_valid bn : 0 <= bn < MAXFILE -> valid (data_pos bn) /\ inner (data_pos bn) = false.
Proof.
  intros Hb. unfold data_pos. destruct (Z.ltb_spec bn NDIRECT); [by split; [cbn; lia|]|].
  destruct (Z.ltb_spec bn (NDIRECT + NINDIRECT)); (split; [|done]); cbn [valid]; unbound; dlia.
Qed.
Lemma data_pos_inj a b : 0 <= a < MAXFILE -> 0 <= b < MAXFILE -> data_pos a = data_pos b -> a = b.
Proof.
  intros Ha Hb. unfold data_pos.
  destruct (Z.ltb_spec a NDIRECT), (Z.ltb_spec b NDIRECT); try destruct (Z.ltb_spec a (NDIRECT + NINDIRECT)); try destruct (Z.ltb_spec b (NDIRECT + NINDIRECT));
    intros E; try done; injection E; unbound; intros; dlia.
Qed.
Lemma baddr_pos V i bn : 0 <= bn < MAXFILE -> baddr V i bn = at_pos V i (data_pos bn).
Proof.
  intros Hb. unfold baddr, data_pos. destruct (bn <? NDIRECT); [done|]. destruct (bn <? NDIRECT + NINDIRECT); [done|].
  by rewrite (proj2 (Z.ltb_lt _ _)) by lia.
Qed.

Lemma aref_aset_same d n v : length d = BSIZE -> 0 <= n < NINDIRECT -> 0 <= v < 2 ^ 32 -> aref (aset d n v) n = v.
Proof. intros Hl Hn Hv. unfold aref, aset. rewrite getn_putn_same; [by rewrite Z.mod_small|]. rewrite Hl. unfold BSIZE. unbound. lia. Qed.
Lemma aref_aset_other d n m v : length d = BSIZE -> 0 <= n < NINDIRECT -> 0 <= m -> n <> m -> aref (aset d n v) m = aref d m.
Proof. intros Hl Hn Hm Hne. unfold aref, aset. apply getn_putn_other; [rewrite Hl; unfold BSIZE; unbound; lia|lia]. Qed.
Lemma aset_wf d n v : wfblock d -> 0 <= n < NINDIRECT -> wfblock (aset d n v).
Proof.
  intros [Hl Hb] Hn. split; [|by apply putn_bytes]. unfold aset. rewrite putn_len; [done|]. rewrite Hl. unfold BSIZE. unbound. lia.
Qed.
Lemma aref_zeros k : 0 <= k < NINDIRECT -> aref (replicate BSIZE 0) k = 0.
Proof.
  intros Hk. unfold aref, getn, slice. rewrite drop_replicate, take_replicate. rewrite Nat.min_l; [done|].
  unfold BSIZE. unbound. lia.
Qed.

(** ** Forests *)

(** The inodes [I] below [N], their blocks in the sectors from [lo] to [fr],
    and nothing in the sectors from [fr] on. *)
Record forest (lo fr N : Z) (V : Z -> block) (I : Z -> inode) : Prop := {
  fo_lo : 0 < lo;
  fo_wf k : wfblock (V k);
  fo_len n : 0 <= n < N -> length (addrs (I n)) = 13%nat;
  fo_range n p : 0 <= n < N -> valid p -> at_pos V (I n) p = 0 \/ lo <= at_pos V (I n) p < fr;
  fo_inj n p n' p' : 0 <= n < N -> 0 <= n' < N -> valid p -> valid p' ->
    at_pos V (I n) p = at_pos V (I n') p' -> at_pos V (I n) p <> 0 -> n = n' /\ p = p';
  fo_zero k : fr <= k -> V k = replicate BSIZE 0;
}.

Lemma slot_at V i p q k : parent p = Some (q, k) -> at_pos V i p = slot V (at_pos V i q) k.
Proof. by destruct p; intros [= <- <-]. Qed.
Lemma parent_valid p q k : parent p = Some (q, k) -> valid p -> valid q /\ 0 <= k < NINDIRECT /\ inner q = true.
Proof. destruct p; intros [= <- <-]; cbn [valid inner]; tauto. Qed.

(** Contents that differ only in blocks that hold no addresses of the inode. *)
Lemma at_pos_view V V' i : (forall q, inner q = true -> valid q -> at_pos V i q <> 0 -> forall k, 0 <= k < NINDIRECT -> aref (V' (at_pos V i q)) k = aref (V (at_pos V i q)) k) ->
  forall p, valid p -> at_pos V' i p = at_pos V i p.
Proof.
  intros Hv. assert (Hs : forall q k, inner q = true -> valid q -> 0 <= k < NINDIRECT -> slot V' (at_pos V i q) k = slot V (at_pos V i q) k).
  { intros q k Hq Hvq Hk. unfold slot. destruct (Z.eqb_spec (at_pos V i q) 0); [done|]. by apply Hv. }
  intros p Hp. destruct p; try done.
  - by apply (Hs Ind).
  - by apply (Hs Dind).
  - cbn [at_pos]. destruct Hp as [Hj Hk]. change (dind_of i) with (at_pos V i Dind). rewrite (Hs Dind) by done.
    by apply (Hs (Child j)).
Qed.

Lemma slot_vset_other V a d b k : (b <> 0 -> b <> a) -> slot (vset V a d) b k = slot V b k.
Proof. intros Hb. unfold slot, vset. destruct (Z.eqb_spec b 0); [done|]. by rewrite decide_False by auto. Qed.
Lemma slot_vset_same V a d k : a <> 0 -> slot (vset V a d) a k = aref d k.
Proof. intros Ha. unfold slot, vset. rewrite (proj2 (Z.eqb_neq _ _)) by done. by rewrite decide_True. Qed.
Lemma slot_fresh V a k : V a = replicate BSIZE 0 -> 0 <= k < NINDIRECT -> slot V a k = 0.
Proof. intros Ha Hk. unfold slot. case_match; [done|]. rewrite Ha. by apply aref_zeros. Qed.

(** An address stored in an inode. *)
Lemma at_pos_root V i p x q : length (addrs i) = 13%nat -> parent p = None -> valid p -> valid q -> at_pos V i p = 0 -> V x = replicate BSIZE 0 ->
  at_pos V (put_inode i p x) q = if decide (q = p) then x else at_pos V i q.
Proof.
  intros Hl Hn Hp Hq H0 Hx. unfold put_inode. rewrite Hn.
  assert (Hi : forall k, nth k (addrs (set_addr (root_index p) x i)) 0 = if decide (k = root_index p) then x else nth k (addrs i) 0).
  { intros k. cbn [set_addr addrs]. rewrite !nth_lookup. case_decide as E.
    - rewrite E, list_lookup_insert_eq; [done|]. rewrite Hl. destruct p; try done; cbn [root_index valid] in *; unbound; lia.
    - by rewrite list_lookup_insert_ne. }
  assert (Hind : ind_of (set_addr (root_index p) x i) = if decide (Ind = p) then x else ind_of i).
  { unfold ind_of. rewrite Hi. destruct p; try done; cbn [root_index valid] in *; unbound; repeat case_decide; try done; lia. }
  assert (Hdind : dind_of (set_addr (root_index p) x i) = if decide (Dind = p) then x else dind_of i).
  { unfold dind_of. rewrite Hi. destruct p; try done; cbn [root_index valid] in *; unbound; repeat case_decide; try done; lia. }
  destruct q as [k| | |k|j|j k]; cbn [at_pos valid] in *.
  - rewrite Hi. destruct p as [k'| | | | |]; try done; cbn [root_index valid] in *.
    + destruct (decide (k = k')) as [->|]; [by rewrite !decide_True|]. rewrite !decide_False; [done|congruence|lia].
    + rewrite !decide_False; [done..|unbound; lia].
    + rewrite !decide_False; [done..|unbound; lia].
  - done.
  - done.
  - rewrite Hind. destruct (decide (Ind = p)) as [<-|]; [|by rewrite (decide_False (P := ISlot k = p)) by by intros <-].
    rewrite decide_False by done. rewrite slot_fresh by done. cbn [at_pos] in H0. by rewrite H0.
  - rewrite Hdind. destruct (decide (Dind = p)) as [<-|]; [|by rewrite (decide_False (P := Child j = p)) by by intros <-].
    rewrite decide_False by done. rewrite slot_fresh by done. cbn [at_pos] in H0. by rewrite H0.
  - rewrite Hdind. destruct (decide (Dind = p)) as [<-|]; [|by rewrite (decide_False (P := DSlot j k = p)) by by intros <-].
    rewrite decide_False by done. destruct Hq. rewrite (slot_fresh V x) by done. cbn [at_pos] in H0. by rewrite H0.
Qed.

(** An address stored in a block of addresses. *)
Lemma at_pos_slot V i p x q q0 k0 : parent p = Some (q0, k0) -> valid p -> valid q -> at_pos V i p = 0 ->
  let a := at_pos V i q0 in a <> 0 -> length (V a) = BSIZE -> 0 <= x < 2 ^ 32 -> V x = replicate BSIZE 0 -> x <> a ->
  (forall q, inner q = true -> valid q -> at_pos V i q = a -> q = q0) ->
  at_pos (vset V a (aset (V a) k0 x)) i q = if decide (q = p) then x else at_pos V i q.
Proof.
  intros Hpar Hp Hq H0 a Ha Hl Hx Hz Hxa Hinj.
  assert (Hne : forall q k, inner q = true -> valid q -> q <> q0 -> slot (vset V a (aset (V a) k0 x)) (at_pos V i q) k = slot V (at_pos V i q) k).
  { intros q' k Hi Hv Hn. apply slot_vset_other. intros _ E. by apply Hn, Hinj. }
  assert (Hsame : forall k, 0 <= k < NINDIRECT -> 0 <= k0 < NINDIRECT -> slot (vset V a (aset (V a) k0 x)) a k = if decide (k = k0) then x else slot V a k).
  { intros k Hk Hk0. rewrite slot_vset_same by done. case_decide as E; [rewrite E; by apply aref_aset_same|].
    rewrite aref_aset_other by (done || lia). unfold slot. by rewrite (proj2 (Z.eqb_neq _ _)). }
  destruct p as [| | |k1|j1|j1 k1]; try done; injection Hpar as <- <-; cbn [valid] in Hp.
  - assert (Hc : forall j, 0 <= j < NINDIRECT -> slot (vset V a (aset (V a) k1 x)) (dind_of i) j = slot V (dind_of i) j).
    { intros j Hj. by apply (Hne Dind). }
    destruct q as [k| | |k|j|j k]; cbn [at_pos valid] in *; try done.
    + fold a. rewrite Hsame by done. repeat case_decide; congruence.
    + by apply (Hne Dind).
    + destruct Hq as [Hj Hk]. rewrite (Hc j Hj). by apply (Hne (Child j)).
  - destruct q as [k| | |k|j|j k]; cbn [at_pos valid] in *; try done.
    + by apply (Hne Ind).
    + fold a. rewrite Hsame by done. repeat case_decide; congruence.
    + destruct Hq as [Hj Hk]. fold a. rewrite Hsame, (decide_False (P := DSlot j k = Child j1)) by done.
      destruct (decide (j = j1)) as [->|Hjj]; [|by apply (Hne (Child j))]. fold a in H0. rewrite H0.
      rewrite slot_vset_other by done. by rewrite slot_fresh.
  - destruct Hp as [Hj1 Hk1]. assert (Hc : forall j, 0 <= j < NINDIRECT -> slot (vset V a (aset (V a) k1 x)) (dind_of i) j = slot V (dind_of i) j).
    { intros j Hj. by apply (Hne Dind). }
    destruct q as [k| | |k|j|j k]; cbn [at_pos valid] in *; try done.
    + by apply (Hne Ind).
    + by apply (Hne Dind).
    + destruct Hq as [Hj Hk]. rewrite (Hc j Hj). destruct (decide (j = j1)) as [->|Hjj].
      * fold a. rewrite Hsame by done. repeat case_decide; congruence.
      * rewrite decide_False by congruence. apply (Hne (Child j)); [done|done|congruence].
Qed.

(** Allocation: sector [fr] at the empty place [p] of inode [n]. *)
Section alloc.
Context (lo fr N : Z) (V : Z -> block) (I : Z -> inode) (n : Z) (p : pos).
Hypotheses (F : forest lo fr N V I) (Hn : 0 <= n < N) (Hp : valid p) (H0 : at_pos V (I n) p = 0) (Hlo : lo <= fr < 2 ^ 32)
  (Hpar : forall q k, parent p = Some (q, k) -> at_pos V (I n) q <> 0).

Local Lemma if_here {A} (q : pos) (a b : A) : (if decide (n = n /\ q = p) then a else b) = if decide (q = p) then a else b.
Proof. clear. repeat case_decide; naive_solver. Qed.
Local Lemma if_there {A} m (q : pos) (a b : A) : m <> n -> (if decide (m = n /\ q = p) then a else b) = b.
Proof. clear. case_decide; naive_solver. Qed.

Definition alloc_inodes (m : Z) : inode := if decide (m = n) then put_inode (I n) p fr else I m.

Lemma alloc_at m q : 0 <= m < N -> valid q ->
  at_pos (put_blocks V (I n) p fr) (alloc_inodes m) q = if decide (m = n /\ q = p) then fr else at_pos V (I m) q.
Proof.
  intros Hm Hq. destruct F as [F1 F2 F3 F4 F5 F6]. unfold alloc_inodes. destruct (parent p) as [[q0 k0]|] eqn:E.
  - specialize (Hpar q0 k0 eq_refl). destruct (parent_valid p q0 k0 E Hp) as (Hq0 & Hk0 & Hin). set (a := at_pos V (I n) q0) in *.
    assert (Ha : lo <= a < fr) by (destruct (F4 n q0 Hn Hq0); [done|done]).
    unfold put_blocks, put_inode. rewrite E. fold a. destruct (decide (m = n)) as [->|Hne].
    + pose proof (at_pos_slot V (I n) p fr q q0 k0 E Hp Hq H0) as Hs. cbv zeta in Hs. fold a in Hs.
      rewrite Hs; [by rewrite if_here|done|apply F2|lia|apply F6; lia|lia|].
      intros q' Hi Hv Ea. destruct (F5 n q' n q0 Hn Hn Hv Hq0) as [_ ?]; [done|by rewrite Ea|done].
    + rewrite if_there by done. apply at_pos_view; [|done]. intros q' Hi Hv Hnz k Hk. unfold vset. rewrite decide_False; [done|].
      intros Ea. destruct (F5 m q' n q0 Hm Hn Hv Hq0); done.
  - unfold put_blocks. rewrite E. destruct (decide (m = n)) as [->|Hne]; [|by rewrite if_there].
    rewrite at_pos_root by (done || apply F3 || apply F6; lia). by rewrite if_here.
Qed.

(** The blocks that are not blocks of addresses keep their contents. *)
Lemma alloc_data k : (forall q, inner q = true -> valid q -> at_pos V (I n) q = k -> k = 0) -> k <> 0 -> put_blocks V (I n) p fr k = V k.
Proof.
  intros Hk Hk0. unfold put_blocks. destruct (parent p) as [[q0 k0]|] eqn:E; [|done]. unfold vset. rewrite decide_False; [done|].
  intros Ea. apply Hk0. destruct (parent_valid p q0 k0 E Hp) as (? & ? & ?). by apply (Hk q0).
Qed.

Lemma forest_alloc : forest lo (fr + 1) N (put_blocks V (I n) p fr) alloc_inodes.
Proof.
  pose proof F as [F1 F2 F3 F4 F5 F6]. split.
  - done.
  - intros k. unfold put_blocks. destruct (parent p) as [[q0 k0]|] eqn:E; [|done]. unfold vset. case_decide; [|done].
    apply aset_wf; [done|]. by eapply parent_valid.
  - intros m Hm. unfold alloc_inodes. case_decide; [|by apply F3]. unfold put_inode. destruct (parent p); [by apply F3|].
    cbn [set_addr addrs]. rewrite length_insert. by apply F3.
  - intros m q Hm Hq. rewrite alloc_at by done. case_decide; [lia|]. destruct (F4 m q Hm Hq); [by left|right; lia].
  - intros m q m' q' Hm Hm' Hq Hq'. rewrite !alloc_at by done.
    destruct (decide (m = n /\ q = p)) as [[-> ->]|H1], (decide (m' = n /\ q' = p)) as [[-> ->]|H2].
    + done.
    + intros Ea. destruct (F4 m' q' Hm' Hq'); lia.
    + intros Ea. destruct (F4 m q Hm Hq); lia.
    + by apply F5.
  - intros k Hk. unfold put_blocks. destruct (parent p) as [[q0 k0]|] eqn:E; [|apply F6; lia]. unfold vset. rewrite decide_False; [apply F6; lia|].
    destruct (parent_valid p q0 k0 E Hp) as (Hq0 & _ & _). destruct (F4 n q0 Hn Hq0); lia.
Qed.
End alloc.

Definition inrange (o : Z) : Prop := 0 <= o < MAXFILE * 512.
Lemma inrange_bn o : inrange o -> 0 <= o / 512 < MAXFILE.
Proof. unfold inrange. intros. dlia. Qed.
Lemma nth_zeros k : nth k (replicate BSIZE 0) 0 = 0.
Proof. rewrite nth_lookup. destruct (replicate BSIZE 0 !! k) eqn:E; [|done]. by apply lookup_replicate in E as [-> _]. Qed.

(** A data block is not a block of addresses. *)
Lemma data_not_inner lo fr N V I m n bn q : forest lo fr N V I -> 0 <= m < N -> 0 <= n < N -> 0 <= bn < MAXFILE ->
  inner q = true -> valid q -> at_pos V (I m) (data_pos bn) <> 0 -> at_pos V (I n) q <> at_pos V (I m) (data_pos bn).
Proof.
  intros F Hm Hn Hb Hi Hv Hnz E. destruct (data_pos_valid bn Hb) as [Hvd Hid].
  destruct (fo_inj _ _ _ _ _ F m (data_pos bn) n q) as [_ Eq]; [done..|]. by rewrite Eq, Hi in Hid.
Qed.

(** Allocation changes the contents of no file. *)
Lemma alloc_fbyte lo fr N V I n p m o : forest lo fr N V I -> 0 <= n < N -> valid p -> at_pos V (I n) p = 0 -> lo <= fr < 2 ^ 32 ->
  (forall q k, parent p = Some (q, k) -> at_pos V (I n) q <> 0) -> 0 <= m < N -> inrange o ->
  fbyte (put_blocks V (I n) p fr) (alloc_inodes fr I n p m) o = fbyte V (I m) o.
Proof.
  intros F Hn Hp H0 Hlo Hpar Hm Ho. pose proof (inrange_bn o Ho) as Hb. destruct (data_pos_valid _ Hb) as [Hvd Hid].
  unfold fbyte. rewrite !baddr_pos by done. rewrite (alloc_at lo fr N) by done. case_decide as E.
  - destruct E as [-> E]. rewrite E, H0. cbn [Z.eqb]. rewrite (proj2 (Z.eqb_neq _ _)) by (pose proof (fo_lo _ _ _ _ _ F); lia).
    unfold put_blocks. destruct (parent p) as [[q k]|] eqn:Ep; [|by rewrite (fo_zero _ _ _ _ _ F), nth_zeros by lia].
    unfold vset. rewrite decide_False; [by rewrite (fo_zero _ _ _ _ _ F), nth_zeros by lia|].
    destruct (parent_valid p q k Ep Hp) as (Hq & _ & _). destruct (fo_range _ _ _ _ _ F n q Hn Hq) as [Ex|?]; [|lia]. by destruct (Hpar q k).
  - destruct (Z.eqb_spec (at_pos V (I m) (data_pos (o / 512))) 0) as [|Hnz]; [done|]. rewrite alloc_data by (try done; intros q Hi Hv Eq; exfalso; by eapply (data_not_inner lo fr N V I m n)). done.
Qed.

(** Writing a data block changes the contents of its file there. *)
Section write.
Context (lo fr N : Z) (V : Z -> block) (I : Z -> inode) (n bn : Z) (d : block).
Hypotheses (F : forest lo fr N V I) (Hn : 0 <= n < N) (Hb : 0 <= bn < MAXFILE) (Hd : wfblock d).
Let a := at_pos V (I n) (data_pos bn).
Hypothesis (Ha : a <> 0).

Lemma write_at m q : 0 <= m < N -> valid q -> at_pos (vset V a d) (I m) q = at_pos V (I m) q.
Proof.
  intros Hm Hq. apply at_pos_view; [|done]. intros q' Hi Hv Hnz k Hk. unfold vset. rewrite decide_False; [done|].
  by eapply (data_not_inner lo fr N V I n m).
Qed.
Lemma forest_write : forest lo fr N (vset V a d) I.
Proof.
  pose proof F as [F1 F2 F3 F4 F5 F6]. split; [done| |done|..].
  - intros k. unfold vset. by case_decide.
  - intros m q Hm Hq. rewrite write_at by done. by apply F4.
  - intros m q m' q' Hm Hm' Hq Hq'. rewrite !write_at by done. by apply F5.
  - intros k Hk. unfold vset. rewrite decide_False; [by apply F6|]. destruct (data_pos_valid bn Hb) as [Hv _]. pose proof (F4 n (data_pos bn) Hn Hv) as Hr. fold a in Hr. lia.
Qed.
Lemma write_fbyte m o : 0 <= m < N -> inrange o ->
  fbyte (vset V a d) (I m) o = if decide (m = n /\ o / 512 = bn) then nth (Z.to_nat (o mod 512)) d 0 else fbyte V (I m) o.
Proof.
  intros Hm Ho. pose proof (inrange_bn o Ho) as Hbo. destruct (data_pos_valid _ Hbo) as [Hv _], (data_pos_valid _ Hb) as [Hvb _]. unfold fbyte.
  rewrite !baddr_pos, write_at by done. case_decide as E.
  - destruct E as [-> ->]. fold a. rewrite (proj2 (Z.eqb_neq _ _)) by done. unfold vset. by rewrite decide_True.
  - destruct (Z.eqb_spec (at_pos V (I m) (data_pos (o / 512))) 0) as [|Hnz]; [done|]. unfold vset. rewrite decide_False; [done|].
    intros Ea. apply E. destruct (fo_inj _ _ _ _ _ F m (data_pos (o / 512)) n (data_pos bn)) as [-> Ep]; [done..|].
    split; [done|]. by apply data_pos_inj.
Qed.
End write.
