(* ===== verification/Mkfs.v ===== *)
(** * The image builder (tools/mkfs.c)

    The image as a function from sectors to blocks with the length of its
    file, the counters of mkfs, and every function of mkfs.c; the theorem is
    that the files of the image, read the way kernel/fs.c reads files, are
    the files mkfs was given. *)

From Stdlib Require Import ZArith Lia Ascii.
From S2P Require Import Prelude KString Spinlock Bytes Bio BlockLayer Log Fs FsFile FileTree.

(** ** State *)

(** The globals that are set once. *)
Record geom := { g_nlog : Z; g_ninodes : Z; g_size : Z }.
Definition default_geom : geom := {| g_nlog := LOGSIZE; g_ninodes := 1024; g_size := 65536 |}.
Definition bitblocks (g : geom) : Z := g_size g / (512 * 8) + 1.
Definition usedblocks0 (g : geom) : Z := NINODEBLOCKS (g_ninodes g) + 3 + bitblocks g.
Definition nblocks (g : geom) : Z := g_size g - usedblocks0 g - g_nlog g.

Record mkfs := {
  img : Z -> block;
  flen : Z; (* sectors in the image file *)
  freeblock : Z;
  usedblocks : Z;
  freeinode : Z;
}.

(** A [uint] or [ushort] stored byte by byte and read back on a little-endian
    host. *)
Definition xshort (x : Z) : Z := le_dec (le_enc 2 x).
Definition xint (x : Z) : Z := le_dec (le_enc 4 x).

(** [perror] or a failed [assert], then [exit(1)]. *)
Definition die {A} (msg : string) : K mkfs A := panic msg.
Definition wsect (sec : Z) (buf : block) : K mkfs unit :=
  kmodify (fun s => {| img := vset (img s) sec buf; flen := Z.max (flen s) (sec + 1); freeblock := freeblock s;
                       usedblocks := usedblocks s; freeinode := freeinode s |}).
(** Reading past the end of the image fails. *)
Definition rsect (sec : Z) : K mkfs block :=
  s <- kget ;; if sec <? flen s then kret (img s sec) else die "read".

Definition i2b (inum : Z) : Z := u32 (inum / IPB + 2).
Definition winode (inum : Z) (din : inode) : K mkfs unit :=
  d <- rsect (i2b inum) ;; wsect (i2b inum) (store_dinode (dinode_off inum) din d).
Definition rinode (inum : Z) : K mkfs inode :=
  d <- rsect (i2b inum) ;; kret (load_dinode (dinode_off inum) d null_inode).

Definition mk_ialloc (type : Z) : K mkfs Z :=
  s <- kget ;;
  let inum := freeinode s in
  kput {| img := img s; flen := flen s; freeblock := freeblock s; usedblocks := usedblocks s; freeinode := inum +u 1 |} ;;
  winode inum {| i_dev := 0; inum := 0; ref := 0; i_busy := false; i_valid := false; itype := xshort type; major := 0; minor := 0;
                 nlink := xshort 1; isize := xint 0; addrs := replicate 13 0 |} ;;
  kret inum.

(** [mk_balloc]: the bits of one block of the bitmap, then the blocks. *)
Fixpoint bitmap_bits (n : nat) (b off used : Z) (buf : block) : block :=
  match n with
  | O => buf
  | S n' => if off + b <? used then bitmap_bits n' (b + 1) off used (bit_set buf b) else buf
  end.
Fixpoint balloc_blocks (n : nat) (g : geom) (bi used : Z) : K mkfs unit :=
  match n with
  | O => kret tt
  | S n' =>
      let off := bi *u BPB in
      if used <=? off then kret tt
      else
        wsect (NINODEBLOCKS (g_ninodes g) + 3 + bi) (bitmap_bits (Z.to_nat BPB) 0 off used (replicate BSIZE 0)) ;;
        balloc_blocks n' g (bi + 1) used
  end.
Definition mk_balloc (g : geom) (used : Z) : K mkfs unit :=
  if g_size g <? used then die "assert used <= size" else balloc_blocks (Z.to_nat (bitblocks g)) g 0 used.

(** [freeblock++; usedblocks++]. *)
Definition take_free : K mkfs Z :=
  s <- kget ;;
  kput {| img := img s; flen := flen s; freeblock := freeblock s +u 1; usedblocks := usedblocks s +u 1; freeinode := freeinode s |} ;;
  kret (freeblock s).
(** An address of the inode, allocated if it is 0. *)
Definition map_root (idx : nat) (din : inode) : K mkfs inode :=
  if xint (nth idx (addrs din) 0) =? 0 then x <- take_free ;; kret (set_addr idx (xint x) din) else kret din.
(** An address of a block of addresses, allocated if it is 0. *)
Definition map_slot (a k : Z) : K mkfs Z :=
  d <- rsect a ;;
  if aref d k =? 0 then
    x <- take_free ;;
    wsect a (aset d k (xint x)) ;;
    kret (xint (aref (aset d k (xint x)) k))
  else kret (xint (aref d k)).

(** The sector of block [fbn] of the file. *)
Definition map_block (din : inode) (fbn : Z) : K mkfs (Z * inode) :=
  if fbn <? NDIRECT then
    din <- map_root (Z.to_nat fbn) din ;;
    kret (xint (nth (Z.to_nat fbn) (addrs din) 0), din)
  else if fbn <? NDIRECT + NINDIRECT then
    din <- map_root (Z.to_nat NDIRECT) din ;;
    x <- map_slot (xint (nth (Z.to_nat NDIRECT) (addrs din) 0)) (fbn - NDIRECT) ;;
    kret (x, din)
  else
    let bn := fbn - NDIRECT - NINDIRECT in
    din <- map_root (Z.to_nat (NDIRECT + 1)) din ;;
    x2 <- map_slot (xint (nth (Z.to_nat (NDIRECT + 1)) (addrs din) 0)) (bn / NINDIRECT) ;;
    x <- map_slot x2 (bn mod NINDIRECT) ;;
    kret (x, din).

Fixpoint iappend_loop (fuel : nat) (din : inode) (off : Z) (p : list Z) : K mkfs (inode * Z) :=
  match fuel with
  | O => ub "iappend: out of fuel"
  | S f =>
      let n := Z.of_nat (length p) in
      if 0 <? n then
        let fbn := off / 512 in
        if MAXFILE <=? fbn then die "assert fbn < MAXFILE"
        else
          r <- map_block din fbn ;;
          let n1 := Z.to_nat (Z.min n ((fbn + 1) * 512 - off)) in
          buf <- rsect (fst r) ;;
          wsect (fst r) (splice (Z.to_nat (off - fbn * 512)) (take n1 p) buf) ;;
          iappend_loop f (snd r) (off +u Z.of_nat n1) (drop n1 p)
      else kret (din, off)
  end.
Definition mk_iappend (inum : Z) (p : list Z) : K mkfs unit :=
  din <- rinode inum ;;
  r <- iappend_loop (S (length p)) din (xint (isize din)) p ;;
  winode inum (set_isize (xint (snd r)) (fst r)).

Definition mk_diralign (inum : Z) : K mkfs unit :=
  din <- rinode inum ;;
  let off := xint (isize din) in
  let off := (off / 512 + 1) *u 512 in
  winode inum (set_isize (xint off) din).

(** ** The contents of the image *)

(** What [main] builds the image with. *)
Class MkOps (M : Type) := {
  mo_ialloc : Z -> K M Z;
  mo_iappend : Z -> list Z -> K M unit;
  mo_diralign : Z -> K M unit;
}.
#[export] Instance mkfs_ops : MkOps mkfs := { mo_ialloc := mk_ialloc; mo_iappend := mk_iappend; mo_diralign := mk_diralign }.

Fixpoint str (s : string) : list Z :=
  match s with EmptyString => [] | String c r => Z.of_N (N_of_ascii c) :: str r end.

Section main.
Context {M : Type} `{MkOps M}.
(** The files of the host: what the calls of [read] return one after the
    other, if the file can be opened. *)
Context (host : list Z -> option (list (list Z))).

Definition dirlink_raw (dirino inum : Z) (name : list Z) : K M unit := mo_iappend dirino (mk_dirent name (xshort inum)).
Definition mk_dir (parent : Z) (name : list Z) : K M Z :=
  inum <- mo_ialloc T_DIR ;;
  dirlink_raw parent inum name ;;
  mo_iappend inum (mk_dirent (str ".") (xshort inum)) ;;
  mo_iappend inum (mk_dirent (str "..") (xshort parent)) ;;
  kret inum.

Fixpoint append_all (inum : Z) (chunks : list (list Z)) : K M unit :=
  match chunks with
  | [] => kret tt
  | c :: r => mo_iappend inum c ;; append_all inum r
  end.
Definition add_file (parent : Z) (name : list Z) (chunks : list (list Z)) : K M unit :=
  inum <- mo_ialloc T_FILE ;;
  dirlink_raw parent inum name ;;
  append_all inum chunks.

Definition tcc_hdrs : list (string * string) :=
  [("assert.h", "user/lua/include/assert.h"); ("ctype.h", "user/lua/include/ctype.h"); ("errno.h", "user/lua/include/errno.h");
   ("float.h", "user/lua/include/float.h"); ("limits.h", "user/lua/include/limits.h"); ("locale.h", "user/lua/include/locale.h");
   ("math.h", "user/lua/include/math.h"); ("printf.h", "user/lua/include/printf.h"); ("setjmp.h", "user/lua/include/setjmp.h");
   ("signal.h", "user/lua/include/signal.h"); ("stdio.h", "user/lua/include/stdio.h"); ("stdlib.h", "user/lua/include/stdlib.h");
   ("string.h", "user/lua/include/string.h"); ("time.h", "user/lua/include/time.h");
   ("stdarg.h", "thirdparty/tcc-0.9.25/include/stdarg.h"); ("stdbool.h", "thirdparty/tcc-0.9.25/include/stdbool.h");
   ("stddef.h", "user/tcc/include/stddef.h"); ("tcclib.h", "thirdparty/tcc-0.9.25/include/tcclib.h")]%string.
Definition tcc_libs : list (string * string) :=
  [("libtcc1_rt.o", "build/libtcc1_rt.o"); ("libsirpairrt.a", "build/libsirpairrt.a")]%string.
Fixpoint add_tcc (dir : Z) (l : list (string * string)) : K M unit :=
  match l with
  | [] => kret tt
  | (name, path) :: r =>
      match host (str path) with
      | None => panic "open"
      | Some chunks => add_file dir (str name) chunks ;; add_tcc dir r
      end
  end.
Definition build_tcc (rootino homeino : Z) : K M unit :=
  tccroot <- mk_dir rootino (str "tcc") ;;
  tccinc <- mk_dir tccroot (str "include") ;;
  tcclib <- mk_dir tccroot (str "lib") ;;
  add_tcc tccinc tcc_hdrs ;;
  add_tcc tcclib tcc_libs ;;
  (match host (str "user/kk.c") with
   | Some chunks => add_file homeino (str "kk.c") chunks
   | None => kret tt
   end) ;;
  mo_diralign tccroot ;;
  mo_diralign tccinc ;;
  mo_diralign tcclib.

(** [strrchr(s, '/')] plus one. *)
Fixpoint after_slash (s : list Z) : option (list Z) :=
  match s with
  | [] => None
  | c :: r => match after_slash r with Some q => Some q | None => if c =? SLASH then Some r else None end
  end.
Definition base_name (arg : list Z) : list Z := match after_slash arg with Some q => q | None => arg end.
Fixpoint add_args (rootino homeino binino : Z) (args : list (list Z)) : K M unit :=
  match args with
  | [] => kret tt
  | arg :: r =>
      match host arg with
      | None => panic "open"
      | Some chunks =>
          let name := base_name arg in
          let underscore := deref name =? 95 in
          let target := if underscore then drop 1 name else name in
          let parent := if underscore then if bool_decide (target = str "init") then rootino else binino else homeino in
          add_file parent target chunks ;;
          add_args rootino homeino binino r
      end
  end.

(** From the root directory to the last [diralign]. *)
Definition build (args : list (list Z)) : K M unit :=
  rootino <- mo_ialloc T_DIR ;;
  if negb (rootino =? ROOTINO) then panic "assert rootino == ROOTINO"
  else
    mo_iappend rootino (mk_dirent (str ".") (xshort rootino)) ;;
    mo_iappend rootino (mk_dirent (str "..") (xshort rootino)) ;;
    homeino <- mk_dir rootino (str "home") ;;
    binino <- mk_dir rootino (str "bin") ;;
    devino <- mk_dir rootino (str "dev") ;;
    libino <- mk_dir rootino (str "lib") ;;
    build_tcc rootino homeino ;;
    add_args rootino homeino binino args ;;
    mo_diralign rootino ;;
    mo_diralign homeino ;;
    mo_diralign binino ;;
    mo_diralign devino ;;
    mo_diralign libino.
End main.

Fixpoint zero_image (n : nat) (i : Z) : K mkfs unit :=
  match n with
  | O => kret tt
  | S n' => wsect i (replicate BSIZE 0) ;; zero_image n' (i + 1)
  end.
Definition super (g : geom) : block :=
  putn 4 0 (xint (g_size g)) (putn 4 4 (xint (nblocks g)) (putn 4 8 (xint (g_ninodes g)) (putn 4 12 (xint (g_nlog g)) (replicate BSIZE 0)))).
(** [main] on a new image file, with the names of the files to install. *)
Definition main (g : geom) (host : list Z -> option (list (list Z))) (args : list (list Z)) : K mkfs unit :=
  if nblocks g <=? 0 then die "invalid geometry"
  else
    kput {| img := fun _ => replicate BSIZE 0; flen := 0; freeblock := usedblocks0 g; usedblocks := usedblocks0 g; freeinode := 1 |} ;;
    zero_image (Z.to_nat (nblocks g + usedblocks0 g + g_nlog g)) 0 ;;
    wsect 1 (super g) ;;
    build host args ;;
    s <- kget ;;
    mk_balloc g (usedblocks s).

(** ** Outcomes *)

(** [m] ends in [Q], or because a sector past the end of the image is read. *)
Definition mwp {A} (m : K mkfs A) (Q : A -> mkfs -> Prop) (s : mkfs) : Prop :=
  match m s with Done a s' => Q a s' | Panicked msg _ => msg = "read" | Slept _ _ => False end.
Lemma mwp_ret {A} (a : A) Q s : Q a s -> mwp (kret a) Q s.
Proof. done. Qed.
Lemma mwp_bind {A C} (m : K mkfs A) (k : A -> K mkfs C) Q s : mwp m (fun a => mwp (k a) Q) s -> mwp (x <- m ;; k x) Q s.
Proof. unfold mwp, kbind. by destruct (m s). Qed.
Lemma mwp_mono {A} (m : K mkfs A) Q Q' s : mwp m Q s -> (forall a s', Q a s' -> Q' a s') -> mwp m Q' s.
Proof. unfold mwp. destruct (m s); auto. Qed.
Lemma mwp_rsect {A} (k : block -> K mkfs A) Q s sec : (sec < flen s -> mwp (k (img s sec)) Q s) -> mwp (d <- rsect sec ;; k d) Q s.
Proof. intros Hk. unfold rsect, mwp, kbind, kget, kret, die, panic in *. destruct (Z.ltb_spec sec (flen s)); [by apply Hk|done]. Qed.

Lemma xint_id x : 0 <= x < 2 ^ 32 -> xint x = x.
Proof. intros Hx. unfold xint. rewrite le_dec_enc. by apply Z.mod_small. Qed.
Lemma xshort_id x : 0 <= x < 2 ^ 16 -> xshort x = x.
Proof. intros Hx. unfold xshort. rewrite le_dec_enc. by apply Z.mod_small. Qed.

Lemma s16_range x : - 2 ^ 15 <= s16 x < 2 ^ 15.
Proof. unfold s16, u16. cbv zeta. zcases; dlia. Qed.
Lemma load_wf off d i : wfblock d -> (off + 64 <= BSIZE)%nat -> wf_inode (load_dinode off d i).
Proof.
  intros [Hl Hb] Ho. split; cbn [load_dinode itype major minor nlink isize addrs]; try apply s16_range; try done.
  - apply (getn_range 4); [done|]. rewrite Hl. lia.
  - apply Forall_fmap, Forall_forall. intros j Hj%elem_of_seq. apply (getn_range 4); [done|]. rewrite Hl. lia.
Qed.
Lemma addr_range i k : wf_inode i -> 0 <= nth k (addrs i) 0 < 2 ^ 32.
Proof. intros Hw. rewrite nth_lookup. destruct (addrs i !! k) eqn:E; cbn; [|lia]. exact (proj1 (Forall_lookup _ _) (wi_addrs _ Hw) k _ E). Qed.
Lemma set_addr_wf i k x : wf_inode i -> 0 <= x < 2 ^ 32 -> wf_inode (set_addr k x i).
Proof. intros [W1 W2 W3 W4 W5 W6 W7] Hx. split; cbn [set_addr itype major minor nlink isize addrs]; try done; [by rewrite length_insert|by apply Forall_insert]. Qed.
Lemma set_isize_wf i x : wf_inode i -> 0 <= x < 2 ^ 32 -> wf_inode (set_isize x i).
Proof. intros [W1 W2 W3 W4 W5 W6 W7] Hx. by split. Qed.
Lemma aref_range d k : wfblock d -> 0 <= k < NINDIRECT -> 0 <= aref d k < 2 ^ 32.
Proof. intros [Hl Hb] Hk. apply (getn_range 4); [done|]. rewrite Hl. unfold BSIZE. unbound. lia. Qed.

(** ** Appending to inode [n] *)

Definition dinode_of (V : Z -> block) (n : Z) : inode := load_dinode (dinode_off n) (V (i2b n)) null_inode.

Section append.
Context (lo N n L fi : Z) (V0 : Z -> block).
Hypotheses (Hn : 0 <= n < N) (HL : 0 < lo <= L) (HL2 : L < 2 ^ 31).

(** The inodes with [din], not yet stored, for inode [n]. *)
Definition ov (din : inode) (m : Z) : inode := if decide (m = n) then din else dinode_of V0 m.
Record tst (s : mkfs) (din : inode) : Prop := {
  ts_forest : forest lo (freeblock s) N (img s) (ov din);
  ts_below k : k < lo -> img s k = V0 k;
  ts_free : lo <= freeblock s;
  ts_len : flen s = L;
  ts_ino : freeinode s = fi;
  ts_used : usedblocks s = freeblock s;
  ts_wf : wf_inode din;
}.
Definition same_bytes (s : mkfs) (din : inode) (s' : mkfs) (din' : inode) : Prop :=
  forall m o, 0 <= m < N -> inrange o -> fbyte (img s') (ov din' m) o = fbyte (img s) (ov din m) o.

(** Either there is an address at [p] already, or sector [freeblock] is put
    there. *)
Definition grown (s : mkfs) (din : inode) (p : pos) (s' : mkfs) (din' : inode) : Prop :=
  (at_pos (img s) din p <> 0 /\ s' = s /\ din' = din) \/
  (at_pos (img s) din p = 0 /\ img s' = put_blocks (img s) din p (freeblock s) /\ din' = put_inode din p (freeblock s) /\
   freeblock s' = freeblock s + 1 /\ flen s' = flen s /\ freeinode s' = freeinode s /\ usedblocks s' = usedblocks s + 1).

Lemma ov_self din : ov din n = din.
Proof. unfold ov. by rewrite decide_True. Qed.

Lemma grown_ok s din p s' din' : tst s din -> valid p -> (forall q k, parent p = Some (q, k) -> at_pos (img s) din q <> 0) ->
  freeblock s < 2 ^ 32 -> grown s din p s' din' ->
  tst s' din' /\ same_bytes s din s' din' /\
  (forall q, valid q -> at_pos (img s') din' q = if decide (q = p) then (if at_pos (img s) din p =? 0 then freeblock s else at_pos (img s) din p) else at_pos (img s) din q).
Proof.
  intros [F B Fr Le Fi Us Wf] Hp Hpar Hf [(Hnz & -> & ->)|(H0 & E1 & E2 & E3 & E4 & E5 & E6)].
  - split; [by split|]. split; [done|]. intros q Hq. rewrite (proj2 (Z.eqb_neq _ _)) by done. by case_decide; subst.
  - pose proof (ov_self din) as Es. assert (H0' : at_pos (img s) (ov din n) p = 0) by by rewrite Es.
    assert (Hpar' : forall q k, parent p = Some (q, k) -> at_pos (img s) (ov din n) q <> 0) by (rewrite Es; done).
    assert (Eov : forall m, alloc_inodes (freeblock s) (ov din) n p m = ov din' m).
    { intros m. unfold alloc_inodes, ov. rewrite E2, (decide_True (P := n = n)) by done. by case_decide. }
    pose proof (forest_alloc lo (freeblock s) N (img s) (ov din) n p F Hn Hp H0' ltac:(lia) Hpar') as F'. rewrite Es in F'.
    split; [split|split].
    + rewrite E1, E3. destruct F' as [G1 G2 G3 G4 G5 G6]. split; try done.
      * intros m Hm. rewrite <- Eov. by apply G3.
      * intros m q Hm Hq. rewrite <- Eov. by apply G4.
      * intros m q m' q' Hm Hm' Hq Hq'. rewrite <- !Eov. by apply G5.
    + intros k Hk. rewrite E1. unfold put_blocks. destruct (parent p) as [[q j]|] eqn:Ep; [|by apply B]. unfold vset.
      rewrite decide_False; [by apply B|]. intros ->. destruct (parent_valid p q j Ep Hp) as (Hq & _ & _).
      pose proof (fo_range _ _ _ _ _ F n q Hn Hq) as Hr. rewrite Es in Hr. specialize (Hpar q j eq_refl). lia.
    + lia.
    + congruence.
    + congruence.
    + lia.
    + rewrite E2. unfold put_inode. destruct (parent p); [done|]. apply set_addr_wf; [done|lia].
    + intros m o Hm Ho. rewrite E1, <- Eov. rewrite <- Es at 1. by apply (alloc_fbyte lo (freeblock s) N).
    + intros q Hq. rewrite E1, <- (ov_self din'), <- Eov. rewrite <- Es at 1. rewrite (alloc_at lo (freeblock s) N) by done.
      rewrite Es, H0. cbn [Z.eqb]. destruct (decide (n = n /\ q = p)) as [[_ ->]|Hne]; [by rewrite decide_True|].
      rewrite decide_False by (intros ->; by apply Hne). done.
Qed.

(** The two kinds of places. *)
Lemma map_root_grown s din p : tst s din -> valid p -> parent p = None -> freeblock s + 1 < 2 ^ 32 ->
  mwp (map_root (root_index p) din) (fun din' s' => grown s din p s' din') s.
Proof.
  intros [F B Fr Le Fi Us Wf] Hp Hn0 Hf. unfold map_root. pose proof (addr_range din (root_index p) Wf) as Ha. rewrite xint_id by done.
  assert (E : nth (root_index p) (addrs din) 0 = at_pos (img s) din p) by by destruct p. rewrite E.
  destruct (Z.eqb_spec (at_pos (img s) din p) 0) as [H0|H0]; [|apply mwp_ret; by left].
  apply mwp_bind. unfold mwp, take_free, kbind, kget, kput, kret. right. cbn [img freeblock flen freeinode usedblocks].
  unfold put_blocks, put_inode. rewrite Hn0, xint_id, !u32_small by lia. split_and!; done.
Qed.
Lemma map_slot_grown s din p q k : tst s din -> valid p -> parent p = Some (q, k) -> at_pos (img s) din q <> 0 -> freeblock s + 1 < 2 ^ 32 ->
  mwp (map_slot (at_pos (img s) din q) k) (fun x s' => grown s din p s' din /\ x = at_pos (img s') din p /\ at_pos (img s) din q < flen s) s.
Proof.
  intros T Hp Hpar Hq Hf. pose proof T as [F B Fr Le Fi Us Wf]. destruct (parent_valid p q k Hpar Hp) as (Hvq & Hk & Hin). unfold map_slot.
  set (a := at_pos (img s) din q) in *. pose proof (fo_wf _ _ _ _ _ F a) as Hwf. pose proof (aref_range (img s a) k Hwf Hk) as Hr.
  assert (E : aref (img s a) k = at_pos (img s) din p).
  { rewrite (slot_at _ _ _ _ _ Hpar). fold a. unfold slot. by rewrite (proj2 (Z.eqb_neq _ _)). }
  apply mwp_rsect. intros Hlt. destruct (Z.eqb_spec (aref (img s a) k) 0) as [H0|H0].
  - apply mwp_bind. unfold mwp, take_free, wsect, kbind, kget, kput, kret, kmodify. cbn [img freeblock flen freeinode usedblocks].
    rewrite (xint_id (freeblock s)), aref_aset_same by (done || apply Hwf || lia).
    match goal with |- grown _ _ _ ?x _ /\ _ => set (s' := x) end.
    assert (G : grown s din p s' din).
    { right. rewrite <- E. subst s'. cbn [img freeblock flen freeinode usedblocks]. unfold put_blocks, put_inode. rewrite Hpar. fold a.
      rewrite !u32_small by lia. split_and!; try done. lia. }
    split; [done|]. split; [|done]. rewrite xint_id by lia.
    destruct (grown_ok s din p s' din T Hp) as (_ & _ & Hat); [intros q' k' Eq; rewrite Hpar in Eq; by injection Eq as <- <-|lia|done|].
    rewrite Hat, decide_True by done. by rewrite <- E, H0.
  - apply mwp_ret. split; [left; by rewrite <- E|]. rewrite xint_id by done. by rewrite E.
Qed.

(** The post-condition of [map_block]. *)
Definition mapped_to (s : mkfs) (din : inode) (fbn : Z) (r : Z * inode) (s' : mkfs) : Prop :=
  tst s' (snd r) /\ same_bytes s din s' (snd r) /\ fst r = at_pos (img s') (snd r) (data_pos fbn) /\ fst r <> 0 /\
  isize (snd r) = isize din /\ itype (snd r) = itype din /\ (freeblock s' = freeblock s \/ freeblock s' = fst r + 1).

Lemma same_bytes_trans s1 d1 s2 d2 s3 d3 : same_bytes s1 d1 s2 d2 -> same_bytes s2 d2 s3 d3 -> same_bytes s1 d1 s3 d3.
Proof. intros H1 H2 m o Hm Ho. by rewrite (H2 m o Hm Ho), (H1 m o Hm Ho). Qed.

(** What a step tells the next one. *)
Record grew (s : mkfs) (din : inode) (p : pos) (s' : mkfs) (din' : inode) : Prop := {
  gr_tst : tst s' din';
  gr_bytes : same_bytes s din s' din';
  gr_there : at_pos (img s') din' p <> 0;
  gr_other q : valid q -> q <> p -> at_pos (img s') din' q = at_pos (img s) din q;
  gr_fields : isize din' = isize din /\ itype din' = itype din;
  gr_free : (at_pos (img s) din p <> 0 /\ freeblock s' = freeblock s) \/
            (at_pos (img s) din p = 0 /\ at_pos (img s') din' p = freeblock s /\ freeblock s' = freeblock s + 1);
}.
Lemma grown_grew s din p s' din' : tst s din -> valid p -> (forall q k, parent p = Some (q, k) -> at_pos (img s) din q <> 0) ->
  freeblock s < 2 ^ 32 -> grown s din p s' din' -> grew s din p s' din'.
Proof.
  intros T Hp Hpar Hf G. destruct (grown_ok s din p s' din' T Hp Hpar Hf G) as (T' & Sb & Hat). pose proof (ts_free _ _ T).
  assert (Hx : at_pos (img s') din' p = if at_pos (img s) din p =? 0 then freeblock s else at_pos (img s) din p) by by rewrite Hat, decide_True.
  split; try done.
  - rewrite Hx. zcases; lia.
  - intros q Hq Hne. by rewrite Hat, decide_False.
  - destruct G as [(_ & _ & ->)|(_ & _ & -> & _)]; [done|]. unfold put_inode. by destruct (parent p).
  - destruct G as [(Hnz & -> & ->)|(H0 & _ & _ & E & _)]; [by left|]. right. rewrite Hx, H0. done.
Qed.

Lemma mwp_map_root {A} (F : inode -> K mkfs A) Q s din p : tst s din -> valid p -> parent p = None -> freeblock s + 1 < 2 ^ 32 ->
  (forall d1 s1, grew s din p s1 d1 -> xint (nth (root_index p) (addrs d1) 0) = at_pos (img s1) d1 p -> mwp (F d1) Q s1) ->
  mwp (d <- map_root (root_index p) din ;; F d) Q s.
Proof.
  intros T Hp Hn0 Hf HF. apply mwp_bind. eapply mwp_mono; [by apply map_root_grown|]. intros d1 s1 G.
  apply grown_grew in G; [|done|done|by rewrite Hn0|lia]. apply HF; [done|]. rewrite xint_id by apply addr_range, G. by destruct p.
Qed.
Lemma mwp_map_slot {A} (F : Z -> K mkfs A) Q s din p q k : tst s din -> valid p -> parent p = Some (q, k) -> at_pos (img s) din q <> 0 ->
  freeblock s + 1 < 2 ^ 32 -> (forall s1, grew s din p s1 din -> mwp (F (at_pos (img s1) din p)) Q s1) ->
  mwp (x <- map_slot (at_pos (img s) din q) k ;; F x) Q s.
Proof.
  intros T Hp Hpar Hq Hf HF. apply mwp_bind. eapply mwp_mono; [by apply (map_slot_grown s din p)|]. intros x s1 (G & -> & _).
  apply HF. apply grown_grew; try done; [|lia]. intros q' k'. rewrite Hpar. by intros [= <- <-].
Qed.
Lemma empty_below V i p q k : parent p = Some (q, k) -> at_pos V i q = 0 -> at_pos V i p = 0.
Proof. intros Hp Hq. rewrite (slot_at _ _ _ _ _ Hp), Hq. done. Qed.
Lemma grew_bound s din p s' din' : grew s din p s' din' -> freeblock s <= freeblock s' <= freeblock s + 1.
Proof. intros [_ _ _ _ _ G]. lia. Qed.

Lemma map_block_ok s din fbn : tst s din -> 0 <= fbn < MAXFILE -> freeblock s <= L -> mwp (map_block din fbn) (mapped_to s din fbn) s.
Proof.
  intros T Hb Hfr. pose proof (data_pos_valid fbn Hb) as [Hv _]. unfold map_block, mapped_to. unfold data_pos in *.
  destruct (fbn <? NDIRECT); [|destruct (fbn <? NDIRECT + NINDIRECT)].
  - apply (mwp_map_root _ _ s din (Direct fbn)); [done|done|done|lia|]. intros d1 s1 [T1 B1 A1 _ Fd Fr] E.
    change (root_index (Direct fbn)) with (Z.to_nat fbn) in E. apply mwp_ret. cbn [fst snd].
    rewrite E. split_and!; try done; [by destruct Fd..|lia].
  - apply (mwp_map_root _ _ s din Ind); [done|done|done|lia|]. intros d1 s1 G1 E. pose proof (grew_bound _ _ _ _ _ G1).
    destruct G1 as [T1 B1 A1 O1 Fd1 Fr1]. change (Z.to_nat NDIRECT) with (root_index Ind). rewrite E.
    apply (mwp_map_slot _ _ s1 d1 (ISlot (fbn - NDIRECT)) Ind); [done|done|done|done|lia|]. intros s2 [T2 B2 A2 _ _ Fr2].
    apply mwp_ret. cbn [fst snd]. split_and!; try done; [by eapply same_bytes_trans|by destruct Fd1..|].
    destruct Fr2 as [[Hnz ->]|(_ & -> & ->)]; [|by right]. left. destruct Fr1 as [[_ ->]|(Hz & _ & _)]; [done|].
    destruct Hnz. rewrite O1 by done. by apply (empty_below _ _ _ Ind (fbn - NDIRECT)).
  - set (bn := fbn - NDIRECT - NINDIRECT) in *. destruct Hv as [Hv1 Hv2].
    apply (mwp_map_root _ _ s din Dind); [done|done|done|lia|]. intros d1 s1 G1 E. pose proof (grew_bound _ _ _ _ _ G1).
    destruct G1 as [T1 B1 A1 O1 Fd1 Fr1]. change (Z.to_nat (NDIRECT + 1)) with (root_index Dind). rewrite E.
    apply (mwp_map_slot _ _ s1 d1 (Child (bn / NINDIRECT)) Dind); [done|done|done|done|lia|]. intros s2 G2. pose proof (grew_bound _ _ _ _ _ G2).
    destruct G2 as [T2 B2 A2 O2 _ Fr2].
    apply (mwp_map_slot _ _ s2 d1 (DSlot (bn / NINDIRECT) (bn mod NINDIRECT)) (Child (bn / NINDIRECT))); [done|done|done|done|lia|].
    intros s3 [T3 B3 A3 _ _ Fr3]. apply mwp_ret. cbn [fst snd].
    split_and!; try done; [do 2 (eapply same_bytes_trans; [eassumption|]); done|by destruct Fd1..|].
    destruct Fr3 as [[Hnz ->]|(_ & -> & ->)]; [|by right]. left. rewrite O2 in Hnz by done.
    destruct Fr2 as [[Hnz2 ->]|(Hz & _ & _)]; [|by destruct Hnz; apply (empty_below _ _ _ (Child (bn / NINDIRECT)) (bn mod NINDIRECT))].
    destruct Fr1 as [[_ ->]|(Hz & _ & _)]; [done|]. destruct Hnz2. rewrite O1 by done. by apply (empty_below _ _ _ Dind (bn / NINDIRECT)).
Qed.

(** The bytes [p] at offset [off] of file [n]. *)
Definition appended (s : mkfs) (din : inode) (off : Z) (p : list Z) (s' : mkfs) (din' : inode) : Prop :=
  forall m o, 0 <= m < N -> inrange o -> fbyte (img s') (ov din' m) o =
    if decide (m = n /\ off <= o < off + Z.of_nat (length p)) then nth (Z.to_nat (o - off)) p 0 else fbyte (img s) (ov din m) o.

Lemma write_turn {A} (m : K mkfs A) Q s din fbn off bs s1 d1 x : mapped_to s din fbn (x, d1) s1 -> freeblock s <= L ->
  0 <= off -> fbn = off / 512 -> fbn < MAXFILE -> bytes bs -> off mod 512 + Z.of_nat (length bs) <= 512 ->
  (forall s2, tst s2 d1 -> freeblock s2 <= L -> appended s din off bs s2 d1 -> mwp m Q s2) ->
  mwp (buf <- rsect x ;; wsect x (splice (Z.to_nat (off - fbn * 512)) bs buf) ;; m) Q s1.
Proof.
  intros (T1 & B1 & Ex & Hx & _ & _ & Fr) Hfr Ho Hfbn Hmax Hby Hlen HQ. cbn [fst snd] in *. pose proof T1 as [F B Fl Le Fi Us Wf].
  apply mwp_rsect. intros Hlt. rewrite Le in Hlt. apply mwp_bind. unfold mwp at 1, wsect, kmodify.
  set (d := splice _ bs (img s1 x)). set (s2 := {| img := _ |}). assert (Hb : 0 <= fbn < MAXFILE) by dlia.
  destruct (data_pos_valid fbn Hb) as [Hv _]. pose proof (fo_range _ _ _ _ _ F n (data_pos fbn) Hn Hv) as Hr. rewrite ov_self, <- Ex in Hr.
  assert (Hoff : Z.to_nat (off - fbn * 512) = Z.to_nat (off mod 512)) by (f_equal; dlia).
  destruct (fo_wf _ _ _ _ _ F x) as [W1 W2]. assert (Hfit : (Z.to_nat (off mod 512) + length bs <= length (img s1 x))%nat) by (rewrite W1; unfold BSIZE; dlia).
  assert (Hd : wfblock d) by (unfold d; rewrite Hoff; split; [by rewrite splice_len|by apply splice_bytes]).
  assert (Ex' : x = at_pos (img s1) (ov d1 n) (data_pos fbn)) by by rewrite ov_self.
  apply HQ.
  - split; try done.
    + unfold s2. cbn [img freeblock]. rewrite Ex'. apply forest_write; try done. by rewrite <- Ex'.
    + intros k Hk. cbn [img s2]. unfold vset. rewrite decide_False; [by apply B|lia].
    + cbn [flen s2]. lia.
  - cbn [freeblock s2]. lia.
  - intros m' o Hm Ho'. unfold s2. cbn [img]. rewrite Ex' at 1. rewrite (write_fbyte lo (freeblock s1) N) by (done || by rewrite <- Ex').
    rewrite (B1 m' o Hm Ho'). case_decide as E1.
    + destruct E1 as [-> E1]. unfold d. rewrite Hoff, !nth_lookup, splice_lookup by done. case_decide as E2.
      * rewrite decide_True by dlia. do 2 f_equal. dlia.
      * rewrite decide_False by dlia. rewrite <- (B1 n o Hn Ho'), ov_self. unfold fbyte. rewrite baddr_pos, E1, <- Ex by dlia.
        rewrite (proj2 (Z.eqb_neq _ _)) by done. by rewrite nth_lookup.
    + rewrite decide_False; [done|]. intros [-> Hr']. apply E1. split; [done|]. dlia.
Qed.

Lemma iappend_loop_ok fuel : forall s din off p, tst s din -> freeblock s <= L -> 0 <= off -> off + Z.of_nat (length p) <= MAXFILE * 512 ->
  bytes p -> (length p < fuel)%nat ->
  mwp (iappend_loop fuel din off p) (fun r s' => tst s' (fst r) /\ freeblock s' <= L /\ snd r = off + Z.of_nat (length p) /\
    isize (fst r) = isize din /\ itype (fst r) = itype din /\ appended s din off p s' (fst r)) s.
Proof.
  induction fuel as [|fuel IH]; intros s din off p T Hfr Ho Hmax Hby Hf; [lia|]. cbn [iappend_loop].
  destruct (Z.ltb_spec 0 (Z.of_nat (length p))) as [Hp|Hp].
  2: { apply mwp_ret. cbn [fst snd]. split_and!; try done; [lia|]. intros m o Hm Hoo. rewrite decide_False by lia. done. }
  assert (Hbn : 0 <= off / 512 < MAXFILE) by dlia. destruct (Z.leb_spec MAXFILE (off / 512)); [lia|].
  apply mwp_bind. eapply mwp_mono; [by apply map_block_ok|]. intros [x d1] s1 Hm. pose proof Hm as (_ & _ & _ & _ & Is & It & _). cbn [fst snd] in *.
  set (n1 := Z.to_nat (Z.min (Z.of_nat (length p)) ((off / 512 + 1) * 512 - off))).
  assert (Hn1 : (0 < n1 <= length p)%nat /\ off mod 512 + Z.of_nat n1 <= 512) by (unfold n1; dlia). destruct Hn1 as [Hn1 Hn2].
  assert (Hl1 : length (take n1 p) = n1) by (rewrite length_take; lia).
  eapply (write_turn _ _ s din (off / 512)); try done; [by apply Forall_take|by rewrite Hl1|]. intros s2 T2 Fr2 A2.
  assert (Hm32 : MAXFILE * 512 < 2 ^ 31) by done. rewrite u32_small by lia.
  eapply mwp_mono; [apply IH; try done; [lia|rewrite length_drop; lia|by apply Forall_drop|rewrite length_drop; lia]|].
  intros [d3 o3] s3 (T3 & Fr3 & Eo & Is3 & It3 & A3). cbn [fst snd] in *. rewrite length_drop in Eo. split_and!; try done; try congruence; [lia|].
  intros m o Hmm Hoo. rewrite (A3 m o Hmm Hoo), (A2 m o Hmm Hoo), Hl1, length_drop. case_decide as E3.
  - rewrite decide_True by lia. rewrite nth_lookup, lookup_drop, <- nth_lookup. f_equal. lia.
  - case_decide as E2; [|rewrite decide_False by lia; done]. rewrite decide_True by lia. rewrite !nth_lookup, lookup_take_lt by lia. done.
Qed.
End append.

(** ** The specification: a map of files *)

Definition zset {A} (f : Z -> A) (k : Z) (v : A) : Z -> A := fun x => if decide (x = k) then v else f x.
Record afs := { a_next : Z; a_type : Z -> Z; a_data : Z -> list Z }.
Definition is_bytes (p : list Z) : bool := forallb (fun x => (0 <=? x) && (x <? 256)) p.
(** Files are made one after the other, as long as there are inodes, and grow
    at their end, up to the largest size. *)
Definition a_ialloc (ninodes type : Z) : K afs Z :=
  a <- kget ;;
  if (a_next a <? ninodes) && (0 <=? type) && (type <? 2 ^ 15) then
    kput {| a_next := a_next a + 1; a_type := zset (a_type a) (a_next a) type; a_data := zset (a_data a) (a_next a) [] |} ;;
    kret (a_next a)
  else panic "no inodes".
Definition a_iappend (n : Z) (p : list Z) : K afs unit :=
  a <- kget ;;
  if (1 <=? n) && (n <? a_next a) && is_bytes p && (Z.of_nat (length (a_data a n ++ p)) <=? MAXFILE * 512) then
    kput {| a_next := a_next a; a_type := a_type a; a_data := zset (a_data a) n (a_data a n ++ p) |}
  else panic "file too large".
(** The rest of the last block, or a whole block after a full one. *)
Definition align_pad (l : list Z) : list Z := replicate (512 - length l mod 512) 0.
Definition a_diralign (n : Z) : K afs unit :=
  a <- kget ;;
  if (1 <=? n) && (n <? a_next a) && (Z.of_nat (length (a_data a n ++ align_pad (a_data a n))) <=? MAXFILE * 512) then
    kput {| a_next := a_next a; a_type := a_type a; a_data := zset (a_data a) n (a_data a n ++ align_pad (a_data a n)) |}
  else panic "file too large".
Definition afs_ops (ninodes : Z) : MkOps afs := {| mo_ialloc := a_ialloc ninodes; mo_iappend := a_iappend; mo_diralign := a_diralign |}.
Definition no_files : afs := {| a_next := 1; a_type := fun _ => 0; a_data := fun _ => [] |}.

Record good_geom (g : geom) : Prop := {
  gg_inodes : 0 < g_ninodes g < 2 ^ 31;
  gg_size : 0 < g_size g < 2 ^ 31;
  gg_log : 0 <= g_nlog g < 2 ^ 31;
  gg_room : 0 < nblocks g;
}.

(** The image holds the files. *)
Record rep (g : geom) (s : mkfs) (a : afs) : Prop := {
  rp_forest : forest (usedblocks0 g) (freeblock s) (a_next a) (img s) (dinode_of (img s));
  rp_free : usedblocks0 g <= freeblock s <= g_size g;
  rp_len : flen s = g_size g;
  rp_ino : freeinode s = a_next a;
  rp_next : 1 <= a_next a <= g_ninodes g;
  rp_used : usedblocks s = freeblock s;
  rp_meta k : k < usedblocks0 g -> ~ (2 <= k < NINODEBLOCKS (g_ninodes g) + 2) -> img s k = if decide (k = 1) then super g else replicate BSIZE 0;
  rp_fits n : 1 <= n < a_next a -> Z.of_nat (length (a_data a n)) <= MAXFILE * 512;
  rp_size n : 1 <= n < a_next a -> isize (dinode_of (img s) n) = Z.of_nat (length (a_data a n));
  rp_type n : 1 <= n < a_next a -> itype (dinode_of (img s) n) = a_type a n;
  rp_bytes n o : 1 <= n < a_next a -> inrange o -> fbyte (img s) (dinode_of (img s) n) o = nth (Z.to_nat o) (a_data a n) 0;
}.

Section sim.
Context (g : geom) (G : good_geom g).
Let lo := usedblocks0 g.

Lemma geom_facts : 0 < lo <= g_size g /\ g_size g < 2 ^ 31 /\ forall n, 0 <= n < g_ninodes g -> 2 <= i2b n < lo /\ i2b n = n / 8 + 2 /\ i2b n < NINODEBLOCKS (g_ninodes g) + 2.
Proof.
  destruct G as [G1 G2 G3 G4]. unfold nblocks in G4. fold lo in G4. assert (E : lo = (g_ninodes g + 7) / 8 + 3 + (g_size g / (512 * 8) + 1)).
  { unfold lo, usedblocks0, bitblocks. by rewrite nib_val by lia. }
  split_and!; [dlia|dlia|dlia|]. intros n Hn. unfold i2b, IPB. rewrite nib_val, u32_small by dlia. split_and!; [dlia|dlia|done|dlia].
Qed.

(** A write below the data. *)
Lemma forest_low fr N V I k d : forest lo fr N V I -> lo <= fr -> k < lo -> wfblock d -> forest lo fr N (vset V k d) I /\
  forall m o, 0 <= m < N -> inrange o -> fbyte (vset V k d) (I m) o = fbyte V (I m) o.
Proof.
  intros F Hfr Hk Hd. pose proof F as [F1 F2 F3 F4 F5 F6].
  assert (Ea : forall m p, 0 <= m < N -> valid p -> at_pos (vset V k d) (I m) p = at_pos V (I m) p).
  { intros m p Hm Hp. apply at_pos_view; [|done]. intros q _ Hq Hnz j Hj. unfold vset. rewrite decide_False; [done|].
    destruct (F4 m q Hm Hq); [done|lia]. }
  split; [split; try done|].
  - intros j. unfold vset. by case_decide.
  - intros m p Hm Hp. rewrite Ea by done. by apply F4.
  - intros m p m' p' Hm Hm' Hp Hp'. rewrite !Ea by done. by apply F5.
  - intros j Hj. unfold vset. rewrite decide_False by lia. by apply F6.
  - intros m o Hm Ho. pose proof (inrange_bn o Ho) as Hb. destruct (data_pos_valid _ Hb) as [Hv _]. unfold fbyte. rewrite !baddr_pos, Ea by done.
    destruct (Z.eqb_spec (at_pos V (I m) (data_pos (o / 512))) 0) as [|Hnz]; [done|]. unfold vset. rewrite decide_False; [done|].
    destruct (F4 m _ Hm Hv); [done|lia].
Qed.

(** An inode as [rinode] returns it. *)
Definition norm (i : inode) : inode :=
  {| i_dev := 0; inum := 0; ref := 0; i_busy := false; i_valid := false; itype := itype i; major := major i; minor := minor i;
     nlink := nlink i; isize := isize i; addrs := addrs i |}.
Lemma at_pos_addrs V i j p : addrs i = addrs j -> at_pos V i p = at_pos V j p.
Proof. intros E. destruct p; cbn [at_pos]; unfold ind_of, dind_of; by rewrite E. Qed.
Lemma fbyte_addrs V i j o : addrs i = addrs j -> fbyte V i o = fbyte V j o.
Proof. intros E. unfold fbyte, baddr, ind_of, dind_of. by rewrite E. Qed.
Lemma forest_addrs fr N V I J : (forall m, 0 <= m < N -> addrs (I m) = addrs (J m)) -> forest lo fr N V I -> forest lo fr N V J.
Proof.
  intros E [F1 F2 F3 F4 F5 F6]. split; try done.
  - intros m Hm. rewrite <- E by done. by apply F3.
  - intros m p Hm Hp. rewrite <- (at_pos_addrs _ (I m) (J m)) by auto. by apply F4.
  - intros m p m' p' Hm Hm' Hp Hp'. rewrite <- (at_pos_addrs _ (I m) (J m)), <- (at_pos_addrs _ (I m') (J m')) by auto. by apply F5.
Qed.

Lemma dinode_after V n din m : (forall k, wfblock (V k)) -> wf_inode din -> 0 <= n < g_ninodes g -> 0 <= m < g_ninodes g ->
  dinode_of (vset V (i2b n) (store_dinode (dinode_off n) din (V (i2b n)))) m = if decide (m = n) then norm din else dinode_of V m.
Proof.
  intros HV Hw Hn Hm. destruct geom_facts as (_ & _ & Hg). pose proof (Hg n Hn) as (_ & En & _). pose proof (Hg m Hm) as (_ & Em & _).
  unfold dinode_of, vset. pose proof (dinode_off_fits n) as Hfit. rewrite <- (proj1 (HV (i2b n))) in Hfit.
  destruct (decide (m = n)) as [->|Hne]; [by rewrite decide_True, load_store_dinode|].
  destruct (decide (i2b m = i2b n)) as [E|E]; [|done]. rewrite E. apply load_store_other; [done..|].
  rewrite En, Em in E. unfold dinode_off, IPB. assert (m mod 8 <> n mod 8) by dlia. dlia.
Qed.
Lemma dinode_low V V' m : (forall k, k < lo -> V' k = V k) -> 0 <= m < g_ninodes g -> dinode_of V' m = dinode_of V m.
Proof. intros HV Hm. destruct geom_facts as (_ & _ & Hg). unfold dinode_of. rewrite HV; [done|]. by apply Hg. Qed.

(** The inode [din] is stored. *)
Lemma winode_ok N n L fi V0 s din din' : 0 <= n < N -> N <= g_ninodes g -> tst lo N n L fi V0 s din -> L = g_size g ->
  addrs din' = addrs din -> wf_inode din' ->
  mwp (winode n din') (fun _ s' => forest lo (freeblock s') N (img s') (dinode_of (img s')) /\ freeblock s' = freeblock s /\ flen s' = L /\
    freeinode s' = fi /\ usedblocks s' = freeblock s' /\ (forall k, k < lo -> k <> i2b n -> img s' k = V0 k) /\ (forall m, 0 <= m < N -> dinode_of (img s') m = if decide (m = n) then norm din' else dinode_of V0 m) /\
    (forall m o, 0 <= m < N -> inrange o -> fbyte (img s') (dinode_of (img s') m) o = fbyte (img s) (ov n V0 din m) o)) s.
Proof.
  intros Hn HN [F B Fl Le Fi Us Wf] EL Ea Hw'. destruct geom_facts as (Hlo & Hsz & Hg). destruct (Hg n ltac:(lia)) as (Hi2b & _ & _).
  unfold winode. apply mwp_rsect. intros Hlt. unfold mwp, wsect, kmodify. cbn [img flen freeblock freeinode usedblocks].
  set (d := store_dinode _ din' _). assert (Hd : wfblock d) by (apply store_dinode_wf; [apply dinode_off_fits|done|apply F]).
  assert (HI : forall m, 0 <= m < N -> dinode_of (vset (img s) (i2b n) d) m = if decide (m = n) then norm din' else dinode_of V0 m).
  { intros m Hm. unfold d. rewrite dinode_after by (done || lia || apply F). case_decide; [done|]. apply dinode_low; [done|lia]. }
  assert (Hadd : forall m, 0 <= m < N -> addrs (ov n V0 din m) = addrs (dinode_of (vset (img s) (i2b n) d) m)).
  { intros m Hm. rewrite HI by done. unfold ov. case_decide; [by cbn [norm addrs]|done]. }
  destruct (forest_low (freeblock s) N (img s) (ov n V0 din) (i2b n) d F) as [F' B']; [done|lia|done|].
  split_and!; try done.
  - by apply (forest_addrs _ _ _ (ov n V0 din)).
  - lia.
  - intros k Hk Hne. unfold vset. rewrite decide_False by done. by apply B.
  - intros m o Hm Ho. rewrite <- (fbyte_addrs _ (ov n V0 din m) _ _ (Hadd m Hm)). by apply B'.
Qed.

(** Where the specification succeeds, mkfs does the same or runs out of
    sectors. *)
Definition sim {A} (m : K mkfs A) (m' : K afs A) : Prop := forall s a, rep g s a -> forall r a', m' a = Done r a' ->
  mwp m (fun r' s' => r' = r /\ rep g s' a') s.

Lemma rep_tst s a n : rep g s a -> tst lo (a_next a) n (g_size g) (a_next a) (img s) s (dinode_of (img s) n).
Proof.
  intros [F Fr Le Fi Nx Us _ _ _ _ _]. split; try done; [|apply Fr|].
  - eapply forest_addrs; [|exact F]. intros m Hm. unfold ov. by case_decide; subst.
  - apply load_wf; [apply F|apply dinode_off_fits].
Qed.
Lemma ov_same s n m : ov n (img s) (dinode_of (img s) n) m = dinode_of (img s) m.
Proof. unfold ov. by case_decide; subst. Qed.

Lemma is_bytes_spec p : is_bytes p = true -> bytes p.
Proof.
  unfold is_bytes, bytes. rewrite forallb_forall, Forall_forall. intros Hp x Hx. unfold byte. specialize (Hp x). rewrite list_elem_of_In in Hx.
  specialize (Hp Hx). by rewrite andb_true_iff, Z.leb_le, Z.ltb_lt in Hp.
Qed.

(** A larger file [n] and the others as they were. *)
Lemma rep_grow s a s' n l sz : rep g s a -> 1 <= n < a_next a -> forest lo (freeblock s') (a_next a) (img s') (dinode_of (img s')) ->
  lo <= freeblock s' <= g_size g -> flen s' = g_size g -> freeinode s' = a_next a -> usedblocks s' = freeblock s' ->
  (forall k, k < lo -> ~ (2 <= k < NINODEBLOCKS (g_ninodes g) + 2) -> img s' k = img s k) -> sz = Z.of_nat (length l) -> sz <= MAXFILE * 512 ->
  (forall m, 1 <= m < a_next a -> isize (dinode_of (img s') m) = if decide (m = n) then sz else isize (dinode_of (img s) m)) ->
  (forall m, 1 <= m < a_next a -> itype (dinode_of (img s') m) = itype (dinode_of (img s) m)) ->
  (forall m o, 1 <= m < a_next a -> inrange o -> fbyte (img s') (dinode_of (img s') m) o = if decide (m = n) then nth (Z.to_nat o) l 0 else fbyte (img s) (dinode_of (img s) m) o) ->
  rep g s' {| a_next := a_next a; a_type := a_type a; a_data := zset (a_data a) n l |}.
Proof.
  intros [F Fr Le Fi Nx Us Me Ft Sz Ty By] Hn F' Fr' Le' Fi' Us' Me' El Hmax Hsz Hty Hby. split; cbn [a_next a_type a_data]; try done; unfold zset.
  - intros k Hk Hne. rewrite Me' by done. by apply Me.
  - intros m Hm. case_decide; [lia|by apply Ft].
  - intros m Hm. rewrite Hsz by done. case_decide; [done|by apply Sz].
  - intros m Hm. rewrite Hty by done. by apply Ty.
  - intros m o Hm Ho. rewrite Hby by done. case_decide; [done|by apply By].
Qed.

Lemma sim_iappend n p : sim (mk_iappend n p) (a_iappend n p).
Proof.
  intros s a R r a' Ha. destruct geom_facts as (Hlo & Hsz & Hg). pose proof R as [F Fr Le Fi Nx Us Me Ft Sz Ty By].
  unfold a_iappend, kbind, kget, kput, panic in Ha. destruct (_ && _) eqn:Ec; [|done]. injection Ha as <- <-.
  rewrite !andb_true_iff, Z.leb_le, Z.ltb_lt, Z.leb_le, length_app, Nat2Z.inj_add in Ec. destruct Ec as [[[Hn1 Hn2] Hp%is_bytes_spec] Hlen].
  assert (Hn : 0 <= n < a_next a) by lia. set (din := dinode_of (img s) n). set (l := a_data a n) in *.
  assert (Hm : MAXFILE * 512 < 2 ^ 31) by done. pose proof (rep_tst s a n R) as T. fold din in T.
  unfold mk_iappend, rinode. apply mwp_bind, mwp_rsect. intros _. apply mwp_ret. fold (dinode_of (img s) n). fold din.
  assert (Eoff : xint (isize din) = Z.of_nat (length l)) by (unfold din; rewrite Sz by lia; fold l; apply xint_id; lia). rewrite Eoff.
  apply mwp_bind. eapply mwp_mono; [apply (iappend_loop_ok lo (a_next a) n (g_size g) (a_next a) (img s)); try done; lia|].
  intros [d2 o2] s2 (T2 & Fr2 & Eo & _ & It & Ap). cbn [fst snd] in *. rewrite Eo, xint_id by lia.
  eapply mwp_mono; [apply (winode_ok (a_next a) n (g_size g) (a_next a) (img s) s2 d2); try done; [lia|apply set_isize_wf; [apply T2|lia]]|].
  intros [] s3 (F3 & Fr3 & Le3 & Fi3 & Us3 & M3 & D3 & B3). split; [done|].
  apply (rep_grow s a s3 n (l ++ p) (Z.of_nat (length l) + Z.of_nat (length p))); try done; try lia.
  - rewrite Fr3. pose proof (ts_free _ _ _ _ _ _ _ _ T2). lia.
  - intros k Hk Hne. apply M3; [done|]. destruct (Hg n ltac:(lia)). lia.
  - rewrite length_app. lia.
  - intros m Hm'. rewrite D3 by lia. by case_decide.
  - intros m Hm'. rewrite D3 by lia. case_decide as E; [|done]. subst m. exact It.
  - intros m o Hm' Ho. assert (0 <= o) by (unfold inrange in Ho; lia). rewrite B3 by (done || lia). rewrite (Ap m o) by (done || lia). fold din. unfold din. rewrite ov_same. fold din.
    destruct (decide (m = n)) as [->|Hne]; [|by rewrite decide_False by naive_solver].
    case_decide as E; rewrite nth_lookup.
    + rewrite nth_lookup, lookup_app_r by lia. do 2 f_equal. lia.
    + rewrite By by (done || lia). fold l. rewrite nth_lookup. destruct (decide (o < Z.of_nat (length l))).
      * by rewrite lookup_app_l by lia.
      * rewrite !lookup_ge_None_2; [done|rewrite length_app; lia|lia].
Qed.

Lemma align_size l : (Z.of_nat (length l) / 512 + 1) * 512 = Z.of_nat (length (l ++ align_pad l)).
Proof.
  unfold align_pad. rewrite length_app, length_replicate. pose proof (Nat.mod_upper_bound (length l) 512 ltac:(lia)).
  rewrite Nat2Z.inj_add, Nat2Z.inj_sub, Nat2Z.inj_mod by lia. change (Z.of_nat 512) with 512. dlia.
Qed.
Lemma sim_diralign n : sim (mk_diralign n) (a_diralign n).
Proof.
  intros s a R r a' Ha. destruct geom_facts as (Hlo & Hsz & Hg). pose proof R as [F Fr Le Fi Nx Us Me Ft Sz Ty By].
  unfold a_diralign, kbind, kget, kput, panic in Ha. destruct (_ && _) eqn:Ec; [|done]. injection Ha as <- <-.
  rewrite !andb_true_iff, Z.leb_le, Z.ltb_lt, Z.leb_le in Ec. destruct Ec as [[Hn1 Hn2] Hlen].
  set (l := a_data a n) in *. assert (Hm : MAXFILE * 512 < 2 ^ 31) by done. pose proof (rep_tst s a n R) as T. set (din := dinode_of (img s) n) in *.
  assert (Eoff : xint (isize din) = Z.of_nat (length l)).
  { unfold din. rewrite Sz by lia. fold l. apply xint_id. rewrite length_app in Hlen. lia. }
  unfold mk_diralign, rinode. apply mwp_bind, mwp_rsect. intros _. apply mwp_ret. fold (dinode_of (img s) n). fold din. cbv zeta. rewrite Eoff.
  rewrite u32_small by (rewrite align_size; lia). rewrite align_size, xint_id by lia.
  eapply mwp_mono; [apply (winode_ok (a_next a) n (g_size g) (a_next a) (img s) s din); try done; [lia|lia|apply set_isize_wf; [apply T|lia]]|].
  intros [] s3 (F3 & Fr3 & Le3 & Fi3 & Us3 & M3 & D3 & B3). split; [done|].
  apply (rep_grow s a s3 n (l ++ align_pad l) (Z.of_nat (length (l ++ align_pad l)))); try done; try lia.
  - intros k Hk Hne. apply M3; [done|]. destruct (Hg n ltac:(lia)). lia.
  - intros m Hm'. rewrite D3 by lia. by case_decide.
  - intros m Hm'. rewrite D3 by lia. case_decide as E; [|done]. by subst m.
  - intros m o Hm' Ho. rewrite B3 by (done || lia). unfold din. rewrite ov_same.
    case_decide as E; [|done]. subst m. rewrite By by done. fold l. rewrite !nth_lookup. destruct (decide (Z.to_nat o < length l)%nat).
    + by rewrite lookup_app_l.
    + rewrite lookup_ge_None_2, lookup_app_r by lia. destruct (align_pad l !! _) eqn:E; [|done]. by apply lookup_replicate in E as [-> _].
Qed.

Lemma at_pos_empty V i p : addrs i = replicate 13 0 -> at_pos V i p = 0.
Proof.
  intros E. assert (Hz : forall k, nth k (addrs i) 0 = 0).
  { intros k. rewrite E, nth_lookup. destruct (replicate 13 0 !! k) eqn:Ek; [|done]. by apply lookup_replicate in Ek as [-> _]. }
  destruct p; cbn [at_pos]; unfold ind_of, dind_of; rewrite ?Hz; done.
Qed.
Lemma fbyte_empty V i o : inrange o -> addrs i = replicate 13 0 -> fbyte V i o = 0.
Proof. intros Ho E. unfold fbyte. rewrite baddr_pos by by apply inrange_bn. by rewrite at_pos_empty. Qed.

Lemma forest_new fr N V din : 0 <= N -> addrs din = replicate 13 0 -> forest lo fr N V (dinode_of V) -> forest lo fr (N + 1) V (ov N V din).
Proof.
  intros HN E [F1 F2 F3 F4 F5 F6]. assert (Hov : forall m, m <> N -> ov N V din m = dinode_of V m) by (intros m Hm; unfold ov; by rewrite decide_False).
  split; try done.
  - intros m Hm. destruct (decide (m = N)) as [->|]; [by rewrite ov_self, E|]. rewrite Hov by done. apply F3. lia.
  - intros m p Hm Hp. destruct (decide (m = N)) as [->|]; [rewrite ov_self; left; by apply at_pos_empty|]. rewrite Hov by done. apply F4; [lia|done].
  - intros m p m' p' Hm Hm' Hp Hp'. destruct (decide (m = N)) as [->|]; [by rewrite ov_self, at_pos_empty|].
    destruct (decide (m' = N)) as [->|]; [by rewrite ov_self, (at_pos_empty _ din) by done; intros ->|]. rewrite !Hov by done. apply F5; done || lia.
Qed.

Lemma sim_ialloc type : sim (mk_ialloc type) (a_ialloc (g_ninodes g) type).
Proof.
  intros s a R r a' Ha. destruct geom_facts as (Hlo & Hsz & Hg). pose proof R as [F Fr Le Fi Nx Us Me Ft Sz Ty By].
  unfold a_ialloc, kbind, kget, kput, kret, panic in Ha. destruct (_ && _) eqn:Ec; [|done]. injection Ha as <- <-.
  rewrite !andb_true_iff, Z.ltb_lt, Z.leb_le, Z.ltb_lt in Ec. destruct Ec as [[Hn Ht1] Ht2]. pose proof (gg_inodes _ G). set (N := a_next a) in *.
  unfold mk_ialloc. apply mwp_bind. unfold mwp at 1, kget. cbv zeta. apply mwp_bind. unfold mwp at 1, kput. rewrite Fi, u32_small by lia.
  rewrite (xshort_id type), (xshort_id 1), (xint_id 0) by lia. set (din := {| i_dev := 0 |}). set (s1 := {| img := img s |}).
  assert (Hw : wf_inode din) by (split; cbn [din itype major minor nlink isize addrs]; try lia; [done|by apply Forall_replicate]).
  apply mwp_bind. eapply mwp_mono; [apply (winode_ok (N + 1) N (g_size g) (N + 1) (img s) s1 din); try done; try lia|].
  - split; try done; [|apply Fr]. apply forest_new; [lia|done|exact F].
  - intros [] s3 (F3 & Fr3 & Le3 & Fi3 & Us3 & M3 & D3 & B3). apply mwp_ret. split; [done|].
    assert (HD : forall m, 1 <= m < N + 1 -> dinode_of (img s3) m = if decide (m = N) then norm din else dinode_of (img s) m) by (intros; apply D3; lia).
    split; cbn [a_next a_type a_data]; try done; unfold zset.
    + rewrite Fr3. exact Fr.
    + lia.
    + intros k Hk Hne. rewrite M3; [by apply Me|done|]. destruct (Hg N ltac:(lia)). lia.
    + intros m Hm. case_decide; [by vm_compute|]. apply Ft. lia.
    + intros m Hm. rewrite HD by done. case_decide; [done|]. apply Sz. lia.
    + intros m Hm. rewrite HD by done. case_decide; [done|]. apply Ty. lia.
    + intros m o Hm Ho. rewrite B3 by (done || lia). unfold ov. cbn [img s1]. case_decide.
      * rewrite fbyte_empty by done. by destruct (Z.to_nat o).
      * apply By; [lia|done].
Qed.

Lemma sim_ret {A} (r : A) : sim (kret r) (kret r).
Proof. intros s a R r' a' [= <- <-]. by apply mwp_ret. Qed.
Lemma sim_bind {A C} (m : K mkfs A) m' (k : A -> K mkfs C) k' : sim m m' -> (forall x, sim (k x) (k' x)) -> sim (kbind m k) (kbind m' k').
Proof.
  intros Hm Hk s a R r a' E. unfold kbind at 1 in E. destruct (m' a) as [x a1| |] eqn:E1; [|done..].
  apply mwp_bind. eapply mwp_mono; [exact (Hm s a R x a1 E1)|]. intros x' s1 [-> R1]. exact (Hk x s1 a1 R1 r a' E).
Qed.
Lemma sim_panic {A} msg msg' : sim (A := A) (panic msg) (panic msg').
Proof. by intros s a R r a'. Qed.

Lemma sim_dirlink d n name : sim (dirlink_raw d n name) (dirlink_raw (H := afs_ops (g_ninodes g)) d n name).
Proof. apply sim_iappend. Qed.
Lemma sim_mk_dir d name : sim (mk_dir d name) (mk_dir (H := afs_ops (g_ninodes g)) d name).
Proof.
  apply sim_bind; [apply sim_ialloc|]. intros n. apply sim_bind; [apply sim_dirlink|]. intros _. apply sim_bind; [apply sim_iappend|]. intros _.
  apply sim_bind; [apply sim_iappend|]. intros _. apply sim_ret.
Qed.
Lemma sim_add_file d name chunks : sim (add_file d name chunks) (add_file (H := afs_ops (g_ninodes g)) d name chunks).
Proof.
  apply sim_bind; [apply sim_ialloc|]. intros n. apply sim_bind; [apply sim_dirlink|]. intros _.
  induction chunks as [|c r IH]; [apply sim_ret|]. apply sim_bind; [apply sim_iappend|]. intros _. exact IH.
Qed.

Context (host : list Z -> option (list (list Z))).
Lemma sim_add_tcc d l : sim (add_tcc host d l) (add_tcc (H := afs_ops (g_ninodes g)) host d l).
Proof.
  induction l as [|[name path] l IH]; [apply sim_ret|]. cbn [add_tcc]. destruct (host _); [|apply sim_panic].
  apply sim_bind; [apply sim_add_file|]. intros _. exact IH.
Qed.
Lemma sim_add_args r h b l : sim (add_args host r h b l) (add_args (H := afs_ops (g_ninodes g)) host r h b l).
Proof.
  induction l as [|arg l IH]; [apply sim_ret|]. cbn [add_args]. destruct (host _); [|apply sim_panic].
  apply sim_bind; [apply sim_add_file|]. intros _. exact IH.
Qed.
Lemma sim_build args : sim (build host args) (build (H := afs_ops (g_ninodes g)) host args).
Proof.
  apply sim_bind; [apply sim_ialloc|]. intros root. destruct (negb _); [apply sim_panic|].
  do 2 (apply sim_bind; [apply sim_iappend|intros _]). apply sim_bind; [apply sim_mk_dir|]. intros home. apply sim_bind; [apply sim_mk_dir|]. intros bin.
  apply sim_bind; [apply sim_mk_dir|]. intros dev. apply sim_bind; [apply sim_mk_dir|]. intros lib. apply sim_bind; [|intros _].
  { apply sim_bind; [apply sim_mk_dir|]. intros tcc. apply sim_bind; [apply sim_mk_dir|]. intros inc. apply sim_bind; [apply sim_mk_dir|]. intros tl.
    do 2 (apply sim_bind; [apply sim_add_tcc|intros _]). apply sim_bind; [destruct (host _); [apply sim_add_file|apply sim_ret]|]. intros _.
    do 2 (apply sim_bind; [apply sim_diralign|intros _]). apply sim_diralign. }
  apply sim_bind; [apply sim_add_args|]. intros _. do 4 (apply sim_bind; [apply sim_diralign|intros _]). apply sim_diralign.
Qed.

(** The first sectors. *)
Lemma zero_image_ok n : forall i s, (forall k, img s k = replicate BSIZE 0) -> 0 <= i -> flen s = i ->
  mwp (zero_image n i) (fun _ s' => (forall k, img s' k = replicate BSIZE 0) /\ flen s' = i + Z.of_nat n /\ freeblock s' = freeblock s /\
    usedblocks s' = usedblocks s /\ freeinode s' = freeinode s) s.
Proof.
  induction n as [|n IH]; intros i s Hz Hi Hf; cbn [zero_image]; [apply mwp_ret; split_and!; done || lia|].
  apply mwp_bind. unfold mwp at 1, wsect, kmodify. eapply mwp_mono; [apply IH|].
  - intros k. cbn [img]. unfold vset. by case_decide.
  - lia.
  - cbn [flen]. lia.
  - cbn [freeblock usedblocks freeinode]. intros _ s' (H1 & H2 & H3 & H4 & H5). split_and!; done || lia.
Qed.
Lemma super_wf : wfblock (super g).
Proof.
  unfold super. destruct wf_zeros as [Hl Hb]. set (z := replicate BSIZE 0) in *. clearbody z. split; [|by repeat apply putn_bytes].
  unfold BSIZE in *. plen.
Qed.

Lemma getn_zeros n o m : getn n o (replicate m 0) = 0.
Proof. unfold getn, slice. rewrite drop_replicate, take_replicate. generalize (n `min` (m - o))%nat. intros k. induction k as [|k IH]; [done|]. cbn [replicate]. change (0 + 256 * le_dec (replicate k 0) = 0). by rewrite IH. Qed.
Lemma zero_dinode V n : V (i2b n) = replicate BSIZE 0 -> addrs (dinode_of V n) = replicate 13 0.
Proof.
  intros E. unfold dinode_of. rewrite E. cbn [load_dinode addrs]. transitivity ((fun _ : nat => 0) <$> seq 0 13); [|done].
  apply list_fmap_ext. intros j x _. apply getn_zeros.
Qed.
Lemma rep_start s : (forall k, img s k = if decide (k = 1) then super g else replicate BSIZE 0) -> flen s = g_size g -> freeblock s = lo ->
  usedblocks s = lo -> freeinode s = 1 -> rep g s no_files.
Proof.
  intros Hi Hf Hb Hu Hn. destruct geom_facts as (Hlo & Hsz & Hg). pose proof (gg_inodes _ G) as Hin.
  assert (Ha : addrs (dinode_of (img s) 0) = replicate 13 0).
  { apply zero_dinode. rewrite Hi, decide_False; [done|]. destruct (Hg 0 ltac:(lia)). lia. }
  split; cbn [a_next a_type a_data no_files]; try done; try lia.
  rewrite Hb. split; try done; try lia.
  - intros k. rewrite Hi. case_decide; [apply super_wf|apply wf_zeros].
  - intros n p Hn' _. assert (n = 0) as -> by lia. left. by apply at_pos_empty.
  - intros n p n' p' Hn' Hn2 _ _ _ Hnz. assert (n = 0) as -> by lia. by rewrite at_pos_empty in Hnz.
  - intros k Hk. rewrite Hi, decide_False; [done|]. destruct (Hg 0 ltac:(lia)). lia.
Qed.

(** The bitmap. *)
Lemma bitmap_bits_ok off used n : forall b buf j, length buf = BSIZE -> 0 <= b -> b + Z.of_nat n <= BPB -> 0 <= j ->
  length (bitmap_bits n b off used buf) = BSIZE /\
  bit_free (bitmap_bits n b off used buf) j = if (b <=? j) && (j <? b + Z.of_nat n) && (off + j <? used) then false else bit_free buf j.
Proof.
  induction n as [|n IH]; intros b buf j Hl Hb Hn Hj; cbn [bitmap_bits].
  - split; [done|]. replace ((b <=? j) && (j <? b + Z.of_nat 0)) with false; [done|]. symmetry. zcases; lia || done.
  - assert (Hlen : length (bit_set buf b) = BSIZE) by (unfold bit_set; by rewrite length_insert).
    assert (Hbits : 0 <= b < 8 * Z.of_nat (length buf)) by (rewrite Hl; unfold BPB, BSIZE in *; lia).
    destruct (Z.ltb_spec (off + b) used) as [Hlt|Hge].
    + destruct (IH (b + 1) (bit_set buf b) j Hlen ltac:(lia) ltac:(lia) Hj) as [H1 H2]. split; [done|]. rewrite H2, bit_set_spec by done.
      destruct (decide (j = b)) as [->|Hne].
      * rewrite (proj2 (Z.ltb_lt (off + b) used)), Z.leb_refl by done. zcases; done || lia.
      * zcases; done || lia.
    + split; [done|]. destruct (Z.ltb_spec (off + j) used); [|by rewrite andb_false_r]. zcases; done || lia.
Qed.

Definition bitmap_block (used bi : Z) : block := bitmap_bits (Z.to_nat BPB) 0 (bi * BPB) used (replicate BSIZE 0).
Lemma balloc_blocks_ok used n : forall bi s, 0 <= bi -> bi + Z.of_nat n <= bitblocks g -> flen s = g_size g ->
  mwp (balloc_blocks n g bi used) (fun _ s' => freeblock s' = freeblock s /\ forall k, img s' k =
    if decide (NINODEBLOCKS (g_ninodes g) + 3 + bi <= k < NINODEBLOCKS (g_ninodes g) + 3 + bi + Z.of_nat n /\ (k - NINODEBLOCKS (g_ninodes g) - 3) * BPB < used)
    then bitmap_block used (k - NINODEBLOCKS (g_ninodes g) - 3) else img s k) s.
Proof.
  destruct geom_facts as (Hlo & Hsz & _). set (base := NINODEBLOCKS (g_ninodes g) + 3).
  assert (Elo : lo = base + bitblocks g) by (unfold lo, usedblocks0, base; lia). assert (Hbb : bitblocks g = g_size g / 4096 + 1) by done.
  induction n as [|n IH]; intros bi s Hbi Hn Hf; cbn [balloc_blocks].
  - apply mwp_ret. split; [done|]. intros k. by rewrite decide_False by lia.
  - rewrite u32_small by (unfold BPB; dlia). destruct (Z.leb_spec used (bi * BPB)) as [Hle|Hlt].
    + apply mwp_ret. split; [done|]. intros k. rewrite decide_False; [done|]. unfold BPB in *. fold base. lia.
    + fold base. apply mwp_bind. unfold mwp at 1, wsect, kmodify. eapply mwp_mono; [apply IH; [lia|lia|cbn [flen]; lia]|].
      cbn [freeblock img]. intros _ s' [H1 H2]. split; [done|]. intros k. rewrite H2. fold base. unfold vset.
      destruct (decide (k = base + bi)) as [->|Hne].
      * rewrite decide_False by lia. replace (base + bi - NINODEBLOCKS (g_ninodes g) - 3) with bi by (unfold base; lia). rewrite decide_True by lia. unfold bitmap_block. reflexivity.
      * case_decide as E1; case_decide as E2; try done; lia.
Qed.

(** Sectors from [lo] on decide the files, given their inodes. *)
Lemma forest_high fr N V V' I m : forest lo fr N V I -> (forall k, lo <= k -> V' k = V k) -> 0 <= m < N ->
  (forall p, valid p -> at_pos V' (I m) p = at_pos V (I m) p) /\ (forall o, inrange o -> fbyte V' (I m) o = fbyte V (I m) o).
Proof.
  intros F Hv Hm. assert (Ea : forall p, valid p -> at_pos V' (I m) p = at_pos V (I m) p).
  { intros p Hp. apply at_pos_view; [|done]. intros q _ Hq Hnz j Hj. rewrite Hv; [done|]. destruct (fo_range _ _ _ _ _ F m q Hm Hq); [done|lia]. }
  split; [done|]. intros o Ho. pose proof (inrange_bn o Ho) as Hb. destruct (data_pos_valid _ Hb) as [Hp _]. unfold fbyte. rewrite !baddr_pos, Ea by done.
  destruct (Z.eqb_spec (at_pos V (I m) (data_pos (o / 512))) 0); [done|]. rewrite Hv; [done|]. destruct (fo_range _ _ _ _ _ F m _ Hm Hp); [done|lia].
Qed.

Lemma dec_super : dec_superblock (super g) = {| sb_size := g_size g; sb_nblocks := nblocks g; sb_ninodes := g_ninodes g; sb_nlog := g_nlog g |}.
Proof.
  destruct geom_facts as (Hlo & Hsz & _). destruct G as [G1 G2 G3 G4]. assert (nblocks g < 2 ^ 31) by (unfold nblocks; fold lo; lia).
  unfold dec_superblock, super. destruct wf_zeros as [Hl _]. set (z := replicate BSIZE 0) in *. clearbody z. unfold BSIZE in Hl. f_equal.
  - rewrite getn_putn_same, xint_id by (plen || lia). apply Z.mod_small. cbn. lia.
  - rewrite getn_putn_other, getn_putn_same, xint_id by (plen || lia). apply Z.mod_small. cbn. lia.
  - do 2 rewrite getn_putn_other by (plen || lia). rewrite getn_putn_same, xint_id by (plen || lia). apply Z.mod_small. cbn. lia.
  - do 3 rewrite getn_putn_other by (plen || lia). rewrite getn_putn_same, xint_id by (plen || lia). apply Z.mod_small. cbn. lia.
Qed.

Lemma bitmap_free used k b : 0 <= b < g_size g -> k = b / BPB -> used <= g_size g ->
  bit_free (if decide (k * BPB < used) then bitmap_block used k else replicate BSIZE 0) (b mod BPB) = (used <=? b).
Proof.
  intros Hb -> Hu. assert (Hz : forall j, bit_free (replicate BSIZE 0) j = true).
  { intros j. unfold bit_free. by rewrite nth_zeros. }
  assert (Eb : b / BPB * BPB + b mod BPB = b) by (unfold BPB; dlia). assert (Hm : 0 <= b mod BPB < BPB) by (unfold BPB; dlia).
  case_decide as E; [|rewrite Hz; symmetry; apply Z.leb_le; lia].
  unfold bitmap_block. rewrite (proj2 (bitmap_bits_ok (b / BPB * BPB) used (Z.to_nat BPB) 0 _ (b mod BPB) (length_replicate _ _) ltac:(lia) ltac:(unfold BPB; lia) ltac:(lia))).
  rewrite Z.add_0_l, Z2Nat.id, Eb, Hz by (unfold BPB; lia). destruct (Z.leb_spec 0 (b mod BPB)), (Z.ltb_spec (b mod BPB) BPB); try lia. cbn [andb].
  destruct (Z.ltb_spec b used), (Z.leb_spec used b); try done; lia.
Qed.

(** A finished image with the files [a]. *)
Record image_ok (a : afs) (s : mkfs) : Prop := {
  io_super : dec_superblock (img s 1) = {| sb_size := g_size g; sb_nblocks := nblocks g; sb_ninodes := g_ninodes g; sb_nlog := g_nlog g |};
  io_file n : 1 <= n < a_next a -> let i := dinode_of (img s) n in
    itype i = a_type a n /\ isize i = Z.of_nat (length (a_data a n)) /\ fbytes (img s) i 0 (isize i) = a_data a n;
  io_addr n p : 1 <= n < a_next a -> valid p ->
    let x := at_pos (img s) (dinode_of (img s) n) p in x = 0 \/ usedblocks0 g <= x < freeblock s;
  io_bitmap b : 0 <= b < g_size g -> bit_free (img s (BBLOCK b (g_ninodes g))) (b mod BPB) = (freeblock s <=? b);
}.

Lemma bitmap_written s a : rep g s a -> mwp (mk_balloc g (usedblocks s)) (fun _ s' => image_ok a s') s.
Proof.
  intros R. destruct geom_facts as (Hlo & Hsz & Hg). pose proof R as [F Fr Le Fi Nx Us Me Ft Sz Ty By]. pose proof (gg_inodes _ G) as Hin.
  unfold mk_balloc. rewrite Us. destruct (Z.ltb_spec (g_size g) (freeblock s)); [lia|].
  assert (Hbb : 0 <= bitblocks g) by (unfold bitblocks; dlia). set (nib := NINODEBLOCKS (g_ninodes g)) in *.
  assert (Elo : lo = nib + 3 + bitblocks g) by done. assert (Hnib : 0 <= nib) by (unfold nib; rewrite nib_val by lia; dlia).
  eapply mwp_mono; [apply balloc_blocks_ok; [lia|lia|done]|]. fold nib. intros _ s' [Ef Hi]. rewrite Z2Nat.id in Hi by done.
  assert (Hhigh : forall k, lo <= k -> img s' k = img s k) by (intros k Hk; rewrite Hi, decide_False by lia; done).
  assert (Hlow : forall k, k < nib + 3 -> img s' k = img s k) by (intros k Hk; rewrite Hi, decide_False by lia; done).
  assert (Hd : forall n, 0 <= n < g_ninodes g -> dinode_of (img s') n = dinode_of (img s) n).
  { intros n Hn. unfold dinode_of. rewrite Hlow; [done|]. destruct (Hg n Hn) as (_ & _ & ?). lia. }
  split.
  - rewrite Hlow by lia. rewrite Me by (fold nib; lia). rewrite decide_True by done. apply dec_super.
  - intros n Hn i. unfold i. rewrite Hd by lia. split; [by apply Ty|]. split; [by apply Sz|]. rewrite Sz by done.
    destruct (forest_high _ _ _ (img s') _ n F Hhigh ltac:(lia)) as [_ Hfb]. specialize (Ft n Hn). apply (nth_ext _ _ 0 0).
    + unfold fbytes. rewrite length_fmap, length_seqZ. lia.
    + unfold fbytes. rewrite length_fmap, length_seqZ. intros j Hj. rewrite nth_lookup, list_lookup_fmap, lookup_seqZ_lt by lia. cbn.
      rewrite Hfb by (unfold inrange; lia). rewrite By by (done || unfold inrange; lia). f_equal. lia.
  - intros n p Hn Hp x. unfold x. rewrite Hd by lia. rewrite Ef. destruct (forest_high _ _ _ (img s') _ n F Hhigh ltac:(lia)) as [Ha _].
    rewrite Ha by done. apply (fo_range _ _ _ _ _ F); [lia|done].
  - intros b Hb. assert (Hbits : 0 <= b / BPB < bitblocks g) by (unfold bitblocks, BPB; dlia).
    assert (EB : BBLOCK b (g_ninodes g) = nib + 3 + b / BPB) by (unfold BBLOCK; fold nib; rewrite u32_small; lia).
    rewrite EB, Ef, Hi, <- (bitmap_free (freeblock s) (b / BPB) b Hb eq_refl ltac:(lia)). replace (nib + 3 + b / BPB - nib - 3) with (b / BPB) by lia.
    destruct (decide (b / BPB * BPB < freeblock s)) as [E|E]; [by rewrite decide_True by lia|]. rewrite decide_False by lia.
    rewrite Me by (fold nib; lia). by rewrite decide_False by lia.
Qed.
End sim.

(** ** Claims *)


Module MkfsWitness.
Definition small : geom := {| g_nlog := 10; g_ninodes := 64; g_size := 200 |}.
Definition host (_ : list Z) : option (list (list Z)) := Some [[1; 2; 3]; [4]].
Definition args : list (list Z) := [str "build/_init"; str "docs/README"].
Definition s0 : mkfs := {| img := fun _ => []; flen := 0; freeblock := 0; usedblocks := 0; freeinode := 1 |}.
Definition files : afs := kfinal (build (H := afs_ops (g_ninodes small)) host args) no_files.
Definition image : mkfs := kfinal (main small host args) s0.
Definition finished {S A} (o : outcome S A) : bool := match o with Done _ _ => true | _ => false end.
Lemma files_made : finished (build (H := afs_ops (g_ninodes small)) host args no_files) = true.
Proof. vm_compute. reflexivity. Qed.
Lemma image_made : finished (main small host args s0) = true.
Proof. vm_compute. reflexivity. Qed.
End MkfsWitness.

Lemma finished_done {S} (m : K S unit) s : MkfsWitness.finished (m s) = true -> m s = Done tt (kfinal m s).
Proof. unfold kfinal. by destruct (m s) as [[] s'| |]. Qed.
Lemma finished_post {S} (m : K S unit) (P : S -> Prop) (P1 : string -> S -> Prop) (P2 : Z -> S -> Prop) s : MkfsWitness.finished (m s) = true ->
  match m s with Done _ s' => P s' | Panicked msg s' => P1 msg s' | Slept c s' => P2 c s' end -> P (kfinal m s).
Proof. unfold kfinal. by destruct (m s). Qed.
Lemma small_good : good_geom MkfsWitness.small.
Proof. split; done. Qed.


(** ** A full disk *)

Module FullDisk.
(** A geometry in which the files of [MkfsWitness] fill the disk up to the
    log. *)
Definition full : geom := {| g_nlog := 10; g_ninodes := 64; g_size := freeblock MkfsWitness.image + 10 |}.
Definition image : mkfs := kfinal (main full MkfsWitness.host MkfsWitness.args) MkfsWitness.s0.
Definition kernel : blk :=
  {| lg := lg (FsWitness.kernel0 (fun _ => []));
     bc := binit {| bc_lock := false; bufs := replicate (S NBUF) null_buf; usblock := false; usb_ready := true;
                    disk := fun x => img image (x - lba 0); writes := []; faults := []; wakes := [] |} |}.
End FullDisk.

(** The bitmap mkfs writes does not protect the log: on an image whose data
    blocks are all in use, the kernel boots and the first [balloc] returns the
    first block of the log, which holds the log's header, instead of
    panicking. *)
Theorem balloc_hands_out_the_log :
  match (initlog ;; begin_trans ;; balloc ROOTDEV) FullDisk.kernel with
  | Done a s => a = lg_start (lg s) /\ dec_superblock (img FullDisk.image 1) = {| sb_size := a + 10; sb_nblocks := nblocks FullDisk.full; sb_ninodes := 64; sb_nlog := 10 |}
  | _ => False
  end.
Proof. vm_compute. split; reflexivity. Qed.
