(* ===== verification/Vm.v ===== *)
(** * kernel/vm.c: page tables and user memory

    [mem] is the memory the kernel addresses through its direct map, one byte
    per kernel virtual address; a page directory and its page tables are pages
    of it, read and written as little-endian words.  The pages come from
    kalloc.c.  [ptab] is the process table, which vm.c consults through
    [pgdir_user_pt_shared_with_other].  What the code prints is left out. *)

From Stdlib Require Import ZArith Lia.
From S2P Require Import Prelude Spinlock Kalloc Proc.

Definition EXTMEM : Z := 0x100000.
Definition DEVSPACE : Z := 0xF0000000.
Definition KERNLINK : Z := KERNBASE + EXTMEM.
Definition NPDENTRIES : Z := 1024.
Definition PTE_W : Z := 0x002.
Definition PTE_U : Z := 0x004.
Definition PTE_PWT : Z := 0x008.
Definition PTE_PCD : Z := 0x010.
Definition PTE_A : Z := 0x020.
Definition PTE_D : Z := 0x040.
Definition PTX (va : Z) : Z := Z.land (Z.shiftr va 12) 0x3FF.
Definition PGADDR (d t o : Z) : Z := u32 (Z.lor (Z.lor (Z.shiftl d 22) (Z.shiftl t 12)) o).
Definition present (e : Z) : bool := negb (Z.land e PTE_P =? 0).

(** The number of user pages of an address space. *)
Definition UPAGES : Z := KERNBASE / PGSIZE.

Ltac vconsts := unfold UPAGES, KERNLINK, EXTMEM, PGSIZE, KERNBASE, PHYSTOP in *.
Lemma pow20 : 2 ^ 20 = 1048576.
Proof. reflexivity. Qed.
Lemma pow32 : 2 ^ 32 = 4294967296.
Proof. reflexivity. Qed.
(** [lia] on addresses and page numbers. *)
Ltac vlia := rewrite ?pow20, ?pow32 in *; vconsts; dlia.

(** No page. *)
Abbreviation none := (fun _ : Z => False).

(** ** Memory *)

(** [*(uint* )a] and [*(uint* )a = v]; a cell is a byte. *)
Definition ld32 (m : Z -> Z) (a : Z) : Z :=
  u8 (m a) + 2 ^ 8 * u8 (m (a + 1)) + 2 ^ 16 * u8 (m (a + 2)) + 2 ^ 24 * u8 (m (a + 3)).
Definition st32 (m : Z -> Z) (a v : Z) : Z -> Z := fun x =>
  if (a <=? x) && (x <? a + 4) then u8 (Z.shiftr v (8 * (x - a))) else m x.
(** [memset(a, c, n)], [memmove(dst, src, n)], and [n] bytes [f 0], [f 1], ...
    stored from [a] on. *)
Definition store (m : Z -> Z) (a n : Z) (f : Z -> Z) : Z -> Z := fun x =>
  if (a <=? x) && (x <? a + n) then f (x - a) else m x.
Definition fill (m : Z -> Z) (a c n : Z) : Z -> Z := store m a n (fun _ => c).
Definition move (m : Z -> Z) (dst src n : Z) : Z -> Z := store m dst n (fun i => m (src + i)).

Record vm := {
  pages : kmem;
  mem : Z -> Z;
  ptab : list proc;
  setupkvm_lock : bool;
  kpgdir : Z;
  cr3 : Z;
}.

Definition set_pages (k : kmem) (s : vm) : vm :=
  {| pages := k; mem := mem s; ptab := ptab s; setupkvm_lock := setupkvm_lock s; kpgdir := kpgdir s; cr3 := cr3 s |}.
Definition set_mem (m : Z -> Z) (s : vm) : vm :=
  {| pages := pages s; mem := m; ptab := ptab s; setupkvm_lock := setupkvm_lock s; kpgdir := kpgdir s; cr3 := cr3 s |}.
Definition set_kpgdir (d : Z) (s : vm) : vm :=
  {| pages := pages s; mem := mem s; ptab := ptab s; setupkvm_lock := setupkvm_lock s; kpgdir := d; cr3 := cr3 s |}.
Definition set_cr3 (v : Z) (s : vm) : vm :=
  {| pages := pages s; mem := mem s; ptab := ptab s; setupkvm_lock := setupkvm_lock s; kpgdir := kpgdir s; cr3 := v |}.

#[global] Instance vm_locks : HasLocks unit vm := {
  held _ s := setupkvm_lock s;
  set_held _ b s := {| pages := pages s; mem := mem s; ptab := ptab s; setupkvm_lock := b;
    kpgdir := kpgdir s; cr3 := cr3 s |};
}.
Definition setupkvm_lock_acquire : K vm unit := acquire tt.
Definition setupkvm_lock_release : K vm unit := release tt.

Definition upd_mem (f : (Z -> Z) -> Z -> Z) : K vm unit := kmodify (fun s => set_mem (f (mem s)) s).
Definition load32 (a : Z) : K vm Z := kgets (fun s => ld32 (mem s) a).
Definition store32 (a v : Z) : K vm unit := upd_mem (fun m => st32 m a v).

(** The linker symbols [end] and [data] (kernel.ld aligns the latter to a page)
    and the [phystop] of main.c. *)
Class Layout := { end_ : Z; data_ : Z; phystop : Z }.
Class LayoutOk `{Layout} := {
  Hend : KERNLINK <= end_ < KERNBASE + ptop phystop;
  Hptop : ptop phystop <= PHYSTOP;
  Hdata : KERNLINK < data_ <= end_ /\ data_ mod PGSIZE = 0;
}.

Section Vm.
Context {L : Layout}.

(** kalloc.c on this memory: [kfree] fills the page with junk unless it finds
    it free already. *)
Definition vkalloc : K vm Z := zoom pages set_pages (kalloc end_ phystop).
Definition vkfree (v : Z) : K vm unit :=
  s <- kget ;;
  zoom pages set_pages (kfree end_ phystop v) ;;
  if (v =? 0) || bool_decide (page_state (pages s) (v2p v / PGSIZE) = PAGE_STATE_FREE) then kret tt
  else upd_mem (fun m => fill m v 1 PGSIZE).

(** [pa == 0 || pa % PGSIZE || pa >= ptop || kv < end || v2p(kv) >= ptop] *)
Definition bad_frame (pa : Z) : bool :=
  (pa =? 0) || negb (pa mod PGSIZE =? 0) || (ptop phystop <=? pa) || (p2v pa <? end_) ||
  (ptop phystop <=? v2p (p2v pa)).

(** The address of the entry for [va], 0 if there is none. *)
Definition walkpgdir (pgdir va : Z) (alloc : bool) : K vm Z :=
  let pde := pgdir + 4 * PDX va in
  let fresh :=
    if negb alloc then kret 0
    else
      pgtab <- vkalloc ;;
      if pgtab =? 0 then kret 0
      else
        upd_mem (fun m => fill m pgtab 0 PGSIZE) ;;
        store32 pde (Z.lor (v2p pgtab) (Z.lor PTE_P (Z.lor PTE_W PTE_U))) ;;
        kret (pgtab + 4 * PTX va) in
  e <- load32 pde ;;
  if present e then
    if bad_frame (PTE_ADDR e) then store32 pde 0 ;; fresh
    else kret (p2v (PTE_ADDR e) + 4 * PTX va)
  else fresh.

(** What the present entry [cur] of the page [a] becomes. *)
Definition remap_entry (pte cur want a pa : Z) : K vm unit :=
  if Z.land cur (Z.lnot (Z.lor PTE_A PTE_D)) =? want then kret tt
  else if PTE_ADDR cur =? pa then store32 pte (Z.lor want (Z.land cur (Z.lor PTE_A PTE_D)))
  else if KERNBASE <=? a then store32 pte (Z.lor want (Z.land cur (Z.lor PTE_A PTE_D)))
  else panic "remap".

Fixpoint mappages_loop (n : nat) (pgdir a last pa perm : Z) : K vm Z :=
  match n with
  | O => ub "the loop of mappages has more turns"
  | S n' =>
      let want := Z.lor (Z.lor pa perm) PTE_P in
      pte <- walkpgdir pgdir a true ;;
      if pte =? 0 then kret (-1)
      else
        cur <- load32 pte ;;
        (if present cur then remap_entry pte cur want a pa else store32 pte want) ;;
        if a =? last then kret 0
        else mappages_loop n' pgdir (a +u PGSIZE) last (pa +u PGSIZE) perm
  end.

(** The turns of the loop, which may pass the top of the address space. *)
Definition mappages_nolock (pgdir va size pa perm : Z) : K vm Z :=
  let a := PGROUNDDOWN va in
  let last := PGROUNDDOWN (u32 (va + size - 1)) in
  mappages_loop (Z.to_nat ((last -u a) / PGSIZE + 1)) pgdir a last pa perm.

Definition mappages (pgdir va size pa perm : Z) : K vm Z :=
  setupkvm_lock_acquire ;;
  r <- mappages_nolock pgdir va size pa perm ;;
  setupkvm_lock_release ;;
  kret r.

(** ** Freeing *)

Definition pde_of (m : Z -> Z) (d i : Z) : Z := ld32 m (d + 4 * i).
Definition shared_pt (s : vm) (pgdir pde_pa : Z) : bool := user_pt_shared (pde_of (mem s)) (ptab s) pgdir pde_pa.

(** One page [a] of [deallocuvm_nolock]; returns the [a] the [a += PGSIZE] of
    the loop starts from. *)
Definition dealloc_page (pgdir a : Z) : K vm Z :=
  if a <? 0x4000 then kret a
  else
    pde <- load32 (pgdir + 4 * PDX a) ;;
    s <- kget ;;
    if present pde && negb (PTE_ADDR pde =? 0) && shared_pt s pgdir (PTE_ADDR pde)
    then kret (PGADDR (PDX a + 1) 0 0 -u PGSIZE)
    else
      pte <- walkpgdir pgdir a false ;;
      if pte =? 0 then kret (PGADDR (PDX a + 1) 0 0 -u PGSIZE)
      else
        e <- load32 pte ;;
        if present e then
          store32 pte 0 ;;
          if bad_frame (PTE_ADDR e) then kret a else vkfree (p2v (PTE_ADDR e)) ;; kret a
        else kret a.

Fixpoint dealloc_loop (n : nat) (pgdir a oldsz : Z) : K vm unit :=
  if negb (a <? oldsz) then kret tt
  else match n with
       | O => ub "the loop of deallocuvm has more turns"
       | S n' => a' <- dealloc_page pgdir a ;; dealloc_loop n' pgdir (a' +u PGSIZE) oldsz
       end.

Definition deallocuvm_nolock (pgdir oldsz newsz : Z) : K vm Z :=
  if oldsz <=? newsz then kret oldsz
  else dealloc_loop (Z.to_nat (oldsz / PGSIZE + 1)) pgdir (PGROUNDUP newsz) oldsz ;; kret newsz.

Definition deallocuvm (pgdir oldsz newsz : Z) : K vm Z :=
  setupkvm_lock_acquire ;;
  r <- deallocuvm_nolock pgdir oldsz newsz ;;
  setupkvm_lock_release ;;
  kret r.

(** The page tables [i], [i + 1], ... of a directory. *)
Fixpoint freept_loop (n : nat) (pgdir i : Z) : K vm unit :=
  match n with
  | O => kret tt
  | S n' =>
      e <- load32 (pgdir + 4 * i) ;;
      (if present e then
         store32 (pgdir + 4 * i) 0 ;;
         if bad_frame (PTE_ADDR e) then kret tt
         else
           s <- kget ;;
           if (i <? PDX KERNBASE) && shared_pt s pgdir (PTE_ADDR e) then kret tt
           else vkfree (p2v (PTE_ADDR e))
       else kret tt) ;;
      freept_loop n' pgdir (i + 1)
  end.

Definition freevm_nolock (pgdir : Z) : K vm unit :=
  if pgdir =? 0 then kret tt
  else
    deallocuvm_nolock pgdir KERNBASE 0 ;;
    freept_loop (Z.to_nat NPDENTRIES) pgdir 0 ;;
    vkfree pgdir.

Definition freevm (pgdir : Z) : K vm unit :=
  if pgdir =? 0 then panic "freevm: no pgdir"
  else setupkvm_lock_acquire ;; freevm_nolock pgdir ;; setupkvm_lock_release.

(** ** Building address spaces *)

Record kmap_entry := { virt : Z; phys_start : Z; phys_end : Z; perm : Z }.
Definition kmap : list kmap_entry := [
  {| virt := KERNBASE; phys_start := 0; phys_end := EXTMEM; perm := Z.lor PTE_W (Z.lor PTE_PCD PTE_PWT) |};
  {| virt := KERNLINK; phys_start := v2p KERNLINK; phys_end := v2p data_; perm := 0 |};
  {| virt := data_; phys_start := v2p data_; phys_end := PHYSTOP; perm := PTE_W |};
  {| virt := DEVSPACE; phys_start := DEVSPACE; phys_end := 0; perm := Z.lor PTE_W (Z.lor PTE_PCD PTE_PWT) |} ].

(** The entries [ki], [ki + 1], ... of [kmap]. *)
Fixpoint kmap_loop (l : list kmap_entry) (ki : nat) (pgdir k2_phys_end : Z) : K vm Z :=
  match l with
  | [] => kret pgdir
  | k :: l' =>
      let size := if (ki =? 2)%nat then k2_phys_end -u phys_start k else phys_end k -u phys_start k in
      r <- mappages_nolock pgdir (virt k) size (phys_start k) (perm k) ;;
      if r <? 0 then freevm_nolock pgdir ;; kret 0
      else kmap_loop l' (S ki) pgdir k2_phys_end
  end.

Definition setupkvm_impl : K vm Z :=
  pgdir <- vkalloc ;;
  if pgdir =? 0 then kret 0
  else
    upd_mem (fun m => fill m pgdir 0 PGSIZE) ;;
    let k2_phys_end := ptop phystop in
    if DEVSPACE <? p2v k2_phys_end then vkfree pgdir ;; panic "phystop too high"
    else if k2_phys_end <=? v2p data_ then vkfree pgdir ;; panic "kmap2 bad phystop"
    else kmap_loop kmap 0 pgdir k2_phys_end.

Definition setupkvm : K vm Z :=
  acquire tt ;;
  pgdir <- setupkvm_impl ;;
  release tt ;;
  kret pgdir.

(** [lcr3(v2p(kpgdir))] *)
Definition switchkvm : K vm unit := kmodify (fun s => set_cr3 (v2p (kpgdir s)) s).
Definition kvmalloc : K vm unit := d <- setupkvm ;; kmodify (set_kpgdir d) ;; switchkvm.

(** [init] are the bytes at the kernel address the caller passes. *)
Definition inituvm (pgdir : Z) (init : Z -> Z) (sz : Z) : K vm unit :=
  if PGSIZE <=? sz then panic "inituvm: more than a page"
  else
    mem_ <- vkalloc ;;
    if mem_ =? 0 then ub "memset of the null page"
    else
      upd_mem (fun m => fill m mem_ 0 PGSIZE) ;;
      mappages pgdir 0 PGSIZE (v2p mem_) (Z.lor PTE_W PTE_U) ;;
      upd_mem (fun m => store m mem_ sz init).

(** [readi(ip, dst, off, n)] as the loader uses it: the result, and the bytes
    stored. *)
Fixpoint load_loop (n : nat) (rd : Z -> Z -> Z * (Z -> Z)) (pgdir addr offset sz i : Z) : K vm Z :=
  if negb (i <? sz) then kret 0
  else match n with
       | O => ub "the loop of loaduvm has more turns"
       | S n' =>
           pte <- walkpgdir pgdir (addr +u i) false ;;
           if pte =? 0 then panic "loaduvm: address should exist"
           else
             e <- load32 pte ;;
             let n := if sz -u i <? PGSIZE then sz -u i else PGSIZE in
             let '(got, bs) := rd (offset +u i) n in
             upd_mem (fun m => store m (p2v (PTE_ADDR e)) got bs) ;;
             if negb (got =? n) then kret (-1)
             else load_loop n' rd pgdir addr offset sz (i +u PGSIZE)
       end.

Definition loaduvm (rd : Z -> Z -> Z * (Z -> Z)) (pgdir addr offset sz : Z) : K vm Z :=
  if negb (addr mod PGSIZE =? 0) then panic "loaduvm: addr must be page aligned"
  else load_loop (Z.to_nat (sz / PGSIZE + 1)) rd pgdir addr offset sz 0.

Fixpoint alloc_loop (n : nat) (pgdir a oldsz newsz : Z) : K vm Z :=
  if negb (a <? newsz) then kret newsz
  else match n with
       | O => ub "the loop of allocuvm has more turns"
       | S n' =>
           mem_ <- vkalloc ;;
           if mem_ =? 0 then deallocuvm_nolock pgdir newsz oldsz ;; kret 0
           else
             upd_mem (fun m => fill m mem_ 0 PGSIZE) ;;
             r <- mappages_nolock pgdir a PGSIZE (v2p mem_) (Z.lor PTE_W PTE_U) ;;
             if r <? 0 then vkfree mem_ ;; deallocuvm_nolock pgdir newsz oldsz ;; kret 0
             else alloc_loop n' pgdir (a +u PGSIZE) oldsz newsz
       end.

Definition allocuvm_nolock (pgdir oldsz newsz : Z) : K vm Z :=
  if KERNBASE <=? newsz then kret 0
  else if newsz <? oldsz then kret oldsz
  else alloc_loop (Z.to_nat (newsz / PGSIZE + 1)) pgdir (PGROUNDUP oldsz) oldsz newsz.

Definition allocuvm (pgdir oldsz newsz : Z) : K vm Z :=
  setupkvm_lock_acquire ;;
  r <- allocuvm_nolock pgdir oldsz newsz ;;
  setupkvm_lock_release ;;
  kret r.

Definition clearpteu (pgdir uva : Z) : K vm unit :=
  pte <- walkpgdir pgdir uva false ;;
  if pte =? 0 then panic "clearpteu"
  else
    e <- load32 pte ;;
    store32 pte (Z.land e (u32 (Z.lnot PTE_U))).

Fixpoint copy_loop (n : nat) (pgdir d sz i : Z) : K vm Z :=
  if negb (i <? sz) then kret d
  else match n with
       | O => ub "the loop of copyuvm has more turns"
       | S n' =>
           pte <- walkpgdir pgdir i false ;;
           if pte =? 0 then panic "copyuvm: pte should exist"
           else
             e <- load32 pte ;;
             if negb (present e) then panic "copyuvm: page not present"
             else
               mem_ <- vkalloc ;;
               if mem_ =? 0 then freevm_nolock d ;; kret 0
               else
                 upd_mem (fun m => move m mem_ (p2v (PTE_ADDR e)) PGSIZE) ;;
                 r <- mappages_nolock d i PGSIZE (v2p mem_) (Z.lor PTE_W PTE_U) ;;
                 if r <? 0 then freevm_nolock d ;; kret 0
                 else copy_loop n' pgdir d sz (i +u PGSIZE)
       end.

Definition copyuvm (pgdir sz : Z) : K vm Z :=
  if KERNBASE <=? sz then kret 0
  else
    acquire tt ;;
    d <- setupkvm_impl ;;
    if d =? 0 then release tt ;; kret 0
    else r <- copy_loop (Z.to_nat (sz / PGSIZE + 1)) pgdir d sz 0 ;; release tt ;; kret r.

(** ** User addresses *)

Definition uva2ka (pgdir uva : Z) : K vm Z :=
  pte <- walkpgdir pgdir uva false ;;
  if pte =? 0 then kret 0
  else
    e <- load32 pte ;;
    if negb (present e) then kret 0
    else if Z.land e PTE_U =? 0 then kret 0
    else if bad_frame (PTE_ADDR e) then kret 0
    else kret (p2v (PTE_ADDR e)).

(** [p] is the buffer, as a function of the index. *)
Fixpoint copyout_loop (n : nat) (pgdir va : Z) (p : Z -> Z) (len : Z) : K vm Z :=
  if negb (0 <? len) then kret 0
  else match n with
       | O => ub "the loop of copyout has more turns"
       | S n' =>
           let va0 := PGROUNDDOWN va in
           pa0 <- uva2ka pgdir va0 ;;
           if pa0 =? 0 then kret (-1)
           else
             let k := PGSIZE -u (va -u va0) in
             let k := if len <? k then len else k in
             upd_mem (fun m => store m (pa0 + (va -u va0)) k p) ;;
             copyout_loop n' pgdir (va0 +u PGSIZE) (fun i => p (i + k)) (len -u k)
       end.

Definition copyout (pgdir va : Z) (p : Z -> Z) (len : Z) : K vm Z :=
  copyout_loop (Z.to_nat (len / PGSIZE + 2)) pgdir va p len.

(** ** What the pages are used for

    [own v] is the role of the page at [v]: free, a page directory, the page
    table [i] of the directory [d], the frame of the user page [n] of the
    directory [d], or something vm.c does not manage.  That [own] is a function
    is the disjointness of the address spaces. *)

Inductive role := RFree | RDir | RTab (d i : Z) | RUser (d n : Z) | ROther.
#[global] Instance role_eq_dec : EqDecision role.
Proof. solve_decision. Defined.

Definition tab (m : Z -> Z) (d i : Z) : Z := p2v (PTE_ADDR (pde_of m d i)).
(** The entry of the page number [n]; without a table it is 0. *)
Definition pte_at (m : Z -> Z) (d n : Z) : Z :=
  if present (pde_of m d (n / 1024)) then ld32 m (tab m d (n / 1024) + 4 * (n mod 1024)) else 0.
Definition frame (e : Z) : Z := p2v (PTE_ADDR e).
(** The page of an address. *)
Definition pg (x : Z) : Z := x - x mod PGSIZE.

Record world (s : vm) (own : Z -> role) : Prop := {
  w_free : exists F, free_set end_ phystop (pages s) F /\ forall v, v ∈ F <-> own v = RFree;
  w_pages : forall v, own v <> ROther -> page_ok end_ phystop v;
  w_tab : forall v d i, own v = RTab d i <->
    own d = RDir /\ 0 <= i < 1024 /\ present (pde_of (mem s) d i) = true /\ tab (mem s) d i = v;
  w_user : forall v d n, own v = RUser d n <->
    own d = RDir /\ 0 <= n < UPAGES /\ present (pte_at (mem s) d n) = true /\ frame (pte_at (mem s) d n) = v;
  w_procs : forall p, p ∈ ptab s -> state p <> UNUSED -> pgdir p <> 0 -> own (pgdir p) = RDir;
}.

Definition is_pt (r : role) : bool := match r with RDir | RTab _ _ => true | _ => false end.

(** ** Lemmas on memory and entries *)


Lemma ld32_ext m m' a : (forall k, 0 <= k < 4 -> m' (a + k) = m (a + k)) -> ld32 m' a = ld32 m a.
Proof.
  intros H. unfold ld32. rewrite (H 1), (H 2), (H 3) by lia.
  specialize (H 0). rewrite Z.add_0_r in H. by rewrite H by lia.
Qed.

Lemma ld32_range m a : 0 <= ld32 m a < 2 ^ 32.
Proof.
  unfold ld32, u8. pose proof (Z.mod_pos_bound (m a) (2 ^ 8)). pose proof (Z.mod_pos_bound (m (a + 1)) (2 ^ 8)).
  pose proof (Z.mod_pos_bound (m (a + 2)) (2 ^ 8)). pose proof (Z.mod_pos_bound (m (a + 3)) (2 ^ 8)). lia.
Qed.

Lemma ld32_st32_eq m a v : 0 <= v < 2 ^ 32 -> ld32 (st32 m a v) a = v.
Proof.
  intros Hv. unfold ld32, st32. zcases; try lia.
  replace (a - a) with 0 by lia. replace (a + 1 - a) with 1 by lia.
  replace (a + 2 - a) with 2 by lia. replace (a + 3 - a) with 3 by lia.
  unfold u8. rewrite !Z.shiftr_div_pow2 by lia. rewrite !Z.mod_mod by lia.
  change (2 ^ (8 * 0)) with 1. change (2 ^ (8 * 1)) with 256. change (2 ^ (8 * 2)) with 65536.
  change (2 ^ (8 * 3)) with 16777216. change (2 ^ 8) with 256. change (2 ^ 16) with 65536. change (2 ^ 24) with 16777216.
  change (2 ^ 32) with 4294967296 in Hv. dlia.
Qed.

Lemma st32_other m a v x : ~ (a <= x < a + 4) -> st32 m a v x = m x.
Proof. intros. unfold st32. zcases; lia || done. Qed.

Lemma ld32_st32_ne m a b v : a + 4 <= b \/ b + 4 <= a -> ld32 (st32 m a v) b = ld32 m b.
Proof. intros. apply ld32_ext. intros k Hk. apply st32_other. lia. Qed.

Lemma store_other m a n f x : ~ (a <= x < a + n) -> store m a n f x = m x.
Proof. intros. unfold store. zcases; lia || done. Qed.
Lemma store_in m a n f x : a <= x < a + n -> store m a n f x = f (x - a).
Proof. intros. unfold store. zcases; lia || done. Qed.

Lemma ld32_fill0 m a b n : a <= b -> b + 4 <= a + n -> ld32 (fill m a 0 n) b = 0.
Proof. intros. unfold ld32, fill. rewrite !store_in by lia. reflexivity. Qed.

Lemma pg_in v k : v mod PGSIZE = 0 -> 0 <= k < PGSIZE -> pg (v + k) = v.
Proof. intros. unfold pg. vconsts. dlia. Qed.
Lemma pg_iff v x : v mod PGSIZE = 0 -> pg x = v <-> v <= x < v + PGSIZE.
Proof. intros. unfold pg. vconsts. split; dlia. Qed.

Lemma PDX_spec va : 0 <= va < 2 ^ 32 -> PDX va = va / PGSIZE / 1024 /\ 0 <= PDX va < 1024.
Proof.
  intros H. unfold PDX. change 0x3FF with (Z.ones 10). rewrite Z.land_ones, Z.shiftr_div_pow2 by lia.
  change (2 ^ 22) with 4194304. change (2 ^ 10) with 1024. change (2 ^ 32) with 4294967296 in H. vconsts. dlia.
Qed.
Lemma PTX_spec va : 0 <= va < 2 ^ 32 -> PTX va = va / PGSIZE mod 1024.
Proof.
  intros H. unfold PTX. change 0x3FF with (Z.ones 10). rewrite Z.land_ones, Z.shiftr_div_pow2 by lia.
  change (2 ^ 12) with 4096. change (2 ^ 10) with 1024. by vconsts.
Qed.

Lemma PTE_ADDR_spec e : 0 <= e < 2 ^ 32 -> PTE_ADDR e = e - e mod PGSIZE.
Proof. intros H. unfold PTE_ADDR. change (u32 (Z.lnot 0xFFF)) with (2 ^ 32 - 2 ^ 12). by rewrite land_mask_up. Qed.

(** A page address with flags below it. *)
Lemma lor_flags pa f : 0 <= f < PGSIZE -> pa mod PGSIZE = 0 -> Z.lor pa f = pa + f.
Proof.
  intros Hf Hp. symmetry. apply Z.add_nocarry_lor. apply Z.bits_inj'. intros i Hi.
  rewrite Z.land_spec, Z.bits_0. destruct (Z.ltb_spec i 12).
  - replace pa with (pa / 2 ^ 12 * 2 ^ 12) by (vconsts; change (2 ^ 12) with 4096; dlia).
    by rewrite Z.mul_pow2_bits_low.
  - replace f with (f mod 2 ^ 12) by (vconsts; change (2 ^ 12) with 4096; dlia).
    rewrite Z.mod_pow2_bits_high by lia. apply andb_false_r.
Qed.

Lemma present_odd e : present e = Z.odd e.
Proof.
  unfold present, PTE_P. change 1 with (Z.ones 1). rewrite Z.land_ones by lia. change (2 ^ 1) with 2.
  rewrite Zmod_odd. by destruct (Z.odd e).
Qed.

(** The entry [pa + f]. *)
Lemma PTE_ADDR_flags pa f : 0 <= pa -> pa + f < 2 ^ 32 -> 0 <= f < PGSIZE -> pa mod PGSIZE = 0 -> PTE_ADDR (pa + f) = pa.
Proof. intros. rewrite PTE_ADDR_spec by lia. vconsts. dlia. Qed.

Lemma PTE_ADDR_page e : 0 <= e < 2 ^ 32 -> PTE_ADDR e mod PGSIZE = 0 /\ 0 <= PTE_ADDR e < 2 ^ 32.
Proof. intros. rewrite PTE_ADDR_spec by done. vconsts. change (2 ^ 32) with 4294967296 in *. split; dlia. Qed.

Lemma v2p_p2v pa : 0 <= pa < 2 ^ 32 -> v2p (p2v pa) = pa.
Proof. intros. unfold v2p, p2v, u32. vconsts. change (2 ^ 32) with 4294967296 in *. dlia. Qed.
Lemma p2v_v2p v : 0 <= v < 2 ^ 32 -> p2v (v2p v) = v.
Proof. intros. unfold v2p, p2v, u32. vconsts. change (2 ^ 32) with 4294967296 in *. dlia. Qed.

Context {LO : LayoutOk}.

Lemma page_range v : page_ok end_ phystop v -> v mod PGSIZE = 0 /\ KERNLINK <= v /\ v + PGSIZE <= 2 ^ 32 - 2 ^ 28 /\ 0 <= v < 2 ^ 32.
Proof.
  intros [Hm Hv]. pose proof Hend. pose proof Hptop. vconsts. change (2 ^ 32) with 4294967296. change (2 ^ 28) with 268435456. split; [done|].
  split; [lia|]. split; [dlia|lia].
Qed.

Lemma v2p_page v : page_ok end_ phystop v -> v2p v = v - KERNBASE /\ v2p v mod PGSIZE = 0.
Proof.
  intros Hv. pose proof (page_range v Hv) as (? & ? & ? & ?). unfold v2p. rewrite u32_small by (vconsts; lia).
  split; [done|]. vconsts. dlia.
Qed.

Lemma page_good pa : 0 <= pa < 2 ^ 32 -> page_ok end_ phystop (p2v pa) -> bad_frame pa = false.
Proof.
  intros Hpa Hv. pose proof (v2p_page _ Hv) as [He Hm]. pose proof (page_range _ Hv) as (? & ? & ? & ?).
  destruct Hv as [_ Hr]. unfold bad_frame. rewrite (v2p_p2v pa) in * by done. rewrite Hm. cbn [negb orb Z.eqb].
  zcases; try reflexivity; vconsts; lia.
Qed.

(** ** The world *)

Implicit Types (s : vm) (own : Z -> role) (d v n i : Z).

Definition agree (m m' : Z -> Z) v : Prop := forall x, pg x = v -> m' x = m x.

Lemma agree_ld32 m m' v k : v mod PGSIZE = 0 -> 0 <= k < 1024 -> agree m m' v -> ld32 m' (v + 4 * k) = ld32 m (v + 4 * k).
Proof.
  intros Hv Hk Ha. apply ld32_ext. intros j Hj. apply Ha.
  replace (v + 4 * k + j) with (v + (4 * k + j)) by lia. apply pg_in; [done|]. vconsts. lia.
Qed.

Lemma pte_agree m m' d n : d mod PGSIZE = 0 -> 0 <= n < 2 ^ 20 -> agree m m' d ->
  (present (pde_of m d (n / 1024)) = true -> tab m d (n / 1024) mod PGSIZE = 0 /\ agree m m' (tab m d (n / 1024))) ->
  pte_at m' d n = pte_at m d n.
Proof.
  intros Hd Hn Ha Ht. change (2 ^ 20) with 1048576 in Hn.
  assert (He : pde_of m' d (n / 1024) = pde_of m d (n / 1024)) by (apply agree_ld32; [done|dlia|done]).
  unfold pte_at, tab in *. rewrite He. destruct (present _); [|done]. destruct (Ht eq_refl) as [Hm Hg].
  apply agree_ld32; [done|dlia|done].
Qed.

Section World.
Context (s : vm) (own : Z -> role) (Hw : world s own).

Lemma w_dir d : own d = RDir -> page_ok end_ phystop d /\ d mod PGSIZE = 0 /\ d <> 0.
Proof.
  intros Hd. assert (page_ok end_ phystop d) as Hp by (apply (w_pages _ _ Hw); congruence).
  pose proof (page_range d Hp). split_and!; [done|tauto|vconsts; lia].
Qed.

Lemma w_table d i : own d = RDir -> 0 <= i < 1024 -> present (pde_of (mem s) d i) = true ->
  own (tab (mem s) d i) = RTab d i /\ page_ok end_ phystop (tab (mem s) d i) /\ bad_frame (PTE_ADDR (pde_of (mem s) d i)) = false.
Proof.
  intros Hd Hi Hp. assert (Ht : own (tab (mem s) d i) = RTab d i) by by apply (w_tab _ _ Hw).
  assert (Hk : page_ok end_ phystop (tab (mem s) d i)) by (apply (w_pages _ _ Hw); congruence).
  split_and!; [done..|]. apply page_good; [|done]. apply PTE_ADDR_page, ld32_range.
Qed.

Lemma w_frame d n : own d = RDir -> 0 <= n < UPAGES -> present (pte_at (mem s) d n) = true ->
  own (frame (pte_at (mem s) d n)) = RUser d n /\ page_ok end_ phystop (frame (pte_at (mem s) d n)) /\
  bad_frame (PTE_ADDR (pte_at (mem s) d n)) = false.
Proof.
  intros Hd Hn Hp. assert (Ht : own (frame (pte_at (mem s) d n)) = RUser d n) by by apply (w_user _ _ Hw).
  assert (Hk : page_ok end_ phystop (frame (pte_at (mem s) d n))) by (apply (w_pages _ _ Hw); congruence).
  split_and!; [done..|]. apply page_good; [|done]. apply PTE_ADDR_page. unfold pte_at.
  destruct (present (pde_of _ _ _)); [apply ld32_range|lia].
Qed.

(** An address space depends on its directory and its tables only. *)
Lemma w_agree m' d : own d = RDir -> agree (mem s) m' d -> (forall v i, own v = RTab d i -> agree (mem s) m' v) ->
  (forall i, 0 <= i < 1024 -> pde_of m' d i = pde_of (mem s) d i) /\
  (forall n, 0 <= n < 2 ^ 20 -> pte_at m' d n = pte_at (mem s) d n).
Proof.
  intros Hd Ha Ht. destruct (w_dir d Hd) as (_ & Hm & _). split.
  - intros i Hi. by apply agree_ld32.
  - intros n Hn. apply pte_agree; [done..|]. intros Hp. change (2 ^ 20) with 1048576 in Hn.
    destruct (w_table d (n / 1024) Hd) as (Ho & Hk & _); [dlia|done|]. split; [apply Hk|by eapply Ht].
Qed.

Lemma world_mem m' : (forall v, is_pt (own v) = true -> agree (mem s) m' v) -> world (set_mem m' s) own.
Proof.
  intros Hm.
  assert (Hd : forall d, own d = RDir -> (forall i, 0 <= i < 1024 -> pde_of m' d i = pde_of (mem s) d i) /\
    (forall n, 0 <= n < 2 ^ 20 -> pte_at m' d n = pte_at (mem s) d n)).
  { intros d Hd. apply w_agree; [done|apply Hm; by rewrite Hd|]. intros v i Hv. apply Hm. by rewrite Hv. }
  destruct Hw as [Hf Hp Ht Hu Hr]. constructor; cbn [mem ptab pages set_mem]; try done.
  - intros v d i. rewrite Ht. unfold tab. split; intros (Hdd & Hi & He); destruct (Hd d Hdd) as [Hpd _];
      specialize (Hpd i Hi); [rewrite Hpd|rewrite Hpd in He]; done.
  - intros v d n. rewrite Hu. split; intros (Hdd & Hn & He); destruct (Hd d Hdd) as [_ Hpt];
      assert (Hn' : 0 <= n < 2 ^ 20) by (vconsts; change (2 ^ 20) with 1048576; dlia);
      specialize (Hpt n Hn'); [rewrite Hpt|rewrite Hpt in He]; done.
Qed.
End World.

(** Only the free and the unmanaged pages change role. *)
Definition loose (r : role) : Prop := r = RFree \/ r = ROther.

Lemma world_loose s own s' own' F : world s own -> mem s' = mem s -> ptab s' = ptab s ->
  (forall v, own' v = own v \/ loose (own v) /\ loose (own' v)) ->
  (forall v, own' v = RFree -> page_ok end_ phystop v) ->
  free_set end_ phystop (pages s') F -> (forall v, v ∈ F <-> own' v = RFree) -> world s' own'.
Proof.
  intros [_ Hp Ht Hu Hr] Em Ep Hl Hpf HF HFo.
  assert (Hsame : forall v r, ~ loose r -> own' v = r <-> own v = r).
  { intros v r Hn. destruct (Hl v) as [->|[H1 H2]]; [done|]. split; intros; subst; done. }
  assert (~ loose RDir) by (by intros []). constructor; rewrite ?Em, ?Ep.
  - by exists F.
  - intros v Hv. destruct (Hl v) as [E|[_ [E|E]]]; [|by apply Hpf|done]. apply Hp. congruence.
  - intros v d i. rewrite !Hsame by (done || by intros []). apply Ht.
  - intros v d n. rewrite !Hsame by (done || by intros []). apply Hu.
  - intros p Hin Hs Hd. rewrite Hsame by done. by apply Hr.
Qed.

Definition ctl s : list proc * bool * Z * Z := (ptab s, setupkvm_lock s, kpgdir s, cr3 s).

Lemma Hend' : KERNBASE <= end_ < KERNBASE + ptop phystop.
Proof. pose proof Hend. vconsts. lia. Qed.

Lemma vkalloc_world s own : world s own -> exists r s', vkalloc s = Done r s' /\ mem s' = mem s /\ ctl s' = ctl s /\
  ((r = 0 /\ (forall v, own v <> RFree) /\ world s' own) \/
   (own r = RFree /\ page_ok end_ phystop r /\ r <> 0 /\ world s' (zupd own r ROther))).
Proof.
  intros Hw. pose proof (w_pages _ _ Hw) as Hp. destruct (w_free _ _ Hw) as (F & HF & HFo).
  destruct (free_set_kalloc end_ phystop Hend' Hptop (pages s) F HF) as (r & k & E & Hc).
  exists r, (set_pages k s). split; [unfold vkalloc, zoom; by rewrite E|]. split_and!; [done..|].
  destruct Hc as [(-> & -> & Hk)|[HrF Hk]].
  - left. split_and!; [done|intros v Hv%HFo; set_solver|].
    apply (world_loose s own _ _ ∅ Hw); try done; [by left|]. intros v Hv. apply Hp. congruence.
  - right. assert (Hro : own r = RFree) by by apply HFo. assert (Hok : page_ok end_ phystop r) by (apply Hp; congruence).
    split_and!; [done..|by apply (page_ok_nonzero end_ phystop Hend')|].
    apply (world_loose s own _ _ (F ∖ {[r]}) Hw); try done; unfold zupd.
    + intros v. zcases; [|by left]. subst. rewrite Hro. right. unfold loose. tauto.
    + intros v. zcases; [done|]. intros Hv. apply Hp. congruence.
    + intros v. rewrite elem_of_difference, elem_of_singleton, HFo. zcases; naive_solver.
Qed.

Lemma vkfree_world s own v : world s own -> own v = ROther -> page_ok end_ phystop v ->
  exists s', vkfree v s = Done tt s' /\ world s' (zupd own v RFree) /\ ctl s' = ctl s /\
    (forall x, pg x <> v -> mem s' x = mem s x).
Proof.
  intros Hw Hv Hok. pose proof (w_pages _ _ Hw) as Hp. destruct (w_free _ _ Hw) as (F & HF & HFo).
  destruct (free_set_kfree end_ phystop Hend' Hptop (pages s) F v HF Hok) as (k & E & Hk).
  assert (Hw' : world (set_pages k s) (zupd own v RFree)).
  { apply (world_loose s own _ _ ({[v]} ∪ F) Hw); try done; unfold zupd.
    - intros w. zcases; [|by left]. subst. rewrite Hv. right. unfold loose. tauto.
    - intros w. zcases; [by subst|]. intros Hw'. apply Hp. congruence.
    - intros w. rewrite elem_of_union, elem_of_singleton, HFo. zcases; naive_solver. }
  unfold vkfree, kbind, kget, zoom. rewrite E. destruct (_ || _).
  - by exists (set_pages k s).
  - eexists. split; [done|]. split_and!; [|done|].
    + apply (world_mem (set_pages k s)); [done|]. intros w Hpt x Hx. simpl. apply store_other.
      assert (w <> v) by (intros ->; unfold zupd in Hpt; rewrite Z.eqb_refl in Hpt; done).
      destruct Hok as [Hm _]. rewrite <- (pg_iff v) by done. congruence.
    + intros x Hx. simpl. apply store_other. destruct Hok as [Hm _]. rewrite <- (pg_iff v) by done. congruence.
Qed.

(** A page an operation on the directory [d] leaves alone: in use, not part of
    the tables of [d], and not among the pages [X] it works on. *)
Definition calm d (X : Z -> Prop) own v : Prop :=
  own v <> RFree /\ v <> d /\ (forall i, own v <> RTab d i) /\ ~ X v.

Record keeps d (X : Z -> Prop) s own s' own' : Prop := {
  k_role : forall v, calm d X own v -> own' v = own v;
  k_mem : forall x, calm d X own (pg x) -> mem s' x = mem s x;
  k_ctl : ctl s' = ctl s;
}.

Lemma keeps_refl d X s own : keeps d X s own s own.
Proof. by constructor. Qed.

Lemma keeps_calm d X s own s' own' v : keeps d X s own s' own' -> calm d X own v -> calm d X own' v.
Proof. intros Hk Hc. pose proof (k_role _ _ _ _ _ _ Hk v Hc) as E. unfold calm in *. by rewrite E. Qed.

Lemma keeps_trans d X s own s1 own1 s2 own2 :
  keeps d X s own s1 own1 -> keeps d X s1 own1 s2 own2 -> keeps d X s own s2 own2.
Proof.
  intros H1 H2. pose proof (keeps_calm d X s own s1 own1) as Hc. constructor.
  - intros v Hv. rewrite (k_role _ _ _ _ _ _ H2), (k_role _ _ _ _ _ _ H1) by eauto. done.
  - intros x Hx. rewrite (k_mem _ _ _ _ _ _ H2), (k_mem _ _ _ _ _ _ H1) by eauto. done.
  - by rewrite (k_ctl _ _ _ _ _ _ H2), (k_ctl _ _ _ _ _ _ H1).
Qed.

Lemma keeps_weaken d (X Y : Z -> Prop) s own s' own' :
  (forall v, X v -> Y v) -> keeps d X s own s' own' -> keeps d Y s own s' own'.
Proof.
  intros Hxy Hk. assert (Hc : forall v, calm d Y own v -> calm d X own v).
  { intros v (H1 & H2 & H3 & H4). split_and!; [done..|]. intros Hn. by apply H4, Hxy. }
  constructor; intros; [by apply Hk, Hc|by apply Hk, Hc|apply Hk].
Qed.

(** The other address spaces: same tables, same entries, same bytes. *)
Lemma keeps_other d X s own s' own' d' : world s own -> keeps d X s own s' own' ->
  own d = RDir \/ loose (own d) -> (forall v, X v -> loose (own v) \/ exists n, own v = RUser d n) -> own d' = RDir -> d' <> d ->
  own' d' = RDir /\
  (forall i, 0 <= i < 1024 -> pde_of (mem s') d' i = pde_of (mem s) d' i) /\
  (forall n, 0 <= n < 2 ^ 20 -> pte_at (mem s') d' n = pte_at (mem s) d' n) /\
  (forall x n, own (pg x) = RUser d' n -> mem s' x = mem s x).
Proof.
  intros Hw Hk Hdd HX Hd Hn. unfold loose in *.
  assert (Hc : forall v, v = d' \/ (exists i, own v = RTab d' i) \/ (exists n, own v = RUser d' n) -> calm d X own v).
  { intros v Hv. split_and!.
    - naive_solver congruence.
    - naive_solver congruence.
    - naive_solver congruence.
    - intros [?|[? ?]]%HX; naive_solver congruence. }
  split; [rewrite (k_role _ _ _ _ _ _ Hk) by eauto; done|]. apply and_assoc. split.
  - apply (w_agree s own Hw (mem s') d' Hd).
    + intros x <-. apply (k_mem _ _ _ _ _ _ Hk). eauto.
    + intros v i Hv x <-. apply (k_mem _ _ _ _ _ _ Hk). eauto.
  - intros x n Hx. apply (k_mem _ _ _ _ _ _ Hk). eauto.
Qed.

Lemma keeps_page d X s own own' v m : world s own -> v mod PGSIZE = 0 -> own v = RFree \/ v = d \/ (exists i, own v = RTab d i) ->
  (forall w, w <> v -> own' w = own w) -> (forall x, pg x <> v -> m x = mem s x) -> keeps d X s own (set_mem m s) own'.
Proof.
  intros Hw Hv Hr Ho Hm. assert (Hc : forall w, calm d X own w -> w <> v).
  { intros w (H1 & H2 & H3 & _) ->. destruct Hr as [?|[?|[i ?]]]; naive_solver. }
  constructor; [|intros x Hx; apply Hm|]; eauto.
Qed.

(** ** Walking *)

Lemma walk_false s own d va : world s own -> own d = RDir -> 0 <= va < 2 ^ 32 ->
  walkpgdir d va false s = Done (if present (pde_of (mem s) d (va / PGSIZE / 1024))
    then tab (mem s) d (va / PGSIZE / 1024) + 4 * (va / PGSIZE mod 1024) else 0) s.
Proof.
  intros Hw Hd Hva. destruct (PDX_spec va Hva) as [E Hr]. unfold walkpgdir, kbind, load32, kgets.
  rewrite E in *. rewrite PTX_spec by done. fold (pde_of (mem s) d (va / PGSIZE / 1024)).
  destruct (present _) eqn:Ep; [|done]. destruct (w_table s own Hw d _ Hd Hr Ep) as (_ & _ & ->). done.
Qed.

(** The entry [i] of the directory [d] now names the zeroed page [v]. *)
Definition new_entry v : Z := v2p v + 7.

Lemma new_entry_spec v : page_ok end_ phystop v ->
  Z.lor (v2p v) (Z.lor PTE_P (Z.lor PTE_W PTE_U)) = new_entry v /\ 0 <= new_entry v < 2 ^ 32 /\
  present (new_entry v) = true /\ PTE_ADDR (new_entry v) = v2p v /\ p2v (v2p v) = v.
Proof.
  intros Hv. destruct (v2p_page v Hv) as [E Hm]. destruct (page_range v Hv) as (? & ? & ? & ?).
  unfold new_entry. change (Z.lor PTE_P (Z.lor PTE_W PTE_U)) with 7.
  assert (v2p v + 7 < 2 ^ 32) by (vconsts; lia). assert (0 <= v2p v) by (vconsts; lia).
  split_and!; [apply lor_flags; [vconsts; lia|done]|lia|done| | |by apply p2v_v2p].
  - rewrite present_odd. apply Zodd_bool_iff, Zodd_ex_iff. vconsts. exists (v2p v / 4096 * 2048 + 3). dlia.
  - apply PTE_ADDR_flags; done || (vconsts; lia).
Qed.

Section NewTable.
Context (s : vm) (own : Z -> role) (Hw : world s own) (d i v : Z).
Context (Hd : own d = RDir) (Hi : 0 <= i < 1024) (Hno : present (pde_of (mem s) d i) = false).
Context (Hv : own v = ROther) (Hok : page_ok end_ phystop v).

Let m' : Z -> Z := st32 (fill (mem s) v 0 PGSIZE) (d + 4 * i) (new_entry v).

Lemma nt_other x : pg x <> v -> ~ (d + 4 * i <= x < d + 4 * i + 4) -> m' x = mem s x.
Proof. intros Hx Hn. unfold m'. rewrite st32_other by done. apply store_other. rewrite <- pg_iff by apply Hok. done. Qed.

Lemma nt_agree w : w <> v -> w <> d -> agree (mem s) m' w.
Proof.
  intros Hwv Hwd x Hx. apply nt_other; [congruence|]. intros Hr. apply Hwd. rewrite <- Hx.
  destruct (w_dir s own Hw d Hd) as (_ & Hm & _). apply pg_iff; [done|]. vconsts. lia.
Qed.

Lemma nt_pde j : 0 <= j < 1024 -> pde_of m' d j = if j =? i then new_entry v else pde_of (mem s) d j.
Proof.
  intros Hj. destruct (w_dir s own Hw d Hd) as (_ & Hm & _). unfold pde_of, m'. destruct (Z.eqb_spec j i) as [->|Hne].
  - apply ld32_st32_eq. by apply new_entry_spec.
  - rewrite ld32_st32_ne by lia. apply agree_ld32; [done|lia|]. intros x Hx. apply store_other.
    rewrite <- pg_iff by apply Hok. congruence.
Qed.

Lemma nt_pte n : 0 <= n < 2 ^ 20 -> pte_at m' d n = pte_at (mem s) d n.
Proof.
  intros Hn. change (2 ^ 20) with 1048576 in Hn. assert (Hj : 0 <= n / 1024 < 1024) by dlia.
  assert (0 <= n mod 1024 < 1024) by dlia. destruct (new_entry_spec v Hok) as (_ & _ & Hp & Ha & Hb).
  unfold pte_at, tab. rewrite nt_pde by done. destruct (Z.eqb_spec (n / 1024) i) as [E|Hne].
  - rewrite E, Hno, Hp, Ha, Hb. unfold m'. destruct (w_dir s own Hw d Hd) as (_ & Hm & _).
    destruct Hok as [Hvm _]. assert (d <> v) by congruence.
    rewrite ld32_st32_ne by (vconsts; dlia). apply ld32_fill0; vconsts; lia.
  - destruct (present (pde_of (mem s) d (n / 1024))) eqn:Ep; [|done].
    destruct (w_table s own Hw d (n / 1024) Hd Hj Ep) as (Ho & [Hm _] & _). fold (tab (mem s) d (n / 1024)).
    apply agree_ld32; [done..|]. apply nt_agree; congruence.
Qed.

Lemma nt_dir d' : own d' = RDir -> d' <> d -> (forall j, 0 <= j < 1024 -> pde_of m' d' j = pde_of (mem s) d' j) /\
  (forall n, 0 <= n < 2 ^ 20 -> pte_at m' d' n = pte_at (mem s) d' n).
Proof.
  intros Hd' Hne. apply (w_agree s own Hw m' d' Hd').
  - apply nt_agree; congruence.
  - intros w j Hwj. apply nt_agree; congruence.
Qed.

Lemma nt_world : world (set_mem m' s) (zupd own v (RTab d i)).
Proof.
  destruct (new_entry_spec v Hok) as (_ & _ & Hp & Ha & Hb).
  assert (Hdir : forall d', zupd own v (RTab d i) d' = RDir <-> own d' = RDir).
  { intros d'. unfold zupd. destruct (Z.eqb_spec d' v) as [->|]; [|done]. split; congruence. }
  constructor; cbn [mem ptab pages set_mem].
  - destruct (w_free _ _ Hw) as (F & HF & HFo). exists F. split; [done|]. intros w. rewrite HFo. unfold zupd.
    destruct (Z.eqb_spec w v) as [->|]; [|done]. split; congruence.
  - intros w. unfold zupd. destruct (Z.eqb_spec w v) as [->|]; [done|]. apply (w_pages _ _ Hw).
  - intros w d' j. rewrite Hdir. unfold tab. split.
    + unfold zupd. destruct (Z.eqb_spec w v) as [->|Hwv].
      * intros [= <- <-]. rewrite nt_pde, Z.eqb_refl, Ha, Hb by done. tauto.
      * intros (Hd' & Hj & He)%(w_tab _ _ Hw). split; [done|]. split; [done|]. split.
        -- destruct (decide (d' = d)) as [->|Hdd]; [|rewrite (proj1 (nt_dir d' Hd' Hdd)) by done; tauto].
           rewrite nt_pde by done. destruct (Z.eqb_spec j i); [done|tauto].
        -- destruct (decide (d' = d)) as [->|Hdd]; [|rewrite (proj1 (nt_dir d' Hd' Hdd)) by done; tauto].
           rewrite nt_pde by done. destruct (Z.eqb_spec j i) as [->|]; [|tauto]. destruct He. congruence.
    + intros (Hd' & Hj & He). destruct (decide (d' = d)) as [->|Hdd].
      * rewrite nt_pde in He by done. destruct (Z.eqb_spec j i) as [->|Hji].
        -- rewrite Ha, Hb in He. destruct He as [_ <-]. unfold zupd. by rewrite Z.eqb_refl.
        -- assert (Ho : own w = RTab d j) by by apply (w_tab _ _ Hw). unfold zupd.
           destruct (Z.eqb_spec w v); congruence.
      * rewrite (proj1 (nt_dir d' Hd' Hdd)) in He by done. assert (Ho : own w = RTab d' j) by by apply (w_tab _ _ Hw).
        unfold zupd. destruct (Z.eqb_spec w v); congruence.
  - intros w d' n. rewrite Hdir.
    assert (Hz : zupd own v (RTab d i) w = RUser d' n <-> own w = RUser d' n).
    { unfold zupd. destruct (Z.eqb_spec w v) as [->|]; [|done]. split; congruence. }
    rewrite Hz, (w_user _ _ Hw).
    assert (Hpt : own d' = RDir -> 0 <= n < UPAGES -> pte_at m' d' n = pte_at (mem s) d' n).
    { intros Hd' Hn. assert (0 <= n < 2 ^ 20) by (change (2 ^ 20) with 1048576; vconsts; dlia).
      destruct (decide (d' = d)) as [->|Hdd]; [by apply nt_pte|by apply nt_dir]. }
    split; intros (Hd' & Hn & He); [rewrite Hpt by done|rewrite Hpt in He by done]; done.
  - intros p Hin Hs Hpd. apply Hdir. by apply (w_procs _ _ Hw).
Qed.
End NewTable.

(** Free pages are taken for tables of [d] only, and no page is given back. *)
Definition claim d (r r' : role) : Prop :=
  (r' = RFree -> r = RFree) /\ (r = RFree -> r' = RFree \/ exists i, r' = RTab d i) /\ (forall i, r = RTab d i -> r' = r).
Definition claims d own own' : Prop := forall v, claim d (own v) (own' v).

Lemma claim_refl d r : claim d r r.
Proof. split_and!; eauto. Qed.
Lemma claim_trans d r1 r2 r3 : claim d r1 r2 -> claim d r2 r3 -> claim d r1 r3.
Proof.
  intros (A1 & B1 & C1) (A2 & B2 & C2). split_and!; [auto| |].
  - intros H. destruct (B1 H) as [H2|[i H2]]; [by apply B2|]. right. exists i. by rewrite (C2 i).
  - intros i H. pose proof (C1 i H) as E. rewrite (C2 i); congruence.
Qed.
Lemma claims_trans d own1 own2 own3 : claims d own1 own2 -> claims d own2 own3 -> claims d own1 own3.
Proof. intros H1 H2 v. by eapply claim_trans. Qed.

Lemma zupd_eq {A} (f : Z -> A) i a : zupd f i a i = a.
Proof. unfold zupd. by rewrite Z.eqb_refl. Qed.
Lemma zupd_ne {A} (f : Z -> A) i j a : j <> i -> zupd f i a j = f j.
Proof. intros. unfold zupd. by destruct (Z.eqb_spec j i). Qed.
Lemma zupd_twice own v r r' : forall w, zupd (zupd own v r) v r' w = zupd own v r' w.
Proof. intros w. unfold zupd. by destruct (w =? v). Qed.

Lemma world_ext s own own' : (forall v, own' v = own v) -> world s own -> world s own'.
Proof.
  intros E [(F & HF & HFo) Hp Ht Hu Hr]. constructor.
  - exists F. split; [done|]. intros v. by rewrite E.
  - intros v. rewrite E. apply Hp.
  - intros v d i. rewrite !E. apply Ht.
  - intros v d n. rewrite !E. apply Hu.
  - intros p. rewrite E. apply Hr.
Qed.

Definition entry_addr (m : Z -> Z) d n : Z := tab m d (n / 1024) + 4 * (n mod 1024).

Lemma walk_true s own d va : world s own -> own d = RDir -> 0 <= va < 2 ^ 32 ->
  exists r s', walkpgdir d va true s = Done r s' /\
    ((r = 0 /\ world s' own /\ mem s' = mem s /\ ctl s' = ctl s /\ forall v, own v <> RFree) \/
     (exists own', world s' own' /\ own' d = RDir /\ keeps d none s own s' own' /\ claims d own own' /\
       (forall n, 0 <= n < 2 ^ 20 -> pte_at (mem s') d n = pte_at (mem s) d n) /\
       present (pde_of (mem s') d (va / PGSIZE / 1024)) = true /\ r = entry_addr (mem s') d (va / PGSIZE) /\ r <> 0)).
Proof.
  intros Hw Hd Hva. destruct (PDX_spec va Hva) as [E Hr]. unfold walkpgdir, entry_addr, kbind, load32, kgets.
  rewrite E in *. rewrite PTX_spec by done. fold (pde_of (mem s) d (va / PGSIZE / 1024)).
  set (i := va / PGSIZE / 1024) in *. set (k := va / PGSIZE mod 1024).
  assert (0 <= k < 1024) by (unfold k; dlia).
  destruct (present (pde_of (mem s) d i)) eqn:Ep.
  - destruct (w_table s own Hw d i Hd Hr Ep) as (_ & Hk & ->). eexists _, s. split; [done|]. right. exists own.
    split_and!; try done; [intros v; apply claim_refl|]. apply page_range in Hk. unfold tab in Hk. vconsts. lia.
  - cbn [negb]. destruct (vkalloc_world s own Hw) as (r & s1 & -> & Em & Ec & [(-> & Hno & Hw1)|(Hf & Hok & Hnz & Hw1)]).
    { exists 0, s1. split; [done|]. left. done. }
    rewrite (proj2 (Z.eqb_neq r 0)) by done. unfold upd_mem, store32, kmodify, kret. cbn [mem set_mem].
    destruct (new_entry_spec r Hok) as (En & _ & Hp & Ha & Hb). rewrite En.
    assert (Hd1 : zupd own r ROther d = RDir) by (rewrite zupd_ne; congruence).
    assert (Hr1 : zupd own r ROther r = ROther) by apply zupd_eq.
    rewrite <- Em in Ep.
    pose proof (nt_world s1 _ Hw1 d i r Hd1 Hr Ep Hr1 Hok) as Hw2.
    pose proof (nt_pde s1 _ Hw1 d i r Hd1 Hr1 Hok i Hr) as Hpi. rewrite Z.eqb_refl in Hpi.
    pose proof (nt_pte s1 _ Hw1 d i r Hd1 Hr Ep Hr1 Hok) as Hpt.
    eexists _, _. split; [done|]. right. exists (zupd own r (RTab d i)). cbn [mem set_mem].
    split_and!.
    + eapply world_ext; [|exact Hw2]. intros v. symmetry. apply zupd_twice.
    + rewrite zupd_ne; congruence.
    + constructor; [|intros x Hx|done]; cbn [mem set_mem].
      * intros v (Hv & _). apply zupd_ne. congruence.
      * destruct Hx as (H1 & H2 & _). rewrite <- Em. apply (nt_agree s1 _ Hw1 d i r Hd1 Hr Hok (pg x)); congruence.
    + intros v. unfold zupd. destruct (Z.eqb_spec v r) as [->|]; [rewrite Hf; split_and!; [done|eauto|done]|apply claim_refl].
    + rewrite <- Em. exact Hpt.
    + by rewrite Hpi.
    + unfold tab. rewrite Hpi, Ha, Hb. done.
    + apply page_range in Hok. vconsts. lia.
Qed.

(** ** Storing an entry *)

Section SetEntry.
Context (s : vm) (own : Z -> role) (Hw : world s own) (d n w : Z).
Context (Hd : own d = RDir) (Hn : 0 <= n < 2 ^ 20) (Hp : present (pde_of (mem s) d (n / 1024)) = true).
Context (Hwr : 0 <= w < 2 ^ 32).

Let m' : Z -> Z := st32 (mem s) (entry_addr (mem s) d n) w.

Lemma se_idx : 0 <= n / 1024 < 1024 /\ 0 <= n mod 1024 < 1024.
Proof. change (2 ^ 20) with 1048576 in Hn. dlia. Qed.

Lemma se_table : own (tab (mem s) d (n / 1024)) = RTab d (n / 1024) /\ tab (mem s) d (n / 1024) mod PGSIZE = 0.
Proof. destruct (w_table s own Hw d (n / 1024) Hd) as (Ho & [Hm _] & _); [apply se_idx|done|]. done. Qed.

Lemma se_agree v : v <> tab (mem s) d (n / 1024) -> agree (mem s) m' v.
Proof.
  intros Hv x Hx. unfold m'. apply st32_other. unfold entry_addr. pose proof se_idx. pose proof se_table as [_ Ht].
  intros Hr. apply Hv. rewrite <- Hx. apply pg_iff; [done|]. vconsts. lia.
Qed.

Lemma se_pde d' j : own d' = RDir -> 0 <= j < 1024 -> pde_of m' d' j = pde_of (mem s) d' j.
Proof.
  intros Hd' Hj. destruct (w_dir s own Hw d' Hd') as (_ & Hm & _). apply agree_ld32; [done..|].
  apply se_agree. pose proof se_table as [Ho _]. congruence.
Qed.

Lemma se_pte n' : 0 <= n' < 2 ^ 20 -> pte_at m' d n' = if n' =? n then w else pte_at (mem s) d n'.
Proof.
  intros Hn'. change (2 ^ 20) with 1048576 in *. unfold pte_at, tab. rewrite se_pde by (done || dlia).
  pose proof se_table as [Ho Hm]. pose proof se_idx.
  destruct (Z.eqb_spec n' n) as [->|Hne].
  - rewrite Hp. apply ld32_st32_eq. done.
  - destruct (present (pde_of (mem s) d (n' / 1024))) eqn:Ep; [|done]. fold (tab (mem s) d (n' / 1024)).
    destruct (w_table s own Hw d (n' / 1024) Hd) as (Ho' & [Hm' _] & _); [dlia|done|].
    destruct (decide (n' / 1024 = n / 1024)) as [E|Hj].
    + rewrite E. unfold m', entry_addr. apply ld32_st32_ne. dlia.
    + apply agree_ld32; [done|dlia|]. apply se_agree. congruence.
Qed.

Lemma se_other d' n' : own d' = RDir -> d' <> d -> 0 <= n' < 2 ^ 20 -> pte_at m' d' n' = pte_at (mem s) d' n'.
Proof.
  intros Hd' Hne Hn'. pose proof se_table as [Ho _]. apply (w_agree s own Hw m' d' Hd'); [| |done].
  - apply se_agree. congruence.
  - intros v j Hv. apply se_agree. congruence.
Qed.

Lemma se_world own' :
  (forall v, own' v = own v \/ (own v = ROther \/ own v = RUser d n) /\ (own' v = ROther \/ own' v = RUser d n)) ->
  (forall v, own' v = RUser d n <-> n < UPAGES /\ present w = true /\ frame w = v) ->
  (forall v, own' v = RUser d n -> page_ok end_ phystop v) -> world (set_mem m' s) own'.
Proof.
  intros Hc Hu Hok.
  assert (Hsame : forall v r, r <> ROther -> r <> RUser d n -> own' v = r <-> own v = r).
  { intros v r H1 H2. destruct (Hc v) as [->|[[]]]; [done|split; naive_solver congruence..]. }
  assert (Hn0 : UPAGES <= 2 ^ 20) by (vconsts; change (2 ^ 20) with 1048576; done).
  constructor; cbn [mem ptab pages set_mem].
  - destruct (w_free _ _ Hw) as (F & HF & HFo). exists F. split; [done|]. intros v. by rewrite HFo, Hsame.
  - intros v Hv. destruct (decide (own' v = RUser d n)); [eauto|]. destruct (Hc v) as [E|[_ [|]]]; [|done..].
    apply (w_pages _ _ Hw). congruence.
  - intros v d' j. rewrite !Hsame, (w_tab _ _ Hw) by done. unfold tab.
    split; intros (Hd' & Hj & He); [rewrite se_pde by done|rewrite se_pde in He by done]; done.
  - intros v d' n'. rewrite (Hsame d') by done. destruct (decide (d' = d)) as [->|Hdd].
    + destruct (decide (n' = n)) as [->|Hne].
      * rewrite Hu, se_pte, Z.eqb_refl by done. split; [intros (H1 & H2 & H3)|intros (_ & H1 & H2)];
          split_and!; done || lia || tauto.
      * rewrite Hsame, (w_user _ _ Hw) by congruence.
        assert (Hq : 0 <= n' < UPAGES -> pte_at m' d n' = pte_at (mem s) d n').
        { intros Hr. rewrite se_pte by lia. by destruct (Z.eqb_spec n' n). }
        split; intros (H1 & Hr & He); [rewrite Hq by done|rewrite Hq in He by done]; done.
    + rewrite Hsame, (w_user _ _ Hw) by congruence. split; intros (Hd' & Hr & He);
        [rewrite se_other by (done || lia)|rewrite se_other in He by (done || lia)]; done.
  - intros p Hin Hs Hpd. apply Hsame; [done..|]. by apply (w_procs _ _ Hw).
Qed.

Lemma se_keeps X own' : (forall v, calm d X own v -> own' v = own v) -> keeps d X s own (set_mem m' s) own'.
Proof.
  intros Ho. constructor; [done| |done]. intros x (_ & _ & Ht & _). cbn [mem set_mem].
  apply (se_agree (pg x)); [|done]. intros E. apply (Ht (n / 1024)). rewrite E. apply se_table.
Qed.
End SetEntry.

(** ** Mapping *)

Definition want_pte (pa perm : Z) : Z := Z.lor (Z.lor pa perm) PTE_P.
(** What the entry [old] becomes. *)
Definition new_pte (old pa perm : Z) : Z :=
  if present old then
    if Z.land old (Z.lnot (Z.lor PTE_A PTE_D)) =? want_pte pa perm then old
    else Z.lor (want_pte pa perm) (Z.land old (Z.lor PTE_A PTE_D))
  else want_pte pa perm.

Definition frame_addr (pa : Z) : Prop := 0 <= pa < 2 ^ 32 /\ pa mod PGSIZE = 0.
Definition flags (f : Z) : Prop := 0 <= f < PGSIZE.

Lemma flags_lor f g : flags f -> flags g -> flags (Z.lor f g).
Proof.
  unfold flags. change PGSIZE with (2 ^ 12). intros [H1 H2] [H3 H4]. split; [apply Z.lor_nonneg; lia|].
  destruct (Z.eq_dec (Z.lor f g) 0) as [->|Hz]; [lia|]. assert (0 <= Z.lor f g) by (apply Z.lor_nonneg; lia).
  apply Z.log2_lt_pow2; [lia|]. rewrite Z.log2_lor by lia.
  assert (forall x, 0 <= x < 2 ^ 12 -> Z.log2 x < 12) as Hl.
  { intros x Hx. destruct (Z.eq_dec x 0) as [->|]; [done|]. apply Z.log2_lt_pow2; lia. }
  pose proof (Hl f). pose proof (Hl g). lia.
Qed.

(** An entry made of a frame address and flags with [PTE_P] among them. *)
Lemma entry_spec pa f : frame_addr pa -> flags f -> Z.odd f = true ->
  Z.lor pa f = pa + f /\ 0 <= pa + f < 2 ^ 32 /\ present (pa + f) = true /\ PTE_ADDR (pa + f) = pa.
Proof.
  unfold flags. intros [Hr Hm] Hf Ho.
  assert (pa + f < 2 ^ 32) by (vconsts; change (2 ^ 32) with 4294967296 in *; dlia).
  split_and!; [by apply lor_flags|lia|done| |apply PTE_ADDR_flags; done || lia].
  rewrite present_odd, Z.odd_add, Ho. replace (Z.odd pa) with false; [done|].
  symmetry. rewrite <- Z.negb_even. apply negb_false_iff, Z.even_spec. exists (pa / 4096 * 2048). vconsts. dlia.
Qed.

Lemma want_pte_spec pa perm : frame_addr pa -> flags perm ->
  want_pte pa perm = pa + Z.lor perm PTE_P /\ flags (Z.lor perm PTE_P) /\ Z.odd (Z.lor perm PTE_P) = true.
Proof.
  intros Hpa Hf. assert (Hg : flags (Z.lor perm PTE_P)) by (apply flags_lor; [done|split; done]).
  assert (Ho : Z.odd (Z.lor perm PTE_P) = true).
  { rewrite <- Z.bit0_odd, Z.lor_spec. unfold PTE_P. apply orb_true_r. }
  split_and!; [|done..]. unfold want_pte. rewrite <- Z.lor_assoc. by apply entry_spec.
Qed.

Lemma new_pte_spec old pa perm : 0 <= old < 2 ^ 32 -> frame_addr pa -> flags perm ->
  0 <= new_pte old pa perm < 2 ^ 32 /\ present (new_pte old pa perm) = true /\ PTE_ADDR (new_pte old pa perm) = pa.
Proof.
  intros Hold Hpa Hf. destruct (want_pte_spec pa perm Hpa Hf) as (Ew & Hg & Ho).
  destruct (entry_spec pa _ Hpa Hg Ho) as (_ & Hr & Hp & Ha). rewrite <- Ew in *.
  unfold new_pte. destruct (present old) eqn:Epo; [|done]. destruct (Z.eqb_spec (Z.land old (Z.lnot (Z.lor PTE_A PTE_D))) (want_pte pa perm)) as [E|_].
  - split_and!; [lia|lia|done|]. rewrite <- Ha, <- E. unfold PTE_ADDR. rewrite <- Z.land_assoc. done.
  - rewrite Ew. replace (pa + Z.lor perm PTE_P) with (Z.lor pa (Z.lor perm PTE_P)) by by apply entry_spec.
    rewrite <- Z.lor_assoc. set (g := Z.lor (Z.lor perm PTE_P) (Z.land old (Z.lor PTE_A PTE_D))).
    assert (Hg' : flags g).
    { apply flags_lor; [done|]. split; [apply Z.land_nonneg; lia|].
      change (Z.lor PTE_A PTE_D) with (Z.land 96 (Z.ones 12)). rewrite Z.land_assoc, Z.land_ones by lia.
      apply Z.mod_pos_bound. done. }
    destruct (entry_spec pa g Hpa Hg') as (E & ? & ? & ?); [|by rewrite E].
    unfold g. rewrite <- Z.bit0_odd, Z.lor_spec, Z.bit0_odd, Ho. done.
Qed.

Lemma pte_range m d n : 0 <= pte_at m d n < 2 ^ 32.
Proof. unfold pte_at. destruct (present _); [apply ld32_range|lia]. Qed.

(** The page number [n] can be mapped to [pa]: a user page must be unmapped,
    and the frame not in use yet, or mapped to that frame already. *)
Definition mappable s own d n pa : Prop :=
  n < UPAGES ->
  if present (pte_at (mem s) d n) then PTE_ADDR (pte_at (mem s) d n) = pa
  else own (p2v pa) = ROther /\ page_ok end_ phystop (p2v pa).

Definition mapped_role own s d n pa : Z -> role :=
  if (n <? UPAGES) && negb (present (pte_at (mem s) d n)) then zupd own (p2v pa) (RUser d n) else own.

(** The page [n] of the frames that change role. *)
Definition taken_by s d n pa v : Prop := n < UPAGES /\ present (pte_at (mem s) d n) = false /\ v = p2v pa.
#[global] Instance taken_by_dec s d n pa v : Decision (taken_by s d n pa v).
Proof. unfold taken_by. apply _. Defined.

Lemma store_entry s own d n pa perm : world s own -> own d = RDir -> 0 <= n < 2 ^ 20 -> frame_addr pa -> flags perm ->
  present (pde_of (mem s) d (n / 1024)) = true -> mappable s own d n pa ->
  let e := entry_addr (mem s) d n in let old := pte_at (mem s) d n in
  exists s', (if present old then remap_entry e old (want_pte pa perm) (n * PGSIZE) pa else store32 e (want_pte pa perm)) s = Done tt s' /\
    world s' (mapped_role own s d n pa) /\ keeps d (taken_by s d n pa) s own s' (mapped_role own s d n pa) /\
    (forall n', 0 <= n' < 2 ^ 20 -> pte_at (mem s') d n' = if n' =? n then new_pte old pa perm else pte_at (mem s) d n') /\
    (forall x, is_pt (own (pg x)) = false -> mem s' x = mem s x).
Proof.
  intros Hw Hd Hn Hpa Hf Hp Hm e old.
  destruct (new_pte_spec old pa perm (pte_range _ _ _) Hpa Hf) as (Hr & Hpn & Han).
  assert (Hst : world (set_mem (st32 (mem s) e (new_pte old pa perm)) s) (mapped_role own s d n pa)).
  { apply (se_world s own Hw d n (new_pte old pa perm) Hd Hn Hp Hr); try done; unfold mapped_role, frame; fold old; unfold mappable in Hm; fold old in Hm; rewrite ?Han.
    - intros v. destruct (Z.ltb_spec n UPAGES), (present old); cbn [andb negb]; try by left. unfold zupd.
      destruct (Z.eqb_spec v (p2v pa)) as [->|]; [|by left]. destruct Hm; naive_solver.
    - intros v. destruct (Z.ltb_spec n UPAGES) as [Hu|Hu]; cbn [andb negb].
      + specialize (Hm Hu). destruct (present old) eqn:Eo; cbn [andb negb].
        * rewrite (w_user _ _ Hw). fold old. unfold frame. rewrite Hm, Eo. split; intros; split_and!; tauto || lia.
        * unfold zupd. destruct (Z.eqb_spec v (p2v pa)) as [->|Hne]; [tauto|]. rewrite (w_user _ _ Hw). fold old.
          rewrite Eo. split; [by intros (_ & _ & ? & _)|naive_solver congruence].
      + rewrite (w_user _ _ Hw). split; [intros (_ & ? & _); lia|intros [? _]; lia].
    - intros v. destruct (Z.ltb_spec n UPAGES), (present old) eqn:Eo; cbn [andb negb].
      + intros Hv. apply (w_pages _ _ Hw). congruence.
      + unfold zupd. destruct (Z.eqb_spec v (p2v pa)) as [->|]; [by intros _; apply Hm|].
        intros Hv. apply (w_pages _ _ Hw). congruence.
      + intros Hv. apply (w_pages _ _ Hw). congruence.
      + intros Hv. apply (w_pages _ _ Hw). congruence. }
  assert (Hk : forall m, keeps d (taken_by s d n pa) s own (set_mem m s) own ->
    keeps d (taken_by s d n pa) s own (set_mem m s) (mapped_role own s d n pa)).
  { intros m [H1 H2 H3]. constructor; [|done..]. intros v (_ & _ & _ & Hv). unfold mapped_role, taken_by in *.
    destruct (Z.ltb_spec n UPAGES), (present (pte_at (mem s) d n)); cbn [andb negb]; try done.
    apply zupd_ne. tauto. }
  assert (Hdone : forall s', s' = set_mem (st32 (mem s) e (new_pte old pa perm)) s ->
    world s' (mapped_role own s d n pa) /\ keeps d (taken_by s d n pa) s own s' (mapped_role own s d n pa) /\
    (forall n', 0 <= n' < 2 ^ 20 -> pte_at (mem s') d n' = if n' =? n then new_pte old pa perm else pte_at (mem s) d n') /\
    (forall x, is_pt (own (pg x)) = false -> mem s' x = mem s x)).
  { intros s' ->. split_and!; [done|apply Hk, (se_keeps s own Hw d n _ Hd Hn Hp); done|apply (se_pte s own Hw d n _ Hd Hn Hp Hr)|].
    intros x Hx. apply (se_agree s own Hw d n (new_pte old pa perm) Hd Hn Hp Hr (pg x)); [|done].
    intros E. pose proof (se_table s own Hw d n _ Hd Hn Hp Hr) as [Ho _]. rewrite <- E in Ho. by rewrite Ho in Hx. }
  unfold new_pte in Hdone at 1. destruct (present old) eqn:Eo; [|eexists; split; [done|]; by apply Hdone].
  unfold remap_entry. destruct (Z.land old _ =? _) eqn:Eq.
  - exists s. split; [done|]. assert (En : new_pte old pa perm = old) by (unfold new_pte; by rewrite Eo, Eq).
    unfold mapped_role. fold old. rewrite Eo, andb_false_r. split_and!; [done|by constructor| |done].
    intros n' _. destruct (Z.eqb_spec n' n) as [->|]; done.
  - destruct (Z.eqb_spec (PTE_ADDR old) pa) as [_|Hna]; [eexists; split; [done|]; by apply Hdone|].
    destruct (Z.leb_spec KERNBASE (n * PGSIZE)); [eexists; split; [done|]; by apply Hdone|].
    exfalso. apply Hna. unfold mappable in Hm. fold old in Hm. rewrite Eo in Hm. apply Hm. vconsts. dlia.
Qed.

Lemma calm_other d own v X : own d = RDir -> own v = ROther -> ~ X v -> calm d X own v.
Proof. intros Hd Hv HX. split_and!; [congruence..|done]. Qed.

Lemma mapped_role_ne own s d n pa v : ~ taken_by s d n pa v -> mapped_role own s d n pa v = own v.
Proof.
  intros Hv. unfold mapped_role, taken_by in *. destruct (Z.ltb_spec n UPAGES); [|done].
  destruct (present (pte_at (mem s) d n)); [done|]. apply zupd_ne. tauto.
Qed.

Lemma mappable_role s own d n pa v : mappable s own d n pa -> taken_by s d n pa v -> own v = ROther.
Proof. intros Hm (Hu & Hp & ->). specialize (Hm Hu). rewrite Hp in Hm. tauto. Qed.

(** One turn of the loop of [mappages_nolock]: no page for a table is left, or
    the entry is stored. *)
Lemma map_turn s own d n pa perm (k : K vm Z) :
  world s own -> own d = RDir -> 0 <= n < 2 ^ 20 -> frame_addr pa -> flags perm -> mappable s own d n pa ->
  let body := (pte <- walkpgdir d (n * PGSIZE) true ;;
               if pte =? 0 then kret (-1)
               else cur <- load32 pte ;;
                    (if present cur then remap_entry pte cur (want_pte pa perm) (n * PGSIZE) pa
                     else store32 pte (want_pte pa perm)) ;; k) in
  (exists s', body s = Done (-1) s' /\ world s' own /\ mem s' = mem s /\ ctl s' = ctl s /\ forall v, own v <> RFree) \/
  (exists s' own', body s = k s' /\ world s' own' /\ own' d = RDir /\ keeps d (taken_by s d n pa) s own s' own' /\
     claims d own own' /\
     (forall n', 0 <= n' < 2 ^ 20 -> pte_at (mem s') d n' = if n' =? n then new_pte (pte_at (mem s) d n) pa perm else pte_at (mem s) d n') /\
     (forall x, taken_by s d n pa (pg x) -> mem s' x = mem s x)).
Proof.
  intros Hw Hd Hn Hpa Hf Hm body. change (2 ^ 20) with 1048576 in *.
  assert (Hva : 0 <= n * PGSIZE < 2 ^ 32) by (vconsts; change (2 ^ 32) with 4294967296; lia).
  assert (En : n * PGSIZE / PGSIZE = n) by (apply Z.div_mul; done).
  destruct (walk_true s own d (n * PGSIZE) Hw Hd Hva)
    as (r & s1 & E & [(-> & Hw1 & Em & Ec & Hno)|(own1 & Hw1 & Hd1 & Hk1 & Hs1 & Hpt & Hp & -> & Hnz)]).
  { left. exists s1. split_and!; try done. unfold body, kbind. by rewrite E. }
  right. rewrite En in *. change (2 ^ 20) with 1048576 in Hpt.
  assert (Hto : forall v, taken_by s d n pa v -> calm d none own v).
  { intros v Hv. apply calm_other; [done|by eapply mappable_role|tauto]. }
  assert (Hm1 : mappable s1 own1 d n pa).
  { intros Hu. specialize (Hm Hu). rewrite Hpt by done. destruct (present (pte_at (mem s) d n)) eqn:Ep; [done|].
    rewrite (k_role _ _ _ _ _ _ Hk1) by (by apply Hto). done. }
  destruct (store_entry s1 own1 d n pa perm Hw1 Hd1) as (s2 & E2 & Hw2 & Hk2 & Hpt2 & Hx2); try done.
  assert (Htk : forall v, taken_by s1 d n pa v <-> taken_by s d n pa v) by (intros v; unfold taken_by; by rewrite Hpt).
  exists s2, (mapped_role own1 s1 d n pa). split_and!.
  - unfold body, kbind at 1. rewrite E. rewrite (proj2 (Z.eqb_neq _ 0)) by done.
    unfold kbind at 1, load32, kgets. replace (ld32 (mem s1) (entry_addr (mem s1) d n)) with (pte_at (mem s1) d n)
      by (unfold pte_at; by rewrite Hp). unfold kbind. by rewrite E2.
  - done.
  - rewrite mapped_role_ne; [done|]. intros Hv. pose proof (mappable_role _ _ _ _ _ _ Hm1 Hv). congruence.
  - eapply keeps_trans; [eapply keeps_weaken; [|exact Hk1]; tauto|]. eapply keeps_weaken; [|exact Hk2]. intros v. apply Htk.
  - intros v. eapply claim_trans; [apply Hs1|]. destruct (decide (taken_by s1 d n pa v)) as [Hv|Hv].
    + pose proof Hv as (Hu & Ha & ->). rewrite (mappable_role _ _ _ _ _ _ Hm1 Hv). unfold mapped_role.
      rewrite (proj2 (Z.ltb_lt _ _) Hu), Ha. cbn [andb negb]. rewrite zupd_eq. split_and!; done.
    + rewrite mapped_role_ne by done. apply claim_refl.
  - intros n' Hn'. rewrite Hpt2, !Hpt by done. done.
  - intros x Hx. rewrite Hx2; [apply (k_mem _ _ _ _ _ _ Hk1); auto|].
    rewrite (k_role _ _ _ _ _ _ Hk1) by auto. by rewrite (mappable_role _ _ _ _ _ _ Hm Hx).
Qed.

(** The frames of the [k] pages from [n0] on that change role. *)
Definition taken s d n0 (k pa : Z) v : Prop := exists j, 0 <= j < k /\ taken_by s d (n0 + j) (pa + j * PGSIZE) v.

(** What mapping [k] pages from [n0] on does; [j] of them are mapped. *)
Record mapped d n0 k pa perm s own s' own' (j : Z) : Prop := {
  m_world : world s' own';
  m_dir : own' d = RDir;
  m_keeps : keeps d (taken s d n0 k pa) s own s' own';
  m_claims : claims d own own';
  m_bytes : forall x, taken s d n0 k pa (pg x) -> mem s' x = mem s x;
  m_pte : forall n, 0 <= n < 2 ^ 20 -> pte_at (mem s') d n =
    if (n0 <=? n) && (n <? n0 + j) then new_pte (pte_at (mem s) d n) (pa + (n - n0) * PGSIZE) perm
    else pte_at (mem s) d n;
  m_left : forall i v, j <= i < k -> taken_by s d (n0 + i) (pa + i * PGSIZE) v -> own' v = own v;
}.

Lemma mapped_none d n0 k pa perm s own s' : world s' own -> own d = RDir -> mem s' = mem s -> ctl s' = ctl s ->
  mapped d n0 k pa perm s own s' own 0.
Proof.
  intros Hw Hd Em Ec. constructor; try done.
  - constructor; [done|by rewrite Em|done].
  - intros v. apply claim_refl.
  - by rewrite Em.
  - intros n _. rewrite Em. zcases; done || lia.
Qed.

Lemma taken_by_distinct s s' d n n' pa pa' v : frame_addr pa -> frame_addr pa' -> pa <> pa' ->
  taken_by s d n pa v -> taken_by s' d n' pa' v -> False.
Proof.
  intros [H1 _] [H2 _] Hne (_ & _ & ->) (_ & _ & E). apply Hne.
  rewrite <- (v2p_p2v pa), <- (v2p_p2v pa') by done. by rewrite E.
Qed.

Section MapCons.
Context (d n0 k pa perm : Z) (s : vm) (own : Z -> role) (s1 : vm) (own1 : Z -> role).
Context (Hn0 : 0 <= n0 < 2 ^ 20) (Hk : 0 <= k) (Hf : flags perm) (Hd : own d = RDir).
Context (Hj : forall j, 0 <= j < k + 1 -> frame_addr (pa + j * PGSIZE) /\ mappable s own d (n0 + j) (pa + j * PGSIZE)).
Context (Hnk : n0 + k + 1 <= 2 ^ 20).
Context (Hw1 : world s1 own1) (Hd1 : own1 d = RDir) (Hk1 : keeps d (taken_by s d n0 pa) s own s1 own1) (Hs1 : claims d own own1).
Context (Hp1 : forall n', 0 <= n' < 2 ^ 20 -> pte_at (mem s1) d n' =
  if n' =? n0 then new_pte (pte_at (mem s) d n0) pa perm else pte_at (mem s) d n').
Context (Hb1 : forall x, taken_by s d n0 pa (pg x) -> mem s1 x = mem s x).

Lemma mc_pa : frame_addr pa /\ mappable s own d n0 pa.
Proof. destruct (Hj 0) as [H1 H2]; [lia|]. by rewrite Z.mul_0_l, !Z.add_0_r in *. Qed.

(** A later page is untouched by the first turn. *)
Lemma mc_later i v : 1 <= i < k + 1 -> taken_by s d (n0 + i) (pa + i * PGSIZE) v ->
  own v = ROther /\ calm d (taken_by s d n0 pa) own v /\ own1 v = ROther.
Proof.
  intros Hi Hv. destruct (Hj i) as [Hfi Hmi]; [lia|]. pose proof (mappable_role _ _ _ _ _ _ Hmi Hv) as Ho.
  assert (Hc : calm d (taken_by s d n0 pa) own v).
  { apply calm_other; [done..|]. intros Hv'. eapply taken_by_distinct; [apply mc_pa|exact Hfi| |exact Hv'|exact Hv].
    vconsts. lia. }
  split_and!; [done..|]. by rewrite (k_role _ _ _ _ _ _ Hk1).
Qed.

Lemma mc_taken i v : 1 <= i < k + 1 ->
  taken_by s1 d (n0 + 1 + (i - 1)) (pa + PGSIZE + (i - 1) * PGSIZE) v <-> taken_by s d (n0 + i) (pa + i * PGSIZE) v.
Proof.
  intros Hi. replace (n0 + 1 + (i - 1)) with (n0 + i) by lia.
  replace (pa + PGSIZE + (i - 1) * PGSIZE) with (pa + i * PGSIZE) by lia.
  unfold taken_by. rewrite Hp1 by lia. by rewrite (proj2 (Z.eqb_neq (n0 + i) n0)) by lia.
Qed.

Lemma mc_sub v : taken s1 d (n0 + 1) k (pa + PGSIZE) v -> taken s d n0 (k + 1) pa v.
Proof.
  intros (j & Hjr & Hv). exists (j + 1). split; [lia|]. apply mc_taken; [lia|].
  by replace (j + 1 - 1) with j by lia.
Qed.

Lemma mc_first v : taken_by s d n0 pa v -> taken s d n0 (k + 1) pa v.
Proof. intros Hv. exists 0. split; [lia|]. by rewrite Z.mul_0_l, !Z.add_0_r. Qed.

(** The frame of the first page is in use after the turn. *)
Lemma mc_mapped v : taken_by s d n0 pa v -> calm d (taken s1 d (n0 + 1) k (pa + PGSIZE)) own1 v.
Proof.
  intros Hv. pose proof mc_pa as [Hpa Hm]. pose proof Hv as (Hu & Hp & ->).
  destruct (new_pte_spec (pte_at (mem s) d n0) pa perm (pte_range _ _ _) Hpa Hf) as (_ & Hpn & Han).
  assert (Ho : own1 (p2v pa) = RUser d n0).
  { apply (w_user _ _ Hw1). rewrite Hp1, Z.eqb_refl by done. unfold frame. rewrite Han. split_and!; done || lia. }
  split_and!; [congruence..|]. intros (j & Hjr & Hv').
  destruct (Hj (j + 1)) as [Hfj _]; [lia|]. eapply taken_by_distinct; [exact Hpa| | |exact Hv|exact Hv'].
  - by replace (pa + PGSIZE + j * PGSIZE) with (pa + (j + 1) * PGSIZE) by lia.
  - vconsts. lia.
Qed.

Lemma mapped_cons s' own' j : 0 <= j ->
  mapped d (n0 + 1) k (pa + PGSIZE) perm s1 own1 s' own' j -> mapped d n0 (k + 1) pa perm s own s' own' (j + 1).
Proof.
  intros Hjn [Hw' Hd' Hk' Hs' Hb' Hp' Hl']. constructor; try done.
  - eapply keeps_trans; eapply keeps_weaken; [apply mc_first|exact Hk1|apply mc_sub|exact Hk'].
  - by eapply claims_trans.
  - intros x (i & Hi & Hv). destruct (decide (i = 0)) as [->|].
    + rewrite Z.mul_0_l, !Z.add_0_r in Hv. rewrite <- Hb1 by done. apply (k_mem _ _ _ _ _ _ Hk'). by apply mc_mapped.
    + destruct (mc_later i _ ltac:(lia) Hv) as (_ & Hc & _). rewrite <- (k_mem _ _ _ _ _ _ Hk1) by done.
      apply Hb'. exists (i - 1). split; [lia|]. apply mc_taken; [lia|done].
  - intros n Hn. rewrite Hp', Hp1 by done. destruct (Z.eqb_spec n n0) as [->|Hne].
    + replace (pa + (n0 - n0) * PGSIZE) with pa by lia. zcases; done || lia.
    + replace (pa + PGSIZE + (n - (n0 + 1)) * PGSIZE) with (pa + (n - n0) * PGSIZE) by lia. zcases; done || lia.
  - intros i v Hi Hv. destruct (mc_later i v ltac:(lia) Hv) as (Ho & _ & Ho1). rewrite Ho, <- Ho1.
    apply (Hl' (i - 1)); [lia|]. apply mc_taken; [lia|done].
Qed.
End MapCons.

Lemma map_loop d perm : flags perm -> forall k n0 pa s own, world s own -> own d = RDir ->
  0 <= n0 -> n0 + Z.of_nat (S k) <= 2 ^ 20 ->
  (forall j, 0 <= j < Z.of_nat k + 1 -> frame_addr (pa + j * PGSIZE) /\ mappable s own d (n0 + j) (pa + j * PGSIZE)) ->
  exists r s' own' j, mappages_loop (S k) d (n0 * PGSIZE) ((n0 + Z.of_nat k) * PGSIZE) pa perm s = Done r s' /\
    mapped d n0 (Z.of_nat k + 1) pa perm s own s' own' j /\
    (r = 0 /\ j = Z.of_nat k + 1 \/ r = -1 /\ 0 <= j < Z.of_nat k + 1 /\ forall v, own' v <> RFree).
Proof.
  intros Hf. induction k as [|k IH]; intros n0 pa s own Hw Hd Hn0 Hk Hj;
    assert (Hn : 0 <= n0 < 2 ^ 20) by lia;
    destruct (Hj 0) as [Hpa Hm]; try lia; rewrite Z.mul_0_l, Z.add_0_r in Hpa; rewrite Z.mul_0_l, !Z.add_0_r in Hm;
    cbn [mappages_loop]; fold (want_pte pa perm);
    match goal with |- context [kbind _ (fun pte => if _ then _ else kbind _ (fun cur => kbind _ (fun _ => ?k)))] =>
      destruct (map_turn s own d n0 pa perm k Hw Hd Hn Hpa Hf Hm)
        as [(s1 & -> & Hw1 & Em & Ec & Hno)|(s1 & own1 & -> & Hw1 & Hd1 & Hk1 & Hs1 & Hp1 & Hb1)] end;
    try (exists (-1), s1, own, 0; split; [done|]; split; [by apply mapped_none|right; split_and!; done || lia]).
  - exists 0, s1, own1, 1. rewrite Z.add_0_r, Z.eqb_refl. split; [done|]. split; [|left; done].
    apply (mapped_cons d n0 0 pa perm s own s1 own1) with (j := 0); try done; [lia|]. by apply mapped_none.
  - rewrite (proj2 (Z.eqb_neq _ _)) by (vconsts; lia).
    assert (E1 : n0 * PGSIZE +u PGSIZE = (n0 + 1) * PGSIZE).
    { rewrite u32_small; [lia|]. change (2 ^ 20) with 1048576 in *. vconsts. change (2 ^ 32) with 4294967296. lia. }
    assert (E2 : pa +u PGSIZE = pa + PGSIZE).
    { apply u32_small. destruct (Hj 1) as [[? _] _]; [lia|]. by rewrite Z.mul_1_l in *. }
    rewrite E1, E2. replace (n0 + Z.of_nat (S k)) with (n0 + 1 + Z.of_nat k) by lia.
    destruct (IH (n0 + 1) (pa + PGSIZE) s1 own1 Hw1 Hd1) as (r & s' & own' & j & E & Hmp & Hr); [lia|lia| |].
    { intros j Hjr. destruct (Hj (j + 1)) as [H1 H2]; [lia|].
      replace (pa + PGSIZE + j * PGSIZE) with (pa + (j + 1) * PGSIZE) by lia.
      replace (n0 + 1 + j) with (n0 + (j + 1)) by lia. split; [done|].
      intros Hu. specialize (H2 Hu). rewrite Hp1, (proj2 (Z.eqb_neq _ n0)) by lia.
      destruct (present (pte_at (mem s) d (n0 + (j + 1)))) eqn:Ep; [done|]. split; [|tauto].
      eapply (mc_later d n0 (Z.of_nat (S k)) pa s own s1 own1) with (i := j + 1); try done; lia. }
    exists r, s', own', (j + 1). split; [exact E|]. split.
    + replace (Z.of_nat (S k) + 1) with (Z.of_nat k + 1 + 1) by lia.
      apply (mapped_cons d n0 (Z.of_nat k + 1) pa perm s own s1 own1); try done; try lia.
      intros i Hi. apply Hj. lia.
    + destruct Hr as [[-> ->]|(-> & ? & ?)]; [left|right]; split_and!; done || lia.
Qed.

End Vm.
