(* ===== verification/VmOps.v ===== *)
(** * kernel/vm.c: the operations on address spaces

    Specifications of mapping, freeing, growing, copying and user access over
    the invariant [world] of Vm.v, and their theorems. *)

From Stdlib Require Import ZArith Lia.
From S2P Require Import Prelude Spinlock Kalloc Proc Vm.

Section VmOps.
Context {L : Layout} {LO : LayoutOk}.
Implicit Types (s : vm) (own : Z -> role) (d v n i : Z).

Lemma mappages_nolock_spec d va size pa perm s own : world s own -> own d = RDir -> flags perm ->
  0 <= va -> 1 <= size -> va + size <= 2 ^ 32 ->
  let n0 := va / PGSIZE in let k := (va + size - 1) / PGSIZE - n0 + 1 in
  (forall j, 0 <= j < k -> frame_addr (pa + j * PGSIZE) /\ mappable s own d (n0 + j) (pa + j * PGSIZE)) ->
  exists r s' own' j, mappages_nolock d va size pa perm s = Done r s' /\ mapped d n0 k pa perm s own s' own' j /\
    (r = 0 /\ j = k \/ r = -1 /\ 0 <= j < k /\ forall v, own' v <> RFree).
Proof.
  intros Hw Hd Hf Hva Hsz Hend n0 k Hj. unfold mappages_nolock.
  rewrite (u32_small (va + size - 1)), !pgrounddown_spec by lia.
  assert (Hn0 : 0 <= n0) by (unfold n0; vlia). assert (Hk1 : 1 <= k /\ n0 + k <= 2 ^ 20) by (unfold k, n0; vlia).
  replace ((va + size - 1) / 4096 * 4096 -u va / 4096 * 4096) with ((k - 1) * PGSIZE)
    by (rewrite u32_small; unfold k, n0; vlia).
  replace ((k - 1) * PGSIZE / PGSIZE + 1) with k by (rewrite Z.div_mul; [lia|done]).
  replace (Z.to_nat k) with (S (Z.to_nat (k - 1))) by lia.
  replace ((va + size - 1) / 4096 * 4096) with ((n0 + Z.of_nat (Z.to_nat (k - 1))) * PGSIZE)
    by (rewrite Z2Nat.id by lia; unfold k, n0; vlia).
  replace (va / 4096 * 4096) with (n0 * PGSIZE) by (unfold n0; vlia).
  destruct (map_loop d perm Hf (Z.to_nat (k - 1)) n0 pa s own Hw Hd Hn0) as (r & s' & own' & j & E & Hm & Hr);
    rewrite ?Nat2Z.inj_succ, ?Z2Nat.id in * by lia; [lia|intros j Hjr; apply Hj; lia|].
  replace (k - 1 + 1) with k in * by lia. by exists r, s', own', j.
Qed.

(** ** Freeing pages *)

Definition cleared (e : Z) : Z := if present e then 0 else e.

(** The roles once the user pages of [R] are unmapped. *)
Definition unmapped d (R : Z -> bool) own v : role :=
  match own v with RUser d' n => if (d' =? d) && R n then RFree else own v | _ => own v end.

(** The user pages of [R] are unmapped and their frames are free. *)
Record freed d (R : Z -> bool) s own s' own' : Prop := {
  f_world : world s' own';
  f_dir : own' d = RDir;
  f_keeps : keeps d (fun v => exists n, R n = true /\ own v = RUser d n) s own s' own';
  f_pte : forall n, 0 <= n < 2 ^ 20 -> pte_at (mem s') d n = if R n then cleared (pte_at (mem s) d n) else pte_at (mem s) d n;
  f_role : forall v, own' v = unmapped d R own v;
}.

Lemma cleared_absent e : present (cleared e) = false.
Proof. unfold cleared. by destruct (present e) eqn:E. Qed.
Lemma cleared_idem e : cleared (cleared e) = cleared e.
Proof. unfold cleared at 1. by rewrite cleared_absent. Qed.
Lemma absent_cleared e : present e = false -> cleared e = e.
Proof. unfold cleared. by intros ->. Qed.

(** Nothing to free. *)
Lemma freed_none d (R : Z -> bool) s own : world s own -> own d = RDir ->
  (forall n, R n = true -> 0 <= n < UPAGES /\ present (pte_at (mem s) d n) = false) -> freed d R s own s own.
Proof.
  intros Hw Hd HR. assert (Hno : forall v n, R n = true -> own v = RUser d n -> False).
  { intros v n Hn (_ & _ & Hp & _)%(w_user _ _ Hw). destruct (HR n Hn). congruence. }
  constructor; [done|done|by constructor| |].
  - intros n _. destruct (R n) eqn:E; [|done]. symmetry. apply absent_cleared, (HR n E).
  - intros v. unfold unmapped. destruct (own v) as [| | |d' n|] eqn:E; try done. destruct (Z.eqb_spec d' d) as [->|]; [|done].
    destruct (R n) eqn:Er; [by destruct (Hno v n)|done].
Qed.

Lemma freed_user d R s own s' own' v n : freed d R s own s' own' -> world s own -> own d = RDir ->
  own' v = RUser d n <-> R n = false /\ own v = RUser d n.
Proof.
  intros [Hw' Hd' _ Hp' _] Hw Hd. rewrite (w_user _ _ Hw'), (w_user _ _ Hw). split.
  - intros (_ & Hn & He & Hv). assert (0 <= n < 2 ^ 20) by vlia. rewrite Hp' in He, Hv by done.
    destruct (R n); [by rewrite cleared_absent in He|]. done.
  - intros (HR & _ & Hn & He). assert (0 <= n < 2 ^ 20) by vlia. rewrite Hp', HR by done. done.
Qed.

Lemma freed_trans d R1 R2 s own s1 own1 s2 own2 : world s own -> own d = RDir ->
  freed d R1 s own s1 own1 -> freed d R2 s1 own1 s2 own2 -> freed d (fun n => R1 n || R2 n) s own s2 own2.
Proof.
  intros Hw Hd H1 H2. pose proof (fun v n => freed_user d R1 s own s1 own1 v n H1 Hw Hd) as Hu.
  destruct H1 as [Hw1 Hd1 Hk1 Hp1 Hr1], H2 as [Hw2 Hd2 Hk2 Hp2 Hr2]. constructor; try done.
  - eapply keeps_trans; eapply keeps_weaken; [|exact Hk1| |exact Hk2]; cbn beta.
    + intros v (n & Hn & Hv). exists n. by rewrite Hn.
    + intros v (n & Hn & [_ Hv]%Hu). exists n. by rewrite Hn, orb_true_r.
  - intros n Hn. rewrite Hp2, Hp1 by done. destruct (R1 n), (R2 n); cbn [orb]; by rewrite ?cleared_idem.
  - intros v. rewrite Hr2. unfold unmapped. rewrite Hr1. unfold unmapped. destruct (own v) as [| | |d' n|] eqn:E; try done.
    destruct (Z.eqb_spec d' d) as [->|]; cbn [andb].
    + destruct (R1 n); [done|]. cbn [orb]. by rewrite Z.eqb_refl.
    + by rewrite (proj2 (Z.eqb_neq d' d)).
Qed.

(** ** [deallocuvm] *)

Lemma not_shared s own d pa : world s own -> (forall d' j, own (p2v pa) = RTab d' j -> d' = d) -> shared_pt s d pa = false.
Proof.
  intros Hw Ht. unfold shared_pt, user_pt_shared.
  destruct (_ || _); [done|]. apply not_true_is_false. intros (p & Hin%list_elem_of_In & Hb)%existsb_exists.
  apply andb_true_iff in Hb as [H1 H2]. apply negb_true_iff, orb_false_iff in H1 as [H1 H3].
  apply orb_false_iff in H1 as [H0 H1]. apply bool_decide_eq_false in H0. apply Z.eqb_neq in H1, H3.
  unfold pgdir_maps_pt in H2. apply existsb_exists in H2 as (j & Hj%list_elem_of_In & Hb).
  apply elem_of_seqZ in Hj. change (PDX KERNBASE) with 512 in Hj. apply andb_true_iff in Hb as [Hpj Ea].
  apply Z.eqb_eq in Ea. assert (Hpd : own (pgdir p) = RDir) by by apply (w_procs _ _ Hw).
  destruct (w_table s own Hw (pgdir p) j Hpd) as (Ht' & _); [lia|exact Hpj|].
  unfold tab in Ht'. rewrite Ea in Ht'. apply H3. by apply (Ht _ j).
Qed.

(** Unmapping a present user page and freeing its frame. *)
Lemma unmap_page s own d n : world s own -> own d = RDir -> 0 <= n < UPAGES -> present (pte_at (mem s) d n) = true ->
  let v := frame (pte_at (mem s) d n) in
  exists s', (store32 (entry_addr (mem s) d n) 0 ;; vkfree v) s = Done tt s' /\ freed d (Z.eqb n) s own s' (zupd own v RFree).
Proof.
  intros Hw Hd Hn Hp v. assert (Hn' : 0 <= n < 2 ^ 20) by vlia.
  assert (Hpd : present (pde_of (mem s) d (n / 1024)) = true).
  { unfold pte_at in Hp. by destruct (present (pde_of (mem s) d (n / 1024))). }
  destruct (w_frame s own Hw d n Hd Hn Hp) as (Hv & Hok & _). fold v in Hv, Hok.
  assert (Hz : 0 <= 0 < 2 ^ 32) by lia.
  pose proof (se_world s own Hw d n 0 Hd Hn' Hpd Hz (zupd own v ROther)) as Hw1.
  pose proof (se_pte s own Hw d n 0 Hd Hn' Hpd Hz) as Hpt. pose proof (se_agree s own Hw d n 0 Hd Hn' Hpd Hz) as Hag.
  pose proof (se_table s own Hw d n 0 Hd Hn' Hpd Hz) as [Htb _].
  set (m1 := st32 (mem s) (entry_addr (mem s) d n) 0) in *.
  assert (Hw1' : world (set_mem m1 s) (zupd own v ROther)).
  { apply Hw1.
    - intros w. unfold zupd. destruct (Z.eqb_spec w v) as [->|]; [right; tauto|by left].
    - intros w. split; [|by intros (_ & ? & _)]. unfold zupd. destruct (Z.eqb_spec w v) as [->|Hne]; [done|].
      intros (_ & _ & _ & Hw')%(w_user _ _ Hw). by destruct Hne.
    - intros w. unfold zupd. destruct (Z.eqb_spec w v) as [->|]; [done|]. intros Hw'. apply (w_pages _ _ Hw). congruence. }
  destruct (vkfree_world (set_mem m1 s) (zupd own v ROther) v Hw1') as (s2 & E2 & Hw2 & Hc2 & Hm2); [apply zupd_eq|done|].
  exists s2. split; [unfold kbind, store32, upd_mem, kmodify; exact E2|].
  assert (Hw3 : world s2 (zupd own v RFree)) by (eapply world_ext; [|exact Hw2]; intros w; symmetry; apply zupd_twice).
  assert (Hd3 : zupd own v RFree d = RDir) by (rewrite zupd_ne; congruence).
  constructor; try done.
  - constructor.
    + intros w (_ & _ & _ & HX). apply zupd_ne. intros ->. apply HX. exists n. by rewrite Z.eqb_refl.
    + intros x (_ & _ & Ht & HX). rewrite Hm2.
      * apply (Hag (pg x)); [|done]. intros E. by rewrite <- E in Htb; apply Ht in Htb.
      * intros E. apply HX. exists n. rewrite Z.eqb_refl, E. done.
    + by rewrite Hc2.
  - intros n' Hn1. destruct (w_agree (set_mem m1 s) _ Hw1' (mem s2) d) as [_ ->]; try done.
    + rewrite zupd_ne; congruence.
    + intros x <-. apply Hm2. congruence.
    + intros w i Hwi x <-. apply Hm2. intros E. rewrite E, zupd_eq in Hwi. done.
    + cbn [mem set_mem]. rewrite Hpt, Z.eqb_sym by done. destruct (Z.eqb_spec n n') as [<-|]; [|done].
      unfold cleared. by rewrite Hp.
  - intros w. unfold unmapped, zupd. destruct (Z.eqb_spec w v) as [->|Hne]; [by rewrite Hv, !Z.eqb_refl|].
    destruct (own w) as [| | |d' n'|] eqn:Ew; try done. destruct (Z.eqb_spec d' d) as [->|]; [|done].
    destruct (Z.eqb_spec n n') as [<-|]; [|done]. apply (w_user _ _ Hw) in Ew as (_ & _ & _ & Ef). by destruct Hne.
Qed.

(** Unmapped pages may be counted or not. *)
Lemma freed_absent d (R R' : Z -> bool) s own s' own' : world s own ->
  (forall n, R n = R' n \/ present (pte_at (mem s) d n) = false) -> freed d R s own s' own' -> freed d R' s own s' own'.
Proof.
  intros Hw E [H1 H2 H3 H4 H5].
  assert (Hu : forall v n, own v = RUser d n -> R n = R' n).
  { intros v n (_ & _ & Hp & _)%(w_user _ _ Hw). destruct (E n); congruence. }
  constructor; [done|done| | |].
  - eapply keeps_weaken; [|exact H3]. cbn beta. intros v (n & Hn & Hv). exists n. by rewrite <- (Hu v n).
  - intros n Hn. rewrite H4 by done. destruct (E n) as [->|Ha]; [done|]. rewrite absent_cleared by done. by destruct (R n), (R' n).
  - intros v. rewrite H5. unfold unmapped. destruct (own v) as [| | |d' n|] eqn:Ev; try done.
    destruct (Z.eqb_spec d' d) as [->|]; [|done]. by rewrite (Hu v n).
Qed.

Lemma next_pde i : 0 <= i < 512 -> PGADDR (i + 1) 0 0 -u PGSIZE = ((i + 1) * 1024 - 1) * PGSIZE.
Proof.
  intros Hi. unfold PGADDR. rewrite Z.shiftl_0_l, !Z.lor_0_r, Z.shiftl_mul_pow2 by lia. change (2 ^ 22) with 4194304.
  rewrite (u32_small ((i + 1) * 4194304)) by vlia. rewrite u32_small; vlia.
Qed.

(** The page [n] of the loop: what it frees, and the page it goes on after. *)
Lemma dealloc_page_spec s own d n : world s own -> own d = RDir -> 0 <= n < UPAGES ->
  exists n' s' own', dealloc_page d (n * PGSIZE) s = Done (n' * PGSIZE) s' /\ n <= n' < UPAGES /\
    (forall m, n < m <= n' -> present (pte_at (mem s) d m) = false) /\
    freed d (fun m => (m =? n) && (4 <=? m)) s own s' own'.
Proof.
  intros Hw Hd Hn. unfold dealloc_page. destruct (Z.ltb_spec (n * PGSIZE) 0x4000) as [Hlo|Hhi].
  { exists n, s, own. split; [done|]. split; [lia|]. split; [lia|]. apply freed_none; [done..|]. intros m Hm. exfalso. zcases_in Hm; vlia. }
  assert (Hva : 0 <= n * PGSIZE < 2 ^ 32) by vlia. destruct (PDX_spec _ Hva) as [Ei Hi].
  assert (En : n * PGSIZE / PGSIZE = n) by (apply Z.div_mul; done). rewrite En in Ei.
  unfold kbind, load32, kgets, kget. rewrite Ei in *. fold (pde_of (mem s) d (n / 1024)).
  assert (Hsh : present (pde_of (mem s) d (n / 1024)) && negb (PTE_ADDR (pde_of (mem s) d (n / 1024)) =? 0) &&
    shared_pt s d (PTE_ADDR (pde_of (mem s) d (n / 1024))) = false).
  { destruct (present _) eqn:Ep; [|done]. destruct (w_table s own Hw d _ Hd Hi Ep) as (Ht & _ & _).
    rewrite (not_shared s own); [apply andb_false_r|done|]. intros d' j E. unfold tab in Ht. congruence. }
  rewrite Hsh. rewrite (walk_false s own) by done. rewrite En.
  destruct (present (pde_of (mem s) d (n / 1024))) eqn:Ep.
  - destruct (w_table s own Hw d _ Hd Hi Ep) as (_ & Hk & _). fold (entry_addr (mem s) d n).
    assert (entry_addr (mem s) d n <> 0) by (apply page_range in Hk; unfold entry_addr; vlia).
    rewrite (proj2 (Z.eqb_neq _ 0)) by done.
    assert (Epte : ld32 (mem s) (entry_addr (mem s) d n) = pte_at (mem s) d n) by (unfold pte_at; by rewrite Ep).
    rewrite Epte. destruct (present (pte_at (mem s) d n)) eqn:Epp.
    + destruct (w_frame s own Hw d n Hd Hn Epp) as (_ & _ & Hg).
      destruct (unmap_page s own d n Hw Hd Hn Epp) as (s' & E & Hfr).
      exists n, s', (zupd own (frame (pte_at (mem s) d n)) RFree). unfold kbind, store32, upd_mem, kmodify in *.
      rewrite Hg. unfold frame in E. rewrite E. split; [done|]. split; [lia|]. split; [lia|].
      eapply freed_absent; [done| |exact Hfr]. intros m. cbn beta. left. rewrite Z.eqb_sym. zcases; vlia || done.
    + exists n, s, own. split; [done|]. split; [lia|]. split; [lia|]. apply freed_none; [done..|]. intros m Hm.
      replace m with n by (zcases_in Hm; lia). done.
  - assert (Hab : forall m, n <= m <= (n / 1024 + 1) * 1024 - 1 -> present (pte_at (mem s) d m) = false).
    { intros m Hm. assert (Em : m / 1024 = n / 1024) by vlia. unfold pte_at. by rewrite Em, Ep. }
    exists ((n / 1024 + 1) * 1024 - 1), s, own. rewrite Z.eqb_refl.
    split; [unfold kret; f_equal; apply next_pde; vlia|]. split; [vlia|]. split; [intros; apply Hab; lia|].
    apply freed_none; [done..|]. intros m Hm. replace m with n by (zcases_in Hm; lia). split; [done|]. apply Hab. vlia.
Qed.

Lemma dealloc_loop_spec d oldsz : 0 <= oldsz <= KERNBASE -> forall k n s own, world s own -> own d = RDir -> 0 <= n ->
  (oldsz + 4095) / PGSIZE - n <= Z.of_nat k ->
  exists s' own', dealloc_loop k d (n * PGSIZE) oldsz s = Done tt s' /\
    freed d (fun m => (n <=? m) && (m <? (oldsz + 4095) / PGSIZE) && (4 <=? m)) s own s' own'.
Proof.
  intros Hsz. induction k as [|k IH]; intros n s own Hw Hd Hn Hk; cbn [dealloc_loop];
    (destruct (Z.ltb_spec (n * PGSIZE) oldsz) as [Hlt|Hge]; cbn [negb];
      [|exists s, own; split; [done|]; apply freed_none; [done..|]; intros m Hm; exfalso; zcases_in Hm; vlia]).
  { exfalso. vlia. }
  assert (Hn' : 0 <= n < UPAGES) by vlia.
  destruct (dealloc_page_spec s own d n Hw Hd Hn') as (n1 & s1 & own1 & E1 & Hn1 & Hab & Hf1).
  unfold kbind. rewrite E1. replace (n1 * PGSIZE +u PGSIZE) with ((n1 + 1) * PGSIZE) by (rewrite u32_small; vlia).
  destruct (IH (n1 + 1) s1 own1) as (s2 & own2 & E2 & Hf2); [apply Hf1|apply Hf1|lia|lia|].
  exists s2, own2. split; [exact E2|].
  eapply freed_absent; [done| |exact (freed_trans d _ _ s own s1 own1 s2 own2 Hw Hd Hf1 Hf2)].
  intros m. cbn beta. destruct (decide (n < m <= n1)) as [Hm|Hm]; [right; by apply Hab|left].
  zcases; done || vlia.
Qed.

Lemma deallocuvm_nolock_spec s own d oldsz newsz : world s own -> own d = RDir -> 0 <= newsz -> 0 <= oldsz <= KERNBASE ->
  exists r s' own', deallocuvm_nolock d oldsz newsz s = Done r s' /\ r = Z.min oldsz newsz /\
    freed d (fun m => ((newsz + 4095) / PGSIZE <=? m) && (m <? (oldsz + 4095) / PGSIZE) && (4 <=? m)) s own s' own'.
Proof.
  intros Hw Hd Hn Ho. unfold deallocuvm_nolock. destruct (Z.leb_spec oldsz newsz) as [Hle|Hlt].
  - exists oldsz, s, own. split; [done|]. split; [lia|]. apply freed_none; [done..|]. intros m Hm. exfalso. zcases_in Hm; vlia.
  - rewrite pgroundup_spec by vlia.
    destruct (dealloc_loop_spec d oldsz Ho (Z.to_nat (oldsz / PGSIZE + 1)) ((newsz + 4095) / PGSIZE) s own Hw Hd)
      as (s' & own' & E & Hf); [vlia|vlia|].
    exists newsz, s', own'. unfold kbind. change 4096 with PGSIZE. rewrite E. split; [done|]. split; [lia|done].
Qed.

(** ** Mapping a fresh frame *)

Definition user_perm : Z := Z.lor PTE_W PTE_U.
(** The entry of a user page with frame [v]. *)
Definition user_pte v : Z := want_pte (v2p v) user_perm.

Lemma frame_addr_page v : page_ok end_ phystop v -> frame_addr (v2p v) /\ p2v (v2p v) = v.
Proof.
  intros Hv. pose proof (page_range v Hv) as (? & ? & ? & ?). pose proof (v2p_page v Hv) as [E Hm].
  split; [split; [|done]; vlia|by apply p2v_v2p].
Qed.

Lemma user_pte_spec v : page_ok end_ phystop v ->
  0 <= user_pte v < 2 ^ 32 /\ present (user_pte v) = true /\ frame (user_pte v) = v.
Proof.
  intros Hv. destruct (frame_addr_page v Hv) as [Hf Hb].
  destruct (new_pte_spec 0 (v2p v) user_perm) as (Hr & Hp & Ha); [done|done|done|].
  unfold new_pte in *. change (present 0) with false in *. fold (user_pte v) in *.
  split_and!; [apply Hr..|done|]. unfold frame. by rewrite Ha.
Qed.

Lemma map_fresh s own d n v : world s own -> own d = RDir -> 0 <= n < UPAGES -> present (pte_at (mem s) d n) = false ->
  own v = ROther -> page_ok end_ phystop v ->
  exists r s' own', mappages_nolock d (n * PGSIZE) PGSIZE (v2p v) user_perm s = Done r s' /\
    world s' own' /\ own' d = RDir /\ claims d own own' /\ (forall x, pg x = v -> mem s' x = mem s x) /\
    ((r = -1 /\ keeps d none s own s' own' /\ own' v = ROther /\ (forall n', 0 <= n' < 2 ^ 20 -> pte_at (mem s') d n' = pte_at (mem s) d n') /\
      forall v, own' v <> RFree) \/
     (r = 0 /\ keeps d (eq v) s own s' own' /\ own' v = RUser d n /\
      forall n', 0 <= n' < 2 ^ 20 -> pte_at (mem s') d n' = if n' =? n then user_pte v else pte_at (mem s) d n')).
Proof.
  intros Hw Hd Hn Ha Hv Hok. destruct (frame_addr_page v Hok) as [Hf Hb]. destruct (user_pte_spec v Hok) as (_ & Hpu & Hfu).
  assert (E1 : n * PGSIZE / PGSIZE = n) by (apply Z.div_mul; done).
  assert (E2 : (n * PGSIZE + PGSIZE - 1) / PGSIZE - n * PGSIZE / PGSIZE + 1 = 1) by vlia.
  assert (Ht : forall w, taken s d n 1 (v2p v) w <-> v = w).
  { intros w. unfold taken, taken_by. split.
    - intros (j & Hj & _ & _ & ->). replace j with 0 by lia. by rewrite Z.mul_0_l, Z.add_0_r.
    - intros <-. exists 0. rewrite Z.mul_0_l, !Z.add_0_r, Hb. split_and!; done || lia. }
  destruct (mappages_nolock_spec d (n * PGSIZE) PGSIZE (v2p v) user_perm s own Hw Hd) as (r & s' & own' & j & E & Hm & Hr).
  { done. } { vlia. } { vlia. } { vlia. }
  { rewrite E2, E1. intros j Hj. replace j with 0 by lia. rewrite Z.mul_0_l, !Z.add_0_r. split; [done|].
    intros _. rewrite Ha, Hb. done. }
  rewrite E2 in Hm, Hr. rewrite E1 in Hm. destruct Hm as [Hw' Hd' Hk Hs Hby Hp Hl]. exists r, s', own'. split; [done|].
  split_and!; [done..|intros x <-; apply Hby; by apply Ht|].
  destruct Hr as [[-> ->]|(-> & Hj & Hno)].
  - right. split; [done|]. split; [eapply keeps_weaken; [|exact Hk]; intros w; apply Ht|].
    assert (Hp' : forall n', 0 <= n' < 2 ^ 20 -> pte_at (mem s') d n' = if n' =? n then user_pte v else pte_at (mem s) d n').
    { intros n' Hn'. rewrite Hp by done. destruct (Z.eqb_spec n' n) as [->|Hne]; [|zcases; done || lia].
      unfold new_pte. rewrite Ha. replace (v2p v + (n - n) * PGSIZE) with (v2p v) by lia. zcases; done || lia. }
    split; [|done]. apply (w_user _ _ Hw'). rewrite Hp', Z.eqb_refl by vlia. done.
  - left. assert (j = 0) as -> by lia. assert (Hov : own' v = ROther).
    { rewrite (Hl 0 v); [done|lia|]. rewrite Z.mul_0_l, !Z.add_0_r. split_and!; done || lia. }
    split_and!; [done| |done| |done].
    + constructor; [| |apply Hk].
      * intros w Hc. destruct (decide (v = w)) as [<-|Hne]; [congruence|]. apply (k_role _ _ _ _ _ _ Hk).
        destruct Hc as (? & ? & ? & _). split_and!; [done..|]. by rewrite Ht.
      * intros x Hc. destruct (decide (v = pg x)) as [->|Hne]; [apply Hby; by apply Ht|]. apply (k_mem _ _ _ _ _ _ Hk).
        destruct Hc as (? & ? & ? & _). split_and!; [done..|]. by rewrite Ht.
    + intros n' Hn'. rewrite Hp by done. zcases; done || lia.
Qed.

(** A page taken from the allocator and filled with [g m], [m] the memory. *)
Lemma new_page s own (g : (Z -> Z) -> Z -> Z) : world s own ->
  exists v s1, vkalloc s = Done v s1 /\ mem s1 = mem s /\ ctl s1 = ctl s /\
    ((v = 0 /\ world s1 own) \/
     (v <> 0 /\ own v = RFree /\ page_ok end_ phystop v /\
      let s2 := set_mem (store (mem s1) v PGSIZE (g (mem s1))) s1 in
      world s2 (zupd own v ROther) /\ (forall d, keeps d none s own s2 (zupd own v ROther)) /\
      (forall d n, own d = RDir -> 0 <= n < 2 ^ 20 -> pte_at (mem s2) d n = pte_at (mem s) d n) /\
      (forall x, pg x = v -> mem s2 x = g (mem s) (x - v)))).
Proof.
  intros Hw. destruct (vkalloc_world s own Hw) as (v & s1 & E & Em & Ec & [(-> & _ & Hw1)|(Hf & Hok & Hnz & Hw1)]).
  { exists 0, s1. split_and!; try done. by left. }
  exists v, s1. split_and!; [done..|]. right. split_and!; [done..|]. cbv zeta.
  set (m2 := store (mem s1) v PGSIZE (g (mem s1))). pose proof (proj1 Hok) as Hm.
  assert (Hag : forall w, w <> v -> agree (mem s1) m2 w).
  { intros w Hne x Hx. apply store_other. rewrite <- (pg_iff v) by done. congruence. }
  assert (Hpt : forall w, is_pt (zupd own v ROther w) = true -> w <> v).
  { intros w Hpw ->. by rewrite zupd_eq in Hpw. }
  split_and!.
  - apply (world_mem s1 _ Hw1). intros w Hpw. by apply Hag, Hpt.
  - intros d. constructor; [| |done].
    + intros w (Hwf & _). apply zupd_ne. congruence.
    + intros x (Hwf & _). rewrite <- Em. apply (Hag (pg x)); [congruence|done].
  - intros d n Hd Hn. rewrite <- Em. assert (Hd1 : zupd own v ROther d = RDir) by (rewrite zupd_ne; congruence).
    apply (w_agree s1 _ Hw1 m2 d Hd1); [| |done].
    + apply Hag. congruence.
    + intros w i Hwi. apply Hag, Hpt. by rewrite Hwi.
  - intros x Hx. cbn [mem set_mem]. unfold m2. rewrite store_in, Em; [done|]. by apply pg_iff.
Qed.

(** Taking a page, filling it and mapping it as the page [n] of [d]. *)
Lemma add_page s own d n g (A : K vm Z) (B : Z -> K vm Z) (C : K vm Z) :
  world s own -> own d = RDir -> 0 <= n < UPAGES -> present (pte_at (mem s) d n) = false ->
  let body := (v <- vkalloc ;;
               if v =? 0 then A
               else upd_mem (fun m => store m v PGSIZE (g m)) ;;
                    r <- mappages_nolock d (n * PGSIZE) PGSIZE (v2p v) user_perm ;;
                    if r <? 0 then B v else C) in
  (exists s', body s = A s' /\ world s' own /\ mem s' = mem s /\ ctl s' = ctl s) \/
  (exists v s' own', own v = RFree /\ page_ok end_ phystop v /\ world s' own' /\ own' d = RDir /\
     (forall w, w <> v -> claim d (own w) (own' w)) /\ keeps d none s own s' own' /\
     ((body s = B v s' /\ own' v = ROther /\ forall n', 0 <= n' < 2 ^ 20 -> pte_at (mem s') d n' = pte_at (mem s) d n') \/
      (body s = C s' /\ own' v = RUser d n /\ (forall x, pg x = v -> mem s' x = g (mem s) (x - v)) /\
       forall n', 0 <= n' < 2 ^ 20 -> pte_at (mem s') d n' = if n' =? n then user_pte v else pte_at (mem s) d n'))).
Proof.
  intros Hw Hd Hn Ha body. destruct (new_page s own g Hw) as (v & s1 & E & Em & Ec & [[-> Hw1]|(Hnz & Hf & Hok & Hr)]).
  { left. exists s1. split_and!; [|done..]. unfold body, kbind. by rewrite E. }
  cbv zeta in Hr. set (s2 := set_mem (store (mem s1) v PGSIZE (g (mem s1))) s1) in *. destruct Hr as (Hw2 & Hk2 & Hp2 & Hc2).
  assert (Hd2 : zupd own v ROther d = RDir) by (rewrite zupd_ne; congruence).
  destruct (map_fresh s2 (zupd own v ROther) d n v Hw2 Hd2 Hn) as (r & s3 & own3 & E3 & Hw3 & Hd3 & Hs3 & Hb3 & Hr3);
    [rewrite Hp2; [done|done|vlia]|apply zupd_eq|done|].
  right. exists v, s3, own3. split_and!; [done..|intros w Hne; specialize (Hs3 w); by rewrite zupd_ne in Hs3| |].
  { assert (Hk3 : keeps d (eq v) s2 (zupd own v ROther) s3 own3).
    { destruct Hr3 as [(_ & Hk3 & _)|(_ & Hk3 & _)]; [eapply keeps_weaken; [|exact Hk3]; done|done]. }
    assert (Hc : forall w, calm d none own w -> calm d (eq v) (zupd own v ROther) w).
    { intros w Hc. pose proof (keeps_calm _ _ _ _ _ _ w (Hk2 d) Hc) as (H1 & H2 & H3 & _). split_and!; [done..|].
      intros <-. destruct Hc as [? _]. congruence. }
    constructor.
    - intros w Hw'. rewrite (k_role _ _ _ _ _ _ Hk3) by auto. by apply (k_role _ _ _ _ _ _ (Hk2 d)).
    - intros x Hx. rewrite (k_mem _ _ _ _ _ _ Hk3) by auto. by apply (k_mem _ _ _ _ _ _ (Hk2 d)).
    - rewrite (k_ctl _ _ _ _ _ _ Hk3). apply (Hk2 d). }
  assert (Eb : body s = (if r <? 0 then B v else C) s3).
  { unfold body, kbind at 1. rewrite E. rewrite (proj2 (Z.eqb_neq v 0)) by done.
    unfold kbind, upd_mem, kmodify. fold s2. by rewrite E3. }
  destruct Hr3 as [(-> & _ & Hv & Hp3 & _)|(-> & _ & Hv & Hp3)]; [left|right]; (split; [exact Eb|]); (split; [done|]).
  - intros n' Hn'. by rewrite Hp3, Hp2.
  - split; [intros x Hx; by rewrite Hb3, Hc2|]. intros n' Hn'. by rewrite Hp3, Hp2.
Qed.

(** ** Growing *)

(** Pages are taken for tables and for the pages of [P] only. *)
Definition taking d (P : Z -> Prop) (r r' : role) : Prop :=
  (r' = RFree -> r = RFree) /\
  (r = RFree -> r' = RFree \/ (exists i, r' = RTab d i) \/ (exists n, P n /\ r' = RUser d n)) /\
  (forall i, r = RTab d i -> r' = r).

(** The pages [lo], ..., [hi - 1] are mapped to pages that were free, filled
    with [C]; nothing else of any address space changes. *)
Record grown d lo hi (C : Z -> Z -> Z) s own s' own' : Prop := {
  g_world : world s' own';
  g_dir : own' d = RDir;
  g_keeps : keeps d none s own s' own';
  g_taking : forall v, taking d (fun n => lo <= n < hi) (own v) (own' v);
  g_old : forall n, 0 <= n < 2 ^ 20 -> ~ lo <= n < hi -> pte_at (mem s') d n = pte_at (mem s) d n;
  g_new : forall n, lo <= n < hi -> exists v, own v = RFree /\ own' v = RUser d n /\ page_ok end_ phystop v /\
    pte_at (mem s') d n = user_pte v /\ forall x, pg x = v -> mem s' x = C n (x - v);
}.

Lemma grown_refl d lo hi C s own : world s own -> own d = RDir -> hi <= lo -> grown d lo hi C s own s own.
Proof. intros. constructor; try done; [intros v; unfold taking; split_and!; eauto|intros; lia]. Qed.

Lemma grown_snoc d lo n C s own s1 own1 s2 own2 v : world s own -> own d = RDir -> 0 <= lo <= n -> n < UPAGES ->
  grown d lo n C s own s1 own1 -> own1 v = RFree -> page_ok end_ phystop v -> world s2 own2 -> own2 d = RDir ->
  (forall w, w <> v -> claim d (own1 w) (own2 w)) -> keeps d none s1 own1 s2 own2 -> own2 v = RUser d n -> (forall x, pg x = v -> mem s2 x = C n (x - v)) ->
  (forall n', 0 <= n' < 2 ^ 20 -> pte_at (mem s2) d n' = if n' =? n then user_pte v else pte_at (mem s1) d n') ->
  grown d lo (n + 1) C s own s2 own2.
Proof.
  intros Hw Hd Hlo Hn [Hw1 Hd1 Hk1 Hs1 Ho1 Hn1] Hv Hok Hw2 Hd2 Hs2 Hk2 Hv2 Hc2 Hp2. constructor; try done.
  - by eapply keeps_trans.
  - intros w. destruct (Hs1 w) as (A1 & B1 & C1). destruct (decide (w = v)) as [->|Hne].
    + rewrite Hv2. unfold taking. split_and!; [done|intros _; right; right; exists n; split; [lia|done]|intros i Hi; by rewrite (C1 i Hi), Hi in Hv].
    + destruct (Hs2 w Hne) as (A2 & B2 & C2). unfold taking. split_and!; [auto| |intros i Hi; pose proof (C1 i Hi); rewrite (C2 i); congruence].
      intros Hf. destruct (B1 Hf) as [Hf1|[[i Hi]|(m & Hm & Hu)]].
      * destruct (B2 Hf1); auto.
      * right. left. exists i. by rewrite (C2 i).
      * right. right. exists m. split; [lia|]. rewrite (k_role _ _ _ _ _ _ Hk2); [done|]. split_and!; [congruence..|tauto].
  - intros n' Hn' Hr. rewrite Hp2 by done. rewrite (proj2 (Z.eqb_neq n' n)) by lia. apply Ho1; [done|lia].
  - intros n' Hn'. rewrite Hp2 by vlia. destruct (Z.eqb_spec n' n) as [->|Hne].
    + exists v. split_and!; [by apply (Hs1 v)|done..].
    + destruct (Hn1 n' ltac:(lia)) as (w & Hwf & Hw' & Hwo & Hwp & Hwc). exists w.
      assert (Hcw : calm d none own1 w) by (split_and!; [congruence..|tauto]).
      split_and!; [done|rewrite (k_role _ _ _ _ _ _ Hk2) by done; done|done|done|].
      intros x Hx. rewrite (k_mem _ _ _ _ _ _ Hk2), Hwc by (done || by rewrite Hx). done.
Qed.

(** [allocuvm] gave up: what it had mapped from [lo] on is unmapped again,
    except below page 4. *)
Record backed_out d lo hi s own s' own' : Prop := {
  b_world : world s' own';
  b_dir : own' d = RDir;
  b_keeps : keeps d none s own s' own';
  b_old : forall n, 0 <= n < 2 ^ 20 -> ~ lo <= n < hi -> pte_at (mem s') d n = pte_at (mem s) d n;
  b_new : forall n, lo <= n < hi -> 4 <= n -> present (pte_at (mem s') d n) = false;
  b_taking : forall v, own v = RFree -> own' v = RFree \/ (exists i, own' v = RTab d i) \/
    (exists n, lo <= n < hi /\ n < 4 /\ own' v = RUser d n);
}.

Lemma back_out s own s1 own1 d oldsz newsz : 0 <= oldsz -> 0 <= newsz < KERNBASE ->
  let lo := (oldsz + 4095) / PGSIZE in let hi := (newsz + 4095) / PGSIZE in
  world s1 own1 -> own1 d = RDir -> keeps d none s own s1 own1 ->
  (forall n, 0 <= n < 2 ^ 20 -> ~ lo <= n < hi -> pte_at (mem s1) d n = pte_at (mem s) d n) ->
  (forall m v, lo <= m < hi -> own1 v = RUser d m -> own v = RFree) ->
  (forall v, own v = RFree -> own1 v = RFree \/ (exists i, own1 v = RTab d i) \/ (exists n, lo <= n < hi /\ own1 v = RUser d n)) ->
  exists r s' own', deallocuvm_nolock d newsz oldsz s1 = Done r s' /\ backed_out d lo hi s own s' own'.
Proof.
  intros Ho Hn lo hi Hw1 Hd1 Hk1 Hp1 Hu1 Ht1.
  destruct (deallocuvm_nolock_spec s1 own1 d newsz oldsz Hw1 Hd1 Ho) as (r & s' & own' & E & _ & [Hw' Hd' Hk' Hp' Hr']); [lia|].
  fold lo hi in Hk', Hp', Hr'. exists r, s', own'. split; [done|]. constructor; try done.
  - assert (Hc : forall w, calm d none own w -> calm d (fun v => exists n, (lo <=? n) && (n <? hi) && (4 <=? n) = true /\ own1 v = RUser d n) own1 w).
    { intros w Hc. pose proof (keeps_calm _ _ _ _ _ _ w Hk1 Hc) as (H1 & H2 & H3 & _). split_and!; [done..|].
      intros (m & Hm & Hwm). destruct Hc as [Hf _]. apply Hf, (Hu1 m); [zcases_in Hm; lia|done]. }
    constructor.
    + intros w Hw. rewrite (k_role _ _ _ _ _ _ Hk') by auto. by apply (k_role _ _ _ _ _ _ Hk1).
    + intros x Hx. rewrite (k_mem _ _ _ _ _ _ Hk') by auto. by apply (k_mem _ _ _ _ _ _ Hk1).
    + rewrite (k_ctl _ _ _ _ _ _ Hk'). apply Hk1.
  - intros n Hn' Hr. rewrite Hp', <- Hp1 by done. zcases; done || lia.
  - intros n Hr H4. rewrite Hp' by (unfold lo, hi in *; vlia). replace (_ && _ && _) with true; [apply cleared_absent|].
    symmetry. zcases; done || lia.
  - intros v Hv. rewrite Hr'. unfold unmapped. destruct (Ht1 v Hv) as [E1|[[i E1]|(n & Hnr & E1)]]; rewrite E1; [by left|by right; left; exists i|].
    rewrite Z.eqb_refl, (proj2 (Z.leb_le lo n)), (proj2 (Z.ltb_lt n hi)) by lia. cbn [andb].
    destruct (Z.leb_spec 4 n); [by left|]. right. right. by exists n.
Qed.

Lemma alloc_loop_spec s own d oldsz newsz : world s own -> own d = RDir -> 0 <= oldsz -> 0 <= newsz < KERNBASE ->
  let lo := (oldsz + 4095) / PGSIZE in let hi := (newsz + 4095) / PGSIZE in
  (forall n, lo <= n < hi -> present (pte_at (mem s) d n) = false) ->
  forall k n s1 own1, lo <= n -> hi - n <= Z.of_nat k -> grown d lo n (fun _ _ => 0) s own s1 own1 ->
  exists r s' own', alloc_loop k d (n * PGSIZE) oldsz newsz s1 = Done r s' /\
    ((r = newsz /\ grown d lo (Z.max n hi) (fun _ _ => 0) s own s' own') \/ (r = 0 /\ n < hi /\ backed_out d lo hi s own s' own')).
Proof.
  intros Hw Hd Ho Hn lo hi Hab. induction k as [|k IH]; intros n s1 own1 Hlo Hk Hg; cbn [alloc_loop];
    (destruct (Z.ltb_spec (n * PGSIZE) newsz) as [Hlt|Hge]; cbn [negb];
      [|exists newsz, s1, own1; split; [done|left; split; [done|]; replace (Z.max n hi) with n by (unfold hi; vlia); done]]).
  { exfalso. unfold hi in Hk. vlia. }
  assert (Hn' : 0 <= n < UPAGES) by (unfold lo in Hlo; vlia). assert (Hnh : n < hi) by (unfold hi; vlia).
  assert (Hu1 : forall m v, lo <= m < hi -> own1 v = RUser d m -> own v = RFree).
  { intros m v Hm Hv. destruct (w_user s1 own1 (g_world _ _ _ _ _ _ _ _ Hg) v d m) as [Hu _].
    destruct (Hu Hv) as (_ & Hr & Hp & <-). destruct (decide (m < n)) as [Hmn|Hmn].
    - destruct (g_new _ _ _ _ _ _ _ _ Hg m ltac:(lia)) as (w & Hwf & _ & Hok & Ep & _). rewrite Ep.
      destruct (user_pte_spec w Hok) as (_ & _ & ->). done.
    - rewrite (g_old _ _ _ _ _ _ _ _ Hg), Hab in Hp by (vlia || lia). done. }
  assert (Hold1 : forall m, 0 <= m < 2 ^ 20 -> ~ lo <= m < hi -> pte_at (mem s1) d m = pte_at (mem s) d m).
  { intros m Hm Hr. apply (g_old _ _ _ _ _ _ _ _ Hg); [done|lia]. }
  pose proof Hg as [Hw1 Hd1 Hk1 Hs1 Ho1 Hnw1].
  assert (Ht1 : forall v, own v = RFree -> own1 v = RFree \/ (exists i, own1 v = RTab d i) \/ (exists m, lo <= m < hi /\ own1 v = RUser d m)).
  { intros v Hv. destruct (Hs1 v) as (_ & B1 & _). destruct (B1 Hv) as [?|[?|(m & Hm & ?)]]; [auto..|].
    right. right. exists m. split; [lia|done]. }
  assert (Hap : present (pte_at (mem s1) d n) = false) by (rewrite Ho1 by (vlia || lia); apply Hab; lia).
  destruct (add_page s1 own1 d n (fun _ _ => 0) (deallocuvm_nolock d newsz oldsz ;; kret 0)
    (fun v => vkfree v ;; deallocuvm_nolock d newsz oldsz ;; kret 0)
    (alloc_loop k d (n * PGSIZE +u PGSIZE) oldsz newsz) Hw1 Hd1 Hn' Hap)
    as [(s2 & E & Hw2 & Em & Ec)|(v & s2 & own2 & Hv & Hok & Hw2 & Hd2 & Hs2 & Hk2 & [(E & Hv2 & Hp2)|(E & Hv2 & Hc2 & Hp2)])].
  - destruct (back_out s own s2 own1 d oldsz newsz Ho Hn Hw2 Hd1) as (r & s3 & own3 & E3 & Hb).
    { destruct Hk1 as [H1 H2 H3]. constructor; [done|by rewrite Em|by rewrite Ec]. }
    { by rewrite Em. } { done. } { exact Ht1. }
    exists 0, s3, own3. split; [etransitivity; [exact E|]; unfold kbind; by rewrite E3|right; done].
  - destruct (vkfree_world s2 own2 v Hw2 Hv2 Hok) as (s3 & E3 & Hw3 & Hc3 & Hm3).
    assert (Hk13 : keeps d none s1 own1 s3 (zupd own2 v RFree)).
    { constructor.
      - intros w Hcw. rewrite zupd_ne by (intros ->; destruct Hcw; congruence). by apply (k_role _ _ _ _ _ _ Hk2).
      - intros x Hcx. rewrite Hm3 by (intros <-; destruct Hcx; congruence). by apply (k_mem _ _ _ _ _ _ Hk2).
      - rewrite Hc3. apply Hk2. }
    assert (Hd3 : zupd own2 v RFree d = RDir) by (rewrite zupd_ne; congruence).
    assert (Hp3 : forall m, 0 <= m < 2 ^ 20 -> pte_at (mem s3) d m = pte_at (mem s1) d m).
    { intros m Hm. rewrite <- Hp2 by done. apply (w_agree s2 own2 Hw2 (mem s3) d Hd2); [| |done].
      - intros x <-. apply Hm3. congruence.
      - intros w i Hwi x <-. apply Hm3. congruence. }
    destruct (back_out s own s3 (zupd own2 v RFree) d oldsz newsz Ho Hn Hw3 Hd3) as (r & s4 & own4 & E4 & Hb).
    { by eapply keeps_trans. }
    { intros m Hm Hr. rewrite Hp3 by done. by apply Hold1. }
    { intros m w Hm Hwm. apply (Hu1 m); [done|]. apply (w_user _ _ Hw3) in Hwm as (_ & Hr & He & Hf).
      rewrite Hp3 in He, Hf by vlia. by apply (w_user _ _ Hw1). }
    { intros w Hwf. unfold zupd. destruct (Z.eqb_spec w v) as [->|Hne]; [by left|].
      destruct (Hs2 w Hne) as (_ & B2 & C2). destruct (Ht1 w Hwf) as [Hf1|[[i Hi]|(m & Hm & Hu)]].
      - destruct (B2 Hf1); auto.
      - right. left. exists i. by rewrite (C2 i).
      - right. right. exists m. split; [done|]. rewrite (k_role _ _ _ _ _ _ Hk2); [done|]. split_and!; [congruence..|tauto]. }
    exists 0, s4, own4. split; [etransitivity; [exact E|]; unfold kbind; by rewrite E3, E4|right; done].
  - assert (En : n * PGSIZE +u PGSIZE = (n + 1) * PGSIZE) by (rewrite u32_small; vlia).
    destruct (IH (n + 1) s2 own2) as (r & s3 & own3 & E3 & Hr); [lia|lia|by eapply (grown_snoc d lo n _ s own s1 own1 s2 own2 v); (unfold lo in *; vlia || done)|].
    exists r, s3, own3. split; [etransitivity; [exact E|rewrite En; exact E3]|]. replace (Z.max n hi) with (Z.max (n + 1) hi) by lia.
    destruct Hr as [Hr|(? & ? & ?)]; [by left|right; split_and!; done || lia].
Qed.

Lemma allocuvm_nolock_spec s own d oldsz newsz : world s own -> own d = RDir -> 0 <= oldsz < 2 ^ 32 -> 0 <= newsz < 2 ^ 32 ->
  let lo := (oldsz + 4095) / PGSIZE in let hi := (newsz + 4095) / PGSIZE in
  (newsz < KERNBASE -> forall n, lo <= n < hi -> present (pte_at (mem s) d n) = false) ->
  exists r s', allocuvm_nolock d oldsz newsz s = Done r s' /\
    if KERNBASE <=? newsz then r = 0 /\ s' = s
    else if newsz <? oldsz then r = oldsz /\ s' = s
    else exists own', (r = newsz /\ grown d lo hi (fun _ _ => 0) s own s' own') \/ (r = 0 /\ backed_out d lo hi s own s' own').
Proof.
  intros Hw Hd Ho Hn lo hi Hab. unfold allocuvm_nolock. destruct (Z.leb_spec KERNBASE newsz) as [?|Hlt]; [by exists 0, s|].
  destruct (Z.ltb_spec newsz oldsz) as [?|Hle]; [by exists oldsz, s|].
  rewrite pgroundup_spec by vlia. change 4096 with PGSIZE. fold lo.
  destruct (alloc_loop_spec s own d oldsz newsz Hw Hd ltac:(lia) ltac:(lia) (Hab Hlt) (Z.to_nat (newsz / PGSIZE + 1)) lo s own)
    as (r & s' & own' & E & Hr); [lia|unfold lo; vlia|apply grown_refl; done|].
  exists r, s'. split; [exact E|]. exists own'. fold lo hi in Hr. replace (Z.max lo hi) with hi in Hr by (unfold lo, hi; vlia).
  naive_solver.
Qed.

(** ** Releasing an address space *)

(** The roles once the directory entries of [P] are cleared, the tables going
    to the role [r]. *)
Definition dropped d (P : Z -> bool) (r : role) own v : role :=
  match own v with
  | RTab d' j => if (d' =? d) && P j then r else own v
  | RUser d' n => if (d' =? d) && P (n / 1024) then ROther else own v
  | _ => own v
  end.

Section DropTable.
Context (s : vm) (own : Z -> role) (Hw : world s own) (d i : Z).
Context (Hd : own d = RDir) (Hi : 0 <= i < 1024).

Let m' : Z -> Z := st32 (mem s) (d + 4 * i) 0.
Let own' : Z -> role := dropped d (Z.eqb i) ROther own.

Lemma dt_agree w : w <> d -> agree (mem s) m' w.
Proof.
  intros Hne x Hx. apply st32_other. intros Hr. apply Hne. rewrite <- Hx.
  destruct (w_dir s own Hw d Hd) as (_ & Hm & _). apply pg_iff; [done|]. vlia.
Qed.

Lemma dt_pde j : 0 <= j < 1024 -> pde_of m' d j = if j =? i then 0 else pde_of (mem s) d j.
Proof.
  intros Hj. unfold pde_of, m'. destruct (Z.eqb_spec j i) as [->|Hne]; [by apply ld32_st32_eq|].
  apply ld32_st32_ne. lia.
Qed.

Lemma dt_pte n : 0 <= n < 2 ^ 20 -> pte_at m' d n = if n / 1024 =? i then 0 else pte_at (mem s) d n.
Proof.
  intros Hn. assert (Hj : 0 <= n / 1024 < 1024) by vlia. unfold pte_at, tab. rewrite dt_pde by done.
  destruct (Z.eqb_spec (n / 1024) i) as [E|Hne]; [done|]. destruct (present (pde_of (mem s) d (n / 1024))) eqn:Ep; [|done].
  fold (tab (mem s) d (n / 1024)). destruct (w_table s own Hw d _ Hd Hj Ep) as (Ho & [Hm _] & _).
  apply agree_ld32; [done|vlia|]. apply dt_agree. congruence.
Qed.

Lemma dt_dir d' : own d' = RDir -> d' <> d -> (forall j, 0 <= j < 1024 -> pde_of m' d' j = pde_of (mem s) d' j) /\
  (forall n, 0 <= n < 2 ^ 20 -> pte_at m' d' n = pte_at (mem s) d' n).
Proof.
  intros Hd' Hne. apply (w_agree s own Hw m' d' Hd'); [by apply dt_agree|]. intros w j Hwj. apply dt_agree. congruence.
Qed.

Lemma dt_role v : own' v = own v \/ own' v = ROther /\ (own v = RTab d i \/ exists n, own v = RUser d n /\ n / 1024 = i).
Proof.
  unfold own', dropped. destruct (own v) as [| |d' j|d' n|]; try by left.
  - destruct (Z.eqb_spec d' d) as [->|]; [|by left]. destruct (Z.eqb_spec i j) as [->|]; [by right; eauto|by left].
  - destruct (Z.eqb_spec d' d) as [->|]; [|by left]. destruct (Z.eqb_spec i (n / 1024)); [right; eauto|by left].
Qed.

Lemma dt_world : world (set_mem m' s) own'.
Proof.
  assert (Hsame : forall v r, r <> ROther -> own' v = r -> own v = r) by (intros v r Hr E; destruct (dt_role v) as [|[]]; congruence).
  assert (Hdir : forall d', own' d' = RDir <-> own d' = RDir).
  { intros d'. split; [by apply Hsame|]. intros E. unfold own', dropped. by rewrite E. }
  constructor; cbn [mem ptab pages set_mem].
  - destruct (w_free _ _ Hw) as (F & HF & HFo). exists F. split; [done|]. intros v. rewrite HFo. split; [|by apply Hsame].
    intros E. unfold own', dropped. by rewrite E.
  - intros v Hv. apply (w_pages _ _ Hw). destruct (dt_role v) as [E|[E _]]; congruence.
  - intros v d' j. rewrite Hdir. split.
    + intros Hv. assert (Ho : own v = RTab d' j) by (by apply Hsame). pose proof Ho as (Hd' & Hj & He)%(w_tab _ _ Hw).
      split; [done|]. split; [done|]. unfold tab. destruct (decide (d' = d)) as [->|Hdd]; [|rewrite (proj1 (dt_dir d' Hd' Hdd)) by done; done].
      rewrite dt_pde by done. destruct (Z.eqb_spec j i) as [->|]; [|done].
      unfold own', dropped in Hv. by rewrite Ho, !Z.eqb_refl in Hv.
    + intros (Hd' & Hj & He). unfold tab in He. destruct (decide (d' = d)) as [->|Hdd].
      * rewrite dt_pde in He by done. destruct (Z.eqb_spec j i) as [->|Hne]; [by destruct He|].
        assert (Ho : own v = RTab d j) by by apply (w_tab _ _ Hw). unfold own', dropped. rewrite Ho, Z.eqb_refl.
        by rewrite (proj2 (Z.eqb_neq i j)) by lia.
      * rewrite (proj1 (dt_dir d' Hd' Hdd)) in He by done. assert (Ho : own v = RTab d' j) by by apply (w_tab _ _ Hw).
        unfold own', dropped. by rewrite Ho, (proj2 (Z.eqb_neq d' d)).
  - intros v d' n. rewrite Hdir. split.
    + intros Hv. assert (Ho : own v = RUser d' n) by (by apply Hsame). pose proof Ho as (Hd' & Hn & He)%(w_user _ _ Hw).
      assert (0 <= n < 2 ^ 20) by vlia. split; [done|]. split; [done|].
      destruct (decide (d' = d)) as [->|Hdd]; [|rewrite (proj2 (dt_dir d' Hd' Hdd)) by done; done].
      rewrite dt_pte by done. destruct (Z.eqb_spec (n / 1024) i) as [E|]; [|done].
      unfold own', dropped in Hv. by rewrite Ho, Z.eqb_refl, E, Z.eqb_refl in Hv.
    + intros (Hd' & Hn & He). assert (0 <= n < 2 ^ 20) by vlia. destruct (decide (d' = d)) as [->|Hdd].
      * rewrite dt_pte in He by done. destruct (Z.eqb_spec (n / 1024) i) as [E|Hne]; [by destruct He|].
        assert (Ho : own v = RUser d n) by by apply (w_user _ _ Hw). unfold own', dropped. rewrite Ho, Z.eqb_refl.
        by rewrite (proj2 (Z.eqb_neq i (n / 1024))) by lia.
      * rewrite (proj2 (dt_dir d' Hd' Hdd)) in He by done. assert (Ho : own v = RUser d' n) by by apply (w_user _ _ Hw).
        unfold own', dropped. by rewrite Ho, (proj2 (Z.eqb_neq d' d)).
  - intros p Hin Hs Hpd. apply Hdir. by apply (w_procs _ _ Hw).
Qed.
End DropTable.

(** The pages released so far: what an index [k] of the loop leaves. *)
Record released d k s own s' own' : Prop := {
  r_world : world s' own';
  r_role : forall v, own' v = dropped d (fun j => k <=? j) RFree own v;
  r_mem : forall x, pg x <> d -> (forall i, own (pg x) <> RTab d i) -> mem s' x = mem s x;
  r_ctl : ctl s' = ctl s;
}.

Lemma dropped_dir d P r own : own d = RDir -> dropped d P r own d = RDir.
Proof. intros E. unfold dropped. by rewrite E. Qed.

Lemma drop_absent s own d k v : world s own -> present (pde_of (mem s) d k) = false ->
  dropped d (fun j => k <=? j) RFree own v = dropped d (fun j => k + 1 <=? j) RFree own v.
Proof.
  intros Hw Hp. unfold dropped. destruct (own v) as [| |d' j|d' n|] eqn:E; try done.
  - destruct (Z.eqb_spec d' d) as [->|]; [|done]. apply (w_tab _ _ Hw) in E as (_ & _ & Hj & _).
    assert (j <> k) by congruence. zcases; done || lia.
  - destruct (Z.eqb_spec d' d) as [->|]; [|done]. apply (w_user _ _ Hw) in E as (_ & _ & Hj & _).
    unfold pte_at in Hj. destruct (present (pde_of (mem s) d (n / 1024))) eqn:Ep; [|done].
    assert (n / 1024 <> k) by congruence. zcases; done || lia.
Qed.

Lemma drop_present s own d k v : world s own -> own d = RDir -> 0 <= k < 1024 -> present (pde_of (mem s) d k) = true ->
  dropped d (fun j => k + 1 <=? j) RFree (zupd (dropped d (Z.eqb k) ROther own) (tab (mem s) d k) RFree) v =
  dropped d (fun j => k <=? j) RFree own v.
Proof.
  intros Hw Hd Hk Hp. destruct (w_table s own Hw d k Hd Hk Hp) as (Ht & _).
  unfold dropped at 1, zupd. destruct (Z.eqb_spec v (tab (mem s) d k)) as [->|Hne].
  { unfold dropped. rewrite Ht, Z.eqb_refl, Z.leb_refl. done. }
  unfold dropped. destruct (own v) as [| |d' j|d' n|] eqn:E; try done.
  - destruct (Z.eqb_spec d' d) as [->|Hdd]; cbn [andb]; [|by rewrite (proj2 (Z.eqb_neq d' d))].
    assert (j <> k) by (intros ->; apply (w_tab _ _ Hw) in E as (_ & _ & _ & ?); congruence).
    rewrite (proj2 (Z.eqb_neq k j)) by lia. rewrite Z.eqb_refl. zcases; done || lia.
  - destruct (Z.eqb_spec d' d) as [->|Hdd]; cbn [andb]; [|by rewrite (proj2 (Z.eqb_neq d' d))].
    destruct (Z.eqb_spec k (n / 1024)) as [->|Hkn]; [by rewrite Z.leb_refl|]. rewrite Z.eqb_refl. zcases; done || lia.
Qed.

Lemma freept_loop_spec d : forall (c : nat) k s own, world s own -> own d = RDir -> 0 <= k -> k + Z.of_nat c = 1024 ->
  exists s' own', freept_loop c d k s = Done tt s' /\ released d k s own s' own'.
Proof.
  induction c as [|c IH]; intros k s own Hw Hd Hk Hkn; cbn [freept_loop].
  { exists s, own. split; [done|]. constructor; try done. intros v. unfold dropped.
    destruct (own v) as [| |d' j|d' m|] eqn:E; try done.
    - apply (w_tab _ _ Hw) in E. rewrite (proj2 (Z.leb_gt k j)), andb_false_r by lia. done.
    - apply (w_user _ _ Hw) in E. rewrite (proj2 (Z.leb_gt k (m / 1024))), andb_false_r by vlia. done. }
  unfold kbind at 1, load32, kgets. fold (pde_of (mem s) d k). destruct (present (pde_of (mem s) d k)) eqn:Ep.
  - assert (Hkr : 0 <= k < 1024) by lia. destruct (w_table s own Hw d k Hd Hkr Ep) as (Ht & Hok & ->).
    pose proof (dt_world s own Hw d k Hd Hkr) as Hw1. set (s1 := set_mem (st32 (mem s) (d + 4 * k) 0) s) in *.
    assert (Hot : dropped d (Z.eqb k) ROther own (tab (mem s) d k) = ROther) by (unfold dropped; by rewrite Ht, !Z.eqb_refl).
    assert (Hsh : (k <? PDX KERNBASE) && shared_pt s1 d (PTE_ADDR (pde_of (mem s) d k)) = false).
    { rewrite (not_shared s1 _ d _ Hw1); [apply andb_false_r|]. intros d' j E. unfold tab in Hot. congruence. }
    destruct (vkfree_world s1 _ (tab (mem s) d k) Hw1 Hot Hok) as (s2 & E2 & Hw2 & Hc2 & Hm2).
    destruct (IH (k + 1) s2 _ Hw2) as (s3 & own3 & E3 & Hr3).
    { rewrite zupd_ne by congruence. by apply dropped_dir. } { lia. } { lia. }
    exists s3, own3. split.
    { unfold kbind, store32, upd_mem, kmodify, kget. fold s1. rewrite Hsh. fold (tab (mem s) d k). by rewrite E2. }
    destruct Hr3 as [Hw3 Ho3 Hm3 Hc3]. constructor; [done| | |].
    + intros v. rewrite Ho3. by apply drop_present.
    + intros x Hxd Hxt. rewrite Hm3; [rewrite Hm2|done|].
      * apply (dt_agree s own Hw d k Hd Hkr (pg x)); done.
      * intros E. by apply (Hxt k); rewrite E.
      * intros i. unfold zupd. destruct (Z.eqb_spec (pg x) (tab (mem s) d k)); [done|]. unfold dropped.
        specialize (Hxt i). repeat case_match; congruence.
    + by rewrite Hc3, Hc2.
  - destruct (IH (k + 1) s own Hw Hd) as (s' & own' & E & [H1 H2 H3 H4]); [lia|lia|]. exists s', own'.
    split; [unfold kbind, kret; exact E|]. constructor; try done. intros v. rewrite H2. symmetry. by eapply drop_absent.
Qed.

(** A directory without tables can go. *)
Lemma drop_dir s own d : world s own -> own d = RDir -> (forall v i, own v <> RTab d i) -> (forall v n, own v <> RUser d n) ->
  (forall p, p ∈ ptab s -> state p <> UNUSED -> pgdir p <> d) -> world s (zupd own d ROther).
Proof.
  intros Hw Hd Hnt Hnu Hpr.
  assert (Hsame : forall v r, r <> RDir -> r <> ROther -> zupd own d ROther v = r <-> own v = r).
  { intros v r H1 H2. unfold zupd. destruct (Z.eqb_spec v d) as [->|]; [|done]. split; congruence. }
  assert (Hdir : forall d', zupd own d ROther d' = RDir <-> own d' = RDir /\ d' <> d).
  { intros d'. unfold zupd. destruct (Z.eqb_spec d' d) as [->|]; [|tauto]. split; [done|tauto]. }
  constructor.
  - destruct (w_free _ _ Hw) as (F & HF & HFo). exists F. split; [done|]. intros v. by rewrite HFo, Hsame.
  - intros v. unfold zupd. destruct (Z.eqb_spec v d); [done|]. apply (w_pages _ _ Hw).
  - intros v d' i. rewrite Hsame, Hdir by done. split.
    + intros E. assert (d' <> d) by (intros ->; by apply (Hnt v i)). apply (w_tab _ _ Hw) in E. tauto.
    + intros ((E & _) & H). by apply (w_tab _ _ Hw).
  - intros v d' n. rewrite Hsame, Hdir by done. split.
    + intros E. assert (d' <> d) by (intros ->; by apply (Hnu v n)). apply (w_user _ _ Hw) in E. tauto.
    + intros ((E & _) & H). by apply (w_user _ _ Hw).
  - intros p Hin Hs Hpd. apply Hdir. split; [by apply (w_procs _ _ Hw)|by apply Hpr].
Qed.

(** What [freevm] makes of the pages: everything of [d] is free again, but the
    frames of its pages 0 to 3 are lost. *)
Definition after_free d own v : role :=
  if v =? d then RFree
  else match own v with
       | RTab d' _ => if d' =? d then RFree else own v
       | RUser d' n => if d' =? d then (if 4 <=? n then RFree else ROther) else own v
       | _ => own v
       end.

Lemma freevm_nolock_spec s own d : world s own -> own d = RDir ->
  (forall p, p ∈ ptab s -> state p <> UNUSED -> pgdir p <> d) ->
  exists s' own', freevm_nolock d s = Done tt s' /\ world s' own' /\ ctl s' = ctl s /\
    (forall v, own' v = after_free d own v) /\
    (forall x, calm d (fun v => exists n, own v = RUser d n /\ 4 <= n) own (pg x) -> mem s' x = mem s x).
Proof.
  intros Hw Hd Hpr. destruct (w_dir s own Hw d Hd) as (Hokd & _ & Hnz).
  destruct (deallocuvm_nolock_spec s own d KERNBASE 0 Hw Hd) as (r & s1 & own1 & E1 & _ & [Hw1 Hd1 Hk1 Hp1 Hr1]); [lia|vconsts; lia|].
  destruct (freept_loop_spec d (Z.to_nat NPDENTRIES) 0 s1 own1 Hw1 Hd1) as (s2 & own2 & E2 & [Hw2 Hr2 Hm2 Hc2]); [lia|done|].
  assert (Hct : ctl s2 = ctl s) by (rewrite Hc2; apply Hk1).
  assert (Hd2 : own2 d = RDir) by (rewrite Hr2; by apply dropped_dir).
  assert (Hno : forall v, match own2 v with RTab d' _ | RUser d' _ => d' <> d | _ => True end).
  { intros v. rewrite Hr2. unfold dropped. destruct (own1 v) as [| |d' j|d' n|] eqn:E; try done.
    - destruct (Z.eqb_spec d' d) as [->|]; [|done]. apply (w_tab _ _ Hw1) in E. rewrite (proj2 (Z.leb_le 0 j)) by lia. done.
    - destruct (Z.eqb_spec d' d) as [->|]; [|done]. apply (w_user _ _ Hw1) in E.
      rewrite (proj2 (Z.leb_le 0 (n / 1024))) by vlia. done. }
  assert (Hw3 : world s2 (zupd own2 d ROther)).
  { apply drop_dir; try done; [intros v i E; by specialize (Hno v); rewrite E in Hno|intros v n E; by specialize (Hno v); rewrite E in Hno|].
    replace (ptab s2) with (ptab s) by (by injection Hct). done. }
  destruct (vkfree_world s2 (zupd own2 d ROther) d Hw3 (zupd_eq _ _ _) Hokd) as (s3 & E3 & Hw4 & Hc3 & Hm3).
  exists s3, (zupd (zupd own2 d ROther) d RFree). split_and!.
  - unfold freevm_nolock. rewrite (proj2 (Z.eqb_neq d 0)) by done. unfold kbind. by rewrite E1, E2.
  - done.
  - congruence.
  - intros v. rewrite zupd_twice. unfold after_free, zupd. destruct (Z.eqb_spec v d) as [->|Hne]; [done|].
    rewrite Hr2. unfold dropped. rewrite Hr1. unfold unmapped. destruct (own v) as [| |d' j|d' n|] eqn:E; try done.
    + destruct (Z.eqb_spec d' d) as [->|]; [|done]. apply (w_tab _ _ Hw) in E. by rewrite (proj2 (Z.leb_le 0 j)) by lia.
    + destruct (Z.eqb_spec d' d) as [->|Hdd]; cbn [andb]; [|by rewrite (proj2 (Z.eqb_neq d' d))].
      apply (w_user _ _ Hw) in E. change ((0 + 4095) / PGSIZE) with 0. change ((KERNBASE + 4095) / PGSIZE) with UPAGES.
      rewrite (proj2 (Z.leb_le 0 n)), (proj2 (Z.ltb_lt n UPAGES)) by lia. cbn [andb].
      destruct (4 <=? n); [done|]. rewrite Z.eqb_refl, (proj2 (Z.leb_le 0 (n / 1024))) by vlia. done.
  - intros x Hx. pose proof Hx as (Hf & Hxd & Hxt & HX). rewrite Hm3, Hm2; [| | |done].
    + apply (k_mem _ _ _ _ _ _ Hk1). split_and!; [done..|]. intros (n & Hn & Hu). apply HX. exists n. split; [done|]. zcases_in Hn; lia.
    + done.
    + intros i E. rewrite Hr1 in E. unfold unmapped in E. specialize (Hxt i). repeat case_match; congruence.
Qed.

(** ** The kernel half *)

(** The size of an entry of [kmap], and what makes it mappable. *)
Definition ksize (ki : nat) (k : kmap_entry) : Z :=
  if (ki =? 2)%nat then ptop phystop -u phys_start k else phys_end k -u phys_start k.
Definition kfirst (k : kmap_entry) : Z := virt k / PGSIZE.
Definition klast (ki : nat) (k : kmap_entry) : Z := (virt k + ksize ki k - 1) / PGSIZE.
Record kentry_ok (ki : nat) (k : kmap_entry) : Prop := {
  ke_virt : KERNBASE <= virt k;
  ke_size : 1 <= ksize ki k;
  ke_top : virt k + ksize ki k <= 2 ^ 32;
  ke_frames : forall j, 0 <= j < klast ki k - kfirst k + 1 -> frame_addr (phys_start k + j * PGSIZE);
  ke_perm : flags (perm k);
}.
Fixpoint kentries_ok (ki : nat) (l : list kmap_entry) : Prop :=
  match l with [] => True | k :: l' => kentry_ok ki k /\ kentries_ok (S ki) l' end.

(** The entry of the page [n] after the mappings of [l]. *)
Fixpoint kmap_pte (l : list kmap_entry) (ki : nat) (old n : Z) : Z :=
  match l with
  | [] => old
  | k :: l' =>
      kmap_pte l' (S ki)
        (if (kfirst k <=? n) && (n <=? klast ki k) then new_pte old (phys_start k + (n - kfirst k) * PGSIZE) (perm k) else old) n
  end.

Lemma map_kernel s own d ki k : world s own -> own d = RDir -> kentry_ok ki k ->
  exists r s' own', mappages_nolock d (virt k) (ksize ki k) (phys_start k) (perm k) s = Done r s' /\
    world s' own' /\ own' d = RDir /\ keeps d none s own s' own' /\ claims d own own' /\
    (forall n, 0 <= n < UPAGES -> pte_at (mem s') d n = pte_at (mem s) d n) /\
    (r = -1 \/ r = 0 /\ forall n, 0 <= n < 2 ^ 20 -> pte_at (mem s') d n =
       if (kfirst k <=? n) && (n <=? klast ki k) then new_pte (pte_at (mem s) d n) (phys_start k + (n - kfirst k) * PGSIZE) (perm k)
       else pte_at (mem s) d n).
Proof.
  intros Hw Hd [Hv Hs Ht Hf Hp].
  assert (Hlo : UPAGES <= kfirst k) by (unfold kfirst; vlia).
  assert (Hno : forall v, ~ taken s d (kfirst k) (klast ki k - kfirst k + 1) (phys_start k) v).
  { intros v (j & Hj & Hu & _). lia. }
  destruct (mappages_nolock_spec d (virt k) (ksize ki k) (phys_start k) (perm k) s own Hw Hd Hp)
    as (r & s' & own' & j & E & Hm & Hr); [vlia|done|done| |].
  { intros j Hj. split; [by apply Hf|]. intros Hu. unfold kfirst in Hlo. lia. }
  fold (kfirst k) in Hm, Hr. fold (klast ki k) in Hm, Hr. destruct Hm as [Hw' Hd' Hk Hc _ Hpt _].
  exists r, s', own'. split_and!; try done.
  - eapply keeps_weaken; [|exact Hk]. intros v. apply Hno.
  - intros n Hn. rewrite Hpt by vlia. zcases; done || lia.
  - destruct Hr as [[-> ->]|[-> _]]; [right|by left]. split; [done|]. intros n Hn. rewrite Hpt by done. zcases; done || lia.
Qed.

Lemma kmap_loop_spec d : forall l ki s own, kentries_ok ki l -> world s own -> own d = RDir ->
  (forall p, p ∈ ptab s -> state p <> UNUSED -> pgdir p <> d) ->
  exists r s', kmap_loop l ki d (ptop phystop) s = Done r s' /\ exists own1 s1, world s1 own1 /\ own1 d = RDir /\
    keeps d none s own s1 own1 /\ claims d own own1 /\
    (forall n, 0 <= n < UPAGES -> pte_at (mem s1) d n = pte_at (mem s) d n) /\
    ((r = d /\ s' = s1 /\ forall n, 0 <= n < 2 ^ 20 -> pte_at (mem s') d n = kmap_pte l ki (pte_at (mem s) d n) n) \/
     (r = 0 /\ ctl s' = ctl s /\ (exists own', world s' own' /\ forall v, own' v = after_free d own1 v) /\
      forall x, calm d (fun v => exists n, own1 v = RUser d n /\ 4 <= n) own1 (pg x) -> mem s' x = mem s1 x)).
Proof.
  induction l as [|k l IH]; intros ki s own Hok Hw Hd Hpr; cbn [kmap_loop].
  { exists d, s. split; [done|]. exists own, s. split_and!; try done; [intros v; apply claim_refl|left; done]. }
  destruct Hok as [Hk Hok]. destruct (map_kernel s own d ki k Hw Hd Hk) as (r & s1 & own1 & E & Hw1 & Hd1 & Hk1 & Hc1 & Hu1 & Hr).
  unfold kbind. fold (ksize ki k). rewrite E.
  assert (Hpr1 : forall p, p ∈ ptab s1 -> state p <> UNUSED -> pgdir p <> d).
  { pose proof (k_ctl _ _ _ _ _ _ Hk1) as [= -> _ _ _]. done. }
  destruct Hr as [->|[-> Hp1]].
  - destruct (freevm_nolock_spec s1 own1 d Hw1 Hd1 Hpr1) as (s2 & own2 & E2 & Hw2 & Hc2 & Hr2 & Hm2).
    exists 0, s2. split; [cbn [Z.ltb Z.compare]; by rewrite E2|]. exists own1, s1. split_and!; try done. right. split_and!; try done.
    + rewrite Hc2. apply Hk1.
    + by exists own2.
  - destruct (IH (S ki) s1 own1 Hok Hw1 Hd1 Hpr1) as (r & s2 & E2 & own3 & s3 & Hw3 & Hd3 & Hk3 & Hc3 & Hu3 & Hr3).
    exists r, s2. split; [exact E2|]. exists own3, s3. split_and!; try done.
    + by eapply keeps_trans.
    + by eapply claims_trans.
    + intros n Hn. by rewrite Hu3, Hu1.
    + destruct Hr3 as [(-> & -> & Hp3)|(-> & Hc4 & Hrest)]; [left|right; split_and!; try done; [rewrite Hc4; apply Hk1|tauto..]].
      split_and!; [done..|]. intros n Hn. rewrite Hp3 by done. cbn [kmap_pte]. by rewrite Hp1.
Qed.

Lemma new_dir s own d : world s own -> own d = ROther -> page_ok end_ phystop d -> (forall x, pg x = d -> mem s x = 0) ->
  world s (zupd own d RDir) /\ forall n, 0 <= n < 2 ^ 20 -> pte_at (mem s) d n = 0.
Proof.
  intros Hw Hd Hok Hz.
  assert (Hpd : forall j, 0 <= j < 1024 -> pde_of (mem s) d j = 0).
  { intros j Hj. unfold pde_of. rewrite (agree_ld32 (fun _ => 0) (mem s) d j); [done|apply Hok|done|]. intros x Hx. by apply Hz. }
  assert (Hpt : forall n, 0 <= n < 2 ^ 20 -> pte_at (mem s) d n = 0).
  { intros n Hn. unfold pte_at. by rewrite Hpd by vlia. }
  split; [|done].
  assert (Hsame : forall v r, r <> RDir -> r <> ROther -> zupd own d RDir v = r <-> own v = r).
  { intros v r H1 H2. unfold zupd. destruct (Z.eqb_spec v d) as [->|]; [|done]. split; congruence. }
  assert (Hdir : forall d', zupd own d RDir d' = RDir <-> own d' = RDir \/ d' = d).
  { intros d'. unfold zupd. destruct (Z.eqb_spec d' d) as [->|]; tauto. }
  constructor.
  - destruct (w_free _ _ Hw) as (F & HF & HFo). exists F. split; [done|]. intros v. by rewrite HFo, Hsame.
  - intros v. unfold zupd. destruct (Z.eqb_spec v d) as [->|]; [done|]. apply (w_pages _ _ Hw).
  - intros v d' i. rewrite Hsame, Hdir, (w_tab _ _ Hw) by done. split; [tauto|]. intros ([?| ->] & Hi & He); [done|].
    rewrite Hpd in He by done. by destruct He.
  - intros v d' n. rewrite Hsame, Hdir, (w_user _ _ Hw) by done. split; [tauto|]. intros ([?| ->] & Hn & He); [done|].
    rewrite Hpt in He by vlia. by destruct He.
  - intros p Hin Hs Hpd'. apply Hdir. left. by apply (w_procs _ _ Hw).
Qed.

Lemma kmap_ok : kentries_ok 0 kmap.
Proof.
  pose proof Hend. pose proof Hptop. pose proof Hdata as [Hd1 Hd2].
  assert (E1 : v2p data_ = data_ - KERNBASE) by (unfold v2p; rewrite u32_small; vlia).
  unfold kmap. cbn [kentries_ok]. split_and!; [..|done]; constructor; cbn [virt phys_start phys_end perm]; unfold klast, kfirst, ksize;
    cbn [virt phys_start phys_end perm Nat.eqb]; try (split; done); unfold DEVSPACE; try change (v2p KERNLINK) with 0x100000;
    try change (u32 (EXTMEM - 0)) with 0x100000; try change (u32 (0 - 0xF0000000)) with 0x10000000;
    rewrite ?E1, ?u32_small by vlia; try vlia; intros j Hj; split; vlia.
Qed.

Lemma setupkvm_impl_spec s own : world s own ->
  exists r s' own', setupkvm_impl s = Done r s' /\ world s' own' /\ ctl s' = ctl s /\
    ((r = 0 /\ (forall v, own' v = own v) /\ forall x, own (pg x) <> RFree -> mem s' x = mem s x) \/
     (r <> 0 /\ own r = RFree /\ own' r = RDir /\ keeps r none s own s' own' /\ (forall v, v <> r -> claim r (own v) (own' v)) /\
      forall n, 0 <= n < 2 ^ 20 -> pte_at (mem s') r n = kmap_pte kmap 0 0 n)).
Proof.
  intros Hw. unfold setupkvm_impl.
  destruct (new_page s own (fun _ _ => 0) Hw) as (d & s1 & E & Em & Ec & [[-> Hw1]|(Hnz & Hf & Hok & Hw2 & Hk2 & _ & Hz)]).
  { exists 0, s1, own. unfold kbind. rewrite E. split_and!; try done. left. split_and!; try done. by rewrite Em. }
  set (s2 := set_mem (store (mem s1) d PGSIZE (fun _ => 0)) s1) in *.
  destruct (new_dir s2 _ d Hw2 (zupd_eq _ _ _) Hok Hz) as [Hw3 Hp3].
  assert (Hpr : forall p, p ∈ ptab s2 -> state p <> UNUSED -> pgdir p <> d).
  { intros p Hin Hs E'. change (ptab s2) with (ptab s1) in Hin. injection Ec as Ept _ _ _. rewrite Ept in Hin.
    assert (pgdir p <> 0) by congruence. pose proof (w_procs _ _ Hw p Hin Hs) as Ho. rewrite E' in Ho. rewrite Ho in Hf; [done|congruence]. }
  assert (Hd3 : zupd (zupd own d ROther) d RDir d = RDir) by apply zupd_eq.
  destruct (kmap_loop_spec d kmap 0 s2 _ kmap_ok Hw3 Hd3 Hpr) as (r & s' & E4 & own4 & s4 & Hw4 & Hd4 & Hk4 & Hc4 & Hu4 & Hr).
  assert (Hrun : (pgdir <- vkalloc ;; if pgdir =? 0 then kret 0
    else upd_mem (fun m => fill m pgdir 0 PGSIZE) ;;
         (if DEVSPACE <? p2v (ptop phystop) then vkfree pgdir ;; panic "phystop too high"
          else if ptop phystop <=? v2p data_ then vkfree pgdir ;; panic "kmap2 bad phystop"
          else kmap_loop kmap 0 pgdir (ptop phystop))) s = Done r s').
  { unfold kbind at 1. rewrite E. rewrite (proj2 (Z.eqb_neq d 0)) by done. unfold kbind at 1, upd_mem, kmodify.
    pose proof Hend. pose proof Hptop. pose proof Hdata as [Hd1' Hd2'].
    assert (E1 : v2p data_ = data_ - KERNBASE) by (unfold v2p; rewrite u32_small; vlia).
    assert (E2 : p2v (ptop phystop) = ptop phystop + KERNBASE) by (unfold p2v; rewrite u32_small; vlia).
    rewrite E1, E2, (proj2 (Z.ltb_ge _ _)) by (unfold DEVSPACE; vlia).
    rewrite (proj2 (Z.leb_gt _ _)) by vlia. exact E4. }
  assert (Hk24 : keeps d none s own s4 own4).
  { eapply keeps_trans; [|exact Hk4]. destruct (Hk2 d) as [H1 H2 H3]. constructor; [|done..].
    intros v Hv. rewrite zupd_ne by apply Hv. by apply H1. }
  assert (Hcl : forall v, v <> d -> claim d (own v) (own4 v)).
  { intros v Hne. specialize (Hc4 v). by rewrite !zupd_ne in Hc4. }
  exists r, s'. destruct Hr as [(-> & -> & Hp)|(-> & Hc' & (own' & Hw' & Hr') & Hm')].
  - exists own4. split_and!; [exact Hrun|done|apply Hk24|]. right. split_and!; try done.
    intros n Hn. by rewrite Hp, Hp3.
  - exists own'. split_and!; [exact Hrun|done|by rewrite Hc'|]. left. split; [done|].
    assert (Hnu : forall v n, own4 v <> RUser d n).
    { intros v n (_ & Hn & He & _)%(w_user _ _ Hw4). rewrite Hu4, Hp3 in He by vlia. done. }
    split.
    + intros v. rewrite Hr'. unfold after_free. destruct (Z.eqb_spec v d) as [->|Hne]; [done|].
      destruct (decide (own v = RFree)) as [Hvf|Hvn].
      * rewrite Hvf. destruct (Hcl v Hne) as (_ & B & _). destruct (B Hvf) as [->|[i ->]]; [done|by rewrite Z.eqb_refl].
      * assert (Hcv : calm d none own v).
        { split_and!; [done|done| |tauto]. intros i (Hdd & _)%(w_tab _ _ Hw). congruence. }
        rewrite (k_role _ _ _ _ _ _ Hk24 v Hcv). destruct (own v) as [| |d' i|d' n|] eqn:Ev; try done.
        -- destruct (Z.eqb_spec d' d) as [->|]; [|done]. apply (w_tab _ _ Hw) in Ev as [? _]. congruence.
        -- destruct (Z.eqb_spec d' d) as [->|]; [|done]. apply (w_user _ _ Hw) in Ev as [? _]. congruence.
    + intros x Hx. assert (Hcv : calm d none own (pg x)).
      { split_and!; [done|congruence| |tauto]. intros i (Hdd & _)%(w_tab _ _ Hw). congruence. }
      rewrite Hm'; [by apply (k_mem _ _ _ _ _ _ Hk24)|].
      destruct (keeps_calm _ _ _ _ _ _ _ Hk24 Hcv) as (H1 & H2 & H3 & _). split_and!; [done..|].
      intros (n & Hn & _). by apply (Hnu _ n) in Hn.
Qed.

(** ** Copying *)

(** The copy is given up: everything is as before, but the pages of [lost] are
    not free any more. *)
Record given_up (lost : list Z) s own s' own' : Prop := {
  u_world : world s' own';
  u_used : forall v, own v <> RFree -> own' v = own v;
  u_free : forall v, own v = RFree -> own' v = RFree \/ v ∈ lost;
  u_mem : forall x, own (pg x) <> RFree -> mem s' x = mem s x;
  u_ctl : ctl s' = ctl s;
}.

(** The roles before the child [d] was created, from those after. *)
Definition without d own v : role :=
  if v =? d then RFree else match own v with RTab d' _ => if d' =? d then RFree else own v | _ => own v end.

Lemma free_child s own s1 own1 d lost : world s own -> own d = RDir -> (forall v n, own v <> RUser d n) ->
  world s1 own1 -> own1 d = RDir -> keeps d none s own s1 own1 ->
  (forall p, p ∈ ptab s -> state p <> UNUSED -> pgdir p <> d) ->
  (forall v i, own v = RTab d i -> own1 v = RTab d i) ->
  (forall v, own v = RFree -> own1 v = RFree \/ (exists i, own1 v = RTab d i) \/ (exists n, own1 v = RUser d n) \/ v ∈ lost) ->
  exists s' own', freevm_nolock d s1 = Done tt s' /\
    given_up (lost ++ map (fun n => frame (pte_at (mem s1) d n)) [0; 1; 2; 3]) s (without d own) s' own' .
Proof.
  intros Hw Hd Hnu Hw1 Hd1 Hk1 Hpr Htab Hfree.
  assert (Hpr1 : forall p, p ∈ ptab s1 -> state p <> UNUSED -> pgdir p <> d).
  { pose proof (k_ctl _ _ _ _ _ _ Hk1) as [= -> _ _ _]. done. }
  destruct (freevm_nolock_spec s1 own1 d Hw1 Hd1 Hpr1) as (s' & own' & E & Hw' & Hc' & Hr' & Hm').
  assert (Hcalm : forall v, without d own v <> RFree -> calm d none own v /\ without d own v = own v).
  { intros v. unfold without. destruct (Z.eqb_spec v d) as [->|Hne]; [done|]. intros Hv. destruct (own v) as [| |d' i|d' n|] eqn:Ev; try done.
    - split; [|done]. split_and!; try congruence; tauto.
    - destruct (Z.eqb_spec d' d) as [->|]; [done|]. split; [|done]. split_and!; try congruence; tauto.
    - split; [|done]. split_and!; try congruence; tauto.
    - split; [|done]. split_and!; try congruence; tauto. }
  exists s', own'. split; [done|]. constructor; [done| | | |].
  - intros v Hv. destruct (Hcalm v Hv) as [Hc Ew]. pose proof (k_role _ _ _ _ _ _ Hk1 v Hc) as Eo.
    rewrite Hr', Ew. unfold after_free. rewrite Eo, (proj2 (Z.eqb_neq v d)) by apply Hc.
    destruct Hc as (_ & _ & Ht & _). destruct (own v) as [| |d' i|d' n|] eqn:Ev; try done.
    + destruct (Z.eqb_spec d' d) as [->|]; [by destruct (Ht i)|done].
    + destruct (Z.eqb_spec d' d) as [->|]; [by destruct (Hnu v n)|done].
  - intros v Hv. rewrite Hr'. unfold after_free. unfold without in Hv. destruct (Z.eqb_spec v d) as [_|Hne]; [by left|].
    assert (Hcase : own v = RFree \/ exists i, own v = RTab d i).
    { destruct (own v) as [| |d' i| |]; try done; [by left|]. destruct (Z.eqb_spec d' d) as [->|]; [right; eauto|done]. }
    destruct Hcase as [Hf|[i Ht]]; [|left; by rewrite (Htab v i Ht), Z.eqb_refl].
    destruct (Hfree v Hf) as [E1|[[i E1]|[[n E1]|Hl]]].
    + left. by rewrite E1.
    + left. by rewrite E1, Z.eqb_refl.
    + rewrite E1, Z.eqb_refl. destruct (Z.leb_spec 4 n); [by left|]. right. apply elem_of_app. right.
      apply (w_user _ _ Hw1) in E1 as (_ & Hn & _ & <-). apply list_elem_of_In, in_map_iff. exists n. split; [done|].
      assert (n = 0 \/ n = 1 \/ n = 2 \/ n = 3) by lia. simpl. lia.
    + right. apply elem_of_app. by left.
  - intros x Hx. destruct (Hcalm _ Hx) as [Hc Ew]. rewrite Hm'; [by apply (k_mem _ _ _ _ _ _ Hk1)|].
    destruct (keeps_calm _ _ _ _ _ _ _ Hk1 Hc) as (H1 & H2 & H3 & _). split_and!; [done..|].
    intros (n & Hn & _). rewrite (k_role _ _ _ _ _ _ Hk1 _ Hc) in Hn. by apply Hnu in Hn.
  - rewrite Hc'. apply Hk1.
Qed.

(** The byte [o] of the page [n] of a directory. *)
Definition page_byte (m : Z -> Z) d n (o : Z) : Z := m (frame (pte_at m d n) + o).

Section Copy.
Context (s : vm) (own : Z -> role) (Hw : world s own) (pgdir d sz : Z).
Context (Hpg : own pgdir = RDir) (Hd : own d = RDir) (Hne : pgdir <> d) (Hsz : 0 <= sz < KERNBASE).
Context (Hnu : forall v n, own v <> RUser d n).
Context (Hpr : forall p, p ∈ ptab s -> state p <> UNUSED -> Proc.pgdir p <> d).
Context (Hpt : forall n, 0 <= n < (sz + 4095) / PGSIZE -> present (pte_at (mem s) pgdir n) = true).

(** One turn of the loop, on a page that is there. *)
Lemma copy_turn (k : nat) n s1 own1 : world s1 own1 -> own1 pgdir = RDir -> 0 <= n -> n * PGSIZE < sz ->
  present (pte_at (mem s1) pgdir n) = true ->
  copy_loop (S k) pgdir d sz (n * PGSIZE) s1 =
  (mem_ <- vkalloc ;;
   if mem_ =? 0 then freevm_nolock d ;; kret 0
   else upd_mem (fun m => store m mem_ PGSIZE (fun i => m (frame (pte_at (mem s1) pgdir n) + i))) ;;
        r <- mappages_nolock d (n * PGSIZE) PGSIZE (v2p mem_) user_perm ;;
        if r <? 0 then freevm_nolock d ;; kret 0 else copy_loop k pgdir d sz ((n + 1) * PGSIZE)) s1.
Proof.
  clear Hpt Hnu Hpr. intros Hw1 Hpg1 Hn Hlt Hpe. assert (En : n * PGSIZE / PGSIZE = n) by (apply Z.div_mul; done).
  assert (Hpd : present (pde_of (mem s1) pgdir (n / 1024)) = true).
  { unfold pte_at in Hpe. by destruct (present (pde_of (mem s1) pgdir (n / 1024))). }
  assert (Hea : entry_addr (mem s1) pgdir n <> 0).
  { destruct (w_table s1 own1 Hw1 pgdir (n / 1024) Hpg1) as (_ & Hok & _); [vlia|done|]. apply page_range in Hok. unfold entry_addr. vlia. }
  cbn [copy_loop]. rewrite (proj2 (Z.ltb_lt _ _) Hlt). cbn [negb]. unfold kbind at 1. rewrite (walk_false s1 own1) by (done || vlia).
  rewrite En, Hpd. fold (entry_addr (mem s1) pgdir n). rewrite (proj2 (Z.eqb_neq _ 0) Hea). unfold kbind at 1, load32, kgets.
  replace (ld32 (mem s1) (entry_addr (mem s1) pgdir n)) with (pte_at (mem s1) pgdir n) by (unfold pte_at; by rewrite Hpd).
  rewrite Hpe. replace (n * PGSIZE +u PGSIZE) with ((n + 1) * PGSIZE) by (rewrite u32_small; vlia). done.
Qed.

Lemma copy_loop_spec : forall (k : nat) n s1 own1, 0 <= n -> (sz + 4095) / PGSIZE - n <= Z.of_nat k ->
  n <= (sz + 4095) / PGSIZE -> grown d 0 n (page_byte (mem s) pgdir) s own s1 own1 ->
  exists r s' own', copy_loop k pgdir d sz (n * PGSIZE) s1 = Done r s' /\
    ((r = d /\ grown d 0 ((sz + 4095) / PGSIZE) (page_byte (mem s) pgdir) s own s' own') \/
     (r = 0 /\ exists lost, (length lost <= 5)%nat /\ given_up lost s (without d own) s' own')).
Proof.
  induction k as [|k IH]; intros n s1 own1 Hn Hk Hle Hg;
    (destruct (Z.ltb_spec (n * PGSIZE) sz) as [Hlt|Hge];
      [|exists d, s1, own1; cbn [copy_loop]; rewrite (proj2 (Z.ltb_ge _ _) Hge); split; [done|left; split; [done|];
        by replace ((sz + 4095) / PGSIZE) with n by vlia]]).
  { exfalso. vlia. }
  assert (Hn' : 0 <= n < UPAGES) by vlia. assert (Hnh : n < (sz + 4095) / PGSIZE) by vlia.
  pose proof Hg as [Hw1 Hd1 Hk1 Hs1 Ho1 Hnw1].
  destruct (keeps_other d none s own s1 own1 pgdir Hw Hk1) as (Hpg1 & _ & Hpte1 & Hby1); [by left|tauto|done|done|].
  assert (He : pte_at (mem s1) pgdir n = pte_at (mem s) pgdir n) by (apply Hpte1; vlia).
  rewrite (copy_turn k n s1 own1) by (done || rewrite ?He; apply Hpt; lia). rewrite He.
  destruct (w_frame s own Hw pgdir n Hpg Hn') as (Hfo & [Hfm _] & _); [apply Hpt; lia|].
  assert (Hap : present (pte_at (mem s1) d n) = false).
  { rewrite Ho1 by (vlia || lia). apply not_true_is_false. intros Hp. destruct (w_frame s own Hw d n Hd Hn' Hp) as [Ho _]. by apply Hnu in Ho. }
  assert (Htab1 : forall v i, own v = RTab d i -> own1 v = RTab d i).
  { intros v i Hv. destruct (Hs1 v) as (_ & _ & C1). rewrite (C1 i); done. }
  assert (Hfr1 : forall v, own v = RFree -> own1 v = RFree \/ (exists i, own1 v = RTab d i) \/ (exists n, own1 v = RUser d n)).
  { intros v Hv. destruct (Hs1 v) as (_ & B1 & _). destruct (B1 Hv) as [?|[?|(m & _ & ?)]]; eauto. }
  destruct (add_page s1 own1 d n (fun m i => m (frame (pte_at (mem s) pgdir n) + i)) (freevm_nolock d ;; kret 0) (fun _ => freevm_nolock d ;; kret 0)
    (copy_loop k pgdir d sz ((n + 1) * PGSIZE)) Hw1 Hd1 Hn' Hap)
    as [(s2 & -> & Hw2 & Em & Ec)|(v & s2 & own2 & Hv & Hok & Hw2 & Hd2 & Hs2 & Hk2 & [(-> & Hv2 & Hp2)|(-> & Hv2 & Hc2 & Hp2)])].
  - destruct (free_child s own s2 own1 d [] Hw Hd Hnu Hw2 Hd1) as (s3 & own3 & E3 & Hgu); try done.
    { destruct Hk1 as [H1 H2 H3]. constructor; [done|by rewrite Em|by rewrite Ec]. }
    { intros w Hwf. destruct (Hfr1 w Hwf) as [?|[?|?]]; auto. }
    exists 0, s3, own3. split; [unfold kbind; by rewrite E3|]. right. split; [done|]. eexists. split; [|exact Hgu]. simpl. lia.
  - destruct (free_child s own s2 own2 d [v] Hw Hd Hnu Hw2 Hd2) as (s3 & own3 & E3 & Hgu); try done.
    { by eapply keeps_trans. }
    { intros w i Hwi. pose proof (Htab1 w i Hwi) as E1. destruct (Hs2 w) as (_ & _ & C2); [congruence|]. by rewrite (C2 i). }
    { intros w Hwf. destruct (decide (w = v)) as [->|Hnv]; [right; right; right; set_solver|].
      destruct (Hs2 w Hnv) as (_ & B2 & C2). destruct (Hfr1 w Hwf) as [E1|[[i E1]|[m E1]]].
      - destruct (B2 E1); auto.
      - right. left. exists i. by rewrite (C2 i).
      - right. right. left. exists m. rewrite (k_role _ _ _ _ _ _ Hk2); [done|]. split_and!; [congruence..|tauto]. }
    exists 0, s3, own3. split; [unfold kbind; by rewrite E3|]. right. split; [done|]. eexists. split; [|exact Hgu]. simpl. lia.
  - apply (IH (n + 1) s2 own2); [lia|lia|lia|]. eapply (grown_snoc d 0 n _ s own s1 own1 s2 own2 v); try done; try lia.
    intros x Hx. rewrite Hc2 by done. unfold page_byte. apply (Hby1 _ n).
    rewrite pg_in; [done|done|]. apply pg_iff in Hx; [|apply Hok]. vconsts. lia.
Qed.
End Copy.

End VmOps.
