(* ===== verification/VmSafe.v ===== *)
(** * kernel/vm.c: user access, and what the address spaces guarantee

    [uva2ka] and [copyout], then the properties of the operations: the
    invariant they preserve, the address space [fork] copies, what [freevm]
    gives back. *)

From Stdlib Require Import ZArith Lia.
From S2P Require Import Prelude Spinlock Kalloc Proc Vm VmOps.

(** A user may access the page [n]. *)
Definition accessible (m : Z -> Z) (d n : Z) : bool := present (pte_at m d n) && negb (Z.land (pte_at m d n) PTE_U =? 0).
(** The kernel address of the byte at the user address [va]. *)
Definition uaddr (m : Z -> Z) (d va : Z) : Z := frame (pte_at m d (va / PGSIZE)) + va mod PGSIZE.

Section VmSafe.
Context {L : Layout} {LO : LayoutOk}.
Implicit Types (s : vm) (own : Z -> role) (d v n i : Z).

(** ** Copying to user space *)

Lemma uva2ka_spec s own d va : world s own -> own d = RDir -> 0 <= va < KERNBASE ->
  uva2ka d va s = Done (if accessible (mem s) d (va / PGSIZE) then frame (pte_at (mem s) d (va / PGSIZE)) else 0) s.
Proof.
  intros Hw Hd Hva. assert (Hn : 0 <= va / PGSIZE < UPAGES) by vlia. unfold uva2ka, kbind. rewrite (walk_false s own) by (done || vlia).
  unfold accessible. destruct (present (pde_of (mem s) d (va / PGSIZE / 1024))) eqn:Ep.
  - destruct (w_table s own Hw d (va / PGSIZE / 1024) Hd) as (_ & Hok & _); [vlia|done|]. apply page_range in Hok.
    rewrite (proj2 (Z.eqb_neq _ 0)) by vlia. unfold load32, kgets. fold (entry_addr (mem s) d (va / PGSIZE)).
    replace (ld32 (mem s) (entry_addr (mem s) d (va / PGSIZE))) with (pte_at (mem s) d (va / PGSIZE)) by (unfold pte_at; by rewrite Ep).
    destruct (present (pte_at (mem s) d (va / PGSIZE))) eqn:Epp; [|done]. cbn [negb andb].
    destruct (Z.land _ PTE_U =? 0); [done|]. cbn [negb].
    destruct (w_frame s own Hw d _ Hd Hn Epp) as (_ & _ & ->). done.
  - rewrite Z.eqb_refl. unfold pte_at. by rewrite Ep.
Qed.

(** [k] bytes of [p] are at [va], nothing else changed. *)
Record copied d va (p : Z -> Z) k s own s' : Prop := {
  c_world : world s' own;
  c_ctl : ctl s' = ctl s;
  c_access : forall i, 0 <= i < k -> accessible (mem s) d ((va + i) / PGSIZE) = true;
  c_bytes : forall i, 0 <= i < k -> mem s' (uaddr (mem s) d (va + i)) = p i;
  c_other : forall x, (forall i, 0 <= i < k -> x <> uaddr (mem s) d (va + i)) -> mem s' x = mem s x;
  c_pte : forall n, 0 <= n < 2 ^ 20 -> pte_at (mem s') d n = pte_at (mem s) d n;
}.

Lemma uaddr_inj s own d a b : world s own -> own d = RDir -> 0 <= a < KERNBASE -> 0 <= b < KERNBASE ->
  accessible (mem s) d (a / PGSIZE) = true -> accessible (mem s) d (b / PGSIZE) = true ->
  uaddr (mem s) d a = uaddr (mem s) d b -> a = b.
Proof.
  intros Hw Hd Ha Hb Aa Ab E. unfold accessible in *. apply andb_true_iff in Aa as [Aa _], Ab as [Ab _].
  destruct (w_frame s own Hw d (a / PGSIZE) Hd) as (Fa & [Ma _] & _); [vlia|done|].
  destruct (w_frame s own Hw d (b / PGSIZE) Hd) as (Fb & [Mb _] & _); [vlia|done|].
  unfold uaddr in E.
  assert (Ef : frame (pte_at (mem s) d (a / PGSIZE)) = frame (pte_at (mem s) d (b / PGSIZE))).
  { rewrite <- (pg_in _ (a mod PGSIZE) Ma), E by (vconsts; dlia). rewrite (pg_in _ (b mod PGSIZE) Mb) by (vconsts; dlia). done. }
  rewrite Ef in Fa. assert (a / PGSIZE = b / PGSIZE) by congruence. vlia.
Qed.

(** One page of the copy. *)
Lemma copy_chunk s own d va (p : Z -> Z) k : world s own -> own d = RDir -> 0 <= va -> 0 < k ->
  va mod PGSIZE + k <= PGSIZE -> va + k <= KERNBASE -> accessible (mem s) d (va / PGSIZE) = true ->
  copied d va p k s own (set_mem (store (mem s) (uaddr (mem s) d va) k p) s).
Proof.
  intros Hw Hd Hva Hk Hin Htop Ha. pose proof Ha as [Hp _]%andb_true_iff.
  destruct (w_frame s own Hw d (va / PGSIZE) Hd) as (Hf & [Hm _] & _); [vlia|done|].
  assert (Ediv : forall i, 0 <= i < k -> (va + i) / PGSIZE = va / PGSIZE /\ (va + i) mod PGSIZE = va mod PGSIZE + i).
  { intros i Hi. split; vlia. }
  assert (Eu : forall i, 0 <= i < k -> uaddr (mem s) d (va + i) = uaddr (mem s) d va + i).
  { intros i Hi. unfold uaddr. destruct (Ediv i Hi) as [-> ->]. lia. }
  assert (Hpage : forall x, uaddr (mem s) d va <= x < uaddr (mem s) d va + k -> pg x = frame (pte_at (mem s) d (va / PGSIZE))).
  { intros x Hx. apply pg_iff; [done|]. unfold uaddr in Hx. vlia. }
  assert (Hag : forall v, is_pt (own v) = true -> agree (mem s) (store (mem s) (uaddr (mem s) d va) k p) v).
  { intros v Hv x Hx. apply store_other. intros Hr. apply Hpage in Hr. rewrite <- Hx, Hr, Hf in Hv. done. }
  constructor; cbn [mem set_mem].
  - by apply world_mem.
  - done.
  - intros i Hi. by destruct (Ediv i Hi) as [-> _].
  - intros i Hi. rewrite Eu, store_in by lia. f_equal. lia.
  - intros x Hx. apply store_other. intros Hr. apply (Hx (x - uaddr (mem s) d va)); [lia|]. rewrite Eu by lia. lia.
  - intros n Hn. apply (w_agree s own Hw _ d Hd); [apply Hag; by rewrite Hd| |done]. intros v i Hv. apply Hag. by rewrite Hv.
Qed.

Lemma copied_pte d va p k s own s' va' : copied d va p k s own s' -> 0 <= va' < KERNBASE ->
  accessible (mem s') d (va' / PGSIZE) = accessible (mem s) d (va' / PGSIZE) /\ uaddr (mem s') d va' = uaddr (mem s) d va'.
Proof. intros Hc Hva. unfold accessible, uaddr. by rewrite (c_pte _ _ _ _ _ _ _ Hc) by vlia. Qed.

Lemma copied_trans d va (p : Z -> Z) k k' s own s1 s2 : world s own -> own d = RDir -> 0 <= va -> 0 <= k -> 0 <= k' -> va + k + k' <= KERNBASE ->
  copied d va p k s own s1 -> copied d (va + k) (fun i => p (i + k)) k' s1 own s2 -> copied d va p (k + k') s own s2.
Proof.
  intros Hw Hd Hva Hk Hk' Htop H1 H2.
  assert (Hpt : forall i, 0 <= i < k + k' -> accessible (mem s1) d ((va + i) / PGSIZE) = accessible (mem s) d ((va + i) / PGSIZE) /\
    uaddr (mem s1) d (va + i) = uaddr (mem s) d (va + i)) by (intros i Hi; eapply copied_pte; [exact H1|lia]).
  destruct H1 as [Hw1 Hc1 Ha1 Hb1 Ho1 Hp1], H2 as [Hw2 Hc2 Ha2 Hb2 Ho2 Hp2].
  assert (Hacc : forall i, 0 <= i < k + k' -> accessible (mem s) d ((va + i) / PGSIZE) = true).
  { intros i Hi. destruct (decide (i < k)); [apply Ha1; lia|]. rewrite <- (proj1 (Hpt i Hi)).
    replace (va + i) with (va + k + (i - k)) by lia. apply Ha2. lia. }
  constructor; [done|by rewrite Hc2|done| | |intros n Hn; by rewrite Hp2, Hp1].
  - intros i Hi. destruct (decide (i < k)) as [Hlt|Hge].
    + rewrite Ho2; [apply Hb1; lia|]. intros j Hj Heq. replace (va + k + j) with (va + (k + j)) in Heq by lia.
      rewrite (proj2 (Hpt (k + j) ltac:(lia))) in Heq.
      apply (uaddr_inj s own d _ _ Hw Hd) in Heq; [lia|lia|lia|apply Hacc; lia|apply Hacc; lia].
    + replace (va + i) with (va + k + (i - k)) by lia. specialize (Hpt i Hi) as [_ Eu].
      replace (va + i) with (va + k + (i - k)) in Eu by lia. rewrite <- Eu, Hb2 by lia. f_equal. lia.
  - intros x Hx. rewrite Ho2; [apply Ho1; intros i Hi; apply Hx; lia|]. intros j Hj. replace (va + k + j) with (va + (k + j)) by lia.
    rewrite (proj2 (Hpt (k + j) ltac:(lia))). apply Hx. lia.
Qed.

Lemma copied_none d va p s own : world s own -> copied d va p 0 s own s.
Proof. intros. constructor; done || (intros; lia). Qed.

Lemma copied_ext d va (p q : Z -> Z) k s own s' : (forall i, 0 <= i < k -> p i = q i) -> copied d va p k s own s' -> copied d va q k s own s'.
Proof. intros E [H1 H2 H3 H4 H5 H6]. constructor; try done. intros i Hi. rewrite H4 by done. by apply E. Qed.

Lemma copyout_loop_spec own d : forall (n : nat) va (p : Z -> Z) len s, world s own -> own d = RDir -> 0 <= va -> 0 <= len -> va + len <= KERNBASE ->
  (va mod PGSIZE + len + PGSIZE - 1) / PGSIZE <= Z.of_nat n ->
  exists r s' k, copyout_loop n d va p len s = Done r s' /\ 0 <= k <= len /\ copied d va p k s own s' /\
    (r = 0 /\ k = len \/ r = -1 /\ k < len /\ accessible (mem s) d ((va + k) / PGSIZE) = false).
Proof.
  induction n as [|n IH]; intros va p len s Hw Hd Hva Hlen Htop Hn; cbn [copyout_loop];
    (destruct (Z.ltb_spec 0 len) as [Hpos|Hz]; cbn [negb];
      [|exists 0, s, 0; split; [done|]; split; [lia|]; split; [by apply copied_none|left; lia]]).
  { exfalso. vlia. }
  rewrite pgrounddown_spec by vlia. set (va0 := va / 4096 * 4096).
  assert (E0 : va0 / PGSIZE = va / PGSIZE) by (unfold va0; vlia).
  unfold kbind at 1. rewrite (uva2ka_spec s own) by (done || unfold va0; vlia). rewrite E0.
  destruct (accessible (mem s) d (va / PGSIZE)) eqn:Ea.
  2:{ exists (-1), s, 0. rewrite Z.eqb_refl, Z.add_0_r. split; [done|]. split; [lia|]. split; [by apply copied_none|right]. split; [done|]. split; [lia|done]. }
  pose proof Ea as [Hp _]%andb_true_iff. destruct (w_frame s own Hw d (va / PGSIZE) Hd) as (_ & Hok & _); [vlia|done|].
  apply page_range in Hok. rewrite (proj2 (Z.eqb_neq _ 0)) by vlia.
  assert (Eo : va -u va0 = va mod PGSIZE) by (rewrite u32_small; unfold va0; vlia).
  rewrite Eo. replace (PGSIZE -u va mod PGSIZE) with (PGSIZE - va mod PGSIZE) by (rewrite u32_small; vlia).
  set (k := if len <? PGSIZE - va mod PGSIZE then len else PGSIZE - va mod PGSIZE).
  assert (Hk : 0 < k <= len /\ va mod PGSIZE + k <= PGSIZE /\ (k < len -> va mod PGSIZE + k = PGSIZE)) by (unfold k; zcases; vlia).
  destruct Hk as ((Hk1 & Hk2) & Hk3 & Hk4). fold (uaddr (mem s) d va).
  pose proof (copy_chunk s own d va p k Hw Hd Hva Hk1 Hk3 ltac:(lia) Ea) as Hc.
  set (s1 := set_mem (store (mem s) (uaddr (mem s) d va) k p) s) in *.
  unfold kbind, upd_mem, kmodify. fold (uaddr (mem s) d va). fold s1.
  replace (len -u k) with (len - k) by (rewrite u32_small; vlia). destruct (decide (k = len)) as [El|Hne].
  { exists 0, s1, len. rewrite El, Z.sub_diag in *. split; [by destruct n|]. split; [lia|]. split; [done|by left]. }
  replace (va0 +u PGSIZE) with (va + k) by (rewrite u32_small; unfold va0; vlia).
  destruct (IH (va + k) (fun i => p (i + k)) (len - k) s1 (c_world _ _ _ _ _ _ _ Hc) Hd) as (r & s2 & k' & E & Hk' & Hc2 & Hr);
    [lia|lia|lia|vlia|].
  exists r, s2, (k + k'). split; [exact E|]. split; [lia|]. split; [eapply copied_trans; try done; lia|].
  destruct Hr as [[-> ->]|(-> & Hlt & Hna)]; [left; split; [done|lia]|right]. split; [done|]. split; [lia|].
  rewrite <- Hna. replace (va + (k + k')) with (va + k + k') by lia. symmetry. eapply (copied_pte d va p k s own s1); [done|lia].
Qed.

(** ** The lock *)

Lemma world_lock s own b : world s own -> world (set_held tt b s) own.
Proof. intros [H1 H2 H3 H4 H5]. by constructor. Qed.

(** Running with the lock held. *)
Lemma locked {A} (m : K vm A) s (P : A -> vm -> Prop) : setupkvm_lock s = false ->
  (exists r s', m (set_held tt true s) = Done r s' /\ ctl s' = ctl (set_held tt true s) /\ P r (set_held tt false s')) ->
  exists r s', (setupkvm_lock_acquire ;; r <- m ;; setupkvm_lock_release ;; kret r) s = Done r s' /\ ctl s' = ctl s /\ P r s'.
Proof.
  intros Hl (r & s' & E & Hc & HP). exists r, (set_held tt false s'). split_and!; [|destruct s, s'; unfold ctl in *; simpl in *; congruence|done].
  unfold setupkvm_lock_acquire, setupkvm_lock_release, acquire, release, kbind, kget, kput, kmodify. simpl in *.
  rewrite Hl. rewrite E. injection Hc as _ Hh _ _. by rewrite Hh.
Qed.

(** ** [clearpteu] *)

Lemma clear_u e : 0 <= e < 2 ^ 32 ->
  0 <= Z.land e (u32 (Z.lnot PTE_U)) < 2 ^ 32 /\ present (Z.land e (u32 (Z.lnot PTE_U))) = present e /\
  PTE_ADDR (Z.land e (u32 (Z.lnot PTE_U))) = PTE_ADDR e /\ Z.land (Z.land e (u32 (Z.lnot PTE_U))) PTE_U = 0.
Proof.
  intros He. split_and!.
  - apply Z.land_nonneg. lia.
  - replace e with (Z.land e (Z.ones 32)) by (rewrite Z.land_ones by lia; by apply Z.mod_small).
    rewrite <- Z.land_assoc, (Z.land_comm (Z.ones 32)), Z.land_assoc, Z.land_ones by lia. by apply Z.mod_pos_bound.
  - unfold present. rewrite <- Z.land_assoc. done.
  - unfold PTE_ADDR. rewrite <- Z.land_assoc. done.
  - rewrite <- Z.land_assoc. change (Z.land (u32 (Z.lnot PTE_U)) PTE_U) with 0. apply Z.land_0_r.
Qed.

Lemma clearpteu_spec s own d va : world s own -> own d = RDir -> 0 <= va < KERNBASE ->
  present (pde_of (mem s) d (va / PGSIZE / 1024)) = true ->
  exists s', clearpteu d va s = Done tt s' /\ world s' own /\ ctl s' = ctl s /\
    forall n, 0 <= n < 2 ^ 20 -> pte_at (mem s') d n =
      if n =? va / PGSIZE then Z.land (pte_at (mem s) d n) (u32 (Z.lnot PTE_U)) else pte_at (mem s) d n.
Proof.
  intros Hw Hd Hva Hp. set (n := va / PGSIZE) in *. assert (Hn : 0 <= n < 2 ^ 20) by (unfold n; vlia).
  destruct (w_table s own Hw d (n / 1024) Hd) as (_ & Hok & _); [vlia|done|]. apply page_range in Hok.
  destruct (clear_u (pte_at (mem s) d n) (pte_range _ _ _)) as (Hr & Ep & Ea & _).
  set (w := Z.land (pte_at (mem s) d n) (u32 (Z.lnot PTE_U))) in *.
  exists (set_mem (st32 (mem s) (entry_addr (mem s) d n) w) s). split_and!; [|..|done|].
  - unfold clearpteu, kbind. rewrite (walk_false s own) by (done || vlia). fold n. rewrite Hp.
    fold (entry_addr (mem s) d n). rewrite (proj2 (Z.eqb_neq _ 0)) by (unfold entry_addr; vlia). unfold load32, kgets.
    replace (ld32 (mem s) (entry_addr (mem s) d n)) with (pte_at (mem s) d n) by (unfold pte_at; by rewrite Hp). done.
  - apply (se_world s own Hw d n w Hd Hn Hp Hr own); [by left| |].
    + intros v. rewrite (w_user _ _ Hw), Ep. unfold frame. rewrite Ea. split; [intros (_ & ? & ? & ?)|intros (? & ? & ?)]; split_and!; done || lia.
    + intros v Hv. apply (w_pages _ _ Hw). congruence.
  - intros n' Hn'. cbn [mem set_mem]. rewrite (se_pte s own Hw d n w Hd Hn Hp Hr) by done.
    destruct (Z.eqb_spec n' n) as [->|]; done.
Qed.

(** ** The invariant of all operations *)

Inductive vmop :=
  | OpSetup
  | OpAlloc (d oldsz newsz : Z)
  | OpDealloc (d oldsz newsz : Z)
  | OpCopy (d sz : Z)
  | OpFree (d : Z)
  | OpCopyout (d va : Z) (p : Z -> Z) (len : Z)
  | OpClear (d va : Z)
  | OpTable (l : list proc).

Definition exec (op : vmop) : K vm Z :=
  match op with
  | OpSetup => setupkvm
  | OpAlloc d o n => allocuvm d o n
  | OpDealloc d o n => deallocuvm d o n
  | OpCopy d sz => copyuvm d sz
  | OpFree d => freevm d ;; kret 0
  | OpCopyout d va p len => copyout d va p len
  | OpClear d va => clearpteu d va ;; kret 0
  | OpTable l => kmodify (fun s => {| pages := pages s; mem := mem s; ptab := l; setupkvm_lock := setupkvm_lock s;
      kpgdir := kpgdir s; cr3 := cr3 s |}) ;; kret 0
  end.

(** What the callers in proc.c and exec.c take care of. *)
Definition legal s own (op : vmop) : Prop :=
  match op with
  | OpSetup => True
  | OpAlloc d o n => own d = RDir /\ 0 <= o < 2 ^ 32 /\ 0 <= n < 2 ^ 32 /\
      (n < KERNBASE -> forall k, (o + 4095) / PGSIZE <= k < (n + 4095) / PGSIZE -> present (pte_at (mem s) d k) = false)
  | OpDealloc d o n => own d = RDir /\ 0 <= o <= KERNBASE /\ 0 <= n
  | OpCopy d sz => own d = RDir /\ 0 <= sz < 2 ^ 32 /\
      (sz < KERNBASE -> forall k, 0 <= k < (sz + 4095) / PGSIZE -> present (pte_at (mem s) d k) = true)
  | OpFree d => own d = RDir /\ forall p, p ∈ ptab s -> state p <> UNUSED -> pgdir p <> d
  | OpCopyout d va p len => own d = RDir /\ 0 <= va /\ 0 <= len /\ va + len <= KERNBASE
  | OpClear d va => own d = RDir /\ 0 <= va < KERNBASE /\ present (pde_of (mem s) d (va / PGSIZE / 1024)) = true
  | OpTable l => forall p, p ∈ l -> state p <> UNUSED -> pgdir p <> 0 -> own (pgdir p) = RDir
  end.

(** ** The copy of an address space *)

Lemma kmap_pte_user l : forall ki old n, kentries_ok ki l -> n < UPAGES -> kmap_pte l ki old n = old.
Proof.
  induction l as [|k l IH]; intros ki old n Hok Hn; [done|]. destruct Hok as [[Hv _ _ _ _] Hok]. cbn [kmap_pte].
  rewrite (proj2 (Z.leb_gt (kfirst k) n)) by (unfold kfirst; vlia). cbn [andb]. by apply IH.
Qed.

(** The directory [d] holds a copy of the pages of [pgdir] below [sz]; what was
    in use is untouched. *)
Record child s own s' own' pgdir d sz : Prop := {
  ch_fresh : own d = RFree;
  ch_dir : own' d = RDir;
  ch_role : forall v, own v <> RFree -> own' v = own v;
  ch_mem : forall x, own (pg x) <> RFree -> mem s' x = mem s x;
  ch_page : forall n, 0 <= n < (sz + 4095) / PGSIZE -> exists v, own v = RFree /\ own' v = RUser d n /\
    pte_at (mem s') d n = user_pte v /\ forall o, 0 <= o < PGSIZE -> mem s' (v + o) = page_byte (mem s) pgdir n o;
  ch_rest : forall n, (sz + 4095) / PGSIZE <= n < 2 ^ 20 -> pte_at (mem s') d n = kmap_pte kmap 0 0 n;
}.

Section Fork.
Context (s : vm) (own : Z -> role) (Hw : world s own) (s2 : vm) (own2 : Z -> role) (d : Z).
Context (Hw2 : world s2 own2) (Hf : own d = RFree) (Hd2 : own2 d = RDir) (Hk2 : keeps d none s own s2 own2).
Context (Hc2 : forall v, v <> d -> claim d (own v) (own2 v)).
Context (Hp2 : forall n, 0 <= n < 2 ^ 20 -> pte_at (mem s2) d n = kmap_pte kmap 0 0 n).

Lemma used_calm v : own v <> RFree -> calm d none own v.
Proof.
  intros Hv. split_and!; [done|congruence| |tauto]. intros i (Hdd & _)%(w_tab _ _ Hw). congruence.
Qed.

Lemma without_child v : without d own2 v = own v.
Proof.
  unfold without. destruct (Z.eqb_spec v d) as [->|Hne]; [done|]. destruct (decide (own v = RFree)) as [Hv|Hv].
  - destruct (Hc2 v Hne) as (_ & B & _). destruct (B Hv) as [->|[i ->]]; [done|]. by rewrite Z.eqb_refl.
  - rewrite (k_role _ _ _ _ _ _ Hk2 v (used_calm v Hv)). destruct (own v) as [| |d' i| |] eqn:Ev; try done.
    destruct (Z.eqb_spec d' d) as [->|]; [|done]. apply (w_tab _ _ Hw) in Ev as [? _]. congruence.
Qed.

Lemma fresh_no_user v n : own2 v <> RUser d n.
Proof.
  intros (_ & Hn & He & _)%(w_user _ _ Hw2). rewrite Hp2, kmap_pte_user in He by (apply kmap_ok || vlia). done.
Qed.

Lemma fresh_not_live p : p ∈ ptab s2 -> state p <> UNUSED -> pgdir p <> d.
Proof.
  pose proof (k_ctl _ _ _ _ _ _ Hk2) as [= -> _ _ _]. intros Hin Hs E. pose proof (w_procs _ _ Hw p Hin Hs) as Ho.
  assert (Hnz : d <> 0) by (apply (w_dir s2 own2 Hw2 d Hd2)). rewrite E in Ho. rewrite Ho in Hf; done.
Qed.

Lemma fork_child s3 own3 pgdir sz : 0 <= sz < KERNBASE -> own pgdir = RDir ->
  (forall n, 0 <= n < (sz + 4095) / PGSIZE -> present (pte_at (mem s) pgdir n) = true) ->
  grown d 0 ((sz + 4095) / PGSIZE) (page_byte (mem s2) pgdir) s2 own2 s3 own3 -> child s own s3 own3 pgdir d sz.
Proof.
  intros Hsz Hpg Hpt [Hw3 Hd3 Hk3 Ht3 Ho3 Hn3].
  assert (Hpne : pgdir <> d) by congruence.
  destruct (keeps_other d none s own s2 own2 pgdir Hw Hk2) as (_ & _ & Hpte & Hby); [right; by left|tauto|done|done|].
  assert (Hk : keeps d none s own s3 own3) by (by eapply keeps_trans).
  constructor; try done.
  - intros v Hv. by apply (k_role _ _ _ _ _ _ Hk), used_calm.
  - intros x Hx. by apply (k_mem _ _ _ _ _ _ Hk), used_calm.
  - intros n Hn. assert (Hn' : 0 <= n < UPAGES) by vlia. destruct (Hn3 n Hn) as (v & Hv & Hv3 & Hok & Ep & Hc). exists v.
    split_and!; [|done|done|].
    + destruct (decide (v = d)) as [->|Hne]; [done|]. by apply (Hc2 v Hne).
    + intros o Ho. rewrite Hc by (apply pg_in; [apply Hok|done]). replace (v + o - v) with o by lia. unfold page_byte.
      rewrite Hpte by vlia. apply (Hby _ n). destruct (w_frame s own Hw pgdir n Hpg Hn') as (Ho' & [Hm _] & _); [by apply Hpt|].
      by rewrite pg_in.
  - intros n Hn. rewrite Ho3, Hp2 by vlia. done.
Qed.

Lemma fork_failed lost s3 own3 : given_up lost s2 (without d own2) s3 own3 -> given_up lost s own s3 own3.
Proof.
  intros [H1 H2 H3 H4 H5]. constructor; [done| | | |rewrite H5; apply Hk2].
  - intros v Hv. rewrite H2; rewrite without_child; done.
  - intros v Hv. apply H3. by rewrite without_child.
  - intros x Hx. rewrite H4 by (by rewrite without_child). by apply (k_mem _ _ _ _ _ _ Hk2), used_calm.
Qed.
End Fork.

Lemma given_up_none s own s' own' : world s' own' -> ctl s' = ctl s -> (forall v, own' v = own v) ->
  (forall x, own (pg x) <> RFree -> mem s' x = mem s x) -> given_up [] s own s' own'.
Proof. intros Hw Hc Ho Hm. constructor; try done. intros v Hv. left. by rewrite Ho. Qed.

(** The part of [copyuvm] under the lock. *)
Definition copy_body (pgdir sz : Z) : K vm Z :=
  d <- setupkvm_impl ;;
  if d =? 0 then kret 0 else copy_loop (Z.to_nat (sz / PGSIZE + 1)) pgdir d sz 0.

Lemma copyuvm_unfold pgdir sz s : sz < KERNBASE ->
  copyuvm pgdir sz s = (setupkvm_lock_acquire ;; r <- copy_body pgdir sz ;; setupkvm_lock_release ;; kret r) s.
Proof.
  intros Hsz. unfold copyuvm, copy_body. rewrite (proj2 (Z.leb_gt _ _)) by done.
  unfold setupkvm_lock_acquire, setupkvm_lock_release, kbind. destruct (acquire tt s) as [[] s1| |]; [|done..].
  destruct (setupkvm_impl s1) as [d s2| |]; [|done..]. by destruct (d =? 0).
Qed.

Lemma copy_body_spec s own pgdir sz : world s own -> own pgdir = RDir -> 0 <= sz < KERNBASE ->
  (forall n, 0 <= n < (sz + 4095) / PGSIZE -> present (pte_at (mem s) pgdir n) = true) ->
  exists r s' own', copy_body pgdir sz s = Done r s' /\ world s' own' /\ ctl s' = ctl s /\
    ((r = 0 /\ exists lost, (length lost <= 5)%nat /\ given_up lost s own s' own') \/
     (r <> 0 /\ child s own s' own' pgdir r sz)).
Proof.
  intros Hw Hpg Hsz Hpt. unfold copy_body.
  destruct (setupkvm_impl_spec s own Hw) as (d & s2 & own2 & E2 & Hw2 & Hc2 & [(-> & Ho2 & Hm2)|(Hnz & Hf & Hd2 & Hk2 & Hcl2 & Hp2)]).
  { exists 0, s2, own2. unfold kbind. rewrite E2. split_and!; try done. left. split; [done|]. exists []. split; [simpl; lia|].
    by apply given_up_none. }
  assert (Hpne : pgdir <> d) by congruence.
  destruct (keeps_other d none s own s2 own2 pgdir Hw Hk2) as (Hpg2 & _ & Hpte & _); [right; by left|tauto|done|done|].
  destruct (copy_loop_spec s2 own2 Hw2 pgdir d sz Hpg2 Hd2 Hpne Hsz) with (k := Z.to_nat (sz / PGSIZE + 1)) (n := 0) (s1 := s2) (own1 := own2)
    as (r & s3 & own3 & E3 & Hr); try (lia || vlia).
  { intros v n. by apply (fresh_no_user s2 own2 d Hw2 Hp2). }
  { intros p. by apply (fresh_not_live s own Hw s2 own2 d Hw2 Hf Hd2 Hk2). }
  { intros n Hn. rewrite Hpte by vlia. by apply Hpt. }
  { by apply grown_refl. }
  exists r, s3, own3. rewrite Z.mul_0_l in E3. split; [unfold kbind; rewrite E2, (proj2 (Z.eqb_neq d 0)) by done; exact E3|].
  destruct Hr as [[-> Hg]|(-> & lost & Hl & Hgu)].
  - split_and!; [apply Hg|rewrite (k_ctl _ _ _ _ _ _ (g_keeps _ _ _ _ _ _ _ _ Hg)); apply Hk2|right].
    split; [done|]. by eapply (fork_child s own Hw s2 own2 d).
  - assert (Hgu' : given_up lost s own s3 own3) by (eapply (fork_failed s own Hw s2 own2 d); done).
    split_and!; [apply Hgu'|apply Hgu'|left]. split; [done|]. by exists lost.
Qed.

(** Roles, bytes and entries do not depend on the lock. *)
Lemma child_lock b c s own s' own' pgdir d sz :
  child (set_held tt b s) own s' own' pgdir d sz -> child s own (set_held tt c s') own' pgdir d sz.
Proof. intros [H1 H2 H3 H4 H5 H6]. by constructor. Qed.
Lemma given_up_lock b s own s' own' lost : setupkvm_lock s = false ->
  given_up lost (set_held tt b s) own s' own' -> given_up lost s own (set_held tt false s') own'.
Proof.
  intros Hl [H1 H2 H3 H4 H5]. constructor; try done; [by apply world_lock|].
  destruct s, s'; unfold ctl in *; simpl in *; congruence.
Qed.

Lemma copyuvm_spec s own pgdir sz : world s own -> setupkvm_lock s = false -> own pgdir = RDir -> 0 <= sz < 2 ^ 32 ->
  (sz < KERNBASE -> forall n, 0 <= n < (sz + 4095) / PGSIZE -> present (pte_at (mem s) pgdir n) = true) ->
  exists r s' own', copyuvm pgdir sz s = Done r s' /\ world s' own' /\ ctl s' = ctl s /\
    ((r = 0 /\ exists lost, (length lost <= 5)%nat /\ given_up lost s own s' own') \/
     (r <> 0 /\ sz < KERNBASE /\ child s own s' own' pgdir r sz)).
Proof.
  intros Hw Hl Hpg Hsz Hpt. destruct (decide (sz < KERNBASE)) as [Hlt|Hge].
  2:{ exists 0, s, own. unfold copyuvm. rewrite (proj2 (Z.leb_le _ _)) by lia. split_and!; try done. left. split; [done|].
      exists []. split; [simpl; lia|]. by apply given_up_none. }
  destruct (copy_body_spec (set_held tt true s) own pgdir sz (world_lock _ _ _ Hw) Hpg ltac:(lia) (Hpt Hlt)) as (r & s' & own' & E & Hw' & Hc' & Hr).
  destruct (locked (copy_body pgdir sz) s (fun r s1 => world s1 own' /\
    ((r = 0 /\ exists lost, (length lost <= 5)%nat /\ given_up lost s own s1 own') \/
     (r <> 0 /\ sz < KERNBASE /\ child s own s1 own' pgdir r sz))) Hl) as (r1 & s1 & E1 & Hc1 & Hw1 & Hr1).
  { exists r, s'. split_and!; [done..|by apply world_lock|]. destruct Hr as [(-> & lost & Hll & Hg)|(Hnz & Hch)]; [left|right].
    - split; [done|]. exists lost. split; [done|]. by eapply given_up_lock.
    - split_and!; [done..|]. by eapply child_lock. }
  exists r1, s1, own'. rewrite copyuvm_unfold by done. done.
Qed.

(** ** The other operations under the lock *)

Lemma keeps_lock d X b s own s' own' : setupkvm_lock s = false ->
  keeps d X (set_held tt b s) own s' own' -> keeps d X s own (set_held tt false s') own'.
Proof. intros Hl [H1 H2 H3]. constructor; [done..|]. destruct s, s'; unfold ctl in *; simpl in *; congruence. Qed.

Lemma setupkvm_spec s own : world s own -> setupkvm_lock s = false ->
  exists r s' own', setupkvm s = Done r s' /\ world s' own' /\ ctl s' = ctl s /\
    ((r = 0 /\ (forall v, own' v = own v) /\ forall x, own (pg x) <> RFree -> mem s' x = mem s x) \/
     (own r = RFree /\ own' r = RDir /\ keeps r none s own s' own' /\
      forall n, 0 <= n < 2 ^ 20 -> pte_at (mem s') r n = kmap_pte kmap 0 0 n)).
Proof.
  intros Hw Hl. destruct (setupkvm_impl_spec (set_held tt true s) own (world_lock _ _ _ Hw)) as (r & s' & own' & E & Hw' & Hc' & Hr).
  destruct (locked setupkvm_impl s (fun r s1 => world s1 own' /\
    ((r = 0 /\ (forall v, own' v = own v) /\ forall x, own (pg x) <> RFree -> mem s1 x = mem s x) \/
     (own r = RFree /\ own' r = RDir /\ keeps r none s own s1 own' /\
      forall n, 0 <= n < 2 ^ 20 -> pte_at (mem s1) r n = kmap_pte kmap 0 0 n))) Hl) as (r1 & s1 & E1 & Hc1 & Hw1 & Hr1).
  { exists r, s'. split_and!; [done..|by apply world_lock|]. destruct Hr as [Hr|(_ & H1 & H2 & H3 & _ & H4)]; [by left|right].
    split_and!; [done..| |done]. by eapply keeps_lock. }
  by exists r1, s1, own'.
Qed.

Lemma grown_lock d lo hi C b s own s' own' : setupkvm_lock s = false ->
  grown d lo hi C (set_held tt b s) own s' own' -> grown d lo hi C s own (set_held tt false s') own'.
Proof. intros Hl [H1 H2 H3 H4 H5 H6]. constructor; try done; [by apply world_lock|by eapply keeps_lock]. Qed.
Lemma backed_out_lock d lo hi b s own s' own' : setupkvm_lock s = false ->
  backed_out d lo hi (set_held tt b s) own s' own' -> backed_out d lo hi s own (set_held tt false s') own'.
Proof. intros Hl [H1 H2 H3 H4 H5 H6]. constructor; try done; [by apply world_lock|by eapply keeps_lock]. Qed.
Lemma freed_lock d R b s own s' own' : setupkvm_lock s = false ->
  freed d R (set_held tt b s) own s' own' -> freed d R s own (set_held tt false s') own'.
Proof. intros Hl [H1 H2 H3 H4 H5]. constructor; try done; [by apply world_lock|by eapply keeps_lock]. Qed.

Lemma allocuvm_spec s own d oldsz newsz : world s own -> setupkvm_lock s = false -> own d = RDir ->
  0 <= oldsz < 2 ^ 32 -> 0 <= newsz < 2 ^ 32 ->
  let lo := (oldsz + 4095) / PGSIZE in let hi := (newsz + 4095) / PGSIZE in
  (newsz < KERNBASE -> forall n, lo <= n < hi -> present (pte_at (mem s) d n) = false) ->
  exists r s' own', allocuvm d oldsz newsz s = Done r s' /\ world s' own' /\ ctl s' = ctl s /\
    if KERNBASE <=? newsz then r = 0 /\ grown d lo lo (fun _ _ => 0) s own s' own'
    else if newsz <? oldsz then r = oldsz /\ grown d lo lo (fun _ _ => 0) s own s' own'
    else (r = newsz /\ grown d lo hi (fun _ _ => 0) s own s' own') \/ (r = 0 /\ backed_out d lo hi s own s' own').
Proof.
  intros Hw Hl Hd Ho Hn lo hi Hab.
  destruct (allocuvm_nolock_spec (set_held tt true s) own d oldsz newsz (world_lock _ _ _ Hw) Hd Ho Hn Hab) as (r & s' & E & Hr). fold lo hi in Hr.
  assert (Hex : exists own', world s' own' /\ ctl s' = ctl (set_held tt true s) /\
    if KERNBASE <=? newsz then r = 0 /\ grown d lo lo (fun _ _ => 0) s own (set_held tt false s') own'
    else if newsz <? oldsz then r = oldsz /\ grown d lo lo (fun _ _ => 0) s own (set_held tt false s') own'
    else (r = newsz /\ grown d lo hi (fun _ _ => 0) s own (set_held tt false s') own') \/
         (r = 0 /\ backed_out d lo hi s own (set_held tt false s') own')).
  { pose proof (grown_refl d lo lo (fun _ _ => 0) (set_held tt true s) own (world_lock _ _ _ Hw) Hd ltac:(lia)) as Hg0.
    apply grown_lock in Hg0; [|done]. pose proof (world_lock _ _ true Hw).
    destruct (KERNBASE <=? newsz); [destruct Hr as [-> ->]; by exists own|].
    destruct (newsz <? oldsz); [destruct Hr as [-> ->]; by exists own|].
    destruct Hr as (own' & [[-> Hg]|[-> Hb]]); exists own'.
    - split_and!; [apply Hg|apply (g_keeps _ _ _ _ _ _ _ _ Hg)|left]. split; [done|]. by eapply grown_lock.
    - split_and!; [apply Hb|apply (b_keeps _ _ _ _ _ _ _ Hb)|right]. split; [done|]. by eapply backed_out_lock. }
  destruct Hex as (own' & Hw' & Hc' & Hr').
  destruct (locked (allocuvm_nolock d oldsz newsz) s (fun r1 s1 => s1 = set_held tt false s' /\ r1 = r) Hl) as (r1 & s1 & E1 & Hc1 & -> & ->).
  { by exists r, s'. }
  exists r, (set_held tt false s'), own'. split_and!; [done|by apply world_lock|done|done].
Qed.

Lemma deallocuvm_spec s own d oldsz newsz : world s own -> setupkvm_lock s = false -> own d = RDir -> 0 <= newsz -> 0 <= oldsz <= KERNBASE ->
  exists s' own', deallocuvm d oldsz newsz s = Done (Z.min oldsz newsz) s' /\ ctl s' = ctl s /\
    freed d (fun m => ((newsz + 4095) / PGSIZE <=? m) && (m <? (oldsz + 4095) / PGSIZE) && (4 <=? m)) s own s' own'.
Proof.
  intros Hw Hl Hd Hn Ho.
  destruct (deallocuvm_nolock_spec (set_held tt true s) own d oldsz newsz (world_lock _ _ _ Hw) Hd Hn Ho) as (r & s' & own' & E & -> & Hf).
  destruct (locked (deallocuvm_nolock d oldsz newsz) s (fun r1 s1 => s1 = set_held tt false s' /\ r1 = Z.min oldsz newsz) Hl)
    as (r1 & s1 & E1 & Hc1 & -> & ->).
  { exists (Z.min oldsz newsz), s'. split_and!; [done|apply (f_keeps _ _ _ _ _ _ Hf)|done|done]. }
  exists (set_held tt false s'), own'. split_and!; [done..|]. by eapply freed_lock.
Qed.

Lemma freevm_spec s own d : world s own -> setupkvm_lock s = false -> own d = RDir ->
  (forall p, p ∈ ptab s -> state p <> UNUSED -> pgdir p <> d) ->
  exists s' own', freevm d s = Done tt s' /\ world s' own' /\ ctl s' = ctl s /\
    (forall v, own' v = after_free d own v) /\
    (forall x, calm d (fun v => exists n, own v = RUser d n /\ 4 <= n) own (pg x) -> mem s' x = mem s x).
Proof.
  intros Hw Hl Hd Hpr. destruct (w_dir s own Hw d Hd) as (_ & _ & Hnz).
  destruct (freevm_nolock_spec (set_held tt true s) own d (world_lock _ _ _ Hw) Hd Hpr) as (s' & own' & E & Hw' & Hc' & Ho' & Hm').
  destruct (locked (freevm_nolock d) s (fun r1 s1 => s1 = set_held tt false s') Hl) as (r1 & s1 & E1 & Hc1 & ->).
  { by exists tt, s'. }
  exists (set_held tt false s'), own'. split_and!; [|by apply world_lock|done..].
  unfold freevm. rewrite (proj2 (Z.eqb_neq d 0)) by done. destruct r1. revert E1. unfold kbind.
  destruct (setupkvm_lock_acquire s) as [[] s2| |]; [|done..]. destruct (freevm_nolock d s2) as [[] s3| |]; [|done..].
  destruct (setupkvm_lock_release s3) as [[] s4| |]; [|done..]. unfold kret. by intros [= ->].
Qed.

(** ** The kernel half of a new address space *)

(** Flags without [PTE_U]: the entry is closed to user code. *)
Lemma kernel_pte pa f : frame_addr pa -> flags f -> Z.land (Z.lor f PTE_P) PTE_U = 0 ->
  present (want_pte pa f) = true /\ PTE_ADDR (want_pte pa f) = pa /\ Z.land (want_pte pa f) PTE_U = 0.
Proof.
  intros Hpa Hf Hu. destruct (want_pte_spec pa f Hpa Hf) as (E & Hg & Ho).
  destruct (entry_spec pa _ Hpa Hg Ho) as (El & _ & Hp & Ha). rewrite E. split_and!; [done..|].
  rewrite <- El, Z.land_lor_distr_l, Hu, Z.lor_0_r. destruct Hpa as [_ Hm].
  replace pa with (Z.shiftl (pa / 4096) 12) by (rewrite Z.shiftl_mul_pow2 by lia; change (2 ^ 12) with 4096; vlia).
  apply Z.bits_inj'. intros i Hi. rewrite Z.land_spec, Z.bits_0, Z.shiftl_spec by done.
  destruct (decide (i < 12)); [by rewrite (Z.testbit_neg_r _ (i - 12)) by lia|].
  change PTE_U with (2 ^ 2). rewrite Z.pow2_bits_false by lia. apply andb_false_r.
Qed.

Lemma kmap_pte_range n :
  let e := kmap_pte kmap 0 0 n in
  (UPAGES <= n <= (KERNBASE + ptop phystop - 1) / PGSIZE ->
   present e = true /\ PTE_ADDR e = (n - UPAGES) * PGSIZE /\ Z.land e PTE_U = 0) /\
  (DEVSPACE / PGSIZE <= n < 2 ^ 20 -> present e = true /\ PTE_ADDR e = n * PGSIZE /\ Z.land e PTE_U = 0).
Proof.
  pose proof Hend. pose proof Hptop. pose proof Hdata as [Hd1 Hd2].
  assert (E1 : v2p data_ = data_ - KERNBASE) by (unfold v2p; rewrite u32_small; vlia).
  assert (Hr : forall ki k lo hi, kfirst k = lo -> klast ki k = hi ->
    (kfirst k <=? n) && (n <=? klast ki k) = bool_decide (lo <= n <= hi)).
  { intros ki k lo hi <- <-. case_bool_decide; zcases; done || lia. }
  assert (Hn0 : forall pa f, new_pte 0 pa f = want_pte pa f) by done.
  unfold kmap. cbn [kmap_pte]. cbv zeta.
  rewrite (Hr 0%nat _ 0x80000 0x800FF), (Hr 1%nat _ 0x80100 (data_ / PGSIZE - 1)),
    (Hr 2%nat _ (data_ / PGSIZE) ((KERNBASE + ptop phystop - 1) / PGSIZE)), (Hr 3%nat _ 0xF0000 0xFFFFF);
    [|unfold kfirst, klast, ksize; cbn [virt phys_start phys_end Nat.eqb]; try reflexivity; unfold DEVSPACE;
      try change (v2p KERNLINK) with 0x100000; rewrite ?E1, ?u32_small by vlia; vlia..].
  unfold kfirst. cbn [virt phys_start perm]. change (v2p KERNLINK) with 0x100000. rewrite E1.
  change (DEVSPACE / PGSIZE) with 0xF0000. change UPAGES with 0x80000. change (KERNLINK / PGSIZE) with 0x80100.
  change (KERNBASE / PGSIZE) with 0x80000.
  split; intros Hn.
  - rewrite (bool_decide_eq_false_2 (0xF0000 <= n <= 0xFFFFF)) by vlia.
    destruct (decide (data_ / PGSIZE <= n)); [|destruct (decide (0x80100 <= n))].
    + rewrite (bool_decide_eq_false_2 (_ <= n <= 0x800FF)), (bool_decide_eq_false_2 (_ <= n <= data_ / PGSIZE - 1)),
        bool_decide_eq_true_2, Hn0 by vlia.
      replace (data_ - KERNBASE + (n - data_ / PGSIZE) * PGSIZE) with ((n - 0x80000) * PGSIZE) by vlia.
      apply kernel_pte; [split; vlia|split; done|done].
    + rewrite (bool_decide_eq_false_2 (_ <= n <= 0x800FF)), (bool_decide_eq_false_2 (data_ / PGSIZE <= n <= _)),
        bool_decide_eq_true_2, Hn0 by vlia.
      replace (0x100000 + (n - 0x80100) * PGSIZE) with ((n - 0x80000) * PGSIZE) by vlia.
      apply kernel_pte; [split; vlia|split; done|done].
    + rewrite (bool_decide_eq_false_2 (_ <= n <= data_ / PGSIZE - 1)), (bool_decide_eq_false_2 (data_ / PGSIZE <= n <= _)),
        bool_decide_eq_true_2, Hn0 by vlia.
      rewrite Z.add_0_l. apply kernel_pte; [split; vlia|split; done|done].
  - rewrite (bool_decide_eq_false_2 (_ <= n <= 0x800FF)), (bool_decide_eq_false_2 (_ <= n <= data_ / PGSIZE - 1)),
      (bool_decide_eq_false_2 (data_ / PGSIZE <= n <= _)), bool_decide_eq_true_2, Hn0 by vlia.
    replace (DEVSPACE + (n - 0xF0000) * PGSIZE) with (n * PGSIZE) by (unfold DEVSPACE; vlia).
    apply kernel_pte; [split; vlia|split; done|done].
Qed.

(** ** Growing over a page that is still mapped *)

Lemma walk_present s own d n al : world s own -> own d = RDir -> 0 <= n < 2 ^ 20 -> present (pde_of (mem s) d (n / 1024)) = true ->
  walkpgdir d (n * PGSIZE) al s = Done (entry_addr (mem s) d n) s.
Proof.
  intros Hw Hd Hn Hp. assert (Hva : 0 <= n * PGSIZE < 2 ^ 32) by vlia. destruct (PDX_spec _ Hva) as [E Hr].
  assert (En : n * PGSIZE / PGSIZE = n) by (apply Z.div_mul; done). rewrite En in E. unfold walkpgdir, kbind, load32, kgets.
  rewrite E in *. rewrite PTX_spec, En by done. fold (pde_of (mem s) d (n / 1024)). rewrite Hp.
  by destruct (w_table s own Hw d _ Hd Hr Hp) as (_ & _ & ->).
Qed.

Lemma map_over_panics s own d n v : world s own -> own d = RDir -> 0 <= n < UPAGES -> present (pte_at (mem s) d n) = true ->
  own v = ROther -> page_ok end_ phystop v ->
  exists s', mappages_nolock d (n * PGSIZE) PGSIZE (v2p v) user_perm s = Panicked "remap" s'.
Proof.
  intros Hw Hd Hn Hp Hv Hok. assert (Hpd : present (pde_of (mem s) d (n / 1024)) = true).
  { unfold pte_at in Hp. by destruct (present (pde_of (mem s) d (n / 1024))). }
  destruct (w_frame s own Hw d n Hd Hn Hp) as (Hf & _ & _). destruct (frame_addr_page v Hok) as [Hfa Hb].
  assert (Hna : PTE_ADDR (pte_at (mem s) d n) <> v2p v).
  { intros E. unfold frame in Hf. rewrite E, Hb in Hf. congruence. }
  assert (Hnw : Z.land (pte_at (mem s) d n) (Z.lnot (Z.lor PTE_A PTE_D)) <> want_pte (v2p v) user_perm).
  { intros E. apply Hna. destruct (new_pte_spec (pte_at (mem s) d n) (v2p v) user_perm (pte_range _ _ _) Hfa) as (_ & _ & Ha); [done|].
    unfold new_pte in Ha. by rewrite Hp, E, Z.eqb_refl in Ha. }
  destruct (w_table s own Hw d (n / 1024) Hd) as (_ & Hokt & _); [vlia|done|]. apply page_range in Hokt.
  exists s. unfold mappages_nolock. rewrite (u32_small (n * PGSIZE + PGSIZE - 1)), !pgrounddown_spec by vlia.
  replace ((n * PGSIZE + PGSIZE - 1) / 4096 * 4096) with (n * PGSIZE) by vlia. replace (n * PGSIZE / 4096 * 4096) with (n * PGSIZE) by vlia.
  rewrite Z.sub_diag. cbn [mappages_loop Z.to_nat Pos.to_nat]. change (Z.to_nat (u32 0 / PGSIZE + 1)) with 1%nat. cbn [mappages_loop].
  unfold kbind. rewrite (walk_present s own) by (done || vlia). rewrite (proj2 (Z.eqb_neq _ 0)) by (unfold entry_addr; vlia).
  unfold load32, kgets. replace (ld32 (mem s) (entry_addr (mem s) d n)) with (pte_at (mem s) d n) by (unfold pte_at; by rewrite Hpd).
  fold (want_pte (v2p v) user_perm). rewrite Hp. unfold remap_entry.
  rewrite (proj2 (Z.eqb_neq _ _) Hnw), (proj2 (Z.eqb_neq _ _) Hna), (proj2 (Z.leb_gt _ _)) by vlia. done.
Qed.

Lemma allocuvm_over_panics s own d oldsz newsz : world s own -> setupkvm_lock s = false -> own d = RDir ->
  0 <= oldsz -> newsz < KERNBASE -> (oldsz + 4095) / PGSIZE * PGSIZE < newsz ->
  present (pte_at (mem s) d ((oldsz + 4095) / PGSIZE)) = true -> (exists v, own v = RFree) ->
  exists s', allocuvm d oldsz newsz s = Panicked "remap" s'.
Proof.
  intros Hw Hl Hd Ho Hn Hlt Hp [w Hwf]. set (n := (oldsz + 4095) / PGSIZE) in *. assert (Hnr : 0 <= n < UPAGES) by (unfold n in *; vlia).
  pose proof (world_lock s own true Hw) as Hw1. set (s1 := set_held tt true s) in *.
  destruct (new_page s1 own (fun _ _ => 0) Hw1) as (v & s2 & E & Em & Ec & Hr).
  assert (Hv : v <> 0).
  { intros ->. destruct (vkalloc_world s1 own Hw1) as (v' & s2' & E' & _ & _ & Hr'). rewrite E in E'. injection E' as <- <-.
    destruct Hr' as [(_ & Hno & _)|(_ & _ & Hnz & _)]; [by apply (Hno w)|done]. }
  destruct Hr as [[-> _]|(_ & Hvf & Hok & Hw2 & _ & Hp2 & _)]; [done|]. cbv zeta in *.
  set (s3 := set_mem (store (mem s2) v PGSIZE (fun _ => 0)) s2) in *.
  assert (Hd3 : zupd own v ROther d = RDir) by (rewrite zupd_ne; congruence).
  destruct (map_over_panics s3 _ d n v Hw2 Hd3 Hnr) as (s4 & E4); [rewrite Hp2; done || vlia|apply zupd_eq|done|].
  exists s4. unfold allocuvm, allocuvm_nolock, setupkvm_lock_acquire, acquire. unfold kbind at 1 2. unfold kget. simpl (held tt s). rewrite Hl.
  unfold kput. fold s1. unfold kbind at 1. rewrite (proj2 (Z.leb_gt _ _)), (proj2 (Z.ltb_ge _ _)) by (unfold n in *; vlia).
  rewrite pgroundup_spec by (unfold n in *; vlia). change 4096 with PGSIZE. fold n.
  replace (Z.to_nat (newsz / PGSIZE + 1)) with (S (Z.to_nat (newsz / PGSIZE))) by (unfold n in *; vlia).
  cbn [alloc_loop]. rewrite (proj2 (Z.ltb_lt _ _)) by done. cbn [negb]. unfold kbind at 1. rewrite E, (proj2 (Z.eqb_neq v 0)) by done.
  unfold kbind, upd_mem, kmodify. fold (fill (mem s2) v 0 PGSIZE). change (fill (mem s2) v 0 PGSIZE) with (store (mem s2) v PGSIZE (fun _ => 0)).
  fold s3. change (Z.lor PTE_W PTE_U) with user_perm. by rewrite E4.
Qed.

(** ** Properties *)

Lemma ctl_lock s s' : ctl s' = ctl s -> setupkvm_lock s = false -> setupkvm_lock s' = false.
Proof. intros [= _ E _ _] Hl. congruence. Qed.


(** C8.  [copyuvm], the address space of [fork]: it returns 0 or a new
    directory whose pages below [sz] are user pages on frames of their own,
    byte for byte the ones of the parent, with nothing mapped from [sz] up to
    the kernel half.  The parent and every other page in use are untouched.
    When it returns 0, at most five pages that were free are lost. *)
Theorem copyuvm_copies s own pgdir sz :
  world s own -> setupkvm_lock s = false -> own pgdir = RDir -> 0 <= sz < 2 ^ 32 ->
  (sz < KERNBASE -> forall n, 0 <= n < (sz + 4095) / PGSIZE -> present (pte_at (mem s) pgdir n) = true) ->
  exists r s' own', copyuvm pgdir sz s = Done r s' /\ world s' own' /\
    (forall v, own v <> RFree -> own' v = own v) /\ (forall x, own (pg x) <> RFree -> mem s' x = mem s x) /\
    ((r = 0 /\ exists lost, (length lost <= 5)%nat /\ forall v, own v = RFree -> own' v = RFree \/ v ∈ lost) \/
     (own r = RFree /\ own' r = RDir /\
      (forall va, 0 <= va < sz -> accessible (mem s') r (va / PGSIZE) = true /\
        own (frame (pte_at (mem s') r (va / PGSIZE))) = RFree /\
        mem s' (uaddr (mem s') r va) = mem s (uaddr (mem s) pgdir va)) /\
      (forall n, (sz + 4095) / PGSIZE <= n < UPAGES -> pte_at (mem s') r n = 0))).
Proof.
  intros Hw Hl Hpg Hsz Hpt.
  destruct (copyuvm_spec s own pgdir sz Hw Hl Hpg Hsz Hpt) as (r & s' & own' & E & Hw' & _ & [(-> & lost & Hll & Hg)|(Hnz & Hlt & Hch)]).
  - exists 0, s', own'. split_and!; [done..|apply Hg|apply Hg|left]. split; [done|]. exists lost. split; [done|]. apply Hg.
  - exists r, s', own'. split_and!; [done..|apply Hch|apply Hch|right]. split_and!; [apply Hch|apply Hch| |].
    + intros va Hva. destruct (ch_page _ _ _ _ _ _ _ Hch (va / PGSIZE)) as (v & Hv & Hv' & Ep & Hb); [vlia|].
      assert (Hok : page_ok end_ phystop v) by (apply (w_pages _ _ Hw'); congruence).
      destruct (user_pte_spec v Hok) as (_ & Hpu & Hfu). unfold accessible, uaddr. rewrite Ep, Hpu, Hfu. split_and!; [|done|].
      * cbn [andb]. unfold user_pte, want_pte, user_perm. rewrite <- Z.lor_assoc, Z.land_lor_distr_l.
        change (Z.land (Z.lor (Z.lor PTE_W PTE_U) PTE_P) PTE_U) with 4. apply negb_true_iff, Z.eqb_neq.
        intros [_ ?]%Z.lor_eq_0_iff. done.
      * rewrite Hb by vlia. done.
    + intros n Hn. rewrite (ch_rest _ _ _ _ _ _ _ Hch) by vlia. apply kmap_pte_user; [apply kmap_ok|lia].
Qed.

(** C35.  What [freevm] gives back: the directory, its page tables and its
    frames become free, except that the frames of the pages below 0x4000 -
    the first four pages of every program - are neither free nor in use any
    more: they are lost.  All other pages keep their role and their bytes. *)
Theorem freevm_loses_low_pages s own d :
  world s own -> setupkvm_lock s = false -> own d = RDir ->
  (forall p, p ∈ ptab s -> state p <> UNUSED -> pgdir p <> d) ->
  exists s' own', freevm d s = Done tt s' /\ world s' own' /\
    (forall v, own' v = after_free d own v) /\
    (forall x, calm d (fun v => exists n, own v = RUser d n /\ 4 <= n) own (pg x) -> mem s' x = mem s x) /\
    (forall n v, 0 <= n < 4 -> own v = RUser d n -> own' v = ROther /\ forall F, free_set end_ phystop (pages s') F -> v ∉ F).
Proof.
  intros Hw Hl Hd Hpr. destruct (freevm_spec s own d Hw Hl Hd Hpr) as (s' & own' & E & Hw' & _ & Ho & Hm).
  exists s', own'. split_and!; [done..|]. intros n v Hn Hv.
  assert (Hv' : own' v = ROther).
  { rewrite Ho. unfold after_free. rewrite (proj2 (Z.eqb_neq v d)) by congruence. rewrite Hv, Z.eqb_refl.
    by rewrite (proj2 (Z.leb_gt 4 n)) by lia. }
  split; [done|]. intros F HF HvF. destruct (w_free _ _ Hw') as (F' & HF' & HFo).
  assert (own' v = RFree); [|congruence]. apply HFo. destruct HF as (l & [Hl1 _] & ->), HF' as (l' & [Hl2 _] & ->).
  apply elem_of_list_to_set. apply elem_of_list_to_set in HvF. apply (inv_free _ _ _ _ Hl2). by apply (inv_free _ _ _ _ Hl1).
Qed.

(** [allocuvm] grows an address space or leaves it as it was.  A new size
    in the kernel half is refused with 0, a smaller one returns the old size,
    both without a change.  Otherwise either every page from the old size to
    the new one is a zeroed user page on a frame that was free, and the new
    size is returned; or memory ran out, 0 is returned, and the pages added so
    far are unmapped again and their frames free, the ones below 0x4000
    excepted.  No other page of any address space changes. *)
Theorem allocuvm_grows s own d oldsz newsz :
  let lo := (oldsz + 4095) / PGSIZE in let hi := (newsz + 4095) / PGSIZE in
  world s own -> setupkvm_lock s = false -> own d = RDir -> 0 <= oldsz < 2 ^ 32 -> 0 <= newsz < 2 ^ 32 ->
  (newsz < KERNBASE -> forall n, lo <= n < hi -> present (pte_at (mem s) d n) = false) ->
  exists r s' own', allocuvm d oldsz newsz s = Done r s' /\ world s' own' /\
    if KERNBASE <=? newsz then r = 0 /\ grown d lo lo (fun _ _ => 0) s own s' own'
    else if newsz <? oldsz then r = oldsz /\ grown d lo lo (fun _ _ => 0) s own s' own'
    else (r = newsz /\ grown d lo hi (fun _ _ => 0) s own s' own') \/ (r = 0 /\ backed_out d lo hi s own s' own').
Proof.
  intros lo hi Hw Hl Hd Ho Hn Hab. destruct (allocuvm_spec s own d oldsz newsz Hw Hl Hd Ho Hn Hab) as (r & s' & own' & E & Hw' & _ & H).
  by exists r, s', own'.
Qed.

(** A new address space ([setupkvm]): it returns 0 and changes no role,
    or a directory on a page that was free, in which no user page is mapped,
    the physical memory up to the limit is mapped at [KERNBASE], the devices
    are mapped one to one, and every kernel page is closed to user code. *)
Theorem setupkvm_maps_the_kernel s own :
  world s own -> setupkvm_lock s = false ->
  exists r s' own', setupkvm s = Done r s' /\ world s' own' /\
    ((r = 0 /\ forall v, own' v = own v) \/
     (own r = RFree /\ own' r = RDir /\ keeps r none s own s' own' /\
      (forall n, 0 <= n < UPAGES -> pte_at (mem s') r n = 0) /\
      (forall n, UPAGES <= n <= (KERNBASE + ptop phystop - 1) / PGSIZE -> present (pte_at (mem s') r n) = true /\
        PTE_ADDR (pte_at (mem s') r n) = (n - UPAGES) * PGSIZE /\ accessible (mem s') r n = false) /\
      (forall n, DEVSPACE / PGSIZE <= n < 2 ^ 20 -> present (pte_at (mem s') r n) = true /\
        PTE_ADDR (pte_at (mem s') r n) = n * PGSIZE /\ accessible (mem s') r n = false))).
Proof.
  intros Hw Hl. pose proof Hptop.
  destruct (setupkvm_spec s own Hw Hl) as (r & s' & own' & E & Hw' & _ & [(-> & Ho & _)|(Hf & Hd & Hk & Hp)]).
  { exists 0, s', own'. split_and!; [done..|]. by left. }
  exists r, s', own'. split_and!; [done..|]. right. unfold accessible. split_and!; [done..| | |].
  - intros n Hn. rewrite Hp by vlia. apply kmap_pte_user; [apply kmap_ok|lia].
  - intros n Hn. rewrite Hp by (pose proof Hend; vlia). destruct (proj1 (kmap_pte_range n) Hn) as (-> & -> & ->). done.
  - intros n Hn. rewrite Hp by (unfold DEVSPACE in Hn; vlia). destruct (proj2 (kmap_pte_range n) Hn) as (-> & -> & ->). done.
Qed.

(** [copyout] writes exactly the bytes it is given, at the addresses the
    page tables say, across page boundaries, and nothing else.  It returns 0
    when all of them are written, and -1 at the first page that is not mapped
    or not open to user code, with the bytes before it written. *)
Theorem copyout_writes s own d va (p : Z -> Z) len :
  world s own -> own d = RDir -> 0 <= va -> 0 <= len -> va + len <= KERNBASE ->
  exists r s' k, copyout d va p len s = Done r s' /\ 0 <= k <= len /\ copied d va p k s own s' /\
    (r = 0 /\ k = len \/ r = -1 /\ k < len /\ accessible (mem s) d ((va + k) / PGSIZE) = false).
Proof. intros Hw Hd Hva Hlen Htop. apply copyout_loop_spec; try done. vlia. Qed.

(** Shrinking an address space below 0x4000 and growing it again stops
    the kernel: [deallocuvm] leaves the pages below 0x4000 mapped, and the
    first page [allocuvm] adds there panics with remap. *)
Theorem shrink_then_grow_panics s own d oldsz newsz sz :
  let lo := (newsz + 4095) / PGSIZE in
  world s own -> setupkvm_lock s = false -> own d = RDir -> 0 <= newsz -> lo < 4 -> 0 <= oldsz <= KERNBASE ->
  present (pte_at (mem s) d lo) = true -> (exists v, own v = RFree) -> newsz < oldsz -> lo * PGSIZE < sz < KERNBASE ->
  exists s1, deallocuvm d oldsz newsz s = Done newsz s1 /\ exists s2, allocuvm d newsz sz s1 = Panicked "remap" s2.
Proof.
  intros lo Hw Hl Hd Hn Hlo Ho Hp [v Hv] Hlt Hsz.
  destruct (deallocuvm_spec s own d oldsz newsz Hw Hl Hd Hn Ho) as (s1 & own1 & E & Hc & [H1 H2 H3 H4 H5]).
  exists s1. split; [by rewrite E, Z.min_r by lia|]. apply (allocuvm_over_panics s1 own1); [done|by eapply ctl_lock|done..|lia|lia| |].
  - rewrite H4 by vlia. fold lo. by rewrite (proj2 (Z.leb_gt 4 lo)), andb_false_r by lia.
  - exists v. rewrite H5. unfold unmapped. by rewrite Hv.
Qed.

End VmSafe.

(** ** A concrete machine

    Four megabytes of memory, the upper two free; one address space with the
    directory at [0x80110000], its page table behind it, and the user pages 0
    and 3. *)
Module VmWitness.

#[export] Instance layout : Layout := {| end_ := 0x80102800; data_ := 0x80101000; phystop := 0x400000 |}.
#[export] Instance layout_ok : LayoutOk.
Proof. split; unfold ptop; simpl; vlia. Qed.

Definition dir : Z := 0x80110000.
Definition table : Z := 0x80111000.
Definition page0 : Z := 0x80112000.
Definition page3 : Z := 0x80113000.

Definition memory : Z -> Z :=
  st32 (st32 (st32 (fun _ => 0) dir (user_pte table)) table (user_pte page0)) (table + 12) (user_pte page3).

Definition roles (v : Z) : role :=
  if v =? dir then RDir
  else if v =? table then RTab dir 0
  else if v =? page0 then RUser dir 0
  else if v =? page3 then RUser dir 3
  else if (v mod PGSIZE =? 0) && (0x80200000 <=? v) && (v + PGSIZE <=? 0x80400000) then RFree else ROther.

Definition machine (k : kmem) : vm :=
  {| pages := k; mem := memory; ptab := []; setupkvm_lock := false; kpgdir := 0; cr3 := 0 |}.

Lemma roles_dir d : roles d = RDir <-> d = dir.
Proof. unfold roles, table, page0, page3. zcases; split; intros; congruence || lia || done. Qed.

Lemma roles_tab v d i : roles v = RTab d i -> v = table /\ d = dir /\ i = 0.
Proof. unfold roles. zcases; intros [=]; done. Qed.
Lemma roles_user v d n : roles v = RUser d n -> d = dir /\ (v = page0 /\ n = 0 \/ v = page3 /\ n = 3).
Proof. unfold roles. zcases; intros [=]; auto. Qed.

Lemma entry0 i : 0 <= i < 1024 -> pde_of memory dir i = if i =? 0 then 0x111007 else 0.
Proof.
  intros Hi. unfold pde_of, memory. rewrite !ld32_st32_ne by (unfold table, dir; lia).
  destruct (Z.eqb_spec i 0) as [->|]; [reflexivity|]. rewrite ld32_st32_ne by lia. reflexivity.
Qed.

Lemma entries n : 0 <= n < UPAGES -> pte_at memory dir n = if n =? 0 then 0x112007 else if n =? 3 then 0x113007 else 0.
Proof.
  intros Hn. unfold pte_at, tab. rewrite entry0 by vlia. destruct (Z.eqb_spec (n / 1024) 0) as [E|E].
  - change (present 0x111007) with true. change (p2v (PTE_ADDR 0x111007)) with table. cbv iota.
    replace (n mod 1024) with n by vlia. unfold memory.
    destruct (Z.eqb_spec n 3) as [->|]; [reflexivity|]. rewrite ld32_st32_ne by lia.
    destruct (Z.eqb_spec n 0) as [->|]; [reflexivity|]. rewrite ld32_st32_ne by lia.
    rewrite ld32_st32_ne by (unfold table, dir; vlia). reflexivity.
  - change (present 0) with false. rewrite (proj2 (Z.eqb_neq n 0)), (proj2 (Z.eqb_neq n 3)) by vlia. done.
Qed.

Lemma roles_page v : roles v <> ROther -> page_ok end_ phystop v.
Proof.
  unfold roles, page_ok, dir, table, page0, page3. change (KERNBASE + ptop phystop) with 0x80400000. change end_ with 0x80102800.
  zcases; intros; done || vlia.
Qed.

Lemma booted : exists k, world (machine k) roles.
Proof.
  destruct (kinit1_spec end_ phystop ltac:(done) ltac:(done) 0x80200000 0x80400000) as (k & F & _ & HF & HFo); [done|done|].
  exists k. constructor.
  - exists F. split; [done|]. intros v. rewrite HFo. unfold roles, dir, table, page0, page3. zcases; split; intros; done || vlia.
  - apply roles_page.
  - intros v d i. cbn [mem machine]. unfold tab. split.
    + intros (-> & -> & ->)%roles_tab. by rewrite entry0.
    + intros (->%roles_dir & Hi & Hp & <-). rewrite entry0 in * by done. destruct (Z.eqb_spec i 0) as [->|]; done.
  - intros v d n. cbn [mem machine]. split.
    + intros (-> & [[-> ->]|[-> ->]])%roles_user; by rewrite entries.
    + intros (->%roles_dir & Hi & Hp & <-). rewrite entries in * by done.
      destruct (Z.eqb_spec n 0) as [->|]; [done|]. destruct (Z.eqb_spec n 3) as [->|]; done.
  - intros q Hq. by apply not_elem_of_nil in Hq.
Qed.

Lemma dir_role : roles dir = RDir.
Proof. reflexivity. Qed.
Lemma low_page n : 0 <= n < (4096 + 4095) / PGSIZE -> present (pte_at memory dir n) = true.
Proof. change ((4096 + 4095) / PGSIZE) with 1. intros Hn. assert (n = 0) as -> by lia. reflexivity. Qed.
Lemma high_page n : (16384 + 4095) / PGSIZE <= n < (24576 + 4095) / PGSIZE -> present (pte_at memory dir n) = false.
Proof.
  change ((16384 + 4095) / PGSIZE) with 4. change ((24576 + 4095) / PGSIZE) with 6. intros Hn. rewrite entries by vlia.
  by rewrite (proj2 (Z.eqb_neq n 0)), (proj2 (Z.eqb_neq n 3)) by lia.
Qed.


Lemma copyuvm_copies_witness : exists k r s' own', copyuvm dir 4096 (machine k) = Done r s' /\ world s' own' /\
  forall x, roles (pg x) <> RFree -> mem s' x = memory x.
Proof.
  destruct booted as [k Hw]. exists k.
  destruct (copyuvm_copies (machine k) roles dir 4096 Hw eq_refl dir_role) as (r & s' & own' & E & Hw' & _ & Hm & _).
  - vlia.
  - intros _. exact low_page.
  - exists r, s', own'. split; [exact E|]. split; [exact Hw'|exact Hm].
Defined.

Lemma freevm_loses_low_pages_witness : exists k s' own', freevm dir (machine k) = Done tt s' /\ world s' own' /\
  own' dir = RFree /\ own' table = RFree /\ own' page0 = ROther /\ own' page3 = ROther.
Proof.
  destruct booted as [k Hw]. exists k.
  destruct (freevm_loses_low_pages (machine k) roles dir Hw eq_refl dir_role) as (s' & own' & E & Hw' & Ho & _).
  - intros q Hq. apply not_elem_of_nil in Hq. destruct Hq.
  - exists s', own'. rewrite !Ho. split; [exact E|]. split; [exact Hw'|]. split_and!; reflexivity.
Defined.

Lemma allocuvm_grows_witness : exists k r s' own', allocuvm dir 16384 24576 (machine k) = Done r s' /\ world s' own' /\
  (r = 24576 \/ r = 0).
Proof.
  destruct booted as [k Hw]. exists k.
  destruct (allocuvm_grows (machine k) roles dir 16384 24576 Hw eq_refl dir_role) as (r & s' & own' & E & Hw' & H).
  - vlia.
  - vlia.
  - intros _. exact high_page.
  - exists r, s', own'. split; [exact E|]. split; [exact Hw'|]. cbn in H. destruct H as [[H _]|[H _]]; [left|right]; exact H.
Defined.

Lemma setupkvm_maps_the_kernel_witness : exists k r s' own', setupkvm (machine k) = Done r s' /\ world s' own'.
Proof.
  destruct booted as [k Hw]. exists k.
  destruct (setupkvm_maps_the_kernel (machine k) roles Hw eq_refl) as (r & s' & own' & E & Hw' & _).
  exists r, s', own'. split; [exact E|exact Hw'].
Defined.

Lemma copyout_writes_witness : exists k r s' n, copyout dir 4000 (fun i => i) 200 (machine k) = Done r s' /\
  copied dir 4000 (fun i => i) n (machine k) roles s' /\ (r = 0 \/ r = -1).
Proof.
  destruct booted as [k Hw]. exists k.
  destruct (copyout_writes (machine k) roles dir 4000 (fun i => i) 200 Hw dir_role) as (r & s' & n & E & _ & Hc & H); [vlia|vlia|vlia|].
  exists r, s', n. split; [exact E|]. split; [exact Hc|]. destruct H as [[H _]|[H _]]; [left|right]; exact H.
Defined.

Lemma shrink_then_grow_panics_witness : exists k s1 s2,
  deallocuvm dir 16384 12288 (machine k) = Done 12288 s1 /\ allocuvm dir 12288 16384 s1 = Panicked "remap" s2.
Proof.
  destruct booted as [k Hw]. exists k.
  destruct (shrink_then_grow_panics (machine k) roles dir 16384 12288 16384 Hw eq_refl dir_role) as (s1 & E1 & s2 & E2).
  - vlia.
  - reflexivity.
  - vlia.
  - reflexivity.
  - exists 0x80200000. reflexivity.
  - vlia.
  - change ((12288 + 4095) / PGSIZE) with 3. vlia.
  - exists s1, s2. split; [exact E1|exact E2].
Defined.

End VmWitness.
