(* ===== verification/File.v ===== *)
(** * kernel/file.c and kernel/unixsock.c: open files and local sockets

    The file table, the calls on open files, [pipealloc] of pipe.c, and the
    local stream sockets.  A [struct file] pointer is an index in
    [ftable.file], [None] for the null pointer.  The pipes are pipe.c's on the
    pages of kalloc.c, the inodes fs.c's; the IPv4 sockets and the console are
    interfaces.  A call that goes to sleep returns [Wait]: woken, it runs
    again from the call (with the bytes left, for a write). *)

From Stdlib Require Import ZArith Lia.
From S2P Require Import Prelude KString Spinlock Kalloc Proc Pipe Bytes Bio BlockLayer Log Fs.

Definition NFILE : nat := 100.
Definition NUSOCK : nat := 32.
Definition USOCK_PENDING_MAX : Z := 16.
Definition USOCK_PATH_MAX : nat := 64.
Definition USOCK_INIT : Z := 0.
Definition USOCK_BOUND : Z := 1.
Definition USOCK_LISTEN : Z := 2.
Definition USOCK_CONN : Z := 3.
Definition CONSOLE : Z := 1.
Definition DEVNULL : Z := 2.
Definition TCP_UNREF_CLOSE_ACCEPTED : Z := 0.
Definition TCP_UNREF_CLOSE_LISTEN : Z := 1.

Inductive fdtype := FD_NONE | FD_PIPE | FD_INODE | FD_USOCK | FD_TCPSOCK | FD_UDPSOCK.
#[global] Instance fdtype_eq_dec : EqDecision fdtype.
Proof. solve_decision. Defined.

Record file := {
  f_type : fdtype; f_ref : Z; f_readable : Z; f_writable : Z; f_pipe : Z; f_ip : option nat; f_off : Z;
  usock_state : Z; usock_lid : Z; usock_rx : option nat; usock_tx : option nat;
  tcp_slot : Z; tcp_listen : Z; udp_slot : Z;
}.
Definition null_file : file :=
  {| f_type := FD_NONE; f_ref := 0; f_readable := 0; f_writable := 0; f_pipe := 0; f_ip := None; f_off := 0;
     usock_state := 0; usock_lid := 0; usock_rx := None; usock_tx := None; tcp_slot := 0; tcp_listen := 0; udp_slot := 0 |}.

Record usock_listener := {
  l_lock : bool; used : bool; listening : bool; backlog : Z; l_path : list Z;
  pending : list (option nat); l_head : Z; l_tail : Z; l_cnt : Z;
}.
Definition null_listener : usock_listener :=
  {| l_lock := false; used := false; listening := false; backlog := 0; l_path := replicate USOCK_PATH_MAX 0;
     pending := replicate (Z.to_nat USOCK_PENDING_MAX) None; l_head := 0; l_tail := 0; l_cnt := 0 |}.

(** The transactions of log.c, beside the blocks. *)
Class TransOps (B : Type) := { tr_begin : K B unit; tr_commit : K B unit }.
#[global] Instance blk_trans : TransOps blk := { tr_begin := begin_trans; tr_commit := commit_trans }.

(** What file.c calls of the IPv4 sockets and of the console. *)
Class NetOps (N : Type) := {
  net_tcp_user_unref : Z -> Z -> N -> N;
  net_udp_user_unref : Z -> N -> N;
  net_tcp_user_read : Z -> Z -> Z -> K N (Z * list Z);
  net_tcp_user_write : Z -> list Z -> Z -> Z -> K N Z;
  net_tcp_user_fdready : Z -> Z -> Z -> N -> Z;
  net_udp_user_fdready : Z -> Z -> N -> Z;
  consolecanread : N -> Z;
}.

Record fsys (Q P B N : Type) := {
  ftable_lock : bool;
  ftable : list file;
  pipes : Z -> pipe; (* the struct pipe on a page *)
  pool : P;          (* the page allocator *)
  sleepers : Q;
  usock_lock : bool;
  listeners : list usock_listener;
  inodes : fs B;
  net : N;
}.
Arguments ftable_lock {Q P B N}. Arguments ftable {Q P B N}. Arguments pipes {Q P B N}. Arguments pool {Q P B N}.
Arguments sleepers {Q P B N}. Arguments usock_lock {Q P B N}. Arguments listeners {Q P B N}.
Arguments inodes {Q P B N}. Arguments net {Q P B N}.

(** The spin locks of the two files. *)
Inductive flock := Ftable | Usock | Listener (i : nat).

Section ops.
Context {Q P B N : Type} `{SleepQueue Q} `{BlockOps B} `{TransOps B} `{NetOps N}.
Context (kalloc : K P Z) (kfree : Z -> K P unit).
Context (devsw : Z -> devops B).
Context (l_addr : nat -> Z). (* the address of a listener *)

Abbreviation fsys := (fsys Q P B N).

Definition set_ftable (l : list file) (s : fsys) : fsys :=
  {| ftable_lock := ftable_lock s; ftable := l; pipes := pipes s; pool := pool s; sleepers := sleepers s;
     usock_lock := usock_lock s; listeners := listeners s; inodes := inodes s; net := net s |}.
Definition set_pipes (p : Z -> pipe) (q : Q) (s : fsys) : fsys :=
  {| ftable_lock := ftable_lock s; ftable := ftable s; pipes := p; pool := pool s; sleepers := q;
     usock_lock := usock_lock s; listeners := listeners s; inodes := inodes s; net := net s |}.
Definition set_pool (p : P) (s : fsys) : fsys :=
  {| ftable_lock := ftable_lock s; ftable := ftable s; pipes := pipes s; pool := p; sleepers := sleepers s;
     usock_lock := usock_lock s; listeners := listeners s; inodes := inodes s; net := net s |}.
Definition set_listeners (l : list usock_listener) (s : fsys) : fsys :=
  {| ftable_lock := ftable_lock s; ftable := ftable s; pipes := pipes s; pool := pool s; sleepers := sleepers s;
     usock_lock := usock_lock s; listeners := l; inodes := inodes s; net := net s |}.
Definition set_inodes (i : fs B) (s : fsys) : fsys :=
  {| ftable_lock := ftable_lock s; ftable := ftable s; pipes := pipes s; pool := pool s; sleepers := sleepers s;
     usock_lock := usock_lock s; listeners := listeners s; inodes := i; net := net s |}.
Definition set_net (n : N) (s : fsys) : fsys :=
  {| ftable_lock := ftable_lock s; ftable := ftable s; pipes := pipes s; pool := pool s; sleepers := sleepers s;
     usock_lock := usock_lock s; listeners := listeners s; inodes := inodes s; net := n |}.

Definition fat (s : fsys) (f : nat) : file := nth f (ftable s) null_file.
Definition upd_file (f : nat) (g : file -> file) : K fsys unit := kmodify (fun s => set_ftable (alter g f (ftable s)) s).
Definition lat (s : fsys) (i : nat) : usock_listener := nth i (listeners s) null_listener.
Definition upd_listener (i : nat) (g : usock_listener -> usock_listener) : K fsys unit :=
  kmodify (fun s => set_listeners (alter g i (listeners s)) s).

Definition set_llock (b : bool) (l : usock_listener) : usock_listener :=
  {| l_lock := b; used := used l; listening := listening l; backlog := backlog l; l_path := l_path l;
     pending := pending l; l_head := l_head l; l_tail := l_tail l; l_cnt := l_cnt l |}.
#[global] Instance file_locks : HasLocks flock fsys := {
  held k s := match k with Ftable => ftable_lock s | Usock => usock_lock s | Listener i => l_lock (lat s i) end;
  set_held k b s :=
    match k with
    | Ftable => {| ftable_lock := b; ftable := ftable s; pipes := pipes s; pool := pool s; sleepers := sleepers s;
        usock_lock := usock_lock s; listeners := listeners s; inodes := inodes s; net := net s |}
    | Usock => {| ftable_lock := ftable_lock s; ftable := ftable s; pipes := pipes s; pool := pool s; sleepers := sleepers s;
        usock_lock := b; listeners := listeners s; inodes := inodes s; net := net s |}
    | Listener i => set_listeners (alter (set_llock b) i (listeners s)) s
    end;
}.

(** The parts of the state other components work on. *)
Definition inpipe {A} (p : Z) (m : K (pworld Q) A) : K fsys A :=
  zoom (fun s => {| pp := pipes s p; queue := sleepers s |})
       (fun w s => set_pipes (fun x => if x =? p then pp w else pipes s x) (queue w) s) m.
Definition inpool {A} (m : K P A) : K fsys A := zoom pool set_pool m.
Definition infs {A} (m : K (fs B) A) : K fsys A := zoom inodes set_inodes m.
Definition innet {A} (m : K N A) : K fsys A := zoom net set_net m.
Definition begin_trans : K fsys unit := infs (inblk tr_begin).
Definition commit_trans : K fsys unit := infs (inblk tr_commit).
Definition wakeup (c : Z) : K fsys unit := kmodify (fun s => set_pipes (pipes s) (sq_wakeup c (sleepers s)) s).
(** [sleep(c, lk)] by the thread [t], up to the switch. *)
Definition sleep (t : nat) (c : Z) (lk : flock) : K fsys unit :=
  release lk ;; kmodify (fun s => set_pipes (pipes s) (sq_sleep t c (sleepers s)) s).
(** [f->ip], which C dereferences. *)
Definition ip_of (f : file) : K fsys nat := match f_ip f with Some ip => kret ip | None => ub "null inode" end.

(** ** file.c *)

Definition fileinit : fsys -> fsys := set_held Ftable false.

Definition set_fref (r : Z) (f : file) : file :=
  {| f_type := f_type f; f_ref := r; f_readable := f_readable f; f_writable := f_writable f; f_pipe := f_pipe f;
     f_ip := f_ip f; f_off := f_off f; usock_state := usock_state f; usock_lid := usock_lid f; usock_rx := usock_rx f;
     usock_tx := usock_tx f; tcp_slot := tcp_slot f; tcp_listen := tcp_listen f; udp_slot := udp_slot f |}.
Definition set_off (o : Z) (f : file) : file :=
  {| f_type := f_type f; f_ref := f_ref f; f_readable := f_readable f; f_writable := f_writable f; f_pipe := f_pipe f;
     f_ip := f_ip f; f_off := o; usock_state := usock_state f; usock_lid := usock_lid f; usock_rx := usock_rx f;
     usock_tx := usock_tx f; tcp_slot := tcp_slot f; tcp_listen := tcp_listen f; udp_slot := udp_slot f |}.
Definition fresh_file (f : file) : file :=
  {| f_type := f_type f; f_ref := 1; f_readable := f_readable f; f_writable := f_writable f; f_pipe := f_pipe f;
     f_ip := f_ip f; f_off := f_off f; usock_state := usock_state f; usock_lid := usock_lid f; usock_rx := usock_rx f;
     usock_tx := usock_tx f; tcp_slot := -1; tcp_listen := 0; udp_slot := -1 |}.
Definition closed_file (f : file) : file :=
  {| f_type := FD_NONE; f_ref := 0; f_readable := f_readable f; f_writable := f_writable f; f_pipe := 0;
     f_ip := None; f_off := 0; usock_state := USOCK_INIT; usock_lid := -1; usock_rx := None;
     usock_tx := None; tcp_slot := tcp_slot f; tcp_listen := tcp_listen f; udp_slot := udp_slot f |}.

(** The first entry with [ref == 0]. *)
Fixpoint find_file (l : list file) (i : nat) : option nat :=
  match l with
  | [] => None
  | x :: r => if f_ref x =? 0 then Some i else find_file r (S i)
  end.
Definition filealloc : K fsys (option nat) :=
  acquire Ftable ;;
  s <- kget ;;
  match find_file (ftable s) 0 with
  | Some f => upd_file f fresh_file ;; release Ftable ;; kret (Some f)
  | None => release Ftable ;; kret None
  end.

Definition filedup (f : nat) : K fsys nat :=
  acquire Ftable ;;
  s <- kget ;;
  if f_ref (fat s f) <? 1 then panic "filedup"
  else upd_file f (set_fref (f_ref (fat s f) + 1)) ;; release Ftable ;; kret f.

(** *** Closing; [close] is [fileclose] itself, which local sockets call back *)

(** Take the first entry off the ring. *)
Definition dequeue (l : usock_listener) : usock_listener :=
  {| l_lock := l_lock l; used := used l; listening := listening l; backlog := backlog l; l_path := l_path l;
     pending := <[Z.to_nat (l_head l) := None]> (pending l); l_head := (l_head l + 1) mod USOCK_PENDING_MAX;
     l_tail := l_tail l; l_cnt := l_cnt l - 1 |}.
(** The loop of [clear_listener_pending] takes the entries off the ring. *)
Fixpoint drain (fuel : nat) (i : nat) : K fsys (list (option nat)) :=
  match fuel with
  | O => ub "clear_listener_pending: ring"
  | S n =>
      s <- kget ;;
      let l := lat s i in
      if 0 <? l_cnt l then
        upd_listener i dequeue ;;
        r <- drain n i ;;
        kret (nth (Z.to_nat (l_head l)) (pending l) None :: r)
      else kret []
  end.
Definition set_ring (h t c : Z) (l : usock_listener) : usock_listener :=
  {| l_lock := l_lock l; used := used l; listening := listening l; backlog := backlog l; l_path := l_path l;
     pending := pending l; l_head := h; l_tail := t; l_cnt := c |}.
Fixpoint close_all (close : nat -> K fsys unit) (l : list (option nat)) : K fsys unit :=
  match l with
  | [] => kret tt
  | Some f :: r => close f ;; close_all close r
  | None :: _ => ub "fileclose of a null pointer"
  end.
(** The local array holds [USOCK_PENDING_MAX] pointers. *)
Definition clear_listener_pending (close : nat -> K fsys unit) (i : nat) : K fsys unit :=
  acquire (Listener i) ;;
  l <- drain (S (Z.to_nat USOCK_PENDING_MAX)) i ;;
  upd_listener i (fun l => set_ring 0 0 (l_cnt l) l) ;;
  wakeup (l_addr i) ;;
  release (Listener i) ;;
  close_all close l.

Definition unbind (l : usock_listener) : usock_listener :=
  {| l_lock := l_lock l; used := false; listening := false; backlog := 0; l_path := <[0%nat := 0]> (l_path l);
     pending := pending l; l_head := l_head l; l_tail := l_tail l; l_cnt := l_cnt l |}.
Definition close_opt (close : nat -> K fsys unit) (f : option nat) : K fsys unit :=
  match f with Some f => close f | None => kret tt end.
(** [f] is the copy [fileclose] made, so that its fields are not stored back. *)
Definition usock_fileclose (close : nat -> K fsys unit) (f : file) : K fsys unit :=
  if negb (bool_decide (f_type f = FD_USOCK)) then kret tt
  else if usock_state f =? USOCK_CONN then
    close_opt close (usock_rx f) ;;
    close_opt close (usock_tx f)
  else if ((usock_state f =? USOCK_BOUND) || (usock_state f =? USOCK_LISTEN)) && (0 <=? usock_lid f) then
    let lid := Z.to_nat (usock_lid f) in
    acquire Usock ;;
    s <- kget ;;
    if (Z.of_nat NUSOCK <=? usock_lid f) || negb (used (lat s lid)) then release Usock
    else
      upd_listener lid unbind ;;
      release Usock ;;
      clear_listener_pending close lid
  else kret tt.

(** [iput] in a transaction. *)
Definition close_inode (f : file) : K fsys unit :=
  begin_trans ;;
  ip <- ip_of f ;;
  infs (iput ip) ;;
  commit_trans.
Definition close_pipe (p : Z) (writable : bool) : K fsys unit :=
  gone <- inpipe p (pipeclose p writable) ;;
  if gone then inpool (kfree p) else kret tt.

Fixpoint fileclose_fuel (fuel : nat) (f : nat) : K fsys unit :=
  match fuel with
  | O => ub "fileclose: recursion"
  | S n =>
      acquire Ftable ;;
      s <- kget ;;
      let ff := fat s f in
      if f_ref ff <? 1 then panic "fileclose"
      else if 0 <? f_ref ff - 1 then upd_file f (set_fref (f_ref ff - 1)) ;; release Ftable
      else
        upd_file f closed_file ;;
        release Ftable ;;
        match f_type ff with
        | FD_PIPE => close_pipe (f_pipe ff) (negb (f_writable ff =? 0))
        | FD_INODE => close_inode ff
        | FD_TCPSOCK =>
            kmodify (fun s => set_net (net_tcp_user_unref (tcp_slot ff)
              (if negb (tcp_listen ff =? 0) then TCP_UNREF_CLOSE_LISTEN else TCP_UNREF_CLOSE_ACCEPTED) (net s)) s)
        | FD_UDPSOCK => kmodify (fun s => set_net (net_udp_user_unref (udp_slot ff) (net s)) s)
        | FD_USOCK => usock_fileclose (fileclose_fuel n) ff
        | FD_NONE => kret tt
        end
  end.
(** A nested call closes a file whose entry is still in use, and the entries
    of the outer calls are not: the recursion is at most [NFILE] deep. *)
Definition fileclose (f : nat) : K fsys unit := fileclose_fuel (S NFILE) f.

(** *** Reading and writing

    The recursion of [fileread], [filewrite] and [filefdready] follows
    [usock_rx] and [usock_tx]: without a cycle it visits each entry once. *)

Definition filestat (f : nat) : K fsys (option stat) :=
  s <- kget ;;
  if bool_decide (f_type (fat s f) = FD_INODE) then
    ip <- ip_of (fat s f) ;;
    infs (ilock ip) ;;
    st <- infs (stati ip) ;;
    infs (iunlock ip) ;;
    kret (Some st)
  else kret None.

(** Returns what C returns and the bytes stored at [addr]. *)
Fixpoint fileread_fuel (fuel t : nat) (killed : bool) (f : nat) (n : Z) : K fsys (segment (Z * list Z) unit) :=
  match fuel with
  | O => ub "fileread: recursion"
  | S k =>
      s <- kget ;;
      let ff := fat s f in
      if f_readable ff =? 0 then kret (Return (-1, []))
      else match f_type ff with
      | FD_PIPE =>
          r <- inpipe (f_pipe ff) (piperead (f_pipe ff) t killed (Z.to_nat n)) ;;
          kret (match r with
                | Return (Some bs) => Return (Z.of_nat (length bs), bs)
                | Return None => Return (-1, [])
                | Wait u => Wait u
                end)
      | FD_USOCK =>
          match usock_rx ff with
          | Some rx => if usock_state ff =? USOCK_CONN then fileread_fuel k t killed rx n else kret (Return (-1, []))
          | None => kret (Return (-1, []))
          end
      | FD_TCPSOCK =>
          if tcp_slot ff <? 0 then kret (Return (-1, []))
          else r <- innet (net_tcp_user_read (tcp_slot ff) n (tcp_listen ff)) ;; kret (Return r)
      | FD_UDPSOCK => kret (Return (-1, []))
      | FD_INODE =>
          ip <- ip_of ff ;;
          infs (ilock ip) ;;
          r <- infs (readi devsw ip (f_off ff) (u32 n)) ;;
          (if 0 <? fst r then upd_file f (set_off (f_off ff +u fst r)) else kret tt) ;;
          infs (iunlock ip) ;;
          kret (Return r)
      | FD_NONE => panic "fileread"
      end
  end.
Definition fileread : nat -> bool -> nat -> Z -> K fsys (segment (Z * list Z) unit) := fileread_fuel (S NFILE).

(** The largest write of one transaction. *)
Definition max_write : Z := (LOGSIZE - 1 - 1 - 2) / 2 * 512.

Fixpoint filewrite_loop (fuel f ip : nat) (src : list Z) (i n : Z) : K fsys Z :=
  match fuel with
  | O => ub "filewrite: out of fuel"
  | S k =>
      if i <? n then
        let n1 := Z.min (n - i) max_write in
        begin_trans ;;
        infs (ilock ip) ;;
        s <- kget ;;
        r <- infs (writei devsw ip (drop (Z.to_nat i) src) (f_off (fat s f)) n1) ;;
        (if 0 <? r then upd_file f (set_off (f_off (fat s f) +u r)) else kret tt) ;;
        infs (iunlock ip) ;;
        commit_trans ;;
        if r <? 0 then kret i
        else if negb (r =? n1) then panic "short filewrite"
        else filewrite_loop k f ip src (i + r) n
      else kret i
  end.

(** [src] are the bytes at [addr]; a pipe's writer asleep has [Wait bs] left. *)
Fixpoint filewrite_fuel (fuel t : nat) (killed : bool) (f : nat) (src : list Z) (n : Z) : K fsys (segment Z (list Z)) :=
  match fuel with
  | O => ub "filewrite: recursion"
  | S k =>
      s <- kget ;;
      let ff := fat s f in
      if f_writable ff =? 0 then kret (Return (-1))
      else match f_type ff with
      | FD_PIPE => inpipe (f_pipe ff) (pipewrite (f_pipe ff) t killed n (take (Z.to_nat n) src))
      | FD_USOCK =>
          match usock_tx ff with
          | Some tx => if usock_state ff =? USOCK_CONN then filewrite_fuel k t killed tx src n else kret (Return (-1))
          | None => kret (Return (-1))
          end
      | FD_TCPSOCK =>
          if tcp_slot ff <? 0 then kret (Return (-1))
          else r <- innet (net_tcp_user_write (tcp_slot ff) src n (tcp_listen ff)) ;; kret (Return r)
      | FD_UDPSOCK => kret (Return (-1))
      | FD_INODE =>
          ip <- ip_of ff ;;
          i <- filewrite_loop (Z.to_nat (n / max_write + 2)) f ip src 0 n ;;
          kret (Return (if i =? n then n else -1))
      | FD_NONE => panic "filewrite"
      end
  end.
Definition filewrite : nat -> bool -> nat -> list Z -> Z -> K fsys (segment Z (list Z)) := filewrite_fuel (S NFILE).

(** [f->usock_lid] as an index of [listeners]. *)
Definition lid_of (f : file) : nat := Z.to_nat (usock_lid f).
Definition usock_listencanaccept (f : nat) : K fsys Z :=
  s <- kget ;;
  let ff := fat s f in
  if negb (bool_decide (f_type ff = FD_USOCK)) || negb (usock_state ff =? USOCK_LISTEN) || (usock_lid ff <? 0) then kret (-1)
  else
    acquire (Listener (lid_of ff)) ;;
    s <- kget ;;
    let l := lat s (lid_of ff) in
    release (Listener (lid_of ff)) ;;
    kret (if used l && listening l && (0 <? l_cnt l) then 1 else 0).

Fixpoint filefdready_fuel (fuel : nat) (f : option nat) (forwrite : bool) : K fsys Z :=
  match fuel, f with
  | O, _ => ub "filefdready: recursion"
  | S _, None => kret (-1)
  | S k, Some f =>
      s <- kget ;;
      let ff := fat s f in
      match f_type ff with
      | FD_PIPE => if forwrite then inpipe (f_pipe ff) pipecanwrite else inpipe (f_pipe ff) pipecanread
      | FD_USOCK =>
          if usock_state ff =? USOCK_CONN then
            if forwrite then filefdready_fuel k (usock_tx ff) true else filefdready_fuel k (usock_rx ff) false
          else if usock_state ff =? USOCK_LISTEN then
            if forwrite then kret 0 else usock_listencanaccept f
          else kret (-1)
      | FD_TCPSOCK =>
          if tcp_slot ff <? 0 then kret (-1)
          else kret (net_tcp_user_fdready (tcp_slot ff) (cbool forwrite) (tcp_listen ff) (net s))
      | FD_UDPSOCK =>
          if udp_slot ff <? 0 then kret (-1) else kret (net_udp_user_fdready (udp_slot ff) (cbool forwrite) (net s))
      | FD_INODE =>
          if forwrite then kret (f_writable ff)
          else
            ip <- ip_of ff ;;
            infs (ilock ip) ;;
            s <- kget ;;
            let i := iat (inodes s) ip in
            infs (iunlock ip) ;;
            if (itype i =? T_DEV) && (major i =? CONSOLE) then kret (consolecanread (net s))
            else if (itype i =? T_DEV) && (major i =? DEVNULL) then kret 1
            else kret (f_readable ff)
      | FD_NONE => kret (-1)
      end
  end.
Definition filefdready : option nat -> bool -> K fsys Z := filefdready_fuel (S NFILE).

(** A sum of two ints; C leaves an overflow undefined. *)
Definition int_add (a b : Z) : K fsys Z :=
  if (a + b <? - 2 ^ 31) || (2 ^ 31 <=? a + b) then ub "int overflow" else kret (a + b).
Definition fileseek (f : nat) (offset whence : Z) : K fsys Z :=
  s <- kget ;;
  let ff := fat s f in
  if negb (bool_decide (f_type ff = FD_INODE)) then kret (-1)
  else
    ip <- ip_of ff ;;
    infs (ilock ip) ;;
    if whence =? 0 then
      if offset <? 0 then infs (iunlock ip) ;; kret (-1)
      else upd_file f (set_off (u32 offset)) ;; infs (iunlock ip) ;; kret (s32 (u32 offset))
    else if whence =? 1 then
      o <- int_add (s32 (f_off ff)) offset ;;
      if o <? 0 then infs (iunlock ip) ;; kret (-1)
      else upd_file f (set_off (u32 o)) ;; infs (iunlock ip) ;; kret (s32 (u32 o))
    else if whence =? 2 then
      st <- infs (stati ip) ;;
      o <- int_add (s32 (st_size st)) offset ;;
      if o <? 0 then infs (iunlock ip) ;; kret (-1)
      else upd_file f (set_off (st_size st +u u32 offset)) ;; infs (iunlock ip) ;; kret (s32 (st_size st +u u32 offset))
    else infs (iunlock ip) ;; kret (-1).

(** ** pipe.c: [pipealloc] *)

Definition pipe_end (rd wr p : Z) (f : file) : file :=
  {| f_type := FD_PIPE; f_ref := f_ref f; f_readable := rd; f_writable := wr; f_pipe := p;
     f_ip := f_ip f; f_off := f_off f; usock_state := usock_state f; usock_lid := usock_lid f; usock_rx := usock_rx f;
     usock_tx := usock_tx f; tcp_slot := tcp_slot f; tcp_listen := tcp_listen f; udp_slot := udp_slot f |}.
(** Returns C's result and what is left in [*f0] and [*f1].  At [bad] the page
    [p] is 0 on every path. *)
Definition pipealloc : K fsys (Z * option nat * option nat) :=
  f0 <- filealloc ;;
  match f0 with
  | None => kret (-1, None, None)
  | Some a =>
      f1 <- filealloc ;;
      match f1 with
      | None => fileclose a ;; kret (-1, f0, None)
      | Some b =>
          p <- inpool kalloc ;;
          if p =? 0 then fileclose a ;; fileclose b ;; kret (-1, f0, f1)
          else
            inpipe p (kmodify (upd_pipe pipe_init)) ;;
            upd_file a (pipe_end 1 0 p) ;;
            upd_file b (pipe_end 0 1 p) ;;
            kret (0, f0, f1)
      end
  end.

(** ** unixsock.c *)

(** [listeners[i]] after [usockinit]. *)
Definition init_listener (l : usock_listener) : usock_listener :=
  {| l_lock := false; used := false; listening := false; backlog := 0; l_path := <[0%nat := 0]> (l_path l);
     pending := replicate (Z.to_nat USOCK_PENDING_MAX) None; l_head := 0; l_tail := 0; l_cnt := 0 |}.
Definition usockinit (s : fsys) : fsys := set_listeners (init_listener <$> listeners s) (set_held Usock false s).

(** [strlen(path)]; the bytes of [path] are followed by a NUL. *)
Definition path_len (path : list Z) : Z := default 0 (strlen (of_bytes path) (S (length path))).

Fixpoint find_listener (l : list usock_listener) (path : list Z) (i : nat) : option nat :=
  match l with
  | [] => None
  | x :: r =>
      if used x && (strncmp (of_bytes (l_path x)) (of_bytes path) USOCK_PATH_MAX =? 0) then Some i
      else find_listener r path (S i)
  end.
Definition find_listener_locked (path : list Z) : K fsys (option nat) := kgets (fun s => find_listener (listeners s) path 0).
Fixpoint find_unused (l : list usock_listener) (i : nat) : option nat :=
  match l with
  | [] => None
  | x :: r => if used x then find_unused r (S i) else Some i
  end.

(** [safestrcpy] into the array [old]. *)
Definition copy_path (path old : list Z) : list Z :=
  let new := safestrcpy_bytes (of_bytes path) USOCK_PATH_MAX in new ++ drop (length new) old.
Definition bind_listener (path : list Z) (l : usock_listener) : usock_listener :=
  {| l_lock := l_lock l; used := true; listening := false; backlog := 0; l_path := copy_path path (l_path l);
     pending := pending l; l_head := 0; l_tail := 0; l_cnt := 0 |}.
Definition set_usock (st lid : Z) (f : file) : file :=
  {| f_type := f_type f; f_ref := f_ref f; f_readable := f_readable f; f_writable := f_writable f; f_pipe := f_pipe f;
     f_ip := f_ip f; f_off := f_off f; usock_state := st; usock_lid := lid; usock_rx := usock_rx f;
     usock_tx := usock_tx f; tcp_slot := tcp_slot f; tcp_listen := tcp_listen f; udp_slot := udp_slot f |}.
(** A socket that is neither bound nor connected. *)
Definition usock_fresh (f : file) : bool := bool_decide (f_type f = FD_USOCK) && (usock_state f =? USOCK_INIT) && (usock_lid f <? 0).
Definition path_fits (path : list Z) : bool := (0 <? path_len path) && (path_len path <? Z.of_nat USOCK_PATH_MAX).

Definition usock_bind (f : nat) (path : list Z) : K fsys Z :=
  s <- kget ;;
  if negb (usock_fresh (fat s f)) then kret (-1)
  else if negb (path_fits path) then kret (-1)
  else
    acquire Usock ;;
    i <- find_listener_locked path ;;
    match i with
    | Some _ => release Usock ;; kret (-1)
    | None =>
        s <- kget ;;
        match find_unused (listeners s) 0 with
        | Some i =>
            upd_listener i (bind_listener path) ;;
            release Usock ;;
            upd_file f (set_usock USOCK_BOUND (Z.of_nat i)) ;;
            kret 0
        | None => release Usock ;; kret (-1)
        end
    end.

Definition set_listening (b : Z) (l : usock_listener) : usock_listener :=
  {| l_lock := l_lock l; used := used l; listening := true; backlog := b; l_path := l_path l;
     pending := pending l; l_head := l_head l; l_tail := l_tail l; l_cnt := l_cnt l |}.
Definition usock_listen (f : nat) (backlog : Z) : K fsys Z :=
  s <- kget ;;
  let ff := fat s f in
  if negb (bool_decide (f_type ff = FD_USOCK)) || negb (usock_state ff =? USOCK_BOUND) || (usock_lid ff <? 0) then kret (-1)
  else
    let backlog := if backlog <=? 0 then 1 else backlog in
    let backlog := if USOCK_PENDING_MAX <? backlog then USOCK_PENDING_MAX else backlog in
    let i := lid_of ff in
    acquire (Listener i) ;;
    s <- kget ;;
    if negb (used (lat s i)) then release (Listener i) ;; kret (-1)
    else
      upd_listener i (set_listening backlog) ;;
      wakeup (l_addr i) ;;
      release (Listener i) ;;
      upd_file f (set_usock USOCK_LISTEN (usock_lid ff)) ;;
      kret 0.

Definition set_conn (lid : Z) (rx tx : option nat) (f : file) : file :=
  {| f_type := f_type f; f_ref := f_ref f; f_readable := 1; f_writable := 1; f_pipe := f_pipe f;
     f_ip := f_ip f; f_off := f_off f; usock_state := USOCK_CONN; usock_lid := lid; usock_rx := rx;
     usock_tx := tx; tcp_slot := tcp_slot f; tcp_listen := tcp_listen f; udp_slot := udp_slot f |}.
Definition set_type (t : fdtype) (f : file) : file :=
  {| f_type := t; f_ref := f_ref f; f_readable := f_readable f; f_writable := f_writable f; f_pipe := f_pipe f;
     f_ip := f_ip f; f_off := f_off f; usock_state := usock_state f; usock_lid := usock_lid f; usock_rx := usock_rx f;
     usock_tx := usock_tx f; tcp_slot := tcp_slot f; tcp_listen := tcp_listen f; udp_slot := udp_slot f |}.
Definition make_endpoint (rx tx : option nat) : K fsys (option nat) :=
  f <- filealloc ;;
  match f with
  | None => kret None
  | Some e => upd_file e (fun x => set_conn (-1) rx tx (set_type FD_USOCK x)) ;; kret (Some e)
  end.

(** What [sys_socket] makes of a new entry for a local socket. *)
Definition make_usock (f : nat) : K fsys unit := upd_file f (fun x =>
  {| f_type := FD_USOCK; f_ref := f_ref x; f_readable := 1; f_writable := 1; f_pipe := f_pipe x;
     f_ip := f_ip x; f_off := f_off x; usock_state := USOCK_INIT; usock_lid := -1; usock_rx := None;
     usock_tx := None; tcp_slot := tcp_slot x; tcp_listen := tcp_listen x; udp_slot := udp_slot x |}).

Definition enqueue (e : nat) (l : usock_listener) : usock_listener :=
  {| l_lock := l_lock l; used := used l; listening := listening l; backlog := backlog l; l_path := l_path l;
     pending := <[Z.to_nat (l_tail l) := Some e]> (pending l); l_head := l_head l;
     l_tail := (l_tail l + 1) mod USOCK_PENDING_MAX; l_cnt := l_cnt l + 1 |}.
(** [bad:] of [usock_connect] before there is a server endpoint. *)
Definition connect_bad (c2s_r c2s_w s2c_r s2c_w : option nat) : K fsys Z :=
  close_opt fileclose c2s_r ;;
  close_opt fileclose c2s_w ;;
  close_opt fileclose s2c_r ;;
  close_opt fileclose s2c_w ;;
  kret (-1).
Definition usock_connect (f : nat) (path : list Z) : K fsys Z :=
  s <- kget ;;
  if negb (usock_fresh (fat s f)) then kret (-1)
  else if negb (path_fits path) then kret (-1)
  else
    acquire Usock ;;
    lid <- find_listener_locked path ;;
    release Usock ;;
    match lid with
    | None => kret (-1)
    | Some i =>
        x <- pipealloc ;;
        let '(r, c2s_r, c2s_w) := x in
        if r <? 0 then connect_bad c2s_r c2s_w None None
        else
          y <- pipealloc ;;
          let '(r, s2c_r, s2c_w) := y in
          if r <? 0 then connect_bad c2s_r c2s_w s2c_r s2c_w
          else
            e <- make_endpoint c2s_r s2c_w ;;
            match e with
            | None => connect_bad c2s_r c2s_w s2c_r s2c_w
            | Some e =>
                acquire (Listener i) ;;
                s <- kget ;;
                let l := lat s i in
                if negb (used l) || negb (listening l) || (backlog l <=? l_cnt l) then
                  release (Listener i) ;; fileclose e ;; kret (-1)
                else
                  upd_listener i (enqueue e) ;;
                  wakeup (l_addr i) ;;
                  release (Listener i) ;;
                  upd_file f (fun x => set_conn (usock_lid x) s2c_r c2s_w x) ;;
                  kret 0
            end
    end.

(** Returns C's result and [*out]. *)
Definition usock_accept (t : nat) (killed : bool) (f : nat) : K fsys (segment (Z * option nat) unit) :=
  s <- kget ;;
  let ff := fat s f in
  if negb (bool_decide (f_type ff = FD_USOCK)) || negb (usock_state ff =? USOCK_LISTEN) || (usock_lid ff <? 0) then kret (Return (-1, None))
  else
    let i := lid_of ff in
    acquire (Listener i) ;;
    s <- kget ;;
    let l := lat s i in
    if used l && listening l && (l_cnt l =? 0) then
      if killed then release (Listener i) ;; kret (Return (-1, None))
      else sleep t (l_addr i) (Listener i) ;; kret (Wait tt)
    else if negb (used l) || negb (listening l) || (l_cnt l <=? 0) then release (Listener i) ;; kret (Return (-1, None))
    else
      upd_listener i dequeue ;;
      release (Listener i) ;;
      kret (Return (0, nth (Z.to_nat (l_head l)) (pending l) None)).

End ops.
