(* ===== verification/FileSafe.v ===== *)
(** * kernel/file.c, kernel/unixsock.c: who holds a file

    The invariant of the file table: the reference count of an entry is the
    number of its holders - descriptors, connected sockets, queues of
    listeners -, a pipe's ends are open as long as an entry is that end, its
    page is in use as long as an end is open, and a listener is in use as long
    as a socket is bound to it.  The operations preserve it. *)

From Stdlib Require Import ZArith Lia.
From S2P Require Import Prelude KString Spinlock Kalloc Proc Pipe Bytes Bio BlockLayer Log Fs File.

(** ** Holders *)

Definition is_conn (f : file) : bool := bool_decide (f_type f = FD_USOCK) && (usock_state f =? USOCK_CONN).
Definition is_bound (f : file) : bool :=
  bool_decide (f_type f = FD_USOCK) && ((usock_state f =? USOCK_BOUND) || (usock_state f =? USOCK_LISTEN)).
Definition is_end (f : file) (wr : Z) : bool := bool_decide (f_type f = FD_PIPE) && (f_writable f =? wr).

(** How often a pointer, an entry of the table and a listener hold the entry [k]. *)
Definition points (k : nat) (o : option nat) : Z := cbool (bool_decide (o = Some k)).
Definition nref (k : nat) (f : file) : Z := if is_conn f then points k (usock_rx f) + points k (usock_tx f) else 0.
Definition lref (k : nat) (l : usock_listener) : Z := zsum (points k) (pending l).
(** Whether an entry is the end [wr] of the pipe on the page [p], and whether
    it is bound to the listener [i]. *)
Definition nend (p wr : Z) (f : file) : Z := cbool (is_end f wr && (f_pipe f =? p)).
Definition nlid (i : nat) (f : file) : Z := cbool (is_bound f && (usock_lid f =? Z.of_nat i)).

(** The ring of a listener: the slots from [l_head] on hold pointers, the
    others are empty. *)
Record ring (l : usock_listener) : Prop := {
  ro_len : length (pending l) = Z.to_nat USOCK_PENDING_MAX;
  ro_head : 0 <= l_head l < USOCK_PENDING_MAX;
  ro_cnt : 0 <= l_cnt l <= USOCK_PENDING_MAX;
  ro_tail : l_tail l = (l_head l + l_cnt l) mod USOCK_PENDING_MAX;
  ro_slot : forall j, 0 <= j < USOCK_PENDING_MAX ->
    (exists e, pending l !! Z.to_nat j = Some (Some e)) <-> (j - l_head l) mod USOCK_PENDING_MAX < l_cnt l;
}.
Record ring_ok (l : usock_listener) : Prop := {
  ro_ring : ring l;
  ro_backlog : backlog l <= USOCK_PENDING_MAX;
  ro_unused : used l = false -> l_cnt l = 0;
  ro_lock : l_lock l = false;
  ro_path : length (l_path l) = USOCK_PATH_MAX;
}.

Ltac ring_consts := change USOCK_PENDING_MAX with 16 in *; change (Z.to_nat 16) with 16%nat in *.

Lemma dequeue_ring l : ring l -> 0 < l_cnt l -> ring (dequeue l) /\ exists e, pending l !! Z.to_nat (l_head l) = Some (Some e) /\
  forall k, lref k l = points k (Some e) + lref k (dequeue l).
Proof.
  intros [R1 R2 R3 R4 R5] Hc. ring_consts.
  destruct (proj2 (R5 (l_head l) R2)) as [e He]; [rewrite Z.sub_diag; exact Hc|]. split.
  - constructor; cbn; ring_consts; [by rewrite length_insert|dlia|lia|rewrite R4; dlia|].
    intros j Hj. destruct (decide (j = l_head l)) as [->|Hne].
    + rewrite list_lookup_insert_eq by (rewrite R1; lia). split; [by intros [? ?]|]. intros. exfalso. dlia.
    + rewrite list_lookup_insert_ne by lia. rewrite (R5 j Hj). split; dlia.
  - exists e. split; [done|]. intros k. unfold lref. cbn [pending dequeue]. rewrite (zsum_insert _ _ _ _ _ He).
    change (points k None) with 0. lia.
Qed.

Lemma enqueue_ring e l : ring l -> l_cnt l < USOCK_PENDING_MAX -> ring (enqueue e l) /\ pending l !! Z.to_nat (l_tail l) = Some None /\
  forall k, lref k (enqueue e l) = points k (Some e) + lref k l.
Proof.
  intros [R1 R2 R3 R4 R5] Hc. ring_consts. assert (Ht : 0 <= l_tail l < 16) by (rewrite R4; dlia).
  assert (Hn : pending l !! Z.to_nat (l_tail l) = Some None).
  { destruct (lookup_lt_is_Some_2 (pending l) (Z.to_nat (l_tail l))) as [[e'|] He]; [rewrite R1; lia| |done].
    destruct (R5 (l_tail l) Ht) as [Hs _]. assert ((l_tail l - l_head l) mod 16 < l_cnt l) by eauto. exfalso. rewrite R4 in *. dlia. }
  split_and!; [|done|].
  - constructor; cbn; ring_consts; [by rewrite length_insert|lia|lia|rewrite R4; dlia|].
    intros j Hj. destruct (decide (j = l_tail l)) as [->|Hne].
    + rewrite list_lookup_insert_eq by (rewrite R1; lia). split; [|by eauto]. intros _. rewrite R4. dlia.
    + rewrite list_lookup_insert_ne by lia. rewrite (R5 j Hj). rewrite R4 in Hne. split; dlia.
  - intros k. unfold lref. cbn [pending enqueue]. rewrite (zsum_insert _ _ _ _ _ Hn). change (points k None) with 0. lia.
Qed.

(** An empty ring holds no pointer. *)
Lemma empty_ring l j o : ring l -> l_cnt l = 0 -> pending l !! j = Some o -> o = None.
Proof.
  intros [R1 R2 R3 R4 R5] Hc Hj. ring_consts. destruct o as [e|]; [|done]. apply lookup_lt_Some in Hj as Hlt.
  destruct (R5 (Z.of_nat j)) as [Hs _]; [lia|]. rewrite Nat2Z.id in Hs. specialize (Hs (ex_intro _ e Hj)). dlia.
Qed.
Lemma empty_lref k l : ring l -> l_cnt l = 0 -> lref k l = 0.
Proof. intros Hr Hc. apply zsum_0. intros j o Hj. by rewrite (empty_ring l j o Hr Hc Hj). Qed.

Section safe.
Context {Q P B N : Type} `{SleepQueue Q} `{BlockOps B} `{TransOps B} `{NetOps N}.
Context (kalloc : K P Z) (kfree : Z -> K P unit) `{PA : !PageAllocator P kalloc kfree}.
Context (l_addr : nat -> Z).

Abbreviation fsys := (fsys Q P B N).
Implicit Types (s : fsys) (x : file) (k j : nat) (own : nat -> Z) (l : usock_listener).

Definition refs s k : Z := zsum (nref k) (ftable s) + zsum (lref k) (listeners s).
Definition ends s (p wr : Z) : Z := zsum (nend p wr) (ftable s).
Definition bindings s (i : nat) : Z := zsum (nlid i) (ftable s).

(** [own k] references to the entry [k] are held outside of the tables (by
    descriptors and by running calls); [E p wr] and [G i] are pipe ends and
    bindings whose entry is gone while a call is under way; [U] are the pages
    of the pipes, [A] all pages of pipes and allocator. *)
Record finv (A : gset Z) s own (E : Z -> Z -> Z) (G : nat -> Z) : Prop := {
  fi_len : length (ftable s) = NFILE;
  fi_llen : length (listeners s) = NUSOCK;
  fi_locks : ftable_lock s = false /\ usock_lock s = false;
  fi_own : forall k, 0 <= own k;
  fi_ref : forall k x, ftable s !! k = Some x -> f_ref x = own k + refs s k;
  fi_out : forall k, (NFILE <= k)%nat -> own k = 0 /\ refs s k = 0;
  fi_closed : forall k x, ftable s !! k = Some x -> f_ref x = 0 -> f_type x = FD_NONE;
  fi_conn : forall k x, ftable s !! k = Some x -> is_conn x = true -> exists r t xr xt,
    usock_rx x = Some r /\ usock_tx x = Some t /\ ftable s !! r = Some xr /\ ftable s !! t = Some xt /\
    is_end xr 0 = true /\ is_end xt 1 = true;
  fi_pending : forall i l j e, listeners s !! i = Some l -> pending l !! j = Some (Some e) ->
    exists x, ftable s !! e = Some x /\ is_conn x = true;
  fi_ring : forall i l, listeners s !! i = Some l -> ring_ok l;
  fi_bound : forall k x, ftable s !! k = Some x -> is_bound x = true -> 0 <= usock_lid x < Z.of_nat NUSOCK;
  fi_used : forall i l, listeners s !! i = Some l -> cbool (used l) = bindings s i + G i;
  fi_wr : forall k x, ftable s !! k = Some x -> f_type x = FD_PIPE -> f_writable x = 0 \/ f_writable x = 1;
  fi_plock : forall p, p_lock (pipes s p) = false /\ length (data (pipes s p)) = Z.to_nat PIPESIZE;
  fi_pages : exists F U, pa_inv (pool s) F /\ F ## U /\ A = F ∪ U /\ (forall p, p ∈ U -> pa_page p) /\
    (forall p, p ∈ U -> pipe_ok (pipes s p) /\ cbool (readopen (pipes s p)) = ends s p 0 + E p 0 /\
      cbool (writeopen (pipes s p)) = ends s p 1 + E p 1 /\ 1 <= cbool (readopen (pipes s p)) + cbool (writeopen (pipes s p))) /\
    (forall p wr, p ∉ U -> wr = 0 \/ wr = 1 -> ends s p wr = 0 /\ E p wr = 0);
  fi_E : forall p wr, 0 <= E p wr;
}.

Lemma points_nonneg k o : 0 <= points k o.
Proof. unfold points, cbool. by case_bool_decide. Qed.
Lemma nref_nonneg k x : 0 <= nref k x.
Proof. unfold nref. pose proof (points_nonneg k (usock_rx x)). pose proof (points_nonneg k (usock_tx x)). destruct (is_conn x); lia. Qed.
Lemma lref_nonneg k l : 0 <= lref k l.
Proof. apply zsum_nonneg, points_nonneg. Qed.
Lemma nend_nonneg p wr x : 0 <= nend p wr x.
Proof. unfold nend, cbool. by case_match. Qed.
Lemma nlid_nonneg i x : 0 <= nlid i x.
Proof. unfold nlid, cbool. by case_match. Qed.
Lemma refs_nonneg s k : 0 <= refs s k.
Proof.
  unfold refs. pose proof (zsum_nonneg (nref k) (ftable s) (nref_nonneg k)).
  pose proof (zsum_nonneg (lref k) (listeners s) (lref_nonneg k)). lia.
Qed.
Lemma nref_refs s j k x : ftable s !! j = Some x -> nref k x <= refs s k.
Proof.
  intros Hx. unfold refs. pose proof (zsum_in (nref k) (ftable s) j x (nref_nonneg k) Hx).
  pose proof (zsum_nonneg (lref k) (listeners s) (lref_nonneg k)). lia.
Qed.
Lemma pending_refs s i l j k : listeners s !! i = Some l -> pending l !! j = Some (Some k) -> 1 <= refs s k.
Proof.
  intros Hl Hj. unfold refs. pose proof (zsum_in (lref k) (listeners s) i l (lref_nonneg k) Hl).
  pose proof (zsum_in (points k) (pending l) j (Some k) (points_nonneg k) Hj) as Hp. unfold points in Hp at 1.
  rewrite bool_decide_eq_true_2 in Hp by done. fold (lref k l) in Hp. cbn in Hp.
  pose proof (zsum_nonneg (nref k) (ftable s) (nref_nonneg k)). lia.
Qed.
Lemma conn_refs s j x k : ftable s !! j = Some x -> is_conn x = true -> usock_rx x = Some k \/ usock_tx x = Some k -> 1 <= refs s k.
Proof.
  intros Hx Hc Hr. pose proof (nref_refs s j k x Hx) as Hn. unfold nref in Hn. rewrite Hc in Hn.
  pose proof (points_nonneg k (usock_rx x)). pose proof (points_nonneg k (usock_tx x)).
  destruct Hr as [E|E]; rewrite E in *; unfold points in *; rewrite (bool_decide_eq_true_2 (Some k = Some k)) in * by done; cbn in *; lia.
Qed.

(** What an update of the entry [k] must respect. *)
Section entry.
Context (A : gset Z) (s : fsys) (own own' : nat -> Z) (E E' : Z -> Z -> Z) (G G' : nat -> Z) (k : nat) (x : file) (g : file -> file).
Context (Hi : finv A s own E G) (Hx : ftable s !! k = Some x).
Context (Ho : forall j, own' j = own j + nref j x - nref j (g x) + (if decide (j = k) then f_ref (g x) - f_ref x else 0)).
Context (Ho0 : forall j, 0 <= own' j).
Context (HE : forall p wr, E' p wr = E p wr + nend p wr x - nend p wr (g x)) (HE0 : forall p wr, 0 <= E' p wr).
Context (HG : forall i, G' i = G i + nlid i x - nlid i (g x)).
Context (Hcl : f_ref (g x) = 0 -> f_type (g x) = FD_NONE).
Context (Hwr : f_type (g x) = FD_PIPE -> f_writable (g x) = 0 \/ f_writable (g x) = 1).
Context (Hbd : is_bound (g x) = true -> 0 <= usock_lid (g x) < Z.of_nat NUSOCK).
Context (Hcn : is_conn (g x) = true -> exists r t xr xt, usock_rx (g x) = Some r /\ usock_tx (g x) = Some t /\ r <> k /\ t <> k /\
  ftable s !! r = Some xr /\ ftable s !! t = Some xt /\ is_end xr 0 = true /\ is_end xt 1 = true).
Context (Hk : (is_conn (g x) = is_conn x /\ forall wr, is_end (g x) wr = is_end x wr) \/ refs s k = 0).

Let s' := set_ftable (alter g k (ftable s)) s.

Lemma refs_upd j : refs s' j = refs s j - nref j x + nref j (g x).
Proof using Hx. unfold refs. cbn [ftable listeners set_ftable s']. rewrite (zsum_alter _ g _ k x Hx). lia. Qed.
Lemma ends_upd p wr : ends s' p wr = ends s p wr - nend p wr x + nend p wr (g x).
Proof using Hx. unfold ends. cbn [ftable set_ftable s']. by rewrite (zsum_alter _ g _ k x Hx). Qed.

(** An entry with holders is still what they hold. *)
Lemma entry_kept j y : ftable s !! j = Some y -> 1 <= refs s j ->
  exists y', ftable s' !! j = Some y' /\ is_conn y' = is_conn y /\ forall wr, is_end y' wr = is_end y wr.
Proof using Hx Hk.
  intros Hy Hr. cbn [ftable set_ftable s']. destruct (decide (j = k)) as [->|Hne].
  - assert (y = x) as -> by congruence. exists (g x). rewrite list_lookup_alter_eq, Hx. split; [done|]. destruct Hk as [Hk'|Hk']; [done|lia].
  - exists y. by rewrite list_lookup_alter_ne.
Qed.

Lemma entry_lookup j y : ftable s' !! j = Some y -> (j = k /\ y = g x) \/ (j <> k /\ ftable s !! j = Some y).
Proof using Hx.
  cbn [ftable set_ftable s']. destruct (decide (j = k)) as [->|Hne].
  - rewrite list_lookup_alter_eq, Hx. intros [= <-]. by left.
  - rewrite list_lookup_alter_ne by done. by right.
Qed.

Lemma entry_conn j y : ftable s' !! j = Some y -> is_conn y = true -> exists r t xr xt,
    usock_rx y = Some r /\ usock_tx y = Some t /\ ftable s' !! r = Some xr /\ ftable s' !! t = Some xt /\
    is_end xr 0 = true /\ is_end xt 1 = true.
Proof using PA Hi Hx Ho Ho0 HE HE0 HG Hcl Hwr Hbd Hcn Hk.
  intros [[-> ->]|[Hne Hy]]%entry_lookup Hc.
  - destruct (Hcn Hc) as (r & t & xr & xt & E1 & E2 & N1 & N2 & L1 & L2 & D1 & D2). exists r, t, xr, xt.
    cbn [ftable set_ftable s']. by rewrite !list_lookup_alter_ne.
  - destruct (fi_conn _ _ _ _ _ Hi j y Hy Hc) as (r & t & xr & xt & E1 & E2 & L1 & L2 & D1 & D2).
    destruct (entry_kept r xr L1) as (xr' & L1' & _ & D1'); [apply (conn_refs s j y); auto|].
    destruct (entry_kept t xt L2) as (xt' & L2' & _ & D2'); [apply (conn_refs s j y); auto|].
    exists r, t, xr', xt'. rewrite D1', D2'. done.
Qed.

Lemma entry_pages : exists F U, pa_inv (pool s') F /\ F ## U /\ A = F ∪ U /\ (forall p, p ∈ U -> pa_page p) /\
    (forall p, p ∈ U -> pipe_ok (pipes s' p) /\ cbool (readopen (pipes s' p)) = ends s' p 0 + E' p 0 /\
      cbool (writeopen (pipes s' p)) = ends s' p 1 + E' p 1 /\ 1 <= cbool (readopen (pipes s' p)) + cbool (writeopen (pipes s' p))) /\
    (forall p wr, p ∉ U -> wr = 0 \/ wr = 1 -> ends s' p wr = 0 /\ E' p wr = 0).
Proof using PA Hi Hx Ho Ho0 HE HE0 HG Hcl Hwr Hbd Hcn Hk.
  destruct (fi_pages _ _ _ _ _ Hi) as (F & U & H1' & H2' & H3 & H4 & H5 & H6). exists F, U. split_and!; [done..| |].
  - intros p Hp. destruct (H5 p Hp) as (K1 & K2 & K3 & K4). rewrite !ends_upd, !HE. cbn [pipes set_ftable s']. split_and!; [done|lia..].
  - intros p wr Hp Hw. destruct (H6 p wr Hp Hw) as (K1 & K2). rewrite ends_upd, HE. specialize (HE0 p wr). rewrite HE in HE0.
    pose proof (nend_nonneg p wr x). pose proof (nend_nonneg p wr (g x)).
    pose proof (zsum_in (nend p wr) (ftable s) k x (nend_nonneg p wr) Hx). unfold ends in *. lia.
Qed.

Lemma upd_file_inv : finv A s' own' E' G'.
Proof using PA Hi Hx Ho Ho0 HE HE0 HG Hcl Hwr Hbd Hcn Hk.
  pose proof Hi as [F1 F2 F3 F4 F5 F6 F7 F8 F9 F10 F11 F12 F13 F14 F15 F16]. constructor; try done.
  - cbn [ftable set_ftable s']. by rewrite length_alter.
  - intros j y [[-> ->]|[Hne Hy]]%entry_lookup; rewrite refs_upd, Ho.
    + rewrite decide_True by done. rewrite (F5 _ _ Hx). lia.
    + rewrite decide_False by done. rewrite (F5 _ _ Hy). lia.
  - intros j Hj. destruct (F6 j Hj) as [O1 R1]. specialize (Ho0 j). rewrite refs_upd. rewrite Ho in *.
    pose proof (nref_refs s k j x Hx). pose proof (nref_nonneg j x). pose proof (nref_nonneg j (g x)).
    rewrite decide_False in * by (intros ->; apply lookup_lt_Some in Hx; lia). lia.
  - intros j y [[-> ->]|[Hne Hy]]%entry_lookup; [done|by apply F7 with j].
  - exact entry_conn.
  - intros i l j e Hl Hp. destruct (F9 i l j e Hl Hp) as (y & Hy & Hc).
    destruct (entry_kept e y Hy) as (y' & Hy' & Hc' & _); [by eapply pending_refs|]. exists y'. by rewrite Hc'.
  - intros j y [[-> ->]|[Hne Hy]]%entry_lookup; [done|by apply F11 with j].
  - intros i l Hl. rewrite (F12 i l Hl), HG. unfold bindings. cbn [ftable set_ftable s']. rewrite (zsum_alter _ g _ k x Hx). lia.
  - intros j y [[-> ->]|[Hne Hy]]%entry_lookup; [done|by apply F13 with j].
  - exact entry_pages.
Qed.
End entry.

(** ** The table *)

(** One reference more and one less to the entry [k]. *)
Definition hold own k : nat -> Z := fun j => own j + (if decide (j = k) then 1 else 0).
Definition unhold own k : nat -> Z := fun j => own j - (if decide (j = k) then 1 else 0).

Lemma finv_own A s own own' E G : (forall k, own' k = own k) -> finv A s own E G -> finv A s own' E G.
Proof.
  intros Ho [F1 F2 F3 F4 F5 F6 F7 F8 F9 F10 F11 F12 F13 F14 F15 F16]. constructor; try done; intros k; rewrite Ho; auto.
Qed.

Lemma fat_lookup s k x : ftable s !! k = Some x -> fat s k = x.
Proof. intros Hx. unfold fat. by rewrite nth_lookup, Hx. Qed.

Lemma find_file_spec (l : list file) : forall i,
  match find_file l i with
  | Some k => exists j x, k = (i + j)%nat /\ l !! j = Some x /\ f_ref x = 0
  | None => forall j x, l !! j = Some x -> f_ref x <> 0
  end.
Proof.
  induction l as [|y l IH]; intros i; cbn [find_file]; [done|]. destruct (Z.eqb_spec (f_ref y) 0) as [Hy|Hy].
  - exists 0%nat, y. split_and!; [lia|done|done].
  - specialize (IH (S i)). destruct (find_file l (S i)) as [k|].
    + destruct IH as (j & x & -> & Hj & Hr). exists (S j), x. split_and!; [lia|done|done].
    + intros [|j] x Hj; [by simplify_eq/=|]. by apply (IH j).
Qed.

(** The holders of an entry, and what it is then. *)
Lemma held_kind A s own E G k x : finv A s own E G -> ftable s !! k = Some x -> 1 <= refs s k ->
  is_conn x = true \/ is_end x 0 = true \/ is_end x 1 = true.
Proof.
  intros Hi Hx Hr. unfold refs in Hr.
  assert (Hor : 1 <= zsum (nref k) (ftable s) \/ 1 <= zsum (lref k) (listeners s)) by lia. destruct Hor as [Hs|Hs].
  - destruct (zsum_pos _ _ (nref_nonneg k) Hs) as (j & y & Hy & Hn). unfold nref in Hn. destruct (is_conn y) eqn:Hc; [|lia].
    destruct (fi_conn _ _ _ _ _ Hi j y Hy Hc) as (r & t & xr & xt & E1 & E2 & L1 & L2 & D1 & D2). rewrite E1, E2 in Hn.
    unfold points in Hn. destruct (decide (r = k)) as [->|]; [assert (xr = x) as -> by congruence; auto|].
    destruct (decide (t = k)) as [->|]; [assert (xt = x) as -> by congruence; auto|].
    rewrite !bool_decide_eq_false_2 in Hn by congruence. cbn in Hn. lia.
  - destruct (zsum_pos _ _ (lref_nonneg k) Hs) as (i & l & Hl & Hn).
    destruct (zsum_pos _ _ (points_nonneg k) Hn) as (j & o & Ho & Hp). unfold points in Hp.
    case_bool_decide; [|cbn in Hp; lia]. subst o. destruct (fi_pending _ _ _ _ _ Hi i l j k Hl Ho) as (y & Hy & Hc).
    assert (y = x) as -> by congruence. auto.
Qed.

Lemma plain_not_held A s own E G k x : finv A s own E G -> ftable s !! k = Some x ->
  is_conn x = false -> f_type x <> FD_PIPE -> refs s k = 0.
Proof.
  intros Hi Hx Hc Hp. pose proof (refs_nonneg s k). destruct (decide (refs s k = 0)) as [|Hne]; [done|].
  destruct (held_kind A s own E G k x Hi Hx) as [?|[D|D]]; [lia|congruence|..];
    unfold is_end in D; rewrite bool_decide_eq_false_2 in D by done; done.
Qed.

(** An update that changes neither the type nor what it refers to. *)
Definition same_kind x y : Prop :=
  f_type y = f_type x /\ f_writable y = f_writable x /\ f_pipe y = f_pipe x /\ usock_state y = usock_state x /\
  usock_lid y = usock_lid x /\ usock_rx y = usock_rx x /\ usock_tx y = usock_tx x.

Lemma same_counts x y : same_kind x y -> is_conn y = is_conn x /\ is_bound y = is_bound x /\ (forall wr, is_end y wr = is_end x wr) /\
  (forall j, nref j y = nref j x) /\ (forall p wr, nend p wr y = nend p wr x) /\ (forall i, nlid i y = nlid i x).
Proof.
  intros (E1 & E2 & E3 & E4 & E5 & E6 & E7). unfold nref, nend, nlid, is_conn, is_bound, is_end. rewrite E1, E2, E3, E4, E5, E6, E7. done.
Qed.

Lemma upd_same_inv A s own own' E G k x g : finv A s own E G -> ftable s !! k = Some x -> same_kind x (g x) ->
  (forall j, own' j = own j + (if decide (j = k) then f_ref (g x) - f_ref x else 0)) -> (forall j, 0 <= own' j) ->
  (f_ref (g x) = 0 -> f_type x = FD_NONE) -> finv A (set_ftable (alter g k (ftable s)) s) own' E G.
Proof.
  intros Hi Hx Hs Ho Ho0 Hcl. pose proof Hs as (E1 & E2 & _ & _ & E5 & E6 & E7).
  destruct (same_counts x (g x) Hs) as (C1 & C2 & C3 & C4 & C5 & C6).
  eapply upd_file_inv; [exact Hi|exact Hx|..]; try done.
  - intros j. rewrite C4, Ho. lia.
  - intros p wr. rewrite C5. lia.
  - apply (fi_E _ _ _ _ _ Hi).
  - intros i. rewrite C6. lia.
  - rewrite E1. exact Hcl.
  - rewrite E1, E2. apply (fi_wr _ _ _ _ _ Hi k x Hx).
  - rewrite C2, E5. apply (fi_bound _ _ _ _ _ Hi k x Hx).
  - rewrite C1, E6, E7. intros Hc. destruct (fi_conn _ _ _ _ _ Hi k x Hx Hc) as (r & t & xr & xt & R1 & R2 & L1 & L2 & D1 & D2).
    exists r, t, xr, xt. assert (Hne : forall y wr, is_end y wr = true -> y <> x).
    { intros y wr D ->. unfold is_conn, is_end in *. destruct (f_type x); done. }
    split_and!; try done; intros ->; [apply (Hne xr 0)|apply (Hne xt 1)]; congruence.
  - left. done.
Qed.

Lemma filealloc_spec A s own E G : finv A s own E G ->
  (filealloc s = Done None s /\ forall k x, ftable s !! k = Some x -> f_ref x <> 0) \/
  exists k x, ftable s !! k = Some x /\ f_ref x = 0 /\ f_type x = FD_NONE /\
    filealloc s = Done (Some k) (set_ftable (alter fresh_file k (ftable s)) s) /\
    finv A (set_ftable (alter fresh_file k (ftable s)) s) (hold own k) E G.
Proof.
  intros Hi. destruct (fi_locks _ _ _ _ _ Hi) as [Hl _]. unfold filealloc, acquire, release, upd_file, kbind, kget, kput, kmodify, kret.
  cbn [held set_held file_locks ftable]. rewrite Hl. cbn [ftable]. pose proof (find_file_spec (ftable s) 0) as Hf.
  destruct (find_file (ftable s) 0) as [k|].
  - right. destruct Hf as (j & x & -> & Hx & Hr). exists j, x. pose proof (fi_closed _ _ _ _ _ Hi j x Hx Hr) as Ht.
    split_and!; [done..| |].
    + cbn. f_equal. destruct s; cbn in *. by subst.
    + eapply upd_same_inv; [exact Hi|exact Hx|by repeat split| | |done].
      * intros i. unfold hold. cbn [f_ref fresh_file]. rewrite Hr. done.
      * intros i. unfold hold. pose proof (fi_own _ _ _ _ _ Hi i). case_decide; lia.
  - left. split; [|done]. cbn. f_equal. destruct s; cbn in *. by subst.
Qed.

Lemma filedup_spec A s own E G k : finv A s own E G -> 1 <= own k -> exists x, ftable s !! k = Some x /\
  filedup k s = Done k (set_ftable (alter (set_fref (f_ref x + 1)) k (ftable s)) s) /\
  finv A (set_ftable (alter (set_fref (f_ref x + 1)) k (ftable s)) s) (hold own k) E G.
Proof.
  intros Hi Hk. assert (Hlt : (k < length (ftable s))%nat).
  { rewrite (fi_len _ _ _ _ _ Hi). destruct (decide (k < NFILE)%nat); [done|]. destruct (fi_out _ _ _ _ _ Hi k); lia. }
  apply lookup_lt_is_Some in Hlt as [x Hx]. exists x. split; [done|]. pose proof (fi_ref _ _ _ _ _ Hi k x Hx) as Hr.
  pose proof (refs_nonneg s k). destruct (fi_locks _ _ _ _ _ Hi) as [Hl _]. split.
  - unfold filedup, acquire, release, upd_file, kbind, kget, kput, kmodify, kret. cbn [held set_held file_locks]. rewrite Hl.
    unfold fat. cbn [ftable]. rewrite nth_lookup, Hx. cbn [default from_option id]. rewrite (proj2 (Z.ltb_ge _ _)) by lia. cbn.
    f_equal. destruct s; cbn in *. by subst.
  - eapply upd_same_inv; [exact Hi|exact Hx|by repeat split| | |].
    + intros i. unfold hold. cbn [f_ref set_fref]. case_decide; lia.
    + intros i. unfold hold. pose proof (fi_own _ _ _ _ _ Hi i). case_decide; lia.
    + cbn [f_ref set_fref]. lia.
Qed.

(** ** Closing *)

(** No entry gains a reference, and one that keeps some keeps its fields. *)
Definition settled s s' : Prop := forall j x', ftable s' !! j = Some x' -> exists x, ftable s !! j = Some x /\
  0 <= f_ref x' <= f_ref x /\ (f_ref x' <> 0 -> set_fref 0 x' = set_fref 0 x).

Lemma settled_refl A s own E G : finv A s own E G -> settled s s.
Proof.
  intros Hi j x Hx. exists x. split; [done|]. split; [|done]. rewrite (fi_ref _ _ _ _ _ Hi j x Hx).
  pose proof (fi_own _ _ _ _ _ Hi j). pose proof (refs_nonneg s j). lia.
Qed.
Lemma settled_trans s1 s2 s3 : settled s1 s2 -> settled s2 s3 -> settled s1 s3.
Proof.
  intros H12 H23 j x3 H3. destruct (H23 j x3 H3) as (x2 & H2' & R23 & E23). destruct (H12 j x2 H2') as (x1 & H1' & R12 & E12).
  exists x1. split_and!; [done|lia|lia|]. intros Hne. rewrite E23 by done. apply E12. lia.
Qed.
Lemma settled_same x x' : set_fref 0 x' = set_fref 0 x -> same_kind x x'.
Proof. intros [=]. by repeat split. Qed.

Definition one_end (p wr : Z) : Z -> Z -> Z := fun p' wr' => cbool ((p' =? p) && (wr' =? wr)).

(** [pipeclose] on a pipe that is not locked. *)
Definition shut (writable : bool) (p : pipe) : pipe :=
  if writable then set_open (readopen p) false p else set_open false (writeopen p) p.
Lemma pipeclose_eq p b (w : pworld Q) : p_lock (pp w) = false ->
  pipeclose p b w = Done (negb (readopen (shut b (pp w))) && negb (writeopen (shut b (pp w))))
    {| pp := shut b (pp w); queue := sq_wakeup (if b then nread_chan p else nwrite_chan p) (queue w) |}.
Proof.
  intros Hl. unfold pipeclose, acquire, release, Pipe.wakeup, kbind, kget, kput, kmodify, kret. cbn. rewrite Hl.
  destruct b; cbn; f_equal; destruct w as [[] ?]; cbn in *; by subst.
Qed.

(** The table is the same, the pipe [p] and the allocator have changed. *)
Lemma upd_pages_inv A s own E E' G (ps : Z -> pipe) q pl p : finv A s own E G ->
  let s' := set_pool pl (set_pipes ps q s) in
  (forall p', p' <> p -> ps p' = pipes s p' /\ forall wr, E' p' wr = E p' wr) -> (forall p' wr, 0 <= E' p' wr) ->
  p_lock (ps p) = false -> length (data (ps p)) = Z.to_nat PIPESIZE ->
  (forall F U, pa_inv (pool s) F -> F ## U -> A = F ∪ U -> (forall p, p ∈ U -> pa_page p) ->
    (p ∈ U -> pipe_ok (pipes s p) /\ cbool (readopen (pipes s p)) = ends s p 0 + E p 0 /\ cbool (writeopen (pipes s p)) = ends s p 1 + E p 1) ->
    (p ∉ U -> forall wr, wr = 0 \/ wr = 1 -> ends s p wr = 0 /\ E p wr = 0) ->
    exists F' U', pa_inv pl F' /\ F' ## U' /\ A = F' ∪ U' /\ (forall p', p' <> p -> p' ∈ U' <-> p' ∈ U) /\
      (p ∈ U' -> pa_page p /\ pipe_ok (ps p) /\ cbool (readopen (ps p)) = ends s p 0 + E' p 0 /\
        cbool (writeopen (ps p)) = ends s p 1 + E' p 1 /\ 1 <= cbool (readopen (ps p)) + cbool (writeopen (ps p))) /\
      (p ∉ U' -> forall wr, wr = 0 \/ wr = 1 -> ends s p wr = 0 /\ E' p wr = 0)) ->
  finv A s' own E' G.
Proof.
  intros [F1 F2 F3 F4 F5 F6 F7 F8 F9 F10 F11 F12 F13 F14 F15 F16] s' Hps HE0 Hlk Hlen Hpg. constructor; try done.
  - intros p'. cbn. destruct (decide (p' = p)) as [->|Hne]; [done|]. rewrite (proj1 (Hps p' Hne)). apply F14.
  - destruct F15 as (F & U & P1 & P2 & P3 & P4 & P5 & P6).
    destruct (Hpg F U P1 P2 P3 P4) as (F' & U' & Q1 & Q2 & Q3 & Q4 & Q5 & Q6).
    { intros Hp. destruct (P5 p Hp) as (? & ? & ? & ?). done. }
    { intros Hp wr Hw. by apply P6. }
    exists F', U'. unfold s'. cbn [pool set_pool pipes set_pipes]. split_and!; [done..| | |].
    + intros p' Hp. destruct (decide (p' = p)) as [->|Hne]; [by apply Q5|]. apply P4. by apply Q4.
    + intros p' Hp. destruct (decide (p' = p)) as [->|Hne]; [apply Q5; done|]. destruct (Hps p' Hne) as [-> HE].
      rewrite !HE. apply P5. by apply Q4.
    + intros p' wr Hp Hw. destruct (decide (p' = p)) as [->|Hne]; [by apply Q6|]. destruct (Hps p' Hne) as [_ HE].
      rewrite HE. apply P6; [|done]. by rewrite <- Q4.
Qed.

Lemma cbool_cases b : cbool b = 0 \/ cbool b = 1.
Proof. destruct b; auto. Qed.
Lemma ends_nonneg s p wr : 0 <= ends s p wr.
Proof. apply zsum_nonneg, nend_nonneg. Qed.

Lemma shut_spec b p : pipe_ok p -> pipe_ok (shut b p) /\ p_lock (shut b p) = p_lock p /\
  cbool (readopen (shut b p)) = (if b then cbool (readopen p) else 0) /\ cbool (writeopen (shut b p)) = (if b then 0 else cbool (writeopen p)).
Proof. intros [H1' H2' H3 H4]. destruct b; split_and!; done. Qed.

Lemma close_pipe_spec A s own E G p b : finv A s own E G -> 1 <= E p (cbool b) ->
  exists ps q pl, close_pipe kfree p b s = Done tt (set_pool pl (set_pipes ps q s)) /\
    finv A (set_pool pl (set_pipes ps q s)) own (fun p' wr => E p' wr - one_end p (cbool b) p' wr) G.
Proof.
  intros Hi HEp. destruct (fi_plock _ _ _ _ _ Hi p) as [Hlk Hlen]. pose proof (ends_nonneg s p 0) as He0. pose proof (ends_nonneg s p 1) as He1.
  pose proof (fi_E _ _ _ _ _ Hi) as HE0.
  destruct (fi_pages _ _ _ _ _ Hi) as (F & U & P1 & P2 & P3 & P4 & P5 & P6).
  assert (HpU : p ∈ U). { destruct (decide (p ∈ U)) as [|Hn]; [done|]. destruct (P6 p (cbool b) Hn (cbool_cases b)). lia. }
  destruct (P5 p HpU) as (Hok & Hr & Hw & _). destruct (shut_spec b _ Hok) as (Sok & Slk & Sr & Sw).
  pose proof (cbool_cases (readopen (pipes s p))). pose proof (cbool_cases (writeopen (pipes s p))).
  set (ps := fun a : Z => if a =? p then shut b (pipes s p) else pipes s a).
  set (q := sq_wakeup (if b then nread_chan p else nwrite_chan p) (sleepers s)).
  set (gone := negb (readopen (shut b (pipes s p))) && negb (writeopen (shut b (pipes s p)))).
  assert (Hrun : inpipe p (pipeclose p b) s = Done gone (set_pipes ps q s)).
  { unfold inpipe, zoom. rewrite pipeclose_eq by done. done. }
  set (E' := fun p' wr => E p' wr - one_end p (cbool b) p' wr).
  assert (HE' : forall p' wr, 0 <= E' p' wr).
  { intros p' wr. unfold E', one_end. specialize (HE0 p' wr). destruct (Z.eqb_spec p' p) as [->|], (Z.eqb_spec wr (cbool b)) as [->|]; cbn; lia. }
  assert (Hoth : forall p', p' <> p -> ps p' = pipes s p' /\ forall wr, E' p' wr = E p' wr).
  { intros p' Hne. unfold ps, E', one_end. rewrite (proj2 (Z.eqb_neq p' p)) by done. split; [done|]. intros wr. cbn. lia. }
  assert (Hpp : ps p = shut b (pipes s p)) by (unfold ps; by rewrite Z.eqb_refl).
  assert (Hcr : cbool (readopen (ps p)) = ends s p 0 + E' p 0 /\ cbool (writeopen (ps p)) = ends s p 1 + E' p 1).
  { rewrite Hpp, Sr, Sw. unfold E', one_end. rewrite Z.eqb_refl. pose proof (HE0 p 0). pose proof (HE0 p 1). destruct b; cbn in *; lia. }
  assert (Hd : length (data (ps p)) = Z.to_nat PIPESIZE) by (rewrite Hpp; by destruct b).
  unfold close_pipe, kbind. rewrite Hrun. destruct gone eqn:Hg.
  - destruct (pa_free (pool s) F p P1 (P4 p HpU)) as (pl & Ef & Hpl). exists ps, q, pl. split.
    { unfold inpool, zoom. cbn [pool set_pipes]. by rewrite Ef. }
    assert (Hz : cbool (readopen (ps p)) = 0 /\ cbool (writeopen (ps p)) = 0).
    { rewrite Hpp. unfold gone in Hg. apply andb_true_iff in Hg as [G1 G2]. apply negb_true_iff in G1, G2. by rewrite G1, G2. }
    apply (upd_pages_inv A s own E E' G ps q pl p); try done; [by rewrite Hpp, Slk|].
    intros F0 U0 Q1 Q2 Q3 Q4 Q5 Q6. destruct (pa_free (pool s) F0 p Q1 (P4 p HpU)) as (pl0 & Ef0 & Hpl0).
    assert (pl0 = pl) as -> by congruence. exists ({[p]} ∪ F0), (U0 ∖ {[p]}). split_and!; [done|set_solver| |set_solver|set_solver|].
    + assert (p ∈ U0); [|rewrite Q3; apply set_eq; intros z; destruct (decide (z = p)); set_solver].
      destruct (decide (p ∈ U0)) as [|Hn]; [done|]. destruct (Q6 Hn (cbool b) (cbool_cases b)). lia.
    + intros _ wr Hwr. pose proof (HE' p 0). pose proof (HE' p 1). destruct Hwr as [-> | ->]; lia.
  - exists ps, q, (pool s). replace (set_pool (pool s) (set_pipes ps q s)) with (set_pipes ps q s) by (by destruct s). split; [done|].
    replace (set_pipes ps q s) with (set_pool (pool s) (set_pipes ps q s)) by (by destruct s).
    apply (upd_pages_inv A s own E E' G ps q (pool s) p); try done; [by rewrite Hpp, Slk|].
    intros F0 U0 Q1 Q2 Q3 Q4 Q5 Q6. exists F0, U0. split_and!; try done.
    + intros Hin. split_and!; [by apply Q4|by rewrite Hpp|apply Hcr|apply Hcr|]. rewrite Hpp. unfold gone in Hg.
      destruct (readopen (shut b (pipes s p))), (writeopen (shut b (pipes s p))); cbn in *; done || lia.
    + intros Hn. destruct (Q6 Hn (cbool b) (cbool_cases b)). lia.
Qed.

Lemma finv_ext A s own own' E E' G G' : (forall k, own' k = own k) -> (forall p wr, E' p wr = E p wr) -> (forall i, G' i = G i) ->
  finv A s own E G -> finv A s own' E' G'.
Proof.
  intros Ho HE HG Hi. apply (finv_own A s own); [done|]. destruct Hi as [F1 F2 F3 F4 F5 F6 F7 F8 F9 F10 F11 F12 F13 F14 F15 F16]. constructor; try done.
  - intros i l Hl. rewrite HG. by apply F12.
  - destruct F15 as (F & U & P1 & P2 & P3 & P4 & P5 & P6). exists F, U. split_and!; try done.
    + intros p Hp. rewrite !HE. by apply P5.
    + intros p wr Hp Hw. rewrite HE. by apply P6.
  - intros p wr. rewrite HE. apply F16.
Qed.
Lemma finv_inodes A s own E G i : finv A s own E G -> finv A (set_inodes i s) own E G.
Proof. intros [F1 F2 F3 F4 F5 F6 F7 F8 F9 F10 F11 F12 F13 F14 F15 F16]. by constructor. Qed.
Lemma finv_net A s own E G n : finv A s own E G -> finv A (set_net n s) own E G.
Proof. intros [F1 F2 F3 F4 F5 F6 F7 F8 F9 F10 F11 F12 F13 F14 F15 F16]. by constructor. Qed.

Lemma owned A s own E G k : finv A s own E G -> 1 <= own k -> exists x, ftable s !! k = Some x /\ 1 <= f_ref x.
Proof.
  intros Hi Hk. assert (Hlt : (k < length (ftable s))%nat).
  { rewrite (fi_len _ _ _ _ _ Hi). destruct (decide (k < NFILE)%nat); [done|]. destruct (fi_out _ _ _ _ _ Hi k); lia. }
  apply lookup_lt_is_Some in Hlt as [x Hx]. exists x. split; [done|]. rewrite (fi_ref _ _ _ _ _ Hi k x Hx). pose proof (refs_nonneg s k). lia.
Qed.
(** What is still held has not changed. *)
Lemma still_held A s s' own E G k x : settled s s' -> finv A s' own E G -> 1 <= own k -> ftable s !! k = Some x ->
  exists x', ftable s' !! k = Some x' /\ same_kind x x'.
Proof.
  intros Hs Hi Hk Hx. destruct (owned _ _ _ _ _ _ Hi Hk) as (x' & Hx' & Hr). exists x'. split; [done|].
  destruct (Hs k x' Hx') as (y & Hy & _ & He). assert (y = x) as -> by congruence. apply settled_same, He. lia.
Qed.

Lemma drop_entry A s own E G k x : finv A s own E G -> ftable s !! k = Some x -> 1 <= own k -> f_ref x = 1 ->
  let s' := set_ftable (alter closed_file k (ftable s)) s in
  finv A s' (fun j => unhold own k j + nref j x) (fun p wr => E p wr + nend p wr x) (fun i => G i + nlid i x) /\ settled s s'.
Proof.
  intros Hi Hx Hk Hr s'. pose proof (fi_ref _ _ _ _ _ Hi k x Hx) as Hrf. pose proof (refs_nonneg s k) as Hr0.
  pose proof (fi_own _ _ _ _ _ Hi) as Ho0. pose proof (fi_E _ _ _ _ _ Hi) as HE0. split.
  - eapply upd_file_inv; [exact Hi|exact Hx|..]; try done.
    + intros j. change (nref j (closed_file x)) with 0. cbn [f_ref closed_file]. unfold unhold. case_decide; lia.
    + intros j. unfold unhold. specialize (Ho0 j). pose proof (nref_nonneg j x). case_decide; [subst|]; lia.
    + intros p wr. change (nend p wr (closed_file x)) with 0. lia.
    + intros p wr. specialize (HE0 p wr). pose proof (nend_nonneg p wr x). lia.
    + intros i. change (nlid i (closed_file x)) with 0. lia.
    + right. lia.
  - intros j y. unfold s'. cbn [ftable set_ftable]. destruct (decide (j = k)) as [->|Hne].
    + rewrite list_lookup_alter_eq, Hx. intros [= <-]. exists x. cbn [f_ref closed_file]. split_and!; [done|lia|lia|done].
    + rewrite list_lookup_alter_ne by done. apply (settled_refl A s own E G Hi).
Qed.

(** What [fileclose] does with the copy of the last reference's entry. *)
Definition close_rest (n : nat) x : K fsys unit :=
  match f_type x with
  | FD_PIPE => close_pipe kfree (f_pipe x) (negb (f_writable x =? 0))
  | FD_INODE => close_inode x
  | FD_TCPSOCK =>
      kmodify (fun s => set_net (net_tcp_user_unref (tcp_slot x)
        (if negb (tcp_listen x =? 0) then TCP_UNREF_CLOSE_LISTEN else TCP_UNREF_CLOSE_ACCEPTED) (net s)) s)
  | FD_UDPSOCK => kmodify (fun s => set_net (net_udp_user_unref (udp_slot x) (net s)) s)
  | FD_USOCK => usock_fileclose l_addr (fileclose_fuel kfree l_addr n) x
  | FD_NONE => kret tt
  end.
Abbreviation close_with n := (fileclose_fuel kfree l_addr n).

Lemma fileclose_eq A s own E G n k x : finv A s own E G -> ftable s !! k = Some x -> 1 <= f_ref x ->
  close_with (S n) k s =
    if 0 <? f_ref x - 1 then Done tt (set_ftable (alter (set_fref (f_ref x - 1)) k (ftable s)) s)
    else close_rest n x (set_ftable (alter closed_file k (ftable s)) s).
Proof.
  intros Hi Hx Hr. destruct (fi_locks _ _ _ _ _ Hi) as [Hl _]. cbn [fileclose_fuel].
  unfold acquire, release, upd_file, kbind at 1 2 3, kget, kput. cbn [held set_held file_locks]. rewrite Hl. unfold fat. cbn [ftable].
  rewrite nth_lookup, Hx. cbn [default from_option id]. rewrite (proj2 (Z.ltb_ge _ _)) by lia.
  assert (E1 : forall l' : list file, {| ftable_lock := false; ftable := l'; pipes := pipes s; pool := pool s; sleepers := sleepers s;
     usock_lock := usock_lock s; listeners := listeners s; inodes := inodes s; net := net s |} = set_ftable l' s).
  { intros l'. destruct s; cbn in *. by subst. }
  destruct (0 <? f_ref x - 1); unfold kmodify, kbind; cbn; [by rewrite E1|]. by rewrite E1.
Qed.

(** The last reference to a file on an inode is closed in a transaction. *)
Definition inode_closes s x : Prop := f_type x = FD_INODE -> f_ref x = 1 -> exists ip i', f_ip x = Some ip /\
  (inblk tr_begin ;; iput ip ;; inblk tr_commit) (inodes s) = Done tt i'.

Definition closes A (m : K fsys unit) s own E G k : Prop :=
  exists s', m s = Done tt s' /\ finv A s' (unhold own k) E G /\ settled s s'.

Lemma close_shared A s own E G n k x : finv A s own E G -> ftable s !! k = Some x -> 1 <= own k -> f_ref x <> 1 ->
  closes A (close_with (S n) k) s own E G k.
Proof.
  intros Hi Hx Hk Hr. destruct (owned _ _ _ _ _ _ Hi Hk) as (x' & Hx' & Hr1). assert (x' = x) as -> by congruence.
  unfold closes. rewrite (fileclose_eq A s own E G n k x) by done. rewrite (proj2 (Z.ltb_lt _ _)) by lia. eexists. split; [done|]. split.
  - eapply upd_same_inv; [exact Hi|exact Hx|by repeat split| | |].
    + intros j. unfold unhold. cbn [f_ref set_fref]. case_decide; lia.
    + intros j. unfold unhold. pose proof (fi_own _ _ _ _ _ Hi j). case_decide; [subst|]; lia.
    + cbn [f_ref set_fref]. lia.
  - intros j y. cbn [ftable set_ftable]. destruct (decide (j = k)) as [->|Hne].
    + rewrite list_lookup_alter_eq, Hx. intros [= <-]. exists x. cbn [f_ref set_fref]. split_and!; [done|lia|lia|done].
    + rewrite list_lookup_alter_ne by done. apply (settled_refl A s own E G Hi).
Qed.

Lemma nref_plain j x : is_conn x = false -> nref j x = 0.
Proof. intros Hc. unfold nref. by rewrite Hc. Qed.
Lemma plain_counts x : f_type x <> FD_USOCK -> is_conn x = false /\ forall i, nlid i x = 0.
Proof. intros Ht. unfold nlid, is_conn, is_bound. by rewrite bool_decide_eq_false_2. Qed.
Lemma no_end x : f_type x <> FD_PIPE -> forall p wr, nend p wr x = 0.
Proof. intros Ht p wr. unfold nend, is_end. by rewrite bool_decide_eq_false_2. Qed.
Lemma settled_ftable s s' s'' : settled s s' -> ftable s'' = ftable s' -> settled s s''.
Proof. unfold settled. intros Hs ->. exact Hs. Qed.

(** A file that is no socket. *)
Lemma close_leaf A s own E G n k x : finv A s own E G -> ftable s !! k = Some x -> 1 <= own k -> f_type x <> FD_USOCK ->
  inode_closes s x -> closes A (close_with (S n) k) s own E G k.
Proof.
  intros Hi Hx Hk Ht Hin. destruct (decide (f_ref x = 1)) as [Hr|Hr]; [|by eapply close_shared].
  destruct (plain_counts x Ht) as [Hc Hb]. destruct (drop_entry A s own E G k x Hi Hx Hk Hr) as [Hd Hs].
  unfold closes. rewrite (fileclose_eq A s own E G n k x) by (done || lia). rewrite Hr. cbn [Z.sub Z.ltb Z.compare]. cbv iota.
  set (s1 := set_ftable (alter closed_file k (ftable s)) s) in *. unfold close_rest.
  assert (Hd' : f_type x <> FD_PIPE -> finv A s1 (unhold own k) E G).
  { intros Hp. eapply finv_ext; [..|exact Hd]; cbn beta; intros; rewrite ?(nref_plain _ _ Hc), ?Hb, ?no_end by done; lia. }
  destruct (f_type x) eqn:Ety; try done.
  - exists s1. eauto.
  - assert (Hw : cbool (negb (f_writable x =? 0)) = f_writable x).
    { destruct (fi_wr _ _ _ _ _ Hi k x Hx Ety) as [-> | ->]; done. }
    assert (Hn : forall p wr, nend p wr x = one_end (f_pipe x) (f_writable x) p wr).
    { intros p wr. unfold nend, is_end, one_end. rewrite bool_decide_eq_true_2 by done. cbn [andb].
      by rewrite (Z.eqb_sym p), (Z.eqb_sym wr), andb_comm. }
    destruct (close_pipe_spec A s1 _ _ _ (f_pipe x) (negb (f_writable x =? 0)) Hd) as (ps & q & pl & Ec & Hf).
    { cbn beta. rewrite Hw, Hn. unfold one_end. rewrite !Z.eqb_refl. pose proof (fi_E _ _ _ _ _ Hi (f_pipe x) (f_writable x)). cbn. lia. }
    eexists. split; [exact Ec|]. split; [|by eapply settled_ftable].
    eapply finv_ext; [..|exact Hf]; cbn beta; intros; rewrite ?(nref_plain _ _ Hc), ?Hb, ?Hw, ?Hn; lia.
  - destruct (Hin Ety Hr) as (ip & i' & Eip & Ei). exists (set_inodes i' s1). split; [|split; [by apply finv_inodes, Hd'|by eapply settled_ftable]].
    revert Ei. unfold close_inode, begin_trans, commit_trans, infs, ip_of, zoom, kbind, kret. rewrite Eip. cbn [inodes s1 set_ftable].
    destruct (inblk tr_begin (inodes s)) as [[] i1| |]; [|done..]. cbn [inodes set_inodes]. destruct (iput ip i1) as [[] i2| |]; [|done..].
    cbn [inodes set_inodes]. by intros ->.
  - eexists. split; [done|]. split; [by apply finv_net, Hd'|by eapply settled_ftable].
  - eexists. split; [done|]. split; [by apply finv_net, Hd'|by eapply settled_ftable].
Qed.

Lemma end_leaf s x wr : is_end x wr = true -> f_type x <> FD_USOCK /\ inode_closes s x /\ is_conn x = false.
Proof.
  unfold is_end, inode_closes, is_conn. intros [Ht _]%andb_true_iff. apply bool_decide_eq_true in Ht. rewrite Ht. split_and!; done.
Qed.

(** A connected socket holds two pipe ends. *)
Lemma close_conn A s own E G n k x : finv A s own E G -> ftable s !! k = Some x -> 1 <= own k -> is_conn x = true ->
  closes A (close_with (S (S n)) k) s own E G k.
Proof.
  intros Hi Hx Hk Hc. destruct (decide (f_ref x = 1)) as [Hr|Hr]; [|by eapply close_shared].
  destruct (drop_entry A s own E G k x Hi Hx Hk Hr) as [Hd Hs]. pose proof (fi_own _ _ _ _ _ Hi) as Ho0.
  destruct (fi_conn _ _ _ _ _ Hi k x Hx Hc) as (r & t & xr & xt & R1 & R2 & L1 & L2 & D1 & D2).
  unfold closes. rewrite (fileclose_eq A s own E G (S n) k x) by (done || lia). rewrite Hr. cbn [Z.sub Z.ltb Z.compare]. cbv iota.
  set (s1 := set_ftable (alter closed_file k (ftable s)) s) in *.
  pose proof Hc as [Ht Hst]%andb_true_iff. apply bool_decide_eq_true in Ht.
  unfold close_rest, usock_fileclose. rewrite Ht, Hst, R1, R2. cbn [negb bool_decide decide_rel close_opt]. rewrite bool_decide_eq_true_2 by done. cbn [negb].
  assert (Hn : forall j, nref j x = (if decide (j = r) then 1 else 0) + (if decide (j = t) then 1 else 0)).
  { intros j. unfold nref, points. rewrite Hc, R1, R2. repeat case_bool_decide; repeat case_decide; simplify_eq; done. }
  assert (Hb : forall i, nlid i x = 0).
  { intros i. unfold nlid, is_bound. rewrite (proj1 (Z.eqb_eq _ _) Hst). by rewrite andb_false_r. }
  assert (He : forall p wr, nend p wr x = 0) by (apply no_end; congruence).
  assert (Hu : forall j, 0 <= unhold own k j).
  { intros j. unfold unhold. specialize (Ho0 j). case_decide; subst; lia. }
  destruct (still_held A s s1 _ _ _ r xr Hs Hd) as (xr1 & L1' & K1); [|done|].
  { cbn beta. rewrite Hn. specialize (Hu r). repeat case_decide; done || lia. }
  destruct (end_leaf s1 xr1 0) as (T1 & I1 & _); [by rewrite (proj1 (proj2 (proj2 (same_counts _ _ K1))))|].
  destruct (close_leaf A s1 _ _ _ n r xr1 Hd L1') as (s2 & C2 & Hd2 & Hs2); [|done..|].
  { cbn beta. rewrite Hn. specialize (Hu r). repeat case_decide; done || lia. }
  assert (Ht2 : 1 <= unhold (fun j => unhold own k j + nref j x) r t).
  { unfold unhold at 1. cbn beta. rewrite Hn. specialize (Hu t). repeat case_decide; done || lia. }
  destruct (still_held A s s2 _ _ _ t xt (settled_trans _ _ _ Hs Hs2) Hd2 Ht2 L2) as (xt2 & L2' & K2).
  destruct (end_leaf s2 xt2 1) as (T2 & I2 & _); [by rewrite (proj1 (proj2 (proj2 (same_counts _ _ K2))))|].
  destruct (close_leaf A s2 _ _ _ n t xt2 Hd2 L2' Ht2 T2 I2) as (s3 & C3 & Hd3 & Hs3).
  exists s3. unfold kbind. rewrite C2. split; [exact C3|]. split; [|eauto using settled_trans].
  eapply finv_ext; [..|exact Hd3]; cbn beta; intros; rewrite ?Hb, ?He; try lia.
  unfold unhold. rewrite Hn. unfold unhold. lia.
Qed.

Lemma upd_listener_inv A s own own' E G G' i l l' : finv A s own E G -> listeners s !! i = Some l ->
  (forall j, own' j = own j + lref j l - lref j l') -> (forall j, 0 <= own' j) ->
  (forall i', G' i' = G i' + if decide (i' = i) then cbool (used l') - cbool (used l) else 0) -> ring_ok l' ->
  (forall j e, pending l' !! j = Some (Some e) -> exists x, ftable s !! e = Some x /\ is_conn x = true) ->
  finv A (set_listeners (<[i := l']> (listeners s)) s) own' E G'.
Proof.
  intros [F1 F2 F3 F4 F5 F6 F7 F8 F9 F10 F11 F12 F13 F14 F15 F16] Hl Ho Ho0 HG Hr Hp.
  assert (Hrf : forall j, refs (set_listeners (<[i := l']> (listeners s)) s) j = refs s j - lref j l + lref j l').
  { intros j. unfold refs. cbn [ftable listeners set_listeners]. rewrite (zsum_insert _ _ _ _ _ Hl). lia. }
  assert (Hlt : (i < length (listeners s))%nat) by (by eapply lookup_lt_Some).
  assert (Hlk : forall i' y, <[i := l']> (listeners s) !! i' = Some y -> (i' = i /\ y = l') \/ (i' <> i /\ listeners s !! i' = Some y)).
  { intros i' y. destruct (decide (i' = i)) as [->|Hne].
    - rewrite list_lookup_insert_eq by done. intros [= <-]. by left.
    - rewrite list_lookup_insert_ne by done. by right. }
  constructor; try done.
  - cbn. by rewrite length_insert.
  - intros k x Hx. rewrite Hrf, Ho. rewrite (F5 k x Hx). lia.
  - intros k Hk. destruct (F6 k Hk) as [O1 R1]. specialize (Ho0 k). rewrite Hrf. rewrite Ho in *.
    pose proof (lref_nonneg k l'). pose proof (lref_nonneg k l). pose proof (zsum_in (lref k) (listeners s) i l (lref_nonneg k) Hl).
    pose proof (zsum_nonneg (nref k) (ftable s) (nref_nonneg k)). assert (lref k l = 0) by (unfold refs in R1; lia). lia.
  - intros i' y j e [[-> ->]|[Hne Hy]]%Hlk Hj; [by eapply Hp|by eapply F9].
  - intros i' y [[-> ->]|[Hne Hy]]%Hlk; [done|by apply (F10 i')].
  - intros i' y [[-> ->]|[Hne Hy]]%Hlk; rewrite HG.
    + rewrite decide_True by done. pose proof (F12 i l Hl). unfold bindings in *. cbn [ftable set_listeners]. lia.
    + rewrite decide_False by done. rewrite (F12 i' y Hy). unfold bindings. cbn [ftable set_listeners]. lia.
Qed.

Lemma lat_lookup s i l : listeners s !! i = Some l -> lat s i = l.
Proof. intros Hl. unfold lat. by rewrite nth_lookup, Hl. Qed.
Lemma finv_queue A s own E G q : finv A s own E G -> finv A (set_pipes (pipes s) q s) own E G.
Proof. intros [F1 F2 F3 F4 F5 F6 F7 F8 F9 F10 F11 F12 F13 F14 F15 F16]. by constructor. Qed.

Lemma drain_spec i : forall (c fuel : nat) s l, listeners s !! i = Some l -> ring l -> l_cnt l = Z.of_nat c -> (c < fuel)%nat ->
  exists es l', drain fuel i s = Done (Some <$> es) (set_listeners (<[i := l']> (listeners s)) s) /\
    ring l' /\ l_cnt l' = 0 /\ used l' = used l /\ backlog l' = backlog l /\ l_lock l' = l_lock l /\ l_path l' = l_path l /\
    (forall k, lref k l = zsum (points k) (Some <$> es)) /\ (forall e, e ∈ es -> exists j, pending l !! j = Some (Some e)).
Proof.
  induction c as [|c IH]; intros [|fuel] s l Hl Hr Hc Hf; try lia; cbn [drain]; unfold kbind at 1, kget; rewrite (lat_lookup s i l Hl).
  - rewrite Hc. cbn. exists [], l. rewrite list_insert_id by done. replace (set_listeners (listeners s) s) with s by (by destruct s).
    split_and!; try done; [|by intros e ?%not_elem_of_nil]. intros k. by rewrite empty_lref.
  - rewrite (proj2 (Z.ltb_lt _ _)) by lia. destruct (dequeue_ring l Hr) as (Hr' & e & He & Hk); [lia|].
    unfold upd_listener, kmodify, kbind. rewrite (alter_insert _ _ _ _ Hl).
    assert (Hlt : (i < length (listeners s))%nat) by (by eapply lookup_lt_Some).
    destruct (IH fuel (set_listeners (<[i := dequeue l]> (listeners s)) s) (dequeue l)) as (es & l' & Ed & K1 & K2 & K3 & K4 & K5 & K6 & K7 & K8).
    { cbn [listeners set_listeners]. by rewrite list_lookup_insert_eq. }
    { done. } { cbn [l_cnt dequeue]. lia. } { lia. }
    rewrite Ed. exists (e :: es), l'. cbn [listeners set_listeners]. rewrite list_insert_insert_eq. unfold kret.
    split_and!; try done.
    + by rewrite nth_lookup, He.
    + intros k. rewrite Hk, K7. done.
    + intros e' [->|Hin]%elem_of_cons; [by eauto|]. destruct (K8 e' Hin) as [j Hj]. exists j. cbn [pending dequeue] in Hj.
      destruct (decide (j = Z.to_nat (l_head l))) as [->|Hne]; [|by rewrite list_lookup_insert_ne in Hj by done].
      rewrite list_lookup_insert_eq in Hj by (by eapply lookup_lt_Some). done.
Qed.

Lemma listener_lock_eq s i b l : listeners s !! i = Some l ->
  set_held (Listener i) b s = set_listeners (<[i := set_llock b l]> (listeners s)) s.
Proof. intros Hl. cbn [set_held file_locks]. by rewrite (alter_insert _ _ _ _ Hl). Qed.

(** The queue of a listener that is no longer in use is emptied and its
    connections are closed. *)
Lemma clear_pending_eq close s i l : listeners s !! i = Some l -> ring l -> l_lock l = false -> exists es l' q,
  clear_listener_pending l_addr close i s = close_all close (Some <$> es) (set_pipes (pipes s) q (set_listeners (<[i := l']> (listeners s)) s)) /\
  ring l' /\ l_cnt l' = 0 /\ used l' = used l /\ backlog l' = backlog l /\ l_lock l' = false /\ l_path l' = l_path l /\
  (forall k, lref k l = zsum (points k) (Some <$> es)) /\ (forall e, e ∈ es -> exists j, pending l !! j = Some (Some e)).
Proof.
  intros Hl Hr Hk. assert (Hlt : (i < length (listeners s))%nat) by (by eapply lookup_lt_Some).
  unfold clear_listener_pending, acquire, kbind at 1 2, kget, kput. cbn [held file_locks]. rewrite (lat_lookup s i l Hl), Hk.
  rewrite (listener_lock_eq s i true l Hl). set (s1 := set_listeners (<[i := set_llock true l]> (listeners s)) s).
  assert (L1 : listeners s1 !! i = Some (set_llock true l)) by (cbn; by rewrite list_lookup_insert_eq).
  assert (Hr1 : ring (set_llock true l)) by (by destruct Hr).
  destruct (drain_spec i (Z.to_nat (l_cnt l)) (S (Z.to_nat USOCK_PENDING_MAX)) s1 (set_llock true l) L1 Hr1) as
    (es & l1 & Ed & K1 & K2 & K3 & K4 & K5 & K6 & K7 & K8).
  { cbn [l_cnt set_llock]. pose proof (ro_cnt l Hr). lia. } { pose proof (ro_cnt l Hr). lia. }
  unfold kbind at 1. rewrite Ed. unfold upd_listener, wakeup, release, kmodify, kbind, kget, kput. cbn [held file_locks].
  set (s2 := set_listeners (<[i := l1]> (listeners s1)) s1).
  assert (L2 : listeners s2 !! i = Some l1) by (cbn; by rewrite list_lookup_insert_eq by (by rewrite length_insert)).
  rewrite (alter_insert _ _ _ _ L2). cbn [pipes sleepers set_listeners s2 s1 listeners set_pipes]. unfold lat. cbn [listeners set_pipes set_listeners].
  rewrite !list_insert_insert_eq, nth_lookup, list_lookup_insert_eq by done. cbn [default from_option id set_ring l_lock].
  rewrite K5. cbn [l_lock set_llock]. cbn [set_held file_locks listeners set_pipes set_listeners].
  rewrite (alter_insert _ _ _ (set_ring 0 0 (l_cnt l1) l1)) by (by rewrite list_lookup_insert_eq).
  rewrite list_insert_insert_eq. exists es, (set_llock false (set_ring 0 0 (l_cnt l1) l1)), (sq_wakeup (l_addr i) (sleepers s)).
  split_and!; try done. destruct K1 as [R1 R2 R3 R4 R5]. constructor; try done; cbn.
  - ring_consts. by rewrite K2.
  - intros j Hj. rewrite K2. split; [|intros; exfalso; ring_consts; dlia]. intros [e He].
    discriminate (empty_ring l1 _ _ (Build_ring _ R1 R2 R3 R4 R5) K2 He).
Qed.

Lemma points_some j e : points j (Some e) = if decide (j = e) then 1 else 0.
Proof. unfold points. case_bool_decide; case_decide; simplify_eq; done. Qed.

Lemma close_all_spec A E G n es : forall s own, finv A s (fun j => own j + zsum (points j) (Some <$> es)) E G ->
  (forall j, 0 <= own j) -> (forall e, e ∈ es -> exists x, ftable s !! e = Some x /\ is_conn x = true) ->
  exists s', close_all (close_with (S (S n))) (Some <$> es) s = Done tt s' /\ finv A s' own E G /\ settled s s'.
Proof.
  induction es as [|e es IH]; intros s own Hi Ho0 Hc; cbn [fmap list_fmap close_all].
  - exists s. split; [done|]. split; [|by eapply settled_refl]. eapply finv_ext; [..|exact Hi]; intros; cbn; lia.
  - destruct (Hc e) as (x & Hx & Hcx); [left|]. assert (Hz : forall j, 0 <= zsum (points j) (Some <$> es)) by (intros; apply zsum_nonneg, points_nonneg).
    destruct (close_conn A s _ E G n e x Hi Hx) as (s1 & E1 & Hi1 & Hs1); [|done|].
    { change (1 <= own e + (points e (Some e) + zsum (points e) (Some <$> es))). rewrite points_some, decide_True by done.
      specialize (Ho0 e). specialize (Hz e). lia. }
    assert (Hi1' : finv A s1 (fun j => own j + zsum (points j) (Some <$> es)) E G).
    { eapply finv_ext; [..|exact Hi1]; try done. intros j. unfold unhold.
      change (zsum (points j) (Some <$> e :: es)) with (points j (Some e) + zsum (points j) (Some <$> es)). rewrite points_some. lia. }
    destruct (IH s1 own Hi1' Ho0) as (s2 & E2 & Hi2 & Hs2).
    { intros e' He'. destruct (Hc e') as (y & Hy & Hcy); [by right|].
      destruct (still_held A s s1 _ E G e' y Hs1 Hi1') as (y' & Hy' & K); [|done|exists y'; by rewrite (proj1 (same_counts _ _ K))].
      apply list_elem_of_lookup in He' as [j Hj].
      pose proof (zsum_in (points e') (Some <$> es) j (Some e') (points_nonneg e')) as Hp. rewrite list_lookup_fmap, Hj in Hp.
      specialize (Hp eq_refl). rewrite points_some, decide_True in Hp by done. specialize (Ho0 e'). lia. }
    exists s2. unfold kbind. rewrite E1. split; [done|]. split; [done|by eapply settled_trans].
Qed.

(** A socket bound to a listener frees it and closes what is in its queue. *)
Lemma close_bound A s own E G n k x : finv A s own E G -> (forall i, 0 <= G i) -> ftable s !! k = Some x -> 1 <= own k ->
  is_bound x = true -> closes A (close_with (S (S (S n))) k) s own E G k.
Proof.
  intros Hi HG0 Hx Hk Hb. destruct (decide (f_ref x = 1)) as [Hr|Hr]; [|by eapply close_shared].
  destruct (drop_entry A s own E G k x Hi Hx Hk Hr) as [Hd Hs]. pose proof (fi_own _ _ _ _ _ Hi) as Ho0.
  pose proof (fi_bound _ _ _ _ _ Hi k x Hx Hb) as Hlid.
  unfold closes. rewrite (fileclose_eq A s own E G (S (S n)) k x) by (done || lia). rewrite Hr. cbn [Z.sub Z.ltb Z.compare]. cbv iota.
  set (s1 := set_ftable (alter closed_file k (ftable s)) s) in *.
  pose proof Hb as [Ht Hst]%andb_true_iff. apply bool_decide_eq_true in Ht.
  assert (Hnc : (usock_state x =? USOCK_CONN) = false).
  { apply orb_true_iff in Hst as [Hst|Hst]; apply Z.eqb_eq in Hst; by rewrite Hst. }
  unfold close_rest, usock_fileclose. rewrite Ht, Hnc, Hst, bool_decide_eq_true_2 by done. cbn [negb andb].
  rewrite (proj2 (Z.leb_le 0 _)) by lia.
  assert (Hcf : is_conn x = false) by (unfold is_conn; by rewrite Hnc, andb_false_r).
  assert (He : forall p wr, nend p wr x = 0) by (apply no_end; congruence).
  set (i := Z.to_nat (usock_lid x)). assert (Hn : forall i', nlid i' x = if decide (i' = i) then 1 else 0).
  { intros i'. unfold nlid. rewrite Hb. cbn [andb]. case_decide as Hd'; unfold i in Hd'.
    - by rewrite (proj2 (Z.eqb_eq _ _)) by lia.
    - by rewrite (proj2 (Z.eqb_neq _ _)) by lia. }
  destruct (lookup_lt_is_Some_2 (listeners s1) i) as [l Hl]; [rewrite (fi_llen _ _ _ _ _ Hd); unfold i; lia|].
  pose proof (fi_ring _ _ _ _ _ Hd i l Hl) as [Rr Rb Ru Rl Rp].
  assert (Hus : used l = true).
  { pose proof (fi_used _ _ _ _ _ Hi i l Hl) as Hu1. pose proof (zsum_in (nlid i) (ftable s) k x (nlid_nonneg i) Hx) as Hz.
    pose proof (fi_used _ _ _ _ _ Hd i l Hl) as Hu2. cbn beta in Hu2. rewrite Hn, decide_True in * by done.
    unfold bindings in *. specialize (HG0 i). destruct (used l); [done|]. cbn in Hu1. lia. }
  unfold acquire, kbind at 1 2 3, kget, kput. cbn [held set_held file_locks]. rewrite (proj2 (fi_locks _ _ _ _ _ Hd)).
  unfold lat. cbn [listeners]. fold i. rewrite nth_lookup, Hl. cbn [default from_option id]. rewrite Hus, (proj2 (Z.leb_gt _ _)) by lia. cbn [orb negb].
  unfold upd_listener, release, kbind, kget, kput, kmodify. cbn [held set_held file_locks usock_lock set_listeners listeners].
  rewrite (alter_insert _ _ _ _ Hl). cbv beta iota.
  match goal with |- context [clear_listener_pending _ _ _ ?z] =>
    replace z with (set_listeners (<[i := unbind l]> (listeners s1)) s1)
      by (pose proof (proj2 (fi_locks _ _ _ _ _ Hd)); destruct s; cbn in *; by subst) end.
  assert (Hlt : (i < length (listeners s1))%nat) by (by eapply lookup_lt_Some).
  set (s2 := set_listeners (<[i := unbind l]> (listeners s1)) s1).
  assert (L2 : listeners s2 !! i = Some (unbind l)) by (cbn [listeners s2 set_listeners]; by rewrite list_lookup_insert_eq).
  assert (R2 : ring (unbind l)) by (by destruct Rr).
  destruct (clear_pending_eq (close_with (S (S n))) s2 i (unbind l) L2 R2 Rl) as (es & l' & q & Ec & K1 & K2 & K3 & K4 & K5 & K6 & K7 & K8).
  rewrite Ec. cbn [listeners s2 set_listeners]. rewrite list_insert_insert_eq.
  set (s3 := set_pipes (pipes s2) q (set_listeners (<[i := l']> (listeners s1)) s2)).
  assert (Hu : forall j, 0 <= unhold own k j) by (intros j; unfold unhold; specialize (Ho0 j); case_decide; subst; lia).
  assert (Hi3 : finv A s3 (fun j => unhold own k j + zsum (points j) (Some <$> es)) E G).
  { change s3 with (let z := set_listeners (<[i:=l']> (listeners s1)) s1 in set_pipes (pipes z) q z). apply finv_queue.
    assert (Hz : forall j, 0 <= zsum (points j) (Some <$> es)) by (intros; apply zsum_nonneg, points_nonneg).
    eapply finv_ext; [| | |eapply (upd_listener_inv A s1 _ (fun j => unhold own k j + zsum (points j) (Some <$> es)) _ _ G i l l' Hd Hl)].
    - done.
    - intros p wr. cbn beta. rewrite He. lia.
    - done.
    - intros j. cbn beta. rewrite (nref_plain j x Hcf), (empty_lref j l' K1 K2), <- K7. change (lref j (unbind l)) with (lref j l). lia.
    - intros j. specialize (Hu j). specialize (Hz j). lia.
    - intros i'. cbn beta. rewrite Hn, K3, Hus. cbn [used unbind cbool]. case_decide; lia.
    - constructor; [done|by rewrite K4|done|done|]. rewrite K6. cbn [l_path unbind]. by rewrite length_insert.
    - intros j e Hj. discriminate (empty_ring l' j _ K1 K2 Hj). }
  destruct (close_all_spec A E G n es s3 (unhold own k) Hi3 Hu) as (s4 & E4 & Hi4 & Hs4).
  { intros e He'. destruct (K8 e He') as [j Hj]. exact (fi_pending _ _ _ _ _ Hd i l j e Hl Hj). }
  exists s4. split; [exact E4|]. split; [done|]. eapply settled_trans; [|exact Hs4]. by eapply settled_ftable.
Qed.

Lemma close_any A s own E G n k x : finv A s own E G -> (forall i, 0 <= G i) -> ftable s !! k = Some x -> 1 <= own k ->
  inode_closes s x -> closes A (close_with (S (S (S n))) k) s own E G k.
Proof.
  intros Hi HG0 Hx Hk Hin. destruct (decide (f_type x = FD_USOCK)) as [Ht|Ht]; [|by eapply close_leaf].
  destruct (is_conn x) eqn:Hc; [by eapply close_conn|]. destruct (is_bound x) eqn:Hb; [by eapply close_bound|].
  destruct (decide (f_ref x = 1)) as [Hr|Hr]; [|by eapply close_shared].
  destruct (drop_entry A s own E G k x Hi Hx Hk Hr) as [Hd Hs].
  unfold closes. rewrite (fileclose_eq A s own E G (S (S n)) k x) by (done || lia). rewrite Hr. cbn [Z.sub Z.ltb Z.compare]. cbv iota.
  unfold is_conn, is_bound in Hc, Hb. rewrite bool_decide_eq_true_2 in Hc, Hb by done. cbn [andb] in Hc, Hb.
  unfold close_rest, usock_fileclose. rewrite Ht, Hc, Hb, bool_decide_eq_true_2 by done. cbn [negb andb].
  eexists. split; [done|]. split; [|done]. eapply finv_ext; [..|exact Hd]; cbn beta; intros.
  - unfold nref, is_conn. rewrite Hc, andb_false_r. lia.
  - rewrite no_end by congruence. lia.
  - unfold nlid, is_bound. rewrite Hb, andb_false_r. cbn. lia.
Qed.

(** ** New pipes *)

(** The entries in use, the listeners, the inodes and the sockets are as before. *)
Record extends s s' : Prop := {
  ex_open : forall j x, ftable s !! j = Some x -> f_ref x <> 0 -> ftable s' !! j = Some x;
  ex_listeners : listeners s' = listeners s;
  ex_inodes : inodes s' = inodes s;
  ex_net : net s' = net s;
}.
Lemma extends_refl s : extends s s.
Proof. by constructor. Qed.
Lemma extends_trans s1 s2 s3 : extends s1 s2 -> extends s2 s3 -> extends s1 s3.
Proof. intros [A1 A2 A3 A4] [B1 B2 B3 B4]. constructor; [|congruence..]. intros j x Hx Hr. by apply B1; [apply A1|]. Qed.
Lemma extends_upd s k x g : ftable s !! k = Some x -> f_ref x = 0 -> extends s (set_ftable (alter g k (ftable s)) s).
Proof.
  intros Hx Hr. constructor; try done. intros j y Hy Hry. cbn [ftable set_ftable].
  rewrite list_lookup_alter_ne; [done|]. intros ->. congruence.
Qed.
Lemma extends_upd2 s s1 k x g : extends s s1 -> ftable s !! k = Some x -> f_ref x = 0 ->
  extends s (set_ftable (alter g k (ftable s1)) s1).
Proof.
  intros [A1 A2 A3 A4] Hx Hr. constructor; try done. intros j y Hy Hry. cbn [ftable set_ftable].
  rewrite list_lookup_alter_ne; [by apply A1|]. intros ->. congruence.
Qed.

(** The number of free entries. *)
Definition nfree s : Z := zsum (fun x => cbool (f_ref x =? 0)) (ftable s).
Lemma nfree_upd s k x g : ftable s !! k = Some x ->
  nfree (set_ftable (alter g k (ftable s)) s) = nfree s - cbool (f_ref x =? 0) + cbool (f_ref (g x) =? 0).
Proof. intros Hx. unfold nfree. cbn [ftable set_ftable]. by rewrite (zsum_alter _ g _ k x Hx). Qed.
Lemma nfree_nonneg s : 0 <= nfree s.
Proof. apply zsum_nonneg. intros x. by destruct (f_ref x =? 0). Qed.
Lemma nfree_none s : (forall k x, ftable s !! k = Some x -> f_ref x <> 0) -> nfree s = 0.
Proof. intros Hn. apply zsum_0. intros k x Hx. by rewrite (proj2 (Z.eqb_neq _ _)) by (by apply (Hn k)). Qed.

Abbreviation close := (fileclose kfree l_addr).

(** An entry that was only just allocated. *)
Lemma close_fresh A s own E G k x : finv A s own E G -> ftable s !! k = Some x -> f_ref x = 1 -> f_type x = FD_NONE -> 1 <= own k ->
  close k s = Done tt (set_ftable (alter closed_file k (ftable s)) s) /\
  finv A (set_ftable (alter closed_file k (ftable s)) s) (unhold own k) E G.
Proof.
  intros Hi Hx Hr Ht Hk. unfold fileclose. rewrite (fileclose_eq A s own E G NFILE k x) by (done || lia).
  rewrite Hr. unfold close_rest. rewrite Ht. split; [done|]. destruct (drop_entry A s own E G k x Hi Hx Hk Hr) as [Hd _].
  destruct (plain_counts x) as [Hc Hb]; [congruence|].
  eapply finv_ext; [..|exact Hd]; cbn beta; intros; rewrite ?(nref_plain _ _ Hc), ?Hb, ?no_end by congruence; lia.
Qed.

(** A page from the allocator becomes a pipe with two ends nobody holds yet. *)
Lemma new_pipe_pages A s own E G p pl F : finv A s own E G -> pa_inv (pool s) F -> kalloc (pool s) = Done p pl -> p <> 0 ->
  let ps := fun a : Z => if a =? p then pipe_init (pipes s p) else pipes s a in
  finv A (set_pool pl (set_pipes ps (sleepers s) s)) own (fun p' wr => E p' wr + one_end p 0 p' wr + one_end p 1 p' wr) G /\
  pa_inv pl (F ∖ {[p]}) /\ p ∈ F.
Proof.
  intros Hi HF Ek Hp ps. destruct (pa_alloc (pool s) F HF) as (r & pl' & Er & Hr). rewrite Ek in Er. injection Er as <- <-.
  destruct Hr as [(-> & _)|[HpF HF']]; [done|]. split_and!; [|done|done].
  pose proof (fi_plock _ _ _ _ _ Hi p) as [Hlk Hlen]. pose proof (fi_E _ _ _ _ _ Hi) as HE0.
  apply (upd_pages_inv A s own E _ G ps (sleepers s) pl p); try done.
  - intros p' Hne. unfold ps, one_end. rewrite (proj2 (Z.eqb_neq p' p)) by done. split; [done|]. intros wr. cbn. lia.
  - intros p' wr. specialize (HE0 p' wr). unfold one_end. destruct ((p' =? p) && (wr =? 0)), ((p' =? p) && (wr =? 1)); cbn; lia.
  - unfold ps. by rewrite Z.eqb_refl.
  - unfold ps. by rewrite Z.eqb_refl.
  - intros F0 U0 Q1 Q2 Q3 Q4 Q5 Q6. destruct (pa_alloc (pool s) F0 Q1) as (r0 & pl0 & Er0 & Hr0). rewrite Ek in Er0. injection Er0 as <- <-.
    destruct Hr0 as [(-> & _)|[HpF0 HF0]]; [done|]. assert (Hn : p ∉ U0) by set_solver.
    exists (F0 ∖ {[p]}), ({[p]} ∪ U0). split_and!; [done|set_solver| |set_solver| |set_solver].
    { rewrite Q3. apply set_eq. intros z. destruct (decide (z = p)); set_solver. }
    intros _. unfold ps. rewrite Z.eqb_refl. destruct (Q6 Hn 0 (or_introl eq_refl)) as [-> ->], (Q6 Hn 1 (or_intror eq_refl)) as [-> ->].
    unfold one_end. rewrite Z.eqb_refl. split_and!; [exact (pa_pages _ _ _ HF HpF)|by constructor|done..].
Qed.

(** The entry [k] is the only reference to an end of the pipe on [p]. *)
Definition end_at s k (rd wr p : Z) : Prop := exists x, ftable s !! k = Some x /\ f_ref x = 1 /\ f_type x = FD_PIPE /\
  f_readable x = rd /\ f_writable x = wr /\ f_pipe x = p.
Definition closed_at s k : Prop := exists x, ftable s !! k = Some x /\ f_ref x = 0.

Lemma nend_pipe_end rd wr p x p' wr' : nend p' wr' (pipe_end rd wr p x) = one_end p wr p' wr'.
Proof.
  unfold nend, is_end, one_end. cbn [f_type f_writable f_pipe pipe_end]. rewrite bool_decide_eq_true_2 by done. cbn [andb].
  by rewrite (Z.eqb_sym p), (Z.eqb_sym wr), andb_comm.
Qed.

(** A new entry becomes a pipe end. *)
Lemma become_end A s own E G k x rd wr p : finv A s own E G -> ftable s !! k = Some x -> f_type x = FD_NONE -> f_ref x = 1 ->
  1 <= E p wr -> wr = 0 \/ wr = 1 ->
  finv A (set_ftable (alter (pipe_end rd wr p) k (ftable s)) s) own (fun p' wr' => E p' wr' - one_end p wr p' wr') G.
Proof.
  intros Hi Hx Ht Hr HE Hwr. destruct (plain_counts x) as [Hc Hb]; [congruence|].
  assert (Hc' : is_conn (pipe_end rd wr p x) = false) by done.
  assert (Hn : forall p' wr', nend p' wr' (pipe_end rd wr p x) = one_end p wr p' wr') by (by apply nend_pipe_end).
  eapply upd_file_inv; [exact Hi|exact Hx|..]; try done.
  - intros j. rewrite (nref_plain j x Hc), (nref_plain j _ Hc'). cbn [f_ref pipe_end]. case_decide; lia.
  - apply (fi_own _ _ _ _ _ Hi).
  - intros p' wr'. rewrite Hn, no_end by congruence. lia.
  - intros p' wr'. pose proof (fi_E _ _ _ _ _ Hi p' wr'). unfold one_end.
    destruct (Z.eqb_spec p' p) as [->|], (Z.eqb_spec wr' wr) as [->|]; cbn; lia.
  - intros i. rewrite Hb. change (nlid i (pipe_end rd wr p x)) with 0. lia.
  - cbn [f_ref pipe_end]. lia.
  - right. eapply plain_not_held; eauto. congruence.
Qed.

Record new_pipe A s own (E : Z -> Z -> Z) (G : nat -> Z) (F : gset Z) (a b : nat) (p : Z) s' : Prop := {
  np_inv : finv A s' (hold (hold own a) b) E G;
  np_ext : extends s s';
  np_ne : a <> b;
  np_rd : end_at s' a 1 0 p;
  np_wr : end_at s' b 0 1 p;
  np_page : p ∈ F;
  np_free : nfree s' = nfree s - 2;
  np_pool : pa_inv (pool s') (F ∖ {[p]});
  np_pipe : pipes s' p = pipe_init (pipes s p);
  np_pipes : forall p', p' <> p -> pipes s' p' = pipes s p';
  np_new : closed_at s a /\ closed_at s b;
}.

Record no_pipe A s own (E : Z -> Z -> Z) (G : nat -> Z) (F : gset Z) (f0 f1 : option nat) s' : Prop := {
  nn_why : nfree s < 2 \/ F = ∅;
  nn_inv : finv A s' own E G;
  nn_ext : extends s s';
  nn_free : nfree s' = nfree s;
  nn_pool : pa_inv (pool s') F;
  nn_none : f0 = None <-> nfree s = 0;
  nn_closed : forall k, f0 = Some k \/ f1 = Some k -> closed_at s' k;
  nn_first : f0 = None -> f1 = None;
}.

Abbreviation pipealloc := (pipealloc kalloc kfree l_addr).

Lemma pipealloc_one A s own E G F a x : finv A s own E G -> pa_inv (pool s) F -> ftable s !! a = Some x -> f_ref x = 0 -> f_type x = FD_NONE ->
  let s1 := set_ftable (alter fresh_file a (ftable s)) s in
  finv A s1 (hold own a) E G -> (forall k y, ftable s1 !! k = Some y -> f_ref y <> 0) ->
  exists s', close a s1 = Done tt s' /\ no_pipe A s own E G F (Some a) None s'.
Proof.
  intros Hi HF Hx Hr Ht s1 Hi1 Hn.
  assert (L1 : ftable s1 !! a = Some (fresh_file x)) by (cbn; by rewrite list_lookup_alter_eq, Hx).
  pose proof (nfree_none s1 Hn) as N1. pose proof (nfree_upd s a x fresh_file Hx) as N0. fold s1 in N0.
  rewrite Hr in N0. cbn [f_ref fresh_file Z.eqb cbool] in N0.
  destruct (close_fresh A s1 (hold own a) E G a (fresh_file x) Hi1 L1) as [Ec Hi2]; [done|done| |].
  { unfold hold. rewrite decide_True by done. pose proof (fi_own _ _ _ _ _ Hi a). lia. }
  exists (set_ftable (alter closed_file a (ftable s1)) s1). split; [done|]. constructor.
  - left. lia.
  - eapply finv_ext; [..|exact Hi2]; try done. intros j. unfold hold, unhold. lia.
  - eapply extends_upd2; [by eapply extends_upd|done..].
  - rewrite (nfree_upd s1 a _ closed_file L1). cbn [f_ref fresh_file closed_file Z.eqb cbool]. lia.
  - done.
  - split; [done|]. lia.
  - intros k [[= <-]|?]; [|done]. exists (closed_file (fresh_file x)). cbn [ftable set_ftable]. by rewrite list_lookup_alter_eq, L1.
  - done.
Qed.

(** [kalloc] without a free page. *)
Lemma no_page_inv A s own E G F pl : finv A s own E G -> pa_inv (pool s) F -> kalloc (pool s) = Done 0 pl ->
  finv A (set_pool pl s) own E G /\ F = ∅ /\ pa_inv pl F.
Proof.
  intros Hi HF Ek.
  assert (Hz : forall F0, pa_inv (pool s) F0 -> F0 = ∅ /\ pa_inv pl F0).
  { intros F0 HF0. destruct (pa_alloc (pool s) F0 HF0) as (r & pl' & Er & Hr). rewrite Ek in Er. injection Er as <- <-.
    destruct Hr as [(_ & -> & Hpl)|[Hp _]]; [done|]. by destruct (pa_nonzero 0 (pa_pages _ _ _ HF0 Hp)). }
  split; [|by apply Hz]. destruct Hi as [F1 F2 F3 F4 F5 F6 F7 F8 F9 F10 F11 F12 F13 F14 F15 F16]. constructor; try done.
  destruct F15 as (F0 & U & P1 & P2 & P3 & P4 & P5 & P6). exists F0, U. split_and!; try done. by apply Hz.
Qed.

(** The state with two new entries, before [kalloc]. *)
Section two.
Context (A : gset Z) (s : fsys) (own : nat -> Z) (E : Z -> Z -> Z) (G : nat -> Z) (F : gset Z) (a b : nat) (x y : file).
Context (Hi : finv A s own E G) (HF : pa_inv (pool s) F).
Context (Hx : ftable s !! a = Some x) (Hrx : f_ref x = 0) (Htx : f_type x = FD_NONE).
Let s1 := set_ftable (alter fresh_file a (ftable s)) s.
Context (Hy : ftable s1 !! b = Some y) (Hry : f_ref y = 0) (Hty : f_type y = FD_NONE).
Let s2 := set_ftable (alter fresh_file b (ftable s1)) s1.
Context (Hi2 : finv A s2 (hold (hold own a) b) E G).

Lemma two_ne : a <> b.
Proof using All. intros ->. unfold s1 in Hy. cbn [ftable set_ftable] in Hy. rewrite list_lookup_alter_eq, Hx in Hy. simplify_eq/=. Qed.
Lemma two_old : ftable s !! b = Some y.
Proof using All. pose proof two_ne. unfold s1 in Hy. cbn [ftable set_ftable] in Hy. by rewrite list_lookup_alter_ne in Hy. Qed.
Lemma two_a : ftable s2 !! a = Some (fresh_file x).
Proof using All. pose proof two_ne. cbn. by rewrite list_lookup_alter_ne, list_lookup_alter_eq, Hx. Qed.
Lemma two_b : ftable s2 !! b = Some (fresh_file y).
Proof using All. cbn [ftable set_ftable s2]. by rewrite list_lookup_alter_eq, Hy. Qed.
Lemma two_free : nfree s2 = nfree s - 2.
Proof using All.
  unfold s2. rewrite (nfree_upd s1 b y fresh_file Hy), Hry. unfold s1. rewrite (nfree_upd s a x fresh_file Hx), Hrx. cbn. lia.
Qed.
Lemma two_ext : extends s s2.
Proof using All. eapply extends_upd2; [by eapply extends_upd|apply two_old|done]. Qed.

Lemma pipealloc_no_page pl : kalloc (pool s2) = Done 0 pl -> exists s',
  (close a ;; close b) (set_pool pl s2) = Done tt s' /\ no_pipe A s own E G F (Some a) (Some b) s'.
Proof using All.
  intros Ek. pose proof two_ne as Hne. pose proof (fi_own _ _ _ _ _ Hi) as Ho0. set (s2' := set_pool pl s2).
  destruct (no_page_inv A s2 _ E G F pl Hi2 HF Ek) as (Hi2' & HF0 & Hpl). fold s2' in Hi2'.
  destruct (close_fresh A s2' _ E G a (fresh_file x) Hi2' two_a) as [E3 Hi3]; [done|done| |].
  { unfold hold. rewrite (decide_True _ _ eq_refl). specialize (Ho0 a). case_decide; lia. }
  set (s3 := set_ftable (alter closed_file a (ftable s2')) s2') in *.
  assert (L3 : ftable s3 !! b = Some (fresh_file y)) by (cbn [ftable set_ftable s3]; rewrite list_lookup_alter_ne by done; exact two_b).
  destruct (close_fresh A s3 _ E G b (fresh_file y) Hi3 L3) as [E4 Hi4]; [done|done| |].
  { unfold hold, unhold. rewrite (decide_True _ _ eq_refl). specialize (Ho0 b). repeat case_decide; done || lia. }
  exists (set_ftable (alter closed_file b (ftable s3)) s3). unfold kbind. rewrite E3. split; [done|].
  pose proof two_free as N2. pose proof (nfree_nonneg s2). constructor; try done.
  - by right.
  - eapply finv_ext; [..|exact Hi4]; try done. intros j. unfold hold, unhold. lia.
  - eapply extends_upd2; [|exact two_old|done]. eapply (extends_upd2 s s2'); [by destruct two_ext|exact Hx|done].
  - rewrite (nfree_upd s3 b _ closed_file L3). unfold s3. rewrite (nfree_upd s2' a _ closed_file two_a).
    change (nfree s2') with (nfree s2). cbn [f_ref fresh_file closed_file Z.eqb cbool]. lia.
  - split; [done|]. lia.
  - intros k [[= <-]|[= <-]].
    + exists (closed_file (fresh_file x)). cbn [ftable set_ftable s3]. rewrite list_lookup_alter_ne, list_lookup_alter_eq by done.
      change (ftable s2') with (ftable s2). by rewrite two_a.
    + exists (closed_file (fresh_file y)). cbn [ftable set_ftable]. by rewrite list_lookup_alter_eq, L3.
Qed.

Lemma pipealloc_page p pl : kalloc (pool s2) = Done p pl -> p <> 0 -> exists s',
  (inpipe p (kmodify (upd_pipe pipe_init)) ;; upd_file a (pipe_end 1 0 p) ;; upd_file b (pipe_end 0 1 p)) (set_pool pl s2) = Done tt s' /\
  new_pipe A s own E G F a b p s'.
Proof using All.
  intros Ek Hp. pose proof two_ne as Hne. destruct (new_pipe_pages A s2 _ E G p pl F Hi2 HF Ek Hp) as (Hi3 & HF3 & HpF).
  set (ps := fun z : Z => if z =? p then pipe_init (pipes s2 p) else pipes s2 z) in *. set (s3 := set_pool pl (set_pipes ps (sleepers s2) s2)) in *.
  pose proof (fi_E _ _ _ _ _ Hi) as HE0.
  assert (H0' : 1 <= E p 0 + one_end p 0 p 0 + one_end p 1 p 0).
  { unfold one_end. rewrite !Z.eqb_refl. specialize (HE0 p 0). cbn. lia. }
  assert (H1' : 1 <= E p 1 + one_end p 0 p 1 + one_end p 1 p 1 - one_end p 0 p 1).
  { unfold one_end. rewrite !Z.eqb_refl. specialize (HE0 p 1). cbn. lia. }
  pose proof (become_end A s3 _ _ G a (fresh_file x) 1 0 p Hi3 two_a Htx eq_refl H0' (or_introl eq_refl)) as Hi4. cbn beta in Hi4.
  set (s4 := set_ftable (alter (pipe_end 1 0 p) a (ftable s3)) s3) in *.
  assert (L4 : ftable s4 !! b = Some (fresh_file y)).
  { cbn [ftable set_ftable s4]. rewrite list_lookup_alter_ne by done. exact two_b. }
  pose proof (become_end A s4 _ _ G b (fresh_file y) 0 1 p Hi4 L4 Hty eq_refl H1' (or_intror eq_refl)) as Hi5. cbn beta in Hi5.
  set (s5 := set_ftable (alter (pipe_end 0 1 p) b (ftable s4)) s4) in *.
  exists s5. split; [done|]. constructor; try done.
  - eapply finv_ext; [..|exact Hi5]; try done. intros p' wr. cbn beta. lia.
  - eapply extends_upd2; [|exact two_old|done]. eapply (extends_upd2 s s3); [|exact Hx|done]. by destruct two_ext.
  - exists (pipe_end 1 0 p (fresh_file x)). cbn [ftable set_ftable s5 s4]. rewrite list_lookup_alter_ne by done.
    rewrite list_lookup_alter_eq. change (ftable s3) with (ftable s2). by rewrite two_a.
  - exists (pipe_end 0 1 p (fresh_file y)). cbn [ftable set_ftable s5]. by rewrite list_lookup_alter_eq, L4.
  - unfold s5. rewrite (nfree_upd s4 b _ _ L4). unfold s4. rewrite (nfree_upd s3 a _ _ two_a). cbn [f_ref fresh_file pipe_end Z.eqb cbool].
    change (nfree s3) with (nfree s2). rewrite two_free. lia.
  - cbn. unfold ps. by rewrite Z.eqb_refl.
  - intros p' Hp'. cbn. unfold ps. by rewrite (proj2 (Z.eqb_neq p' p)).
  - split; [by exists x|exists y; by rewrite two_old].
Qed.
End two.

Lemma pipealloc_spec A s own E G F : finv A s own E G -> pa_inv (pool s) F ->
  (exists a b p s', pipealloc s = Done (0, Some a, Some b) s' /\ new_pipe A s own E G F a b p s') \/
  (exists f0 f1 s', pipealloc s = Done (-1, f0, f1) s' /\ no_pipe A s own E G F f0 f1 s').
Proof.
  intros Hi HF. set (m := pipealloc s). assert (Em : m = pipealloc s) by done. unfold File.pipealloc, kbind at 1 in Em.
  destruct (filealloc_spec A s own E G Hi) as [[Ef Hn]|(a & x & Hx & Hrx & Htx & Ef & Hi1)]; rewrite Ef in Em.
  { right. exists None, None, s. split; [done|]. pose proof (nfree_none s Hn).
    constructor; [left; lia|done|apply extends_refl|done|done|done|by intros k [|]|done]. }
  set (s1 := set_ftable (alter fresh_file a (ftable s)) s) in *. unfold kbind at 1 in Em.
  destruct (filealloc_spec A s1 _ E G Hi1) as [[Ef1 Hn]|(b & y & Hy & Hry & Hty & Ef1 & Hi2)]; rewrite Ef1 in Em.
  { right. destruct (pipealloc_one A s own E G F a x Hi HF Hx Hrx Htx Hi1 Hn) as (s' & Ec & Hc).
    exists (Some a), None, s'. split; [|done]. rewrite Em. unfold kbind. fold s1 in Ec. by rewrite Ec. }
  set (s2 := set_ftable (alter fresh_file b (ftable s1)) s1) in *.
  destruct (pa_alloc (pool s2) F HF) as (p & pl & Ek & _). unfold kbind at 1, inpool, zoom in Em. rewrite Ek in Em.
  destruct (Z.eqb_spec p 0) as [->|Hne].
  - right. destruct (pipealloc_no_page A s own E G F a b x y Hi HF Hx Hrx Htx Hy Hry Hty Hi2 pl Ek) as (s' & Es & Hs).
    exists (Some a), (Some b), s'. split; [|done]. rewrite Em. revert Es. fold s1. fold s2. unfold kbind.
    destruct (close a (set_pool pl s2)) as [[] s3| |]; [|done..]. by intros ->.
  - left. destruct (pipealloc_page A s own E G F a b x y Hi HF Hx Hrx Htx Hy Hry Hty Hi2 p pl Ek Hne) as (s' & Es & Hs).
    exists a, b, p, s'. split; [|done]. rewrite Em. revert Es. fold s1. fold s2. unfold kbind.
    destruct (inpipe p (kmodify (upd_pipe pipe_init)) (set_pool pl s2)) as [[] s3| |]; [|done..].
    destruct (upd_file a (pipe_end 1 0 p) s3) as [[] s4| |]; [|done..]. by intros ->.
Qed.

End safe.
