(* ===== verification/FileOps.v ===== *)
(** * kernel/unixsock.c: connections between local sockets

    What [usock_bind], [usock_listen], [usock_connect] and [usock_accept] do to
    the holders of files, and the properties of the file table. *)

From Stdlib Require Import ZArith Lia.
From S2P Require Import Prelude KString Spinlock Kalloc Proc Pipe Bytes Bio BlockLayer Log Fs File FileSafe.

Section sockets.
Context {Q P B N : Type} `{SleepQueue Q} `{BlockOps B} `{TransOps B} `{NetOps N}.
Context (kalloc : K P Z) (kfree : Z -> K P unit) `{PA : !PageAllocator P kalloc kfree}.
Context (l_addr : nat -> Z).

Abbreviation fsys := (fsys Q P B N).
Abbreviation close := (fileclose kfree l_addr).
Abbreviation finv := (finv kalloc kfree).
Implicit Types (s : fsys) (x : file) (k j : nat) (own : nat -> Z) (l : usock_listener).

(** Between calls. *)
Definition at_rest (A : gset Z) s own : Prop := finv A s own (fun _ _ => 0) (fun _ => 0).

(** ** Closing several files *)

Lemma close_list A E G es : (forall i, 0 <= G i) -> forall s own, finv A s (fun j => own j + zsum (points j) (Some <$> es)) E G ->
  (forall j, 0 <= own j) -> (forall e, e ∈ es -> exists x, ftable s !! e = Some x /\ f_type x <> FD_INODE) ->
  exists s', close_all close (Some <$> es) s = Done tt s' /\ finv A s' own E G /\ settled s s'.
Proof.
  intros HG0. induction es as [|e es IH]; intros s own Hi Ho0 Hc; cbn [fmap list_fmap close_all].
  - exists s. split; [done|]. split; [|by eapply settled_refl]. eapply finv_ext; [..|exact Hi]; intros; cbn; lia.
  - destruct (Hc e) as (x & Hx & Hcx); [left|]. assert (Hz : forall j, 0 <= zsum (points j) (Some <$> es)) by (intros; apply zsum_nonneg, points_nonneg).
    destruct (close_any kalloc kfree l_addr A s _ E G 98 e x Hi HG0 Hx) as (s1 & E1 & Hi1 & Hs1); [|by intros ?|].
    { change (1 <= own e + (points e (Some e) + zsum (points e) (Some <$> es))). rewrite points_some, decide_True by done.
      specialize (Ho0 e). specialize (Hz e). lia. }
    assert (Hi1' : finv A s1 (fun j => own j + zsum (points j) (Some <$> es)) E G).
    { eapply finv_ext; [..|exact Hi1]; try done. intros j. unfold unhold.
      change (zsum (points j) (Some <$> e :: es)) with (points j (Some e) + zsum (points j) (Some <$> es)). rewrite points_some. lia. }
    destruct (IH s1 own Hi1' Ho0) as (s2 & E2 & Hi2 & Hs2).
    { intros e' He'. destruct (Hc e') as (y & Hy & Hcy); [by right|].
      destruct (still_held kalloc kfree A s s1 _ E G e' y Hs1 Hi1') as (y' & Hy' & K); [|done|exists y'; split; [done|by rewrite (proj1 K)]].
      apply list_elem_of_lookup in He' as [j Hj].
      pose proof (zsum_in (points e') (Some <$> es) j (Some e') (points_nonneg e')) as Hp. rewrite list_lookup_fmap, Hj in Hp.
      specialize (Hp eq_refl). rewrite points_some, decide_True in Hp by done. specialize (Ho0 e'). lia. }
    exists s2. unfold kbind, fileclose at 1. change (S NFILE) with (S (S (S 98))). rewrite E1. split; [done|]. split; [done|by eapply settled_trans].
Qed.

(** Closing a file twice. *)
Lemma close_closed A s own E G k : finv A s own E G -> closed_at s k -> exists s', close k s = Panicked "fileclose" s'.
Proof.
  intros Hi (x & Hx & Hr). eexists. unfold fileclose. cbn [fileclose_fuel]. unfold acquire, kbind at 1 2 3, kget, kput.
  cbn [held set_held file_locks]. rewrite (proj1 (fi_locks _ _ _ _ _ _ _ Hi)). unfold fat. cbn [ftable]. rewrite nth_lookup, Hx.
  cbn [default from_option id]. rewrite Hr. done.
Qed.
Lemma settled_closed s s' k : settled s s' -> length (ftable s') = length (ftable s) -> closed_at s k -> closed_at s' k.
Proof.
  intros Hs Hl (x & Hx & Hr). destruct (lookup_lt_is_Some_2 (ftable s') k) as [x' Hx']; [rewrite Hl; by eapply lookup_lt_Some|].
  destruct (Hs k x' Hx') as (y & Hy & Hr' & _). exists x'. split; [done|]. assert (y = x) as -> by congruence. lia.
Qed.

(** ** Connecting *)

Lemma hold_own own k : own k + 1 = hold own k k.
Proof. unfold hold. by rewrite decide_True. Qed.

(** A socket takes over the references to two pipe ends. *)
Lemma become_conn A s own E G k x g r t xr xt : finv A s own E G -> ftable s !! k = Some x ->
  is_conn x = false -> is_bound x = false -> f_type x <> FD_PIPE -> f_ref x <> 0 ->
  f_ref (g x) = f_ref x -> f_type (g x) = FD_USOCK -> usock_state (g x) = USOCK_CONN -> usock_rx (g x) = Some r -> usock_tx (g x) = Some t ->
  r <> t -> 1 <= own r -> 1 <= own t -> ftable s !! r = Some xr -> ftable s !! t = Some xt -> is_end xr 0 = true -> is_end xt 1 = true ->
  finv A (set_ftable (alter g k (ftable s)) s) (unhold (unhold own r) t) E G.
Proof.
  intros Hi Hx Hc Hb Hp Hr0 Er Et Es Erx Etx Hrt Or Ot Lr Lt Dr Dt. pose proof (fi_own _ _ _ _ _ _ _ Hi) as Ho0.
  assert (Hcg : is_conn (g x) = true) by (unfold is_conn; by rewrite Et, Es, bool_decide_eq_true_2).
  assert (Hbg : is_bound (g x) = false) by (unfold is_bound; rewrite Et, Es; by rewrite andb_false_r).
  assert (Hne : forall y wr, is_end y wr = true -> y <> x).
  { intros y wr [Hy _]%andb_true_iff ->. by apply bool_decide_eq_true in Hy. }
  eapply upd_file_inv; [exact Hi|exact Hx|..]; try done.
  - intros j. rewrite (nref_plain j x Hc). unfold nref. rewrite Hcg, Erx, Etx, !points_some, Er. unfold unhold. repeat case_decide; lia.
  - intros j. unfold unhold. specialize (Ho0 j). repeat case_decide; subst; done || lia.
  - intros p wr. rewrite !no_end by congruence. lia.
  - apply (fi_E _ _ _ _ _ _ _ Hi).
  - intros i. unfold nlid. rewrite Hb, Hbg. cbn. lia.
  - congruence.
  - congruence.
  - intros Hb'. congruence.
  - intros _. exists r, t, xr, xt. split_and!; try done; intros ->; [apply (Hne xr 0)|apply (Hne xt 1)]; congruence.
  - right. by eapply plain_not_held.
Qed.

(** The entry [k] is a socket connected to the ends [r] and [t]. *)
Definition conn_at s k r t : Prop := exists x, ftable s !! k = Some x /\ is_conn x = true /\ f_readable x = 1 /\ f_writable x = 1 /\
  usock_rx x = Some r /\ usock_tx x = Some t.

Lemma end_at_kind s k rd wr p : end_at s k rd wr p -> exists x, ftable s !! k = Some x /\ is_end x wr = true /\ f_type x <> FD_INODE /\ f_ref x = 1.
Proof.
  intros (x & Hx & Hr & Ht & _ & Hw & _). exists x. split_and!; [done| |congruence|done].
  unfold is_end. by rewrite Ht, Hw, Z.eqb_refl.
Qed.
Lemma end_at_ext s s' k rd wr p : extends s s' -> end_at s k rd wr p -> end_at s' k rd wr p.
Proof. intros He (x & Hx & Hr & Ht). exists x. split; [|done]. apply (ex_open _ _ He); [done|lia]. Qed.

Lemma make_endpoint_spec A s own E G a d p q : finv A s own E G -> 1 <= own a -> 1 <= own d -> a <> d ->
  end_at s a 1 0 p -> end_at s d 0 1 q ->
  (make_endpoint (Some a) (Some d) s = Done None s /\ nfree s = 0) \/
  exists e s', make_endpoint (Some a) (Some d) s = Done (Some e) s' /\ closed_at s e /\ 1 <= nfree s /\
    finv A s' (hold (unhold (unhold own a) d) e) E G /\ extends s s' /\ conn_at s' e a d /\ pool s' = pool s /\ pipes s' = pipes s.
Proof.
  intros Hi Oa Od Hne Ea Ed. unfold make_endpoint.
  destruct (filealloc_spec kalloc kfree A s own E G Hi) as [[Ef Hn]|(e & x & Hx & Hr & Ht & Ef & Hi1)]; [left|right].
  { unfold kbind. rewrite Ef. split; [done|]. by apply nfree_none. }
  set (s1 := set_ftable (alter fresh_file e (ftable s)) s) in *.
  assert (L1 : ftable s1 !! e = Some (fresh_file x)) by (cbn [ftable set_ftable s1]; by rewrite list_lookup_alter_eq, Hx).
  assert (He1 : extends s s1) by (by eapply extends_upd).
  destruct (end_at_kind s1 a 1 0 p) as (xa & La & Da & _); [by eapply end_at_ext|].
  destruct (end_at_kind s1 d 0 1 q) as (xd & Ld & Dd & _); [by eapply end_at_ext|].
  destruct (plain_counts (fresh_file x)) as [Hc _]; [cbn; congruence|].
  set (g := fun y : file => set_conn (-1) (Some a) (Some d) (set_type FD_USOCK y)).
  exists e, (set_ftable (alter g e (ftable s1)) s1). unfold kbind. rewrite Ef.
  assert (Hb : is_bound (fresh_file x) = false) by (unfold is_bound; cbn; rewrite Ht; done).
  split_and!; try done.
  - by exists x.
  - pose proof (nfree_upd s e x fresh_file Hx) as N1. fold s1 in N1. rewrite Hr in N1. cbn [f_ref fresh_file Z.eqb cbool] in N1. pose proof (nfree_nonneg s1). lia.
  - eapply finv_ext; [| | |eapply (become_conn A s1 _ E G e (fresh_file x) g a d xa xd Hi1 L1)]; try done.
    + intros j. unfold hold, unhold. lia.
    + cbn. congruence.
    + unfold hold. case_decide; lia.
    + unfold hold. case_decide; lia.
  - eapply extends_upd2; [exact He1|exact Hx|done].
  - exists (g (fresh_file x)). split; [|done]. cbn [ftable set_ftable]. by rewrite list_lookup_alter_eq, L1.
Qed.

(** [usock_connect] once there is a server endpoint [e]. *)
Definition connect_queue (i f e : nat) (s2c_r c2s_w : option nat) : K fsys Z :=
  acquire (Listener i) ;;
  s <- kget ;;
  let l := lat s i in
  if negb (used l) || negb (listening l) || (backlog l <=? l_cnt l) then
    release (Listener i) ;; close e ;; kret (-1)
  else
    upd_listener i (enqueue e) ;;
    wakeup (l_addr i) ;;
    release (Listener i) ;;
    upd_file f (fun x => set_conn (usock_lid x) s2c_r c2s_w x) ;;
    kret 0.
(** ... and once it has found its listener. *)
Definition connect_to (i f : nat) : K fsys Z :=
  x <- pipealloc kalloc kfree l_addr ;;
  let '(r, c2s_r, c2s_w) := x in
  if r <? 0 then connect_bad kfree l_addr c2s_r c2s_w None None
  else
    y <- pipealloc kalloc kfree l_addr ;;
    let '(r, s2c_r, s2c_w) := y in
    if r <? 0 then connect_bad kfree l_addr c2s_r c2s_w s2c_r s2c_w
    else
      e <- make_endpoint c2s_r s2c_w ;;
      match e with
      | None => connect_bad kfree l_addr c2s_r c2s_w s2c_r s2c_w
      | Some e => connect_queue i f e s2c_r c2s_w
      end.

Abbreviation usock_connect := (usock_connect kalloc kfree l_addr).

Lemma usock_locked A s own E G : finv A s own E G -> set_held Usock false (set_held Usock true s) = s.
Proof. intros Hi. pose proof (proj2 (fi_locks _ _ _ _ _ _ _ Hi)). destruct s; cbn in *. by subst. Qed.

Lemma connect_start A s own E G f path i : finv A s own E G -> usock_fresh (fat s f) = true -> path_fits path = true ->
  find_listener (listeners s) path 0 = Some i -> usock_connect f path s = connect_to i f s.
Proof.
  intros Hi Hf Hp Hfi. unfold File.usock_connect, kbind at 1, kget at 1. rewrite Hf, Hp. cbn [negb].
  unfold acquire, release, find_listener_locked, kgets, kbind at 1 2 3 4 5, kget, kput. cbn [held file_locks].
  rewrite (proj2 (fi_locks _ _ _ _ _ _ _ Hi)). change (listeners (set_held Usock true s)) with (listeners s). rewrite Hfi.
  change (usock_lock (set_held Usock true s)) with true. cbv iota beta. by rewrite (usock_locked A s own E G Hi).
Qed.

Lemma listener_locked s i l : listeners s !! i = Some l -> l_lock l = false ->
  set_held (Listener i) false (set_held (Listener i) true s) = s.
Proof.
  intros Hl Hk. rewrite (listener_lock_eq s i true l Hl).
  assert (Hlt : (i < length (listeners s))%nat) by (by eapply lookup_lt_Some).
  rewrite (listener_lock_eq _ i false (set_llock true l)) by (cbn; by rewrite list_lookup_insert_eq).
  cbn. rewrite list_insert_insert_eq, list_insert_id; [by destruct s|]. rewrite Hl. f_equal. destruct l; cbn in *. by subst.
Qed.

(** The lock of a listener around an update. *)
Section listener.
Context {R : Type} (s : fsys) (i : nat) (l : usock_listener) (Hl : listeners s !! i = Some l) (Hk : l_lock l = false) (k : K fsys R).
Let sl := set_held (Listener i) true s.

Lemma acquire_listener : (acquire (Listener i) ;; k) s = k sl.
Proof using Hl Hk. unfold acquire, kbind, kget, kput. cbn [held file_locks]. by rewrite (lat_lookup s i l Hl), Hk. Qed.
Lemma locked_lat : lat sl i = set_llock true l.
Proof using Hl.
  apply lat_lookup. unfold sl. rewrite (listener_lock_eq s i true l Hl). cbn. rewrite list_lookup_insert_eq; [done|by eapply lookup_lt_Some].
Qed.
Lemma release_listener : (release (Listener i) ;; k) sl = k s.
Proof using Hl Hk.
  unfold release, kbind, kget, kput. cbn [held file_locks]. rewrite locked_lat. cbn [l_lock set_llock]. unfold sl. by rewrite (listener_locked s i l Hl Hk).
Qed.

Context (g : usock_listener -> usock_listener) (Hg : forall b, g (set_llock b l) = set_llock b (g l)).
Let s' := set_listeners (<[i := g l]> (listeners s)) s.

Lemma unlocked_update : set_held (Listener i) false (set_listeners (alter g i (listeners sl)) sl) = s' /\
  l_lock (lat (set_listeners (alter g i (listeners sl)) sl) i) = true.
Proof using Hl Hk Hg.
  assert (Hlt : (i < length (listeners s))%nat) by (by eapply lookup_lt_Some). unfold sl. cbn [listeners set_held file_locks set_listeners].
  rewrite (alter_insert _ _ _ _ Hl), (alter_insert g _ _ (set_llock true l)) by (by rewrite list_lookup_insert_eq). rewrite list_insert_insert_eq.
  unfold lat. cbn [listeners set_listeners]. rewrite nth_lookup, list_lookup_insert_eq by done. cbn [default from_option id].
  rewrite (Hg true). split; [|done]. rewrite (alter_insert _ _ _ (set_llock true (g l))) by (by rewrite list_lookup_insert_eq).
  rewrite list_insert_insert_eq. change (set_llock false (set_llock true (g l))) with (set_llock false (g l)). rewrite <- Hg.
  replace (set_llock false l) with l by (destruct l; cbn in *; by subst). done.
Qed.
Lemma update_unlock : (upd_listener i g ;; release (Listener i) ;; k) sl = k s'.
Proof using Hl Hk Hg.
  destruct unlocked_update as [E1 E2]. unfold upd_listener, release, kmodify, kbind, kget, kput. cbn [held file_locks]. by rewrite E2, E1.
Qed.
Lemma update_wake_unlock c : (upd_listener i g ;; wakeup c ;; release (Listener i) ;; k) sl = k (set_pipes (pipes s) (sq_wakeup c (sleepers s)) s').
Proof using Hl Hk Hg.
  destruct unlocked_update as [E1 E2]. unfold upd_listener, wakeup, release, kmodify, kbind, kget, kput. cbn [held file_locks].
  change (l_lock (lat (set_pipes ?ps ?q ?z) i)) with (l_lock (lat z i)). rewrite E2. cbv iota.
  change (set_held (Listener i) false (set_pipes ?ps ?q ?z)) with (set_pipes ps q (set_held (Listener i) false z)). by rewrite E1.
Qed.
End listener.

(** The queue is full, or nobody listens any more: the endpoint is closed. *)
Lemma connect_refused A s own E G i f e l c b r t : finv A s (hold own e) E G -> (forall j, 0 <= G j) -> (forall j, 0 <= own j) ->
  listeners s !! i = Some l -> used l && listening l && (l_cnt l <? backlog l) = false -> conn_at s e r t ->
  exists s', connect_queue i f e c b s = Done (-1) s' /\ finv A s' own E G.
Proof.
  intros Hi HG0 Ho0 Hl Hfull (x & Hx & Hc & _). pose proof (ro_lock _ (fi_ring _ _ _ _ _ _ _ Hi i l Hl)) as Hlk.
  destruct (close_list A E G [e] HG0 s own) as (s' & Ec & Hi' & _).
  { eapply finv_ext; [..|exact Hi]; try done. intros j. cbn [fmap list_fmap zsum foldr]. rewrite points_some. unfold hold. lia. }
  { done. }
  { intros e' ->%list_elem_of_singleton. exists x. split; [done|]. unfold is_conn in Hc. destruct (f_type x); done. }
  exists s'. split; [|done]. unfold connect_queue. rewrite (acquire_listener s i l Hl Hlk). unfold kbind at 1, kget.
  rewrite (locked_lat s i l Hl). cbn [used listening backlog l_cnt set_llock].
  replace (negb (used l) || negb (listening l) || (backlog l <=? l_cnt l)) with true.
  2:{ rewrite Z.leb_antisym. destruct (used l), (listening l); cbn in *; [|done..]. by rewrite Hfull. }
  rewrite (release_listener s i l Hl Hlk). cbn [fmap list_fmap close_all] in Ec. unfold kbind, kret in *.
  destruct (close e s) as [[] s1| |]; [|done..]. by injection Ec as ->.
Qed.

(** A socket that is not bound, connected or listening. *)
Lemma fresh_kind x : usock_fresh x = true -> f_type x = FD_USOCK /\ is_conn x = false /\ is_bound x = false.
Proof.
  unfold usock_fresh, is_conn, is_bound. intros [[Ht%bool_decide_eq_true Hs%Z.eqb_eq]%andb_true_iff _]%andb_true_iff. rewrite Hs.
  split_and!; [done|by rewrite andb_false_r..].
Qed.

Definition conn_file (c b : nat) (x : file) : file := set_conn (usock_lid x) (Some c) (Some b) x.

Lemma connect_queued A s own E G i f e l xf c b p q r t : finv A s (hold (hold (hold own b) c) e) E G -> (forall j, 0 <= own j) ->
  listeners s !! i = Some l -> used l && listening l && (l_cnt l <? backlog l) = true -> conn_at s e r t ->
  ftable s !! f = Some xf -> usock_fresh xf = true -> f_ref xf <> 0 -> c <> b -> end_at s c 1 0 q -> end_at s b 0 1 p ->
  exists s', connect_queue i f e (Some c) (Some b) s = Done 0 s' /\ finv A s' own E G /\
    listeners s' = <[i := enqueue e l]> (listeners s) /\ ftable s' = alter (conn_file c b) f (ftable s) /\ pipes s' = pipes s.
Proof.
  intros Hi Ho0 Hl Hok (xe & Hxe & Hce & _) Hxf Hfr Hrf Hcb Hc Hb.
  pose proof (fi_ring _ _ _ _ _ _ _ Hi i l Hl) as [Rr Rb Ru Rl Rp].
  apply andb_true_iff in Hok as [[Hu Hls]%andb_true_iff Hn%Z.ltb_lt].
  destruct (enqueue_ring e l Rr) as (Rr' & Hslot & Hlr); [lia|].
  assert (Hlt : (i < length (listeners s))%nat) by (by eapply lookup_lt_Some).
  set (own1 := hold (hold own b) c). assert (Ho1 : forall j, 0 <= own1 j) by (intros j; unfold own1, hold; specialize (Ho0 j); repeat case_decide; lia).
  assert (Hi1 : finv A (set_listeners (<[i := enqueue e l]> (listeners s)) s) own1 E G).
  { eapply (upd_listener_inv kalloc kfree A s _ own1 E G G i l (enqueue e l) Hi Hl); try done.
    - intros j. rewrite Hlr, points_some. unfold own1, hold. lia.
    - intros i'. cbn [used enqueue]. case_decide; lia.
    - constructor; [done|done|cbn; congruence|done|done].
    - intros j e' He'. cbn [pending enqueue] in He'. destruct (decide (j = Z.to_nat (l_tail l))) as [->|Hne].
      + rewrite list_lookup_insert_eq in He' by (by eapply lookup_lt_Some). injection He' as <-. by exists xe.
      + rewrite list_lookup_insert_ne in He' by done. by eapply (fi_pending _ _ _ _ _ _ _ Hi i l j). }
  set (s1 := set_listeners (<[i := enqueue e l]> (listeners s)) s) in *. set (wq := sq_wakeup (l_addr i) (sleepers s)).
  set (s2 := set_pipes (pipes s1) wq s1). pose proof (finv_queue kalloc kfree A s1 own1 E G wq Hi1) as Hi2. fold s2 in Hi2.
  destruct (fresh_kind xf Hfr) as (Ht & Hcf & Hbf). destruct (end_at_kind _ _ _ _ _ Hc) as (xc & Lc & Dc & _), (end_at_kind _ _ _ _ _ Hb) as (xb & Lb & Db & _).
  exists (set_ftable (alter (conn_file c b) f (ftable s2)) s2). split; [|split; [|done]].
  - unfold connect_queue. rewrite (acquire_listener s i l Hl Rl). unfold kbind at 1, kget. rewrite (locked_lat s i l Hl).
    cbn [used listening backlog l_cnt set_llock]. rewrite Hu, Hls, (proj2 (Z.leb_gt _ _)) by lia. cbn [negb orb].
    rewrite (update_wake_unlock s i l Hl Rl) by done. done.
  - eapply finv_ext; [| | |eapply (become_conn A s2 own1 E G f xf (conn_file c b) c b xc xb Hi2 Hxf Hcf Hbf)]; try done.
    + intros j. unfold own1, hold, unhold. lia.
    + congruence.
    + unfold own1, hold. rewrite (decide_True _ _ eq_refl). specialize (Ho0 c). case_decide; lia.
    + unfold own1, hold. rewrite (decide_True _ _ eq_refl). specialize (Ho0 b). case_decide; lia.
Qed.

(** ** The outcomes of [usock_connect] *)

Lemma connect_bad_eq o1 o2 o3 o4 s : connect_bad kfree l_addr o1 o2 o3 o4 s =
  (close_all close (Some <$> omap id [o1; o2; o3; o4]) ;; kret (-1)) s.
Proof.
  unfold connect_bad, kbind, kret. destruct o1 as [a|], o2 as [b|], o3 as [c|], o4 as [d|]; cbn -[fileclose]; unfold kbind, kret; try done;
  repeat (match goal with |- context [close ?k ?z] => destruct (close k z) as [[] ?| |] end; try done).
Qed.

(** Giving back the ends of pipes. *)
Lemma give_back A s own E G es o1 o2 o3 o4 : (forall i, 0 <= G i) -> (forall j, 0 <= own j) ->
  omap id [o1; o2; o3; o4] = es -> finv A s (fun j => own j + zsum (points j) (Some <$> es)) E G ->
  (forall e, e ∈ es -> exists rd wr p, end_at s e rd wr p) ->
  exists s', connect_bad kfree l_addr o1 o2 o3 o4 s = Done (-1) s' /\ finv A s' own E G /\ settled s s'.
Proof.
  intros HG0 Ho0 Hes Hi He. destruct (close_list A E G es HG0 s own Hi Ho0) as (s' & Ec & Hi' & Hs).
  { intros e Hin. destruct (He e Hin) as (rd & wr & p & Hp). destruct (end_at_kind _ _ _ _ _ Hp) as (x & Hx & _ & Ht & _). eauto. }
  exists s'. rewrite connect_bad_eq, Hes. unfold kbind. rewrite Ec. done.
Qed.
(** ... one of them closed already. *)
Lemma give_back_twice A s own E G es k o1 o2 o3 o4 rest : (forall i, 0 <= G i) -> (forall j, 0 <= own j) ->
  omap id [o1; o2; o3; o4] = es ++ k :: rest -> finv A s (fun j => own j + zsum (points j) (Some <$> es)) E G ->
  (forall e, e ∈ es -> exists rd wr p, end_at s e rd wr p) -> closed_at s k ->
  exists s', connect_bad kfree l_addr o1 o2 o3 o4 s = Panicked "fileclose" s'.
Proof.
  intros HG0 Ho0 Hes Hi He Hk. destruct (close_list A E G es HG0 s own Hi Ho0) as (s1 & Ec & Hi1 & Hs).
  { intros e Hin. destruct (He e Hin) as (rd & wr & p & Hp). destruct (end_at_kind _ _ _ _ _ Hp) as (x & Hx & _ & Ht & _). eauto. }
  destruct (close_closed A s1 own E G k Hi1) as [s2 E2].
  { eapply settled_closed; [exact Hs| |done]. by rewrite (fi_len _ _ _ _ _ _ _ Hi), (fi_len _ _ _ _ _ _ _ Hi1). }
  exists s2. rewrite connect_bad_eq, Hes, fmap_app. cbn [fmap list_fmap].
  assert (Happ : forall a b z, close_all close (a ++ b) z = (close_all close a ;; close_all close b) z).
  { intros a. induction a as [|[h|] a IHa]; intros b z; cbn [close_all app]; unfold kbind; [done| |done].
    destruct (close h z) as [[] z1| |]; [|done..]. apply IHa. }
  unfold kbind. rewrite Happ. unfold kbind. rewrite Ec. cbn [close_all]. unfold kbind. by rewrite E2.
Qed.

Lemma size_diff1 (F : gset Z) p : p ∈ F -> size F = S (size (F ∖ {[p]})).
Proof.
  intros Hp. assert (Hs : {[p]} ⊆ F) by set_solver. rewrite size_difference by done.
  pose proof (subseteq_size _ _ Hs). rewrite size_singleton in *. lia.
Qed.

(** Both pipes and the endpoint are there. *)
Record linked A s own f i e s' : Prop := {
  lk_inv : at_rest A s' own;
  lk_queue : exists l, listeners s !! i = Some l /\ listeners s' = <[i := enqueue e l]> (listeners s);
  lk_new : closed_at s e;
  lk_ends : exists cr cw sr sw p q, conn_at s' f sr cw /\ conn_at s' e cr sw /\ p <> q /\
    end_at s' cr 1 0 p /\ end_at s' cw 0 1 p /\ end_at s' sr 1 0 q /\ end_at s' sw 0 1 q /\
    pipes s' p = pipe_init (pipes s p) /\ pipes s' q = pipe_init (pipes s q);
  lk_others : forall j x, ftable s !! j = Some x -> f_ref x <> 0 -> j <> f -> ftable s' !! j = Some x;
}.

Definition takes l : bool := used l && listening l && (l_cnt l <? backlog l).
Abbreviation new_pipe A s own := (new_pipe kalloc kfree A s own (fun _ _ => 0) (fun _ => 0)).
Abbreviation no_pipe A s own := (no_pipe kalloc kfree A s own (fun _ _ => 0) (fun _ => 0)).

Section connect.
Context (A : gset Z) (s : fsys) (own : nat -> Z) (F : gset Z) (f i : nat) (l : usock_listener) (xf : file).
Context (Hi : at_rest A s own) (HF : pa_inv (pool s) F) (Hl : listeners s !! i = Some l).
Context (Hxf : ftable s !! f = Some xf) (Hfr : usock_fresh xf = true) (Hrf : f_ref xf <> 0).

Section both.
Context (a b c d : nat) (p q : Z) (s1 s2 : fsys).
Context (H1' : new_pipe A s own F a b p s1) (H2' : new_pipe A s1 (hold (hold own a) b) (F ∖ {[p]}) c d q s2).

Lemma both_held k : closed_at s k -> k = f -> False.
Proof using All. intros (x & Hx & Hr) ->. congruence. Qed.
Lemma both_ends : end_at s2 a 1 0 p /\ end_at s2 b 0 1 p /\ end_at s2 c 1 0 q /\ end_at s2 d 0 1 q.
Proof using All. destruct H1' as [_ _ _ ? ? _ _ _ _ _ _], H2' as [_ He _ ? ? _ _ _ _ _ _]. split_and!; try done; by eapply end_at_ext. Qed.
Lemma both_distinct : a <> b /\ c <> d /\ a <> c /\ a <> d /\ b <> c /\ b <> d.
Proof using All.
  destruct H1' as [_ _ Hab (xa & La & Ra & _) (xb & Lb & Rb & _) _ _ _ _ _ _], H2' as [_ _ Hcd _ _ _ _ _ _ _ [(xc & Lc & Rc) (xd & Ld & Rd)]].
  split_and!; try done; intros ->; simplify_eq; lia.
Qed.
Lemma both_open j x : ftable s !! j = Some x -> f_ref x <> 0 -> ftable s2 !! j = Some x.
Proof using All. intros Hj Hr. apply (ex_open _ _ (np_ext _ _ _ _ _ _ _ _ _ _ _ _ H2')), Hr. by apply (ex_open _ _ (np_ext _ _ _ _ _ _ _ _ _ _ _ _ H1')). Qed.
Lemma both_pipes : p <> q /\ pipes s2 p = pipe_init (pipes s p) /\ pipes s2 q = pipe_init (pipes s q).
Proof using All.
  destruct H1' as [_ _ _ _ _ _ _ _ Hp1 Hp2 _], H2' as [_ _ _ _ _ Hq _ _ Hq1 Hq2 _]. assert (p <> q) by set_solver.
  split_and!; [done|by rewrite Hq2|by rewrite Hq1, Hp2].
Qed.

Lemma four_sum j : hold (hold (hold (hold own a) b) c) d j = own j + zsum (points j) (Some <$> [a; b; c; d]).
Proof using All. unfold hold. cbn [fmap list_fmap zsum foldr]. rewrite !points_some. lia. Qed.

Lemma connect_third : let m := (e <- make_endpoint (Some a) (Some d) ;;
    match e with
    | None => connect_bad kfree l_addr (Some a) (Some b) (Some c) (Some d)
    | Some e => connect_queue i f e (Some c) (Some b)
    end) s2 in
  (nfree s = 4 /\ exists s', m = Done (-1) s' /\ at_rest A s' own) \/
  (5 <= nfree s /\ if takes l then exists e s', m = Done 0 s' /\ linked A s own f i e s'
    else exists s', m = Done (-1) s' /\ at_rest A s' (hold (hold own b) c) /\ closed_at s b /\ closed_at s c).
Proof using All.
  intros m. pose proof both_ends as (Ea & Eb & Ec & Ed). pose proof both_distinct as (Nab & Ncd & Nac & Nad & Nbc & Nbd).
  pose proof (fi_own _ _ _ _ _ _ _ Hi) as Ho0. pose proof (np_free _ _ _ _ _ _ _ _ _ _ _ _ H1') as N1. pose proof (np_free _ _ _ _ _ _ _ _ _ _ _ _ H2') as N2.
  pose proof (np_inv _ _ _ _ _ _ _ _ _ _ _ _ H2') as Hi2.
  assert (Hl2 : listeners s2 = listeners s).
  { by rewrite (ex_listeners _ _ (np_ext _ _ _ _ _ _ _ _ _ _ _ _ H2')), (ex_listeners _ _ (np_ext _ _ _ _ _ _ _ _ _ _ _ _ H1')). }
  assert (Hh : forall z k, (forall j, 0 <= z j) -> 1 <= hold z k k).
  { intros z k Hz. unfold hold. rewrite decide_True by done. specialize (Hz k). lia. }
  assert (Hhn : forall z k j, (forall j, 0 <= z j) -> z j <= hold z k j) by (intros z k j Hz; unfold hold; case_decide; lia).
  assert (Hh0 : forall z k, (forall j, 0 <= z j) -> forall j, 0 <= hold z k j) by (intros z k Hz j; specialize (Hhn z k j Hz); specialize (Hz j); lia).
  destruct (make_endpoint_spec A s2 _ _ _ a d p q Hi2) as [[Em Hn]|(e & s3 & Em & (xe & Le & Re) & Hn & Hi3 & He3 & Hc3 & Hp3 & Hps)]; try done.
  { pose proof (Hh own a Ho0). pose proof (Hhn (hold own a) b a ltac:(auto)). pose proof (Hhn (hold (hold own a) b) c a ltac:(auto)).
    pose proof (Hhn (hold (hold (hold own a) b) c) d a ltac:(auto)). lia. }
  { apply Hh. auto. }
  - left. split; [lia|]. unfold m, kbind. rewrite Em.
    destruct (give_back A s2 own (fun _ _ => 0) (fun _ => 0) [a; b; c; d] (Some a) (Some b) (Some c) (Some d) ltac:(done) Ho0 eq_refl) as (s' & Es & Hs & _).
    { eapply finv_ext; [..|exact Hi2]; try done. intros j. by rewrite four_sum. }
    { intros e He. repeat (apply elem_of_cons in He as [->|He]; [eauto 6|]). by apply not_elem_of_nil in He. }
    by exists s'.
  - right. split; [lia|]. unfold m, kbind. rewrite Em.
    assert (Hi3' : finv A s3 (hold (hold (hold own b) c) e) (fun _ _ => 0) (fun _ => 0)).
    { eapply finv_ext; [..|exact Hi3]; try done. intros j. unfold hold, unhold. lia. }
    assert (Hl3 : listeners s3 !! i = Some l) by (by rewrite (ex_listeners _ _ He3), Hl2).
    destruct (takes l) eqn:Htk.
    + destruct (connect_queued A s3 own _ _ i f e l xf c b p q a d Hi3' Ho0 Hl3 Htk Hc3) as (s' & Es & Hs & Ls & Fs & Ps); try done.
      { apply (ex_open _ _ He3), Hrf. by apply both_open. } { by eapply end_at_ext. } { by eapply end_at_ext. }
      exists e, s'. split; [done|]. destruct both_pipes as (Npq & Pp & Pq).
      assert (Hf3 : ftable s3 !! f = Some xf) by (apply (ex_open _ _ He3), Hrf; by apply both_open).
      assert (Hne : forall k x, ftable s3 !! k = Some x -> k <> f -> ftable s' !! k = Some x) by (intros; by rewrite Fs, list_lookup_alter_ne).
      assert (Hend : forall k rd wr z, end_at s2 k rd wr z -> end_at s' k rd wr z).
      { intros k rd wr z Hk. apply (end_at_ext _ _ _ _ _ _ He3) in Hk as (x & Hx & Hr & Hk). exists x. split; [|done]. apply Hne; [done|].
        intros ->. rewrite Hf3 in Hx. injection Hx as <-. destruct (fresh_kind xf Hfr) as (Ht & _). destruct Hk as (Ht' & _). congruence. }
      assert (Hef : e <> f). { intros ->. pose proof (both_open f xf Hxf Hrf). congruence. }
      constructor; [done|exists l; by rewrite Ls, (ex_listeners _ _ He3), Hl2| | |].
      * destruct (lookup_lt_is_Some_2 (ftable s) e) as [y Hy].
        { rewrite (fi_len _ _ _ _ _ _ _ Hi), <- (fi_len _ _ _ _ _ _ _ Hi2). by eapply lookup_lt_Some. }
        exists y. split; [done|]. destruct (decide (f_ref y = 0)); [done|]. pose proof (both_open e y Hy ltac:(done)). congruence.
      * exists a, b, c, d, p, q. split_and!; eauto; [|destruct Hc3 as (x & Hx & Hc3); exists x; split; [by apply Hne|done]|by rewrite Ps, Hps|by rewrite Ps, Hps].
        exists (conn_file c b xf). rewrite Fs, list_lookup_alter_eq, Hf3. split; [done|]. split; [|done].
        destruct (fresh_kind xf Hfr) as (Ht & _). unfold is_conn, conn_file. cbn. rewrite Ht. done.
      * intros j x Hx Hr Hj. apply Hne; [|done]. apply (ex_open _ _ He3), Hr. by apply both_open.
    + destruct (connect_refused A s3 (hold (hold own b) c) _ _ i f e l (Some c) (Some b) a d Hi3') as (s' & Es & Hs); try done; [auto|].
      exists s'. split_and!; [done|done|apply (np_new _ _ _ _ _ _ _ _ _ _ _ _ H1')|].
      destruct (np_new _ _ _ _ _ _ _ _ _ _ _ _ H2') as [(x & Hx & Hr) _].
      destruct (lookup_lt_is_Some_2 (ftable s) c) as [y Hy].
      { rewrite (fi_len _ _ _ _ _ _ _ Hi), <- (fi_len _ _ _ _ _ _ _ (np_inv _ _ _ _ _ _ _ _ _ _ _ _ H1')). by eapply lookup_lt_Some. }
      exists y. split; [done|]. destruct (decide (f_ref y = 0)) as [|Hne]; [done|].
      pose proof (ex_open _ _ (np_ext _ _ _ _ _ _ _ _ _ _ _ _ H1') c y Hy Hne). congruence.
Qed.
End both.

Lemma connect_outcome :
  (exists s', connect_to i f s = Panicked "fileclose" s' /\
    (nfree s = 1 \/ nfree s = 3 \/ 2 <= nfree s /\ F = ∅ \/ 4 <= nfree s /\ size F = 1%nat)) \/
  (exists s', connect_to i f s = Done (-1) s' /\ at_rest A s' own /\
    (nfree s = 0 \/ nfree s = 2 /\ F <> ∅ \/ nfree s = 4 /\ (2 <= size F)%nat)) \/
  (5 <= nfree s /\ (2 <= size F)%nat /\ takes l = true /\ exists e s', connect_to i f s = Done 0 s' /\ linked A s own f i e s') \/
  (5 <= nfree s /\ (2 <= size F)%nat /\ takes l = false /\ exists w r s', connect_to i f s = Done (-1) s' /\
    at_rest A s' (hold (hold own w) r) /\ closed_at s w /\ closed_at s r).
Proof using All.
  pose proof (fi_own _ _ _ _ _ _ _ Hi) as Ho0. pose proof (nfree_nonneg s) as N0.
  destruct (pipealloc_spec kalloc kfree l_addr A s own _ _ F Hi HF) as [(a & b & p & s1 & Ep & H1')|(f0 & f1 & s1 & Ep & H1')].
  2:{ assert (E1 : connect_to i f s = connect_bad kfree l_addr f0 f1 None None s1) by (unfold connect_to, kbind at 1; by rewrite Ep).
      rewrite E1. destruct H1' as [Hwhy Hi1 He Hn Hp Hnone Hcl Hfst]. destruct f0 as [k|].
      - left. destruct (give_back_twice A s1 own (fun _ _ => 0) (fun _ => 0) [] k (Some k) f1 None None (omap id [f1])) as [s' Es]; try done.
        + eapply finv_ext; [..|exact Hi1]; try done. intros j. cbn. lia.
        + by intros e ?%not_elem_of_nil.
        + apply Hcl. by left.
        + exists s'. split; [done|]. assert (nfree s <> 0) by (intros Z0; by apply Hnone in Z0). destruct Hwhy as [?|?]; [left; lia|].
          destruct (decide (nfree s = 1)); [by left|]. right. right. left. split; [lia|done].
      - right. left. rewrite (Hfst eq_refl). exists s1. split_and!; [done|done|]. left. by apply Hnone. }
  pose proof (np_free _ _ _ _ _ _ _ _ _ _ _ _ H1') as N1. pose proof (nfree_nonneg s1) as N1'.
  pose proof (np_inv _ _ _ _ _ _ _ _ _ _ _ _ H1') as Hi1. pose proof (size_diff1 F p (np_page _ _ _ _ _ _ _ _ _ _ _ _ H1')) as SF.
  assert (Hsum : forall j, own j + zsum (points j) (Some <$> [a; b]) = hold (hold own a) b j).
  { intros j. unfold hold. cbn [fmap list_fmap zsum foldr]. rewrite !points_some. lia. }
  destruct (pipealloc_spec kalloc kfree l_addr A s1 _ _ _ (F ∖ {[p]}) Hi1 (np_pool _ _ _ _ _ _ _ _ _ _ _ _ H1'))
    as [(c & d & q & s2 & Ep2 & H2')|(f0 & f1 & s2 & Ep2 & H2')].
  - assert (E2 : connect_to i f s = (e <- make_endpoint (Some a) (Some d) ;;
      match e with None => connect_bad kfree l_addr (Some a) (Some b) (Some c) (Some d) | Some e => connect_queue i f e (Some c) (Some b) end) s2).
    { unfold connect_to, kbind at 1. rewrite Ep. change (0 <? 0) with false. cbv iota beta. unfold kbind at 1. by rewrite Ep2. }
    rewrite E2. pose proof (size_diff1 (F ∖ {[p]}) q (np_page _ _ _ _ _ _ _ _ _ _ _ _ H2')) as SF2.
    destruct (connect_third a b c d p q s1 s2 H1' H2') as [(N4 & s' & Es & Hs)|(N5 & Hs)].
    + right. left. exists s'. split_and!; [done|done|]. right. right. split; lia.
    + destruct (takes l); right; right; [left|right].
      * split_and!; [done|lia|done|done].
      * split_and!; [done|lia|done|]. exists b, c. done.
  - assert (E2 : connect_to i f s = connect_bad kfree l_addr (Some a) (Some b) f0 f1 s2).
    { unfold connect_to, kbind at 1. rewrite Ep. change (0 <? 0) with false. cbv iota beta. unfold kbind at 1. by rewrite Ep2. }
    rewrite E2. destruct H2' as [Hwhy Hi2 He Hn Hp Hnone Hcl Hfst].
    assert (Hends : forall e, e ∈ [a; b] -> exists rd wr p, end_at s2 e rd wr p).
    { destruct H1' as [_ _ _ Ha Hb _ _ _ _ _ _]. intros e [->|[->|Hin]%elem_of_cons]%elem_of_cons; [|..|by apply not_elem_of_nil in Hin].
      - exists 1, 0, p. by eapply end_at_ext.
      - exists 0, 1, p. by eapply end_at_ext. }
    assert (Hi2' : finv A s2 (fun j => own j + zsum (points j) (Some <$> [a; b])) (fun _ _ => 0) (fun _ => 0)).
    { eapply finv_ext; [..|exact Hi2]; try done. }
    destruct f0 as [k|].
    + left. destruct (give_back_twice A s2 own (fun _ _ => 0) (fun _ => 0) [a; b] k (Some a) (Some b) (Some k) f1 (omap id [f1])) as [s' Es]; try done.
      * apply Hcl. by left.
      * exists s'. split; [done|]. assert (nfree s1 <> 0) by (intros Z0; by apply Hnone in Z0). destruct Hwhy as [?|HFe]; [lia|].
        rewrite HFe, size_empty in SF. lia.
    + right. left. rewrite (Hfst eq_refl).
      destruct (give_back A s2 own (fun _ _ => 0) (fun _ => 0) [a; b] (Some a) (Some b) None None) as (s' & Es & Hs & _); try done.
      exists s'. split_and!; [done|done|]. assert (nfree s1 = 0) by (by apply Hnone). right. left. split; [lia|]. intros ->. rewrite size_empty in SF. lia.
Qed.
End connect.

(** ** Binding, listening, accepting *)

Lemma find_unused_spec (ls : list usock_listener) : forall n i, find_unused ls n = Some i ->
  exists j l, i = (n + j)%nat /\ ls !! j = Some l /\ used l = false.
Proof.
  induction ls as [|x ls IH]; intros n i; cbn [find_unused]; [done|]. destruct (used x) eqn:Hu.
  - intros (j & l & -> & Hj & Hl)%IH. exists (S j), l. split_and!; [lia|done|done].
  - intros [= <-]. exists 0%nat, x. split_and!; [lia|done|done].
Qed.

Lemma copy_path_length path old : length old = USOCK_PATH_MAX -> length (copy_path path old) = USOCK_PATH_MAX.
Proof.
  intros Ho. unfold copy_path, safestrcpy_bytes. set (new := ctake _ _ ++ [0]).
  assert (Hn : (length new <= USOCK_PATH_MAX)%nat).
  { unfold new. rewrite length_app. cbn [length]. pose proof (ctake_length (USOCK_PATH_MAX - 1) (of_bytes path)). unfold USOCK_PATH_MAX in *. lia. }
  rewrite length_app, length_drop, Ho. lia.
Qed.

Lemma usock_bind_spec A s own f x path : at_rest A s own -> ftable s !! f = Some x -> f_ref x <> 0 ->
  exists r s', usock_bind f path s = Done r s' /\ at_rest A s' own /\
    ((r = -1 /\ s' = s) \/ (r = 0 /\ exists i l, listeners s !! i = Some l /\ used l = false /\ find_listener (listeners s) path 0 = None /\
      listeners s' = <[i := bind_listener path l]> (listeners s) /\ ftable s' = alter (set_usock USOCK_BOUND (Z.of_nat i)) f (ftable s))).
Proof.
  intros Hi Hx Hr. unfold usock_bind, kbind at 1, kget at 1. rewrite (fat_lookup s f x Hx).
  destruct (usock_fresh x) eqn:Hf; cbn [negb]; [|by exists (-1), s; eauto].
  destruct (path_fits path); cbn [negb]; [|by exists (-1), s; eauto].
  destruct (fi_locks _ _ _ _ _ _ _ Hi) as [_ Hlk].
  unfold acquire, find_listener_locked, kgets, kbind at 1 2 3, kget, kput. cbn [held file_locks]. rewrite Hlk.
  change (listeners (set_held Usock true s)) with (listeners s).
  assert (Hun : release Usock (set_held Usock true s) = Done tt s).
  { unfold release, kbind, kget, kput. cbn [held file_locks]. change (usock_lock (set_held Usock true s)) with true. cbv iota.
    by rewrite (usock_locked A s own _ _ Hi). }
  destruct (find_listener (listeners s) path 0) as [i|] eqn:Hfl.
  { exists (-1), s. unfold kbind. rewrite Hun. eauto. }
  unfold kbind at 1. change (listeners (set_held Usock true s)) with (listeners s).
  destruct (find_unused (listeners s) 0) as [i|] eqn:Hfu.
  2:{ exists (-1), s. unfold kbind. rewrite Hun. eauto. }
  destruct (find_unused_spec _ _ _ Hfu) as (i' & l & E0 & Hl & Hu). cbn in E0. subst i'.
  pose proof (fi_ring _ _ _ _ _ _ _ Hi i l Hl) as [Rr Rb Ru Rl Rp]. destruct (fresh_kind x Hf) as (Ht & Hc & Hb).
  set (s1 := set_listeners (<[i := bind_listener path l]> (listeners s)) s).
  set (G1 := fun i' : nat => if decide (i' = i) then 1 else 0).
  assert (Hpl : forall k, lref k (bind_listener path l) = lref k l) by done.
  assert (Hi1 : finv A s1 own (fun _ _ => 0) G1).
  { eapply (upd_listener_inv kalloc kfree A s own own _ _ G1 i l _ Hi Hl).
    - intros j. rewrite Hpl. lia.
    - apply (fi_own _ _ _ _ _ _ _ Hi).
    - intros i'. unfold G1. cbn [used bind_listener]. rewrite Hu. case_decide; done.
    - constructor; [|done|done|done|by apply copy_path_length]. specialize (Ru Hu). destruct Rr as [R1 R2 R3 R4 R5]. constructor; try done.
      intros j Hj. cbn. split; [|intros; exfalso; ring_consts; dlia]. intros [e He].
      discriminate (empty_ring l _ _ (Build_ring _ R1 R2 R3 R4 R5) Ru He).
    - intros j e He. exact (fi_pending _ _ _ _ _ _ _ Hi i l j e Hl He). }
  assert (Hlt : (i < NUSOCK)%nat) by (rewrite <- (fi_llen _ _ _ _ _ _ _ Hi); by eapply lookup_lt_Some).
  exists 0, (set_ftable (alter (set_usock USOCK_BOUND (Z.of_nat i)) f (ftable s1)) s1). split; [|split; [|right; eauto 10]].
  - unfold upd_listener, upd_file, release, kbind, kget, kput, kmodify. cbn [listeners set_held file_locks set_listeners held usock_lock].
    rewrite (alter_insert _ _ _ _ Hl). unfold kret. f_equal. destruct s; cbn in *. by subst.
  - eapply upd_file_inv; [exact Hi1|exact Hx|..]; try done; cbn [f_ref set_usock].
    + intros j. rewrite (nref_plain j x Hc), (nref_plain j). { case_decide; lia. } unfold is_conn. cbn. by rewrite andb_false_r.
    + apply (fi_own _ _ _ _ _ _ _ Hi).
    + intros p wr. rewrite !no_end; [lia|cbn; congruence|congruence].
    + intros i'. unfold nlid. rewrite Hb. unfold G1, is_bound. cbn [f_type usock_state usock_lid set_usock]. rewrite Ht. cbn.
      case_decide; [subst; by rewrite Z.eqb_refl|]. by rewrite (proj2 (Z.eqb_neq _ _)) by lia.
    + cbn. congruence.
    + intros _. cbn. lia.
    + unfold is_conn. cbn. by rewrite andb_false_r.
    + left. unfold is_conn, is_end. cbn. rewrite Ht. split; [|done]. unfold is_conn in Hc. rewrite Ht in Hc. cbn in Hc. by rewrite Hc.
Qed.

Lemma lid_lookup A s own k x : at_rest A s own -> ftable s !! k = Some x -> is_bound x = true ->
  exists l, listeners s !! lid_of x = Some l /\ used l = true.
Proof.
  intros Hi Hx Hb. pose proof (fi_bound _ _ _ _ _ _ _ Hi k x Hx Hb) as Hr.
  destruct (lookup_lt_is_Some_2 (listeners s) (lid_of x)) as [l Hl]; [rewrite (fi_llen _ _ _ _ _ _ _ Hi); unfold lid_of; lia|].
  exists l. split; [done|]. pose proof (fi_used _ _ _ _ _ _ _ Hi _ l Hl) as Hu.
  pose proof (zsum_in (nlid (lid_of x)) (ftable s) k x (nlid_nonneg _) Hx) as Hz. fold (bindings s (lid_of x)) in Hz.
  assert (nlid (lid_of x) x = 1); [|destruct (used l); [done|cbn in Hu; lia]].
  unfold nlid. rewrite Hb. unfold lid_of. rewrite Z2Nat.id by lia. by rewrite Z.eqb_refl.
Qed.

Lemma usock_listen_spec A s own f x n : at_rest A s own -> ftable s !! f = Some x -> f_ref x <> 0 ->
  exists r s', usock_listen l_addr f n s = Done r s' /\ at_rest A s' own /\
    ((r = -1 /\ s' = s) \/ (r = 0 /\ exists l, listeners s !! lid_of x = Some l /\
      listeners s' = <[lid_of x := set_listening (Z.max 1 (Z.min n USOCK_PENDING_MAX)) l]> (listeners s) /\
      ftable s' = alter (set_usock USOCK_LISTEN (usock_lid x)) f (ftable s))).
Proof.
  intros Hi Hx Hr. unfold usock_listen, kbind at 1, kget at 1. rewrite (fat_lookup s f x Hx).
  destruct (bool_decide (f_type x = FD_USOCK)) eqn:Ht; cbn [negb orb]; [|by exists (-1), s; eauto]. apply bool_decide_eq_true in Ht.
  destruct (Z.eqb_spec (usock_state x) USOCK_BOUND) as [Hs|]; cbn [negb orb]; [|by exists (-1), s; eauto].
  destruct (Z.ltb_spec (usock_lid x) 0) as [|Hlid]; [by exists (-1), s; eauto|].
  assert (Hb : is_bound x = true) by (unfold is_bound; by rewrite Ht, Hs).
  destruct (lid_lookup A s own f x Hi Hx Hb) as (l & Hl & Hu). pose proof (fi_ring _ _ _ _ _ _ _ Hi _ l Hl) as [Rr Rb Ru Rl Rp].
  set (bk := if USOCK_PENDING_MAX <? (if n <=? 0 then 1 else n) then USOCK_PENDING_MAX else if n <=? 0 then 1 else n).
  assert (Ebk : bk = Z.max 1 (Z.min n USOCK_PENDING_MAX)) by (unfold bk; ring_consts; zcases; lia).
  set (i := lid_of x) in *. set (s1 := set_listeners (<[i := set_listening bk l]> (listeners s)) s).
  set (s2 := set_pipes (pipes s1) (sq_wakeup (l_addr i) (sleepers s1)) s1).
  assert (Hi2 : at_rest A s2 own).
  { apply finv_queue. eapply (upd_listener_inv kalloc kfree A s own own _ _ _ i l _ Hi Hl).
    - intros j. change (lref j (set_listening bk l)) with (lref j l). lia.
    - apply (fi_own _ _ _ _ _ _ _ Hi).
    - intros i'. cbn [used set_listening]. case_decide; lia.
    - constructor; [by destruct Rr|cbn; rewrite Ebk; ring_consts; lia|done..].
    - intros j e He. exact (fi_pending _ _ _ _ _ _ _ Hi i l j e Hl He). }
  exists 0, (set_ftable (alter (set_usock USOCK_LISTEN (usock_lid x)) f (ftable s2)) s2). split; [|split].
  - rewrite (acquire_listener s i l Hl Rl). unfold kbind at 1, kget. rewrite (locked_lat s i l Hl). cbn [used set_llock]. rewrite Hu. cbn [negb].
    rewrite (update_wake_unlock s i l Hl Rl) by done. done.
  - assert (Hc : forall y, f_type y = FD_USOCK -> is_bound y = true -> is_conn y = false).
    { intros y Hy. unfold is_bound, is_conn. rewrite Hy. cbn. intros [->%Z.eqb_eq | ->%Z.eqb_eq]%orb_true_iff; done. }
    eapply upd_file_inv; [exact Hi2|exact Hx|..]; try done; cbn [f_ref set_usock].
    + intros j. rewrite (nref_plain j x) by auto. rewrite (nref_plain j). { case_decide; lia. } unfold is_conn. cbn. by rewrite andb_false_r.
    + apply (fi_own _ _ _ _ _ _ _ Hi).
    + intros p wr. rewrite !no_end; [lia|cbn; congruence|congruence].
    + intros i'. unfold nlid. rewrite Hb. unfold is_bound. cbn [f_type usock_state usock_lid set_usock]. rewrite Ht. cbn [andb]. by destruct (usock_lid x =? Z.of_nat i').
    + cbn. congruence.
    + intros _. cbn. exact (fi_bound _ _ _ _ _ _ _ Hi f x Hx Hb).
    + unfold is_conn. cbn. by rewrite andb_false_r.
    + left. rewrite (Hc x Ht Hb). unfold is_conn, is_end. cbn. rewrite Ht. done.
  - right. split; [done|]. exists l. by rewrite <- Ebk.
Qed.

Lemma make_usock_spec A s own f x : at_rest A s own -> ftable s !! f = Some x -> f_ref x <> 0 -> f_type x = FD_NONE ->
  exists s', make_usock f s = Done tt s' /\ at_rest A s' own.
Proof.
  intros Hi Hx Hr Ht. eexists. split; [done|]. destruct (plain_counts x) as [Hc Hb]; [congruence|].
  eapply upd_file_inv; [exact Hi|exact Hx|..]; try done; cbn [f_ref].
  - intros j. rewrite (nref_plain j x Hc), (nref_plain j) by done. case_decide; lia.
  - apply (fi_own _ _ _ _ _ _ _ Hi).
  - intros p wr. rewrite !no_end; [lia|done|congruence].
  - intros i'. rewrite Hb. change (nlid i' _) with 0. lia.
  - right. eapply plain_not_held; eauto. congruence.
Qed.

Lemma usock_accept_spec A s own t killed f x : at_rest A s own -> ftable s !! f = Some x ->
  exists r s', usock_accept l_addr t killed f s = Done r s' /\
    match r with
    | Return (z, None) => z = -1 /\ s' = s
    | Wait _ => killed = false /\ at_rest A s' own /\ exists q, s' = set_pipes (pipes s) q s
    | Return (z, Some e) => z = 0 /\ at_rest A s' (hold own e) /\ exists l, listeners s !! lid_of x = Some l /\ 0 < l_cnt l /\
        pending l !! Z.to_nat (l_head l) = Some (Some e) /\ s' = set_listeners (<[lid_of x := dequeue l]> (listeners s)) s
    end.
Proof.
  intros Hi Hx. unfold usock_accept, kbind at 1, kget at 1. rewrite (fat_lookup s f x Hx).
  destruct (bool_decide (f_type x = FD_USOCK)) eqn:Ht; cbn [negb orb]; [|by exists (Return (-1, None)), s]. apply bool_decide_eq_true in Ht.
  destruct (Z.eqb_spec (usock_state x) USOCK_LISTEN) as [Hs|]; cbn [negb orb]; [|by exists (Return (-1, None)), s].
  destruct (Z.ltb_spec (usock_lid x) 0) as [|Hlid]; [by exists (Return (-1, None)), s|].
  assert (Hb : is_bound x = true) by (unfold is_bound; by rewrite Ht, Hs).
  destruct (lid_lookup A s own f x Hi Hx Hb) as (l & Hl & Hu). pose proof (fi_ring _ _ _ _ _ _ _ Hi _ l Hl) as [Rr Rb Ru Rl Rp].
  set (i := lid_of x) in *. rewrite (acquire_listener s i l Hl Rl). unfold kbind at 1, kget. rewrite (locked_lat s i l Hl).
  cbn [used listening l_cnt set_llock]. rewrite Hu. cbn [negb orb andb].
  destruct (listening l && (l_cnt l =? 0)) eqn:Hw.
  - destruct killed; [exists (Return (-1, None)), s; by rewrite (release_listener s i l Hl Rl)|].
    set (q := sq_sleep t (l_addr i) (sleepers s)). exists (Wait tt), (set_pipes (pipes s) q s).
    split; [|split_and!; [done|by apply finv_queue|by exists q]].
    pose proof (release_listener s i l Hl Rl (kret tt)) as Er. unfold sleep, kbind, kret in *.
    destruct (release (Listener i) (set_held (Listener i) true s)) as [[] z| |]; [|done..]. by assert (z = s) as -> by congruence.
  - destruct (negb (listening l) || (l_cnt l <=? 0)) eqn:Hn.
    { exists (Return (-1, None)), s. by rewrite (release_listener s i l Hl Rl). }
    apply orb_false_iff in Hn as [Hls%negb_false_iff Hc%Z.leb_gt].
    destruct (dequeue_ring l Rr Hc) as (Rr' & e & He & Hlr).
    eexists (Return (0, Some e)), (set_listeners (<[i := dequeue l]> (listeners s)) s). split.
    { rewrite (update_unlock s i l Hl Rl) by done. cbn [l_head pending set_llock]. by rewrite nth_lookup, He. }
    split_and!; [done| |by exists l].
    eapply (upd_listener_inv kalloc kfree A s own _ _ _ _ i l _ Hi Hl).
    + intros j. rewrite Hlr, points_some. unfold hold. lia.
    + intros j. unfold hold. pose proof (fi_own _ _ _ _ _ _ _ Hi j). case_decide; lia.
    + intros i'. cbn [used dequeue]. case_decide; lia.
    + constructor; [done|done|cbn; congruence|done|done].
    + intros j e' He'. cbn [pending dequeue] in He'. destruct (decide (j = Z.to_nat (l_head l))) as [->|Hne].
      * by rewrite list_lookup_insert_eq in He' by (by eapply lookup_lt_Some).
      * rewrite list_lookup_insert_ne in He' by done. exact (fi_pending _ _ _ _ _ _ _ Hi i l j e' Hl He').
Qed.

(** ** What the operations do to the holders of files *)

Inductive fop :=
  | OpOpen
  | OpDup (k : nat)
  | OpClose (k : nat)
  | OpPipe
  | OpSocket (k : nat)
  | OpBind (k : nat) (path : list Z)
  | OpListen (k : nat) (n : Z)
  | OpConnect (k : nat) (path : list Z)
  | OpAccept (t : nat) (killed : bool) (k : nat).

(** C's result and the references handed to the caller. *)
Definition exec (op : fop) : K fsys (segment (Z * list nat) unit) :=
  match op with
  | OpOpen => r <- filealloc ;; kret (Return (match r with Some k => (0, [k]) | None => (-1, []) end))
  | OpDup k => r <- filedup k ;; kret (Return (0, [r]))
  | OpClose k => close k ;; kret (Return (0, []))
  | OpPipe =>
      r <- pipealloc kalloc kfree l_addr ;;
      let '(z, f0, f1) := r in kret (Return (z, if z <? 0 then [] else omap id [f0; f1]))
  | OpSocket k => make_usock k ;; kret (Return (0, []))
  | OpBind k path => r <- usock_bind k path ;; kret (Return (r, []))
  | OpListen k n => r <- usock_listen l_addr k n ;; kret (Return (r, []))
  | OpConnect k path => r <- usock_connect k path ;; kret (Return (r, []))
  | OpAccept t killed k =>
      r <- usock_accept l_addr t killed k ;;
      kret (match r with Return (z, o) => Return (z, omap id [o]) | Wait u => Wait u end)
  end.
Definition given (r : segment (Z * list nat) unit) : list nat := match r with Return (_, l) => l | Wait _ => [] end.
Definition dropped (op : fop) (j : nat) : Z := match op with OpClose k => if decide (j = k) then 1 else 0 | _ => 0 end.

(** The caller holds the file it names. *)
Definition legal s own (op : fop) : Prop :=
  match op with
  | OpOpen | OpPipe => True
  | OpDup k | OpBind k _ | OpListen k _ | OpConnect k _ | OpAccept _ _ k => 1 <= own k
  | OpClose k => 1 <= own k /\ forall x, ftable s !! k = Some x -> inode_closes s x
  | OpSocket k => 1 <= own k /\ forall x, ftable s !! k = Some x -> f_type x = FD_NONE
  end.

Lemma find_listener_spec (ls : list usock_listener) path : forall n i, find_listener ls path n = Some i ->
  exists j l, i = (n + j)%nat /\ ls !! j = Some l /\ used l = true.
Proof.
  induction ls as [|x ls IH]; intros n i; cbn [find_listener]; [done|].
  destruct (used x && (strncmp (of_bytes (l_path x)) (of_bytes path) USOCK_PATH_MAX =? 0)) eqn:Hu.
  - intros [= <-]. exists 0%nat, x. apply andb_true_iff in Hu as [Hu _]. split_and!; [lia|done|done].
  - intros (j & l & -> & Hj & Hl)%IH. exists (S j), l. split_and!; [lia|done|done].
Qed.

(** What is not a connection attempt changes nothing. *)
Lemma connect_no A s own f x path : at_rest A s own -> ftable s !! f = Some x ->
  usock_fresh x && path_fits path && bool_decide (find_listener (listeners s) path 0 <> None) = false ->
  usock_connect f path s = Done (-1) s.
Proof.
  intros Hi Hx Hn. unfold File.usock_connect, kbind at 1, kget at 1. rewrite (fat_lookup s f x Hx).
  destruct (usock_fresh x); [|done]. destruct (path_fits path); [|done]. cbn [negb andb] in *. apply bool_decide_eq_false in Hn.
  destruct (fi_locks _ _ _ _ _ _ _ Hi) as [_ Hlk].
  unfold acquire, release, find_listener_locked, kgets, kbind at 1 2 3 4 5, kget, kput. cbn [held file_locks]. rewrite Hlk.
  change (listeners (set_held Usock true s)) with (listeners s). change (usock_lock (set_held Usock true s)) with true. cbv iota beta.
  rewrite (usock_locked A s own _ _ Hi). destruct (find_listener (listeners s) path 0); [|done]. by destruct Hn.
Qed.

Lemma connect_holders A s own f path : at_rest A s own -> 1 <= own f ->
  (exists r s' own' lost, usock_connect f path s = Done r s' /\ at_rest A s' own' /\
    (forall j, own' j = own j + zsum (points j) (Some <$> lost)) /\ (lost = [] \/ length lost = 2%nat /\ r = -1)) \/
  (exists s', usock_connect f path s = Panicked "fileclose" s').
Proof.
  intros Hi Hf. destruct (owned kalloc kfree A s own _ _ f Hi Hf) as (x & Hx & Hr).
  destruct (usock_fresh x && path_fits path && bool_decide (find_listener (listeners s) path 0 <> None)) eqn:Hok.
  2:{ left. exists (-1), s, own, []. split_and!; [by eapply connect_no|done|intros j; cbn; lia|by left]. }
  apply andb_true_iff in Hok as [[Hfr Hpf]%andb_true_iff Hne%bool_decide_eq_true].
  destruct (find_listener (listeners s) path 0) as [i|] eqn:Hfl; [|done].
  destruct (find_listener_spec _ _ _ _ Hfl) as (i' & l & E0 & Hl & _). cbn in E0. subst i'.
  rewrite (connect_start A s own _ _ f path i Hi) by (done || by rewrite (fat_lookup s f x Hx)).
  destruct (fi_pages _ _ _ _ _ _ _ Hi) as (F & U & HF & _).
  destruct (connect_outcome A s own F f i l x Hi HF Hl Hx Hfr) as [(s' & E & _)|[(s' & E & Hs & _)|[(_ & _ & _ & e & s' & E & Hs)|
    (_ & _ & _ & w & r & s' & E & Hs & _)]]]; [lia| | | |].
  - right. eauto.
  - left. exists (-1), s', own, []. split_and!; [done|done|intros j; cbn; lia|by left].
  - left. exists 0, s', own, []. split_and!; [done|apply Hs|intros j; cbn; lia|by left].
  - left. exists (-1), s', (hold (hold own w) r), [w; r]. split_and!; [done|done| |by right].
    intros j. unfold hold. cbn [fmap list_fmap zsum foldr]. rewrite !points_some. lia.
Qed.


(** The outcomes of [usock_connect] on a fresh socket with a listener for
    the path, by the number of free entries of the file table and of free
    pages.  With five entries and two pages it succeeds if the listener takes
    another connection; otherwise it fails with -1 and loses two of the pipe
    ends, which nobody can close any more.  With 0, 2 or 4 entries (and a page
    for each pipe they allow) it fails and leaves the holders as they were;
    with 1 or 3 entries, or fewer pages, it closes a file that is closed
    already, and the kernel panics. *)
Theorem usock_connect_outcomes A s own F f x path i l :
  at_rest A s own -> pa_inv (pool s) F -> 1 <= own f -> ftable s !! f = Some x -> usock_fresh x = true -> path_fits path = true ->
  find_listener (listeners s) path 0 = Some i -> listeners s !! i = Some l ->
  (exists s', usock_connect f path s = Panicked "fileclose" s' /\
    (nfree s = 1 \/ nfree s = 3 \/ 2 <= nfree s /\ F = ∅ \/ 4 <= nfree s /\ size F = 1%nat)) \/
  (exists s', usock_connect f path s = Done (-1) s' /\ at_rest A s' own /\
    (nfree s = 0 \/ nfree s = 2 /\ F <> ∅ \/ nfree s = 4 /\ (2 <= size F)%nat)) \/
  (5 <= nfree s /\ (2 <= size F)%nat /\ takes l = true /\ exists e s', usock_connect f path s = Done 0 s' /\ linked A s own f i e s') \/
  (5 <= nfree s /\ (2 <= size F)%nat /\ takes l = false /\ exists w r s', usock_connect f path s = Done (-1) s' /\
    at_rest A s' (hold (hold own w) r) /\ closed_at s w /\ closed_at s r).
Proof.
  intros Hi HF Hf Hx Hfr Hpf Hfl Hl. rewrite (connect_start A s own _ _ f path i Hi) by (done || by rewrite (fat_lookup s f x Hx)).
  apply (connect_outcome A s own F f i l x Hi HF Hl Hx Hfr). destruct (owned kalloc kfree A s own _ _ f Hi Hf) as (y & Hy & Hr).
  assert (y = x) as -> by congruence. lia.
Qed.

End sockets.
