(* ===== verification/FileStream.v ===== *)
(** * Local sockets end to end: pipe.c, file.c and unixsock.c together

    A connection carries bytes: what one socket writes the other one reads, in
    both directions.  At the end a concrete file table. *)

From Stdlib Require Import ZArith Lia.
From S2P Require Import Prelude KString Spinlock Kalloc Proc Pipe Bytes Bio BlockLayer Log Fs File FileSafe FileOps.

Section stream.
Context {Q P B N : Type} `{SleepQueue Q} `{BlockOps B} `{TransOps B} `{NetOps N}.
Context (kalloc : K P Z) (kfree : Z -> K P unit) `{PA : !PageAllocator P kalloc kfree}.
Context (devsw : Z -> devops B) (l_addr : nat -> Z).

Abbreviation fsys := (fsys Q P B N).
Abbreviation at_rest := (at_rest kalloc kfree).
Implicit Types (s : fsys) (x : file) (k j : nat) (own : nat -> Z) (l : usock_listener).

(** ** A pipe with room, and a pipe with contents *)

Lemma pipewrite_fits p t (bs : list Z) (w : pworld Q) : pipe_ok (pp w) -> p_lock (pp w) = false ->
  count (pp w) + Z.of_nat (length bs) <= PIPESIZE ->
  exists w', pipewrite p t false (Z.of_nat (length bs)) bs w = Done (Return (Z.of_nat (length bs))) w' /\
    pipe_ok (pp w') /\ p_lock (pp w') = false /\ contents (pp w') = contents (pp w) ++ bs.
Proof.
  intros Hok Hlk Hfit. assert (Hw : wp (pipewrite p t false (Z.of_nat (length bs)) bs) (fun r w' =>
    r = Return (Z.of_nat (length bs)) /\ pipe_ok (pp w') /\ p_lock (pp w') = false /\ contents (pp w') = contents (pp w) ++ bs) w).
  { unfold pipewrite. kstep. apply wp_acquire; [done|]. eapply wp_mono; [apply wp_pipewrite_loop; [by destruct Hok|done]|].
    intros r w' (bs1 & bs2 & -> & H1' & H2' & _ & H4 & _ & [(-> & -> & _)|(Hne & Hfull & _)]).
    - rewrite app_nil_r. done.
    - exfalso. apply (full_count _ H1') in Hfull. pose proof (f_equal (fun l : list Z => Z.of_nat (length l)) H4) as Hl. cbn beta in Hl.
      rewrite length_app, Nat2Z.inj_add, !contents_length in Hl. rewrite length_app in Hfit.
      change (count (pp (set_held tt true w))) with (count (pp w)) in Hl. destruct bs2; [done|]. cbn [length] in Hfit. lia. }
  apply wp_done in Hw as (r & w' & E & -> & Hw). by exists w'.
Qed.

Lemma piperead_all p t (n : nat) (w : pworld Q) : pipe_ok (pp w) -> p_lock (pp w) = false -> contents (pp w) <> [] ->
  (length (contents (pp w)) <= n)%nat ->
  exists w', piperead p t false n w = Done (Return (Some (contents (pp w)))) w' /\ pipe_ok (pp w') /\ p_lock (pp w') = false /\ contents (pp w') = [].
Proof.
  intros Hok Hlk Hne Hn. assert (Hc : count (pp w) <> 0).
  { intros E. pose proof (contents_length (pp w)) as Hl. rewrite E in Hl. destruct (contents (pp w)); [done|]. cbn in Hl. lia. }
  assert (Hw : wp (piperead p t false n) (fun r w' => r = Return (Some (contents (pp w))) /\
    pipe_ok (pp w') /\ p_lock (pp w') = false /\ contents (pp w') = []) w).
  { unfold piperead. kstep. apply wp_acquire; [done|]. kstep. kstep. change (pp (set_held tt true w)) with (pp (set_held tt true w)).
    destruct (nread (pp w) =? nwrite (pp w)) eqn:He; [by apply (empty_count _ Hok) in He|].
    change (nread (pp (set_held tt true w)) =? nwrite (pp (set_held tt true w))) with (nread (pp w) =? nwrite (pp w)). rewrite He. cbn [andb].
    kstep. eapply wp_mono; [apply wp_piperead_loop; by destruct Hok|]. intros bs w1 (H1' & H2' & _ & _ & H5 & H6).
    change (contents (pp (set_held tt true w))) with (contents (pp w)) in H5.
    assert (contents (pp w1) = []) as E.
    { pose proof (f_equal length H5) as Hl. rewrite length_app in Hl. pose proof (contents_length (pp w1)).
      destruct H6 as [Hb|[Hb _]]; destruct (contents (pp w1)); cbn in *; done || lia. }
    rewrite E, app_nil_r in H5. unfold Pipe.wakeup. ksteps. apply wp_release; [done|]. ksteps. rewrite H5. split_and!; [done|by destruct H1'|done|done]. }
  apply wp_done in Hw as (r & w' & E & -> & Hw). by exists w'.
Qed.

(** ** Sockets over pipes *)

Lemma sock_write s t f sr cw p (bs : list Z) : conn_at s f sr cw -> end_at s cw 0 1 p -> pipe_ok (pipes s p) -> p_lock (pipes s p) = false ->
  count (pipes s p) + Z.of_nat (length bs) <= PIPESIZE ->
  exists ps q, filewrite devsw t false f bs (Z.of_nat (length bs)) s = Done (Return (Z.of_nat (length bs))) (set_pipes ps q s) /\
    (forall p', p' <> p -> ps p' = pipes s p') /\ pipe_ok (ps p) /\ p_lock (ps p) = false /\ contents (ps p) = contents (pipes s p) ++ bs.
Proof.
  intros (x & Hx & Hc & _ & Hwr & _ & Htx) (y & Hy & _ & Hty & _ & Hwy & Hpy) Hok Hlk Hfit.
  destruct (pipewrite_fits p t bs {| pp := pipes s p; queue := sleepers s |} Hok Hlk Hfit) as (w' & Ew & H1' & H2' & H3).
  exists (fun a : Z => if a =? p then pp w' else pipes s a), (queue w'). rewrite Z.eqb_refl. split_and!; [|by intros p' ->%Z.eqb_neq|done..].
  pose proof Hc as [Ht Hst]%andb_true_iff. apply bool_decide_eq_true in Ht.
  unfold filewrite. change (S NFILE) with (S (S 99)). cbn [filewrite_fuel]. unfold kbind, kget. rewrite (fat_lookup s f x Hx), Hwr, Ht, Htx, Hst.
  cbn [Z.eqb Pos.eqb]. rewrite (fat_lookup s cw y Hy), Hwy, Hty, Hpy. cbn [Z.eqb Pos.eqb]. unfold inpipe, zoom. rewrite Nat2Z.id, firstn_all. by rewrite Ew.
Qed.

Lemma sock_read s t f cr sw p n : conn_at s f cr sw -> end_at s cr 1 0 p -> pipe_ok (pipes s p) -> p_lock (pipes s p) = false ->
  contents (pipes s p) <> [] -> Z.of_nat (length (contents (pipes s p))) <= n ->
  exists s', fileread devsw t false f n s = Done (Return (Z.of_nat (length (contents (pipes s p))), contents (pipes s p))) s' /\
    ftable s' = ftable s /\ contents (pipes s' p) = [].
Proof.
  intros (x & Hx & Hc & Hrd & _ & Hrx & _) (y & Hy & _ & Hty & Hry & _ & Hpy) Hok Hlk Hne Hn.
  destruct (piperead_all p t (Z.to_nat n) {| pp := pipes s p; queue := sleepers s |} Hok Hlk Hne) as (w' & Ew & _ & _ & H3); [cbn; lia|].
  eexists. pose proof Hc as [Ht Hst]%andb_true_iff. apply bool_decide_eq_true in Ht. split; [|split].
  - unfold fileread. change (S NFILE) with (S (S 99)). cbn [fileread_fuel]. unfold kbind, kget. rewrite (fat_lookup s f x Hx), Hrd, Ht, Hrx, Hst.
    cbn [Z.eqb Pos.eqb]. rewrite (fat_lookup s cr y Hy), Hry, Hty, Hpy. cbn [Z.eqb Pos.eqb]. unfold inpipe, zoom. rewrite Ew. done.
  - done.
  - cbn. by rewrite Z.eqb_refl.
Qed.

(** Bytes from the socket [f] to the socket [e], over the pipe [p]. *)
Lemma sock_pass s t t' f sr cw e cr sw p (bs : list Z) n : conn_at s f sr cw -> end_at s cw 0 1 p -> conn_at s e cr sw -> end_at s cr 1 0 p ->
  pipe_ok (pipes s p) -> p_lock (pipes s p) = false -> contents (pipes s p) = [] -> bs <> [] -> Z.of_nat (length bs) <= PIPESIZE ->
  Z.of_nat (length bs) <= n ->
  exists s1 s2, filewrite devsw t false f bs (Z.of_nat (length bs)) s = Done (Return (Z.of_nat (length bs))) s1 /\
    fileread devsw t' false e n s1 = Done (Return (Z.of_nat (length bs), bs)) s2.
Proof.
  intros Hf Hcw He Hcr Hok Hlk Hem Hne Hl Hn. pose proof (contents_length (pipes s p)) as Hc. rewrite Hem in Hc. cbn in Hc.
  destruct (sock_write s t f sr cw p bs Hf Hcw Hok Hlk) as (ps & q & Ew & _ & Hok' & Hlk' & Hc'); [lia|].
  rewrite Hem in Hc'. cbn [app] in Hc'.
  destruct (sock_read (set_pipes ps q s) t' e cr sw p n) as (s2 & Er & _); try done; cbn [pipes set_pipes]; rewrite ?Hc'; try done.
  eexists _, s2. split; [exact Ew|]. cbn [pipes set_pipes] in Er. by rewrite Hc' in Er.
Qed.

Lemma connect_linked A s own f path i s1 : at_rest A s own -> 1 <= own f -> find_listener (listeners s) path 0 = Some i ->
  usock_connect kalloc kfree l_addr f path s = Done 0 s1 -> exists l x e, listeners s !! i = Some l /\ takes l = true /\
  ftable s !! f = Some x /\ usock_fresh x = true /\ linked kalloc kfree A s own f i e s1.
Proof.
  intros Hi Hf Hfl Ec. destruct (owned kalloc kfree A s own _ _ f Hi Hf) as (x & Hx & Hr).
  destruct (usock_fresh x && path_fits path && bool_decide (find_listener (listeners s) path 0 <> None)) eqn:Hok.
  2:{ by rewrite (connect_no kalloc kfree l_addr A s own f x path Hi Hx Hok) in Ec. }
  apply andb_true_iff in Hok as [[Hfr Hpf]%andb_true_iff _].
  destruct (find_listener_spec _ _ _ _ Hfl) as (i' & l & E0 & Hl & _). cbn in E0. subst i'.
  rewrite (connect_start kalloc kfree l_addr A s own _ _ f path i Hi) in Ec by (done || by rewrite (fat_lookup s f x Hx)).
  destruct (fi_pages _ _ _ _ _ _ _ Hi) as (F & U & HF & _).
  destruct (connect_outcome kalloc kfree l_addr A s own F f i l x Hi HF Hl Hx Hfr) as [(s' & E & _)|[(s' & E & Hs & _)|[(_ & _ & Ht & e & s' & E & Hs)|
    (_ & _ & _ & w & r & s' & E & Hs & _)]]]; [lia|congruence|congruence| |congruence].
  rewrite E in Ec. injection Ec as <-. by exists l, x, e.
Qed.

Lemma new_pipe_ready A s own p ps : at_rest A s own -> ps = pipe_init (pipes s p) -> pipe_ok ps /\ p_lock ps = false /\ contents ps = [].
Proof. intros Hi ->. destruct (fi_plock _ _ _ _ _ _ _ Hi p) as [_ Hl]. split_and!; [by constructor|done|done]. Qed.

(** C38.  Local sockets carry bytes both ways.  After a successful
    [usock_connect] of [f], [usock_accept] on the listening socket [k] with an
    empty queue returns a socket [e], and what [f] writes (up to the capacity
    of a pipe) is what [e] reads, and what [e] writes is what [f] reads. *)
Theorem usock_stream A s own f path k x s1 t killed (bs : list Z) n :
  at_rest A s own -> 1 <= own f -> ftable s !! k = Some x -> f_ref x <> 0 -> f_type x = FD_USOCK -> usock_state x = USOCK_LISTEN -> 0 <= usock_lid x ->
  find_listener (listeners s) path 0 = Some (lid_of x) -> (forall l, listeners s !! lid_of x = Some l -> l_cnt l = 0) ->
  usock_connect kalloc kfree l_addr f path s = Done 0 s1 -> bs <> [] -> Z.of_nat (length bs) <= PIPESIZE -> Z.of_nat (length bs) <= n ->
  exists e s2, usock_accept l_addr t killed k s1 = Done (Return (0, Some e)) s2 /\
    forall from to, (from, to) = (f, e) \/ (from, to) = (e, f) -> forall t1 t2, exists s3 s4,
      filewrite devsw t1 false from bs (Z.of_nat (length bs)) s2 = Done (Return (Z.of_nat (length bs))) s3 /\
      fileread devsw t2 false to n s3 = Done (Return (Z.of_nat (length bs), bs)) s4.
Proof.
  intros Hi Hf Hx Hr Ht Hst Hlid Hfl Hempty Ec Hne Hlen Hn.
  destruct (connect_linked A s own f path _ s1 Hi Hf Hfl Ec) as (l & xf & e & Hl & Htk & Hxf & Hfr & [Hi1 (l' & Hl' & Hq) _ Hends Hoth]).
  assert (l' = l) as -> by congruence. specialize (Hempty l Hl).
  assert (Hkf : k <> f). { intros ->. destruct (fresh_kind xf Hfr) as (_ & _ & Hb). assert (x = xf) as -> by congruence. unfold is_bound in Hb. by rewrite Ht, Hst in Hb. }
  pose proof (Hoth k x Hx Hr Hkf) as Hx1. pose proof (fi_ring _ _ _ _ _ _ _ Hi _ l Hl) as [Rr _ _ _ _].
  assert (Hlt : (lid_of x < length (listeners s))%nat) by (by eapply lookup_lt_Some).
  assert (Hl1 : listeners s1 !! lid_of x = Some (enqueue e l)) by (by rewrite Hq, list_lookup_insert_eq).
  destruct (enqueue_ring e l Rr) as (_ & Hslot & _); [ring_consts; lia|].
  assert (Hhead : pending (enqueue e l) !! Z.to_nat (l_head (enqueue e l)) = Some (Some e)).
  { cbn [pending l_head enqueue]. replace (Z.to_nat (l_head l)) with (Z.to_nat (l_tail l)).
    - rewrite list_lookup_insert_eq; [done|]. by eapply lookup_lt_Some.
    - rewrite (ro_tail l Rr), Hempty, Z.add_0_r, Z.mod_small by apply (ro_head l Rr). done. }
  destruct (usock_accept_spec kalloc kfree l_addr A s1 own t killed k x Hi1 Hx1) as (r & s2 & Ea & Hr2).
  assert (Er : exists e', r = Return (0, Some e') /\ e' = e /\ ftable s2 = ftable s1 /\ pipes s2 = pipes s1).
  { revert Ea. unfold usock_accept, kbind at 1, kget at 1. rewrite (fat_lookup s1 k x Hx1), Ht, Hst, bool_decide_eq_true_2, Z.eqb_refl by done. cbn [negb orb].
    rewrite (proj2 (Z.ltb_ge _ _)) by lia. pose proof (ro_lock _ (fi_ring _ _ _ _ _ _ _ Hi1 _ _ Hl1)) as Hlk.
    rewrite (acquire_listener s1 _ _ Hl1 Hlk). unfold kbind at 1, kget. rewrite (locked_lat s1 _ _ Hl1). cbn [used listening l_cnt set_llock enqueue].
    apply andb_true_iff in Htk as [[-> ->]%andb_true_iff _]. rewrite Hempty. change (0 + 1 =? 0) with false. change (0 + 1 <=? 0) with false. cbn [andb negb orb].
    rewrite (update_unlock s1 _ _ Hl1 Hlk) by done. intros [= <- <-]. exists e. split_and!; [|done..].
    cbn [pending l_head set_llock]. change (<[Z.to_nat (l_tail l):=Some e]> (pending l)) with (pending (enqueue e l)).
    change (l_head l) with (l_head (enqueue e l)). by rewrite nth_lookup, Hhead. }
  destruct Er as (e' & -> & -> & Hft & Hps). exists e, s2. split; [done|].
  destruct Hends as (cr & cw & sr & sw & p & q & Hcf & Hce & Hpq & E1 & E2 & E3 & E4 & P1 & P2).
  destruct (new_pipe_ready A s own p _ Hi P1) as (Pok & Plk & Pc), (new_pipe_ready A s own q _ Hi P2) as (Qok & Qlk & Qc).
  assert (Hc2 : forall j r0 t0, conn_at s1 j r0 t0 -> conn_at s2 j r0 t0) by (unfold conn_at; intros; by rewrite Hft).
  assert (He2 : forall j r0 w0 p0, end_at s1 j r0 w0 p0 -> end_at s2 j r0 w0 p0) by (unfold end_at; intros; by rewrite Hft).
  intros from to [[= -> ->]|[= -> ->]] t1 t2.
  - apply (sock_pass s2 t1 t2 f sr cw e cr sw p); rewrite ?Hps; auto.
  - apply (sock_pass s2 t1 t2 e cr sw f sr cw q); rewrite ?Hps; auto.
Qed.

End stream.

(** ** A concrete file table

    Entry 0 is a socket listening on the path "a", entry 1 a socket that is
    not connected; the other entries and the upper two megabytes of memory are
    free. *)
Module SockWitness.

#[export] Instance no_net : NetOps unit := {
  net_tcp_user_unref _ _ n := n; net_udp_user_unref _ n := n;
  net_tcp_user_read _ _ _ := kret (-1, []); net_tcp_user_write _ _ _ _ := kret (-1);
  net_tcp_user_fdready _ _ _ _ := -1; net_udp_user_fdready _ _ _ := -1; consolecanread _ := 0;
}.
Definition kalloc0 : K kmem Z := kalloc 0x80102800 0x400000.
Definition kfree0 : Z -> K kmem unit := kfree 0x80102800 0x400000.
#[export] Instance pages0 : PageAllocator kmem kalloc0 kfree0.
Proof. unshelve eapply (kmem_page_allocator 0x80102800 0x400000); done. Defined.
Definition addr0 (i : nat) : Z := 0x80105000 + 256 * Z.of_nat i.

Definition path : list Z := [97].
Definition sock (st lid : Z) : file :=
  {| f_type := FD_USOCK; f_ref := 1; f_readable := 1; f_writable := 1; f_pipe := 0; f_ip := None; f_off := 0;
     usock_state := st; usock_lid := lid; usock_rx := None; usock_tx := None; tcp_slot := -1; tcp_listen := 0; udp_slot := -1 |}.
Definition heard : usock_listener := set_listening 1 (bind_listener path null_listener).
(** The machine, with the inodes [i0]. *)
Section any_inodes.
Context {B : Type} (i0 : fs B).
Definition machine_on (k : kmem) : fsys (nat -> proc) kmem B unit :=
  {| ftable_lock := false; ftable := sock USOCK_LISTEN 0 :: sock USOCK_INIT (-1) :: replicate 98 null_file;
     pipes := fun _ => {| p_lock := false; data := replicate 512 0; nread := 0; nwrite := 0; readopen := false; writeopen := false |};
     pool := k; sleepers := fun _ => null_proc; usock_lock := false; listeners := heard :: replicate 31 null_listener;
     inodes := i0; net := tt |}.
Definition holders (k : nat) : Z := if decide (k < 2)%nat then 1 else 0.

Lemma sock_entries k (j : nat) x : ftable (machine_on k) !! j = Some x ->
  (j = 0%nat /\ x = sock USOCK_LISTEN 0) \/ (j = 1%nat /\ x = sock USOCK_INIT (-1)) \/ ((2 <= j)%nat /\ x = null_file).
Proof.
  destruct j as [|[|j]]; cbn -[replicate]; [intros [= <-]; auto|intros [= <-]; auto|]. intros [-> _]%lookup_replicate. right. right. split; [lia|done].
Qed.
Lemma queues k (i : nat) l : listeners (machine_on k) !! i = Some l -> (i = 0%nat /\ l = heard) \/ ((1 <= i)%nat /\ l = null_listener).
Proof. destruct i as [|i]; cbn -[replicate]; [intros [= <-]; auto|]. intros [-> _]%lookup_replicate. right. split; [lia|done]. Qed.

Lemma ring_empty l : pending l = replicate (Z.to_nat USOCK_PENDING_MAX) None -> l_head l = 0 -> l_tail l = 0 -> l_cnt l = 0 -> ring l.
Proof.
  intros E1 E2 E3 E4. constructor; rewrite ?E1, ?E2, ?E3, ?E4; try done. intros j Hj. split.
  - intros [e [? _]%lookup_replicate]. done.
  - intros. exfalso. ring_consts. dlia.
Qed.
Lemma no_refs k j : refs (machine_on k) j = 0.
Proof.
  unfold refs. rewrite !zsum_0; [done| |].
  - intros i l [[_ ->]|[_ ->]]%queues; apply zsum_0; intros n o [-> _]%lookup_replicate; done.
  - intros i x [[_ ->]|[[_ ->]|[_ ->]]]%sock_entries; done.
Qed.
Lemma no_ends k p wr : ends (machine_on k) p wr = 0.
Proof. apply zsum_0. intros i x [[_ ->]|[[_ ->]|[_ ->]]]%sock_entries; done. Qed.
Lemma one_binding k i : bindings (machine_on k) i = if decide (i = 0%nat) then 1 else 0.
Proof.
  unfold bindings. cbn [ftable machine_on zsum foldr]. fold (zsum (nlid i) (replicate 98 null_file)).
  rewrite zsum_0 by (by intros j x [-> _]%lookup_replicate). change (nlid i (sock USOCK_INIT (-1))) with 0.
  unfold nlid. cbn [is_bound sock f_type usock_state usock_lid]. case_decide; [by subst|]. destruct i; done.
Qed.

Lemma booted_on : exists k F, at_rest kalloc0 kfree0 F (machine_on k) holders /\ pa_inv (pool (machine_on k)) F /\ (2 <= size F)%nat.
Proof.
  destruct (kinit1_spec 0x80102800 0x400000 ltac:(done) ltac:(done) 0x80200000 0x80400000) as (k & F & _ & HF & HFo); [done|done|].
  exists k, F. split_and!; [|done|].
  2:{ assert (Hs : {[0x80200000; 0x80201000]} ⊆ F).
      { intros v Hv. apply HFo. rewrite elem_of_union, !elem_of_singleton in Hv. destruct Hv as [-> | ->]; done. }
      pose proof (subseteq_size _ _ Hs) as Hz. rewrite size_union, !size_singleton in Hz by set_solver. lia. }
  constructor; try done.
  - intros j. unfold holders. by case_decide.
  - intros j x Hx. rewrite no_refs. apply sock_entries in Hx as [[-> ->]|[[-> ->]|[Hj ->]]]; [done|done|]. unfold holders. rewrite decide_False by lia. done.
  - intros j Hj. rewrite no_refs. unfold holders. rewrite decide_False; [done|]. unfold NFILE in Hj. lia.
  - intros j x [[_ ->]|[[_ ->]|[_ ->]]]%sock_entries; done.
  - intros j x [[_ ->]|[[_ ->]|[_ ->]]]%sock_entries; done.
  - intros i l j e [[_ ->]|[_ ->]]%queues [? _]%lookup_replicate; done.
  - intros i l [[_ ->]|[_ ->]]%queues; (constructor; [by apply ring_empty|done..]).
  - intros j x [[_ ->]|[[_ ->]|[_ ->]]]%sock_entries; done.
  - intros i l Hl. rewrite one_binding. apply queues in Hl as [[-> ->]|[Hi ->]]; [done|]. by rewrite decide_False by lia.
  - intros j x [[_ ->]|[[_ ->]|[_ ->]]]%sock_entries; done.
  - exists F, ∅. split_and!; [done|set_solver|set_solver|set_solver|set_solver|]. intros p wr _ _. by rewrite no_ends.
Qed.
End any_inodes.
Definition machine (k : kmem) : fsys (nat -> proc) kmem blk unit :=
  machine_on {| ic_lock := false; icache := replicate NINODE null_inode; ic_wakes := [];
    fblk := FsWitness.kernel0 (fun _ => replicate BSIZE 0) |} k.
Lemma sock_booted : exists k F, at_rest kalloc0 kfree0 F (machine k) holders /\ pa_inv (pool (machine k)) F /\ (2 <= size F)%nat.
Proof. apply booted_on. Qed.

Lemma free_entries k : nfree (machine k) = 98.
Proof. reflexivity. Qed.


Lemma usock_connect_outcomes_witness : exists k F e s', at_rest kalloc0 kfree0 F (machine k) holders /\
  usock_connect kalloc0 kfree0 addr0 1 path (machine k) = Done 0 s' /\ linked kalloc0 kfree0 F (machine k) holders 1 0 e s'.
Proof.
  destruct sock_booted as (k & F & Hi & HF & Hz). exists k, F.
  destruct (usock_connect_outcomes kalloc0 kfree0 addr0 F (machine k) holders F 1 (sock USOCK_INIT (-1)) path 0 heard Hi HF) as
    [(s' & _ & Hn)|[(s' & _ & _ & Hn)|[(_ & _ & _ & e & s' & E & Hs)|(_ & _ & [=] & _)]]];
    [done|reflexivity|reflexivity|vm_compute; reflexivity|vm_compute; reflexivity|reflexivity|exfalso..|].
  - rewrite free_entries in Hn. destruct Hn as [Hn|[Hn|[[_ ->]|[_ Hn]]]]; [lia|lia|rewrite size_empty in Hz; lia|lia].
  - rewrite free_entries in Hn. lia.
  - exists e, s'. split; [exact Hi|]. split; [exact E|exact Hs].
Defined.

Lemma usock_stream_witness : exists k s1 e s2 s3 s4, usock_connect kalloc0 kfree0 addr0 1 path (machine k) = Done 0 s1 /\
  usock_accept addr0 7 false 0 s1 = Done (Return (0, Some e)) s2 /\
  filewrite (fun _ => {| d_read := None; d_write := None |}) 8 false 1 [10; 20; 30] 3 s2 = Done (Return 3) s3 /\
  fileread (fun _ => {| d_read := None; d_write := None |}) 9 false e 100 s3 = Done (Return (3, [10; 20; 30])) s4.
Proof.
  destruct sock_booted as (k & F & Hi & HF & Hz).
  assert (Hc : exists s1, usock_connect kalloc0 kfree0 addr0 1 path (machine k) = Done 0 s1).
  { rewrite (connect_start kalloc0 kfree0 addr0 F (machine k) holders _ _ 1 path 0 Hi); [|vm_compute; reflexivity..].
    destruct (connect_outcome kalloc0 kfree0 addr0 F (machine k) holders F 1 0 heard (sock USOCK_INIT (-1)) Hi HF eq_refl eq_refl eq_refl) as
      [(s' & _ & Hn)|[(s' & _ & _ & Hn)|[(_ & _ & _ & e & s' & E & Hs)|(_ & _ & [=] & _)]]]; [done|exfalso..|by exists s'].
    - rewrite free_entries in Hn. destruct Hn as [Hn|[Hn|[[_ ->]|[_ Hn]]]]; [lia|lia|rewrite size_empty in Hz; lia|lia].
    - rewrite free_entries in Hn. lia. }
  destruct Hc as [s1 Ec]. exists k, s1.
  destruct (usock_stream kalloc0 kfree0 (fun _ => {| d_read := None; d_write := None |}) addr0 F (machine k) holders 1 path 0
    (sock USOCK_LISTEN 0) s1 7 false [10; 20; 30] 100 Hi) as (e & s2 & Ea & Hp).
  - reflexivity || done.
  - reflexivity.
  - done.
  - reflexivity.
  - reflexivity.
  - done.
  - vm_compute. reflexivity.
  - intros l [= <-]. reflexivity.
  - exact Ec.
  - done.
  - done.
  - done.
  - destruct (Hp 1%nat e (or_introl eq_refl) 8%nat 9%nat) as (s3 & s4 & E3 & E4).
    exists e, s2, s3, s4. split; [exact Ec|]. split; [exact Ea|]. split; [exact E3|exact E4].
Defined.

End SockWitness.
