(* ===== verification/Syscall.v ===== *)
(** * kernel/syscall.c: arguments and dispatch of system calls

    The process that made the call ([proc]), the memory its page table gives
    the kernel access to, and the fetching of arguments from its stack.  The
    rest of the kernel's state is a parameter [X] here; a handler that goes to
    sleep returns [Wait], with the bytes it has left to write. *)

From Stdlib Require Import ZArith Lia.
From S2P Require Import Prelude KString Spinlock Kalloc Proc Pipe Vm.

Definition SYS_open : Z := 15.
(** [NELEM(syscalls)]: the last entry is [SYS_guimode]. *)
Definition NSYSCALL : Z := 49.

(** What the calls use of [struct proc]; [t_esp] and [t_eax] are registers of
    its trap frame. *)
Record task := {
  t_id : nat; t_killed : bool; t_sz : Z; t_esp : Z; t_eax : Z;
  ofile : list (option nat); t_cwd : nat;
}.
Definition set_ofile (l : list (option nat)) (p : task) : task :=
  {| t_id := t_id p; t_killed := t_killed p; t_sz := t_sz p; t_esp := t_esp p; t_eax := t_eax p; ofile := l; t_cwd := t_cwd p |}.
Definition set_cwd (ip : nat) (p : task) : task :=
  {| t_id := t_id p; t_killed := t_killed p; t_sz := t_sz p; t_esp := t_esp p; t_eax := t_eax p; ofile := ofile p; t_cwd := ip |}.
Definition set_eax (v : Z) (p : task) : task :=
  {| t_id := t_id p; t_killed := t_killed p; t_sz := t_sz p; t_esp := t_esp p; t_eax := v; ofile := ofile p; t_cwd := t_cwd p |}.

Record sys (X : Type) := { kern : X; cur : task; umem : Z -> Z }.
Arguments kern {X}. Arguments cur {X}. Arguments umem {X}.

(** ** Arguments *)

Section args.
Context (p : task) (m : Z -> Z).

Definition fetchint (addr : Z) : option Z :=
  if (t_sz p <=? addr) || (t_sz p <? (addr +u 4)) then None else Some (s32 (ld32 m addr)).

(** The loop of [fetchstr] over the [n] bytes up to [ep]: the offset of the
    first NUL. *)
Fixpoint fetchstr_loop (n : nat) (pp k : Z) : option Z :=
  match n with
  | O => None
  | S n' => if m (pp + k) =? 0 then Some k else fetchstr_loop n' pp (k + 1)
  end.
Definition fetchstr (addr : Z) : option Z :=
  if t_sz p <=? addr then None else fetchstr_loop (Z.to_nat (t_sz p - addr)) addr 0.

Definition argint (n : Z) : option Z := fetchint (u32 (t_esp p + 4 + 4 * n)).
Definition argptr (n size : Z) : option Z :=
  match argint n with
  | None => None
  | Some i => if (t_sz p <=? u32 i) || (t_sz p <? (u32 i +u size)) then None else Some (u32 i)
  end.

(** The [n] bytes at [a]. *)
Definition ubytes (a n : Z) : list Z := (fun k => m (a + k)) <$> seqZ 0 n.
(** The bytes of the string, without its NUL. *)
Definition argstr (n : Z) : option (list Z) :=
  match argint n with
  | None => None
  | Some addr => match fetchstr (u32 addr) with None => None | Some len => Some (ubytes (u32 addr) len) end
  end.
End args.

(** ** Dispatch *)

Section dispatch.
Context {X : Type}.
Definition handler : Type := K (sys X) (segment Z (list Z)).
Context (syscalls : Z -> option handler).

Definition set_kern (x : X) (s : sys X) : sys X := {| kern := x; cur := cur s; umem := umem s |}.
Definition upd_cur (f : task -> task) : K (sys X) unit := kmodify (fun s => {| kern := kern s; cur := f (cur s); umem := umem s |}).
Definition upd_umem (f : (Z -> Z) -> Z -> Z) : K (sys X) unit := kmodify (fun s => {| kern := kern s; cur := cur s; umem := f (umem s) |}).
Definition inkern {A} (k : K X A) : K (sys X) A := zoom kern set_kern k.

Definition syscall : K (sys X) (segment unit (list Z)) :=
  s <- kget ;;
  let num := s32 (t_eax (cur s)) in
  match (if (0 <=? num) && (num <? SYS_open) then syscalls num
         else if (SYS_open <=? num) && (num <? NSYSCALL) then syscalls num
         else None) with
  | Some f =>
      r <- f ;;
      match r with
      | Return z => upd_cur (set_eax (u32 z)) ;; kret (Return tt)
      | Wait bs => kret (Wait bs)
      end
  | None => upd_cur (set_eax (u32 (-1))) ;; kret (Return tt)
  end.
End dispatch.

(** ** Theorems *)

Section checked.
Context (p : task) (m : Z -> Z).
Context (Hsz : 0 <= t_sz p < 2 ^ 31).

Lemma fetchint_spec a : 0 <= a < 2 ^ 32 -> fetchint p m a = if a + 4 <=? t_sz p then Some (s32 (ld32 m a)) else None.
Proof using Hsz.
  intros Ha. unfold fetchint. destruct (Z.leb_spec (t_sz p) a); cbn [orb]; [by destruct (Z.leb_spec (a + 4) (t_sz p)); [lia|]|].
  rewrite u32_small by lia. destruct (Z.ltb_spec (t_sz p) (a + 4)), (Z.leb_spec (a + 4) (t_sz p)); done || lia.
Qed.

Lemma fetchstr_loop_spec n pp : forall k r, fetchstr_loop m n pp k = Some r <->
  k <= r < k + Z.of_nat n /\ m (pp + r) = 0 /\ forall j, k <= j < r -> m (pp + j) <> 0.
Proof using Type.
  clear Hsz. induction n as [|n IH]; intros k r; cbn [fetchstr_loop]; [split; [done|lia]|].
  destruct (Z.eqb_spec (m (pp + k)) 0) as [E|E].
  - split; [intros [= <-]; split_and!; [lia|lia|done|lia]|]. intros (H1 & H2 & H3). destruct (decide (r = k)) as [->|]; [done|].
    destruct (H3 k); [lia|done].
  - rewrite IH. split; intros (H1 & H2 & H3); (split_and!; [..|done|]); try lia.
    + intros j Hj. destruct (decide (j = k)) as [->|]; [done|]. apply H3. lia.
    + destruct (decide (r = k)) as [->|]; [done|lia].
    + intros j Hj. apply H3. lia.
Qed.

Lemma fetchstr_spec a n : 0 <= a -> fetchstr p m a = Some n <->
  0 <= n /\ a + n < t_sz p /\ m (a + n) = 0 /\ forall k, 0 <= k < n -> m (a + k) <> 0.
Proof using Hsz.
  intros Ha. unfold fetchstr. destruct (Z.leb_spec (t_sz p) a); [split; [done|lia]|]. rewrite fetchstr_loop_spec. split.
  - intros (H1 & H2 & H3). split_and!; [lia|lia|done|]. intros k Hk. apply H3. lia.
  - intros (H1 & H2 & H3 & H4). split_and!; [lia|lia|done|done].
Qed.

Lemma argptr_spec n size i : argint p m n = Some i -> - 2 ^ 31 <= size < 2 ^ 31 ->
  argptr p m n size = if (u32 i <? t_sz p) && (0 <=? u32 i + size) && (u32 i + size <=? t_sz p) then Some (u32 i) else None.
Proof using Hsz.
  intros Hi Hs. unfold argptr. rewrite Hi. set (a := u32 i). pose proof (u32_range i). fold a in H.
  destruct (Z.leb_spec (t_sz p) a), (Z.ltb_spec a (t_sz p)); cbn [orb andb]; try lia; [done|].
  destruct (Z.leb_spec 0 (a + size)); cbn [andb].
  - rewrite u32_small by lia. destruct (Z.ltb_spec (t_sz p) (a + size)), (Z.leb_spec (a + size) (t_sz p)); done || lia.
  - replace (u32 (a + size)) with (a + size + 2 ^ 32).
    + destruct (Z.ltb_spec (t_sz p) (a + size + 2 ^ 32)); done || lia.
    + unfold u32. rewrite <- (Z.mod_add _ 1), Z.mod_small by lia. lia.
Qed.

(** The arguments of a system call are inside the process: an integer is
    fetched if and only if its four bytes are, also where the address wraps; a
    string's length is the offset of its first NUL, which is inside; a buffer
    of a size that is not negative ends at most at the end of the process.
    A negative size of which the buffer has as many bytes before it is
    accepted too, and checks nothing after the start of the buffer. *)
Theorem arguments_are_checked n :
  (forall v, argint p m n = Some v <-> let a := u32 (t_esp p + 4 + 4 * n) in a + 4 <= t_sz p /\ v = s32 (ld32 m a)) /\
  (forall bs, argstr p m n = Some bs -> exists v, argint p m n = Some v /\ let len := Z.of_nat (length bs) in
     u32 v + len < t_sz p /\ m (u32 v + len) = 0 /\ bs = ubytes m (u32 v) len /\ Forall (fun c => c <> 0) bs) /\
  (forall size a, 0 <= size < 2 ^ 31 -> argptr p m n size = Some a -> 0 <= a < t_sz p /\ a + size <= t_sz p) /\
  (forall size v, - 2 ^ 31 <= size < 0 -> argint p m n = Some v -> u32 v < t_sz p ->
     (argptr p m n size = Some (u32 v) <-> - u32 v <= size)).
Proof using Hsz.
  split_and!.
  - intros v. unfold argint. rewrite fetchint_spec by apply u32_range. cbn zeta. set (a := u32 _).
    destruct (Z.leb_spec (a + 4) (t_sz p)); split; intros E; [by injection E as <-|by destruct E as [_ ->]|done|lia].
  - intros bs Hb. unfold argstr in Hb. destruct (argint p m n) as [v|] eqn:Hv; [|done]. exists v. split; [done|]. cbn zeta.
    destruct (fetchstr p m (u32 v)) as [len|] eqn:Hl; [|done]. injection Hb as <-.
    apply fetchstr_spec in Hl as (H0 & H1 & H2 & H3); [|apply u32_range]. unfold ubytes. rewrite length_fmap, length_seqZ, Z2Nat.id by lia.
    split_and!; [done..|]. apply Forall_fmap, Forall_forall. intros k Hk%elem_of_seqZ. apply H3. lia.
  - intros size a Hs Ha. unfold argptr in Ha. destruct (argint p m n) as [i|] eqn:Hi; [|done].
    pose proof (argptr_spec n size i Hi ltac:(lia)) as Hp. unfold argptr in Hp. rewrite Hi, Ha in Hp. pose proof (u32_range i).
    destruct ((u32 i <? t_sz p) && (0 <=? u32 i + size) && (u32 i + size <=? t_sz p)) eqn:Hc; [|done].
    injection Hp as ->. rewrite !andb_true_iff, Z.ltb_lt, !Z.leb_le in Hc. lia.
  - intros size v Hs Hv Hlt. rewrite (argptr_spec n size v Hv) by lia. rewrite (proj2 (Z.ltb_lt _ _) Hlt). cbn [andb].
    destruct (Z.leb_spec 0 (u32 v + size)), (Z.leb_spec (u32 v + size) (t_sz p)); cbn [andb]; split; done || lia.
Qed.
End checked.

(** ** Witness *)

Module ArgWitness.
(** A process of two pages whose stack pointer is 4096; its first argument is
    the address 5000 of the string "ab". *)
Definition p : task := {| t_id := 0; t_killed := false; t_sz := 8192; t_esp := 4096; t_eax := 5; ofile := replicate 16 None; t_cwd := 0 |}.
Definition m : Z -> Z := store (st32 (fun _ => 0) 4100 5000) 5000 2 (fun k => 97 + k).
End ArgWitness.

Lemma arguments_are_checked_witness :
  argint ArgWitness.p ArgWitness.m 0 = Some 5000 /\ argstr ArgWitness.p ArgWitness.m 0 = Some [97; 98] /\
  ArgWitness.m 5002 = 0 /\ 5000 + 3192 <= t_sz ArgWitness.p /\ argptr ArgWitness.p ArgWitness.m 0 (-1) = Some 5000.
Proof.
  destruct (arguments_are_checked ArgWitness.p ArgWitness.m ltac:(cbn; lia) 0) as (H1 & H2 & H3 & H4).
  assert (E1 : argint ArgWitness.p ArgWitness.m 0 = Some 5000); [apply H1; vm_compute; split; [discriminate|reflexivity]|].
  assert (E2 : argstr ArgWitness.p ArgWitness.m 0 = Some [97; 98]) by (vm_compute; reflexivity).
  split; [exact E1|]. split; [exact E2|]. split; [|split].
  - destruct (H2 _ E2) as (v & Hv & _ & Hz & _). rewrite E1 in Hv. injection Hv as <-. exact Hz.
  - apply (H3 3192 5000); [lia|vm_compute; reflexivity].
  - apply (H4 (-1) 5000); [lia|exact E1|vm_compute; reflexivity|vm_compute; discriminate].
Defined.
