(* ===== verification/Sysfile.v ===== *)
(** * kernel/sysfile.c: the system calls on files, directories and sockets

    Each handler fetches its arguments from the user's stack (Syscall) and
    calls file.c, unixsock.c and fs.c (File, Fs).  The IPv4 sockets of
    sirpair_sock_user.c are an interface, [exec] of exec.c and the handlers of
    sysproc.c are parameters. *)

From Stdlib Require Import ZArith Lia.
From S2P Require Import Prelude KString Spinlock Kalloc Proc Pipe Bytes Bio BlockLayer Log Fs Vm File Syscall.

Definition NOFILE : nat := 16.
Definition MAXARG : nat := 32.
Definition O_RDONLY : Z := 0.
Definition O_WRONLY : Z := 1.
Definition O_RDWR : Z := 2.
Definition O_CREATE : Z := 512.
Definition O_APPEND : Z := 1024.
Definition O_TRUNC : Z := 2048.
Definition AF_UNIX : Z := 1.
Definition AF_INET : Z := 2.
Definition SOCK_STREAM : Z := 1.
Definition SOCK_DGRAM : Z := 2.

(** What sysfile.c and [net_tcp_user_accept] call of the network. *)
Class SockOps (N : Type) := {
  net_is_available : N -> bool;
  net_tcp_user_alloc : K N Z;
  net_tcp_user_close : Z -> K N unit;
  net_tcp_user_bind : Z -> list Z -> K N Z;
  net_tcp_user_listen : Z -> K N Z;
  net_tcp_user_connect : Z -> list Z -> Z -> K N Z;
  net_udp_user_alloc : K N Z;
  net_udp_user_close : Z -> K N unit;
  net_udp_user_bind : Z -> list Z -> K N Z;
  (* slot, buf, n, src_ip, src_port: the result, the bytes received, and the sender's address and port if stored *)
  net_udp_user_recvfrom : Z -> Z -> Z -> Z -> Z -> K N (Z * list Z * option (list Z * Z));
  (* slot, buf and its bytes, n, dst_ip and its bytes, dst_port *)
  net_udp_user_sendto : Z -> Z -> list Z -> Z -> Z -> list Z -> Z -> K N Z;
  tcp_accept : Z -> K N Z;
  tcp_close : Z -> K N unit;
}.

(** [if(... < 0) return -1;] on an argument. *)
Notation "'need' x := o 'in' k" := (match o with Some x => k | None => kret (-1) end)
  (at level 200, x name, right associativity) : kmonad_scope.

(** ** parse_ipv4_port *)

Definition is_digit (c : Z) : bool := (48 <=? c) && (c <=? 57).
(** The loop over digits: the value, the number of digits and the rest, or
    nothing when the value exceeds [max]. *)
Fixpoint digits (max : Z) (s : list Z) (v ndig : Z) : option (Z * Z * list Z) :=
  match s with
  | c :: r =>
      if is_digit c then
        let v := v * 10 + (c - 48) in
        if max <? v then None else digits max r v (ndig + 1)
      else Some (v, ndig, s)
  | [] => Some (v, ndig, [])
  end.
(** The loop over the four numbers of an address, from [i] on. *)
Fixpoint octets (n : nat) (s : list Z) : option (list Z * list Z) :=
  match n with
  | O => Some ([], s)
  | S n' =>
      match digits 255 s 0 0 with
      | None => None
      | Some (v, ndig, s) =>
          if ndig =? 0 then None
          else match n' with
          | O => Some ([u8 v], s)
          | S _ =>
              if negb (deref s =? 46) then None
              else match octets n' (drop 1 s) with
                | None => None
                | Some (ip, s) => Some (u8 v :: ip, s)
                end
          end
      end
  end.
(** [s] is the string without its NUL. *)
Definition parse_ipv4_port (s : list Z) : option (list Z * Z) :=
  match octets 4 s with
  | None => None
  | Some (ip, p) =>
      if deref p =? 58 then
        match digits 65535 (drop 1 p) 0 0 with
        | None => None
        | Some (v, ndig, _) => if ndig =? 0 then None else Some (ip, v)
        end
      else if negb (deref p =? 0) then None
      else Some (ip, 23)
  end.

(** ** Directories *)

Definition set_nlink (n : Z) (i : inode) : inode :=
  {| i_dev := i_dev i; inum := inum i; ref := ref i; i_busy := i_busy i; i_valid := i_valid i; itype := itype i;
     major := major i; minor := minor i; nlink := n; isize := isize i; addrs := addrs i |}.
(** A new inode. *)
Definition set_node (ma mi : Z) (i : inode) : inode :=
  {| i_dev := i_dev i; inum := inum i; ref := ref i; i_busy := i_busy i; i_valid := i_valid i; itype := itype i;
     major := ma; minor := mi; nlink := 1; isize := isize i; addrs := addrs i |}.

Section dirs.
Context {B : Type} `{BlockOps B} (devsw : Z -> devops B).
Context (name0 : list Z). (* [char name[DIRSIZ]] on the stack, not initialised *)

Abbreviation fs := (fs B).

Definition add_nlink (ip : nat) (d : Z) : K fs unit := kmodify (upd_inode ip (fun i => set_nlink (s16 (nlink i + d)) i)).

Fixpoint isdirempty_loop (fuel dp : nat) (off : Z) : K fs bool :=
  match fuel with
  | O => ub "isdirempty: out of fuel"
  | S f =>
      s <- kget ;;
      if off <? isize (iat s dp) then
        r <- readi devsw dp off 16 ;;
        if negb (fst r =? 16) then panic "isdirempty: readi"
        else if negb (de_inum (snd r) =? 0) then kret false
        else isdirempty_loop f dp (off + 16)
      else kret true
  end.
Definition isdirempty (dp : nat) : K fs bool :=
  s <- kget ;;
  isdirempty_loop (dir_fuel (isize (iat s dp))) dp 32.

Definition DOT : list Z := [46].
Definition DOTDOT : list Z := [46; 46].

Definition create (cwd : nat) (path : list Z) (type ma mi : Z) : K fs (option nat) :=
  d <- nameiparent devsw cwd path name0 ;;
  match d with
  | (None, _) => kret None
  | (Some dp, name) =>
      ilock dp ;;
      r <- dirlookup devsw dp name ;;
      match r with
      | Some (ip, _) =>
          iunlockput dp ;;
          ilock ip ;;
          s <- kget ;;
          if (type =? T_FILE) && (itype (iat s ip) =? T_FILE) then kret (Some ip)
          else iunlockput ip ;; kret None
      | None =>
          s <- kget ;;
          ip <- ialloc (i_dev (iat s dp)) type ;;
          ilock ip ;;
          kmodify (upd_inode ip (set_node ma mi)) ;;
          iupdate ip ;;
          s <- kget ;;
          (if type =? T_DIR then
             add_nlink dp 1 ;;
             iupdate dp ;;
             a <- dirlink devsw ip DOT (inum (iat s ip)) ;;
             if a <? 0 then panic "create dots"
             else
               b <- dirlink devsw ip DOTDOT (inum (iat s dp)) ;;
               if b <? 0 then panic "create dots" else kret tt
           else kret tt) ;;
          w <- dirlink devsw dp name (inum (iat s ip)) ;;
          if w <? 0 then panic "create: dirlink"
          else iunlockput dp ;; kret (Some ip)
      end
  end.

(** [bad:] of [sys_link]. *)
Definition link_bad (ip : nat) : K fs Z :=
  ilock ip ;;
  add_nlink ip (-1) ;;
  iupdate ip ;;
  iunlockput ip ;;
  kret (-1).
(** [sys_link] from [begin_trans] to [commit_trans]. *)
Definition link (cwd ip : nat) (new : list Z) : K fs Z :=
  ilock ip ;;
  s <- kget ;;
  if itype (iat s ip) =? T_DIR then iunlockput ip ;; kret (-1)
  else
    add_nlink ip 1 ;;
    iupdate ip ;;
    iunlock ip ;;
    d <- nameiparent devsw cwd new name0 ;;
    match d with
    | (None, _) => link_bad ip
    | (Some dp, name) =>
        ilock dp ;;
        s <- kget ;;
        if negb (i_dev (iat s dp) =? i_dev (iat s ip)) then iunlockput dp ;; link_bad ip
        else
          w <- dirlink devsw dp name (inum (iat s ip)) ;;
          if w <? 0 then iunlockput dp ;; link_bad ip
          else iunlockput dp ;; iput ip ;; kret 0
    end.

(** [sys_unlink] from [begin_trans] to [commit_trans]. *)
Definition unlink (dp : nat) (name : list Z) : K fs Z :=
  ilock dp ;;
  if (namecmp name DOT =? 0) || (namecmp name DOTDOT =? 0) then iunlockput dp ;; kret (-1)
  else
    r <- dirlookup devsw dp name ;;
    match r with
    | None => iunlockput dp ;; kret (-1)
    | Some (ip, off) =>
        ilock ip ;;
        s <- kget ;;
        if nlink (iat s ip) <? 1 then panic "unlink: nlink < 1"
        else
          e <- (if itype (iat s ip) =? T_DIR then isdirempty ip else kret true) ;;
          if negb e then iunlockput ip ;; iunlockput dp ;; kret (-1)
          else
            w <- writei devsw dp (replicate 16 0) off 16 ;;
            if negb (w =? 16) then panic "unlink: writei"
            else
              s <- kget ;;
              (if itype (iat s ip) =? T_DIR then add_nlink dp (-1) ;; iupdate dp else kret tt) ;;
              iunlockput dp ;;
              add_nlink ip (-1) ;;
              iupdate ip ;;
              iunlockput ip ;;
              kret 0
    end.
End dirs.

(** ** getcwd *)

(** [char comps[64][DIRSIZ + 1]] and [char kbuf[512]]. *)
Definition NCOMPS : nat := 64.
Definition KBUF : nat := 512.

Section getcwd.
Context {B : Type} `{BlockOps B} (devsw : Z -> devops B).

Abbreviation fs := (fs B).

(** The scan of the parent for the entry of inode [n]: [name[0]] is 0 when
    there is none. *)
Fixpoint getcwd_name (fuel dp : nat) (n off : Z) : K fs (list Z) :=
  match fuel with
  | O => ub "getcwd: out of fuel"
  | S f =>
      s <- kget ;;
      if off <? isize (iat s dp) then
        r <- readi devsw dp off 16 ;;
        if negb (fst r =? 16) then panic "getcwd read"
        else if de_inum (snd r) =? n then kret (de_name (snd r) ++ [0])
        else getcwd_name f dp n (off +u 16)
      else kret [0]
  end.

(** The walk to the root: the components from the working directory up, or
    nothing on failure. *)
Fixpoint getcwd_walk (fuel : nat) (ip : nat) (comps : list (list Z)) : K fs (option (list (list Z))) :=
  match fuel with
  | O => ub "getcwd: out of fuel"
  | S f =>
      ilock ip ;;
      s <- kget ;;
      let n := inum (iat s ip) in
      if n =? ROOTINO then iunlock ip ;; iput ip ;; kret (Some comps)
      else
        r <- dirlookup devsw ip DOTDOT ;;
        match r with
        | None => iunlockput ip ;; kret None
        | Some (dp, _) =>
            ilock dp ;;
            s <- kget ;;
            name <- getcwd_name (dir_fuel (isize (iat s dp))) dp n 0 ;;
            iunlock dp ;;
            iunlockput ip ;;
            if deref name =? 0 then iput dp ;; kret None
            else if (NCOMPS <=? length comps)%nat then iput dp ;; kret None
            else getcwd_walk f dp (comps ++ [safestrcpy_bytes (of_bytes name) (S DIRSIZ)])
        end
  end.
End getcwd.

(** [kbuf[pos++] = c], unless there is no room for the NUL after it. *)
Definition put_char (kbuf : list Z) (c : Z) : option (list Z) :=
  if (KBUF - 1 <=? length kbuf)%nat then None else Some (kbuf ++ [c]).
(** The loop over the [n] first characters of a component, up to its NUL. *)
Fixpoint put_comp (n : nat) (kbuf c : list Z) : option (list Z) :=
  match n with
  | O => Some kbuf
  | S n' =>
      if deref c =? 0 then Some kbuf
      else match put_char kbuf (deref c) with None => None | Some kbuf => put_comp n' kbuf (drop 1 c) end
  end.
(** The loop over the components from the root down. *)
Fixpoint put_comps (kbuf : list Z) (cs : list (list Z)) : option (list Z) :=
  match cs with
  | [] => Some kbuf
  | c :: r =>
      match put_char kbuf SLASH with
      | None => None
      | Some kbuf => match put_comp DIRSIZ kbuf c with None => None | Some kbuf => put_comps kbuf r end
      end
  end.
(** What is copied to a user buffer of [size] bytes. *)
Definition cwd_string (comps : list (list Z)) (size : Z) : option (list Z) :=
  if (length comps =? 0)%nat then if size <? 2 then None else Some [SLASH; 0]
  else match put_comps [] (rev comps) with
  | None => None
  | Some kbuf => if size <? Z.of_nat (length kbuf) + 1 then None else Some (kbuf ++ [0])
  end.

(** [argv] of [exec]: the loop of [sys_exec] from [argv[i]] on. *)
Fixpoint fetch_argv (n : nat) (p : task) (m : Z -> Z) (uargv i : Z) : option (list (list Z)) :=
  match n with
  | O => None
  | S n' =>
      match fetchint p m (u32 (uargv + 4 * i)) with
      | None => None
      | Some uarg =>
          if uarg =? 0 then Some []
          else match fetchstr p m (u32 uarg) with
          | None => None
          | Some len =>
              match fetch_argv n' p m uargv (i + 1) with
              | None => None
              | Some argv => Some (ubytes m (u32 uarg) len :: argv)
              end
          end
      end
  end.

(** ** Handlers *)

Section handlers.
Context {Q P B N : Type} `{SleepQueue Q} `{BlockOps B} `{TransOps B} `{NetOps N} `{SockOps N}.
Context (kalloc : K P Z) (kfree : Z -> K P unit).
Context (devsw : Z -> devops B).
Context (l_addr : nat -> Z) (name0 : list Z).

Abbreviation fsys := (fsys Q P B N).
Abbreviation sys := (sys fsys).
Abbreviation handler := (handler (X := fsys)).
Abbreviation close := (fileclose kfree l_addr).

Context (exec : list Z -> list (list Z) -> K sys Z). (* exec.c *)
Context (sysproc : Z -> handler). (* the handlers of sysproc.c *)

(** A handler that does not go to sleep at this level. *)
Definition plain (m : K sys Z) : handler := r <- m ;; kret (Return r).
Definition infs' {A} (m : K (fs B) A) : K sys A := inkern (infs m).
Definition begin_trans' : K sys unit := inkern begin_trans.
Definition commit_trans' : K sys unit := inkern commit_trans.

(** The descriptor and the file. *)
Definition argfd (s : sys) (n : Z) : option (nat * nat) :=
  match argint (cur s) (umem s) n with
  | None => None
  | Some fd =>
      if (fd <? 0) || (Z.of_nat NOFILE <=? fd) then None
      else match ofile (cur s) !! Z.to_nat fd with Some (Some f) => Some (Z.to_nat fd, f) | _ => None end
  end.

(** The first descriptor that is not in use. *)
Fixpoint find_fd (l : list (option nat)) (i : nat) : option nat :=
  match l with
  | [] => None
  | None :: _ => Some i
  | Some _ :: r => find_fd r (S i)
  end.
Definition set_fd (fd : nat) (f : option nat) : K sys unit := upd_cur (fun p => set_ofile (<[fd := f]> (ofile p)) p).
Definition fdalloc (f : nat) : K sys (option nat) :=
  s <- kget ;;
  match find_fd (ofile (cur s)) 0 with
  | Some fd => set_fd fd (Some f) ;; kret (Some fd)
  | None => kret None
  end.

Definition sys_dup : K sys Z :=
  s <- kget ;;
  need x := argfd s 0 in
  fd <- fdalloc (snd x) ;;
  need fd := fd in
  inkern (filedup (snd x)) ;;
  kret (Z.of_nat fd).

(** The common part of [sys_read] and [sys_recv]: [fileread] stores at [p]. *)
Definition read_into (f : nat) (p n : Z) : handler :=
  s <- kget ;;
  r <- inkern (fileread devsw (t_id (cur s)) (t_killed (cur s)) f n) ;;
  match r with
  | Return (z, bs) => upd_umem (fun m => store m p (Z.of_nat (length bs)) (fun k => nth (Z.to_nat k) bs 0)) ;; kret (Return z)
  | Wait _ => kret (Wait [])
  end.
Definition write_from (f : nat) (p n : Z) : handler :=
  s <- kget ;;
  inkern (filewrite devsw (t_id (cur s)) (t_killed (cur s)) f (ubytes (umem s) p n) n).
(** [argfd(0, 0, &f) < 0 || argint(2, &n) < 0 || argptr(1, &p, n) < 0]. *)
Definition arg_buffer (s : sys) : option (nat * Z * Z) :=
  match argfd s 0, argint (cur s) (umem s) 2 with
  | Some (_, f), Some n => match argptr (cur s) (umem s) 1 n with Some p => Some (f, p, n) | None => None end
  | _, _ => None
  end.
Definition sys_read : handler :=
  s <- kget ;;
  match arg_buffer s with Some (f, p, n) => read_into f p n | None => kret (Return (-1)) end.
Definition sys_write : handler :=
  s <- kget ;;
  match arg_buffer s with Some (f, p, n) => write_from f p n | None => kret (Return (-1)) end.
Definition sys_recv : handler :=
  s <- kget ;;
  match arg_buffer s with Some (f, p, n) => read_into f p n | None => kret (Return (-1)) end.
Definition sys_send : handler :=
  s <- kget ;;
  match arg_buffer s with Some (f, p, n) => write_from f p n | None => kret (Return (-1)) end.

Definition sys_close : K sys Z :=
  s <- kget ;;
  need x := argfd s 0 in
  set_fd (fst x) None ;;
  inkern (close (snd x)) ;;
  kret 0.

(** [*(short* )a = v]. *)
Definition st16 (m : Z -> Z) (a v : Z) : Z -> Z := fun x =>
  if (a <=? x) && (x <? a + 2) then u8 (Z.shiftr v (8 * (x - a))) else m x.
Definition put_stat (a : Z) (st : stat) (m : Z -> Z) : Z -> Z :=
  st32 (st16 (st32 (st32 (st16 m a (st_type st)) (a + 4) (st_dev st)) (a + 8) (st_ino st)) (a + 12) (st_nlink st)) (a + 16) (st_size st).
Definition sys_fstat : K sys Z :=
  s <- kget ;;
  need x := argfd s 0 in
  need a := argptr (cur s) (umem s) 1 20 in
  st <- inkern (filestat (snd x)) ;;
  match st with
  | Some st => upd_umem (put_stat a st) ;; kret 0
  | None => kret (-1)
  end.

Definition sys_lseek : K sys Z :=
  s <- kget ;;
  need x := argfd s 0 in
  need off := argint (cur s) (umem s) 1 in
  need whence := argint (cur s) (umem s) 2 in
  inkern (fileseek (snd x) off whence).

Definition sys_link : K sys Z :=
  s <- kget ;;
  need old := argstr (cur s) (umem s) 0 in
  need new := argstr (cur s) (umem s) 1 in
  r <- infs' (namei devsw (t_cwd (cur s)) old) ;;
  need ip := r in
  begin_trans' ;;
  z <- infs' (link devsw name0 (t_cwd (cur s)) ip new) ;;
  commit_trans' ;;
  kret z.

Definition sys_unlink : K sys Z :=
  s <- kget ;;
  need path := argstr (cur s) (umem s) 0 in
  d <- infs' (nameiparent devsw (t_cwd (cur s)) path name0) ;;
  need dp := fst d in
  begin_trans' ;;
  z <- infs' (unlink devsw dp (snd d)) ;;
  commit_trans' ;;
  kret z.

(** [ip], locked, for [sys_open], and whether a transaction is open. *)
Definition open_inode (cwd : nat) (path : list Z) (omode : Z) : K sys (option (nat * bool)) :=
  if negb (Z.land omode O_CREATE =? 0) then
    begin_trans' ;;
    ip <- infs' (create devsw name0 cwd path T_FILE 0 0) ;;
    commit_trans' ;;
    kret (match ip with Some ip => Some (ip, false) | None => None end)
  else
    let trunc := negb (Z.land omode O_TRUNC =? 0) in
    kwhen trunc begin_trans' ;;
    r <- infs' (namei devsw cwd path) ;;
    match r with
    | None => kwhen trunc commit_trans' ;; kret None
    | Some ip =>
        infs' (ilock ip) ;;
        s <- kget ;;
        if (itype (iat (inodes (kern s)) ip) =? T_DIR) && negb (omode =? O_RDONLY) then
          infs' (iunlockput ip) ;;
          kwhen trunc commit_trans' ;;
          kret None
        else
          kwhen (trunc && (itype (iat (inodes (kern s)) ip) =? T_FILE)) (infs' (itrunc ip ;; iupdate ip)) ;;
          kret (Some (ip, trunc))
    end.
Definition open_file (ip : nat) (omode size : Z) (f : file) : file :=
  {| f_type := FD_INODE; f_ref := f_ref f; f_readable := cbool (Z.land omode O_WRONLY =? 0);
     f_writable := cbool (negb (Z.land omode O_WRONLY =? 0) || negb (Z.land omode O_RDWR =? 0)); f_pipe := f_pipe f;
     f_ip := Some ip; f_off := if negb (Z.land omode O_APPEND =? 0) then size else 0;
     usock_state := usock_state f; usock_lid := usock_lid f; usock_rx := usock_rx f;
     usock_tx := usock_tx f; tcp_slot := tcp_slot f; tcp_listen := tcp_listen f; udp_slot := udp_slot f |}.
(** [sys_open] once the inode is there and locked. *)
Definition open_fd (ip : nat) (trunc : bool) (omode : Z) : K sys Z :=
  f <- inkern filealloc ;;
  match f with
  | None => infs' (iunlockput ip) ;; kwhen trunc commit_trans' ;; kret (-1)
  | Some f =>
      fd <- fdalloc f ;;
      match fd with
      | None =>
          inkern (close f) ;;
          infs' (iunlockput ip) ;;
          kwhen trunc commit_trans' ;;
          kret (-1)
      | Some fd =>
          infs' (iunlock ip) ;;
          kwhen trunc commit_trans' ;;
          s <- kget ;;
          inkern (upd_file f (open_file ip omode (isize (iat (inodes (kern s)) ip)))) ;;
          kret (Z.of_nat fd)
      end
  end.
Definition sys_open : K sys Z :=
  s <- kget ;;
  need path := argstr (cur s) (umem s) 0 in
  need omode := argint (cur s) (umem s) 1 in
  r <- open_inode (t_cwd (cur s)) path omode ;;
  need x := r in
  open_fd (fst x) (snd x) omode.

(** [sys_mkdir] and [sys_mknod] after [create]. *)
Definition made (ip : option nat) : K sys Z :=
  match ip with
  | None => commit_trans' ;; kret (-1)
  | Some ip => infs' (iunlockput ip) ;; commit_trans' ;; kret 0
  end.
Definition sys_mkdir : K sys Z :=
  begin_trans' ;;
  s <- kget ;;
  ip <- match argstr (cur s) (umem s) 0 with
        | Some path => infs' (create devsw name0 (t_cwd (cur s)) path T_DIR 0 0)
        | None => kret None
        end ;;
  made ip.
Definition sys_mknod : K sys Z :=
  begin_trans' ;;
  s <- kget ;;
  ip <- match argstr (cur s) (umem s) 0, argint (cur s) (umem s) 1, argint (cur s) (umem s) 2 with
        | Some path, Some ma, Some mi => infs' (create devsw name0 (t_cwd (cur s)) path T_DEV (s16 ma) (s16 mi))
        | _, _, _ => kret None
        end ;;
  made ip.

(** [sys_chdir] up to [out:]. *)
Definition chdir : K sys Z :=
  s <- kget ;;
  need path := argstr (cur s) (umem s) 0 in
  r <- infs' (namei devsw (t_cwd (cur s)) path) ;;
  need ip := r in
  infs' (ilock ip) ;;
  s <- kget ;;
  if negb (itype (iat (inodes (kern s)) ip) =? T_DIR) then infs' (iunlockput ip) ;; kret (-1)
  else
    infs' (iunlock ip) ;;
    infs' (iput (t_cwd (cur s))) ;;
    upd_cur (set_cwd ip) ;;
    kret 0.
Definition sys_chdir : K sys Z :=
  begin_trans' ;;
  ret <- chdir ;;
  commit_trans' ;;
  kret ret.

(** [sys_getcwd] up to [out:]. *)
Definition getcwd : K sys Z :=
  s <- kget ;;
  need size := argint (cur s) (umem s) 1 in
  if size <=? 0 then kret (-1)
  else
    need ubuf := argptr (cur s) (umem s) 0 size in
    ip <- infs' (idup (t_cwd (cur s))) ;;
    cs <- infs' (getcwd_walk devsw (S NCOMPS) ip []) ;;
    need cs := cs in
    need bs := cwd_string cs size in
    upd_umem (fun m => store m ubuf (Z.of_nat (length bs)) (fun k => nth (Z.to_nat k) bs 0)) ;;
    kret 0.
Definition sys_getcwd : K sys Z :=
  begin_trans' ;;
  ret <- getcwd ;;
  commit_trans' ;;
  kret ret.

(** *** Sockets *)

Definition innet' {A} (m : K N A) : K sys A := inkern (innet m).
Definition tcp_file (slot : Z) (f : file) : file :=
  {| f_type := FD_TCPSOCK; f_ref := f_ref f; f_readable := 1; f_writable := 1; f_pipe := f_pipe f;
     f_ip := f_ip f; f_off := f_off f; usock_state := usock_state f; usock_lid := usock_lid f; usock_rx := usock_rx f;
     usock_tx := usock_tx f; tcp_slot := slot; tcp_listen := 0; udp_slot := udp_slot f |}.
Definition udp_file (slot : Z) (f : file) : file :=
  {| f_type := FD_UDPSOCK; f_ref := f_ref f; f_readable := 1; f_writable := 1; f_pipe := f_pipe f;
     f_ip := f_ip f; f_off := f_off f; usock_state := usock_state f; usock_lid := usock_lid f; usock_rx := usock_rx f;
     usock_tx := usock_tx f; tcp_slot := tcp_slot f; tcp_listen := tcp_listen f; udp_slot := slot |}.
Definition set_tcp_listen (l : Z) (f : file) : file :=
  {| f_type := f_type f; f_ref := f_ref f; f_readable := f_readable f; f_writable := f_writable f; f_pipe := f_pipe f;
     f_ip := f_ip f; f_off := f_off f; usock_state := usock_state f; usock_lid := usock_lid f; usock_rx := usock_rx f;
     usock_tx := usock_tx f; tcp_slot := tcp_slot f; tcp_listen := l; udp_slot := udp_slot f |}.

(** The part the three kinds of sockets share: a new file with a descriptor,
    made a socket by [mk]; [undo] gives the slot back. *)
Definition socket_file (mk : nat -> K fsys unit) (undo : K sys unit) : K sys Z :=
  f <- inkern filealloc ;;
  match f with
  | None => undo ;; kret (-1)
  | Some f =>
      fd <- fdalloc f ;;
      match fd with
      | None => inkern (close f) ;; undo ;; kret (-1)
      | Some fd => inkern (mk f) ;; kret (Z.of_nat fd)
      end
  end.
Definition sys_socket : K sys Z :=
  s <- kget ;;
  need domain := argint (cur s) (umem s) 0 in
  need type := argint (cur s) (umem s) 1 in
  need protocol := argint (cur s) (umem s) 2 in
  if negb (protocol =? 0) then kret (-1)
  else if domain =? AF_INET then
    if negb (net_is_available (net (kern s))) then kret (-1)
    else if type =? SOCK_STREAM then
      slot <- innet' net_tcp_user_alloc ;;
      if slot <? 0 then kret (-1)
      else socket_file (fun f => upd_file f (tcp_file slot)) (innet' (net_tcp_user_close slot))
    else if type =? SOCK_DGRAM then
      slot <- innet' net_udp_user_alloc ;;
      if slot <? 0 then kret (-1)
      else socket_file (fun f => upd_file f (udp_file slot)) (innet' (net_udp_user_close slot))
    else kret (-1)
  else if negb (domain =? AF_UNIX) then kret (-1)
  else if negb (type =? SOCK_STREAM) then kret (-1)
  else socket_file make_usock (kret tt).

Definition sys_bind : K sys Z :=
  s <- kget ;;
  need x := argfd s 0 in
  need path := argstr (cur s) (umem s) 1 in
  let f := fat (kern s) (snd x) in
  match f_type f with
  | FD_TCPSOCK => innet' (net_tcp_user_bind (tcp_slot f) path)
  | FD_UDPSOCK => innet' (net_udp_user_bind (udp_slot f) path)
  | _ => inkern (usock_bind (snd x) path)
  end.

Definition sys_listen : K sys Z :=
  s <- kget ;;
  need x := argfd s 0 in
  need backlog := argint (cur s) (umem s) 1 in
  let f := fat (kern s) (snd x) in
  match f_type f with
  | FD_TCPSOCK =>
      r <- innet' (net_tcp_user_listen (tcp_slot f)) ;;
      (if r =? 0 then inkern (upd_file (snd x) (set_tcp_listen 1)) else kret tt) ;;
      kret r
  | _ => inkern (usock_listen l_addr (snd x) backlog)
  end.

Definition sys_connect : K sys Z :=
  s <- kget ;;
  need x := argfd s 0 in
  need path := argstr (cur s) (umem s) 1 in
  let f := fat (kern s) (snd x) in
  match f_type f with
  | FD_TCPSOCK =>
      need y := parse_ipv4_port path in
      innet' (net_tcp_user_connect (tcp_slot f) (fst y) (u16 (snd y)))
  | _ => inkern (usock_connect kalloc kfree l_addr (snd x) path)
  end.

(** Of sirpair_sock_user.c: the new file, if any. *)
Definition net_tcp_user_accept (lf : nat) : K fsys (option nat) :=
  s <- kget ;;
  let l := fat s lf in
  if negb (bool_decide (f_type l = FD_TCPSOCK)) then kret None
  else if (tcp_slot l <? 0) || (tcp_listen l =? 0) then kret None
  else
    newsid <- innet (tcp_accept (tcp_slot l)) ;;
    if newsid <? 0 then kret None
    else
      nf <- filealloc ;;
      match nf with
      | None => innet (tcp_close newsid) ;; kret None
      | Some nf => upd_file nf (tcp_file newsid) ;; kret (Some nf)
      end.
(** A descriptor for an accepted connection. *)
Definition accepted (nf : nat) : K sys Z :=
  fd <- fdalloc nf ;;
  match fd with
  | None => inkern (close nf) ;; kret (-1)
  | Some fd => kret (Z.of_nat fd)
  end.
Definition sys_accept : handler :=
  s <- kget ;;
  match argfd s 0 with
  | None => kret (Return (-1))
  | Some (_, lf) =>
      match f_type (fat (kern s) lf) with
      | FD_TCPSOCK =>
          nf <- inkern (net_tcp_user_accept lf) ;;
          plain (need nf := nf in accepted nf)
      | _ =>
          r <- inkern (usock_accept l_addr (t_id (cur s)) (t_killed (cur s)) lf) ;;
          match r with
          | Return (z, Some nf) => plain (if z <? 0 then kret (-1) else accepted nf)
          | Return (z, None) => plain (if z <? 0 then kret (-1) else ub "sys_accept: null file")
          | Wait _ => kret (Wait [])
          end
      end
  end.

Definition sys_recvfrom : K sys Z :=
  s <- kget ;;
  need x := arg_buffer s in
  let '(f, buf, n) := x in
  need src_ip := argptr (cur s) (umem s) 3 4 in
  need src_port := argptr (cur s) (umem s) 4 4 in
  let ff := fat (kern s) f in
  if negb (bool_decide (f_type ff = FD_UDPSOCK)) then kret (-1)
  else
    r <- innet' (net_udp_user_recvfrom (udp_slot ff) buf n src_ip src_port) ;;
    let '(z, bs, from) := r in
    upd_umem (fun m => store m buf (Z.of_nat (length bs)) (fun k => nth (Z.to_nat k) bs 0)) ;;
    match from with
    | Some (ip, port) => upd_umem (fun m => st32 (store m src_ip 4 (fun k => nth (Z.to_nat k) ip 0)) src_port port) ;; kret z
    | None => kret z
    end.
Definition sys_sendto : K sys Z :=
  s <- kget ;;
  need x := arg_buffer s in
  let '(f, buf, n) := x in
  need dst_ip := argptr (cur s) (umem s) 3 4 in
  need dst_port := argint (cur s) (umem s) 4 in
  let ff := fat (kern s) f in
  if negb (bool_decide (f_type ff = FD_UDPSOCK)) then kret (-1)
  else if (dst_port <? 0) || (65535 <? dst_port) then kret (-1)
  else innet' (net_udp_user_sendto (udp_slot ff) buf (ubytes (umem s) buf n) n dst_ip (ubytes (umem s) dst_ip 4) (u16 dst_port)).

(** *** The others *)

Definition sys_exec : K sys Z :=
  s <- kget ;;
  need path := argstr (cur s) (umem s) 0 in
  need uargv := argint (cur s) (umem s) 1 in
  need argv := fetch_argv MAXARG (cur s) (umem s) (u32 uargv) 0 in
  exec path argv.

(** The failure of the [fdalloc]s of [sys_pipe]. *)
Definition pipe_bad (fd0 : option nat) (rf wf : nat) : K sys Z :=
  match fd0 with Some fd0 => set_fd fd0 None | None => kret tt end ;;
  inkern (close rf) ;;
  inkern (close wf) ;;
  kret (-1).
Definition sys_pipe : K sys Z :=
  s <- kget ;;
  need fd := argptr (cur s) (umem s) 0 8 in
  r <- inkern (pipealloc kalloc kfree l_addr) ;;
  match r with
  | (z, Some rf, Some wf) =>
      if z <? 0 then kret (-1)
      else
        fd0 <- fdalloc rf ;;
        match fd0 with
        | None => pipe_bad None rf wf
        | Some n0 =>
            fd1 <- fdalloc wf ;;
            match fd1 with
            | None => pipe_bad fd0 rf wf
            | Some n1 => upd_umem (fun m => st32 (st32 m fd (Z.of_nat n0)) (fd + 4) (Z.of_nat n1)) ;; kret 0
            end
        end
  | (z, _, _) => if z <? 0 then kret (-1) else ub "sys_pipe: null file"
  end.

Definition put_statfs (a : Z) (st : statfs) (m : Z -> Z) : Z -> Z :=
  st32 (st32 (st32 (st32 (st32 (st32 m a (f_bsize st)) (a + 4) (f_blocks st)) (a + 8) (f_bfree st)) (a + 12) (f_bavail st))
    (a + 16) (f_files st)) (a + 20) (f_ffree st).
Definition sys_statfs : K sys Z :=
  s <- kget ;;
  need a := argptr (cur s) (umem s) 0 24 in
  st <- infs' (inblk (fillstatfs ROOTDEV)) ;;
  upd_umem (put_statfs a st) ;;
  kret 0.

Definition sys_fdready : K sys Z :=
  s <- kget ;;
  need x := argfd s 0 in
  need forwrite := argint (cur s) (umem s) 1 in
  inkern (filefdready (Some (snd x)) (negb (forwrite =? 0))).

(** The table of syscall.c. *)
Definition syscalls (n : Z) : option handler :=
  let proc := Some (sysproc n) in
  nth (Z.to_nat n)
    [None; proc; proc; proc; Some (plain sys_pipe); Some sys_read; proc; Some (plain sys_exec); Some (plain sys_fstat);
     Some (plain sys_chdir); Some (plain sys_dup); proc; proc; proc; proc; Some (plain sys_open); Some sys_write;
     Some (plain sys_mknod); Some (plain sys_unlink); Some (plain sys_link); Some (plain sys_mkdir); Some (plain sys_close);
     proc; proc; proc; proc; proc; Some (plain sys_getcwd); proc; Some (plain sys_socket); Some (plain sys_bind);
     Some (plain sys_listen); Some sys_accept; Some (plain sys_connect); Some sys_send; Some sys_recv; proc; proc; proc; proc;
     proc; Some (plain sys_statfs); Some (plain sys_lseek); Some (plain sys_fdready); Some (plain sys_recvfrom);
     Some (plain sys_sendto); proc; proc; proc] None.
Definition kernel_syscall : K sys (segment unit (list Z)) := syscall syscalls.
End handlers.
