(* ===== verification/SysSafe.v ===== *)
(** * kernel/sysfile.c: descriptors and files

    The descriptors of the running process hold references to open files; the
    calls that make, copy and close descriptors keep the two in step. *)

From Stdlib Require Import ZArith Lia.
From S2P Require Import Prelude KString Spinlock Kalloc Proc Pipe Bytes Bio BlockLayer Log Fs Vm File FileSafe FileOps FileStream Syscall Sysfile.

Section safe.
Context {Q P B N : Type} `{SleepQueue Q} `{BlockOps B} `{TransOps B} `{NetOps N} `{SockOps N}.
Context (kalloc : K P Z) (kfree : Z -> K P unit) `{PA : !PageAllocator P kalloc kfree}.
Context (devsw : Z -> devops B) (l_addr : nat -> Z) (name0 : list Z).

Abbreviation fsys := (fsys Q P B N).
Abbreviation sys := (sys fsys).
Abbreviation at_rest := (at_rest kalloc kfree).
Implicit Types (s : sys) (other : nat -> Z) (f : nat).

(** References of the descriptors of the process. *)
Definition fds s (j : nat) : Z := zsum (points j) (ofile (cur s)).
(** Between calls: [other j] references to file [j] are held by other
    processes. *)
Record tidy (A : gset Z) other s : Prop := {
  td_rest : at_rest A (kern s) (fun j => other j + fds s j);
  td_len : length (ofile (cur s)) = NOFILE;
  td_other : forall j, 0 <= other j;
}.

(** ** The network

    The calls of the interface, any of which may sleep. *)
Inductive sockop : forall {R : Type}, K N R -> Prop :=
  | so_tcp_alloc : sockop net_tcp_user_alloc
  | so_tcp_close slot : sockop (net_tcp_user_close slot)
  | so_tcp_bind slot path : sockop (net_tcp_user_bind slot path)
  | so_tcp_listen slot : sockop (net_tcp_user_listen slot)
  | so_tcp_connect slot ip port : sockop (net_tcp_user_connect slot ip port)
  | so_udp_alloc : sockop net_udp_user_alloc
  | so_udp_close slot : sockop (net_udp_user_close slot)
  | so_udp_bind slot path : sockop (net_udp_user_bind slot path)
  | so_accept slot : sockop (tcp_accept slot)
  | so_close slot : sockop (tcp_close slot).
Definition net_sleeps : Prop := exists (R : Type) (m : K N R) n c n', sockop m /\ m n = Slept c n'.
Context (net_calm : forall (R : Type) (m : K N R) n msg n', sockop m -> m n <> Panicked msg n').

(** [m] returns with [post], or sleeps in the network with [I]. *)
Definition sok {R} (I : sys -> Prop) (m : K sys R) (post : R -> sys -> Prop) s : Prop :=
  match m s with
  | Done r s' => post r s'
  | Slept _ s' => I s' /\ net_sleeps
  | Panicked _ _ => False
  end.

Lemma sok_bind {R T} I (m : K sys R) (k : R -> K sys T) post s : sok I m (fun r => sok I (k r) post) s -> sok I (kbind m k) post s.
Proof. unfold sok, kbind. by destruct (m s). Qed.
Lemma sok_done {R} I (m : K sys R) post s r s' : m s = Done r s' -> post r s' -> sok I m post s.
Proof. unfold sok. by intros ->. Qed.
Lemma sok_kern {R} I (m : K fsys R) post s r k' : m (kern s) = Done r k' -> post r (set_kern k' s) -> sok I (inkern m) post s.
Proof. unfold sok, inkern, zoom. by intros ->. Qed.

Lemma tidy_kern A other s k' : tidy A other s -> at_rest A k' (fun j => other j + fds s j) -> tidy A other (set_kern k' s).
Proof. intros [T1 T2 T3] Hr. by constructor. Qed.
Lemma sok_net {R} A other (m : K N R) post s : sockop m -> tidy A other s -> (forall r s', tidy A other s' -> cur s' = cur s /\ umem s' = umem s ->
  ftable (kern s') = ftable (kern s) -> post r s') -> sok (tidy A other) (innet' m) post s.
Proof using net_calm.
  intros Hm Ht HT. pose proof (fun n' => tidy_kern A other s (set_net n' (kern s)) Ht (finv_net _ _ _ _ _ _ _ n' (td_rest _ _ _ Ht))) as Hn.
  unfold sok, innet', inkern, innet, zoom. destruct (m (net (kern s))) as [r n'|msg n'|c n'] eqn:E; [by apply HT|by destruct (net_calm _ _ _ _ _ Hm E)|].
  split; [done|]. by exists R, m, (net (kern s)), c, n'.
Qed.

(** ** Descriptors *)

Lemma fds_insert s fd (o o' : option nat) : ofile (cur s) !! fd = Some o ->
  forall j, zsum (points j) (<[fd := o']> (ofile (cur s))) = fds s j - points j o + points j o'.
Proof. intros Ho j. by apply zsum_insert. Qed.

Lemma argfd_spec s n fd f : argfd s n = Some (fd, f) -> ofile (cur s) !! fd = Some (Some f) /\ 1 <= fds s f.
Proof.
  unfold argfd. destruct (argint _ _ _) as [v|]; [|done]. case_match; [done|].
  destruct (ofile (cur s) !! Z.to_nat v) as [[f'|]|] eqn:E; [|done..]. intros [= <- <-]. split; [done|].
  pose proof (zsum_in (points f') _ _ _ (points_nonneg f') E) as Hz. rewrite points_some, decide_True in Hz by done. exact Hz.
Qed.
Lemma argfd_owned A other s n fd f : tidy A other s -> argfd s n = Some (fd, f) -> 1 <= other f + fds s f.
Proof. intros Ht [_ Hf]%argfd_spec. pose proof (td_other _ _ _ Ht f). lia. Qed.

Lemma find_fd_spec (l : list (option nat)) : forall i, match find_fd l i with
  | Some k => exists j, k = (i + j)%nat /\ l !! j = Some None /\ forall j', (j' < j)%nat -> l !! j' <> Some None
  | None => forall j, l !! j <> Some None
  end.
Proof.
  induction l as [|o l IH]; intros i; cbn [find_fd]; [done|]. destruct o as [f|].
  - specialize (IH (S i)). destruct (find_fd l (S i)) as [k|].
    + destruct IH as (j & -> & Hj & Hlt). exists (S j). split_and!; [lia|done|]. intros [|j'] Hj'; [done|]. apply Hlt. lia.
    + intros [|j]; [done|apply IH].
  - exists 0%nat. split_and!; [lia|done|lia].
Qed.

Definition with_fd s (fd : nat) (o : option nat) : sys :=
  {| kern := kern s; cur := set_ofile (<[fd := o]> (ofile (cur s))) (cur s); umem := umem s |}.
Lemma fdalloc_spec s f : (fdalloc f s = Done None s /\ forall j, ofile (cur s) !! j <> Some None) \/
  exists fd, ofile (cur s) !! fd = Some None /\ (forall j, (j < fd)%nat -> ofile (cur s) !! j <> Some None) /\
    fdalloc f s = Done (Some fd) (with_fd s fd (Some f)) /\ forall j, fds (with_fd s fd (Some f)) j = fds s j + points j (Some f).
Proof.
  unfold fdalloc, kbind, kget. pose proof (find_fd_spec (ofile (cur s)) 0) as Hf. destruct (find_fd (ofile (cur s)) 0) as [k|]; [right|by left].
  destruct Hf as (j & -> & Hj & Hlt). exists j. split_and!; [done..|]. intros j'. unfold fds at 1. cbn [cur with_fd ofile set_ofile].
  rewrite (fds_insert s j None (Some f) Hj). change (points j' None) with 0. lia.
Qed.

(** A descriptor takes over the reference. *)
Lemma tidy_fd A other s fd f k' own : tidy A other s -> ofile (cur s) !! fd = Some None ->
  at_rest A k' own -> (forall j, own j = other j + fds s j + points j (Some f)) -> tidy A other (set_kern k' (with_fd s fd (Some f))).
Proof.
  intros [T1 T2 T3] Hfd Hr Ho. constructor; [|cbn; by rewrite length_insert|done]. cbn [kern set_kern]. eapply finv_ext; [..|exact Hr]; try done.
  intros j. rewrite Ho. unfold fds at 1. cbn [cur with_fd set_kern ofile set_ofile]. rewrite (fds_insert s fd None (Some f) Hfd).
  change (points j None) with 0. lia.
Qed.

(** ** Files *)

Abbreviation close := (fileclose kfree l_addr).
Implicit Types (k : fsys) (own : nat -> Z).

Lemma close_held A k own f x : at_rest A k own -> ftable k !! f = Some x -> 1 <= own f -> inode_closes k x ->
  exists k', close f k = Done tt k' /\ at_rest A k' (unhold own f).
Proof using PA.
  intros Hi Hx Hf Hin. destruct (close_any kalloc kfree l_addr A k own _ _ 98 f x Hi ltac:(done) Hx Hf Hin) as (k' & E & Hr & _). by exists k'.
Qed.

(** A new entry becomes a file that refers to no other. *)
Lemma become_leaf A k own f x (g : file -> file) : at_rest A k own -> ftable k !! f = Some x -> f_ref x <> 0 -> f_type x = FD_NONE ->
  f_ref (g x) = f_ref x -> f_type (g x) <> FD_USOCK -> f_type (g x) <> FD_PIPE ->
  at_rest A (set_ftable (alter g f (ftable k)) k) own.
Proof using PA.
  intros Hi Hx Hr Ht Er Hu Hp. destruct (plain_counts x) as [Hc Hb]; [congruence|]. destruct (plain_counts (g x) Hu) as [Hc' Hb'].
  eapply upd_file_inv; [exact Hi|exact Hx|..]; try done.
  - intros j. rewrite (nref_plain j x Hc), (nref_plain j (g x)), Er by done. case_decide; lia.
  - apply (fi_own _ _ _ _ _ _ _ Hi).
  - intros p wr. rewrite (no_end x), (no_end (g x)) by congruence. lia.
  - intros i. rewrite Hb, Hb'. lia.
  - by rewrite Er.
  - unfold is_bound. by rewrite bool_decide_eq_false_2.
  - by rewrite Hc'.
  - right. eapply plain_not_held; eauto. congruence.
Qed.

(** [mk] makes an entry of the table a socket. *)
Definition makes (mk : nat -> K fsys unit) : Prop := forall A k own f x, at_rest A k own -> ftable k !! f = Some x -> f_ref x <> 0 -> f_type x = FD_NONE ->
  exists k', mk f k = Done tt k' /\ at_rest A k' own.
Lemma makes_leaf (g : file -> file) : (forall x, f_ref (g x) = f_ref x /\ f_type (g x) <> FD_USOCK /\ f_type (g x) <> FD_PIPE) ->
  makes (fun f => upd_file f g).
Proof using PA. intros Hg A k own f x Hi Hx Hr Ht. eexists. split; [done|]. eapply become_leaf; eauto; apply Hg. Qed.

Abbreviation sok' A other m := (sok (tidy A other) m (fun _ => tidy A other)).

Lemma set_kern_id s : set_kern (kern s) s = s.
Proof. by destruct s. Qed.
Lemma sok_fail A other (m : K sys unit) s : sok' A other m s -> sok' A other (m ;; kret (-1)) s.
Proof. intros Hm. by apply sok_bind. Qed.

Lemma socket_file_tidy A other s mk undo : makes mk -> tidy A other s -> (forall s', tidy A other s' -> sok' A other undo s') ->
  sok' A other (socket_file kfree l_addr mk undo) s.
Proof using PA.
  intros Hmk Ht Hu. apply sok_bind. pose proof (td_rest _ _ _ Ht) as Hr.
  destruct (filealloc_spec kalloc kfree A _ _ _ _ Hr) as [[E _]|(f & x & Hx & Hrf & Htx & E & Hr1)].
  { eapply sok_kern; [exact E|]. rewrite set_kern_id. by apply sok_fail, Hu. }
  eapply sok_kern; [exact E|]. cbv iota beta. set (k1 := set_ftable _ _) in *. apply sok_bind.
  assert (Hx1 : ftable k1 !! f = Some (fresh_file x)) by (unfold k1; cbn [ftable set_ftable]; by rewrite list_lookup_alter_eq, Hx).
  destruct (fdalloc_spec (set_kern k1 s) f) as [[Ef _]|(fd & Hfd & _ & Ef & _)]; (eapply sok_done; [exact Ef|]); cbv iota beta.
  - apply sok_bind. destruct (close_fresh kalloc kfree l_addr A k1 _ _ _ f (fresh_file x) Hr1 Hx1) as [Ec Hc]; [done|done| |].
    { unfold hold. rewrite decide_True by done. pose proof (fi_own _ _ _ _ _ _ _ Hr f). cbn beta in *. lia. }
    eapply sok_kern; [exact Ec|]. apply sok_fail, Hu, (tidy_kern A other s); [done|].
    eapply finv_ext; [..|exact Hc]; try done. intros j. unfold unhold, hold. lia.
  - apply sok_bind. destruct (Hmk A k1 _ f (fresh_file x) Hr1 Hx1) as (k2 & Em & Hr2); [done|done|]. eapply sok_kern; [exact Em|].
    eapply (tidy_fd A other s fd f k2 _ Ht Hfd Hr2). intros j. unfold hold. by rewrite points_some.
Qed.

(** ** The calls *)

Lemma sok_ret {R} I (r : R) (post : R -> sys -> Prop) s : post r s -> sok I (kret r) post s.
Proof. done. Qed.
Lemma sok_get {R} I (g : sys -> K sys R) post s : sok I (g s) post s -> sok I (x <- kget ;; g x) post s.
Proof. done. Qed.
(** A missing argument changes nothing. *)
Lemma sok_need {R} A other (o : option R) (k : R -> K sys Z) s : tidy A other s ->
  (forall x, o = Some x -> sok' A other (k x) s) -> sok' A other (need x := o in k x) s.
Proof. intros Ht Hk. by destruct o; [apply Hk|]. Qed.
Lemma sok_kern_tidy {R} A other (m : K fsys R) s : tidy A other s ->
  (exists r k', m (kern s) = Done r k' /\ at_rest A k' (fun j => other j + fds s j)) -> sok' A other (inkern m) s.
Proof. intros Ht (r & k' & E & Hr). eapply sok_kern; [exact E|]. by apply tidy_kern. Qed.

Lemma dup_tidy A other s : tidy A other s -> sok' A other sys_dup s.
Proof using PA.
  intros Ht. apply sok_get, sok_need; [done|]. intros [fd0 f] Hf. cbn [snd]. apply sok_bind.
  destruct (fdalloc_spec s f) as [[E _]|(fd & Hfd & _ & E & _)]; (eapply sok_done; [exact E|]); [done|]. cbv iota beta. apply sok_bind.
  destruct (filedup_spec kalloc kfree A (kern s) _ _ _ f (td_rest _ _ _ Ht)) as (x & _ & Ed & Hr); [by eapply argfd_owned|].
  eapply sok_kern; [exact Ed|]. eapply (tidy_fd A other s fd f _ _ Ht Hfd Hr). intros j. unfold hold. by rewrite points_some.
Qed.

Lemma close_tidy A other s : tidy A other s ->
  (forall fd f x, argfd s 0 = Some (fd, f) -> ftable (kern s) !! f = Some x -> inode_closes (kern s) x) ->
  sok' A other (sys_close kfree l_addr) s.
Proof using PA.
  intros Ht Hin. apply sok_get, sok_need; [done|]. intros [fd f] Hf. cbn [fst snd]. apply sok_bind.
  destruct (argfd_spec s 0 fd f Hf) as [Hfd _]. pose proof (argfd_owned A other s 0 fd f Ht Hf) as Ho.
  destruct (owned kalloc kfree A _ _ _ _ f (td_rest _ _ _ Ht) Ho) as (x & Hx & _).
  destruct (close_held A (kern s) _ f x (td_rest _ _ _ Ht) Hx Ho (Hin fd f x Hf Hx)) as (k' & E & Hr).
  eapply (sok_done _ _ _ _ tt (with_fd s fd None)); [done|]. apply sok_bind. eapply sok_kern; [exact E|]. apply sok_ret.
  destruct Ht as [T1 T2 T3]. constructor; [|cbn; by rewrite length_insert|done]. eapply finv_ext; [..|exact Hr]; try done.
  intros j. unfold unhold. unfold fds at 1. cbn [cur set_kern with_fd ofile set_ofile]. rewrite (fds_insert s fd (Some f) None Hfd).
  rewrite points_some. change (points j None) with 0. lia.
Qed.

Lemma socket_tidy A other s : tidy A other s -> sok' A other (sys_socket kfree l_addr) s.
Proof using PA net_calm.
  intros Ht. apply sok_get. do 3 (apply sok_need; [done|]; intros ? _). destruct (negb _); [done|].
  assert (Hslot : forall (alloc : K N Z) (undo : Z -> K N unit) g, sockop alloc -> (forall slot, sockop (undo slot)) ->
    (forall slot x, f_ref (g slot x) = f_ref x /\ f_type (g slot x) <> FD_USOCK /\ f_type (g slot x) <> FD_PIPE) ->
    sok' A other (slot <- innet' alloc ;; if slot <? 0 then kret (-1)
      else socket_file kfree l_addr (fun f => upd_file f (g slot)) (innet' (undo slot))) s).
  { intros alloc undo g Ha Hu Hg. apply sok_bind. apply (sok_net A other); [done|done|]. intros slot s1 Ht1 _ _. destruct (slot <? 0); [done|].
    apply socket_file_tidy; [by apply makes_leaf|done|]. intros s' Ht'. apply (sok_net A other); [apply Hu|done|by intros]. }
  destruct (_ =? AF_INET).
  - destruct (negb _); [done|]. destruct (_ =? SOCK_STREAM); [|destruct (_ =? SOCK_DGRAM); [|done]].
    + apply Hslot; [constructor|constructor|done].
    + apply Hslot; [constructor|constructor|done].
  - destruct (negb _); [done|]. destruct (negb _); [done|]. apply socket_file_tidy; [|done|done].
    intros A' k own f y Hi Hy Hr Hty. by apply (make_usock_spec kalloc kfree A' k own f y).
Qed.

Lemma bind_tidy A other s : tidy A other s -> sok' A other sys_bind s.
Proof using PA net_calm l_addr.
  intros Ht. apply sok_get, sok_need; [done|]. intros [fd f] Hf. apply sok_need; [done|]. intros path _. cbn [snd].
  assert (Hb : sok' A other (inkern (usock_bind f path)) s).
  { apply sok_kern_tidy; [done|]. destruct (owned kalloc kfree A _ _ _ _ f (td_rest _ _ _ Ht)) as (x & Hx & Hr); [by eapply argfd_owned|].
    destruct (usock_bind_spec kalloc kfree l_addr A _ _ f x path (td_rest _ _ _ Ht) Hx) as (r & k' & E & Hr' & _); [lia|]. by exists r, k'. }
  destruct (f_type _); try done; (apply (sok_net A other); [constructor|done|by intros]).
Qed.

Lemma listen_tidy A other s : tidy A other s -> sok' A other (sys_listen l_addr) s.
Proof using PA net_calm.
  intros Ht. apply sok_get, sok_need; [done|]. intros [fd f] Hf. apply sok_need; [done|]. intros backlog _. cbn [snd].
  destruct (owned kalloc kfree A _ _ _ _ f (td_rest _ _ _ Ht)) as (x & Hx & Hr); [by eapply argfd_owned|].
  assert (Hb : sok' A other (inkern (usock_listen l_addr f backlog)) s).
  { apply sok_kern_tidy; [done|]. destruct (usock_listen_spec kalloc kfree l_addr A _ _ f x backlog (td_rest _ _ _ Ht) Hx) as (r & k' & E & Hr' & _); [lia|].
    by exists r, k'. }
  destruct (f_type _); try done. apply sok_bind, (sok_net A other); [constructor|done|]. intros r s1 Ht1 _ Hft. apply sok_bind.
  destruct (r =? 0); [|done]. eapply sok_kern; [done|]. apply sok_ret, tidy_kern; [done|]. rewrite <- Hft in Hx.
  eapply upd_same_inv; [apply (td_rest _ _ _ Ht1)|exact Hx|by repeat split|..].
  - intros j. cbn [f_ref set_tcp_listen]. case_decide; lia.
  - apply (fi_own _ _ _ _ _ _ _ (td_rest _ _ _ Ht1)).
  - cbn [f_ref set_tcp_listen]. lia.
Qed.

(** A file that is no socket and no inode can be closed. *)
Lemma close_plain A k own f x : at_rest A k own -> ftable k !! f = Some x -> 1 <= own f -> f_type x <> FD_INODE ->
  exists k', close f k = Done tt k' /\ at_rest A k' (unhold own f).
Proof using PA. intros Hi Hx Hf Hn. apply (close_held A k own f x Hi Hx Hf). by intros ?. Qed.

(** What [fdalloc] does not take is closed. *)
Lemma accepted_tidy A other s f k x : tidy A other s -> at_rest A k (hold (fun j => other j + fds s j) f) ->
  ftable k !! f = Some x -> f_type x <> FD_INODE -> sok' A other (accepted kfree l_addr f) (set_kern k s).
Proof using PA.
  intros Ht Hr Hx Hn. apply sok_bind. assert (Hown : 1 <= hold (fun j => other j + fds s j) f f).
  { unfold hold. rewrite decide_True by done. pose proof (fi_own _ _ _ _ _ _ _ (td_rest _ _ _ Ht) f). cbn beta in *. lia. }
  destruct (fdalloc_spec (set_kern k s) f) as [[E _]|(fd & Hfd & _ & E & _)]; (eapply sok_done; [exact E|]); cbv iota beta.
  - apply sok_bind. destruct (close_plain A k _ f x Hr Hx Hown Hn) as (k' & Ec & Hr'). eapply sok_kern; [exact Ec|].
    apply sok_ret, (tidy_kern A other s); [done|]. eapply finv_ext; [..|exact Hr']; try done. intros j. unfold unhold, hold. lia.
  - apply sok_ret, (tidy_fd A other s fd f k _ Ht Hfd Hr). intros j. unfold hold. by rewrite points_some.
Qed.

Lemma tcp_accept_tidy A other s f : tidy A other s ->
  sok (tidy A other) (inkern (net_tcp_user_accept f)) (fun r s' => match r with
    | None => tidy A other s'
    | Some e => exists k x, s' = set_kern k s /\ at_rest A k (hold (fun j => other j + fds s j) e) /\ ftable k !! e = Some x /\ f_type x <> FD_INODE
    end) s.
Proof using PA net_calm.
  intros Ht. unfold sok, inkern, zoom, net_tcp_user_accept, kbind at 1, kget. cbn beta.
  destruct (negb _); [by apply tidy_kern, Ht|]. destruct (_ || _); [by apply tidy_kern, Ht|].
  pose proof (so_accept (tcp_slot (fat (kern s) f))) as Hop. set (m := tcp_accept _) in *. unfold kbind at 1, innet at 1, zoom.
  pose proof (fun n' => finv_net _ _ _ _ _ _ _ n' (td_rest _ _ _ Ht)) as Hn.
  destruct (m (net (kern s))) as [sid n1|msg n1|c n1] eqn:Em; [|by destruct (net_calm _ _ _ _ _ Hop Em)|].
  2:{ split; [by apply tidy_kern, Hn|]. by exists Z, m, (net (kern s)), c, n1. }
  destruct (sid <? 0); [by apply tidy_kern, Hn|]. unfold kbind at 1.
  destruct (filealloc_spec kalloc kfree A _ _ _ _ (Hn n1)) as [[-> _]|(e & x & Hx & _ & Htx & -> & Hr)].
  - pose proof (so_close sid) as Hop2. unfold kbind, innet, zoom. cbn [net set_net].
    destruct (tcp_close sid n1) as [u n2|msg n2|c n2] eqn:Ec; [|by destruct (net_calm _ _ _ _ _ Hop2 Ec)|].
    + by apply tidy_kern, (finv_net _ _ _ _ _ _ _ n2 (Hn n1)).
    + split; [by apply tidy_kern, (finv_net _ _ _ _ _ _ _ n2 (Hn n1))|]. by exists unit, (tcp_close sid), n1, c, n2.
  - set (k1 := set_ftable _ _) in *.
    assert (Hx1 : ftable k1 !! e = Some (fresh_file x)) by (unfold k1; cbn [ftable set_ftable]; by rewrite list_lookup_alter_eq, Hx).
    eexists _, (tcp_file sid (fresh_file x)). split; [done|]. split; [|split; [|done]].
    + eapply (become_leaf A k1); eauto; done.
    + cbn [ftable set_ftable]. by rewrite list_lookup_alter_eq, Hx1.
Qed.

Lemma accept_tidy A other s : tidy A other s -> sok' A other (sys_accept kfree l_addr) s.
Proof using PA net_calm.
  intros Ht. apply sok_get. destruct (argfd s 0) as [[fd f]|] eqn:Hf; [|done].
  destruct (owned kalloc kfree A _ _ _ _ f (td_rest _ _ _ Ht)) as (x & Hx & _); [by eapply argfd_owned|].
  assert (Hu : sok' A other (r <- inkern (usock_accept l_addr (t_id (cur s)) (t_killed (cur s)) f) ;;
    match r with
    | Return (z, Some nf) => plain (if z <? 0 then kret (-1) else accepted kfree l_addr nf)
    | Return (z, None) => plain (if z <? 0 then kret (-1) else ub "sys_accept: null file")
    | Wait _ => kret (Wait [])
    end) s).
  { apply sok_bind. destruct (usock_accept_spec kalloc kfree l_addr A (kern s) _ (t_id (cur s)) (t_killed (cur s)) f x (td_rest _ _ _ Ht) Hx) as (r & k' & E & Hr).
    eapply sok_kern; [exact E|]. destruct r as [[z [e|]]|[]].
    - destruct Hr as (-> & Hr & l & Hl & _ & Hp & ->). destruct (fi_pending _ _ _ _ _ _ _ (td_rest _ _ _ Ht) _ _ _ _ Hl Hp) as (y & Hy & Hc).
      apply sok_bind, (accepted_tidy A other s e _ y); [done|done|done|]. unfold is_conn in Hc. by destruct (f_type y).
    - destruct Hr as (-> & ->). by rewrite set_kern_id.
    - destruct Hr as (_ & Hr & _). by apply sok_ret, tidy_kern. }
  destruct (f_type (fat (kern s) f)); try exact Hu. apply sok_bind.
  pose proof (tcp_accept_tidy A other s f Ht) as Ha. unfold sok in Ha. unfold sok at 1. destruct (inkern _ s) as [[e|] s1|msg s1|c s1]; [|done..].
  destruct Ha as (k & y & -> & Hr & Hy & Hn). by apply sok_bind, (accepted_tidy A other s e k y).
Qed.

(** The two ends of a pipe that gets no descriptors. *)
Lemma close_two A k own a b xa xb : at_rest A k (hold (hold own a) b) -> (forall j, 0 <= own j) -> ftable k !! a = Some xa -> f_type xa <> FD_INODE ->
  ftable k !! b = Some xb -> f_type xb <> FD_INODE -> exists k1 k2, close a k = Done tt k1 /\ close b k1 = Done tt k2 /\ at_rest A k2 own.
Proof using PA.
  intros Hi Ho Ha Hta Hb Htb. destruct (close_list kalloc kfree l_addr A (fun _ _ => 0) (fun _ => 0) [a; b] ltac:(done) k own) as (k2 & E & Hr & _).
  - eapply finv_ext; [..|exact Hi]; try done. intros j. unfold hold. cbn [fmap list_fmap zsum foldr]. rewrite !points_some. lia.
  - done.
  - intros e [->|[->|[]%not_elem_of_nil]%elem_of_cons]%elem_of_cons; eauto.
  - cbn [fmap list_fmap close_all] in E. unfold kbind in E. destruct (close a k) as [[] k1| |] eqn:E1; [|done..].
    destruct (close b k1) as [[] k2'| |] eqn:E2; [|done..]. exists k1, k2'. split_and!; [done..|]. by injection E as ->.
Qed.
Lemma end_plain k f rd wr p : end_at k f rd wr p -> exists x, ftable k !! f = Some x /\ f_type x <> FD_INODE.
Proof. intros (x & Hx & _ & Ht & _). exists x. split; [done|congruence]. Qed.

Lemma pipe_bad_tidy A other s k a b p fd0 : tidy A other s -> at_rest A k (hold (hold (fun j => other j + fds s j) a) b) ->
  end_at k a 1 0 p -> end_at k b 0 1 p -> (forall n, fd0 = Some n -> ofile (cur s) !! n = Some None) ->
  sok' A other (pipe_bad kfree l_addr fd0 a b) (set_kern k (match fd0 with Some n => with_fd s n (Some a) | None => s end)).
Proof using PA.
  intros Ht Hi Ea Eb Hfd. destruct (end_plain k a _ _ _ Ea) as (xa & Ha & Hta), (end_plain k b _ _ _ Eb) as (xb & Hb & Htb).
  destruct (close_two A k _ a b xa xb Hi (fi_own _ _ _ _ _ _ _ (td_rest _ _ _ Ht)) Ha Hta Hb Htb) as (k1 & k2 & E1 & E2 & Hr).
  apply sok_bind. eapply (sok_done _ _ _ _ tt (set_kern k s)).
  { destruct fd0 as [n|]; [|done]. specialize (Hfd n eq_refl). unfold set_fd, upd_cur, kmodify, with_fd, set_kern. cbn.
    rewrite list_insert_insert_eq, list_insert_id by done. by destruct s as [? [] ?]. }
  apply sok_bind. eapply sok_kern; [exact E1|]. apply sok_bind. eapply sok_kern; [exact E2|]. by apply sok_ret, (tidy_kern A other s).
Qed.

Lemma pipe_tidy A other s : tidy A other s -> sok' A other (sys_pipe kalloc kfree l_addr) s.
Proof using PA.
  intros Ht. apply sok_get, sok_need; [done|]. intros fd _. apply sok_bind.
  destruct (fi_pages _ _ _ _ _ _ _ (td_rest _ _ _ Ht)) as (F & U & HF & _).
  destruct (pipealloc_spec kalloc kfree l_addr A (kern s) _ _ _ F (td_rest _ _ _ Ht) HF) as [(a & b & p & k & E & Hs)|(f0 & f1 & k & E & Hs)];
    (eapply sok_kern; [exact E|]); cbn [Z.ltb Z.compare].
  2:{ assert (Ht' : tidy A other (set_kern k s)) by (by apply tidy_kern, Hs). by destruct f0, f1. }
  destruct Hs as [Hr _ Hne Ea Eb _ _ _ _ _ _]. apply sok_bind.
  destruct (fdalloc_spec (set_kern k s) a) as [[E0 _]|(n0 & Hn0 & _ & E0 & _)]; (eapply sok_done; [exact E0|]); cbv iota beta.
  { by apply (pipe_bad_tidy A other s k a b p None). }
  apply sok_bind. set (s1 := with_fd _ n0 _). destruct (fdalloc_spec s1 b) as [[E1 _]|(n1 & Hn1 & _ & E1 & _)]; (eapply sok_done; [exact E1|]); cbv iota beta.
  { apply (pipe_bad_tidy A other s k a b p (Some n0)); try done. by intros n [= <-]. }
  apply sok_bind. eapply sok_done; [done|]. apply sok_ret. destruct Ht as [T1 T2 T3].
  constructor; [|cbn; by rewrite !length_insert|done]. eapply finv_ext; [..|exact Hr]; try done. intros j. unfold hold.
  unfold fds at 1. cbn [cur with_fd ofile set_ofile]. rewrite (fds_insert s1 n1 None (Some b) Hn1). unfold fds at 1.
  cbn [s1 cur with_fd set_kern ofile set_ofile]. rewrite (fds_insert s n0 None (Some a) Hn0), !points_some. change (points j None) with 0. lia.
Qed.

Lemma tidy_ext A other other' s : (forall j, other' j = other j) -> tidy A other s -> tidy A other' s.
Proof.
  intros Ho [T1 T2 T3]. constructor; [|done|intros j; rewrite Ho; apply T3]. eapply finv_ext; [..|exact T1]; try done. intros j. by rewrite Ho.
Qed.
(** All is well but for [lost]. *)
Definition tidy_but (A : gset Z) other (lost : list nat) s : Prop := tidy A (fun j => other j + zsum (points j) (Some <$> lost)) s.
Lemma tidy_none A other s : tidy A other s -> tidy_but A other [] s.
Proof. apply tidy_ext. intros j. cbn. lia. Qed.

Definition connects A other (o : outcome sys Z) : Prop :=
  match o with
  | Done r s' => exists lost, tidy_but A other lost s' /\ (lost = [] \/ length lost = 2%nat /\ r = -1)
  | Slept _ s' => tidy A other s' /\ net_sleeps
  | Panicked msg _ => msg = "fileclose"
  end.
Lemma sok_connects A other m s : sok' A other m s -> connects A other (m s).
Proof. unfold sok, connects. destruct (m s); [|done..]. intros Ht. exists []. split; [by apply tidy_none|by left]. Qed.

Lemma usock_connects A other s f path : tidy A other s -> 1 <= other f + fds s f ->
  connects A other (inkern (usock_connect kalloc kfree l_addr f path) s).
Proof using PA.
  intros Ht Hf. unfold inkern, zoom.
  destruct (connect_holders kalloc kfree l_addr A (kern s) _ f path (td_rest _ _ _ Ht) Hf) as [(r & k' & own' & lost & -> & Hr & Ho & Hl)|(k' & ->)]; [|done].
  exists lost. split; [|done]. destruct Ht as [T1 T2 T3]. constructor; [|done|].
  - eapply finv_ext; [..|exact Hr]; try done. intros j. rewrite Ho. unfold fds. cbn [cur set_kern]. lia.
  - intros j. pose proof (T3 j). pose proof (zsum_nonneg (points j) (Some <$> lost) (points_nonneg j)). lia.
Qed.
Lemma connect_tidy A other s : tidy A other s -> connects A other (sys_connect kalloc kfree l_addr s).
Proof using PA net_calm.
  intros Ht. unfold sys_connect, kbind at 1, kget. destruct (argfd s 0) as [[fd f]|] eqn:Hf; [|by apply (sok_connects A other (kret (-1)))].
  destruct (argstr (cur s) (umem s) 1) as [path|]; [|by apply (sok_connects A other (kret (-1)))]. cbn [snd].
  pose proof (usock_connects A other s f path Ht (argfd_owned A other s 0 fd f Ht Hf)) as Hu.
  destruct (f_type (fat (kern s) f)); try exact Hu. apply (sok_connects A other (need y := parse_ipv4_port path in _)), sok_need; [done|].
  intros [ip port] _. by apply (sok_net A other); [constructor|done|].
Qed.

Inductive fdcall := CDup | CClose | CPipe | CSocket | CBind | CListen | CConnect | CAccept.
#[global] Instance fdcall_eq_dec : EqDecision fdcall.
Proof. solve_decision. Defined.
Definition run (c : fdcall) : handler (X := fsys) :=
  match c with
  | CDup => plain sys_dup
  | CClose => plain (sys_close kfree l_addr)
  | CPipe => plain (sys_pipe kalloc kfree l_addr)
  | CSocket => plain (sys_socket kfree l_addr)
  | CBind => plain sys_bind
  | CListen => plain (sys_listen l_addr)
  | CConnect => plain (sys_connect kalloc kfree l_addr)
  | CAccept => sys_accept kfree l_addr
  end.
(** The last reference to an inode can be dropped. *)
Definition closable s (c : fdcall) : Prop :=
  c = CClose -> forall fd f x, argfd s 0 = Some (fd, f) -> ftable (kern s) !! f = Some x -> inode_closes (kern s) x.

Lemma run_tidy A other s c : c <> CConnect -> tidy A other s -> closable s c -> sok' A other (run c) s.
Proof using PA net_calm.
  intros Hc Ht Hcl. destruct c; cbn [run]; try apply sok_bind; try done.
  - by apply dup_tidy.
  - by apply close_tidy, Hcl.
  - by apply pipe_tidy.
  - by apply socket_tidy.
  - by apply bind_tidy.
  - by apply listen_tidy.
  - by apply accept_tidy.
Qed.

(** ** Opening *)

Definition only_inodes s s' : Prop := exists i, s' = set_kern (set_inodes i (kern s)) s.
Lemma only_refl s : only_inodes s s.
Proof. exists (inodes (kern s)). by destruct s as [[] ? ?]. Qed.
Lemma only_trans s1 s2 s3 : only_inodes s1 s2 -> only_inodes s2 s3 -> only_inodes s1 s3.
Proof. intros [i ->] [i' ->]. by exists i'. Qed.
Lemma only_infs {R T} (m : K (fs B) R) (k : R -> K sys T) (post : T -> sys -> Prop) s0 s : only_inodes s0 s ->
  (forall r s', only_inodes s0 s' -> wlp (k r) post s') -> wlp (r <- infs' m ;; k r) post s.
Proof.
  intros Hs Hk. unfold wlp, kbind, infs', inkern, infs, zoom. destruct (m (inodes (kern s))) as [r i| |]; [|done..].
  apply Hk. eapply only_trans; [exact Hs|]. by exists i.
Qed.
Lemma only_when {T} b (m : K (fs B) unit) (k : K sys T) (post : T -> sys -> Prop) s0 s : only_inodes s0 s ->
  (forall s', only_inodes s0 s' -> wlp k post s') -> wlp (kwhen b (infs' m) ;; k) post s.
Proof. intros Hs Hk. destruct b; [apply (only_infs m (fun _ => k) post s0 s Hs); auto|by apply Hk]. Qed.

Lemma open_inode_only cwd path omode s : wlp (open_inode devsw name0 cwd path omode) (fun _ s' => only_inodes s s') s.
Proof.
  assert (Hs : only_inodes s s) by apply only_refl. unfold open_inode, begin_trans', commit_trans'. destruct (negb _).
  - apply (only_infs _ _ _ s); [done|]. intros _ s1 H4. apply (only_infs _ _ _ s); [done|]. intros ip s2 H5.
    apply (only_infs _ _ _ s); [done|]. by intros _ s3 H6.
  - apply (only_when _ _ _ _ s); [done|]. intros s1 H4. apply (only_infs _ _ _ s); [done|]. intros [ip|] s2 H5.
    + apply (only_infs _ _ _ s); [done|]. intros _ s3 H6. do 2 kstep. destruct (_ && _).
      * apply (only_infs _ _ _ s); [done|]. intros _ s4 H7. apply (only_when _ _ _ _ s); [done|]. by intros s5 H8.
      * apply (only_when _ _ _ _ s); [done|]. by intros s5 H8.
    + apply (only_when _ _ _ _ s); [done|]. by intros s3 H6.
Qed.

(** Unlocking the inode and ending the transaction of [open]. *)
Lemma infs_commit {R} (m : K (fs B) unit) trunc (k : K sys R) s i : (m ;; kwhen trunc (inblk tr_commit)) (inodes (kern s)) = Done tt i ->
  (infs' m ;; kwhen trunc commit_trans' ;; k) s = k (set_kern (set_inodes i (kern s)) s).
Proof.
  unfold kbind, infs', inkern, infs, zoom. destruct (m (inodes (kern s))) as [[] i1| |]; [|done..]. destruct trunc; cbn [kwhen].
  - unfold commit_trans', inkern, commit_trans, infs, zoom. cbn [kern set_kern inodes set_inodes].
    destruct (inblk tr_commit i1) as [[] i2| |]; [|done..]. by intros [= <-].
  - by intros [= <-].
Qed.

Section opening.
Context (A : gset Z) (other : nat -> Z) (s : sys) (ip : nat) (trunc : bool) (omode : Z).
Context (Ht : tidy A other s).
Context (i1 i2 : fs B).
Context (H_put : (iunlockput ip ;; kwhen trunc (inblk tr_commit)) (inodes (kern s)) = Done tt i1).
Context (H_unlock : (iunlock ip ;; kwhen trunc (inblk tr_commit)) (inodes (kern s)) = Done tt i2).

Lemma open_fd_spec :
  (exists s', open_fd kfree l_addr ip trunc omode s = Done (-1) s' /\ tidy A other s' /\ cur s' = cur s /\ inodes (kern s') = i1 /\
    ((forall j, ofile (cur s) !! j <> Some None) \/ nfree (kern s) = 0)) \/
  (exists fd f x s', open_fd kfree l_addr ip trunc omode s = Done (Z.of_nat fd) s' /\ tidy A other s' /\
    ofile (cur s) !! fd = Some None /\ (forall j, (j < fd)%nat -> ofile (cur s) !! j <> Some None) /\
    ofile (cur s') = <[fd := Some f]> (ofile (cur s)) /\ closed_at (kern s) f /\ inodes (kern s') = i2 /\
    ftable (kern s') !! f = Some (open_file ip omode (isize (iat i2 ip)) (fresh_file x))).
Proof using PA Ht H_put H_unlock.
  pose proof (td_rest _ _ _ Ht) as Hr. set (m := open_fd _ _ _ _ _ s). assert (Em : m = open_fd kfree l_addr ip trunc omode s) by done.
  unfold open_fd, kbind at 1, inkern at 1, zoom in Em.
  destruct (filealloc_spec kalloc kfree A _ _ _ _ Hr) as [[E Hn]|(f & x & Hx & Hrf & Htx & E & Hr1)]; rewrite E in Em; clear E.
  { left. rewrite set_kern_id, (infs_commit _ _ _ _ _ H_put) in Em. eexists. split; [exact Em|]. split_and!; try done.
    - apply tidy_kern, finv_inodes, Hr. done.
    - right. by apply nfree_none. }
  set (k1 := set_ftable _ _) in *. unfold kbind at 1 in Em.
  assert (Hx1 : ftable k1 !! f = Some (fresh_file x)) by (unfold k1; cbn [ftable set_ftable]; by rewrite list_lookup_alter_eq, Hx).
  destruct (fdalloc_spec (set_kern k1 s) f) as [[Ef Hfull]|(fd & Hfd & Hlow & Ef & _)]; rewrite Ef in Em; clear Ef.
  - left. destruct (close_fresh kalloc kfree l_addr A k1 _ _ _ f (fresh_file x) Hr1 Hx1) as [Ec Hc]; [done|done| |].
    { unfold hold. rewrite decide_True by done. pose proof (fi_own _ _ _ _ _ _ _ Hr f). cbn beta in *. lia. }
    unfold kbind at 1, inkern, zoom in Em. cbn [kern set_kern] in Em. rewrite Ec in Em. set (k2 := set_ftable _ k1) in *.
    rewrite (infs_commit (iunlockput ip) trunc (kret (-1)) (set_kern k2 (set_kern k1 s)) i1 H_put) in Em.
    eexists. split; [exact Em|]. split_and!; try done; [|by left].
    apply (tidy_kern A other s); [done|]. apply finv_inodes. eapply finv_ext; [..|exact Hc]; try done. intros j. unfold unhold, hold. lia.
  - right. rewrite (infs_commit (iunlock ip) trunc _ (with_fd (set_kern k1 s) fd (Some f)) i2 H_unlock) in Em.
    unfold kbind, kget, inkern, zoom, upd_file, kmodify, kret in Em. exists fd, f, x. eexists. split; [exact Em|]. split_and!; try done.
    + apply (tidy_fd A other s fd f _ (hold (fun j => other j + fds s j) f) Ht Hfd); [|intros j; unfold hold; by rewrite points_some].
      by eapply (become_leaf A (set_inodes i2 k1)); [apply finv_inodes, Hr1|exact Hx1|..].
    + by exists x.
    + change (alter (open_file ip omode (isize (iat i2 ip))) f (ftable k1) !! f = Some (open_file ip omode (isize (iat i2 ip)) (fresh_file x))).
      by rewrite list_lookup_alter_eq, Hx1.
Qed.
End opening.

(** Once [open] has found or made the inode of the path, it returns.  If
    a descriptor and an entry of the file table are free, the lowest free
    descriptor refers to a new file on the inode, opened in the mode asked
    for; otherwise it returns -1 and gives back the entry and the inode.
    Either way descriptors and files agree. *)
Theorem open_returns_a_file A other s path omode ip trunc s1 i1 i2 : tidy A other s ->
  argstr (cur s) (umem s) 0 = Some path -> argint (cur s) (umem s) 1 = Some omode ->
  open_inode devsw name0 (t_cwd (cur s)) path omode s = Done (Some (ip, trunc)) s1 ->
  (iunlockput ip ;; kwhen trunc (inblk tr_commit)) (inodes (kern s1)) = Done tt i1 ->
  (iunlock ip ;; kwhen trunc (inblk tr_commit)) (inodes (kern s1)) = Done tt i2 ->
  exists r s', sys_open kfree devsw l_addr name0 s = Done r s' /\ tidy A other s' /\
    ((r = -1 /\ ofile (cur s') = ofile (cur s) /\ inodes (kern s') = i1 /\
      ((forall j, ofile (cur s) !! j <> Some None) \/ nfree (kern s) = 0)) \/
     (exists fd f x, r = Z.of_nat fd /\ ofile (cur s) !! fd = Some None /\ (forall j, (j < fd)%nat -> ofile (cur s) !! j <> Some None) /\
      ofile (cur s') = <[fd := Some f]> (ofile (cur s)) /\ closed_at (kern s) f /\ inodes (kern s') = i2 /\
      ftable (kern s') !! f = Some (open_file ip omode (isize (iat i2 ip)) (fresh_file x)))).
Proof using PA.
  intros Ht Hp Ho E H_put H_unlock. unfold sys_open, kbind at 1, kget. rewrite Hp, Ho. unfold kbind at 1. rewrite E. cbn [fst snd].
  destruct (wlp_elim _ _ _ _ _ (open_inode_only (t_cwd (cur s)) path omode s) E) as [i Es].
  assert (Ht1 : tidy A other s1) by (rewrite Es; apply tidy_kern, finv_inodes, td_rest; done).
  destruct (open_fd_spec A other s1 ip trunc omode Ht1 i1 i2 H_put H_unlock) as [(s' & E' & Ht' & Hc & Hi & Hw)|(fd & f & x & s' & E' & Ht' & H')].
  - exists (-1), s'. split_and!; [done..|]. left. rewrite Hc. rewrite Es in Hw |- *. split_and!; done.
  - exists (Z.of_nat fd), s'. split_and!; [done..|]. right. exists fd, f, x. rewrite Es in H'. split; [done|exact H'].
Qed.

End safe.

(** ** Witnesses *)

Module SysWitness.
Import SockWitness.

(** A network that refuses everything. *)
#[export] Instance no_sock : SockOps unit := {
  net_is_available _ := true; net_tcp_user_alloc := kret (-1); net_tcp_user_close _ := kret tt; net_tcp_user_bind _ _ := kret (-1);
  net_tcp_user_listen _ := kret (-1); net_tcp_user_connect _ _ _ := kret (-1); net_udp_user_alloc := kret (-1);
  net_udp_user_close _ := kret tt; net_udp_user_bind _ _ := kret (-1); net_udp_user_recvfrom _ _ _ _ _ := kret (-1, [], None);
  net_udp_user_sendto _ _ _ _ _ _ _ := kret (-1); tcp_accept _ := kret (-1); tcp_close _ := kret tt;
}.
Lemma calm (R : Type) (m : K unit R) n msg n' : sockop m -> m n <> Panicked msg n'.
Proof. by intros []. Qed.
Lemma awake : ~ net_sleeps (N := unit).
Proof. intros (R & m & n & c & n' & [] & [=]). Qed.

(** The blocks in memory: block 2 holds the root directory's inode. *)
Definition disk : Type := Z -> block.
#[export] Instance disk_ops : BlockOps disk := {
  bl_bread _ k := kret (Z.to_nat k); bl_brelse _ := kret tt; bl_log_write _ := kret tt;
  bl_data b d := d (Z.of_nat b); bl_put b x d := fun k => if k =? Z.of_nat b then x else d k;
}.
#[export] Instance disk_trans : TransOps disk := { tr_begin := kret tt; tr_commit := kret tt }.
Definition root : inode :=
  {| i_dev := ROOTDEV; inum := 1; ref := 0; i_busy := false; i_valid := false; itype := T_DIR; major := 0; minor := 0; nlink := 1;
     isize := 0; addrs := replicate 13 0 |}.
Definition disk0 : disk := fun k => if k =? 2 then store_dinode 64 root (replicate BSIZE 0) else replicate BSIZE 0.
Definition fs0 : fs disk := {| ic_lock := false; icache := replicate NINODE null_inode; ic_wakes := []; fblk := disk0 |}.

(** A process with the two sockets as descriptors 0 and 1; the arguments on
    its stack are 5000, where it has the string "/", and 0. *)
Definition state (k : kmem) : sys (fsys (nat -> proc) kmem disk unit) :=
  {| kern := machine_on fs0 k;
     cur := {| t_id := 0; t_killed := false; t_sz := 8192; t_esp := 4096; t_eax := 4; ofile := Some 0%nat :: Some 1%nat :: replicate 14 None; t_cwd := 0 |};
     umem := store (st32 (fun _ => 0) 4100 5000) 5000 1 (fun _ => SLASH) |}.

Lemma state_tidy : exists k F, tidy kalloc0 kfree0 F (fun _ => 0) (state k).
Proof.
  destruct (booted_on fs0) as (k & F & Hi & _). exists k, F. constructor; [|done|done]. eapply finv_ext; [..|exact Hi]; try done.
  intros j. unfold holders. destruct j as [|[|j]]; [done|done|]. rewrite decide_False by lia. done.
Qed.
Definition devsw0 : Z -> devops disk := fun _ => {| d_read := None; d_write := None |}.
Definition fin {S A} (o : outcome S A) : S := match o with Done _ s | Panicked _ s | Slept _ s => s end.
End SysWitness.
#[local] Existing Instances SysWitness.no_sock SysWitness.disk_ops SysWitness.disk_trans SockWitness.no_net SockWitness.pages0.


Lemma open_returns_a_file_witness : exists k F r s' name0,
  sys_open SockWitness.kfree0 SysWitness.devsw0 SockWitness.addr0 name0 (SysWitness.state k) = Done r s' /\
  tidy SockWitness.kalloc0 SockWitness.kfree0 F (fun _ => 0) s' /\ r = 2.
Proof.
  destruct SysWitness.state_tidy as (k & F & Ht). exists k, F.
  set (s1 := SysWitness.fin (open_inode SysWitness.devsw0 (replicate 14 0) 0 [SLASH] 0 (SysWitness.state k))).
  destruct (open_returns_a_file SockWitness.kalloc0 SockWitness.kfree0 SysWitness.devsw0 SockWitness.addr0 (replicate 14 0) F (fun _ => 0) (SysWitness.state k)
    [SLASH] 0 0 false s1 (SysWitness.fin (iunlockput 0 (inodes (kern s1)))) (SysWitness.fin (iunlock 0 (inodes (kern s1)))) Ht) as (r & s' & E & Ht' & Hr).
  - vm_compute. reflexivity.
  - vm_compute. reflexivity.
  - vm_compute. reflexivity.
  - vm_compute. reflexivity.
  - vm_compute. reflexivity.
  - exists r, s', (replicate 14 0). split; [exact E|]. split; [exact Ht'|].
    destruct Hr as [(_ & _ & _ & [Hn|Hn])|(fd & f & x & -> & Hfd & Hlow & _)].
    + destruct (Hn 2%nat). reflexivity.
    + vm_compute in Hn. discriminate.
    + destruct fd as [|[|[|fd]]]; [discriminate|discriminate|reflexivity|]. destruct (Hlow 2%nat); [lia|reflexivity].
Defined.
