(* ===== verification/SysRead.v ===== *)
(** * kernel/sysfile.c: reading a file into the memory of a process

    What [sys_read] stores where, for the sizes a program may pass. *)

From Stdlib Require Import ZArith Lia.
From S2P Require Import Prelude KString Spinlock Kalloc Proc Pipe Bytes Bio BlockLayer Log Fs FsFile Vm File FileSafe FileOps FileStream Syscall Sysfile.

Section reading.
Context {Q P B N : Type} `{SleepQueue Q} `{HL : BlockLaws B M} `{NetOps N}.
Context (devsw : Z -> devops B).

Abbreviation sys := (sys (fsys Q P B N)).
Implicit Types (s : sys) (f ip : nat) (x : file) (i : inode).

(** The file [f] is open for reading at the offset [off] of the inode [i],
    which nobody has locked, and whose blocks can be read. *)
Record reads s f x ip i : Prop := {
  rd_file : ftable (kern s) !! f = Some x;
  rd_type : f_type x = FD_INODE /\ f_readable x <> 0 /\ f_ip x = Some ip;
  rd_inode : icache (inodes (kern s)) !! ip = Some i;
  rd_free : ic_lock (inodes (kern s)) = false /\ i_busy i = false /\ i_valid i = true /\ 1 <= ref i;
  rd_plain : itype i <> T_DEV /\ i_dev i = ROOTDEV;
  rd_size : 0 <= f_off x <= isize i /\ isize i < 2 ^ 31;
  rd_blocks : bl_inv M (fblk (inodes (kern s))) /\ room (M := M) 2 (fblk (inodes (kern s)));
  rd_reach : forall o, 0 <= o < isize i -> reachable (M := M) (fblk (inodes (kern s))) i (o / 512);
}.
(** The bytes of the file. *)
Definition content s i (o : Z) : Z := fbyte (bl_view M (fblk (inodes (kern s)))) i o.

Abbreviation locked ip fs0 := (upd_inode ip (fun i => set_iflags true (i_valid i) i) fs0).

Lemma iat_lookup (fs0 : fs B) ip i : icache fs0 !! ip = Some i -> iat fs0 ip = i.
Proof. intros Hi. unfold iat. by rewrite nth_lookup, Hi. Qed.

Lemma ilock_free (fs0 : fs B) ip i : icache fs0 !! ip = Some i -> ic_lock fs0 = false -> i_busy i = false -> i_valid i = true -> 1 <= ref i ->
  ilock ip fs0 = Done tt (locked ip fs0).
Proof.
  intros Hi Hl Hb Hv Hr. unfold ilock, kbind at 1, kget at 1. rewrite (iat_lookup fs0 ip i Hi), (proj2 (Z.ltb_ge _ _)), Hb, Hv by lia.
  unfold acquire, release, kbind, kget, kput, kmodify. cbn [held set_held fs_locks]. rewrite Hl. cbn. unfold upd_inode. cbn. by rewrite Hl.
Qed.
Lemma iunlock_busy (fs0 : fs B) ip i : icache fs0 !! ip = Some i -> ic_lock fs0 = false -> i_busy i = true -> 1 <= ref i ->
  iunlock ip fs0 = Done tt (iwakeup ip (upd_inode ip (fun i => set_iflags false (i_valid i) i) fs0)).
Proof.
  intros Hi Hl Hb Hr. unfold iunlock, kbind at 1, kget at 1. rewrite (iat_lookup fs0 ip i Hi), Hb, (proj2 (Z.ltb_ge _ _)) by lia.
  unfold acquire, release, kbind, kget, kput, kmodify. cbn [held set_held fs_locks negb orb]. rewrite Hl. cbn. unfold upd_inode, iwakeup. cbn. by rewrite Hl.
Qed.

(** [fileread] on such a file. *)
Lemma fileread_reads s f x ip i t killed n : reads s f x ip i -> f_off x + u32 n < 2 ^ 32 ->
  let n' := Z.min (u32 n) (isize i - f_off x) in
  wp (fileread devsw t killed f n) (fun r k' => r = Return (n', content s i <$> seqZ (f_off x) n') /\
    f_off (fat k' f) = f_off x + n') (kern s).
Proof.
  intros [R1 (R2 & R3 & R4) R5 (R6 & R7 & R8 & R9) (R10 & R11) (R12 & R13) (R14 & R15) R16] Hn n'. pose proof (u32_range n) as Hu.
  unfold fileread. cbn [fileread_fuel]. kstep. kstep. rewrite (fat_lookup _ f x R1), (proj2 (Z.eqb_neq _ _) R3), R2. kstep.
  unfold ip_of. rewrite R4. kstep. kstep. unfold infs. kstep. set (fs0 := inodes (kern s)) in *.
  apply wp_done. eexists tt, _. split; [by apply (ilock_free fs0 ip i)|]. set (fs1 := locked ip fs0).
  assert (Hi1 : icache fs1 !! ip = Some (set_iflags true (i_valid i) i)) by (unfold fs1; cbn; by rewrite list_lookup_alter_eq, R5).
  do 2 kstep. cbn [inodes set_inodes]. pose proof (iat_lookup fs1 ip _ Hi1) as Ei. eapply wp_mono.
  { apply (wp_readi (M := M)); rewrite ?Ei; cbn [itype i_dev isize set_iflags]; try done; try lia.
    intros o Ho. destruct (R16 o) as [K1 K2 K3]; [lia|]. by constructor. }
  intros r fs2 (-> & b & -> & Hb). rewrite Ei. cbn [fst isize set_iflags]. fold n'. kstep.
  assert (Hun : forall k' : fsys Q P B N, inodes k' = set_fblk b fs1 -> exists fs3, iunlock ip (inodes k') = Done tt fs3).
  { intros k' ->. eexists. by apply (iunlock_busy (set_fblk b fs1) ip _ Hi1). }
  set (k2 := set_inodes _ _). assert (Hf2 : fat k2 f = x) by (by apply fat_lookup).
  assert (Hc : fbytes (bl_view M (fblk fs1)) (set_iflags true (i_valid i) i) (f_off x) n' = content s i <$> seqZ (f_off x) n') by done. rewrite Hc.
  unfold upd_file. destruct (Z.ltb_spec 0 n'); do 3 kstep.
  - apply wp_done. destruct (Hun (set_ftable (alter (set_off (f_off x +u n')) f (ftable k2)) k2)) as [fs3 E3]; [done|].
    exists tt, fs3. split; [exact E3|]. kstep. split; [done|].
    erewrite (fat_lookup _ f (set_off (f_off x +u n') x)); [cbn [f_off set_off]; apply u32_small; lia|].
    cbn. by rewrite list_lookup_alter_eq, R1.
  - apply wp_done. destruct (Hun k2) as [fs3 E3]; [done|]. exists tt, fs3. split; [exact E3|]. kstep. split; [done|].
    change (f_off (fat k2 f) = f_off x + n'). rewrite Hf2. lia.
Qed.

(** [sys_read] with arguments that are accepted. *)
Lemma sys_read_stores s fd f x ip i n p : argfd s 0 = Some (fd, f) -> argint (cur s) (umem s) 2 = Some n -> argptr (cur s) (umem s) 1 n = Some p ->
  reads s f x ip i -> f_off x + u32 n < 2 ^ 32 ->
  let n' := Z.min (u32 n) (isize i - f_off x) in
  wp (sys_read devsw) (fun r s' => r = Return n' /\ (forall a, umem s' a = store (umem s) p n' (fun k => content s i (f_off x + k)) a) /\
    f_off (fat (kern s') f) = f_off x + n' /\ cur s' = cur s) s.
Proof.
  intros Hf Hn Hp Hr Hw n'. unfold sys_read, arg_buffer. kstep. kstep. rewrite Hf, Hn, Hp. unfold read_into, inkern. do 4 kstep.
  eapply wp_mono; [by apply (fileread_reads s f x ip i)|]. intros r k' (-> & Ho). fold n' in Ho |- *.
  assert (Hn0 : 0 <= n') by (pose proof (u32_range n); pose proof (rd_size _ _ _ _ _ Hr); lia).
  unfold upd_umem. ksteps. split_and!; try done. intros a. cbn [umem]. unfold store. rewrite length_fmap, length_seqZ, Z2Nat.id by done.
  destruct (Z.leb_spec p a); [|done]. destruct (Z.ltb_spec a (p + n')); [|done]. cbn [andb].
  erewrite nth_lookup, list_lookup_fmap, lookup_seqZ_lt by lia. cbn. f_equal. lia.
Qed.
Lemma argint_range p m n v : argint p m n = Some v -> - 2 ^ 31 <= v < 2 ^ 31.
Proof. unfold argint, fetchint. case_match; [done|]. intros [= <-]. unfold s32. pose proof (u32_range (ld32 m (u32 (t_esp p + 4 + 4 * n)))). zcases; lia. Qed.

(** C33. [read] on a file with a size that is not negative: it returns the
    number of bytes left in the file, at most the size, stores these bytes of
    the file at the buffer and nothing anywhere else, stays inside the
    process, and advances the offset of the file. *)
Theorem sys_read_reads_the_file s fd f x ip i n p : 0 <= t_sz (cur s) < 2 ^ 31 ->
  argfd s 0 = Some (fd, f) -> argint (cur s) (umem s) 2 = Some n -> 0 <= n -> argptr (cur s) (umem s) 1 n = Some p -> reads s f x ip i ->
  let n' := Z.min n (isize i - f_off x) in
  wp (sys_read devsw) (fun r s' => r = Return n' /\ 0 <= p /\ p + n' <= t_sz (cur s) /\
    (forall a, umem s' a = if (p <=? a) && (a <? p + n') then content s i (f_off x + (a - p)) else umem s a) /\
    f_off (fat (kern s') f) = f_off x + n' /\ cur s' = cur s) s.
Proof.
  intros Hz Hf Hn Hn0 Hp Hr n'. pose proof (argint_range _ _ _ _ Hn) as Hnr. assert (Hu : u32 n = n) by (apply u32_small; lia).
  pose proof (rd_size _ _ _ _ _ Hr) as [Ho Hs]. eapply wp_mono; [apply (sys_read_stores s fd f x ip i n p Hf Hn Hp Hr); lia|].
  rewrite Hu. fold n'. intros r s' (-> & Hm & Ho' & Hc). unfold argptr in Hp. destruct (argint (cur s) (umem s) 1) as [v|] eqn:Hv; [|done].
  pose proof (argptr_spec (cur s) (umem s) Hz 1 n v Hv ltac:(lia)) as E. unfold argptr in E. rewrite Hv in E. rewrite Hp in E.
  destruct ((u32 v <? t_sz (cur s)) && (0 <=? u32 v + n) && (u32 v + n <=? t_sz (cur s))) eqn:Hb; [|done]. injection E as ->.
  rewrite !andb_true_iff, Z.ltb_lt, !Z.leb_le in Hb. pose proof (u32_range v). split_and!; try done; lia.
Qed.

End reading.

(** ** Witnesses *)

Module ReadWitness.
Import SockWitness.
(** The file of FileWitness, open at its start by a process of two pages; the
    arguments on its stack are the descriptor 0, [buf] and [n]. *)
Definition open0 : file :=
  {| f_type := FD_INODE; f_ref := 1; f_readable := 1; f_writable := 0; f_pipe := 0; f_ip := Some 0%nat; f_off := 0;
     usock_state := 0; usock_lid := -1; usock_rx := None; usock_tx := None; tcp_slot := -1; tcp_listen := 0; udp_slot := -1 |}.
Definition reader (b : blk) (buf n : Z) : sys (fsys (nat -> proc) unit blk unit) :=
  {| kern := {| ftable_lock := false; ftable := [open0];
       pipes := fun _ => {| p_lock := false; data := []; nread := 0; nwrite := 0; readopen := false; writeopen := false |};
       pool := tt; sleepers := fun _ => null_proc; usock_lock := false; listeners := []; inodes := FileWitness.st b; net := tt |};
     cur := {| t_id := 0; t_killed := false; t_sz := 8192; t_esp := 4096; t_eax := 5; ofile := Some 0%nat :: replicate 15 None; t_cwd := 0 |};
     umem := st32 (st32 (st32 (fun _ => 0) 4100 0) 4104 buf) 4108 n |}.

Lemma reads_node b buf n : FsWitness.boot_state FileWitness.blocks b -> reads (M := log_model) (reader b buf n) 0 open0 0 FileWitness.node.
Proof.
  intros Hb. constructor; [done|done|done|done|done|by split; [split|]|split|].
  - apply Hb.
  - exact (proj1 (FsWitness.boot_room FileWitness.blocks 2 b Hb ltac:(lia))).
  - intros o Ho. change (isize FileWitness.node) with 6000 in Ho. apply FileWitness.node_reachable; [done|]. apply FileWitness.path_ok_small. dlia.
Qed.
Lemma content_40 b buf n k : FsWitness.boot_state FileWitness.blocks b -> 0 <= k < 512 -> content (M := log_model) (reader b buf n) FileWitness.node k = 40.
Proof.
  intros Hb Hk. unfold content. cbn [kern reader inodes fblk FileWitness.st bl_view log_model].
  rewrite FileWitness.view_byte; [|done|apply FileWitness.path_ok_small; dlia].
  unfold fbyte. replace (k / 512) with 0 by dlia. rewrite Z.mod_small by lia.
  change (baddr FileWitness.D FileWitness.node 0) with 40. cbn [Z.eqb]. change (FileWitness.D 40) with (replicate BSIZE 40).
  rewrite nth_lookup, lookup_replicate_2; [done|]. change BSIZE with 512%nat. lia.
Qed.
End ReadWitness.
#[local] Existing Instance SockWitness.no_net.

Lemma sys_read_reads_the_file_witness :
  wp (sys_read FileWitness.devsw) (fun r s' => r = Return 100 /\ umem s' 5000 = 40 /\ umem s' 5100 = 0 /\ f_off (fat (kern s') 0) = 100)
    (ReadWitness.reader FileWitness.b0 5000 100).
Proof.
  pose proof FileWitness.b0_ok as Hb. set (b := FileWitness.b0) in *. clearbody b.
  eapply wp_mono; [apply (sys_read_reads_the_file (M := log_model) FileWitness.devsw (ReadWitness.reader b 5000 100) 0 0 ReadWitness.open0 0 FileWitness.node 100 5000)|].
  - split; done.
  - reflexivity.
  - reflexivity.
  - lia.
  - reflexivity.
  - by apply ReadWitness.reads_node.
  - intros r s' (-> & _ & _ & Hm & Ho & _). split; [done|]. rewrite !Hm. split; [|split; [done|done]].
    by apply (ReadWitness.content_40 b 5000 100 0).
Defined.

