(* ===== verification/SysText.v ===== *)
(** * kernel/sysfile.c: addresses and paths as text

    [parse_ipv4_port] reads back what is printed, and [sys_getcwd] composes a
    path that names the directories it walked. *)

From Stdlib Require Import ZArith Lia.
From S2P Require Import Prelude KString Spinlock Bytes Bio BlockLayer Log Fs FsFile FsPath File Syscall Sysfile.

(** ** IPv4 addresses *)

(** The decimal digits of a number below [10 ^ (fuel + 1)]. *)
Fixpoint dec (fuel : nat) (n : Z) : list Z :=
  match fuel with
  | O => [48 + n]
  | S f => if n <? 10 then [48 + n] else dec f (n / 10) ++ [48 + n mod 10]
  end.
Definition print_ip (a b c d : Z) : list Z := dec 2 a ++ 46 :: dec 2 b ++ 46 :: dec 2 c ++ 46 :: dec 2 d.
(** A character that ends a number. *)
Definition ends_number (s : list Z) : Prop := is_digit (deref s) = false.

Lemma digit_step max n v nd r : 0 <= n < 10 -> v * 10 + n <= max -> digits max ((48 + n) :: r) v nd = digits max r (v * 10 + n) (nd + 1).
Proof.
  intros Hn Hv. cbn [digits]. unfold is_digit. rewrite !(proj2 (Z.leb_le _ _)) by lia. cbn [andb].
  replace (48 + n - 48) with n by lia. by rewrite (proj2 (Z.ltb_ge _ _)) by lia.
Qed.
Lemma digits_dec max fuel : forall n nd r, 0 <= n < 10 ^ Z.of_nat (S fuel) -> n <= max -> 0 <= nd ->
  exists nd', 0 < nd' /\ digits max (dec fuel n ++ r) 0 nd = digits max r n nd'.
Proof.
  induction fuel as [|fuel IH]; intros n nd r Hn Hm Hnd; cbn [dec].
  - exists (nd + 1). split; [lia|]. cbn [app]. rewrite digit_step by lia. f_equal.
  - destruct (Z.ltb_spec n 10).
    + exists (nd + 1). split; [lia|]. cbn [app]. rewrite digit_step by lia. f_equal.
    + rewrite Nat2Z.inj_succ, Z.pow_succ_r in Hn by lia.
      destruct (IH (n / 10) nd ((48 + n mod 10) :: r)) as (nd' & Hp & E); [split; [dlia|apply Z.div_lt_upper_bound; lia]|dlia|done|].
      exists (nd' + 1). split; [lia|]. rewrite <- app_assoc. cbn [app]. rewrite E, digit_step by dlia. f_equal. dlia.
Qed.
Lemma digits_end max v nd s : ends_number s -> digits max s v nd = Some (v, nd, s).
Proof. unfold ends_number. destruct s as [|c r]; [done|]. cbn [digits deref nth]. by intros ->. Qed.
Lemma digits_number max fuel n s : 0 <= n < 10 ^ Z.of_nat (S fuel) -> n <= max -> ends_number s ->
  exists nd, 0 < nd /\ digits max (dec fuel n ++ s) 0 0 = Some (n, nd, s).
Proof. intros Hn Hm Hs. destruct (digits_dec max fuel n 0 s Hn Hm) as (nd & Hp & ->); [lia|]. exists nd. by rewrite digits_end. Qed.

Lemma octets_last n s : 0 <= n < 256 -> ends_number s -> octets 1 (dec 2 n ++ s) = Some ([n], s).
Proof.
  intros Hn Hs. cbn [octets]. destruct (digits_number 255 2 n s) as (nd & Hp & ->); [change (10 ^ Z.of_nat 3) with 1000; lia|lia|done|].
  rewrite (proj2 (Z.eqb_neq _ _)) by lia. unfold u8. by rewrite Z.mod_small by lia.
Qed.
Lemma octets_next k n r : 0 <= n < 256 -> octets (S (S k)) (dec 2 n ++ 46 :: r) =
  match octets (S k) r with None => None | Some (ip, s) => Some (n :: ip, s) end.
Proof.
  intros Hn. change (octets (S (S k)) (dec 2 n ++ 46 :: r)) with
    (match digits 255 (dec 2 n ++ 46 :: r) 0 0 with
     | None => None
     | Some (v, ndig, s) => if ndig =? 0 then None else if negb (deref s =? 46) then None
         else match octets (S k) (drop 1 s) with None => None | Some (ip, s) => Some (u8 v :: ip, s) end
     end).
  destruct (digits_number 255 2 n (46 :: r)) as (nd & Hp & ->); [change (10 ^ Z.of_nat 3) with 1000; lia|lia|done|].
  rewrite (proj2 (Z.eqb_neq _ _)) by lia. unfold u8. rewrite Z.mod_small by lia. cbn [deref nth Z.eqb Pos.eqb negb]. by rewrite skipn_cons, drop_0.
Qed.
Lemma octets_print a b c d s : 0 <= a < 256 -> 0 <= b < 256 -> 0 <= c < 256 -> 0 <= d < 256 -> ends_number s ->
  octets 4 (print_ip a b c d ++ s) = Some ([a; b; c; d], s).
Proof.
  intros Ha Hb Hc Hd Hs. unfold print_ip. repeat (rewrite <- app_assoc; cbn [app]).
  rewrite !octets_next, octets_last by done. done.
Qed.

Lemma digits_bound max s : forall v nd v' nd' s', 0 <= v <= max -> digits max s v nd = Some (v', nd', s') -> 0 <= v' <= max.
Proof.
  induction s as [|c r IH]; intros v nd v' nd' s' Hv; cbn [digits]; [by intros [= <- <- <-]|].
  destruct (is_digit c) eqn:Hd; [|by intros [= <- <- <-]]. unfold is_digit in Hd. rewrite andb_true_iff, !Z.leb_le in Hd.
  destruct (Z.ltb_spec max (v * 10 + (c - 48))); [done|]. apply IH. lia.
Qed.
Lemma octets_bound n : forall s ip s', octets n s = Some (ip, s') -> length ip = n /\ Forall (fun x => 0 <= x < 256) ip.
Proof.
  induction n as [|n IH]; intros s ip s'; cbn [octets]; [by intros [= <- <-]|].
  destruct (digits 255 s 0 0) as [[[v nd] s1]|] eqn:E; [|done]. apply digits_bound in E; [|lia]. destruct (nd =? 0); [done|].
  assert (Hv : 0 <= u8 v < 256) by (unfold u8; apply Z.mod_pos_bound; lia). destruct n as [|n]; [intros [= <- <-]; by rewrite Forall_singleton|].
  destruct (negb _); [done|]. destruct (octets (S n) (drop 1 s1)) as [[ip' s2]|] eqn:E'; [|done]. intros [= <- <-].
  destruct (IH _ _ _ E') as [Hl Hf]. split; [cbn [length]; lia|by constructor].
Qed.

(** [parse_ipv4_port] reads back a printed address: with a port it
    returns that port, whatever follows the port's digits, and without one
    port 23; a printed address followed by another character is refused; and
    all it ever returns is four bytes and a 16-bit port. *)
Theorem parse_ipv4_port_roundtrip :
  (forall a b c d port rest, 0 <= a < 256 -> 0 <= b < 256 -> 0 <= c < 256 -> 0 <= d < 256 -> 0 <= port < 65536 -> ends_number rest ->
     parse_ipv4_port (print_ip a b c d) = Some ([a; b; c; d], 23) /\
     parse_ipv4_port (print_ip a b c d ++ 58 :: dec 4 port ++ rest) = Some ([a; b; c; d], port) /\
     (deref rest <> 0 -> deref rest <> 58 -> parse_ipv4_port (print_ip a b c d ++ rest) = None)) /\
  (forall s ip port, parse_ipv4_port s = Some (ip, port) -> length ip = 4%nat /\ Forall (fun x => 0 <= x < 256) ip /\ 0 <= port < 65536).
Proof.
  split.
  - intros a b c d port rest Ha Hb Hc Hd Hp Hr. unfold parse_ipv4_port. split_and!.
    + by rewrite <- (app_nil_r (print_ip a b c d)), octets_print.
    + rewrite octets_print by done. cbn [deref nth Z.eqb Pos.eqb]. rewrite skipn_cons, drop_0.
      destruct (digits_number 65535 4 port rest) as (nd & Hnd & ->); [change (10 ^ Z.of_nat 5) with 100000; lia|lia|done|].
      by rewrite (proj2 (Z.eqb_neq _ _)) by lia.
    + intros H0 H58. rewrite octets_print by done. by rewrite !(proj2 (Z.eqb_neq _ _)).
  - intros s ip port. unfold parse_ipv4_port. destruct (octets 4 s) as [[ip' p]|] eqn:E; [|done]. apply octets_bound in E as [Hl Hf].
    destruct (deref p =? 58).
    + destruct (digits 65535 (drop 1 p) 0 0) as [[[v nd] s1]|] eqn:E; [|done]. apply digits_bound in E; [|lia]. destruct (nd =? 0); [done|].
      intros [= <- <-]. split_and!; [done|done|lia|lia].
    + destruct (negb _); [done|]. intros [= <- <-]. split_and!; [done|done|lia|lia].
Qed.

(** ** getcwd *)

(** A name an entry of a directory can have. *)
Definition good_name (w : list Z) : Prop := w <> [] /\ (length w <= DIRSIZ)%nat /\ nonul w /\ Forall (fun c => c <> SLASH) w.
(** The component [getcwd] keeps of the entry [dirlink] writes for [w]. *)
Definition comp_of (w : list Z) : list Z := safestrcpy_bytes (of_bytes (strncpy_bytes (of_bytes w) DIRSIZ ++ [0])) (S DIRSIZ).
(** The path with the names [ws]. *)
Definition path_of (ws : list (list Z)) : list Z := concat ((fun w => SLASH :: w) <$> ws).

Lemma comp_of_name w : good_name w -> comp_of w = w ++ [0].
Proof.
  intros (_ & Hl & Hz & _). unfold comp_of, safestrcpy_bytes, strncpy_bytes. f_equal. rewrite (ctake_nonul w), (take_ge w) by done.
  rewrite <- app_assoc. change (S DIRSIZ - 1)%nat with DIRSIZ. destruct (DIRSIZ - length w)%nat as [|n]; cbn [replicate app]; rewrite ctake_nul by done; by apply take_ge.
Qed.

Lemma put_comp_spec w : forall n kbuf, nonul w -> (length w <= n)%nat -> (length kbuf <= KBUF - 1)%nat ->
  put_comp n kbuf (w ++ [0]) = if (length (kbuf ++ w) <=? KBUF - 1)%nat then Some (kbuf ++ w) else None.
Proof.
  induction w as [|c w IH]; intros n kbuf Hz Hl Hk.
  - rewrite app_nil_r, (proj2 (Nat.leb_le _ _)) by done. by destruct n.
  - destruct n as [|n]; [cbn [length] in Hl; lia|]. apply Forall_cons in Hz as [Hc Hz]. cbn [put_comp app deref nth].
    rewrite (proj2 (Z.eqb_neq c 0)) by done. unfold put_char. rewrite skipn_cons, drop_0.
    destruct (Nat.leb_spec (KBUF - 1) (length kbuf)).
    + rewrite (proj2 (Nat.leb_gt _ _)); [done|]. rewrite length_app. cbn [length]. lia.
    + rewrite IH, <- app_assoc; [done|done|cbn [length] in Hl; lia|]. rewrite length_app. cbn [length]. lia.
Qed.
Lemma put_comps_spec ws : forall kbuf, Forall good_name ws -> (length kbuf <= KBUF - 1)%nat ->
  put_comps kbuf (comp_of <$> ws) = if (length (kbuf ++ path_of ws) <=? KBUF - 1)%nat then Some (kbuf ++ path_of ws) else None.
Proof.
  induction ws as [|w ws IH]; intros kbuf Hw Hk; cbn [fmap list_fmap put_comps].
  - unfold path_of. cbn [fmap list_fmap concat]. by rewrite app_nil_r, (proj2 (Nat.leb_le _ _)).
  - apply Forall_cons in Hw as [Hw Hws]. unfold put_char. change (path_of (w :: ws)) with ((SLASH :: w) ++ path_of ws).
    rewrite app_assoc. set (k2 := kbuf ++ SLASH :: w). assert (El : length k2 = (length kbuf + S (length w))%nat) by (unfold k2; by rewrite length_app).
    destruct (Nat.leb_spec (KBUF - 1) (length kbuf)); [rewrite (proj2 (Nat.leb_gt _ _)); [done|rewrite length_app; lia]|].
    rewrite (comp_of_name w Hw), put_comp_spec, <- app_assoc; [|apply Hw|apply Hw|rewrite length_app; cbn [length]; lia]. change (kbuf ++ [SLASH] ++ w) with k2.
    destruct (Nat.leb_spec (length k2) (KBUF - 1)); [by apply IH|]. rewrite (proj2 (Nat.leb_gt _ _)); [done|rewrite length_app; lia].
Qed.

Lemma split_name w r : Forall (fun c => c <> SLASH) w -> exists u us, split_slash r = u :: us /\ split_slash (w ++ r) = (w ++ u) :: us.
Proof.
  induction w as [|c w IH]; intros Hw; cbn [app].
  - destruct (split_slash r) as [|u us] eqn:E; [|eauto]. destruct r as [|x r]; [done|]. cbn [split_slash] in E. repeat case_match; done.
  - apply Forall_cons in Hw as [Hc Hw]. destruct (IH Hw) as (u & us & E1 & E2). exists u, us. split; [done|].
    destruct (split_cons c (w ++ r) Hc) as (w' & ws' & E3 & ->). rewrite E2 in E3. by injection E3 as <- <-.
Qed.
Lemma elems_path ws : Forall good_name ws -> elems (path_of ws) = ws.
Proof.
  induction ws as [|w ws IH]; intros Hw; [done|]. apply Forall_cons in Hw as [(Hne & _ & _ & Hs) Hws].
  change (path_of (w :: ws)) with (SLASH :: w ++ path_of ws). rewrite elems_slash. destruct (split_name w (path_of ws) Hs) as (u & us & E1 & E2).
  assert (u = []) as ->.
  { destruct ws as [|w' ws]; [by injection E1 as <- _|]. change (path_of (w' :: ws)) with (SLASH :: w' ++ path_of ws) in E1.
    cbn [split_slash] in E1. rewrite Z.eqb_refl in E1. by injection E1 as <- _. }
  specialize (IH Hws). unfold elems in *. rewrite E2, app_nil_r, filter_cons_True by done. f_equal.
  rewrite E1, filter_cons_False in IH by (intros H; by apply H). exact IH.
Qed.

(** The string [getcwd] stores for the names of the directories it walked
    up through is the path of these names from the root, which [namex] splits
    into the same names.  It is stored with its NUL if it fits into the
    kernel's buffer of 512 bytes and into the user's, and otherwise nothing
    is. *)
Theorem getcwd_names_the_directory names size : Forall good_name names ->
  let path := if bool_decide (names = []) then [SLASH] else path_of (rev names) in
  elems path = rev names /\
  cwd_string (comp_of <$> names) size =
    if (length path <? KBUF)%nat && (Z.of_nat (length path) + 1 <=? size) then Some (path ++ [0]) else None.
Proof.
  intros Hn path. unfold cwd_string, path. destruct names as [|w ws]; [rewrite bool_decide_eq_true_2 by done|rewrite bool_decide_eq_false_2 by done].
  - split; [done|]. cbn [fmap list_fmap length Nat.eqb app]. destruct (Z.ltb_spec size 2), (Z.leb_spec (Z.of_nat 1 + 1) size); done || lia.
  - assert (Hr : Forall good_name (rev (w :: ws))) by (apply Forall_forall; intros y Hy%list_elem_of_In%in_rev; rewrite Forall_forall in Hn; by apply Hn, list_elem_of_In).
    split; [by apply elems_path|]. rewrite length_fmap. cbn [length Nat.eqb].
    change (rev (comp_of <$> w :: ws)) with (rev (map comp_of (w :: ws))). rewrite <- map_rev.
    change (map comp_of (rev (w :: ws))) with (comp_of <$> rev (w :: ws)). rewrite put_comps_spec by (done || cbn; lia). cbn [app]. set (p := path_of (rev (w :: ws))).
    destruct (Nat.leb_spec (length p) (KBUF - 1)), (Nat.ltb_spec (length p) KBUF); try (unfold KBUF in *; lia); cbn [andb]; [|done].
    destruct (Z.ltb_spec size (Z.of_nat (length p) + 1)), (Z.leb_spec (Z.of_nat (length p) + 1) size); done || lia.
Qed.

(** ** Witnesses *)

Lemma parse_ipv4_port_roundtrip_witness :
  parse_ipv4_port (print_ip 10 0 2 255) = Some ([10; 0; 2; 255], 23) /\
  parse_ipv4_port (print_ip 10 0 2 255 ++ 58 :: dec 4 8080 ++ [120]) = Some ([10; 0; 2; 255], 8080) /\
  parse_ipv4_port (print_ip 10 0 2 255 ++ [120]) = None.
Proof.
  destruct (proj1 parse_ipv4_port_roundtrip 10 0 2 255 8080 [120]) as (H1 & H2 & H3); [lia..|reflexivity|].
  split; [exact H1|]. split; [exact H2|]. apply H3; discriminate.
Defined.

(** The directory /bin/x. *)
Lemma getcwd_names_the_directory_witness :
  elems [47; 98; 105; 110; 47; 120] = [[98; 105; 110]; [120]] /\
  cwd_string (comp_of <$> [[120]; [98; 105; 110]]) 7 = Some [47; 98; 105; 110; 47; 120; 0] /\
  cwd_string (comp_of <$> [[120]; [98; 105; 110]]) 6 = None.
Proof.
  assert (Hg : Forall good_name [[120]; [98; 105; 110]]).
  { repeat constructor; try discriminate; cbn; lia. }
  destruct (getcwd_names_the_directory [[120]; [98; 105; 110]] 7 Hg) as [H1 H2].
  destruct (getcwd_names_the_directory [[120]; [98; 105; 110]] 6 Hg) as [_ H3].
  split; [exact H1|]. split; [rewrite H2; reflexivity|rewrite H3; reflexivity].
Defined.
