(* ===== verification/NetUtil.v ===== *)
(** * kernel/microps: util.c, microps_time.c, sched_sirpair.c and the time macros

    What the protocols share: byte order, the Internet checksum, queues, the
    clock and the wait contexts.  The main result is [cksum16_verifies]: a
    message whose checksum field holds the checksum computed over the rest is
    accepted by the receiver's test. *)

From Stdlib Require Import ZArith Lia.
From S2P Require Import Prelude Bytes.

(** ** Byte order *)

Definition byteswap16 (v : Z) : Z :=
  u16 (Z.lor (Z.shiftl (Z.land v 0x00ff) 8) (Z.shiftr (Z.land v 0xff00) 8)).
Definition byteswap32 (v : Z) : Z :=
  u32 (Z.lor (Z.lor (Z.lor (u32 (Z.shiftl (Z.land v 0x000000ff) 24)) (Z.shiftl (Z.land v 0x0000ff00) 8))
    (Z.shiftr (Z.land v 0x00ff0000) 8)) (Z.shiftr (Z.land v 0xff000000) 24)).

Definition BIG_ENDIAN : Z := 4321.
Definition LITTLE_ENDIAN : Z := 1234.
(** The first byte of the [uint32_t] 1 in memory (an x86 stores the low byte first). *)
Definition byteorder : Z := if nth 0 (le_enc 4 0x00000001) 0 =? 0 then BIG_ENDIAN else LITTLE_ENDIAN.

(** The variable [endian] only caches [byteorder()]. *)
Definition hton16 (h : Z) : Z := if byteorder =? LITTLE_ENDIAN then byteswap16 h else h.
Definition ntoh16 (n : Z) : Z := if byteorder =? LITTLE_ENDIAN then byteswap16 n else n.
Definition hton32 (h : Z) : Z := if byteorder =? LITTLE_ENDIAN then byteswap32 h else h.
Definition ntoh32 (n : Z) : Z := if byteorder =? LITTLE_ENDIAN then byteswap32 n else n.

(** ** The Internet checksum *)

(** The loop over 16-bit words (low byte first) and the odd byte. *)
Fixpoint cksum_loop (addr : list Z) (count sum : Z) : Z :=
  match addr with
  | lo :: hi :: rest =>
      if 1 <? count then cksum_loop rest (count - 2) (sum +u (lo + 256 * hi))
      else if 0 <? count then sum +u lo else sum
  | [b] => if 0 <? count then sum +u b else sum
  | [] => sum
  end.
(** [while(sum >> 16) sum = (sum & 0xffff) + (sum >> 16)]. *)
Fixpoint cksum_fold (fuel : nat) (sum : Z) : Z :=
  if Z.shiftr sum 16 =? 0 then sum
  else match fuel with
       | O => sum
       | S f => cksum_fold f (Z.land sum 0xffff +u Z.shiftr sum 16)
       end.
Definition cksum16 (addr : list Z) (count init : Z) : Z :=
  u16 (Z.lnot (u16 (cksum_fold 2 (cksum_loop addr (u16 count) init)))).
(** [cksum16] on a buffer of which [addr] is what the caller was given: a
    count beyond it reads out of bounds. *)
Definition kcksum16 {S} (addr : list Z) (count init : Z) : K S Z :=
  if u16 count <=? Z.of_nat (length addr) then kret (cksum16 addr count init)
  else ub "cksum16: read past the packet".

(** ** Queues

    A singly linked list with its tail pointer is a list; [num] counts it.
    The argument [mem] of [queue_push] is the result of [memory_alloc] for the
    list cell. *)

Record queue_head (A : Type) := { entries : list A; num : Z }.
Arguments entries {A}. Arguments num {A}.
Definition queue_init {A} : queue_head A := {| entries := []; num := 0 |}.
Definition queue_push {A} (mem : bool) (q : queue_head A) (data : A) : option (queue_head A) :=
  if mem then Some {| entries := entries q ++ [data]; num := num q +u 1 |} else None.
Definition queue_pop {A} (q : queue_head A) : option (A * queue_head A) :=
  match entries q with
  | [] => None
  | d :: l => Some (d, {| entries := l; num := num q -u 1 |})
  end.
Definition queue_peek {A} (q : queue_head A) : option A := head (entries q).
(** The function is called on every entry, which it may change in place. *)
Fixpoint foreach {S A} (func : A -> K S A) (l : list A) : K S (list A) :=
  match l with
  | [] => kret []
  | d :: l' => d' <- func d ;; r <- foreach func l' ;; kret (d' :: r)
  end.

(** ** Time *)

Definition HZ : Z := 100.
Record timeval := { tv_sec : Z; tv_usec : Z }.
Definition timersub (a b : timeval) : timeval :=
  let sec := tv_sec a - tv_sec b in
  let usec := tv_usec a - tv_usec b in
  if usec <? 0 then {| tv_sec := sec - 1; tv_usec := usec + 1000000 |} else {| tv_sec := sec; tv_usec := usec |}.
Definition timerclear : timeval := {| tv_sec := 0; tv_usec := 0 |}.
Definition timeval_add_usec (x : timeval) (y : Z) : timeval :=
  let sec := tv_sec x + y / 1000000 in
  let usec := tv_usec x + y mod 1000000 in
  if 1000000 <=? usec then {| tv_sec := sec + 1; tv_usec := usec - 1000000 |} else {| tv_sec := sec; tv_usec := usec |}.
(** [timercmp(a, b, >)]. *)
Definition timercmp_gt (a b : timeval) : bool :=
  if tv_sec a =? tv_sec b then tv_usec b <? tv_usec a else tv_sec b <? tv_sec a.
Definition timercmp_lt (a b : timeval) : bool := timercmp_gt b a.

Definition gettimeofday (ticks : Z) : timeval :=
  {| tv_sec := ticks / HZ; tv_usec := ticks mod HZ * (1000000 / HZ) |}.
Definition microps_random (ticks : Z) : Z :=
  let t := Z.lxor ticks (u32 (Z.shiftl ticks 13)) in
  let t := Z.lxor t (Z.shiftr t 17) in
  let t := Z.lxor t (u32 (Z.shiftl t 5)) in
  if t =? 0 then 0x12345678 else t.

(** ** Wait contexts *)

Record sched_ctx := { interrupted : Z; wc : Z }.
Definition sched_ctx_init : sched_ctx := {| interrupted := 0; wc := 0 |}.
(** [sched_sleep] up to its call of [sleep] ([None]: it fails with EINTR) and
    from the return of [sleep]; [killed] is [proc && proc->killed]. *)
Definition sched_sleep_enter (killed : bool) (c : sched_ctx) : option sched_ctx :=
  if killed then None
  else if negb (interrupted c =? 0) then None
  else Some {| interrupted := interrupted c; wc := wc c + 1 |}.
Definition sched_sleep_leave (killed : bool) (c : sched_ctx) : bool * sched_ctx :=
  let c := {| interrupted := interrupted c; wc := wc c - 1 |} in
  if killed then (false, c)
  else if negb (interrupted c =? 0) then
    (false, if wc c =? 0 then {| interrupted := 0; wc := wc c |} else c)
  else (true, c).
(** [sched_interrupt], the wakeup aside. *)
Definition sched_interrupt_ctx (c : sched_ctx) : sched_ctx := {| interrupted := 1; wc := wc c |}.

(** ** Lemmas *)

(** Enumerate a bounded integer. *)
Ltac each_bit i n :=
  let rec go k := lazymatch k with
    | O => exfalso; lia
    | S ?k' => let z := eval compute in (Z.of_nat k') in destruct (Z.eq_dec i z) as [->|]; [|go k']
    end in go n.

Lemma u16_range x : 0 <= u16 x < 2 ^ 16.
Proof. apply Z.mod_pos_bound. lia. Qed.
Lemma u16_small x : 0 <= x < 2 ^ 16 -> u16 x = x.
Proof. apply Z.mod_small. Qed.

(** A word of [w] bits is determined by its bits below [w]. *)
Lemma word_ext w x y : 0 <= w -> 0 <= x < 2 ^ w -> 0 <= y < 2 ^ w ->
  (forall i, 0 <= i < w -> Z.testbit x i = Z.testbit y i) -> x = y.
Proof.
  intros Hw Hx Hy Hb. apply Z.bits_inj'. intros i Hi. destruct (decide (i < w)) as [|Hge]; [by apply Hb|].
  rewrite <- (Z.mod_small x (2 ^ w)), <- (Z.mod_small y (2 ^ w)) by done. by rewrite !Z.mod_pow2_bits_high by lia.
Qed.

Lemma byteswap16_range v : 0 <= byteswap16 v < 2 ^ 16.
Proof. apply u16_range. Qed.
Lemma byteswap32_range v : 0 <= byteswap32 v < 2 ^ 32.
Proof. apply u32_range. Qed.

Lemma byteswap16_bits v i : 0 <= i < 16 ->
  Z.testbit (byteswap16 v) i = Z.testbit v (8 * (1 - i / 8) + i mod 8).
Proof.
  intros Hi. unfold byteswap16, u16. rewrite Z.mod_pow2_bits_low, Z.lor_spec, Z.shiftl_spec, Z.shiftr_spec, !Z.land_spec by lia.
  each_bit i 16%nat; simpl; rewrite ?andb_false_r, ?andb_true_r, ?orb_false_r, ?Z.testbit_neg_r by lia; done.
Qed.
Lemma byteswap32_bits v i : 0 <= i < 32 ->
  Z.testbit (byteswap32 v) i = Z.testbit v (8 * (3 - i / 8) + i mod 8).
Proof.
  intros Hi. unfold byteswap32, u32. rewrite Z.mod_pow2_bits_low, !Z.lor_spec, Z.mod_pow2_bits_low, !Z.shiftl_spec, !Z.shiftr_spec, !Z.land_spec by lia.
  each_bit i 32%nat; simpl; rewrite ?andb_false_r, ?andb_true_r, ?orb_false_r, ?Z.testbit_neg_r by lia; done.
Qed.

Lemma byteswap16_involutive v : 0 <= v < 2 ^ 16 -> byteswap16 (byteswap16 v) = v.
Proof.
  intros Hv. apply (word_ext 16); [lia|apply byteswap16_range|done|]. intros i Hi.
  rewrite !byteswap16_bits by dlia. each_bit i 16%nat; done.
Qed.
Lemma byteswap32_involutive v : 0 <= v < 2 ^ 32 -> byteswap32 (byteswap32 v) = v.
Proof.
  intros Hv. apply (word_ext 32); [lia|apply byteswap32_range|done|]. intros i Hi.
  rewrite !byteswap32_bits by dlia. each_bit i 32%nat; done.
Qed.

Lemma ntoh16_hton16 v : 0 <= v < 2 ^ 16 -> ntoh16 (hton16 v) = v.
Proof. apply byteswap16_involutive. Qed.
Lemma hton16_ntoh16 v : 0 <= v < 2 ^ 16 -> hton16 (ntoh16 v) = v.
Proof. apply byteswap16_involutive. Qed.
Lemma ntoh32_hton32 v : 0 <= v < 2 ^ 32 -> ntoh32 (hton32 v) = v.
Proof. apply byteswap32_involutive. Qed.
Lemma hton16_range v : 0 <= hton16 v < 2 ^ 16.
Proof. apply byteswap16_range. Qed.
Lemma hton32_range v : 0 <= hton32 v < 2 ^ 32.
Proof. apply byteswap32_range. Qed.
Lemma ntoh16_range v : 0 <= ntoh16 v < 2 ^ 16.
Proof. apply byteswap16_range. Qed.
Lemma ntoh32_range v : 0 <= ntoh32 v < 2 ^ 32.
Proof. apply byteswap32_range. Qed.

(** *** The checksum *)

(** The sum of the 16-bit words of a buffer. *)
Fixpoint wsum (l : list Z) : Z :=
  match l with lo :: hi :: r => lo + 256 * hi + wsum r | [b] => b | [] => 0 end.

Lemma pair_ind {A} (P : list A -> Prop) :
  P [] -> (forall a, P [a]) -> (forall a b l, P l -> P (a :: b :: l)) -> forall l, P l.
Proof. intros H0 H1 H2 l. assert (P l /\ forall a, P (a :: l)) as [? _]; [|done]. induction l as [|x l [IH1 IH2]]; eauto. Qed.

Lemma wsum_app l1 l2 : Nat.Even (length l1) -> wsum (l1 ++ l2) = wsum l1 + wsum l2.
Proof.
  induction l1 as [|a|a b l IH] using pair_ind; intros He; [done|by destruct He; simpl in *; lia|].
  cbn [wsum app]. rewrite IH; [lia|]. destruct He as [k Hk]. exists (k - 1)%nat. simpl in Hk. lia.
Qed.
Lemma wsum_bound l : bytes l -> 0 <= wsum l <= 65535 * Z.of_nat (length l).
Proof.
  induction l as [|a|a b l IH] using pair_ind; unfold bytes; rewrite ?Forall_cons; unfold byte; cbn [wsum length]; [lia|lia|].
  intros (Ha & Hb & Hl). specialize (IH Hl). lia.
Qed.

Lemma cksum_loop_wsum l sum : bytes l -> 0 <= sum -> sum + wsum l < 2 ^ 32 ->
  cksum_loop l (Z.of_nat (length l)) sum = sum + wsum l.
Proof.
  revert sum. induction l as [|a|a b l IH] using pair_ind; intros sum Hl Hs Hb; unfold bytes in Hl; rewrite ?Forall_cons in Hl; unfold byte in Hl; cbn [wsum length cksum_loop] in *.
  - lia.
  - destruct (Z.ltb_spec 0 (Z.of_nat 1)); [|lia]. apply u32_small. lia.
  - destruct Hl as (Ha & Hbb & Hl). pose proof (wsum_bound l Hl). destruct (Z.ltb_spec 1 (Z.of_nat (S (S (length l))))); [|lia].
    replace (Z.of_nat (S (S (length l))) - 2) with (Z.of_nat (length l)) by lia.
    rewrite u32_small by lia. rewrite IH by (done || lia). lia.
Qed.
Lemma cksum_loop_take l (n : nat) sum : cksum_loop l (Z.of_nat n) sum = cksum_loop (take n l) (Z.of_nat n) sum.
Proof.
  revert n sum. induction l as [|a|a b l IH] using pair_ind; intros [|[|n]] sum; try done.
  cbn [cksum_loop take]. destruct (Z.ltb_spec 1 (Z.of_nat (S (S n)))); [|lia].
  replace (Z.of_nat (S (S n)) - 2) with (Z.of_nat n) by lia. apply IH.
Qed.

(** Folding the carries keeps the sum modulo 65535, within 16 bits. *)
Lemma cksum_fold_spec s : 0 <= s < 2 ^ 32 ->
  0 <= cksum_fold 2 s < 2 ^ 16 /\ (exists k, s = 65535 * k + cksum_fold 2 s) /\ (cksum_fold 2 s = 0 <-> s = 0).
Proof.
  intros Hs. assert (Hstep : forall f t, 0 <= t < 2 ^ 32 -> cksum_fold (S f) t = if t <? 2 ^ 16 then t else cksum_fold f (t mod 2 ^ 16 + t / 2 ^ 16)).
  { intros f t Ht. cbn [cksum_fold]. change 0xffff with (Z.ones 16). rewrite Z.land_ones, Z.shiftr_div_pow2, u32_small by dlia.
    destruct (Z.eqb_spec (t / 2 ^ 16) 0), (Z.ltb_spec t (2 ^ 16)); try done; dlia. }
  assert (H0 : forall t, 0 <= t < 2 ^ 16 -> cksum_fold 0 t = t).
  { intros t Ht. cbn. by destruct (_ =? 0). }
  rewrite Hstep by done. destruct (Z.ltb_spec s (2 ^ 16)); [split; [lia|]; split; [exists 0; lia|done]|].
  rewrite Hstep by dlia. destruct (Z.ltb_spec (s mod 2 ^ 16 + s / 2 ^ 16) (2 ^ 16)).
  - split; [dlia|]. split; [exists (s / 2 ^ 16); dlia|dlia].
  - set (t := s mod 2 ^ 16 + s / 2 ^ 16) in *. assert (Ht : 2 ^ 16 <= t <= 131070) by (unfold t in *; dlia).
    rewrite H0 by dlia. split; [dlia|]. split; [|dlia]. exists (s / 2 ^ 16 + t / 2 ^ 16). unfold t in *. dlia.
Qed.

(** The checksum of [l] with initial sum [init] is the complement of the folded sum. *)
Lemma cksum16_fold l init : bytes l -> Z.of_nat (length l) <= 65535 -> 0 <= init <= 65535 ->
  cksum16 l (Z.of_nat (length l)) init = 65535 - cksum_fold 2 (init + wsum l) /\ 0 <= init + wsum l < 2 ^ 32.
Proof.
  intros Hl Hlen Hi. pose proof (wsum_bound l Hl). assert (0 <= init + wsum l < 2 ^ 32) by lia. split; [|done].
  destruct (cksum_fold_spec (init + wsum l)) as [Hr _]; [done|]. unfold cksum16.
  rewrite (u16_small (Z.of_nat _)), cksum_loop_wsum, (u16_small (cksum_fold _ _)) by (done || lia).
  unfold u16. rewrite <- (Z.mod_small (65535 - _) (2 ^ 16)) by lia.
  replace (Z.lnot (cksum_fold 2 (init + wsum l))) with (65535 - cksum_fold 2 (init + wsum l) + (-1) * 2 ^ 16) by (unfold Z.lnot; lia).
  by rewrite Z.mod_add by lia.
Qed.
Lemma cksum16_range l c i : 0 <= cksum16 l c i < 2 ^ 16.
Proof. apply u16_range. Qed.
(** [(uint16_t)~cksum16(...)], the initial sum taken from a pseudo header. *)
Lemma psum_range l c i : 0 <= u16 (Z.lnot (cksum16 l c i)) <= 65535.
Proof. pose proof (u16_range (Z.lnot (cksum16 l c i))). lia. Qed.

(** A message with the checksum field zero, and the same message with the
    checksum stored there: the receiver's sum is 0. *)
Lemma cksum16_verifies l1 l2 init :
  let m := l1 ++ le_enc 2 0 ++ l2 in
  let sum := cksum16 m (Z.of_nat (length m)) init in
  bytes (l1 ++ l2) -> Nat.Even (length l1) -> Z.of_nat (length m) <= 65535 -> 0 <= init <= 65535 ->
  cksum16 (l1 ++ le_enc 2 sum ++ l2) (Z.of_nat (length m)) init = 0.
Proof.
  intros m sum Hb He Hlen Hi. apply Forall_app in Hb as [Hb1 Hb2].
  assert (Hm : bytes m) by (apply Forall_app; split; [done|]; apply Forall_app; split; [apply le_enc_bytes|done]).
  assert (Hw : forall v, 0 <= v < 2 ^ 16 -> wsum (l1 ++ le_enc 2 v ++ l2) = wsum l1 + v + wsum l2).
  { intros v Hv. rewrite wsum_app by done. cbn [le_enc app wsum]. dlia. }
  destruct (cksum16_fold m init Hm Hlen Hi) as [Hs Hr]. fold sum in Hs.
  destruct (cksum_fold_spec _ Hr) as (Hf & [k Hk] & Hz).
  set (m' := l1 ++ le_enc 2 sum ++ l2). assert (Hm' : bytes m').
  { apply Forall_app; split; [done|]; apply Forall_app; split; [apply le_enc_bytes|done]. }
  assert (Hl' : length m' = length m) by (unfold m, m'; by rewrite !app_length, !le_enc_len).
  rewrite <- Hl' in *. destruct (cksum16_fold m' init Hm' ltac:(lia) Hi) as [Hs' Hr']. rewrite Hs'.
  destruct (cksum_fold_spec _ Hr') as (Hf' & [k' Hk'] & Hz').
  pose proof (Hw 0 ltac:(lia)) as H0. fold m in H0. pose proof (Hw sum ltac:(lia)) as H1. fold m' in H1.
  pose proof (wsum_bound l1 Hb1). pose proof (wsum_bound l2 Hb2). lia.
Qed.

(** A field of a message as it was stored. *)
Lemma field_dec n v : 0 <= v < 2 ^ (8 * Z.of_nat n) -> le_dec (le_enc n v) = v.
Proof. intros Hv. by rewrite le_dec_enc, Z.mod_small. Qed.
