(* ===== verification/Tcp.v ===== *)
(** * kernel/microps/tcp.c: the transmission control protocol

    The table of protocol control blocks, the retransmission queues, the
    processing of arriving segments and the user commands.

    - A [struct tcp_pcb *] is the index of the block in [pcbs].
    - The layer below is the class [IpOps].  Its [ip_output] works on the whole
      state: address resolution polls the device, and the loopback device
      delivers at once, so that a segment can be processed inside another
      call; [NetUtil] has the rest of what the file uses.
    - A command that waits is cut at its calls of [sleep]: it ends in [Return]
      or in [Wait] with what its loop has in its variables, and a second
      definition goes on from there.  [killed] is what
      [proc_is_killed_current()] returns.
    - [wakes] is the trace of the calls [wakeup(&pcb->ctx)].
    - The mutex is held through every definition; the messages of [errorf] and
      [cprintf] are not part of the state. *)

From Stdlib Require Import ZArith Lia.
From S2P Require Import Prelude Bytes NetUtil Pipe.

Definition TCP_FLG_FIN : Z := 0x01.
Definition TCP_FLG_SYN : Z := 0x02.
Definition TCP_FLG_RST : Z := 0x04.
Definition TCP_FLG_PSH : Z := 0x08.
Definition TCP_FLG_ACK : Z := 0x10.
Definition TCP_FLG_ISSET (x y : Z) : bool := negb (Z.land (Z.land x 0x3f) y =? 0).

Definition TCP_PCB_SIZE : nat := 16.
Definition TCP_PCB_MODE_RFC793 : Z := 1.
Definition TCP_PCB_MODE_SOCKET : Z := 2.

Inductive pcb_state :=
| FREE | CLOSED | LISTEN | SYN_SENT | SYN_RECEIVED | ESTABLISHED
| FIN_WAIT1 | FIN_WAIT2 | CLOSING | TIME_WAIT | CLOSE_WAIT | LAST_ACK.
#[export] Instance pcb_state_eq_dec : EqDecision pcb_state.
Proof. solve_decision. Defined.
(** The numbers of tcp.h. *)
Definition state_num (st : pcb_state) : Z :=
  match st with
  | FREE => 0 | CLOSED => 1 | LISTEN => 2 | SYN_SENT => 3 | SYN_RECEIVED => 4 | ESTABLISHED => 5
  | FIN_WAIT1 => 6 | FIN_WAIT2 => 7 | CLOSING => 8 | TIME_WAIT => 9 | CLOSE_WAIT => 10 | LAST_ACK => 11
  end.

Definition TCP_DEFAULT_RTO : Z := 200000.
Definition TCP_RETRANSMIT_DEADLINE : Z := 12.
Definition TCP_CONNECT_TIMEOUT_TICKS : Z := 3000.
Definition TCP_TIMEWAIT_SEC : Z := 30.
Definition TCP_SOURCE_PORT_MIN : Z := 49152.
Definition TCP_SOURCE_PORT_MAX : Z := 65535.
Definition EINTR : Z := 4.
Definition ETIMEDOUT : Z := 110.
Definition IP_ADDR_ANY : Z := 0x00000000.
Definition IP_ADDR_BROADCAST : Z := 0xffffffff.
Definition IP_PROTOCOL_TCP : Z := 0x06.
Definition IP_HDR_SIZE_MIN : Z := 20.
Definition IP_PAYLOAD_SIZE_MAX : Z := 65535 - IP_HDR_SIZE_MIN.
Definition TCP_HDR_SIZE : Z := 20. (* sizeof(struct tcp_hdr) *)
Definition BUFSIZE : Z := 65535.   (* sizeof(pcb->buf) *)

(** Addresses and ports are in network byte order. *)
Record ip_endpoint := { addr : Z; port : Z }.
Definition endpoint0 : ip_endpoint := {| addr := 0; port := 0 |}.

Record tcp_segment_info := { seg_seq : Z; seg_ack : Z; seg_len : Z; seg_wnd : Z; seg_up : Z }.

(** The [len] bytes after the structure are [q_data]. *)
Record tcp_queue_entry := {
  q_first : timeval;
  q_last : timeval;
  q_rto : Z; (* micro seconds *)
  q_seq : Z;
  q_flg : Z;
  q_data : list Z;
}.

Record snd_vars := {
  snd_nxt : Z;
  snd_una : Z;
  snd_wnd : Z;
  snd_up : Z;
  snd_wl1 : Z;
  snd_wl2 : Z;
}.

Record rcv_vars := {
  rcv_nxt : Z;
  rcv_wnd : Z;
  rcv_up : Z;
}.

Record tcp_pcb := {
  state : pcb_state;
  mode : Z; (* user command mode *)
  local : ip_endpoint;
  foreign : ip_endpoint;
  psnd : snd_vars;
  iss : Z;
  prcv : rcv_vars;
  irs : Z;
  mtu : Z;
  mss : Z;
  buf : list Z; (* receive buffer *)
  ctx : sched_ctx;
  rqueue : queue_head tcp_queue_entry; (* retransmit queue *)
  tw_timer : timeval;
  parent : option nat;
  backlog : queue_head nat;
}.

Definition set_snd_nxt (v : Z) (x : snd_vars) : snd_vars :=
  {| snd_nxt := v; snd_una := snd_una x; snd_wnd := snd_wnd x; snd_up := snd_up x; snd_wl1 := snd_wl1 x;
     snd_wl2 := snd_wl2 x |}.
Definition set_snd_una (v : Z) (x : snd_vars) : snd_vars :=
  {| snd_nxt := snd_nxt x; snd_una := v; snd_wnd := snd_wnd x; snd_up := snd_up x; snd_wl1 := snd_wl1 x;
     snd_wl2 := snd_wl2 x |}.
Definition set_rcv_nxt (v : Z) (x : rcv_vars) : rcv_vars :=
  {| rcv_nxt := v; rcv_wnd := rcv_wnd x; rcv_up := rcv_up x |}.
Definition set_rcv_wnd (v : Z) (x : rcv_vars) : rcv_vars :=
  {| rcv_nxt := rcv_nxt x; rcv_wnd := v; rcv_up := rcv_up x |}.
Definition set_state (v : pcb_state) (p : tcp_pcb) : tcp_pcb :=
  {| state := v; mode := mode p; local := local p; foreign := foreign p; psnd := psnd p; iss := iss p;
     prcv := prcv p; irs := irs p; mtu := mtu p; mss := mss p; buf := buf p; ctx := ctx p; rqueue := rqueue p;
     tw_timer := tw_timer p; parent := parent p; backlog := backlog p |}.
Definition set_mode (v : Z) (p : tcp_pcb) : tcp_pcb :=
  {| state := state p; mode := v; local := local p; foreign := foreign p; psnd := psnd p; iss := iss p;
     prcv := prcv p; irs := irs p; mtu := mtu p; mss := mss p; buf := buf p; ctx := ctx p; rqueue := rqueue p;
     tw_timer := tw_timer p; parent := parent p; backlog := backlog p |}.
Definition set_local (v : ip_endpoint) (p : tcp_pcb) : tcp_pcb :=
  {| state := state p; mode := mode p; local := v; foreign := foreign p; psnd := psnd p; iss := iss p;
     prcv := prcv p; irs := irs p; mtu := mtu p; mss := mss p; buf := buf p; ctx := ctx p; rqueue := rqueue p;
     tw_timer := tw_timer p; parent := parent p; backlog := backlog p |}.
Definition set_foreign (v : ip_endpoint) (p : tcp_pcb) : tcp_pcb :=
  {| state := state p; mode := mode p; local := local p; foreign := v; psnd := psnd p; iss := iss p;
     prcv := prcv p; irs := irs p; mtu := mtu p; mss := mss p; buf := buf p; ctx := ctx p; rqueue := rqueue p;
     tw_timer := tw_timer p; parent := parent p; backlog := backlog p |}.
Definition set_psnd (v : snd_vars) (p : tcp_pcb) : tcp_pcb :=
  {| state := state p; mode := mode p; local := local p; foreign := foreign p; psnd := v; iss := iss p;
     prcv := prcv p; irs := irs p; mtu := mtu p; mss := mss p; buf := buf p; ctx := ctx p; rqueue := rqueue p;
     tw_timer := tw_timer p; parent := parent p; backlog := backlog p |}.
Definition set_iss (v : Z) (p : tcp_pcb) : tcp_pcb :=
  {| state := state p; mode := mode p; local := local p; foreign := foreign p; psnd := psnd p; iss := v;
     prcv := prcv p; irs := irs p; mtu := mtu p; mss := mss p; buf := buf p; ctx := ctx p; rqueue := rqueue p;
     tw_timer := tw_timer p; parent := parent p; backlog := backlog p |}.
Definition set_prcv (v : rcv_vars) (p : tcp_pcb) : tcp_pcb :=
  {| state := state p; mode := mode p; local := local p; foreign := foreign p; psnd := psnd p; iss := iss p;
     prcv := v; irs := irs p; mtu := mtu p; mss := mss p; buf := buf p; ctx := ctx p; rqueue := rqueue p;
     tw_timer := tw_timer p; parent := parent p; backlog := backlog p |}.
Definition set_irs (v : Z) (p : tcp_pcb) : tcp_pcb :=
  {| state := state p; mode := mode p; local := local p; foreign := foreign p; psnd := psnd p; iss := iss p;
     prcv := prcv p; irs := v; mtu := mtu p; mss := mss p; buf := buf p; ctx := ctx p; rqueue := rqueue p;
     tw_timer := tw_timer p; parent := parent p; backlog := backlog p |}.
Definition set_buf (v : list Z) (p : tcp_pcb) : tcp_pcb :=
  {| state := state p; mode := mode p; local := local p; foreign := foreign p; psnd := psnd p; iss := iss p;
     prcv := prcv p; irs := irs p; mtu := mtu p; mss := mss p; buf := v; ctx := ctx p; rqueue := rqueue p;
     tw_timer := tw_timer p; parent := parent p; backlog := backlog p |}.
Definition set_ctx (v : sched_ctx) (p : tcp_pcb) : tcp_pcb :=
  {| state := state p; mode := mode p; local := local p; foreign := foreign p; psnd := psnd p; iss := iss p;
     prcv := prcv p; irs := irs p; mtu := mtu p; mss := mss p; buf := buf p; ctx := v; rqueue := rqueue p;
     tw_timer := tw_timer p; parent := parent p; backlog := backlog p |}.
Definition set_rqueue (v : queue_head tcp_queue_entry) (p : tcp_pcb) : tcp_pcb :=
  {| state := state p; mode := mode p; local := local p; foreign := foreign p; psnd := psnd p; iss := iss p;
     prcv := prcv p; irs := irs p; mtu := mtu p; mss := mss p; buf := buf p; ctx := ctx p; rqueue := v;
     tw_timer := tw_timer p; parent := parent p; backlog := backlog p |}.
Definition set_tw_timer (v : timeval) (p : tcp_pcb) : tcp_pcb :=
  {| state := state p; mode := mode p; local := local p; foreign := foreign p; psnd := psnd p; iss := iss p;
     prcv := prcv p; irs := irs p; mtu := mtu p; mss := mss p; buf := buf p; ctx := ctx p; rqueue := rqueue p;
     tw_timer := v; parent := parent p; backlog := backlog p |}.
Definition set_parent (v : option nat) (p : tcp_pcb) : tcp_pcb :=
  {| state := state p; mode := mode p; local := local p; foreign := foreign p; psnd := psnd p; iss := iss p;
     prcv := prcv p; irs := irs p; mtu := mtu p; mss := mss p; buf := buf p; ctx := ctx p; rqueue := rqueue p;
     tw_timer := tw_timer p; parent := v; backlog := backlog p |}.
Definition set_backlog (v : queue_head nat) (p : tcp_pcb) : tcp_pcb :=
  {| state := state p; mode := mode p; local := local p; foreign := foreign p; psnd := psnd p; iss := iss p;
     prcv := prcv p; irs := irs p; mtu := mtu p; mss := mss p; buf := buf p; ctx := ctx p; rqueue := rqueue p;
     tw_timer := tw_timer p; parent := parent p; backlog := v |}.
Definition set_snd_window (wnd wl1 wl2 : Z) (x : snd_vars) : snd_vars :=
  {| snd_nxt := snd_nxt x; snd_una := snd_una x; snd_wnd := wnd; snd_up := snd_up x; snd_wl1 := wl1; snd_wl2 := wl2 |}.
(** [memset(pcb, 0, sizeof *pcb)]. *)
Definition pcb0 : tcp_pcb :=
  {| state := FREE; mode := 0; local := endpoint0; foreign := endpoint0;
     psnd := {| snd_nxt := 0; snd_una := 0; snd_wnd := 0; snd_up := 0; snd_wl1 := 0; snd_wl2 := 0 |}; iss := 0;
     prcv := {| rcv_nxt := 0; rcv_wnd := 0; rcv_up := 0 |}; irs := 0; mtu := 0; mss := 0;
     buf := repeat 0 (Z.to_nat BUFSIZE); ctx := sched_ctx_init; rqueue := queue_init; tw_timer := timerclear;
     parent := None; backlog := queue_init |}.

Record tcp (I : Type) := {
  pcbs : list tcp_pcb;
  ticks : Z;
  errno : Z;
  wakes : list nat;
  low : I; (* the layers below *)
}.
Arguments pcbs {I}. Arguments ticks {I}. Arguments errno {I}. Arguments wakes {I}. Arguments low {I}.

(** An interface as seen from here: its address and the MTU of its device. *)
Record route_iface := { unicast : Z; dev_mtu : Z }.
Class IpOps (I : Type) := {
  ip_output : Z -> list Z -> Z -> Z -> K (tcp I) Z; (* protocol, data, src, dst *)
  ip_route_get_iface : Z -> tcp I -> option route_iface;
  memory_alloc : Z -> K (tcp I) bool;
}.

Section Tcp.
Context {I : Type} `{IpOps I}.
Abbreviation tcp := (tcp I).
Implicit Types (i : nat) (p : tcp_pcb) (s : tcp).

Definition set_pcbs (l : list tcp_pcb) s : tcp :=
  {| pcbs := l; ticks := ticks s; errno := errno s; wakes := wakes s; low := low s |}.
Definition set_errno (e : Z) : K tcp unit := kmodify (fun s =>
  {| pcbs := pcbs s; ticks := ticks s; errno := e; wakes := wakes s; low := low s |}).
(** The block [i] of the table: its fields read and written. *)
Definition pcbof s i : tcp_pcb := nth i (pcbs s) pcb0.
Definition rd {A} i (f : tcp_pcb -> A) : K tcp A := kgets (fun s => f (pcbof s i)).
Definition wr i (f : tcp_pcb -> tcp_pcb) : K tcp unit := kmodify (fun s => set_pcbs (alter f i (pcbs s)) s).
Definition sched_wakeup i : K tcp unit := kmodify (fun s =>
  {| pcbs := pcbs s; ticks := ticks s; errno := errno s; wakes := wakes s ++ [i]; low := low s |}).

(** ** Control blocks *)

Definition tcp_pcb_alloc : K tcp (option nat) :=
  s <- kget ;;
  match list_find (fun p => state p = FREE) (pcbs s) with
  | Some (i, _) =>
      wr i (set_state CLOSED) ;;
      wr i (set_ctx sched_ctx_init) ;;
      kret (Some i)
  | None => kret None
  end.

(** [while ((entry = queue_pop(&pcb->queue)) != NULL) memory_free(entry)]:
    the queue is empty after it, its counter has been taken down to 0 with it,
    and the [memset] clears both.  The recursion on the backlog takes one entry
    out of some backlog at each call, which bounds its depth. *)
Fixpoint release_pcb (fuel : nat) i : K tcp unit :=
  match fuel with
  | O => ub "tcp_pcb_release: recursion"
  | S f =>
      wr i (set_rqueue queue_init) ;;
      release_backlog f i ;;
      wr i (fun _ => pcb0)
  end
with release_backlog (fuel : nat) i : K tcp unit :=
  match fuel with
  | O => ub "tcp_pcb_release: recursion"
  | S f =>
      q <- rd i backlog ;;
      match queue_pop q with
      | None => kret tt
      | Some (est, q') =>
          wr i (set_backlog q') ;;
          release_pcb f est ;;
          release_backlog f i
      end
  end.
Definition backlogs s : nat := sum_list_with (fun p => length (entries (backlog p))) (pcbs s).
Definition tcp_pcb_release i : K tcp unit := s <- kget ;; release_pcb (2 * backlogs s + 2) i.

Definition endpoint_match (p : tcp_pcb) (l : ip_endpoint) : bool :=
  ((addr (local p) =? IP_ADDR_ANY) || (addr (local p) =? addr l)) && (port (local p) =? port l).
Fixpoint select_loop (l : list tcp_pcb) i (lo : ip_endpoint) (fo : option ip_endpoint) (listen_pcb : option nat) : option nat :=
  match l with
  | [] => listen_pcb
  | p :: l' =>
      if endpoint_match p lo then
        match fo with
        | None => Some i
        | Some fo' =>
            if (addr (foreign p) =? addr fo') && (port (foreign p) =? port fo') then Some i
            else if bool_decide (state p = LISTEN) && (addr (foreign p) =? IP_ADDR_ANY) && (port (foreign p) =? 0)
            then select_loop l' (S i) lo fo (Some i)
            else select_loop l' (S i) lo fo listen_pcb
        end
      else select_loop l' (S i) lo fo listen_pcb
  end.
Definition tcp_pcb_select s (lo : ip_endpoint) (fo : option ip_endpoint) : option nat := select_loop (pcbs s) 0 lo fo None.

Definition tcp_pcb_get s (id : Z) : option nat :=
  if (id <? 0) || (Z.of_nat TCP_PCB_SIZE <=? id) then None
  else if bool_decide (state (pcbof s (Z.to_nat id)) = FREE) then None
  else Some (Z.to_nat id).
Definition tcp_pcb_id i : Z := Z.of_nat i.

(** ** Output and retransmission *)

Definition tcp_retransmit_queue_add i (seq flg : Z) (data : list Z) : K tcp Z :=
  mem <- memory_alloc (32 + Z.of_nat (length data)) ;;
  if negb mem then kret (-1)
  else
    s <- kget ;;
    let now := gettimeofday (ticks s) in
    let entry := {| q_first := now; q_last := now; q_rto := TCP_DEFAULT_RTO; q_seq := seq; q_flg := flg; q_data := data |} in
    cell <- memory_alloc 8 ;;
    q <- rd i rqueue ;;
    match queue_push cell q entry with
    | None => kret (-1)
    | Some q' => wr i (set_rqueue q') ;; kret 0
    end.

Fixpoint drop_acked (una : Z) (l : list tcp_queue_entry) (n : Z) : queue_head tcp_queue_entry :=
  match l with
  | [] => {| entries := []; num := n |}
  | e :: l' => if una <=? q_seq e then {| entries := l; num := n |} else drop_acked una l' (n -u 1)
  end.
Definition tcp_retransmit_queue_cleanup i : K tcp unit :=
  wr i (fun p => set_rqueue (drop_acked (snd_una (psnd p)) (entries (rqueue p)) (num (rqueue p))) p).

Definition tcp_set_timewait_timer i : K tcp unit :=
  s <- kget ;;
  let now := gettimeofday (ticks s) in
  wr i (set_tw_timer {| tv_sec := tv_sec now + TCP_TIMEWAIT_SEC; tv_usec := tv_usec now |}).

(** The pseudo header and the TCP header as they lie in memory. *)
Definition pseudo_hdr (src dst protocol len : Z) : list Z :=
  le_enc 4 src ++ le_enc 4 dst ++ [0; protocol] ++ le_enc 2 (hton16 len).
Definition tcp_hdr_front (src dst seq ack flg wnd : Z) : list Z :=
  le_enc 2 src ++ le_enc 2 dst ++ le_enc 4 (hton32 seq) ++ le_enc 4 (hton32 ack) ++
  [Z.shiftl (Z.shiftr TCP_HDR_SIZE 2) 4; flg] ++ le_enc 2 (hton16 wnd).
Definition tcp_message (seq ack flg wnd : Z) (data : list Z) (lo fo : ip_endpoint) : list Z :=
  let front := tcp_hdr_front (port lo) (port fo) seq ack flg wnd in
  let total := u16 (TCP_HDR_SIZE + Z.of_nat (length data)) in
  let psum := u16 (Z.lnot (cksum16 (pseudo_hdr (addr lo) (addr fo) IP_PROTOCOL_TCP total) 12 0)) in
  let sum := cksum16 (front ++ le_enc 2 0 ++ le_enc 2 0 ++ data) total psum in
  front ++ le_enc 2 sum ++ le_enc 2 0 ++ data.
Definition tcp_output_segment (seq ack flg wnd : Z) (data : list Z) (lo fo : ip_endpoint) : K tcp Z :=
  if IP_PAYLOAD_SIZE_MAX <? TCP_HDR_SIZE + Z.of_nat (length data) then ub "tcp_output_segment: buf overrun"
  else
    r <- ip_output IP_PROTOCOL_TCP (tcp_message seq ack flg wnd data lo fo) (addr lo) (addr fo) ;;
    if r =? -1 then kret (-1) else kret (Z.of_nat (length data)).

Definition tcp_output i (flg : Z) (data : list Z) : K tcp Z :=
  p <- rd i id ;;
  let seq := if TCP_FLG_ISSET flg TCP_FLG_SYN then iss p else snd_nxt (psnd p) in
  (if TCP_FLG_ISSET flg (Z.lor TCP_FLG_SYN TCP_FLG_FIN) || negb (Z.of_nat (length data) =? 0)
   then tcp_retransmit_queue_add i seq flg data ;; kret tt else kret tt) ;;
  p <- rd i id ;;
  tcp_output_segment seq (rcv_nxt (prcv p)) flg (rcv_wnd (prcv p)) data (local p) (foreign p).

Definition tcp_retransmit_queue_emit i (e : tcp_queue_entry) : K tcp tcp_queue_entry :=
  s <- kget ;;
  let now := gettimeofday (ticks s) in
  if TCP_RETRANSMIT_DEADLINE <=? tv_sec (timersub now (q_first e)) then
    wr i (set_state CLOSED) ;; sched_wakeup i ;; kret e
  else if timercmp_gt now (timeval_add_usec (q_last e) (q_rto e)) then
    p <- rd i id ;;
    tcp_output_segment (q_seq e) (rcv_nxt (prcv p)) (q_flg e) (rcv_wnd (prcv p)) (q_data e) (local p) (foreign p) ;;
    kret {| q_first := q_first e; q_last := now; q_rto := q_rto e *u 2; q_seq := q_seq e; q_flg := q_flg e; q_data := q_data e |}
  else kret e.

(** ** SEGMENT ARRIVES *)

Section Arrives.
Context (seg : tcp_segment_info) (flags : Z) (data : list Z) (lo fo : ip_endpoint).

Abbreviation isset := (TCP_FLG_ISSET flags).
Definition reset_reply : K tcp unit :=
  tcp_output_segment (seg_ack seg) 0 TCP_FLG_RST 0 [] lo fo ;; kret tt.

(** No block, or a closed one. *)
Definition seg_closed : K tcp unit :=
  if isset TCP_FLG_RST then kret tt
  else if negb (isset TCP_FLG_ACK) then
    tcp_output_segment 0 (seg_seq seg +u seg_len seg) (Z.lor TCP_FLG_RST TCP_FLG_ACK) 0 [] lo fo ;; kret tt
  else reset_reply.

(** What a SYN does to the block that takes the connection. *)
Definition listen_syn i : K tcp unit :=
  wr i (set_local lo) ;;
  wr i (set_foreign fo) ;;
  wr i (fun p => set_prcv (set_rcv_wnd BUFSIZE (prcv p)) p) ;;
  wr i (fun p => set_prcv (set_rcv_nxt (seg_seq seg +u 1) (prcv p)) p) ;;
  wr i (set_irs (seg_seq seg)) ;;
  t <- kgets ticks ;;
  wr i (set_iss (microps_random t)) ;;
  tcp_output i (Z.lor TCP_FLG_SYN TCP_FLG_ACK) [] ;;
  wr i (fun p => set_psnd (set_snd_nxt (iss p +u 1) (psnd p)) p) ;;
  wr i (fun p => set_psnd (set_snd_una (iss p) (psnd p)) p) ;;
  wr i (set_state SYN_RECEIVED).
Definition seg_listen i : K tcp unit :=
  if isset TCP_FLG_RST then kret tt
  else if isset TCP_FLG_ACK then reset_reply
  else if isset TCP_FLG_SYN then
    m <- rd i mode ;;
    if m =? TCP_PCB_MODE_SOCKET then
      new_pcb <- tcp_pcb_alloc ;;
      match new_pcb with
      | None => kret tt
      | Some n =>
          wr n (set_mode TCP_PCB_MODE_SOCKET) ;;
          wr n (set_parent (Some i)) ;;
          listen_syn n
      end
    else listen_syn i
  else kret tt.

(** [pcb->state = TCP_PCB_STATE_CLOSED; tcp_pcb_release(pcb);] *)
Definition close_release i : K tcp unit := wr i (set_state CLOSED) ;; tcp_pcb_release i.

Definition seg_syn_sent i : K tcp unit :=
  p <- rd i id ;;
  let bad := (seg_ack seg <=? iss p) || (snd_nxt (psnd p) <? seg_ack seg) in
  let acceptable := isset TCP_FLG_ACK && (snd_una (psnd p) <=? seg_ack seg) && (seg_ack seg <=? snd_nxt (psnd p)) in
  if isset TCP_FLG_ACK && bad then reset_reply
  else if isset TCP_FLG_RST then
    (if acceptable then close_release i else kret tt)
  else if isset TCP_FLG_SYN then
    wr i (fun p => set_prcv (set_rcv_nxt (seg_seq seg +u 1) (prcv p)) p) ;;
    wr i (set_irs (seg_seq seg)) ;;
    (if acceptable then
       wr i (fun p => set_psnd (set_snd_una (seg_ack seg) (psnd p)) p) ;;
       tcp_retransmit_queue_cleanup i
     else kret tt) ;;
    p <- rd i id ;;
    if iss p <? snd_una (psnd p) then
      wr i (set_state ESTABLISHED) ;;
      tcp_output i TCP_FLG_ACK [] ;;
      wr i (fun p => set_psnd (set_snd_window (seg_wnd seg) (seg_seq seg) (seg_ack seg) (psnd p)) p) ;;
      sched_wakeup i
    else
      wr i (set_state SYN_RECEIVED) ;;
      tcp_output i (Z.lor TCP_FLG_SYN TCP_FLG_ACK) [] ;; kret tt
  else kret tt.

(** The steps of the other states: [true] when processing goes on. *)

Definition seg_acceptable (p : tcp_pcb) : bool :=
  let nxt := rcv_nxt (prcv p) in
  let wnd := rcv_wnd (prcv p) in
  let last := seg_seq seg +u seg_len seg -u 1 in
  if seg_len seg =? 0 then
    if wnd =? 0 then seg_seq seg =? nxt
    else (nxt <=? seg_seq seg) && (seg_seq seg <? nxt +u wnd)
  else if wnd =? 0 then false
  else ((nxt <=? seg_seq seg) && (seg_seq seg <? nxt +u wnd)) || ((nxt <=? last) && (last <? nxt +u wnd)).
Definition synchronized (st : pcb_state) : bool :=
  match st with FREE | CLOSED | LISTEN | SYN_SENT => false | _ => true end.
Definition seg_sequence i : K tcp bool :=
  p <- rd i id ;;
  if synchronized (state p) && negb (seg_acceptable p) then
    (if negb (isset TCP_FLG_RST) then tcp_output i TCP_FLG_ACK [] ;; kret tt else kret tt) ;;
    kret false
  else kret true.

Definition seg_rst i : K tcp bool :=
  st <- rd i state ;;
  if synchronized st && isset TCP_FLG_RST then close_release i ;; kret false else kret true.

Definition seg_syn i : K tcp bool :=
  st <- rd i state ;;
  if synchronized st && isset TCP_FLG_SYN then
    tcp_output i TCP_FLG_RST [] ;; close_release i ;; kret false
  else kret true.

(** ESTABLISHED and the states that share its processing of the ACK. *)
Definition ack_established i : K tcp bool :=
  p <- rd i id ;;
  let una := snd_una (psnd p) in
  let nxt := snd_nxt (psnd p) in
  go <- (if (una <? seg_ack seg) && (seg_ack seg <=? nxt) then
           wr i (fun p => set_psnd (set_snd_una (seg_ack seg) (psnd p)) p) ;;
           tcp_retransmit_queue_cleanup i ;;
           (if (snd_wl1 (psnd p) <? seg_seq seg) || ((snd_wl1 (psnd p) =? seg_seq seg) && (snd_wl2 (psnd p) <=? seg_ack seg))
            then wr i (fun p => set_psnd (set_snd_window (seg_wnd seg) (seg_seq seg) (seg_ack seg) (psnd p)) p)
            else kret tt) ;;
           kret true
         else if seg_ack seg <? una then kret true
         else if nxt <? seg_ack seg then tcp_output i TCP_FLG_ACK [] ;; kret false
         else kret true) ;;
  if negb go then kret false
  else
    p <- rd i id ;;
    match state p with
    | FIN_WAIT1 =>
        (if seg_ack seg =? snd_nxt (psnd p) then wr i (set_state FIN_WAIT2) else kret tt) ;; kret true
    | CLOSING =>
        (if seg_ack seg =? snd_nxt (psnd p) then
           wr i (set_state TIME_WAIT) ;; tcp_set_timewait_timer i ;; sched_wakeup i
         else kret tt) ;; kret true
    | _ => kret true
    end.

Definition ack_syn_received i : K tcp bool :=
  p <- rd i id ;;
  if (snd_una (psnd p) <=? seg_ack seg) && (seg_ack seg <=? snd_nxt (psnd p)) then
    wr i (set_state ESTABLISHED) ;;
    sched_wakeup i ;;
    match parent p with
    | Some par =>
        cell <- memory_alloc 8 ;;
        q <- rd par backlog ;;
        match queue_push cell q i with
        | Some q' => wr par (set_backlog q')
        | None => kret tt
        end ;;
        sched_wakeup par
    | None => kret tt
    end ;;
    kret true
  else reset_reply ;; kret false.

Definition seg_ack_field i : K tcp bool :=
  if negb (isset TCP_FLG_ACK) then kret false
  else
    p <- rd i id ;;
    match state p with
    | SYN_RECEIVED => go <- ack_syn_received i ;; if go then ack_established i else kret false
    | ESTABLISHED | FIN_WAIT1 | FIN_WAIT2 | CLOSE_WAIT | CLOSING => ack_established i
    | LAST_ACK =>
        (if seg_ack seg =? snd_nxt (psnd p) then close_release i else kret tt) ;; kret false
    | TIME_WAIT =>
        (if isset TCP_FLG_FIN then tcp_set_timewait_timer i else kret tt) ;; kret true
    | FREE | CLOSED | LISTEN | SYN_SENT => kret true
    end.

(** [memcpy(pcb->buf + (sizeof(pcb->buf) - pcb->rcv.wnd), data, len)]. *)
Definition buf_append i : K tcp unit :=
  p <- rd i id ;;
  let off := BUFSIZE - rcv_wnd (prcv p) in
  if BUFSIZE <? off + Z.of_nat (length data) then ub "tcp_segment_arrives: pcb->buf overrun"
  else wr i (fun p => set_buf (splice (Z.to_nat off) data (buf p)) p).
Definition seg_text i : K tcp unit :=
  st <- rd i state ;;
  match st with
  | ESTABLISHED | FIN_WAIT1 | FIN_WAIT2 =>
      if Z.of_nat (length data) =? 0 then kret tt
      else
        buf_append i ;;
        wr i (fun p => set_prcv (set_rcv_nxt (seg_seq seg +u seg_len seg) (prcv p)) p) ;;
        wr i (fun p => set_prcv (set_rcv_wnd (u16 (rcv_wnd (prcv p) - Z.of_nat (length data))) (prcv p)) p) ;;
        tcp_output i TCP_FLG_ACK [] ;;
        sched_wakeup i
  | _ => kret tt
  end.

Definition seg_fin i : K tcp unit :=
  if negb (isset TCP_FLG_FIN) then kret tt
  else
    st <- rd i state ;;
    match st with
    | CLOSED | LISTEN | SYN_SENT => kret tt
    | _ =>
        wr i (fun p => set_prcv (set_rcv_nxt (seg_seq seg +u 1) (prcv p)) p) ;;
        tcp_output i TCP_FLG_ACK [] ;;
        p <- rd i id ;;
        match state p with
        | SYN_RECEIVED | ESTABLISHED => wr i (set_state CLOSE_WAIT) ;; sched_wakeup i
        | FIN_WAIT1 =>
            if seg_ack seg =? snd_nxt (psnd p) then wr i (set_state TIME_WAIT) ;; tcp_set_timewait_timer i
            else wr i (set_state CLOSING)
        | FIN_WAIT2 => wr i (set_state TIME_WAIT) ;; tcp_set_timewait_timer i
        | TIME_WAIT => tcp_set_timewait_timer i
        | _ => kret tt
        end
    end.

Definition seg_otherwise i : K tcp unit :=
  go <- seg_sequence i ;;
  if negb go then kret tt else
  go <- seg_rst i ;;
  if negb go then kret tt else
  go <- seg_syn i ;;
  if negb go then kret tt else
  go <- seg_ack_field i ;;
  if negb go then kret tt else
  seg_text i ;;
  seg_fin i.

Definition tcp_segment_arrives : K tcp unit :=
  s <- kget ;;
  match tcp_pcb_select s lo (Some fo) with
  | None => seg_closed
  | Some i =>
      match state (pcbof s i) with
      | CLOSED => seg_closed
      | LISTEN => seg_listen i
      | SYN_SENT => seg_syn_sent i
      | _ => seg_otherwise i
      end
  end.
End Arrives.

(** [data] is what the packet holds from the TCP header on, [len] the length
    the IP layer gives for it, [bcast] the broadcast address of the interface. *)
Definition tcp_input (data : list Z) (len src dst bcast : Z) : K tcp unit :=
  if len <? TCP_HDR_SIZE then kret tt
  else
    let psum := u16 (Z.lnot (cksum16 (pseudo_hdr src dst IP_PROTOCOL_TCP (u16 len)) 12 0)) in
    sum <- kcksum16 data len psum ;;
    if negb (sum =? 0) then kret tt
    else if (src =? IP_ADDR_BROADCAST) || (src =? bcast) || (dst =? IP_ADDR_BROADCAST) || (dst =? bcast) then kret tt
    else
      let flg := getn 1 13 data in
      let hlen := Z.shiftl (Z.shiftr (getn 1 12 data) 4) 2 in
      let hlen := if (hlen <? TCP_HDR_SIZE) || (len <? hlen) then TCP_HDR_SIZE else hlen in
      if Z.of_nat (length data) <? len then ub "tcp_input: read past the packet"
      else
        let seglen := u16 (len - hlen) in
        let seglen := if TCP_FLG_ISSET flg TCP_FLG_SYN then u16 (seglen + 1) else seglen in
        let seglen := if TCP_FLG_ISSET flg TCP_FLG_FIN then u16 (seglen + 1) else seglen in
        tcp_segment_arrives
          {| seg_seq := ntoh32 (getn 4 4 data); seg_ack := ntoh32 (getn 4 8 data); seg_len := seglen;
             seg_wnd := ntoh16 (getn 2 14 data); seg_up := ntoh16 (getn 2 18 data) |}
          flg (slice (Z.to_nat hlen) (Z.to_nat (len - hlen)) data)
          {| addr := dst; port := getn 2 2 data |} {| addr := src; port := getn 2 0 data |}.

(** ** Timer and events *)

Definition timer_pcb i : K tcp unit :=
  s <- kget ;;
  let now := gettimeofday (ticks s) in
  let p := pcbof s i in
  if bool_decide (state p = FREE) then kret tt
  else if bool_decide (state p = TIME_WAIT) && timercmp_gt now (tw_timer p) then tcp_pcb_release i
  else
    l <- foreach (tcp_retransmit_queue_emit i) (entries (rqueue p)) ;;
    wr i (fun p => set_rqueue {| entries := l; num := num (rqueue p) |} p).
Fixpoint for_pcbs (f : nat -> K tcp unit) (l : list nat) : K tcp unit :=
  match l with [] => kret tt | i :: l' => f i ;; for_pcbs f l' end.
Definition tcp_timer : K tcp unit := for_pcbs timer_pcb (seq 0 TCP_PCB_SIZE).

Definition sched_interrupt i : K tcp unit :=
  wr i (fun p => set_ctx (sched_interrupt_ctx (ctx p)) p) ;; sched_wakeup i.
Definition event_handler : K tcp unit :=
  for_pcbs (fun i => st <- rd i state ;; if bool_decide (st = FREE) then kret tt else sched_interrupt i) (seq 0 TCP_PCB_SIZE).

(** ** Waiting for a tick

    [tcp_wait_tick_interruptible] up to its [sleep] ([false]: it returns -1)
    and from there ([false]: -1). *)
Definition wait_tick_enter (killed : bool) (start timeout : Z) : K tcp bool :=
  now <- kgets ticks ;;
  if killed then set_errno EINTR ;; kret false
  else if (0 <? timeout) && (timeout <=? s32 (now -u start)) then set_errno ETIMEDOUT ;; kret false
  else kret true.
Definition wait_tick_leave (killed : bool) : K tcp bool :=
  if killed then set_errno EINTR ;; kret false else kret true.

(** The wait of the open commands: block, state waited in, tick of its start. *)
Record open_wait := { ow_pcb : nat; ow_state : pcb_state; ow_start : Z }.
Definition open_fail i : K tcp (segment Z open_wait) := close_release i ;; kret (Return (-1)).
Definition open_sleep (killed : bool) i (st : pcb_state) (start : Z) : K tcp (segment Z open_wait) :=
  ok <- wait_tick_enter killed start TCP_CONNECT_TIMEOUT_TICKS ;;
  if ok then kret (Wait {| ow_pcb := i; ow_state := st; ow_start := start |}) else open_fail i.
(** From [AGAIN]: the state is the one waited in, so the loop sleeps. *)
Definition open_again (killed : bool) i : K tcp (segment Z open_wait) :=
  st <- rd i state ;;
  start <- kgets ticks ;;
  open_sleep killed i st start.
(** From the return of [sleep]: the loop's test and what follows the loop. *)
Definition open_resume (killed : bool) (w : open_wait) : K tcp (segment Z open_wait) :=
  let i := ow_pcb w in
  ok <- wait_tick_leave killed ;;
  if negb ok then open_fail i
  else
    st <- rd i state ;;
    if bool_decide (st = ow_state w) then open_sleep killed i (ow_state w) (ow_start w)
    else match st with
         | ESTABLISHED => kret (Return (tcp_pcb_id i))
         | SYN_RECEIVED => open_again killed i
         | _ => open_fail i
         end.

(** [pcb->local] and [pcb->foreign] set, the SYN sent: [false] if that fails. *)
Definition open_active i : K tcp bool :=
  wr i (fun p => set_prcv (set_rcv_wnd BUFSIZE (prcv p)) p) ;;
  t <- kgets ticks ;;
  wr i (set_iss (microps_random t)) ;;
  r <- tcp_output i TCP_FLG_SYN [] ;;
  if r =? -1 then close_release i ;; kret false
  else
    wr i (fun p => set_psnd (set_snd_una (iss p) (psnd p)) p) ;;
    wr i (fun p => set_psnd (set_snd_nxt (iss p +u 1) (psnd p)) p) ;;
    wr i (set_state SYN_SENT) ;;
    kret true.

(** ** User commands *)

Definition tcp_open_rfc793 (killed : bool) (lo : ip_endpoint) (fo : option ip_endpoint) (active : bool) : K tcp (segment Z open_wait) :=
  pcb <- tcp_pcb_alloc ;;
  match pcb with
  | None => kret (Return (-1))
  | Some i =>
      wr i (set_mode TCP_PCB_MODE_RFC793) ;;
      if negb active then
        wr i (set_local lo) ;;
        match fo with Some f => wr i (set_foreign f) | None => kret tt end ;;
        wr i (set_state LISTEN) ;;
        open_again killed i
      else
        wr i (set_local lo) ;;
        match fo with
        | None => ub "tcp_open_rfc793: foreign is NULL"
        | Some f =>
            wr i (set_foreign f) ;;
            ok <- open_active i ;;
            if ok then open_again killed i else kret (Return (-1))
        end
  end.

Definition tcp_state (id : Z) : K tcp Z :=
  s <- kget ;;
  match tcp_pcb_get s id with
  | None => kret (-1)
  | Some i => if negb (mode (pcbof s i) =? TCP_PCB_MODE_RFC793) then kret (-1) else kret (state_num (state (pcbof s i)))
  end.

Definition tcp_open : K tcp Z :=
  pcb <- tcp_pcb_alloc ;;
  match pcb with
  | None => kret (-1)
  | Some i => wr i (set_mode TCP_PCB_MODE_SOCKET) ;; kret (tcp_pcb_id i)
  end.

(** [for (p = MIN; p <= MAX; p++)]: the first port with which no block
    matches.  The loop leaves the last value in [local.port] when none is free. *)
Fixpoint pick_port s (a : Z) (fo : ip_endpoint) (n : nat) (p : Z) : Z :=
  match n with
  | O => u16 (p - 1)
  | S n' => match tcp_pcb_select s {| addr := a; port := u16 p |} (Some fo) with
            | None => u16 p
            | Some _ => pick_port s a fo n' (p + 1)
            end
  end.
Definition PORTS : nat := Z.to_nat (TCP_SOURCE_PORT_MAX - TCP_SOURCE_PORT_MIN + 1).

Definition tcp_connect (killed : bool) (id : Z) (fo : ip_endpoint) : K tcp (segment Z open_wait) :=
  s <- kget ;;
  match tcp_pcb_get s id with
  | None => kret (Return (-1))
  | Some i =>
      let p := pcbof s i in
      if negb (mode p =? TCP_PCB_MODE_SOCKET) then kret (Return (-1))
      else
        match (if addr (local p) =? IP_ADDR_ANY then option_map unicast (ip_route_get_iface (addr fo) s)
               else Some (addr (local p))) with
        | None => kret (Return (-1))
        | Some a =>
            let pt := if port (local p) =? 0 then pick_port s a fo PORTS TCP_SOURCE_PORT_MIN else port (local p) in
            if pt =? 0 then kret (Return (-1))
            else
              wr i (set_local {| addr := a; port := pt |}) ;;
              wr i (set_foreign fo) ;;
              ok <- open_active i ;;
              if ok then open_again killed i else kret (Return (-1))
        end
  end.

Definition tcp_bind (id : Z) (lo : ip_endpoint) : K tcp Z :=
  s <- kget ;;
  match tcp_pcb_get s id with
  | None => kret (-1)
  | Some i =>
      if negb (mode (pcbof s i) =? TCP_PCB_MODE_SOCKET) then kret (-1)
      else match tcp_pcb_select s lo None with
           | Some _ => kret (-1)
           | None => wr i (set_local lo) ;; kret 0
           end
  end.

Definition tcp_listen (id : Z) : K tcp Z :=
  s <- kget ;;
  match tcp_pcb_get s id with
  | None => kret (-1)
  | Some i =>
      if negb (mode (pcbof s i) =? TCP_PCB_MODE_SOCKET) then kret (-1)
      else wr i (set_state LISTEN) ;; kret 0
  end.

(** The loop of [tcp_accept]: a connection (its id and peer) or a sleep on the
    block's context. *)
Definition accept_loop (killed : bool) i : K tcp (segment (Z * option ip_endpoint) nat) :=
  q <- rd i backlog ;;
  match queue_pop q with
  | Some (n, q') =>
      wr i (set_backlog q') ;;
      fo <- rd n foreign ;;
      kret (Return (tcp_pcb_id n, Some fo))
  | None =>
      c <- rd i ctx ;;
      match sched_sleep_enter killed c with
      | None => set_errno EINTR ;; kret (Return (-1, None))
      | Some c' => wr i (set_ctx c') ;; kret (Wait i)
      end
  end.
Definition tcp_accept (killed : bool) (id : Z) : K tcp (segment (Z * option ip_endpoint) nat) :=
  s <- kget ;;
  match tcp_pcb_get s id with
  | None => kret (Return (-1, None))
  | Some i =>
      if negb (mode (pcbof s i) =? TCP_PCB_MODE_SOCKET) then kret (Return (-1, None))
      else if negb (bool_decide (state (pcbof s i) = LISTEN)) then kret (Return (-1, None))
      else accept_loop killed i
  end.
Definition accept_resume (killed : bool) i : K tcp (segment (Z * option ip_endpoint) nat) :=
  c <- rd i ctx ;;
  let '(ok, c') := sched_sleep_leave killed c in
  wr i (set_ctx c') ;;
  if negb ok then set_errno EINTR ;; kret (Return (-1, None))
  else
    st <- rd i state ;;
    if bool_decide (st = CLOSED) then tcp_pcb_release i ;; kret (Return (-1, None))
    else accept_loop killed i.

(** The loop of [tcp_send] over what is left of [data], in segments of at most
    [mss] bytes; every turn that does not sleep sends at least one byte (as
    long as [mss] is not 0), so that [length data] turns are enough. *)
Record send_wait := { sw_pcb : nat; sw_sent : Z }.
Fixpoint send_loop (killed : bool) (fuel : nat) i (mss start : Z) (data : list Z) (sent : Z) : K tcp (segment Z send_wait) :=
  let len := Z.of_nat (length data) in
  if negb (sent <? s32 len) then kret (Return sent)
  else match fuel with
  | O => ub "tcp_send: no progress"
  | S f =>
      p <- rd i psnd ;;
      let cap := snd_wnd p -u (snd_nxt p -u snd_una p) in
      let cap := if (cap =? 0) && (snd_wnd p =? 0) && (snd_nxt p =? snd_una p) then mss else cap in
      if cap =? 0 then
        ok <- wait_tick_enter killed start 0 ;;
        if ok then kret (Wait {| sw_pcb := i; sw_sent := sent |})
        else if sent =? 0 then set_errno EINTR ;; kret (Return (-1))
        else kret (Return sent)
      else
        let slen := Z.min (Z.min mss (len -u sent)) cap in
        r <- tcp_output i (Z.lor TCP_FLG_ACK TCP_FLG_PSH) (slice (Z.to_nat sent) (Z.to_nat slen) data) ;;
        if r =? -1 then close_release i ;; kret (Return (-1))
        else
          wr i (fun p => set_psnd (set_snd_nxt (snd_nxt (psnd p) +u slen) (psnd p)) p) ;;
          send_loop killed f i mss start data (sent + slen)
  end.
(** From [RETRY]. *)
Definition send_retry (killed : bool) i (data : list Z) (sent : Z) : K tcp (segment Z send_wait) :=
  s <- kget ;;
  let p := pcbof s i in
  match state p with
  | ESTABLISHED | CLOSE_WAIT =>
      match ip_route_get_iface (addr (local p)) s with
      | None => kret (Return (-1))
      | Some iface =>
          let mss := dev_mtu iface -u (IP_HDR_SIZE_MIN + TCP_HDR_SIZE) in
          send_loop killed (length data) i mss (ticks s) data sent
      end
  | _ => kret (Return (-1))
  end.
Definition tcp_send (killed : bool) (id : Z) (data : list Z) : K tcp (segment Z send_wait) :=
  s <- kget ;;
  match tcp_pcb_get s id with
  | None => kret (Return (-1))
  | Some i => send_retry killed i data 0
  end.
Definition send_resume (killed : bool) (data : list Z) (w : send_wait) : K tcp (segment Z send_wait) :=
  ok <- wait_tick_leave killed ;;
  if ok then send_retry killed (sw_pcb w) data (sw_sent w)
  else if sw_sent w =? 0 then set_errno EINTR ;; kret (Return (-1))
  else kret (Return (sw_sent w)).

(** From [RETRY] of [tcp_receive]: the result and the bytes copied out. *)
Record recv_wait := { rw_pcb : nat; rw_start : Z }.
Definition receive_copy i (size remain : Z) : K tcp (segment (Z * list Z) recv_wait) :=
  p <- rd i id ;;
  let len := Z.min size remain in
  let out := slice 0 (Z.to_nat len) (buf p) in
  wr i (fun p => set_buf (splice 0 (slice (Z.to_nat len) (Z.to_nat (remain - len)) (buf p)) (buf p)) p) ;;
  wr i (fun p => set_prcv (set_rcv_wnd (u16 (rcv_wnd (prcv p) + len)) (prcv p)) p) ;;
  kret (Return (len, out)).
Definition receive_retry (killed : bool) i (size start : Z) : K tcp (segment (Z * list Z) recv_wait) :=
  s <- kget ;;
  let start := if start =? 0 then ticks s else start in
  let p := pcbof s i in
  let remain := BUFSIZE - rcv_wnd (prcv p) in
  match state p with
  | ESTABLISHED | FIN_WAIT1 | FIN_WAIT2 =>
      if remain =? 0 then
        ok <- wait_tick_enter killed start 0 ;;
        if ok then kret (Wait {| rw_pcb := i; rw_start := start |})
        else set_errno EINTR ;; kret (Return (-1, []))
      else receive_copy i size remain
  | CLOSE_WAIT => if remain =? 0 then kret (Return (0, [])) else receive_copy i size remain
  | CLOSING | LAST_ACK | TIME_WAIT => kret (Return (0, []))
  | FREE | CLOSED | LISTEN | SYN_SENT | SYN_RECEIVED => kret (Return (-1, []))
  end.
Definition tcp_receive (killed : bool) (id size : Z) : K tcp (segment (Z * list Z) recv_wait) :=
  s <- kget ;;
  match tcp_pcb_get s id with
  | None => kret (Return (-1, []))
  | Some i => receive_retry killed i size 0
  end.
Definition receive_resume (killed : bool) (size : Z) (w : recv_wait) : K tcp (segment (Z * list Z) recv_wait) :=
  ok <- wait_tick_leave killed ;;
  if ok then receive_retry killed (rw_pcb w) size (rw_start w)
  else set_errno EINTR ;; kret (Return (-1, [])).

(** The FIN of [tcp_close] and the state it leads to. *)
Definition close_fin i (st : pcb_state) : K tcp unit :=
  tcp_output i (Z.lor TCP_FLG_ACK TCP_FLG_FIN) [] ;;
  wr i (fun p => set_psnd (set_snd_nxt (snd_nxt (psnd p) +u 1) (psnd p)) p) ;;
  wr i (set_state st).
Definition tcp_close (id : Z) : K tcp Z :=
  s <- kget ;;
  match tcp_pcb_get s id with
  | None => kret (-1)
  | Some i =>
      let finish :=
        st <- rd i state ;;
        (if bool_decide (st = CLOSED) then tcp_pcb_release i else sched_wakeup i) ;;
        kret 0 in
      match state (pcbof s i) with
      | LISTEN | SYN_SENT => wr i (set_state CLOSED) ;; finish
      | SYN_RECEIVED | ESTABLISHED => close_fin i FIN_WAIT1 ;; finish
      | CLOSE_WAIT => close_fin i LAST_ACK ;; finish
      | FREE | CLOSED | FIN_WAIT1 | FIN_WAIT2 | CLOSING | LAST_ACK | TIME_WAIT => kret (-1)
      end
  end.

Definition tcp_sock_has_rx_data (id : Z) : K tcp Z :=
  s <- kget ;;
  match tcp_pcb_get s id with
  | None => kret (-1)
  | Some i =>
      let p := pcbof s i in
      match state p with
      | ESTABLISHED | FIN_WAIT1 | FIN_WAIT2 | CLOSE_WAIT => kret (cbool (0 <? BUFSIZE - rcv_wnd (prcv p)))
      | _ => kret 0
      end
  end.
Definition tcp_sock_listen_readable (id : Z) : K tcp Z :=
  s <- kget ;;
  match tcp_pcb_get s id with
  | None => kret (-1)
  | Some i =>
      if negb (bool_decide (state (pcbof s i) = LISTEN)) then kret 0
      else kret (match queue_peek (backlog (pcbof s i)) with Some _ => 1 | None => 0 end)
  end.
End Tcp.
