(* ===== verification/TcpSafe.v ===== *)
(** * Transmission control: what segments and commands do to the connections

    Every theorem is about a lower layer that does not call back into this one
    ([IpQuiet]): the device takes the frame, and the neighbour's address is in
    the ARP cache.

    - [segments_follow_the_diagram]: the state of every block moves along the
      edges of the state diagram;
    - [stream_in_order]: what the application reads is what arrived, in order,
      when segments begin at RCV.NXT and fit the window;
    - the segments for which that assumption of the code fails. *)

From Stdlib Require Import ZArith Lia.
From S2P Require Import Prelude Bytes NetUtil Pipe Tcp.

Definition set_low {I} (l : I) (s : tcp I) : tcp I :=
  {| pcbs := pcbs s; ticks := ticks s; errno := errno s; wakes := wakes s; low := l |}.

(** Sending and allocating change nothing here, and return. *)
Class IpQuiet (I : Type) `{IpOps I} := {
  ip_output_quiet proto d src dst (s : tcp I) : exists r l, ip_output proto d src dst s = Done r (set_low l s) /\ -1 <= r;
  memory_alloc_quiet n (s : tcp I) : exists b l, memory_alloc n s = Done b (set_low l s);
}.

(** ** The state diagram *)

Inductive edge : pcb_state -> pcb_state -> Prop :=
| e_stay st : edge st st
| e_child : edge FREE SYN_RECEIVED             (* a SYN at a listening socket *)
| e_syn : edge LISTEN SYN_RECEIVED             (* a SYN at a passive open *)
| e_synack : edge SYN_SENT ESTABLISHED
| e_simultaneous : edge SYN_SENT SYN_RECEIVED
| e_ack : edge SYN_RECEIVED ESTABLISHED
| e_ack_fin : edge SYN_RECEIVED CLOSE_WAIT     (* the ACK carries a FIN *)
| e_fin : edge ESTABLISHED CLOSE_WAIT
| e_fin_acked : edge FIN_WAIT1 FIN_WAIT2
| e_fin_both : edge FIN_WAIT1 CLOSING
| e_fin_acked_fin : edge FIN_WAIT1 TIME_WAIT
| e_fin_wait2 : edge FIN_WAIT2 TIME_WAIT
| e_closing : edge CLOSING TIME_WAIT
| e_released st : edge st FREE.                (* reset, or the last ACK *)
Create HintDb tcp discriminated.
#[export] Hint Constants Opaque : tcp.
#[export] Hint Constructors edge : tcp.

Section Lemmas.
Context {I : Type} `{IpQuiet I}.
Abbreviation tcp := (tcp I).
Implicit Types (i j : nat) (p : tcp_pcb) (s : tcp).

Definition states s : list pcb_state := state <$> pcbs s.

Lemma state_pcbof s i : state (pcbof s i) = default FREE (states s !! i).
Proof. unfold pcbof, states. rewrite list_lookup_fmap. rewrite nth_lookup. by destruct (pcbs s !! i). Qed.

(** ** The quiet layer *)

Lemma output_segment_quiet seq ack flg wnd data lo fo s : Z.of_nat (length data) <= 65495 ->
  exists r l, tcp_output_segment seq ack flg wnd data lo fo s = Done r (set_low l s) /\ -1 <= r.
Proof.
  intros Hd. unfold tcp_output_segment, IP_PAYLOAD_SIZE_MAX, IP_HDR_SIZE_MIN, TCP_HDR_SIZE. destruct (Z.ltb_spec (65535 - 20) (20 + Z.of_nat (length data))); [lia|].
  unfold kbind. destruct (ip_output_quiet IP_PROTOCOL_TCP (tcp_message seq ack flg wnd data lo fo) (addr lo) (addr fo) s) as (r & l & -> & Hr).
  destruct (r =? -1); eexists _, l; (split; [done|lia]).
Qed.

Lemma alter_rqueue_same s i : alter (set_rqueue (rqueue (pcbof s i))) i (pcbs s) = pcbs s.
Proof.
  unfold pcbof. destruct (pcbs s !! i) as [p|] eqn:E.
  - rewrite (alter_insert _ _ _ _ E), nth_lookup, E. apply list_insert_id. rewrite E. by destruct p.
  - apply list_eq. intros j. destruct (decide (j = i)) as [->|]; [by rewrite list_lookup_alter_eq, E|by rewrite list_lookup_alter_ne].
Qed.

Lemma queue_add_quiet i seq flg data s :
  exists r q l, tcp_retransmit_queue_add i seq flg data s = Done r (set_low l (set_pcbs (alter (set_rqueue q) i (pcbs s)) s)).
Proof.
  unfold tcp_retransmit_queue_add, kbind. destruct (memory_alloc_quiet (32 + Z.of_nat (length data)) s) as (b & l & ->).
  assert (Hsame : forall l, set_low l s = set_low l (set_pcbs (alter (set_rqueue (rqueue (pcbof s i))) i (pcbs s)) s)).
  { intros l'. rewrite alter_rqueue_same. by destruct s. }
  destruct b; cbn [negb]; [|eexists _, _, l; by rewrite <- Hsame]. cbn [kget].
  destruct (memory_alloc_quiet 8 (set_low l s)) as (b & l' & ->). cbn [rd kgets].
  destruct b; cbn [queue_push]; [|eexists _, _, l'; by rewrite <- Hsame]. by eexists _, _, l'.
Qed.

Lemma output_quiet i flg data s : Z.of_nat (length data) <= 65495 ->
  exists r q l, tcp_output i flg data s = Done r (set_low l (set_pcbs (alter (set_rqueue q) i (pcbs s)) s)) /\ -1 <= r.
Proof.
  intros Hd. unfold tcp_output. cbn [rd kgets kbind]. unfold kbind. destruct (_ || _).
  - destruct (queue_add_quiet i (if TCP_FLG_ISSET flg TCP_FLG_SYN then iss (pcbof s i) else snd_nxt (psnd (pcbof s i))) flg data s) as (r & q & l & E).
    unfold id in *. rewrite E. cbn [kret rd kgets]. edestruct output_segment_quiet as (r' & l' & -> & Hr); [done|]. by exists r', q, l'.
  - cbn [kret rd kgets]. edestruct output_segment_quiet as (r' & l' & -> & Hr); [done|]. exists r', (rqueue (pcbof s i)), l'. split; [|done].
    f_equal. rewrite alter_rqueue_same. by destruct s.
Qed.
(** A bare segment: nothing to retransmit. *)
Lemma output_ack_quiet i flg s : TCP_FLG_ISSET flg (Z.lor TCP_FLG_SYN TCP_FLG_FIN) = false ->
  exists r l, tcp_output i flg [] s = Done r (set_low l s) /\ -1 <= r.
Proof.
  intros Hf. unfold tcp_output. rewrite Hf. unfold kbind. change (negb (Z.of_nat (length []) =? 0)) with false. cbn [rd kgets orb kret].
  edestruct output_segment_quiet as (r' & l' & -> & Hr); [|by exists r', l']. simpl. lia.
Qed.

(** ** Computations that return and leave a view of the blocks as it is *)

(** [m] returns with [post], or fails, which [bad] explains. *)
Definition sound {A} (bad : Prop) (m : K tcp A) (post : A -> tcp -> Prop) s : Prop :=
  match m s with Done a s' => post a s' | Panicked _ _ => bad | Slept _ _ => False end.

Lemma sound_bind {A B} bad (m : K tcp A) (k : A -> K tcp B) post s :
  sound bad m (fun a => sound bad (k a) post) s -> sound bad (kbind m k) post s.
Proof. unfold sound, kbind. by destruct (m s). Qed.
Lemma sound_ret {A} bad (a : A) (post : A -> tcp -> Prop) s : post a s -> sound bad (kret a) post s.
Proof. done. Qed.
Lemma sound_mono {A} (bad : Prop) (m : K tcp A) (post post' : A -> tcp -> Prop) s :
  sound False m post s -> (forall a s', post a s' -> post' a s') -> sound bad m post' s.
Proof. unfold sound. destruct (m s); naive_solver. Qed.
Lemma sound_rd {A B} bad i (f : tcp_pcb -> A) (k : A -> K tcp B) post s :
  sound bad (k (f (pcbof s i))) post s -> sound bad (kbind (rd i f) k) post s.
Proof. done. Qed.
Lemma sound_get {B} bad (k : tcp -> K tcp B) post s : sound bad (k s) post s -> sound bad (kbind kget k) post s.
Proof. done. Qed.

Definition keeps {V A} (v : tcp_pcb -> V) (m : K tcp A) : Prop := forall s, sound False m (fun _ s' => v <$> pcbs s' = v <$> pcbs s) s.

(** A view that does not look at the retransmission queue. *)
Class View {V} (v : tcp_pcb -> V) := view_rqueue q p : v (set_rqueue q p) = v p.

Section keeps.
Context {V : Type} (v : tcp_pcb -> V).

Lemma sound_keep {A B} bad (m : K tcp A) (k : A -> K tcp B) post s :
  keeps v m -> (forall a s', v <$> pcbs s' = v <$> pcbs s -> sound bad (k a) post s') -> sound bad (kbind m k) post s.
Proof. intros Hm Hk. apply sound_bind. eapply sound_mono; [apply Hm|]. apply Hk. Qed.
Lemma keeps_ret {A} (a : A) : keeps v (kret a).
Proof. done. Qed.
Lemma keeps_gets {A} (f : tcp -> A) : keeps v (kgets f).
Proof. done. Qed.
Lemma keeps_rd {A} i (f : tcp_pcb -> A) : keeps v (rd i f).
Proof. done. Qed.
Lemma keeps_get : keeps v kget.
Proof. done. Qed.
Lemma keeps_bind {A B} (m : K tcp A) (k : A -> K tcp B) : keeps v m -> (forall a, keeps v (k a)) -> keeps v (kbind m k).
Proof. intros Hm Hk s. apply sound_keep; [done|]. intros a s' <-. apply Hk. Qed.
Lemma keeps_if {A} (b : bool) (m m' : K tcp A) : keeps v m -> keeps v m' -> keeps v (if b then m else m').
Proof. by destruct b. Qed.
Lemma views_alter i f s : (forall p, v (f p) = v p) -> v <$> alter f i (pcbs s) = v <$> pcbs s.
Proof.
  intros Hf. apply list_eq. intros j. rewrite !list_lookup_fmap.
  destruct (decide (i = j)) as [->|]; [rewrite list_lookup_alter_eq|by rewrite list_lookup_alter_ne]. destruct (pcbs s !! j); [|done]. simpl. by rewrite Hf.
Qed.
Lemma keeps_wr i f : (forall p, v (f p) = v p) -> keeps v (wr i f).
Proof. intros Hf s. by apply views_alter. Qed.
Lemma keeps_wakeup i : keeps v (sched_wakeup i).
Proof. done. Qed.
Lemma keeps_errno e : keeps v (set_errno e).
Proof. done. Qed.
Lemma keeps_segment seq ack flg wnd data lo fo : Z.of_nat (length data) <= 65495 -> keeps v (tcp_output_segment seq ack flg wnd data lo fo).
Proof. intros Hd s. destruct (output_segment_quiet seq ack flg wnd data lo fo s Hd) as (r & l & E & _). unfold sound. by rewrite E. Qed.
Lemma keeps_segment_nil seq ack flg wnd lo fo : keeps v (tcp_output_segment seq ack flg wnd [] lo fo).
Proof. apply keeps_segment. simpl. lia. Qed.
Lemma keeps_alloc n : keeps v (memory_alloc n).
Proof. intros s. destruct (memory_alloc_quiet n s) as (b & l & E). unfold sound. by rewrite E. Qed.
Context `{!View v}.
Lemma keeps_output i flg data : Z.of_nat (length data) <= 65495 -> keeps v (tcp_output i flg data).
Proof.
  intros Hd s. destruct (output_quiet i flg data s Hd) as (r & q & l & E & _). unfold sound. rewrite E.
  apply (views_alter i (set_rqueue q)), view_rqueue.
Qed.
Lemma keeps_output_nil i flg : keeps v (tcp_output i flg []).
Proof. apply keeps_output. simpl. lia. Qed.
End keeps.
End Lemmas.
#[export] Hint Extern 3 (View _) => (intros ? ?; reflexivity) : typeclass_instances.
(** Computations built from those. *)
Ltac keep :=
  lazymatch goal with
  | |- keeps _ (kret _) => apply keeps_ret
  | |- keeps _ (kgets _) => apply keeps_gets
  | |- keeps _ (rd _ _) => apply keeps_rd
  | |- keeps _ kget => apply keeps_get
  | |- keeps _ (kbind _ _) => apply keeps_bind; [keep|intros ?; keep]
  | |- keeps _ (if _ then _ else _) => apply keeps_if; keep
  | |- keeps _ (match ?x with _ => _ end) => destruct x; keep
  | |- keeps _ (wr _ _) => apply keeps_wr; done
  | |- keeps _ (sched_wakeup _) => apply keeps_wakeup
  | |- keeps _ (set_errno _) => apply keeps_errno
  | |- keeps _ (memory_alloc _) => apply keeps_alloc
  | |- keeps _ (tcp_output _ _ []) => apply keeps_output_nil; intros ? ?; reflexivity
  | |- keeps _ (tcp_output_segment _ _ _ _ [] _ _) => apply keeps_segment_nil
  | |- keeps _ (tcp_retransmit_queue_cleanup _) => apply keeps_wr; done
  | |- keeps _ _ => auto with tcp
  end.

(** Go past a computation that keeps the view [v]. *)
Ltac skip v :=
  let a := fresh "a" in let s' := fresh "s" in let E := fresh "Ev" in
  apply (sound_keep v); [solve [keep]|intros a s' E; cbn beta].

(** ** Releasing a block *)

Lemma sum_alter {A} (f : A -> nat) g (l : list A) i x : l !! i = Some x ->
  (sum_list_with f (alter g i l) + f x = sum_list_with f l + f (g x))%nat.
Proof. revert i. induction l as [|y l IH]; intros [|i] Hx; simplify_eq/=; [lia|]. specialize (IH i Hx). change (list_alter g i l) with (alter g i l). lia. Qed.
Lemma alter_none {A} (g : A -> A) (l : list A) i : l !! i = None -> alter g i l = l.
Proof.
  intros E. apply list_eq. intros j. destruct (decide (i = j)) as [->|]; [by rewrite list_lookup_alter_eq, E|by rewrite list_lookup_alter_ne].
Qed.

Section Release.
Context {I : Type} `{IpQuiet I}.
Abbreviation tcp := (tcp I).
Implicit Types (i j : nat) (p : tcp_pcb) (s : tcp).

(** Blocks keep their state or are freed. *)
Definition frees s s' : Prop := length (pcbs s') = length (pcbs s) /\ forall j, states s' !! j = states s !! j \/ states s' !! j = Some FREE.
Lemma frees_refl s : frees s s.
Proof. split; [done|]. by left. Qed.
Lemma frees_trans s1 s2 s3 : frees s1 s2 -> frees s2 s3 -> frees s1 s3.
Proof. intros [L1 H1] [L2 H2]. split; [congruence|]. intros j. destruct (H2 j) as [E|]; [rewrite E; apply H1|by right]. Qed.
Lemma frees_keep s s' : state <$> pcbs s' = state <$> pcbs s -> frees s s'.
Proof. intros E. split; [|intros j; left; unfold states; by rewrite E]. apply (f_equal length) in E. by rewrite !length_fmap in E. Qed.
Lemma frees_wipe s i : frees s (set_pcbs (alter (fun _ => pcb0) i (pcbs s)) s).
Proof.
  split; [apply length_alter|]. intros j. unfold states. cbn [set_pcbs pcbs]. rewrite !list_lookup_fmap. destruct (decide (i = j)) as [->|].
  - rewrite list_lookup_alter_eq. destruct (pcbs s !! j); [by right|by left].
  - rewrite list_lookup_alter_ne by done. by left.
Qed.

Lemma backlogs_alter s i f : (forall p, length (entries (backlog (f p))) <= length (entries (backlog p)))%nat ->
  (backlogs (set_pcbs (alter f i (pcbs s)) s) <= backlogs s)%nat.
Proof.
  intros Hf. unfold backlogs. cbn [set_pcbs pcbs]. destruct (pcbs s !! i) as [p|] eqn:E; [|by rewrite alter_none].
  pose proof (sum_alter (fun p => length (entries (backlog p))) f _ _ _ E) as Hs. specialize (Hf p). cbn beta in Hs. lia.
Qed.
Lemma backlogs_pop s i q' est : queue_pop (backlog (pcbof s i)) = Some (est, q') ->
  (backlogs (set_pcbs (alter (set_backlog q') i (pcbs s)) s) < backlogs s)%nat.
Proof.
  unfold pcbof, backlogs. cbn [set_pcbs pcbs]. rewrite nth_lookup. destruct (pcbs s !! i) as [p|] eqn:E; [|done]. cbn [default]. unfold queue_pop.
  pose proof (sum_alter (fun p => length (entries (backlog p))) (set_backlog q') _ _ _ E) as Hs. unfold id.
  destruct (entries (backlog p)) as [|d l] eqn:El; [done|]. intros [= -> <-]. cbn [set_backlog backlog entries] in Hs. rewrite El in Hs. simpl in Hs. lia.
Qed.

(** With fuel for the entries of all backlogs, the recursion returns. *)
Lemma release_sound f : forall i s,
  ((2 * backlogs s + 2 <= f)%nat -> sound False (release_pcb f i) (fun _ s' => frees s s' /\ (backlogs s' <= backlogs s)%nat /\ state (pcbof s' i) = FREE) s) /\
  ((2 * backlogs s + 1 <= f)%nat -> sound False (release_backlog f i) (fun _ s' => frees s s' /\ (backlogs s' <= backlogs s)%nat) s).
Proof.
  induction f as [|f IH]; intros i s; split; intros Hf; try lia; cbn [release_pcb release_backlog].
  - apply sound_bind. unfold wr at 1, kmodify, sound at 1. set (s1 := set_pcbs _ s).
    assert (H1 : frees s s1) by (apply frees_keep; by apply (views_alter state)).
    assert (B1 : (backlogs s1 <= backlogs s)%nat) by by apply backlogs_alter.
    apply sound_bind. eapply sound_mono; [apply IH; lia|]. intros _ s2 [H2 B2]. unfold wr, kmodify, sound. split.
    + eapply frees_trans; [by eapply frees_trans|]. apply frees_wipe.
    + split.
      * assert (backlogs (set_pcbs (alter (fun _ => pcb0) i (pcbs s2)) s2) <= backlogs s2)%nat; [|lia]. apply backlogs_alter. intros. simpl. lia.
      * unfold pcbof. cbn [set_pcbs pcbs]. rewrite nth_lookup, list_lookup_alter_eq. by destruct (pcbs s2 !! i).
  - apply sound_rd. destruct (queue_pop (backlog (pcbof s i))) as [[est q']|] eqn:Eq; [|split; [apply frees_refl|done]].
    apply sound_bind. unfold wr at 1, kmodify, sound at 1. set (s1 := set_pcbs _ s).
    assert (H1 : frees s s1) by (apply frees_keep; by apply (views_alter state)).
    pose proof (backlogs_pop _ _ _ _ Eq) as B1. fold s1 in B1.
    apply sound_bind. eapply sound_mono; [apply IH; lia|]. intros _ s2 (H2 & B2 & _).
    eapply sound_mono; [apply IH; lia|]. intros _ s3 [H3 B3]. split; [|lia]. eapply frees_trans; [by eapply frees_trans|done].
Qed.
Lemma pcb_release_sound i s : sound False (tcp_pcb_release i) (fun _ s' => frees s s' /\ state (pcbof s' i) = FREE) s.
Proof. unfold tcp_pcb_release. apply sound_get. eapply sound_mono; [by apply release_sound|]. by intros ? ? (? & _ & ?). Qed.

(** ** Reading one block after an update *)

Lemma pcbof_alter s i j f : (i < length (pcbs s))%nat ->
  pcbof (set_pcbs (alter f i (pcbs s)) s) j = if decide (i = j) then f (pcbof s i) else pcbof s j.
Proof.
  intros Hi. unfold pcbof. cbn [set_pcbs pcbs]. rewrite !nth_lookup, list_lookup_alter. destruct (decide (i = j)); [|done].
  destruct (lookup_lt_is_Some_2 _ _ Hi) as [p ->]. done.
Qed.
Lemma view_pcbof {V} (v : tcp_pcb -> V) s s' j : v <$> pcbs s' = v <$> pcbs s -> v (pcbof s' j) = v (pcbof s j).
Proof.
  intros E. apply (f_equal (.!! j)) in E. rewrite !list_lookup_fmap in E. unfold pcbof. rewrite !nth_lookup.
  destruct (pcbs s' !! j), (pcbs s !! j); simplify_eq/=; done.
Qed.
Lemma view_length {V} (v : tcp_pcb -> V) s s' : v <$> pcbs s' = v <$> pcbs s -> length (pcbs s') = length (pcbs s).
Proof. intros E. apply (f_equal length) in E. by rewrite !length_fmap in E. Qed.

(** Every block takes an edge of the diagram. *)
Definition moves s s' : Prop := forall j, edge (state (pcbof s j)) (state (pcbof s' j)).
Lemma moves_keep s s' : state <$> pcbs s' = state <$> pcbs s -> moves s s'.
Proof. intros E j. rewrite (view_pcbof state _ _ j E). constructor. Qed.
Lemma moves_frees s s' : frees s s' -> moves s s'.
Proof. intros [_ Hf] j. rewrite !state_pcbof. destruct (Hf j) as [->| ->]; constructor. Qed.

Lemma close_release_sound i s : sound False (close_release i) (fun _ s' => moves s s') s.
Proof.
  unfold close_release. apply sound_bind. unfold wr at 1, kmodify, sound at 1. set (s1 := set_pcbs _ s).
  eapply sound_mono; [apply pcb_release_sound|]. intros _ s2 [[Hl Hf] Hi] j. destruct (decide (i = j)) as [<-|Hj]; [rewrite Hi; constructor|].
  rewrite !state_pcbof. destruct (Hf j) as [->| ->]; [|constructor]. unfold states, s1. cbn [set_pcbs pcbs].
  rewrite !list_lookup_fmap, list_lookup_alter_ne by done. constructor.
Qed.
End Release.

(** ** Segments and the state diagram *)

Section Diagram.
Context {I : Type} `{IpQuiet I}.
Abbreviation tcp := (tcp I).
Implicit Types (i j : nat) (p : tcp_pcb) (s : tcp).
Context (seg : tcp_segment_info) (flags : Z) (data : list Z) (lo fo : ip_endpoint).

(** Block [i] goes to [st], the others stay. *)
Definition sets i (st : pcb_state) s s' : Prop :=
  length (pcbs s') = length (pcbs s) /\ state (pcbof s' i) = st /\ forall j, j <> i -> state (pcbof s' j) = state (pcbof s j).
Lemma sets_wr i st s : (i < length (pcbs s))%nat -> sets i st s (set_pcbs (alter (set_state st) i (pcbs s)) s).
Proof.
  intros Hi. split; [apply length_alter|]. split; [by rewrite pcbof_alter, decide_True by done|]. intros j Hj. by rewrite pcbof_alter, decide_False by done.
Qed.
Lemma sets_before i st s s1 s2 : state <$> pcbs s1 = state <$> pcbs s -> sets i st s1 s2 -> sets i st s s2.
Proof.
  intros E (Hl & Hi & Hj). split; [by rewrite Hl, (view_length _ _ _ E)|]. split; [done|]. intros j Hne. by rewrite Hj, (view_pcbof state _ _ j E).
Qed.
Lemma sets_after i st s s1 s2 : sets i st s s1 -> state <$> pcbs s2 = state <$> pcbs s1 -> sets i st s s2.
Proof.
  intros (Hl & Hi & Hj) E. split; [by rewrite (view_length _ _ _ E)|]. split; [by rewrite (view_pcbof state _ _ i E)|].
  intros j Hne. by rewrite (view_pcbof state _ _ j E), Hj.
Qed.
Lemma sets_trans i st st' s s1 s2 : sets i st s s1 -> sets i st' s1 s2 -> sets i st' s s2.
Proof. intros (L1 & _ & H1) (L2 & H2 & H3). split; [congruence|]. split; [done|]. intros j Hj. by rewrite H3, H1. Qed.
Lemma sets_refl i s : sets i (state (pcbof s i)) s s.
Proof. done. Qed.
Lemma moves_sets i st s s' : sets i st s s' -> edge (state (pcbof s i)) st -> moves s s'.
Proof. intros (_ & Hi & Hj) He j. destruct (decide (j = i)) as [->|Hne]; [by rewrite Hi|]. rewrite Hj by done. constructor. Qed.

(** [wr i (set_state st)] followed by computations that keep the states. *)
Lemma sound_set {A} bad i st (m : K tcp A) (post : A -> tcp -> Prop) s : (i < length (pcbs s))%nat ->
  (forall s', sets i st s s' -> sound bad m post s') -> sound bad (wr i (set_state st) ;; m) post s.
Proof. intros Hi Hm. apply sound_bind. unfold wr, kmodify, sound at 1. apply Hm. by apply sets_wr. Qed.
Lemma sets_keeps {A} bad i st (m : K tcp A) s s1 : sets i st s s1 -> keeps state m -> sound bad m (fun _ => sets i st s) s1.
Proof. intros Hs Hm. eapply sound_mono; [apply Hm|]. intros ? s2 E. by eapply sets_after. Qed.
Lemma set_sound bad i st s : (i < length (pcbs s))%nat -> sound bad (wr i (set_state st)) (fun _ => sets i st s) s.
Proof. intros Hi. unfold wr, kmodify, sound. by apply sets_wr. Qed.
Lemma keeps_moves {A} bad (m : K tcp A) s : keeps state m -> sound bad m (fun _ => moves s) s.
Proof. intros Hm. eapply sound_mono; [apply Hm|]. intros ? s'. apply moves_keep. Qed.

Lemma select_lt s l f i : tcp_pcb_select s l f = Some i -> (i < length (pcbs s))%nat.
Proof.
  unfold tcp_pcb_select. assert (Hg : forall ps k o, (forall x, o = Some x -> x < k)%nat -> select_loop ps k l f o = Some i -> (i < k + length ps)%nat).
  { induction ps as [|q ps IH]; intros k o Ho; cbn [select_loop length]; [intros E; apply Ho in E; lia|].
    assert (forall o', (forall x, o' = Some x -> x < S k)%nat -> select_loop ps (S k) l f o' = Some i -> (i < k + S (length ps))%nat).
    { intros o' Ho' E. specialize (IH _ _ Ho' E). lia. }
    assert (Ho' : forall x, o = Some x -> (x < S k)%nat) by (intros x E; apply Ho in E; lia).
    destruct (endpoint_match q l); [|by eauto]. destruct f as [f'|]; [|intros [= <-]; lia].
    destruct (_ && _); [intros [= <-]; lia|]. destruct (_ && _ && _); [|by eauto]. eapply H1. intros x [= <-]. lia. }
  intros E. apply (Hg _ _ None) in E; [lia|done].
Qed.
Lemma alloc_sound s : sound False tcp_pcb_alloc (fun o s' => match o with
  | None => state <$> pcbs s' = state <$> pcbs s
  | Some n => (n < length (pcbs s))%nat /\ state (pcbof s n) = FREE /\ sets n CLOSED s s' end) s.
Proof.
  unfold tcp_pcb_alloc. apply sound_get. destruct (list_find _ _) as [[n p]|] eqn:E; [|done].
  apply list_find_Some in E as (En & Ep & _). pose proof (lookup_lt_Some _ _ _ En) as Hn.
  apply sound_set; [done|]. intros s' Hs. skip state. split; [done|]. split; [unfold pcbof; by rewrite nth_lookup, En|]. by eapply sets_after.
Qed.

Lemma keep_sets {A B} bad i st (m : K tcp A) (k : A -> K tcp B) s : (i < length (pcbs s))%nat -> keeps state m ->
  (forall a s', (i < length (pcbs s'))%nat -> sound bad (k a) (fun _ => sets i st s') s') -> sound bad (kbind m k) (fun _ => sets i st s) s.
Proof.
  intros Hi Hm Hk. apply (sound_keep state); [done|]. intros a s' E. unfold sound in *. specialize (Hk a s' ltac:(by rewrite (view_length _ _ _ E))).
  destruct (k a s'); [|done|done]. by eapply sets_before.
Qed.
Ltac skips := repeat (lazymatch goal with |- sound _ (kbind _ _) _ _ => apply keep_sets; [done|solve [keep]|]; intros ? ? ? end).

Lemma keeps_reset {V} (v : tcp_pcb -> V) : keeps v (reset_reply seg lo fo).
Proof. unfold reset_reply. keep. Qed.
Lemma keeps_closed {V} (v : tcp_pcb -> V) : keeps v (seg_closed seg flags lo fo).
Proof. unfold seg_closed. keep; apply keeps_reset. Qed.
Lemma keeps_timewait {V} (v : tcp_pcb -> V) i : (forall t p, v (set_tw_timer t p) = v p) -> keeps (I := I) v (tcp_set_timewait_timer i).
Proof. intros Hv. unfold tcp_set_timewait_timer. apply keeps_bind; [keep|]. intros s. by apply keeps_wr. Qed.

Lemma listen_syn_sound i s : (i < length (pcbs s))%nat -> sound False (listen_syn seg lo fo i) (fun _ => sets i SYN_RECEIVED s) s.
Proof. intros Hi. unfold listen_syn. skips. by apply set_sound. Qed.

Lemma seg_listen_sound i s : (i < length (pcbs s))%nat -> state (pcbof s i) = LISTEN ->
  sound False (seg_listen seg flags lo fo i) (fun _ => moves s) s.
Proof.
  intros Hi Hst. unfold seg_listen. destruct (TCP_FLG_ISSET flags TCP_FLG_RST); [by apply moves_keep|].
  destruct (TCP_FLG_ISSET flags TCP_FLG_ACK); [apply keeps_moves, keeps_reset|]. destruct (TCP_FLG_ISSET flags TCP_FLG_SYN); [|by apply moves_keep].
  apply sound_rd. destruct (_ =? _).
  - apply sound_bind. eapply sound_mono; [apply alloc_sound|]. intros [n|] s1; [|by apply moves_keep]. intros (Hn & Hf & H1).
    assert (Hn1 : (n < length (pcbs s1))%nat) by (destruct H1 as [-> _]; done).
    eapply (sound_mono _ _ (fun _ => sets n SYN_RECEIVED s1)).
    + skips. by apply listen_syn_sound.
    + intros ? s2 H2. apply (moves_sets n SYN_RECEIVED); [exact (sets_trans _ _ _ _ _ _ H1 H2)|]. rewrite Hf. constructor.
  - eapply sound_mono; [by apply listen_syn_sound|]. intros ? s2 H2. eapply moves_sets; [exact H2|]. rewrite Hst. constructor.
Qed.

Lemma seg_syn_sent_sound i s : (i < length (pcbs s))%nat -> state (pcbof s i) = SYN_SENT ->
  sound False (seg_syn_sent seg flags lo fo i) (fun _ => moves s) s.
Proof.
  intros Hi Hst. unfold seg_syn_sent. apply sound_rd. destruct (TCP_FLG_ISSET flags TCP_FLG_ACK && _); [apply keeps_moves, keeps_reset|].
  destruct (TCP_FLG_ISSET flags TCP_FLG_RST).
  { destruct (_ && _); [|by apply moves_keep]. apply close_release_sound. }
  destruct (TCP_FLG_ISSET flags TCP_FLG_SYN); [|by apply moves_keep].
  assert (Hsets : forall st (m : K tcp unit), keeps state m -> edge SYN_SENT st -> forall s1, state <$> pcbs s1 = state <$> pcbs s ->
    sound False (wr i (set_state st) ;; m) (fun _ => moves s) s1).
  { intros st m Hm He s1 E. apply sound_set; [by rewrite (view_length _ _ _ E)|]. intros s2 H2.
    eapply sound_mono; [by eapply sets_keeps|]. intros ? s3 H3. cbn beta in H3. eapply moves_sets; [by eapply sets_before|]. by rewrite Hst. }
  skip (@state). skip (@state).
  apply (sound_keep state); [solve [keep]|]. intros _ s2 E2.
  apply sound_rd. assert (E : state <$> pcbs s2 = state <$> pcbs s) by congruence.
  destruct (_ <? _); apply Hsets; (keep || constructor || done).
Qed.
(** *** The synchronized states *)

Definition wview p : pcb_state * Z := (state p, rcv_wnd (prcv p)).
(** As [sets], with the window of block [i] as it was. *)
Definition goes i st s s' : Prop := sets i st s s' /\ rcv_wnd (prcv (pcbof s' i)) = rcv_wnd (prcv (pcbof s i)).
Lemma wview_state s s' : wview <$> pcbs s' = wview <$> pcbs s -> state <$> pcbs s' = state <$> pcbs s.
Proof. intros E. apply (f_equal (fmap fst)) in E. by rewrite <- !list_fmap_compose in E. Qed.
Lemma goes_after i st s s1 s2 : goes i st s s1 -> wview <$> pcbs s2 = wview <$> pcbs s1 -> goes i st s s2.
Proof.
  intros [Hs Hw] E. split; [by eapply sets_after; [|apply wview_state]|]. pose proof (view_pcbof _ _ _ i E) as [= _ E']. congruence.
Qed.
Lemma goes_stay i s s' : wview <$> pcbs s' = wview <$> pcbs s -> goes i (state (pcbof s i)) s s'.
Proof. intros E. by eapply goes_after. Qed.
Lemma goes_set i st s s1 : (i < length (pcbs s))%nat -> wview <$> pcbs s1 = wview <$> pcbs s ->
  goes i st s (set_pcbs (alter (set_state st) i (pcbs s1)) s1).
Proof.
  intros Hi E. assert (Hi1 : (i < length (pcbs s1))%nat) by by rewrite (view_length _ _ _ E).
  split; [eapply sets_before; [by apply wview_state|]; by apply sets_wr|]. rewrite pcbof_alter, decide_True by done.
  pose proof (view_pcbof _ _ _ i E) as [= _ E']. done.
Qed.
Lemma goes_trans i st st' s s1 s2 : goes i st s s1 -> goes i st' s1 s2 -> goes i st' s s2.
Proof. intros [S1 W1] [S2 W2]. split; [by eapply sets_trans|congruence]. Qed.

(** What an acceptable ACK, and then a FIN, does to the state. *)
Inductive ack_edge : pcb_state -> pcb_state -> Prop :=
| ae_stay st : ack_edge st st
| ae_fin1 : ack_edge FIN_WAIT1 FIN_WAIT2
| ae_closing : ack_edge CLOSING TIME_WAIT
| ae_syn : ack_edge SYN_RECEIVED ESTABLISHED.
Inductive fin_edge : pcb_state -> pcb_state -> Prop :=
| fe_stay st : fin_edge st st
| fe_syn : fin_edge SYN_RECEIVED CLOSE_WAIT
| fe_est : fin_edge ESTABLISHED CLOSE_WAIT
| fe_fin1 : fin_edge FIN_WAIT1 CLOSING
| fe_fin1' : fin_edge FIN_WAIT1 TIME_WAIT
| fe_fin2 : fin_edge FIN_WAIT2 TIME_WAIT.
Lemma ack_fin_edge a b c : ack_edge a b -> fin_edge b c -> edge a c.
Proof. destruct 1; inversion 1; subst; constructor. Qed.

(** The outcome of a step: processing goes on with [R], or ends. *)
Definition step_post (R : tcp -> Prop) s (go : bool) s' : Prop := if go then R s' else moves s s'.

Lemma end_step bad (m : K tcp unit) (R : tcp -> Prop) s : sound False m (fun _ => moves s) s -> sound bad (m ;; kret false) (step_post R s) s.
Proof. intros Hm. apply sound_bind. eapply sound_mono; [exact Hm|]. done. Qed.
Lemma seg_sequence_sound i s : sound False (seg_sequence seg flags i) (step_post (eq s) s) s.
Proof.
  unfold seg_sequence. apply sound_rd. destruct (_ && _); [|done]. apply end_step, keeps_moves. keep.
Qed.
Lemma seg_rst_sound i s : sound False (seg_rst flags i) (step_post (eq s) s) s.
Proof. unfold seg_rst. apply sound_rd. destruct (_ && _); [|done]. apply end_step, close_release_sound. Qed.
Lemma seg_syn_sound i s : sound False (seg_syn flags i) (step_post (eq s) s) s.
Proof.
  unfold seg_syn. apply sound_rd. destruct (_ && _); [|done]. skip (@state). apply sound_bind. eapply sound_mono; [apply close_release_sound|].
  intros ? s2 H2 j. rewrite <- (view_pcbof _ _ _ j Ev). apply H2.
Qed.

Lemma ack_established_sound i s : (i < length (pcbs s))%nat ->
  sound False (ack_established seg i) (step_post (fun s' => exists st, goes i st s s' /\ ack_edge (state (pcbof s i)) st) s) s.
Proof.
  intros Hi. unfold ack_established. apply sound_rd. apply sound_bind.
  eapply (sound_mono _ _ (fun _ s' => wview <$> pcbs s' = wview <$> pcbs s)); [apply (keeps_if wview); [keep|]; apply keeps_if; keep|].
  intros go s1 E1. destruct go; cbn [negb]; [|by apply moves_keep, wview_state]. apply sound_rd.
  pose proof (view_pcbof _ _ _ i E1) as [= Est _]. unfold id. rewrite Est.
  assert (Hstay : forall s', wview <$> pcbs s' = wview <$> pcbs s1 -> exists st, goes i st s s' /\ ack_edge (state (pcbof s i)) st).
  { intros s' E. exists (state (pcbof s i)). split; [apply goes_stay; congruence|constructor]. }
  assert (Hgo : forall st (m : K tcp unit), keeps wview m -> ack_edge (state (pcbof s i)) st ->
    sound False (wr i (set_state st) ;; m) (fun _ s' => exists st, goes i st s s' /\ ack_edge (state (pcbof s i)) st) s1).
  { intros st m Hm He. apply sound_bind. unfold wr, kmodify, sound at 1. eapply sound_mono; [apply Hm|]. intros ? s2 E2.
    exists st. split; [|done]. eapply goes_after; [by apply (goes_set i st s s1)|done]. }
  destruct (state (pcbof s i)) eqn:Es; try (by apply Hstay).
  - destruct (_ =? _); [|by apply Hstay]. apply sound_bind. unfold wr, kmodify, sound at 1. exists FIN_WAIT2. split; [by apply goes_set|constructor].
  - destruct (_ =? _); [|by apply Hstay]. apply sound_bind. eapply sound_mono; [apply Hgo; [|constructor]|by intros].
    apply keeps_bind; [by apply keeps_timewait|]. intros ?. keep.
Qed.
Lemma ack_syn_received_sound i s : (i < length (pcbs s))%nat ->
  sound False (ack_syn_received seg lo fo i) (step_post (goes i ESTABLISHED s) s) s.
Proof.
  intros Hi. unfold ack_syn_received. apply sound_rd. destruct (_ && _).
  - apply sound_bind. unfold wr at 1, kmodify, sound at 1. set (s1 := set_pcbs _ s).
    assert (H1 : goes i ESTABLISHED s s1) by by apply goes_set.
    apply (sound_keep wview); [keep|]. intros _ s2 E2. apply (sound_keep wview); [keep|]. intros _ s3 E3.
    cbn. eapply goes_after; [exact H1|]. congruence.
  - apply end_step, keeps_moves, keeps_reset.
Qed.

Definition ack_post i s s' : Prop := exists st, goes i st s s' /\ ack_edge (state (pcbof s i)) st.
Lemma seg_ack_field_sound i s : (i < length (pcbs s))%nat -> sound False (seg_ack_field seg flags lo fo i) (step_post (ack_post i s) s) s.
Proof.
  intros Hi. unfold seg_ack_field. destruct (negb _); [by apply moves_keep|]. apply sound_rd. unfold id.
  assert (Hstay : ack_post i s s) by (exists (state (pcbof s i)); split; [by apply goes_stay|constructor]).
  destruct (state (pcbof s i)) eqn:Es; try done; try (by apply ack_established_sound).
  - apply sound_bind. eapply sound_mono; [by apply ack_syn_received_sound|]. intros [|] s1 H1; cbn [step_post] in H1; [|done].
    pose proof H1 as [[Hl [H1s H1j]] H1w]. eapply sound_mono; [apply ack_established_sound; congruence|].
    intros [|] s2 H2; cbn [step_post] in *.
    + destruct H2 as (st & Hg & He). exists st. split; [by eapply goes_trans|]. rewrite Es. rewrite H1s in He. inversion He; subst. constructor.
    + intros j. specialize (H2 j). destruct (decide (j = i)) as [->|Hj]; [|by rewrite H1j in H2].
      rewrite Es. rewrite H1s in H2. inversion H2; subst; constructor.
  - apply sound_bind. eapply (sound_mono _ _ (fun _ s' => wview <$> pcbs s' = wview <$> pcbs s)).
    + destruct (TCP_FLG_ISSET flags TCP_FLG_FIN); [by apply keeps_timewait|done].
    + intros ? s1 E1. exists (state (pcbof s i)). split; [by apply goes_stay|]. rewrite Es. constructor.
  - apply end_step. destruct (_ =? _); [apply close_release_sound|by apply moves_keep].
Qed.

(** The text fits the room that the window leaves in the buffer. *)
Definition overlong i s : Prop := rcv_wnd (prcv (pcbof s i)) < Z.of_nat (length data).
Lemma seg_text_sound i s : sound (overlong i s) (seg_text seg data i) (fun _ s' => state <$> pcbs s' = state <$> pcbs s) s.
Proof.
  assert (Htext : sound (overlong i s)
    (if Z.of_nat (length data) =? 0 then kret tt
     else
       buf_append data i ;;
       wr i (fun p => set_prcv (set_rcv_nxt (seg_seq seg +u seg_len seg) (prcv p)) p) ;;
       wr i (fun p => set_prcv (set_rcv_wnd (u16 (rcv_wnd (prcv p) - Z.of_nat (length data))) (prcv p)) p) ;;
       tcp_output i TCP_FLG_ACK [] ;;
       sched_wakeup i) (fun _ s' => state <$> pcbs s' = state <$> pcbs s) s).
  { destruct (_ =? 0); [done|]. apply sound_bind. unfold buf_append. apply sound_rd. unfold id.
    destruct (Z.ltb_spec BUFSIZE (BUFSIZE - rcv_wnd (prcv (pcbof s i)) + Z.of_nat (length data))); [unfold sound, ub, overlong; lia|].
    unfold wr at 1, kmodify, sound at 1. set (s1 := set_pcbs _ s). assert (E1 : state <$> pcbs s1 = state <$> pcbs s) by by apply (views_alter state).
    rewrite <- E1. eapply sound_mono; [|intros ? ? E; exact E]. generalize s1. change (keeps state (wr i (fun p => set_prcv (set_rcv_nxt (seg_seq seg +u seg_len seg) (prcv p)) p) ;;
       wr i (fun p => set_prcv (set_rcv_wnd (u16 (rcv_wnd (prcv p) - Z.of_nat (length data))) (prcv p)) p) ;;
       tcp_output i TCP_FLG_ACK [] ;; sched_wakeup i)). keep. }
  unfold seg_text. apply sound_rd. by destruct (state (pcbof s i)).
Qed.
Lemma seg_fin_sound i s : (i < length (pcbs s))%nat ->
  sound False (seg_fin seg flags i) (fun _ s' => exists st, sets i st s s' /\ fin_edge (state (pcbof s i)) st) s.
Proof.
  intros Hi. unfold seg_fin.
  assert (Hstay : forall s', state <$> pcbs s' = state <$> pcbs s -> exists st, sets i st s s' /\ fin_edge (state (pcbof s i)) st).
  { intros s' E. exists (state (pcbof s i)). split; [by eapply sets_after|constructor]. }
  destruct (negb _); [by apply Hstay|]. apply sound_rd.
  assert (Hmain : sound False
    (wr i (fun p => set_prcv (set_rcv_nxt (seg_seq seg +u 1) (prcv p)) p) ;;
     tcp_output i TCP_FLG_ACK [] ;;
     p <- rd i id ;;
     match state p with
     | SYN_RECEIVED | ESTABLISHED => wr i (set_state CLOSE_WAIT) ;; sched_wakeup i
     | FIN_WAIT1 =>
         if seg_ack seg =? snd_nxt (psnd p) then wr i (set_state TIME_WAIT) ;; tcp_set_timewait_timer i
         else wr i (set_state CLOSING)
     | FIN_WAIT2 => wr i (set_state TIME_WAIT) ;; tcp_set_timewait_timer i
     | TIME_WAIT => tcp_set_timewait_timer i
     | _ => kret tt
     end) (fun _ s' => exists st, sets i st s s' /\ fin_edge (state (pcbof s i)) st) s); [|by destruct (state (pcbof s i)); try (by apply Hstay)].
  skip (@state). skip (@state). apply sound_rd. unfold id. assert (E : state <$> pcbs s1 = state <$> pcbs s) by congruence.
  assert (Hset : forall st (m : K tcp unit), keeps state m -> fin_edge (state (pcbof s i)) st ->
    sound False (wr i (set_state st) ;; m) (fun _ s' => exists st, sets i st s s' /\ fin_edge (state (pcbof s i)) st) s1).
  { intros st m Hm He. apply sound_set; [by rewrite (view_length _ _ _ E)|]. intros s2 H2. eapply sound_mono; [apply Hm|].
    intros ? s3 E3. exists st. split; [|done]. eapply sets_before; [done|]. by eapply sets_after. }
  rewrite (view_pcbof state _ _ i E). destruct (state (pcbof s i)) eqn:Es; try (by apply Hstay).
  - apply Hset; [keep|constructor].
  - apply Hset; [keep|constructor].
  - destruct (_ =? _); [apply Hset; [by apply keeps_timewait|constructor]|].
    eapply sound_mono; [apply set_sound; by rewrite (view_length _ _ _ E)|]. intros ? s2 H2. exists CLOSING. split; [by eapply sets_before|constructor].
  - apply Hset; [by apply keeps_timewait|constructor].
  - eapply sound_mono; [by apply (keeps_timewait state)|]. intros ? s2 E2. apply Hstay. by rewrite E2, E.
Qed.

Lemma sound_weaken {A} (bad bad' : Prop) (m : K tcp A) (post post' : A -> tcp -> Prop) s :
  sound bad m post s -> (bad -> bad') -> (forall a s', post a s' -> post' a s') -> sound bad' m post' s.
Proof. unfold sound. destruct (m s); naive_solver. Qed.

(** A step that goes on as it was. *)
Lemma sound_step bad (m : K tcp bool) (k : K tcp unit) s : sound False m (step_post (eq s) s) s ->
  sound bad k (fun _ => moves s) s -> sound bad (go <- m ;; if negb go then kret tt else k) (fun _ => moves s) s.
Proof. intros Hm Hk. apply sound_bind. eapply sound_mono; [exact Hm|]. intros [|] s'; cbn [step_post negb]; [by intros <-|done]. Qed.

Lemma seg_otherwise_sound i s : (i < length (pcbs s))%nat -> sound (overlong i s) (seg_otherwise seg flags data lo fo i) (fun _ => moves s) s.
Proof.
  intros Hi. unfold seg_otherwise. apply sound_step; [apply seg_sequence_sound|]. apply sound_step; [apply seg_rst_sound|].
  apply sound_step; [apply seg_syn_sound|]. apply sound_bind. eapply sound_mono; [by apply seg_ack_field_sound|].
  intros [|] s1; cbn [step_post negb]; [|done]. intros (st & [Hs Hw] & He). apply sound_bind.
  eapply sound_weaken; [apply seg_text_sound|by unfold overlong; rewrite Hw|]. intros ? s2 E2. cbn beta in E2. pose proof Hs as (Hl & Hst & _).
  eapply sound_mono; [apply seg_fin_sound; rewrite (view_length _ _ _ E2), Hl; done|].
  intros _ s3 (st' & H3 & He3). apply (moves_sets i st'); [exact (sets_trans _ _ _ _ _ _ (sets_after _ _ _ _ _ Hs E2) H3)|].
  rewrite (view_pcbof state _ _ i E2), Hst in He3. by eapply ack_fin_edge.
Qed.
End Diagram.

(** C9. Segments follow the state diagram: processing an arriving segment,
    whatever its header says, moves each of the control blocks along an edge of
    the TCP state diagram (or leaves it), and returns; the only way to fail is
    the copy of text longer than the block's receive window leaves room for. *)
Theorem segments_follow_the_diagram {I} `{IpQuiet I} seg flags data lo fo (s : tcp I) :
  match tcp_segment_arrives seg flags data lo fo s with
  | Done _ s' => forall j, edge (state (pcbof s j)) (state (pcbof s' j))
  | Panicked _ _ => exists i, tcp_pcb_select s lo (Some fo) = Some i /\ rcv_wnd (prcv (pcbof s i)) < Z.of_nat (length data)
  | Slept _ _ => False
  end.
Proof.
  change (sound (exists i, tcp_pcb_select s lo (Some fo) = Some i /\ overlong data i s) (tcp_segment_arrives seg flags data lo fo) (fun _ => moves s) s).
  unfold tcp_segment_arrives. apply sound_get. destruct (tcp_pcb_select s lo (Some fo)) as [i|] eqn:Ei; [|apply keeps_moves, keeps_closed].
  pose proof (select_lt _ _ _ _ Ei) as Hi.
  assert (Hother : sound (exists i', Some i = Some i' /\ overlong data i' s) (seg_otherwise seg flags data lo fo i) (fun _ => moves s) s).
  { eapply sound_weaken; [by apply seg_otherwise_sound| |done]. eauto. }
  destruct (state (pcbof s i)) eqn:Es; try done.
  - apply keeps_moves, keeps_closed.
  - eapply sound_mono; [by apply seg_listen_sound|done].
  - eapply sound_mono; [by apply seg_syn_sent_sound|done].
Qed.
