(* ===== verification/TcpStream.v ===== *)
(** * Transmission control: the receive stream

    The bytes of a connection form a queue: [stream_in_order] relates the
    receive path of tcp.c (arriving text on one side, [tcp_receive] on the
    other) to a FIFO, for the segments that the code assumes ("the idealized
    segment that begins at RCV.NXT and does not exceed the window").  The rest
    of the file is about the segments that the code does not bring into that
    form. *)

From Stdlib Require Import ZArith Lia.
From S2P Require Import Prelude Bytes NetUtil Pipe Tcp TcpSafe.

(** Text with an ACK, without SYN, RST or FIN. *)
Definition text_flags (flags : Z) : bool :=
  TCP_FLG_ISSET flags TCP_FLG_ACK && negb (TCP_FLG_ISSET flags TCP_FLG_RST) &&
  negb (TCP_FLG_ISSET flags TCP_FLG_SYN) && negb (TCP_FLG_ISSET flags TCP_FLG_FIN).

(** What happens at one connection: a segment with text, or a read. *)
Inductive io := Arrive (seg : tcp_segment_info) (flags : Z) (d : list Z) | Read (n : Z).

(** The FIFO that a connection stands for: the bytes not yet read and the
    sequence number expected next; [nxt0] is the last number sent. *)
Record fifo := { fq : list Z; fnxt : Z }.
Definition fits (snd_nxt0 : Z) (seg : tcp_segment_info) (flags : Z) (d : list Z) (q : fifo) : bool :=
  (seg_seq seg =? fnxt q) && (seg_len seg =? Z.of_nat (length d)) && (0 <? Z.of_nat (length d)) &&
  (Z.of_nat (length (fq q)) + Z.of_nat (length d) <=? BUFSIZE) &&
  (fnxt q + (BUFSIZE - Z.of_nat (length (fq q))) <? 2 ^ 32) &&
  text_flags flags && (seg_ack seg <=? snd_nxt0).
Definition fifo_step (snd_nxt0 : Z) (e : io) (q : fifo) : option (list Z * fifo) :=
  match e with
  | Arrive seg flags d =>
      if fits snd_nxt0 seg flags d q then Some ([], {| fq := fq q ++ d; fnxt := fnxt q + Z.of_nat (length d) |}) else None
  | Read n =>
      if (0 <=? n) && (0 <? Z.of_nat (length (fq q)))
      then Some (take (Z.to_nat n) (fq q), {| fq := drop (Z.to_nat n) (fq q); fnxt := fnxt q |}) else None
  end.

(** A script, by any such machine; the outputs in order. *)
Fixpoint script {S} (step : io -> S -> option (list Z * S)) (l : list io) (s : S) : option (list (list Z) * S) :=
  match l with
  | [] => Some ([], s)
  | e :: l' =>
      match step e s with
      | None => None
      | Some (out, s') => match script step l' s' with Some (outs, s'') => Some (out :: outs, s'') | None => None end
      end
  end.

Section Stream.
Context {I : Type} `{IpQuiet I}.
Abbreviation tcp := (tcp I).
Implicit Types (i j : nat) (p : tcp_pcb) (s : tcp).
Context (i : nat) (lo fo : ip_endpoint).

Definition conn_step (e : io) s : option (list Z * tcp) :=
  match e with
  | Arrive seg flags d => match tcp_segment_arrives seg flags d lo fo s with Done _ s' => Some ([], s') | _ => None end
  | Read n => match tcp_receive false (tcp_pcb_id i) n s with Done (Return (_, out)) s' => Some (out, s') | _ => None end
  end.

(** The bytes received and not yet read. *)
Definition pending p : list Z := take (Z.to_nat (BUFSIZE - rcv_wnd (prcv p))) (buf p).
Definition fifo_of p : fifo := {| fq := pending p; fnxt := rcv_nxt (prcv p) |}.

(** An established connection between [lo] and [fo] in block [i]. *)
Record connected (snd_nxt0 : Z) s : Prop := {
  cn_table : length (pcbs s) = TCP_PCB_SIZE;
  cn_select : tcp_pcb_select s lo (Some fo) = Some i;
  cn_state : state (pcbof s i) = ESTABLISHED;
  cn_nxt : snd_nxt (psnd (pcbof s i)) = snd_nxt0;
  cn_rcv : 0 <= rcv_nxt (prcv (pcbof s i)) < 2 ^ 32;
  cn_wnd : 0 <= rcv_wnd (prcv (pcbof s i)) <= BUFSIZE;
  cn_buf : length (buf (pcbof s i)) = Z.to_nat BUFSIZE;
}.

(** What selection looks at, and what else matters to the stream. *)
Definition eview p := (state p, local p, foreign p).
Definition cview p := (eview p, prcv p, buf p, snd_nxt (psnd p)).
Lemma select_view s s' l f : eview <$> pcbs s' = eview <$> pcbs s -> tcp_pcb_select s' l f = tcp_pcb_select s l f.
Proof.
  unfold tcp_pcb_select. generalize (pcbs s) (pcbs s') 0%nat (@None nat). intros l1 l2. revert l1. induction l2 as [|p2 l2 IH]; intros [|p1 l1] k o E; try done.
  cbn [fmap list_fmap] in E. injection E as E1 E2 E3 E'. cbn [select_loop]. unfold endpoint_match. rewrite E1, E2, E3. by rewrite !(IH l1 _ _ E').
Qed.
Lemma cview_eview s s' : cview <$> pcbs s' = cview <$> pcbs s -> eview <$> pcbs s' = eview <$> pcbs s.
Proof. intros E. apply (f_equal (fmap (fun x => fst (fst (fst x))))) in E. by rewrite <- !list_fmap_compose in E. Qed.

Lemma sound_at {A B} bad (m : K tcp A) (k : A -> K tcp B) post a s s' : m s = Done a s' -> sound bad (k a) post s' -> sound bad (kbind m k) post s.
Proof. intros E Hk. apply sound_bind. unfold sound at 1. by rewrite E. Qed.
Lemma sound_wr {B} bad j f (k : unit -> K tcp B) post s :
  sound bad (k tt) post (set_pcbs (alter f j (pcbs s)) s) -> sound bad (kbind (wr j f) k) post s.
Proof. done. Qed.

Lemma pending_length p : length (buf p) = Z.to_nat BUFSIZE -> 0 <= rcv_wnd (prcv p) <= BUFSIZE ->
  Z.of_nat (length (pending p)) = BUFSIZE - rcv_wnd (prcv p).
Proof. intros Hb Hw. unfold pending. rewrite length_take, Hb. lia. Qed.

(** Text copied in behind what is pending, and the window taken down by it. *)
Lemma pending_splice p p' d w : length (buf p) = Z.to_nat BUFSIZE -> 0 <= rcv_wnd (prcv p) <= BUFSIZE ->
  rcv_wnd (prcv p') = w -> buf p' = splice (Z.to_nat (BUFSIZE - rcv_wnd (prcv p))) d (buf p) ->
  w = rcv_wnd (prcv p) - Z.of_nat (length d) -> 0 <= w -> pending p' = pending p ++ d.
Proof.
  intros Hb Hw Ew Eb -> Hd. unfold pending. rewrite Ew, Eb. unfold splice. rewrite app_assoc, take_app_le.
  - rewrite take_ge; [done|]. rewrite length_app, length_take, Hb. lia.
  - rewrite length_app, length_take, Hb. lia.
Qed.

(** The ACK processing of an established connection. *)
Lemma ack_text_sound seg n0 s : connected n0 s -> seg_ack seg <= n0 ->
  sound False (ack_established seg i) (fun go s' => go = true /\ cview <$> pcbs s' = cview <$> pcbs s) s.
Proof.
  intros [] Ha. unfold ack_established. apply sound_rd. unfold id.
  destruct (Z.ltb_spec (snd_nxt (psnd (pcbof s i))) (seg_ack seg)); [lia|]. apply sound_bind.
  eapply (sound_mono _ _ (fun go s' => go = true /\ cview <$> pcbs s' = cview <$> pcbs s)).
  - destruct (_ && _).
    + skip (@cview). skip (@cview). skip (@cview). cbn. split; [done|]. congruence.
    + by destruct (_ <? _).
  - intros go s1 [-> E]. cbn [negb]. apply sound_rd. unfold id. pose proof (view_pcbof _ _ _ i E) as E1. unfold cview, eview in E1. simplify_eq.
    replace (state (pcbof s1 i)) with ESTABLISHED by congruence. done.
Qed.

Lemma isset_split flags : text_flags flags = true -> TCP_FLG_ISSET flags TCP_FLG_ACK = true /\ TCP_FLG_ISSET flags TCP_FLG_RST = false /\
  TCP_FLG_ISSET flags TCP_FLG_SYN = false /\ TCP_FLG_ISSET flags TCP_FLG_FIN = false.
Proof. unfold text_flags. by destruct (TCP_FLG_ISSET flags TCP_FLG_ACK), (TCP_FLG_ISSET flags TCP_FLG_RST), (TCP_FLG_ISSET flags TCP_FLG_SYN), (TCP_FLG_ISSET flags TCP_FLG_FIN). Qed.

(** An acceptable segment without RST or SYN gets to the ACK. *)
Lemma otherwise_ack seg flags d s : synchronized (state (pcbof s i)) = true -> seg_acceptable seg (pcbof s i) = true ->
  TCP_FLG_ISSET flags TCP_FLG_RST = false -> TCP_FLG_ISSET flags TCP_FLG_SYN = false ->
  seg_otherwise seg flags d lo fo i s =
  (go <- seg_ack_field seg flags lo fo i ;; if negb go then kret tt else seg_text seg d i ;; seg_fin seg flags i) s.
Proof.
  intros Hs Ha Hr Hy. unfold seg_otherwise, seg_sequence, seg_rst, seg_syn, rd, kgets, id. unfold kbind at 1 2. rewrite Ha, andb_false_r.
  cbn [kret negb]. unfold kbind at 1 2. rewrite Hs, Hr. cbn [andb kret negb]. unfold kbind at 1 2. by rewrite Hs, Hy.
Qed.

(** In-order text within the window is acceptable. *)
Lemma in_order_acceptable seg p : seg_seq seg = rcv_nxt (prcv p) -> 0 <= rcv_nxt (prcv p) -> seg_len seg <> 0 -> 0 < rcv_wnd (prcv p) ->
  rcv_nxt (prcv p) + rcv_wnd (prcv p) < 2 ^ 32 -> seg_acceptable seg p = true.
Proof.
  intros Hq Hn Hl Hw Hr. unfold seg_acceptable. rewrite Hq, (u32_small (rcv_nxt (prcv p) + rcv_wnd (prcv p))) by lia.
  destruct (Z.eqb_spec (seg_len seg) 0); [done|]. destruct (Z.eqb_spec (rcv_wnd (prcv p)) 0); [lia|]. by zcases; try lia.
Qed.

(** What text does to the buffer. *)
Lemma text_effect seg d s : (i < length (pcbs s))%nat -> state (pcbof s i) = ESTABLISHED -> 0 < Z.of_nat (length d) <= rcv_wnd (prcv (pcbof s i)) ->
  sound False (seg_text seg d i) (fun _ s' => eview <$> pcbs s' = eview <$> pcbs s /\
    snd_nxt (psnd (pcbof s' i)) = snd_nxt (psnd (pcbof s i)) /\
    buf (pcbof s' i) = splice (Z.to_nat (BUFSIZE - rcv_wnd (prcv (pcbof s i)))) d (buf (pcbof s i)) /\
    rcv_nxt (prcv (pcbof s' i)) = seg_seq seg +u seg_len seg /\
    rcv_wnd (prcv (pcbof s' i)) = u16 (rcv_wnd (prcv (pcbof s i)) - Z.of_nat (length d))) s.
Proof.
  intros Hi Hst Hd. unfold seg_text. apply sound_rd. rewrite Hst. destruct (Z.eqb_spec (Z.of_nat (length d)) 0); [lia|].
  apply sound_bind. unfold buf_append. apply sound_rd. unfold id.
  destruct (Z.ltb_spec BUFSIZE (BUFSIZE - rcv_wnd (prcv (pcbof s i)) + Z.of_nat (length d))); [lia|].
  unfold wr at 1, kmodify, sound at 1. set (s1 := set_pcbs _ s).
  assert (L1 : length (pcbs s1) = length (pcbs s)) by apply length_alter.
  apply sound_wr. set (s2 := set_pcbs _ s1). assert (L2 : length (pcbs s2) = length (pcbs s)) by by rewrite <- L1; apply length_alter.
  apply sound_wr. set (s3 := set_pcbs _ s2). assert (L3 : length (pcbs s3) = length (pcbs s)) by by rewrite <- L2; apply length_alter.
  destruct (output_ack_quiet i TCP_FLG_ACK s3) as (r & l & E & _); [done|]. eapply sound_at; [exact E|]. unfold sched_wakeup, kmodify, sound.
  assert (E3 : pcbof s3 i = set_prcv (set_rcv_wnd (u16 (rcv_wnd (prcv (pcbof s i)) - Z.of_nat (length d))) (set_rcv_nxt (seg_seq seg +u seg_len seg) (prcv (pcbof s i))))
    (set_buf (splice (Z.to_nat (BUFSIZE - rcv_wnd (prcv (pcbof s i)))) d (buf (pcbof s i))) (pcbof s i))).
  { unfold s3. rewrite pcbof_alter, decide_True by (done || lia). unfold s2. rewrite pcbof_alter, decide_True by (done || lia).
    unfold s1. by rewrite pcbof_alter, decide_True by (done || lia). }
  unfold pcbof in *. cbn [pcbs set_low]. rewrite E3. split; [|done].
  transitivity (eview <$> pcbs s2); [by apply (views_alter eview)|]. transitivity (eview <$> pcbs s1); by apply (views_alter eview).
Qed.
(** An acceptable segment with text gets to [seg_text]. *)
Lemma to_text bad n0 s seg flags d (post : unit -> tcp -> Prop) : connected n0 s -> seg_acceptable seg (pcbof s i) = true ->
  TCP_FLG_ISSET flags TCP_FLG_ACK = true -> TCP_FLG_ISSET flags TCP_FLG_RST = false -> TCP_FLG_ISSET flags TCP_FLG_SYN = false ->
  seg_ack seg <= n0 ->
  (forall s1, cview <$> pcbs s1 = cview <$> pcbs s -> sound bad (seg_text seg d i ;; seg_fin seg flags i) post s1) ->
  sound bad (tcp_segment_arrives seg flags d lo fo) post s.
Proof.
  intros Hc Ha Fa Fr Fs Hack Hk. pose proof Hc as [Ht Hsel Hst Hnx Hr Hw Hb].
  unfold tcp_segment_arrives. apply sound_get. rewrite Hsel, Hst.
  unfold sound. rewrite otherwise_ack by (done || by rewrite Hst).
  change (sound bad (go <- seg_ack_field seg flags lo fo i ;; if negb go then kret tt else seg_text seg d i ;; seg_fin seg flags i) post s).
  apply sound_bind. unfold seg_ack_field. rewrite Fa. cbn [negb]. apply sound_rd. unfold id. rewrite Hst.
  eapply sound_mono; [by apply (ack_text_sound seg n0)|]. intros go s1 [-> E1]. cbn [negb]. by apply Hk.
Qed.

Lemma arrive_step n0 s seg flags d : connected n0 s -> fits n0 seg flags d (fifo_of (pcbof s i)) = true ->
  sound False (tcp_segment_arrives seg flags d lo fo) (fun _ s' => connected n0 s' /\
    fifo_of (pcbof s' i) = {| fq := pending (pcbof s i) ++ d; fnxt := rcv_nxt (prcv (pcbof s i)) + Z.of_nat (length d) |}) s.
Proof.
  intros Hc. pose proof Hc as [Ht Hsel Hst Hnx Hr Hw Hb]. unfold fits, fifo_of. cbn [fq fnxt]. rewrite pending_length by done.
  rewrite !andb_true_iff, !Z.eqb_eq, !Z.leb_le, !Z.ltb_lt. intros ((((((Hq & Hl) & Hpos) & Hfit) & Hwrap) & Hf) & Hack).
  apply isset_split in Hf as (Fa & Fr & Fs & Ff). assert (Hi : (i < length (pcbs s))%nat) by by apply (select_lt s lo (Some fo)).
  apply (to_text _ n0); try done; [apply in_order_acceptable; lia|]. intros s1 E1.
  pose proof (view_pcbof _ _ _ i E1) as E1i. unfold cview, eview in E1i. injection E1i as Est Elo Efo Ercv Ebuf Enx.
  apply sound_bind. eapply sound_mono; [apply text_effect; [by rewrite (view_length _ _ _ E1)|congruence|rewrite Ercv; lia]|].
  intros _ s2 (E2 & N2 & B2 & R2 & W2). unfold seg_fin. rewrite Ff. cbn [negb]. unfold sound, kret.
  rewrite Ercv, Ebuf in *. rewrite Hq, Hl, u32_small in R2 by lia. rewrite u16_small in W2 by (unfold BUFSIZE in *; lia).
  pose proof (view_pcbof _ _ _ i E2) as E2i. unfold eview in E2i. injection E2i as Est2 _ _.
  split.
  - constructor; try congruence; try lia.
    + by rewrite (view_length _ _ _ E2), (view_length _ _ _ E1).
    + rewrite (select_view _ _ _ _ E2), (select_view _ _ _ _ (cview_eview _ _ E1)). done.
    + rewrite B2, splice_len by (rewrite Hb; lia). done.
  - unfold fifo_of. rewrite R2, (pending_splice _ _ _ _ Hb Hw W2 B2) by (done || lia). done.
Qed.

Lemma read_step n0 s n : connected n0 s -> 0 <= n -> 0 < Z.of_nat (length (pending (pcbof s i))) ->
  exists r s', tcp_receive false (tcp_pcb_id i) n s = Done (Return (r, take (Z.to_nat n) (pending (pcbof s i)))) s' /\ connected n0 s' /\
    fifo_of (pcbof s' i) = {| fq := drop (Z.to_nat n) (pending (pcbof s i)); fnxt := rcv_nxt (prcv (pcbof s i)) |}.
Proof.
  intros Hc Hn Hp. pose proof Hc as [Ht Hsel Hst Hnx Hr Hw Hb]. rewrite pending_length in Hp by done.
  assert (Hi : (i < length (pcbs s))%nat) by by apply (select_lt s lo (Some fo)).
  unfold tcp_receive, kbind, kget. unfold tcp_pcb_get, tcp_pcb_id. rewrite Nat2Z.id, Hst, bool_decide_eq_false_2 by done.
  destruct (Z.ltb_spec (Z.of_nat i) 0), (Z.leb_spec (Z.of_nat TCP_PCB_SIZE) (Z.of_nat i)); try lia. cbn [orb].
  unfold receive_retry, kbind, kget. rewrite Hst. destruct (Z.eqb_spec (BUFSIZE - rcv_wnd (prcv (pcbof s i))) 0); [lia|].
  unfold receive_copy, kbind, rd, kgets, id, wr, kmodify, kret. set (len := Z.min n (BUFSIZE - rcv_wnd (prcv (pcbof s i)))).
  set (s1 := set_pcbs (alter _ i (pcbs s)) s). set (s2 := set_pcbs (alter _ i (pcbs s1)) s1).
  assert (L1 : length (pcbs s1) = length (pcbs s)) by apply length_alter.
  assert (E2 : pcbof s2 i = set_prcv (set_rcv_wnd (u16 (rcv_wnd (prcv (pcbof s i)) + len)) (prcv (pcbof s i)))
    (set_buf (splice 0 (slice (Z.to_nat len) (Z.to_nat (BUFSIZE - rcv_wnd (prcv (pcbof s i)) - len)) (buf (pcbof s i))) (buf (pcbof s i))) (pcbof s i))).
  { unfold s2. rewrite pcbof_alter, decide_True by (done || lia). unfold s1. by rewrite pcbof_alter, decide_True by done. }
  assert (V2 : eview <$> pcbs s2 = eview <$> pcbs s).
  { transitivity (eview <$> pcbs s1); by apply (views_alter eview). }
  assert (Hlen : 0 <= len <= BUFSIZE - rcv_wnd (prcv (pcbof s i))) by lia.
  exists len, s2. split; [|split].
  - do 3 f_equal. unfold slice, pending. rewrite drop_0, take_take. f_equal. lia.
  - constructor; rewrite ?E2; cbn [set_prcv set_buf prcv buf psnd set_rcv_wnd rcv_nxt rcv_wnd state]; try done.
    + by rewrite (view_length _ _ _ V2).
    + by rewrite (select_view _ _ _ _ V2).
    + rewrite u16_small by (unfold BUFSIZE in *; lia). lia.
    + rewrite splice_len; [done|]. rewrite slice_len, Hb by (rewrite Hb; lia). lia.
  - unfold fifo_of, pending. rewrite E2. cbn [set_prcv set_buf prcv buf set_rcv_wnd rcv_nxt rcv_wnd]. f_equal.
    rewrite u16_small by (unfold BUFSIZE in *; lia). unfold splice. rewrite take_0, app_nil_l.
    rewrite take_app_le by (rewrite slice_len by (rewrite Hb; lia); lia). rewrite take_ge by (rewrite slice_len by (rewrite Hb; lia); lia).
    unfold slice. rewrite take_drop_commute.
    replace (Z.to_nat len + Z.to_nat (BUFSIZE - rcv_wnd (prcv (pcbof s i)) - len))%nat with (Z.to_nat (BUFSIZE - rcv_wnd (prcv (pcbof s i)))) by lia.
    destruct (decide (n <= BUFSIZE - rcv_wnd (prcv (pcbof s i)))); [by replace (Z.to_nat len) with (Z.to_nat n) by lia|].
    by rewrite !drop_ge by (rewrite length_take; lia).
Qed.
(** One step of the connection is the step of the FIFO. *)
Lemma conn_refines n0 s e out q' : connected n0 s -> fifo_step n0 e (fifo_of (pcbof s i)) = Some (out, q') ->
  exists s', conn_step e s = Some (out, s') /\ connected n0 s' /\ fifo_of (pcbof s' i) = q'.
Proof.
  intros Hc. destruct e as [seg flags d|n]; cbn [fifo_step conn_step].
  - destruct (fits _ _ _ _ _) eqn:Ef; [|done]. intros [= <- <-]. pose proof (arrive_step _ _ _ _ _ Hc Ef) as Ha. unfold sound in Ha.
    destruct (tcp_segment_arrives _ _ _ _ _ _) as [a s'| |]; [|done|done]. by exists s'.
  - destruct (Z.leb_spec 0 n); [|done]. destruct (Z.ltb_spec 0 (Z.of_nat (length (fq (fifo_of (pcbof s i)))))); [|done]. cbn [andb].
    intros [= <- <-]. destruct (read_step n0 s n Hc) as (r & s' & -> & Hc' & Hq); [done|done|]. by exists s'.
Qed.
End Stream.

(** C7. The receive stream is a FIFO: over any interleaving of arriving text
    (segments that begin at RCV.NXT and fit the window, as the code assumes)
    and reads, each read of an established connection returns the next bytes
    in order of arrival, none lost, none twice, and the connection's buffer,
    RCV.NXT and window are those of the bytes not yet read. *)
Theorem stream_in_order {I} `{IpQuiet I} i lo fo snd_nxt0 l (s : tcp I) outs q' :
  connected i lo fo snd_nxt0 s ->
  script (fifo_step snd_nxt0) l (fifo_of (pcbof s i)) = Some (outs, q') ->
  exists s', script (conn_step i lo fo) l s = Some (outs, s') /\ connected i lo fo snd_nxt0 s' /\ fifo_of (pcbof s' i) = q' /\
    rcv_wnd (prcv (pcbof s' i)) = BUFSIZE - Z.of_nat (length (fq q')).
Proof.
  revert s outs. induction l as [|e l IH]; intros s outs Hc; cbn [script].
  - intros [= <- <-]. exists s. split; [done|]. split; [done|]. split; [done|]. destruct Hc. cbn [fq fifo_of]. rewrite pending_length by done. lia.
  - destruct (fifo_step _ e _) as [[out q1]|] eqn:Es; [|done]. destruct (conn_refines i lo fo _ _ _ _ _ Hc Es) as (s1 & -> & Hc1 & Hq1).
    rewrite <- Hq1. destruct (script _ l _) as [[outs' q'']|] eqn:El; [|done]. intros [= <- <-].
    destruct (IH s1 outs' Hc1 El) as (s' & -> & Hs'). by exists s'.
Qed.

(** ** Segments that are not in that form *)

Section Flaws.
Context {I : Type} `{IpQuiet I} (i : nat) (lo fo : ip_endpoint) (snd_nxt0 : Z) (s : tcp I).
Context (Hc : connected i lo fo snd_nxt0 s).
Abbreviation nxt := (rcv_nxt (prcv (pcbof s i))).
Abbreviation wnd := (rcv_wnd (prcv (pcbof s i))).

Lemma starts_in_window seg k : seg_seq seg = nxt + k -> 0 <= k < wnd -> seg_len seg <> 0 -> nxt + wnd < 2 ^ 32 ->
  seg_acceptable seg (pcbof s i) = true.
Proof using Hc.
  intros Hq Hk Hl Hw. destruct Hc as [_ _ _ _ Hr _ _]. unfold seg_acceptable. rewrite Hq, (u32_small (nxt + wnd)) by lia.
  destruct (Z.eqb_spec (seg_len seg) 0); [done|]. destruct (Z.eqb_spec wnd 0); [lia|]. by zcases; try lia.
Qed.

(** A segment that begins in the window but is longer than it is accepted,
    and its text is copied past the end of the receive buffer. *)
Lemma overrun seg flags d k : text_flags flags = true -> seg_seq seg = nxt + k -> 0 <= k < wnd -> seg_len seg <> 0 -> nxt + wnd < 2 ^ 32 ->
  seg_ack seg <= snd_nxt0 -> wnd < Z.of_nat (length d) ->
  exists s', tcp_segment_arrives seg flags d lo fo s = Panicked "tcp_segment_arrives: pcb->buf overrun" s'.
Proof using Hc.
  intros Hf Hq Hk Hl Hw Ha Hd. apply isset_split in Hf as (Fa & Fr & Fs & Ff). pose proof (starts_in_window _ _ Hq Hk Hl Hw) as Hacc.
  pose proof Hc as [Ht Hsel Hst Hnx Hr Hwr Hb]. unfold tcp_segment_arrives. unfold kbind at 1, kget. rewrite Hsel, Hst, otherwise_ack by (done || by rewrite Hst).
  pose proof (ack_text_sound i lo fo seg _ _ Hc Ha) as Ht1. unfold sound in Ht1.
  unfold kbind at 1, seg_ack_field. rewrite Fa. cbn [negb]. unfold kbind at 1, rd, kgets, id. rewrite Hst.
  destruct (ack_established seg i s) as [go s1| |]; [|done|done]. destruct Ht1 as [-> E1]. cbn [negb].
  pose proof (view_pcbof _ _ _ i E1) as E1i. unfold cview, eview in E1i. injection E1i as Est _ _ Ercv _ _.
  exists s1. unfold kbind at 1, seg_text. unfold kbind at 1, rd, kgets. rewrite Est, Hst. destruct (Z.eqb_spec (Z.of_nat (length d)) 0); [lia|].
  unfold kbind at 1, buf_append. unfold kbind at 1, rd, kgets, id. rewrite Ercv.
  destruct (Z.ltb_spec BUFSIZE (BUFSIZE - wnd + Z.of_nat (length d))); [done|lia].
Qed.
End Flaws.

(** C31. Overlong segments write past the receive buffer: on an established
    connection, a segment that starts inside the receive window but carries
    more text than the window has room for passes the acceptability test (which
    looks at one end only), is not trimmed, and its text is copied beyond the
    65535 bytes of pcb->buf. *)
Theorem overlong_segment_overruns {I} `{IpQuiet I} i lo fo snd_nxt0 (s : tcp I) seg flags d :
  connected i lo fo snd_nxt0 s -> text_flags flags = true -> seg_ack seg <= snd_nxt0 ->
  seg_len seg = Z.of_nat (length d) -> rcv_wnd (prcv (pcbof s i)) < Z.of_nat (length d) ->
  rcv_nxt (prcv (pcbof s i)) <= seg_seq seg < rcv_nxt (prcv (pcbof s i)) + rcv_wnd (prcv (pcbof s i)) ->
  rcv_nxt (prcv (pcbof s i)) + rcv_wnd (prcv (pcbof s i)) < 2 ^ 32 ->
  exists s', tcp_segment_arrives seg flags d lo fo s = Panicked "tcp_segment_arrives: pcb->buf overrun" s'.
Proof.
  intros Hc Hf Ha Hl Hd Hq Hw. pose proof (cn_wnd _ _ _ _ _ Hc) as Hwr.
  apply (overrun i lo fo snd_nxt0 s Hc seg flags d (seg_seq seg - rcv_nxt (prcv (pcbof s i)))); try done; lia.
Qed.

(** A gap is taken for data: a segment that begins [k] bytes beyond RCV.NXT,
    inside the window, is appended to the stream as if it were the next text
    and acknowledged, so that the [k] missing bytes are never delivered. *)
Theorem gap_is_skipped {I} `{IpQuiet I} i lo fo snd_nxt0 (s : tcp I) seg flags d k :
  connected i lo fo snd_nxt0 s -> text_flags flags = true -> seg_ack seg <= snd_nxt0 ->
  seg_len seg = Z.of_nat (length d) -> 0 < Z.of_nat (length d) ->
  seg_seq seg = rcv_nxt (prcv (pcbof s i)) + k -> 0 < k -> k + Z.of_nat (length d) <= rcv_wnd (prcv (pcbof s i)) ->
  rcv_nxt (prcv (pcbof s i)) + rcv_wnd (prcv (pcbof s i)) < 2 ^ 32 ->
  exists s', tcp_segment_arrives seg flags d lo fo s = Done tt s' /\
    pending (pcbof s' i) = pending (pcbof s i) ++ d /\
    rcv_nxt (prcv (pcbof s' i)) = rcv_nxt (prcv (pcbof s i)) + k + Z.of_nat (length d).
Proof.
  intros Hc Hf Ha Hl Hpos Hq Hk Hfit Hw. pose proof Hc as [Ht Hsel Hst Hnx Hr Hwr Hb]. apply isset_split in Hf as (Fa & Fr & Fs & Ff).
  assert (Hs : sound False (tcp_segment_arrives seg flags d lo fo) (fun _ s' => pending (pcbof s' i) = pending (pcbof s i) ++ d /\
    rcv_nxt (prcv (pcbof s' i)) = rcv_nxt (prcv (pcbof s i)) + k + Z.of_nat (length d)) s).
  { apply (to_text i lo fo _ snd_nxt0); try done; [apply (starts_in_window i lo fo snd_nxt0 s Hc _ k); lia|]. intros s1 E1.
    pose proof (view_pcbof _ _ _ i E1) as E1i. unfold cview, eview in E1i. injection E1i as Est _ _ Ercv Ebuf _.
    apply sound_bind. eapply sound_mono; [apply text_effect; [rewrite (view_length _ _ _ E1); by apply (select_lt s lo (Some fo))|congruence|rewrite Ercv; lia]|].
    intros _ s2 (_ & _ & B2 & R2 & W2). unfold seg_fin. rewrite Ff. cbn [negb]. unfold sound, kret. rewrite Ercv, Ebuf in *.
    rewrite u16_small in W2 by (unfold BUFSIZE in *; lia). split; [apply (pending_splice _ _ _ _ Hb Hwr W2 B2); lia|].
    rewrite R2, Hq, Hl, u32_small; lia. }
  unfold sound in Hs. destruct (tcp_segment_arrives seg flags d lo fo s) as [[] s'| |]; [|done|done]. by exists s'.
Qed.

(** A FIN that carries text: the text is delivered, but RCV.NXT, and with it
    the acknowledgment, goes back to the byte after the first one. *)
Theorem fin_with_text_unacknowledges {I} `{IpQuiet I} i lo fo snd_nxt0 (s : tcp I) seg d :
  connected i lo fo snd_nxt0 s -> seg_ack seg <= snd_nxt0 -> seg_len seg = Z.of_nat (length d) + 1 ->
  0 < Z.of_nat (length d) < rcv_wnd (prcv (pcbof s i)) -> seg_seq seg = rcv_nxt (prcv (pcbof s i)) ->
  rcv_nxt (prcv (pcbof s i)) + rcv_wnd (prcv (pcbof s i)) < 2 ^ 32 ->
  exists s', tcp_segment_arrives seg (Z.lor TCP_FLG_ACK TCP_FLG_FIN) d lo fo s = Done tt s' /\
    state (pcbof s' i) = CLOSE_WAIT /\ pending (pcbof s' i) = pending (pcbof s i) ++ d /\
    rcv_nxt (prcv (pcbof s' i)) = rcv_nxt (prcv (pcbof s i)) + 1.
Proof.
  intros Hc Ha Hl Hd Hq Hw. pose proof Hc as [Ht Hsel Hst Hnx Hr Hwr Hb]. assert (Hi : (i < length (pcbs s))%nat) by by apply (select_lt s lo (Some fo)).
  assert (Hs : sound False (tcp_segment_arrives seg (Z.lor TCP_FLG_ACK TCP_FLG_FIN) d lo fo) (fun _ s' => state (pcbof s' i) = CLOSE_WAIT /\
    pending (pcbof s' i) = pending (pcbof s i) ++ d /\ rcv_nxt (prcv (pcbof s' i)) = rcv_nxt (prcv (pcbof s i)) + 1) s).
  { apply (to_text i lo fo _ snd_nxt0); try done; [apply in_order_acceptable; lia|]. intros s1 E1.
    pose proof (view_pcbof _ _ _ i E1) as E1i. unfold cview, eview in E1i. injection E1i as Est _ _ Ercv Ebuf _.
    apply sound_bind. eapply sound_mono; [apply text_effect; [by rewrite (view_length _ _ _ E1)|congruence|rewrite Ercv; lia]|].
    intros _ s2 (V2 & _ & B2 & R2 & W2). rewrite Ercv, Ebuf in *. rewrite u16_small in W2 by (unfold BUFSIZE in *; lia).
    assert (P2 : pending (pcbof s2 i) = pending (pcbof s i) ++ d) by (apply (pending_splice _ _ _ _ Hb Hwr W2 B2); lia).
    assert (L2 : length (pcbs s2) = length (pcbs s)) by by rewrite (view_length _ _ _ V2), (view_length _ _ _ E1).
    pose proof (view_pcbof _ _ _ i V2) as V2i. injection V2i as Est2 _ _.
    unfold seg_fin. change (negb _) with false. apply sound_rd. rewrite Est2, Est, Hst. apply sound_wr. set (s3 := set_pcbs _ s2).
    assert (E3 : pcbof s3 i = set_prcv (set_rcv_nxt (seg_seq seg +u 1) (prcv (pcbof s2 i))) (pcbof s2 i)).
    { unfold s3. rewrite pcbof_alter, decide_True by (done || lia). done. }
    destruct (output_ack_quiet i TCP_FLG_ACK s3) as (r & l & E & _); [done|]. eapply sound_at; [exact E|]. apply sound_rd.
    change (pcbof (set_low l s3) i) with (pcbof s3 i). unfold id. rewrite E3. cbn [state set_prcv]. rewrite Est2, Est, Hst.
    apply sound_wr. unfold sched_wakeup, kmodify, sound. set (s4 := set_pcbs _ _).
    cut (state (pcbof s4 i) = CLOSE_WAIT /\ pending (pcbof s4 i) = pending (pcbof s i) ++ d /\ rcv_nxt (prcv (pcbof s4 i)) = rcv_nxt (prcv (pcbof s i)) + 1); [done|].
    unfold s4. rewrite pcbof_alter, decide_True by (done || (cbn [set_low pcbs]; unfold s3; cbn [set_pcbs pcbs]; rewrite length_alter; lia)).
    change (pcbof (set_low l s3) i) with (pcbof s3 i). rewrite E3. split; [done|]. split; [exact P2|].
    cbn [set_state set_prcv prcv set_rcv_nxt rcv_nxt]. rewrite Hq, u32_small; lia. }
  unfold sound in Hs. destruct (tcp_segment_arrives _ _ _ _ _ s) as [[] s'| |]; [|done|done]. by exists s'.
Qed.

(** Sequence numbers are compared as plain integers: while RCV.NXT + RCV.WND is
    beyond 2^32, the next text of the stream is refused, however often it is
    sent. *)
Theorem wrapped_window_refuses {I} `{IpQuiet I} i lo fo snd_nxt0 (s : tcp I) seg flags d :
  connected i lo fo snd_nxt0 s -> TCP_FLG_ISSET flags TCP_FLG_RST = false ->
  seg_seq seg = rcv_nxt (prcv (pcbof s i)) -> 0 < seg_len seg -> rcv_nxt (prcv (pcbof s i)) + seg_len seg <= 2 ^ 32 ->
  2 ^ 32 <= rcv_nxt (prcv (pcbof s i)) + rcv_wnd (prcv (pcbof s i)) ->
  exists l, tcp_segment_arrives seg flags d lo fo s = Done tt (set_low l s).
Proof.
  intros [Ht Hsel Hst Hnx Hr Hwr Hb] Fr Hq Hl Hend Hwrap. unfold BUFSIZE in *.
  assert (Hacc : seg_acceptable seg (pcbof s i) = false).
  { unfold seg_acceptable. rewrite Hq. destruct (Z.eqb_spec (seg_len seg) 0); [lia|]. destruct (Z.eqb_spec (rcv_wnd (prcv (pcbof s i))) 0); [lia|].
    assert (E : u32 (rcv_nxt (prcv (pcbof s i)) + rcv_wnd (prcv (pcbof s i))) = rcv_nxt (prcv (pcbof s i)) + rcv_wnd (prcv (pcbof s i)) - 2 ^ 32).
    { unfold u32. rewrite <- (Z.mod_small (_ - 2 ^ 32) (2 ^ 32)) by lia. rewrite <- (Z_mod_plus_full (_ - 2 ^ 32) 1). f_equal. lia. }
    assert (E' : u32 (u32 (rcv_nxt (prcv (pcbof s i)) + seg_len seg) - 1) = rcv_nxt (prcv (pcbof s i)) + seg_len seg - 1).
    { unfold u32. rewrite Zminus_mod_idemp_l, Z.mod_small; lia. }
    rewrite E, E'. by zcases; try lia. }
  unfold tcp_segment_arrives. unfold kbind at 1, kget. rewrite Hsel, Hst. unfold seg_otherwise. unfold kbind at 1, seg_sequence. unfold kbind at 1, rd, kgets, id.
  rewrite Hst, Hacc, Fr. cbn [synchronized andb negb]. unfold kbind. destruct (output_ack_quiet i TCP_FLG_ACK s) as (r & l & -> & _); [done|]. by exists l.
Qed.
