(* ===== verification/TcpWire.v ===== *)
(** * Transmission control: segments on the wire, and two hosts

    [tcp_wire_roundtrip]: the bytes that [tcp_output_segment] hands to the IP
    layer are read back by [tcp_input] as the segment they were made from.
    With a lower layer that keeps what is sent ([wire]), two hosts are run
    against each other: the three-way handshake, and data from [tcp_send] on
    one to [tcp_receive] on the other. *)

From Stdlib Require Import ZArith Lia.
From S2P Require Import Prelude Bytes NetUtil Pipe Tcp TcpSafe TcpStream.

(** Sequence numbers taken by a segment: its text, its SYN and its FIN. *)
Definition seq_space (flg : Z) (data : list Z) : Z :=
  Z.of_nat (length data) + cbool (TCP_FLG_ISSET flg TCP_FLG_SYN) + cbool (TCP_FLG_ISSET flg TCP_FLG_FIN).

(** An endpoint as it fits its fields. *)
Definition endpoint_ok (e : ip_endpoint) : Prop := 0 <= addr e < 2 ^ 32 /\ 0 <= port e < 2 ^ 16.

Section Wire.
Context {I : Type} `{IpOps I}.
Implicit Types (s : tcp I) (lo fo : ip_endpoint) (data : list Z).

Lemma message_length seq ack flg wnd data lo fo : length (tcp_message seq ack flg wnd data lo fo) = (20 + length data)%nat.
Proof. unfold tcp_message. rewrite !length_app, !le_enc_len. reflexivity. Qed.

Lemma front_bytes src dst seq ack flg wnd : byte flg -> bytes (tcp_hdr_front src dst seq ack flg wnd).
Proof.
  intros Hf. unfold tcp_hdr_front. repeat (apply Forall_app; split); try apply le_enc_bytes. constructor; [by vm_compute|]. by constructor.
Qed.

(** The receiver's checksum over a message is 0. *)
Lemma message_verifies seq ack flg wnd data lo fo : byte flg -> bytes data -> Z.of_nat (length data) <= 65495 ->
  let len := TCP_HDR_SIZE + Z.of_nat (length data) in
  let psum := u16 (Z.lnot (cksum16 (pseudo_hdr (addr lo) (addr fo) IP_PROTOCOL_TCP (u16 len)) 12 0)) in
  kcksum16 (S := tcp I) (tcp_message seq ack flg wnd data lo fo) len psum = kret 0.
Proof.
  intros Hf Hd Hl len psum. unfold kcksum16. rewrite message_length. unfold TCP_HDR_SIZE in *. assert (Hu : u16 len = len) by (apply u16_small; lia).
  rewrite Hu. destruct (Z.leb_spec len (Z.of_nat (20 + length data))); [|lia]. f_equal. unfold tcp_message, TCP_HDR_SIZE. fold len. rewrite Hu.
  fold len in psum. unfold psum. rewrite Hu. set (ps := u16 (Z.lnot _)).
  pose proof (cksum16_verifies (tcp_hdr_front (port lo) (port fo) seq ack flg wnd) (le_enc 2 0 ++ data) ps) as Hv. cbv zeta in Hv.
  rewrite !length_app, !le_enc_len in Hv. change (length (tcp_hdr_front _ _ _ _ _ _)) with 16%nat in Hv.
  replace (Z.of_nat (16 + (2 + (2 + length data)))) with len in Hv by lia. apply Hv.
  - apply Forall_app. split; [by apply front_bytes|]. apply Forall_app. split; [apply le_enc_bytes|done].
  - by exists 8%nat.
  - lia.
  - apply psum_range.
Qed.

(** The fields of a message as [tcp_input] reads them. *)
Lemma message_fields seq ack flg wnd data lo fo : 0 <= seq < 2 ^ 32 -> 0 <= ack < 2 ^ 32 -> 0 <= flg < 64 -> 0 <= wnd < 2 ^ 16 ->
  endpoint_ok lo -> endpoint_ok fo ->
  let m := tcp_message seq ack flg wnd data lo fo in
  getn 2 0 m = port lo /\ getn 2 2 m = port fo /\ ntoh32 (getn 4 4 m) = seq /\ ntoh32 (getn 4 8 m) = ack /\
  getn 1 12 m = 80 /\ getn 1 13 m = flg /\ ntoh16 (getn 2 14 m) = wnd /\ ntoh16 (getn 2 18 m) = 0 /\
  slice 20 (length data) m = data.
Proof.
  intros Hs Ha Hf Hw [_ Hlo] [_ Hfo]. unfold tcp_message. set (sum := cksum16 _ _ _). clearbody sum. cbv zeta.
  pose proof (hton32_range seq). pose proof (hton32_range ack). pose proof (hton16_range wnd).
  split; [by apply (field_dec 2)|]. split; [by apply (field_dec 2)|].
  split; [transitivity (ntoh32 (le_dec (le_enc 4 (hton32 seq)))); [done|]; by rewrite field_dec, ntoh32_hton32|].
  split; [transitivity (ntoh32 (le_dec (le_enc 4 (hton32 ack)))); [done|]; by rewrite field_dec, ntoh32_hton32|].
  split; [done|]. split; [transitivity (flg + 256 * 0); [done|lia]|].
  split; [transitivity (ntoh16 (le_dec (le_enc 2 (hton16 wnd)))); [done|]; by rewrite field_dec, ntoh16_hton16|].
  split; [done|]. transitivity (take (length data) data); [done|]. by apply take_ge.
Qed.
End Wire.

Lemma wire_segment {I} `{IpOps I} seq ack flg wnd data lo fo bcast (s : tcp I) :
  0 <= seq < 2 ^ 32 -> 0 <= ack < 2 ^ 32 -> 0 <= flg < 64 -> 0 <= wnd < 2 ^ 16 -> bytes data -> Z.of_nat (length data) <= 65495 ->
  endpoint_ok lo -> endpoint_ok fo ->
  addr lo <> IP_ADDR_BROADCAST -> addr lo <> bcast -> addr fo <> IP_ADDR_BROADCAST -> addr fo <> bcast ->
  tcp_input (tcp_message seq ack flg wnd data lo fo) (TCP_HDR_SIZE + Z.of_nat (length data)) (addr lo) (addr fo) bcast s =
  tcp_segment_arrives {| seg_seq := seq; seg_ack := ack; seg_len := seq_space flg data; seg_wnd := wnd; seg_up := 0 |} flg data fo lo s.
Proof.
  intros Hs Ha Hf Hw Hd Hl Hlo Hfo B1 B2 B3 B4. unfold tcp_input, TCP_HDR_SIZE. destruct (Z.ltb_spec (20 + Z.of_nat (length data)) 20); [lia|].
  pose proof (message_verifies (I := I) seq ack flg wnd data lo fo ltac:(unfold byte; lia) Hd Hl) as Hv. cbv zeta in Hv. unfold TCP_HDR_SIZE in Hv.
  rewrite Hv. clear Hv. unfold kbind at 1, kret. change (negb (0 =? 0)) with false.
  destruct (Z.eqb_spec (addr lo) IP_ADDR_BROADCAST), (Z.eqb_spec (addr lo) bcast), (Z.eqb_spec (addr fo) IP_ADDR_BROADCAST), (Z.eqb_spec (addr fo) bcast); try done.
  cbn [orb]. destruct (message_fields seq ack flg wnd data lo fo Hs Ha Hf Hw Hlo Hfo) as (F1 & F2 & F3 & F4 & F5 & F6 & F7 & F8 & F9).
  rewrite F1, F2, F3, F4, F5, F6, F7, F8, message_length. change (Z.shiftl (Z.shiftr 80 4) 2) with 20. cbn [Z.ltb Z.compare orb].
  destruct (Z.ltb_spec (20 + Z.of_nat (length data)) 20); [lia|]. destruct (Z.ltb_spec (Z.of_nat (20 + length data)) (20 + Z.of_nat (length data))); [lia|].
  change (20 <? 20) with false. cbn [orb].
  change (Z.to_nat 20) with 20%nat. replace (20 + Z.of_nat (length data) - 20) with (Z.of_nat (length data)) by lia. rewrite Nat2Z.id, F9.
  replace (if TCP_FLG_ISSET flg TCP_FLG_FIN then _ else _) with (seq_space flg data); [by destruct lo, fo|].
  unfold seq_space. destruct (TCP_FLG_ISSET flg TCP_FLG_SYN), (TCP_FLG_ISSET flg TCP_FLG_FIN); cbn [cbool];
    rewrite (u16_small (Z.of_nat _)) by lia; rewrite ?(u16_small (Z.of_nat _ + 1)) by lia; rewrite ?u16_small by lia; lia.
Qed.

(** C27. Segments survive the wire: the message built by tcp_output_segment for
    any sequence and acknowledgment numbers, flags, window and text, received
    between two unicast addresses, passes the checksum of tcp_input and is
    processed as exactly that segment, with sender and receiver exchanged. *)
Theorem tcp_wire_roundtrip {I} `{IpOps I} seq ack flg wnd data lo fo bcast (s : tcp I) :
  0 <= seq < 2 ^ 32 -> 0 <= ack < 2 ^ 32 -> 0 <= flg < 64 -> 0 <= wnd < 2 ^ 16 -> bytes data -> Z.of_nat (length data) <= 65495 ->
  endpoint_ok lo -> endpoint_ok fo ->
  addr lo <> IP_ADDR_BROADCAST -> addr lo <> bcast -> addr fo <> IP_ADDR_BROADCAST -> addr fo <> bcast ->
  tcp_input (tcp_message seq ack flg wnd data lo fo) (TCP_HDR_SIZE + Z.of_nat (length data)) (addr lo) (addr fo) bcast s =
  tcp_segment_arrives {| seg_seq := seq; seg_ack := ack; seg_len := seq_space flg data; seg_wnd := wnd; seg_up := 0 |} flg data fo lo s.
Proof. apply wire_segment. Qed.


(** ** A lower layer that keeps what is sent *)

Record packet := { pk_proto : Z; pk_data : list Z; pk_src : Z; pk_dst : Z }.
Record wire := { sent : list packet; w_iface : route_iface }.
#[export] Instance wire_ops : IpOps wire := {
  ip_output proto d src dst s :=
    Done (Z.of_nat (length d)) (set_low {| sent := sent (low s) ++ [{| pk_proto := proto; pk_data := d; pk_src := src; pk_dst := dst |}]; w_iface := w_iface (low s) |} s);
  ip_route_get_iface _ s := Some (w_iface (low s));
  memory_alloc _ := kret true;
}.
#[export] Instance wire_quiet : IpQuiet wire.
Proof. constructor; [intros; eexists _, _; split; [done|lia]|intros n s; exists true, (low s); by destruct s]. Qed.

(** The host at the other end takes the packets in order. *)
Fixpoint deliver (bcast : Z) (l : list packet) (s : tcp wire) : option (tcp wire) :=
  match l with
  | [] => Some s
  | m :: l' =>
      match tcp_input (pk_data m) (Z.of_nat (length (pk_data m))) (pk_src m) (pk_dst m) bcast s with
      | Done _ s' => deliver bcast l' s'
      | _ => None
      end
  end.

(** Text cut into segments of [mss] bytes, with their sequence numbers. *)
Fixpoint cut (fuel : nat) (mss : nat) (seq : Z) (data : list Z) : list (Z * list Z) :=
  match fuel, data with
  | S f, _ :: _ => (seq, take mss data) :: cut f mss (seq +u Z.of_nat (length (take mss data))) (drop mss data)
  | _, _ => []
  end.
Definition PUSH : Z := Z.lor TCP_FLG_ACK TCP_FLG_PSH.
Definition text_packet (p : tcp_pcb) (x : Z * list Z) : packet :=
  {| pk_proto := IP_PROTOCOL_TCP;
     pk_data := tcp_message x.1 (rcv_nxt (prcv p)) PUSH (rcv_wnd (prcv p)) x.2 (local p) (foreign p);
     pk_src := addr (local p); pk_dst := addr (foreign p) |}.

Section Send.
Implicit Types (i : nat) (s : tcp wire) (p : tcp_pcb).

(** What a packet with text carries of its block. *)
Definition oview p := (state p, local p, foreign p, prcv p, snd_una (psnd p), snd_wnd (psnd p)).

Lemma output_text i d s : (i < length (pcbs s))%nat -> Z.of_nat (length d) <= 65495 -> d <> [] -> exists s',
  tcp_output i PUSH d s = Done (Z.of_nat (length d)) s' /\ length (pcbs s') = length (pcbs s) /\ ticks s' = ticks s /\
  oview (pcbof s' i) = oview (pcbof s i) /\ snd_nxt (psnd (pcbof s' i)) = snd_nxt (psnd (pcbof s i)) /\
  sent (low s') = sent (low s) ++ [text_packet (pcbof s i) (snd_nxt (psnd (pcbof s i)), d)] /\ w_iface (low s') = w_iface (low s).
Proof.
  intros Hi Hd Hne. unfold tcp_output. change (TCP_FLG_ISSET PUSH TCP_FLG_SYN) with false. change (TCP_FLG_ISSET PUSH (Z.lor TCP_FLG_SYN TCP_FLG_FIN)) with false.
  destruct (Z.eqb_spec (Z.of_nat (length d)) 0); [destruct d; [done|simpl in *; lia]|]. cbn [orb negb].
  unfold tcp_retransmit_queue_add, kbind, rd, kgets, kget, id. cbn [memory_alloc wire_ops kret negb queue_push wr kmodify].
  set (s1 := set_pcbs _ s). assert (E1 : exists q, pcbof s1 i = set_rqueue q (pcbof s i)).
  { eexists. unfold s1. by rewrite pcbof_alter, decide_True by done. }
  destruct E1 as [q E1]. unfold tcp_output_segment, IP_PAYLOAD_SIZE_MAX, IP_HDR_SIZE_MIN, TCP_HDR_SIZE.
  destruct (Z.ltb_spec (65535 - 20) (20 + Z.of_nat (length d))); [lia|]. unfold kbind. cbn [ip_output wire_ops].
  destruct (Z.eqb_spec (Z.of_nat (length (tcp_message (snd_nxt (psnd (pcbof s i))) (rcv_nxt (prcv (pcbof s1 i))) PUSH (rcv_wnd (prcv (pcbof s1 i))) d (local (pcbof s1 i))
    (foreign (pcbof s1 i))))) (-1)); [lia|].
  eexists. split; [done|]. split; [apply length_alter|]. split; [done|]. unfold kret. cbn [set_low low sent w_iface].
  change (pcbof (set_low _ s1) i) with (pcbof s1 i). rewrite E1. done.
Qed.
Lemma text_packet_view p p' x : oview p' = oview p -> text_packet p' x = text_packet p x.
Proof. unfold oview, text_packet. intros E. injection E as _ E2 E3 E4 _ _. by rewrite E2, E3, E4. Qed.

(** [cap] of tcp_send: what the window allows beyond what is in flight, as the
    unsigned arithmetic of the code has it. *)
Definition send_cap (x : snd_vars) : Z := snd_wnd x -u (snd_nxt x -u snd_una x).
Lemma send_cap_next x n : 0 <= n <= send_cap x -> send_cap (set_snd_nxt (snd_nxt x +u n) x) = send_cap x - n.
Proof.
  unfold send_cap, u32. cbn [set_snd_nxt snd_wnd snd_nxt snd_una]. dlia.
Qed.

(** Text that fits the peer's window leaves in segments of at most [mss] bytes. *)
Lemma send_loop_sends i mss start data : (0 < mss)%nat -> Z.of_nat mss <= 65495 -> Z.of_nat (length data) < 2 ^ 31 -> forall fuel s k,
  (i < length (pcbs s))%nat -> (length data - k <= fuel)%nat -> (k <= length data)%nat ->
  Z.of_nat (length data - k) <= send_cap (psnd (pcbof s i)) ->
  exists s', send_loop false fuel i (Z.of_nat mss) start data (Z.of_nat k) s = Done (Return (Z.of_nat (length data))) s' /\
    length (pcbs s') = length (pcbs s) /\ oview (pcbof s' i) = oview (pcbof s i) /\
    snd_nxt (psnd (pcbof s' i)) = (if decide (k = length data) then snd_nxt (psnd (pcbof s i)) else snd_nxt (psnd (pcbof s i)) +u Z.of_nat (length data - k)) /\
    sent (low s') = sent (low s) ++ map (text_packet (pcbof s i)) (cut fuel mss (snd_nxt (psnd (pcbof s i))) (drop k data)).
Proof.
  intros Hm Hm' Hlen. assert (Hs32 : s32 (Z.of_nat (length data)) = Z.of_nat (length data)).
  { unfold s32. rewrite u32_small by lia. destruct (Z.ltb_spec (Z.of_nat (length data)) (2 ^ 31)); lia. }
  induction fuel as [|f IH]; intros s k Hi Hf Hk Hfit.
  { assert (k = length data) as -> by lia. cbn [send_loop]. rewrite Hs32, Z.ltb_irrefl. exists s. rewrite decide_True by done. cbn [negb cut map].
    by rewrite app_nil_r. }
  cbn [send_loop]. rewrite Hs32. destruct (Z.ltb_spec (Z.of_nat k) (Z.of_nat (length data))) as [Hlt|Hge]; cbn [negb].
  2: { assert (k = length data) as -> by lia. exists s. rewrite decide_True, drop_all by done. cbn [cut map]. by rewrite app_nil_r. }
  set (p := psnd (pcbof s i)) in *. unfold kbind at 1, rd, kgets. fold p. change (snd_wnd p -u (snd_nxt p -u snd_una p)) with (send_cap p).
  destruct (Z.eqb_spec (send_cap p) 0); [lia|]. cbn [andb]. destruct (Z.eqb_spec (send_cap p) 0); [lia|].
  rewrite (u32_small (_ - _)) by lia. set (slen := Z.min _ _). assert (Hsl : slen = Z.of_nat (Nat.min mss (length data - k))) by lia.
  assert (Hd : slice (Z.to_nat (Z.of_nat k)) (Z.to_nat slen) data = take mss (drop k data)).
  { unfold slice. rewrite Nat2Z.id, Hsl, Nat2Z.id, <- (length_drop data k), <- firstn_firstn, firstn_all. done. }
  rewrite Hd. assert (Hne : take mss (drop k data) <> []).
  { intros E. apply (f_equal length) in E. rewrite length_take, length_drop in E. simpl in E. lia. }
  assert (Hlen1 : Z.of_nat (length (take mss (drop k data))) = slen) by (rewrite length_take, length_drop; lia).
  destruct (output_text i (take mss (drop k data)) s Hi ltac:(lia) Hne) as (s1 & E1 & L1 & T1 & V1 & N1 & S1 & W1).
  unfold kbind at 1. change (Z.lor TCP_FLG_ACK TCP_FLG_PSH) with PUSH. rewrite E1. destruct (Z.eqb_spec (Z.of_nat (length (take mss (drop k data)))) (-1)); [lia|].
  unfold kbind at 1, wr, kmodify. set (s2 := set_pcbs _ s1).
  assert (E2 : pcbof s2 i = set_psnd (set_snd_nxt (snd_nxt (psnd (pcbof s1 i)) +u slen) (psnd (pcbof s1 i))) (pcbof s1 i)).
  { unfold s2. by rewrite pcbof_alter, decide_True by (done || lia). }
  assert (V2 : oview (pcbof s2 i) = oview (pcbof s i)) by (rewrite E2, <- V1; done).
  assert (N2 : snd_nxt (psnd (pcbof s2 i)) = snd_nxt p +u slen) by (rewrite E2; cbn [set_psnd psnd set_snd_nxt snd_nxt]; by rewrite N1).
  assert (C2 : send_cap (psnd (pcbof s2 i)) = send_cap p - slen).
  { rewrite <- send_cap_next by lia. rewrite E2. unfold oview in V1. injection V1 as _ _ _ _ Eu Ew. unfold send_cap. cbn [set_psnd psnd set_snd_nxt snd_wnd snd_una snd_nxt].
    by rewrite N1, Eu, Ew. }
  destruct (IH s2 (k + Nat.min mss (length data - k))%nat) as (s' & E' & L' & V' & N' & S'); [unfold s2; cbn [set_pcbs pcbs]; rewrite length_alter; lia|lia|lia|rewrite C2; lia|].
  exists s'. replace (Z.of_nat k + slen) with (Z.of_nat (k + Nat.min mss (length data - k))) by lia. split; [done|].
  split; [rewrite L'; unfold s2; cbn [set_pcbs pcbs]; rewrite length_alter; lia|]. split; [congruence|]. split.
  - rewrite N', N2. rewrite (decide_False (P := k = length data)) by lia. case_decide; [f_equal; lia|]. unfold u32. rewrite Zplus_mod_idemp_l. f_equal. lia.
  - rewrite S'. change (low s2) with (low s1). rewrite S1, <- app_assoc, N2. f_equal. cbn [cut]. destruct (drop k data) as [|x0 rest] eqn:Ed; [by destruct Hne; rewrite take_nil|].
    rewrite <- Ed in *. cbn [map app]. f_equal. rewrite Hlen1. rewrite (map_ext _ _ (fun x => text_packet_view _ _ x V2)).
    f_equal. f_equal. rewrite drop_drop. destruct (decide (mss <= length data - k)%nat).
    + f_equal. lia.
    + by rewrite !drop_ge by lia.
Qed.
(** ** The receiving host *)

Lemma deliver_text j lo fo n0 bcast pA mss : (0 < mss)%nat -> Z.of_nat mss <= 65495 -> local pA = fo -> foreign pA = lo ->
  endpoint_ok lo -> endpoint_ok fo -> addr lo <> IP_ADDR_BROADCAST -> addr lo <> bcast -> addr fo <> IP_ADDR_BROADCAST -> addr fo <> bcast ->
  0 <= rcv_nxt (prcv pA) < 2 ^ 32 -> rcv_nxt (prcv pA) <= n0 -> 0 <= rcv_wnd (prcv pA) < 2 ^ 16 ->
  forall fuel data s, (length data <= fuel)%nat -> bytes data -> connected j lo fo n0 s ->
  Z.of_nat (length data) <= rcv_wnd (prcv (pcbof s j)) -> rcv_nxt (prcv (pcbof s j)) + rcv_wnd (prcv (pcbof s j)) < 2 ^ 32 ->
  exists s', deliver bcast (map (text_packet pA) (cut fuel mss (rcv_nxt (prcv (pcbof s j))) data)) s = Some s' /\ connected j lo fo n0 s' /\
    fifo_of (pcbof s' j) = {| fq := pending (pcbof s j) ++ data; fnxt := rcv_nxt (prcv (pcbof s j)) + Z.of_nat (length data) |}.
Proof.
  intros Hm Hm' El Ef Hlo Hfo B1 B2 B3 B4 Hr Hrn Hw. induction fuel as [|f IH]; intros data s Hf Hd Hc Hwnd Hwrap.
  { assert (data = []) as -> by (destruct data; [done|simpl in Hf; lia]). exists s. rewrite app_nil_r, Z.add_0_r. done. }
  destruct data as [|x0 rest]; [exists s; rewrite app_nil_r, Z.add_0_r; done|]. set (data := x0 :: rest) in *.
  cbn [cut map deliver]. destruct data as [|x1 r1] eqn:Edata; [done|]. rewrite <- Edata in *. cbn [map deliver]. clear x1 r1 Edata.
  set (d := take mss data). assert (Hdl : (0 < length d /\ length d <= mss /\ length d <= length data)%nat) by (unfold d; rewrite length_take; unfold data; simpl; lia).
  pose proof (cn_rcv _ _ _ _ _ Hc) as Hrc. pose proof (cn_wnd _ _ _ _ _ Hc) as Hwc. pose proof (cn_buf _ _ _ _ _ Hc) as Hbc.
  cbn [text_packet pk_data pk_src pk_dst]. rewrite message_length, El, Ef. cbn [fst snd].
  replace (Z.of_nat (20 + length d)) with (TCP_HDR_SIZE + Z.of_nat (length d)) by (unfold TCP_HDR_SIZE; lia).
  rewrite wire_segment; try done; [|by apply Forall_take|lia].
  assert (Hfit : fits n0 {| seg_seq := rcv_nxt (prcv (pcbof s j)); seg_ack := rcv_nxt (prcv pA); seg_len := seq_space PUSH d; seg_wnd := rcv_wnd (prcv pA); seg_up := 0 |} PUSH d
    (fifo_of (pcbof s j)) = true).
  { unfold fits, fifo_of, seq_space. cbn [seg_seq seg_len seg_ack fq fnxt]. change (TCP_FLG_ISSET PUSH TCP_FLG_SYN) with false. change (TCP_FLG_ISSET PUSH TCP_FLG_FIN) with false.
    change (text_flags PUSH) with true. rewrite pending_length by done. cbn [cbool]. rewrite !andb_true_iff, !Z.eqb_eq, !Z.leb_le, !Z.ltb_lt. lia. }
  pose proof (arrive_step j lo fo n0 s _ _ _ Hc Hfit) as Ha. unfold sound in Ha.
  destruct (tcp_segment_arrives _ _ _ _ _ s) as [u s1| |]; [|done|done]. destruct Ha as [Hc1 Hq1].
  assert (Hn1 : rcv_nxt (prcv (pcbof s1 j)) = rcv_nxt (prcv (pcbof s j)) + Z.of_nat (length d)) by (by apply (f_equal fnxt) in Hq1).
  assert (Hp1 : pending (pcbof s1 j) = pending (pcbof s j) ++ d) by (by apply (f_equal fq) in Hq1).
  assert (Hw1 : rcv_wnd (prcv (pcbof s1 j)) = rcv_wnd (prcv (pcbof s j)) - Z.of_nat (length d)).
  { pose proof (pending_length _ (cn_buf _ _ _ _ _ Hc1) (cn_wnd _ _ _ _ _ Hc1)) as E1. pose proof (pending_length _ Hbc Hwc) as E0.
    rewrite Hp1, length_app in E1. lia. }
  assert (Hdr : (length (drop mss data) = length data - length d)%nat) by (unfold d; rewrite length_take, length_drop; lia).
  destruct (IH (drop mss data) s1) as (s' & E' & Hc' & Hq'); [unfold data in *; simpl in *; lia|by apply Forall_drop|done|lia|lia|].
  exists s'. rewrite u32_small by lia. rewrite <- Hn1. split; [done|]. split; [done|]. rewrite Hq', Hp1, Hn1. f_equal.
  - rewrite <- app_assoc. f_equal. apply take_drop.
  - lia.
Qed.
End Send.

(** C4. From send to receive: on two hosts with the two ends of an established
    connection (B expects the sequence number A sends next), text that fits
    the peer's window on A and the receive window on B is taken whole by
    tcp_send, leaves A in segments that fit the device, and once B has
    processed those packets in order, tcp_receive on B returns the bytes it
    had not read yet followed by exactly that text. *)
Theorem send_reaches_receiver (A B : tcp wire) i j a b nA nB bcast data :
  connected i a b nA A -> local (pcbof A i) = a -> foreign (pcbof A i) = b -> connected j b a nB B ->
  rcv_nxt (prcv (pcbof B j)) = nA -> rcv_nxt (prcv (pcbof A i)) <= nB ->
  endpoint_ok a -> endpoint_ok b -> addr a <> IP_ADDR_BROADCAST -> addr a <> bcast -> addr b <> IP_ADDR_BROADCAST -> addr b <> bcast ->
  40 < dev_mtu (w_iface (low A)) <= 65535 -> bytes data -> data <> [] ->
  0 <= snd_wnd (psnd (pcbof A i)) < 2 ^ 16 -> nA -u snd_una (psnd (pcbof A i)) + Z.of_nat (length data) <= snd_wnd (psnd (pcbof A i)) ->
  Z.of_nat (length data) <= rcv_wnd (prcv (pcbof B j)) -> nA + rcv_wnd (prcv (pcbof B j)) < 2 ^ 32 ->
  exists A' ms B' B'' r,
    tcp_send false (tcp_pcb_id i) data A = Done (Return (Z.of_nat (length data))) A' /\ sent (low A') = sent (low A) ++ ms /\
    deliver bcast ms B = Some B' /\
    tcp_receive false (tcp_pcb_id j) (Z.of_nat (length (pending (pcbof B j) ++ data))) B' = Done (Return (r, pending (pcbof B j) ++ data)) B''.
Proof.
  intros HA Ela Efa HB EnB EnA Ha Hb A1 A2 B1 B2 Hmtu Hd Hne Hsw Hcap Hrw Hwrap. pose proof HA as [TA SA StA NA RA WA BA].
  assert (Hi : (i < length (pcbs A))%nat) by by apply (select_lt A a (Some b)).
  set (mss := Z.to_nat (dev_mtu (w_iface (low A)) - 40)). assert (Hmss : dev_mtu (w_iface (low A)) -u (IP_HDR_SIZE_MIN + TCP_HDR_SIZE) = Z.of_nat mss).
  { unfold mss, IP_HDR_SIZE_MIN, TCP_HDR_SIZE. rewrite u32_small; lia. }
  destruct (send_loop_sends i mss (ticks A) data ltac:(lia) ltac:(lia) ltac:(unfold BUFSIZE in *; pose proof (cn_wnd _ _ _ _ _ HB); unfold BUFSIZE in *; lia)
    (length data) A 0%nat Hi) as (A' & ES & _ & _ & _ & SS); [lia|lia| |].
  { unfold send_cap. rewrite NA, Nat.sub_0_r. pose proof (u32_range (nA - snd_una (psnd (pcbof A i)))). rewrite u32_small; lia. }
  destruct (deliver_text j b a nB bcast (pcbof A i) mss ltac:(lia) ltac:(lia) Ela Efa Hb Ha B1 B2 A1 A2 RA EnA ltac:(unfold BUFSIZE in *; lia)
    (length data) data B) as (B' & ED & HB' & Hq); [lia|done|done|done|by rewrite EnB|].
  assert (Hp : pending (pcbof B' j) = pending (pcbof B j) ++ data) by (by apply (f_equal fq) in Hq).
  destruct (read_step j b a nB B' (Z.of_nat (length (pending (pcbof B j) ++ data))) HB') as (r & B'' & ER & _ & _); [lia|rewrite Hp, length_app; destruct data; [done|simpl; lia]|].
  eexists A', _, B', B'', r. split; [|split; [exact SS|split]].
  - unfold tcp_send, kbind, kget, tcp_pcb_get, tcp_pcb_id. rewrite Nat2Z.id, StA, bool_decide_eq_false_2 by done.
    destruct (Z.ltb_spec (Z.of_nat i) 0), (Z.leb_spec (Z.of_nat TCP_PCB_SIZE) (Z.of_nat i)); try lia. cbn [orb].
    unfold send_retry, kbind, kget. rewrite StA. cbn [ip_route_get_iface wire_ops]. rewrite Hmss. exact ES.
  - rewrite NA, <- EnB. exact ED.
  - rewrite ER, Hp, Nat2Z.id, take_ge by done. done.
Qed.
