(* ===== verification/TcpHandshake.v ===== *)
(** * Transmission control: opening a connection between two hosts

    [handshake_establishes] runs tcp_connect on one host against a listening
    socket on another, packet by packet. *)

From Stdlib Require Import ZArith Lia.
From S2P Require Import Prelude Bytes NetUtil Pipe Tcp TcpSafe TcpStream TcpWire.

(** ** Selection *)

Definition exact (p : tcp_pcb) (lo fo : ip_endpoint) : bool :=
  endpoint_match p lo && ((addr (foreign p) =? addr fo) && (port (foreign p) =? port fo)).

Section Select.
Context {I : Type}.
Implicit Types (s : tcp I).

Lemma select_loop_exact l k lo fo o (i : nat) p : l !! i = Some p -> exact p lo fo = true ->
  (forall x q, (x < i)%nat -> l !! x = Some q -> exact q lo fo = false) -> select_loop l k lo (Some fo) o = Some (k + i)%nat.
Proof.
  revert k o i. induction l as [|q l IH]; intros k o i Hp He Hx; [done|]. cbn [select_loop]. destruct i as [|i]; simplify_eq/=.
  - unfold exact in He. apply andb_true_iff in He as [-> ->]. f_equal. lia.
  - assert (Hq : exact q lo fo = false) by (apply (Hx 0%nat); [lia|done]). assert (Hrec : forall o', select_loop l (S k) lo (Some fo) o' = Some (k + S i)%nat).
    { intros o'. rewrite (IH (S k) o' i Hp He); [f_equal; lia|]. intros x r Hlt Hr. apply (Hx (S x)); [lia|done]. }
    unfold exact in Hq. destruct (endpoint_match q lo); [|done]. cbn [andb] in Hq. rewrite Hq. by destruct (_ && _ && _).
Qed.
Lemma select_loop_none l k lo fo o r : select_loop l k lo (Some fo) o = r ->
  (forall (x : nat) q, l !! x = Some q -> exact q lo fo = false) \/ (exists (x : nat) q, r = Some (k + x)%nat /\ l !! x = Some q /\ exact q lo fo = true).
Proof.
  revert k o. induction l as [|q l IH]; intros k o Hr; [by left|]. cbn [select_loop] in Hr.
  destruct (exact q lo fo) eqn:Eq.
  - right. exists 0%nat, q. split; [|done]. unfold exact in Eq. apply andb_true_iff in Eq as [E1 E2]. rewrite E1, E2 in Hr. rewrite <- Hr. f_equal. lia.
  - assert (Hl : exists o', select_loop l (S k) lo (Some fo) o' = r).
    { unfold exact in Eq. destruct (endpoint_match q lo); [|by exists o]. cbn [andb] in Eq. rewrite Eq in Hr. destruct (_ && _ && _); eauto. }
    destruct Hl as [o' Hl]. destruct (IH _ _ Hl) as [Hn|(x & p & E & Hp & He)].
    + left. intros [|x] p Hp; simplify_eq/=; [done|by eapply Hn].
    + right. exists (S x), p. split; [rewrite E; f_equal; lia|done].
Qed.

(** When only block [i] is exact, it is the one selected. *)
Lemma select_only s lo fo (i : nat) : (i < length (pcbs s))%nat -> exact (pcbof s i) lo fo = true ->
  (forall x, x <> i -> (x < length (pcbs s))%nat -> exact (pcbof s x) lo fo = false) -> tcp_pcb_select s lo (Some fo) = Some i.
Proof.
  intros Hi He Hx. unfold tcp_pcb_select. destruct (lookup_lt_is_Some_2 _ _ Hi) as [p Hp].
  assert (Hpp : forall x q, pcbs s !! x = Some q -> pcbof s x = q) by (intros x q E; unfold pcbof; by rewrite nth_lookup, E).
  apply (select_loop_exact _ 0 _ _ _ i p); [done|by rewrite <- (Hpp _ _ Hp)|]. intros x q Hlt Hq. rewrite <- (Hpp _ _ Hq). apply Hx; [lia|].
  by apply lookup_lt_Some in Hq.
Qed.
(** Nothing is exact when nothing, or a block that is not exact, is selected. *)
Lemma select_inexact s lo fo r x : tcp_pcb_select s lo (Some fo) = r -> (forall j, r = Some j -> exact (pcbof s j) lo fo = false) ->
  (x < length (pcbs s))%nat -> exact (pcbof s x) lo fo = false.
Proof.
  intros Hr Hj Hx. destruct (lookup_lt_is_Some_2 _ _ Hx) as [p Hp]. unfold pcbof. rewrite nth_lookup, Hp. cbn.
  destruct (select_loop_none _ _ _ _ _ _ Hr) as [Hn|(y & q & E & Hq & He)]; [by eapply Hn|]. specialize (Hj _ E). unfold pcbof in Hj.
  rewrite nth_lookup in Hj. cbn [Nat.add] in Hj. rewrite Hq in Hj. cbn in Hj. congruence.
Qed.
End Select.

(** ** Updating one block *)

Section Upd.
Context {I : Type}.
Implicit Types (s : tcp I) (f g : tcp_pcb -> tcp_pcb).

Definition upd (i : nat) f s : tcp I := set_pcbs (alter f i (pcbs s)) s.
Lemma upd_upd i f g s : upd i f (upd i g s) = upd i (fun p => f (g p)) s.
Proof. unfold upd, set_pcbs. cbn. f_equal. apply list_eq. intros j. destruct (decide (i = j)) as [->|].
  - rewrite !list_lookup_alter_eq. by destruct (pcbs s !! j).
  - by rewrite !list_lookup_alter_ne by done.
Qed.
Lemma upd_length i f s : length (pcbs (upd i f s)) = length (pcbs s).
Proof. apply length_alter. Qed.
Lemma pcbof_upd i f s : (i < length (pcbs s))%nat -> pcbof (upd i f s) i = f (pcbof s i).
Proof. intros Hi. unfold upd. by rewrite pcbof_alter, decide_True. Qed.
Lemma pcbof_upd_ne i j f s : i <> j -> pcbof (upd i f s) j = pcbof s j.
Proof. intros Hne. unfold upd, pcbof. cbn. by rewrite !nth_lookup, list_lookup_alter_ne. Qed.
Lemma tcp_upd_at i f s p : (i < length (pcbs s))%nat -> f (pcbof s i) = p -> upd i f s = upd i (fun _ => p) s.
Proof.
  intros Hi <-. unfold upd, set_pcbs. f_equal. apply list_eq. intros j. destruct (decide (i = j)) as [->|]; [|by rewrite !list_lookup_alter_ne].
  rewrite !list_lookup_alter_eq. unfold pcbof. rewrite nth_lookup. by destruct (pcbs s !! j).
Qed.
Lemma wr_upd {B} i f (k : unit -> K (tcp I) B) s : kbind (wr i f) k s = k tt (upd i f s).
Proof. done. Qed.
Lemma rd_at {A B} i (f : tcp_pcb -> A) (k : A -> K (tcp I) B) s : kbind (rd i f) k s = k (f (pcbof s i)) s.
Proof. done. Qed.
Lemma gets_at {A B} (f : tcp I -> A) (k : A -> K (tcp I) B) s : kbind (kgets f) k s = k (f s) s.
Proof. done. Qed.
Lemma get_at {B} (k : tcp I -> K (tcp I) B) s : kbind kget k s = k s s.
Proof. done. Qed.
Lemma ret_at {A B} (x : A) (k : A -> K (tcp I) B) s : kbind (kret x) k s = k x s.
Proof. done. Qed.
Lemma bind_at {A B} (m : K (tcp I) A) (k : A -> K (tcp I) B) s x s' : m s = Done x s' -> kbind m k s = k x s'.
Proof. unfold kbind. by intros ->. Qed.
Lemma bind_assoc {A B C} (m : K (tcp I) A) (k : A -> K (tcp I) B) (h : B -> K (tcp I) C) s :
  kbind (kbind m k) h s = kbind m (fun x => kbind (k x) h) s.
Proof. unfold kbind. by destruct (m s). Qed.
End Upd.
(** Run the primitive steps at the front of a computation. *)
Ltac krun := repeat first [rewrite wr_upd | rewrite rd_at | rewrite gets_at | rewrite get_at | rewrite ret_at | rewrite bind_assoc]; cbn beta.

(** ** Sending without text *)

Definition log (m : packet) (s : tcp wire) : tcp wire := set_low {| sent := sent (low s) ++ [m]; w_iface := w_iface (low s) |} s.
Definition bare_packet (p : tcp_pcb) (flg seq : Z) : packet :=
  {| pk_proto := IP_PROTOCOL_TCP; pk_data := tcp_message seq (rcv_nxt (prcv p)) flg (rcv_wnd (prcv p)) [] (local p) (foreign p);
     pk_src := addr (local p); pk_dst := addr (foreign p) |}.

Section Hosts.
Implicit Types (i j k : nat) (s A B : tcp wire) (p : tcp_pcb).

Lemma output_bare i flg s : TCP_FLG_ISSET flg (Z.lor TCP_FLG_SYN TCP_FLG_FIN) = false -> TCP_FLG_ISSET flg TCP_FLG_SYN = false ->
  tcp_output i flg [] s = Done 0 (log (bare_packet (pcbof s i) flg (snd_nxt (psnd (pcbof s i)))) s).
Proof. intros H1 H2. unfold tcp_output. rewrite H1, H2. reflexivity. Qed.
Lemma output_syn i flg s : (i < length (pcbs s))%nat -> TCP_FLG_ISSET flg TCP_FLG_SYN = true -> TCP_FLG_ISSET flg (Z.lor TCP_FLG_SYN TCP_FLG_FIN) = true ->
  exists q, tcp_output i flg [] s = Done 0 (log (bare_packet (pcbof s i) flg (iss (pcbof s i))) (upd i (set_rqueue q) s)).
Proof.
  intros Hi Hf Hf'. unfold tcp_output. rewrite Hf, Hf'. cbn [orb]. unfold tcp_retransmit_queue_add, kbind, rd, kgets, kget, id.
  cbn [memory_alloc wire_ops kret negb queue_push]. unfold wr, kmodify.
  set (q := {| entries := _; num := _ |}). exists q. unfold tcp_output_segment, kbind, kret.
  rewrite !pcbof_alter, !decide_True by done.
  unfold bare_packet. reflexivity.
Qed.

Lemma lxor_range x y : 0 <= x < 2 ^ 32 -> 0 <= y < 2 ^ 32 -> 0 <= Z.lxor x y < 2 ^ 32.
Proof.
  intros Hx Hy. replace (Z.lxor x y) with (Z.lxor x y mod 2 ^ 32); [apply Z.mod_pos_bound; lia|]. apply Z.bits_inj'. intros b Hb.
  destruct (decide (b < 32)); [by rewrite Z.mod_pow2_bits_low by lia|]. rewrite Z.mod_pow2_bits_high by lia.
  rewrite <- (Z.mod_small x (2 ^ 32)), <- (Z.mod_small y (2 ^ 32)), Z.lxor_spec by done. by rewrite !Z.mod_pow2_bits_high by lia.
Qed.
Lemma random_range t : 0 <= t < 2 ^ 32 -> 0 <= microps_random t < 2 ^ 32.
Proof.
  intros Ht. unfold microps_random. assert (Hr : forall x n, 0 <= x < 2 ^ 32 -> 0 <= n -> 0 <= Z.shiftr x n < 2 ^ 32).
  { intros x n Hx Hn. rewrite Z.shiftr_div_pow2 by done. pose proof (Z.pow_pos_nonneg 2 n). split; [apply Z.div_pos; lia|].
    apply Z.le_lt_trans with x; [|lia]. apply Z.div_le_upper_bound; nia. }
  match goal with |- context [if ?b then _ else _] => destruct b end; [lia|]. repeat (apply lxor_range || apply u32_range || apply Hr); lia.
Qed.

Lemma upd_log i f m s : upd i f (log m s) = log m (upd i f s).
Proof. done. Qed.

(** *** The client sends its SYN *)

Lemma pick_first s a fo n pt : n <> 0%nat -> tcp_pcb_select s {| addr := a; port := u16 pt |} (Some fo) = None -> pick_port s a fo n pt = u16 pt.
Proof. intros Hn Hs. destruct n; [done|]. cbn [pick_port]. by rewrite Hs. Qed.

Definition client_end A : ip_endpoint := {| addr := unicast (w_iface (low A)); port := TCP_SOURCE_PORT_MIN |}.

Lemma connect_sends A i b : length (pcbs A) = TCP_PCB_SIZE -> (i < TCP_PCB_SIZE)%nat -> state (pcbof A i) = CLOSED ->
  mode (pcbof A i) = TCP_PCB_MODE_SOCKET -> local (pcbof A i) = endpoint0 -> tcp_pcb_select A (client_end A) (Some b) = None ->
  exists q A1, tcp_connect false (tcp_pcb_id i) b A = Done (Wait {| ow_pcb := i; ow_state := SYN_SENT; ow_start := ticks A |}) A1 /\
    let p := set_rcv_wnd BUFSIZE (prcv (pcbof A i)) in
    let p1 := set_iss (microps_random (ticks A)) (set_prcv p (set_foreign b (set_local (client_end A) (pcbof A i)))) in
    A1 = log (bare_packet p1 TCP_FLG_SYN (microps_random (ticks A)))
      (upd i (fun _ => set_state SYN_SENT (set_psnd (set_snd_nxt (microps_random (ticks A) +u 1) (set_snd_una (microps_random (ticks A)) (psnd (pcbof A i))))
        (set_rqueue q p1))) A).
Proof.
  intros HA Hi Hst Hm Hl Hs. unfold tcp_connect. rewrite get_at. unfold tcp_pcb_get, tcp_pcb_id. rewrite Nat2Z.id, Hst, bool_decide_eq_false_2 by done.
  destruct (Z.ltb_spec (Z.of_nat i) 0), (Z.leb_spec (Z.of_nat TCP_PCB_SIZE) (Z.of_nat i)); try lia. cbn [orb].
  rewrite Hm. change (negb (TCP_PCB_MODE_SOCKET =? TCP_PCB_MODE_SOCKET)) with false. rewrite Hl. change (addr endpoint0 =? IP_ADDR_ANY) with true. cbn [ip_route_get_iface wire_ops option_map].
  change (port endpoint0 =? 0) with true. cbv match. rewrite pick_first; [|unfold PORTS, TCP_SOURCE_PORT_MAX, TCP_SOURCE_PORT_MIN; lia|done].
  change (u16 TCP_SOURCE_PORT_MIN =? 0) with false. cbv match. change {| addr := unicast (w_iface (low A)); port := u16 TCP_SOURCE_PORT_MIN |} with (client_end A).
  unfold open_active. krun. rewrite !upd_upd. cbn [ticks upd set_pcbs].
  set (p1 := set_iss (microps_random (ticks A)) (set_prcv (set_rcv_wnd BUFSIZE (prcv (pcbof A i))) (set_foreign b (set_local (client_end A) (pcbof A i))))).
  rewrite (tcp_upd_at i _ A p1) by (done || lia). set (s1 := upd i _ A).
  assert (L1 : (i < length (pcbs s1))%nat) by (unfold s1; rewrite upd_length; lia).
  assert (P1 : pcbof s1 i = p1) by (unfold s1; rewrite pcbof_upd by lia; done).
  destruct (output_syn i TCP_FLG_SYN s1 L1) as [q Hq]; [done|done|]. rewrite (bind_at _ _ _ _ _ Hq). change (0 =? -1) with false. cbv match. krun.
  rewrite !upd_log, !upd_upd, P1. exists q. eexists. split; [|cbv zeta; fold p1; reflexivity].
  unfold s1. rewrite upd_upd. set (p2 := set_state SYN_SENT _). unfold open_again. krun. change (pcbof (log ?m ?s') i) with (pcbof s' i).
  rewrite pcbof_upd by lia. change (state p2) with SYN_SENT. unfold open_sleep. unfold wait_tick_enter. krun.
  change (ticks (log _ _)) with (ticks A). rewrite Z.sub_diag. reflexivity.
Qed.
(** *** The server answers it in a new block *)

Definition child_block (p : tcp_pcb) (j : nat) (a b : ip_endpoint) (sq iss0 : Z) : tcp_pcb :=
  set_iss iss0 (set_irs sq (set_prcv (set_rcv_nxt (sq +u 1) (set_rcv_wnd BUFSIZE (prcv p)))
    (set_foreign a (set_local b (set_parent (Some j) (set_mode TCP_PCB_MODE_SOCKET (set_ctx sched_ctx_init (set_state CLOSED p)))))))).
Definition child_pcb (p : tcp_pcb) q j a b sq iss0 : tcp_pcb :=
  let p1 := set_rqueue q (child_block p j a b sq iss0) in
  let p2 := set_psnd (set_snd_nxt (iss p1 +u 1) (psnd p1)) p1 in
  set_state SYN_RECEIVED (set_psnd (set_snd_una (iss p2) (psnd p2)) p2).

Lemma listen_answers B j k pk seg a b : tcp_pcb_select B b (Some a) = Some j -> state (pcbof B j) = LISTEN -> mode (pcbof B j) = TCP_PCB_MODE_SOCKET ->
  list_find (fun p => state p = FREE) (pcbs B) = Some (k, pk) ->
  exists q, tcp_segment_arrives seg TCP_FLG_SYN [] b a B = Done tt
    (log (bare_packet (child_block (pcbof B k) j a b (seg_seq seg) (microps_random (ticks B))) (Z.lor TCP_FLG_SYN TCP_FLG_ACK) (microps_random (ticks B)))
      (upd k (fun _ => child_pcb (pcbof B k) q j a b (seg_seq seg) (microps_random (ticks B))) B)).
Proof.
  intros Hs Hst Hm Hk. unfold tcp_segment_arrives. rewrite get_at, Hs, Hst. unfold seg_listen.
  change (TCP_FLG_ISSET TCP_FLG_SYN TCP_FLG_RST) with false. change (TCP_FLG_ISSET TCP_FLG_SYN TCP_FLG_ACK) with false. change (TCP_FLG_ISSET TCP_FLG_SYN TCP_FLG_SYN) with true.
  cbv match. rewrite rd_at, Hm. change (TCP_PCB_MODE_SOCKET =? TCP_PCB_MODE_SOCKET) with true. cbv match. unfold tcp_pcb_alloc. krun. rewrite Hk. krun.
  apply list_find_Some in Hk as (Ek & _ & _). pose proof (lookup_lt_Some _ _ _ Ek) as Hkl. unfold listen_syn. krun. rewrite !upd_upd.
  change (ticks (upd _ _ B)) with (ticks B). generalize (microps_random (ticks B)) as iss0. intros iss0.
  rewrite (tcp_upd_at k _ B (child_block (pcbof B k) j a b (seg_seq seg) iss0)) by done. set (s1 := upd k _ B).
  assert (L1 : (k < length (pcbs s1))%nat) by (unfold s1; by rewrite upd_length).
  assert (P1 : pcbof s1 k = child_block (pcbof B k) j a b (seg_seq seg) iss0) by (unfold s1; by rewrite pcbof_upd).
  destruct (output_syn k (Z.lor TCP_FLG_SYN TCP_FLG_ACK) s1 L1) as [q Hq]; [done|done|]. rewrite (bind_at _ _ _ _ _ Hq). krun.
  rewrite ?upd_log, ?upd_upd, P1. exists q. change (wr k ?f ?t) with (Done tt (upd k f t)). 
  rewrite upd_log, upd_upd. unfold s1. rewrite upd_upd.
  change (iss (child_block _ _ _ _ _ iss0)) with iss0. reflexivity.
Qed.
(** *** The client is established and acknowledges *)

Lemma syn_sent_establishes s i seg a b : tcp_pcb_select s a (Some b) = Some i -> state (pcbof s i) = SYN_SENT ->
  iss (pcbof s i) < seg_ack seg -> seg_ack seg <= snd_nxt (psnd (pcbof s i)) -> snd_una (psnd (pcbof s i)) <= seg_ack seg ->
  exists s', tcp_segment_arrives seg (Z.lor TCP_FLG_SYN TCP_FLG_ACK) [] a b s = Done tt s' /\ length (pcbs s') = length (pcbs s) /\
    sent (low s') = sent (low s) ++ [bare_packet (set_prcv (set_rcv_nxt (seg_seq seg +u 1) (prcv (pcbof s i))) (pcbof s i)) TCP_FLG_ACK (snd_nxt (psnd (pcbof s i)))] /\
    state (pcbof s' i) = ESTABLISHED /\ rcv_nxt (prcv (pcbof s' i)) = seg_seq seg +u 1 /\ snd_nxt (psnd (pcbof s' i)) = snd_nxt (psnd (pcbof s i)).
Proof.
  intros Hs Hst Hi Hn Hu. pose proof (select_lt _ _ _ _ Hs) as Hlt. unfold tcp_segment_arrives. rewrite get_at, Hs, Hst. unfold seg_syn_sent.
  change (TCP_FLG_ISSET _ TCP_FLG_ACK) with true. change (TCP_FLG_ISSET _ TCP_FLG_RST) with false. change (TCP_FLG_ISSET _ TCP_FLG_SYN) with true.
  rewrite rd_at. unfold id. destruct (Z.leb_spec (seg_ack seg) (iss (pcbof s i))); [lia|]. destruct (Z.ltb_spec (snd_nxt (psnd (pcbof s i))) (seg_ack seg)); [lia|].
  destruct (Z.leb_spec (snd_una (psnd (pcbof s i))) (seg_ack seg)); [|lia]. destruct (Z.leb_spec (seg_ack seg) (snd_nxt (psnd (pcbof s i)))); [|lia].
  cbn [orb andb]. unfold tcp_retransmit_queue_cleanup. krun. rewrite !upd_upd. set (s1 := upd i _ s).
  assert (L1 : (i < length (pcbs s1))%nat) by (unfold s1; by rewrite upd_length).
  assert (P1 : exists q, pcbof s1 i = set_rqueue q (set_psnd (set_snd_una (seg_ack seg) (psnd (pcbof s i))) (set_irs (seg_seq seg)
    (set_prcv (set_rcv_nxt (seg_seq seg +u 1) (prcv (pcbof s i))) (pcbof s i))))).
  { eexists. unfold s1. rewrite pcbof_upd by done. reflexivity. }
  destruct P1 as [q P1]. destruct (Z.ltb_spec (iss (pcbof s1 i)) (snd_una (psnd (pcbof s1 i)))) as [|Hge]; [|rewrite P1 in Hge; cbn in Hge; lia].
  krun. set (s2 := upd i _ s1). assert (P2 : pcbof s2 i = set_state ESTABLISHED (pcbof s1 i)) by (unfold s2; by rewrite pcbof_upd).
  rewrite (bind_at _ _ _ _ _ (output_bare i TCP_FLG_ACK s2 eq_refl eq_refl)). krun. eexists. split; [reflexivity|].
  set (s3 := log _ s2). assert (L3 : (i < length (pcbs s3))%nat) by (unfold s3, s2; cbn [log set_low pcbs]; by rewrite upd_length).
  assert (P3 : pcbof (upd i (fun p => set_psnd (set_snd_window (seg_wnd seg) (seg_seq seg) (seg_ack seg) (psnd p)) p) s3) i =
    set_psnd (set_snd_window (seg_wnd seg) (seg_seq seg) (seg_ack seg) (psnd (pcbof s2 i))) (pcbof s2 i)) by by rewrite pcbof_upd.
  split; [cbn [pcbs upd set_pcbs]; rewrite length_alter; unfold s3, s2, s1; cbn [log set_low pcbs upd set_pcbs]; by rewrite !length_alter|].
  split; [cbn [low upd set_pcbs]; unfold s3; cbn [log set_low low sent]; rewrite P2, P1; reflexivity|].
  change (pcbof {| pcbs := pcbs ?t; ticks := _; errno := _; wakes := _; low := _ |} i) with (pcbof t i). rewrite P3, P2, P1. done.
Qed.
(** *** The server's block is established and queued for tcp_accept *)

(** An ACK of something new on an established connection. *)
Lemma ack_new s k seg : (k < length (pcbs s))%nat -> state (pcbof s k) = ESTABLISHED ->
  snd_una (psnd (pcbof s k)) < seg_ack seg -> seg_ack seg <= snd_nxt (psnd (pcbof s k)) ->
  exists s', ack_established seg k s = Done true s' /\ length (pcbs s') = length (pcbs s) /\ (forall j, j <> k -> pcbof s' j = pcbof s j) /\
    state (pcbof s' k) = ESTABLISHED /\ prcv (pcbof s' k) = prcv (pcbof s k) /\ foreign (pcbof s' k) = foreign (pcbof s k) /\
    snd_nxt (psnd (pcbof s' k)) = snd_nxt (psnd (pcbof s k)).
Proof.
  intros Hk Hst Hu Hn. unfold ack_established. krun. unfold id.
  destruct (Z.ltb_spec (snd_una (psnd (pcbof s k))) (seg_ack seg)); [|lia]. destruct (Z.leb_spec (seg_ack seg) (snd_nxt (psnd (pcbof s k)))); [|lia].
  cbn [andb]. unfold tcp_retransmit_queue_cleanup. krun. rewrite upd_upd. set (f := fun p => set_rqueue _ _). set (w := _ || _). clearbody w.
  assert (Hw : exists g, (if w then wr k (fun p => set_psnd (set_snd_window (seg_wnd seg) (seg_seq seg) (seg_ack seg) (psnd p)) p) else kret tt) (upd k f s) = Done tt (upd k g s) /\
    forall p, state (g p) = state p /\ prcv (g p) = prcv p /\ foreign (g p) = foreign p /\ snd_nxt (psnd (g p)) = snd_nxt (psnd p)).
  { destruct w; [|by exists f]. eexists. split; [change (wr k ?h ?t) with (Done tt (upd k h t)); rewrite upd_upd; reflexivity|done]. }
  destruct Hw as (g & Hg & Hp). rewrite (bind_at _ _ _ _ _ Hg). krun. cbn [negb]. krun. unfold id. destruct (Hp (pcbof s k)) as (P1 & P2 & P3 & P4).
  rewrite pcbof_upd, P1, Hst by done. eexists. split; [reflexivity|]. rewrite upd_length, pcbof_upd by done. split; [done|].
  split; [intros j Hj; by rewrite pcbof_upd_ne by done|]. by rewrite P1.
Qed.

(** The ACK of the SYN: the block joins the backlog of its parent. *)
Lemma ack_of_syn s k j seg a b : (k < length (pcbs s))%nat -> (j < length (pcbs s))%nat -> parent (pcbof s k) = Some j -> j <> k ->
  snd_una (psnd (pcbof s k)) <= seg_ack seg -> seg_ack seg <= snd_nxt (psnd (pcbof s k)) ->
  exists s' q, ack_syn_received seg b a k s = Done true s' /\ length (pcbs s') = length (pcbs s) /\
    pcbof s' j = set_backlog q (pcbof s j) /\ entries q = entries (backlog (pcbof s j)) ++ [k] /\ pcbof s' k = set_state ESTABLISHED (pcbof s k).
Proof.
  intros Hk Hj Hp Hjk Hu Hn. unfold ack_syn_received. krun. unfold id.
  destruct (Z.leb_spec (snd_una (psnd (pcbof s k))) (seg_ack seg)); [|lia]. destruct (Z.leb_spec (seg_ack seg) (snd_nxt (psnd (pcbof s k)))); [|lia].
  cbn [andb]. krun. rewrite Hp. set (s1 := upd k _ s). unfold sched_wakeup at 1, kmodify. unfold kbind at 1.
  krun. change (memory_alloc 8) with (kret (S := tcp wire) true). krun. cbn [queue_push].
  change (pcbof {| pcbs := pcbs s1; ticks := _; errno := _; wakes := _; low := _ |} j) with (pcbof s1 j). set (q := {| entries := _; num := _ |}). krun.
  unfold sched_wakeup, kmodify. unfold kbind at 1. krun. eexists _, q. split; [reflexivity|]. cbn [pcbs]. split; [rewrite upd_length; apply upd_length|].
  change (pcbof {| pcbs := pcbs ?t; ticks := _; errno := _; wakes := _; low := _ |}) with (pcbof t).
  split; [|split].
  - rewrite pcbof_upd by (cbn [pcbs]; unfold s1; by rewrite upd_length). change (pcbof {| pcbs := pcbs ?t; ticks := _; errno := _; wakes := _; low := _ |}) with (pcbof t).
    unfold s1. by rewrite pcbof_upd_ne.
  - unfold q, s1. cbn [entries]. by rewrite pcbof_upd_ne.
  - rewrite pcbof_upd_ne by done. change (pcbof {| pcbs := pcbs ?t; ticks := _; errno := _; wakes := _; low := _ |}) with (pcbof t).
    unfold s1. by rewrite pcbof_upd.
Qed.

Lemma ack_accepts s k j seg a b : tcp_pcb_select s b (Some a) = Some k -> state (pcbof s k) = SYN_RECEIVED -> parent (pcbof s k) = Some j -> j <> k ->
  (j < length (pcbs s))%nat -> seg_seq seg = rcv_nxt (prcv (pcbof s k)) -> seg_len seg = 0 -> 0 < rcv_wnd (prcv (pcbof s k)) -> 0 <= rcv_nxt (prcv (pcbof s k)) ->
  rcv_nxt (prcv (pcbof s k)) + rcv_wnd (prcv (pcbof s k)) < 2 ^ 32 -> snd_una (psnd (pcbof s k)) < seg_ack seg -> seg_ack seg <= snd_nxt (psnd (pcbof s k)) ->
  exists s' q, tcp_segment_arrives seg TCP_FLG_ACK [] b a s = Done tt s' /\ length (pcbs s') = length (pcbs s) /\
    pcbof s' j = set_backlog q (pcbof s j) /\ entries q = entries (backlog (pcbof s j)) ++ [k] /\
    state (pcbof s' k) = ESTABLISHED /\ rcv_nxt (prcv (pcbof s' k)) = rcv_nxt (prcv (pcbof s k)) /\
    snd_nxt (psnd (pcbof s' k)) = snd_nxt (psnd (pcbof s k)) /\ foreign (pcbof s' k) = foreign (pcbof s k).
Proof.
  intros Hs Hst Hp Hjk Hj Hsq Hln Hw H0 Hwr Hu Hn. pose proof (select_lt _ _ _ _ Hs) as Hlt. unfold tcp_segment_arrives. rewrite get_at, Hs, Hst.
  rewrite otherwise_ack; [|by rewrite Hst| |done|done].
  2: { unfold seg_acceptable. rewrite Hsq, Hln, (u32_small (rcv_nxt (prcv (pcbof s k)) + _)) by lia. change (0 =? 0) with true. cbv match.
       destruct (Z.eqb_spec (rcv_wnd (prcv (pcbof s k))) 0); [lia|]. by zcases; try lia. }
  unfold seg_ack_field. change (negb (TCP_FLG_ISSET TCP_FLG_ACK TCP_FLG_ACK)) with false. cbv match. krun. unfold id. rewrite Hst.
  destruct (ack_of_syn s k j seg a b) as (s1 & q & E1 & L1 & J1 & Q1 & K1); try (done || lia). rewrite bind_assoc, (bind_at _ _ _ _ _ E1).
  destruct (ack_new s1 k seg) as (s2 & E2 & L2 & J2 & S2 & R2 & F2 & N2); [lia|by rewrite K1|by rewrite K1|by rewrite K1|].
  rewrite (bind_at _ _ _ _ _ E2). cbn [negb]. unfold seg_text. rewrite bind_assoc. krun. rewrite S2. change (Z.of_nat (length []) =? 0) with true. cbv match. krun.
  unfold seg_fin. change (negb _) with true. cbv match. exists s2, q. rewrite (J2 j Hjk), J1, S2, R2, F2, N2, K1, L2, L1. done.
Qed.
End Hosts.

(** A packet without text is processed as the segment it was made from. *)
Lemma deliver_bare bcast p flg seq (s : tcp wire) s' :
  tcp_segment_arrives {| seg_seq := seq; seg_ack := rcv_nxt (prcv p); seg_len := seq_space flg []; seg_wnd := rcv_wnd (prcv p); seg_up := 0 |} flg [] (foreign p) (local p) s = Done tt s' ->
  0 <= seq < 2 ^ 32 -> 0 <= rcv_nxt (prcv p) < 2 ^ 32 -> 0 <= flg < 64 -> 0 <= rcv_wnd (prcv p) < 2 ^ 16 ->
  endpoint_ok (local p) -> endpoint_ok (foreign p) -> addr (local p) <> IP_ADDR_BROADCAST -> addr (local p) <> bcast ->
  addr (foreign p) <> IP_ADDR_BROADCAST -> addr (foreign p) <> bcast ->
  deliver bcast [bare_packet p flg seq] s = Some s'.
Proof.
  intros E Hs Hr Hf Hw Hl Hfo B1 B2 B3 B4. cbn [deliver bare_packet pk_data pk_src pk_dst]. rewrite message_length.
  change (Z.of_nat (20 + length [])) with (TCP_HDR_SIZE + Z.of_nat (length (@nil Z))).
  rewrite wire_segment; try done; [|by constructor]. by rewrite E.
Qed.

(** The two ends before the handshake. *)
Record client (A : tcp wire) (i : nat) (b : ip_endpoint) : Prop := {
  cl_table : length (pcbs A) = TCP_PCB_SIZE;
  cl_slot : (i < TCP_PCB_SIZE)%nat;
  cl_state : state (pcbof A i) = CLOSED;
  cl_mode : mode (pcbof A i) = TCP_PCB_MODE_SOCKET;
  cl_unbound : local (pcbof A i) = endpoint0;
  cl_rcv : 0 <= rcv_nxt (prcv (pcbof A i)) < 2 ^ 32;
  cl_port : tcp_pcb_select A (client_end A) (Some b) = None; (* the first source port is free *)
}.
Record server (B : tcp wire) (j k : nat) (a b : ip_endpoint) : Prop := {
  sv_table : length (pcbs B) = TCP_PCB_SIZE;
  sv_select : tcp_pcb_select B b (Some a) = Some j;
  sv_state : state (pcbof B j) = LISTEN;
  sv_mode : mode (pcbof B j) = TCP_PCB_MODE_SOCKET;
  sv_any : foreign (pcbof B j) = endpoint0;
  sv_backlog : entries (backlog (pcbof B j)) = [];
  sv_free : exists pk, list_find (fun p => state p = FREE) (pcbs B) = Some (k, pk);
}.

(** After tcp_connect has sent its SYN. *)
Lemma connect_waits A i b : client A i b -> exists A1 p1,
  tcp_connect false (tcp_pcb_id i) b A = Done (Wait {| ow_pcb := i; ow_state := SYN_SENT; ow_start := ticks A |}) A1 /\
  length (pcbs A1) = TCP_PCB_SIZE /\ sent (low A1) = sent (low A) ++ [bare_packet p1 TCP_FLG_SYN (microps_random (ticks A))] /\
  tcp_pcb_select A1 (client_end A) (Some b) = Some i /\
  local p1 = client_end A /\ foreign p1 = b /\ prcv p1 = set_rcv_wnd BUFSIZE (prcv (pcbof A i)) /\
  state (pcbof A1 i) = SYN_SENT /\ iss (pcbof A1 i) = microps_random (ticks A) /\ snd_una (psnd (pcbof A1 i)) = microps_random (ticks A) /\
  snd_nxt (psnd (pcbof A1 i)) = microps_random (ticks A) +u 1 /\ prcv (pcbof A1 i) = prcv p1 /\
  local (pcbof A1 i) = client_end A /\ foreign (pcbof A1 i) = b.
Proof.
  intros [TA Hi HstA HmA HlA HrA HpA]. destruct (connect_sends A i b TA Hi HstA HmA HlA HpA) as (q & S1 & EC & ES1). cbv zeta in ES1.
  generalize dependent (microps_random (ticks A)). intros issA ES1. set (p1 := set_iss _ _) in ES1. set (p2 := set_state _ _) in ES1.
  assert (P2 : pcbof S1 i = p2) by (rewrite ES1; change (pcbof (log ?m ?s) i) with (pcbof s i); rewrite pcbof_upd by lia; done).
  exists S1, p1. split; [done|]. split; [rewrite ES1; cbn [log set_low pcbs]; by rewrite upd_length|]. split; [by rewrite ES1|].
  split; [|by rewrite P2]. apply select_only.
  - rewrite ES1; cbn [log set_low pcbs]; rewrite upd_length; lia.
  - rewrite P2. unfold exact, endpoint_match. change (local p2) with (client_end A). change (foreign p2) with b. by rewrite !Z.eqb_refl, orb_true_r.
  - intros x Hx Hlt. rewrite ES1 in *. change (pcbof (log ?m ?s) x) with (pcbof s x). rewrite pcbof_upd_ne by done.
    apply (select_inexact _ _ _ None); [done|done|]. cbn [log set_low pcbs] in Hlt. by rewrite upd_length in Hlt.
Qed.

(** After the server has answered the SYN. *)
Lemma server_answers B j k a b seg : server B j k a b -> port a <> 0 -> exists B1 pk,
  tcp_segment_arrives seg TCP_FLG_SYN [] b a B = Done tt B1 /\
  length (pcbs B1) = TCP_PCB_SIZE /\ sent (low B1) = sent (low B) ++ [bare_packet pk (Z.lor TCP_FLG_SYN TCP_FLG_ACK) (microps_random (ticks B))] /\
  tcp_pcb_select B1 b (Some a) = Some k /\ j <> k /\ (j < TCP_PCB_SIZE)%nat /\ pcbof B1 j = pcbof B j /\
  local pk = b /\ foreign pk = a /\ rcv_nxt (prcv pk) = seg_seq seg +u 1 /\ rcv_wnd (prcv pk) = BUFSIZE /\
  state (pcbof B1 k) = SYN_RECEIVED /\ snd_una (psnd (pcbof B1 k)) = microps_random (ticks B) /\
  snd_nxt (psnd (pcbof B1 k)) = microps_random (ticks B) +u 1 /\ prcv (pcbof B1 k) = prcv pk /\ parent (pcbof B1 k) = Some j /\ foreign (pcbof B1 k) = a.
Proof.
  intros [TB SB StB MB FB QB [pk Hk]] Ha. destruct (listen_answers B j k pk seg a b SB StB MB Hk) as (q & ES).
  generalize dependent (microps_random (ticks B)). intros issB ES. apply list_find_Some in Hk as (Ek & Pk & _). pose proof (lookup_lt_Some _ _ _ Ek) as Hlt.
  assert (Hjk : j <> k). { intros ->. unfold pcbof in StB. rewrite nth_lookup, Ek in StB. cbn in StB. congruence. }
  set (B1 := log _ _) in ES. set (p1 := child_block _ _ _ _ _ _) in B1.
  assert (PK : pcbof B1 k = child_pcb (pcbof B k) q j a b (seg_seq seg) issB) by (unfold B1; change (pcbof (log ?m ?s) k) with (pcbof s k); by rewrite pcbof_upd).
  assert (Hne : forall x, x <> k -> pcbof B1 x = pcbof B x) by (intros x Hx; unfold B1; change (pcbof (log ?m ?s) x) with (pcbof s x); by rewrite pcbof_upd_ne by done).
  exists B1, p1. split; [done|]. split; [unfold B1; cbn [log set_low pcbs]; by rewrite upd_length|]. split; [done|]. split.
  - apply select_only.
    + unfold B1; cbn [log set_low pcbs]; by rewrite upd_length.
    + rewrite PK. unfold exact, endpoint_match. change (local (child_pcb _ _ _ _ _ _ _)) with b. change (foreign (child_pcb _ _ _ _ _ _ _)) with a.
      by rewrite !Z.eqb_refl, orb_true_r.
    + intros x Hx Hxl. rewrite Hne by done. apply (select_inexact _ _ _ (Some j)); [done| |unfold B1 in Hxl; cbn [log set_low pcbs] in Hxl; by rewrite upd_length in Hxl].
      intros j' [= <-]. unfold exact. rewrite FB. cbn [endpoint0 addr port]. destruct (Z.eqb_spec 0 (port a)); [lia|]. by rewrite !andb_false_r.
  - split; [done|]. split; [rewrite <- TB; by eapply select_lt|]. split; [by apply Hne|]. rewrite PK. unfold p1, child_pcb, child_block. cbn. done.
Qed.

(** C14. Connecting establishes both ends: when tcp_connect runs against a
    listening socket of another host that has a free block, and the two
    initial sequence numbers are not at the end of the number space, the three
    packets of the handshake bring the client's block and the server's new
    block to ESTABLISHED with matching sequence numbers, tcp_connect returns
    the client's descriptor, and tcp_accept returns the new block and the
    client's endpoint. *)
Theorem handshake_establishes (A B : tcp wire) i j k b bcast :
  client A i b -> server B j k (client_end A) b ->
  0 <= ticks A < 2 ^ 32 -> 0 <= ticks B < 2 ^ 32 -> microps_random (ticks A) + 65536 < 2 ^ 32 -> microps_random (ticks B) + 1 < 2 ^ 32 ->
  endpoint_ok (client_end A) -> endpoint_ok b -> addr (client_end A) <> IP_ADDR_BROADCAST -> addr (client_end A) <> bcast -> addr b <> IP_ADDR_BROADCAST -> addr b <> bcast ->
  exists w A1 m1 B1 m2 A2 m3 B2 B3,
    tcp_connect false (tcp_pcb_id i) b A = Done (Wait w) A1 /\ sent (low A1) = sent (low A) ++ [m1] /\
    deliver bcast [m1] B = Some B1 /\ sent (low B1) = sent (low B) ++ [m2] /\
    deliver bcast [m2] A1 = Some A2 /\ sent (low A2) = sent (low A1) ++ [m3] /\
    deliver bcast [m3] B1 = Some B2 /\
    open_resume false w A2 = Done (Return (tcp_pcb_id i)) A2 /\
    tcp_accept false (tcp_pcb_id j) B2 = Done (Return (tcp_pcb_id k, Some (client_end A))) B3 /\
    state (pcbof A2 i) = ESTABLISHED /\ state (pcbof B2 k) = ESTABLISHED /\
    rcv_nxt (prcv (pcbof B2 k)) = snd_nxt (psnd (pcbof A2 i)) /\ rcv_nxt (prcv (pcbof A2 i)) = snd_nxt (psnd (pcbof B2 k)).
Proof.
  intros [TA Hi HstA HmA HlA HrA HpA] [TB SB StB MB FB QB [pk Hk]] HtA HtB HiA HiB Ea Eb A1 A2 B1 B2.
  set (a := client_end A) in *. pose proof (random_range _ HtA) as RA. pose proof (random_range _ HtB) as RB.
  assert (HB : server B j k a b) by (constructor; eauto).
  destruct (connect_waits A i b) as (S1 & p1 & EC & L1 & Sent1 & X1 & F1 & F2 & F3 & F4 & F5 & F6 & F7 & F8 & F9 & F10); [done|]. fold a in X1, F1, F9.
  destruct (server_answers B j k a b {| seg_seq := microps_random (ticks A); seg_ack := rcv_nxt (prcv p1); seg_len := seq_space TCP_FLG_SYN [];
    seg_wnd := rcv_wnd (prcv p1); seg_up := 0 |} HB) as (T1 & pk' & ES & LB & SentB & XB & Hjk & Hj & HjB & G1 & G2 & G3 & G4 & G5 & G6 & G7 & G8 & G9 & G10); [done|].
  cbn [seg_seq] in G3. generalize dependent (microps_random (ticks A)). intros issA. generalize dependent (microps_random (ticks B)). intros issB. intros.
  rewrite u32_small in F7, G3, G7 by lia.
  assert (D1 : deliver bcast [bare_packet p1 TCP_FLG_SYN issA] B = Some T1).
  { apply deliver_bare; [by rewrite F1, F2|..]; rewrite ?F1, ?F2, ?F3; done. }
  destruct (syn_sent_establishes S1 i {| seg_seq := issB; seg_ack := rcv_nxt (prcv pk'); seg_len := seq_space (Z.lor TCP_FLG_SYN TCP_FLG_ACK) [];
    seg_wnd := rcv_wnd (prcv pk'); seg_up := 0 |} a b X1 F4) as (S2 & E2 & L2 & Sent2 & St2 & R2 & N2); [cbn; lia|cbn; lia|cbn; lia|].
  cbn [seg_seq seg_ack] in Sent2, R2. rewrite u32_small in Sent2, R2 by lia.
  assert (D2 : deliver bcast [bare_packet pk' (Z.lor TCP_FLG_SYN TCP_FLG_ACK) issB] S1 = Some S2).
  { apply deliver_bare; [by rewrite G1, G2|..]; rewrite ?G1, ?G2, ?G3, ?G4; (done || lia). }
  set (p3 := set_prcv _ _) in Sent2.
  destruct (ack_accepts T1 k j {| seg_seq := issA + 1; seg_ack := issB + 1; seg_len := seq_space TCP_FLG_ACK []; seg_wnd := rcv_wnd (prcv p3); seg_up := 0 |} a b
    XB G5 G9 Hjk) as (T2 & q' & E3 & L3 & J3 & Q3 & St3 & R3 & N3 & F3'); 
    [by rewrite LB|by rewrite G8, G3|done|by rewrite G8, G4|rewrite G8, G3; lia|rewrite G8, G3, G4; unfold BUFSIZE; lia|rewrite G6; cbn; lia|rewrite G7; cbn; lia|].
  assert (D3 : deliver bcast [bare_packet p3 TCP_FLG_ACK (issA + 1)] T1 = Some T2).
  { assert (Hp3 : local p3 = a /\ foreign p3 = b /\ rcv_nxt (prcv p3) = issB + 1 /\ rcv_wnd (prcv p3) = BUFSIZE) by (unfold p3; cbn; by rewrite F8, F9, F10, F3).
    destruct Hp3 as (P3a & P3b & P3c & P3d). apply deliver_bare; [by rewrite P3a, P3b, P3c|..]; rewrite ?P3a, ?P3b, ?P3c, ?P3d; (done || lia). }
  exists {| ow_pcb := i; ow_state := SYN_SENT; ow_start := ticks A |}, S1, (bare_packet p1 TCP_FLG_SYN issA), T1, (bare_packet pk' (Z.lor TCP_FLG_SYN TCP_FLG_ACK) issB), S2, (bare_packet p3 TCP_FLG_ACK (issA + 1)), T2.
  eexists. do 5 (split; [done|]). split; [by rewrite <- F7|]. split; [done|]. split.
  - unfold open_resume, wait_tick_leave. cbn [ow_pcb ow_state]. krun. cbn [negb]. krun. by rewrite St2.
  - split; [|by rewrite St2, St3, R2, N2, R3, N3, G8, G3, F7, G7].
    unfold tcp_accept. krun. unfold tcp_pcb_get, tcp_pcb_id. rewrite Nat2Z.id, J3, HjB. cbn [set_backlog state]. rewrite StB, bool_decide_eq_false_2 by done.
    destruct (Z.ltb_spec (Z.of_nat j) 0), (Z.leb_spec (Z.of_nat TCP_PCB_SIZE) (Z.of_nat j)); try lia. cbn [orb].
    rewrite J3, HjB. cbn [set_backlog state mode]. rewrite MB, StB.
    change (negb (TCP_PCB_MODE_SOCKET =? TCP_PCB_MODE_SOCKET)) with false. cbv match. rewrite bool_decide_eq_true_2 by done. cbn [negb]. unfold accept_loop. krun.
    rewrite J3, HjB. cbn [set_backlog backlog]. unfold queue_pop. rewrite Q3, HjB, QB. cbn [app]. krun. rewrite pcbof_upd_ne, F3', G10 by done. reflexivity.
Qed.
