(* ===== verification/TcpFlaws.v ===== *)
(** * Transmission control: more behaviours that the code does not intend

    The sender beyond a closed window, a connection handed to a listener it
    was not made for, and a descriptor that a reset gives to someone else. *)

From Stdlib Require Import ZArith Lia.
From S2P Require Import Prelude Bytes NetUtil Pipe Tcp TcpSafe TcpStream TcpWire TcpHandshake.

(** A closed window stops nothing: with a peer window of 0 and nothing in
    flight, tcp_send means to probe with one segment of MSS bytes, but after
    the probe the room left, 0 - MSS, wraps around in unsigned arithmetic and
    all of the text is sent at once. *)
Theorem closed_window_is_flooded (A : tcp wire) i a b nA data :
  connected i a b nA A -> 0 <= nA < 2 ^ 32 -> snd_wnd (psnd (pcbof A i)) = 0 -> snd_una (psnd (pcbof A i)) = nA ->
  40 < dev_mtu (w_iface (low A)) <= 65535 -> dev_mtu (w_iface (low A)) - 40 < Z.of_nat (length data) < 2 ^ 31 ->
  exists A', tcp_send false (tcp_pcb_id i) data A = Done (Return (Z.of_nat (length data))) A' /\
    snd_nxt (psnd (pcbof A' i)) = nA +u Z.of_nat (length data) /\ snd_wnd (psnd (pcbof A' i)) = 0.
Proof.
  intros [TA SA StA NA RA WA BA] HnA Hw Hu Hmtu Hlen. assert (Hi : (i < length (pcbs A))%nat) by by apply (select_lt A a (Some b)).
  set (mss := Z.to_nat (dev_mtu (w_iface (low A)) - 40)). assert (Hmss : dev_mtu (w_iface (low A)) -u (IP_HDR_SIZE_MIN + TCP_HDR_SIZE) = Z.of_nat mss).
  { unfold mss, IP_HDR_SIZE_MIN, TCP_HDR_SIZE. rewrite u32_small; lia. }
  unfold tcp_send, kbind, kget, tcp_pcb_get, tcp_pcb_id. rewrite Nat2Z.id, StA, bool_decide_eq_false_2 by done.
  destruct (Z.ltb_spec (Z.of_nat i) 0), (Z.leb_spec (Z.of_nat TCP_PCB_SIZE) (Z.of_nat i)); try lia. cbn [orb].
  unfold send_retry, kbind, kget. rewrite StA. cbn [ip_route_get_iface wire_ops]. rewrite Hmss.
  destruct (length data) as [|f] eqn:El; [lia|]. cbn [send_loop]. rewrite El.
  assert (Hs32 : s32 (Z.of_nat (S f)) = Z.of_nat (S f)) by (unfold s32; rewrite u32_small by lia; destruct (Z.ltb_spec (Z.of_nat (S f)) (2 ^ 31)); lia).
  rewrite Hs32. destruct (Z.ltb_spec 0 (Z.of_nat (S f))); [|lia]. cbn [negb]. rewrite rd_at, Hw, NA, Hu, Z.sub_diag. change (0 -u u32 0) with 0. rewrite !Z.eqb_refl. cbn [andb].
  destruct (Z.eqb_spec (Z.of_nat mss) 0); [lia|]. rewrite Z.sub_0_r, u32_small by lia.
  replace (Z.min (Z.min (Z.of_nat mss) (Z.of_nat (S f))) (Z.of_nat mss)) with (Z.of_nat mss) by lia. set (d := slice _ _ data).
  assert (Hd : length d = mss) by (unfold d; rewrite Nat2Z.id, slice_len; lia).
  destruct (output_text i d A Hi) as (s1 & E1 & L1 & T1 & V1 & N1 & S1 & W1); [lia|by intros E; rewrite E in Hd; simpl in Hd; lia|].
  change (Z.lor TCP_FLG_ACK TCP_FLG_PSH) with PUSH. rewrite (bind_at _ _ _ _ _ E1). destruct (Z.eqb_spec (Z.of_nat (length d)) (-1)); [lia|]. rewrite wr_upd.
  set (s2 := upd i _ s1). pose proof V1 as V1'. unfold oview in V1'. injection V1' as _ _ _ _ Eu Ew.
  assert (P2 : psnd (pcbof s2 i) = set_snd_nxt (nA +u Z.of_nat mss) (psnd (pcbof s1 i))) by (unfold s2; rewrite pcbof_upd by lia; cbn; by rewrite N1, NA).
  rewrite Z.add_0_l. destruct (send_loop_sends i mss (ticks A) data ltac:(lia) ltac:(lia) ltac:(lia) f s2 mss) as (A' & ES & _ & VA & NA' & _); try lia.
  { unfold s2. rewrite upd_length. lia. }
  { rewrite P2. unfold send_cap, u32. cbn [set_snd_nxt snd_wnd snd_nxt snd_una]. rewrite Eu, Ew, Hw, Hu. dlia. }
  exists A'. rewrite ES, El. split; [done|]. rewrite NA'. rewrite decide_False by lia. rewrite P2. cbn [set_snd_nxt snd_nxt]. split.
  - rewrite El. unfold u32. rewrite Zplus_mod_idemp_l. f_equal. lia.
  - unfold oview in VA. injection VA as _ _ _ _ _ Ew'. rewrite Ew', P2. cbn [set_snd_nxt snd_wnd]. congruence.
Qed.

(** ** A listener closed before its connection is complete

    The new block keeps a pointer to its listener.  When the listener is closed
    and its block taken for another socket, the connection is queued there. *)

Module StaleParent.

Definition server_ip : Z := 0x0200000a. (* 10.0.0.2 *)
Definition at_port (n : Z) : ip_endpoint := {| addr := server_ip; port := hton16 n |}.
Definition peer : ip_endpoint := {| addr := 0x0100000a; port := hton16 4000 |}.
Definition boot : tcp wire :=
  {| pcbs := repeat pcb0 TCP_PCB_SIZE; ticks := 100; errno := 0; wakes := []; low := {| sent := []; w_iface := {| unicast := server_ip; dev_mtu := 1500 |} |} |}.
Definition listen_on (n : Z) : K (tcp wire) Z :=
  id <- tcp_open ;;
  tcp_bind id (at_port n) ;;
  tcp_listen id ;;
  kret id.
Definition seg (seq ack len : Z) : tcp_segment_info := {| seg_seq := seq; seg_ack := ack; seg_len := len; seg_wnd := 1000; seg_up := 0 |}.
(** A SYN for port 80 arrives; the listener of port 80 is closed and one of
    port 22 opened; the ACK of the handshake arrives; port 22 accepts. *)
Definition scenario : K (tcp wire) (segment (Z * option ip_endpoint) nat) :=
  id <- listen_on 80 ;;
  tcp_segment_arrives (seg 500 0 1) TCP_FLG_SYN [] (at_port 80) peer ;;
  tcp_close id ;;
  id' <- listen_on 22 ;;
  t <- kgets ticks ;;
  tcp_segment_arrives (seg 501 (microps_random t + 1) 0) TCP_FLG_ACK [] (at_port 80) peer ;;
  tcp_accept false id'.
End StaleParent.

(** The listener of port 22 accepts a connection whose local port is 80. *)
Theorem connection_reaches_other_listener :
  match StaleParent.scenario StaleParent.boot with
  | Done (Return (id, Some fo)) s => id = 1 /\ fo = StaleParent.peer /\ local (pcbof s 0) = StaleParent.at_port 22 /\ local (pcbof s 1) = StaleParent.at_port 80
  | _ => False
  end.
Proof. vm_compute. done. Qed.

(** ** A descriptor whose connection is reset

    The block goes back to the table at once, while the process that opened it
    still has its number. *)

Definition holds_nothing (p : tcp_pcb) : Prop := entries (backlog p) = [].
Lemma release_at {I} `{IpOps I} i (s : tcp I) : (i < length (pcbs s))%nat -> holds_nothing (pcbof s i) -> tcp_pcb_release i s = Done tt (upd i (fun _ => pcb0) s).
Proof.
  intros Hi Hb. unfold tcp_pcb_release. rewrite get_at. replace (2 * backlogs s + 2)%nat with (S (S (2 * backlogs s))) by lia. cbn [release_pcb release_backlog].
  rewrite wr_upd, bind_assoc, rd_at, pcbof_upd by done. cbn [set_rqueue backlog]. unfold queue_pop. rewrite Hb. rewrite ret_at. unfold wr, kmodify. f_equal.
  change (upd i (fun _ => pcb0) (upd i (set_rqueue queue_init) s) = upd i (fun _ => pcb0) s). by rewrite upd_upd.
Qed.

