(* ===== verification/TcpWitness.v ===== *)
(** * Transmission control: the theorems on concrete hosts *)

From Stdlib Require Import ZArith Lia.
From S2P Require Import Prelude Bytes NetUtil Pipe Tcp TcpSafe TcpStream TcpWire TcpHandshake TcpFlaws.

Module TcpHosts.
Definition ea : ip_endpoint := {| addr := 0x0100000a; port := TCP_SOURCE_PORT_MIN |}. (* 10.0.0.1 *)
Definition eb : ip_endpoint := {| addr := 0x0200000a; port := hton16 80 |}.           (* 10.0.0.2 *)
(** An established block: its window to send into, what it expects and has room for. *)
Definition est (lo fo : ip_endpoint) (nxt swnd rnxt rwnd : Z) : tcp_pcb :=
  set_state ESTABLISHED (set_mode TCP_PCB_MODE_SOCKET (set_local lo (set_foreign fo
    (set_psnd {| snd_nxt := nxt; snd_una := nxt; snd_wnd := swnd; snd_up := 0; snd_wl1 := 0; snd_wl2 := 0 |}
      (set_prcv {| rcv_nxt := rnxt; rcv_wnd := rwnd; rcv_up := 0 |} pcb0))))).
Definition host (p : tcp_pcb) (ip mtu : Z) : tcp wire :=
  {| pcbs := p :: repeat pcb0 15; ticks := 100; errno := 0; wakes := []; low := {| sent := []; w_iface := {| unicast := ip; dev_mtu := mtu |} |} |}.
Definition hostA (swnd : Z) (mtu : Z) : tcp wire := host (est ea eb 1000 swnd 2000 65535) (addr ea) mtu.
Definition hostB (rwnd : Z) : tcp wire := host (est eb ea 2000 65535 1000 rwnd) (addr eb) 1500.
Definition text (seq : Z) (d : list Z) : tcp_segment_info :=
  {| seg_seq := seq; seg_ack := 2000; seg_len := Z.of_nat (length d); seg_wnd := 65535; seg_up := 0 |}.

Lemma connA swnd mtu : connected 0 ea eb 1000 (hostA swnd mtu).
Proof. constructor; try reflexivity; by vm_compute. Qed.
Lemma connB rwnd : 0 <= rwnd <= BUFSIZE -> connected 0 eb ea 2000 (hostB rwnd).
Proof. intros Hr. constructor; try reflexivity; by vm_compute || done. Qed.

(** A client with an unconnected socket, a server listening on port 80. *)
Definition clientA : tcp wire := host (set_state CLOSED (set_mode TCP_PCB_MODE_SOCKET pcb0)) (addr ea) 1500.
Definition serverB : tcp wire := host (set_state LISTEN (set_mode TCP_PCB_MODE_SOCKET (set_local eb pcb0))) (addr eb) 1500.
End TcpHosts.
Import TcpHosts.

Lemma segments_follow_the_diagram_witness :
  match tcp_segment_arrives (text 1000 [104; 105]) PUSH [104; 105] eb ea (hostB 65535) with
  | Done _ s' => forall j, edge (state (pcbof (hostB 65535) j)) (state (pcbof s' j))
  | Panicked _ _ => exists i, tcp_pcb_select (hostB 65535) eb (Some ea) = Some i /\ rcv_wnd (prcv (pcbof (hostB 65535) i)) < Z.of_nat (length [104; 105])
  | Slept _ _ => False
  end.
Proof. exact (segments_follow_the_diagram (I := wire) (text 1000 [104; 105]) PUSH [104; 105] eb ea (hostB 65535)). Defined.

Lemma stream_in_order_witness :
  exists s', script (conn_step 0 eb ea) [Arrive (text 1000 [104; 105]) PUSH [104; 105]; Read 1; Arrive (text 1002 [33]) PUSH [33]; Read 5] (hostB 65535) =
    Some ([[]; [104]; []; [105; 33]], s') /\ connected 0 eb ea 2000 s' /\ fifo_of (pcbof s' 0) = {| fq := []; fnxt := 1003 |} /\
    rcv_wnd (prcv (pcbof s' 0)) = BUFSIZE - Z.of_nat (length (fq {| fq := []; fnxt := 1003 |})).
Proof. apply (stream_in_order (I := wire)); [apply connB; by vm_compute|by vm_compute]. Defined.

Lemma overlong_segment_overruns_witness :
  exists s', tcp_segment_arrives (text 1000 [1; 2]) PUSH [1; 2] eb ea (hostB 1) = Panicked "tcp_segment_arrives: pcb->buf overrun" s'.
Proof. apply (overlong_segment_overruns (I := wire) 0 eb ea 2000); done. Defined.

Lemma gap_is_skipped_witness :
  exists s', tcp_segment_arrives (text 1010 [7]) PUSH [7] eb ea (hostB 65535) = Done tt s' /\
    pending (pcbof s' 0) = pending (pcbof (hostB 65535) 0) ++ [7] /\
    rcv_nxt (prcv (pcbof s' 0)) = rcv_nxt (prcv (pcbof (hostB 65535) 0)) + 10 + Z.of_nat (length [7]).
Proof. apply (gap_is_skipped (I := wire) 0 eb ea 2000); [apply connB; by vm_compute|by vm_compute..]. Defined.

Lemma tcp_wire_roundtrip_witness :
  tcp_input (tcp_message 7 8 PUSH 100 [1; 2; 3] ea eb) (TCP_HDR_SIZE + Z.of_nat (length [1; 2; 3])) (addr ea) (addr eb) 0xff00000a (hostB 65535) =
  tcp_segment_arrives {| seg_seq := 7; seg_ack := 8; seg_len := seq_space PUSH [1; 2; 3]; seg_wnd := 100; seg_up := 0 |} PUSH [1; 2; 3] eb ea (hostB 65535).
Proof. apply (tcp_wire_roundtrip (I := wire)); try (by vm_compute). repeat (constructor; [by vm_compute|]). constructor. Defined.

Lemma send_reaches_receiver_witness : exists A' ms B' B'' r,
  tcp_send false (tcp_pcb_id 0) [104; 105; 33] (hostA 100 42) = Done (Return (Z.of_nat (length [104; 105; 33]))) A' /\ sent (low A') = sent (low (hostA 100 42)) ++ ms /\
  deliver 0xff00000a ms (hostB 65535) = Some B' /\
  tcp_receive false (tcp_pcb_id 0) (Z.of_nat (length (pending (pcbof (hostB 65535) 0) ++ [104; 105; 33]))) B' = Done (Return (r, pending (pcbof (hostB 65535) 0) ++ [104; 105; 33])) B''.
Proof.
  apply (send_reaches_receiver (hostA 100 42) (hostB 65535) 0 0 ea eb 1000 2000); [apply connA|reflexivity|reflexivity|apply connB; by vm_compute|by vm_compute..| |by vm_compute|by vm_compute|by vm_compute|by vm_compute|by vm_compute].
  repeat (constructor; [by vm_compute|]). constructor.
Defined.

Lemma handshake_establishes_witness : exists w A1 m1 B1 m2 A2 m3 B2 B3,
  tcp_connect false (tcp_pcb_id 0) eb clientA = Done (Wait w) A1 /\ sent (low A1) = sent (low clientA) ++ [m1] /\
  deliver 0xff00000a [m1] serverB = Some B1 /\ sent (low B1) = sent (low serverB) ++ [m2] /\
  deliver 0xff00000a [m2] A1 = Some A2 /\ sent (low A2) = sent (low A1) ++ [m3] /\
  deliver 0xff00000a [m3] B1 = Some B2 /\
  open_resume false w A2 = Done (Return (tcp_pcb_id 0)) A2 /\
  tcp_accept false (tcp_pcb_id 0) B2 = Done (Return (tcp_pcb_id 1, Some (client_end clientA))) B3 /\
  state (pcbof A2 0) = ESTABLISHED /\ state (pcbof B2 1) = ESTABLISHED /\
  rcv_nxt (prcv (pcbof B2 1)) = snd_nxt (psnd (pcbof A2 0)) /\ rcv_nxt (prcv (pcbof A2 0)) = snd_nxt (psnd (pcbof B2 1)).
Proof.
  apply (handshake_establishes clientA serverB 0 0 1 eb 0xff00000a); [| |by vm_compute..].
  - constructor; first [by vm_compute|unfold TCP_PCB_SIZE; lia].
  - constructor; [by vm_compute..|by eexists].
Defined.

Lemma closed_window_is_flooded_witness : exists A', tcp_send false (tcp_pcb_id 0) [1; 2; 3] (hostA 0 41) = Done (Return (Z.of_nat (length [1; 2; 3]))) A' /\
  snd_nxt (psnd (pcbof A' 0)) = 1000 +u Z.of_nat (length [1; 2; 3]) /\ snd_wnd (psnd (pcbof A' 0)) = 0.
Proof. apply (closed_window_is_flooded (hostA 0 41) 0 ea eb 1000); [apply connA|by vm_compute..]. Defined.

