(* ===== verification/Fmt.v ===== *)
(** * kernel/microps/microps_fmt.c: formatted output and numbers in text

    Strings are the lists of their characters, without the final NUL.
    [vsnprintf] gives the characters stored before the NUL; [None] is a
    [va_arg] for which there is no argument of the right kind.  Shown here:
    the output, with its NUL, never exceeds [size] ([vsnprintf_fits]), and
    [strtol] reads back what [%d] prints. *)

From Stdlib Require Import ZArith Lia.
From S2P Require Import Prelude.

Inductive varg := AInt (v : Z) | AStr (s : option (list Z)).

Section Fmt.
Context (size : Z).
Implicit Types (s f : list Z).

(** [s < end - 1], and the output with one more character. *)
Definition room s : bool := Z.of_nat (length s) <? size - 1.
Definition put s (c : Z) : list Z := if room s then s ++ [c] else s.

Definition dig (d : Z) : Z := if d <? 10 then 48 + d else 87 + d.
(** The loop of [fmt_pad_x] from [i - 1] down. *)
Fixpoint pad_x (i : nat) (val : Z) (upper : bool) s : list Z :=
  match i with
  | O => s
  | S i' =>
      let c := dig (Z.land (Z.shiftr val (4 * Z.of_nat i')) 0xf) in
      let c := if upper && (97 <=? c) then c - 32 else c in
      if room s then pad_x i' val upper (s ++ [c]) else s
  end.
Definition fmt_pad_x s (val width : Z) (upper : bool) : list Z :=
  let width := if width <=? 0 then 1 else width in
  let width := if 8 <? width then 8 else width in
  pad_x (Z.to_nat width) val upper s.

(** [tmp], the last digit first; [n] is the room left in it. *)
Fixpoint digits10 (n : nat) (val : Z) : list Z :=
  match n with
  | O => []
  | S n' => 48 + val mod 10 :: (if val / 10 =? 0 then [] else digits10 n' (val / 10))
  end.
(** Characters are stored until the room ends. *)
Fixpoint emit s (l : list Z) : list Z :=
  match l with [] => s | c :: l' => if room s then emit (s ++ [c]) l' else s end.
Definition fmt_uint10 s (val : Z) : list Z := emit s (rev (digits10 16 val)).
Definition fmt_int10 s (val : Z) : list Z :=
  if val <? 0 then fmt_uint10 (put s 45) (u32 (- val)) else fmt_uint10 s val.
(** [long] has 32 bits. *)
Definition fmt_long10 s (val : Z) : list Z := fmt_int10 s val.

Fixpoint width_of f (w : Z) : Z * list Z :=
  match f with
  | c :: f' => if (48 <=? c) && (c <=? 57) then width_of f' (s32 (w * 10 + (c - 48))) else (w, f)
  | [] => (w, [])
  end.
(** The width of [%x] without one: up to the highest digit that is not 0. *)
Fixpoint hex_width (nz : nat) (xv : Z) : Z :=
  match nz with
  | O => 1
  | S n' => if negb (Z.land (Z.shiftr xv (4 * Z.of_nat nz)) 0xf =? 0) then Z.of_nat nz + 1 else hex_width n' xv
  end.
Definition chars_null : list Z := [40; 110; 117; 108; 108; 41]. (* "(null)" *)

Definition arg_int (ap : list varg) : option (Z * list varg) :=
  match ap with AInt v :: ap' => Some (v, ap') | _ => None end.
(** One conversion: the output and the arguments left. *)
Definition conv (c width : Z) (longmod sizemod : bool) s (ap : list varg) : option (list Z * list varg) :=
  if c =? 115 (* s *) then
    match ap with AStr str :: ap' => Some (emit s (default chars_null str), ap') | _ => None end
  else if (c =? 100) || (c =? 105) (* d i *) then
    '(v, ap') ← arg_int ap; Some (if longmod then fmt_long10 s (s32 v) else fmt_int10 s (s32 v), ap')
  else if c =? 117 (* u *) then
    '(v, ap') ← arg_int ap; Some (fmt_uint10 s (u32 v), ap')
  else if (c =? 120) || (c =? 88) (* x X *) then
    '(v, ap') ← arg_int ap;
    Some (fmt_pad_x s (u32 v) (if width =? 0 then hex_width 7 (u32 v) else width) (c =? 88), ap')
  else if c =? 99 (* c *) then
    '(v, ap') ← arg_int ap; Some (put s (u8 v), ap')
  else if c =? 112 (* p *) then
    '(v, ap') ← arg_int ap;
    let s := if Z.of_nat (length s) <? size - 2 then s ++ [48; 120] else s in
    Some (fmt_pad_x s (u32 v) 8 false, ap')
  else if c =? 37 then Some (put s 37, ap)
  else Some (put s c, ap).

(** [for(f = fmt; *f && s < end - 1; f++)]; every turn takes a character of [f]. *)
Fixpoint fmt_loop (fuel : nat) f s (ap : list varg) : option (list Z) :=
  match fuel, f with
  | _, [] | O, _ => Some s
  | S fuel, c :: f' =>
      if negb (room s) then Some s
      else if negb (c =? 37) then fmt_loop fuel f' (s ++ [c]) ap
      else
        let '(width, f1) := width_of f' 0 in
        let '(longmod, sizemod, f2) :=
          match f1 with
          | c :: f'' => if c =? 108 then (true, false, f'') else if c =? 122 then (false, true, f'') else (false, false, f1)
          | [] => (false, false, f1)
          end in
        match f2 with
        | [] => Some s
        | c :: f3 => '(s', ap') ← conv c width longmod sizemod s ap; fmt_loop fuel f3 s' ap'
        end
  end.
End Fmt.

(** Nothing is stored in a buffer of size 0. *)
Definition vsnprintf (size : Z) (fmt : list Z) (ap : list varg) : option (list Z) :=
  if size =? 0 then Some [] else fmt_loop size (length fmt) fmt [] ap.

(** ** Numbers in text *)

Definition digit_of (c : Z) : Z :=
  if (48 <=? c) && (c <=? 57) then c - 48
  else if (97 <=? c) && (c <=? 122) then c - 97 + 10
  else if (65 <=? c) && (c <=? 90) then c - 65 + 10
  else -1.
(** The digits from [p] on: the value (32 bits) and the text left. *)
Fixpoint strtol_digits (base : Z) (p : list Z) (v : Z) : Z * list Z :=
  match p with
  | c :: p' =>
      let d := digit_of c in
      if (d <? 0) || (base <=? d) then (v, p) else strtol_digits base p' (s32 (v * base + d))
  | [] => (v, [])
  end.
Fixpoint skip_blanks (p : list Z) : list Z :=
  match p with c :: p' => if (c =? 32) || (c =? 9) then skip_blanks p' else p | [] => [] end.
(** With base 0 the prefix chooses the base. *)
Definition strtol_base (p : list Z) (base : Z) : Z * list Z :=
  if base =? 0 then
    match p with
    | c :: p' =>
        if c =? 48 then
          match p' with
          | x :: p'' => if (x =? 120) || (x =? 88) then (16, p'') else (8, p')
          | [] => (8, [])
          end
        else (10, p)
    | [] => (10, [])
    end
  else (base, p).
Definition strtol (nptr : list Z) (base : Z) : Z * list Z :=
  let p := skip_blanks nptr in
  let '(neg, p) := match p with c :: p' => if c =? 45 then (true, p') else if c =? 43 then (false, p') else (false, p) | [] => (false, []) end in
  let '(base, p) := strtol_base p base in
  let '(v, p) := strtol_digits base p 0 in
  (if neg then s32 (- v) else v, p).

(** The text from the last [c] on. *)
Fixpoint strrchr_loop (s : list Z) (c : Z) (last : option (list Z)) : option (list Z) :=
  match s with
  | x :: s' => strrchr_loop s' c (if x =? c then Some s else last)
  | [] => last
  end.
Definition strrchr (s : list Z) (c : Z) : option (list Z) := if c =? 0 then Some [] else strrchr_loop s c None.

(** ** Lemmas *)

Section FmtFacts.
Context (size : Z).
Implicit Types (s f : list Z).
Abbreviation room := (room size).
Abbreviation emit := (emit size).
Definition fits s : Prop := Z.of_nat (length s) <= size - 1.

Lemma room_spec s : room s = true <-> Z.of_nat (length s) < size - 1.
Proof. apply Z.ltb_lt. Qed.
Lemma room_app s c : room s = true -> fits (s ++ [c]).
Proof. rewrite room_spec. unfold fits. rewrite length_app. simpl. lia. Qed.
Lemma put_fits s c : fits s -> fits (put size s c).
Proof. intros Hs. unfold put. destruct (room s) eqn:E; [by apply room_app|done]. Qed.
Lemma emit_fits l s : fits s -> fits (emit s l).
Proof. revert s. induction l as [|c l IH]; intros s Hs; cbn; [done|]. destruct (room s) eqn:E; [|done]. by apply IH, room_app. Qed.
Lemma pad_x_fits i val up s : fits s -> fits (pad_x size i val up s).
Proof. revert s. induction i as [|i IH]; intros s Hs; cbn; [done|]. destruct (room s) eqn:E; [|done]. by apply IH, room_app. Qed.
Lemma fmt_int10_fits s v : fits s -> fits (fmt_int10 size s v).
Proof. intros Hs. unfold fmt_int10, fmt_uint10. destruct (v <? 0); apply emit_fits; auto using put_fits. Qed.

Lemma conv_fits c w lm sm s ap s' ap' : fits s -> conv size c w lm sm s ap = Some (s', ap') -> fits s'.
Proof.
  intros Hs. unfold conv, fmt_long10.
  destruct (c =? 115); [destruct ap as [|[|str] ap0]; intros [= <- <-]; by apply emit_fits|].
  assert (Hi : forall g : Z -> list Z, (forall v, fits (g v)) -> ('(v, ap') ← arg_int ap; Some (g v, ap')) = Some (s', ap') -> fits s').
  { intros g Hg. destruct ap as [|[v|] ap0]; cbn; [done| |done]. by intros [= <- <-]. }
  assert (Hp : forall v, fits (fmt_pad_x size (if Z.of_nat (length s) <? size - 2 then s ++ [48; 120] else s) v 8 false)).
  { intros v. apply pad_x_fits. destruct (Z.ltb_spec (Z.of_nat (length s)) (size - 2)) as [Hr|]; [|done].
    unfold fits. rewrite length_app. simpl. lia. }
  destruct ((c =? 100) || (c =? 105)); [apply Hi; intros v; destruct lm; by apply fmt_int10_fits|].
  destruct (c =? 117); [apply Hi; intros v; by apply emit_fits|].
  destruct ((c =? 120) || (c =? 88)); [apply (Hi (fun v => fmt_pad_x size s (u32 v) _ _)); intros v; by apply pad_x_fits|].
  destruct (c =? 99); [apply Hi; intros v; by apply put_fits|].
  destruct (c =? 112); [apply (Hi (fun v => fmt_pad_x size _ (u32 v) 8 false)); intros v; apply Hp|].
  destruct (c =? 37); intros [= <- <-]; by apply put_fits.
Qed.

Lemma fmt_loop_fits n f s ap s' : fits s -> fmt_loop size n f s ap = Some s' -> fits s'.
Proof.
  revert f s ap. induction n as [|n IH]; intros [|c f] s ap Hs; cbn [fmt_loop]; try (by intros [= <-]).
  destruct (room s) eqn:Er; cbn [negb]; [|by intros [= <-]].
  destruct (Z.eqb_spec c 37); cbn [negb]; [|by apply IH, room_app].
  destruct (width_of f 0) as [w f1].
  destruct (match f1 with [] => _ | _ => _ end) as [[lm sm] f2]. destruct f2 as [|d f3]; [by intros [= <-]|].
  destruct (conv size d w lm sm s ap) as [[s1 ap1]|] eqn:Ec; cbn; [|done].
  apply IH. by eapply conv_fits.
Qed.

Lemma emit_all l s : Z.of_nat (length s + length l) <= size - 1 -> emit s l = s ++ l.
Proof.
  revert s. induction l as [|c l IH]; intros s Hl; [by rewrite app_nil_r|]. cbn [Fmt.emit length] in *.
  rewrite (proj2 (room_spec s)) by lia. rewrite IH by (rewrite length_app; simpl; lia). by rewrite <- app_assoc.
Qed.
End FmtFacts.

(** The output and its NUL stay within the [size] bytes of the buffer. *)
Theorem vsnprintf_fits size fmt ap s : 0 < size -> vsnprintf size fmt ap = Some s -> Z.of_nat (length s) + 1 <= size.
Proof.
  intros Hs E. unfold vsnprintf in E. destruct (Z.eqb_spec size 0); [lia|].
  apply fmt_loop_fits in E; unfold fits in *; simpl; lia.
Qed.

(** Decimal notation, as [%d] and [%u] print it. *)
Definition dec (v : Z) : list Z := rev (digits10 16 v).
Lemma digits10_length n v k : 0 <= v < 10 ^ Z.of_nat k -> (0 < k)%nat -> (length (digits10 n v) <= k)%nat.
Proof.
  revert v k. induction n as [|n IH]; intros v [|k] Hv Hk; cbn; try lia.
  destruct (Z.eqb_spec (v / 10) 0) as [|Hq]; cbn; [lia|].
  destruct k as [|k]; [change (10 ^ Z.of_nat 1) with 10 in Hv; dlia|].
  apply le_n_S, IH; [|lia]. rewrite (Nat2Z.inj_succ (S k)), Z.pow_succ_r in Hv by lia. dlia.
Qed.
Lemma dec_length v k : 0 <= v < 10 ^ Z.of_nat k -> (0 < k)%nat -> (length (dec v) <= k)%nat.
Proof. unfold dec. rewrite length_rev. apply digits10_length. Qed.
Lemma digits10_read n v rest : 0 <= v < 2 ^ 31 -> v < 10 ^ Z.of_nat n -> (0 < n)%nat ->
  strtol_digits 10 (rev (digits10 n v) ++ rest) 0 = strtol_digits 10 rest v.
Proof.
  revert v rest. induction n as [|n IH]; intros v rest Hv Hn Hp; [lia|]. cbn [digits10 rev]. rewrite <- app_assoc. cbn [app].
  assert (Hd : strtol_digits 10 (48 + v mod 10 :: rest) (v / 10) = strtol_digits 10 rest v).
  { cbn [strtol_digits]. assert (digit_of (48 + v mod 10) = v mod 10) as -> by (unfold digit_of; zcases; dlia).
    rewrite (s32_small (v / 10 * 10 + v mod 10)) by dlia. zcases; try dlia. cbn. f_equal. dlia. }
  destruct (Z.eqb_spec (v / 10) 0) as [Hq|Hq]; [rewrite Hq in Hd; exact Hd|].
  destruct n as [|n]; [change (10 ^ Z.of_nat 1) with 10 in Hn; dlia|].
  rewrite IH; [exact Hd|dlia| |lia]. rewrite (Nat2Z.inj_succ (S n)), Z.pow_succ_r in Hn by lia. dlia.
Qed.
Lemma dec_head v : 0 <= v -> exists c l, dec v = c :: l /\ 48 <= c <= 57.
Proof.
  intros Hv. unfold dec. assert (Hf : Forall (fun c => 48 <= c <= 57) (digits10 16 v)).
  { generalize 16%nat. intros n. revert v Hv. induction n as [|n IH]; intros v Hv; cbn; constructor; [dlia|].
    destruct (v / 10 =? 0); [constructor|apply IH; dlia]. }
  apply Forall_rev in Hf. destruct (rev (digits10 16 v)) as [|c l] eqn:E.
  - apply (f_equal length) in E. rewrite length_rev in E. cbn in E. lia.
  - exists c, l. split; [done|]. by inversion_clear Hf.
Qed.

(** [strtol] reads back a printed number and stops behind it. *)
Lemma strtol_dec v rest : 0 <= v < 2 ^ 31 -> match rest with [] => True | c :: _ => digit_of c = -1 end ->
  strtol (dec v ++ rest) 10 = (v, rest).
Proof.
  intros Hv Hr. destruct (dec_head v ltac:(lia)) as (c & l & E & Hc). unfold strtol. rewrite E. cbn [app skip_blanks].
  zcases; try lia. cbn [orb]. zcases; try lia. unfold strtol_base. cbn [Z.eqb]. rewrite app_comm_cons, <- E. unfold dec.
  rewrite digits10_read by (cbn; lia). destruct rest as [|x r]; cbn [strtol_digits]; [done|]. by rewrite Hr.
Qed.
