(* ===== verification/Net.v ===== *)
(** * kernel/microps/net.c: devices, protocol queues, timers and events

    The linked lists are lists with the entry registered last at the head.
    Devices and interfaces are referred to by pointers: their blocks are kept
    in [devs] and [ifs], and a pointer is an index.  A function pointer is a
    constructor naming the function; the classes [Handlers], [Callbacks] and
    [Drivers] give the functions, so that handlers may call back into this
    file.  The static variables of net.c, arp.c, ip.c and udp.c are the record
    [lower], which is what TCP has below it; the network card (kernel/net.c)
    and the heap are the class [Nic].  [stale_device] and [stale_queue] are what [memory_alloc]
    returns: blocks of the kernel heap are not cleared.  Names are for messages
    only and left out. *)

From Stdlib Require Import ZArith Lia.
From S2P Require Import Prelude Bytes NetUtil Tcp.

Definition NET_DEVICE_TYPE_NULL : Z := 0x0000.
Definition NET_DEVICE_TYPE_LOOPBACK : Z := 0x0001.
Definition NET_DEVICE_TYPE_ETHERNET : Z := 0x0002.
Definition NET_DEVICE_FLAG_UP : Z := 0x0001.
Definition NET_DEVICE_FLAG_LOOPBACK : Z := 0x0010.
Definition NET_DEVICE_FLAG_BROADCAST : Z := 0x0020.
Definition NET_DEVICE_FLAG_NEED_ARP : Z := 0x0100.
Definition NET_IFACE_FAMILY_IP : Z := 1.
Definition NET_PROTOCOL_TYPE_IP : Z := 0x0800.
Definition NET_PROTOCOL_TYPE_ARP : Z := 0x0806.

(** The drivers' operations; each has only [transmit]. *)
Inductive net_device_ops := null_ops | loopback_ops | sirpair_e1000_ops.
(** The functions that are registered as handlers. *)
Inductive net_handler := fp_arp_input | fp_ip_input.
Inductive ip_handler := fp_icmp_input | fp_udp_input | fp_tcp_input.
Inductive timer_fn := fp_arp_timer | fp_tcp_timer.
Inductive event_fn := fp_udp_event | fp_tcp_event.

Record net_device := {
  d_ifaces : list nat;
  d_index : Z;
  d_type : Z;
  d_mtu : Z;
  d_flags : Z;
  d_hlen : Z;
  d_alen : Z;
  d_addr : list Z;
  d_broadcast : list Z;
  d_ops : net_device_ops;
}.
(** [struct ip_iface], which begins with its [struct net_iface]. *)
Record ip_iface := {
  if_dev : nat;
  if_family : Z;
  if_unicast : Z;
  if_netmask : Z;
  if_broadcast : Z;
}.
(** An entry of an input queue: the device and the data. *)
Record net_protocol := {
  p_type : Z;
  p_queue : queue_head (nat * list Z);
  p_handler : net_handler;
}.
Record net_timer := { t_interval : timeval; t_last : timeval; t_handler : timer_fn }.

Record net := {
  devs : list net_device;
  ifs : list ip_iface;
  devices : list nat;
  protocols : list net_protocol;
  timers : list net_timer;
  events : list event_fn;
  index : Z; (* of net_device_register *)
}.

Definition device0 : net_device :=
  {| d_ifaces := []; d_index := 0; d_type := 0; d_mtu := 0; d_flags := 0; d_hlen := 0; d_alen := 0;
     d_addr := repeat 0 16; d_broadcast := repeat 0 16; d_ops := null_ops |}.
Definition iface0 : ip_iface := {| if_dev := 0; if_family := 0; if_unicast := 0; if_netmask := 0; if_broadcast := 0 |}.
Definition set_ifaces (l : list nat) (d : net_device) : net_device :=
  {| d_ifaces := l; d_index := d_index d; d_type := d_type d; d_mtu := d_mtu d; d_flags := d_flags d; d_hlen := d_hlen d; d_alen := d_alen d; d_addr := d_addr d; d_broadcast := d_broadcast d; d_ops := d_ops d |}.
Definition set_index (i : Z) (d : net_device) : net_device :=
  {| d_ifaces := d_ifaces d; d_index := i; d_type := d_type d; d_mtu := d_mtu d; d_flags := d_flags d; d_hlen := d_hlen d; d_alen := d_alen d; d_addr := d_addr d; d_broadcast := d_broadcast d; d_ops := d_ops d |}.
Definition set_flags (f : Z) (d : net_device) : net_device :=
  {| d_ifaces := d_ifaces d; d_index := d_index d; d_type := d_type d; d_mtu := d_mtu d; d_flags := f; d_hlen := d_hlen d; d_alen := d_alen d; d_addr := d_addr d; d_broadcast := d_broadcast d; d_ops := d_ops d |}.
Definition set_if_dev (d : nat) (i : ip_iface) : ip_iface :=
  {| if_dev := d; if_family := if_family i; if_unicast := if_unicast i; if_netmask := if_netmask i; if_broadcast := if_broadcast i |}.
Definition set_queue (q : queue_head (nat * list Z)) (p : net_protocol) : net_protocol :=
  {| p_type := p_type p; p_queue := q; p_handler := p_handler p |}.
Definition set_last (t : timeval) (x : net_timer) : net_timer := {| t_interval := t_interval x; t_last := t; t_handler := t_handler x |}.

Definition upd_devs (f : list net_device -> list net_device) (n : net) : net :=
  {| devs := f (devs n); ifs := ifs n; devices := devices n; protocols := protocols n; timers := timers n; events := events n; index := index n |}.
Definition upd_ifs (f : list ip_iface -> list ip_iface) (n : net) : net :=
  {| devs := devs n; ifs := f (ifs n); devices := devices n; protocols := protocols n; timers := timers n; events := events n; index := index n |}.
Definition upd_protocols (f : list net_protocol -> list net_protocol) (n : net) : net :=
  {| devs := devs n; ifs := ifs n; devices := devices n; protocols := f (protocols n); timers := timers n; events := events n; index := index n |}.
Definition upd_timers (f : list net_timer -> list net_timer) (n : net) : net :=
  {| devs := devs n; ifs := ifs n; devices := devices n; protocols := protocols n; timers := f (timers n); events := events n; index := index n |}.

(** ** The layers below TCP *)

Inductive arp_state := ARP_FREE | ARP_INCOMPLETE | ARP_RESOLVED | ARP_STATIC.
#[export] Instance arp_state_eq_dec : EqDecision arp_state.
Proof. solve_decision. Defined.
Record arp_cache := { c_state : arp_state; c_pa : Z; c_ha : list Z; c_timestamp : timeval }.
Record ip_route := { r_network : Z; r_netmask : Z; r_nexthop : Z; r_iface : nat }.
Inductive udp_state := UDP_FREE | UDP_OPEN | UDP_CLOSING.
#[export] Instance udp_state_eq_dec : EqDecision udp_state.
Proof. solve_decision. Defined.
(** An entry of a receive queue: the sender and the data. *)
Record udp_pcb := { u_state : udp_state; u_local : ip_endpoint; u_queue : queue_head (ip_endpoint * list Z); u_ctx : sched_ctx }.

(** The static variables [mp_ping_*] of microps_glue.c. *)
Record ping := { mp_wait : bool; mp_got : bool; mp_id : Z; mp_seq : Z }.

Record lower (N : Type) := {
  l_net : net;
  caches : list arp_cache;
  ifaces : list nat;
  routes : list ip_route;
  ip_protocols : list (Z * ip_handler);
  ip_id_counter : Z;
  udp_pcbs : list udp_pcb;
  udp_wakes : list nat; (* blocks whose context was woken *)
  l_ping : ping;
  nic : N;
}.
Arguments l_net {N}. Arguments caches {N}. Arguments ifaces {N}. Arguments routes {N}. Arguments ip_protocols {N}.
Arguments ip_id_counter {N}. Arguments udp_pcbs {N}. Arguments udp_wakes {N}. Arguments l_ping {N}. Arguments nic {N}.
Abbreviation world N := (tcp (lower N)).

Class Nic (N : Type) := {
  net_tx_raw : list Z -> K (world N) Z;
  net_poll : K (world N) unit;
  mem_alloc : Z -> K (world N) bool;
  stale_device : world N -> net_device;
  stale_queue : world N -> queue_head (nat * list Z);
}.
(** The functions behind the pointers. *)
Class Handlers (N : Type) := {
  call_handler : net_handler -> list Z -> nat -> K (world N) unit; (* data, dev *)
}.
Class Callbacks (N : Type) := {
  call_timer : timer_fn -> K (world N) unit;
  call_event : event_fn -> K (world N) unit;
}.
Class Drivers (N : Type) := {
  transmit : net_device_ops -> nat -> Z -> list Z -> list Z -> K (world N) Z; (* dev, type, data, dst *)
}.

Section World.
Context {N : Type}.
Implicit Types (s : world N) (l : lower N).

Definition upd_low (f : lower N -> lower N) s : world N :=
  {| pcbs := pcbs s; ticks := ticks s; errno := errno s; wakes := wakes s; low := f (low s) |}.
Definition net_of s : net := l_net (low s).
Definition set_l_net n l : lower N :=
  {| l_net := n; caches := caches l; ifaces := ifaces l; routes := routes l; ip_protocols := ip_protocols l; ip_id_counter := ip_id_counter l; udp_pcbs := udp_pcbs l; udp_wakes := udp_wakes l; l_ping := l_ping l; nic := nic l |}.
Definition set_caches c l : lower N :=
  {| l_net := l_net l; caches := c; ifaces := ifaces l; routes := routes l; ip_protocols := ip_protocols l; ip_id_counter := ip_id_counter l; udp_pcbs := udp_pcbs l; udp_wakes := udp_wakes l; l_ping := l_ping l; nic := nic l |}.
Definition set_ip i r p d l : lower N :=
  {| l_net := l_net l; caches := caches l; ifaces := i; routes := r; ip_protocols := p; ip_id_counter := d; udp_pcbs := udp_pcbs l; udp_wakes := udp_wakes l; l_ping := l_ping l; nic := nic l |}.
Definition set_udp p w l : lower N :=
  {| l_net := l_net l; caches := caches l; ifaces := ifaces l; routes := routes l; ip_protocols := ip_protocols l; ip_id_counter := ip_id_counter l; udp_pcbs := p; udp_wakes := w; l_ping := l_ping l; nic := nic l |}.
Definition set_nic n l : lower N :=
  {| l_net := l_net l; caches := caches l; ifaces := ifaces l; routes := routes l; ip_protocols := ip_protocols l; ip_id_counter := ip_id_counter l; udp_pcbs := udp_pcbs l; udp_wakes := udp_wakes l; l_ping := l_ping l; nic := n |}.
Definition set_ping p l : lower N :=
  {| l_net := l_net l; caches := caches l; ifaces := ifaces l; routes := routes l; ip_protocols := ip_protocols l; ip_id_counter := ip_id_counter l; udp_pcbs := udp_pcbs l; udp_wakes := udp_wakes l; l_ping := p; nic := nic l |}.
Definition upd_net (f : net -> net) : K (world N) unit := kmodify (upd_low (fun l => set_l_net (f (l_net l)) l)).
End World.

Section Net.
Context {N : Type} `{Nic N} `{Handlers N} `{Callbacks N} `{Drivers N}.
Abbreviation W := (world N).
Implicit Types (s : W) (dev iface : nat).

Definition devof s dev : net_device := nth dev (devs (net_of s)) device0.
Definition ifof s iface : ip_iface := nth iface (ifs (net_of s)) iface0.

(** ** Devices *)

(** [setup(dev)] on the block, if it was to be had. *)
Definition net_device_alloc (setup : net_device -> net_device) : K W (option nat) :=
  ok <- mem_alloc 80 ;;
  if negb ok then kret None
  else
    s <- kget ;;
    upd_net (upd_devs (fun l => l ++ [setup (stale_device s)])) ;;
    kret (Some (length (devs (net_of s)))).
Definition net_device_register dev : K W Z :=
  s <- kget ;;
  let n := net_of s in
  upd_net (fun n => {| devs := alter (set_index (index n)) dev (devs n); ifs := ifs n; devices := dev :: devices n;
    protocols := protocols n; timers := timers n; events := events n; index := index n +u 1 |}) ;;
  kret 0.
Definition net_device_first_ethernet s : option nat :=
  snd <$> list_find (fun dev => d_type (devof s dev) = NET_DEVICE_TYPE_ETHERNET) (devices (net_of s)).

Definition NET_DEVICE_IS_UP (d : net_device) : bool := negb (Z.land (d_flags d) NET_DEVICE_FLAG_UP =? 0).
Definition net_device_open dev : K W Z :=
  s <- kget ;;
  if NET_DEVICE_IS_UP (devof s dev) then kret (-1)
  else upd_net (upd_devs (alter (fun d => set_flags (Z.lor (d_flags d) NET_DEVICE_FLAG_UP) d) dev)) ;; kret 0.
Definition net_device_close dev : K W Z :=
  s <- kget ;;
  if negb (NET_DEVICE_IS_UP (devof s dev)) then kret (-1)
  else upd_net (upd_devs (alter (fun d => set_flags (Z.ldiff (d_flags d) NET_DEVICE_FLAG_UP) d) dev)) ;; kret 0.

Definition net_device_get_iface s dev (family : Z) : option nat :=
  snd <$> list_find (fun i => if_family (ifof s i) = family) (d_ifaces (devof s dev)).
Definition net_device_add_iface dev iface : K W Z :=
  s <- kget ;;
  match net_device_get_iface s dev (if_family (ifof s iface)) with
  | Some _ => kret (-1)
  | None =>
      upd_net (upd_ifs (alter (set_if_dev dev) iface)) ;;
      upd_net (upd_devs (alter (fun d => set_ifaces (iface :: d_ifaces d) d) dev)) ;;
      kret 0
  end.

Definition net_device_output dev (type : Z) (data dst : list Z) : K W Z :=
  s <- kget ;;
  let d := devof s dev in
  if negb (NET_DEVICE_IS_UP d) then kret (-1)
  else if d_mtu d <? Z.of_nat (length data) then kret (-1)
  else
    r <- transmit (d_ops d) dev type data dst ;;
    if r =? -1 then kret (-1) else kret 0.

(** ** Protocols *)

Definition proto0 : net_protocol := {| p_type := 0; p_queue := queue_init; p_handler := fp_arp_input |}.
(** [while (1)] on the queue of protocol [i]; [turns] bounds the entries taken. *)
Fixpoint drain (turns : nat) (i : nat) : K W unit :=
  s <- kget ;;
  let p := nth i (protocols (net_of s)) proto0 in
  match queue_pop (p_queue p), turns with
  | None, _ => kret tt
  | Some _, O => ub "net_protocol_handler: out of turns"
  | Some ((dev, data), q), S t =>
      upd_net (upd_protocols (alter (set_queue q) i)) ;;
      call_handler (p_handler p) data dev ;;
      drain t i
  end.
Fixpoint drain_all (turns : nat) (l : list nat) : K W unit :=
  match l with [] => kret tt | i :: l' => drain turns i ;; drain_all turns l' end.
Definition net_protocol_handler (turns : nat) : K W Z :=
  s <- kget ;;
  drain_all turns (seq 0 (length (protocols (net_of s)))) ;;
  kret 0.

(** [raise_softirq] runs the protocol handlers at once. *)
Definition net_input_handler (turns : nat) (type : Z) (data : list Z) dev : K W Z :=
  s <- kget ;;
  match list_find (fun p => p_type p = type) (protocols (net_of s)) with
  | None => kret 0 (* unsupported protocol *)
  | Some (i, _) =>
      ok <- mem_alloc (8 + Z.of_nat (length data)) ;;
      if negb ok then kret (-1)
      else
        cell <- mem_alloc 8 ;;
        s <- kget ;;
        match queue_push cell (p_queue (nth i (protocols (net_of s)) proto0)) (dev, data) with
        | None => kret (-1)
        | Some q =>
            upd_net (upd_protocols (alter (set_queue q) i)) ;;
            net_protocol_handler turns ;;
            kret 0
        end
  end.
Definition net_protocol_register (type : Z) (handler : net_handler) : K W Z :=
  s <- kget ;;
  if bool_decide (Exists (fun p => type = p_type p) (protocols (net_of s))) then kret (-1)
  else
    ok <- mem_alloc 40 ;;
    if negb ok then kret (-1)
    else
      s <- kget ;;
      upd_net (upd_protocols (cons {| p_type := type; p_queue := stale_queue s; p_handler := handler |})) ;;
      kret 0.

(** ** Timers and events *)

Definition net_timer_register (interval : timeval) (handler : timer_fn) : K W Z :=
  ok <- mem_alloc 40 ;;
  if negb ok then kret (-1)
  else
    s <- kget ;;
    upd_net (upd_timers (cons {| t_interval := interval; t_last := gettimeofday (ticks s); t_handler := handler |})) ;;
    kret 0.
Fixpoint run_timers (l : list nat) : K W unit :=
  match l with
  | [] => kret tt
  | i :: l' =>
      s <- kget ;;
      let now := gettimeofday (ticks s) in
      match timers (net_of s) !! i with
      | None => kret tt
      | Some t =>
          (if timercmp_lt (t_interval t) (timersub now (t_last t)) then
             call_timer (t_handler t) ;;
             upd_net (upd_timers (alter (set_last now) i))
           else kret tt) ;;
          run_timers l'
      end
  end.
Definition net_timer_handler : K W Z :=
  s <- kget ;; run_timers (seq 0 (length (timers (net_of s)))) ;; kret 0.
Definition net_event_subscribe (handler : event_fn) : K W Z :=
  ok <- mem_alloc 12 ;;
  if negb ok then kret (-1)
  else
    upd_net (fun n => {| devs := devs n; ifs := ifs n; devices := devices n; protocols := protocols n;
      timers := timers n; events := handler :: events n; index := index n |}) ;;
    kret 0.
Fixpoint run_events (l : list event_fn) : K W unit :=
  match l with [] => kret tt | e :: l' => call_event e ;; run_events l' end.
Definition net_event_handler : K W Z := s <- kget ;; run_events (events (net_of s)) ;; kret 0.

Fixpoint for_devices (f : nat -> K W Z) (l : list nat) : K W unit :=
  match l with [] => kret tt | d :: l' => f d ;; for_devices f l' end.
Definition net_run : K W Z := s <- kget ;; for_devices net_device_open (devices (net_of s)) ;; kret 0.
Definition net_shutdown : K W unit := s <- kget ;; for_devices net_device_close (devices (net_of s)).
End Net.
