(* ===== verification/Ether.v ===== *)
(** * kernel/microps: ether.c and the drivers

    Ethernet frames, addresses in text, and the three drivers (null.c,
    loopback.c, sirpair_e1000.c).  A frame made by [ether_transmit_helper]
    for a station is delivered there with its type and its data, padded to
    the minimal length ([frame_delivered]); text gives back the address it
    was printed from ([ether_addr_roundtrip]). *)

From Stdlib Require Import ZArith Lia.
From S2P Require Import Prelude Bytes NetUtil Fmt Tcp Net.

Definition ETHER_ADDR_LEN : nat := 6.
Definition ETHER_HDR_SIZE : Z := 14.
Definition ETHER_FRAME_SIZE_MIN : Z := 60.
Definition ETHER_FRAME_SIZE_MAX : Z := 1514.
Definition ETHER_PAYLOAD_SIZE_MIN : Z := ETHER_FRAME_SIZE_MIN - ETHER_HDR_SIZE.
Definition ETHER_PAYLOAD_SIZE_MAX : Z := ETHER_FRAME_SIZE_MAX - ETHER_HDR_SIZE.
Definition ETHER_ADDR_BROADCAST : list Z := repeat 255 6.

(** ** Addresses in text *)

(** The loop from [index] on: the bytes stored so far, the text at [p], and
    [ep]; the result is the bytes and whether all six were read, to the end. *)
Fixpoint ether_pton_loop (k : nat) (p : list Z) (n : list Z) : list Z * bool :=
  let '(val, ep) := strtol p 16 in
  let last := match k with O => true | _ => false end in
  if bool_decide (length ep = length p) || (val <? 0) || (0xff <? val) || (negb last && negb (bool_decide (head ep = Some 58))) then (n, false)
  else match k with
       | O => (n ++ [val], bool_decide (ep = []))
       | S k' => ether_pton_loop k' (tail ep) (n ++ [val])
       end.
Definition ether_addr_pton (p : list Z) : list Z * Z :=
  let '(n, ok) := ether_pton_loop 5 p [] in (n, if ok then 0 else -1).
(** "%02x:%02x:%02x:%02x:%02x:%02x" *)
Definition mac_format : list Z :=
  [37; 48; 50; 120; 58; 37; 48; 50; 120; 58; 37; 48; 50; 120; 58; 37; 48; 50; 120; 58; 37; 48; 50; 120; 58; 37; 48; 50; 120].
Definition ether_addr_ntop (n : list Z) (size : Z) : option (list Z) := vsnprintf size mac_format (AInt <$> take 6 n).

(** ** Frames *)

Definition ether_frame (dst src : list Z) (type : Z) (data : list Z) : list Z :=
  let len := Z.of_nat (length data) in
  let pad := if len <? ETHER_PAYLOAD_SIZE_MIN then ETHER_PAYLOAD_SIZE_MIN - len else 0 in
  take 6 dst ++ take 6 src ++ le_enc 2 (hton16 type) ++ data ++ repeat 0 (Z.to_nat pad).

Section Ether.
Context {N : Type} `{Nic N} `{Handlers N}.
Abbreviation W := (world N).
Implicit Types (s : W) (dev : nat).

Definition ether_transmit_helper (callback : list Z -> K W Z) dev (type : Z) (data dst : list Z) : K W Z :=
  if ETHER_PAYLOAD_SIZE_MAX <? Z.of_nat (length data) then ub "ether_transmit_helper: frame overrun"
  else
    s <- kget ;;
    let frame := ether_frame dst (d_addr (devof s dev)) type data in
    r <- callback frame ;;
    kret (if r =? Z.of_nat (length frame) then 0 else -1).

(** The station or the broadcast address, in the first six bytes. *)
Definition for_station (addr frame : list Z) : bool :=
  bool_decide (take 6 addr = take 6 frame) || bool_decide (ETHER_ADDR_BROADCAST = take 6 frame).
(** [callback] gives the frame that was received. *)
Definition ether_poll_helper (turns : nat) (callback : K W (list Z)) dev : K W Z :=
  frame <- callback ;;
  if Z.of_nat (length frame) <? ETHER_HDR_SIZE then kret (-1)
  else
    s <- kget ;;
    if negb (for_station (d_addr (devof s dev)) frame) then kret (-1)
    else net_input_handler turns (ntoh16 (getn 2 12 frame)) (drop 14 frame) dev.
Definition ether_setup_helper (d : net_device) : net_device :=
  {| d_ifaces := d_ifaces d; d_index := d_index d; d_type := NET_DEVICE_TYPE_ETHERNET; d_mtu := ETHER_PAYLOAD_SIZE_MAX;
     d_flags := Z.lor NET_DEVICE_FLAG_BROADCAST NET_DEVICE_FLAG_NEED_ARP; d_hlen := ETHER_HDR_SIZE; d_alen := 6;
     d_addr := d_addr d; d_broadcast := splice 0 ETHER_ADDR_BROADCAST (d_broadcast d); d_ops := d_ops d |}.

(** ** Drivers *)

Definition null_setup (d : net_device) : net_device :=
  {| d_ifaces := d_ifaces d; d_index := d_index d; d_type := NET_DEVICE_TYPE_NULL; d_mtu := 65535; d_flags := d_flags d;
     d_hlen := 0; d_alen := 0; d_addr := d_addr d; d_broadcast := d_broadcast d; d_ops := null_ops |}.
Definition loopback_setup (d : net_device) : net_device :=
  {| d_ifaces := d_ifaces d; d_index := d_index d; d_type := NET_DEVICE_TYPE_LOOPBACK; d_mtu := 65535; d_flags := NET_DEVICE_FLAG_LOOPBACK;
     d_hlen := 0; d_alen := 0; d_addr := d_addr d; d_broadcast := d_broadcast d; d_ops := loopback_ops |}.
Definition sirpair_e1000_setup (mac : list Z) (d : net_device) : net_device :=
  let d := ether_setup_helper d in
  {| d_ifaces := d_ifaces d; d_index := d_index d; d_type := d_type d; d_mtu := d_mtu d; d_flags := d_flags d;
     d_hlen := d_hlen d; d_alen := d_alen d; d_addr := splice 0 mac (d_addr d); d_broadcast := d_broadcast d; d_ops := sirpair_e1000_ops |}.
Definition driver_init (setup : net_device -> net_device) : K W (option nat) :=
  dev <- net_device_alloc setup ;;
  match dev with
  | None => kret None
  | Some d => r <- net_device_register d ;; kret (if r =? -1 then None else Some d)
  end.
Definition null_init : K W (option nat) := driver_init null_setup.
Definition loopback_init : K W (option nat) := driver_init loopback_setup.

Definition null_transmit : K W Z := kret 0. (* drop data *)
Definition loopback_transmit (turns : nat) dev (type : Z) (data : list Z) : K W Z :=
  net_input_handler turns type data dev ;; kret 0.
Definition sirpair_e1000_xmit_frame (frame : list Z) : K W Z :=
  if 1514 <? Z.of_nat (length frame) then kret (-1)
  else r <- net_tx_raw frame ;; kret (if 0 <=? r then Z.of_nat (length frame) else -1).
Definition sirpair_e1000_transmit dev (type : Z) (data dst : list Z) : K W Z :=
  ether_transmit_helper sirpair_e1000_xmit_frame dev type data dst.
(** [dev->ops->transmit]. *)
Definition driver_transmit (turns : nat) (ops : net_device_ops) dev (type : Z) (data dst : list Z) : K W Z :=
  match ops with
  | null_ops => null_transmit
  | loopback_ops => loopback_transmit turns dev type data
  | sirpair_e1000_ops => sirpair_e1000_transmit dev type data dst
  end.
(** [eth] is the static variable [sirpair_eth_dev]. *)
Definition sirpair_microps_deliver_ether (turns : nat) (eth : option nat) (frame : list Z) : K W unit :=
  s <- kget ;;
  match (match eth with Some d => Some d | None => net_device_first_ethernet s end) with
  | None => kret tt
  | Some dev =>
      if Z.of_nat (length frame) <? ETHER_HDR_SIZE then kret tt
      else if negb (for_station (d_addr (devof s dev)) frame) then kret tt
      else net_input_handler turns (ntoh16 (getn 2 12 frame)) (drop 14 frame) dev ;; kret tt
  end.
End Ether.

(** ** Frames are delivered *)

Lemma ether_frame_parts dst src type data : (6 <= length dst)%nat -> (6 <= length src)%nat -> 0 <= type < 2 ^ 16 ->
  let f := ether_frame dst src type data in
  take 6 f = take 6 dst /\ ntoh16 (getn 2 12 f) = type /\
  drop 14 f = data ++ repeat 0 (Z.to_nat (if Z.of_nat (length data) <? ETHER_PAYLOAD_SIZE_MIN then ETHER_PAYLOAD_SIZE_MIN - Z.of_nat (length data) else 0)).
Proof.
  intros Hd Hs Ht f. unfold f, ether_frame. cbv zeta.
  assert (Ld : length (take 6 dst) = 6%nat) by (rewrite length_take; lia).
  assert (Ls : length (take 6 src) = 6%nat) by (rewrite length_take; lia).
  set (rest := data ++ _). set (A := take 6 dst) in *. set (B := take 6 src) in *. split_and!.
  - by rewrite take_app_length' by lia.
  - unfold getn, slice. rewrite (app_assoc A B), drop_app_length' by (rewrite length_app; lia).
    rewrite take_app_length' by (by rewrite le_enc_len). rewrite le_dec_enc. change (8 * Z.of_nat 2) with 16.
    rewrite Z.mod_small by apply hton16_range. by apply ntoh16_hton16.
  - rewrite !app_assoc. rewrite drop_app_length'; [done|]. rewrite !length_app, le_enc_len. lia.
Qed.

(** A frame sent to a station (or to all) with at most 1500 bytes of data
    comes out there as an input of its type, the data padded to 46 bytes. *)
Theorem frame_delivered {N} `{Nic N} `{Handlers N} turns dst src type data dev (s : world N) :
  (6 <= length dst)%nat -> (6 <= length src)%nat -> 0 <= type < 2 ^ 16 ->
  take 6 dst = take 6 (d_addr (devof s dev)) \/ take 6 dst = ETHER_ADDR_BROADCAST ->
  sirpair_microps_deliver_ether turns (Some dev) (ether_frame dst src type data) s =
  (net_input_handler turns type (data ++ repeat 0 (Z.to_nat (if Z.of_nat (length data) <? ETHER_PAYLOAD_SIZE_MIN then ETHER_PAYLOAD_SIZE_MIN - Z.of_nat (length data) else 0))) dev ;; kret tt) s.
Proof.
  intros Hd Hs Ht Hst. destruct (ether_frame_parts dst src type data Hd Hs Ht) as (Ef & Et & Er).
  unfold sirpair_microps_deliver_ether, kbind at 1, kget. unfold for_station. rewrite Ef, Et, Er.
  assert (Hl : (14 <= length (ether_frame dst src type data))%nat).
  { unfold ether_frame. rewrite !length_app, le_enc_len, !length_take. lia. }
  destruct (Z.ltb_spec (Z.of_nat (length (ether_frame dst src type data))) ETHER_HDR_SIZE); [unfold ETHER_HDR_SIZE in *; lia|].
  assert (bool_decide (take 6 (d_addr (devof s dev)) = take 6 dst) || bool_decide (ETHER_ADDR_BROADCAST = take 6 dst) = true) as ->; [|done].
  apply orb_true_iff. destruct Hst as [E|E]; [left|right]; rewrite E; by apply bool_decide_eq_true_2.
Qed.

(** ** Addresses in text and back *)

Definition hex2 (v : Z) : list Z := [dig (v / 16); dig (v mod 16)].
Lemma hex2_read v rest : 0 <= v < 256 -> match rest with [] => True | c :: _ => digit_of c = -1 end ->
  strtol (hex2 v ++ rest) 16 = (v, rest).
Proof.
  intros Hv Hr.
  assert (Hd : forall d, 0 <= d < 16 -> digit_of (dig d) = d /\ 48 <= dig d <= 102 /\ dig d <> 32 /\ dig d <> 9).
  { intros d Hd. unfold dig, digit_of. zcases; lia. }
  destruct (Hd (v / 16) ltac:(dlia)) as (E1 & R1 & _), (Hd (v mod 16) ltac:(dlia)) as (E2 & R2 & _).
  unfold strtol, hex2. cbn [app skip_blanks]. zcases; try lia. cbn [orb]. zcases; try lia. unfold strtol_base. cbn [Z.eqb strtol_digits].
  rewrite E1, E2. rewrite (s32_small (0 * 16 + v / 16)), (s32_small (_ * 16 + v mod 16)) by dlia. zcases; try dlia. cbn [orb].
  assert ((0 * 16 + v / 16) * 16 + v mod 16 = v) as -> by dlia.
  destruct rest as [|c r]; cbn [strtol_digits]; [done|]. by rewrite Hr.
Qed.
Lemma pad_x2 size v s : 0 <= v < 256 -> Z.of_nat (length s) + 2 <= size - 1 -> fmt_pad_x size s v 2 false = s ++ hex2 v.
Proof.
  intros Hv Hs. change (fmt_pad_x size s v 2 false) with (pad_x size 2 v false s). cbn [pad_x andb].
  unfold room. rewrite length_app. cbn [length]. zcases; try lia. rewrite <- app_assoc. cbn [app].
  unfold hex2. change (4 * Z.of_nat 1) with 4. change (4 * Z.of_nat 0) with 0. rewrite Z.shiftr_0_r, Z.shiftr_div_pow2 by lia.
  change 15 with (Z.ones 4). rewrite !Z.land_ones by lia. change (2 ^ 4) with 16. by rewrite (Z.mod_small (v / 16)) by dlia.
Qed.

Lemma pton_step k z r n : 0 <= z < 256 -> ether_pton_loop (S k) (hex2 z ++ 58 :: r) n = ether_pton_loop k r (n ++ [z]).
Proof.
  intros Hz. cbn [ether_pton_loop]. rewrite hex2_read by done.
  rewrite bool_decide_eq_false_2 by (rewrite length_app; cbn; lia). zcases; try lia. done.
Qed.
Lemma pton_last z n : 0 <= z < 256 -> ether_pton_loop 0 (hex2 z) n = (n ++ [z], true).
Proof.
  intros Hz. cbn [ether_pton_loop]. pose proof (hex2_read z [] Hz I) as E. rewrite app_nil_r in E. rewrite E.
  rewrite bool_decide_eq_false_2 by (cbn; lia). zcases; try lia. done.
Qed.
Lemma ntop_x n f s v ap : 0 <= v < 256 -> Z.of_nat (length s) + 2 <= 17 ->
  fmt_loop 18 (S n) (37 :: 48 :: 50 :: 120 :: f) s (AInt v :: ap) = fmt_loop 18 n f (s ++ hex2 v) ap.
Proof.
  intros Hv Hs. rewrite <- (pad_x2 18 v s) by lia. rewrite <- (u32_small v) at 2 by lia.
  cbn [fmt_loop]. by rewrite (proj2 (room_spec 18 s)) by lia.
Qed.
Lemma ntop_colon n f s ap : Z.of_nat (length s) + 1 <= 17 -> fmt_loop 18 (S n) (58 :: f) s ap = fmt_loop 18 n f (s ++ [58]) ap.
Proof. intros Hs. cbn [fmt_loop]. by rewrite (proj2 (room_spec 18 s)) by lia. Qed.

(** Six bytes printed and read are the same six bytes. *)
Theorem ether_addr_roundtrip n : length n = 6%nat -> bytes n ->
  exists p, ether_addr_ntop n 18 = Some p /\ ether_addr_pton p = (n, 0).
Proof.
  intros Hn Hb. do 6 (destruct n as [|? n]; [done|]). destruct n; [|done]. unfold bytes in Hb. rewrite !Forall_cons in Hb. unfold byte in Hb.
  destruct Hb as (B1 & B2 & B3 & B4 & B5 & B6 & _).
  eexists. split.
  - unfold ether_addr_ntop, vsnprintf, mac_format. cbn [Z.eqb length take fmap list_fmap].
    do 5 (rewrite ntop_x, ntop_colon by (rewrite ?length_app; cbn [length hex2]; lia)). rewrite ntop_x by (rewrite ?length_app; cbn [length hex2]; lia). reflexivity.
  - unfold ether_addr_pton. rewrite <- !app_assoc. cbn [app]. rewrite !pton_step, pton_last by done. done.
Qed.
