(* ===== verification/Arp.v ===== *)
(** * kernel/microps/arp.c: address resolution

    The cache as a table of 32 entries.  An entry is replaced only when no
    other is free, the oldest first; a request and its reply make each host
    know the other ([arp_exchange]). *)

From Stdlib Require Import ZArith Lia.
From S2P Require Import Prelude Bytes NetUtil Fmt Tcp Net Ether.

Definition ARP_HRD_ETHER : Z := 0x0001.
Definition ARP_PRO_IP : Z := 0x0800.
Definition ARP_OP_REQUEST : Z := 0x0001.
Definition ARP_OP_REPLY : Z := 0x0002.
Definition ARP_CACHE_SIZE : nat := 32.
Definition ARP_CACHE_TIMEOUT : Z := 30. (* seconds *)
Definition ARP_RESOLVE_ERROR : Z := -1.
Definition ARP_RESOLVE_INCOMPLETE : Z := 0.
Definition ARP_RESOLVE_FOUND : Z := 1.
Definition ETHER_TYPE_ARP : Z := 0x0806.

Definition arp_cache0 : arp_cache := {| c_state := ARP_FREE; c_pa := 0; c_ha := repeat 0 6; c_timestamp := timerclear |}.

(** [struct arp_ether], 28 bytes. *)
Definition arp_message (op : Z) (sha : list Z) (spa : Z) (tha : list Z) (tpa : Z) : list Z :=
  le_enc 2 (hton16 ARP_HRD_ETHER) ++ le_enc 2 (hton16 ARP_PRO_IP) ++ [6; 4] ++ le_enc 2 (hton16 op) ++
  take 6 sha ++ le_enc 4 spa ++ take 6 tha ++ le_enc 4 tpa.

(** The loop of [arp_cache_alloc]: [Some] index, FREE or the oldest so far. *)
Fixpoint alloc_loop (l : list arp_cache) (i : nat) (oldest : option (nat * timeval)) : option nat :=
  match l with
  | [] => fst <$> oldest
  | e :: l' =>
      if bool_decide (c_state e = ARP_FREE) then Some i
      else
        let oldest :=
          match oldest with
          | Some (j, t) => if timercmp_gt t (c_timestamp e) then Some (i, c_timestamp e) else oldest
          | None => Some (i, c_timestamp e)
          end in
        alloc_loop l' (i + 1) oldest
  end.
Definition arp_cache_alloc (c : list arp_cache) : option nat := alloc_loop c 0 None.
Definition arp_cache_select (c : list arp_cache) (pa : Z) : option nat :=
  fst <$> list_find (fun e => c_state e <> ARP_FREE /\ c_pa e = pa) c.

Section Arp.
Context {N : Type} `{Nic N} `{Handlers N} `{Drivers N}.
Abbreviation W := (world N).
Implicit Types (s : W) (dev iface : nat) (ha : list Z).

Definition upd_caches (f : list arp_cache -> list arp_cache) : K W unit := kmodify (upd_low (fun l => set_caches (f (caches l)) l)).
Definition cacheof s i : arp_cache := nth i (caches (low s)) arp_cache0.

(** The entry becomes resolved, its address and time set. *)
Definition resolved (now : timeval) (pa : Z) ha : arp_cache :=
  {| c_state := ARP_RESOLVED; c_pa := pa; c_ha := take 6 ha; c_timestamp := now |}.
Definition arp_cache_update (pa : Z) ha : K W (option nat) :=
  s <- kget ;;
  match arp_cache_select (caches (low s)) pa with
  | None => kret None
  | Some i => upd_caches (alter (fun e => resolved (gettimeofday (ticks s)) (c_pa e) ha) i) ;; kret (Some i)
  end.
Definition arp_cache_insert (pa : Z) ha : K W (option nat) :=
  s <- kget ;;
  match arp_cache_alloc (caches (low s)) with
  | None => kret None
  | Some i => upd_caches (alter (fun _ => resolved (gettimeofday (ticks s)) pa ha) i) ;; kret (Some i)
  end.
Definition arp_cache_delete i : K W unit := upd_caches (alter (fun _ => arp_cache0) i).

Definition arp_request iface (tpa : Z) : K W Z :=
  s <- kget ;;
  let i := ifof s iface in
  let d := devof s (if_dev i) in
  net_device_output (if_dev i) ETHER_TYPE_ARP (arp_message ARP_OP_REQUEST (d_addr d) (if_unicast i) (repeat 0 6) tpa) (d_broadcast d).
Definition arp_reply iface (tha : list Z) (tpa : Z) (dst : list Z) : K W Z :=
  s <- kget ;;
  let i := ifof s iface in
  let d := devof s (if_dev i) in
  net_device_output (if_dev i) ETHER_TYPE_ARP (arp_message ARP_OP_REPLY (d_addr d) (if_unicast i) tha tpa) dst.

Definition arp_input (data : list Z) dev : K W unit :=
  if Z.of_nat (length data) <? 28 then kret tt
  else if negb (ntoh16 (getn 2 0 data) =? ARP_HRD_ETHER) || negb (getn 1 4 data =? 6) then kret tt
  else if negb (ntoh16 (getn 2 2 data) =? ARP_PRO_IP) || negb (getn 1 5 data =? 4) then kret tt
  else
    let sha := slice 8 6 data in
    let spa := getn 4 14 data in
    let tpa := getn 4 24 data in
    merge <- arp_cache_update spa sha ;;
    s <- kget ;;
    match net_device_get_iface s dev NET_IFACE_FAMILY_IP with
    | Some iface =>
        if if_unicast (ifof s iface) =? tpa then
          (match merge with None => arp_cache_insert spa sha ;; kret tt | Some _ => kret tt end) ;;
          (if ntoh16 (getn 2 6 data) =? ARP_OP_REQUEST then arp_reply iface sha spa sha ;; kret tt else kret tt)
        else kret tt
    | None => kret tt
    end.

(** The request is sent and the card polled, then the cache is asked again;
    the result is the code and, when found, the hardware address. *)
Definition arp_ask (turns : nat) iface (pa : Z) : K W (Z * option (list Z)) :=
  arp_request iface pa ;;
  net_poll ;;
  net_protocol_handler turns ;;
  s <- kget ;;
  match arp_cache_select (caches (low s)) pa with
  | Some i =>
      if bool_decide (c_state (cacheof s i) = ARP_RESOLVED) then kret (ARP_RESOLVE_FOUND, Some (c_ha (cacheof s i)))
      else kret (ARP_RESOLVE_INCOMPLETE, None)
  | None => kret (ARP_RESOLVE_INCOMPLETE, None)
  end.
Definition arp_resolve (turns : nat) iface (pa : Z) : K W (Z * option (list Z)) :=
  s <- kget ;;
  if negb (d_type (devof s (if_dev (ifof s iface))) =? NET_DEVICE_TYPE_ETHERNET) then kret (ARP_RESOLVE_ERROR, None)
  else if negb (if_family (ifof s iface) =? NET_IFACE_FAMILY_IP) then kret (ARP_RESOLVE_ERROR, None)
  else
    match arp_cache_select (caches (low s)) pa with
    | None =>
        match arp_cache_alloc (caches (low s)) with
        | None => kret (ARP_RESOLVE_ERROR, None)
        | Some i =>
            upd_caches (alter (fun e => {| c_state := ARP_INCOMPLETE; c_pa := pa; c_ha := c_ha e; c_timestamp := gettimeofday (ticks s) |}) i) ;;
            arp_ask turns iface pa
        end
    | Some i =>
        if bool_decide (c_state (cacheof s i) = ARP_INCOMPLETE) then arp_ask turns iface pa
        else kret (ARP_RESOLVE_FOUND, Some (c_ha (cacheof s i)))
    end.

(** An entry older than the timeout is deleted. *)
Definition expire (now : timeval) (e : arp_cache) : arp_cache :=
  if bool_decide (c_state e = ARP_FREE) || bool_decide (c_state e = ARP_STATIC) then e
  else if ARP_CACHE_TIMEOUT <? tv_sec (timersub now (c_timestamp e)) then arp_cache0 else e.
Definition arp_timer : K W unit := s <- kget ;; upd_caches (fmap (expire (gettimeofday (ticks s)))).

Definition arp_init : K W Z :=
  r <- net_protocol_register NET_PROTOCOL_TYPE_ARP fp_arp_input ;;
  if r =? -1 then kret (-1)
  else
    r <- net_timer_register {| tv_sec := 1; tv_usec := 0 |} fp_arp_timer ;;
    if r =? -1 then kret (-1) else kret 0.
End Arp.

(** ** The table *)

Lemma select_some c pa i : arp_cache_select c pa = Some i <->
  exists e, c !! i = Some e /\ c_state e <> ARP_FREE /\ c_pa e = pa /\ forall j e', c !! j = Some e' -> (j < i)%nat -> ~ (c_state e' <> ARP_FREE /\ c_pa e' = pa).
Proof.
  unfold arp_cache_select. rewrite fmap_Some. split.
  - intros ([j e] & Hf & ->). apply list_find_Some in Hf as (Hl & [Hs Hp] & Hb). by exists e.
  - intros (e & Hl & Hs & Hp & Hb). exists (i, e). split; [|done]. by apply list_find_Some.
Qed.
Lemma select_none c pa : arp_cache_select c pa = None <-> forall i e, c !! i = Some e -> ~ (c_state e <> ARP_FREE /\ c_pa e = pa).
Proof.
  unfold arp_cache_select. rewrite fmap_None, list_find_None, Forall_forall. split.
  - intros Hf i e Hi. by apply Hf, list_elem_of_lookup_2 with i.
  - intros Hf e (i & Hi)%list_elem_of_lookup_1. by apply (Hf i).
Qed.
Lemma alloc_loop_lt l i o : l <> [] \/ o <> None -> (forall j t, o = Some (j, t) -> (j < i)%nat) ->
  exists k, alloc_loop l i o = Some k /\ (k < i + length l)%nat.
Proof.
  revert i o. induction l as [|e l IH]; intros i o Hne Ho; cbn [alloc_loop length].
  - destruct o as [[j t]|]; [|by destruct Hne]. exists j. split; [done|]. specialize (Ho j t eq_refl). lia.
  - case_bool_decide; [exists i; split; [done|lia]|].
    match goal with |- context [alloc_loop l (i + 1) ?o'] => destruct (IH (i + 1)%nat o') as (k & -> & Hk); [right; by repeat case_match| |exists k; split; [done|lia]] end.
    intros j t. destruct o as [[j' t']|]; [specialize (Ho j' t' eq_refl); case_match|]; intros [= <- <-]; lia.
Qed.
Lemma cache_alloc_lt c : c <> [] -> exists k, arp_cache_alloc c = Some k /\ (k < length c)%nat.
Proof. intros Hc. apply (alloc_loop_lt c 0 None); [by left|done]. Qed.

(** No address is held twice. *)
Definition arp_unique (c : list arp_cache) : Prop :=
  forall i j e e', c !! i = Some e -> c !! j = Some e' -> c_state e <> ARP_FREE -> c_state e' <> ARP_FREE -> c_pa e = c_pa e' -> i = j.
Lemma unique_alter c i f : arp_unique c -> (forall e, c !! i = Some e -> forall j e', c !! j = Some e' -> j <> i -> c_state e' <> ARP_FREE -> c_state (f e) <> ARP_FREE -> c_pa (f e) <> c_pa e') ->
  arp_unique (alter f i c).
Proof.
  intros Hu Hf j k e e' Hj Hk Hs Hs' Hp. destruct (decide (i = j)) as [<-|Hij], (decide (i = k)) as [<-|Hik]; try done.
  - rewrite list_lookup_alter_eq in Hj. rewrite list_lookup_alter_ne in Hk by done. apply fmap_Some in Hj as (e0 & He0 & ->). exfalso. by eapply (Hf e0 He0 k e').
  - rewrite list_lookup_alter_eq in Hk. rewrite list_lookup_alter_ne in Hj by done. apply fmap_Some in Hk as (e0 & He0 & ->). exfalso. by eapply (Hf e0 He0 j e).
  - rewrite list_lookup_alter_ne in Hj, Hk by done. by eapply Hu.
Qed.
Lemma unique_update c i e pa now ha : arp_unique c -> arp_cache_select c pa = Some i -> c !! i = Some e ->
  arp_unique (alter (fun e => resolved now (c_pa e) ha) i c).
Proof.
  intros Hu (e0 & He0 & Hs & Hp & _)%select_some He. simplify_eq. apply unique_alter; [done|].
  intros e1 He1 j e' Hj Hne Hs' _ Heq. simplify_eq. apply Hne. symmetry. by eapply (Hu i j).
Qed.
Lemma unique_new c i pa f : arp_unique c -> arp_cache_select c pa = None -> (forall e, c_pa (f e) = pa) -> arp_unique (alter f i c).
Proof.
  intros Hu Hn Hf. rewrite select_none in Hn. apply unique_alter; [done|].
  intros e He j e' Hj Hne Hs' _ Heq. rewrite Hf in Heq. by apply (Hn j e').
Qed.
Lemma unique_expire c now : arp_unique c -> arp_unique (expire now <$> c).
Proof.
  intros Hu i j e e' Hi Hj Hs Hs' Hp. rewrite list_lookup_fmap in Hi, Hj.
  apply fmap_Some in Hi as (a & Ha & ->), Hj as (b & Hb & ->).
  assert (Hk : forall x, c_state (expire now x) <> ARP_FREE -> expire now x = x).
  { intros x. unfold expire. repeat case_match; intros Hx; [done|by destruct Hx|done]. }
  pose proof (Hk a Hs) as Ea. pose proof (Hk b Hs') as Eb. rewrite Ea in Hs, Hp. rewrite Eb in Hs', Hp. by apply (Hu i j a b).
Qed.

(** ** What the operations do to the table *)

Section ArpKeeps.
Context {N : Type} `{Nic N} `{Handlers N} `{Drivers N}.
Abbreviation W := (world N).
Implicit Types (s : W).

(** [I] holds again when [m] returns. *)
Definition preserves {A} (I : W -> Prop) (m : K W A) : Prop := forall s, I s -> wlp m (fun _ => I) s.
Definition arp_ok s : Prop := arp_unique (caches (low s)).

Lemma arp_ok_update pa ha s : arp_ok s -> wlp (arp_cache_update pa ha) (fun r s' => arp_ok s' /\ (r = None -> arp_cache_select (caches (low s')) pa = None)) s.
Proof.
  intros Hs. unfold arp_cache_update. ksteps. destruct (arp_cache_select (caches (low s)) pa) as [i|] eqn:E; ksteps; [|done].
  split; [|done]. unfold arp_ok. cbn. pose proof E as (e & He & _)%select_some. by eapply unique_update.
Qed.
Lemma arp_ok_insert pa ha s : arp_ok s -> arp_cache_select (caches (low s)) pa = None -> wlp (arp_cache_insert pa ha) (fun _ => arp_ok) s.
Proof.
  intros Hs Hn. unfold arp_cache_insert. ksteps. destruct (arp_cache_alloc (caches (low s))) as [i|]; ksteps; [|done].
  unfold arp_ok. cbn. by eapply unique_new.
Qed.
Lemma arp_ok_timer : preserves arp_ok arp_timer.
Proof. intros s Hs. unfold arp_timer. ksteps. by apply unique_expire. Qed.
End ArpKeeps.

(** ** Requests and replies *)

(** The fields of a message as [arp_input] reads them, with padding behind. *)
Lemma arp_fields op sha spa tha tpa pad : length sha = 6%nat -> length tha = 6%nat -> 0 <= op < 2 ^ 16 -> 0 <= spa < 2 ^ 32 -> 0 <= tpa < 2 ^ 32 ->
  let m := arp_message op sha spa tha tpa ++ pad in
  (28 <= length m)%nat /\ ntoh16 (getn 2 0 m) = ARP_HRD_ETHER /\ getn 1 4 m = 6 /\ ntoh16 (getn 2 2 m) = ARP_PRO_IP /\ getn 1 5 m = 4 /\
  ntoh16 (getn 2 6 m) = op /\ slice 8 6 m = sha /\ getn 4 14 m = spa /\ getn 4 24 m = tpa.
Proof.
  intros Hs Ht Ho Hsp Htp. do 6 (destruct sha as [|? sha]; [done|]). destruct sha; [|done]. do 6 (destruct tha as [|? tha]; [done|]). destruct tha; [|done].
  cbv zeta. pose proof (hton16_range op). split; [cbn; lia|]. do 4 (split; [by vm_compute|]).
  split; [transitivity (ntoh16 (le_dec (le_enc 2 (hton16 op)))); [done|]; by rewrite field_dec, ntoh16_hton16|].
  split; [done|]. split; by apply (field_dec 4).
Qed.

(** The cache holds [ha] for [pa]. *)
Definition knows {N} (s : world N) (pa : Z) (ha : list Z) : Prop :=
  exists i e, arp_cache_select (caches (low s)) pa = Some i /\ caches (low s) !! i = Some e /\ c_state e = ARP_RESOLVED /\ c_ha e = ha.

Section Exchange.
Context {N : Type} `{Nic N} `{Handlers N} `{Drivers N}.
Abbreviation W := (world N).
Implicit Types (s : W).

(** The cache entry is there after an update that found one, or an insertion. *)
Lemma knows_update s i pa now ha : arp_cache_select (caches (low s)) pa = Some i -> length ha = 6%nat ->
  knows (upd_low (fun l => set_caches (alter (fun e => resolved now (c_pa e) ha) i (caches l)) l) s) pa ha.
Proof.
  intros (e & He & Hs & Hp & Hb)%select_some Hl. exists i, (resolved now (c_pa e) ha). cbn [low upd_low caches set_caches].
  assert (Ha : alter (fun e => resolved now (c_pa e) ha) i (caches (low s)) !! i = Some (resolved now (c_pa e) ha)) by by rewrite list_lookup_alter_eq, He.
  split_and!; [|done|done|cbn; by apply take_ge; rewrite Hl].
  apply select_some. exists (resolved now (c_pa e) ha). split_and!; [done|done|done|].
  intros j e' Hj Hlt. rewrite list_lookup_alter_ne in Hj by lia. by apply (Hb j).
Qed.
Lemma knows_insert s i pa now ha : (i < length (caches (low s)))%nat -> arp_cache_select (caches (low s)) pa = None -> length ha = 6%nat ->
  knows (upd_low (fun l => set_caches (alter (fun _ => resolved now pa ha) i (caches l)) l) s) pa ha.
Proof.
  intros Hi Hn Hl. rewrite select_none in Hn. apply lookup_lt_is_Some in Hi as [e He].
  exists i, (resolved now pa ha). cbn [low upd_low caches set_caches].
  assert (Ha : alter (fun _ => resolved now pa ha) i (caches (low s)) !! i = Some (resolved now pa ha)) by by rewrite list_lookup_alter_eq, He.
  split_and!; [|done|done|cbn; by apply take_ge; rewrite Hl].
  apply select_some. exists (resolved now pa ha). split_and!; [done|done|done|].
  intros j e' Hj Hlt. rewrite list_lookup_alter_ne in Hj by lia. by apply (Hn j).
Qed.

(** A message for this host makes the cache know its sender; a request is
    answered with the host's own address. *)
Lemma arp_learns s dev iface op sha spa tha tpa pad :
  length sha = 6%nat -> length tha = 6%nat -> 0 <= op < 2 ^ 16 -> 0 <= spa < 2 ^ 32 -> 0 <= tpa < 2 ^ 32 -> caches (low s) <> [] ->
  net_device_get_iface s dev NET_IFACE_FAMILY_IP = Some iface -> if_unicast (ifof s iface) = tpa ->
  exists s1, knows s1 spa sha /\ net_of s1 = net_of s /\
    arp_input (arp_message op sha spa tha tpa ++ pad) dev s =
      (if op =? ARP_OP_REQUEST then arp_reply iface sha spa sha ;; kret tt else kret tt) s1.
Proof.
  intros Hs Ht Ho Hsp Htp Hc Hif Hu. destruct (arp_fields op sha spa tha tpa pad Hs Ht Ho Hsp Htp) as (Fl & F0 & F4 & F2 & F5 & F6 & Fs & F14 & F24).
  unfold arp_input. destruct (Z.ltb_spec (Z.of_nat (length (arp_message op sha spa tha tpa ++ pad))) 28); [lia|].
  rewrite F0, F4, F2, F5, F6, Fs, F14, F24, !Z.eqb_refl. cbn [negb orb].
  unfold arp_cache_update, kbind, kget. cbv beta iota. destruct (arp_cache_select (caches (low s)) spa) as [i|] eqn:Ei.
  - eexists. split; [by apply (knows_update s i spa (gettimeofday (ticks s)) sha)|]. split; [done|].
    unfold upd_caches, kmodify, kret. cbv beta iota. change (net_device_get_iface (upd_low _ s) dev NET_IFACE_FAMILY_IP) with (net_device_get_iface s dev NET_IFACE_FAMILY_IP).
    rewrite Hif. change (ifof (upd_low _ s) iface) with (ifof s iface). rewrite Hu, Z.eqb_refl. done.
  - destruct (cache_alloc_lt _ Hc) as (k & Ek & Hk).
    eexists. split; [by apply (knows_insert s k spa (gettimeofday (ticks s)) sha)|]. split; [done|].
    unfold kret. cbv beta iota. rewrite Hif, Hu, Z.eqb_refl. unfold arp_cache_insert, kbind, kget. rewrite Ek. done.
Qed.

Lemma arp_message_take op sha spa tha tpa : arp_message op sha spa tha tpa = arp_message op (take 6 sha) spa (take 6 tha) tpa.
Proof. unfold arp_message. by rewrite !take_take. Qed.
Lemma resolve_known turns s iface pa ha : knows s pa ha -> d_type (devof s (if_dev (ifof s iface))) = NET_DEVICE_TYPE_ETHERNET ->
  if_family (ifof s iface) = NET_IFACE_FAMILY_IP -> arp_resolve turns iface pa s = Done (ARP_RESOLVE_FOUND, Some ha) s.
Proof.
  intros (i & e & Ei & He & Hs & Hh) Ht Hf. unfold arp_resolve, kbind, kget. rewrite Ht, Hf, Ei, !Z.eqb_refl. cbn [negb].
  unfold cacheof. rewrite (nth_lookup_Some _ _ _ _ He), Hs, Hh. done.
Qed.

(** An interface with its address and that of its Ethernet device. *)
Record station s (dev iface : nat) (ip : Z) (mac : list Z) : Prop := {
  st_iface : net_device_get_iface s dev NET_IFACE_FAMILY_IP = Some iface;
  st_dev : if_dev (ifof s iface) = dev;
  st_family : if_family (ifof s iface) = NET_IFACE_FAMILY_IP;
  st_type : d_type (devof s dev) = NET_DEVICE_TYPE_ETHERNET;
  st_ip : if_unicast (ifof s iface) = ip;
  st_mac : take 6 (d_addr (devof s dev)) = mac;
  st_range : 0 <= ip < 2 ^ 32;
  st_len : length mac = 6%nat;
  st_caches : caches (low s) <> [];
}.

(** C20. Address resolution works between two hosts: the request one of them
    broadcasts, received by the other whatever is in its cache, makes that
    host know the sender and answer; the answer makes the sender know the
    other host, so that arp_resolve then finds the address at once. *)
Theorem arp_exchange turns (A B : W) da ia ipA macA db ib ipB macB pad pad' :
  station A da ia ipA macA -> station B db ib ipB macB ->
  let request := arp_message ARP_OP_REQUEST macA ipA (repeat 0 6) ipB in
  let reply := arp_message ARP_OP_REPLY macB ipB macA ipA in
  arp_request ia ipB A = net_device_output da ETHER_TYPE_ARP request (d_broadcast (devof A da)) A /\
  exists B1 A1, knows B1 ipA macA /\
    arp_input (request ++ pad) db B = (net_device_output db ETHER_TYPE_ARP reply macA ;; kret tt) B1 /\
    knows A1 ipB macB /\ arp_input (reply ++ pad') da A = Done tt A1 /\
    arp_resolve turns ia ipB A1 = Done (ARP_RESOLVE_FOUND, Some macB) A1.
Proof.
  intros HA HB request reply. destruct HA, HB. split.
  { unfold arp_request, kbind, kget. rewrite st_dev0, st_ip0. unfold request. by rewrite arp_message_take, st_mac0. }
  destruct (arp_learns B db ib ARP_OP_REQUEST macA ipA (repeat 0 6) ipB pad) as (B1 & KB & EB & RB); try done.
  destruct (arp_learns A da ia ARP_OP_REPLY macB ipB macA ipA pad') as (A1 & KA & EA & RA); try done.
  exists B1, A1. split; [done|]. split.
  { unfold request. rewrite RB. cbn [Z.eqb Pos.eqb ARP_OP_REQUEST]. unfold arp_reply, kbind, kget.
    assert (ifof B1 ib = ifof B ib) as -> by (unfold ifof; by rewrite EB). rewrite st_dev1, st_ip1.
    assert (devof B1 db = devof B db) as -> by (unfold devof; by rewrite EB). unfold reply. by rewrite arp_message_take, st_mac1, (take_ge macA) by lia. }
  split; [done|]. split; [exact RA|].
  assert (Ei : ifof A1 ia = ifof A ia) by (unfold ifof; by rewrite EA). apply resolve_known; rewrite ?Ei, ?st_dev0; try done.
  unfold devof. by rewrite EA.
Qed.
End Exchange.
