(* ===== verification/Ip.v ===== *)
(** * kernel/microps/ip.c: addresses, routes and packets

    Addresses are in network byte order: the 32-bit word whose bytes in memory
    are those of the address.  Shown here: the route taken is a matching one
    with the longest mask ([route_is_longest]); a packet is delivered to the
    protocol it was sent for, with the data it was sent with ([ip_delivers]);
    addresses survive printing and reading ([ip_addr_roundtrip]). *)

From Stdlib Require Import ZArith Lia.
From S2P Require Import Prelude Bytes NetUtil Fmt Tcp Net Ether Arp.

Definition IP_VERSION_IPV4 : Z := 4.
Definition IP_TOTAL_SIZE_MAX : Z := 65535.
Definition IP_PROTOCOL_ICMP : Z := 0x01.
Definition IP_PROTOCOL_UDP : Z := 0x11.

(** ** Addresses in text *)

(** The loop from [idx] on, [k] more to come; [n] holds the four bytes. *)
Fixpoint pton_loop (k idx : nat) (sp : list Z) (n : list Z) : Z * list Z :=
  let '(ret, ep) := strtol sp 10 in
  if (ret <? 0) || (255 <? ret) then (-1, n)
  else if bool_decide (length ep = length sp) then (-1, n)
  else match k with
       | O => if bool_decide (ep = []) then (0, <[idx := ret]> n) else (-1, n)
       | S k' => if bool_decide (head ep = Some 46) then pton_loop k' (idx + 1) (tail ep) (<[idx := ret]> n) else (-1, n)
       end.
(** The result and [*n] after it, also when it fails. *)
Definition ip_addr_pton (p : list Z) (n : Z) : Z * Z :=
  let '(r, l) := pton_loop 3 0 p (le_enc 4 n) in (r, le_dec l).
Definition addr_format : list Z := [37; 100; 46; 37; 100; 46; 37; 100; 46; 37; 100]. (* "%d.%d.%d.%d" *)
Definition ip_addr_ntop (n size : Z) : option (list Z) := vsnprintf size addr_format (AInt <$> le_enc 4 n).
(** [None]: the part before the colon does not fit [addr]. *)
Definition ip_endpoint_pton (p : list Z) (n : ip_endpoint) : option (Z * ip_endpoint) :=
  match strrchr p 58 with
  | None => Some (-1, n)
  | Some sep =>
      let l := (length p - length sep)%nat in
      if (15 <? l)%nat then None
      else
        let '(r, a) := ip_addr_pton (take l p) (addr n) in
        let n := {| addr := a; port := port n |} in
        if r =? -1 then Some (-1, n)
        else
          let '(port, _) := strtol (tail sep) 10 in
          if (port <=? 0) || (65535 <? port) then Some (-1, n)
          else Some (0, {| addr := a; port := hton16 port |})
  end.
Definition port_format : list Z := [58; 37; 100]. (* ":%d" *)
Definition ip_endpoint_ntop (n : ip_endpoint) (size : Z) : option (list Z) :=
  p ← ip_addr_ntop (addr n) size;
  q ← vsnprintf (size - Z.of_nat (length p)) port_format [AInt (ntoh16 (port n))];
  Some (p ++ q).

(** ** Packets *)

Definition ip_hdr_front (total id offset protocol : Z) : list Z :=
  [Z.lor (Z.shiftl IP_VERSION_IPV4 4) (Z.shiftr 20 2); 0] ++ le_enc 2 (hton16 total) ++ le_enc 2 (hton16 id) ++ le_enc 2 (hton16 offset) ++ [0xff; protocol].
Definition ip_header (total id offset protocol src dst : Z) : list Z :=
  let front := ip_hdr_front total id offset protocol in
  let sum := cksum16 (front ++ le_enc 2 0 ++ le_enc 4 src ++ le_enc 4 dst) 20 0 in
  front ++ le_enc 2 sum ++ le_enc 4 src ++ le_enc 4 dst.
Definition ip_packet (protocol : Z) (data : list Z) (src dst id offset : Z) : list Z :=
  ip_header (u16 (20 + Z.of_nat (length data))) id offset protocol src dst ++ data.

Section Ip.
Context {N : Type} `{Nic N} `{Handlers N} `{Drivers N}.
Abbreviation W := (world N).
Implicit Types (s : W) (dev iface : nat).

(** ** Routes *)

Definition upd_routes (f : list ip_route -> list ip_route) : K W unit :=
  kmodify (upd_low (fun l => set_ip (ifaces l) (f (routes l)) (ip_protocols l) (ip_id_counter l) l)).
Definition ip_route_add (network netmask nexthop : Z) iface : K W bool :=
  ok <- mem_alloc 20 ;;
  if negb ok then kret false
  else
    upd_routes (cons {| r_network := network; r_netmask := netmask; r_nexthop := nexthop; r_iface := iface |}) ;;
    kret true.
Definition matches (dst : Z) (r : ip_route) : bool := Z.land dst (r_netmask r) =? r_network r.
Fixpoint lookup_loop (dst : Z) (l : list ip_route) (candidate : option ip_route) : option ip_route :=
  match l with
  | [] => candidate
  | r :: l' =>
      lookup_loop dst l'
        (if matches dst r then
           match candidate with
           | None => Some r
           | Some c => if ntoh32 (r_netmask c) <? ntoh32 (r_netmask r) then Some r else candidate
           end
         else candidate)
  end.
Definition ip_route_lookup s (dst : Z) : option ip_route := lookup_loop dst (routes (low s)) None.
Definition ip_route_set_default_gateway iface (gateway : list Z) : K W Z :=
  let '(r, gw) := ip_addr_pton gateway 0 in
  if r =? -1 then kret (-1)
  else ok <- ip_route_add IP_ADDR_ANY IP_ADDR_ANY gw iface ;; kret (if ok then 0 else -1).
Definition ip_route_remove_for_iface iface : K W unit := upd_routes (filter (fun r => r_iface r <> iface)).
Definition ip_route_get_iface s (dst : Z) : option nat := r_iface <$> ip_route_lookup s dst.

(** ** Interfaces *)

Definition set_unicast (v : Z) (i : ip_iface) : ip_iface :=
  {| if_dev := if_dev i; if_family := if_family i; if_unicast := v; if_netmask := if_netmask i; if_broadcast := if_broadcast i |}.
Definition set_netmask (v : Z) (i : ip_iface) : ip_iface :=
  {| if_dev := if_dev i; if_family := if_family i; if_unicast := if_unicast i; if_netmask := v; if_broadcast := if_broadcast i |}.
Definition broadcast_of (unicast netmask : Z) : Z := Z.lor (Z.land unicast netmask) (u32 (Z.lnot netmask)).
Definition set_broadcast (i : ip_iface) : ip_iface :=
  {| if_dev := if_dev i; if_family := if_family i; if_unicast := if_unicast i; if_netmask := if_netmask i;
     if_broadcast := broadcast_of (if_unicast i) (if_netmask i) |}.
Definition ip_iface_reconfigure iface (unicast netmask gateway : list Z) : K W Z :=
  ip_route_remove_for_iface iface ;;
  s <- kget ;;
  let '(r, u) := ip_addr_pton unicast (if_unicast (ifof s iface)) in
  upd_net (upd_ifs (alter (set_unicast u) iface)) ;;
  if r =? -1 then kret (-1)
  else
    let '(r, m) := ip_addr_pton netmask (if_netmask (ifof s iface)) in
    upd_net (upd_ifs (alter (set_netmask m) iface)) ;;
    if r =? -1 then kret (-1)
    else
      upd_net (upd_ifs (alter set_broadcast iface)) ;;
      ok <- ip_route_add (Z.land u m) m IP_ADDR_ANY iface ;;
      if negb ok then kret (-1) else ip_route_set_default_gateway iface gateway.
(** [iface->next] and the device are set when it is registered. *)
Definition ip_iface_alloc (unicast netmask : list Z) : K W (option nat) :=
  ok <- mem_alloc 28 ;;
  if negb ok then kret None
  else
    let '(r, u) := ip_addr_pton unicast 0 in
    if r =? -1 then kret None
    else
      let '(r, m) := ip_addr_pton netmask 0 in
      if r =? -1 then kret None
      else
        s <- kget ;;
        upd_net (upd_ifs (fun l => l ++ [{| if_dev := 0; if_family := NET_IFACE_FAMILY_IP; if_unicast := u; if_netmask := m; if_broadcast := broadcast_of u m |}])) ;;
        kret (Some (length (ifs (net_of s)))).
Definition ip_iface_register dev iface : K W Z :=
  r <- net_device_add_iface dev iface ;;
  if r =? -1 then kret (-1)
  else
    s <- kget ;;
    let i := ifof s iface in
    ok <- ip_route_add (Z.land (if_unicast i) (if_netmask i)) (if_netmask i) IP_ADDR_ANY iface ;;
    if negb ok then kret (-1)
    else
      kmodify (upd_low (fun l => set_ip (iface :: ifaces l) (routes l) (ip_protocols l) (ip_id_counter l) l)) ;;
      kret 0.
Definition ip_iface_select s (a : Z) : option nat :=
  snd <$> list_find (fun i => if_unicast (ifof s i) = a) (ifaces (low s)).

(** ** Input *)

(** [call] is the call of [proto->handler]: data, length, source, destination, interface. *)
Definition ip_input (call : ip_handler -> list Z -> Z -> Z -> Z -> nat -> K W unit) (data : list Z) dev : K W unit :=
  let len := Z.of_nat (length data) in
  if len <? IP_HDR_SIZE_MIN then kret tt
  else if negb (Z.shiftr (getn 1 0 data) 4 =? IP_VERSION_IPV4) then kret tt
  else
    let hlen := Z.shiftl (Z.land (getn 1 0 data) 0x0f) 2 in
    if len <? hlen then kret tt
    else
      let total := ntoh16 (getn 2 2 data) in
      if len <? total then kret tt
      else if negb (cksum16 data hlen 0 =? 0) then kret tt
      else
        let offset := ntoh16 (getn 2 6 data) in
        if negb (Z.land offset 0x2000 =? 0) || negb (Z.land offset 0x1fff =? 0) then kret tt
        else
          s <- kget ;;
          match net_device_get_iface s dev NET_IFACE_FAMILY_IP with
          | None => kret tt
          | Some iface =>
              let src := getn 4 12 data in
              let dst := getn 4 16 data in
              if negb (dst =? if_unicast (ifof s iface)) && (negb (dst =? if_broadcast (ifof s iface)) && negb (dst =? IP_ADDR_BROADCAST)) then kret tt
              else
                match list_find (fun p => fst p = getn 1 9 data) (ip_protocols (low s)) with
                | Some (_, (_, h)) => call h (drop (Z.to_nat hlen) data) (u32 (total - hlen)) src dst iface
                | None => kret tt
                end
          end.

(** ** Output *)

Definition ip_output_device (turns : nat) iface (data : list Z) (nexthop_l2 : Z) : K W Z :=
  s <- kget ;;
  let i := ifof s iface in
  let d := devof s (if_dev i) in
  if negb (Z.land (d_flags d) NET_DEVICE_FLAG_NEED_ARP =? 0) then
    if (nexthop_l2 =? if_broadcast i) || (nexthop_l2 =? IP_ADDR_BROADCAST) then
      net_device_output (if_dev i) NET_PROTOCOL_TYPE_IP data (take (Z.to_nat (d_alen d)) (d_broadcast d))
    else
      r <- arp_resolve turns iface nexthop_l2 ;;
      match snd r with
      | Some ha => if fst r =? ARP_RESOLVE_FOUND then net_device_output (if_dev i) NET_PROTOCOL_TYPE_IP data ha else kret (-1)
      | None => kret (-1)
      end
  else net_device_output (if_dev i) NET_PROTOCOL_TYPE_IP data (repeat 0 16).
Definition ip_output_core (turns : nat) iface (protocol : Z) (data : list Z) (src dst nexthop id offset : Z) : K W Z :=
  if IP_TOTAL_SIZE_MAX <? 20 + Z.of_nat (length data) then ub "ip_output_core: buf overrun"
  else ip_output_device turns iface (ip_packet protocol data src dst id offset) nexthop.
Definition ip_generate_id : K W Z :=
  s <- kget ;;
  kmodify (upd_low (fun l => set_ip (ifaces l) (routes l) (ip_protocols l) (u16 (ip_id_counter l + 1)) l)) ;;
  kret (ip_id_counter (low s)).
Definition ip_output (turns : nat) (protocol : Z) (data : list Z) (src dst : Z) : K W Z :=
  if (src =? IP_ADDR_ANY) && (dst =? IP_ADDR_BROADCAST) then kret (-1)
  else
    s <- kget ;;
    match ip_route_lookup s dst with
    | None => kret (-1)
    | Some route =>
        let i := ifof s (r_iface route) in
        if negb (src =? IP_ADDR_ANY) && negb (src =? if_unicast i) then kret (-1)
        else
          let nexthop := if negb (r_nexthop route =? IP_ADDR_ANY) then r_nexthop route else dst in
          if d_mtu (devof s (if_dev i)) <? IP_HDR_SIZE_MIN + Z.of_nat (length data) then kret (-1)
          else
            id <- ip_generate_id ;;
            r <- ip_output_core turns (r_iface route) protocol data (if_unicast i) dst nexthop id 0 ;;
            if r =? -1 then kret (-1) else kret (Z.of_nat (length data))
    end.

Definition ip_protocol_register (type : Z) (handler : ip_handler) : K W Z :=
  s <- kget ;;
  if bool_decide (Exists (fun p => fst p = type) (ip_protocols (low s))) then kret (-1)
  else
    ok <- mem_alloc 28 ;;
    if negb ok then kret (-1)
    else
      kmodify (upd_low (fun l => set_ip (ifaces l) (routes l) ((type, handler) :: ip_protocols l) (ip_id_counter l) l)) ;;
      kret 0.
Definition ip_init : K W Z :=
  r <- net_protocol_register NET_PROTOCOL_TYPE_IP fp_ip_input ;; if r =? -1 then kret (-1) else kret 0.

(** ** The wired interface (driver/sirpair_e1000.c) *)

Definition addr_text (a : list Z) : list Z := default [] (vsnprintf 20 addr_format (AInt <$> take 4 a)).
(** The device, for [sirpair_eth_dev], when it succeeds. *)
Definition sirpair_e1000_register_iface (mac ip mask gw : list Z) : K W (option nat) :=
  dev <- net_device_alloc (sirpair_e1000_setup mac) ;;
  match dev with
  | None => kret None
  | Some dev =>
      r <- net_device_register dev ;;
      if r <? 0 then kret None
      else
        iface <- ip_iface_alloc (addr_text ip) (addr_text mask) ;;
        match iface with
        | None => kret None
        | Some iface =>
            r <- ip_iface_register dev iface ;;
            if r <? 0 then kret None
            else
              r <- ip_route_set_default_gateway iface (addr_text gw) ;;
              kret (if r <? 0 then None else Some dev)
        end
  end.
Definition sirpair_e1000_sync_ndev_cfg (eth : option nat) (mac ip mask gw : list Z) : K W Z :=
  match eth with
  | None => dev <- sirpair_e1000_register_iface mac ip mask gw ;; kret (match dev with Some _ => 0 | None => -1 end)
  | Some dev =>
      s <- kget ;;
      match net_device_get_iface s dev NET_IFACE_FAMILY_IP with
      | None => kret (-1)
      | Some iface => ip_iface_reconfigure iface (addr_text ip) (addr_text mask) (addr_text gw)
      end
  end.
End Ip.

(** ** Routes *)

Lemma lookup_loop_spec dst l c :
  match lookup_loop dst l c with
  | Some r => ((r ∈ l /\ matches dst r = true) \/ c = Some r) /\
      (forall r', r' ∈ l -> matches dst r' = true -> ntoh32 (r_netmask r') <= ntoh32 (r_netmask r)) /\
      (forall c', c = Some c' -> ntoh32 (r_netmask c') <= ntoh32 (r_netmask r))
  | None => c = None /\ forall r', r' ∈ l -> matches dst r' = false
  end.
Proof.
  revert c. induction l as [|r l IH]; intros c; cbn [lookup_loop].
  - destruct c as [c|]; [|split; [done|]; intros r' Hr; inversion Hr]. split; [by right|]. split; [intros r' Hr; inversion Hr|]. intros c' [= ->]. lia.
  - match goal with |- context [lookup_loop dst l ?x] => specialize (IH x); destruct (lookup_loop dst l x) as [b|] end.
    + destruct IH as (Hin & Hl & Hc). destruct (matches dst r) eqn:Em.
      * assert (Hr : ntoh32 (r_netmask r) <= ntoh32 (r_netmask b)).
        { destruct c as [c|]; [|by apply Hc]. destruct (Z.ltb_spec (ntoh32 (r_netmask c)) (ntoh32 (r_netmask r))); [by apply Hc|]. specialize (Hc c eq_refl). lia. }
        split; [|split].
        -- destruct Hin as [[? ?]|E]; [left; split; [by right|done]|]. destruct c as [c|]; [destruct (_ <? _)|]; simplify_eq; auto; (left; split; [by left|done]).
        -- intros r' [->|Hr']%elem_of_cons Hm; [done|]. by apply Hl.
        -- intros c' ->. destruct (Z.ltb_spec (ntoh32 (r_netmask c')) (ntoh32 (r_netmask r))); [lia|]. by apply Hc.
      * split; [|split; [|done]].
        -- destruct Hin as [[? ?]|?]; [left; split; [by right|done]|by right].
        -- intros r' [->|Hr']%elem_of_cons Hm; [congruence|]. by apply Hl.
    + destruct IH as [Hn Hl]. destruct (matches dst r) eqn:Em; [by destruct c as [c|]; [destruct (_ <? _)|]|].
      split; [done|]. intros r' [->|Hr']%elem_of_cons; [done|]. by apply Hl.
Qed.

(** C36. The route to a destination is the most specific one: ip_route_lookup
    returns a registered route whose network holds the destination, with a
    mask that is the longest (greatest as a number) of all such routes, and
    finds none only when no network holds the destination. *)
Theorem route_is_longest {N} (s : world N) dst :
  match ip_route_lookup s dst with
  | Some r => r ∈ routes (low s) /\ matches dst r = true /\
      forall r', r' ∈ routes (low s) -> matches dst r' = true -> ntoh32 (r_netmask r') <= ntoh32 (r_netmask r)
  | None => forall r, r ∈ routes (low s) -> matches dst r = false
  end.
Proof.
  unfold ip_route_lookup. pose proof (lookup_loop_spec dst (routes (low s)) None) as Hl.
  destruct (lookup_loop _ _ _) as [r|]; [|by apply Hl]. destruct Hl as ([[? ?]|?] & Hm & _); done.
Qed.

(** ** Packets *)

(** The fields of a packet as [ip_input] reads them. *)
Lemma header_fields total id protocol src dst rest : 0 <= total < 2 ^ 16 -> byte protocol -> 0 <= src < 2 ^ 32 -> 0 <= dst < 2 ^ 32 ->
  let m := ip_header total id 0 protocol src dst ++ rest in
  getn 1 0 m = 69 /\ ntoh16 (getn 2 2 m) = total /\ ntoh16 (getn 2 6 m) = 0 /\ getn 1 9 m = protocol /\ getn 4 12 m = src /\ getn 4 16 m = dst /\
  drop 20 m = rest.
Proof.
  intros Ht Hp Hs Hd. unfold ip_header. set (sum := cksum16 _ _ _). clearbody sum. cbv zeta. pose proof (hton16_range total).
  split; [done|]. split; [transitivity (ntoh16 (le_dec (le_enc 2 (hton16 total)))); [done|]; by rewrite field_dec, ntoh16_hton16|].
  split; [done|]. split; [transitivity (protocol + 256 * 0); [done|lia]|]. split; [by apply (field_dec 4)|]. split; [by apply (field_dec 4)|done].
Qed.
Lemma cksum16_app l rest init : Z.of_nat (length l) <= 65535 -> cksum16 (l ++ rest) (Z.of_nat (length l)) init = cksum16 l (Z.of_nat (length l)) init.
Proof. intros Hl. unfold cksum16. rewrite (u16_small (Z.of_nat (length l))) by lia. by rewrite cksum_loop_take, take_app_length. Qed.
(** The checksum of the header is verified, whatever follows it. *)
Lemma header_verifies total id offset protocol src dst rest : byte protocol ->
  cksum16 (ip_header total id offset protocol src dst ++ rest) 20 0 = 0.
Proof.
  intros Hp. change 20 with (Z.of_nat (length (ip_header total id offset protocol src dst))). rewrite cksum16_app by (cbn [length ip_header ip_hdr_front app le_enc]; lia).
  change (Z.of_nat (length (ip_header total id offset protocol src dst))) with 20.
  apply (cksum16_verifies (ip_hdr_front total id offset protocol) (le_enc 4 src ++ le_enc 4 dst) 0).
  - unfold ip_hdr_front. repeat (apply Forall_app; split); try apply le_enc_bytes; repeat (constructor; try done; try by vm_compute).
  - by exists 5%nat.
  - cbn. lia.
  - lia.
Qed.

Section Delivery.
Context {N : Type} `{Nic N} `{Handlers N} `{Drivers N}.
Implicit Types (s : world N) (call : ip_handler -> list Z -> Z -> Z -> Z -> nat -> K (world N) unit).

(** A host that takes packets for [dst] on device [dev] and has handler [h]. *)
Record takes s (dev iface : nat) (dst protocol : Z) (h : ip_handler) : Prop := {
  tk_iface : net_device_get_iface s dev NET_IFACE_FAMILY_IP = Some iface;
  tk_dst : dst = if_unicast (ifof s iface) \/ dst = if_broadcast (ifof s iface) \/ dst = IP_ADDR_BROADCAST;
  tk_handler : exists k, list_find (fun p => fst p = protocol) (ip_protocols (low s)) = Some (k, (protocol, h));
}.

Lemma input_header call s dev iface total id protocol src dst rest h : takes s dev iface dst protocol h ->
  0 <= total < 2 ^ 16 -> byte protocol -> 0 <= src < 2 ^ 32 -> 0 <= dst < 2 ^ 32 -> total <= 20 + Z.of_nat (length rest) ->
  ip_input call (ip_header total id 0 protocol src dst ++ rest) dev s = call h rest (u32 (total - 20)) src dst iface s.
Proof.
  intros [Hif Hdst [k Hk]] Ht Hp Hs Hd Hl. destruct (header_fields total id protocol src dst rest Ht Hp Hs Hd) as (F0 & F2 & F6 & F9 & F12 & F16 & Fd).
  unfold ip_input. rewrite F0, F2, F6, F9, F12, F16, length_app. change (length (ip_header _ _ _ _ _ _)) with 20%nat. change (Z.shiftl (Z.land 69 15) 2) with 20. rewrite header_verifies by done.
  destruct (Z.ltb_spec (Z.of_nat (20 + length rest)) IP_HDR_SIZE_MIN); [unfold IP_HDR_SIZE_MIN in *; lia|].
  destruct (Z.ltb_spec (Z.of_nat (20 + length rest)) 20); [lia|]. destruct (Z.ltb_spec (Z.of_nat (20 + length rest)) total); [lia|].
  change (69 ≫ 4 =? IP_VERSION_IPV4) with true. change (Z.land 0 8192) with 0. change (Z.land 0 8191) with 0. cbn [negb orb Z.eqb].
  unfold kbind, kget. rewrite Hif, Hk.
  assert (negb (dst =? if_unicast (ifof s iface)) && (negb (dst =? if_broadcast (ifof s iface)) && negb (dst =? IP_ADDR_BROADCAST)) = false) as ->.
  { destruct Hdst as [E|[E|E]]; rewrite E, Z.eqb_refl; cbn [negb]; by rewrite ?andb_false_r. }
  change (Z.to_nat 20) with 20%nat. by rewrite Fd.
Qed.

Lemma packet_delivered call s dev iface id protocol src dst data pad h : takes s dev iface dst protocol h ->
  byte protocol -> 0 <= src < 2 ^ 32 -> 0 <= dst < 2 ^ 32 -> 20 + Z.of_nat (length data) <= IP_TOTAL_SIZE_MAX ->
  ip_input call (ip_packet protocol data src dst id 0 ++ pad) dev s = call h (data ++ pad) (Z.of_nat (length data)) src dst iface s.
Proof.
  intros Ht Hp Hs Hd Hl. unfold IP_TOTAL_SIZE_MAX in Hl. unfold ip_packet. rewrite <- app_assoc. rewrite u16_small by lia.
  rewrite (input_header call s dev iface _ id protocol src dst (data ++ pad) h) by (rewrite ?length_app; done || lia).
  f_equal. rewrite u32_small by lia. lia.
Qed.

(** C21. Packets reach the protocol they are for: what ip_output_core makes of
    any data, received with any padding behind it by a host that has the
    destination address, passes every check of ip_input, and the handler of
    the protocol is called with the addresses, the data and its length. *)
Theorem ip_delivers call s dev iface id protocol src dst data pad h : takes s dev iface dst protocol h ->
  byte protocol -> 0 <= src < 2 ^ 32 -> 0 <= dst < 2 ^ 32 -> 20 + Z.of_nat (length data) <= IP_TOTAL_SIZE_MAX ->
  ip_input call (ip_packet protocol data src dst id 0 ++ pad) dev s = call h (data ++ pad) (Z.of_nat (length data)) src dst iface s.
Proof. apply packet_delivered. Qed.

(** The total length is not checked against the header: a packet whose
    total length field is less than the header's 20 bytes is passed to its
    protocol with a length near 4 GB. *)
Theorem short_total_wraps call s dev iface id protocol total src dst data h : takes s dev iface dst protocol h ->
  byte protocol -> 0 <= src < 2 ^ 32 -> 0 <= dst < 2 ^ 32 -> 0 <= total < 20 ->
  ip_input call (ip_header total id 0 protocol src dst ++ data) dev s = call h data (2 ^ 32 - 20 + total) src dst iface s.
Proof.
  intros Ht Hp Hs Hd Hl. rewrite (input_header call s dev iface _ id protocol src dst data h) by (done || lia).
  f_equal. unfold u32. rewrite <- (Z.mod_small (2 ^ 32 - 20 + total) (2 ^ 32)) by lia. rewrite <- (Z_mod_plus_full (total - 20) 1). f_equal. lia.
Qed.
End Delivery.

(** ** Addresses in text and back *)

Lemma print_d size n f s v ap : 0 <= v < 2 ^ 31 -> Z.of_nat (length s) < size - 1 -> Z.of_nat (length s + length (dec v)) <= size - 1 ->
  fmt_loop size (S n) (37 :: 100 :: f) s (AInt v :: ap) = fmt_loop size n f (s ++ dec v) ap.
Proof.
  intros Hv Hr Hl. cbn [fmt_loop]. rewrite (proj2 (room_spec size s)) by lia.
  transitivity (fmt_loop size n f (fmt_int10 size s (s32 v)) ap); [done|].
  rewrite s32_small by lia. unfold fmt_int10. destruct (Z.ltb_spec v 0); [lia|]. unfold fmt_uint10. fold (dec v). by rewrite emit_all.
Qed.
Lemma print_dot size n f s ap : Z.of_nat (length s) < size - 1 -> fmt_loop size (S n) (46 :: f) s ap = fmt_loop size n f (s ++ [46]) ap.
Proof. intros Hr. cbn [fmt_loop]. by rewrite (proj2 (room_spec size s)) by lia. Qed.
Lemma dec_nonempty v r : 0 <= v -> length r <> length (dec v ++ r).
Proof. intros Hv. destruct (dec_head v Hv) as (c & l & -> & _). rewrite length_app. cbn. lia. Qed.
Lemma read_dot k idx v r n : 0 <= v <= 255 -> pton_loop (S k) idx (dec v ++ 46 :: r) n = pton_loop k (idx + 1) r (<[idx := v]> n).
Proof.
  intros Hv. cbn [pton_loop]. rewrite strtol_dec by (done || lia). zcases; try lia. cbn [orb].
  rewrite bool_decide_eq_false_2 by (apply dec_nonempty; lia). done.
Qed.
Lemma read_end idx v n : 0 <= v <= 255 -> pton_loop 0 idx (dec v) n = (0, <[idx := v]> n).
Proof.
  intros Hv. cbn [pton_loop]. pose proof (strtol_dec v [] ltac:(lia) I) as E. rewrite app_nil_r in E. rewrite E. zcases; try lia. cbn [orb].
  rewrite bool_decide_eq_false_2; [done|]. rewrite <- (app_nil_r (dec v)) at 1. apply dec_nonempty. lia.
Qed.

(** The text of an address has at most 15 characters and is read back as the
    same address. *)
Theorem ip_addr_roundtrip n n0 : 0 <= n < 2 ^ 32 ->
  exists p, ip_addr_ntop n 16 = Some p /\ ip_addr_pton p n0 = (0, n).
Proof.
  intros Hn. pose proof (le_enc_bytes 4 n) as Hb. pose proof (le_enc_len 4 n) as Hl. pose proof (field_dec 4 n Hn) as Hd. unfold ip_addr_ntop, vsnprintf, addr_format.
  destruct (le_enc 4 n) as [|a [|b [|c [|d [|]]]]]; try discriminate Hl.
  unfold bytes in Hb. rewrite !Forall_cons in Hb. unfold byte in Hb. destruct Hb as (Ba & Bb & Bc & Bd & _).
  pose proof (dec_length a 3 ltac:(cbn; lia) ltac:(lia)). pose proof (dec_length b 3 ltac:(cbn; lia) ltac:(lia)).
  pose proof (dec_length c 3 ltac:(cbn; lia) ltac:(lia)). pose proof (dec_length d 3 ltac:(cbn; lia) ltac:(lia)).
  eexists. split.
  - cbn [Z.eqb length fmap list_fmap]. do 3 rewrite print_d, print_dot by (rewrite ?length_app; cbn [length]; lia).
    rewrite print_d by (rewrite ?length_app; cbn [length]; lia). reflexivity.
  - unfold ip_addr_pton. rewrite <- !app_assoc. cbn [app]. rewrite !read_dot, read_end by lia.
    pose proof (le_enc_len 4 n0) as L0. destruct (le_enc 4 n0) as [|? [|? [|? [|? [|]]]]]; try done. cbn [Nat.add insert list_insert]. by rewrite Hd.
Qed.
