(* ===== verification/Udp.v ===== *)
(** * kernel/microps: udp.c and icmp.c

    Datagram sockets and echo.  A datagram sent by one host is received by the
    other with its data and its sender, in the order of arrival
    ([datagrams_in_order]); an echo request is answered with its own data
    ([echo_answered]). *)

From Stdlib Require Import ZArith Lia.
From S2P Require Import Prelude Bytes NetUtil Pipe Fmt Tcp Net Ether Arp Ip.

Definition UDP_PCB_SIZE : nat := 16.
Definition UDP_SOURCE_PORT_MIN : Z := 49152.
Definition UDP_SOURCE_PORT_MAX : Z := 65535.
Definition UDP_HDR_SIZE : Z := 8.

Definition udp_pcb0 : udp_pcb := {| u_state := UDP_FREE; u_local := endpoint0; u_queue := queue_init; u_ctx := sched_ctx_init |}.
Definition set_u_state v (p : udp_pcb) : udp_pcb := {| u_state := v; u_local := u_local p; u_queue := u_queue p; u_ctx := u_ctx p |}.
Definition set_u_local v (p : udp_pcb) : udp_pcb := {| u_state := u_state p; u_local := v; u_queue := u_queue p; u_ctx := u_ctx p |}.
Definition set_u_queue v (p : udp_pcb) : udp_pcb := {| u_state := u_state p; u_local := u_local p; u_queue := v; u_ctx := u_ctx p |}.
Definition set_u_ctx v (p : udp_pcb) : udp_pcb := {| u_state := u_state p; u_local := u_local p; u_queue := u_queue p; u_ctx := v |}.

Definition udp_hdr_front (src dst total : Z) : list Z := le_enc 2 src ++ le_enc 2 dst ++ le_enc 2 (hton16 total).
Definition udp_message (src dst : ip_endpoint) (data : list Z) : list Z :=
  let total := u16 (UDP_HDR_SIZE + Z.of_nat (length data)) in
  let front := udp_hdr_front (port src) (port dst) total in
  let psum := u16 (Z.lnot (cksum16 (pseudo_hdr (addr src) (addr dst) IP_PROTOCOL_UDP total) 12 0)) in
  let sum := cksum16 (front ++ le_enc 2 0 ++ data) total psum in
  front ++ le_enc 2 sum ++ data.

Section Udp.
Context {N : Type} `{Nic N} `{Handlers N} `{Drivers N}.
Abbreviation W := (world N).
Implicit Types (s : W) (i : nat).

Definition upcbof s i : udp_pcb := nth i (udp_pcbs (low s)) udp_pcb0.
Definition uwr i (f : udp_pcb -> udp_pcb) : K W unit := kmodify (upd_low (fun l => set_udp (alter f i (udp_pcbs l)) (udp_wakes l) l)).
Definition uwake i : K W unit := kmodify (upd_low (fun l => set_udp (udp_pcbs l) (udp_wakes l ++ [i]) l)).

(** ** Control blocks *)

Definition udp_pcb_alloc : K W (option nat) :=
  s <- kget ;;
  match list_find (fun p => u_state p = UDP_FREE) (udp_pcbs (low s)) with
  | Some (i, _) => uwr i (set_u_state UDP_OPEN) ;; uwr i (set_u_ctx sched_ctx_init) ;; kret (Some i)
  | None => kret None
  end.
(** [sched_ctx_destroy] always succeeds. *)
Definition udp_pcb_release i : K W unit :=
  uwr i (set_u_state UDP_CLOSING) ;;
  uwr i (set_u_state UDP_FREE) ;;
  uwr i (set_u_local endpoint0) ;;
  uwr i (fun p => set_u_queue {| entries := []; num := num (u_queue p) -u Z.of_nat (length (entries (u_queue p))) |} p).
Definition u_accepts (a port_ : Z) (p : udp_pcb) : bool :=
  bool_decide (u_state p = UDP_OPEN) && (((addr (u_local p) =? IP_ADDR_ANY) || (addr (u_local p) =? a)) && (port (u_local p) =? port_)).
Definition udp_pcb_select s (a port_ : Z) : option nat := fst <$> list_find (fun p => u_accepts a port_ p = true) (udp_pcbs (low s)).
Definition udp_pcb_get s (id : Z) : option nat :=
  if (id <? 0) || (Z.of_nat UDP_PCB_SIZE <=? id) then None
  else if bool_decide (u_state (upcbof s (Z.to_nat id)) = UDP_OPEN) then Some (Z.to_nat id) else None.
Definition udp_pcb_id i : Z := Z.of_nat i.

(** ** Datagrams *)

Definition udp_input (data : list Z) (len src dst : Z) : K W unit :=
  if len <? UDP_HDR_SIZE then kret tt
  else if negb (len =? ntoh16 (getn 2 4 data)) then kret tt
  else
    let psum := u16 (Z.lnot (cksum16 (pseudo_hdr src dst IP_PROTOCOL_UDP (u16 len)) 12 0)) in
    sum <- kcksum16 data len psum ;;
    if negb (sum =? 0) then kret tt
    else
      s <- kget ;;
      match udp_pcb_select s dst (getn 2 2 data) with
      | None => kret tt (* port is not in use *)
      | Some i =>
          ok <- mem_alloc (12 + (len - UDP_HDR_SIZE)) ;;
          if negb ok then kret tt
          else
            cell <- mem_alloc 8 ;;
            s <- kget ;;
            match queue_push cell (u_queue (upcbof s i)) ({| addr := src; port := getn 2 0 data |}, slice 8 (Z.to_nat (u16 (len - UDP_HDR_SIZE))) data) with
            | None => kret tt
            | Some q => uwr i (set_u_queue q) ;; uwake i
            end
      end.
Definition udp_output (turns : nat) (src dst : ip_endpoint) (data : list Z) : K W Z :=
  if IP_PAYLOAD_SIZE_MAX - UDP_HDR_SIZE <? Z.of_nat (length data) then kret (-1)
  else
    r <- Ip.ip_output turns IP_PROTOCOL_UDP (udp_message src dst data) (addr src) (addr dst) ;;
    if r =? -1 then kret (-1) else kret (Z.of_nat (length data)).

Fixpoint udp_interrupt (l : list nat) : K W unit :=
  match l with
  | [] => kret tt
  | i :: l' =>
      s <- kget ;;
      (if bool_decide (u_state (upcbof s i) = UDP_OPEN) then
         uwr i (fun p => set_u_ctx (sched_interrupt_ctx (u_ctx p)) p) ;; uwake i
       else kret tt) ;;
      udp_interrupt l'
  end.
Definition udp_event_handler : K W unit := udp_interrupt (seq 0 UDP_PCB_SIZE).
Definition udp_init : K W Z :=
  r <- ip_protocol_register IP_PROTOCOL_UDP fp_udp_input ;;
  if r =? -1 then kret (-1) else net_event_subscribe fp_udp_event ;; kret 0.

(** ** User commands *)

Definition udp_open : K W Z :=
  i <- udp_pcb_alloc ;; kret (match i with Some i => udp_pcb_id i | None => -1 end).
Definition udp_close (id : Z) : K W Z :=
  s <- kget ;;
  match udp_pcb_get s id with
  | None => kret (-1)
  | Some i => udp_pcb_release i ;; kret 0
  end.
Definition udp_bind (id : Z) (lo : ip_endpoint) : K W Z :=
  s <- kget ;;
  match udp_pcb_get s id with
  | None => kret (-1)
  | Some i =>
      match udp_pcb_select s (addr lo) (port lo) with
      | Some _ => kret (-1)
      | None => uwr i (set_u_local lo) ;; kret 0
      end
  end.
(** The first port from [p] on, [n] of them, that nobody accepts. *)
Fixpoint udp_pick_port s (a : Z) (n : nat) (p : Z) : option Z :=
  match n with
  | O => None
  | S n' => match udp_pcb_select s a (hton16 p) with None => Some (hton16 p) | Some _ => udp_pick_port s a n' (p + 1) end
  end.
Definition udp_sendto (turns : nat) (id : Z) (data : list Z) (fo : ip_endpoint) : K W Z :=
  s <- kget ;;
  match udp_pcb_get s id with
  | None => kret (-1)
  | Some i =>
      let lo := u_local (upcbof s i) in
      match (if addr lo =? IP_ADDR_ANY then (fun f => if_unicast (ifof s f)) <$> Ip.ip_route_get_iface s (addr fo) else Some (addr lo)) with
      | None => kret (-1)
      | Some a =>
          match (if port lo =? 0 then udp_pick_port s a (Z.to_nat (UDP_SOURCE_PORT_MAX - UDP_SOURCE_PORT_MIN + 1)) UDP_SOURCE_PORT_MIN else Some (port lo)) with
          | None => kret (-1)
          | Some p =>
              uwr i (fun q => set_u_local {| addr := addr (u_local q); port := p |} q) ;;
              udp_output turns {| addr := a; port := p |} fo data
          end
      end
  end.

(** A datagram (its length as cut to [size], sender, data), or a sleep. *)
Definition recv_loop (killed : bool) i (size : Z) : K W (segment (Z * option (ip_endpoint * list Z)) nat) :=
  s <- kget ;;
  match queue_pop (u_queue (upcbof s i)) with
  | Some ((fo, data), q) =>
      uwr i (set_u_queue q) ;;
      let len := Z.min size (Z.of_nat (length data)) in
      kret (Return (len, Some (fo, take (Z.to_nat len) data)))
  | None =>
      match sched_sleep_enter killed (u_ctx (upcbof s i)) with
      | None => set_errno EINTR ;; kret (Return (-1, None))
      | Some c => uwr i (set_u_ctx c) ;; kret (Wait i)
      end
  end.
Definition udp_recvfrom (killed : bool) (id size : Z) : K W (segment (Z * option (ip_endpoint * list Z)) nat) :=
  s <- kget ;;
  match udp_pcb_get s id with
  | None => kret (Return (-1, None))
  | Some i => recv_loop killed i size
  end.
Definition recvfrom_resume (killed : bool) i (size : Z) : K W (segment (Z * option (ip_endpoint * list Z)) nat) :=
  s <- kget ;;
  let '(ok, c) := sched_sleep_leave killed (u_ctx (upcbof s i)) in
  uwr i (set_u_ctx c) ;;
  if negb ok then set_errno EINTR ;; kret (Return (-1, None))
  else if bool_decide (u_state (upcbof s i) = UDP_CLOSING) then udp_pcb_release i ;; kret (Return (-1, None))
  else recv_loop killed i size.
Definition udp_sock_has_datagram (id : Z) : K W Z :=
  s <- kget ;;
  match udp_pcb_get s id with
  | None => kret (-1)
  | Some i => kret (match queue_peek (u_queue (upcbof s i)) with Some _ => 1 | None => 0 end)
  end.

(** ** Echo (icmp.c) *)

Definition ICMP_TYPE_ECHOREPLY : Z := 0.
Definition ICMP_TYPE_ECHO : Z := 8.
Definition icmp_message (type code values : Z) (data : list Z) : list Z :=
  let sum := cksum16 ([type; code] ++ le_enc 2 0 ++ le_enc 4 values ++ data) (8 + Z.of_nat (length data)) 0 in
  [type; code] ++ le_enc 2 sum ++ le_enc 4 values ++ data.
Definition icmp_output (turns : nat) (type code values : Z) (data : list Z) (src dst : Z) : K W Z :=
  if IP_PAYLOAD_SIZE_MAX <? 8 + Z.of_nat (length data) then ub "icmp_output: buf overrun"
  else Ip.ip_output turns IP_PROTOCOL_ICMP (icmp_message type code values data) src dst.
(** [on_reply ident seq] is [sirpair_on_icmp_echoreply]. *)
Definition icmp_input (on_reply : Z -> Z -> K W unit) (turns : nat) (data : list Z) (len src dst : Z) (iface : nat) : K W unit :=
  if len <? 8 then kret tt
  else
    sum <- kcksum16 data len 0 ;;
    if negb (sum =? 0) then kret tt
    else
      let type := getn 1 0 data in
      if type =? ICMP_TYPE_ECHOREPLY then on_reply (ntoh16 (getn 2 4 data)) (ntoh16 (getn 2 6 data))
      else if type =? ICMP_TYPE_ECHO then
        s <- kget ;;
        let dst := if negb (dst =? if_unicast (ifof s iface)) then if_unicast (ifof s iface) else dst in
        if Z.of_nat (length data) <? len then ub "icmp_input: read past the packet"
        else icmp_output turns ICMP_TYPE_ECHOREPLY (getn 1 1 data) (getn 4 4 data) (slice 8 (Z.to_nat (len - 8)) data) dst src ;; kret tt
      else kret tt.
Definition icmp_init : K W Z :=
  r <- ip_protocol_register IP_PROTOCOL_ICMP fp_icmp_input ;; if r =? -1 then kret (-1) else kret 0.
End Udp.

(** ** Datagrams on the wire *)

Lemma udp_message_length src dst data : length (udp_message src dst data) = (8 + length data)%nat.
Proof. unfold udp_message, udp_hdr_front. rewrite !length_app, !le_enc_len. reflexivity. Qed.
Lemma udp_fields src dst data pad : 0 <= port src < 2 ^ 16 -> 0 <= port dst < 2 ^ 16 -> UDP_HDR_SIZE + Z.of_nat (length data) <= 65515 ->
  let m := udp_message src dst data ++ pad in
  getn 2 0 m = port src /\ getn 2 2 m = port dst /\ ntoh16 (getn 2 4 m) = UDP_HDR_SIZE + Z.of_nat (length data) /\ slice 8 (length data) m = data.
Proof.
  intros Hs Hd Hl. unfold UDP_HDR_SIZE in *. unfold udp_message, UDP_HDR_SIZE. rewrite u16_small by lia. set (sum := cksum16 _ _ _). clearbody sum. cbv zeta.
  pose proof (hton16_range (8 + Z.of_nat (length data))).
  split; [by apply (field_dec 2)|]. split; [by apply (field_dec 2)|].
  split; [transitivity (ntoh16 (le_dec (le_enc 2 (hton16 (8 + Z.of_nat (length data)))))); [done|]; rewrite field_dec by done; apply ntoh16_hton16; lia|].
  transitivity (take (length data) (data ++ pad)); [done|]. apply take_app_length.
Qed.
Lemma udp_verifies {S} src dst data pad : bytes data -> UDP_HDR_SIZE + Z.of_nat (length data) <= 65515 ->
  let len := UDP_HDR_SIZE + Z.of_nat (length data) in
  kcksum16 (S := S) (udp_message src dst data ++ pad) len (u16 (Z.lnot (cksum16 (pseudo_hdr (addr src) (addr dst) IP_PROTOCOL_UDP (u16 len)) 12 0))) = kret 0.
Proof.
  intros Hd Hl len. unfold kcksum16, len, UDP_HDR_SIZE in *. set (ps := u16 (Z.lnot _)). rewrite length_app, udp_message_length, u16_small by lia.
  destruct (Z.leb_spec (8 + Z.of_nat (length data)) (Z.of_nat (8 + length data + length pad))); [|lia]. f_equal.
  replace (8 + Z.of_nat (length data)) with (Z.of_nat (length (udp_message src dst data))) by (rewrite udp_message_length; lia).
  rewrite cksum16_app by (rewrite udp_message_length; lia). rewrite udp_message_length.
  assert (Hps : 0 <= ps <= 65535) by apply psum_range. unfold udp_message, UDP_HDR_SIZE. fold ps.
  pose proof (cksum16_verifies (udp_hdr_front (port src) (port dst) (u16 (8 + Z.of_nat (length data)))) data ps) as Hv. cbv zeta in Hv.
  rewrite !length_app, !le_enc_len in Hv. change (length (udp_hdr_front _ _ _)) with 6%nat in Hv.
  replace (Z.of_nat (8 + length data)) with (Z.of_nat (6 + (2 + length data))) by lia.
  rewrite (u16_small (8 + Z.of_nat (length data))) in * by lia. replace (8 + Z.of_nat (length data)) with (Z.of_nat (6 + (2 + length data))) in * by lia. apply Hv; [|by exists 3%nat|lia|done].
  apply Forall_app. split; [|done]. unfold udp_hdr_front. repeat (apply Forall_app; split); apply le_enc_bytes.
Qed.

Section Datagrams.
Context {N : Type} `{Nic N} `{Handlers N} `{Drivers N}.
Abbreviation W := (world N).
Implicit Types (s : W) (i : nat).

(** A heap with room. *)
Definition heap_ok : Prop := forall n s, mem_alloc n s = Done true s.
(** The datagrams waiting at a socket, and what an arrival makes of them. *)
Definition waiting s i : list (ip_endpoint * list Z) := entries (u_queue (upcbof s i)).
Definition pushed i src data s : W :=
  upd_low (fun l => set_udp (alter (fun p => set_u_queue {| entries := entries (u_queue p) ++ [(src, data)]; num := num (u_queue p) +u 1 |} p) i (udp_pcbs l)) (udp_wakes l ++ [i]) l) s.

Lemma select_open s a p i : udp_pcb_select s a p = Some i -> exists b, udp_pcbs (low s) !! i = Some b /\ u_accepts a p b = true.
Proof. unfold udp_pcb_select. intros ([j b] & Hf & ->)%fmap_Some. apply list_find_Some in Hf as (Hl & Ha & _). by exists b. Qed.

Lemma udp_input_message s src dst data pad : heap_ok -> 0 <= port src < 2 ^ 16 -> 0 <= port dst < 2 ^ 16 -> bytes data -> UDP_HDR_SIZE + Z.of_nat (length data) <= 65515 ->
  udp_input (udp_message src dst data ++ pad) (UDP_HDR_SIZE + Z.of_nat (length data)) (addr src) (addr dst) s =
  Done tt (match udp_pcb_select s (addr dst) (port dst) with None => s | Some i => pushed i src data s end).
Proof.
  intros Hh Hs Hd Hb Hl. destruct (udp_fields src dst data pad Hs Hd Hl) as (F0 & F2 & F4 & F8). unfold udp_input.
  destruct (Z.ltb_spec (UDP_HDR_SIZE + Z.of_nat (length data)) UDP_HDR_SIZE); [lia|].
  rewrite F0, F2, F4, Z.eqb_refl. cbn [negb]. pose proof (udp_verifies (S := W) src dst data pad Hb Hl) as Hv. cbv zeta in Hv. rewrite Hv.
  replace (Z.to_nat (u16 (UDP_HDR_SIZE + Z.of_nat (length data) - UDP_HDR_SIZE))) with (length data) by (unfold UDP_HDR_SIZE in *; rewrite u16_small; lia).
  rewrite F8. unfold kbind, kret, kget. cbn [Z.eqb negb]. destruct (udp_pcb_select s (addr dst) (port dst)) as [i|] eqn:Ei; [|done].
  rewrite Hh. cbn [negb]. rewrite Hh. cbn [queue_push]. destruct src as [sa sp]. unfold uwr, uwake, kmodify, pushed, upd_low, set_udp. cbn. do 3 f_equal.
  destruct (select_open _ _ _ _ Ei) as (b & Hi & _). rewrite !(alter_insert _ i _ _ Hi). f_equal. unfold set_u_queue, upcbof. by rewrite (nth_lookup_Some _ _ _ _ Hi).
Qed.

Lemma waiting_pushed s i src data : (i < length (udp_pcbs (low s)))%nat -> waiting (pushed i src data s) i = waiting s i ++ [(src, data)].
Proof.
  intros Hi. apply lookup_lt_is_Some in Hi as [p Hp]. unfold waiting, upcbof, pushed. cbn.
  rewrite (nth_lookup_Some _ _ _ (set_u_queue {| entries := entries (u_queue p) ++ [(src, data)]; num := num (u_queue p) +u 1 |} p)) by by rewrite list_lookup_alter_eq, Hp.
  by rewrite (nth_lookup_Some _ _ _ _ Hp).
Qed.

(** ** A socket is a queue of datagrams *)

Inductive dgram_io := Dgram (src : ip_endpoint) (data : list Z) | Recv (size : Z).
Definition dgram_step (i : nat) (dst : ip_endpoint) (e : dgram_io) s : option (option (ip_endpoint * list Z) * W) :=
  match e with
  | Dgram src data =>
      match udp_input (udp_message src dst data) (UDP_HDR_SIZE + Z.of_nat (length data)) (addr src) (addr dst) s with Done _ s' => Some (None, s') | _ => None end
  | Recv size => match udp_recvfrom false (udp_pcb_id i) size s with Done (Return (_, r)) s' => Some (r, s') | _ => None end
  end.
(** The queue that the socket stands for. *)
Definition queue_step (e : dgram_io) (q : list (ip_endpoint * list Z)) : option (option (ip_endpoint * list Z) * list (ip_endpoint * list Z)) :=
  match e with
  | Dgram src data =>
      if bool_decide (0 <= port src < 2 ^ 16 /\ bytes data /\ UDP_HDR_SIZE + Z.of_nat (length data) <= 65515) then Some (None, q ++ [(src, data)]) else None
  | Recv size => match q with [] => None | (src, data) :: q' => if 0 <=? size then Some (Some (src, take (Z.to_nat size) data), q') else None end
  end.
Fixpoint run_io {S O} (step : dgram_io -> S -> option (O * S)) (l : list dgram_io) (s : S) : option (list O * S) :=
  match l with
  | [] => Some ([], s)
  | e :: l' => '(o, s1) ← step e s; '(os, s2) ← run_io step l' s1; Some (o :: os, s2)
  end.

Definition bound_view (p : udp_pcb) := (u_state p, u_local p).
Lemma select_bound s s' a p : bound_view <$> udp_pcbs (low s') = bound_view <$> udp_pcbs (low s) -> udp_pcb_select s' a p = udp_pcb_select s a p.
Proof.
  unfold udp_pcb_select. generalize (udp_pcbs (low s)). generalize (udp_pcbs (low s')). intros l. induction l as [|b l IH]; intros [|b' l'] E; try done.
  cbn in E. injection E as Eb Es El. specialize (IH l' El). cbn [list_find].
  assert (u_accepts a p b = u_accepts a p b') as -> by (unfold u_accepts; by rewrite Eb, Es).
  destruct (decide _); [done|]. destruct (list_find _ l) as [[]|], (list_find _ l') as [[]|]; cbn in *; congruence.
Qed.
Lemma view_alter f i (l : list udp_pcb) : (forall p, bound_view (f p) = bound_view p) -> bound_view <$> alter f i l = bound_view <$> l.
Proof.
  intros Hf. apply list_eq. intros k. rewrite !list_lookup_fmap. destruct (decide (i = k)) as [<-|Hk]; [|by rewrite list_lookup_alter_ne].
  rewrite list_lookup_alter_eq. destruct (l !! i); [|done]. cbn. by rewrite Hf.
Qed.

(** An open socket that gets the datagrams for [dst]. *)
Record bound i dst s : Prop := {
  bd_table : length (udp_pcbs (low s)) = UDP_PCB_SIZE;
  bd_select : udp_pcb_select s (addr dst) (port dst) = Some i;
}.
Lemma bound_alter i dst s f w : bound i dst s -> (forall p, bound_view (f p) = bound_view p) ->
  bound i dst (upd_low (fun l => set_udp (alter f i (udp_pcbs l)) (w l) l) s).
Proof. intros [Ht Hs] Hf. constructor; [cbn; by rewrite length_alter|]. rewrite <- Hs. apply select_bound. cbn. by apply view_alter. Qed.
Lemma bound_get i dst s : bound i dst s -> udp_pcb_get s (udp_pcb_id i) = Some i /\ (i < length (udp_pcbs (low s)))%nat.
Proof.
  intros [Ht Hs]. destruct (select_open _ _ _ _ Hs) as (b & Hb & Ha). pose proof (lookup_lt_Some _ _ _ Hb) as Hi. split; [|done].
  unfold udp_pcb_get, udp_pcb_id. rewrite Nat2Z.id. rewrite Ht in Hi. zcases; try lia. cbn [orb]. unfold upcbof. rewrite (nth_lookup_Some _ _ _ _ Hb).
  apply andb_true_iff in Ha as [Ha _]. by rewrite Ha.
Qed.

Lemma dgram_refines i dst e s o q1 : heap_ok -> 0 <= port dst < 2 ^ 16 -> bound i dst s -> queue_step e (waiting s i) = Some (o, q1) ->
  exists s1, dgram_step i dst e s = Some (o, s1) /\ bound i dst s1 /\ waiting s1 i = q1.
Proof.
  intros Hh Hp Hb. destruct (bound_get _ _ _ Hb) as [Hg Hi]. destruct e as [src data|size]; cbn [queue_step dgram_step].
  - case_bool_decide as Hc; [|done]. destruct Hc as (Hs & Hd & Hl). intros [= <- <-].
    pose proof (udp_input_message s src dst data [] Hh Hs Hp Hd Hl) as E. rewrite app_nil_r in E. rewrite E, (bd_select _ _ _ Hb).
    eexists. split; [done|]. split; [by apply bound_alter|]. by apply waiting_pushed.
  - destruct (waiting s i) as [|[src data] q] eqn:Eq; [done|]. destruct (Z.leb_spec 0 size) as [Hsz|]; [|done]. intros [= <- <-].
    unfold udp_recvfrom, kbind, kget. rewrite Hg. unfold recv_loop, kbind, kget. unfold queue_pop. unfold waiting in Eq. rewrite Eq.
    assert (take (Z.to_nat (Z.min size (Z.of_nat (length data)))) data = take (Z.to_nat size) data) as Et.
    { destruct (Z.min_spec size (Z.of_nat (length data))) as [[_ E]|[? E]]; rewrite E; [done|]. by rewrite !take_ge by lia. }
    unfold uwr, kmodify, kret. cbv beta iota zeta. rewrite Et. eexists. split; [done|].
    split; [by apply bound_alter|]. unfold waiting, upcbof. cbn. apply lookup_lt_is_Some in Hi as [b Hb'].
    rewrite (nth_lookup_Some _ _ _ (set_u_queue {| entries := q; num := num (u_queue (upcbof s i)) -u 1 |} b)) by (by rewrite list_lookup_alter_eq, Hb'). done.
Qed.

(** C28. A datagram socket is a queue: any interleaving of datagrams that arrive
    for the socket, each as udp_output made it, and of receptions returns each
    datagram once, in the order of arrival, with its sender and its data cut
    to the size asked for. *)
Theorem datagrams_in_order i dst l s outs q' : heap_ok -> 0 <= port dst < 2 ^ 16 -> bound i dst s ->
  run_io queue_step l (waiting s i) = Some (outs, q') ->
  exists s', run_io (dgram_step i dst) l s = Some (outs, s') /\ bound i dst s' /\ waiting s' i = q'.
Proof.
  intros Hh Hp. revert s outs. induction l as [|e l IH]; intros s outs Hb; cbn [run_io].
  - intros [= <- <-]. by exists s.
  - destruct (queue_step e (waiting s i)) as [[o q1]|] eqn:Es; [|done]. destruct (dgram_refines _ _ _ _ _ _ Hh Hp Hb Es) as (s1 & -> & Hb1 & Hq). cbn.
    rewrite <- Hq. destruct (run_io queue_step l (waiting s1 i)) as [[os q2]|] eqn:El; [|done]. cbn. intros [= <- <-].
    destruct (IH s1 os Hb1 El) as (s' & -> & Hs'). by exists s'.
Qed.
End Datagrams.

(** ** No endpoint is bound twice *)

Record udp_unique (l : list udp_pcb) : Prop := {
  uu_free : forall i p, l !! i = Some p -> u_state p = UDP_FREE -> port (u_local p) = 0;
  uu_apart : forall i j p q, l !! i = Some p -> l !! j = Some q -> u_state p = UDP_OPEN -> u_state q = UDP_OPEN ->
    port (u_local p) <> 0 -> u_local p = u_local q -> i = j;
}.
(** A block may change if it stays as it is for this purpose, or if nobody
    else has the endpoint it gets. *)
Lemma unique_alter_udp l i f : udp_unique l ->
  (forall p, l !! i = Some p -> (u_state (f p) = UDP_FREE -> port (u_local (f p)) = 0) /\
    (u_state (f p) = UDP_OPEN -> port (u_local (f p)) <> 0 -> forall j q, l !! j = Some q -> j <> i -> u_state q = UDP_OPEN -> u_local (f p) <> u_local q)) ->
  udp_unique (alter f i l).
Proof.
  intros [Hf Ha] Hi. constructor.
  - intros j p Hj Hp. destruct (decide (i = j)) as [<-|Hij].
    + rewrite list_lookup_alter_eq in Hj. apply fmap_Some in Hj as (p0 & Hp0 & ->). by apply (Hi p0 Hp0).
    + rewrite list_lookup_alter_ne in Hj by done. by eapply Hf.
  - intros j k p q Hj Hk Sp Sq Np E. destruct (decide (i = j)) as [<-|Hij], (decide (i = k)) as [<-|Hik]; try done.
    + rewrite list_lookup_alter_eq in Hj. rewrite list_lookup_alter_ne in Hk by done. apply fmap_Some in Hj as (p0 & Hp0 & ->).
      exfalso. by eapply (proj2 (Hi p0 Hp0) Sp Np k q).
    + rewrite list_lookup_alter_eq in Hk. rewrite list_lookup_alter_ne in Hj by done. apply fmap_Some in Hk as (p0 & Hp0 & ->).
      exfalso. assert (Nq : port (u_local (f p0)) <> 0) by by rewrite <- E. by eapply (proj2 (Hi p0 Hp0) Sq Nq j p).
    + rewrite list_lookup_alter_ne in Hj, Hk by done. by eapply Ha.
Qed.
(** What [select] does not find, nobody has. *)
Lemma select_nobody {N} (s : world N) a p : udp_pcb_select s a p = None ->
  forall j q, udp_pcbs (low s) !! j = Some q -> u_state q = UDP_OPEN -> port (u_local q) = p -> addr (u_local q) <> IP_ADDR_ANY /\ addr (u_local q) <> a.
Proof.
  unfold udp_pcb_select. rewrite fmap_None, list_find_None, Forall_forall. intros Hn j q Hq Ho Hp. specialize (Hn q (list_elem_of_lookup_2 _ _ _ Hq)).
  unfold u_accepts in Hn. rewrite (bool_decide_eq_true_2 _ Ho), Hp, Z.eqb_refl in Hn.
  destruct (Z.eqb_spec (addr (u_local q)) IP_ADDR_ANY), (Z.eqb_spec (addr (u_local q)) a); done.
Qed.

Section Unique.
Context {N : Type} `{Nic N} `{Handlers N} `{Drivers N}.
Abbreviation W := (world N).
Implicit Types (s : W) (i : nat).
Definition udp_ok s : Prop := udp_unique (udp_pcbs (low s)).

Lemma udp_ok_uwr i f s : udp_ok s ->
  (forall p, udp_pcbs (low s) !! i = Some p -> (u_state (f p) = UDP_FREE -> port (u_local (f p)) = 0) /\
    (u_state (f p) = UDP_OPEN -> port (u_local (f p)) <> 0 -> forall j q, udp_pcbs (low s) !! j = Some q -> j <> i -> u_state q = UDP_OPEN -> u_local (f p) <> u_local q)) ->
  wlp (uwr i f) (fun _ => udp_ok) s.
Proof. intros Hs Hi. unfold uwr. kstep. unfold udp_ok. cbn. by apply unique_alter_udp. Qed.
(** A change that leaves state and endpoint alone. *)
Lemma udp_ok_same i f s : udp_ok s -> (forall p, bound_view (f p) = bound_view p) -> wlp (uwr i f) (fun _ => udp_ok) s.
Proof.
  intros Hs Hf. apply udp_ok_uwr; [done|]. intros p Hp. specialize (Hf p). unfold bound_view in Hf. injection Hf as -> ->. destruct Hs as [Hfr Ha].
  split; [by eapply Hfr|]. intros Ho Hn j q Hq Hj Hoq E. apply Hj. symmetry. by eapply (Ha i j p q).
Qed.
Lemma udp_ok_wake i s : udp_ok s -> wlp (uwake i) (fun _ => udp_ok) s.
Proof. done. Qed.

Lemma udp_ok_open : preserves udp_ok udp_open.
Proof.
  intros s Hs. unfold udp_open, udp_pcb_alloc. ksteps. destruct (list_find _ _) as [[i p]|] eqn:Ef; ksteps; [|done].
  apply list_find_Some in Ef as (Hp & Hst & _). eapply wlp_mono; [apply udp_ok_uwr; [done|]|].
  - intros p' Hp'. simplify_eq. split; [done|]. intros _ Hn. exfalso. apply Hn. cbn. by eapply (uu_free _ Hs).
  - intros ? s1 Hs1. ksteps. eapply wlp_mono; [by apply udp_ok_same|]. intros ? s2 Hs2. by ksteps.
Qed.
Lemma alter_twice {A} (f g : A -> A) i (l : list A) : alter f i (alter g i l) = alter (fun x => f (g x)) i l.
Proof.
  apply list_eq. intros k. destruct (decide (i = k)) as [<-|Hk]; [|by rewrite !list_lookup_alter_ne].
  rewrite !list_lookup_alter_eq. by destruct (l !! i).
Qed.
Lemma udp_ok_release i : preserves udp_ok (udp_pcb_release i).
Proof.
  intros s Hs. unfold udp_pcb_release, uwr. ksteps. unfold udp_ok, upd_low. cbn. rewrite !alter_twice. apply unique_alter_udp; [done|].
  intros p Hp. by cbn.
Qed.
Lemma udp_ok_close id : preserves udp_ok (udp_close id).
Proof.
  intros s Hs. unfold udp_close. ksteps. destruct (udp_pcb_get s id) as [i|]; ksteps; [|done].
  eapply wlp_mono; [by apply udp_ok_release|]. intros ? s1 Hs1. by ksteps.
Qed.
(** Binding a block to an endpoint that [select] does not find. *)
Lemma udp_ok_bound s i f a p_ : udp_ok s -> udp_pcb_select s a p_ = None ->
  (forall p, udp_pcbs (low s) !! i = Some p -> u_state (f p) = UDP_OPEN /\ port (u_local (f p)) = p_ /\ (addr (u_local (f p)) = IP_ADDR_ANY \/ addr (u_local (f p)) = a)) ->
  wlp (uwr i f) (fun _ => udp_ok) s.
Proof.
  intros Hs Hn Hf. apply udp_ok_uwr; [done|]. intros p Hp. destruct (Hf p Hp) as (Ho & Hpo & Had). split; [by rewrite Ho|].
  intros _ _ j q Hq _ Hoq E. destruct (select_nobody s a p_ Hn j q Hq Hoq) as [N1 N2]; [by rewrite <- E|]. rewrite <- E in N1, N2. by destruct Had.
Qed.
Lemma get_open s id i : udp_pcb_get s id = Some i -> u_state (upcbof s i) = UDP_OPEN.
Proof. unfold udp_pcb_get. destruct (_ || _); [done|]. case_bool_decide; [|done]. by intros [= <-]. Qed.
Lemma udp_ok_bind id lo : preserves udp_ok (udp_bind id lo).
Proof.
  intros s Hs. unfold udp_bind. ksteps. destruct (udp_pcb_get s id) as [i|] eqn:Eg; ksteps; [|done].
  destruct (udp_pcb_select s (addr lo) (port lo)) as [j|] eqn:Es; ksteps; [done|].
  eapply wlp_mono; [apply (udp_ok_bound s i _ (addr lo) (port lo)); [done|done|]|intros ? s1 Hs1; by ksteps].
  intros p Hp. pose proof (get_open _ _ _ Eg) as Ho. unfold upcbof in Ho. rewrite (nth_lookup_Some _ _ _ _ Hp) in Ho. split; [done|]. split; [done|by right].
Qed.
Lemma pick_port_free s a n p v : udp_pick_port s a n p = Some v -> udp_pcb_select s a v = None.
Proof. revert p. induction n as [|n IH]; intros p; cbn; [done|]. destruct (udp_pcb_select s a (hton16 p)) eqn:E; [apply IH|]. by intros [= <-]. Qed.

(** Sending may bind the block to a free port; the output itself is the
    business of the layers below. *)
Lemma udp_ok_sendto turns id data fo : (forall src dst d, preserves udp_ok (udp_output turns src dst d)) -> preserves udp_ok (udp_sendto turns id data fo).
Proof.
  intros Ho s Hs. unfold udp_sendto. ksteps. destruct (udp_pcb_get s id) as [i|] eqn:Eg; ksteps; [|done].
  set (lo := u_local (upcbof s i)). destruct (if addr lo =? IP_ADDR_ANY then _ else _) as [a|] eqn:Ea; ksteps; [|done].
  destruct (if port lo =? 0 then _ else _) as [p|] eqn:Ep; ksteps; [|done].
  assert (Hu : wlp (uwr i (fun q => set_u_local {| addr := addr (u_local q); port := p |} q)) (fun _ => udp_ok) s).
  { destruct (Z.eqb_spec (port lo) 0) as [_|Hp].
    - apply (udp_ok_bound s i _ a p); [done|by eapply pick_port_free|]. intros b Hb. pose proof (get_open _ _ _ Eg) as Hop. unfold upcbof in Hop, lo.
      rewrite (nth_lookup_Some _ _ _ _ Hb) in Hop. assert (lo = u_local b) as El by (unfold lo, upcbof; by rewrite (nth_lookup_Some _ _ _ _ Hb)).
      split; [done|]. split; [done|]. cbn. rewrite <- El. destruct (Z.eqb_spec (addr lo) IP_ADDR_ANY); [by left|]. injection Ea as ->. by right.
    - injection Ep as <-. apply udp_ok_uwr; [done|]. intros b Hb. assert (lo = u_local b) as El by (unfold lo, upcbof; by rewrite (nth_lookup_Some _ _ _ _ Hb)).
      assert (E : set_u_local {| addr := addr (u_local b); port := port lo |} b = b) by (destruct b as [? [] ? ?]; cbn in *; by rewrite El). rewrite E.
      destruct Hs as [Hfr Hap]. split; [by eapply Hfr|]. intros Hob Hn j q Hq Hj Hoq E'. apply Hj. symmetry. by eapply (Hap i j b q). }
  eapply wlp_mono; [exact Hu|]. intros ? s1 Hs1. by apply Ho.
Qed.
Lemma udp_ok_input data len src dst : (forall n, preserves udp_ok (mem_alloc n)) -> preserves udp_ok (udp_input data len src dst).
Proof.
  intros Hm s Hs. unfold udp_input, kcksum16.
  destruct (len <? UDP_HDR_SIZE); [by kstep|]. destruct (negb (len =? _)); [by kstep|]. destruct (u16 len <=? _); [|done].
  set (sum := cksum16 data len _). clearbody sum. ksteps. destruct (negb (sum =? 0)); ksteps; [done|].
  destruct (udp_pcb_select _ _ _) as [i|]; ksteps; [|done].
  eapply wlp_mono; [by apply Hm|]. intros ok s1 Hs1. destruct ok; cbn [negb]; ksteps; [|done].
  eapply wlp_mono; [by apply Hm|]. intros cell s2 Hs2. ksteps. destruct (queue_push _ _ _); ksteps; [|done].
  eapply wlp_mono; [by apply udp_ok_same|]. intros ? s3 Hs3. by apply udp_ok_wake.
Qed.
End Unique.

(** ** Echo *)

Lemma icmp_verifies {S} type code values data pad : byte type -> byte code -> bytes data -> 8 + Z.of_nat (length data) <= 65515 ->
  kcksum16 (S := S) (icmp_message type code values data ++ pad) (8 + Z.of_nat (length data)) 0 = kret 0.
Proof.
  intros Ht Hc Hd Hl. assert (Hlen : length (icmp_message type code values data) = (8 + length data)%nat) by reflexivity.
  unfold kcksum16. rewrite length_app, Hlen, u16_small by lia. destruct (Z.leb_spec (8 + Z.of_nat (length data)) (Z.of_nat (8 + length data + length pad))); [|lia]. f_equal.
  replace (8 + Z.of_nat (length data)) with (Z.of_nat (length (icmp_message type code values data))) by (rewrite Hlen; lia).
  rewrite cksum16_app by (rewrite Hlen; lia). rewrite Hlen. unfold icmp_message.
  pose proof (cksum16_verifies [type; code] (le_enc 4 values ++ data) 0) as Hv. cbv zeta in Hv. rewrite !length_app, !le_enc_len in Hv. cbn [length] in Hv.
  replace (Z.of_nat (8 + length data)) with (Z.of_nat (2 + (2 + (4 + length data)))) by lia. replace (8 + Z.of_nat (length data)) with (Z.of_nat (2 + (2 + (4 + length data)))) by lia.
  apply Hv; [|by exists 1%nat|lia|lia]. apply Forall_app. split; [by constructor; [|constructor]|]. apply Forall_app. split; [apply le_enc_bytes|done].
Qed.
(** The two halves of a 32-bit word in network order. *)
Lemma hton32_halves id seq : 0 <= id < 2 ^ 16 -> 0 <= seq < 2 ^ 16 ->
  let v := le_enc 4 (hton32 (Z.lor (Z.shiftl id 16) seq)) in ntoh16 (getn 2 0 v) = id /\ ntoh16 (getn 2 2 v) = seq.
Proof.
  intros Hi Hs. set (w := Z.lor (Z.shiftl id 16) seq). cbv zeta.
  assert (Hb : forall b, 0 <= b < 32 -> Z.testbit w b = if b <? 16 then Z.testbit seq b else Z.testbit id (b - 16)).
  { intros b Hb. unfold w. rewrite Z.lor_spec, Z.shiftl_spec by lia. destruct (Z.ltb_spec b 16); [by rewrite Z.testbit_neg_r by lia|].
    rewrite <- (Z.mod_small seq (2 ^ 16)), Z.mod_pow2_bits_high by lia. by rewrite orb_false_r. }
  assert (E0 : getn 2 0 (le_enc 4 (hton32 w)) = u16 (hton32 w)) by (unfold u16; change (le_dec [hton32 w mod 256; hton32 w / 256 mod 256] = hton32 w mod 2 ^ 16); cbn; dlia).
  assert (E2 : getn 2 2 (le_enc 4 (hton32 w)) = u16 (Z.shiftr (hton32 w) 16)).
  { unfold u16. rewrite Z.shiftr_div_pow2 by lia. change (le_dec [hton32 w / 256 / 256 mod 256; hton32 w / 256 / 256 / 256 mod 256] = hton32 w / 2 ^ 16 mod 2 ^ 16). cbn. dlia. }
  rewrite E0, E2. split; apply (word_ext 16); try done; try apply ntoh16_range; intros b Hb'.
  - change (ntoh16 (u16 (hton32 w))) with (byteswap16 (u16 (byteswap32 w))).
    rewrite byteswap16_bits by lia. unfold u16. rewrite Z.mod_pow2_bits_low, byteswap32_bits, Hb by dlia. each_bit b 16%nat; done.
  - change (ntoh16 (u16 (Z.shiftr (hton32 w) 16))) with (byteswap16 (u16 (Z.shiftr (byteswap32 w) 16))).
    rewrite byteswap16_bits by lia. unfold u16. rewrite Z.mod_pow2_bits_low, Z.shiftr_spec, byteswap32_bits, Hb by dlia. each_bit b 16%nat; done.
Qed.

Section Echo.
Context {N : Type} `{Nic N} `{Handlers N} `{Drivers N}.
Implicit Types (s : world N).

(** Echo works: a valid echo request, whatever its destination address
    was, is answered from the interface it came in by with its own code,
    identifier, sequence number and data; an echo reply reports exactly the
    identifier and the sequence number the request was made with. *)
Theorem echo_answered on_reply turns code id seq data pad src dst iface s :
  byte code -> 0 <= id < 2 ^ 16 -> 0 <= seq < 2 ^ 16 -> bytes data -> 8 + Z.of_nat (length data) <= 65515 ->
  let values := hton32 (Z.lor (Z.shiftl id 16) seq) in let len := 8 + Z.of_nat (length data) in
  icmp_input on_reply turns (icmp_message ICMP_TYPE_ECHO code values data ++ pad) len src dst iface s =
    (icmp_output turns ICMP_TYPE_ECHOREPLY code values data (if_unicast (ifof s iface)) src ;; kret tt) s /\
  icmp_input on_reply turns (icmp_message ICMP_TYPE_ECHOREPLY code values data ++ pad) len src dst iface s = on_reply id seq s.
Proof.
  intros Hc Hi Hs Hd Hl values len. unfold len. pose proof (hton32_range (Z.lor (Z.shiftl id 16) seq)) as Hv. fold values in Hv.
  assert (Hf : forall t, byte t -> let m := icmp_message t code values data ++ pad in getn 1 0 m = t /\ getn 1 1 m = code /\ getn 4 4 m = values /\ slice 8 (length data) m = data /\
    getn 2 4 m = getn 2 0 (le_enc 4 values) /\ getn 2 6 m = getn 2 2 (le_enc 4 values) /\ length m = (8 + length data + length pad)%nat).
  { intros t Ht. unfold icmp_message. set (sum := cksum16 _ _ _). clearbody sum. cbv zeta.
    split; [transitivity (t + 256 * 0); [done|lia]|]. split; [transitivity (code + 256 * 0); [done|lia]|]. split; [by apply (field_dec 4)|].
    split; [transitivity (take (length data) (data ++ pad)); [done|apply take_app_length]|]. split; [done|]. split; [done|]. rewrite !length_app. cbn. lia. }
  destruct (hton32_halves id seq Hi Hs) as [Ei Es]. fold values in Ei, Es. unfold icmp_input. destruct (Z.ltb_spec (8 + Z.of_nat (length data)) 8); [lia|]. split.
  - destruct (Hf ICMP_TYPE_ECHO) as (F0 & F1 & F4 & F8 & _ & _ & FL); [by vm_compute|]. rewrite icmp_verifies by (done || by vm_compute). rewrite F0, F1, F4, FL.
    unfold kbind at 1, kret at 1. cbn [Z.eqb Pos.eqb negb ICMP_TYPE_ECHO ICMP_TYPE_ECHOREPLY]. unfold kbind at 1, kget. cbv beta.
    destruct (Z.ltb_spec (Z.of_nat (8 + length data + length pad)) (8 + Z.of_nat (length data))); [lia|].
    replace (Z.to_nat (8 + Z.of_nat (length data) - 8)) with (length data) by lia. rewrite F8.
    destruct (Z.eqb_spec dst (if_unicast (ifof s iface))) as [->|]; done.
  - destruct (Hf ICMP_TYPE_ECHOREPLY) as (F0 & F1 & F4 & F8 & G4 & G6 & FL); [by vm_compute|]. rewrite icmp_verifies by (done || by vm_compute). rewrite F0, G4, G6, Ei, Es. done.
Qed.
End Echo.
