(* ===== verification/Stack.v ===== *)
(** * kernel/microps: the stack put together (net.c, microps_glue.c)

    The layers call each other in both directions: a packet that comes in may
    make TCP or ARP send one, and sending over the loopback device runs the
    input handlers at once.  [call_at n] are the input handlers when at most
    [n] of them can be active inside one another, which is what a kernel stack
    has room for; with none left they end in an explicit outcome.  (A queue
    is emptied in at most [n + 1] turns; one packet is queued at a time.)  Shown here:
    booting makes a stack with a working loopback interface ([boot_loopback]);
    a datagram sent on one host is received on another, through UDP, IP, ARP
    and Ethernet ([datagram_crosses]). *)

From Stdlib Require Import ZArith Lia.
From S2P Require Import Prelude Bytes NetUtil Pipe Fmt Tcp Net Ether Arp Ip Udp.

Section Stack.
Context {N : Type} `{Nic N}.
Abbreviation W := (world N).
Implicit Types (s : W) (dev iface n turns : nat).

Definition sirpair_on_icmp_echoreply (ident seq : Z) : K W unit :=
  s <- kget ;;
  let p := l_ping (low s) in
  if negb (mp_wait p) then kret tt
  else if (ident =? mp_id p) && (seq =? mp_seq p) then
    kmodify (upd_low (set_ping {| mp_wait := mp_wait p; mp_got := true; mp_id := mp_id p; mp_seq := mp_seq p |}))
  else kret tt.

(** The devices and the IP layer over given input handlers. *)
Definition drivers_at (H0 : Handlers N) turns : Drivers N := {| transmit := driver_transmit turns |}.
Definition iface_of s iface : route_iface := {| unicast := if_unicast (ifof s iface); dev_mtu := d_mtu (devof s (if_dev (ifof s iface))) |}.
Definition ip_ops_at (H0 : Handlers N) turns : IpOps (lower N) := {|
  Tcp.ip_output proto data src dst := let D := drivers_at H0 turns in Ip.ip_output turns proto data src dst;
  Tcp.ip_route_get_iface dst s := iface_of s <$> Ip.ip_route_get_iface s dst;
  Tcp.memory_alloc k := mem_alloc k;
|}.
(** [proto->handler] of an IP protocol. *)
Definition call_ip (H0 : Handlers N) turns (h : ip_handler) (data : list Z) (len src dst : Z) iface : K W unit :=
  let D := drivers_at H0 turns in
  let O := ip_ops_at H0 turns in
  match h with
  | fp_icmp_input => icmp_input sirpair_on_icmp_echoreply turns data len src dst iface
  | fp_udp_input => udp_input data len src dst
  | fp_tcp_input => s <- kget ;; tcp_input data len src dst (if_broadcast (ifof s iface))
  end.
Fixpoint call_at n : net_handler -> list Z -> nat -> K W unit :=
  match n with
  | O => fun _ _ _ => ub "kernel stack exhausted"
  | S n' =>
      let H0 := {| call_handler := call_at n' |} in
      let D := drivers_at H0 (S n') in
      fun h data dev =>
        match h with
        | fp_arp_input => arp_input data dev
        | fp_ip_input => ip_input (call_ip H0 (S n')) data dev
        end
  end.
Definition handlers n : Handlers N := {| call_handler := call_at n |}.
Definition drivers n : Drivers N := drivers_at (handlers n) (S n).
Definition ip_ops n : IpOps (lower N) := ip_ops_at (handlers n) (S n).
Definition callbacks n : Callbacks N :=
  let O := ip_ops n in {|
  call_timer t := match t with fp_arp_timer => arp_timer | fp_tcp_timer => Tcp.tcp_timer end;
  call_event e := match e with fp_udp_event => udp_event_handler | fp_tcp_event => Tcp.event_handler end;
|}.

(** ** Starting *)

Definition tcp_init : K W Z :=
  r <- ip_protocol_register IP_PROTOCOL_TCP fp_tcp_input ;;
  if r =? -1 then kret (-1)
  else
    r <- net_timer_register {| tv_sec := 0; tv_usec := 100000 |} fp_tcp_timer ;;
    if r =? -1 then kret (-1) else net_event_subscribe fp_tcp_event ;; kret 0.
Definition then_init (m k : K W Z) : K W Z := r <- m ;; if r =? -1 then kret (-1) else k.
(** [intr_init] always succeeds. *)
Definition net_init : K W Z :=
  then_init arp_init (then_init ip_init (then_init icmp_init (then_init udp_init (then_init tcp_init (kret 0))))).
Definition text_127_0_0_1 : list Z := [49; 50; 55; 46; 48; 46; 48; 46; 49].
Definition text_255_0_0_0 : list Z := [50; 53; 53; 46; 48; 46; 48; 46; 48].
(** From [net_init] on, the first time. *)
Definition sirpair_microps_core_init : K W Z :=
  r <- net_init ;;
  if negb (r =? 0) then kret (-1)
  else
    nd <- null_init ;;
    match nd with
    | None => kret (-1)
    | Some _ =>
        ld <- loopback_init ;;
        match ld with
        | None => kret (-1)
        | Some ld =>
            i <- ip_iface_alloc text_127_0_0_1 text_255_0_0_0 ;;
            match i with
            | None => kret (-1)
            | Some i => r <- ip_iface_register ld i ;; kret (if r =? 0 then 0 else -1)
            end
        end
    end.
(** [dhcp_ok] with the addresses that [net_get_ipv4] and [net_get_dhcp_cfg] give. *)
Definition sirpair_microps_boot_phase (dhcp : option (list Z * list Z * list Z * list Z)) : K W (option nat) :=
  r <- sirpair_microps_core_init ;;
  if r <? 0 then kret None
  else
    eth <- (match dhcp with Some (mac, ip, mask, gw) => sirpair_e1000_register_iface mac ip mask gw | None => kret None end) ;;
    net_run ;;
    kret eth.
End Stack.

(** ** A card that keeps what is sent, and a heap with room *)

Record card := { tx : list (list Z) }.
#[export] Instance card_nic : Nic card := {
  net_tx_raw f := kmodify (upd_low (fun l => set_nic {| tx := tx (nic l) ++ [f] |} l)) ;; kret 0;
  net_poll := kret tt;
  mem_alloc _ := kret true;
  stale_device _ := device0;
  stale_queue _ := queue_init;
}.
Definition power_on (blocks : list tcp_pcb) (t : Z) : world card :=
  {| pcbs := blocks; ticks := t; errno := 0; wakes := [];
     low := {| l_net := {| devs := []; ifs := []; devices := []; protocols := []; timers := []; events := []; index := 0 |};
               caches := repeat arp_cache0 32; ifaces := []; routes := []; ip_protocols := []; ip_id_counter := 128;
               udp_pcbs := repeat udp_pcb0 16; udp_wakes := []; l_ping := {| mp_wait := false; mp_got := false; mp_id := 0; mp_seq := 0 |}; nic := {| tx := [] |} |} |}.

Definition LOOP_ADDR : Z := 0x0100007f. (* 127.0.0.1 *)
Definition LOOP_MASK : Z := 0x000000ff. (* 255.0.0.0 *)
Definition loop_iface : ip_iface := {| if_dev := 1; if_family := NET_IFACE_FAMILY_IP; if_unicast := LOOP_ADDR; if_netmask := LOOP_MASK; if_broadcast := 0xffffff7f |}.
Definition loop_device : net_device :=
  {| d_ifaces := [0%nat]; d_index := 1; d_type := NET_DEVICE_TYPE_LOOPBACK; d_mtu := 65535; d_flags := 0x11; d_hlen := 0; d_alen := 0;
     d_addr := repeat 0 16; d_broadcast := repeat 0 16; d_ops := loopback_ops |}.
Definition idle_protocols : list net_protocol :=
  [{| p_type := NET_PROTOCOL_TYPE_IP; p_queue := queue_init; p_handler := fp_ip_input |};
   {| p_type := NET_PROTOCOL_TYPE_ARP; p_queue := queue_init; p_handler := fp_arp_input |}].
Definition ip_handlers : list (Z * ip_handler) := [(IP_PROTOCOL_TCP, fp_tcp_input); (IP_PROTOCOL_UDP, fp_udp_input); (IP_PROTOCOL_ICMP, fp_icmp_input)].

(** A stack with the loopback interface up. *)
Record looped {N} (s : world N) : Prop := {
  lp_dev : devof s 1 = loop_device;
  lp_iface : ifof s 0 = loop_iface;
  lp_protocols : protocols (net_of s) = idle_protocols;
  lp_handlers : ip_protocols (low s) = ip_handlers;
  lp_route : ip_route_lookup s LOOP_ADDR = Some {| r_network := 0x7f; r_netmask := LOOP_MASK; r_nexthop := 0; r_iface := 0 |};
}.
(** Booting brings the loopback interface up, with or without a wired one. *)
Theorem boot_loopback blocks t dhcp : dhcp = None \/ dhcp = Some ([2; 0; 0; 0; 0; 1], [10; 0; 0; 2], [255; 255; 255; 0], [10; 0; 0; 1]) ->
  exists r s, sirpair_microps_boot_phase dhcp (power_on blocks t) = Done r s /\ looped s.
Proof. intros [->| ->]; vm_compute; eexists _, _; (split; [reflexivity|]); by constructor. Qed.

(** ** Input of a packet when nothing is queued *)

Section Input.
Context {N : Type} `{Nic N} (H0 : Handlers N).
Implicit Types (s : world N).

Lemma input_packet t data dev s : heap_ok -> protocols (net_of s) = idle_protocols ->
  net_input_handler (S t) NET_PROTOCOL_TYPE_IP data dev s = (call_handler fp_ip_input data dev ;; drain t 0 ;; drain (S t) 1 ;; kret 0) s.
Proof.
  intros Hh Hp. unfold net_input_handler. unfold kbind at 1, kget. rewrite Hp.
  change (list_find (fun p => p_type p = NET_PROTOCOL_TYPE_IP) idle_protocols) with (Some (0%nat, nth 0 idle_protocols proto0)). cbv beta iota.
  unfold kbind at 1. rewrite Hh. cbn [negb]. unfold kbind at 1. rewrite Hh. unfold kbind at 1, kget. rewrite Hp. cbn [nth idle_protocols p_queue queue_push entries num queue_init app].
  destruct s as [pc tk er wk [[d i dv pr tm ev ix] ca fa ro ip cn up uw pg nc]]. cbn in Hp. subst pr.
  set (s := {| pcbs := pc |}). set (q := {| entries := [(dev, data)]; num := 0 +u 1 |}).
  set (sq := upd_low (fun l => set_l_net (upd_protocols (alter (set_queue q) 0%nat) (l_net l)) l) s).
  assert (Hd : drain (S t) 0 sq = (call_handler fp_ip_input data dev ;; drain t 0) s) by reflexivity.
  change (((drain_all (S t) [0%nat; 1%nat] ;; kret 0) ;; kret 0) sq = (call_handler fp_ip_input data dev ;; drain t 0 ;; drain (S t) 1 ;; kret 0) s).
  clearbody sq. cbn [drain_all]. unfold kbind in *. rewrite Hd. destruct (call_handler fp_ip_input data dev s) as [[] s1|msg s1|c s1]; [|done|done].
  destruct (drain t 0 s1) as [[] s2|msg s2|c s2]; [|done|done]. by destruct (drain (S t) 1 s2).
Qed.
Lemma drain_idle t i s : protocols (net_of s) = idle_protocols -> drain t i s = Done tt s.
Proof. intros Hp. destruct t, i as [|[|[|]]]; cbn [drain]; unfold kbind, kget; by rewrite Hp. Qed.
(** When the handler leaves nothing queued, that was all. *)
Lemma input_packet_done t data dev s s' : heap_ok -> protocols (net_of s) = idle_protocols ->
  call_handler fp_ip_input data dev s = Done tt s' -> protocols (net_of s') = idle_protocols ->
  net_input_handler (S t) NET_PROTOCOL_TYPE_IP data dev s = Done 0 s'.
Proof. intros Hh Hp Hc Hp'. rewrite input_packet by done. unfold kbind. by rewrite Hc, !drain_idle by done. Qed.
End Input.

(** ** From host to host over Ethernet *)

(** A host with a wired interface that is up, a direct route to [dst], and
    the hardware address of [dst] in its cache. *)
Record reaches (s : world card) (dev iface : nat) (ip : Z) (mac : list Z) (dst : Z) (dmac : list Z) : Prop := {
  rc_station : station s dev iface ip mac;
  rc_up : NET_DEVICE_IS_UP (devof s dev) = true;
  rc_arp : Z.land (d_flags (devof s dev)) NET_DEVICE_FLAG_NEED_ARP <> 0;
  rc_mtu : d_mtu (devof s dev) = 1500;
  rc_ops : d_ops (devof s dev) = sirpair_e1000_ops;
  rc_route : exists nw mask, ip_route_lookup s dst = Some {| r_network := nw; r_netmask := mask; r_nexthop := 0; r_iface := iface |};
  rc_known : knows s dst dmac;
  rc_dmac : length dmac = 6%nat;
  rc_unicast : dst <> if_broadcast (ifof s iface) /\ dst <> IP_ADDR_BROADCAST /\ ip <> IP_ADDR_ANY;
}.
(** The frame on the card, and the next packet's identification. *)
Definition after_send (f : list Z) (s : world card) : world card :=
  upd_low (fun l => set_nic {| tx := tx (nic l) ++ [f] |} (set_ip (ifaces l) (routes l) (ip_protocols l) (u16 (ip_id_counter l + 1)) l)) s.

Lemma frame_length dst src type data : length dst = 6%nat -> (6 <= length src)%nat ->
  length (ether_frame dst src type data) = (14 + Nat.max 46 (length data))%nat.
Proof.
  intros Hd Hs. unfold ether_frame. rewrite !length_app, le_enc_len, !length_take, repeat_length.
  destruct (Z.ltb_spec (Z.of_nat (length data)) ETHER_PAYLOAD_SIZE_MIN); unfold ETHER_PAYLOAD_SIZE_MIN, ETHER_FRAME_SIZE_MIN, ETHER_HDR_SIZE in *; lia.
Qed.
Lemma eth_transmit (s : world card) dev type data dst : length dst = 6%nat -> (6 <= length (d_addr (devof s dev)))%nat -> (length data <= 1500)%nat ->
  sirpair_e1000_transmit dev type data dst s =
  Done 0 (upd_low (fun l => set_nic {| tx := tx (nic l) ++ [ether_frame dst (d_addr (devof s dev)) type data] |} l) s).
Proof.
  intros Hd Hs Hl. unfold sirpair_e1000_transmit, ether_transmit_helper.
  destruct (Z.ltb_spec ETHER_PAYLOAD_SIZE_MAX (Z.of_nat (length data))) as [Hx|]; [unfold ETHER_PAYLOAD_SIZE_MAX, ETHER_FRAME_SIZE_MAX, ETHER_HDR_SIZE in Hx; lia|].
  unfold kbind at 1, kget. pose proof (frame_length dst (d_addr (devof s dev)) type data Hd Hs) as Lf. set (f := ether_frame _ _ _ _) in *.
  unfold kbind at 1, sirpair_e1000_xmit_frame. destruct (Z.ltb_spec 1514 (Z.of_nat (length f))); [lia|]. cbn. by rewrite Z.eqb_refl.
Qed.

Lemma ip_output_eth n s dev iface ip mac dst dmac proto data : reaches s dev iface ip mac dst dmac -> 20 + Z.of_nat (length data) <= 1500 ->
  let D := drivers n in
  Ip.ip_output (H0 := handlers n) n proto data ip dst s =
  Done (Z.of_nat (length data)) (after_send (ether_frame dmac (d_addr (devof s dev)) NET_PROTOCOL_TYPE_IP (ip_packet proto data ip dst (ip_id_counter (low s)) 0)) s).
Proof.
  intros [[] Hup Harp Hmtu Hops (nw & mask & Hr) Hk Hdm (Hb & Hbb & Ha)] Hl D. unfold Ip.ip_output.
  destruct (Z.eqb_spec ip IP_ADDR_ANY); [done|]. cbn [andb negb]. unfold kbind at 1, kget. rewrite Hr. cbn [r_iface r_nexthop].
  rewrite st_ip, Z.eqb_refl, st_dev, Hmtu. cbn [andb negb Z.eqb IP_ADDR_ANY]. destruct (Z.ltb_spec 1500 (IP_HDR_SIZE_MIN + Z.of_nat (length data))); [unfold IP_HDR_SIZE_MIN in *; lia|].
  unfold kbind at 1, ip_generate_id. unfold kbind at 1, kget. unfold kbind at 1, kmodify. unfold kret at 1.
  set (s1 := upd_low _ s). unfold kbind at 1, ip_output_core. destruct (Z.ltb_spec IP_TOTAL_SIZE_MAX (20 + Z.of_nat (length data))); [unfold IP_TOTAL_SIZE_MAX in *; lia|].
  unfold ip_output_device. unfold kbind at 1, kget. change (ifof s1 iface) with (ifof s iface). rewrite st_dev. change (devof s1 dev) with (devof s dev).
  destruct (Z.eqb_spec (Z.land (d_flags (devof s dev)) NET_DEVICE_FLAG_NEED_ARP) 0); [done|]. cbn [negb].
  destruct (Z.eqb_spec dst (if_broadcast (ifof s iface))); [done|]. destruct (Z.eqb_spec dst IP_ADDR_BROADCAST); [done|]. cbn [orb].
  unfold kbind at 1. rewrite (resolve_known n s1 iface dst dmac) by (try exact Hk; change (ifof s1 iface) with (ifof s iface); rewrite ?st_dev; done).
  cbn [snd fst Z.eqb Pos.eqb ARP_RESOLVE_FOUND]. unfold net_device_output. unfold kbind at 1, kget. change (devof s1 dev) with (devof s dev).
  rewrite Hup, Hmtu. cbn [negb].
  set (p := ip_packet _ _ _ _ _ _). assert (Lp : length p = (20 + length data)%nat) by reflexivity. rewrite Lp. destruct (Z.ltb_spec 1500 (Z.of_nat (20 + length data))); [lia|].
  rewrite Hops. unfold D. cbn [transmit drivers drivers_at driver_transmit].
  assert (Hm : (6 <= length (d_addr (devof s dev)))%nat) by (rewrite <- st_mac, length_take in st_len; lia).
  unfold kbind at 1. rewrite (eth_transmit s1 dev _ p dmac) by (done || lia). reflexivity.
Qed.

Lemma card_heap : heap_ok (N := card).
Proof. done. Qed.

(** What the other host makes of the frame: the UDP packet goes to the socket. *)
Lemma datagram_arrives m (B : world card) db ib ipB macB j src pB data id mac :
  station B db ib ipB macB -> protocols (net_of B) = idle_protocols -> ip_protocols (low B) = ip_handlers -> bound j {| addr := ipB; port := pB |} B ->
  0 <= addr src < 2 ^ 32 -> 0 <= port src < 2 ^ 16 -> 0 <= pB < 2 ^ 16 -> bytes data -> 28 + Z.of_nat (length data) <= 1500 -> (6 <= length mac)%nat ->
  sirpair_microps_deliver_ether (H0 := handlers (S m)) (S m) (Some db)
    (ether_frame macB mac NET_PROTOCOL_TYPE_IP (ip_packet IP_PROTOCOL_UDP (udp_message src {| addr := ipB; port := pB |} data) (addr src) ipB id 0)) B =
  Done tt (pushed j src data B).
Proof.
  intros [] Hp Hh Hb Hsa Hsp HpB Hd Hl Hm. set (dst := {| addr := ipB; port := pB |}) in *.
  assert (Hmac : take 6 macB = take 6 (d_addr (devof B db))) by (rewrite st_mac; apply take_ge; lia).
  rewrite frame_delivered by (try done; try lia; by left).
  set (pad := repeat 0 _). set (u := udp_message src dst data). assert (Lu : length u = (8 + length data)%nat) by apply udp_message_length.
  unfold kbind. rewrite (input_packet_done (handlers (S m)) m _ db B (pushed j src data B)); try done.
  cbn [call_handler handlers call_at]. rewrite (packet_delivered _ B db ib id IP_PROTOCOL_UDP (addr src) ipB u pad fp_udp_input); try done.
  - unfold call_ip. pose proof (udp_input_message B src dst data pad card_heap Hsp HpB Hd) as E. unfold UDP_HDR_SIZE in E. rewrite (bd_select _ _ _ Hb) in E.
    rewrite Lu. replace (Z.of_nat (8 + length data)) with (8 + Z.of_nat (length data)) by lia. apply E. lia.
  - constructor; [done|by left|]. rewrite Hh. by exists 1%nat.
  - rewrite Lu. unfold IP_TOTAL_SIZE_MAX. lia.
Qed.

(** Datagrams cross the network: what udp_sendto sends from a bound socket
    to a host whose address is resolved goes out as one Ethernet frame; the
    other host, given that frame, appends to its socket's queue exactly the
    data, with the sender's address and port. *)
Theorem datagram_crosses n m (A B : world card) da ia ipA macA db ib ipB macB id i a0 pA j pB data :
  reaches A da ia ipA macA ipB macB -> udp_pcb_get A id = Some i -> u_local (upcbof A i) = {| addr := a0; port := pA |} ->
  a0 = IP_ADDR_ANY \/ a0 = ipA -> pA <> 0 -> 0 <= pA < 2 ^ 16 ->
  station B db ib ipB macB -> protocols (net_of B) = idle_protocols -> ip_protocols (low B) = ip_handlers ->
  bound j {| addr := ipB; port := pB |} B -> 0 <= pB < 2 ^ 16 -> bytes data -> 28 + Z.of_nat (length data) <= 1500 ->
  exists A' f B',
    udp_sendto (H0 := handlers n) (H1 := drivers n) n id data {| addr := ipB; port := pB |} A = Done (Z.of_nat (length data)) A' /\
    tx (nic (low A')) = tx (nic (low A)) ++ [f] /\
    sirpair_microps_deliver_ether (H0 := handlers (S m)) (S m) (Some db) f B = Done tt B' /\
    waiting B' j = waiting B j ++ [({| addr := ipA; port := pA |}, data)] /\ bound j {| addr := ipB; port := pB |} B'.
Proof.
  intros HA Hg Hlo Ha0 HpA HpA' HB Hp Hh Hb HpB Hd Hl.
  set (src := {| addr := ipA; port := pA |}). set (dst := {| addr := ipB; port := pB |}) in *.
  pose proof HA as [[] _ _ _ _ (nw & mask & Hr) _ _ _].
  assert (Hout : forall s, reaches s da ia ipA macA ipB macB -> udp_output (H0 := handlers n) (H1 := drivers n) n src dst data s =
    Done (Z.of_nat (length data)) (after_send (ether_frame macB (d_addr (devof s da)) NET_PROTOCOL_TYPE_IP (ip_packet IP_PROTOCOL_UDP (udp_message src dst data) ipA ipB (ip_id_counter (low s)) 0)) s)).
  { intros s Hs. unfold udp_output. destruct (Z.ltb_spec (IP_PAYLOAD_SIZE_MAX - UDP_HDR_SIZE) (Z.of_nat (length data))) as [Hx|]; [unfold IP_PAYLOAD_SIZE_MAX, IP_HDR_SIZE_MIN, UDP_HDR_SIZE in Hx; lia|].
    unfold kbind. pose proof (ip_output_eth n s da ia ipA macA ipB macB IP_PROTOCOL_UDP (udp_message src dst data) Hs) as E. cbv zeta in E. rewrite udp_message_length in E.
    cbn [addr src dst] in *. rewrite E by lia. destruct (Z.eqb_spec (Z.of_nat (8 + length data)) (-1)); [lia|]. done. }
  unfold udp_sendto. unfold kbind at 1, kget. rewrite Hg, Hlo. cbn [addr port dst].
  assert ((if a0 =? IP_ADDR_ANY then (fun f => if_unicast (ifof A f)) <$> Ip.ip_route_get_iface A ipB else Some a0) = Some ipA) as ->.
  { destruct (Z.eqb_spec a0 IP_ADDR_ANY); [unfold Ip.ip_route_get_iface; rewrite Hr; cbn; by rewrite st_ip|]. by destruct Ha0; subst. }
  destruct (Z.eqb_spec pA 0); [done|]. unfold kbind at 1, uwr, kmodify. set (A1 := upd_low _ A).
  eexists _, _, _. split; [apply (Hout A1); by destruct HA|]. split; [reflexivity|].
  split; [apply (datagram_arrives m B db ib ipB macB j src pB data); try done|split; [apply waiting_pushed|by apply bound_alter]].
  - rewrite <- st_mac, length_take in st_len. change (devof A1 da) with (devof A da). lia.
  - by apply (bound_get _ _ _ Hb).
Qed.
