(* ===== verification/Loop.v ===== *)
(** * kernel/microps: TCP over the loopback interface

    loopback_transmit hands the packet to the input handlers before it
    returns, so that the answer to a segment, the answer to that answer, and
    so on, are all handled inside the output of the first.  The lemmas [talk_0]
    and [talk_S] give one such output when no handler, and when one more
    handler, fits inside it.  Shown here: data
    sent on an established connection between two sockets of the same host
    never comes to an end ([loopback_send_never_returns]), because the sender
    moves snd.nxt only after the output, finds the acknowledgement ahead of it,
    and the two ends answer each other for ever. *)

From Stdlib Require Import ZArith Lia.
From S2P Require Import Prelude Bytes NetUtil Pipe Tcp TcpSafe TcpStream TcpWire TcpHandshake Net Ether Arp Ip Udp Stack.

Section Loop.
Context {N : Type} `{Nic N} (Hh : heap_ok (N := N)).
Implicit Types (s : world N) (n i j : nat).

Definition next_id s : world N :=
  upd_low (fun l => set_ip (ifaces l) (routes l) (ip_protocols l) (u16 (ip_id_counter l + 1)) l) s.
Lemma next_id_looped s : looped s -> looped (next_id s).
Proof. intros []. by constructor. Qed.
Lemma looped_upd s i f : looped s -> looped (upd i f s).
Proof. intros []. by constructor. Qed.

(** Sending over the loopback interface is receiving. *)
Lemma loop_output n proto data s : looped s -> Z.of_nat (length data) <= 65515 ->
  @Tcp.ip_output _ (ip_ops n) proto data LOOP_ADDR LOOP_ADDR s =
  (call_at n fp_ip_input (ip_packet proto data LOOP_ADDR LOOP_ADDR (ip_id_counter (low s)) 0) 1 ;; drain (H0 := handlers n) n 0 ;; drain (H0 := handlers n) (S n) 1 ;; kret (Z.of_nat (length data))) (next_id s).
Proof.
  intros Hl Hd. pose proof (next_id_looped s Hl) as [Ld Li Lp Lh Lr]. destruct Hl as [Ed Ei Ep Eh Er].
  cbn [Tcp.ip_output ip_ops ip_ops_at]. unfold Ip.ip_output.
  change ((LOOP_ADDR =? IP_ADDR_ANY) && (LOOP_ADDR =? IP_ADDR_BROADCAST)) with false. cbv iota. unfold kbind at 1, kget. rewrite Er. cbn [r_iface r_nexthop].
  rewrite Ei. cbn [loop_iface if_unicast if_dev]. rewrite Ed. cbn [loop_device d_mtu].
  change (negb (LOOP_ADDR =? IP_ADDR_ANY) && negb (LOOP_ADDR =? LOOP_ADDR)) with false. cbv iota. change (negb (0 =? IP_ADDR_ANY)) with false. cbv iota.
  destruct (Z.ltb_spec 65535 (IP_HDR_SIZE_MIN + Z.of_nat (length data))) as [Hx|]; [unfold IP_HDR_SIZE_MIN in Hx; lia|].
  unfold kbind at 1, ip_generate_id. unfold kbind at 1, kget. unfold kbind at 1, kmodify. unfold kret at 1. fold (next_id s). set (s1 := next_id s) in *.
  unfold ip_output_core. destruct (Z.ltb_spec IP_TOTAL_SIZE_MAX (20 + Z.of_nat (length data))) as [Hx|]; [unfold IP_TOTAL_SIZE_MAX in Hx; lia|].
  unfold ip_output_device. unfold kbind at 1 2, kget. cbv beta iota. rewrite Li. cbn [if_dev loop_iface]. rewrite Ld. cbn [d_flags loop_device].
  change (negb (Z.land 17 NET_DEVICE_FLAG_NEED_ARP =? 0)) with false. cbv iota.
  set (p := ip_packet _ _ _ _ _ _). assert (Lpk : length p = (20 + length data)%nat) by reflexivity.
  unfold net_device_output. unfold kbind at 1, kget. rewrite Ld. change (negb (NET_DEVICE_IS_UP loop_device)) with false. cbv iota. cbn [d_mtu loop_device d_ops]. rewrite Lpk.
  destruct (Z.ltb_spec 65535 (Z.of_nat (20 + length data))); [lia|].
  cbn [transmit drivers_at driver_transmit]. unfold loopback_transmit. unfold kbind at 1 2.
  rewrite (input_packet (handlers n) n p 1 s1) by done. cbn [call_handler handlers]. unfold kbind.
  destruct (call_at n fp_ip_input p 1 s1) as [[] s2|msg s2|c s2]; [|done|done].
  destruct (drain n 0 s2) as [[] s3|msg s3|c s3]; [|done|done]. by destruct (drain (S n) 1 s3).
Qed.

Definition loop_end (p : Z) : ip_endpoint := {| addr := LOOP_ADDR; port := p |}.
Lemma loop_end_ok p : 0 <= p < 2 ^ 16 -> endpoint_ok (loop_end p).
Proof. intros Hp. by split. Qed.

Definition deep : string := "kernel stack exhausted".
Definition endless {A} (o : outcome (world N) A) : Prop := exists s, o = Panicked deep s.
Lemma endless_bind {A B} (m : K (world N) A) (k : A -> K (world N) B) s : endless (m s) -> endless (kbind m k s).
Proof. intros [t E]. exists t. unfold kbind. by rewrite E. Qed.

(** With no handler left the output ends there; else the segment arrives. *)
Lemma talk_0 seq ack flg wnd data a b s : looped s -> Z.of_nat (length data) <= 65495 ->
  endless (@tcp_output_segment _ (ip_ops 0) seq ack flg wnd data (loop_end a) (loop_end b) s).
Proof.
  intros Hl Hd. unfold tcp_output_segment. destruct (Z.ltb_spec IP_PAYLOAD_SIZE_MAX (TCP_HDR_SIZE + Z.of_nat (length data))) as [Hx|]; [unfold IP_PAYLOAD_SIZE_MAX, IP_HDR_SIZE_MIN, TCP_HDR_SIZE in Hx; lia|].
  apply endless_bind. cbn [addr loop_end]. rewrite loop_output by (rewrite ?message_length; done || lia). apply endless_bind. by eexists.
Qed.
Lemma talk_S n seq ack flg wnd data a b s : looped s ->
  0 <= seq < 2 ^ 32 -> 0 <= ack < 2 ^ 32 -> 0 <= flg < 64 -> 0 <= wnd < 2 ^ 16 -> bytes data -> Z.of_nat (length data) <= 65495 -> 0 <= a < 2 ^ 16 -> 0 <= b < 2 ^ 16 ->
  endless (@tcp_segment_arrives _ (ip_ops n) {| seg_seq := seq; seg_ack := ack; seg_len := seq_space flg data; seg_wnd := wnd; seg_up := 0 |} flg data (loop_end b) (loop_end a) (next_id s)) ->
  endless (@tcp_output_segment _ (ip_ops (S n)) seq ack flg wnd data (loop_end a) (loop_end b) s).
Proof.
  intros Hl Hs Ha Hf Hw Hb Hd Pa Pb He. pose proof (next_id_looped s Hl) as [Ld Li Lp Lh Lr].
  unfold tcp_output_segment. destruct (Z.ltb_spec IP_PAYLOAD_SIZE_MAX (TCP_HDR_SIZE + Z.of_nat (length data))) as [Hx|]; [unfold IP_PAYLOAD_SIZE_MAX, IP_HDR_SIZE_MIN, TCP_HDR_SIZE in Hx; lia|].
  set (msg := tcp_message seq ack flg wnd data (loop_end a) (loop_end b)). assert (Lm : length msg = (20 + length data)%nat) by apply message_length.
  apply endless_bind. cbn [addr loop_end]. rewrite loop_output by (done || lia). apply endless_bind. cbn [call_at].
  rewrite <- (app_nil_r (ip_packet _ _ _ _ _ _)).
  rewrite (packet_delivered _ (next_id s) 1 0 _ IP_PROTOCOL_TCP LOOP_ADDR LOOP_ADDR msg [] fp_tcp_input); try done.
  - rewrite app_nil_r. unfold call_ip. unfold kbind at 1, kget. cbv beta. rewrite Li, Lm. cbn [if_broadcast loop_iface].
    replace (Z.of_nat (20 + length data)) with (TCP_HDR_SIZE + Z.of_nat (length data)) by (unfold TCP_HDR_SIZE; lia).
    pose proof (loop_end_ok a Pa) as Oa. pose proof (loop_end_ok b Pb) as Ob.
    destruct He as [t He]. exists t. refine (eq_trans (wire_segment (H := ip_ops n) seq ack flg wnd data (loop_end a) (loop_end b) 0xffffff7f (next_id s) Hs Ha Hf Hw Hb Hd Oa Ob _ _ _ _) He); by vm_compute.
  - constructor; [unfold net_device_get_iface; by rewrite Ld; cbn; rewrite Li|left; by rewrite Li|rewrite Lh; by exists 0%nat].
  - rewrite Lm. unfold IP_TOTAL_SIZE_MAX. lia.
Qed.

(** ** Two ends that disagree *)

(** Both ends are established, and what [j] acknowledges is ahead of what [i]
    takes to be sent. *)
Record at_odds i j (a b : Z) s : Prop := {
  ao_loop : looped s;
  ao_ports : 0 <= a < 2 ^ 16 /\ 0 <= b < 2 ^ 16;
  ao_i : tcp_pcb_select s (loop_end a) (Some (loop_end b)) = Some i;
  ao_j : tcp_pcb_select s (loop_end b) (Some (loop_end a)) = Some j;
  ao_ends_i : local (pcbof s i) = loop_end a /\ foreign (pcbof s i) = loop_end b;
  ao_ends_j : local (pcbof s j) = loop_end b /\ foreign (pcbof s j) = loop_end a;
  ao_est_i : state (pcbof s i) = ESTABLISHED;
  ao_est_j : state (pcbof s j) = ESTABLISHED;
  ao_ahead : 0 <= snd_una (psnd (pcbof s i)) <= snd_nxt (psnd (pcbof s i)) /\ snd_nxt (psnd (pcbof s i)) < rcv_nxt (prcv (pcbof s j)) /\ rcv_nxt (prcv (pcbof s j)) < 2 ^ 32;
  ao_back : snd_nxt (psnd (pcbof s j)) = rcv_nxt (prcv (pcbof s i)) /\ 0 <= rcv_nxt (prcv (pcbof s i)) < 2 ^ 32;
  ao_wnd_i : 0 < rcv_wnd (prcv (pcbof s i)) < 2 ^ 16 /\ rcv_nxt (prcv (pcbof s i)) + rcv_wnd (prcv (pcbof s i)) < 2 ^ 32;
  ao_wnd_j : 0 <= rcv_wnd (prcv (pcbof s j)) < 2 ^ 16;
}.
Lemma at_odds_next i j a b s : at_odds i j a b s -> at_odds i j a b (next_id s).
Proof. intros []. constructor; try done. by apply next_id_looped. Qed.

Section Segment.
Context {I : Type} `{IpOps I}.
Implicit Types (u : Tcp.tcp I).

Lemma output_ack_at k u : tcp_output k TCP_FLG_ACK [] u =
  tcp_output_segment (snd_nxt (psnd (pcbof u k))) (rcv_nxt (prcv (pcbof u k))) TCP_FLG_ACK (rcv_wnd (prcv (pcbof u k))) [] (local (pcbof u k)) (foreign (pcbof u k)) u.
Proof. done. Qed.
Lemma arrives_established seg flg data lo fo k u : tcp_pcb_select u lo (Some fo) = Some k -> state (pcbof u k) = ESTABLISHED ->
  tcp_segment_arrives seg flg data lo fo u = seg_otherwise seg flg data lo fo k u.
Proof. intros Hs He. unfold tcp_segment_arrives. rewrite get_at, Hs, He. done. Qed.
End Segment.

(** A segment out of the window is answered; so is one that acknowledges too much. *)
Lemma stale_answered n k seg lo fo s : state (pcbof s k) = ESTABLISHED -> seg_acceptable seg (pcbof s k) = false ->
  endless (@tcp_output _ (ip_ops n) k TCP_FLG_ACK [] s) -> endless (@seg_otherwise _ (ip_ops n) seg TCP_FLG_ACK [] lo fo k s).
Proof.
  intros He Ha Ho. unfold seg_otherwise. apply endless_bind. unfold seg_sequence. rewrite rd_at. cbn [id]. rewrite He, Ha. cbn [synchronized negb andb].
  change (negb (TCP_FLG_ISSET TCP_FLG_ACK TCP_FLG_RST)) with true. cbv iota. by do 2 apply endless_bind.
Qed.
Lemma early_answered n k seg lo fo s : state (pcbof s k) = ESTABLISHED -> seg_acceptable seg (pcbof s k) = true ->
  snd_una (psnd (pcbof s k)) <= snd_nxt (psnd (pcbof s k)) < seg_ack seg ->
  endless (@tcp_output _ (ip_ops n) k TCP_FLG_ACK [] s) -> endless (@seg_otherwise _ (ip_ops n) seg TCP_FLG_ACK [] lo fo k s).
Proof.
  intros He Ha Hn Ho. unfold seg_otherwise.
  rewrite (bind_at _ _ s true s) by (unfold seg_sequence; rewrite rd_at; cbn [id]; by rewrite He, Ha). cbn [negb].
  rewrite (bind_at _ _ s true s) by (unfold seg_rst; rewrite rd_at; by rewrite He). cbn [negb].
  rewrite (bind_at _ _ s true s) by (unfold seg_syn; rewrite rd_at; by rewrite He). cbn [negb].
  apply endless_bind. unfold seg_ack_field. change (negb (TCP_FLG_ISSET TCP_FLG_ACK TCP_FLG_ACK)) with false. cbv iota. rewrite rd_at. cbn [id]. rewrite He.
  unfold ack_established. rewrite rd_at. cbn [id]. apply endless_bind.
  destruct (Z.ltb_spec (snd_una (psnd (pcbof s k))) (seg_ack seg)), (Z.leb_spec (seg_ack seg) (snd_nxt (psnd (pcbof s k)))),
    (Z.ltb_spec (seg_ack seg) (snd_una (psnd (pcbof s k)))), (Z.ltb_spec (snd_nxt (psnd (pcbof s k))) (seg_ack seg)); try lia.
  cbn [andb]. by apply endless_bind.
Qed.

Lemma answer_for_ever n i j a b s : at_odds i j a b s ->
  endless (@tcp_output _ (ip_ops n) i TCP_FLG_ACK [] s) /\ endless (@tcp_output _ (ip_ops n) j TCP_FLG_ACK [] s).
Proof.
  revert s. induction n as [|n IH]; intros s Ho; pose proof Ho as [Hl [Pa Pb] Hi Hj [Li Fi] [Lj Fj] Ei Ej Hx Hy Wi Wj]; rewrite !output_ack_at, Li, Fi, Lj, Fj.
  - split; by apply talk_0.
  - destruct (IH (next_id s) (at_odds_next _ _ _ _ _ Ho)) as [Oi Oj].
    assert (0 <= TCP_FLG_ACK < 64) by by unfold TCP_FLG_ACK.
    split; (apply talk_S; try done; try lia; [by constructor|]).
    + rewrite (arrives_established _ _ _ _ _ j) by done. apply stale_answered; [exact Ej| |exact Oj]. unfold seg_acceptable. cbn [seg_len seg_seq seq_space].
      change (pcbof (next_id s) j) with (pcbof s j). change (seq_space TCP_FLG_ACK []) with 0. cbn [Z.eqb].
      destruct (Z.eqb_spec (rcv_wnd (prcv (pcbof s j))) 0); [apply Z.eqb_neq; lia|]. destruct (Z.leb_spec (rcv_nxt (prcv (pcbof s j))) (snd_nxt (psnd (pcbof s i)))); [lia|done].
    + rewrite (arrives_established _ _ _ _ _ i) by done. apply early_answered; [exact Ei| |cbn [seg_ack]; change (pcbof (next_id s) i) with (pcbof s i); lia|exact Oi].
      unfold seg_acceptable. cbn [seg_len seg_seq]. change (seq_space TCP_FLG_ACK []) with 0. cbn [Z.eqb]. change (pcbof (next_id s) i) with (pcbof s i).
      destruct (Z.eqb_spec (rcv_wnd (prcv (pcbof s i))) 0); [lia|]. rewrite u32_small by lia. destruct Hy as [-> _].
      destruct (Z.leb_spec (rcv_nxt (prcv (pcbof s i))) (rcv_nxt (prcv (pcbof s i)))), (Z.ltb_spec (rcv_nxt (prcv (pcbof s i))) (rcv_nxt (prcv (pcbof s i)) + rcv_wnd (prcv (pcbof s i)))); lia || done.
Qed.

(** ** Sending *)

(** Two ends on this host, established, with nothing on the way. *)
Record paired i j (a b : Z) s : Prop := {
  pd_loop : looped s;
  pd_len : length (pcbs s) = TCP_PCB_SIZE /\ (i < TCP_PCB_SIZE)%nat /\ (j < TCP_PCB_SIZE)%nat /\ i <> j;
  pd_ports : 0 <= a < 2 ^ 16 /\ 0 <= b < 2 ^ 16;
  pd_i : tcp_pcb_select s (loop_end a) (Some (loop_end b)) = Some i;
  pd_j : tcp_pcb_select s (loop_end b) (Some (loop_end a)) = Some j;
  pd_ends_i : local (pcbof s i) = loop_end a /\ foreign (pcbof s i) = loop_end b;
  pd_ends_j : local (pcbof s j) = loop_end b /\ foreign (pcbof s j) = loop_end a;
  pd_est_i : state (pcbof s i) = ESTABLISHED;
  pd_est_j : state (pcbof s j) = ESTABLISHED;
  pd_forth : snd_una (psnd (pcbof s i)) = snd_nxt (psnd (pcbof s i)) /\ snd_nxt (psnd (pcbof s i)) = rcv_nxt (prcv (pcbof s j)) /\
             0 <= rcv_nxt (prcv (pcbof s j)) /\ rcv_nxt (prcv (pcbof s j)) + BUFSIZE < 2 ^ 32;
  pd_back : snd_una (psnd (pcbof s j)) = snd_nxt (psnd (pcbof s j)) /\ snd_nxt (psnd (pcbof s j)) = rcv_nxt (prcv (pcbof s i)) /\
            0 <= rcv_nxt (prcv (pcbof s i)) /\ rcv_nxt (prcv (pcbof s i)) + BUFSIZE < 2 ^ 32;
  pd_wnd : 0 < snd_wnd (psnd (pcbof s i)) <= rcv_wnd (prcv (pcbof s j)) /\ rcv_wnd (prcv (pcbof s j)) <= BUFSIZE /\ 0 < rcv_wnd (prcv (pcbof s i)) <= BUFSIZE;
}.

(** What the text of a segment leaves in the block. *)
Definition texted (seg : tcp_segment_info) (d : list Z) (p : tcp_pcb) : tcp_pcb :=
  set_prcv (set_rcv_wnd (u16 (rcv_wnd (prcv p) - Z.of_nat (length d))) (set_rcv_nxt (seg_seq seg +u seg_len seg) (prcv p)))
    (set_buf (splice (Z.to_nat (BUFSIZE - rcv_wnd (prcv p))) d (buf p)) p).

(** Text in order is acknowledged. *)
Lemma text_answered n k seg d lo fo s : (k < length (pcbs s))%nat -> state (pcbof s k) = ESTABLISHED -> seg_acceptable seg (pcbof s k) = true ->
  seg_ack seg = snd_nxt (psnd (pcbof s k)) -> snd_una (psnd (pcbof s k)) = snd_nxt (psnd (pcbof s k)) -> 0 < Z.of_nat (length d) <= rcv_wnd (prcv (pcbof s k)) ->
  endless (@tcp_output _ (ip_ops n) k TCP_FLG_ACK [] (upd k (texted seg d) s)) -> endless (@seg_otherwise _ (ip_ops n) seg PUSH d lo fo k s).
Proof.
  intros Hk He Ha Hq Hu Hd Ho. rewrite otherwise_ack by (by rewrite ?He).
  rewrite (bind_at _ _ s true s).
  2: { unfold seg_ack_field. change (negb (TCP_FLG_ISSET PUSH TCP_FLG_ACK)) with false. cbv iota. rewrite rd_at. cbn [id]. rewrite He.
    unfold ack_established. rewrite rd_at. cbn [id]. rewrite Hu, Hq, !Z.ltb_irrefl. cbn [andb]. rewrite ret_at. cbn [negb]. rewrite rd_at. cbn [id]. by rewrite He. }
  cbn [negb]. apply endless_bind. unfold seg_text. rewrite rd_at, He. destruct (Z.eqb_spec (Z.of_nat (length d)) 0); [lia|].
  unfold buf_append. rewrite bind_assoc, rd_at. cbn [id]. destruct (Z.ltb_spec BUFSIZE (BUFSIZE - rcv_wnd (prcv (pcbof s k)) + Z.of_nat (length d))); [lia|].
  rewrite !wr_upd, !upd_upd. apply endless_bind.
  rewrite (tcp_upd_at k _ s (texted seg d (pcbof s k))) by done. rewrite (tcp_upd_at k (texted seg d) s _ Hk eq_refl) in Ho. exact Ho.
Qed.

Lemma select_upd i f s l r : (forall p, eview (f p) = eview p) -> tcp_pcb_select (upd i f s) l r = tcp_pcb_select s l r.
Proof. intros Hf. apply select_view. by apply (views_alter eview). Qed.

(** The sender has queued the data, the receiver has taken it, and the sender
    has not moved on yet. *)
Lemma sent_at_odds i j a b s q seg d : paired i j a b s -> 0 < Z.of_nat (length d) <= rcv_wnd (prcv (pcbof s j)) ->
  seg_seq seg = snd_nxt (psnd (pcbof s i)) -> seg_len seg = Z.of_nat (length d) ->
  at_odds i j a b (upd j (texted seg d) (next_id (upd i (set_rqueue q) s))).
Proof.
  intros [Hl (Ln & Li & Lj & Hne) [Pa Pb] Hi Hj Ei Ej Si Sj (F1 & F2 & F3) (B1 & B2 & B3) W] Hd Hs Hg. set (s1 := next_id (upd i (set_rqueue q) s)).
  assert (L1 : length (pcbs s1) = TCP_PCB_SIZE) by (rewrite <- Ln; apply upd_length).
  assert (Pj : pcbof (upd j (texted seg d) s1) j = texted seg d (pcbof s j)).
  { rewrite pcbof_upd by lia. f_equal. by apply pcbof_upd_ne. }
  assert (Pi : pcbof (upd j (texted seg d) s1) i = set_rqueue q (pcbof s i)).
  { rewrite pcbof_upd_ne by done. apply pcbof_upd. lia. }
  assert (Hsel : forall l r, tcp_pcb_select (upd j (texted seg d) s1) l r = tcp_pcb_select s l r).
  { intros l r. rewrite select_upd by done. by apply (select_upd i (set_rqueue q) s). }
  assert (HS : BUFSIZE = 65535) by done.
  constructor; rewrite ?Hsel, ?Pi, ?Pj; cbn [texted set_rqueue set_prcv set_buf local foreign state psnd prcv set_rcv_wnd set_rcv_nxt rcv_nxt rcv_wnd]; try done.
  - by apply looped_upd, next_id_looped, looped_upd.
  - rewrite Hs, Hg, u32_small by lia. lia.
  - lia.
  - lia.
  - rewrite u16_small by lia. lia.
Qed.

Lemma queue_add_at n i seq flg d s : exists q, @tcp_retransmit_queue_add _ (ip_ops n) i seq flg d s = Done 0 (upd i (set_rqueue q) s).
Proof.
  unfold tcp_retransmit_queue_add. cbn [memory_alloc ip_ops ip_ops_at]. rewrite (bind_at _ _ _ true s) by apply Hh. cbn [negb]. rewrite get_at.
  rewrite (bind_at _ _ _ true s) by apply Hh. rewrite rd_at. cbn [queue_push]. rewrite wr_upd. by eexists.
Qed.
Lemma push_never_ends n i j a b d s : paired i j a b s -> bytes d -> 0 < Z.of_nat (length d) <= rcv_wnd (prcv (pcbof s j)) -> Z.of_nat (length d) <= 65495 ->
  endless (@tcp_output _ (ip_ops n) i PUSH d s).
Proof.
  intros Hp Hb Hd Hd'. pose proof Hp as [Hl (Ln & Li & Lj & Hne) [Pa Pb] Hi Hj [Ei Ei'] [Ej Ej'] Si Sj (F1 & F2 & F3) (B1 & B2 & B3) W].
  assert (HS : BUFSIZE = 65535) by done.
  unfold tcp_output. rewrite rd_at. cbn [id]. change (TCP_FLG_ISSET PUSH TCP_FLG_SYN) with false. change (TCP_FLG_ISSET PUSH (Z.lor TCP_FLG_SYN TCP_FLG_FIN)) with false.
  destruct (Z.eqb_spec (Z.of_nat (length d)) 0); [lia|]. cbn [negb orb]. rewrite bind_assoc.
  destruct (queue_add_at n i (snd_nxt (psnd (pcbof s i))) PUSH d s) as [q Eq]. rewrite (bind_at _ _ _ _ _ Eq), ret_at, rd_at. cbn [id].
  rewrite pcbof_upd by lia. cbn [set_rqueue prcv local foreign]. rewrite Ei, Ei'. set (s1 := upd i (set_rqueue q) s).
  assert (Hl1 : looped s1) by by apply looped_upd. assert (0 <= PUSH < 64) by done.
  destruct n as [|n]; [by apply talk_0|]. apply talk_S; try done; try lia.
  set (seg := {| seg_seq := _ |}). assert (Hlen : seg_len seg = Z.of_nat (length d)).
  { unfold seg. cbn [seg_len]. unfold seq_space. change (TCP_FLG_ISSET PUSH TCP_FLG_SYN) with false. change (TCP_FLG_ISSET PUSH TCP_FLG_FIN) with false. cbn [cbool]. lia. }
  assert (Pj : pcbof (next_id s1) j = pcbof s j) by (by apply (pcbof_upd_ne i j (set_rqueue q) s)).
  assert (Lj1 : (j < length (pcbs (next_id s1)))%nat) by (change (pcbs (next_id s1)) with (pcbs s1); unfold s1; rewrite upd_length; lia).
  rewrite (arrives_established _ _ _ _ _ j) by (first [by rewrite Pj|change (tcp_pcb_select s1 (loop_end b) (Some (loop_end a)) = Some j); unfold s1; by rewrite select_upd]).
  apply text_answered; rewrite ?Pj; try done; [apply in_order_acceptable; rewrite ?Hlen; cbn [seg seg_seq]; lia|].
  exact (proj2 (answer_for_ever n i j a b _ (sent_at_odds i j a b s q seg d Hp Hd eq_refl Hlen))).
Qed.
End Loop.

