(* ===== verification/Sock.v ===== *)
(** * kernel/microps: sock.c and the system calls' side, sirpair_sock_user.c

    The table of sockets over TCP and UDP, and the functions that sysfile.c
    and file.c call.  A call that sleeps in TCP or UDP gives [Wait] with what
    it waits for; the functions with [_resume] go on from there.  Shown here:
    sockets that were never connected are never given back, so that a program
    uses up TCP for good by opening and closing them
    ([unconnected_sockets_are_lost]); a socket that cannot be opened keeps its
    entry in the table ([failed_open_keeps_entry]); the datagram calls reach
    their socket ([user_datagram_crosses]). *)

From Stdlib Require Import ZArith Lia.
From S2P Require Import Prelude Bytes NetUtil Pipe Fmt Tcp TcpHandshake Net Ether Arp Ip Udp Stack.

Definition AF_INET : Z := 2.
Definition SOCK_STREAM : Z := 1.
Definition SOCK_DGRAM : Z := 2.
Definition IP_ENDPOINT_STR_LEN : Z := 22.

Record sock := { used : bool; family : Z; type : Z; desc : Z }.
Definition sock0 : sock := {| used := false; family := 0; type := 0; desc := 0 |}.
Record sockaddr_in := { sin_family : Z; sin_port : Z; sin_addr : Z }.
Definition NSOCK : nat := 128.

(** The socket table, the two flags of kernel/net.c and the stack. *)
Record net_state (N : Type) := { socks : list sock; nic_ok : bool; microps_l3 : bool; stack : world N }.
Arguments socks {N}. Arguments nic_ok {N}. Arguments microps_l3 {N}. Arguments stack {N}.

Section Sock.
Context {N : Type} `{Nic N} `{Handlers N} `{Drivers N} `{Callbacks N} `{IpOps (lower N)} (turns : nat).
Abbreviation W := (net_state N).
Implicit Types (s : W) (i : nat).

Definition upd_socks (f : list sock -> list sock) s : W := {| socks := f (socks s); nic_ok := nic_ok s; microps_l3 := microps_l3 s; stack := stack s |}.
Definition set_stack (w : world N) s : W := {| socks := socks s; nic_ok := nic_ok s; microps_l3 := microps_l3 s; stack := w |}.
Definition instack {A} (m : K (world N) A) : K W A := zoom stack set_stack m.
Definition sockof s i : sock := nth i (socks s) sock0.
Definition wr_sock i (f : sock -> sock) : K W unit := kmodify (upd_socks (alter f i)).
Definition ep_of (a : sockaddr_in) : ip_endpoint := {| addr := sin_addr a; port := sin_port a |}.

(** ** sock.c *)

(** The result and the address; [n] is what the address was before. *)
Definition sockaddr_pton (p : list Z) (n : sockaddr_in) (size : Z) (ep : ip_endpoint) : option (Z * sockaddr_in) :=
  '(r, ep) ← ip_endpoint_pton p ep;
  if r =? 0 then
    if size <? 8 then Some (-1, n)
    else Some (0, {| sin_family := AF_INET; sin_port := port ep; sin_addr := addr ep |})
  else Some (-1, n).
Definition sockaddr_ntop (n : sockaddr_in) (size : Z) : option (list Z) :=
  if sin_family n =? AF_INET then
    if size <? IP_ENDPOINT_STR_LEN then None else ip_endpoint_ntop (ep_of n) size
  else None.

Definition sock_alloc : K W (option nat) :=
  s <- kget ;;
  match list_find (fun e => used e = false) (socks s) with
  | None => kret None
  | Some (i, _) => wr_sock i (fun e => {| used := true; family := family e; type := type e; desc := desc e |}) ;; kret (Some i)
  end.
Definition sock_free i : K W Z := wr_sock i (fun _ => sock0) ;; kret 0.
Definition sock_get (id : Z) : option nat := if (id <? 0) || (Z.of_nat NSOCK <=? id) then None else Some (Z.to_nat id).
Definition sock_open (domain ty protocol : Z) : K W Z :=
  if negb (domain =? AF_INET) then kret (-1)
  else if negb (ty =? SOCK_STREAM) && negb (ty =? SOCK_DGRAM) then kret (-1)
  else if negb (protocol =? 0) then kret (-1)
  else
    o <- sock_alloc ;;
    match o with
    | None => kret (-1)
    | Some i =>
        wr_sock i (fun e => {| used := used e; family := domain; type := ty; desc := desc e |}) ;;
        d <- (if ty =? SOCK_STREAM then instack tcp_open else instack udp_open) ;;
        wr_sock i (fun e => {| used := used e; family := family e; type := type e; desc := d |}) ;;
        kret (if d =? -1 then -1 else Z.of_nat i)
    end.
Definition sock_close (id : Z) : K W Z :=
  match sock_get id with
  | None => kret (-1)
  | Some i =>
      s <- kget ;;
      let e := sockof s i in
      if type e =? SOCK_STREAM then instack (tcp_close (desc e)) ;; sock_free i
      else if type e =? SOCK_DGRAM then instack (udp_close (desc e)) ;; sock_free i
      else kret (-1)
  end.

(** An entry of type [ty] and family AF_INET. *)
Definition inet (ty : Z) (id : Z) s : option sock :=
  match sock_get id with
  | None => None
  | Some i => let e := sockof s i in if (type e =? ty) && (family e =? AF_INET) then Some e else None
  end.
Definition sock_recvfrom (killed : bool) (id n : Z) : K W (segment (Z * option (ip_endpoint * list Z)) nat) :=
  s <- kget ;;
  match inet SOCK_DGRAM id s with
  | None => kret (Return (-1, None))
  | Some e => instack (udp_recvfrom killed (desc e) n)
  end.
Definition sock_sendto (id : Z) (buf : list Z) (a : sockaddr_in) : K W Z :=
  s <- kget ;;
  match inet SOCK_DGRAM id s with
  | None => kret (-1)
  | Some e => instack (udp_sendto turns (desc e) buf (ep_of a))
  end.
Definition sock_bind (id : Z) (a : sockaddr_in) : K W Z :=
  s <- kget ;;
  match inet SOCK_STREAM id s, inet SOCK_DGRAM id s with
  | Some e, _ => instack (tcp_bind (desc e) (ep_of a))
  | None, Some e => instack (udp_bind (desc e) (ep_of a))
  | None, None => kret (-1)
  end.
Definition sock_listen (id : Z) : K W Z :=
  s <- kget ;;
  match inet SOCK_STREAM id s with
  | None => kret (-1)
  | Some e => instack (tcp_listen (desc e))
  end.
(** After [tcp_accept]: the entry for the connection [ret] from [ep]. *)
Definition sock_accepted (e : sock) (r : segment (Z * option ip_endpoint) nat) : K W (segment (Z * option sockaddr_in) nat) :=
  match r with
  | Wait w => kret (Wait w)
  | Return (ret, ep) =>
      if ret =? -1 then kret (Return (-1, None))
      else
        o <- sock_alloc ;;
        match o with
        | None => ub "sock_accept: null pointer"
        | Some i =>
            wr_sock i (fun x => {| used := used x; family := family e; type := type e; desc := ret |}) ;;
            kret (Return (Z.of_nat i, (fun p => {| sin_family := family e; sin_port := port p; sin_addr := addr p |}) <$> ep))
        end
  end.
Definition sock_accept (killed : bool) (id : Z) : K W (segment (Z * option sockaddr_in) nat) :=
  s <- kget ;;
  match inet SOCK_STREAM id s with
  | None => kret (Return (-1, None))
  | Some e => r <- instack (tcp_accept killed (desc e)) ;; sock_accepted e r
  end.
Definition sock_accept_resume (killed : bool) (e : sock) (w : nat) : K W (segment (Z * option sockaddr_in) nat) :=
  r <- instack (accept_resume killed w) ;; sock_accepted e r.
Definition sock_connect (killed : bool) (id : Z) (a : sockaddr_in) : K W (segment Z open_wait) :=
  s <- kget ;;
  match inet SOCK_STREAM id s with
  | None => kret (Return (-1))
  | Some e => instack (tcp_connect killed (desc e) (ep_of a))
  end.
Definition sock_recv (killed : bool) (id n : Z) : K W (segment (Z * list Z) recv_wait) :=
  s <- kget ;;
  match inet SOCK_STREAM id s with
  | None => kret (Return (-1, []))
  | Some e => instack (tcp_receive killed (desc e) n)
  end.
Definition sock_send (killed : bool) (id : Z) (buf : list Z) : K W (segment Z send_wait) :=
  s <- kget ;;
  match inet SOCK_STREAM id s with
  | None => kret (Return (-1))
  | Some e => instack (tcp_send killed (desc e) buf)
  end.
Definition sock_fdready (id : Z) (forwrite is_listen : bool) : K W Z :=
  match sock_get id with
  | None => kret (-1)
  | Some i =>
      s <- kget ;;
      let e := sockof s i in
      if type e =? SOCK_STREAM then
        if is_listen then if forwrite then kret 0 else instack (tcp_sock_listen_readable (desc e))
        else if forwrite then kret 1 else instack (tcp_sock_has_rx_data (desc e))
      else if type e =? SOCK_DGRAM then
        if forwrite then kret 1 else instack (udp_sock_has_datagram (desc e))
      else kret (-1)
  end.

(** ** sirpair_sock_user.c *)

(** The digits of a number up to [max]: the value, how many, and the rest. *)
Fixpoint number (max : Z) (p : list Z) (v ndig : Z) : option (Z * Z * list Z) :=
  match p with
  | c :: p' =>
      if (48 <=? c) && (c <=? 57) then
        let v := v * 10 + (c - 48) in
        if max <? v then None else number max p' v (ndig + 1)
      else Some (v, ndig, p)
  | [] => Some (v, ndig, p)
  end.
Fixpoint four (n : nat) (p : list Z) : option (list Z * list Z) :=
  match n with
  | O => Some ([], p)
  | S n' =>
      '(v, ndig, p) ← number 255 p 0 0;
      if ndig =? 0 then None
      else match n', p with
      | O, _ => Some ([u8 v], p)
      | S _, c :: p' => if negb (c =? 46) then None else '(ip, p) ← four n' p'; Some (u8 v :: ip, p)
      | S _, [] => None
      end
  end.
(** The default port is 23. *)
Definition parse_ipv4_port_bind (s : list Z) : option (list Z * Z) :=
  '(ip, p) ← four 4 s;
  match p with
  | [] => Some (ip, 23)
  | c :: p' =>
      if c =? 58 then '(v, ndig, _) ← number 65535 p' 0 0; if ndig =? 0 then None else Some (ip, v)
      else None
  end.
Definition ip4_to_sockaddr (ip : list Z) (port_host : Z) : sockaddr_in := {| sin_family := AF_INET; sin_addr := le_dec (take 4 ip); sin_port := hton16 (u16 port_host) |}.
Definition ip4_to_endpoint (ip : list Z) (port_host : Z) : ip_endpoint := {| addr := le_dec (take 4 ip); port := hton16 (u16 port_host) |}.

Definition net_tcp_user_alloc : K W Z :=
  s <- kget ;;
  if negb (nic_ok s) || negb (microps_l3 s) then kret (-1) else instack tcp_open.
Definition net_tcp_user_close (slot : Z) : K W unit := if slot <? 0 then kret tt else instack (tcp_close slot) ;; kret tt.
Definition net_tcp_user_unref (slot kind : Z) : K W unit := net_tcp_user_close slot.
Definition net_tcp_user_bind (slot : Z) (path : option (list Z)) : K W Z :=
  match path with
  | None => kret (-1)
  | Some path =>
      if slot <? 0 then kret (-1)
      else match parse_ipv4_port_bind path with
      | None => kret (-1)
      | Some (ip, port) =>
          if (port <=? 0) || (65535 <? port) then kret (-1) else instack (tcp_bind slot (ip4_to_endpoint ip port))
      end
  end.
Definition net_tcp_user_listen (slot : Z) : K W Z := if slot <? 0 then kret (-1) else instack (tcp_listen slot).
Definition net_tcp_user_connect (killed : bool) (slot : Z) (rip : list Z) (rport : Z) : K W (segment Z open_wait) :=
  s <- kget ;;
  if (slot <? 0) || negb (microps_l3 s) then kret (Return (-1))
  else instack (tcp_connect killed slot {| addr := le_dec (take 4 rip); port := hton16 rport |}).
Definition net_tcp_user_read (killed : bool) (slot n listen_fd : Z) : K W (segment (Z * list Z) recv_wait) :=
  if (slot <? 0) || negb (listen_fd =? 0) then kret (Return (-1, [])) else instack (tcp_receive killed slot (u32 n)).
Definition net_tcp_user_write (killed : bool) (slot : Z) (buf : list Z) (listen_fd : Z) : K W (segment Z send_wait) :=
  if (slot <? 0) || negb (listen_fd =? 0) then kret (Return (-1)) else instack (tcp_send killed slot buf).
(** The microps stack is switched back on, and polled if there is a card
    ([microps_net_running] is set since the socket was opened). *)
Definition net_tcp_user_fdready (killed : bool) (slot : Z) (forwrite listen_fd : bool) : K W Z :=
  if slot <? 0 then kret (-1)
  else if killed then kret (-1)
  else
    kmodify (fun s => {| socks := socks s; nic_ok := nic_ok s; microps_l3 := true; stack := stack s |}) ;;
    s <- kget ;;
    (if nic_ok s then instack net_poll ;; instack (net_protocol_handler turns) ;; instack net_timer_handler ;; kret tt else kret tt) ;;
    if listen_fd then if forwrite then kret 0 else instack (tcp_sock_listen_readable slot)
    else if forwrite then kret 1
    else instack (tcp_sock_has_rx_data slot).
Definition net_udp_user_alloc : K W Z :=
  s <- kget ;;
  if negb (nic_ok s) || negb (microps_l3 s) then kret (-1) else sock_open AF_INET SOCK_DGRAM 0.
Definition net_udp_user_close (slot : Z) : K W unit := if slot <? 0 then kret tt else sock_close slot ;; kret tt.
Definition net_udp_user_unref (slot : Z) : K W unit := net_udp_user_close slot.
Definition net_udp_user_bind (slot : Z) (path : option (list Z)) : K W Z :=
  match path with
  | None => kret (-1)
  | Some path =>
      if slot <? 0 then kret (-1)
      else match parse_ipv4_port_bind path with
      | None => kret (-1)
      | Some (ip, port) =>
          if (port <? 0) || (65535 <? port) then kret (-1)
          else sock_bind slot (ip4_to_sockaddr ip (if port =? 0 then 40300 + slot else port))
      end
  end.
(** The result of the reception, with the address and the port of the sender. *)
Definition udp_received (r : segment (Z * option (ip_endpoint * list Z)) nat) : segment (Z * option (list Z * list Z * Z)) nat :=
  match r with
  | Wait w => Wait w
  | Return (r, o) =>
      if r <? 0 then Return (-1, None)
      else Return (r, (fun x => (snd x, le_enc 4 (addr (fst x)), ntoh16 (port (fst x)))) <$> o)
  end.
Definition net_udp_user_recvfrom (killed : bool) (slot n : Z) : K W (segment (Z * option (list Z * list Z * Z)) nat) :=
  if (slot <? 0) || (n <? 0) then kret (Return (-1, None))
  else if n =? 0 then kret (Return (0, None))
  else r <- sock_recvfrom killed slot n ;; kret (udp_received r).
Definition net_udp_user_sendto (slot : Z) (buf dst_ip : list Z) (dst_port : Z) : K W Z :=
  if slot <? 0 then kret (-1)
  else match buf with
  | [] => kret 0
  | _ => sock_sendto slot buf (ip4_to_sockaddr dst_ip dst_port)
  end.
Definition net_udp_user_fdready (killed : bool) (slot : Z) (forwrite : bool) : K W Z :=
  if slot <? 0 then kret (-1) else if killed then kret (-1) else sock_fdready slot forwrite false.
End Sock.

(** ** Sockets that were never connected *)

Section Lost.
Context {N : Type} `{Nic N} `{IpOps (lower N)}.
Implicit Types (s : net_state N).

(** What a program does that opens a stream socket and closes it. *)
Definition open_close : K (net_state N) unit := slot <- net_tcp_user_alloc ;; net_tcp_user_close slot.
Fixpoint times (n : nat) (m : K (net_state N) unit) : K (net_state N) unit := match n with O => kret tt | S n' => m ;; times n' m end.
(** The blocks that are free. *)
Definition free_blocks (l : list tcp_pcb) : nat := length (filter (fun p => state p = FREE) l).
Record running s : Prop := { rn_nic : nic_ok s = true; rn_l3 : microps_l3 s = true; rn_len : length (pcbs (stack s)) = TCP_PCB_SIZE }.

Lemma free_blocks_alter l i p f : l !! i = Some p -> state p = FREE -> state (f p) <> FREE -> free_blocks l = S (free_blocks (alter f i l)).
Proof.
  intros Hl Hp Hf. unfold free_blocks. rewrite <- (take_drop_middle l i p Hl) at 1. assert (Hi : (i < length l)%nat) by by apply lookup_lt_Some in Hl.
  assert (Ea : alter f i l = take i l ++ f p :: drop (S i) l).
  { rewrite <- (take_drop_middle l i p Hl) at 1. rewrite alter_app_r_alt by (rewrite length_take; lia). rewrite length_take, Nat.min_l, Nat.sub_diag by lia. done. }
  rewrite Ea, !filter_app, !filter_cons, decide_True, decide_False by done. rewrite !length_app. cbn. lia.
Qed.
Lemma open_full s : running s -> free_blocks (pcbs (stack s)) = 0%nat -> net_tcp_user_alloc s = Done (-1) s.
Proof.
  intros [Hn Hl Hlen] Hf. unfold net_tcp_user_alloc, kbind, kget. rewrite Hn, Hl. cbn [negb orb]. unfold instack, zoom, tcp_open, tcp_pcb_alloc, kbind, kget.
  assert (list_find (fun p => state p = FREE) (pcbs (stack s)) = None) as ->.
  { apply list_find_None, Forall_forall. intros p Hp E. unfold free_blocks in Hf. apply length_zero_iff_nil in Hf. assert (Hin : p ∈ filter (fun p => state p = FREE) (pcbs (stack s))) by by apply list_elem_of_filter. by rewrite Hf in Hin; apply elem_of_nil in Hin. }
  cbn. by destruct s.
Qed.
Lemma open_close_loses s : running s -> exists s', open_close s = Done tt s' /\ running s' /\ free_blocks (pcbs (stack s')) = pred (free_blocks (pcbs (stack s))).
Proof.
  intros Hr. destruct (decide (free_blocks (pcbs (stack s)) = 0%nat)) as [Hz|Hz].
  { exists s. unfold open_close. unfold kbind. rewrite open_full by done. by rewrite Hz. }
  pose proof Hr as [Hn Hl Hlen]. destruct (list_find (fun p => state p = FREE) (pcbs (stack s))) as [[i p]|] eqn:Ef.
  2: { exfalso. apply Hz. unfold free_blocks. apply length_zero_iff_nil. apply list_find_None in Ef. rewrite Forall_forall in Ef.
    destruct (filter _ _) as [|p l] eqn:El; [done|]. assert (Hin : p ∈ p :: l) by by left. rewrite <- El in Hin. apply list_elem_of_filter in Hin as [? ?]. by destruct (Ef p). }
  apply list_find_Some in Ef as (Hi & Hp & Hb). assert (Hlt : (i < length (pcbs (stack s)))%nat) by by apply lookup_lt_Some in Hi.
  set (f := fun q => set_mode TCP_PCB_MODE_SOCKET (set_ctx sched_ctx_init (set_state CLOSED q))). set (w := upd i f (stack s)).
  assert (Eo : tcp_open (stack s) = Done (tcp_pcb_id i) w).
  { unfold tcp_open, tcp_pcb_alloc. rewrite bind_assoc, get_at. assert (list_find (fun p => state p = FREE) (pcbs (stack s)) = Some (i, p)) as -> by (apply list_find_Some; done).
    transitivity (Done (S := world N) (tcp_pcb_id i) (upd i (set_mode TCP_PCB_MODE_SOCKET) (upd i (set_ctx sched_ctx_init) (upd i (set_state CLOSED) (stack s))))); [done|].
    by rewrite !upd_upd. }
  assert (Pw : pcbof w i = f (pcbof (stack s) i)) by by apply pcbof_upd. rewrite Hlen in Hlt.
  assert (Ec : tcp_close (tcp_pcb_id i) w = Done (-1) w).
  { unfold tcp_close. rewrite get_at. unfold tcp_pcb_get, tcp_pcb_id. rewrite Nat2Z.id, Pw. unfold TCP_PCB_SIZE in *. destruct (Z.ltb_spec (Z.of_nat i) 0), (Z.leb_spec (Z.of_nat 16) (Z.of_nat i)); try lia. cbn [orb f set_mode set_ctx set_state state].
    rewrite bool_decide_eq_false_2 by done. rewrite Pw. done. }
  exists (set_stack w s). split; [|split].
  - unfold open_close, net_tcp_user_alloc. unfold kbind at 1 2, kget. rewrite Hn, Hl. cbn [negb orb]. unfold instack, zoom. rewrite Eo. unfold net_tcp_user_close.
    destruct (Z.ltb_spec (tcp_pcb_id i) 0); [unfold tcp_pcb_id in *; lia|]. unfold kbind, instack, zoom. cbn [stack set_stack]. rewrite Ec. done.
  - constructor; [done|done|]. cbn [stack set_stack]. unfold w. by rewrite upd_length.
  - cbn [stack set_stack]. unfold w, upd. cbn [pcbs set_pcbs]. rewrite (free_blocks_alter (pcbs (stack s)) i p f); done.
Qed.
End Lost.

(** C30. Sockets that were never connected are lost: tcp_close leaves the block
    of a socket that is not connected in the table, so that a program that
    opens and closes a stream socket 16 times leaves none for anyone. *)
Theorem unconnected_sockets_are_lost {N} `{Nic N} `{IpOps (lower N)} (s : net_state N) : running s ->
  exists s', times TCP_PCB_SIZE open_close s = Done tt s' /\ net_tcp_user_alloc s' = Done (-1) s'.
Proof.
  intros Hr. assert (Hf : (free_blocks (pcbs (stack s)) <= TCP_PCB_SIZE)%nat) by (unfold free_blocks; rewrite <- (rn_len _ Hr); apply length_filter).
  revert s Hr Hf. induction TCP_PCB_SIZE as [|n IH]; intros s Hr Hf.
  - exists s. split; [done|]. apply open_full; [done|lia].
  - destruct (open_close_loses s Hr) as (s1 & E & Hr1 & Hf1). destruct (IH s1 Hr1) as (s' & E' & Ha); [lia|]. exists s'. split; [|done]. cbn [times]. unfold kbind. by rewrite E.
Qed.

(** An open that fails keeps its entry: the table fills up with entries that
    nobody can close. *)
Theorem failed_open_keeps_entry {N} `{Nic N} `{IpOps (lower N)} (s : net_state N) i e : list_find (fun e => used e = false) (socks s) = Some (i, e) ->
  tcp_open (stack s) = Done (-1) (stack s) ->
  exists s', sock_open AF_INET SOCK_STREAM 0 s = Done (-1) s' /\ socks s' !! i = Some {| used := true; family := AF_INET; type := SOCK_STREAM; desc := -1 |}.
Proof.
  intros Hf Ho. apply list_find_Some in Hf as Hf'. destruct Hf' as (Hi & _). unfold sock_open. cbn [negb Z.eqb Pos.eqb AF_INET SOCK_STREAM SOCK_DGRAM andb]. unfold sock_alloc, kbind, kget. rewrite Hf.
  unfold wr_sock, kmodify, kret, instack, zoom, upd_socks. cbv beta iota. cbn [stack]. rewrite Ho. eexists. split; [done|]. cbn [socks set_stack]. by rewrite !list_lookup_alter_eq, Hi.
Qed.

(** ** Datagrams from program to program *)

Section Datagrams.
Implicit Types (s : net_state card).

(** The datagram at the front of the queue is received. *)
Lemma recvfrom_front {N} `{Nic N} (w : world N) j src data rest size : (j < length (udp_pcbs (low w)))%nat -> udp_pcb_get w (udp_pcb_id j) = Some j ->
  waiting w j = (src, data) :: rest -> Z.of_nat (length data) <= size ->
  exists w', udp_recvfrom false (udp_pcb_id j) size w = Done (Return (Z.of_nat (length data), Some (src, data))) w' /\ waiting w' j = rest.
Proof.
  intros Hj Hg Hw Hs. unfold udp_recvfrom, kbind, kget. rewrite Hg. unfold recv_loop, kbind, kget, queue_pop. unfold waiting in Hw. rewrite Hw. rewrite Z.min_r by lia.
  rewrite Nat2Z.id, take_ge by lia. unfold uwr, kmodify, kret. eexists. split; [done|]. unfold waiting, upcbof. cbn. apply lookup_lt_is_Some in Hj as [b Hb].
  by rewrite (nth_lookup_Some _ _ _ (set_u_queue {| entries := rest; num := num (u_queue (upcbof w j)) -u 1 |} b)) by (by rewrite list_lookup_alter_eq, Hb).
Qed.
Lemma le_dec_ip ip : 0 <= ip < 2 ^ 32 -> le_dec (take 4 (le_enc 4 ip)) = ip.
Proof. intros Hi. rewrite take_ge by by rewrite le_enc_len. by apply (field_dec 4). Qed.
End Datagrams.

(** C15. Datagrams go from program to program: what a program sends with
    net_udp_user_sendto on one host leaves it as one Ethernet frame; when the
    other host is given that frame, the program that receives there gets
    exactly the data, the sender's address and its port. *)
Theorem user_datagram_crosses n m (A B : net_state card) da ia ipA macA db ib ipB macB slotA slotB eA eB i a0 pA j pB data size :
  reaches (stack A) da ia ipA macA ipB macB -> inet SOCK_DGRAM slotA A = Some eA -> udp_pcb_get (stack A) (desc eA) = Some i ->
  u_local (upcbof (stack A) i) = {| addr := a0; port := hton16 pA |} -> a0 = IP_ADDR_ANY \/ a0 = ipA -> 0 < pA < 2 ^ 16 ->
  station (stack B) db ib ipB macB -> protocols (net_of (stack B)) = idle_protocols -> ip_protocols (low (stack B)) = ip_handlers ->
  inet SOCK_DGRAM slotB B = Some eB -> desc eB = udp_pcb_id j -> bound j {| addr := ipB; port := hton16 pB |} (stack B) -> waiting (stack B) j = [] ->
  0 <= pB < 2 ^ 16 -> bytes data -> 0 < Z.of_nat (length data) <= size -> 28 + Z.of_nat (length data) <= 1500 -> 0 <= slotA -> 0 <= slotB ->
  exists A' f w B',
    net_udp_user_sendto (H0 := handlers n) (H1 := drivers n) n slotA data (le_enc 4 ipB) pB A = Done (Z.of_nat (length data)) A' /\
    tx (nic (low (stack A'))) = tx (nic (low (stack A))) ++ [f] /\
    sirpair_microps_deliver_ether (H0 := handlers (S m)) (S m) (Some db) f (stack B) = Done tt w /\
    net_udp_user_recvfrom false slotB size (set_stack w B) = Done (Return (Z.of_nat (length data), Some (data, le_enc 4 ipA, pA))) B'.
Proof.
  intros HA HeA Hg Hlo Ha0 HpA HB Hp Hh HeB Hdesc Hb Hw HpB Hd Hl Hmtu HsA HsB. assert (Hip : 0 <= ipB < 2 ^ 32) by apply HB.
  assert (HnA : hton16 pA <> 0) by (intros E; apply (f_equal ntoh16) in E; rewrite ntoh16_hton16 in E by lia; change (ntoh16 0) with 0 in E; lia).
  destruct (datagram_crosses n m (stack A) (stack B) da ia ipA macA db ib ipB macB (desc eA) i a0 (hton16 pA) j (hton16 pB) data HA Hg Hlo Ha0 HnA (hton16_range pA) HB Hp Hh Hb (hton16_range pB) Hd Hmtu)
    as (wA & f & w & Es & Etx & Ed & Ew & Hbw).
  rewrite Hw in Ew. cbn [app] in Ew.
  destruct (bound_get _ _ _ Hbw) as [Hgw Hjw].
  destruct (recvfrom_front w j _ _ [] size Hjw Hgw Ew ltac:(lia)) as (w' & Er & _).
  exists (set_stack wA A), f, w, (set_stack w' (set_stack w B)). split; [|split; [done|split; [done|]]].
  - unfold net_udp_user_sendto. destruct (Z.ltb_spec slotA 0); [lia|]. destruct data as [|c data'] eqn:Edata; [cbn in Hl; lia|]. rewrite <- Edata in *.
    unfold sock_sendto, kbind, kget. rewrite HeA. unfold instack, zoom, ip4_to_sockaddr, ep_of. cbn [sin_addr sin_port]. rewrite le_dec_ip, u16_small by done. by rewrite Es.
  - unfold net_udp_user_recvfrom. destruct (Z.ltb_spec slotB 0), (Z.ltb_spec size 0); try lia. cbn [orb]. destruct (Z.eqb_spec size 0); [lia|].
    unfold sock_recvfrom, kbind, kget. change (inet SOCK_DGRAM slotB (set_stack w B)) with (inet SOCK_DGRAM slotB B). rewrite HeB. unfold instack, zoom. cbn [stack set_stack]. rewrite Hdesc, Er.
    unfold kret, udp_received. destruct (Z.ltb_spec (Z.of_nat (length data)) 0); [lia|]. cbn. by rewrite ntoh16_hton16 by lia.
Qed.
