(* ===== verification/NetWitness.v ===== *)
(** * kernel/microps: the theorems on concrete hosts *)

From Stdlib Require Import ZArith Lia.
From S2P Require Import Prelude Bytes NetUtil Pipe Tcp TcpStream TcpWire TcpWitness Net Ether Arp Ip Udp Stack Loop Sock.

Module NetHosts.
Definition after {A} (m : K (world card) A) (s : world card) : world card := match m s with Done _ s' => s' | _ => s end.
Definition ipA : Z := 0x0100000a. (* 10.0.0.1 *)
Definition ipB : Z := 0x0200000a. (* 10.0.0.2 *)
Definition macA : list Z := [2; 0; 0; 0; 0; 1].
Definition macB : list Z := [2; 0; 0; 0; 0; 2].
(** A host that has booted with address 10.0.0.[k]. *)
Definition booted (k : Z) (blocks : list tcp_pcb) : world card :=
  after (sirpair_microps_boot_phase (Some ([2; 0; 0; 0; 0; k], [10; 0; 0; k], [255; 255; 255; 0], [10; 0; 0; 254]))) (power_on blocks 100).
(** The other host's address has been resolved; a socket is bound to port 7. *)
Definition A0 : world card := after (_ <- udp_open ;; _ <- udp_bind 0 {| addr := 0; port := hton16 7 |} ;; arp_cache_insert ipB macB) (booted 1 []).
Definition B0 : world card := after (_ <- udp_open ;; udp_bind 0 {| addr := ipB; port := hton16 7 |}) (booted 2 []).

(** The same hosts with the socket of number 0 over block 0. *)
Definition dgram_sock (d : Z) : sock := {| used := true; family := AF_INET; type := SOCK_DGRAM; desc := d |}.
Definition UA : net_state card := {| socks := dgram_sock 0 :: repeat sock0 127; nic_ok := true; microps_l3 := true; stack := A0 |}.
Definition UB : net_state card := {| socks := dgram_sock 0 :: repeat sock0 127; nic_ok := true; microps_l3 := true; stack := B0 |}.

Definition pa : Z := TCP_SOURCE_PORT_MIN.
Definition pb : Z := hton16 80.
(** Two ends of a loopback connection. *)
Definition both : world card :=
  booted 1 (TcpHosts.est (loop_end pa) (loop_end pb) 1000 65535 2000 65535 :: TcpHosts.est (loop_end pb) (loop_end pa) 2000 65535 1000 65535 :: repeat pcb0 14).
Lemma both_looped : looped both.
Proof. unfold both. generalize (repeat pcb0 14). intros l. generalize (TcpHosts.est (loop_end pa) (loop_end pb) 1000 65535 2000 65535 :: TcpHosts.est (loop_end pb) (loop_end pa) 2000 65535 1000 65535 :: l).
  intros blocks. by constructor; vm_compute. Qed.
Lemma both_pcbs : pcbs both = TcpHosts.est (loop_end pa) (loop_end pb) 1000 65535 2000 65535 :: TcpHosts.est (loop_end pb) (loop_end pa) 2000 65535 1000 65535 :: repeat pcb0 14.
Proof. unfold both. generalize (TcpHosts.est (loop_end pa) (loop_end pb) 1000 65535 2000 65535 :: TcpHosts.est (loop_end pb) (loop_end pa) 2000 65535 1000 65535 :: repeat pcb0 14). intros blocks. by vm_compute. Qed.
End NetHosts.
Import NetHosts.

Lemma arp_exchange_witness :
  let request := arp_message ARP_OP_REQUEST macA ipA (repeat 0 6) ipB in
  let reply := arp_message ARP_OP_REPLY macB ipB macA ipA in
  let H0 := handlers 3 in let D := drivers 3 in
  arp_request 1 ipB (booted 1 []) = net_device_output 2 ETHER_TYPE_ARP request (d_broadcast (devof (booted 1 []) 2)) (booted 1 []) /\
  exists B1 A1, knows B1 ipA macA /\
    arp_input (request ++ repeat 0 18) 2 B0 = (net_device_output 2 ETHER_TYPE_ARP reply macA ;; kret tt) B1 /\
    knows A1 ipB macB /\ arp_input (reply ++ repeat 0 18) 2 (booted 1 []) = Done tt A1 /\
    arp_resolve 3 1 ipB A1 = Done (ARP_RESOLVE_FOUND, Some macB) A1.
Proof.
  apply (arp_exchange (H0 := handlers 3) (H1 := drivers 3) 3 (booted 1 []) B0 2 1 ipA macA 2 1 ipB macB (repeat 0 18) (repeat 0 18)); constructor; by vm_compute.
Defined.

Lemma ip_delivers_witness : let call := call_ip (handlers 3) 3 in
  ip_input call (ip_packet IP_PROTOCOL_UDP [1; 2; 3] ipA ipB 9 0 ++ [0; 0]) 2 B0 = call fp_udp_input ([1; 2; 3] ++ [0; 0]) (Z.of_nat (length [1; 2; 3])) ipA ipB 1%nat B0.
Proof.
  apply (ip_delivers (call_ip (handlers 3) 3) B0 2 1 9 IP_PROTOCOL_UDP ipA ipB [1; 2; 3] [0; 0] fp_udp_input); [|by vm_compute..].
  constructor; [by vm_compute|left; by vm_compute|exists 1%nat; by vm_compute].
Defined.
Lemma short_total_wraps_witness : let call := call_ip (handlers 3) 3 in
  ip_input call (ip_header 10 9 0 IP_PROTOCOL_TCP ipA ipB ++ [1; 2; 3]) 2 B0 = call fp_tcp_input [1; 2; 3] (2 ^ 32 - 20 + 10) ipA ipB 1%nat B0.
Proof.
  apply (short_total_wraps (call_ip (handlers 3) 3) B0 2 1 9 IP_PROTOCOL_TCP 10 ipA ipB [1; 2; 3] fp_tcp_input); [|by vm_compute..].
  constructor; [by vm_compute|left; by vm_compute|exists 0%nat; by vm_compute].
Defined.

Lemma datagrams_in_order_witness : let src := {| addr := ipA; port := hton16 9 |} in let dst := {| addr := ipB; port := hton16 7 |} in
  exists s', run_io (dgram_step 0 dst) [Dgram src [1; 2; 3]; Dgram src [4]; Recv 2; Recv 5] B0 = Some ([None; None; Some (src, [1; 2]); Some (src, [4])], s') /\
    bound 0 dst s' /\ waiting s' 0 = [].
Proof. intros src dst. apply (datagrams_in_order 0 dst); [apply card_heap|by vm_compute|by constructor; vm_compute|by vm_compute]. Defined.

Lemma echo_answered_witness :
  let values := hton32 (Z.lor (Z.shiftl 77 16) 5) in let H0 := handlers 3 in let D := drivers 3 in
  icmp_input sirpair_on_icmp_echoreply 3 (icmp_message ICMP_TYPE_ECHO 0 values [1; 2] ++ [0]) (8 + 2) ipA ipB 1 B0 =
    (icmp_output 3 ICMP_TYPE_ECHOREPLY 0 values [1; 2] (if_unicast (ifof B0 1)) ipA ;; kret tt) B0 /\
  icmp_input sirpair_on_icmp_echoreply 3 (icmp_message ICMP_TYPE_ECHOREPLY 0 values [1; 2] ++ [0]) (8 + 2) ipA ipB 1 B0 = sirpair_on_icmp_echoreply 77 5 B0.
Proof.
  apply (echo_answered (H0 := handlers 3) (H1 := drivers 3) sirpair_on_icmp_echoreply 3 0 77 5 [1; 2] [0] ipA ipB 1 B0); try (by vm_compute).
  repeat (constructor; [by vm_compute|]). constructor.
Defined.

Lemma user_datagram_crosses_witness : exists A' f w B',
  net_udp_user_sendto (H0 := handlers 3) (H1 := drivers 3) 3 0 [104; 105] (le_enc 4 ipB) 7 UA = Done 2 A' /\
  tx (nic (low (stack A'))) = tx (nic (low (stack UA))) ++ [f] /\
  sirpair_microps_deliver_ether (H0 := handlers 3) 3 (Some 2%nat) f (stack UB) = Done tt w /\
  net_udp_user_recvfrom false 0 100 (set_stack w UB) = Done (Return (2, Some ([104; 105], le_enc 4 ipA, 7))) B'.
Proof.
  apply (user_datagram_crosses 3 2 UA UB 2 1 ipA macA 2 1 ipB macB 0 0 (dgram_sock 0) (dgram_sock 0) 0 0 7 0 7 [104; 105] 100); try (by vm_compute).
  - constructor; try (by vm_compute); [eexists _, _; by vm_compute|eexists _, _; by vm_compute].
  - by left.
  - repeat (constructor; [by vm_compute|]). constructor.
Defined.
Lemma unconnected_sockets_are_lost_witness :
  let s := {| socks := []; nic_ok := true; microps_l3 := true; stack := power_on (repeat pcb0 16) 0 |} in let O := ip_ops 3 in
  exists s', times TCP_PCB_SIZE open_close s = Done tt s' /\ net_tcp_user_alloc s' = Done (-1) s'.
Proof. apply (unconnected_sockets_are_lost (H0 := ip_ops 3)). constructor; reflexivity. Defined.

