(* ===== verification/Dns.v ===== *)
(** * kernel/microps/sirpair_sock_user.c: names and answers of the name service

    Messages are lists of bytes; a read out of a message gives [None], for
    which there is no C behaviour.  Shown here: whatever a reply holds, it is
    never read out of bounds ([dns_reads_in_bounds]); of a well-formed reply to
    a query the first address is returned ([dns_answer_found]), the query being
    for the name that was asked for ([encode_name_labels]). *)

From Stdlib Require Import ZArith Lia.
From S2P Require Import Prelude Bytes NetUtil.

Definition rd (n : nat) (msg : list Z) (off : Z) : option Z :=
  if (0 <=? off) && (off + Z.of_nat n <=? Z.of_nat (length msg)) then Some (getn n (Z.to_nat off) msg) else None.

Definition ip_same_subnet (a b m : list Z) : bool :=
  forallb (fun i => Z.land (nth i a 0) (nth i m 0) =? Z.land (nth i b 0) (nth i m 0)) (seq 0 4).
Definition ip_eq (a b : list Z) : bool := forallb (fun i => nth i a 0 =? nth i b 0) (seq 0 4).
Definition dns_reply_src_ok (src myip gw mask dns : list Z) : bool :=
  if ip_eq src dns || ip_eq src gw then true else ip_same_subnet myip src mask.

(** [for(i = 0; i <= n; i++)] over the characters left, the last one the NUL:
    the label so far, and what is in [out]. *)
Fixpoint encode_loop (cs lab out : list Z) (maxlen : Z) : option (list Z) :=
  match cs with
  | [] => Some out
  | c :: cs' =>
      let lablen := Z.of_nat (length lab) in
      let pos := Z.of_nat (length out) in
      if (c =? 46) || (c =? 0) then
        if (lablen <=? 0) || (63 <? lablen) then None
        else if maxlen <=? pos + 1 + lablen then None
        else encode_loop cs' [] (out ++ lablen :: lab) maxlen
      else if (c =? 32) || (c =? 9) then None
      else encode_loop cs' (lab ++ [c]) out maxlen
  end.
Definition dns_encode_name (name : list Z) (maxlen : Z) : option (list Z) :=
  let n := Z.of_nat (length name) in
  if (n <=? 0) || (253 <? n) then None
  else
    out ← encode_loop (name ++ [0]) [] [] maxlen;
    if maxlen <? Z.of_nat (length out) + 1 then None else Some (out ++ [0]).

(** At most 65 turns. *)
Fixpoint skip_loop (fuel : nat) (msg : list Z) (mlen off steps : Z) : option Z :=
  if mlen <=? off then Some (-1)
  else
    c ← rd 1 msg off;
    if c =? 0 then Some (off + 1)
    else if Z.land c 0xC0 =? 0xC0 then Some (if mlen <=? off + 1 then -1 else off + 2)
    else
      let off := off + 1 + c in
      if mlen <? off then Some (-1)
      else if 64 <? steps + 1 then Some (-1)
      else match fuel with O => None | S f => skip_loop f msg mlen off (steps + 1) end.
Definition dns_skip_name (msg : list Z) (mlen off : Z) : option Z := skip_loop 64 msg mlen off 0.

(** The offset after [n] questions. *)
Fixpoint questions (n : nat) (msg : list Z) (len off : Z) : option Z :=
  match n with
  | O => Some off
  | S n' =>
      off ← dns_skip_name msg len off;
      if (off <? 0) || (len <? off + 4) then Some (-1) else questions n' msg len (off + 4)
  end.
(** The first address among [n] answers. *)
Fixpoint answers (n : nat) (msg : list Z) (len off : Z) : option (option Z) :=
  match n with
  | O => Some None
  | S n' =>
      off ← dns_skip_name msg len off;
      if (off <? 0) || (len <? off + 10) then Some None
      else
        typ ← rd 2 msg off;
        cls ← rd 2 msg (off + 2);
        rdlen ← rd 2 msg (off + 8);
        let typ := ntoh16 typ in let cls := ntoh16 cls in let rdlen := ntoh16 rdlen in
        let off := off + 10 in
        if len <? off + rdlen then Some None
        else if (typ =? 1) && (rdlen =? 4) && ((cls =? 1) || (cls =? 255)) then
          a ← rd 1 msg off; b ← rd 1 msg (off + 1); c ← rd 1 msg (off + 2); d ← rd 1 msg (off + 3);
          Some (Some (Z.lor (Z.lor (Z.lor (Z.shiftl a 24) (Z.shiftl b 16)) (Z.shiftl c 8)) d))
        else answers n' msg len (off + rdlen)
  end.
(** The address when the result is 0, nothing when it is -1. *)
Definition dns_parse_a_answer (payload : list Z) (paylen want_id : Z) (src_ip myip gw mask dns : list Z) : option (option Z) :=
  if paylen <? 12 then Some None
  else
    id ← rd 2 payload 0; flags ← rd 2 payload 2; qd ← rd 2 payload 4; an ← rd 2 payload 6;
    if negb (ntoh16 id =? want_id) then Some None
    else if Z.land (ntoh16 flags) 0x8000 =? 0 then Some None
    else if negb (dns_reply_src_ok src_ip myip gw mask dns) then Some None
    else if ntoh16 an =? 0 then Some None
    else
      off ← questions (Z.to_nat (ntoh16 qd)) payload paylen 12;
      if off <? 0 then Some None else answers (Z.to_nat (ntoh16 an)) payload paylen off.
(** What [net_dns_query] puts in [dnsmsg]. *)
Definition dns_query (xid : Z) (qname : list Z) : list Z :=
  le_enc 2 (hton16 xid) ++ le_enc 2 (hton16 0x0100) ++ le_enc 2 (hton16 1) ++ repeat 0 6 ++ qname ++ le_enc 2 (hton16 1) ++ le_enc 2 (hton16 1).

(** ** Reads stay in bounds *)

Lemma rd_in n msg off : 0 <= off -> off + Z.of_nat n <= Z.of_nat (length msg) -> rd n msg off = Some (getn n (Z.to_nat off) msg).
Proof. intros H1 H2. unfold rd. by rewrite (proj2 (Z.leb_le _ _) H1), (proj2 (Z.leb_le _ _) H2). Qed.
Lemma skip_safe fuel msg len : forall off steps, bytes msg -> len <= Z.of_nat (length msg) -> 0 <= off -> Z.of_nat fuel + steps = 64 -> 0 <= steps ->
  exists r, skip_loop fuel msg len off steps = Some r /\ (r = -1 \/ off < r <= len).
Proof.
  induction fuel as [|f IH]; intros off steps Hb Hl Ho Hs Hp; cbn [skip_loop]; destruct (Z.leb_spec len off); try (eexists; by eauto).
  all: rewrite rd_in by lia; cbn [mbind option_bind]; pose proof (getn_range 1 (Z.to_nat off) msg Hb ltac:(lia)) as Hc; set (c := getn 1 _ _) in *; change (2 ^ (8 * Z.of_nat 1)) with 256 in Hc.
  all: destruct (c =? 0); [eexists; split; [done|lia]|]; destruct (Z.land c 192 =? 192); [destruct (Z.leb_spec len (off + 1)); eexists; (split; [done|lia])|].
  all: destruct (Z.ltb_spec len (off + 1 + c)); [eexists; by eauto|]; destruct (Z.ltb_spec 64 (steps + 1)); try (eexists; by eauto).
  { lia. }
  destruct (IH (off + 1 + c) (steps + 1)) as (r & -> & Hr); try done; try lia. exists r. split; [done|lia].
Qed.
Lemma skip_name_safe msg len off : bytes msg -> len <= Z.of_nat (length msg) -> 0 <= off -> exists r, dns_skip_name msg len off = Some r /\ (r = -1 \/ off < r <= len).
Proof. intros Hb Hl Ho. by apply skip_safe. Qed.
Lemma questions_safe n msg len : forall off, bytes msg -> len <= Z.of_nat (length msg) -> 0 <= off -> exists r, questions n msg len off = Some r /\ (r = -1 \/ 0 <= r).
Proof.
  induction n as [|n IH]; intros off Hb Hl Ho; cbn [questions]; [eexists; by eauto|]. destruct (skip_name_safe msg len off Hb Hl Ho) as (r & -> & Hr). cbn [mbind option_bind].
  destruct (Z.ltb_spec r 0), (Z.ltb_spec len (r + 4)); cbn [orb]; try (eexists; by eauto). apply IH; done || lia.
Qed.
Lemma answers_safe n msg len : forall off, bytes msg -> len <= Z.of_nat (length msg) -> 0 <= off -> answers n msg len off <> None.
Proof.
  induction n as [|n IH]; intros off Hb Hl Ho; cbn [answers]; [done|]. destruct (skip_name_safe msg len off Hb Hl Ho) as (r & -> & Hr). cbn [mbind option_bind].
  destruct (Z.ltb_spec r 0), (Z.ltb_spec len (r + 10)); cbn [orb]; try done. rewrite !(rd_in 2) by lia. cbn [mbind option_bind].
  set (rdlen := ntoh16 (getn 2 (Z.to_nat (r + 8)) msg)). assert (0 <= rdlen) by apply ntoh16_range. destruct (Z.ltb_spec len (r + 10 + rdlen)); [done|].
  destruct (_ && _ && _) eqn:E; [|apply IH; done || lia]. rewrite !andb_true_iff, Z.eqb_eq in E. rewrite !(rd_in 1) by lia. done.
Qed.

(** C23. A reply of the name service cannot make the kernel read outside of it:
    whatever the bytes of the message, every read of dns_parse_a_answer is
    within the length given, and the function returns. *)
Theorem dns_reads_in_bounds payload paylen want_id src_ip myip gw mask dns : bytes payload -> paylen <= Z.of_nat (length payload) ->
  exists r, dns_parse_a_answer payload paylen want_id src_ip myip gw mask dns = Some r.
Proof.
  intros Hb Hl. unfold dns_parse_a_answer. destruct (Z.ltb_spec paylen 12); [by eexists|]. rewrite !(rd_in 2) by lia. cbn [mbind option_bind].
  destruct (negb _); [by eexists|]. destruct (_ =? 0); [by eexists|]. destruct (negb _); [by eexists|]. destruct (_ =? 0); [by eexists|].
  destruct (questions_safe (Z.to_nat (ntoh16 (getn 2 (Z.to_nat 4) payload))) payload paylen 12 Hb Hl) as (r & -> & Hr); [lia|]. cbn [mbind option_bind].
  destruct (Z.ltb_spec r 0); [by eexists|]. pose proof (answers_safe (Z.to_nat (ntoh16 (getn 2 (Z.to_nat 6) payload))) payload paylen r Hb Hl ltac:(lia)) as Ha.
  destruct (answers _ _ _ _); [by eexists|done].
Qed.
Lemma dns_reads_in_bounds_witness : exists r, dns_parse_a_answer (dns_query 7 [3; 97; 98; 99; 0]) 21 7 [10; 0; 0; 2] [10; 0; 0; 1] [10; 0; 0; 2] [255; 255; 255; 0] [10; 0; 0; 2] = Some r.
Proof. apply dns_reads_in_bounds; [repeat (constructor; [by vm_compute|]); constructor|by vm_compute]. Defined.

(** ** Names, questions and records *)

Inductive ending := Root | Pointer (hi lo : Z).
Definition end_bytes (e : ending) : list Z := match e with Root => [0] | Pointer hi lo => [0xC0 + hi; lo] end.
Definition label_bytes (l : list Z) : list Z := Z.of_nat (length l) :: l.
Definition wire_name (labels : list (list Z)) (e : ending) : list Z := concat (label_bytes <$> labels) ++ end_bytes e.
Definition label_ok (l : list Z) : Prop := (1 <= length l <= 63)%nat.
Definition name_ok (labels : list (list Z)) (e : ending) : Prop :=
  Forall label_ok labels /\ (length labels <= 64)%nat /\ match e with Root => True | Pointer hi lo => 0 <= hi < 64 end.

Lemma rd_app n pre x rest : length x = n -> rd n (pre ++ x ++ rest) (Z.of_nat (length pre)) = Some (le_dec x).
Proof.
  intros Hx. rewrite rd_in by (rewrite ?length_app; lia). f_equal. unfold getn, slice. rewrite Nat2Z.id, drop_app_length, <- Hx, take_app_length. done.
Qed.
Lemma rd_at_off n msg off pre x rest : msg = pre ++ x ++ rest -> off = Z.of_nat (length pre) -> length x = n -> rd n msg off = Some (le_dec x).
Proof. intros -> ->. apply rd_app. Qed.
Lemma low_label c : 0 <= c < 64 -> Z.land c 0xC0 = 0.
Proof.
  intros Hc. apply Z.bits_inj'. intros i Hi. rewrite Z.land_spec, Z.bits_0. destruct (Z.ltb_spec i 6).
  - change 0xC0 with (3 * 2 ^ 6). rewrite Z.mul_pow2_bits_low by lia. apply andb_false_r.
  - rewrite <- (Z.mod_small c (2 ^ 6)), Z.mod_pow2_bits_high by lia. done.
Qed.
Lemma pointer_mark hi : 0 <= hi < 64 -> Z.land (0xC0 + hi) 0xC0 = 0xC0.
Proof.
  intros Hh. replace (0xC0 + hi) with (Z.lor 0xC0 hi); [rewrite Z.land_lor_distr_l; by rewrite (low_label hi Hh)|].
  symmetry. rewrite Z.add_nocarry_lxor; [|rewrite Z.land_comm; by apply low_label]. rewrite Z.lxor_lor; [done|]. rewrite Z.land_comm. by apply low_label.
Qed.
Lemma wire_cons l labels e : wire_name (l :: labels) e = Z.of_nat (length l) :: l ++ wire_name labels e.
Proof. unfold wire_name. cbn. by rewrite <- app_assoc. Qed.
Lemma skip_wire labels e : forall fuel pre rest steps, name_ok labels e -> Z.of_nat fuel + steps = 64 -> Z.of_nat (length labels) + steps <= 64 -> 0 <= steps ->
  let msg := pre ++ wire_name labels e ++ rest in
  skip_loop fuel msg (Z.of_nat (length msg)) (Z.of_nat (length pre)) steps = Some (Z.of_nat (length pre + length (wire_name labels e))).
Proof.
  induction labels as [|l labels IH]; intros fuel pre rest steps (Hl & Hn & He) Hf Hs Hp; cbv zeta.
  - unfold wire_name. cbn [fmap list_fmap concat app]. set (msg := pre ++ end_bytes e ++ rest).
    assert (Hlen : Z.of_nat (length msg) = Z.of_nat (length pre) + Z.of_nat (length (end_bytes e)) + Z.of_nat (length rest)) by (unfold msg; rewrite !length_app; lia).
    assert (Hr : forall c t, end_bytes e = c :: t -> rd 1 msg (Z.of_nat (length pre)) = Some (c + 256 * 0)).
    { intros c t Ec. apply (rd_at_off 1 msg _ pre [c] (t ++ rest)); try done. unfold msg. by rewrite Ec. }
    destruct fuel; cbn [skip_loop]; (destruct e as [|hi lo]; cbn [end_bytes length] in *; rewrite (Hr _ _ eq_refl), Hlen; cbn [mbind option_bind]; rewrite Z.mul_0_r, Z.add_0_r).
    all: match goal with |- context [?a <=? Z.of_nat (length ?p)] => destruct (Z.leb_spec a (Z.of_nat (length p))); [lia|] end.
    all: try (cbn [Z.eqb]; f_equal; lia). all: destruct (Z.eqb_spec (192 + hi) 0); [lia|]; rewrite pointer_mark by done; cbn [Z.eqb Pos.eqb].
    all: match goal with |- context [?a <=? ?b] => destruct (Z.leb_spec a b); [lia|f_equal; lia] end.
  - inversion Hl as [|? ? Hll Hl']; subst. unfold label_ok in Hll. rewrite wire_cons. set (tail := wire_name labels e).
    set (msg := pre ++ _). cbn [length] in Hs, Hn.
    assert (Em : msg = (pre ++ Z.of_nat (length l) :: l) ++ tail ++ rest) by (unfold msg; rewrite <- !app_assoc; cbn; by rewrite <- !app_assoc).
    assert (Hlen : Z.of_nat (length msg) = Z.of_nat (length pre) + 1 + Z.of_nat (length l) + Z.of_nat (length tail) + Z.of_nat (length rest)).
    { rewrite Em, !length_app. cbn [length]. lia. }
    assert (Ht : (1 <= length tail)%nat) by (unfold tail, wire_name; rewrite length_app; destruct e; cbn; lia).
    assert (Hr : rd 1 msg (Z.of_nat (length pre)) = Some (Z.of_nat (length l) + 256 * 0)).
    { apply (rd_at_off 1 msg _ pre [Z.of_nat (length l)] (l ++ tail ++ rest)); try done. rewrite Em, <- app_assoc. done. }
    destruct fuel as [|fuel]; [lia|]. cbn [skip_loop]. rewrite Hr. cbn [mbind option_bind]. rewrite Z.mul_0_r, Z.add_0_r.
    destruct (Z.leb_spec (Z.of_nat (length msg)) (Z.of_nat (length pre))); [lia|]. destruct (Z.eqb_spec (Z.of_nat (length l)) 0); [lia|].
    rewrite low_label by lia. cbn [Z.eqb]. destruct (Z.ltb_spec (Z.of_nat (length msg)) (Z.of_nat (length pre) + 1 + Z.of_nat (length l))); [lia|].
    destruct (Z.ltb_spec 64 (steps + 1)); [lia|].
    specialize (IH fuel (pre ++ Z.of_nat (length l) :: l) rest (steps + 1)). cbv zeta in IH. fold tail in IH. rewrite <- Em in IH.
    replace (Z.of_nat (length pre) + 1 + Z.of_nat (length l)) with (Z.of_nat (length (pre ++ Z.of_nat (length l) :: l))) by (rewrite length_app; cbn [length]; lia).
    rewrite IH; [|split; [done|]; split; [lia|done]|lia|lia|lia]. f_equal. rewrite !length_app. cbn [length]. rewrite !length_app. lia.
Qed.
Lemma skip_name_wire labels e pre rest msg : name_ok labels e -> msg = pre ++ wire_name labels e ++ rest ->
  dns_skip_name msg (Z.of_nat (length msg)) (Z.of_nat (length pre)) = Some (Z.of_nat (length (pre ++ wire_name labels e))).
Proof. intros Hn ->. rewrite (length_app pre (wire_name labels e)). apply skip_wire; [done|lia| |lia]. destruct Hn as (_ & ? & _). lia. Qed.

Record question := { q_labels : list (list Z); q_end : ending; q_rest : list Z }. (* type and class *)
Definition question_bytes (q : question) : list Z := wire_name (q_labels q) (q_end q) ++ q_rest q.
Definition question_ok (q : question) : Prop := name_ok (q_labels q) (q_end q) /\ length (q_rest q) = 4%nat.
Record rr := { rr_labels : list (list Z); rr_end : ending; rr_type : Z; rr_class : Z; rr_ttl : list Z; rr_data : list Z }.
Definition rr_bytes (r : rr) : list Z :=
  wire_name (rr_labels r) (rr_end r) ++ le_enc 2 (hton16 (rr_type r)) ++ le_enc 2 (hton16 (rr_class r)) ++ rr_ttl r ++ le_enc 2 (hton16 (Z.of_nat (length (rr_data r)))) ++ rr_data r.
Definition rr_ok (r : rr) : Prop :=
  name_ok (rr_labels r) (rr_end r) /\ 0 <= rr_type r < 2 ^ 16 /\ 0 <= rr_class r < 2 ^ 16 /\ length (rr_ttl r) = 4%nat /\ Z.of_nat (length (rr_data r)) < 2 ^ 16.
(** An address record, and the address that it holds. *)
Definition is_address (r : rr) : bool := (rr_type r =? 1) && (Z.of_nat (length (rr_data r)) =? 4) && ((rr_class r =? 1) || (rr_class r =? 255)).
Definition address (r : rr) : Z :=
  let d := rr_data r in Z.lor (Z.lor (Z.lor (Z.shiftl (nth 0 d 0) 24) (Z.shiftl (nth 1 d 0) 16)) (Z.shiftl (nth 2 d 0) 8)) (nth 3 d 0).
Fixpoint first_address (l : list rr) : option Z :=
  match l with [] => None | r :: l' => if is_address r then Some (address r) else first_address l' end.
Definition response (id flags : Z) (more : list Z) (qs : list question) (rs : list rr) (post : list Z) : list Z :=
  le_enc 2 (hton16 id) ++ le_enc 2 (hton16 flags) ++ le_enc 2 (hton16 (Z.of_nat (length qs))) ++ le_enc 2 (hton16 (Z.of_nat (length rs))) ++ more ++
  concat (question_bytes <$> qs) ++ concat (rr_bytes <$> rs) ++ post.

Lemma questions_read qs : forall pre rest msg, Forall question_ok qs -> msg = pre ++ concat (question_bytes <$> qs) ++ rest ->
  questions (length qs) msg (Z.of_nat (length msg)) (Z.of_nat (length pre)) = Some (Z.of_nat (length (pre ++ concat (question_bytes <$> qs)))).
Proof.
  induction qs as [|q qs IH]; intros pre rest msg Hq Em; cbn [questions length]; [cbn; by rewrite app_nil_r|].
  inversion Hq as [|? ? [Hn Hr] Hq']; subst x l. cbn [fmap list_fmap concat] in *. set (tail := concat (question_bytes <$> qs)) in *. unfold question_bytes in Em |- *.
  rewrite (skip_name_wire (q_labels q) (q_end q) pre (q_rest q ++ tail ++ rest)) by (done || by rewrite Em, <- !app_assoc). cbn [mbind option_bind].
  set (w := wire_name _ _) in *. assert (Hlen : (length msg = length pre + length w + 4 + length tail + length rest)%nat) by (rewrite Em, !length_app, Hr; lia).
  rewrite length_app. destruct (Z.ltb_spec (Z.of_nat (length pre + length w)) 0), (Z.ltb_spec (Z.of_nat (length msg)) (Z.of_nat (length pre + length w) + 4)); try lia. cbn [orb].
  replace (Z.of_nat (length pre + length w) + 4) with (Z.of_nat (length (pre ++ w ++ q_rest q))) by (rewrite !length_app, Hr; lia).
  rewrite (IH (pre ++ w ++ q_rest q) rest) by (done || by rewrite Em, <- !app_assoc). by rewrite <- !app_assoc.
Qed.
Lemma answers_read rs : forall pre rest msg, Forall rr_ok rs -> msg = pre ++ concat (rr_bytes <$> rs) ++ rest ->
  answers (length rs) msg (Z.of_nat (length msg)) (Z.of_nat (length pre)) = Some (first_address rs).
Proof.
  induction rs as [|r rs IH]; intros pre rest msg Hr Em; cbn [answers length first_address]; [done|].
  inversion Hr as [|? ? (Hn & Ht & Hc & Hl & Hd) Hr']; subst x l. cbn [fmap list_fmap concat] in Em. set (tail := concat (rr_bytes <$> rs)) in *. unfold rr_bytes in Em.
  set (w := wire_name _ _) in *. set (T := le_enc 2 (hton16 (rr_type r))) in *. set (C := le_enc 2 (hton16 (rr_class r))) in *. set (L := le_enc 2 (hton16 (Z.of_nat (length (rr_data r))))) in *.
  assert (E1 : msg = pre ++ w ++ T ++ C ++ rr_ttl r ++ L ++ rr_data r ++ tail ++ rest) by (rewrite Em, <- !app_assoc; done).
  rewrite (skip_name_wire (rr_labels r) (rr_end r) pre (T ++ C ++ rr_ttl r ++ L ++ rr_data r ++ tail ++ rest)) by done. cbn [mbind option_bind]. fold w.
  assert (LT : length T = 2%nat) by apply le_enc_len. assert (LC : length C = 2%nat) by apply le_enc_len. assert (LL : length L = 2%nat) by apply le_enc_len.
  assert (Hlen : (length msg = length (pre ++ w) + 10 + length (rr_data r) + length tail + length rest)%nat) by (rewrite E1, !length_app, LT, LC, LL, Hl; lia).
  set (o := Z.of_nat (length (pre ++ w))). destruct (Z.ltb_spec o 0), (Z.ltb_spec (Z.of_nat (length msg)) (o + 10)); try lia. cbn [orb].
  assert (Fd : forall v, 0 <= v < 2 ^ 16 -> ntoh16 (le_dec (le_enc 2 (hton16 v))) = v) by (intros v Hv; rewrite field_dec by apply hton16_range; by apply ntoh16_hton16).
  rewrite (rd_at_off 2 msg o (pre ++ w) T (C ++ rr_ttl r ++ L ++ rr_data r ++ tail ++ rest)) by (try done; by rewrite E1, <- !app_assoc). cbn [mbind option_bind].
  rewrite (rd_at_off 2 msg (o + 2) (pre ++ w ++ T) C (rr_ttl r ++ L ++ rr_data r ++ tail ++ rest)) by (try done; first [by rewrite E1, <- !app_assoc|unfold o; rewrite !length_app; lia]). cbn [mbind option_bind].
  rewrite (rd_at_off 2 msg (o + 8) (pre ++ w ++ T ++ C ++ rr_ttl r) L (rr_data r ++ tail ++ rest)) by (try done; first [by rewrite E1, <- !app_assoc|unfold o; rewrite !length_app; lia]). cbn [mbind option_bind].
  unfold T, C, L. rewrite !Fd by lia. destruct (Z.ltb_spec (Z.of_nat (length msg)) (o + 10 + Z.of_nat (length (rr_data r)))); [lia|]. fold (is_address r).
  destruct (is_address r) eqn:Ea.
  - unfold is_address in Ea. rewrite !andb_true_iff, !Z.eqb_eq in Ea. destruct (rr_data r) as [|a [|b [|c [|d [|]]]]] eqn:Ed; cbn [length] in Ea; try lia.
    set (p0 := pre ++ w ++ T ++ C ++ rr_ttl r ++ L). assert (Lp : Z.of_nat (length p0) = o + 10) by (unfold p0, o; rewrite !length_app; lia).
    rewrite (rd_at_off 1 msg (o + 10) p0 [a] ([b; c; d] ++ tail ++ rest)) by (try done; unfold p0; by rewrite E1, <- !app_assoc). cbn [mbind option_bind].
    rewrite (rd_at_off 1 msg (o + 10 + 1) (p0 ++ [a]) [b] ([c; d] ++ tail ++ rest)) by (try done; first [unfold p0; by rewrite E1, <- !app_assoc|rewrite length_app; cbn; lia]). cbn [mbind option_bind].
    rewrite (rd_at_off 1 msg (o + 10 + 2) (p0 ++ [a; b]) [c] ([d] ++ tail ++ rest)) by (try done; first [unfold p0; by rewrite E1, <- !app_assoc|rewrite length_app; cbn; lia]). cbn [mbind option_bind].
    rewrite (rd_at_off 1 msg (o + 10 + 3) (p0 ++ [a; b; c]) [d] (tail ++ rest)) by (try done; first [unfold p0; by rewrite E1, <- !app_assoc|rewrite length_app; cbn; lia]). cbn [mbind option_bind].
    unfold address. rewrite Ed. cbn [nth le_dec foldr]. by rewrite !Z.mul_0_r, !Z.add_0_r.
  - replace (o + 10 + Z.of_nat (length (rr_data r))) with (Z.of_nat (length (pre ++ rr_bytes r))) by (unfold o, rr_bytes; fold w; rewrite !length_app, !le_enc_len, Hl; lia).
    apply (IH (pre ++ rr_bytes r) rest); [done|]. rewrite E1. unfold rr_bytes. fold w T C L. by rewrite <- !app_assoc.
Qed.

(** C24. The address is found: of a well-formed reply with the identifier asked
    for, from an acceptable source, with any questions and any records of any
    kind in any order, dns_parse_a_answer returns the first address record's
    address, and fails when there is none. *)
Theorem dns_answer_found id flags more qs rs post src_ip myip gw mask dns :
  0 <= id < 2 ^ 16 -> 0 <= flags < 2 ^ 16 -> Z.land flags 0x8000 <> 0 -> length more = 4%nat -> dns_reply_src_ok src_ip myip gw mask dns = true ->
  Forall question_ok qs -> Forall rr_ok rs -> Z.of_nat (length qs) < 2 ^ 16 -> Z.of_nat (length rs) < 2 ^ 16 ->
  let msg := response id flags more qs rs post in
  dns_parse_a_answer msg (Z.of_nat (length msg)) id src_ip myip gw mask dns = Some (first_address rs).
Proof.
  intros Hid Hfl Hf Hm Hsrc Hq Hr Nq Nr msg. set (Q := concat (question_bytes <$> qs)). set (R := concat (rr_bytes <$> rs)).
  set (h1 := le_enc 2 (hton16 id)). set (h2 := le_enc 2 (hton16 flags)). set (h3 := le_enc 2 (hton16 (Z.of_nat (length qs)))). set (h4 := le_enc 2 (hton16 (Z.of_nat (length rs)))).
  assert (L1 : length h1 = 2%nat) by apply le_enc_len. assert (L2 : length h2 = 2%nat) by apply le_enc_len. assert (L3 : length h3 = 2%nat) by apply le_enc_len. assert (L4 : length h4 = 2%nat) by apply le_enc_len.
  assert (Em : msg = h1 ++ h2 ++ h3 ++ h4 ++ more ++ Q ++ R ++ post) by done. assert (Hlen : (12 <= length msg)%nat) by (rewrite Em, !length_app; lia).
  unfold dns_parse_a_answer. destruct (Z.ltb_spec (Z.of_nat (length msg)) 12); [lia|].
  assert (Fd : forall v, 0 <= v < 2 ^ 16 -> ntoh16 (le_dec (le_enc 2 (hton16 v))) = v) by (intros v Hv; rewrite field_dec by apply hton16_range; by apply ntoh16_hton16).
  rewrite (rd_at_off 2 msg 0 [] h1 (h2 ++ h3 ++ h4 ++ more ++ Q ++ R ++ post)) by done. cbn [mbind option_bind].
  rewrite (rd_at_off 2 msg 2 h1 h2 (h3 ++ h4 ++ more ++ Q ++ R ++ post)) by (done || lia). cbn [mbind option_bind].
  rewrite (rd_at_off 2 msg 4 (h1 ++ h2) h3 (h4 ++ more ++ Q ++ R ++ post)) by (try done; rewrite ?length_app; lia). cbn [mbind option_bind].
  rewrite (rd_at_off 2 msg 6 (h1 ++ h2 ++ h3) h4 (more ++ Q ++ R ++ post)) by (try done; rewrite ?length_app; lia). cbn [mbind option_bind].
  unfold h1, h2, h3, h4. rewrite !Fd by lia. rewrite Z.eqb_refl, (proj2 (Z.eqb_neq _ _) Hf), Hsrc. cbn [negb].
  destruct (Z.eqb_spec (Z.of_nat (length rs)) 0) as [E0|]; [by destruct rs; [|cbn in E0; lia]|]. rewrite !Nat2Z.id.
  set (pre := h1 ++ h2 ++ h3 ++ h4 ++ more). assert (Lp : Z.of_nat (length pre) = 12) by (unfold pre; rewrite !length_app; lia).
  rewrite <- Lp, (questions_read qs pre (R ++ post)) by (try done; unfold pre; by rewrite Em, <- !app_assoc). cbn [mbind option_bind].
  destruct (Z.ltb_spec (Z.of_nat (length (pre ++ concat (question_bytes <$> qs)))) 0); [lia|].
  apply (answers_read rs _ post); [done|]. rewrite Em. unfold pre. by rewrite <- !app_assoc.
Qed.
Lemma dns_answer_found_witness : let rs := [{| rr_labels := []; rr_end := Pointer 0 12; rr_type := 5; rr_class := 1; rr_ttl := [0; 0; 1; 0]; rr_data := [1; 99; 0] |};
    {| rr_labels := [[99]]; rr_end := Root; rr_type := 1; rr_class := 1; rr_ttl := [0; 0; 1; 0]; rr_data := [93; 184; 216; 34] |}] in
  let msg := response 7 0x8180 [0; 0; 0; 0] [{| q_labels := [[97; 98]; [99]]; q_end := Root; q_rest := [0; 1; 0; 1] |}] rs [] in
  dns_parse_a_answer msg (Z.of_nat (length msg)) 7 [10; 0; 0; 2] [10; 0; 0; 1] [10; 0; 0; 2] [255; 255; 255; 0] [10; 0; 0; 2] = Some (first_address rs).
Proof.
  intros rs. apply dns_answer_found; try (by vm_compute); repeat (constructor; [unfold question_ok, rr_ok, name_ok, label_ok; cbn; repeat (split || constructor); cbn; try lia; done|]); constructor.
Defined.

(** ** The name asked for *)

Fixpoint join (labels : list (list Z)) : list Z :=
  match labels with [] => [] | [l] => l | l :: ls => l ++ 46 :: join ls end.
Definition name_char (c : Z) : Prop := c <> 46 /\ c <> 0 /\ c <> 32 /\ c <> 9.
Lemma encode_chars l cs out maxlen : Forall name_char l -> forall lab, encode_loop (l ++ cs) lab out maxlen = encode_loop cs (lab ++ l) out maxlen.
Proof.
  intros Hl. induction Hl as [|c l (H1 & H2 & H3 & H4) _ IH]; intros lab; cbn [app]; [by rewrite app_nil_r|]. cbn [encode_loop].
  rewrite (proj2 (Z.eqb_neq _ _) H1), (proj2 (Z.eqb_neq _ _) H2), (proj2 (Z.eqb_neq _ _) H3), (proj2 (Z.eqb_neq _ _) H4). cbn [orb]. by rewrite IH, <- app_assoc.
Qed.
Lemma encode_label c l cs out maxlen : (c =? 46) || (c =? 0) = true -> label_ok l -> Z.of_nat (length out) + 1 + Z.of_nat (length l) < maxlen ->
  encode_loop (c :: cs) l out maxlen = encode_loop cs [] (out ++ label_bytes l) maxlen.
Proof. unfold label_ok. intros Hc Hl Hm. cbn [encode_loop]. rewrite Hc. zcases; try lia. done. Qed.
Lemma encode_join labels : forall out, labels <> [] -> Forall (fun l => label_ok l /\ Forall name_char l) labels -> (length out + length (join labels) <= 253)%nat ->
  encode_loop (join labels ++ [0]) [] out 256 = Some (out ++ concat (label_bytes <$> labels)) /\ length (concat (label_bytes <$> labels)) = S (length (join labels)).
Proof.
  induction labels as [|l labels IH]; intros out Hne Hl Hn; [done|]. inversion Hl as [|? ? [Hll Hc] Hl']; subst. destruct labels as [|l2 labels].
  - cbn [join fmap list_fmap concat] in *. rewrite encode_chars by done. cbn [app]. rewrite encode_label by (done || lia). cbn. rewrite app_nil_r. split; [done|lia].
  - change (join (l :: l2 :: labels)) with (l ++ 46 :: join (l2 :: labels)) in *. rewrite length_app in Hn. cbn [length] in Hn.
    rewrite <- app_assoc. rewrite encode_chars by done. cbn [app]. rewrite encode_label by (done || lia).
    destruct (IH (out ++ label_bytes l)) as [E EL]; [done|done|unfold label_bytes; rewrite length_app; cbn [length]; lia|]. rewrite E. cbn [fmap list_fmap concat]. split; [by rewrite <- app_assoc|].
    rewrite length_app. cbn [fmap list_fmap concat] in EL. rewrite EL, length_app. cbn [length label_bytes]. lia.
Qed.
(** A host name is encoded as its labels, which dns_skip_name then skips. *)
Theorem encode_name_labels labels : labels <> [] -> Forall (fun l => label_ok l /\ Forall name_char l) labels -> (length (join labels) <= 253)%nat ->
  dns_encode_name (join labels) 256 = Some (wire_name labels Root).
Proof.
  intros Hne Hl Hn. destruct (encode_join labels [] Hne Hl Hn) as [E EL]. unfold dns_encode_name.
  assert (0 < length (join labels))%nat by (destruct labels as [|l [|]]; [done| |]; inversion Hl as [|? ? [Hll _] _]; subst; unfold label_ok in Hll; cbn; rewrite ?length_app; lia).
  zcases; try lia. cbn [orb]. rewrite E. cbn [mbind option_bind app]. rewrite EL. zcases; [lia|]. done.
Qed.
