(* ===== verification/Mutex.v ===== *)
(** * kernel/microps/microps_mutex.c: mutexes that can be locked again

    A mutex is a spinlock of the kernel; how often its owner has locked it is
    kept in a table of 64 entries.  Shown here: as long as no more than 64
    mutexes are in use, the table counts right, so that any sequence of
    operations by any processors behaves as on mutexes that each know their
    owner and their depth ([mutex_counts]); with more, an inner lock is not
    counted and the inner unlock lets go of the mutex ([uncounted_unlock]). *)

From Stdlib Require Import ZArith Lia.
From S2P Require Import Prelude.

Record mtx_depth_ent := { e_m : Z; owner_cpu : Z; depth : Z }.
Record mtx := { locked : gmap Z Z (* the processor that holds a mutex *); mtx_depth_tab : list mtx_depth_ent }.
Definition MTX_TAB : nat := 64.
Definition mtx0 : mtx := {| locked := ∅; mtx_depth_tab := repeat {| e_m := 0; owner_cpu := 0; depth := 0 |} MTX_TAB |}.

Definition holding (s : mtx) (m c : Z) : bool := bool_decide (locked s !! m = Some c).
Definition mtx_depth_lookup (t : list mtx_depth_ent) (m c : Z) : option nat :=
  fst <$> list_find (fun e => 0 < depth e /\ e_m e = m /\ owner_cpu e = c) t.
(** The free entry that is taken, and the table with the mutex in it. *)
Definition mtx_depth_alloc (t : list mtx_depth_ent) (m c : Z) : option (nat * list mtx_depth_ent) :=
  i ← fst <$> list_find (fun e => depth e = 0) t;
  Some (i, alter (fun e => {| e_m := m; owner_cpu := c; depth := depth e |}) i t).
Definition find_entry (t : list mtx_depth_ent) (m c : Z) : option (nat * list mtx_depth_ent) :=
  match mtx_depth_lookup t m c with Some i => Some (i, t) | None => mtx_depth_alloc t m c end.
Definition set_depth (f : Z -> Z) (e : mtx_depth_ent) : mtx_depth_ent := {| e_m := e_m e; owner_cpu := owner_cpu e; depth := f (depth e) |}.

(** By processor [c]; [None] when it spins on a mutex that another one holds.
    [mtx_depth_lock] is held while the table is used. *)
Definition mutex_lock (c m : Z) (s : mtx) : option (Z * mtx) :=
  if m =? 0 then Some (-1, s)
  else if holding s m c then
    match find_entry (mtx_depth_tab s) m c with
    | None => Some (-1, s)
    | Some (i, t) => Some (0, {| locked := locked s; mtx_depth_tab := alter (set_depth (fun d => d + 1)) i t |})
    end
  else match locked s !! m with
  | Some _ => None
  | None =>
      let l := <[m := c]> (locked s) in
      Some (0, match find_entry (mtx_depth_tab s) m c with
               | Some (i, t) => {| locked := l; mtx_depth_tab := alter (set_depth (fun _ => 1)) i t |}
               | None => {| locked := l; mtx_depth_tab := mtx_depth_tab s |}
               end)
  end.
Definition mutex_unlock (c m : Z) (s : mtx) : option (Z * mtx) :=
  if m =? 0 then Some (-1, s)
  else if negb (holding s m c) then Some (-1, s)
  else
    match mtx_depth_lookup (mtx_depth_tab s) m c with
    | Some i =>
        if 1 <? depth (nth i (mtx_depth_tab s) {| e_m := 0; owner_cpu := 0; depth := 0 |})
        then Some (0, {| locked := locked s; mtx_depth_tab := alter (set_depth (fun d => d - 1)) i (mtx_depth_tab s) |})
        else Some (0, {| locked := delete m (locked s); mtx_depth_tab := alter (fun _ => {| e_m := 0; owner_cpu := -1; depth := 0 |}) i (mtx_depth_tab s) |})
    | None => Some (0, {| locked := delete m (locked s); mtx_depth_tab := mtx_depth_tab s |})
    end.

(** ** Mutexes that know their depth *)

Inductive mop := Lock (c m : Z) | Unlock (c m : Z).
Definition mop_mutex (o : mop) : Z := match o with Lock _ m | Unlock _ m => m end.
Definition mtx_step (o : mop) (s : mtx) : option (Z * mtx) := match o with Lock c m => mutex_lock c m s | Unlock c m => mutex_unlock c m s end.
(** The owner of a mutex and how often it has locked it. *)
Definition spec_step (o : mop) (a : gmap Z (Z * Z)) : option (Z * gmap Z (Z * Z)) :=
  if mop_mutex o =? 0 then Some (-1, a)
  else match o with
  | Lock c m =>
      match a !! m with
      | None => Some (0, <[m := (c, 1)]> a)
      | Some (c', d) => if c' =? c then Some (0, <[m := (c, d + 1)]> a) else None
      end
  | Unlock c m =>
      match a !! m with
      | Some (c', d) => if negb (c' =? c) then Some (-1, a) else if 1 <? d then Some (0, <[m := (c, d - 1)]> a) else Some (0, delete m a)
      | None => Some (-1, a)
      end
  end.
(** The results of a sequence; a step that spins ends it. *)
Fixpoint run {S} (step : mop -> S -> option (Z * S)) (l : list mop) (s : S) : list (option Z) :=
  match l with
  | [] => []
  | o :: l' => match step o s with None => [None] | Some (r, s') => Some r :: run step l' s' end
  end.

Record counts (M : gset Z) (s : mtx) (a : gmap Z (Z * Z)) : Prop := {
  ct_len : length (mtx_depth_tab s) = MTX_TAB;
  ct_locked : forall m c, locked s !! m = Some c <-> exists d, a !! m = Some (c, d);
  ct_entry : forall i e, mtx_depth_tab s !! i = Some e -> depth e <> 0 -> a !! e_m e = Some (owner_cpu e, depth e);
  ct_held : forall m c d, a !! m = Some (c, d) -> 0 < d /\ m ∈ M /\ exists i, mtx_depth_tab s !! i = Some {| e_m := m; owner_cpu := c; depth := d |};
  ct_once : forall i j e e', mtx_depth_tab s !! i = Some e -> mtx_depth_tab s !! j = Some e' -> depth e <> 0 -> depth e' <> 0 -> e_m e = e_m e' -> i = j;
}.
Lemma counts_start M : counts M mtx0 ∅.
Proof.
  assert (H0 : forall i e, mtx_depth_tab mtx0 !! i = Some e -> depth e = 0) by (intros i e He; apply list_elem_of_lookup_2, list_elem_of_In, repeat_spec in He; by subst).
  constructor; [done| | | |].
  - intros m c. cbn. setoid_rewrite lookup_empty. split; [done|by intros [? ?]].
  - intros i e He Hd. by rewrite (H0 _ _ He) in Hd.
  - intros m c d. by rewrite lookup_empty.
  - intros i j e e' He _ Hd. by rewrite (H0 _ _ He) in Hd.
Qed.
(** The entry of a held mutex is found. *)
Lemma lookup_held M s a m c d : counts M s a -> a !! m = Some (c, d) ->
  exists i, mtx_depth_lookup (mtx_depth_tab s) m c = Some i /\ mtx_depth_tab s !! i = Some {| e_m := m; owner_cpu := c; depth := d |}.
Proof.
  intros [] Ha. destruct (ct_held0 m c d Ha) as (Hd & _ & i & Hi). unfold mtx_depth_lookup.
  destruct (list_find _ (mtx_depth_tab s)) as [[j e]|] eqn:Ef.
  - apply list_find_Some in Ef as (Hj & (He & Hm & Hc) & _). exists j. split; [done|].
    assert (j = i) as -> by (apply (ct_once0 j i e {| e_m := m; owner_cpu := c; depth := d |}); try done; cbn; lia). congruence.
  - rewrite list_find_None, Forall_lookup in Ef. specialize (Ef i _ Hi). by destruct Ef.
Qed.
(** A mutex that is not held has no entry, and there is a free one. *)
Lemma lookup_free M s a m c : counts M s a -> a !! m = None -> mtx_depth_lookup (mtx_depth_tab s) m c = None.
Proof.
  intros [] Ha. unfold mtx_depth_lookup. destruct (list_find _ (mtx_depth_tab s)) as [[j e]|] eqn:Ef; [|done].
  apply list_find_Some in Ef as (Hj & (He & Hm & _) & _). specialize (ct_entry0 j e Hj ltac:(lia)). congruence.
Qed.
Lemma free_entry M s a m : counts M s a -> a !! m = None -> m ∈ M -> (size M <= MTX_TAB)%nat ->
  exists i e, fst <$> list_find (fun e => depth e = 0) (mtx_depth_tab s) = Some i /\ mtx_depth_tab s !! i = Some e /\ depth e = 0.
Proof.
  intros [] Ha Hm Hs. destruct (list_find _ (mtx_depth_tab s)) as [[j e]|] eqn:Ef.
  { apply list_find_Some in Ef as (Hj & He & _). by exists j, e. }
  exfalso. rewrite list_find_None, Forall_lookup in Ef.
  assert (Hnd : NoDup (e_m <$> mtx_depth_tab s)).
  { apply NoDup_alt. intros i j x Hi Hj. rewrite list_lookup_fmap in Hi, Hj. apply fmap_Some in Hi as (e & Hi & ->). apply fmap_Some in Hj as (e' & Hj & Ej).
    by apply (ct_once0 i j e e' Hi Hj (Ef i e Hi) (Ef j e' Hj)). }
  assert (Hsub : list_to_set (e_m <$> mtx_depth_tab s) ⊆ M ∖ {[m]}).
  { intros x Hx. rewrite elem_of_list_to_set, list_elem_of_fmap in Hx. destruct Hx as (e & -> & (i & Hi)%list_elem_of_lookup).
    pose proof (ct_entry0 i e Hi (Ef i e Hi)) as Hx. destruct (ct_held0 _ _ _ Hx) as (_ & Hin & _). rewrite elem_of_difference, elem_of_singleton. split; [done|]. intros E. rewrite E in Hx. congruence. }
  apply subseteq_size in Hsub. rewrite size_list_to_set, length_fmap, ct_len0 in Hsub by done.
  rewrite size_difference, size_singleton in Hsub by set_solver. assert (size M <> 0%nat) by (rewrite size_non_empty_iff; set_solver). unfold MTX_TAB in *. lia.
Qed.

(** What a step does to one entry and to one mutex keeps the count. *)
Lemma counts_update M s a i e e' m l c d :
  counts M s a -> mtx_depth_tab s !! i = Some e -> (depth e <> 0 -> e_m e = m) -> (forall c' d', a !! m = Some (c', d') -> depth e <> 0) ->
  e' = {| e_m := m; owner_cpu := c; depth := d |} -> 0 < d -> m ∈ M -> (forall k, l !! k = if decide (k = m) then Some c else locked s !! k) ->
  counts M {| locked := l; mtx_depth_tab := alter (fun _ => e') i (mtx_depth_tab s) |} (<[m := (c, d)]> a).
Proof.
  intros Hc He Hm Hn -> Hd HM Hl. pose proof Hc as []. assert (Hi : alter (fun _ => {| e_m := m; owner_cpu := c; depth := d |}) i (mtx_depth_tab s) !! i = Some {| e_m := m; owner_cpu := c; depth := d |}) by by rewrite list_lookup_alter_eq, He.
  (* another entry in use is of another mutex *)
  assert (Hother : forall j e0, j <> i -> mtx_depth_tab s !! j = Some e0 -> depth e0 <> 0 -> e_m e0 <> m).
  { intros j e0 Hj H0 Hd0 E. pose proof (ct_entry0 j e0 H0 Hd0) as Ha. rewrite E in Ha. pose proof (Hn _ _ Ha) as Hde. apply Hj, (ct_once0 j i e0 e); try done. by rewrite E, Hm. }
  constructor; cbn [locked mtx_depth_tab].
  - by rewrite length_alter.
  - intros k x. rewrite Hl. destruct (decide (k = m)) as [->|Hk]; [rewrite lookup_insert_eq|by rewrite lookup_insert_ne].
    split; [intros [= ->]; by exists d|intros [? [= -> _]]; done].
  - intros j e0 Hj Hd0. destruct (decide (j = i)) as [->|Hne]; [rewrite Hi in Hj; injection Hj as <-; cbn; by rewrite lookup_insert_eq|].
    rewrite list_lookup_alter_ne in Hj by done. rewrite lookup_insert_ne by (intros E; by eapply (Hother j)). by apply (ct_entry0 j).
  - intros k x y. destruct (decide (k = m)) as [->|Hk].
    + rewrite lookup_insert_eq. intros [= <- <-]. split; [done|]. split; [done|]. by exists i.
    + rewrite lookup_insert_ne by done. intros Hx. destruct (ct_held0 k x y Hx) as (H1 & H2 & j & Hj). split; [done|]. split; [done|]. exists j.
      rewrite list_lookup_alter_ne; [done|]. intros <-. rewrite He in Hj. injection Hj as ->. cbn in *. apply Hk, Hm. lia.
  - intros j j' e0 e1 Hj Hj' H0 H1 E. destruct (decide (j = i)) as [->|Hne], (decide (j' = i)) as [->|Hne']; [done| | |].
    + rewrite Hi in Hj. injection Hj as <-. rewrite list_lookup_alter_ne in Hj' by done. cbn in E. by destruct (Hother j' e1 Hne' Hj' H1).
    + rewrite Hi in Hj'. injection Hj' as <-. rewrite list_lookup_alter_ne in Hj by done. cbn in E. by destruct (Hother j e0 Hne Hj H0).
    + rewrite list_lookup_alter_ne in Hj, Hj' by done. by apply (ct_once0 j j' e0 e1).
Qed.
Lemma counts_release M s a i m c d e' : counts M s a -> mtx_depth_tab s !! i = Some {| e_m := m; owner_cpu := c; depth := d |} -> d <> 0 -> depth e' = 0 ->
  counts M {| locked := delete m (locked s); mtx_depth_tab := alter (fun _ => e') i (mtx_depth_tab s) |} (delete m a).
Proof.
  intros Hc He Hd He'. pose proof Hc as [].
  assert (Hi : alter (fun _ => e') i (mtx_depth_tab s) !! i = Some e') by by rewrite list_lookup_alter_eq, He.
  assert (Hother : forall j e0, j <> i -> mtx_depth_tab s !! j = Some e0 -> depth e0 <> 0 -> e_m e0 <> m).
  { intros j e0 Hj H0 Hd0 E. by apply Hj, (ct_once0 j i e0 _ H0 He). }
  constructor; cbn [locked mtx_depth_tab].
  - by rewrite length_alter.
  - intros k x. destruct (decide (k = m)) as [->|Hk]; [rewrite !lookup_delete_eq|by rewrite !lookup_delete_ne]. split; [done|by intros [? ?]].
  - intros j e0 Hj Hd0. destruct (decide (j = i)) as [->|Hne]; [rewrite Hi in Hj; injection Hj as <-; by rewrite He' in Hd0|].
    rewrite list_lookup_alter_ne in Hj by done. rewrite lookup_delete_ne by (intros E; by eapply (Hother j)). by apply (ct_entry0 j).
  - intros k x y. destruct (decide (k = m)) as [->|Hk]; [by rewrite lookup_delete_eq|]. rewrite lookup_delete_ne by done. intros Hx.
    destruct (ct_held0 k x y Hx) as (H1 & H2 & j & Hj). split; [done|]. split; [done|]. exists j. rewrite list_lookup_alter_ne; [done|]. intros <-. rewrite He in Hj. congruence.
  - intros j j' e0 e1 Hj Hj' H0 H1. destruct (decide (j = i)) as [->|Hne]; [rewrite Hi in Hj; injection Hj as <-; by rewrite He' in H0|].
    destruct (decide (j' = i)) as [->|Hne']; [rewrite Hi in Hj'; injection Hj' as <-; by rewrite He' in H1|].
    rewrite list_lookup_alter_ne in Hj, Hj' by done. by apply (ct_once0 j j' e0 e1).
Qed.
Lemma alter_at {A} (f : A -> A) i (l : list A) x : l !! i = Some x -> alter f i l = alter (fun _ => f x) i l.
Proof. intros Hx. apply list_eq. intros j. destruct (decide (i = j)) as [<-|]; [by rewrite !list_lookup_alter_eq, Hx|by rewrite !list_lookup_alter_ne]. Qed.
Lemma find_held M s a m c d : counts M s a -> a !! m = Some (c, d) ->
  exists i, find_entry (mtx_depth_tab s) m c = Some (i, mtx_depth_tab s) /\ mtx_depth_tab s !! i = Some {| e_m := m; owner_cpu := c; depth := d |}.
Proof. intros Hc Ha. destruct (lookup_held _ _ _ _ _ _ Hc Ha) as (i & Hi & He). exists i. unfold find_entry. by rewrite Hi. Qed.
Lemma find_free M s a m c : counts M s a -> a !! m = None -> m ∈ M -> (size M <= MTX_TAB)%nat ->
  exists i e t, find_entry (mtx_depth_tab s) m c = Some (i, t) /\ mtx_depth_tab s !! i = Some e /\ depth e = 0 /\
    forall f, alter (set_depth f) i t = alter (fun _ => {| e_m := m; owner_cpu := c; depth := f 0 |}) i (mtx_depth_tab s).
Proof.
  intros Hc Ha Hm Hs. unfold find_entry. rewrite (lookup_free _ _ _ _ _ Hc Ha). destruct (free_entry _ _ _ _ Hc Ha Hm Hs) as (i & e & Hi & He & Hd).
  unfold mtx_depth_alloc. rewrite Hi. cbn [mbind option_bind]. eexists i, e, _. split; [done|]. split; [done|]. split; [done|]. intros f.
  apply list_eq. intros j. destruct (decide (i = j)) as [<-|]; [|by rewrite !list_lookup_alter_ne]. rewrite !list_lookup_alter_eq, He. cbn. unfold set_depth. cbn. by rewrite Hd.
Qed.
Lemma mtx_refines M s a o : counts M s a -> mop_mutex o = 0 \/ mop_mutex o ∈ M -> (size M <= MTX_TAB)%nat ->
  match mtx_step o s, spec_step o a with
  | Some (r, s'), Some (r', a') => r = r' /\ counts M s' a'
  | None, None => True
  | _, _ => False
  end.
Proof.
  intros Hc Hm Hs. assert (Hl := ct_locked _ _ _ Hc). destruct o as [c m|c m]; unfold spec_step; cbn [mop_mutex mtx_step] in *; unfold mutex_lock, mutex_unlock; (destruct (Z.eqb_spec m 0) as [|Hz]; [done|]); destruct Hm as [|Hm]; try done; unfold holding.
  - destruct (a !! m) as [[c' d]|] eqn:Ha.
    + destruct (ct_held _ _ _ Hc _ _ _ Ha) as (Hd & _ & _). assert (Hlm : locked s !! m = Some c') by (apply Hl; by exists d). rewrite Hlm. destruct (Z.eqb_spec c' c) as [->|Hne].
      * rewrite bool_decide_eq_true_2 by done. destruct (find_held _ _ _ _ _ _ Hc Ha) as (i & -> & Hi). split; [done|]. rewrite (alter_at _ _ _ _ Hi).
        apply (counts_update M s a i _ _ m _ c (d + 1) Hc Hi); try done; try (cbn; lia). intros k. destruct (decide (k = m)) as [->|]; [exact Hlm|done].
      * by rewrite bool_decide_eq_false_2 by congruence.
    + assert (Hlm : locked s !! m = None) by (destruct (locked s !! m) as [x|] eqn:E; [|done]; apply Hl in E as [? ?]; congruence). rewrite Hlm.
      rewrite bool_decide_eq_false_2 by done. destruct (find_free _ _ _ m c Hc Ha Hm Hs) as (i & e & t & -> & He & Hd & Ht). rewrite Ht. split; [done|].
      apply (counts_update M s a i e _ m _ c 1 Hc He); try done; try lia; [intros ? ? ?; congruence|]. intros k. destruct (decide (k = m)) as [->|]; [by rewrite lookup_insert_eq|by rewrite lookup_insert_ne].
  - destruct (a !! m) as [[c' d]|] eqn:Ha.
    + destruct (ct_held _ _ _ Hc _ _ _ Ha) as (Hd & _ & _). assert (Hlm : locked s !! m = Some c') by (apply Hl; by exists d). rewrite Hlm. destruct (Z.eqb_spec c' c) as [->|Hne]; cbn [negb].
      * rewrite bool_decide_eq_true_2 by done. cbn [negb]. destruct (lookup_held _ _ _ _ _ _ Hc Ha) as (i & -> & Hi). rewrite (nth_lookup_Some _ _ _ _ Hi). cbn [depth].
        destruct (Z.ltb_spec 1 d); (split; [done|]).
        -- rewrite (alter_at _ _ _ _ Hi). apply (counts_update M s a i _ _ m _ c (d - 1) Hc Hi); try done; try (cbn; lia). intros k. destruct (decide (k = m)) as [->|]; [exact Hlm|done].
        -- apply (counts_release M s a i m c d _ Hc Hi); [lia|done].
      * rewrite bool_decide_eq_false_2 by congruence. done.
    + rewrite bool_decide_eq_false_2; [done|]. intros E. apply Hl in E as [? ?]. congruence.
Qed.

(** C22. The table counts right: with no more than 64 mutexes, any sequence of
    mutex_lock and mutex_unlock by any processors returns what mutexes return
    that each know their owner and depth: a second processor waits, the owner
    locks again, and only the unlock that matches the first lock lets go. *)
Theorem mutex_counts (M : gset Z) l : (size M <= MTX_TAB)%nat -> Forall (fun o => mop_mutex o = 0 \/ mop_mutex o ∈ M) l ->
  run mtx_step l mtx0 = run spec_step l ∅.
Proof.
  intros Hs Hl. assert (Hc := counts_start M). revert Hc. generalize mtx0 (∅ : gmap Z (Z * Z)). induction Hl as [|o l Ho _ IH]; intros s a Hc; [done|]. cbn [run].
  pose proof (mtx_refines M s a o Hc Ho Hs) as Hr. destruct (mtx_step o s) as [[r s']|], (spec_step o a) as [[r' a']|]; try done. destruct Hr as [-> Hc']. f_equal. by apply IH.
Qed.
Lemma mutex_counts_witness : run mtx_step [Lock 0 8; Lock 0 8; Lock 1 16; Unlock 0 8; Lock 1 8] mtx0 = run spec_step [Lock 0 8; Lock 0 8; Lock 1 16; Unlock 0 8; Lock 1 8] ∅.
Proof. apply (mutex_counts {[8; 16]}); [vm_compute; lia|]. repeat (constructor; [right; cbn; set_solver|]). constructor. Defined.

(** With all entries taken by other mutexes, the inner unlock lets go of the
    mutex that the outer lock still claims. *)
Theorem uncounted_unlock : let others := (fun k => Lock 1 (Z.of_nat k)) <$> seq 100 64 in
  run mtx_step (others ++ [Lock 0 8; Lock 0 8; Unlock 0 8; Unlock 0 8]) mtx0 = repeat (Some 0) 64 ++ [Some 0; Some (-1); Some 0; Some (-1)].
Proof. by vm_compute. Qed.
