(* ===== verification/Grep.v ===== *)
(** * user/grep.c: the pattern matcher and the line filter

    The matcher is shown to accept exactly the texts that the pattern denotes
    ([match_correct]), with the meaning of a pattern given by splitting the
    text.  [grep] is modelled with its buffer: given the whole input by one
    read it prints exactly the lines that match ([grep_filters]); over several
    reads it goes on into what earlier reads left in the buffer
    ([grep_reads_stale_lines]). *)

From Stdlib Require Import ZArith Lia.
From S2P Require Import Prelude Bytes.

Definition CARET : Z := 94.
Definition DOT : Z := 46.
Definition STAR : Z := 42.
Definition DOLLAR : Z := 36.
Definition NL : Z := 10.

(** ** The matcher.  A string is its characters before the NUL. *)

(** [do ... while] over the text, with what has to match after the star. *)
Fixpoint matchstar (c : Z) (here : list Z -> bool) (text : list Z) : bool :=
  if here text then true
  else match text with
  | [] => false
  | t :: text' => if (t =? c) || (c =? DOT) then matchstar c here text' else false
  end.
Fixpoint matchhere (re : list Z) : list Z -> bool :=
  match re with
  | [] => fun _ => true
  | c :: re1 =>
      let step text :=
        match text with
        | [] => false
        | t :: text' => if (c =? DOT) || (c =? t) then matchhere re1 text' else false
        end in
      match re1 with
      | [] => fun text => if c =? DOLLAR then match text with [] => true | _ => false end else step text
      | d :: re2 => fun text => if d =? STAR then matchstar c (matchhere re2) text else step text
      end
  end.
Fixpoint match_from (re text : list Z) : bool :=
  if matchhere re text then true else match text with [] => false | _ :: text' => match_from re text' end.
Definition match_ (re text : list Z) : bool :=
  match re with
  | c :: re' => if c =? CARET then matchhere re' text else match_from re text
  | [] => match_from re text
  end.

(** ** The filter *)

Record grep_state := { g_buf : list Z; g_out : list (list Z) }.
Definition BUFSZ : Z := 1024.
(** [strchr(p, '\n')] with [p] at an offset of the buffer: the offset found. *)
Fixpoint strchr_nl (l : list Z) (p : Z) : option (option Z) :=
  match l with
  | [] => None (* past the end of the buffer *)
  | c :: l' => if c =? 0 then Some None else if c =? NL then Some (Some p) else strchr_nl l' (p + 1)
  end.
(** The inner loop, from [p]; a line has at least its newline, so that the
    length of the buffer bounds the turns. *)
Fixpoint lines_loop (fuel : nat) (pattern : list Z) (p : Z) : K grep_state Z :=
  s <- kget ;;
  match strchr_nl (drop (Z.to_nat p) (g_buf s)) p with
  | None => ub "grep: strchr past buf"
  | Some None => kret p
  | Some (Some q) =>
      match fuel with
      | O => ub "grep: no progress"
      | S f =>
          let line := slice (Z.to_nat p) (Z.to_nat (q - p)) (g_buf s) in
          (* the newline is 0 from here on, unless the line matches *)
          (if match_ pattern line then kmodify (fun s => {| g_buf := g_buf s; g_out := g_out s ++ [line ++ [NL]] |})
           else kmodify (fun s => {| g_buf := splice (Z.to_nat q) [0] (g_buf s); g_out := g_out s |})) ;;
          lines_loop f pattern (q + 1)
      end
  end.
(** One turn of the outer loop with the bytes that [read] put in the buffer. *)
Definition grep_turn (pattern chunk : list Z) (m : Z) : K grep_state Z :=
  kmodify (fun s => {| g_buf := splice (Z.to_nat m) chunk (g_buf s); g_out := g_out s |}) ;;
  let m := m + Z.of_nat (length chunk) in
  p <- lines_loop (Z.to_nat BUFSZ) pattern 0 ;;
  let m := if p =? 0 then 0 else m in
  if 0 <? m then
    let m := m - p in
    if m <? 0 then ub "grep: memmove of a negative length"
    else kmodify (fun s => {| g_buf := splice 0 (slice (Z.to_nat p) (Z.to_nat m) (g_buf s)) (g_buf s); g_out := g_out s |}) ;; kret m
  else kret m.
(** [reads] is what the file gives, read by read; a read takes no more than
    there is room for. *)
Fixpoint grep_loop (pattern : list Z) (reads : list (list Z)) (m : Z) : K grep_state unit :=
  match reads with
  | [] => kret tt
  | r :: reads' =>
      match take (Z.to_nat (BUFSZ - m)) r with
      | [] => kret tt
      | chunk => m <- grep_turn pattern chunk m ;; grep_loop pattern reads' m
      end
  end.
Definition grep (pattern : list Z) (reads : list (list Z)) : K grep_state unit := grep_loop pattern reads 0.
Definition grep_start : grep_state := {| g_buf := repeat 0 1024; g_out := [] |}.

(** ** What a pattern means *)

Inductive item := One (c : Z) | Many (c : Z).
(** The items of a pattern, and whether it ends in an anchor. *)
Fixpoint parse (re : list Z) : list item * bool :=
  match re with
  | [] => ([], false)
  | c :: re1 =>
      match re1 with
      | [] => if c =? DOLLAR then ([], true) else ([One c], false)
      | d :: re2 => if d =? STAR then let (l, a) := parse re2 in (Many c :: l, a) else let (l, a) := parse re1 in (One c :: l, a)
      end
  end.
Definition hit (c t : Z) : Prop := c = DOT \/ c = t.
Fixpoint denotes (l : list item) (w : list Z) : Prop :=
  match l with
  | [] => w = []
  | One c :: l' => exists t w', w = t :: w' /\ hit c t /\ denotes l' w'
  | Many c :: l' => exists u v, w = u ++ v /\ Forall (hit c) u /\ denotes l' v
  end.
(** The text begins with what the pattern denotes, and ends there if anchored. *)
Definition begins (re text : list Z) : Prop :=
  exists u v, text = u ++ v /\ denotes (parse re).1 u /\ ((parse re).2 = true -> v = []).
Definition occurs (re text : list Z) : Prop := exists u v, text = u ++ v /\ begins re v.

Lemma matchstar_spec c here text : matchstar c here text = true <-> exists u v, text = u ++ v /\ Forall (hit c) u /\ here v = true.
Proof.
  induction text as [|t text IH]; cbn [matchstar].
  - destruct (here []) eqn:E; split; [intros _; by exists [], []|done|done|]. intros (u & v & Et & _ & Hv). apply eq_sym, app_nil in Et as [-> ->]. congruence.
  - destruct (here (t :: text)) eqn:E; [split; [intros _; by exists [], (t :: text)|done]|].
    destruct (Z.eqb_spec t c) as [->|Hc]; [|destruct (Z.eqb_spec c DOT) as [->|Hd]]; cbn [orb].
    3: { split; [done|]. intros (u & v & Et & Hu & Hv). destruct u as [|x u]; [cbn in Et; subst v; congruence|]. injection Et as -> _. inversion Hu as [|? ? [?|?]]; congruence. }
    all: rewrite IH; split; [intros (u & v & -> & Hu & Hv)|intros (u & v & Et & Hu & Hv)].
    1: exists (c :: u), v; split; [done|]; split; [constructor; [by right|done]|done].
    2: exists (t :: u), v; split; [done|]; split; [constructor; [by left|done]|done].
    all: destruct u as [|x u]; [cbn in Et; subst v; congruence|]; injection Et as -> ->; inversion Hu; subst; by exists u, v.
Qed.
Lemma step_spec c re1 text :
  (match text with [] => false | t :: text' => if (c =? DOT) || (c =? t) then matchhere re1 text' else false end) = true <->
  exists t text', text = t :: text' /\ hit c t /\ matchhere re1 text' = true.
Proof.
  destruct text as [|t text']; [split; [done|intros (? & ? & ? & _); done]|]. unfold hit. split.
  - destruct (Z.eqb_spec c DOT), (Z.eqb_spec c t); cbn [orb]; try done; intros Hm; exists t, text'; auto.
  - intros (t' & text'' & [= <- <-] & Hh & Hm). destruct (Z.eqb_spec c DOT), (Z.eqb_spec c t); cbn [orb]; try done. by destruct Hh.
Qed.
Lemma begins_one c re1 text : parse (c :: re1) = (One c :: (parse re1).1, (parse re1).2) ->
  begins (c :: re1) text <-> exists t text', text = t :: text' /\ hit c t /\ begins re1 text'.
Proof.
  intros Hp. unfold begins. rewrite Hp. cbn [fst snd denotes]. split.
  - intros (u & v & -> & (t & w & -> & Hh & Hd) & Ha). exists t, (w ++ v). split; [done|]. split; [done|]. by exists w, v.
  - intros (t & text' & -> & Hh & u & v & -> & Hd & Ha). exists (t :: u), v. split; [done|]. split; [|done]. by exists t, u.
Qed.
Lemma begins_many c re2 text : begins (c :: STAR :: re2) text <-> exists u v, text = u ++ v /\ Forall (hit c) u /\ begins re2 v.
Proof.
  unfold begins. cbn [parse]. change (STAR =? STAR) with true. destruct (parse re2) as [l a]. cbn [fst snd denotes]. split.
  - intros (u & v & -> & (u1 & u2 & -> & Hh & Hd) & Ha). exists u1, (u2 ++ v). split; [by rewrite app_assoc|]. split; [done|]. by exists u2, v.
  - intros (u & w & -> & Hh & u' & v & -> & Hd & Ha). exists (u ++ u'), v. split; [by rewrite app_assoc|]. split; [|done]. by exists u, u'.
Qed.
Lemma matchhere_spec re : forall text, matchhere re text = true <-> begins re text.
Proof.
  induction re as [re IH] using (induction_ltof1 _ (@length Z)). unfold ltof in IH. intros text. destruct re as [|c [|d re2]]; cbn [matchhere].
  - split; [intros _; by exists [], text|done].
  - destruct (Z.eqb_spec c DOLLAR) as [->|Hc].
    + unfold begins. cbn. split; [destruct text; [intros _; by exists [], []|done]|]. intros (u & v & -> & -> & Hv). by rewrite Hv.
    + rewrite (begins_one c []) by (cbn [parse]; by rewrite (proj2 (Z.eqb_neq _ _) Hc)). rewrite (step_spec c []). by setoid_rewrite (IH [] ltac:(cbn; lia)).
  - destruct (Z.eqb_spec d STAR) as [->|Hd].
    + rewrite begins_many, matchstar_spec. by setoid_rewrite (IH re2 ltac:(cbn; lia)).
    + rewrite (begins_one c (d :: re2)) by (cbn [parse]; rewrite (proj2 (Z.eqb_neq _ _) Hd); by destruct (match re2 with [] => _ | _ => _ end)).
      rewrite (step_spec c (d :: re2)). by setoid_rewrite (IH (d :: re2) ltac:(cbn; lia)).
Qed.
Lemma match_from_spec re text : match_from re text = true <-> occurs re text.
Proof.
  unfold occurs. induction text as [|t text IH]; cbn [match_from]; destruct (matchhere re _) eqn:E.
  - split; [intros _; exists [], []; split; [done|by apply matchhere_spec]|done].
  - split; [done|]. intros (u & v & Et & Hv). apply eq_sym, app_nil in Et as [-> ->]. apply matchhere_spec in Hv. congruence.
  - split; [intros _; exists [], (t :: text); split; [done|by apply matchhere_spec]|done].
  - rewrite IH. split; [intros (u & v & -> & Hv); by exists (t :: u), v|]. intros (u & v & Et & Hv).
    destruct u as [|x u]; [cbn in Et; subst v; apply matchhere_spec in Hv; congruence|]. injection Et as -> ->. by exists u, v.
Qed.

(** C26. The matcher is right: a pattern that starts with ^ matches exactly the
    texts that begin with what the rest denotes, any other pattern exactly
    those in which what it denotes occurs, where . is any character, c* any
    number of c, and a final $ the end of the text. *)
Theorem match_correct re text : match_ re text = true <->
  match re with c :: re' => if c =? CARET then begins re' text else occurs re text | [] => occurs [] text end.
Proof. destruct re as [|c re']; cbn [match_]; [apply match_from_spec|]. destruct (c =? CARET); [apply matchhere_spec|apply match_from_spec]. Qed.

(** ** Lines *)

Definition plain (l : list Z) : Prop := Forall (fun c => c <> 0 /\ c <> NL) l.
Definition unlines (ls : list (list Z)) : list Z := concat ((fun l => l ++ [NL]) <$> ls).
(** The lines that match, as they are printed. *)
Definition hits (pattern : list Z) (ls : list (list Z)) : list (list Z) := (fun l => l ++ [NL]) <$> filter (fun l => match_ pattern l = true) ls.

Lemma unlines_cons l ls : unlines (l :: ls) = l ++ NL :: unlines ls.
Proof. unfold unlines. cbn. by rewrite <- app_assoc. Qed.
Lemma strchr_plain l r p : plain l -> strchr_nl (l ++ r) p = strchr_nl r (p + Z.of_nat (length l)).
Proof.
  intros Hl. revert p. induction Hl as [|c l [Hc Hn] _ IH]; intros p; cbn [app strchr_nl length].
  - f_equal. lia.
  - rewrite (proj2 (Z.eqb_neq _ _) Hc), (proj2 (Z.eqb_neq _ _) Hn), IH. f_equal. lia.
Qed.
(** The lines as they stay in the buffer. *)
Definition marked (pattern : list Z) (ls : list (list Z)) : list Z := concat ((fun l => l ++ [if match_ pattern l then NL else 0]) <$> ls).
Lemma marked_length pattern ls : length (marked pattern ls) = length (unlines ls).
Proof. unfold marked, unlines. induction ls as [|l ls IH]; [done|]. cbn. by rewrite !length_app, IH. Qed.
Lemma marked_cons pattern l ls : marked pattern (l :: ls) = l ++ (if match_ pattern l then NL else 0) :: marked pattern ls.
Proof. unfold marked. cbn. by rewrite <- app_assoc. Qed.
Lemma marked_hits pattern ls : Forall (fun l => match_ pattern l = true) ls -> marked pattern ls = unlines ls.
Proof. intros H. induction H as [|l ls Hl _ IH]; [done|]. by rewrite marked_cons, unlines_cons, IH, Hl. Qed.
Lemma splice_mid (pre l r : list Z) x y : splice (length pre + length l) [y] (pre ++ l ++ x :: r) = pre ++ l ++ y :: r.
Proof.
  unfold splice. rewrite !app_assoc, <- length_app. rewrite take_app_length. rewrite drop_app_ge by (cbn; lia).
  replace (length (pre ++ l) + length [y] - length (pre ++ l))%nat with 1%nat by (cbn; lia). by rewrite <- app_assoc.
Qed.
(** The inner loop goes through the whole lines and stops in what is left. *)
Lemma lines_loop_spec pattern ls : forall fuel pre rest tl s, Forall plain ls -> plain rest -> (length ls <= fuel)%nat ->
  g_buf s = pre ++ unlines ls ++ rest ++ 0 :: tl ->
  lines_loop fuel pattern (Z.of_nat (length pre)) s =
  Done (Z.of_nat (length pre + length (unlines ls))) {| g_buf := pre ++ marked pattern ls ++ rest ++ 0 :: tl; g_out := g_out s ++ hits pattern ls |}.
Proof.
  induction ls as [|l ls IH]; intros fuel pre rest tl s Hls Hr Hf Hb.
  - replace (lines_loop fuel pattern (Z.of_nat (length pre)) s) with (Done (S := grep_state) (Z.of_nat (length pre)) s).
    + cbn. rewrite app_nil_r, Nat.add_0_r. f_equal. destruct s as [b o]. cbn in *. by subst b.
    + destruct fuel; cbn [lines_loop]; unfold kbind, kget; rewrite Nat2Z.id, Hb, drop_app_length; cbn [unlines fmap list_fmap concat app];
        rewrite strchr_plain by done; done.
  - destruct fuel as [|fuel]; [cbn in Hf; lia|]. inversion Hls as [|? ? Hl Hls']; subst. cbn [lines_loop]. unfold kbind at 1, kget.
    rewrite Nat2Z.id. replace (drop (length pre) (g_buf s)) with (unlines (l :: ls) ++ rest ++ 0 :: tl) by (rewrite Hb; by rewrite drop_app_length).
    rewrite unlines_cons, <- app_assoc. rewrite strchr_plain by done. cbn [app strchr_nl]. change (NL =? 0) with false. change (NL =? NL) with true. cbv iota.
    replace (Z.to_nat (Z.of_nat (length pre) + Z.of_nat (length l) - Z.of_nat (length pre))) with (length l) by lia.
    replace (Z.to_nat (Z.of_nat (length pre) + Z.of_nat (length l))) with (length pre + length l)%nat by lia.
    assert (slice (length pre) (length l) (g_buf s) = l) as ->.
    { unfold slice. rewrite Hb, drop_app_length, unlines_cons, <- app_assoc. apply take_app_length. }
    set (e := if match_ pattern l then NL else 0).
    set (s1 := {| g_buf := (pre ++ l ++ [e]) ++ unlines ls ++ rest ++ 0 :: tl; g_out := g_out s ++ (if match_ pattern l then [l ++ [NL]] else []) |}).
    replace (kbind (if match_ pattern l then _ else _) _ s) with (lines_loop fuel pattern (Z.of_nat (length (pre ++ l ++ [e]))) s1).
    2: { unfold s1, e, kbind, kmodify. rewrite !length_app. cbn [length].
      replace (Z.of_nat (length pre + (length l + 1))) with (Z.of_nat (length pre) + Z.of_nat (length l) + 1) by lia.
      destruct (match_ pattern l); f_equal; f_equal; rewrite ?Hb, ?unlines_cons, ?app_nil_r, <- ?app_assoc; cbn [app]; by rewrite ?splice_mid. }
    rewrite (IH fuel (pre ++ l ++ [e]) rest tl s1); [|done|done|cbn in Hf; lia|done].
    rewrite marked_cons. fold e. f_equal; [rewrite !length_app; cbn [length]; lia|]. f_equal; [by rewrite <- !app_assoc|]. unfold s1, hits. cbn [g_out].
    rewrite filter_cons. destruct (match_ pattern l) eqn:E; [|by rewrite decide_False, app_nil_r by done].
    rewrite decide_True by done. cbn. by rewrite <- app_assoc.
Qed.
Lemma unlines_length ls : (length ls <= length (unlines ls))%nat.
Proof. induction ls as [|l ls IH]; [done|]. rewrite unlines_cons, length_app. cbn. lia. Qed.
(** What is left of whole lines after some of their text are whole lines. *)
Lemma drop_unlines ls : forall n, Forall plain ls -> (n < length (unlines ls))%nat -> exists ls', Forall plain ls' /\ drop n (unlines ls) = unlines ls' /\ ls' <> [].
Proof.
  induction ls as [|l ls IH]; intros n Hls Hn; [cbn in Hn; lia|]. inversion Hls as [|? ? Hl Hls']; subst. rewrite unlines_cons in *.
  destruct (decide (n <= length l)%nat).
  - exists (drop n l :: ls). split; [constructor; [by apply Forall_drop|done]|]. split; [|done]. by rewrite unlines_cons, drop_app_le.
  - rewrite length_app in Hn. cbn in Hn. destruct (IH (n - length l - 1)%nat Hls') as (ls' & Hp & Hd & Hne); [lia|]. exists ls'. split; [done|]. split; [|done].
    rewrite drop_app_ge by lia. replace (n - length l)%nat with (S (n - length l - 1)) by lia. done.
Qed.

(** A turn on a buffer that begins with whole lines. *)
Lemma grep_turn_spec pattern ls rest tl chunk s : Forall plain ls -> plain rest -> chunk <> [] ->
  splice 0 chunk (g_buf s) = unlines ls ++ rest ++ 0 :: tl -> (length ls <= Z.to_nat BUFSZ)%nat -> ls <> [] ->
  grep_turn pattern chunk 0 s =
    let s1 := {| g_buf := marked pattern ls ++ rest ++ 0 :: tl; g_out := g_out s ++ hits pattern ls |} in
    let m := Z.of_nat (length chunk) - Z.of_nat (length (unlines ls)) in
    if m <? 0 then Panicked "grep: memmove of a negative length" s1
    else Done m {| g_buf := splice 0 (slice (length (unlines ls)) (Z.to_nat m) (g_buf s1)) (g_buf s1); g_out := g_out s1 |}.
Proof.
  intros Hls Hr Hc Hb Hn Hne. unfold grep_turn. unfold kbind at 1, kmodify at 1. change (Z.to_nat 0) with 0%nat. set (s0 := {| g_buf := splice 0 chunk (g_buf s); g_out := g_out s |}).
  unfold kbind at 1. pose proof (lines_loop_spec pattern ls (Z.to_nat BUFSZ) [] rest tl s0 Hls Hr Hn Hb) as E. change (Z.of_nat (length (@nil Z))) with 0 in E. rewrite E. cbn [length Nat.add].
  assert (0 < length (unlines ls))%nat by (destruct ls as [|l ls]; [done|]; pose proof (unlines_length (l :: ls)); cbn [length] in *; lia).
  destruct (Z.eqb_spec (Z.of_nat (length (unlines ls))) 0); [lia|]. rewrite Z.add_0_l. destruct (Z.ltb_spec 0 (Z.of_nat (length chunk))); [|destruct chunk; [done|cbn in *; lia]].
  cbv zeta. rewrite Nat2Z.id. by destruct (Z.of_nat (length chunk) - Z.of_nat (length (unlines ls)) <? 0).
Qed.
Lemma repeat_split (n : nat) : (n < 1024)%nat -> drop n (repeat 0 1024) = 0 :: repeat 0 (1023 - n).
Proof. intros Hn. replace 1024%nat with (n + S (1023 - n))%nat by lia. rewrite repeat_app, drop_app_ge, repeat_length by (rewrite repeat_length; lia). by rewrite Nat.sub_diag. Qed.
Lemma first_read (text : list Z) : (length text < 1024)%nat -> splice 0 text (g_buf grep_start) = text ++ 0 :: repeat 0 (1023 - length text).
Proof. intros Hl. unfold splice. cbn [take app g_buf grep_start Nat.add]. rewrite repeat_split by lia. done. Qed.

(** When one read gives all of the input (and leaves room for a NUL), grep
    prints exactly the whole lines that match, in order. *)
Theorem grep_filters pattern ls rest : Forall plain ls -> plain rest -> ls <> [] -> (length (unlines ls ++ rest) < 1024)%nat ->
  exists s, grep pattern [unlines ls ++ rest] grep_start = Done tt s /\ g_out s = hits pattern ls.
Proof.
  intros Hls Hr Hne Hl. assert (exists c t, unlines ls ++ rest = c :: t) as (c & t & Et) by (destruct ls as [|l ls]; [done|]; rewrite unlines_cons; destruct l; by eexists _, _).
  unfold grep. cbn [grep_loop]. rewrite take_ge by (unfold BUFSZ; lia). rewrite Et, <- Et. set (text := unlines ls ++ rest) in *.
  pose proof (unlines_length ls). assert (length text = length (unlines ls) + length rest)%nat by apply length_app.
  unfold kbind at 1. rewrite (grep_turn_spec pattern ls rest (repeat 0 (1023 - length text)) text grep_start); try done.
  - cbv zeta. destruct (Z.ltb_spec (Z.of_nat (length text) - Z.of_nat (length (unlines ls))) 0); [lia|]. by eexists.
  - by rewrite Et.
  - rewrite first_read by done. unfold text at 1. by rewrite <- app_assoc.
  - unfold BUFSZ. lia.
Qed.
(** C40. grep does not survive a short read: when one read gives whole lines
    that all match and the next one whole lines of fewer bytes, the loop goes
    on into the lines that the first read left in the buffer, and the length
    of the memmove that follows is negative. *)
Theorem grep_reads_stale_lines pattern ls1 ls2 : Forall plain ls1 -> Forall plain ls2 -> Forall (fun l => match_ pattern l = true) ls1 -> ls2 <> [] ->
  (length (unlines ls2) < length (unlines ls1) < 1024)%nat ->
  exists s stale, grep pattern [unlines ls1; unlines ls2] grep_start = Panicked "grep: memmove of a negative length" s /\
    stale <> [] /\ drop (length (unlines ls2)) (unlines ls1) = unlines stale /\ g_out s = hits pattern (ls1 ++ ls2 ++ stale).
Proof.
  intros H1 H2 Hm Hn2 Hl. destruct (drop_unlines ls1 (length (unlines ls2)) H1) as (stale & Hs & Hd & Hns); [lia|].
  assert (Hn1 : ls1 <> []) by (intros ->; cbn in Hl; lia). assert (Hu : forall ls, ls <> [] -> exists c t, unlines ls = c :: t).
  { intros [|l ls] ?; [done|]. rewrite unlines_cons. destruct l; by eexists _, _. }
  assert (Hls : forall ls, (length (unlines ls) < 1024)%nat -> (length ls <= Z.to_nat BUFSZ)%nat) by (intros ls ?; pose proof (unlines_length ls); unfold BUFSZ; lia).
  unfold grep. cbn [grep_loop]. rewrite take_ge by (unfold BUFSZ; lia). destruct (Hu ls1 Hn1) as (c1 & t1 & E1). rewrite E1, <- E1. unfold kbind at 1.
  set (z := repeat 0 (1023 - length (unlines ls1))).
  rewrite (grep_turn_spec pattern ls1 [] z (unlines ls1) grep_start); try (congruence || done); [|by constructor|by rewrite first_read by lia|apply Hls; lia].
  cbv zeta. rewrite Z.sub_diag, marked_hits by done. cbn [Z.ltb Z.compare app g_out g_buf grep_start]. change (Z.to_nat 0) with 0%nat.
  rewrite take_ge by (unfold BUFSZ; lia). destruct (Hu ls2 Hn2) as (c2 & t2 & E2). rewrite E2, <- E2. unfold kbind at 1.
  rewrite (grep_turn_spec pattern (ls2 ++ stale) [] z (unlines ls2)); try done.
  - cbv zeta. assert (length (unlines stale) = length (unlines ls1) - length (unlines ls2))%nat by (rewrite <- Hd; apply length_drop).
    assert (unlines (ls2 ++ stale) = unlines ls2 ++ unlines stale) as -> by (unfold unlines; by rewrite fmap_app, concat_app). rewrite length_app.
    destruct (Z.ltb_spec (Z.of_nat (length (unlines ls2)) - Z.of_nat (length (unlines ls2) + length (unlines stale))) 0); [|lia].
    eexists _, stale. split; [done|]. split; [done|]. split; [done|]. cbn [g_out]. unfold hits. by rewrite !filter_app, !fmap_app.
  - by apply Forall_app.
  - by constructor.
  - by rewrite E2.
  - cbn [g_buf]. unfold splice. cbn [take app Nat.add slice length]. unfold slice. cbn [take app length]. rewrite drop_0, !take_0. cbn [app]. rewrite drop_app_le by lia. rewrite Hd.
    unfold unlines. rewrite fmap_app, concat_app, <- app_assoc. done.
  - assert (unlines (ls2 ++ stale) = unlines ls2 ++ unlines stale) as Eu by (unfold unlines; by rewrite fmap_app, concat_app).
    apply Hls. rewrite Eu, length_app, <- Hd, length_drop. lia.
  - by destruct ls2.
Qed.
Lemma grep_reads_stale_lines_witness : exists s stale, grep [98] [unlines [[97; 98; 98]; [98]]; unlines [[98]]] grep_start = Panicked "grep: memmove of a negative length" s /\
  stale <> [] /\ drop (length (unlines [[98]])) (unlines [[97; 98; 98]; [98]]) = unlines stale /\ g_out s = hits [98] ([[97; 98; 98]; [98]] ++ [[98]] ++ stale).
Proof. apply grep_reads_stale_lines; first [done|by repeat constructor|cbn; lia]. Defined.
