(* ===== verification/UserLib.v ===== *)
(** * user/printf.c and user/ulib.c: formatted output and strings in user space

    [printf] gives the characters that it writes, one [write] each; [None] is
    a [va_arg] for which there is no argument of the right kind.  Shown here:
    [%d] and [%0wd] print what [atoi] reads back ([printf_atoi]), and a width
    is reached exactly ([padded_width]). *)

From Stdlib Require Import ZArith Lia.
From S2P Require Import Prelude Fmt.

(** ** printf.c *)

(** [digits[x % base]] and so on, the last digit first. *)
Definition digit_char (d : Z) : Z := if d <? 10 then 48 + d else 55 + d.
Fixpoint digits_rev (fuel : nat) (base x : Z) : list Z :=
  match fuel with
  | O => []
  | S f => digit_char (x mod base) :: (if x / base =? 0 then [] else digits_rev f base (x / base))
  end.
(** 32 digits are enough for any base. *)
Definition printint (xx base : Z) (sgn : bool) : list Z :=
  let neg := sgn && (xx <? 0) in
  let x := if neg then u32 (- xx) else u32 xx in
  rev (digits_rev 32 base x ++ (if neg then [45] else [])).
Fixpoint dec_rev (fuel : nat) (v : Z) : list Z :=
  match fuel with
  | O => []
  | S f => if v =? 0 then [] else 48 + v mod 10 :: dec_rev f (v / 10)
  end.
Definition uint_to_dec_buf (v : Z) : list Z := if v =? 0 then [48] else dec_rev 16 v.
Definition pad_of (width n : Z) : nat := Z.to_nat (if n <? width then width - n else 0).
Definition print_uint_dec_padded (v width : Z) (zpad : bool) : list Z :=
  let buf := uint_to_dec_buf v in
  repeat (if zpad then 48 else 32) (pad_of width (Z.of_nat (length buf))) ++ rev buf.
Definition print_int_dec_padded (xx width : Z) (zpad : bool) : list Z :=
  let neg := xx <? 0 in
  let buf := uint_to_dec_buf (if neg then u32 (- u32 xx) else xx) in
  let pad := pad_of width (Z.of_nat (length buf) + cbool neg) in
  if negb neg then repeat (if zpad then 48 else 32) pad ++ rev buf
  else if zpad then 45 :: repeat 48 pad ++ rev buf
  else repeat 32 pad ++ 45 :: rev buf.
Fixpoint hex_rev (fuel : nat) (v : Z) : list Z :=
  match fuel with
  | O => []
  | S f => if v =? 0 then [] else dig (Z.land v 0xf) :: hex_rev f (Z.shiftr v 4)
  end.
Definition print_hex_padded (v width : Z) (zpad : bool) : list Z :=
  let buf := if v =? 0 then [48] else hex_rev 16 v in
  repeat (if zpad then 48 else 32) (pad_of width (Z.of_nat (length buf))) ++ rev buf.
Definition print_str_padded (s : option (list Z)) (width : Z) (left : bool) : list Z :=
  let s := default chars_null s in
  let len := Z.of_nat (length s) in
  if (width <=? 0) || (width <=? len) then s
  else if left then s ++ repeat 32 (Z.to_nat (width - len)) else repeat 32 (Z.to_nat (width - len)) ++ s.

(** One conversion: what is printed and the arguments left. *)
Definition conversion (c width : Z) (left zf : bool) (ap : list varg) : option (list Z * list varg) :=
  if c =? 100 (* d *) then
    '(v, ap') ← arg_int ap; Some (if 0 <? width then print_int_dec_padded (s32 v) width zf else printint (s32 v) 10 true, ap')
  else if c =? 117 (* u *) then
    '(v, ap') ← arg_int ap; Some (if 0 <? width then print_uint_dec_padded (u32 v) width zf else printint (s32 v) 10 false, ap')
  else if (c =? 120) || (c =? 112) (* x p *) then
    '(v, ap') ← arg_int ap; Some (if 0 <? width then print_hex_padded (u32 v) width zf else printint (s32 v) 16 false, ap')
  else if c =? 115 (* s *) then
    match ap with AStr str :: ap' => Some (print_str_padded str width left, ap') | _ => None end
  else if c =? 99 (* c *) then '(v, ap') ← arg_int ap; Some ([u8 v], ap')
  else if c =? 37 then Some ([37], ap)
  else Some ([37; c], ap).
(** A flag character at the front of the format. *)
Definition flag (c : Z) (f : list Z) : bool * list Z :=
  match f with d :: f' => if d =? c then (true, f') else (false, f) | [] => (false, f) end.
(** Every turn takes a character of the format. *)
Fixpoint printf_loop (fuel : nat) (f : list Z) (ap : list varg) : option (list Z) :=
  match fuel, f with
  | _, [] | O, _ => Some []
  | S fuel, c :: f' =>
      if negb (c =? 37) then out ← printf_loop fuel f' ap; Some (c :: out)
      else
        let '(lf, f1) := flag 45 f' in
        let '(zf, f2) := flag 48 f1 in
        let '(width, f3) := width_of f2 0 in
        match f3 with
        | [] => Some [37]
        | c :: f4 => '(o, ap') ← conversion c width lf zf ap; out ← printf_loop fuel f4 ap'; Some (o ++ out)
        end
  end.
Definition printf (fmt : list Z) (ap : list varg) : option (list Z) := printf_loop (length fmt) fmt ap.

(** ** ulib.c *)

Fixpoint strcmp (p q : list Z) : Z :=
  match p, q with
  | c :: p', d :: q' => if c =? d then strcmp p' q' else c - d
  | c :: _, [] => c
  | [], d :: _ => - d
  | [], [] => 0
  end.
Fixpoint strchr (s : list Z) (c : Z) : option (list Z) :=
  match s with [] => None | d :: s' => if d =? u8 c then Some s else strchr s' c end.
Fixpoint atoi_loop (s : list Z) (n : Z) : Z :=
  match s with
  | c :: s' => if (48 <=? c) && (c <=? 57) then atoi_loop s' (s32 (n * 10 + c - 48)) else n
  | [] => n
  end.
Definition atoi (s : list Z) : Z := atoi_loop s 0.
(** [gets] with what [read] gives, a character each: the line and the input left. *)
Fixpoint gets_loop (room : nat) (input : list Z) : list Z * list Z :=
  match room, input with
  | S r, c :: input' => if (c =? 10) || (c =? 13) then ([c], input') else let (l, rest) := gets_loop r input' in (c :: l, rest)
  | _, _ => ([], input)
  end.
Definition gets (max : Z) (input : list Z) : list Z * list Z := gets_loop (Z.to_nat (max - 1)) input.

(** ** What is printed is read back *)

Lemma atoi_digits n v rest : 0 <= v < 2 ^ 31 -> v < 10 ^ Z.of_nat n -> (0 < n)%nat -> atoi_loop (rev (digits10 n v) ++ rest) 0 = atoi_loop rest v.
Proof.
  revert v rest. induction n as [|n IH]; intros v rest Hv Hn Hp; [lia|]. cbn [digits10 rev]. rewrite <- app_assoc. cbn [app].
  assert (Hd : atoi_loop (48 + v mod 10 :: rest) (v / 10) = atoi_loop rest v).
  { cbn [atoi_loop]. rewrite s32_small by dlia. zcases; try dlia. cbn [andb]. f_equal. dlia. }
  destruct (Z.eqb_spec (v / 10) 0) as [Hq|Hq]; [rewrite Hq in Hd; exact Hd|].
  destruct n as [|n]; [change (10 ^ Z.of_nat 1) with 10 in Hn; dlia|].
  rewrite IH; [exact Hd|dlia| |lia]. rewrite (Nat2Z.inj_succ (S n)), Z.pow_succ_r in Hn by lia. dlia.
Qed.
Lemma digits_rev_dec n v : 0 <= v -> digits_rev n 10 v = digits10 n v.
Proof.
  revert v. induction n as [|n IH]; intros v Hv; [done|]. cbn. unfold digit_char. destruct (Z.ltb_spec (v mod 10) 10); [|dlia]. f_equal. destruct (v / 10 =? 0); [done|]. apply IH. dlia.
Qed.
Lemma digits10_fuel n m v : 0 <= v < 10 ^ Z.of_nat n -> (0 < n <= m)%nat -> digits10 m v = digits10 n v.
Proof.
  revert m v. induction n as [|n IH]; intros m v Hv Hn; [lia|]. destruct m as [|m]; [lia|]. cbn. f_equal.
  destruct (Z.eqb_spec (v / 10) 0) as [|Hq]; [done|]. destruct n as [|n]; [change (10 ^ Z.of_nat 1) with 10 in Hv; dlia|].
  apply IH; [|lia]. rewrite (Nat2Z.inj_succ (S n)), Z.pow_succ_r in Hv by lia. dlia.
Qed.
Lemma dec_rev_dec n v : 0 < v -> dec_rev n v = digits10 n v.
Proof.
  revert v. induction n as [|n IH]; intros v Hv; [done|]. cbn. destruct (Z.eqb_spec v 0); [lia|]. f_equal.
  destruct (Z.eqb_spec (v / 10) 0) as [->|]; [by destruct n|]. apply IH. dlia.
Qed.
Lemma uint_to_dec_buf_dec v : 0 <= v -> uint_to_dec_buf v = digits10 16 v.
Proof. intros Hv. unfold uint_to_dec_buf. destruct (Z.eqb_spec v 0) as [->|]; [done|]. apply dec_rev_dec. lia. Qed.
Lemma atoi_dec v rest : 0 <= v < 2 ^ 31 -> atoi_loop (dec v ++ rest) 0 = atoi_loop rest v.
Proof. intros Hv. apply (atoi_digits 16); [done| |lia]. change (10 ^ Z.of_nat 16) with 10000000000000000. lia. Qed.
Lemma printint_dec v : 0 <= v < 2 ^ 31 -> printint v 10 true = dec v.
Proof.
  intros Hv. unfold printint. rewrite (proj2 (Z.ltb_ge v 0)) by lia. cbn [andb]. rewrite app_nil_r, u32_small, digits_rev_dec by lia.
  unfold dec. f_equal. apply digits10_fuel; [|lia]. change (10 ^ Z.of_nat 16) with 10000000000000000. lia.
Qed.
Lemma atoi_zeros n l : atoi_loop (repeat 48 n ++ l) 0 = atoi_loop l 0.
Proof. induction n as [|n IH]; [done|]. exact IH. Qed.
Definition not_digit (s : list Z) : Prop := match s with [] => True | c :: _ => c < 48 \/ 57 < c end.
Lemma atoi_end rest v : not_digit rest -> atoi_loop rest v = v.
Proof. destruct rest as [|c rest]; [done|]. intros Hr. cbn [atoi_loop]. zcases; try done; cbn in Hr; lia. Qed.

(** A number printed with %d, or with zeros up to a width, is read back by
    atoi, whatever comes behind it that is not a digit. *)
Theorem printf_atoi v width rest : 0 <= v < 2 ^ 31 -> not_digit rest ->
  (exists out, printf [37; 100] [AInt v] = Some out /\ atoi (out ++ rest) = v) /\ atoi (print_int_dec_padded v width true ++ rest) = v.
Proof.
  intros Hv Hr. split.
  - unfold printf. cbn [printf_loop length flag Z.eqb Pos.eqb negb width_of Z.leb Z.compare Pos.compare Pos.compare_cont andb].
    unfold conversion, arg_int. cbn [Z.eqb Pos.eqb mbind option_bind Z.ltb Z.compare]. rewrite s32_small by lia. rewrite printint_dec by done.
    eexists. split; [done|]. rewrite app_nil_r. unfold atoi. by rewrite atoi_dec, atoi_end.
  - unfold print_int_dec_padded. rewrite (proj2 (Z.ltb_ge v 0)) by lia. cbn [negb]. rewrite <- app_assoc. unfold atoi. rewrite atoi_zeros, uint_to_dec_buf_dec by lia.
    fold (dec v). by rewrite atoi_dec, atoi_end.
Qed.
(** A number takes exactly the width asked for, or its own if that is more. *)
Theorem padded_width v width zpad : - 2 ^ 31 <= v < 2 ^ 31 ->
  Z.of_nat (length (print_int_dec_padded v width zpad)) = Z.max width (Z.of_nat (length (dec (Z.abs v))) + cbool (v <? 0)).
Proof.
  intros Hv. unfold print_int_dec_padded. set (n := if v <? 0 then u32 (- u32 v) else v).
  assert (Hn : n = Z.abs v) by (unfold n, u32; destruct (Z.ltb_spec v 0); dlia). rewrite Hn. rewrite uint_to_dec_buf_dec by lia.
  assert (Hl : length (digits10 16 (Z.abs v)) = length (dec (Z.abs v))) by (unfold dec; by rewrite length_rev). fold (dec (Z.abs v)). rewrite Hl.
  unfold pad_of. destruct (v <? 0), zpad; cbn [cbool negb]; cbn [length]; rewrite ?length_app, ?repeat_length; cbn [length]; zcases; lia.
Qed.
