(* ===== verification/Clock.v ===== *)
(** * kernel/rtc.c and user/date.c: the clock

    The CMOS clock is a function from registers to bytes.  Shown here: in each
    of its four modes (binary or BCD, 24 or 12 hours) what [rtc_read_unix]
    makes of the registers, taken apart again by the date program, is the date
    and the time they hold ([clock_roundtrip]), and the time of day never goes
    back ([ktime_monotone]). *)

From Stdlib Require Import ZArith Lia.
From S2P Require Import Prelude Fmt UserLib.

(** ** kernel/rtc.c *)

Definition bcd_to_bin (v : Z) : Z := u8 (Z.land v 0x0F + Z.land (Z.shiftr v 4) 0x0F * 10).
Definition is_leap (y : Z) : bool :=
  if Z.rem y 400 =? 0 then true else if Z.rem y 100 =? 0 then false else Z.rem y 4 =? 0.
Definition mdays_before : list Z := [0; 31; 59; 90; 120; 151; 181; 212; 243; 273; 304; 334].
Definition days_before_month (y m : Z) : Z :=
  if (m <? 1) || (12 <? m) then 0
  else
    let d := nth (Z.to_nat (m - 1)) mdays_before 0 in
    if (2 <? m) && is_leap y then d + 1 else d.
(** [for(y = 1970; y < year; y++)]. *)
Fixpoint year_days (n : nat) (y days : Z) : Z :=
  match n with
  | O => days
  | S n' => year_days n' (y + 1) (days +u (365 + cbool (is_leap y)))
  end.
Definition utc_mktime (year mon day hour min sec : Z) : Z :=
  if (year <? 1970) || (mon <? 1) || (12 <? mon) || (day <? 1) || (31 <? day) then 0
  else
    let days := year_days (Z.to_nat (year - 1970)) 1970 0 in
    let days := days +u days_before_month year mon in
    let days := days +u (day - 1) in
    u32 (days * 86400 + hour * 3600 + min * 60 + sec).

Section Rtc.
Context (cmos_read_byte : Z -> Z). (* the clock chip *)
Definition rtc_read_unix : Z :=
  let sec := cmos_read_byte 0x00 in
  let minute := cmos_read_byte 0x02 in
  let hour := cmos_read_byte 0x04 in
  let mday := cmos_read_byte 0x07 in
  let mon := cmos_read_byte 0x08 in
  let year := cmos_read_byte 0x09 in
  let regb := cmos_read_byte 0x0B in
  let bin := negb (Z.land regb 0x04 =? 0) in
  let hour24 := negb (Z.land regb 0x02 =? 0) in
  let conv v := if bin then v else bcd_to_bin v in
  let h :=
    if hour24 then conv hour
    else
      let pm := Z.land hour 0x80 in
      let h := conv (Z.land hour 0x7F) in
      let h := if h =? 12 then 0 else h in
      if negb (pm =? 0) then h + 12 else h in
  let y := 2000 + conv year in
  let y := if y <? 1970 then y + 100 else y in
  utc_mktime y (conv mon) (conv mday) h (conv minute) (conv sec).

Record clock := { boot_epoch_sec : Z; rtc_boot_epoch_ready : bool; ticks : Z }.
Definition HZ : Z := 100.
(** What is done under rtcinitlk, and the reads of [ticks] under tickslock. *)
Definition rtc_ensure_boot_epoch : K clock unit :=
  s <- kget ;;
  if rtc_boot_epoch_ready s then kret tt
  else
    let raw := rtc_read_unix in
    let raw := if raw <? 946684800 then 946684800 else raw in
    let adj := ticks s / HZ in
    kput {| boot_epoch_sec := if adj <? raw then raw - adj else 0; rtc_boot_epoch_ready := true; ticks := ticks s |}.
Definition ktime_now : K clock Z :=
  rtc_ensure_boot_epoch ;;
  s <- kget ;;
  kret (boot_epoch_sec s +u ticks s / HZ).
End Rtc.

(** ** user/date.c *)

Record tm := { tm_sec : Z; tm_min : Z; tm_hour : Z; tm_mday : Z; tm_mon : Z; tm_year : Z; tm_wday : Z }.
Definition mdays : list Z := [31; 28; 31; 30; 31; 30; 31; 31; 30; 31; 30; 31].
Definition dimy (y m : Z) : Z :=
  if (m <? 1) || (12 <? m) then 31
  else
    let d := nth (Z.to_nat (m - 1)) mdays 0 in
    if (m =? 2) && is_leap y then d + 1 else d.
(** The two loops; every turn takes days away. *)
Fixpoint year_loop (fuel : nat) (days y : Z) : Z * Z :=
  let d := 365 + cbool (is_leap y) in
  match fuel with
  | O => (days, y)
  | S f => if days <? d then (days, y) else year_loop f (days - d) (y + 1)
  end.
Fixpoint month_loop (fuel : nat) (y days mon : Z) : Z * Z :=
  let dim := dimy y mon in
  match fuel with
  | O => (days, mon)
  | S f => if days <? dim then (days, mon) else month_loop f y (days - dim) (mon + 1)
  end.
Definition unix_to_tm (t : Z) : tm :=
  let days := Z.quot t 86400 in
  let sod := Z.rem t 86400 in
  let '(left_y, y) := year_loop (Z.to_nat days) days 1970 in
  let '(left_m, mon) := month_loop (Z.to_nat left_y) y left_y 1 in
  {| tm_sec := Z.rem sod 60; tm_min := Z.rem (Z.quot sod 60) 60; tm_hour := Z.quot sod 3600;
     tm_mday := left_m + 1; tm_mon := mon - 1; tm_year := y; tm_wday := Z.rem (Z.quot t 86400 + 4) 7 |}.

Definition pd (v : Z) : list Z := printint v 10 true.
Definition print02 (v : Z) : list Z := if v <? 10 then 48 :: pd v else pd v.
Definition text (s : string) : list Z := (fun a => Z.of_N (Ascii.N_of_ascii a)) <$> String.list_ascii_of_string s.
Definition wd : list string := ["Sun"; "Mon"; "Tue"; "Wed"; "Thu"; "Fri"; "Sat"].
Definition mn : list string := ["Jan"; "Feb"; "Mar"; "Apr"; "May"; "Jun"; "Jul"; "Aug"; "Sep"; "Oct"; "Nov"; "Dec"].
Definition wdf : list string := ["Sunday"; "Monday"; "Tuesday"; "Wednesday"; "Thursday"; "Friday"; "Saturday"].
Definition mnf : list string := ["January"; "February"; "March"; "April"; "May"; "June"; "July"; "August"; "September"; "October"; "November"; "December"].
(** An index out of the table is not a string. *)
Definition name_of (l : list string) (i : Z) : option (list Z) := if i <? 0 then None else text <$> l !! Z.to_nat i.
Definition hms (t : tm) : list Z := print02 (tm_hour t) ++ 58 :: print02 (tm_min t) ++ 58 :: print02 (tm_sec t).
Definition print_default (t : tm) : option (list Z) :=
  w ← name_of wd (tm_wday t); m ← name_of mn (tm_mon t);
  Some (w ++ 32 :: m ++ 32 :: (if tm_mday t <? 10 then [32] else []) ++ pd (tm_mday t) ++ 32 :: hms t ++
        text " UTC " ++ print_int_dec_padded (tm_year t) 4 true ++ [10]).
(** One conversion of [strftime_fmt]. *)
Definition strftime_conv (c : Z) (tm : tm) (t : Z) : option (list Z) :=
  if c =? 37 then Some [37]
  else if c =? 97 (* a *) then name_of wd (tm_wday tm)
  else if c =? 65 (* A *) then name_of wdf (tm_wday tm)
  else if c =? 98 (* b *) then name_of mn (tm_mon tm)
  else if c =? 66 (* B *) then name_of mnf (tm_mon tm)
  else if c =? 100 (* d *) then Some (print02 (tm_mday tm))
  else if c =? 101 (* e *) then Some ((if tm_mday tm <? 10 then [32] else []) ++ pd (tm_mday tm))
  else if c =? 72 (* H *) then Some (print02 (tm_hour tm))
  else if c =? 73 (* I *) then
    let hour12 := Z.rem (tm_hour tm) 12 in Some (print02 (if hour12 =? 0 then 12 else hour12))
  else if c =? 109 (* m *) then Some (print02 (tm_mon tm + 1))
  else if c =? 77 (* M *) then Some (print02 (tm_min tm))
  else if c =? 110 (* n *) then Some [10]
  else if c =? 112 (* p *) then Some (if 12 <=? tm_hour tm then text "PM" else text "AM")
  else if c =? 83 (* S *) then Some (print02 (tm_sec tm))
  else if c =? 115 (* s *) then Some (pd t)
  else if c =? 84 (* T *) then Some (hms tm)
  else if c =? 117 (* u *) then Some (pd (if tm_wday tm =? 0 then 7 else tm_wday tm))
  else if c =? 119 (* w *) then Some (pd (tm_wday tm))
  else if c =? 121 (* y *) then Some (print02 (Z.rem (tm_year tm) 100))
  else if c =? 89 (* Y *) then Some (pd (tm_year tm))
  else if c =? 90 (* Z *) then Some (text "UTC")
  else if c =? 116 (* t *) then Some [9]
  else Some [37; c].
Fixpoint strftime_fmt (fmt : list Z) (tm : tm) (t : Z) : option (list Z) :=
  match fmt with
  | [] => Some []
  | c :: fmt' =>
      if negb (c =? 37) then out ← strftime_fmt fmt' tm t; Some (c :: out)
      else match fmt' with
      | [] => Some [37]
      | d :: fmt'' => o ← strftime_conv d tm t; out ← strftime_fmt fmt'' tm t; Some (o ++ out)
      end
  end.

(** ** Dates and seconds *)

(** Both loops take lengths away one by one. *)
Fixpoint take_loop (len : Z -> Z) (fuel : nat) (days k : Z) : Z * Z :=
  match fuel with
  | O => (days, k)
  | S f => if days <? len k then (days, k) else take_loop len f (days - len k) (k + 1)
  end.
Fixpoint total (len : Z -> Z) (n : nat) (k : Z) : Z := match n with O => 0 | S n' => len k + total len n' (k + 1) end.
Definition year_len (y : Z) : Z := 365 + cbool (is_leap y).
Lemma year_loop_take fuel days y : year_loop fuel days y = take_loop year_len fuel days y.
Proof. revert days y. induction fuel as [|f IH]; intros days y; [done|]. cbn. fold (year_len y). by rewrite IH. Qed.
Lemma month_loop_take fuel y days m : month_loop fuel y days m = take_loop (dimy y) fuel days m.
Proof. revert days m. induction fuel as [|f IH]; intros days m; [done|]. cbn. by rewrite IH. Qed.
Lemma take_loop_total len n : (forall k, 1 <= len k) -> forall fuel k r, 0 <= r < len (k + Z.of_nat n) -> (n <= fuel)%nat ->
  take_loop len fuel (total len n k + r) k = (r, k + Z.of_nat n).
Proof.
  intros Hl. assert (Ht : forall n k, 0 <= total len n k) by (clear n; induction n as [|n IH]; intros k; cbn; [lia|]; specialize (Hl k); specialize (IH (k + 1)); lia).
  induction n as [|n IH]; intros fuel k r Hr Hf; cbn [total].
  - rewrite Z.add_0_l, Z.add_0_r in *. destruct fuel; cbn; [done|]. by rewrite (proj2 (Z.ltb_lt _ _)) by lia.
  - destruct fuel as [|f]; [lia|]. cbn [take_loop]. specialize (Ht n (k + 1)). rewrite (proj2 (Z.ltb_ge _ _)) by lia.
    replace (len k + total len n (k + 1) + r - len k) with (total len n (k + 1) + r) by lia.
    rewrite IH; [f_equal; lia| |lia]. by replace (k + 1 + Z.of_nat n) with (k + Z.of_nat (S n)) by lia.
Qed.
Lemma total_ge len n k : (forall k, 1 <= len k) -> Z.of_nat n <= total len n k.
Proof. intros Hl. revert k. induction n as [|n IH]; intros k; cbn [total]; [lia|]. specialize (Hl k). specialize (IH (k + 1)). lia. Qed.
Lemma total_le len c n k : (forall k, len k <= c) -> total len n k <= c * Z.of_nat n.
Proof. intros Hl. revert k. induction n as [|n IH]; intros k; cbn [total]; [lia|]. specialize (Hl k). specialize (IH (k + 1)). lia. Qed.
Lemma year_len_range y : 1 <= year_len y <= 366.
Proof. unfold year_len. destruct (is_leap y); cbn; lia. Qed.
Lemma year_days_total n : forall y days, 0 <= days -> days + 366 * Z.of_nat n < 2 ^ 32 -> year_days n y days = days + total year_len n y.
Proof.
  induction n as [|n IH]; intros y days Hd Hb; cbn [year_days total]; [lia|]. pose proof (year_len_range y). unfold year_len in *.
  rewrite u32_small by lia. rewrite IH by lia. lia.
Qed.
Lemma dimy_ge y m : 1 <= dimy y m.
Proof.
  unfold dimy. destruct (m <? 1) eqn:E1, (12 <? m) eqn:E2; cbn [orb]; try lia.
  assert (Hm : forall i, 28 <= nth i mdays 28) by (intros i; do 12 (destruct i as [|i]; [cbn; lia|]); destruct i; cbn; lia).
  assert (nth (Z.to_nat (m - 1)) mdays 0 = nth (Z.to_nat (m - 1)) mdays 28) as -> by (apply nth_indep; cbn; lia).
  specialize (Hm (Z.to_nat (m - 1))). destruct ((m =? 2) && is_leap y); lia.
Qed.
(** The days before a month are the lengths of the months before it. *)
Lemma month_days y m : 1 <= m <= 12 -> days_before_month y m = total (dimy y) (Z.to_nat (m - 1)) 1.
Proof.
  intros Hm. assert (exists k, (k < 12)%nat /\ m = Z.of_nat k + 1) as (k & Hk & ->) by (exists (Z.to_nat (m - 1)); lia).
  replace (Z.to_nat (Z.of_nat k + 1 - 1)) with k by lia. clear Hm. unfold days_before_month, dimy. destruct (is_leap y); do 12 (destruct k as [|k]; [done|]); lia.
Qed.

(** A date and a time of day. *)
Record moment := { mo_y : Z; mo_m : Z; mo_d : Z; mo_h : Z; mo_mi : Z; mo_s : Z }.
Record valid (x : moment) : Prop := {
  va_m : 1 <= mo_m x <= 12;
  va_d : 1 <= mo_d x <= dimy (mo_y x) (mo_m x);
  va_h : 0 <= mo_h x < 24;
  va_mi : 0 <= mo_mi x < 60;
  va_s : 0 <= mo_s x < 60;
}.
(** The days since 1970. *)
Definition day_number (x : moment) : Z :=
  total year_len (Z.to_nat (mo_y x - 1970)) 1970 + total (dimy (mo_y x)) (Z.to_nat (mo_m x - 1)) 1 + (mo_d x - 1).
Lemma days_of_year y : total (dimy y) 12 1 = year_len y.
Proof. unfold dimy, year_len. by destruct (is_leap y). Qed.
(** By enumeration of the months. *)
Lemma months_fit y k : (k < 12)%nat -> total (dimy y) k 1 + dimy y (Z.of_nat k + 1) <= year_len y /\ dimy y (Z.of_nat k + 1) <= 31.
Proof. intros Hk. rewrite <- days_of_year. unfold dimy. destruct (is_leap y); do 12 (destruct k as [|k]; [by vm_compute|]); lia. Qed.
Lemma month_room y m d : 1 <= m <= 12 -> 1 <= d <= dimy y m -> 0 <= total (dimy y) (Z.to_nat (m - 1)) 1 + (d - 1) < year_len y /\ d <= 31.
Proof.
  intros Hm Hd. destruct (months_fit y (Z.to_nat (m - 1)) ltac:(lia)) as [H1 H2]. replace (Z.of_nat (Z.to_nat (m - 1)) + 1) with m in * by lia.
  pose proof (total_ge (dimy y) (Z.to_nat (m - 1)) 1 (dimy_ge y)). lia.
Qed.
Lemma mktime_value x : valid x -> 1970 <= mo_y x <= 2099 ->
  utc_mktime (mo_y x) (mo_m x) (mo_d x) (mo_h x) (mo_mi x) (mo_s x) = day_number x * 86400 + mo_h x * 3600 + mo_mi x * 60 + mo_s x /\ 0 <= day_number x < 47580.
Proof.
  intros [Hm Hd Hh Hmi Hs] Hy. pose proof (month_room _ _ _ Hm Hd) as [Hr Hd31]. pose proof (year_len_range (mo_y x)).
  set (n := Z.to_nat (mo_y x - 1970)). pose proof (total_le year_len 366 n 1970 (fun k => proj2 (year_len_range k))) as Ht. pose proof (total_ge year_len n 1970 (fun k => proj1 (year_len_range k))).
  assert (Hn : Z.of_nat n <= 129) by (unfold n; lia). assert (Hdn : 0 <= day_number x < 47580) by (unfold day_number; fold n; lia). split; [|done].
  unfold utc_mktime. zcases; try lia. cbn [orb]. fold n. rewrite year_days_total by lia. rewrite Z.add_0_l, month_days by done. unfold day_number in *. fold n in Hdn |- *.
  pose proof (total_ge (dimy (mo_y x)) (Z.to_nat (mo_m x - 1)) 1 (dimy_ge (mo_y x))). set (M := total (dimy (mo_y x)) _ 1) in *. set (Y := total year_len n 1970) in *.
  rewrite (u32_small (Y + M)), (u32_small (Y + M + (mo_d x - 1))), u32_small by lia. lia.
Qed.
Definition tm_of (x : moment) : tm :=
  {| tm_sec := mo_s x; tm_min := mo_mi x; tm_hour := mo_h x; tm_mday := mo_d x; tm_mon := mo_m x - 1; tm_year := mo_y x; tm_wday := (day_number x + 4) mod 7 |}.
Lemma tm_value x : valid x -> 1970 <= mo_y x -> unix_to_tm (day_number x * 86400 + mo_h x * 3600 + mo_mi x * 60 + mo_s x) = tm_of x.
Proof.
  intros [Hm Hd Hh Hmi Hs] Hy. pose proof (month_room _ _ _ Hm Hd) as [Hr Hd31]. set (n := Z.to_nat (mo_y x - 1970)).
  pose proof (total_ge year_len n 1970 (fun k => proj1 (year_len_range k))) as Hg. assert (Hdn : 0 <= day_number x) by (unfold day_number; fold n; lia).
  set (sod := mo_h x * 3600 + mo_mi x * 60 + mo_s x). replace (day_number x * 86400 + mo_h x * 3600 + mo_mi x * 60 + mo_s x) with (day_number x * 86400 + sod) by (unfold sod; lia).
  assert (Hsod : 0 <= sod < 86400) by (unfold sod; lia). unfold unix_to_tm. rewrite (Z.quot_div_nonneg (day_number x * 86400 + sod)), (Z.rem_mod_nonneg (day_number x * 86400 + sod)) by lia.
  assert ((day_number x * 86400 + sod) / 86400 = day_number x) as -> by dlia. assert ((day_number x * 86400 + sod) mod 86400 = sod) as -> by dlia.
  rewrite year_loop_take. assert (Ey : take_loop year_len (Z.to_nat (day_number x)) (day_number x) 1970 = (total (dimy (mo_y x)) (Z.to_nat (mo_m x - 1)) 1 + (mo_d x - 1), mo_y x)).
  { set (r := total (dimy (mo_y x)) (Z.to_nat (mo_m x - 1)) 1 + (mo_d x - 1)) in *. replace (day_number x) with (total year_len n 1970 + r) by (unfold day_number, r; fold n; lia).
    rewrite (take_loop_total year_len n (fun k => proj1 (year_len_range k))); [f_equal; unfold n; lia|replace (1970 + Z.of_nat n) with (mo_y x) by (unfold n; lia); lia|lia]. }
  rewrite Ey, month_loop_take. pose proof (total_ge (dimy (mo_y x)) (Z.to_nat (mo_m x - 1)) 1 (dimy_ge (mo_y x))).
  rewrite (take_loop_total (dimy (mo_y x)) (Z.to_nat (mo_m x - 1)) (dimy_ge (mo_y x))); [|replace (1 + Z.of_nat (Z.to_nat (mo_m x - 1))) with (mo_m x) by lia; lia|lia].
  unfold tm_of. rewrite !(Z.quot_div_nonneg sod) by lia. f_equal; try lia.
  - rewrite Z.rem_mod_nonneg by lia. unfold sod. dlia.
  - rewrite Z.rem_mod_nonneg by dlia. unfold sod. dlia.
  - unfold sod. dlia.
  - apply Z.rem_mod_nonneg; lia.
Qed.

(** ** The registers of the clock *)

Definition to_bcd (v : Z) : Z := 16 * (v / 10) + v mod 10.
Definition hour12 (h : Z) : Z := if h mod 12 =? 0 then 12 else h mod 12.
(** How a moment of this century is held, in binary or BCD, with 24 or 12 hours. *)
Definition registers (bin h24 : bool) (x : moment) (reg : Z) : Z :=
  let enc v := if bin then v else to_bcd v in
  if reg =? 0x00 then enc (mo_s x)
  else if reg =? 0x02 then enc (mo_mi x)
  else if reg =? 0x04 then
    if h24 then enc (mo_h x) else enc (hour12 (mo_h x)) + (if 12 <=? mo_h x then 0x80 else 0)
  else if reg =? 0x07 then enc (mo_d x)
  else if reg =? 0x08 then enc (mo_m x)
  else if reg =? 0x09 then enc (mo_y x - 2000)
  else if reg =? 0x0B then (if bin then 0x04 else 0) + (if h24 then 0x02 else 0)
  else 0.
Lemma bcd_roundtrip v : 0 <= v < 100 -> bcd_to_bin (to_bcd v) = v.
Proof.
  intros Hv. unfold bcd_to_bin, to_bcd, u8. change 0x0F with (Z.ones 4). rewrite !Z.land_ones, Z.shiftr_div_pow2 by lia.
  change (2 ^ 4) with 16. change (2 ^ 8) with 256. dlia.
Qed.
Lemma hour_roundtrip (bin : bool) h : 0 <= h < 24 ->
  let r := (if bin then hour12 h else to_bcd (hour12 h)) + (if 12 <=? h then 0x80 else 0) in
  let g := if bin then Z.land r 0x7F else bcd_to_bin (Z.land r 0x7F) in
  let g := if g =? 12 then 0 else g in
  (if negb (Z.land r 0x80 =? 0) then g + 12 else g) = h.
Proof.
  intros Hh. assert (exists k, (k < 24)%nat /\ h = Z.of_nat k) as (k & Hk & ->) by (exists (Z.to_nat h); lia). clear Hh.
  destruct bin; do 24 (destruct k as [|k]; [by vm_compute|]); lia.
Qed.
Lemma registers_read bin h24 x : valid x -> 2000 <= mo_y x <= 2099 ->
  rtc_read_unix (registers bin h24 x) = utc_mktime (mo_y x) (mo_m x) (mo_d x) (mo_h x) (mo_mi x) (mo_s x).
Proof.
  intros [Hm Hd Hh Hmi Hs] Hy. pose proof (month_room _ _ _ Hm Hd) as [_ Hd31]. pose proof (hour_roundtrip bin (mo_h x) Hh) as Eh. cbv zeta in Eh.
  unfold rtc_read_unix, registers. cbn [Z.eqb Pos.eqb]. rewrite !(Z.add_comm (if bin then 4 else 0)).
  assert (negb (Z.land ((if h24 then 2 else 0) + (if bin then 4 else 0)) 4 =? 0) = bin) as -> by (by destruct h24, bin).
  assert (negb (Z.land ((if h24 then 2 else 0) + (if bin then 4 else 0)) 2 =? 0) = h24) as -> by (by destruct h24, bin).
  destruct bin, h24; rewrite ?bcd_roundtrip by lia; rewrite ?Eh; replace (2000 + (mo_y x - 2000)) with (mo_y x) by lia; rewrite (proj2 (Z.ltb_ge (mo_y x) 1970)) by lia; done.
Qed.

(** C25. The clock is read right: for every moment from 2000 on that fits a
    signed 32-bit time, in each of the four modes of the clock, the seconds
    that the kernel makes of the registers are taken apart by the date program
    into the same date, time and day of the week. *)
Theorem clock_roundtrip bin h24 x : valid x -> 2000 <= mo_y x <= 2037 -> unix_to_tm (s32 (rtc_read_unix (registers bin h24 x))) = tm_of x.
Proof.
  intros Hv Hy. rewrite registers_read by (done || lia). destruct (mktime_value x Hv ltac:(lia)) as [-> Hd]. pose proof Hv as [Hm Hdd Hh Hmi Hs].
  assert (Hb : day_number x < 24837).
  { pose proof (month_room _ _ _ Hm Hdd) as [Hr _]. unfold day_number. set (n := Z.to_nat (mo_y x - 1970)). assert (exists k, (k <= 67)%nat /\ n = k) as (k & Hk & Ek) by (exists n; split; [unfold n; lia|done]).
    assert (Ht : total year_len n 1970 + year_len (1970 + Z.of_nat n) <= 24837) by (rewrite Ek; clear -Hk; do 68 (destruct k as [|k]; [by vm_compute|]); lia).
    replace (1970 + Z.of_nat n) with (mo_y x) in Ht by (unfold n; lia). lia. }
  rewrite s32_small by lia. apply tm_value; [done|lia].
Qed.
Lemma clock_roundtrip_witness : unix_to_tm (s32 (rtc_read_unix (registers false false {| mo_y := 2024; mo_m := 2; mo_d := 29; mo_h := 12; mo_mi := 34; mo_s := 56 |}))) =
  tm_of {| mo_y := 2024; mo_m := 2; mo_d := 29; mo_h := 12; mo_mi := 34; mo_s := 56 |}.
Proof. apply clock_roundtrip; [constructor|]; by vm_compute. Defined.

(** From 2038 on, the time is negative to the date program: the day of the
    week is looked up before the start of the table. *)
Theorem date_fails_in_2038 : exists t, s32 (utc_mktime 2038 1 21 0 0 0) = t /\ t < 0 /\ tm_wday (unix_to_tm t) < 0 /\ print_default (unix_to_tm t) = None.
Proof. eexists. split; [vm_compute; reflexivity|]. by vm_compute. Qed.

(** The time never goes back while the ticks go on, and it starts at 2000. *)
Theorem ktime_monotone cmos s t1 s1 t2 s2 : 0 <= ticks s -> ktime_now cmos s = Done t1 s1 ->
  forall k, 0 <= k -> ktime_now cmos {| boot_epoch_sec := boot_epoch_sec s1; rtc_boot_epoch_ready := rtc_boot_epoch_ready s1; ticks := ticks s1 + k |} = Done t2 s2 ->
  boot_epoch_sec s1 + (ticks s1 + k) / HZ < 2 ^ 32 -> 0 <= boot_epoch_sec s1 -> t1 <= t2.
Proof.
  intros Ht E k Hk E2 Hb He. unfold ktime_now, rtc_ensure_boot_epoch, kbind, kget in E, E2. cbn [rtc_boot_epoch_ready ticks boot_epoch_sec] in E2.
  assert (Hr : rtc_boot_epoch_ready s1 = true /\ t1 = boot_epoch_sec s1 +u ticks s1 / HZ /\ ticks s1 = ticks s).
  { destruct (rtc_boot_epoch_ready s) eqn:Er; cbn in E; injection E as <- <-; by rewrite ?Er. }
  destruct Hr as (Hr & -> & Hts). rewrite Hr in E2. cbn in E2. injection E2 as <- _. unfold HZ in *. rewrite !u32_small by dlia. dlia.
Qed.
